(* ===== verification/_CoqProject ===== *)
-Q . S2P
Prelude.v
Monad.v
CString.v
KState.v
Spinlock.v
Sched.v
Interleave.v
Kalloc.v
Bio.v
Ide.v
Log.v
Fs.v
Inode.v
Growth.v
Path.v
Vm.v
Paging.v
AddrSpace.v
Uvm.v
Pipe.v
PipeUsers.v
File.v
Proc.v
Container.v
Isolation.v
ProcMem.v
Fork.v
Syscall.v
Exec.v
ExecMem.v
ExecLoad.v
ExecSpec.v
Sysfile.v
Console.v
Tty.v
Trap.v
Locks.v
X86.v
Protect.v
Entry.v
Swtch.v
Mp.v
Apic.v
Boot.v
Grep.v
MkFs.v
MkFsSpec.v
UserTests.v
Umalloc.v
Printf.v
UserProgs.v
UserInfo.v
Shell.v
ShellSpec.v
ShellParse.v
ShellRun.v
