(* ===== verification/Prelude.v ===== *)
(** * xv6c: a verification development

    xv6c is the teaching kernel xv6 (C, x86) with containers: a container has a row of the
    process table, a root directory, and limits on processes, memory and disk; the
    scheduler visits the containers in turn.  This development translates the C sources
    under src/ into Rocq definitions and proves what makes them correct.

    ** How the kernel is represented

    Machine integers are [Z] with their wrap-around written out ([u32], [i32], ...), memory
    is a function from addresses to bytes, arrays of bytes are lists (this file).  A kernel
    function is a function from the global state [kst] (KState.v) to an [outcome]
    (Monad.v): a return, a [panic()], a fault (NULL or out-of-range access), a switch to
    the scheduler with the rest of the function as continuation, or an exhausted loop
    bound.  A pointer into a table is an index into it.  A spinlock is held or not, as one
    CPU sees it; Spinlock.v justifies that view.  The functions whose correctness is in the
    order of their lock operations ([sleep], [wakeup], sleep locks) are written over a class
    of these operations ([Cpu], Sched.v), and run both as kernel functions and one operation
    at a time between processes.  Code outside src/ is a parameter: the
    symbols of the linker script and the assembly ([Linker], with what kernel.ld promises of
    them in [Linked]), the device switch ([Devsw], instantiated by the console), and the disk
    controller ([IdeDevice] with [IdeLaws]).

    ** Files

    - Prelude.v: integers, memory, byte lists, searching a list; Monad.v: the monad, its
      loops and its rules; CString.v: string.c and the string part of ulib.c.
    - KState.v: constants and structs of param.h, fs.h, mmu.h, memlayout.h, proc.h,
      container.h, file.h, buf.h, sleeplock.h; the global state and its accessors.
    - Spinlock.v: spinlock.c, [mycpu] and [cpuid].  [SpinCpu] is one CPU (interrupt flag,
      [pushcli] nesting), [SpinMulti] several CPUs interleaving the atomic steps.
    - Sched.v: [sleep], [wakeup], [yield] (proc.c), [wakeup1], [sched] (container.c) and
      sleeplock.c; Interleave.v: sleep locks used by several processes at once.  Kalloc.v:
      kalloc.c and [ckill] of container.c.
    - Bio.v: bio.c and the memory disk memide.c.  Ide.v: the IDE driver ide.c.
    - Log.v: log.c and [readsb].  Fs.v: the block and inode layers of fs.c.  Inode.v:
      theorems about inodes and file contents; Growth.v: about writes for which a file needs
      new blocks.  Path.v: directories and paths of fs.c.
    - Vm.v: vm.c.  Paging.v: theorems about page tables.  AddrSpace.v: page tables as an
      abstract address space with the pages it owns, and the routines of vm.c that build and
      free one; Uvm.v: the same for [allocuvm] and [copyuvm].  Pipe.v: pipe.c; PipeUsers.v: a
      pipe with any number of writers and readers.  File.v: file.c and [pipealloc].  Proc.v: the rest of proc.c.  Container.v: container.c.  Isolation.v:
      theorems about containers.  ProcMem.v and Fork.v: theorems about [growproc], [fork]
      and [wait].
    - Syscall.v: syscall.c's argument functions and sysproc.c.  Exec.v: exec.c; ExecMem.v:
      theorems about [copyout], the stack of a new program and the exchange of images;
      ExecLoad.v: about loading a file, over the class [FileReads] that the file system
      satisfies; ExecSpec.v: about [exec] as a whole.  Sysfile.v: sysfile.c, the table of
      system calls and their dispatch.
    - Console.v: console.c, uart.c, kbd.c and kbd.h.  Tty.v: theorems about the console.
      Trap.v: trap.c and main.c.  Locks.v: a type system of lock states in which every
      handler of the kernel is typed.
    - The machine: X86.v: the processor, its registers, stack, privilege levels and
      descriptor tables, and the instructions the assembly uses.  Protect.v: the structures
      and macros of mmu.h, [lgdt]/[lidt] (x86.h), [seginit] and the task state of
      [switchuvm] (vm.c), the gates of [tvinit] (trap.c).  Entry.v: trapasm.S, swtch.S,
      the vectors of vectors.pl and the stubs of usys.S as lists of instructions.  Swtch.v:
      theorems about switching and the first run of a process.  Mp.v: mp.c and mp.h.
      Apic.v: lapic.c, ioapic.c, picirq.c.  Boot.v: bootmain.c.
    - MkFs.v: mkfs.c, the image as a list of blocks; MkFsSpec.v: that the image is the file
      system of the files named.
    - UserTests.v: the tests of usertests.c that do not fork, as programs of system calls, and
      their execution on the kernel from the image of mkfs.
    - User programs: Grep.v: the matcher and line loop of grep.c; Umalloc.v: umalloc.c over the bytes of a process;
      Printf.v: printf.c.  Shell.v: sh.c, its parser over the line's buffer and a heap of
      nodes, and [runcmd] as a program of system calls; ShellSpec.v: the grammar, the
      tokens of a line and a parser of token lists; ShellParse.v and ShellRun.v: theorems
      about parsing and running a line.  UserProgs.v: cat, wc, echo, echoloop, kill, rm,
      mkdir, ln, ls, zombie, grep, init and ctool as trees of system calls; UserInfo.v: df, free,
      ps and [info] of ctool, on the table [cinfo] fills.

    ** What the theorems show

    - Locks and switching: no two CPUs are inside one spinlock; [acquire]/[release] behave
      as the list of held locks of the other files.  In every interleaving of processes that
      use a sleep lock at most one has it, and none stays asleep when it is free with no
      wake-up on the way.  Every trap and every round of the scheduler takes and releases locks in
      pairs: no lock is taken twice or released unheld, a process switches with exactly the
      process-table lock, and none is held on the way back to user code.
    - The machine: user code enters the kernel only through the system call gate, on its own
      kernel stack; an interrupt restores every register; a system call stub runs the handler of
      its name and returns its result; [swtch] resumes what a [swtch] saved, and a new
      process starts in [forkret] and leaves through [trapret]; [mpinit] records the
      processors of the configuration table; interrupts arrive at the vectors of their
      handlers; the boot loader puts the kernel file in memory.
    - Memory: [kalloc]/[kfree] on the free list and the container's account, and that no
      container exceeds its limit; [mappages] adds exactly the translations it is asked for
      to what the hardware computes from the page tables.  Every page has one owner: an address
      space, the free list or someone else, and the routines of vm.c keep it so on all their
      paths.  [memmove] copies under any overlap; [atoi] inverts [itoa].
    - Processes: [growproc] changes size and memory together, except that it takes a shrink
      to size 0 for a failure after the pages are gone; [fork] makes a child with a copy
      of its parent's memory, files and trap frame in pages of its own, and without memory it
      gives back all but at most one page; [wait] frees all of the child it reaps.  [exec]
      of an open file leaves the segments of the file in memory, a guard page and a stack with
      the arguments, and frees the old image, or it leaves everything as it was.
    - Disk: the buffer cache returns the block as last written, recycles the least recently
      used buffer and writes through; the log makes a transaction atomic for a crash after
      any number of disk writes, recovery can be interrupted itself, and space is reserved;
      the IDE driver's queue implements the memory disk, and every request completes.
    - Files: block allocation and its limit, inode cache and inode round trip, what [readi]
      and [writei] do to a file's bytes, with the blocks a write takes recorded in the inode and
      its indirect block; path elements; [dirlink] refuses a name that is there, and
      [dirlookup] finds one it added.  An image
      made by mkfs holds the files it was given under their names, and nothing shared or lost.
    - Containers: what one turn of the scheduler does, fairness within a container, that
      [kill] and [cinfo] stay inside the caller's container, and that the control calls
      refine a life cycle only the root container can drive.
    - Pipes and devices: a pipe is a bounded queue for all its users, who sleep only when it is
      full or empty; system call arguments cannot reach
      outside the process for any user stack; the console implements a row of terminals.
    - grep: the matcher decides the meaning of patterns, and the line loop prints exactly
      the matching lines of a file of text.
    - The user allocator: blocks handed out overlap nothing, no memory is lost, the ring of
      free blocks stays in order and joined.  [printf] prints numbers that stand for their
      arguments, and the pieces of its format in order.
    - The shell: the parser accepts exactly the grammar, for any line, without leaving its
      buffer, nodes or vectors; a line runs exactly the programs of its command, each with
      the descriptors its redirections and pipes give it and no other.
    - The other programs: cat copies and wc counts a stream however the reads cut it;
      [ctool create] copies exactly the programs named and asks for the limits of its
      flags; ps shows exactly the processes in use; the total by which [info] divides.
    - One evaluation: the kernel, started on an image of mkfs, runs the short sequential
      tests of usertests.c to their end.

    Equations between runs are stated for a calm system where the code would otherwise
    sleep (no process asleep inside the file system, [quiet] in Sched.v; a transaction in
    progress, [in_txn] in Fs.v); the sleeping paths have theorems of their own: those of
    Interleave.v and PipeUsers.v, about all reachable states of a system of processes,
    and those of Locks.v and of [begin_op] in Log.v ([wpr] in Monad.v), where the scheduler comes
    back in any state that keeps the stated invariants.

    ** Bounds

    A loop whose length the state determines has that bound and is shown never to use it
    up (the ring of buffers, the chunks of a read, the characters of a line).  A loop that
    waits has the bound [MAXWAIT] on re-checks; each of them ends in a switch, so that no
    theorem about a run without switches meets it.  In Interleave.v and PipeUsers.v the bound
    is arbitrary: each call of [acquiresleep] has its own, the users of a pipe share one.  The endless loops of [scheduler()], of init and of the shell are cut
    after a number of rounds, and the loops over a stream in cat, wc, ls and ctool have
    fuel, for cat and wc one more than the number of reads.  The recursion of the shell's parser
    has fuel linear in the line, and the walks of the user allocator fuel linear in the free
    list, both shown to be enough; so is the fuel of mkfs's copy loop (one turn per block
    touched) and of [mpinit] (an entry has at least eight bytes).  The loops that poll a device
    ([lapicinit], [cmostime]) have fuel, and their theorems are for a device that answers.

    ** Not modelled

    The mode switches of the boot path (bootasm.S, entry.S, entryother.S) and initcode.S, whose
    bytes are a parameter.  The processor in X86.v has the instructions the assembly uses;
    what the C compiler makes of the C code is the calling convention ([c_returned]).  [main]
    is that of a machine with one processor: [startothers] is not here.  In [trap] the disk
    interrupt is that of the memory disk, which does nothing, and [lapiceoi], which only writes
    a register of the local APIC, is left out; Apic.v takes the interrupt lines from the IDE
    driver's [ideinit].  The wait of [iderw] for its request is the condition [iderw_done].  Of
    usertests.c the tests that fork, and the other test programs, are not here: what they do
    depends on the order in which the processes run, and they state no contract beyond their
    success.  The long sequential tests (writetest, writetest1, createtest, bigwrite, bigfile,
    bigdir, iref) are definitions; [quick_tests] leaves them out because of the time their
    execution takes.  The lookup of the program's path is not part of the theorem about
    [exec], which starts from the locked inode.  The calls of [malloc]
    in ctool and ps are taken to succeed.  The shell's [malloc] is a number of nodes it can
    give, and the kernel under the shell an abstract table of descriptors.  [cprintf] in the
    kernel components records the format and its arguments; Console.v has it character by
    character.  Definitions without a theorem of their own beyond the discipline of locks are
    [inituvm] and [kvmalloc] in Vm.v, those of File.v, in Proc.v [initprocess] and
    [exit], those of Sysfile.v (which the tests above execute), and in Fs.v/Path.v
    [ialloc], [itrunc], [namex], [dirsize]. *)

From stdpp Require Export base list numbers gmap strings.

#[global] Open Scope Z_scope.

(** ** Machine integers

    C's [uint], [int], [ushort], [short] and [uchar] are kept as [Z]; the
    wrap-around of every conversion is written out. *)

Definition u32 (x : Z) : Z := x mod 4294967296.
Definition i32 (x : Z) : Z := (x + 2147483648) mod 4294967296 - 2147483648.
Definition u16 (x : Z) : Z := x mod 65536.
Definition i16 (x : Z) : Z := (x + 32768) mod 65536 - 32768.
Definition u8 (x : Z) : Z := x mod 256.
Definition i8 (x : Z) : Z := (x + 128) mod 256 - 128.

(** C truth of an [int]. *)
Definition b2z (b : bool) : Z := if b then 1 else 0.
Definition z2b (z : Z) : bool := negb (z =? 0).

Create HintDb cint.

(** [zlia] also understands [/] and [mod] by constants and the wrap-arounds. *)
Ltac zlia :=
  unfold u32, i32, u16, i16, u8, i8, b2z, z2b in *;
  Z.div_mod_to_equations; lia.

Lemma u32_range x : 0 <= u32 x < 4294967296.
Proof. zlia. Qed.

Lemma u32_small x : 0 <= x < 4294967296 -> u32 x = x.
Proof. apply Z.mod_small. Qed.

Lemma u32_idemp x : u32 (u32 x) = u32 x.
Proof. apply Z.mod_mod. lia. Qed.

Lemma u32_add_l x y : u32 (u32 x + y) = u32 (x + y).
Proof. apply Z.add_mod_idemp_l. lia. Qed.

Lemma u32_add_r x y : u32 (x + u32 y) = u32 (x + y).
Proof. apply Z.add_mod_idemp_r. lia. Qed.

Lemma u32_sub_r x y : u32 (x - u32 y) = u32 (x - y).
Proof. apply Zminus_mod_idemp_r. Qed.

Lemma u32_sub_l x y : u32 (u32 x - y) = u32 (x - y).
Proof. apply Zminus_mod_idemp_l. Qed.

Lemma i32_range x : -2147483648 <= i32 x < 2147483648.
Proof. zlia. Qed.

Lemma i32_small x : -2147483648 <= x < 2147483648 -> i32 x = x.
Proof. zlia. Qed.

Lemma u32_i32 x : u32 (i32 x) = u32 x.
Proof. zlia. Qed.

Lemma i32_u32 x : i32 (u32 x) = i32 x.
Proof. zlia. Qed.

Lemma u8_range x : 0 <= u8 x < 256.
Proof. zlia. Qed.

Lemma u8_small x : 0 <= x < 256 -> u8 x = x.
Proof. apply Z.mod_small. Qed.

Lemma u8_idemp x : u8 (u8 x) = u8 x.
Proof. apply Z.mod_mod. lia. Qed.

#[export] Hint Rewrite u32_idemp u32_add_l u32_add_r u32_sub_l u32_sub_r
  u32_i32 i32_u32 u8_idemp : cint.
#[export] Hint Resolve u32_range i32_range u8_range : cint.

(** ** Byte memory

    Kernel memory is a total map from (kernel virtual) addresses to bytes.
    Multi-byte accesses are little-endian, as on the x86. *)

Definition mem : Type := Z -> Z.

Definition mem_wf (m : mem) : Prop := forall a, 0 <= m a < 256.

Definition st8 (m : mem) (a v : Z) : mem :=
  fun x => if x =? a then u8 v else m x.

Definition ld32 (m : mem) (a : Z) : Z :=
  m a + 256 * m (a + 1) + 65536 * m (a + 2) + 16777216 * m (a + 3).

Definition st32 (m : mem) (a v : Z) : mem :=
  st8 (st8 (st8 (st8 m a v) (a + 1) (v / 256)) (a + 2) (v / 65536))
      (a + 3) (v / 16777216).

Lemma st8_eq m a v : st8 m a v a = u8 v.
Proof. unfold st8. by rewrite Z.eqb_refl. Qed.

Lemma st8_ne m a v x : x <> a -> st8 m a v x = m x.
Proof. intros H. unfold st8. by rewrite (proj2 (Z.eqb_neq _ _)). Qed.

Lemma st8_wf m a v : mem_wf m -> mem_wf (st8 m a v).
Proof. intros H x. unfold st8. destruct (x =? a); auto with cint. Qed.

Lemma st32_wf m a v : mem_wf m -> mem_wf (st32 m a v).
Proof. intros H. unfold st32. auto using st8_wf. Qed.

Lemma st32_frame m a v x : x < a \/ a + 4 <= x -> st32 m a v x = m x.
Proof. intros H. unfold st32. rewrite !st8_ne by lia. done. Qed.

Lemma ld32_st32 m a v : ld32 (st32 m a v) a = u32 v.
Proof.
  unfold ld32, st32. unfold st8.
  repeat match goal with
  | |- context [?x =? ?y] => first
      [ replace (x =? y) with true by (symmetry; apply Z.eqb_eq; lia)
      | replace (x =? y) with false by (symmetry; apply Z.eqb_neq; lia) ]
  end. zlia.
Qed.

Lemma ld32_ext m m' a :
  (forall x, a <= x < a + 4 -> m x = m' x) -> ld32 m a = ld32 m' a.
Proof. intros H. unfold ld32. rewrite !H by lia. done. Qed.

Lemma ld32_st32_ne m a v b : b + 4 <= a \/ a + 4 <= b -> ld32 (st32 m a v) b = ld32 m b.
Proof. intros H. apply ld32_ext. intros x Hx. apply st32_frame. lia. Qed.

Lemma ld32_range m a : mem_wf m -> 0 <= ld32 m a < 4294967296.
Proof.
  intros H. unfold ld32.
  pose proof (H a); pose proof (H (a+1)); pose proof (H (a+2)); pose proof (H (a+3)). lia.
Qed.

#[export] Hint Resolve st8_wf st32_wf ld32_range : cint.

(** ** Byte arrays

    [char] arrays inside structures and disk blocks are lists of bytes; an
    index is a [Z] as in C. *)

Definition lget (l : list Z) (i : Z) : Z := default 0 (l !! Z.to_nat i).
Definition lput (l : list Z) (i v : Z) : list Z := <[Z.to_nat i := u8 v]> l.

Definition lld16 (l : list Z) (i : Z) : Z := lget l i + 256 * lget l (i + 1).
Definition lld32 (l : list Z) (i : Z) : Z :=
  lget l i + 256 * lget l (i + 1) + 65536 * lget l (i + 2) + 16777216 * lget l (i + 3).
Definition lst16 (l : list Z) (i v : Z) : list Z := lput (lput l i v) (i + 1) (v / 256).
Definition lst32 (l : list Z) (i v : Z) : list Z :=
  lput (lput (lput (lput l i v) (i + 1) (v / 256)) (i + 2) (v / 65536))
       (i + 3) (v / 16777216).

(** Length as a [Z]. *)
Definition zlen {A} (l : list A) : Z := Z.of_nat (length l).

Lemma length_lput l i v : length (lput l i v) = length l.
Proof. apply length_insert. Qed.

Lemma length_lst16 l i v : length (lst16 l i v) = length l.
Proof. unfold lst16. by rewrite !length_lput. Qed.

Lemma length_lst32 l i v : length (lst32 l i v) = length l.
Proof. unfold lst32. by rewrite !length_lput. Qed.

Lemma lget_lput l i v : 0 <= i < zlen l -> lget (lput l i v) i = u8 v.
Proof.
  intros H. unfold lget, lput, zlen in *.
  by rewrite list_lookup_insert_eq by lia.
Qed.

Lemma lget_lput_ne l i v j : 0 <= i -> 0 <= j -> i <> j -> lget (lput l i v) j = lget l j.
Proof.
  intros. unfold lget, lput. rewrite list_lookup_insert_ne; [done | lia].
Qed.

Create HintDb bytes.
#[export] Hint Rewrite length_lput length_lst16 length_lst32 : bytes.

(** Evaluates reads over writes at literal or [lia]-separable indices. *)
Ltac bytes_solve :=
  unfold zlen in *; autorewrite with bytes in *;
  repeat first
    [ rewrite lget_lput by (unfold zlen in *; autorewrite with bytes; lia)
    | rewrite lget_lput_ne by lia ].

Lemma lld32_lst32 l i v : 0 <= i -> i + 4 <= zlen l -> lld32 (lst32 l i v) i = u32 v.
Proof. intros. unfold lld32, lst32. bytes_solve. zlia. Qed.

Lemma lget_lst32_ne l i v j :
  0 <= i -> 0 <= j -> j < i \/ i + 4 <= j -> lget (lst32 l i v) j = lget l j.
Proof. intros. unfold lst32. by bytes_solve. Qed.

Lemma lld32_lst32_ne l i v j :
  0 <= i -> 0 <= j -> j + 4 <= i \/ i + 4 <= j -> lld32 (lst32 l i v) j = lld32 l j.
Proof. intros. unfold lld32. rewrite !lget_lst32_ne by lia. done. Qed.

Lemma lld16_lst16 l i v : 0 <= i -> i + 2 <= zlen l -> lld16 (lst16 l i v) i = u16 v.
Proof. intros. unfold lld16, lst16. bytes_solve. zlia. Qed.

Lemma lget_lst16_ne l i v j :
  0 <= i -> 0 <= j -> j < i \/ i + 2 <= j -> lget (lst16 l i v) j = lget l j.
Proof. intros. unfold lst16. by bytes_solve. Qed.

(** ** Lists *)

Definition upd {A} (i : nat) (f : A -> A) (l : list A) : list A := alter f i l.

Lemma lookup_alter_case {A} (f : A -> A) (l : list A) i j :
  alter f i l !! j = if decide (i = j) then f <$> l !! j else l !! j.
Proof.
  case_decide; subst; [apply list_lookup_alter_eq | by apply list_lookup_alter_ne].
Qed.

(** [findi P l]: index of the first element satisfying [P]. *)
Fixpoint findi {A} (P : A -> bool) (l : list A) : option nat :=
  match l with
  | [] => None
  | x :: l' => if P x then Some 0%nat else S <$> findi P l'
  end.

Lemma findi_Some {A} (P : A -> bool) l i :
  findi P l = Some i <->
  exists x, l !! i = Some x /\ P x = true /\
    forall j y, (j < i)%nat -> l !! j = Some y -> P y = false.
Proof.
  revert i; induction l as [|a l IH]; intros i; simpl.
  - split; [done | intros (x & H & _); by rewrite lookup_nil in H].
  - destruct (P a) eqn:E.
    + split.
      * intros [= <-]. exists a. repeat split; auto. intros; lia.
      * intros (x & Hx & HP & Hmin). destruct i; [done|].
        exfalso. specialize (Hmin 0%nat a ltac:(lia) eq_refl). congruence.
    + split.
      * destruct (findi P l) as [k|] eqn:F; simpl; [|done]. intros [= <-].
        destruct (proj1 (IH k) eq_refl) as (x & Hx & HP & Hmin).
        exists x. repeat split; auto.
        intros [|j] y Hj Hy; [simpl in Hy; congruence|]. apply (Hmin j); [lia|done].
      * intros (x & Hx & HP & Hmin). destruct i as [|i]; [simpl in Hx; congruence|].
        assert (findi P l = Some i) as ->; [|done]. apply IH. exists x.
        repeat split; auto. intros j y Hj Hy. apply (Hmin (S j) y); [lia|done].
Qed.

Lemma findi_None {A} (P : A -> bool) l :
  findi P l = None <-> forall i x, l !! i = Some x -> P x = false.
Proof.
  induction l as [|a l IH]; simpl.
  - split; [intros _ i x H; by rewrite lookup_nil in H | done].
  - destruct (P a) eqn:E.
    + split; [done|]. intros H. specialize (H 0%nat a eq_refl). congruence.
    + rewrite fmap_None, IH. split.
      * intros H [|i] x Hx; simpl in Hx; [congruence | eauto].
      * intros H i x Hx. apply (H (S i) x Hx).
Qed.
