(* ===== verification/Monad.v ===== *)
(** * The kernel's effect monad

    A kernel function is a function from the state to an [outcome]: a normal
    return, a [panic()], a fault (dereferencing NULL or running off an array),
    a [swtch] into the scheduler with the rest of the function as its
    continuation (the code after [sched()] runs when the scheduler switches
    back, in whatever state the others have left), or an exhausted loop bound.
    The file has the monad, its notations, the loop combinators that translate
    C's [for]/[while], and the reasoning rules the components use. *)

From S2P Require Import Prelude.

Inductive outcome (S A : Type) : Type :=
  | Ret (a : A) (s : S)
  | Panic (msg : string) (s : S)
  | Fault (msg : string) (s : S)
  | Switch (s : S) (k : S -> outcome S A)
  | OutOfFuel.
Arguments Ret {S A} a s.
Arguments Panic {S A} msg s.
Arguments Fault {S A} msg s.
Arguments Switch {S A} s k.
Arguments OutOfFuel {S A}.

Definition M (S A : Type) : Type := S -> outcome S A.

Fixpoint obind {S A B} (o : outcome S A) (f : A -> M S B) : outcome S B :=
  match o with
  | Ret a s => f a s
  | Panic msg s => Panic msg s
  | Fault msg s => Fault msg s
  | Switch s k => Switch s (fun s' => obind (k s') f)
  | OutOfFuel => OutOfFuel
  end.

Section ops.
Context {S : Type}.

Definition ret {A} (a : A) : M S A := fun s => Ret a s.
Definition bind {A B} (m : M S A) (f : A -> M S B) : M S B := fun s => obind (m s) f.
Definition panic {A} (msg : string) : M S A := fun s => Panic msg s.
Definition fault {A} (msg : string) : M S A := fun s => Fault msg s.
Definition gets {A} (f : S -> A) : M S A := fun s => Ret (f s) s.
Definition modify (f : S -> S) : M S unit := fun s => Ret tt (f s).
(** [swtch] to the scheduler; the continuation runs on switching back. *)
Definition swtch_out : M S unit := fun s => Switch s (fun s' => Ret tt s').
(** A pointer dereference: [None] is NULL or out of bounds. *)
Definition deref {A} (msg : string) (o : option A) : M S A :=
    match o with Some a => ret a | None => fault msg end.
Definition when (b : bool) (m : M S unit) : M S unit := if b then m else ret tt.
End ops.

Declare Scope kernel_scope.
Delimit Scope kernel_scope with K.
Notation "x <- m ;; k" := (bind m (fun x => k))
  (at level 100, m at next level, right associativity) : kernel_scope.
Notation "' p <- m ;; k" := (bind m (fun x => match x with p => k end))
  (at level 100, p pattern, m at next level, right associativity) : kernel_scope.
Notation "m ;; k" := (bind m (fun _ => k))
  (at level 100, k at level 200, right associativity) : kernel_scope.

Section loops.
Context {S : Type}.
Local Open Scope kernel_scope.

(** [for] over a list of indices, leaving by [break]/[return]/[goto] when the
      body yields a value. *)
Fixpoint for_first {A B} (xs : list A) (body : A -> M S (option B)) : M S (option B) :=
    match xs with
    | [] => ret None
    | x :: xs' =>
        r <- body x ;;
        match r with Some b => ret (Some b) | None => for_first xs' body end
    end.

(** [for] without an early exit. *)
Fixpoint for_each {A} (xs : list A) (body : A -> M S unit) : M S unit :=
    match xs with
    | [] => ret tt
    | x :: xs' => body x ;; for_each xs' body
    end.

(** [while]/[for(;;)]: the body says whether it is done. [fuel] bounds the
      iterations; a theorem about a loop shows how much is enough. *)
Fixpoint loop {A B} (fuel : nat) (body : A -> M S (A + B)) (a : A) : M S B :=
    match fuel with
    | O => fun _ => OutOfFuel
    | Datatypes.S n =>
        r <- body a ;;
        match r with inl a' => loop n body a' | inr b => ret b end
    end.
End loops.

(** ** Reasoning *)

(** [wp m Q s]: run from [s], [m] returns (no panic, no fault, no switch, no
    exhausted bound) with a result and state satisfying [Q]. *)
Definition wp {S A} (m : M S A) (Q : A -> S -> Prop) (s : S) : Prop :=
  match m s with Ret a s' => Q a s' | _ => False end.

(** [wlp m Q s]: if [m] returns without switching, [Q] holds. *)
Definition wlp {S A} (m : M S A) (Q : A -> S -> Prop) (s : S) : Prop :=
  match m s with Ret a s' => Q a s' | _ => True end.

Section rules.
Context {S : Type}.
Implicit Types s : S.

Lemma bind_Ret {A B} (m : M S A) (f : A -> M S B) s a s' :
    m s = Ret a s' -> bind m f s = f a s'.
Proof. intros H. unfold bind. by rewrite H. Qed.

Lemma bind_ret {A B} (a : A) (f : A -> M S B) s : bind (ret a) f s = f a s.
Proof. done. Qed.

Lemma bind_gets {A B} (g : S -> A) (f : A -> M S B) s : bind (gets g) f s = f (g s) s.
Proof. done. Qed.

Lemma bind_modify {B} (g : S -> S) (f : unit -> M S B) s : bind (modify g) f s = f tt (g s).
Proof. done. Qed.

Lemma bind_Panic {A B} (m : M S A) (f : A -> M S B) s msg s' :
    m s = Panic msg s' -> bind m f s = Panic msg s'.
Proof. intros H. unfold bind. by rewrite H. Qed.

Lemma bind_inv_Ret {A B} (m : M S A) (f : A -> M S B) s b s'' :
    bind m f s = Ret b s'' -> exists a s', m s = Ret a s' /\ f a s' = Ret b s''.
Proof.
    unfold bind. destruct (m s) eqn:E; simpl; try done; eauto.
Qed.

Lemma wp_ret {A} (a : A) (Q : A -> S -> Prop) s : Q a s -> wp (ret a) Q s.
Proof. done. Qed.

Lemma wp_bind {A B} (m : M S A) (f : A -> M S B) Q s :
    wp m (fun a => wp (f a) Q) s -> wp (bind m f) Q s.
Proof. unfold wp, bind. destruct (m s); simpl; auto; done. Qed.

Lemma wp_mono {A} (m : M S A) (Q Q' : A -> S -> Prop) s :
    wp m Q s -> (forall a s', Q a s' -> Q' a s') -> wp m Q' s.
Proof. unfold wp. destruct (m s); auto. Qed.

Lemma wp_Ret {A} (m : M S A) (Q : A -> S -> Prop) s :
    wp m Q s <-> exists a s', m s = Ret a s' /\ Q a s'.
Proof.
    unfold wp. split.
    - destruct (m s) eqn:E; try done; eauto.
    - intros (a & s' & -> & H). done.
Qed.

Lemma wp_for_each {A} (xs : list A) (body : A -> M S unit) (I : list A -> S -> Prop) s :
    I xs s ->
    (forall x xs' s, I (x :: xs') s -> wp (body x) (fun _ => I xs') s) ->
    wp (for_each xs body) (fun _ => I []) s.
Proof.
    revert s. induction xs as [|x xs IH]; intros s HI Hb; simpl; [done|].
    apply wp_bind. eapply wp_mono; [by apply Hb|]. intros [] s' H'. by apply IH.
Qed.
End rules.

(** [orun I G Q o]: along every run of [o] in which the scheduler comes back in
    a state satisfying [I], there is no panic or fault, every switch happens in
    a state satisfying [G], and a return satisfies [Q]. *)
Fixpoint orun {S A} (I G : S -> Prop) (Q : A -> S -> Prop) (o : outcome S A) : Prop :=
  match o with
  | Ret a s => Q a s
  | Panic _ _ => False
  | Fault _ _ => False
  | Switch s k => G s /\ forall s', I s' -> orun I G Q (k s')
  | OutOfFuel => True
  end.

Definition wpr {S A} (I G : S -> Prop) (m : M S A) (Q : A -> S -> Prop) (s : S) : Prop :=
  orun I G Q (m s).

Section rules_run.
Context {S : Type} (I G : S -> Prop).

Lemma orun_bind {A B} (o : outcome S A) (f : A -> M S B) Q :
    orun I G (fun a s => wpr I G (f a) Q s) o -> orun I G Q (obind o f).
Proof.
    induction o as [a s|msg s|msg s|s k IH|]; simpl; try done.
    intros [HG H]. split; [done|]. intros s' HI. apply IH. auto.
Qed.

Lemma wpr_bind {A B} (m : M S A) (f : A -> M S B) Q s :
    wpr I G m (fun a s => wpr I G (f a) Q s) s -> wpr I G (bind m f) Q s.
Proof. apply orun_bind. Qed.

Lemma orun_mono {A} (o : outcome S A) (Q Q' : A -> S -> Prop) :
    orun I G Q o -> (forall a s, Q a s -> Q' a s) -> orun I G Q' o.
Proof.
    intros H HQ. induction o as [a s|msg s|msg s|s k IH|]; simpl in *; auto.
    destruct H as [HG H]. split; [done|]. intros s' HI. apply IH. auto.
Qed.

Lemma wpr_mono {A} (m : M S A) (Q Q' : A -> S -> Prop) s :
    wpr I G m Q s -> (forall a s', Q a s' -> Q' a s') -> wpr I G m Q' s.
Proof. apply orun_mono. Qed.

Lemma wpr_Ret {A} (m : M S A) (Q : A -> S -> Prop) s a s' :
    m s = Ret a s' -> Q a s' -> wpr I G m Q s.
Proof. intros H HQ. unfold wpr. by rewrite H. Qed.

(** A wait loop: an invariant on the loop state, kept by each iteration. *)
Lemma wpr_loop {A B} fuel (body : A -> M S (A + B)) (J : A -> S -> Prop) Q a s :
    J a s ->
    (forall a s, J a s -> wpr I G (body a)
       (fun r s' => match r with inl a' => J a' s' | inr b => Q b s' end) s) ->
    wpr I G (loop fuel body a) Q s.
Proof.
    intros HJ Hb. revert a s HJ. induction fuel as [|n IH]; intros a s HJ; [done|].
    simpl. apply wpr_bind. eapply wpr_mono; [by apply Hb|].
    intros [a'|b] s' H; [by apply IH | done].
Qed.
End rules_run.

Lemma loop_done {S A B} n (body : A -> M S (A + B)) a b s s' :
  body a s = Ret (inr b) s' -> loop (Datatypes.S n) body a s = Ret b s'.
Proof. intros H. simpl. by rewrite (bind_Ret _ _ _ _ _ H). Qed.

Lemma loop_next {S A B} n (body : A -> M S (A + B)) a a' s s' :
  body a s = Ret (inl a') s' -> loop (Datatypes.S n) body a s = loop n body a' s'.
Proof. intros H. simpl. by rewrite (bind_Ret _ _ _ _ _ H). Qed.

(** More fuel does not change a result. *)
Lemma loop_more {S A B} n k (body : A -> M S (A + B)) : forall a s b s',
  loop n body a s = Ret b s' -> loop (n + k) body a s = Ret b s'.
Proof.
  induction n as [|n IH]; intros a s b s' H; [done|]. simpl in *. apply bind_inv_Ret in H as (r & s1 & H1 & H2).
  rewrite (bind_Ret _ _ _ _ _ H1). destruct r; [by apply IH | done].
Qed.

(** Iterations that leave the loop running and the state alone. *)
Lemma for_first_skip {S A B} (xs ys : list A) (body : A -> M S (option B)) s :
  (forall x, x ∈ xs -> body x s = Ret None s) ->
  for_first (xs ++ ys) body s = for_first ys body s.
Proof.
  induction xs as [|x xs IH]; intros H; [done|]. simpl.
  rewrite (bind_Ret _ _ _ _ _ (H x ltac:(by left))). apply IH. intros y Hy. apply H. by right.
Qed.

Lemma for_first_none {S A B} (xs : list A) (body : A -> M S (option B)) s :
  (forall x, x ∈ xs -> body x s = Ret None s) -> for_first xs body s = Ret None s.
Proof. intros H. rewrite <- (app_nil_r xs). by rewrite for_first_skip. Qed.

Lemma for_first_found {S A B} (x : A) xs (body : A -> M S (option B)) b s s' :
  body x s = Ret (Some b) s' -> for_first (x :: xs) body s = Ret (Some b) s'.
Proof. intros H. simpl. by rewrite (bind_Ret _ _ _ _ _ H). Qed.

Lemma for_first_next {S A B} (x : A) xs (body : A -> M S (option B)) s s' :
  body x s = Ret None s' -> for_first (x :: xs) body s = for_first xs body s'.
Proof. intros H. simpl. by rewrite (bind_Ret _ _ _ _ _ H). Qed.

Create HintDb kernel.
#[export] Hint Rewrite @bind_ret @bind_gets @bind_modify : kernel.

(** Runs the primitives at the head of the program. *)
Ltac krun := autorewrite with kernel; cbv beta iota.
