(* ===== verification/CString.v ===== *)
(** * String and memory routines

    [KString] models the kernel's string.c over byte memory, [ULib] the user
    library's ulib.c.  [Obj] holds the same comparisons and copies on the bytes
    of one object (a [char] array or a NUL-terminated argument), where reading
    past the object is an error; the refinement lemmas tie the two together and
    the kernel components use the object view. *)

From S2P Require Import Prelude.

(** The [n] bytes of memory at [p]. *)
Fixpoint bytes_at (m : mem) (p : Z) (n : nat) : list Z :=
  match n with O => [] | S k => m p :: bytes_at m (p + 1) k end.

Module KString.

(** x86.h [stosb]/[stosl]: [rep stos] with the direction flag clear. *)
Fixpoint stosb (m : mem) (addr data : Z) (cnt : nat) : mem :=
  match cnt with
  | O => m
  | S n => stosb (st8 m addr data) (addr + 1) data n
  end.

Fixpoint stosl (m : mem) (addr data : Z) (cnt : nat) : mem :=
  match cnt with
  | O => m
  | S n => stosl (st32 m addr data) (addr + 4) data n
  end.

Definition memset (m : mem) (dst c n : Z) : mem :=
  if (Z.rem (i32 dst) 4 =? 0) && (n mod 4 =? 0) then
    let c := Z.land c 255 in
    stosl m dst (Z.lor (Z.lor (Z.lor (Z.shiftl c 24) (Z.shiftl c 16)) (Z.shiftl c 8)) c)
          (Z.to_nat (n / 4))
  else stosb m dst c (Z.to_nat n).

Fixpoint memcmp_loop (m : mem) (s1 s2 : Z) (n : nat) : Z :=
  match n with
  | O => 0
  | S n' => if negb (m s1 =? m s2) then m s1 - m s2
            else memcmp_loop m (s1 + 1) (s2 + 1) n'
  end.

Definition memcmp (m : mem) (v1 v2 n : Z) : Z := memcmp_loop m v1 v2 (Z.to_nat n).

(** [while(n-- > 0) *--d = *--s;] *)
Fixpoint copy_down (m : mem) (d s : Z) (n : nat) : mem :=
  match n with
  | O => m
  | S n' => copy_down (st8 m (d - 1) (m (s - 1))) (d - 1) (s - 1) n'
  end.

(** [while(n-- > 0) *d++ = *s++;] *)
Fixpoint copy_up (m : mem) (d s : Z) (n : nat) : mem :=
  match n with
  | O => m
  | S n' => copy_up (st8 m d (m s)) (d + 1) (s + 1) n'
  end.

Definition memmove (m : mem) (dst src n : Z) : mem :=
  if (src <? dst) && (dst <? src + n) then copy_down m (dst + n) (src + n) (Z.to_nat n)
  else copy_up m dst src (Z.to_nat n).

Definition memcpy (m : mem) (dst src n : Z) : mem := memmove m dst src n.

Fixpoint strncmp_loop (m : mem) (p q : Z) (n : nat) : Z :=
  match n with
  | O => 0
  | S n' => if negb (m p =? 0) && (m p =? m q) then strncmp_loop m (p + 1) (q + 1) n'
            else m p - m q
  end.

Definition strncmp (m : mem) (p q n : Z) : Z := strncmp_loop m p q (Z.to_nat n).

(** First loop of [strncpy]: memory, [s] and what is left of [n]. *)
Fixpoint strncpy_copy (m : mem) (s t : Z) (n : nat) : mem * Z * nat :=
  match n with
  | O => (m, s, O)
  | S n' =>
      let c := m t in
      let m' := st8 m s c in
      if c =? 0 then (m', s + 1, n') else strncpy_copy m' (s + 1) (t + 1) n'
  end.

Definition strncpy (m : mem) (s t n : Z) : mem :=
  let '(m', s', n') := strncpy_copy m s t (Z.to_nat n) in
  stosb m' s' 0 n'.

(** Copying loop of [safestrcpy] with [n] iterations left. *)
Fixpoint safestrcpy_copy (m : mem) (s t : Z) (n : nat) : mem * Z :=
  match n with
  | O => (m, s)
  | S n' =>
      let c := m t in
      let m' := st8 m s c in
      if c =? 0 then (m', s + 1) else safestrcpy_copy m' (s + 1) (t + 1) n'
  end.

Definition safestrcpy (m : mem) (s t n : Z) : mem :=
  if n <=? 0 then m
  else let '(m', s') := safestrcpy_copy m s t (Z.to_nat (n - 1)) in st8 m' s' 0.

(** [fuel] bounds the scan; a NUL within it is enough ([strlen_correct]). *)
Fixpoint strlen (fuel : nat) (m : mem) (s : Z) : option Z :=
  match fuel with
  | O => None
  | S k => if m s =? 0 then Some 0 else Z.succ <$> strlen k m (s + 1)
  end.

End KString.

Module ULib.

(** The loop of [strcpy]; [fuel] bounds the length of [t]. *)
Fixpoint strcpy (fuel : nat) (m : mem) (s t : Z) : option mem :=
  match fuel with
  | O => None
  | S k =>
      let c := m t in
      let m' := st8 m s c in
      if c =? 0 then Some m' else strcpy k m' (s + 1) (t + 1)
  end.

Fixpoint strcmp (fuel : nat) (m : mem) (p q : Z) : option Z :=
  match fuel with
  | O => None
  | S k => if negb (m p =? 0) && (m p =? m q) then strcmp k m (p + 1) (q + 1)
           else Some (m p - m q)
  end.

Definition memset (m : mem) (dst c n : Z) : mem := KString.stosb m dst c (Z.to_nat n).

(** [Some 0] is a NULL result: the character does not occur. *)
Fixpoint strchr (fuel : nat) (m : mem) (s c : Z) : option Z :=
  match fuel with
  | O => None
  | S k => if m s =? 0 then Some 0
           else if m s =? u8 c then Some s else strchr k m (s + 1) c
  end.

(** Digits of a NUL-terminated string; [n*10 + *s - '0'] at [int] width. *)
Fixpoint atoi_loop (s : list Z) (n : Z) : Z :=
  match s with
  | c :: s' => if (48 <=? c) && (c <=? 57) then atoi_loop s' (i32 (n * 10 + c - 48)) else n
  | [] => n
  end.

Definition atoi (s : list Z) : Z := atoi_loop s 0.

(** User-level [memmove] copies upwards only. *)
Definition memmove (m : mem) (vdst vsrc n : Z) : mem :=
  KString.copy_up m vdst vsrc (Z.to_nat n).

(** Digits of [v], least significant first ([while (v || tp == tmp)]). *)
Fixpoint itoa_digits (fuel : nat) (v radix : Z) (first : bool) : option (list Z) :=
  match fuel with
  | O => None
  | S k =>
      if negb (v =? 0) || first then
        let i := v mod radix in
        let d := if i <? 10 then i + 48 else i + 97 - 10 in
        cons d <$> itoa_digits k (v / radix) radix false
      else Some []
  end.

(** The bytes [itoa] stores at [sp] (it returns their number). *)
Definition itoa (fuel : nat) (value radix : Z) : option (list Z) :=
  let sign := (radix =? 10) && (value <? 0) in
  let v := if sign then u32 (- value) else u32 value in
  match itoa_digits fuel v radix true with
  | Some tmp => Some ((if sign then [45] else []) ++ rev tmp)
  | None => None
  end.

End ULib.

(** ** Object view *)
Module Obj.

(** A NUL-terminated argument: its characters and the terminator. *)
Definition cstring (s : list Z) : list Z := s ++ [0].

(** [strncmp] on the bytes of two objects; [None] is a read past one of them. *)
Fixpoint strncmp (p q : list Z) (n : nat) {struct n} : option Z :=
  match n with
  | O => Some 0
  | S n' =>
      match p, q with
      | a :: p', b :: q' =>
          if negb (a =? 0) && (a =? b) then strncmp p' q' n' else Some (a - b)
      | a :: _, [] => None
      | [], _ => None
      end
  end.

(** Characters before the first NUL. *)
Fixpoint chars (l : list Z) : list Z :=
  match l with
  | [] => []
  | c :: l' => if c =? 0 then [] else c :: chars l'
  end.

Definition strlen (l : list Z) : Z := zlen (chars l).

(** [strncpy(dst, t, sizeof dst)] replaces all of [dst]. *)
Definition strncpy (t : list Z) (n : nat) : list Z :=
  take n (chars t ++ replicate n 0).

(** [safestrcpy(dst, t, sizeof dst)]: the bytes after the NUL keep their value. *)
Definition safestrcpy (dst t : list Z) : list Z :=
  let n := length dst in
  let c := take (n - 1) (chars t) in
  take n (c ++ [0] ++ drop (S (length c)) dst).

End Obj.

(** ** Memory routines *)

(** Case split on the comparisons of the goal, then arithmetic. *)
Ltac mem_cases :=
  repeat match goal with
  | |- context [if ?b then _ else _] => destruct b eqn:?
  end;
  repeat match goal with
  | H : (_ && _) = true |- _ => apply andb_prop in H as [? ?]
  | H : (_ && _) = false |- _ => apply andb_false_iff in H
  | H : (_ <=? _) = true |- _ => apply Z.leb_le in H
  | H : (_ <? _) = true |- _ => apply Z.ltb_lt in H
  | H : (_ =? _) = true |- _ => apply Z.eqb_eq in H
  | H : (_ =? _) = false |- _ => apply Z.eqb_neq in H
  end.

Definition in_range (a n x : Z) : bool := (a <=? x) && (x <? a + n).

Lemma in_range_true a n x : in_range a n x = true <-> a <= x < a + n.
Proof. unfold in_range. rewrite andb_true_iff, Z.leb_le, Z.ltb_lt. done. Qed.

Lemma in_range_false a n x : in_range a n x = false <-> x < a \/ a + n <= x.
Proof.
  rewrite <- not_true_iff_false, in_range_true. lia.
Qed.

(** Decides every [in_range] of the goal, with its arithmetic meaning. *)
Ltac range_cases :=
  repeat match goal with
  | |- context [in_range ?a ?n ?x] =>
      let E := fresh "E" in
      destruct (in_range a n x) eqn:E;
      [apply in_range_true in E | apply in_range_false in E]; try lia
  end.

Lemma stosb_spec m a d n x :
  KString.stosb m a d n x = if in_range a (Z.of_nat n) x then u8 d else m x.
Proof.
  revert m a. induction n as [|n IH]; intros m a; simpl.
  - range_cases; done.
  - rewrite IH. destruct (decide (x = a)) as [->|Hne].
    + rewrite st8_eq. range_cases; done.
    + rewrite st8_ne by done. range_cases; done.
Qed.

(** Every byte of the word [memset] stores is the fill byte. *)
Lemma fill_word_bytes c :
  0 <= c < 256 ->
  let w := Z.lor (Z.lor (Z.lor (Z.shiftl c 24) (Z.shiftl c 16)) (Z.shiftl c 8)) c in
  u8 w = c /\ u8 (w / 256) = c /\ u8 (w / 65536) = c /\ u8 (w / 16777216) = c.
Proof.
  intros Hc.
  pose (ok := fun c : Z =>
    let w := Z.lor (Z.lor (Z.lor (Z.shiftl c 24) (Z.shiftl c 16)) (Z.shiftl c 8)) c in
    bool_decide (u8 w = c /\ u8 (w / 256) = c /\ u8 (w / 65536) = c /\ u8 (w / 16777216) = c)).
  assert (forallb ok (seqZ 0 256) = true) as Hall by (vm_compute; reflexivity).
  rewrite forallb_forall in Hall. specialize (Hall c).
  apply bool_decide_eq_true_1 in Hall; [done|].
  apply list_elem_of_In, elem_of_seqZ. lia.
Qed.

Lemma st32_byte m a w b x :
  u8 w = b -> u8 (w / 256) = b -> u8 (w / 65536) = b -> u8 (w / 16777216) = b ->
  st32 m a w x = if in_range a 4 x then b else m x.
Proof.
  intros H0 H1 H2 H3. unfold st32, st8. range_cases; mem_cases; lia || congruence.
Qed.

Lemma stosl_spec m a w n b x :
  u8 w = b -> u8 (w / 256) = b -> u8 (w / 65536) = b -> u8 (w / 16777216) = b ->
  KString.stosl m a w n x = if in_range a (4 * Z.of_nat n) x then b else m x.
Proof.
  intros H0 H1 H2 H3. revert m a. induction n as [|n IH]; intros m a; simpl.
  - range_cases; done.
  - rewrite IH. rewrite (st32_byte _ _ _ b) by done. range_cases; done.
Qed.

Lemma land_255 c : Z.land c 255 = u8 c.
Proof. change 255 with (Z.ones 8). by rewrite Z.land_ones. Qed.

Lemma memset_spec m dst c n x :
  0 <= n -> KString.memset m dst c n x = if in_range dst n x then u8 c else m x.
Proof.
  intros Hn. unfold KString.memset. destruct (_ && _) eqn:E.
  - apply andb_prop in E as [_ E]. apply Z.eqb_eq in E.
    destruct (fill_word_bytes (Z.land c 255)) as (H0 & H1 & H2 & H3).
    { rewrite land_255. auto with cint. }
    rewrite (stosl_spec _ _ _ _ (Z.land c 255)) by done.
    rewrite land_255. rewrite Z2Nat.id by zlia.
    replace (4 * (n / 4)) with n by zlia. done.
  - rewrite stosb_spec. by rewrite Z2Nat.id.
Qed.

Lemma copy_up_spec m d s n x :
  mem_wf m -> d <= s \/ s + Z.of_nat n <= d ->
  KString.copy_up m d s n x = if in_range d (Z.of_nat n) x then m (s + (x - d)) else m x.
Proof.
  intros Hwf. revert m d s Hwf.
  induction n as [|n IH]; intros m d s Hwf Hov; simpl.
  - range_cases; done.
  - rewrite IH by (try lia; auto with cint).
    destruct (decide (x = d)) as [->|Hne].
    + rewrite st8_eq, u8_small by apply Hwf. range_cases. f_equal. lia.
    + rewrite (st8_ne _ _ _ x) by done. range_cases; try done.
      rewrite st8_ne by lia. f_equal. lia.
Qed.

Lemma copy_down_spec m d s n x :
  mem_wf m -> s < d ->
  KString.copy_down m d s n x =
    if in_range (d - Z.of_nat n) (Z.of_nat n) x then m (s - (d - x)) else m x.
Proof.
  intros Hwf. revert m d s Hwf.
  induction n as [|n IH]; intros m d s Hwf Hov; simpl.
  - range_cases; done.
  - rewrite IH by (try lia; auto with cint).
    destruct (decide (x = d - 1)) as [->|Hne].
    + rewrite st8_eq, u8_small by apply Hwf. range_cases. f_equal. lia.
    + rewrite (st8_ne _ _ _ x) by done. range_cases; try done.
      rewrite st8_ne by lia. f_equal. lia.
Qed.

Lemma memmove_spec m dst src n x :
  mem_wf m -> 0 <= n ->
  KString.memmove m dst src n x = if in_range dst n x then m (src + (x - dst)) else m x.
Proof.
  intros Hwf Hn. unfold KString.memmove.
  destruct ((src <? dst) && (dst <? src + n)) eqn:E.
  - apply andb_prop in E as [E1 E2]. apply Z.ltb_lt in E1, E2.
    rewrite copy_down_spec by (done || lia). rewrite Z2Nat.id by lia.
    replace (dst + n - n) with dst by lia. range_cases; f_equal; lia.
  - apply andb_false_iff in E. rewrite !Z.ltb_ge in E.
    rewrite copy_up_spec by (done || lia). by rewrite Z2Nat.id.
Qed.

(** Whatever the overlap of source and destination, the kernel's [memmove]
    leaves the [n] source bytes (as they were before the call) at [dst] and
    changes no other byte. *)
Theorem memmove_correct m dst src n :
  mem_wf m -> 0 <= n ->
  forall x, KString.memmove m dst src n x =
            if in_range dst n x then m (src + (x - dst)) else m x.
Proof. intros. by apply memmove_spec. Qed.

Lemma memmove_correct_witness :
  KString.memmove (fun a => u8 a) 102 100 4 105 = 103.
Proof.
  assert (mem_wf (fun a => u8 a)) as Hwf by (intros a; apply u8_range).
  exact (memmove_correct (fun a => u8 a) 102 100 4 Hwf ltac:(lia) 105).
Defined.

(** ** Strings *)

Lemma bytes_at_S m p n : bytes_at m p (S n) = m p :: bytes_at m (p + 1) n.
Proof. done. Qed.

Lemma bytes_at_snoc m p n : bytes_at m p (S n) = bytes_at m p n ++ [m (p + Z.of_nat n)].
Proof.
  revert p. induction n as [|n IH]; intros p; [simpl; do 2 f_equal; lia|].
  rewrite bytes_at_S, IH, (bytes_at_S _ p n). simpl. do 4 f_equal. lia.
Qed.

Lemma length_bytes_at m p n : length (bytes_at m p n) = n.
Proof. revert p. induction n; intros; simpl; auto. Qed.

Lemma bytes_at_ext m m' p n :
  (forall x, p <= x < p + Z.of_nat n -> m x = m' x) -> bytes_at m p n = bytes_at m' p n.
Proof.
  revert p. induction n as [|n IH]; intros p H; [done|].
  rewrite !bytes_at_S. f_equal; [apply H; lia | apply IH; intros; apply H; lia].
Qed.

Lemma strncmp_loop_refines m p q k1 k2 n r :
  Obj.strncmp (bytes_at m p k1) (bytes_at m q k2) n = Some r ->
  KString.strncmp_loop m p q n = r.
Proof.
  revert p q k1 k2. induction n as [|n IH]; intros p q k1 k2; simpl; [congruence|].
  destruct k1 as [|k1]; [done|]. rewrite bytes_at_S.
  destruct k2 as [|k2]; [done|]. rewrite bytes_at_S.
  destruct (negb (m p =? 0) && (m p =? m q)); [apply IH | congruence].
Qed.

(** The object comparison is equality of the first [n] characters. *)
Lemma obj_strncmp_zero p q n r :
  Obj.strncmp p q n = Some r ->
  r = 0 <-> take n (Obj.chars p) = take n (Obj.chars q).
Proof.
  revert p q. induction n as [|n IH]; intros p q; simpl; [by intros [= <-]|].
  destruct p as [|a p]; [done|]. destruct q as [|b q]; [done|]. simpl.
  destruct (a =? 0) eqn:Ea; simpl.
  - apply Z.eqb_eq in Ea as ->. intros [= <-]. destruct (b =? 0) eqn:Eb.
    + apply Z.eqb_eq in Eb as ->. done.
    + apply Z.eqb_neq in Eb. split; [lia | done].
  - apply Z.eqb_neq in Ea. destruct (a =? b) eqn:Eab.
    + apply Z.eqb_eq in Eab as ->. rewrite (proj2 (Z.eqb_neq b 0) Ea). intros H.
      rewrite (IH _ _ H). simpl. split; [by intros -> | by intros [= ->]].
    + apply Z.eqb_neq in Eab. intros [= <-]. destruct (b =? 0) eqn:Eb.
      * apply Z.eqb_eq in Eb as ->. split; [lia | done].
      * split; [lia | simpl; congruence].
Qed.

(** On two objects large enough for the comparison, the kernel's [strncmp]
    returns 0 exactly when the two strings agree on their first [n] characters. *)
Theorem strncmp_correct m p q k1 k2 n r :
  Obj.strncmp (bytes_at m p k1) (bytes_at m q k2) (Z.to_nat n) = Some r ->
  KString.strncmp m p q n = r /\
  (r = 0 <-> take (Z.to_nat n) (Obj.chars (bytes_at m p k1)) =
             take (Z.to_nat n) (Obj.chars (bytes_at m q k2))).
Proof.
  intros H. split; [exact (strncmp_loop_refines _ _ _ _ _ _ _ H) | by apply obj_strncmp_zero].
Qed.

(** Memory holding "ab\0" at 0 and "abc\0" at 10. *)
Definition demo_mem : mem :=
  fun a => if a =? 0 then 97 else if a =? 1 then 98 else
           if a =? 10 then 97 else if a =? 11 then 98 else if a =? 12 then 99 else 0.

Lemma strncmp_correct_witness :
  KString.strncmp demo_mem 0 10 2 = 0 /\
  (0 = 0 <-> take (Z.to_nat 2) (Obj.chars (bytes_at demo_mem 0 3)) =
             take (Z.to_nat 2) (Obj.chars (bytes_at demo_mem 10 4))).
Proof. apply (strncmp_correct demo_mem 0 10 3 4 2 0). vm_compute. reflexivity. Defined.

Lemma chars_no_nul l : Forall (fun c => c <> 0) (Obj.chars l).
Proof.
  induction l as [|c l IH]; simpl; [done|].
  destruct (c =? 0) eqn:E; [done|]. apply Z.eqb_neq in E. by constructor.
Qed.

Lemma chars_all l : Forall (fun c => c <> 0) l -> Obj.chars l = l.
Proof.
  induction 1 as [|c l Hc _ IH]; simpl; [done|]. by rewrite (proj2 (Z.eqb_neq c 0) Hc), IH.
Qed.

Lemma chars_app_nul l l' : Forall (fun c => c <> 0) l -> Obj.chars (l ++ 0 :: l') = l.
Proof.
  induction 1 as [|c l Hc _ IH]; simpl; [done|].
  rewrite (proj2 (Z.eqb_neq c 0) Hc). by rewrite IH.
Qed.

Lemma chars_cstring l : Forall (fun c => c <> 0) l -> Obj.chars (Obj.cstring l) = l.
Proof. apply chars_app_nul. Qed.

(** [strncmp(p, q, strlen(p)) == 0] is a prefix test. *)
Lemma strncmp_prefix s q r :
  Forall (fun c => c <> 0) s ->
  Obj.strncmp (Obj.cstring s) q (length s) = Some r ->
  r = 0 <-> s `prefix_of` Obj.chars q.
Proof.
  intros Hs H. rewrite (obj_strncmp_zero _ _ _ _ H), chars_cstring by done.
  rewrite take_ge by done. split.
  - intros E. rewrite E. apply prefix_take.
  - intros [k ->]. by rewrite take_app_length.
Qed.

Lemma safestrcpy_copy_spec m s t n :
  mem_wf m -> t + Z.of_nat n < s \/ s + Z.of_nat n <= t ->
  let '(m', s') := KString.safestrcpy_copy m s t n in
  let c := take n (Obj.chars (bytes_at m t n)) in
  bytes_at m' s (length c) = c /\ mem_wf m' /\
  (s' = s + zlen c \/
   (s' = s + zlen c + 1 /\ zlen c < Z.of_nat n /\ m' (s + zlen c) = 0)) /\
  forall x, x < s \/ s + Z.of_nat n <= x -> m' x = m x.
Proof.
  revert m s t. induction n as [|n IH]; intros m s t Hwf Hov; simpl.
  - split_and!; auto. left. unfold zlen. simpl. lia.
  - destruct (m t =? 0) eqn:E; simpl.
    + apply Z.eqb_eq in E. rewrite E. split_and!; auto with cint.
      * right. unfold zlen. simpl. split_and!; [lia..|]. rewrite Z.add_0_r. apply st8_eq.
      * intros x Hx. apply st8_ne. lia.
    + specialize (IH (st8 m s (m t)) (s + 1) (t + 1) ltac:(auto with cint) ltac:(lia)).
      destruct (KString.safestrcpy_copy _ _ _ _) as [m' s']. simpl.
      rewrite (bytes_at_ext (st8 m s (m t)) m (t + 1)) in IH by (intros; apply st8_ne; lia).
      destruct IH as (Hb & Hwf' & Hs' & Hfr).
      split_and!; [|done| |].
      * f_equal; [rewrite Hfr by lia; rewrite st8_eq; apply u8_small, Hwf | done].
      * unfold zlen in *. simpl. destruct Hs' as [->|(-> & Hlt & Hz)]; [left; lia|right].
        split_and!; [lia..|]. rewrite <- Hz. f_equal. lia.
      * intros x Hx. rewrite Hfr by lia. apply st8_ne. lia.
Qed.

(** [safestrcpy(s, t, n)] with [n > 0] leaves at [s] a NUL-terminated string,
    namely the first [n-1] characters of [t], and writes nothing outside
    [s .. s+n-1]. *)
Theorem safestrcpy_terminates m s t n :
  mem_wf m -> 0 < n -> t + n <= s \/ s + n <= t ->
  let c := take (Z.to_nat (n - 1)) (Obj.chars (bytes_at m t (Z.to_nat (n - 1)))) in
  let m' := KString.safestrcpy m s t n in
  bytes_at m' s (S (length c)) = c ++ [0] /\
  forall x, x < s \/ s + n <= x -> m' x = m x.
Proof.
  intros Hwf Hn Hov. unfold KString.safestrcpy.
  destruct (n <=? 0) eqn:E; [apply Z.leb_le in E; lia|]. clear E.
  pose proof (safestrcpy_copy_spec m s t (Z.to_nat (n - 1)) Hwf ltac:(lia)) as H.
  destruct (KString.safestrcpy_copy _ _ _ _) as [m' s']. cbv beta iota zeta in *.
  destruct H as (Hb & Hwf' & Hs' & Hfr). set (c := take _ _) in *.
  assert (zlen c <= n - 1) as Hlen.
  { unfold zlen, c. rewrite length_take. lia. }
  assert (bytes_at m' s (S (length c)) = c ++ [m' (s + zlen c)]) as Hsplit.
  { rewrite bytes_at_snoc. by rewrite Hb. }
  split.
  - destruct Hs' as [->|(-> & _ & Hz)].
    + rewrite bytes_at_snoc. f_equal.
      * transitivity (bytes_at m' s (length c)); [|done].
        apply bytes_at_ext. intros. apply st8_ne. unfold zlen in *. lia.
      * f_equal. apply st8_eq.
    + rewrite (bytes_at_ext _ m') by (intros; apply st8_ne; unfold zlen in *; lia).
      by rewrite Hsplit, Hz.
  - intros x Hx. rewrite st8_ne; [apply Hfr; lia|].
    unfold zlen in *. destruct Hs' as [->|(-> & Hlt & _)]; lia.
Qed.

Lemma safestrcpy_terminates_witness :
  bytes_at (KString.safestrcpy demo_mem 20 10 3) 20 3 = [97; 98; 0] /\
  forall x, x < 20 \/ 23 <= x -> KString.safestrcpy demo_mem 20 10 3 x = demo_mem x.
Proof.
  assert (mem_wf demo_mem) as Hwf.
  { intros a. unfold demo_mem. mem_cases; lia. }
  exact (safestrcpy_terminates demo_mem 20 10 3 Hwf ltac:(lia) ltac:(lia)).
Defined.

(** ** Numbers *)

(** Value of a least-significant-first digit list. *)
Fixpoint digits_value (radix : Z) (l : list Z) : Z :=
  match l with [] => 0 | d :: l' => (d - 48) + radix * digits_value radix l' end.

Lemma itoa_digits_spec fuel v first l :
  0 <= v -> ULib.itoa_digits fuel v 10 first = Some l ->
  digits_value 10 l = v /\ Forall (fun d => 48 <= d <= 57) l.
Proof.
  revert v first l. induction fuel as [|k IH]; intros v first l Hv; simpl; [done|].
  destruct (negb (v =? 0) || first) eqn:E.
  - destruct (ULib.itoa_digits k (v / 10) 10 false) as [l'|] eqn:E'; simpl; [|done].
    intros [= <-]. destruct (IH (v / 10) _ _ ltac:(zlia) E') as [Hval Hd].
    destruct (v mod 10 <? 10) eqn:Elt; [|apply Z.ltb_ge in Elt; zlia].
    split; [cbn [digits_value]; rewrite Hval; zlia | constructor; [zlia | done]].
  - intros [= <-]. apply orb_false_iff in E as [E _].
    apply negb_false_iff, Z.eqb_eq in E. by subst.
Qed.

Lemma itoa_digits_S k v radix first :
  ULib.itoa_digits (S k) v radix first =
    if negb (v =? 0) || first then
      cons (if v mod radix <? 10 then v mod radix + 48 else v mod radix + 97 - 10)
        <$> ULib.itoa_digits k (v / radix) radix false
    else Some [].
Proof. done. Qed.

Lemma itoa_digits_total fuel v first :
  0 <= v < 10 ^ (Z.of_nat fuel) -> (0 < fuel)%nat ->
  exists l, ULib.itoa_digits (S fuel) v 10 first = Some l.
Proof.
  revert v first. induction fuel as [|k IH]; intros v first Hv Hf; [lia|].
  rewrite itoa_digits_S. destruct (negb (v =? 0) || first) eqn:E; [|eauto].
  destruct k as [|k].
  - replace (v / 10) with 0 by (change (10 ^ Z.of_nat 1) with 10 in Hv; zlia).
    simpl. eauto.
  - destruct (IH (v / 10) false) as [l Hl]; [|lia|rewrite Hl; simpl; eauto].
    rewrite Nat2Z.inj_succ, Z.pow_succ_r in Hv by lia. zlia.
Qed.

Lemma atoi_loop_app l1 l2 n :
  Forall (fun d => 48 <= d <= 57) l1 ->
  ULib.atoi_loop (l1 ++ l2) n = ULib.atoi_loop l2 (ULib.atoi_loop l1 n).
Proof.
  intros H. revert n. induction H as [|c l Hc _ IH]; intros n; simpl; [done|].
  destruct ((48 <=? c) && (c <=? 57)) eqn:E; [apply IH|].
  apply andb_false_iff in E as [E|E]; apply Z.leb_gt in E; lia.
Qed.

Lemma digits_value_nonneg l : Forall (fun d => 48 <= d <= 57) l -> 0 <= digits_value 10 l.
Proof. induction 1; simpl; lia. Qed.

Lemma atoi_rev_digits l :
  Forall (fun d => 48 <= d <= 57) l -> digits_value 10 l < 2147483648 ->
  ULib.atoi_loop (rev l) 0 = digits_value 10 l.
Proof.
  induction 1 as [|c l Hc Hl IH]; simpl; intros Hv; [done|].
  pose proof (digits_value_nonneg l Hl).
  rewrite atoi_loop_app by (by apply Forall_rev). rewrite IH by lia. simpl.
  destruct ((48 <=? c) && (c <=? 57)) eqn:E.
  - rewrite i32_small by lia. lia.
  - apply andb_false_iff in E as [E|E]; apply Z.leb_gt in E; lia.
Qed.

(** Printing a non-negative [int] in decimal with [itoa] succeeds within 11
    loop iterations and [atoi] reads the same number back. *)
Theorem atoi_itoa n :
  0 <= n < 2147483648 ->
  exists s, ULib.itoa 11 n 10 = Some s /\ ULib.atoi s = n.
Proof.
  intros Hn. unfold ULib.itoa.
  destruct (n <? 0) eqn:E; [apply Z.ltb_lt in E; lia|]. rewrite andb_false_r.
  rewrite (u32_small n) by lia.
  destruct (itoa_digits_total 10 n true) as [l Hl]; [simpl; lia | lia |].
  rewrite Hl. exists (rev l). split; [done|].
  destruct (itoa_digits_spec _ n _ _ ltac:(lia) Hl) as [Hv Hd].
  unfold ULib.atoi. rewrite atoi_rev_digits; [done | done | lia].
Qed.

Lemma atoi_itoa_witness : exists s, ULib.itoa 11 4096 10 = Some s /\ ULib.atoi s = 4096.
Proof. apply (atoi_itoa 4096). lia. Defined.

(** The user library's [memmove] does not handle a destination that overlaps
    the source from above: the first byte is smeared over the rest. *)
Lemma ulib_memmove_overlap :
  ULib.memmove demo_mem 11 10 2 12 = 97 /\ KString.memmove demo_mem 11 10 2 12 = 98.
Proof. done. Qed.
