(* ===== verification/KState.v ===== *)
(** * The kernel's state

    Constants of param.h, fs.h, mmu.h and memlayout.h, the data types of
    proc.h, container.h, file.h, buf.h, fs.h, sleeplock.h, log.c and pipe.c, the
    global state they form, and the access operations the components share.

    A pointer to a process, container, inode, file or buffer is its index in the
    table that holds it ([None] for NULL); dereferencing an index outside the
    table is a [Fault].  A page is the [Z] address of its first byte. *)

From S2P Require Import Prelude Monad.

(** ** Constants *)

Definition NCONT : nat := 8.
Definition NPROC : nat := 64.
Definition KSTACKSIZE : Z := 4096.
Definition NOFILE : nat := 16.
Definition NFILE : nat := 100.
Definition NINODE : nat := 50.
Definition NDEV : Z := 10.
Definition ROOTDEV : Z := 1.
Definition MAXARG : nat := 32.
Definition MAXOPBLOCKS : Z := 10.
Definition LOGSIZE : Z := MAXOPBLOCKS * 3.
Definition NBUF : nat := 30.
Definition ROOTCONT : Z := 1.
Definition INPUT_BUF : nat := 128.
Definition MAX_CONT_MEM : Z := 64 * 4096 * 1024.
Definition MAX_CONT_DSK : Z := 64 * 1024 * 4096.

Definition ROOTINO : Z := 1.
Definition BSIZE : Z := 512.
Definition NDIRECT : nat := 12.
Definition NINDIRECT : Z := 128.
Definition MAXFILE : Z := 140.
Definition IPB : Z := 8.
Definition BPB : Z := 4096.
Definition DIRSIZ : nat := 14.

Definition T_DIR : Z := 1.
Definition T_FILE : Z := 2.
Definition T_DEV : Z := 3.

Definition PGSIZE : Z := 4096.
Definition KERNBASE : Z := 2147483648.
Definition EXTMEM : Z := 1048576.
Definition PHYSTOP : Z := 234881024.
Definition DEVSPACE : Z := 4261412864.
Definition KERNLINK : Z := KERNBASE + EXTMEM.
Definition V2P (a : Z) : Z := u32 (a - KERNBASE).
Definition P2V (a : Z) : Z := u32 (a + KERNBASE).
Definition PGROUNDUP (sz : Z) : Z := Z.land (u32 (sz + PGSIZE - 1)) (Z.lnot (PGSIZE - 1)).
Definition PGROUNDDOWN (a : Z) : Z := Z.land a (Z.lnot (PGSIZE - 1)).

(** [lia] with the constants unfolded. *)
Ltac klia :=
  unfold LOGSIZE, NCONT, NPROC, NOFILE, NFILE, NINODE, NBUF, MAXOPBLOCKS, BSIZE, NDIRECT,
    NINDIRECT, MAXFILE, IPB, BPB, DIRSIZ, PGSIZE, KERNBASE, PHYSTOP, zlen in *; lia.

(** Symbols the linker script (kernel.ld) and the assembly files provide. *)
Class Linker : Type := {
  sym_end : Z;      (* first address after the kernel *)
  sym_data : Z;     (* start of the kernel's data segment *)
  sym_trapret : Z;  (* trapasm.S *)
  sym_forkret : Z;  (* address of forkret *)
  initcode : list Z (* initcode.S, assembled *)
}.

(** ** Enumerations *)

Inductive procstate : Type := UNUSED | EMBRYO | SLEEPING | RUNNABLE | RUNNING | ZOMBIE.
Inductive contstate : Type :=
  CUNUSED | CEMBRYO | CREADY | CRUNNABLE | CRUNNING | CPAUSED | CSTOPPING.
Inductive filetype : Type := FD_NONE | FD_PIPE | FD_INODE.

(** Sleep channels: the addresses the kernel passes to [sleep]/[wakeup]. *)
Inductive chan : Type :=
  | ChProc (p : nat)
  | ChBufLock (i : nat)
  | ChInodeLock (i : nat)
  | ChLog
  | ChTicks
  | ChPipeRead (a : Z)
  | ChPipeWrite (a : Z)
  | ChInput.

(** Spinlocks. *)
Inductive lockid : Type :=
  | LCtable | LPtable | LKmem | LBcache | LIcache | LFtable | LLog | LCons | LTicks
  | LPipe (a : Z)
  | LBufLock (i : nat)     (* inner spinlock of a buffer's sleeplock *)
  | LInodeLock (i : nat).

#[global] Instance procstate_eq_dec : EqDecision procstate.
Proof. solve_decision. Defined.
#[global] Instance contstate_eq_dec : EqDecision contstate.
Proof. solve_decision. Defined.
#[global] Instance filetype_eq_dec : EqDecision filetype.
Proof. solve_decision. Defined.
#[global] Instance chan_eq_dec : EqDecision chan.
Proof. solve_decision. Defined.
#[global] Instance lockid_eq_dec : EqDecision lockid.
Proof. solve_decision. Defined.

(** C equality of enumeration values and pointers. *)
Notation "x ==? y" := (bool_decide (x = y)) (at level 70, no associativity) : kernel_scope.

(** ** Structures *)

#[local] Set Primitive Projections.

(** sleeplock.h: the inner spinlock is a [lockid], the name is for debugging. *)
Record sleeplock : Type := mkSleeplock {
  sl_locked : bool;  (* is the lock held? *)
  sl_pid : Z  (* process holding lock *)
}.

(** fs.h. *)
Record superblock : Type := mkSuperblock {
  sb_size : Z;
  sb_nblocks : Z;
  sb_ninodes : Z;
  sb_nlog : Z;
  sb_logstart : Z;
  sb_inodestart : Z;
  sb_bmapstart : Z
}.

(** buf.h: [prev]/[next] are indices into [bcache], the list head has index [NBUF]. *)
Record buf : Type := mkBuf {
  b_flags : Z;
  b_dev : Z;
  b_blockno : Z;
  b_lock : sleeplock;
  b_refcnt : Z;
  b_prev : nat;  (* LRU cache list *)
  b_next : nat;
  b_data : list Z
}.

(** file.h: in-memory copy of an inode. *)
Record inode : Type := mkInode {
  i_dev : Z;
  i_inum : Z;
  i_ref : Z;
  i_lock : sleeplock;
  i_valid : bool;
  i_type : Z;
  i_major : Z;
  i_minor : Z;
  i_nlink : Z;
  i_size : Z;
  i_addrs : list Z
}.

(** file.h. *)
Record file : Type := mkFile {
  f_type : filetype;
  f_ref : Z;
  f_readable : bool;
  f_writable : bool;
  f_pipe : Z;  (* address of the pipe's page *)
  f_ip : option nat;
  f_off : Z
}.

(** pipe.c: [struct pipe], in a page of its own. *)
Record pipe : Type := mkPipe {
  pi_data : list Z;
  pi_nread : Z;
  pi_nwrite : Z;
  pi_readopen : bool;
  pi_writeopen : bool
}.

(** proc.h. *)
Record proc : Type := mkProc {
  p_sz : Z;
  p_pgdir : Z;
  p_kstack : Z;
  p_state : procstate;
  p_pid : Z;
  p_parent : option nat;
  p_tf : Z;  (* trap frame address *)
  p_context : Z;  (* context address *)
  p_chan : option chan;
  p_killed : bool;
  p_ofile : list (option nat);
  p_cwd : option nat;
  p_name : list Z;
  p_ticks : Z;
  p_cont : option nat
}.

(** container.h. *)
Record cont : Type := mkCont {
  c_msz : Z;  (* max memory (bytes) *)
  c_mdsk : Z;  (* max disk (bytes) *)
  c_mproc : Z;  (* max processes *)
  c_upg : Z;  (* used pages *)
  c_udsk : Z;  (* used disk *)
  c_uproc : Z;  (* used processes *)
  c_cid : Z;
  c_rootdir : option nat;
  c_state : contstate;
  c_name : list Z;
  c_ptable : option nat;  (* index of the first process of its row *)
  c_nextproc : Z
}.

(** log.c: [struct log]. *)
Record logst : Type := mkLog {
  l_start : Z;
  l_size : Z;
  l_outstanding : Z;
  l_committing : bool;
  l_dev : Z;
  l_n : Z;  (* log.lh.n *)
  l_block : list Z  (* log.lh.block *)
}.

(** console.c: [struct input]. *)
Record inputbuf : Type := mkInput {
  in_buf : list Z;
  in_r : Z;  (* read index *)
  in_w : Z;  (* write index *)
  in_e : Z  (* edit index *)
}.

(** The console driver's variables and its two devices. *)
Record consdev : Type := mkConsdev {
  cd_input : inputbuf;
  cd_buffers : list inputbuf;  (* the inputs of the inactive consoles *)
  cd_active : Z;
  cd_panicked : bool;
  cd_crt : list Z;  (* CGA memory, 25 rows of 80 cells *)
  cd_pos : Z;  (* the cursor register of the CGA controller *)
  cd_uart : bool;  (* is there a uart? *)
  cd_sent : list Z  (* what the uart has sent *)
}.

(** The kernel state. *)
Record kst : Type := mkKst {
  k_held : list lockid;  (* spinlocks held by this CPU, innermost first *)
  k_cur : option nat;  (* [mycpu()->proc] *)
  k_ctable : list cont;
  k_nextcid : Z;
  k_ptable : list proc;  (* [ptable.proc], row-major *)
  k_nextpid : Z;
  k_initproc : option nat;
  k_first : bool;  (* [forkret]'s static *)
  k_mem : mem;
  k_freelist : Z;
  k_uselock : bool;
  k_userinited : bool;
  k_ticks : Z;
  k_ftable : list file;
  k_pipes : gmap Z pipe;  (* pipe structures by page address *)
  k_bufs : list buf;  (* [bcache.buf] and, last, [bcache.head] *)
  k_disk : list (list Z);  (* [memdisk], block by block *)
  k_dtrace : list (Z * list Z);  (* history of disk writes, oldest first *)
  k_log : logst;
  k_sb : superblock;
  k_icache : list inode;
  k_locking : bool;  (* [cons.locking] *)
  k_klog : list (string * list Z);  (* what [cprintf] was called with *)
  k_cons : consdev;
  k_kpgdir : Z;  (* [kpgdir] *)
  k_cr3 : Z;  (* page table register *)
  k_esp0 : Z  (* [mycpu()->ts.esp0] *)
}.

(** Field updates. *)

Definition set_sl_locked (v : bool) (r : sleeplock) : sleeplock :=
  mkSleeplock v (sl_pid r).
Definition set_sl_pid (v : Z) (r : sleeplock) : sleeplock :=
  mkSleeplock (sl_locked r) v.
Definition set_sb_size (v : Z) (r : superblock) : superblock :=
  mkSuperblock v (sb_nblocks r) (sb_ninodes r) (sb_nlog r) (sb_logstart r) (sb_inodestart r)
    (sb_bmapstart r).
Definition set_sb_nblocks (v : Z) (r : superblock) : superblock :=
  mkSuperblock (sb_size r) v (sb_ninodes r) (sb_nlog r) (sb_logstart r) (sb_inodestart r)
    (sb_bmapstart r).
Definition set_sb_ninodes (v : Z) (r : superblock) : superblock :=
  mkSuperblock (sb_size r) (sb_nblocks r) v (sb_nlog r) (sb_logstart r) (sb_inodestart r)
    (sb_bmapstart r).
Definition set_sb_nlog (v : Z) (r : superblock) : superblock :=
  mkSuperblock (sb_size r) (sb_nblocks r) (sb_ninodes r) v (sb_logstart r) (sb_inodestart r)
    (sb_bmapstart r).
Definition set_sb_logstart (v : Z) (r : superblock) : superblock :=
  mkSuperblock (sb_size r) (sb_nblocks r) (sb_ninodes r) (sb_nlog r) v (sb_inodestart r)
    (sb_bmapstart r).
Definition set_sb_inodestart (v : Z) (r : superblock) : superblock :=
  mkSuperblock (sb_size r) (sb_nblocks r) (sb_ninodes r) (sb_nlog r) (sb_logstart r) v
    (sb_bmapstart r).
Definition set_sb_bmapstart (v : Z) (r : superblock) : superblock :=
  mkSuperblock (sb_size r) (sb_nblocks r) (sb_ninodes r) (sb_nlog r) (sb_logstart r)
    (sb_inodestart r) v.
Definition set_b_flags (v : Z) (r : buf) : buf :=
  mkBuf v (b_dev r) (b_blockno r) (b_lock r) (b_refcnt r) (b_prev r) (b_next r) (b_data r).
Definition set_b_dev (v : Z) (r : buf) : buf :=
  mkBuf (b_flags r) v (b_blockno r) (b_lock r) (b_refcnt r) (b_prev r) (b_next r) (b_data r).
Definition set_b_blockno (v : Z) (r : buf) : buf :=
  mkBuf (b_flags r) (b_dev r) v (b_lock r) (b_refcnt r) (b_prev r) (b_next r) (b_data r).
Definition set_b_lock (v : sleeplock) (r : buf) : buf :=
  mkBuf (b_flags r) (b_dev r) (b_blockno r) v (b_refcnt r) (b_prev r) (b_next r) (b_data r).
Definition set_b_refcnt (v : Z) (r : buf) : buf :=
  mkBuf (b_flags r) (b_dev r) (b_blockno r) (b_lock r) v (b_prev r) (b_next r) (b_data r).
Definition set_b_prev (v : nat) (r : buf) : buf :=
  mkBuf (b_flags r) (b_dev r) (b_blockno r) (b_lock r) (b_refcnt r) v (b_next r) (b_data r).
Definition set_b_next (v : nat) (r : buf) : buf :=
  mkBuf (b_flags r) (b_dev r) (b_blockno r) (b_lock r) (b_refcnt r) (b_prev r) v (b_data r).
Definition set_b_data (v : list Z) (r : buf) : buf :=
  mkBuf (b_flags r) (b_dev r) (b_blockno r) (b_lock r) (b_refcnt r) (b_prev r) (b_next r) v.
Definition set_i_dev (v : Z) (r : inode) : inode :=
  mkInode v (i_inum r) (i_ref r) (i_lock r) (i_valid r) (i_type r) (i_major r) (i_minor r)
    (i_nlink r) (i_size r) (i_addrs r).
Definition set_i_inum (v : Z) (r : inode) : inode :=
  mkInode (i_dev r) v (i_ref r) (i_lock r) (i_valid r) (i_type r) (i_major r) (i_minor r)
    (i_nlink r) (i_size r) (i_addrs r).
Definition set_i_ref (v : Z) (r : inode) : inode :=
  mkInode (i_dev r) (i_inum r) v (i_lock r) (i_valid r) (i_type r) (i_major r) (i_minor r)
    (i_nlink r) (i_size r) (i_addrs r).
Definition set_i_lock (v : sleeplock) (r : inode) : inode :=
  mkInode (i_dev r) (i_inum r) (i_ref r) v (i_valid r) (i_type r) (i_major r) (i_minor r)
    (i_nlink r) (i_size r) (i_addrs r).
Definition set_i_valid (v : bool) (r : inode) : inode :=
  mkInode (i_dev r) (i_inum r) (i_ref r) (i_lock r) v (i_type r) (i_major r) (i_minor r)
    (i_nlink r) (i_size r) (i_addrs r).
Definition set_i_type (v : Z) (r : inode) : inode :=
  mkInode (i_dev r) (i_inum r) (i_ref r) (i_lock r) (i_valid r) v (i_major r) (i_minor r)
    (i_nlink r) (i_size r) (i_addrs r).
Definition set_i_major (v : Z) (r : inode) : inode :=
  mkInode (i_dev r) (i_inum r) (i_ref r) (i_lock r) (i_valid r) (i_type r) v (i_minor r)
    (i_nlink r) (i_size r) (i_addrs r).
Definition set_i_minor (v : Z) (r : inode) : inode :=
  mkInode (i_dev r) (i_inum r) (i_ref r) (i_lock r) (i_valid r) (i_type r) (i_major r) v
    (i_nlink r) (i_size r) (i_addrs r).
Definition set_i_nlink (v : Z) (r : inode) : inode :=
  mkInode (i_dev r) (i_inum r) (i_ref r) (i_lock r) (i_valid r) (i_type r) (i_major r) (i_minor
    r) v (i_size r) (i_addrs r).
Definition set_i_size (v : Z) (r : inode) : inode :=
  mkInode (i_dev r) (i_inum r) (i_ref r) (i_lock r) (i_valid r) (i_type r) (i_major r) (i_minor
    r) (i_nlink r) v (i_addrs r).
Definition set_i_addrs (v : list Z) (r : inode) : inode :=
  mkInode (i_dev r) (i_inum r) (i_ref r) (i_lock r) (i_valid r) (i_type r) (i_major r) (i_minor
    r) (i_nlink r) (i_size r) v.
Definition set_f_type (v : filetype) (r : file) : file :=
  mkFile v (f_ref r) (f_readable r) (f_writable r) (f_pipe r) (f_ip r) (f_off r).
Definition set_f_ref (v : Z) (r : file) : file :=
  mkFile (f_type r) v (f_readable r) (f_writable r) (f_pipe r) (f_ip r) (f_off r).
Definition set_f_readable (v : bool) (r : file) : file :=
  mkFile (f_type r) (f_ref r) v (f_writable r) (f_pipe r) (f_ip r) (f_off r).
Definition set_f_writable (v : bool) (r : file) : file :=
  mkFile (f_type r) (f_ref r) (f_readable r) v (f_pipe r) (f_ip r) (f_off r).
Definition set_f_pipe (v : Z) (r : file) : file :=
  mkFile (f_type r) (f_ref r) (f_readable r) (f_writable r) v (f_ip r) (f_off r).
Definition set_f_ip (v : option nat) (r : file) : file :=
  mkFile (f_type r) (f_ref r) (f_readable r) (f_writable r) (f_pipe r) v (f_off r).
Definition set_f_off (v : Z) (r : file) : file :=
  mkFile (f_type r) (f_ref r) (f_readable r) (f_writable r) (f_pipe r) (f_ip r) v.
Definition set_pi_data (v : list Z) (r : pipe) : pipe :=
  mkPipe v (pi_nread r) (pi_nwrite r) (pi_readopen r) (pi_writeopen r).
Definition set_pi_nread (v : Z) (r : pipe) : pipe :=
  mkPipe (pi_data r) v (pi_nwrite r) (pi_readopen r) (pi_writeopen r).
Definition set_pi_nwrite (v : Z) (r : pipe) : pipe :=
  mkPipe (pi_data r) (pi_nread r) v (pi_readopen r) (pi_writeopen r).
Definition set_pi_readopen (v : bool) (r : pipe) : pipe :=
  mkPipe (pi_data r) (pi_nread r) (pi_nwrite r) v (pi_writeopen r).
Definition set_pi_writeopen (v : bool) (r : pipe) : pipe :=
  mkPipe (pi_data r) (pi_nread r) (pi_nwrite r) (pi_readopen r) v.
Definition set_p_sz (v : Z) (r : proc) : proc :=
  mkProc v (p_pgdir r) (p_kstack r) (p_state r) (p_pid r) (p_parent r) (p_tf r) (p_context r)
    (p_chan r) (p_killed r) (p_ofile r) (p_cwd r) (p_name r) (p_ticks r) (p_cont r).
Definition set_p_pgdir (v : Z) (r : proc) : proc :=
  mkProc (p_sz r) v (p_kstack r) (p_state r) (p_pid r) (p_parent r) (p_tf r) (p_context r)
    (p_chan r) (p_killed r) (p_ofile r) (p_cwd r) (p_name r) (p_ticks r) (p_cont r).
Definition set_p_kstack (v : Z) (r : proc) : proc :=
  mkProc (p_sz r) (p_pgdir r) v (p_state r) (p_pid r) (p_parent r) (p_tf r) (p_context r)
    (p_chan r) (p_killed r) (p_ofile r) (p_cwd r) (p_name r) (p_ticks r) (p_cont r).
Definition set_p_state (v : procstate) (r : proc) : proc :=
  mkProc (p_sz r) (p_pgdir r) (p_kstack r) v (p_pid r) (p_parent r) (p_tf r) (p_context r)
    (p_chan r) (p_killed r) (p_ofile r) (p_cwd r) (p_name r) (p_ticks r) (p_cont r).
Definition set_p_pid (v : Z) (r : proc) : proc :=
  mkProc (p_sz r) (p_pgdir r) (p_kstack r) (p_state r) v (p_parent r) (p_tf r) (p_context r)
    (p_chan r) (p_killed r) (p_ofile r) (p_cwd r) (p_name r) (p_ticks r) (p_cont r).
Definition set_p_parent (v : option nat) (r : proc) : proc :=
  mkProc (p_sz r) (p_pgdir r) (p_kstack r) (p_state r) (p_pid r) v (p_tf r) (p_context r)
    (p_chan r) (p_killed r) (p_ofile r) (p_cwd r) (p_name r) (p_ticks r) (p_cont r).
Definition set_p_tf (v : Z) (r : proc) : proc :=
  mkProc (p_sz r) (p_pgdir r) (p_kstack r) (p_state r) (p_pid r) (p_parent r) v (p_context r)
    (p_chan r) (p_killed r) (p_ofile r) (p_cwd r) (p_name r) (p_ticks r) (p_cont r).
Definition set_p_context (v : Z) (r : proc) : proc :=
  mkProc (p_sz r) (p_pgdir r) (p_kstack r) (p_state r) (p_pid r) (p_parent r) (p_tf r) v (p_chan
    r) (p_killed r) (p_ofile r) (p_cwd r) (p_name r) (p_ticks r) (p_cont r).
Definition set_p_chan (v : option chan) (r : proc) : proc :=
  mkProc (p_sz r) (p_pgdir r) (p_kstack r) (p_state r) (p_pid r) (p_parent r) (p_tf r)
    (p_context r) v (p_killed r) (p_ofile r) (p_cwd r) (p_name r) (p_ticks r) (p_cont r).
Definition set_p_killed (v : bool) (r : proc) : proc :=
  mkProc (p_sz r) (p_pgdir r) (p_kstack r) (p_state r) (p_pid r) (p_parent r) (p_tf r)
    (p_context r) (p_chan r) v (p_ofile r) (p_cwd r) (p_name r) (p_ticks r) (p_cont r).
Definition set_p_ofile (v : list (option nat)) (r : proc) : proc :=
  mkProc (p_sz r) (p_pgdir r) (p_kstack r) (p_state r) (p_pid r) (p_parent r) (p_tf r)
    (p_context r) (p_chan r) (p_killed r) v (p_cwd r) (p_name r) (p_ticks r) (p_cont r).
Definition set_p_cwd (v : option nat) (r : proc) : proc :=
  mkProc (p_sz r) (p_pgdir r) (p_kstack r) (p_state r) (p_pid r) (p_parent r) (p_tf r)
    (p_context r) (p_chan r) (p_killed r) (p_ofile r) v (p_name r) (p_ticks r) (p_cont r).
Definition set_p_name (v : list Z) (r : proc) : proc :=
  mkProc (p_sz r) (p_pgdir r) (p_kstack r) (p_state r) (p_pid r) (p_parent r) (p_tf r)
    (p_context r) (p_chan r) (p_killed r) (p_ofile r) (p_cwd r) v (p_ticks r) (p_cont r).
Definition set_p_ticks (v : Z) (r : proc) : proc :=
  mkProc (p_sz r) (p_pgdir r) (p_kstack r) (p_state r) (p_pid r) (p_parent r) (p_tf r)
    (p_context r) (p_chan r) (p_killed r) (p_ofile r) (p_cwd r) (p_name r) v (p_cont r).
Definition set_p_cont (v : option nat) (r : proc) : proc :=
  mkProc (p_sz r) (p_pgdir r) (p_kstack r) (p_state r) (p_pid r) (p_parent r) (p_tf r)
    (p_context r) (p_chan r) (p_killed r) (p_ofile r) (p_cwd r) (p_name r) (p_ticks r) v.
Definition set_c_msz (v : Z) (r : cont) : cont :=
  mkCont v (c_mdsk r) (c_mproc r) (c_upg r) (c_udsk r) (c_uproc r) (c_cid r) (c_rootdir r)
    (c_state r) (c_name r) (c_ptable r) (c_nextproc r).
Definition set_c_mdsk (v : Z) (r : cont) : cont :=
  mkCont (c_msz r) v (c_mproc r) (c_upg r) (c_udsk r) (c_uproc r) (c_cid r) (c_rootdir r)
    (c_state r) (c_name r) (c_ptable r) (c_nextproc r).
Definition set_c_mproc (v : Z) (r : cont) : cont :=
  mkCont (c_msz r) (c_mdsk r) v (c_upg r) (c_udsk r) (c_uproc r) (c_cid r) (c_rootdir r)
    (c_state r) (c_name r) (c_ptable r) (c_nextproc r).
Definition set_c_upg (v : Z) (r : cont) : cont :=
  mkCont (c_msz r) (c_mdsk r) (c_mproc r) v (c_udsk r) (c_uproc r) (c_cid r) (c_rootdir r)
    (c_state r) (c_name r) (c_ptable r) (c_nextproc r).
Definition set_c_udsk (v : Z) (r : cont) : cont :=
  mkCont (c_msz r) (c_mdsk r) (c_mproc r) (c_upg r) v (c_uproc r) (c_cid r) (c_rootdir r)
    (c_state r) (c_name r) (c_ptable r) (c_nextproc r).
Definition set_c_uproc (v : Z) (r : cont) : cont :=
  mkCont (c_msz r) (c_mdsk r) (c_mproc r) (c_upg r) (c_udsk r) v (c_cid r) (c_rootdir r)
    (c_state r) (c_name r) (c_ptable r) (c_nextproc r).
Definition set_c_cid (v : Z) (r : cont) : cont :=
  mkCont (c_msz r) (c_mdsk r) (c_mproc r) (c_upg r) (c_udsk r) (c_uproc r) v (c_rootdir r)
    (c_state r) (c_name r) (c_ptable r) (c_nextproc r).
Definition set_c_rootdir (v : option nat) (r : cont) : cont :=
  mkCont (c_msz r) (c_mdsk r) (c_mproc r) (c_upg r) (c_udsk r) (c_uproc r) (c_cid r) v (c_state
    r) (c_name r) (c_ptable r) (c_nextproc r).
Definition set_c_state (v : contstate) (r : cont) : cont :=
  mkCont (c_msz r) (c_mdsk r) (c_mproc r) (c_upg r) (c_udsk r) (c_uproc r) (c_cid r) (c_rootdir
    r) v (c_name r) (c_ptable r) (c_nextproc r).
Definition set_c_name (v : list Z) (r : cont) : cont :=
  mkCont (c_msz r) (c_mdsk r) (c_mproc r) (c_upg r) (c_udsk r) (c_uproc r) (c_cid r) (c_rootdir
    r) (c_state r) v (c_ptable r) (c_nextproc r).
Definition set_c_ptable (v : option nat) (r : cont) : cont :=
  mkCont (c_msz r) (c_mdsk r) (c_mproc r) (c_upg r) (c_udsk r) (c_uproc r) (c_cid r) (c_rootdir
    r) (c_state r) (c_name r) v (c_nextproc r).
Definition set_c_nextproc (v : Z) (r : cont) : cont :=
  mkCont (c_msz r) (c_mdsk r) (c_mproc r) (c_upg r) (c_udsk r) (c_uproc r) (c_cid r) (c_rootdir
    r) (c_state r) (c_name r) (c_ptable r) v.
Definition set_l_start (v : Z) (r : logst) : logst :=
  mkLog v (l_size r) (l_outstanding r) (l_committing r) (l_dev r) (l_n r) (l_block r).
Definition set_l_size (v : Z) (r : logst) : logst :=
  mkLog (l_start r) v (l_outstanding r) (l_committing r) (l_dev r) (l_n r) (l_block r).
Definition set_l_outstanding (v : Z) (r : logst) : logst :=
  mkLog (l_start r) (l_size r) v (l_committing r) (l_dev r) (l_n r) (l_block r).
Definition set_l_committing (v : bool) (r : logst) : logst :=
  mkLog (l_start r) (l_size r) (l_outstanding r) v (l_dev r) (l_n r) (l_block r).
Definition set_l_dev (v : Z) (r : logst) : logst :=
  mkLog (l_start r) (l_size r) (l_outstanding r) (l_committing r) v (l_n r) (l_block r).
Definition set_l_n (v : Z) (r : logst) : logst :=
  mkLog (l_start r) (l_size r) (l_outstanding r) (l_committing r) (l_dev r) v (l_block r).
Definition set_l_block (v : list Z) (r : logst) : logst :=
  mkLog (l_start r) (l_size r) (l_outstanding r) (l_committing r) (l_dev r) (l_n r) v.
Definition set_in_buf (v : list Z) (r : inputbuf) : inputbuf :=
  mkInput v (in_r r) (in_w r) (in_e r).
Definition set_in_r (v : Z) (r : inputbuf) : inputbuf :=
  mkInput (in_buf r) v (in_w r) (in_e r).
Definition set_in_w (v : Z) (r : inputbuf) : inputbuf :=
  mkInput (in_buf r) (in_r r) v (in_e r).
Definition set_in_e (v : Z) (r : inputbuf) : inputbuf :=
  mkInput (in_buf r) (in_r r) (in_w r) v.
Definition set_cd_input (v : inputbuf) (r : consdev) : consdev :=
  mkConsdev v (cd_buffers r) (cd_active r) (cd_panicked r) (cd_crt r) (cd_pos r) (cd_uart r)
    (cd_sent r).
Definition set_cd_buffers (v : list inputbuf) (r : consdev) : consdev :=
  mkConsdev (cd_input r) v (cd_active r) (cd_panicked r) (cd_crt r) (cd_pos r) (cd_uart r)
    (cd_sent r).
Definition set_cd_active (v : Z) (r : consdev) : consdev :=
  mkConsdev (cd_input r) (cd_buffers r) v (cd_panicked r) (cd_crt r) (cd_pos r) (cd_uart r)
    (cd_sent r).
Definition set_cd_panicked (v : bool) (r : consdev) : consdev :=
  mkConsdev (cd_input r) (cd_buffers r) (cd_active r) v (cd_crt r) (cd_pos r) (cd_uart r)
    (cd_sent r).
Definition set_cd_crt (v : list Z) (r : consdev) : consdev :=
  mkConsdev (cd_input r) (cd_buffers r) (cd_active r) (cd_panicked r) v (cd_pos r) (cd_uart r)
    (cd_sent r).
Definition set_cd_pos (v : Z) (r : consdev) : consdev :=
  mkConsdev (cd_input r) (cd_buffers r) (cd_active r) (cd_panicked r) (cd_crt r) v (cd_uart r)
    (cd_sent r).
Definition set_cd_uart (v : bool) (r : consdev) : consdev :=
  mkConsdev (cd_input r) (cd_buffers r) (cd_active r) (cd_panicked r) (cd_crt r) (cd_pos r) v
    (cd_sent r).
Definition set_cd_sent (v : list Z) (r : consdev) : consdev :=
  mkConsdev (cd_input r) (cd_buffers r) (cd_active r) (cd_panicked r) (cd_crt r) (cd_pos r)
    (cd_uart r) v.
Definition set_k_held (v : list lockid) (r : kst) : kst :=
  mkKst v (k_cur r) (k_ctable r) (k_nextcid r) (k_ptable r) (k_nextpid r) (k_initproc r)
    (k_first r) (k_mem r) (k_freelist r) (k_uselock r) (k_userinited r) (k_ticks r) (k_ftable r)
    (k_pipes r) (k_bufs r) (k_disk r) (k_dtrace r) (k_log r) (k_sb r) (k_icache r) (k_locking r)
    (k_klog r) (k_cons r) (k_kpgdir r) (k_cr3 r) (k_esp0 r).
Definition set_k_cur (v : option nat) (r : kst) : kst :=
  mkKst (k_held r) v (k_ctable r) (k_nextcid r) (k_ptable r) (k_nextpid r) (k_initproc r)
    (k_first r) (k_mem r) (k_freelist r) (k_uselock r) (k_userinited r) (k_ticks r) (k_ftable r)
    (k_pipes r) (k_bufs r) (k_disk r) (k_dtrace r) (k_log r) (k_sb r) (k_icache r) (k_locking r)
    (k_klog r) (k_cons r) (k_kpgdir r) (k_cr3 r) (k_esp0 r).
Definition set_k_ctable (v : list cont) (r : kst) : kst :=
  mkKst (k_held r) (k_cur r) v (k_nextcid r) (k_ptable r) (k_nextpid r) (k_initproc r) (k_first
    r) (k_mem r) (k_freelist r) (k_uselock r) (k_userinited r) (k_ticks r) (k_ftable r) (k_pipes
    r) (k_bufs r) (k_disk r) (k_dtrace r) (k_log r) (k_sb r) (k_icache r) (k_locking r) (k_klog
    r) (k_cons r) (k_kpgdir r) (k_cr3 r) (k_esp0 r).
Definition set_k_nextcid (v : Z) (r : kst) : kst :=
  mkKst (k_held r) (k_cur r) (k_ctable r) v (k_ptable r) (k_nextpid r) (k_initproc r) (k_first
    r) (k_mem r) (k_freelist r) (k_uselock r) (k_userinited r) (k_ticks r) (k_ftable r) (k_pipes
    r) (k_bufs r) (k_disk r) (k_dtrace r) (k_log r) (k_sb r) (k_icache r) (k_locking r) (k_klog
    r) (k_cons r) (k_kpgdir r) (k_cr3 r) (k_esp0 r).
Definition set_k_ptable (v : list proc) (r : kst) : kst :=
  mkKst (k_held r) (k_cur r) (k_ctable r) (k_nextcid r) v (k_nextpid r) (k_initproc r) (k_first
    r) (k_mem r) (k_freelist r) (k_uselock r) (k_userinited r) (k_ticks r) (k_ftable r) (k_pipes
    r) (k_bufs r) (k_disk r) (k_dtrace r) (k_log r) (k_sb r) (k_icache r) (k_locking r) (k_klog
    r) (k_cons r) (k_kpgdir r) (k_cr3 r) (k_esp0 r).
Definition set_k_nextpid (v : Z) (r : kst) : kst :=
  mkKst (k_held r) (k_cur r) (k_ctable r) (k_nextcid r) (k_ptable r) v (k_initproc r) (k_first
    r) (k_mem r) (k_freelist r) (k_uselock r) (k_userinited r) (k_ticks r) (k_ftable r) (k_pipes
    r) (k_bufs r) (k_disk r) (k_dtrace r) (k_log r) (k_sb r) (k_icache r) (k_locking r) (k_klog
    r) (k_cons r) (k_kpgdir r) (k_cr3 r) (k_esp0 r).
Definition set_k_initproc (v : option nat) (r : kst) : kst :=
  mkKst (k_held r) (k_cur r) (k_ctable r) (k_nextcid r) (k_ptable r) (k_nextpid r) v (k_first r)
    (k_mem r) (k_freelist r) (k_uselock r) (k_userinited r) (k_ticks r) (k_ftable r) (k_pipes r)
    (k_bufs r) (k_disk r) (k_dtrace r) (k_log r) (k_sb r) (k_icache r) (k_locking r) (k_klog r)
    (k_cons r) (k_kpgdir r) (k_cr3 r) (k_esp0 r).
Definition set_k_first (v : bool) (r : kst) : kst :=
  mkKst (k_held r) (k_cur r) (k_ctable r) (k_nextcid r) (k_ptable r) (k_nextpid r) (k_initproc
    r) v (k_mem r) (k_freelist r) (k_uselock r) (k_userinited r) (k_ticks r) (k_ftable r)
    (k_pipes r) (k_bufs r) (k_disk r) (k_dtrace r) (k_log r) (k_sb r) (k_icache r) (k_locking r)
    (k_klog r) (k_cons r) (k_kpgdir r) (k_cr3 r) (k_esp0 r).
Definition set_k_mem (v : mem) (r : kst) : kst :=
  mkKst (k_held r) (k_cur r) (k_ctable r) (k_nextcid r) (k_ptable r) (k_nextpid r) (k_initproc
    r) (k_first r) v (k_freelist r) (k_uselock r) (k_userinited r) (k_ticks r) (k_ftable r)
    (k_pipes r) (k_bufs r) (k_disk r) (k_dtrace r) (k_log r) (k_sb r) (k_icache r) (k_locking r)
    (k_klog r) (k_cons r) (k_kpgdir r) (k_cr3 r) (k_esp0 r).
Definition set_k_freelist (v : Z) (r : kst) : kst :=
  mkKst (k_held r) (k_cur r) (k_ctable r) (k_nextcid r) (k_ptable r) (k_nextpid r) (k_initproc
    r) (k_first r) (k_mem r) v (k_uselock r) (k_userinited r) (k_ticks r) (k_ftable r) (k_pipes
    r) (k_bufs r) (k_disk r) (k_dtrace r) (k_log r) (k_sb r) (k_icache r) (k_locking r) (k_klog
    r) (k_cons r) (k_kpgdir r) (k_cr3 r) (k_esp0 r).
Definition set_k_uselock (v : bool) (r : kst) : kst :=
  mkKst (k_held r) (k_cur r) (k_ctable r) (k_nextcid r) (k_ptable r) (k_nextpid r) (k_initproc
    r) (k_first r) (k_mem r) (k_freelist r) v (k_userinited r) (k_ticks r) (k_ftable r) (k_pipes
    r) (k_bufs r) (k_disk r) (k_dtrace r) (k_log r) (k_sb r) (k_icache r) (k_locking r) (k_klog
    r) (k_cons r) (k_kpgdir r) (k_cr3 r) (k_esp0 r).
Definition set_k_userinited (v : bool) (r : kst) : kst :=
  mkKst (k_held r) (k_cur r) (k_ctable r) (k_nextcid r) (k_ptable r) (k_nextpid r) (k_initproc
    r) (k_first r) (k_mem r) (k_freelist r) (k_uselock r) v (k_ticks r) (k_ftable r) (k_pipes r)
    (k_bufs r) (k_disk r) (k_dtrace r) (k_log r) (k_sb r) (k_icache r) (k_locking r) (k_klog r)
    (k_cons r) (k_kpgdir r) (k_cr3 r) (k_esp0 r).
Definition set_k_ticks (v : Z) (r : kst) : kst :=
  mkKst (k_held r) (k_cur r) (k_ctable r) (k_nextcid r) (k_ptable r) (k_nextpid r) (k_initproc
    r) (k_first r) (k_mem r) (k_freelist r) (k_uselock r) (k_userinited r) v (k_ftable r)
    (k_pipes r) (k_bufs r) (k_disk r) (k_dtrace r) (k_log r) (k_sb r) (k_icache r) (k_locking r)
    (k_klog r) (k_cons r) (k_kpgdir r) (k_cr3 r) (k_esp0 r).
Definition set_k_ftable (v : list file) (r : kst) : kst :=
  mkKst (k_held r) (k_cur r) (k_ctable r) (k_nextcid r) (k_ptable r) (k_nextpid r) (k_initproc
    r) (k_first r) (k_mem r) (k_freelist r) (k_uselock r) (k_userinited r) (k_ticks r) v
    (k_pipes r) (k_bufs r) (k_disk r) (k_dtrace r) (k_log r) (k_sb r) (k_icache r) (k_locking r)
    (k_klog r) (k_cons r) (k_kpgdir r) (k_cr3 r) (k_esp0 r).
Definition set_k_pipes (v : gmap Z pipe) (r : kst) : kst :=
  mkKst (k_held r) (k_cur r) (k_ctable r) (k_nextcid r) (k_ptable r) (k_nextpid r) (k_initproc
    r) (k_first r) (k_mem r) (k_freelist r) (k_uselock r) (k_userinited r) (k_ticks r) (k_ftable
    r) v (k_bufs r) (k_disk r) (k_dtrace r) (k_log r) (k_sb r) (k_icache r) (k_locking r)
    (k_klog r) (k_cons r) (k_kpgdir r) (k_cr3 r) (k_esp0 r).
Definition set_k_bufs (v : list buf) (r : kst) : kst :=
  mkKst (k_held r) (k_cur r) (k_ctable r) (k_nextcid r) (k_ptable r) (k_nextpid r) (k_initproc
    r) (k_first r) (k_mem r) (k_freelist r) (k_uselock r) (k_userinited r) (k_ticks r) (k_ftable
    r) (k_pipes r) v (k_disk r) (k_dtrace r) (k_log r) (k_sb r) (k_icache r) (k_locking r)
    (k_klog r) (k_cons r) (k_kpgdir r) (k_cr3 r) (k_esp0 r).
Definition set_k_disk (v : list (list Z)) (r : kst) : kst :=
  mkKst (k_held r) (k_cur r) (k_ctable r) (k_nextcid r) (k_ptable r) (k_nextpid r) (k_initproc
    r) (k_first r) (k_mem r) (k_freelist r) (k_uselock r) (k_userinited r) (k_ticks r) (k_ftable
    r) (k_pipes r) (k_bufs r) v (k_dtrace r) (k_log r) (k_sb r) (k_icache r) (k_locking r)
    (k_klog r) (k_cons r) (k_kpgdir r) (k_cr3 r) (k_esp0 r).
Definition set_k_dtrace (v : list (Z * list Z)) (r : kst) : kst :=
  mkKst (k_held r) (k_cur r) (k_ctable r) (k_nextcid r) (k_ptable r) (k_nextpid r) (k_initproc
    r) (k_first r) (k_mem r) (k_freelist r) (k_uselock r) (k_userinited r) (k_ticks r) (k_ftable
    r) (k_pipes r) (k_bufs r) (k_disk r) v (k_log r) (k_sb r) (k_icache r) (k_locking r) (k_klog
    r) (k_cons r) (k_kpgdir r) (k_cr3 r) (k_esp0 r).
Definition set_k_log (v : logst) (r : kst) : kst :=
  mkKst (k_held r) (k_cur r) (k_ctable r) (k_nextcid r) (k_ptable r) (k_nextpid r) (k_initproc
    r) (k_first r) (k_mem r) (k_freelist r) (k_uselock r) (k_userinited r) (k_ticks r) (k_ftable
    r) (k_pipes r) (k_bufs r) (k_disk r) (k_dtrace r) v (k_sb r) (k_icache r) (k_locking r)
    (k_klog r) (k_cons r) (k_kpgdir r) (k_cr3 r) (k_esp0 r).
Definition set_k_sb (v : superblock) (r : kst) : kst :=
  mkKst (k_held r) (k_cur r) (k_ctable r) (k_nextcid r) (k_ptable r) (k_nextpid r) (k_initproc
    r) (k_first r) (k_mem r) (k_freelist r) (k_uselock r) (k_userinited r) (k_ticks r) (k_ftable
    r) (k_pipes r) (k_bufs r) (k_disk r) (k_dtrace r) (k_log r) v (k_icache r) (k_locking r)
    (k_klog r) (k_cons r) (k_kpgdir r) (k_cr3 r) (k_esp0 r).
Definition set_k_icache (v : list inode) (r : kst) : kst :=
  mkKst (k_held r) (k_cur r) (k_ctable r) (k_nextcid r) (k_ptable r) (k_nextpid r) (k_initproc
    r) (k_first r) (k_mem r) (k_freelist r) (k_uselock r) (k_userinited r) (k_ticks r) (k_ftable
    r) (k_pipes r) (k_bufs r) (k_disk r) (k_dtrace r) (k_log r) (k_sb r) v (k_locking r) (k_klog
    r) (k_cons r) (k_kpgdir r) (k_cr3 r) (k_esp0 r).
Definition set_k_locking (v : bool) (r : kst) : kst :=
  mkKst (k_held r) (k_cur r) (k_ctable r) (k_nextcid r) (k_ptable r) (k_nextpid r) (k_initproc
    r) (k_first r) (k_mem r) (k_freelist r) (k_uselock r) (k_userinited r) (k_ticks r) (k_ftable
    r) (k_pipes r) (k_bufs r) (k_disk r) (k_dtrace r) (k_log r) (k_sb r) (k_icache r) v (k_klog
    r) (k_cons r) (k_kpgdir r) (k_cr3 r) (k_esp0 r).
Definition set_k_klog (v : list (string * list Z)) (r : kst) : kst :=
  mkKst (k_held r) (k_cur r) (k_ctable r) (k_nextcid r) (k_ptable r) (k_nextpid r) (k_initproc
    r) (k_first r) (k_mem r) (k_freelist r) (k_uselock r) (k_userinited r) (k_ticks r) (k_ftable
    r) (k_pipes r) (k_bufs r) (k_disk r) (k_dtrace r) (k_log r) (k_sb r) (k_icache r) (k_locking
    r) v (k_cons r) (k_kpgdir r) (k_cr3 r) (k_esp0 r).
Definition set_k_cons (v : consdev) (r : kst) : kst :=
  mkKst (k_held r) (k_cur r) (k_ctable r) (k_nextcid r) (k_ptable r) (k_nextpid r) (k_initproc
    r) (k_first r) (k_mem r) (k_freelist r) (k_uselock r) (k_userinited r) (k_ticks r) (k_ftable
    r) (k_pipes r) (k_bufs r) (k_disk r) (k_dtrace r) (k_log r) (k_sb r) (k_icache r) (k_locking
    r) (k_klog r) v (k_kpgdir r) (k_cr3 r) (k_esp0 r).
Definition set_k_kpgdir (v : Z) (r : kst) : kst :=
  mkKst (k_held r) (k_cur r) (k_ctable r) (k_nextcid r) (k_ptable r) (k_nextpid r) (k_initproc
    r) (k_first r) (k_mem r) (k_freelist r) (k_uselock r) (k_userinited r) (k_ticks r) (k_ftable
    r) (k_pipes r) (k_bufs r) (k_disk r) (k_dtrace r) (k_log r) (k_sb r) (k_icache r) (k_locking
    r) (k_klog r) (k_cons r) v (k_cr3 r) (k_esp0 r).
Definition set_k_cr3 (v : Z) (r : kst) : kst :=
  mkKst (k_held r) (k_cur r) (k_ctable r) (k_nextcid r) (k_ptable r) (k_nextpid r) (k_initproc
    r) (k_first r) (k_mem r) (k_freelist r) (k_uselock r) (k_userinited r) (k_ticks r) (k_ftable
    r) (k_pipes r) (k_bufs r) (k_disk r) (k_dtrace r) (k_log r) (k_sb r) (k_icache r) (k_locking
    r) (k_klog r) (k_cons r) (k_kpgdir r) v (k_esp0 r).
Definition set_k_esp0 (v : Z) (r : kst) : kst :=
  mkKst (k_held r) (k_cur r) (k_ctable r) (k_nextcid r) (k_ptable r) (k_nextpid r) (k_initproc
    r) (k_first r) (k_mem r) (k_freelist r) (k_uselock r) (k_userinited r) (k_ticks r) (k_ftable
    r) (k_pipes r) (k_bufs r) (k_disk r) (k_dtrace r) (k_log r) (k_sb r) (k_icache r) (k_locking
    r) (k_klog r) (k_cons r) (k_kpgdir r) (k_cr3 r) v.

(** ** Operations on the state *)

Abbreviation K := (M kst).
Local Open Scope kernel_scope.

(** Spinlocks as one CPU sees them: critical sections on the same lock do not
    overlap, so a lock is either held by this CPU or free (Spinlock.v shows the
    [xchg] implementation to provide this).  Interrupts are off exactly while
    [k_held] is non-empty, and [mycpu()->ncli] is its length. *)

Fixpoint rm (lk : lockid) (l : list lockid) : list lockid :=
  match l with
  | [] => []
  | x :: l' => if decide (x = lk) then l' else x :: rm lk l'
  end.

Definition holding (lk : lockid) : K bool := gets (fun s => bool_decide (lk ∈ k_held s)).

Definition acquire (lk : lockid) : K unit :=
  h <- holding lk ;;
  if h then panic "acquire" else modify (fun s => set_k_held (lk :: k_held s) s).

Definition release (lk : lockid) : K unit :=
  h <- holding lk ;;
  if h then modify (fun s => set_k_held (rm lk (k_held s)) s) else panic "release".

(** [initlock]: the lock is free. *)
Definition initlock (lk : lockid) : K unit := modify (fun s => set_k_held (rm lk (k_held s)) s).

Definition myproc : K (option nat) := gets (fun s => k_cur s).

(** [myproc()->...] *)
Definition curproc : K nat := p <- myproc ;; deref "myproc" p.

Definition get_proc (p : nat) : K proc :=
  t <- gets (fun s => k_ptable s) ;; deref "ptable" (t !! p).
Definition upd_proc (p : nat) (f : proc -> proc) : K unit :=
  _ <- get_proc p ;; modify (fun s => set_k_ptable (alter f p (k_ptable s)) s).

Definition get_cont (c : nat) : K cont :=
  t <- gets (fun s => k_ctable s) ;; deref "ctable" (t !! c).
Definition upd_cont (c : nat) (f : cont -> cont) : K unit :=
  _ <- get_cont c ;; modify (fun s => set_k_ctable (alter f c (k_ctable s)) s).

(** [myproc()->cont] *)
Definition mycont : K nat :=
  p <- curproc ;; pr <- get_proc p ;; deref "cont" (p_cont pr).

Definition get_buf (b : nat) : K buf :=
  t <- gets (fun s => k_bufs s) ;; deref "bcache" (t !! b).
Definition upd_buf (b : nat) (f : buf -> buf) : K unit :=
  _ <- get_buf b ;; modify (fun s => set_k_bufs (alter f b (k_bufs s)) s).

Definition get_inode (i : nat) : K inode :=
  t <- gets (fun s => k_icache s) ;; deref "icache" (t !! i).
Definition upd_inode (i : nat) (f : inode -> inode) : K unit :=
  _ <- get_inode i ;; modify (fun s => set_k_icache (alter f i (k_icache s)) s).

Definition get_file (i : nat) : K file :=
  t <- gets (fun s => k_ftable s) ;; deref "ftable" (t !! i).
Definition upd_file (i : nat) (f : file -> file) : K unit :=
  _ <- get_file i ;; modify (fun s => set_k_ftable (alter f i (k_ftable s)) s).

Definition get_pipe (a : Z) : K pipe :=
  t <- gets (fun s => k_pipes s) ;; deref "pipe" (t !! a).
Definition upd_pipe (a : Z) (f : pipe -> pipe) : K unit :=
  p <- get_pipe a ;; modify (fun s => set_k_pipes (<[a := f p]> (k_pipes s)) s).

Definition upd_log (f : logst -> logst) : K unit :=
  modify (fun s => set_k_log (f (k_log s)) s).
Definition upd_mem (f : mem -> mem) : K unit :=
  modify (fun s => set_k_mem (f (k_mem s)) s).

(** [cprintf]: takes the console lock when locking is on; what was printed is
    recorded as the format, without a final newline, and its integer arguments
    (Console.v has the character level). *)
Definition cprintf (fmt : string) (args : list Z) : K unit :=
  l <- gets (fun s => k_locking s) ;;
  when l (acquire LCons) ;;
  modify (fun s => set_k_klog (k_klog s ++ [(fmt, args)]) s) ;;
  when l (release LCons).

Definition acquireptable : K unit := acquire LPtable.
Definition releaseptable : K unit := release LPtable.

(** ** Rules *)

Lemma bind_upd_mem {B} f (k : unit -> K B) s :
  bind (upd_mem f) k s = k tt (set_k_mem (f (k_mem s)) s).
Proof. done. Qed.

Lemma bind_upd_log {B} f (k : unit -> K B) s :
  bind (upd_log f) k s = k tt (set_k_log (f (k_log s)) s).
Proof. done. Qed.

#[export] Hint Rewrite @bind_upd_mem @bind_upd_log : kernel.

Lemma rm_head lk l : rm lk (lk :: l) = l.
Proof. simpl. by rewrite decide_True. Qed.

Lemma acquire_eq lk s :
  lk ∉ k_held s -> acquire lk s = Ret tt (set_k_held (lk :: k_held s) s).
Proof.
  intros H. unfold acquire, holding, bind, gets. simpl.
  by rewrite bool_decide_eq_false_2.
Qed.

Lemma acquire_panic lk s : lk ∈ k_held s -> acquire lk s = Panic "acquire" s.
Proof.
  intros H. unfold acquire, holding, bind, gets. simpl.
  by rewrite bool_decide_eq_true_2.
Qed.

Lemma release_eq lk l s :
  k_held s = lk :: l -> release lk s = Ret tt (set_k_held l s).
Proof.
  intros H. unfold release, holding, bind, gets. simpl. rewrite H.
  rewrite bool_decide_eq_true_2 by (left; done).
  unfold modify. by rewrite H, rm_head.
Qed.

Lemma get_proc_eq p pr s : k_ptable s !! p = Some pr -> get_proc p s = Ret pr s.
Proof. intros H. unfold get_proc, bind, gets. simpl. by rewrite H. Qed.

Lemma upd_proc_eq p f pr s :
  k_ptable s !! p = Some pr ->
  upd_proc p f s = Ret tt (set_k_ptable (alter f p (k_ptable s)) s).
Proof. intros H. unfold upd_proc. by rewrite (bind_Ret _ _ _ _ _ (get_proc_eq _ _ _ H)). Qed.

Lemma get_cont_eq c co s : k_ctable s !! c = Some co -> get_cont c s = Ret co s.
Proof. intros H. unfold get_cont, bind, gets. simpl. by rewrite H. Qed.

Lemma upd_cont_eq c f co s :
  k_ctable s !! c = Some co ->
  upd_cont c f s = Ret tt (set_k_ctable (alter f c (k_ctable s)) s).
Proof. intros H. unfold upd_cont. by rewrite (bind_Ret _ _ _ _ _ (get_cont_eq _ _ _ H)). Qed.

Lemma get_buf_eq b bf s : k_bufs s !! b = Some bf -> get_buf b s = Ret bf s.
Proof. intros H. unfold get_buf, bind, gets. simpl. by rewrite H. Qed.

Lemma upd_buf_eq b f bf s :
  k_bufs s !! b = Some bf ->
  upd_buf b f s = Ret tt (set_k_bufs (alter f b (k_bufs s)) s).
Proof. intros H. unfold upd_buf. by rewrite (bind_Ret _ _ _ _ _ (get_buf_eq _ _ _ H)). Qed.

Lemma mycont_eq p pr c s :
  k_cur s = Some p -> k_ptable s !! p = Some pr -> p_cont pr = Some c ->
  mycont s = Ret c s.
Proof.
  intros H1 H2 H3. unfold mycont, curproc, myproc, bind, gets. simpl. rewrite H1. simpl.
  rewrite (get_proc_eq _ _ _ H2). simpl. by rewrite H3.
Qed.

(** [cprintf] always returns when the console lock is free. *)
Lemma cprintf_eq fmt args s :
  LCons ∉ k_held s ->
  cprintf fmt args s = Ret tt (set_k_klog (k_klog s ++ [(fmt, args)]) s).
Proof.
  intros H. unfold cprintf, bind, gets. simpl. destruct (k_locking s) eqn:E; simpl.
  - rewrite acquire_eq by done. simpl. rewrite (release_eq LCons (k_held s)) by done.
    by destruct s.
  - unfold ret. simpl. by destruct s.
Qed.
