(* ===== verification/Spinlock.v ===== *)
(** * Spinlocks

    [SpinCpu] translates spinlock.c (and [mycpu]/[cpuid] of container.c) for one
    CPU: interrupt flag, [ncli] nesting and lock words.  Its theorems show that
    it implements the view KState.v gives the rest of the kernel (a list of held
    locks).  [SpinMulti] is the interleaving of several CPUs on one lock word,
    one atomic action at a time, with mutual exclusion as the invariant. *)

From S2P Require Import Prelude Monad KState.

Module SpinCpu.

Local Open Scope kernel_scope.

(** spinlock.h; [name] and [pcs] are for debugging only. *)
Record spinlock : Type := mkSpinlock { lk_locked : bool; lk_cpu : option nat }.

(** container.h [struct cpu], the fields spinlock.c uses, and [%eflags]' IF. *)
Record st : Type := mkSt {
  ifl : bool;            (* readeflags() & FL_IF *)
  ncli : Z;
  intena : bool;
  apicids : list Z;      (* cpus[i].apicid for i < ncpu *)
  lapicid : Z;           (* this CPU's local APIC id *)
  locks : lockid -> spinlock
}.

Definition set_ifl b s := mkSt b (ncli s) (intena s) (apicids s) (lapicid s) (locks s).
Definition set_ncli n s := mkSt (ifl s) n (intena s) (apicids s) (lapicid s) (locks s).
Definition set_intena b s := mkSt (ifl s) (ncli s) b (apicids s) (lapicid s) (locks s).
Definition set_lock lk v s :=
  mkSt (ifl s) (ncli s) (intena s) (apicids s) (lapicid s)
       (fun x => if decide (x = lk) then v else locks s x).

Definition cli : M st unit := modify (set_ifl false).
Definition sti : M st unit := modify (set_ifl true).

(** [mycpu()], returning the index of the entry of [cpus] it points to. *)
Definition mycpu : M st nat :=
  f <- gets ifl ;;
  if (f : bool) then panic "mycpu called with interrupts enabled" else
  ids <- gets apicids ;;
  id <- gets lapicid ;;
  match findi (fun a => a =? id) ids with
  | Some i => ret i
  | None => panic "unknown apicid"
  end.

Definition cpuid : M st Z := i <- mycpu ;; ret (Z.of_nat i).

Definition initlock (lk : lockid) : M st unit := modify (set_lock lk (mkSpinlock false None)).

Definition pushcli : M st unit :=
  eflags <- gets ifl ;;
  cli ;;
  _ <- mycpu ;;
  n <- gets ncli ;;
  when (n =? 0) (modify (set_intena eflags)) ;;
  modify (set_ncli (n + 1)).

Definition popcli : M st unit :=
  f <- gets ifl ;;
  if (f : bool) then panic "popcli - interruptible" else
  _ <- mycpu ;;
  n <- gets ncli ;;
  modify (set_ncli (n - 1)) ;;
  if n - 1 <? 0 then panic "popcli" else
  i <- gets intena ;;
  when ((n - 1 =? 0) && i) sti.

Definition holding (lk : lockid) : M st bool :=
  l <- gets (fun s => locks s lk) ;;
  if lk_locked l then (c <- mycpu ;; ret (lk_cpu l ==? Some c)) else ret false.

(** [xchg(&lk->locked, 1)]: the old value. *)
Definition xchg_locked (lk : lockid) : M st bool :=
  l <- gets (fun s => locks s lk) ;;
  modify (set_lock lk (mkSpinlock true (lk_cpu l))) ;;
  ret (lk_locked l).

(** [fuel] bounds the spinning. *)
Definition acquire (fuel : nat) (lk : lockid) : M st unit :=
  pushcli ;;
  h <- holding lk ;;
  if (h : bool) then panic "acquire" else
  loop fuel (fun _ : unit =>
    old <- xchg_locked lk ;; ret (if (old : bool) then inl tt else inr tt)) tt ;;
  c <- mycpu ;;
  l <- gets (fun s => locks s lk) ;;
  modify (set_lock lk (mkSpinlock (lk_locked l) (Some c))).

Definition release (lk : lockid) : M st unit :=
  h <- holding lk ;;
  if negb h then panic "release" else
  l <- gets (fun s => locks s lk) ;;
  modify (set_lock lk (mkSpinlock (lk_locked l) None)) ;;
  modify (set_lock lk (mkSpinlock false None)) ;;
  popcli.

(** [getcallerpcs]: follow the saved frame pointers; at most 10 frames. *)
Fixpoint getcallerpcs_loop (m : mem) (ebp : Z) (n : nat) : list Z :=
  match n with
  | O => []
  | S n' =>
      if (ebp =? 0) || (ebp <? KERNBASE) || (ebp =? 4294967295) then replicate n 0
      else ld32 m (ebp + 4) :: getcallerpcs_loop m (ld32 m ebp) n'
  end.
Definition getcallerpcs (m : mem) (v : Z) : list Z := getcallerpcs_loop m (u32 (v - 8)) 10.

(** ** The view the kernel has *)

(** [view me s h]: CPU [me] is in state [s] with exactly the locks [h] held. *)
Record view (me : nat) (s : st) (h : list lockid) : Prop := {
  view_ncli : ncli s = zlen h;
  view_if : h <> [] -> ifl s = false;
  view_me : findi (fun a => a =? lapicid s) (apicids s) = Some me;
  view_in lk : lk ∈ h -> locks s lk = mkSpinlock true (Some me);
  view_out lk : lk ∉ h -> locks s lk = mkSpinlock false None;
  view_nodup : NoDup h
}.

Lemma mycpu_eq me s :
  ifl s = false -> findi (fun a => a =? lapicid s) (apicids s) = Some me ->
  mycpu s = Ret me s.
Proof. intros H1 H2. unfold mycpu, bind, gets. simpl. rewrite H1. simpl. by rewrite H2. Qed.

Lemma pushcli_eq me s h :
  view me s h ->
  pushcli s = Ret tt (mkSt false (zlen h + 1) (if ncli s =? 0 then ifl s else intena s)
                           (apicids s) (lapicid s) (locks s)).
Proof.
  intros V. unfold pushcli, cli. unfold bind at 1. simpl. unfold bind at 1. simpl.
  rewrite (bind_Ret _ _ _ me (set_ifl false s)) by (apply mycpu_eq; [done | apply (view_me _ _ _ V)]).
  unfold bind, gets. simpl. rewrite (view_ncli _ _ _ V).
  destruct (zlen h =? 0); reflexivity.
Qed.

Lemma holding_eq me s h lk :
  view me s h -> ifl s = false -> holding lk s = Ret (bool_decide (lk ∈ h)) s.
Proof.
  intros V Hif. unfold holding, bind. simpl. destruct (decide (lk ∈ h)) as [Hin|Hout].
  - rewrite (view_in _ _ _ V _ Hin). simpl.
    rewrite (mycpu_eq me) by (done || apply (view_me _ _ _ V)). simpl.
    by rewrite !bool_decide_eq_true_2.
  - rewrite (view_out _ _ _ V _ Hout). simpl. by rewrite bool_decide_eq_false_2.
Qed.

(** State after a successful [acquire]. *)
Definition acquired (me : nat) (lk : lockid) (h : list lockid) (s : st) : st :=
  set_lock lk (mkSpinlock true (Some me))
    (set_lock lk (mkSpinlock true None)
       (mkSt false (zlen h + 1) (if ncli s =? 0 then ifl s else intena s)
             (apicids s) (lapicid s) (locks s))).

Lemma acquire_free me s h lk fuel :
  view me s h -> lk ∉ h -> acquire (S fuel) lk s = Ret tt (acquired me lk h s).
Proof.
  intros V Hout. unfold acquire.
  rewrite (bind_Ret _ _ _ _ _ (pushcli_eq me s h V)).
  set (s1 := mkSt _ _ _ _ _ _).
  assert (holding lk s1 = Ret false s1) as Hh.
  { unfold holding, bind. simpl. by rewrite (view_out _ _ _ V _ Hout). }
  rewrite (bind_Ret _ _ _ _ _ Hh). cbv iota.
  unfold loop, xchg_locked, bind at 1 2. simpl. rewrite (view_out _ _ _ V _ Hout). simpl.
  unfold bind at 1. rewrite (mycpu_eq me) by (done || apply (view_me _ _ _ V)). simpl.
  unfold bind. simpl. by rewrite decide_True.
Qed.

Lemma acquired_view me s h lk :
  view me s h -> lk ∉ h -> view me (acquired me lk h s) (lk :: h).
Proof.
  intros V Hout. split; simpl; auto.
  - unfold zlen. simpl. lia.
  - apply (view_me _ _ _ V).
  - intros x Hx. case_decide; [done|]. apply elem_of_cons in Hx as [->|Hx]; [done|].
    by apply (view_in _ _ _ V).
  - intros x Hx. apply not_elem_of_cons in Hx as [Hne Hx].
    rewrite !decide_False by done. by apply (view_out _ _ _ V).
  - apply NoDup_cons_2; [done | apply (view_nodup _ _ _ V)].
Qed.

Lemma acquire_held me s h lk fuel :
  view me s h -> lk ∈ h -> exists s', acquire fuel lk s = Panic "acquire" s'.
Proof.
  intros V Hin. unfold acquire.
  rewrite (bind_Ret _ _ _ _ _ (pushcli_eq me s h V)).
  set (s1 := mkSt _ _ _ _ _ _). exists s1.
  assert (holding lk s1 = Ret true s1) as Hh.
  { unfold holding, bind. simpl. rewrite (view_in _ _ _ V _ Hin). simpl.
    rewrite (mycpu_eq me) by (done || apply (view_me _ _ _ V)). simpl.
    by rewrite bool_decide_eq_true_2. }
  by rewrite (bind_Ret _ _ _ _ _ Hh).
Qed.

Lemma length_rm lk l : lk ∈ l -> length l = S (length (rm lk l)).
Proof.
  induction l as [|x l IH]; [by intros ?%elem_of_nil|]. simpl.
  case_decide; [done|]. intros [->|Hin]%elem_of_cons; [done|]. simpl. auto.
Qed.

Lemma elem_of_rm lk x l : NoDup l -> x ∈ rm lk l <-> x ∈ l /\ x <> lk.
Proof.
  induction 1 as [|y l Hy Hl IH]; simpl; [set_solver|].
  case_decide as E; [subst; set_solver | rewrite !elem_of_cons, IH; set_solver].
Qed.

Lemma NoDup_rm lk l : NoDup l -> NoDup (rm lk l).
Proof.
  induction 1 as [|y l Hy Hl IH]; simpl; [constructor|].
  case_decide; [done|]. constructor; [|done]. rewrite elem_of_rm by done. tauto.
Qed.

Definition released (lk : lockid) (s : st) : st :=
  let s1 := set_lock lk (mkSpinlock false None) (set_lock lk (mkSpinlock true None) s) in
  let s2 := set_ncli (ncli s - 1) s1 in
  if (ncli s - 1 =? 0) && intena s then set_ifl true s2 else s2.

Lemma release_held me s h lk :
  view me s h -> lk ∈ h -> release lk s = Ret tt (released lk s).
Proof.
  intros V Hin. assert (ifl s = false) as Hif.
  { apply (view_if _ _ _ V). intros ->. by apply elem_of_nil in Hin. }
  unfold release. rewrite (bind_Ret _ _ _ _ _ (holding_eq me s h lk V Hif)).
  rewrite bool_decide_eq_true_2 by done. simpl.
  unfold bind at 1 2 3. simpl. rewrite (view_in _ _ _ V _ Hin). simpl.
  unfold popcli. unfold bind at 1. simpl. rewrite Hif.
  erewrite (bind_Ret mycpu) by (apply (mycpu_eq me); [exact Hif | exact (view_me _ _ _ V)]).
  unfold bind. simpl. rewrite (view_ncli _ _ _ V).
  assert (zlen h - 1 <? 0 = false) as ->.
  { apply Z.ltb_ge. unfold zlen. rewrite (length_rm lk h) by done. lia. }
  unfold released. simpl. rewrite (view_ncli _ _ _ V).
  destruct ((zlen h - 1 =? 0) && intena s); done.
Qed.

Lemma released_view me s h lk :
  view me s h -> lk ∈ h -> view me (released lk s) (rm lk h).
Proof.
  intros V Hin. pose proof (length_rm lk h Hin) as Hlen. unfold released.
  assert (forall s', ncli s' = zlen (rm lk h) -> (rm lk h <> [] -> ifl s' = false) ->
    apicids s' = apicids s -> lapicid s' = lapicid s ->
    locks s' = locks (set_lock lk (mkSpinlock false None) (set_lock lk (mkSpinlock true None) s)) ->
    view me s' (rm lk h)) as Hmk.
  { intros s' H1 H2 H3 H4 H5. split; auto.
    - rewrite H3, H4. apply (view_me _ _ _ V).
    - intros x [Hx Hne]%elem_of_rm; [|apply (view_nodup _ _ _ V)].
      rewrite H5. simpl. rewrite !decide_False by done. by apply (view_in _ _ _ V).
    - intros x Hx. rewrite H5. simpl. case_decide; [done|]. rewrite ?decide_False by done.
      apply (view_out _ _ _ V). contradict Hx. apply elem_of_rm; [apply (view_nodup _ _ _ V)|done].
    - apply NoDup_rm, (view_nodup _ _ _ V). }
  assert (ncli s - 1 = zlen (rm lk h)) as Hn.
  { rewrite (view_ncli _ _ _ V). unfold zlen. lia. }
  assert (ifl s = false) as Hif.
  { apply (view_if _ _ _ V). intros ->. by apply elem_of_nil in Hin. }
  destruct ((ncli s - 1 =? 0) && intena s) eqn:E; apply Hmk; auto.
  simpl. intros Hne. exfalso. apply andb_prop in E as [E _]. apply Z.eqb_eq in E.
  rewrite Hn in E. unfold zlen in E. destruct (rm lk h); [done | simpl in E; lia].
Qed.

Lemma release_not_held me s h lk :
  view me s h -> lk ∉ h -> release lk s = Panic "release" s.
Proof.
  intros V Hout. unfold release, holding, bind. simpl.
  rewrite (view_out _ _ _ V _ Hout). done.
Qed.

(** On one CPU, [acquire] and [release] of spinlock.c implement the held-lock
    list the rest of the kernel is verified against: taking a lock one does not
    hold returns with it added, taking one held panics, releasing one held
    returns with it removed, releasing one not held panics. *)
Theorem spinlock_refines me s h lk :
  view me s h ->
  (lk ∉ h -> exists s', acquire 1 lk s = Ret tt s' /\ view me s' (lk :: h)) /\
  (lk ∈ h -> exists s', acquire 1 lk s = Panic "acquire" s') /\
  (lk ∈ h -> exists s', release lk s = Ret tt s' /\ view me s' (rm lk h)) /\
  (lk ∉ h -> release lk s = Panic "release" s).
Proof.
  intros V. split_and!; intros H.
  - eauto using acquire_free, acquired_view.
  - eauto using acquire_held.
  - eauto using release_held, released_view.
  - eauto using release_not_held.
Qed.

(** A CPU with APIC id 7, second in [cpus], holding nothing. *)
Definition cpu1 : st := mkSt true 0 false [3; 7] 7 (fun _ => mkSpinlock false None).

Lemma cpu1_view : view 1 cpu1 [].
Proof. split; try done; [intros lk H; by apply elem_of_nil in H | constructor]. Qed.

Lemma spinlock_refines_witness :
  exists s', acquire 1 LKmem cpu1 = Ret tt s' /\ view 1 s' [LKmem].
Proof.
  refine (proj1 (spinlock_refines 1 cpu1 [] LKmem cpu1_view) _).
  intros H. by apply elem_of_nil in H.
Defined.

(** A critical section gives back the interrupt flag it found, at any nesting
    depth. *)
Theorem critical_section_restores_if me s h lk :
  view me s h -> lk ∉ h ->
  exists s', (acquire 1 lk ;; release lk) s = Ret tt s' /\ ifl s' = ifl s /\ view me s' h.
Proof.
  intros V Hout. pose proof (acquired_view _ _ _ _ V Hout) as V'.
  assert (lk ∈ lk :: h) as Hin by (left; done).
  exists (released lk (acquired me lk h s)).
  rewrite (bind_Ret _ _ _ _ _ (acquire_free me s h lk 0 V Hout)).
  rewrite (release_held me _ _ _ V' Hin). split; [done|]. split.
  - unfold released. simpl. replace (zlen h + 1 - 1) with (ncli s) by (rewrite (view_ncli _ _ _ V); lia).
    destruct (ncli s =? 0) eqn:E; simpl.
    + destruct (ifl s); done.
    + symmetry. apply (view_if _ _ _ V). intros ->. by rewrite (view_ncli _ _ _ V) in E.
  - pose proof (released_view _ _ _ _ V' Hin) as V''. by rewrite rm_head in V''.
Qed.

Lemma critical_section_restores_if_witness :
  exists s', (acquire 1 LLog ;; release LLog) cpu1 = Ret tt s' /\
    ifl s' = true /\ view 1 s' [].
Proof.
  apply (critical_section_restores_if 1 cpu1 [] LLog cpu1_view).
  intros H. by apply elem_of_nil in H.
Defined.

End SpinCpu.

(** ** Several CPUs on one lock *)
Module SpinMulti.

(** Where a CPU is in spinlock.c. *)
Inductive pc : Type :=
  | Outside            (* neither holding the lock nor in acquire/release *)
  | Spinning           (* while(xchg(&lk->locked, 1) != 0) *)
  | GotLock            (* before lk->cpu = mycpu() *)
  | Critical           (* acquire has returned *)
  | ClearedCpu         (* release: after lk->cpu = 0, before locked = 0 *)
  | Popping.           (* release: before popcli() *)

#[global] Instance pc_eq_dec : EqDecision pc.
Proof. solve_decision. Defined.

Record st : Type := mkSt { locked : bool; owner : option nat; pcs : nat -> pc }.

Definition goto (s : st) (i : nat) (q : pc) : nat -> pc :=
  fun j => if decide (j = i) then q else pcs s j.

(** One atomic action of CPU [i]. *)
Inductive step (s : st) : st -> Prop :=
  | step_acquire i :
      pcs s i = Outside -> (locked s = true /\ owner s = Some i -> False) ->
      step s (mkSt (locked s) (owner s) (goto s i Spinning))
  | step_xchg_busy i :
      pcs s i = Spinning -> locked s = true ->
      step s (mkSt true (owner s) (pcs s))
  | step_xchg_free i :
      pcs s i = Spinning -> locked s = false ->
      step s (mkSt true (owner s) (goto s i GotLock))
  | step_set_cpu i :
      pcs s i = GotLock ->
      step s (mkSt (locked s) (Some i) (goto s i Critical))
  | step_release i :
      pcs s i = Critical -> locked s = true -> owner s = Some i ->
      step s (mkSt (locked s) None (goto s i ClearedCpu))
  | step_store i :
      pcs s i = ClearedCpu ->
      step s (mkSt false (owner s) (goto s i Popping))
  | step_pop i :
      pcs s i = Popping ->
      step s (mkSt (locked s) (owner s) (goto s i Outside)).

(** After [initlock]. *)
Definition init : st := mkSt false None (fun _ => Outside).

Inductive reachable : st -> Prop :=
  | reach_init : reachable init
  | reach_step s s' : reachable s -> step s s' -> reachable s'.

Definition has_lock (q : pc) : Prop := q = GotLock \/ q = Critical \/ q = ClearedCpu.

(** The lock word says whether somebody is between the [xchg] that took the
    lock and the store that frees it; that CPU is unique; [owner] names it
    exactly while it is in its critical section. *)
Record inv (s : st) : Prop := {
  inv_locked : locked s = true <-> exists i, has_lock (pcs s i);
  inv_unique i j : has_lock (pcs s i) -> has_lock (pcs s j) -> i = j;
  inv_owner i : owner s = Some i <-> pcs s i = Critical
}.

Lemma inv_init : inv init.
Proof.
  split; simpl.
  - split; [done | intros [i [H|[H|H]]]; done].
  - intros i j [H|[H|H]]; done.
  - done.
Qed.

(** A move of CPU [i] that neither takes nor gives up the lock. *)
Lemma inv_move s i q :
  inv s -> (has_lock (pcs s i) <-> has_lock q) ->
  (pcs s i = Critical <-> q = Critical) ->
  inv (mkSt (locked s) (owner s) (goto s i q)).
Proof.
  intros [IL IU IO] Hh Hc.
  assert (forall j, has_lock (goto s i q j) <-> has_lock (pcs s j)) as Hsame.
  { intros j. unfold goto. case_decide; subst; [by symmetry | done]. }
  split; simpl.
  - rewrite IL. split; intros [j Hj]; exists j; by apply Hsame.
  - intros a b Ha Hb. apply IU; by apply Hsame.
  - intros j. rewrite IO. unfold goto. case_decide; subst; done.
Qed.

Lemma inv_take s i :
  inv s -> pcs s i = Spinning -> locked s = false ->
  inv (mkSt true (owner s) (goto s i GotLock)).
Proof.
  intros [IL IU IO] Hpc Hl.
  assert (forall j, ~ has_lock (pcs s j)) as Hnone.
  { intros j Hj. assert (locked s = true) by (apply IL; eauto). congruence. }
  split; simpl.
  - split; [intros _|done]. exists i. unfold goto. rewrite decide_True by done. by left.
  - intros a b. unfold goto. repeat case_decide; subst; try done;
      intros Ha Hb; exfalso; by eapply Hnone.
  - intros j. rewrite IO. unfold goto. case_decide; subst; [|done].
    rewrite Hpc. done.
Qed.

(** The lock holder [i] moves on inside its section, setting [owner] to match. *)
Lemma inv_holder s i q o :
  inv s -> has_lock (pcs s i) -> has_lock q -> q <> pcs s i ->
  o = (if decide (q = Critical) then Some i else None) ->
  inv (mkSt (locked s) o (goto s i q)).
Proof.
  intros [IL IU IO] Hi Hq Hne ->.
  assert (forall j, has_lock (goto s i q j) <-> has_lock (pcs s j)) as Hsame.
  { intros j. unfold goto. case_decide; subst; done. }
  split; simpl.
  - rewrite IL. split; intros [j Hj]; exists j; by apply Hsame.
  - intros a b Ha Hb. apply IU; by apply Hsame.
  - intros j. unfold goto. destruct (decide (j = i)) as [->|Hji].
    + destruct (decide (q = Critical)); split; congruence.
    + assert (pcs s j <> Critical) as Hnc.
      { intros E. apply Hji, IU; [rewrite E; right; by left | done]. }
      destruct (decide (q = Critical)); split; congruence.
Qed.

Lemma inv_store s i :
  inv s -> pcs s i = ClearedCpu -> inv (mkSt false (owner s) (goto s i Popping)).
Proof.
  intros [IL IU IO] Hpc.
  assert (has_lock (pcs s i)) as Hi by (rewrite Hpc; right; by right).
  split; simpl.
  - split; [done|]. intros [j Hj]. exfalso. unfold goto in Hj. case_decide.
    + destruct Hj as [Hj|[Hj|Hj]]; done.
    + assert (j = i) by (apply IU; done). done.
  - intros a b Ha Hb. unfold goto in *.
    destruct (decide (a = i)); [destruct Ha as [Ha|[Ha|Ha]]; done|].
    destruct (decide (b = i)); [destruct Hb as [Hb|[Hb|Hb]]; done|]. by apply IU.
  - intros j. rewrite IO. unfold goto. case_decide; subst; [|done].
    rewrite Hpc. done.
Qed.

Lemma inv_step s s' : inv s -> step s s' -> inv s'.
Proof.
  intros I. destruct 1 as [i H _|i H Hl|i H Hl|i H|i H Hl Ho|i H|i H].
  - apply inv_move; [done| |]; rewrite H; [unfold has_lock|]; split; intros; naive_solver.
  - destruct s; simpl in *; subst. done.
  - by apply inv_take.
  - apply inv_holder; auto; rewrite ?H; unfold has_lock; auto.
  - apply inv_holder; auto; rewrite ?H; unfold has_lock; auto.
  - by apply inv_store.
  - apply inv_move; [done| |]; rewrite H; [unfold has_lock|]; split; intros; naive_solver.
Qed.

Lemma reachable_inv s : reachable s -> inv s.
Proof. induction 1; eauto using inv_init, inv_step. Qed.

(** C26: whatever the interleaving of the CPUs' [xchg]s, stores and interrupt
    bookkeeping, two CPUs are never inside the critical section of one lock, and
    [holding()] tells the CPU inside it, and nobody else, that it holds it. *)
Theorem mutual_exclusion s :
  reachable s ->
  (forall i j, pcs s i = Critical -> pcs s j = Critical -> i = j) /\
  (forall i, (locked s = true /\ owner s = Some i) <-> pcs s i = Critical).
Proof.
  intros [IL IU IO]%reachable_inv. split.
  - intros i j Hi Hj. apply IU; [rewrite Hi | rewrite Hj]; right; by left.
  - intros i. rewrite IO. split; [tauto|]. intros Hi. split; [|done].
    apply IL. exists i. rewrite Hi. right; by left.
Qed.

(** CPU 2 alone takes the lock. *)
Definition one_inside : st :=
  mkSt true (Some 2%nat)
    (goto (mkSt true None (goto (mkSt false None (goto init 2 Spinning)) 2 GotLock)) 2 Critical).

Lemma one_inside_reachable : reachable one_inside.
Proof.
  unfold one_inside.
  eapply reach_step; [eapply reach_step; [eapply reach_step; [constructor|]|]|].
  - apply (step_acquire init 2); [done | simpl; intros [? ?]; done].
  - apply (step_xchg_free _ 2); done.
  - apply (step_set_cpu (mkSt true None _) 2). done.
Qed.

Lemma mutual_exclusion_witness :
  (locked one_inside = true /\ owner one_inside = Some 2%nat) <->
  pcs one_inside 2%nat = Critical.
Proof. exact (proj2 (mutual_exclusion one_inside one_inside_reachable) 2%nat). Defined.

End SpinMulti.
