(* ===== verification/Sched.v ===== *)
(** * Switching, sleeping and waking

    [wakeup1] and [sched] of container.c, [sleep], [wakeup] and [yield] of proc.c
    and sleeplock.c.  A process gives up the CPU by [Switch]; the code after it is
    the continuation.

    What [sleep], [wakeup] and the sleep locks promise depends on the order in which
    they take and give up spinlocks, which a single run does not show.  They are
    written once, over the operations of [Cpu], and run in two ways: as kernel code
    ([kernel_cpu], below), and one lock operation at a time between the CPUs
    (Interleave.v). *)

From S2P Require Import Prelude Monad KState.

Local Open Scope kernel_scope.

(** Bound on the re-checks of a waiting loop.  Every iteration ends in a switch
    to the scheduler, so no sequential run gets near it. *)
Definition MAXWAIT : nat := 1000.

(** What the locking code is made of: kernel code that neither takes nor gives up a
    spinlock, and the two lock operations. *)
Class Cpu (F : Type -> Type) := {
  creturn {A : Type} : A -> F A;
  cbind {A B : Type} : F A -> (A -> F B) -> F B;
  crun {A : Type} : K A -> F A;
  cacquire : lockid -> F unit;
  crelease : lockid -> F unit;
  cspent {A : Type} : F A
}.

Declare Scope cpu_scope.
Delimit Scope cpu_scope with cpu.
Notation "x <- m ;; k" := (cbind m (fun x => k))
  (at level 100, m at next level, right associativity) : cpu_scope.
Notation "m ;; k" := (cbind m (fun _ => k))
  (at level 100, k at level 200, right associativity) : cpu_scope.

#[global] Instance kernel_cpu : Cpu K := {
  creturn := @ret kst;
  cbind := @bind kst;
  crun := fun A m => m;
  cacquire := acquire;
  crelease := release;
  cspent := fun A _ => OutOfFuel
}.

Section cpu_ops.
Context {F : Type -> Type} `{CM : Cpu F}.
Local Open Scope cpu_scope.

Definition cwhen (b : bool) (m : F unit) : F unit := if b then m else creturn tt.

(** [while], as [loop]. *)
Fixpoint cloop {A B} (fuel : nat) (body : A -> F (A + B)) (a : A) : F B :=
    match fuel with
    | O => cspent
    | S n =>
        r <- body a ;;
        match r with inl a' => cloop n body a' | inr b => creturn b end
    end.
End cpu_ops.

(** A process sleeping on [ch] becomes runnable. *)
Definition sleeping_on (ch : option chan) (pr : proc) : bool :=
  (p_state pr ==? SLEEPING) && (p_chan pr ==? ch).

Definition wakeup1 (ch : option chan) : K unit :=
  for_each (seq 0 NCONT) (fun i =>
    c <- get_cont i ;;
    for_each (seq 0 (Z.to_nat (c_mproc c))) (fun k =>
      base <- deref "cont->ptable" (c_ptable c) ;;
      let p := (base + k)%nat in
      pr <- get_proc p ;;
      when (sleeping_on ch pr) (upd_proc p (set_p_state RUNNABLE)))).

Definition wakeup_in {F : Type -> Type} `{CM : Cpu F} (ch : chan) : F unit := (
  cacquire LPtable ;;
  crun (wakeup1 (Some ch)) ;;
  crelease LPtable)%cpu.
Definition wakeup (ch : chan) : K unit := wakeup_in ch.

(** Interrupts are off while a lock is held, so the last check of [sched] is
    that some lock is. *)
Definition sched : K unit :=
  op <- myproc ;;
  h <- holding LPtable ;;
  if negb h then panic "sched ptable.lock" else
  held <- gets (fun s => k_held s) ;;
  if negb (length held =? 1)%nat then panic "sched locks" else
  p <- deref "sched" op ;;
  pr <- get_proc p ;;
  if p_state pr ==? RUNNING then panic "sched running" else
  if held ==? [] then panic "sched interruptible" else
  swtch_out.

Definition yield : K unit :=
  acquireptable ;;
  p <- curproc ;;
  upd_proc p (set_p_state RUNNABLE) ;;
  sched ;;
  releaseptable.

Definition sleep_in {F : Type -> Type} `{CM : Cpu F} (ch : chan) (lk : lockid) : F unit := (
  op <- crun myproc ;;
  match op with
  | None => crun (panic "sleep")
  | Some p =>
      cwhen (negb (lk ==? LPtable)) (cacquire LPtable ;; crelease lk) ;;
      crun (upd_proc p (set_p_chan (Some ch))) ;;
      crun (upd_proc p (set_p_state SLEEPING)) ;;
      crun sched ;;
      crun (upd_proc p (set_p_chan None)) ;;
      cwhen (negb (lk ==? LPtable)) (crelease LPtable ;; cacquire lk)
  end)%cpu.
Definition sleep (ch : chan) (lk : lockid) : K unit := sleep_in ch lk.

(** ** Sleep locks *)

(** Sleep locks live in buffers and inodes. *)
Inductive slref : Type := SlBuf (i : nat) | SlInode (i : nat).

Definition sl_lockid (r : slref) : lockid :=
  match r with SlBuf i => LBufLock i | SlInode i => LInodeLock i end.
Definition sl_chan (r : slref) : chan :=
  match r with SlBuf i => ChBufLock i | SlInode i => ChInodeLock i end.
Definition get_sl (r : slref) : K sleeplock :=
  match r with
  | SlBuf i => b <- get_buf i ;; ret (b_lock b)
  | SlInode i => ip <- get_inode i ;; ret (i_lock ip)
  end.
Definition set_sl (r : slref) (l : sleeplock) : K unit :=
  match r with
  | SlBuf i => upd_buf i (set_b_lock l)
  | SlInode i => upd_inode i (set_i_lock l)
  end.

Definition initsleeplock (r : slref) : K unit := set_sl r (mkSleeplock false 0).

(** [fuel] bounds how often one call sleeps. *)
Definition acquiresleep_in {F : Type -> Type} `{CM : Cpu F} (fuel : nat) (r : slref) : F unit := (
  cacquire (sl_lockid r) ;;
  cloop fuel (fun _ : unit =>
    l <- crun (get_sl r) ;;
    if sl_locked l then sleep_in (sl_chan r) (sl_lockid r) ;; creturn (inl tt)
    else creturn (inr tt)) tt ;;
  p <- crun curproc ;;
  pr <- crun (get_proc p) ;;
  crun (set_sl r (mkSleeplock true (p_pid pr))) ;;
  crelease (sl_lockid r))%cpu.
Definition acquiresleep (r : slref) : K unit := acquiresleep_in MAXWAIT r.

Definition releasesleep_in {F : Type -> Type} `{CM : Cpu F} (r : slref) : F unit := (
  cacquire (sl_lockid r) ;;
  crun (set_sl r (mkSleeplock false 0)) ;;
  wakeup_in (sl_chan r) ;;
  crelease (sl_lockid r))%cpu.
Definition releasesleep (r : slref) : K unit := releasesleep_in r.

Definition holdingsleep (r : slref) : K bool :=
  acquire (sl_lockid r) ;;
  l <- get_sl r ;;
  release (sl_lockid r) ;;
  ret (sl_locked l).

(** The four as kernel code. *)
Lemma wakeup_code ch : wakeup ch = (acquireptable ;; wakeup1 (Some ch) ;; releaseptable).
Proof. reflexivity. Qed.

Lemma sleep_code ch lk :
  sleep ch lk =
  (op <- myproc ;;
   match op with
   | None => panic "sleep"
   | Some p =>
       when (negb (lk ==? LPtable)) (acquireptable ;; release lk) ;;
       upd_proc p (set_p_chan (Some ch)) ;;
       upd_proc p (set_p_state SLEEPING) ;;
       sched ;;
       upd_proc p (set_p_chan None) ;;
       when (negb (lk ==? LPtable)) (releaseptable ;; acquire lk)
   end).
Proof. reflexivity. Qed.

Lemma acquiresleep_code r :
  acquiresleep r =
  (acquire (sl_lockid r) ;;
   loop MAXWAIT (fun _ : unit =>
     l <- get_sl r ;;
     if sl_locked l then sleep (sl_chan r) (sl_lockid r) ;; ret (inl tt)
     else ret (inr tt)) tt ;;
   p <- curproc ;;
   pr <- get_proc p ;;
   set_sl r (mkSleeplock true (p_pid pr)) ;;
   release (sl_lockid r)).
Proof. reflexivity. Qed.

Lemma releasesleep_code r :
  releasesleep r =
  (acquire (sl_lockid r) ;;
   set_sl r (mkSleeplock false 0) ;;
   wakeup (sl_chan r) ;;
   release (sl_lockid r)).
Proof. reflexivity. Qed.

(** ** Tables *)

(** The container and process tables as [initcontainer] lays them out: a
    container that may have processes owns one row of [ptable]. *)
Record tables_wf (ct : list cont) (pt : list proc) : Prop := {
  wf_nct : length ct = NCONT;
  wf_npt : length pt = (NCONT * NPROC)%nat;
  wf_row i c : ct !! i = Some c -> 0 < c_mproc c ->
    c_ptable c = Some (i * NPROC)%nat /\ c_mproc c <= Z.of_nat NPROC
}.

(** [p] is one of the processes container [c] may use. *)
Definition in_cont (c : cont) (p : nat) : Prop :=
  exists base, c_ptable c = Some base /\ (base <= p)%nat /\ Z.of_nat p < Z.of_nat base + c_mproc c.

#[global] Instance in_cont_dec c p : Decision (in_cont c p).
Proof.
  refine (match c_ptable c as o return c_ptable c = o -> _ with
  | Some base => fun E => cast_if (decide ((base <= p)%nat /\ Z.of_nat p < Z.of_nat base + c_mproc c))
  | None => fun E => right _
  end eq_refl).
  - exists base. tauto.
  - intros (b & E' & H). assert (b = base) as -> by congruence. tauto.
  - intros (b & E' & _). congruence.
Defined.

(** Some container's loops reach [p]. *)
Definition reachable_proc (ct : list cont) (p : nat) : Prop := Exists (fun c => in_cont c p) ct.

Definition wake (ch : option chan) (pr : proc) : proc :=
  if sleeping_on ch pr then set_p_state RUNNABLE pr else pr.

(** What [wakeup1] does to the process table. *)
Definition wake_table (ct : list cont) (ch : option chan) (pt : list proc) : list proc :=
  imap (fun p pr => if decide (reachable_proc ct p) then wake ch pr else pr) pt.

(** ** [wakeup1] computes [wake_table] *)

Lemma wake_idemp ch pr : wake ch (wake ch pr) = wake ch pr.
Proof.
  unfold wake. destruct (sleeping_on ch pr) eqn:E; [|by rewrite E].
  done.
Qed.

Lemma lookup_wake_table ct ch pt p :
  wake_table ct ch pt !! p =
  (fun pr => if decide (reachable_proc ct p) then wake ch pr else pr) <$> pt !! p.
Proof. apply list_lookup_imap. Qed.

Lemma length_wake_table ct ch pt : length (wake_table ct ch pt) = length pt.
Proof. apply length_imap. Qed.

(** One process of the inner loop. *)
Lemma wakeup1_body ch s p pr :
  k_ptable s !! p = Some pr ->
  (pr <- get_proc p ;; when (sleeping_on ch pr) (upd_proc p (set_p_state RUNNABLE))) s =
  Ret tt (set_k_ptable (alter (wake ch) p (k_ptable s)) s).
Proof.
  intros H. rewrite (bind_Ret _ _ _ _ _ (get_proc_eq _ _ _ H)).
  destruct (sleeping_on ch pr) eqn:E; simpl.
  - rewrite (upd_proc_eq _ _ _ _ H). do 2 f_equal. apply list_alter_ext; [|done].
    intros x Hx. assert (x = pr) as -> by congruence. unfold wake. by rewrite E.
  - unfold ret. f_equal.
    assert (alter (wake ch) p (k_ptable s) = k_ptable s) as ->; [|by destruct s].
    apply list_eq. intros j. rewrite lookup_alter_case. case_decide; [|done].
    subst. rewrite H. simpl. unfold wake. by rewrite E.
Qed.

Lemma wakeup1_row ch c base s j n :
  c_ptable c = Some base -> (base + j + n <= length (k_ptable s))%nat ->
  for_each (seq j n) (fun k =>
      base <- deref "cont->ptable" (c_ptable c) ;;
      let p := (base + k)%nat in
      pr <- get_proc p ;;
      when (sleeping_on ch pr) (upd_proc p (set_p_state RUNNABLE))) s =
  Ret tt (set_k_ptable
    (imap (fun p pr => if decide (base + j <= p < base + j + n)%nat then wake ch pr else pr)
          (k_ptable s)) s).
Proof.
  intros Hb. revert s j. induction n as [|n IH]; intros s j Hlen; simpl.
  - unfold ret. f_equal. assert (imap _ (k_ptable s) = k_ptable s) as ->; [|by destruct s].
    apply list_eq. intros p. rewrite list_lookup_imap.
    destruct (k_ptable s !! p) eqn:E; simpl; [|done]. rewrite decide_False by lia. done.
  - destruct (lookup_lt_is_Some_2 (k_ptable s) (base + j)) as [pr Hpr]; [lia|].
    rewrite (bind_Ret _ _ _ tt (set_k_ptable (alter (wake ch) (base + j)%nat (k_ptable s)) s)).
    2:{ rewrite Hb. apply (wakeup1_body ch s _ pr Hpr). }
    rewrite IH by (simpl; rewrite length_alter; lia). simpl.
    f_equal. unfold set_k_ptable. simpl. f_equal.
    apply list_eq. intros p. rewrite !list_lookup_imap, lookup_alter_case.
    destruct (k_ptable s !! p) as [q|] eqn:Hq; [|by destruct (decide (base + j = p)%nat)].
    destruct (decide (base + j = p)%nat) as [Heq|Hne]; simpl; f_equal.
    + rewrite decide_False by lia. by rewrite decide_True by lia.
    + destruct (decide (base + S j <= p < base + S j + n)%nat);
        [rewrite decide_True by lia | rewrite decide_False by lia]; done.
Qed.

Lemma wakeup1_outer ch s j m :
  tables_wf (k_ctable s) (k_ptable s) -> (j + m <= NCONT)%nat ->
  for_each (seq j m) (fun i =>
    c <- get_cont i ;;
    for_each (seq 0 (Z.to_nat (c_mproc c))) (fun k =>
      base <- deref "cont->ptable" (c_ptable c) ;;
      let p := (base + k)%nat in
      pr <- get_proc p ;;
      when (sleeping_on ch pr) (upd_proc p (set_p_state RUNNABLE)))) s =
  Ret tt (set_k_ptable (wake_table (take m (drop j (k_ctable s))) ch (k_ptable s)) s).
Proof.
  revert s j. induction m as [|m IH]; intros s j Hwf Hm.
  - simpl. unfold ret. f_equal.
    assert (wake_table (take 0 (drop j (k_ctable s))) ch (k_ptable s) = k_ptable s) as ->;
      [|by destruct s].
    apply list_eq. intros p. rewrite lookup_wake_table.
    by destruct (k_ptable s !! p).
  - destruct (lookup_lt_is_Some_2 (k_ctable s) j) as [c Hc].
    { rewrite (wf_nct _ _ Hwf). lia. }
    cbn [seq for_each].
    rewrite (drop_S _ _ _ Hc). cbn [take].
    destruct (decide (0 < c_mproc c)) as [Hpos|Hneg].
    + destruct (wf_row _ _ Hwf _ _ Hc Hpos) as [Hrow Hmp].
      erewrite (bind_Ret _ _ _ tt).
      2:{ rewrite (bind_Ret _ _ _ _ _ (get_cont_eq _ _ _ Hc)).
          apply (wakeup1_row _ _ _ _ _ _ Hrow). rewrite (wf_npt _ _ Hwf). klia. }
      rewrite IH; [|split; simpl; [apply Hwf | rewrite length_imap; apply Hwf | apply Hwf]|lia].
      simpl. f_equal. unfold set_k_ptable. simpl. f_equal.
      apply list_eq. intros p. rewrite !lookup_wake_table, list_lookup_imap.
      destruct (k_ptable s !! p) as [q|]; [|done]. simpl. f_equal.
      destruct (decide (in_cont c p)) as [Hin|Hin].
      * rewrite (decide_True _ _ (P := reachable_proc (c :: _) p)) by (by left).
        rewrite (decide_True _ _ (P := (_ <= p < _)%nat)).
        2:{ destruct Hin as (b & Eb & ?). assert (b = (j * NPROC)%nat) as -> by congruence. lia. }
        case_decide; [apply wake_idemp | done].
      * rewrite (decide_False _ _ (P := (_ <= p < _)%nat)).
        2:{ contradict Hin. exists (j * NPROC)%nat. split; [done|lia]. }
        apply decide_ext. unfold reachable_proc. rewrite Exists_cons. tauto.
    + erewrite (bind_Ret _ _ _ tt).
      2:{ rewrite (bind_Ret _ _ _ _ _ (get_cont_eq _ _ _ Hc)).
          replace (Z.to_nat (c_mproc c)) with 0%nat by lia. reflexivity. }
      rewrite IH by (done || lia). f_equal. unfold set_k_ptable. simpl. f_equal.
      apply list_eq. intros p. rewrite !lookup_wake_table.
      destruct (k_ptable s !! p) as [q|]; [|done]. simpl. f_equal.
      apply decide_ext. unfold reachable_proc. rewrite Exists_cons.
      assert (~ in_cont c p); [|tauto]. intros (b & _ & H). lia.
Qed.

Lemma wakeup1_eq ch s :
  tables_wf (k_ctable s) (k_ptable s) ->
  wakeup1 ch s = Ret tt (set_k_ptable (wake_table (k_ctable s) ch (k_ptable s)) s).
Proof.
  intros Hwf. unfold wakeup1. rewrite wakeup1_outer by (done || lia).
  rewrite drop_0, take_ge; [done|]. rewrite (wf_nct _ _ Hwf). done.
Qed.

Lemma wake_table_wf ct ch pt : tables_wf ct pt -> tables_wf ct (wake_table ct ch pt).
Proof.
  intros Hwf. split; [apply Hwf| |apply Hwf]. rewrite length_wake_table. apply Hwf.
Qed.

Lemma wakeup_eq ch s :
  LPtable ∉ k_held s -> tables_wf (k_ctable s) (k_ptable s) ->
  wakeup ch s = Ret tt (set_k_ptable (wake_table (k_ctable s) (Some ch) (k_ptable s)) s).
Proof.
  intros Hl Hwf. rewrite wakeup_code. unfold acquireptable, releaseptable.
  rewrite (bind_Ret _ _ _ _ _ (acquire_eq _ _ Hl)).
  erewrite (bind_Ret (wakeup1 _)) by (apply wakeup1_eq; done).
  erewrite release_eq by reflexivity. by destruct s.
Qed.

(** ** Sleeping *)

Lemma sched_eq s p pr :
  k_cur s = Some p -> k_held s = [LPtable] -> k_ptable s !! p = Some pr ->
  p_state pr <> RUNNING -> sched s = Switch s (fun s' => Ret tt s').
Proof.
  intros Hcur Hheld Hp Hst. unfold sched.
  rewrite (bind_Ret _ _ _ (Some p) s) by (unfold myproc, gets; by rewrite Hcur).
  rewrite (bind_Ret _ _ _ true s) by (unfold holding, gets; by rewrite Hheld).
  cbn [negb]. rewrite (bind_Ret _ _ _ [LPtable] s) by (unfold gets; by rewrite Hheld).
  cbn [negb length Nat.eqb].
  rewrite (bind_Ret _ _ _ p s) by done.
  rewrite (bind_Ret _ _ _ _ _ (get_proc_eq _ _ _ Hp)).
  by rewrite (bool_decide_eq_false_2 _ Hst).
Qed.

(** The process entry while asleep, and the state in which [sleep] switches. *)
Definition asleep (ch : chan) (pr : proc) : proc :=
  set_p_state SLEEPING (set_p_chan (Some ch) pr).
Definition sleep_state (p : nat) (ch : chan) (s : kst) : kst :=
  set_k_held [LPtable] (set_k_ptable (alter (asleep ch) p (k_ptable s)) s).
(** The state in which [sleep] returns when switched back to in [s]. *)
Definition wake_state (p : nat) (lk : lockid) (s : kst) : kst :=
  set_k_held [lk] (set_k_ptable (alter (set_p_chan None) p (k_ptable s)) s).

Lemma alter_alter {A} (f g : A -> A) i (l : list A) :
  alter g i (alter f i l) = alter (fun x => g (f x)) i l.
Proof.
  apply list_eq. intros j. rewrite !lookup_alter_case. case_decide; [|done].
  by destruct (l !! j).
Qed.

Lemma sleep_eq ch lk s p pr :
  lk <> LPtable -> k_cur s = Some p -> k_held s = [lk] -> k_ptable s !! p = Some pr ->
  exists k, sleep ch lk s = Switch (sleep_state p ch s) k /\
    forall s' pr', k_held s' = [LPtable] -> k_ptable s' !! p = Some pr' ->
      k s' = Ret tt (wake_state p lk s').
Proof.
  intros Hlk Hcur Hheld Hp.
  assert ((lk ==? LPtable) = false) as El by (by apply bool_decide_eq_false_2).
  set (mid := set_k_held [LPtable] s).
  assert ((acquireptable ;; release lk) s = Ret tt mid) as Hin.
  { unfold acquireptable. rewrite (bind_Ret _ _ _ _ _ (acquire_eq LPtable s ltac:(rewrite Hheld; set_solver))).
    unfold release, holding, bind, gets. simpl. rewrite Hheld.
    rewrite bool_decide_eq_true_2 by set_solver. unfold modify. simpl.
    rewrite decide_False by done. rewrite decide_True by done. by destruct s. }
  rewrite sleep_code. unfold myproc, bind at 1, gets. simpl. rewrite Hcur, El. simpl.
  rewrite (bind_Ret _ _ _ _ _ Hin).
  rewrite (bind_Ret _ _ _ _ _ (upd_proc_eq p _ pr mid Hp)).
  erewrite (bind_Ret (upd_proc _ _)).
  2:{ eapply upd_proc_eq. simpl. rewrite list_lookup_alter_eq, Hp. reflexivity. }
  unfold bind at 1. erewrite sched_eq; [|done|done| |].
  2:{ simpl. rewrite alter_alter, list_lookup_alter_eq, Hp. reflexivity. }
  2:{ done. }
  eexists. split.
  - unfold sleep_state, mid, set_k_held, set_k_ptable. simpl. by rewrite alter_alter.
  - intros s' pr' Hh' Hp'. simpl.
    rewrite (bind_Ret _ _ _ _ _ (upd_proc_eq _ _ _ _ Hp')).
    unfold releaseptable.
    erewrite (bind_Ret (release LPtable)) by (apply (release_eq LPtable []); exact Hh').
    by rewrite acquire_eq by (simpl; set_solver).
Qed.

(** One turn of a waiting loop. *)
Lemma wpr_sleep (I G : kst -> Prop) (Q : unit -> kst -> Prop) ch lk t p pr :
  lk <> LPtable -> k_cur t = Some p -> k_held t = [lk] -> k_ptable t !! p = Some pr ->
  G (sleep_state p ch t) ->
  (forall t', I t' -> k_held t' = [LPtable] /\ is_Some (k_ptable t' !! p) /\ Q tt (wake_state p lk t')) ->
  wpr I G (sleep ch lk) Q t.
Proof.
  intros Hlk Hc Hh Hp HG HQ. destruct (sleep_eq ch lk t p pr Hlk Hc Hh Hp) as (k & Hs & Hk).
  unfold wpr. rewrite Hs. simpl. split; [done|]. intros t' HI.
  destruct (HQ t' HI) as (Rh & [pr' Rp] & HQ'). by rewrite (Hk _ _ Rh Rp).
Qed.

(** One run of [sleep(ch, lk)]: it switches to the scheduler with the process SLEEPING
    on [ch] and only the process-table lock held; a [wakeup(ch)] while the process
    sleeps makes it RUNNABLE; when the scheduler switches back, [sleep] returns with
    [lk] held again and the channel cleared.  (That no wakeup falls between the test
    before [sleep] and its switch is a matter of interleaving: Interleave.v.) *)
Theorem sleep_correct ch lk s p pr :
  lk <> LPtable -> k_cur s = Some p -> k_held s = [lk] -> k_ptable s !! p = Some pr ->
  exists s1 k, sleep ch lk s = Switch s1 k /\
    k_held s1 = [LPtable] /\ k_ptable s1 !! p = Some (asleep ch pr) /\
    (forall s2, LPtable ∉ k_held s2 -> tables_wf (k_ctable s2) (k_ptable s2) ->
       reachable_proc (k_ctable s2) p -> k_ptable s2 !! p = Some (asleep ch pr) ->
       exists s3, wakeup ch s2 = Ret tt s3 /\
         k_ptable s3 !! p = Some (set_p_state RUNNABLE (asleep ch pr))) /\
    (forall s2 pr2, k_held s2 = [LPtable] -> k_ptable s2 !! p = Some pr2 ->
       exists s3, k s2 = Ret tt s3 /\ k_held s3 = [lk] /\
         k_ptable s3 !! p = Some (set_p_chan None pr2)).
Proof.
  intros Hlk Hcur Hheld Hp.
  destruct (sleep_eq ch lk s p pr Hlk Hcur Hheld Hp) as (k & Hs & Hk).
  exists (sleep_state p ch s), k. split_and!; [done | done | | |].
  - simpl. by rewrite list_lookup_alter_eq, Hp.
  - intros s2 Hl Hwf Hr H2. eexists. split; [by apply wakeup_eq|]. simpl.
    rewrite lookup_wake_table, H2. simpl. rewrite decide_True by done.
    unfold wake. unfold sleeping_on. simpl. by rewrite bool_decide_eq_true_2.
  - intros s2 pr2 Hh2 H2. eexists. split; [by eapply Hk|]. split; [done|]. simpl.
    by rewrite list_lookup_alter_eq, H2.
Qed.

(** ** A small kernel state, for examples *)

Definition proc0 : proc :=
  mkProc 0 0 0 UNUSED 0 None 0 0 None false (replicate NOFILE None) None
         (replicate 16 0) 0 None.
Definition cont0 (i : nat) : cont :=
  mkCont 0 0 0 0 0 0 0 None CUNUSED (replicate 16 0) (Some (i * NPROC)%nat) 0.

(** The tables after boot: container 1 (slot 0) with its first process running. *)
Definition boot_cont : cont :=
  mkCont MAX_CONT_MEM MAX_CONT_DSK 64 0 0 1 1 (Some 0%nat) CRUNNABLE
         (replicate 16 0) (Some 0%nat) 0.
Definition boot_proc : proc :=
  set_p_cont (Some 0%nat) (set_p_pid 1 (set_p_state RUNNING proc0)).
Definition boot_state : kst :=
  mkKst [] (Some 0%nat)
    (boot_cont :: (cont0 <$> seq 1 7)) 2
    (boot_proc :: replicate 511 proc0) 2 (Some 0%nat) false
    (fun _ => 0) 0 true true 0 [] ∅ [] [] []
    (mkLog 0 0 0 false 1 0 (replicate 30 0)) (mkSuperblock 0 0 0 0 0 0 0) [] true []
    (mkConsdev (mkInput (replicate 128 0) 0 0 0) (replicate 8 (mkInput (replicate 128 0) 0 0 0)) 1 false
       (replicate 2000 0) 0 true []) 0 0 0.

Lemma boot_tables_wf : tables_wf (k_ctable boot_state) (k_ptable boot_state).
Proof.
  split; [done | done|].
  intros i c Hc Hpos. assert (i < 8)%nat as Hi by (apply lookup_lt_Some in Hc; done).
  do 8 (destruct i as [|i]; [simpl in Hc; injection Hc as <-; simpl in *; first [lia | done]|]).
  lia.
Qed.

(** ** The sleep lock of a buffer or an inode *)

Definition sl_at (r : slref) (s : kst) : option sleeplock :=
  match r with
  | SlBuf i => (fun b => b_lock b) <$> k_bufs s !! i
  | SlInode i => (fun ip => i_lock ip) <$> k_icache s !! i
  end.

Definition put_sl (r : slref) (l : sleeplock) (s : kst) : kst :=
  match r with
  | SlBuf i => set_k_bufs (alter (set_b_lock l) i (k_bufs s)) s
  | SlInode i => set_k_icache (alter (set_i_lock l) i (k_icache s)) s
  end.

Lemma get_sl_eq r l s : sl_at r s = Some l -> get_sl r s = Ret l s.
Proof.
  destruct r as [i|i]; simpl; intros (x & Hx & ->)%fmap_Some.
  - by rewrite (bind_Ret _ _ _ _ _ (get_buf_eq _ _ _ Hx)).
  - unfold get_inode, bind, gets. simpl. by rewrite Hx.
Qed.

Lemma set_sl_eq r l l0 s : sl_at r s = Some l0 -> set_sl r l s = Ret tt (put_sl r l s).
Proof.
  destruct r as [i|i]; simpl; intros (x & Hx & ->)%fmap_Some.
  - by rewrite (upd_buf_eq _ _ _ _ Hx).
  - unfold upd_inode, get_inode, bind, gets. simpl. by rewrite Hx.
Qed.

Lemma sl_at_put r l l0 s : sl_at r s = Some l0 -> sl_at r (put_sl r l s) = Some l.
Proof.
  destruct r as [i|i]; simpl; intros (x & Hx & ->)%fmap_Some;
    by rewrite list_lookup_alter_eq, Hx.
Qed.

Lemma sl_lockid_ptable r : sl_lockid r <> LPtable.
Proof. by destruct r. Qed.

Lemma sl_at_ptable r pt s : sl_at r (set_k_ptable pt s) = sl_at r s.
Proof. by destruct r. Qed.
Lemma sl_at_held r h s : sl_at r (set_k_held h s) = sl_at r s.
Proof. by destruct r. Qed.

(** A state with one buffer, whose lock is free. *)
Definition one_buf_state : kst :=
  set_k_bufs [mkBuf 0 1 7 (mkSleeplock false 0) 0 0 0 []] boot_state.

(** ** The uncontended case

    A process alone in the file system finds its sleep locks free and wakes
    nobody when it releases them. *)

Definition fs_chan (ch : chan) : bool :=
  match ch with ChBufLock _ | ChInodeLock _ | ChLog => true | _ => false end.

(** A process is running, no spinlock is held, and no other process sleeps
    inside the file system. *)
Record quiet (s : kst) : Prop := {
  q_held : k_held s = [];
  q_cur : exists p pr, k_cur s = Some p /\ k_ptable s !! p = Some pr;
  q_tab : tables_wf (k_ctable s) (k_ptable s);
  q_sleep p pr ch : k_ptable s !! p = Some pr -> p_state pr = SLEEPING ->
    p_chan pr = Some ch -> fs_chan ch = false
}.

(** The pid [acquiresleep] records. *)
Definition mypid (s : kst) : Z :=
  default 0 (p ← k_cur s; (fun pr => p_pid pr) <$> k_ptable s !! p).

Lemma quiet_curproc s : quiet s -> exists p pr,
  curproc s = Ret p s /\ get_proc p s = Ret pr s /\ p_pid pr = mypid s.
Proof.
  intros [_ (p & pr & Hc & Hp) _ _]. exists p, pr.
  unfold curproc, myproc, mypid, bind, gets. simpl. rewrite Hc. simpl.
  rewrite Hp. split; [done|]. split; [by apply get_proc_eq | done].
Qed.

(** [quiet] reads only the tables and the lock list. *)
Lemma quiet_ext s s' :
  k_held s' = k_held s -> k_cur s' = k_cur s -> k_ctable s' = k_ctable s ->
  k_ptable s' = k_ptable s -> quiet s -> quiet s'.
Proof. intros E1 E2 E3 E4 [H1 H2 H3 H4]. split; rewrite ?E1, ?E2, ?E3, ?E4; done. Qed.

Lemma wake_table_quiet s ch :
  quiet s -> fs_chan ch = true -> wake_table (k_ctable s) (Some ch) (k_ptable s) = k_ptable s.
Proof.
  intros Hq Hch. apply list_eq. intros p. rewrite lookup_wake_table.
  destruct (k_ptable s !! p) as [pr|] eqn:E; [|done]. simpl. f_equal.
  case_decide; [|done]. unfold wake, sleeping_on.
  destruct (bool_decide_reflect (p_state pr = SLEEPING)); [|done].
  destruct (bool_decide_reflect (p_chan pr = Some ch)); [|done].
  exfalso. pose proof (q_sleep s Hq p pr ch E). intuition congruence.
Qed.

Lemma wakeup_quiet s ch :
  quiet s -> fs_chan ch = true -> wakeup ch s = Ret tt s.
Proof.
  intros Hq Hch. rewrite wakeup_eq; [|rewrite (q_held s Hq); apply not_elem_of_nil | apply Hq].
  by rewrite wake_table_quiet.
Qed.

(** ... also under a lock other than the process table's. *)
Lemma wakeup_quiet_held s ch h :
  quiet s -> fs_chan ch = true -> LPtable ∉ h ->
  wakeup ch (set_k_held h s) = Ret tt (set_k_held h s).
Proof.
  intros Hq Hch Hh. rewrite wakeup_eq; [|done | apply Hq]. simpl.
  by rewrite wake_table_quiet.
Qed.

Lemma sl_chan_fs r : fs_chan (sl_chan r) = true.
Proof. by destruct r. Qed.

Lemma put_sl_held r l h s : put_sl r l (set_k_held h s) = set_k_held h (put_sl r l s).
Proof. by destruct r. Qed.

Lemma quiet_put_sl r l s : quiet s -> quiet (put_sl r l s).
Proof. destruct r; by apply quiet_ext. Qed.

Lemma acquiresleep_free r l s :
  quiet s -> sl_at r s = Some l -> sl_locked l = false ->
  acquiresleep r s = Ret tt (put_sl r (mkSleeplock true (mypid s)) s).
Proof.
  intros Hq Hl Hf. destruct (quiet_curproc s Hq) as (p & pr & Hc & Hp & Hpid).
  pose proof (q_held s Hq) as Hh. rewrite acquiresleep_code.
  rewrite (bind_Ret _ _ _ _ _ (acquire_eq (sl_lockid r) s ltac:(rewrite Hh; apply not_elem_of_nil))).
  set (s1 := set_k_held _ s). assert (sl_at r s1 = Some l) as Hl1 by (by destruct r).
  erewrite (bind_Ret (loop _ _ _)).
  2:{ unfold MAXWAIT. apply loop_done. rewrite (bind_Ret _ _ _ _ _ (get_sl_eq _ _ _ Hl1)).
      rewrite Hf. reflexivity. }
  destruct (q_cur s Hq) as (q & qr & Hq1 & Hq2).
  assert (curproc s1 = Ret q s1) as Hc1
    by (unfold curproc, myproc, bind, gets; simpl; by rewrite Hq1).
  rewrite (bind_Ret _ _ _ _ _ Hc1).
  rewrite (bind_Ret _ _ _ _ _ (get_proc_eq q qr s1 Hq2)).
  rewrite (bind_Ret _ _ _ _ _ (set_sl_eq _ _ _ _ Hl1)).
  rewrite (release_eq _ []) by (subst s1; rewrite Hh; by destruct r).
  subst s1. unfold mypid. rewrite Hq1. simpl. rewrite Hq2. simpl.
  destruct r; simpl; unfold set_k_held, set_k_bufs, set_k_icache; simpl; by rewrite Hh.
Qed.

Lemma releasesleep_quiet r l s :
  quiet s -> sl_at r s = Some l ->
  releasesleep r s = Ret tt (put_sl r (mkSleeplock false 0) s).
Proof.
  intros Hq Hl. pose proof (q_held s Hq) as Hh. rewrite releasesleep_code.
  rewrite (bind_Ret _ _ _ _ _ (acquire_eq (sl_lockid r) s ltac:(rewrite Hh; apply not_elem_of_nil))).
  erewrite (bind_Ret (set_sl _ _)) by (eapply set_sl_eq; rewrite sl_at_held; done).
  rewrite put_sl_held. erewrite (bind_Ret (wakeup _)).
  2:{ apply wakeup_quiet_held; [by apply quiet_put_sl | apply sl_chan_fs |].
      rewrite Hh. destruct r; set_solver. }
  rewrite (release_eq _ []) by (simpl; by rewrite Hh).
  destruct r; simpl; unfold set_k_held, set_k_bufs, set_k_icache; simpl; by rewrite Hh.
Qed.

Lemma holdingsleep_quiet r l s :
  quiet s -> sl_at r s = Some l -> holdingsleep r s = Ret (sl_locked l) s.
Proof.
  intros Hq Hl. pose proof (q_held s Hq) as Hh. unfold holdingsleep.
  rewrite (bind_Ret _ _ _ _ _ (acquire_eq (sl_lockid r) s ltac:(rewrite Hh; apply not_elem_of_nil))).
  erewrite (bind_Ret (get_sl _)) by (eapply get_sl_eq; rewrite sl_at_held; done).
  erewrite (bind_Ret (release _)) by (apply (release_eq _ []); simpl; by rewrite Hh).
  unfold set_k_held, ret. simpl. by rewrite <- Hh.
Qed.

Lemma boot_quiet : quiet boot_state.
Proof.
  split; [done | by exists 0%nat, boot_proc | apply boot_tables_wf |].
  intros [|p] pr ch Hp Hs; exfalso.
  - change (Some boot_proc = Some pr) in Hp. by injection Hp as <-.
  - change (replicate 511 proc0 !! p = Some pr) in Hp.
    apply lookup_replicate in Hp as [-> _]. done.
Qed.
