(* ===== verification/Interleave.v ===== *)
(** * Sleep locks between CPUs

    The functions of sleeplock.c, with the [sleep] and [wakeup] they call, run by any
    number of processes at once.  Between two operations of one process (taking a
    spinlock, giving one up, a piece of code in between) the others make theirs, in
    any order.  The code is that of Sched.v: its [Cpu] functions are instantiated here
    with a syntax tree of operations, and the trees are run against one shared kernel
    state.  The theorems show that a sleep lock has one holder at a time and that a
    process is not left asleep when the lock becomes free. *)

From S2P Require Import Prelude Monad KState Sched.

Local Open Scope kernel_scope.

(** ** Code as a tree of operations *)

Inductive code (A : Type) : Type :=
  | Done (a : A)
  | Acquire (lk : lockid) (k : code A)
  | Release (lk : lockid) (k : code A)
  | Run (B : Type) (m : K B) (k : B -> code A)
  | Spent.
Arguments Done {A} a.
Arguments Acquire {A} lk k.
Arguments Release {A} lk k.
Arguments Run {A B} m k.
Arguments Spent {A}.

Fixpoint code_bind {A B} (c : code A) (f : A -> code B) : code B :=
  match c with
  | Done a => f a
  | Acquire lk k => Acquire lk (code_bind k f)
  | Release lk k => Release lk (code_bind k f)
  | Run m k => Run m (fun b => code_bind (k b) f)
  | Spent => Spent
  end.

#[global] Instance code_cpu : Cpu code := {
  creturn := @Done;
  cbind := @code_bind;
  crun := fun A m => Run m Done;
  cacquire := fun lk => Acquire lk (Done tt);
  crelease := fun lk => Release lk (Done tt);
  cspent := @Spent
}.

(** ** Processes on CPUs *)

(** Where a user of the lock is. *)
Inductive phase : Type := Idle | Acquiring | Holding | Releasing.

(** [t_held] are the spinlocks of the CPU the process is on; [t_parked]: it has called
    [sched] and is on no CPU. *)
Record thread : Type := mkThread {
  t_proc : nat;
  t_phase : phase;
  t_held : list lockid;
  t_parked : bool;
  t_code : code unit
}.

Record sys : Type := mkSys { y_k : kst; y_pool : list thread }.

(** The kernel state as the thread sees it: [myproc()] and the held locks are its CPU's. *)
Definition view (t : thread) (s : kst) : kst := set_k_cur (Some (t_proc t)) (set_k_held (t_held t) s).

Definition lock_free (lk : lockid) (pool : list thread) : bool :=
  forallb (fun t => negb (bool_decide (lk ∈ t_held t))) pool.

(** One operation of a thread.  [acquire] spins until no CPU has the lock.  A switch
    gives the CPU to the scheduler, which gives up the process-table lock; the
    scheduler comes back to a process that is RUNNABLE, with that lock. *)
Definition advance (y : sys) (t : thread) : option (kst * thread) :=
  let s := y_k y in
  match t_code t with
  | Acquire lk k =>
      if lock_free lk (y_pool y) then
        Some (s, mkThread (t_proc t) (t_phase t) (lk :: t_held t) false k)
      else None
  | Release lk k =>
      if bool_decide (lk ∈ t_held t) then
        Some (s, mkThread (t_proc t) (t_phase t) (rm lk (t_held t)) false k)
      else None
  | Run m k =>
      if t_parked t then
        pr ← k_ptable s !! t_proc t;
        if (p_state pr ==? RUNNABLE) && lock_free LPtable (y_pool y) then
          Some (set_k_ptable (alter (set_p_state RUNNING) (t_proc t) (k_ptable s)) s,
                mkThread (t_proc t) (t_phase t) [LPtable] false (Run m k))
        else None
      else
        match m (view t s) with
        | Ret b s' => Some (s', mkThread (t_proc t) (t_phase t) (t_held t) false (k b))
        | Switch s' c => Some (s', mkThread (t_proc t) (t_phase t) [] true (Run c k))
        | _ => None
        end
  | Done _ | Spent => None
  end.

(** The thread has run into a [panic] or a fault. *)
Definition crashed (y : sys) (t : thread) : bool :=
  match t_code t with
  | Acquire lk k => bool_decide (lk ∈ t_held t)
  | Release lk k => negb (bool_decide (lk ∈ t_held t))
  | Run m k =>
      negb (t_parked t) &&
      match m (view t (y_k y)) with Panic _ _ | Fault _ _ => true | _ => false end
  | Done _ | Spent => false
  end.

Lemma put_sl_ctable r l s : k_ctable (put_sl r l s) = k_ctable s.
Proof. by destruct r. Qed.

Lemma put_sl_ptable r l s : k_ptable (put_sl r l s) = k_ptable s.
Proof. by destruct r. Qed.

Section sleeplock.
Context (r : slref).

(** A user of the lock calls [acquiresleep], has the lock, calls [releasesleep], and so
    on; [n] bounds the sleeps of the call. *)
Definition client (n : nat) (t : thread) : option thread :=
  match t_code t with
  | Done _ =>
      let '(ph, c) :=
        match t_phase t with
        | Idle => (Acquiring, acquiresleep_in n r)
        | Acquiring => (Holding, Done tt)
        | Holding => (Releasing, releasesleep_in r)
        | Releasing => (Idle, Done tt)
        end in
      Some (mkThread (t_proc t) ph (t_held t) (t_parked t) c)
  | _ => None
  end.

(** What the rest of the kernel may do meanwhile: anything that leaves the sleep lock
    alone and keeps the tables laid out and the users of the lock in them; it can make
    a user that sleeps RUNNABLE, as [kill] does. *)
Record elsewhere (pool : list thread) (s s' : kst) : Prop := {
  ew_lock : sl_at r s' = sl_at r s;
  ew_tab : tables_wf (k_ctable s') (k_ptable s');
  ew_reach t : t ∈ pool -> reachable_proc (k_ctable s') (t_proc t);
  ew_proc t pr : t ∈ pool -> k_ptable s !! t_proc t = Some pr ->
    exists pr', k_ptable s' !! t_proc t = Some pr' /\ p_pid pr' = p_pid pr /\
      (p_state pr' = p_state pr /\ p_chan pr' = p_chan pr \/
       t_parked t = true /\ p_state pr = SLEEPING /\ p_state pr' = RUNNABLE)
}.

Inductive step (y : sys) : sys -> Prop :=
  | step_go i t s' t' :
      y_pool y !! i = Some t -> advance y t = Some (s', t') ->
      step y (mkSys s' (<[i := t']> (y_pool y)))
  | step_client i n t t' :
      y_pool y !! i = Some t -> client n t = Some t' ->
      step y (mkSys (y_k y) (<[i := t']> (y_pool y)))
  | step_elsewhere s' :
      elsewhere (y_pool y) (y_k y) s' -> step y (mkSys s' (y_pool y)).

(** Some processes, running, none of them in the lock's code, and the lock free. *)
Record initial (y : sys) : Prop := {
  in_tab : tables_wf (k_ctable (y_k y)) (k_ptable (y_k y));
  in_lock : exists pid, sl_at r (y_k y) = Some (mkSleeplock false pid);
  in_nodup : NoDup (t_proc <$> y_pool y);
  in_threads t : t ∈ y_pool y -> t = mkThread (t_proc t) Idle [] false (Done tt) /\
    reachable_proc (k_ctable (y_k y)) (t_proc t) /\
    p_state <$> k_ptable (y_k y) !! t_proc t = Some RUNNING
}.

Inductive reachable : sys -> Prop :=
  | reach_initial y : initial y -> reachable y
  | reach_more y y' : reachable y -> step y y' -> reachable y'.

(** ** The points of the code *)

Let L : lockid := sl_lockid r.
Let ch : chan := sl_chan r.

(** Where a thread is: in [acquiresleep] (with [n] more turns of its loop), in the
    [sleep] it calls, with the lock, or in [releasesleep]. *)
Inductive point : Type :=
  | PIdle
  | PEnter (n : nat)     (* acquire(&lk->lk) *)
  | PTest (n : nat)      (* while(lk->locked) *)
  | PSleep (n : nat)     (* sleep: p = myproc() *)
  | PLockPt (n : nat)    (* acquireptable() *)
  | PUnlock (n : nat)    (* release(lk) *)
  | PChan (n : nat)      (* p->chan = chan *)
  | PState (n : nat)     (* p->state = SLEEPING *)
  | PSched (n : nat)     (* sched() *)
  | PParked (n : nat)    (* on no CPU *)
  | PBack (n : nat)      (* sched returns *)
  | PClear (n : nat)     (* p->chan = 0 *)
  | PUnlockPt (n : nat)  (* releaseptable() *)
  | PCur | PPid | PTake (pid : Z) (* lk->locked = 1; lk->pid = myproc()->pid *)
  | PLeave               (* release(&lk->lk) *)
  | PGot                 (* acquiresleep has returned *)
  | PHold
  | PREnter              (* releasesleep: acquire(&lk->lk) *)
  | PRFree               (* lk->locked = 0; lk->pid = 0 *)
  | PRLockPt             (* wakeup: acquireptable() *)
  | PRWake               (* wakeup1(chan) *)
  | PRUnlockPt           (* releaseptable() *)
  | PRLeave              (* release(&lk->lk) *)
  | PRGone.              (* releasesleep has returned *)

Definition test_body (_ : unit) : code (unit + unit) :=
  (l <- crun (get_sl r) ;;
   if sl_locked l then sleep_in ch L ;; creturn (inl tt) else creturn (inr tt))%cpu.

Definition c_leave : code unit := Release L (Done tt).
Definition c_take (pid : Z) : code unit := Run (set_sl r (mkSleeplock true pid)) (fun _ => c_leave).
Definition c_pid (p : nat) : code unit := Run (get_proc p) (fun pr => c_take (p_pid pr)).
Definition c_cur : code unit := Run curproc c_pid.
Definition c_test (n : nat) : code unit := code_bind (cloop n test_body tt) (fun _ => c_cur).
Definition c_enter (n : nat) : code unit := Acquire L (c_test n).
Definition c_unlockpt (n : nat) : code unit := Release LPtable (c_enter n).
Definition c_clear (p n : nat) : code unit := Run (upd_proc p (set_p_chan None)) (fun _ => c_unlockpt n).
Definition c_back (p n : nat) : code unit := Run (fun s => Ret tt s) (fun _ => c_clear p n).
Definition c_sched (p n : nat) : code unit := Run sched (fun _ => c_clear p n).
Definition c_state (p n : nat) : code unit := Run (upd_proc p (set_p_state SLEEPING)) (fun _ => c_sched p n).
Definition c_chan (p n : nat) : code unit := Run (upd_proc p (set_p_chan (Some ch))) (fun _ => c_state p n).
Definition c_unlock (p n : nat) : code unit := Release L (c_chan p n).
Definition c_lockpt (p n : nat) : code unit := Acquire LPtable (c_unlock p n).
Definition c_sleep (n : nat) : code unit :=
  code_bind (code_bind (code_bind (sleep_in ch L) (fun _ => Done (inl tt)))
    (fun x : unit + unit => match x with inl a => cloop n test_body a | inr b => Done b end)) (fun _ => c_cur).

Definition c_rleave : code unit := Release L (Done tt).
Definition c_runlockpt : code unit := Release LPtable c_rleave.
Definition c_rwake : code unit := Run (wakeup1 (Some ch)) (fun _ => c_runlockpt).
Definition c_rlockpt : code unit := Acquire LPtable c_rwake.
Definition c_rfree : code unit := Run (set_sl r (mkSleeplock false 0)) (fun _ => c_rlockpt).
Definition c_renter : code unit := Acquire L c_rfree.

Definition code_at (p : nat) (q : point) : code unit :=
  match q with
  | PEnter n => c_enter n | PTest n => c_test n | PSleep n => c_sleep n
  | PLockPt n => c_lockpt p n | PUnlock n => c_unlock p n | PChan n => c_chan p n
  | PState n => c_state p n | PSched n => c_sched p n | PParked n | PBack n => c_back p n
  | PClear n => c_clear p n | PUnlockPt n => c_unlockpt n
  | PCur => c_cur | PPid => c_pid p | PTake pid => c_take pid | PLeave => c_leave
  | PREnter => c_renter | PRFree => c_rfree | PRLockPt => c_rlockpt | PRWake => c_rwake
  | PRUnlockPt => c_runlockpt | PRLeave => c_rleave
  | PIdle | PGot | PHold | PRGone => Done tt
  end.

Definition phase_at (q : point) : phase :=
  match q with
  | PIdle => Idle
  | PHold => Holding
  | PREnter | PRFree | PRLockPt | PRWake | PRUnlockPt | PRLeave | PRGone => Releasing
  | _ => Acquiring
  end.

Definition held_at (q : point) : list lockid :=
  match q with
  | PTest _ | PSleep _ | PLockPt _ | PCur | PPid | PTake _ | PLeave | PRFree | PRLockPt | PRLeave => [L]
  | PUnlock _ | PRWake | PRUnlockPt => [LPtable; L]
  | PChan _ | PState _ | PSched _ | PBack _ | PClear _ | PUnlockPt _ => [LPtable]
  | _ => []
  end.

Definition parked_at (q : point) : bool := match q with PParked _ => true | _ => false end.

Definition thread_at (x : nat * point) : thread :=
  mkThread x.1 (phase_at x.2) (held_at x.2) (parked_at x.2) (code_at x.1 x.2).

(** The code is at these points one after the other. *)
Lemma lock_other : (L ==? LPtable) = false.
Proof. unfold L. by destruct r. Qed.

Lemma acquiresleep_points n : acquiresleep_in n r = c_enter n.
Proof. reflexivity. Qed.

Lemma releasesleep_points : releasesleep_in r = c_renter.
Proof. reflexivity. Qed.

Lemma test_points n :
  exists k, c_test (S n) = Run (get_sl r) k /\ forall l, k l = if sl_locked l then c_sleep n else c_cur.
Proof.
  exists (fun l => code_bind (code_bind (if sl_locked l then code_bind (sleep_in ch L) (fun _ => Done (inl tt)) else Done (inr tt))
    (fun x : unit + unit => match x with inl a => cloop n test_body a | inr b => Done b end)) (fun _ => c_cur)).
  split; [reflexivity|]. intros l. destruct (sl_locked l); reflexivity.
Qed.

Lemma sleep_points n : exists k, c_sleep n = Run myproc k /\ forall p, k (Some p) = c_lockpt p n.
Proof.
  unfold c_sleep, sleep_in. rewrite lock_other. eexists. split; reflexivity.
Qed.

(** ** The invariant *)

(** What a thread at [q] knows of its own process entry. *)
Definition proc_ok (q : point) (pr : proc) : Prop :=
  match q with
  | PState _ => p_state pr = RUNNING /\ p_chan pr = Some ch
  | PSched _ => p_state pr = SLEEPING /\ p_chan pr = Some ch
  | PParked _ => p_state pr = SLEEPING /\ p_chan pr = Some ch \/ p_state pr = RUNNABLE
  | _ => p_state pr = RUNNING
  end.

(** What it knows of the sleep lock: while it has the spinlock, and while it has the
    sleep lock. *)
Definition lock_ok (q : point) (l : sleeplock) (pr : proc) : Prop :=
  match q with
  | PSleep _ | PLockPt _ | PUnlock _ => sl_locked l = true
  | PCur | PPid => sl_locked l = false
  | PTake pid => sl_locked l = false /\ pid = p_pid pr
  | PLeave | PGot | PHold | PREnter | PRFree => l = mkSleeplock true (p_pid pr)
  | _ => True
  end.

Definition owner (q : point) : bool :=
  match q with PLeave | PGot | PHold | PREnter | PRFree => true | _ => false end.

(** It will sleep until it is woken: asleep, or on its way with the process-table lock. *)
Definition sleeper (q : point) (pr : proc) : bool :=
  match q with
  | PChan _ | PState _ | PSched _ => true
  | PParked _ => p_state pr ==? SLEEPING
  | _ => false
  end.

(** It has freed the lock and has its [wakeup1] before it. *)
Definition waker (q : point) : bool := match q with PRLockPt | PRWake => true | _ => false end.

Record inv (s : kst) (l : sleeplock) (qs : list (nat * point)) : Prop := {
  iv_tab : tables_wf (k_ctable s) (k_ptable s);
  iv_lock : sl_at r s = Some l;
  iv_nodup : NoDup qs.*1;
  iv_reach i p q : qs !! i = Some (p, q) -> reachable_proc (k_ctable s) p;
  iv_own i p q : qs !! i = Some (p, q) ->
    exists pr, k_ptable s !! p = Some pr /\ proc_ok q pr /\ lock_ok q l pr;
  iv_excl i j p q p' q' lk : qs !! i = Some (p, q) -> qs !! j = Some (p', q') ->
    lk ∈ held_at q -> lk ∈ held_at q' -> i = j;
  iv_owner i j p q p' q' : qs !! i = Some (p, q) -> qs !! j = Some (p', q') ->
    owner q = true -> owner q' = true -> i = j;
  iv_sleep i p q pr : qs !! i = Some (p, q) -> k_ptable s !! p = Some pr -> sleeper q pr = true ->
    sl_locked l = true \/ exists j p' q', qs !! j = Some (p', q') /\ waker q' = true
}.

Definition pool_at (qs : list (nat * point)) : list thread := thread_at <$> qs.

Lemma lock_free_at lk qs i p q :
  lock_free lk (pool_at qs) = true -> qs !! i = Some (p, q) -> lk ∉ held_at q.
Proof.
  unfold lock_free, pool_at. rewrite forallb_forall. intros H Hi.
  specialize (H (thread_at (p, q))). rewrite negb_true_iff, bool_decide_eq_false in H. apply H.
  apply list_elem_of_In, list_elem_of_fmap. exists (p, q). split; [done|]. by eapply list_elem_of_lookup_2.
Qed.

Lemma fst_insert (qs : list (nat * point)) i p q q' : qs !! i = Some (p, q) -> (<[i := (p, q')]> qs).*1 = qs.*1.
Proof.
  intros H. rewrite list_fmap_insert. simpl. apply list_insert_id. rewrite list_lookup_fmap, H. done.
Qed.

(** Two threads are two processes. *)
Lemma inv_procs s l qs i j p p' q q' :
  inv s l qs -> qs !! i = Some (p, q) -> qs !! j = Some (p', q') -> i <> j -> p' <> p.
Proof.
  intros V Hi Hj N ->. apply N, (NoDup_lookup _ _ _ p (iv_nodup _ _ _ V));
    by rewrite list_lookup_fmap, ?Hi, ?Hj.
Qed.

(** What is left to check when thread [i] goes from [q] to [q'] and only its own entry of
    the process table may change. *)
Record local_move (s s' : kst) (l : sleeplock) (qs : list (nat * point)) (p : nat) (q q' : point) : Prop := {
  lm_lock : sl_at r s' = sl_at r s;
  lm_ct : k_ctable s' = k_ctable s;
  lm_len : length (k_ptable s') = length (k_ptable s);
  lm_others p' : p' <> p -> k_ptable s' !! p' = k_ptable s !! p';
  lm_own pr : k_ptable s !! p = Some pr -> proc_ok q pr -> lock_ok q l pr -> exists pr',
    k_ptable s' !! p = Some pr' /\ proc_ok q' pr' /\ lock_ok q' l pr' /\
    (sleeper q' pr' = true -> sleeper q pr = true \/ sl_locked l = true);
  lm_held lk : lk ∈ held_at q' -> lk ∈ held_at q \/ lock_free lk (pool_at qs) = true;
  lm_owner : owner q' = true -> owner q = true;
  lm_waker : waker q = true -> waker q' = true
}.

Lemma inv_local s s' l qs i p q q' :
  inv s l qs -> qs !! i = Some (p, q) -> local_move s s' l qs p q q' -> inv s' l (<[i := (p, q')]> qs).
Proof.
  intros V Hi [M1 M2 M3 M4 M5 M6 M7 M8]. pose proof (lookup_lt_Some _ _ _ Hi) as Hlt.
  destruct (iv_own _ _ _ V i p q Hi) as (pr & Hp & Ok & Lk).
  destruct (M5 pr Hp Ok Lk) as (pr' & Hp' & Ok' & Lk' & Sl').
  assert (forall j p1 q1, <[i := (p, q')]> qs !! j = Some (p1, q1) ->
    j = i /\ p1 = p /\ q1 = q' \/ j <> i /\ qs !! j = Some (p1, q1)) as Hcase.
  { intros j p1 q1. destruct (decide (j = i)) as [->|N].
    - rewrite list_lookup_insert_eq by done. intros [= <- <-]. by left.
    - rewrite list_lookup_insert_ne by done. auto. }
  assert (forall j p1 q1, j <> i -> qs !! j = Some (p1, q1) -> k_ptable s' !! p1 = k_ptable s !! p1) as Hsame.
  { intros j p1 q1 N Hj. apply M4. by eapply inv_procs. }
  split.
  - rewrite M2. destruct (iv_tab _ _ _ V) as [W1 W2 W3]. split; [done | by rewrite M3 | done].
  - rewrite M1. apply V.
  - rewrite (fst_insert _ _ _ _ _ Hi). apply V.
  - rewrite M2. intros j p1 q1 [(-> & -> & _) | (_ & Hj)]%Hcase; by eapply iv_reach.
  - intros j p1 q1 [(-> & -> & ->) | (N & Hj)]%Hcase; [eauto|]. rewrite (Hsame j p1 q1 N Hj). by eapply iv_own.
  - intros j k p1 q1 p2 q2 lk [(-> & -> & ->) | (N1 & H1)]%Hcase [(-> & -> & ->) | (N2 & H2)]%Hcase I1 I2; [done|..].
    + destruct (M6 lk I1) as [I|Fr]; [by eapply iv_excl | exfalso; by eapply lock_free_at].
    + destruct (M6 lk I2) as [I|Fr]; [by eapply iv_excl | exfalso; by eapply lock_free_at].
    + by eapply iv_excl.
  - intros j k p1 q1 p2 q2 [(-> & -> & ->) | (N1 & H1)]%Hcase [(-> & -> & ->) | (N2 & H2)]%Hcase O1 O2; [done|..];
      try apply M7 in O1; try apply M7 in O2; by eapply iv_owner.
  - intros j p1 q1 pr1 Hj Hpr1 Hs.
    assert (sl_locked l = true \/ exists j p' q', qs !! j = Some (p', q') /\ waker q' = true) as [?|(k & p2 & q2 & Hk & Wk)].
    { destruct (Hcase _ _ _ Hj) as [(-> & -> & ->) | (N & Hj')].
      - assert (pr1 = pr') as -> by congruence. destruct (Sl' Hs); [by eapply iv_sleep | by left].
      - rewrite (Hsame j p1 q1 N Hj') in Hpr1. by eapply iv_sleep. }
    + by left.
    + right. destruct (decide (k = i)) as [->|N].
      * assert (q2 = q) as -> by congruence. exists i, p, q'. rewrite list_lookup_insert_eq by done. auto.
      * exists k, p2, q2. by rewrite list_lookup_insert_ne.
Qed.

Lemma insert_cases (qs : list (nat * point)) i j x y :
  (i < length qs)%nat -> <[i := x]> qs !! j = Some y -> j = i /\ y = x \/ j <> i /\ qs !! j = Some y.
Proof.
  intros Hi. destruct (decide (j = i)) as [->|N].
  - rewrite list_lookup_insert_eq by done. intros [= <-]. by left.
  - rewrite list_lookup_insert_ne by done. auto.
Qed.

(** Only the holders of the spinlock and of the sleep lock rely on the sleep lock's word. *)
Lemma lock_ok_other q l l' pr : L ∉ held_at q -> owner q = false -> lock_ok q l pr -> lock_ok q l' pr.
Proof. destruct q; simpl; intros H; try done; exfalso; apply H; set_solver. Qed.

(** Thread [i], with the spinlock, writes the sleep lock. *)
Lemma inv_write s s' l l' qs i p q q' :
  inv s l qs -> qs !! i = Some (p, q) ->
  sl_at r s' = Some l' -> k_ctable s' = k_ctable s -> k_ptable s' = k_ptable s ->
  L ∈ held_at q -> held_at q' = held_at q ->
  (forall pr, proc_ok q pr -> lock_ok q l pr -> proc_ok q' pr /\ lock_ok q' l' pr /\ sleeper q' pr = false) ->
  (forall j p1 q1, qs !! j = Some (p1, q1) -> j <> i -> owner q1 = false) ->
  sl_locked l' = true \/ waker q' = true -> inv s' l' (<[i := (p, q')]> qs).
Proof.
  intros V Hi E1 E2 E3 HL Hh Hok Hno Hw. pose proof (lookup_lt_Some _ _ _ Hi) as Hlt.
  destruct (iv_own _ _ _ V i p q Hi) as (pr & Hp & Ok & Lk). destruct (Hok pr Ok Lk) as (Ok' & Lk' & Sl').
  split.
  - rewrite E2, E3. apply V.
  - done.
  - rewrite (fst_insert _ _ _ _ _ Hi). apply V.
  - rewrite E2. intros j p1 q1 [(-> & [= -> ->]) | (_ & Hj)]%insert_cases; [by eapply iv_reach.. | done].
  - rewrite E3. intros j p1 q1 [(-> & [= -> ->]) | (N & Hj)]%insert_cases; [eauto | | done].
    destruct (iv_own _ _ _ V j p1 q1 Hj) as (pr1 & Hp1 & Ok1 & Lk1). exists pr1. split_and!; try done.
    apply (lock_ok_other _ l); [|by eapply Hno | done]. intros I. by apply N, (iv_excl _ _ _ V j i p1 q1 p q L).
  - intros j k p1 q1 p2 q2 lk [(-> & [= -> ->]) | (N1 & H1)]%insert_cases
      [(-> & [= -> ->]) | (N2 & H2)]%insert_cases; try done; rewrite ?Hh; by eapply iv_excl.
  - intros j k p1 q1 p2 q2 [(-> & [= -> ->]) | (N1 & H1)]%insert_cases
      [(-> & [= -> ->]) | (N2 & H2)]%insert_cases O1 O2; try done;
      [pose proof (Hno _ _ _ H2 N2) | pose proof (Hno _ _ _ H1 N1) | by eapply iv_owner]; congruence.
  - intros j p1 q1 pr1 Hj _ Hs. destruct Hw as [?|Hw]; [by left|]. right. exists i, p, q'.
    by rewrite list_lookup_insert_eq.
Qed.

Lemma wake_running chn pr : p_state pr = RUNNING -> wake chn pr = pr.
Proof. intros H. unfold wake, sleeping_on. by rewrite H. Qed.

Lemma wake_pid chn pr : p_pid (wake chn pr) = p_pid pr.
Proof. unfold wake. by destruct (sleeping_on chn pr). Qed.

(** A process entry after [wakeup1], for a thread without the process-table lock. *)
Lemma woken_ok q l pr :
  LPtable ∉ held_at q -> proc_ok q pr -> lock_ok q l pr ->
  proc_ok q (wake (Some ch) pr) /\ lock_ok q l (wake (Some ch) pr) /\ sleeper q (wake (Some ch) pr) = false.
Proof.
  intros Hh Ok Lk. destruct (decide (p_state pr = RUNNING)) as [R|R].
  - rewrite (wake_running _ _ R). split_and!; try done.
    destruct q; try done; simpl in *; [exfalso; apply Hh; set_solver.. | by rewrite R].
  - destruct q; try done; try (exfalso; apply Hh; simpl; set_solver).
    unfold wake, sleeping_on. destruct Ok as [[E1 E2] | E].
    + rewrite E1, E2, !bool_decide_eq_true_2 by done. simpl. auto.
    + rewrite E. simpl. rewrite E. auto.
Qed.

(** The wakeup: no thread is left asleep. *)
Lemma inv_wake s l qs i p :
  inv s l qs -> qs !! i = Some (p, PRWake) ->
  forall s', sl_at r s' = sl_at r s -> k_ctable s' = k_ctable s ->
  k_ptable s' = wake_table (k_ctable s) (Some ch) (k_ptable s) -> inv s' l (<[i := (p, PRUnlockPt)]> qs).
Proof.
  intros V Hi s' E1 E2 E3. pose proof (lookup_lt_Some _ _ _ Hi) as Hlt.
  assert (forall j p1 q1, <[i := (p, PRUnlockPt)]> qs !! j = Some (p1, q1) -> exists pr,
    k_ptable s' !! p1 = Some pr /\ proc_ok q1 pr /\ lock_ok q1 l pr /\ sleeper q1 pr = false) as Hall.
  { intros j p1 q1 Hj. rewrite E3. setoid_rewrite lookup_wake_table.
    destruct (insert_cases _ _ _ _ _ Hlt Hj) as [(-> & [= -> ->]) | (N & Hj')].
    - destruct (iv_own _ _ _ V i p _ Hi) as (pr & -> & Ok & _). exists pr. simpl in *.
      split_and!; try done. case_decide; [by rewrite wake_running | done].
    - destruct (iv_own _ _ _ V j p1 q1 Hj') as (pr & -> & Ok & Lk). exists (wake (Some ch) pr). simpl.
      rewrite decide_True by (by eapply iv_reach). split; [done|]. apply woken_ok; [|done..].
      intros I. apply N, (iv_excl _ _ _ V j i p1 q1 p PRWake LPtable); try done. simpl. set_solver. }
  split.
  - rewrite E2, E3. by apply wake_table_wf, V.
  - rewrite E1. apply V.
  - rewrite (fst_insert _ _ _ _ _ Hi). apply V.
  - rewrite E2. intros j p1 q1 [(-> & [= -> ->]) | (_ & Hj)]%insert_cases; [by eapply iv_reach.. | done].
  - intros j p1 q1 (pr & ? & ? & ? & _)%Hall. eauto.
  - intros j k p1 q1 p2 q2 lk [(-> & [= -> ->]) | (N1 & H1)]%insert_cases
      [(-> & [= -> ->]) | (N2 & H2)]%insert_cases; try done; intros I1 I2;
      eapply (iv_excl _ _ _ V); eauto.
  - intros j k p1 q1 p2 q2 [(-> & [= -> ->]) | (N1 & H1)]%insert_cases
      [(-> & [= -> ->]) | (N2 & H2)]%insert_cases O1 O2; try done. by eapply iv_owner.
  - intros j p1 q1 pr1 (pr & Hp & _ & _ & Hs)%Hall Hp1 Hs1. congruence.
Qed.

(** Another part of the kernel moves. *)
Lemma inv_elsewhere s s' l qs : inv s l qs -> elsewhere (pool_at qs) s s' -> inv s' l qs.
Proof.
  intros V [W1 W2 W3 W4].
  assert (forall j p q, qs !! j = Some (p, q) -> thread_at (p, q) ∈ pool_at qs) as Hin.
  { intros j p q Hj. apply list_elem_of_fmap. exists (p, q). split; [done|]. by eapply list_elem_of_lookup_2. }
  split; try apply V; [done | rewrite W1; apply V | | |].
  - intros j p q Hj. apply (W3 (thread_at (p, q))). by eapply Hin.
  - intros j p q Hj. destruct (iv_own _ _ _ V j p q Hj) as (pr & Hp & Ok & Lk).
    destruct (W4 (thread_at (p, q)) pr (Hin _ _ _ Hj) Hp) as (pr' & Hp' & Ep & H). exists pr'. split; [done|]. split.
    + destruct q; simpl in *; destruct H as [[E1 E2] | (Hk & E1 & E2)]; rewrite ?E1, ?E2; try done. by right.
    + destruct q; simpl in *; rewrite ?Ep; done.
  - intros j p q pr' Hj Hp' Hs. destruct (iv_own _ _ _ V j p q Hj) as (pr & Hp & _).
    apply (iv_sleep _ _ _ V j p q pr Hj Hp).
    destruct (W4 (thread_at (p, q)) pr (Hin _ _ _ Hj) Hp) as (pr1 & Hp1 & _ & H).
    assert (pr1 = pr') as -> by (simpl in Hp1; congruence).
    destruct q; simpl in *; try done. destruct H as [[<- _] | (_ & -> & _)]; done.
Qed.

(** ** The threads' operations keep it *)

Lemma sl_at_view t s : sl_at r (view t s) = sl_at r s.
Proof. by destruct r. Qed.

(** Moves that leave the tables as they are. *)
Lemma local_stay s s' l qs p q q' :
  sl_at r s' = sl_at r s -> k_ctable s' = k_ctable s -> k_ptable s' = k_ptable s ->
  (forall pr, k_ptable s !! p = Some pr -> proc_ok q pr -> lock_ok q l pr -> proc_ok q' pr /\ lock_ok q' l pr /\
     (sleeper q' pr = true -> sleeper q pr = true \/ sl_locked l = true)) ->
  (forall lk, lk ∈ held_at q' -> lk ∈ held_at q \/ lock_free lk (pool_at qs) = true) ->
  (owner q' = true -> owner q = true) -> (waker q = true -> waker q' = true) ->
  local_move s s' l qs p q q'.
Proof.
  intros E1 E2 E3 Hok Hh Ho Hw. split; rewrite ?E3; try done. intros pr Hp Ok Lk. exists pr. split; [done|]. auto.
Qed.

(** Moves that write the thread's process entry. *)
Lemma local_write s s' l qs p q q' f :
  sl_at r s' = sl_at r s -> k_ctable s' = k_ctable s -> k_ptable s' = alter f p (k_ptable s) ->
  (forall pr, proc_ok q pr -> lock_ok q l pr -> proc_ok q' (f pr) /\ lock_ok q' l (f pr) /\
     (sleeper q' (f pr) = true -> sleeper q pr = true \/ sl_locked l = true)) ->
  (forall lk, lk ∈ held_at q' -> lk ∈ held_at q \/ lock_free lk (pool_at qs) = true) ->
  (owner q' = true -> owner q = true) -> (waker q = true -> waker q' = true) ->
  local_move s s' l qs p q q'.
Proof.
  intros E1 E2 E3 Hok Hh Ho Hw. split; rewrite ?E3; try done.
  - apply length_alter.
  - intros p' N. by apply list_lookup_alter_ne.
  - intros pr Hp Ok Lk. exists (f pr). rewrite list_lookup_alter_eq, Hp. split; [done|]. auto.
Qed.

(** Thread [i] goes from [q] to some other point, keeping the invariant. *)
Definition goes (qs : list (nat * point)) (i p : nat) (s' : kst) (t' : thread) : Prop :=
  exists l' q', t' = thread_at (p, q') /\ inv s' l' (<[i := (p, q')]> qs).

Lemma goes_local s s' l qs i p q q' t' :
  inv s l qs -> qs !! i = Some (p, q) -> t' = thread_at (p, q') -> local_move s s' l qs p q q' ->
  goes qs i p s' t'.
Proof. intros V Hi -> Hm. exists l, q'. split; [done|]. by eapply inv_local. Qed.

Lemma go_acquire s l qs i p q q' lk s' t' :
  inv s l qs -> qs !! i = Some (p, q) ->
  code_at p q = Acquire lk (code_at p q') -> held_at q' = lk :: held_at q ->
  phase_at q' = phase_at q -> parked_at q' = false ->
  (forall pr, proc_ok q pr -> lock_ok q l pr -> proc_ok q' pr /\ lock_ok q' l pr /\ sleeper q' pr = false) ->
  (owner q' = true -> owner q = true) -> (waker q = true -> waker q' = true) ->
  advance (mkSys s (pool_at qs)) (thread_at (p, q)) = Some (s', t') -> goes qs i p s' t'.
Proof.
  intros V Hi Ec Eh Ep Ek Hok Ho Hw. unfold advance. simpl. rewrite Ec.
  destruct (lock_free lk (pool_at qs)) eqn:Hf; [|done]. intros [= <- <-].
  apply (goes_local s s l qs i p q q'); [done | done | by unfold thread_at; simpl; rewrite Ep, Ek, Eh |].
  apply local_stay; try done.
  - intros pr _ Ok Lk. destruct (Hok pr Ok Lk) as (? & ? & ->). done.
  - rewrite Eh. intros lk' [->|I]%elem_of_cons; auto.
Qed.

Lemma go_release s l qs i p q q' lk s' t' :
  inv s l qs -> qs !! i = Some (p, q) ->
  code_at p q = Release lk (code_at p q') -> held_at q' = rm lk (held_at q) ->
  (forall lk', lk' ∈ held_at q' -> lk' ∈ held_at q) ->
  phase_at q' = phase_at q -> parked_at q' = false ->
  (forall pr, proc_ok q pr -> lock_ok q l pr -> proc_ok q' pr /\ lock_ok q' l pr /\
     (sleeper q' pr = true -> sl_locked l = true)) ->
  (owner q' = true -> owner q = true) -> (waker q = true -> waker q' = true) ->
  advance (mkSys s (pool_at qs)) (thread_at (p, q)) = Some (s', t') -> goes qs i p s' t'.
Proof.
  intros V Hi Ec Eh Hsub Ep Ek Hok Ho Hw. unfold advance. simpl. rewrite Ec.
  destruct (bool_decide (lk ∈ held_at q)); [|done]. intros [= <- <-].
  apply (goes_local s s l qs i p q q'); [done | done | by unfold thread_at; simpl; rewrite Ep, Ek, Eh |].
  apply local_stay; try done.
  - intros pr _ Ok Lk. destruct (Hok pr Ok Lk) as (? & ? & ?). auto.
  - intros lk' I. left. by apply Hsub.
Qed.

(** A piece of code that returns: where the thread is then. *)
Lemma go_run {B} s l qs i p q q' (m : K B) k b s1 s' t' :
  inv s l qs -> qs !! i = Some (p, q) ->
  code_at p q = Run m k -> parked_at q = false -> m (view (thread_at (p, q)) s) = Ret b s1 ->
  k b = code_at p q' -> held_at q' = held_at q -> phase_at q' = phase_at q -> parked_at q' = false ->
  advance (mkSys s (pool_at qs)) (thread_at (p, q)) = Some (s', t') -> s' = s1 /\ t' = thread_at (p, q').
Proof.
  intros V Hi Ec Ek Em Eb Eh Ep Ek'. unfold advance. cbn [t_code thread_at fst snd t_parked y_k y_pool].
  rewrite Ec, Ek. rewrite Em. intros [= <- <-]. split; [done|]. unfold thread_at. simpl.
  by rewrite Eb, Eh, Ep, Ek'.
Qed.

Lemma rm_lock h : rm L (LPtable :: L :: h) = LPtable :: h.
Proof. unfold L. simpl. rewrite (decide_True (P := sl_lockid r = sl_lockid r)) by done. by destruct r. Qed.

Lemma rm_lock1 h : rm L (L :: h) = h.
Proof. simpl. by rewrite decide_True. Qed.

Ltac point_tac := first [done | (simpl held_at; rewrite ?rm_lock, ?rm_lock1; done) | solve [simpl; set_solver] | solve [intros pr; simpl; intuition]].

(** [acquire] and [release]. *)
Lemma go_locks s l qs i p q s' t' :
  inv s l qs -> qs !! i = Some (p, q) ->
  match q with
  | PEnter _ | PLockPt _ | PUnlock _ | PUnlockPt _ | PLeave | PREnter | PRLockPt | PRUnlockPt | PRLeave => True
  | _ => False
  end ->
  advance (mkSys s (pool_at qs)) (thread_at (p, q)) = Some (s', t') -> goes qs i p s' t'.
Proof.
  intros V Hi Hq. destruct q as [|n|n|n|n|n|n|n|n|n|n|n|n| | |pid| | | | | | | | | |]; try done.
  - apply (go_acquire s l qs i p (PEnter n) (PTest n) L); point_tac.
  - apply (go_acquire s l qs i p (PLockPt n) (PUnlock n) LPtable); point_tac.
  - apply (go_release s l qs i p (PUnlock n) (PChan n) L); point_tac.
  - apply (go_release s l qs i p (PUnlockPt n) (PEnter n) LPtable); point_tac.
  - apply (go_release s l qs i p PLeave PGot L); point_tac.
  - apply (go_acquire s l qs i p PREnter PRFree L); point_tac.
  - apply (go_acquire s l qs i p PRLockPt PRWake LPtable); point_tac.
  - apply (go_release s l qs i p PRUnlockPt PRLeave LPtable); point_tac.
  - apply (go_release s l qs i p PRLeave PRGone L); point_tac.
Qed.

(** Code between the lock operations that writes nothing. *)
Lemma go_reads s l qs i p q s' t' :
  inv s l qs -> qs !! i = Some (p, q) ->
  match q with PTest _ | PSleep _ | PBack _ | PCur | PPid => True | _ => False end ->
  advance (mkSys s (pool_at qs)) (thread_at (p, q)) = Some (s', t') -> goes qs i p s' t'.
Proof.
  intros V Hi Hq Ha. destruct (iv_own _ _ _ V i p q Hi) as (pr & Hp & Ok & Lk).
  assert (sl_at r (view (thread_at (p, q)) s) = Some l) as Hl by (rewrite sl_at_view; apply V).
  assert (forall q', s' = view (thread_at (p, q)) s /\ t' = thread_at (p, q') ->
    proc_ok q' pr -> lock_ok q' l pr -> sleeper q' pr = false -> held_at q' = held_at q ->
    owner q' = false -> waker q = false -> goes qs i p s' t') as Hgo.
  { intros q' [-> ->] Ok' Lk' Sl' Hh Ho Hw. apply (goes_local s _ l qs i p q q'); try done.
    apply local_stay; try done; [| rewrite Hh; auto | by rewrite Ho | by rewrite Hw].
    intros pr' Hp' _ _. assert (pr' = pr) as -> by congruence. by rewrite Sl'. }
  destruct q as [|n|n|n|n|n|n|n|n|n|n|n|n| | |pid| | | | | | | | | |]; try done.
  - destruct n as [|n]; [done|]. destruct (test_points n) as (k & Ek & Hk).
    destruct (sl_locked l) eqn:El; [apply (Hgo (PSleep n)) | apply (Hgo PCur)]; try done;
      (eapply go_run; [exact V | exact Hi | exact Ek | done | by apply get_sl_eq | | done | done | done | exact Ha]);
      rewrite Hk, El; done.
  - destruct (sleep_points n) as (k & Ek & Hk). apply (Hgo (PLockPt n)); try done.
    eapply go_run; [exact V | exact Hi | exact Ek | done | reflexivity | apply Hk | done | done | done | exact Ha].
  - apply (Hgo (PClear n)); try done.
    eapply go_run; [exact V | exact Hi | reflexivity | done | reflexivity | | done | done | done | exact Ha]. done.
  - apply (Hgo PPid); try done.
    eapply go_run; [exact V | exact Hi | reflexivity | done | reflexivity | | done | done | done | exact Ha]. done.
  - apply (Hgo (PTake (p_pid pr))); try done.
    eapply go_run; [exact V | exact Hi | reflexivity | done | apply get_proc_eq; exact Hp | | done | done | done | exact Ha]. done.
Qed.

(** Writes of the thread's own process entry. *)
Lemma go_proc s l qs i p q s' t' :
  inv s l qs -> qs !! i = Some (p, q) ->
  match q with PChan _ | PState _ | PClear _ => True | _ => False end ->
  advance (mkSys s (pool_at qs)) (thread_at (p, q)) = Some (s', t') -> goes qs i p s' t'.
Proof.
  intros V Hi Hq Ha. destruct (iv_own _ _ _ V i p q Hi) as (pr & Hp & Ok & Lk).
  assert (forall q' f, s' = set_k_ptable (alter f p (k_ptable s)) (view (thread_at (p, q)) s) /\ t' = thread_at (p, q') ->
    (forall pr, proc_ok q pr -> lock_ok q l pr -> proc_ok q' (f pr) /\ lock_ok q' l (f pr) /\
      (sleeper q' (f pr) = true -> sleeper q pr = true \/ sl_locked l = true)) ->
    held_at q' = held_at q -> owner q' = false -> waker q = false -> goes qs i p s' t') as Hgo.
  { intros q' f [-> ->] Hok Hh Ho Hw. apply (goes_local s _ l qs i p q q'); try done.
    apply local_write with f; try done; [rewrite Hh; auto | by rewrite Ho | by rewrite Hw]. }
  destruct q as [|n|n|n|n|n|n|n|n|n|n|n|n| | |pid| | | | | | | | | |]; try done.
  - apply (Hgo (PState n) (set_p_chan (Some ch))); [|point_tac..].
    eapply go_run; [exact V | exact Hi | reflexivity | done | exact (upd_proc_eq p _ pr (view (thread_at (p, _)) s) Hp) | | done | done | done | exact Ha]. done.
  - apply (Hgo (PSched n) (set_p_state SLEEPING)); [|point_tac..].
    eapply go_run; [exact V | exact Hi | reflexivity | done | exact (upd_proc_eq p _ pr (view (thread_at (p, _)) s) Hp) | | done | done | done | exact Ha]. done.
  - apply (Hgo (PUnlockPt n) (set_p_chan None)); [|point_tac..].
    eapply go_run; [exact V | exact Hi | reflexivity | done | exact (upd_proc_eq p _ pr (view (thread_at (p, _)) s) Hp) | | done | done | done | exact Ha]. done.
Qed.

(** Out to the scheduler and back. *)
Lemma go_sched s l qs i p n q s' t' :
  inv s l qs -> qs !! i = Some (p, q) -> q = PSched n \/ q = PParked n ->
  advance (mkSys s (pool_at qs)) (thread_at (p, q)) = Some (s', t') -> goes qs i p s' t'.
Proof.
  intros V Hi Hq. destruct (iv_own _ _ _ V i p q Hi) as (pr & Hp & Ok & Lk).
  destruct Hq as [-> | ->]; unfold advance; simpl.
  - rewrite (sched_eq (view (thread_at (p, PSched n)) s) p pr);
      [|done | done | done | destruct Ok as [-> _]; done]. intros [= <- <-].
    apply (goes_local s _ l qs i p (PSched n) (PParked n)); try done.
    apply local_stay; try done; [|set_solver]. intros pr' _ [E1 E2] _. simpl. auto.
  - rewrite Hp. simpl. destruct (p_state pr ==? RUNNABLE); [|done].
    destruct (lock_free LPtable (pool_at qs)) eqn:Hf; [|done]. intros [= <- <-].
    apply (goes_local s _ l qs i p (PParked n) (PBack n)); try done.
    apply local_write with (set_p_state RUNNING); try done. simpl. set_solver.
Qed.

(** Writes of the sleep lock, and the wakeup. *)
Lemma go_shared s l qs i p q s' t' :
  inv s l qs -> qs !! i = Some (p, q) ->
  match q with PTake _ | PRFree | PRWake => True | _ => False end ->
  advance (mkSys s (pool_at qs)) (thread_at (p, q)) = Some (s', t') -> goes qs i p s' t'.
Proof.
  intros V Hi Hq Ha. destruct (iv_own _ _ _ V i p q Hi) as (pr & Hp & Ok & Lk).
  assert (sl_at r (view (thread_at (p, q)) s) = Some l) as Hl by (rewrite sl_at_view; apply V).
  destruct q as [|n|n|n|n|n|n|n|n|n|n|n|n| | |pid| | | | | | | | | |]; try done.
  - destruct (go_run s l qs i p _ PLeave _ _ _ _ s' t' V Hi eq_refl eq_refl (set_sl_eq _ _ _ _ Hl) eq_refl eq_refl eq_refl eq_refl Ha) as [-> ->].
    exists (mkSleeplock true pid), PLeave. split; [done|].
    eapply (inv_write s _ l _ qs i p (PTake pid)); try done; [by eapply sl_at_put | by rewrite put_sl_ctable | by rewrite put_sl_ptable | simpl; set_solver | | | by left].
    + intros pr' R [_ ->]. done.
    + intros j p1 q1 Hj N. destruct (owner q1) eqn:O; [|done]. destruct (iv_own _ _ _ V j p1 q1 Hj) as (pr1 & _ & _ & L1).
      destruct Lk as [Lk _]. destruct q1; simpl in *; try done; by subst l.
  - destruct (go_run s l qs i p _ PRLockPt _ _ _ _ s' t' V Hi eq_refl eq_refl (set_sl_eq _ _ _ _ Hl) eq_refl eq_refl eq_refl eq_refl Ha) as [-> ->].
    exists (mkSleeplock false 0), PRLockPt. split; [done|].
    eapply (inv_write s _ l _ qs i p PRFree); try done; [by eapply sl_at_put | by rewrite put_sl_ctable | by rewrite put_sl_ptable | simpl; set_solver | | by right].
    intros j p1 q1 Hj N. destruct (owner q1) eqn:O; [|done]. exfalso. by apply N, (iv_owner _ _ _ V j i p1 q1 p PRFree).
  - destruct (go_run s l qs i p _ PRUnlockPt _ _ _ _ s' t' V Hi eq_refl eq_refl (wakeup1_eq (Some ch) (view _ s) (iv_tab _ _ _ V)) eq_refl eq_refl eq_refl eq_refl Ha) as [-> ->].
    exists l, PRUnlockPt. split; [done|]. by eapply inv_wake.
Qed.

Lemma go_inv s l qs i p q s' t' :
  inv s l qs -> qs !! i = Some (p, q) ->
  advance (mkSys s (pool_at qs)) (thread_at (p, q)) = Some (s', t') -> goes qs i p s' t'.
Proof.
  intros V Hi Ha.
  destruct q as [|n|n|n|n|n|n|n|n|n|n|n|n| | |pid| | | | | | | | | |];
    first [done | by eapply go_locks | by eapply go_reads | by eapply go_proc | by eapply go_shared | idtac];
    eapply go_sched; eauto.
Qed.

(** Calls and returns. *)
Lemma client_inv s l qs i p q n t' :
  inv s l qs -> qs !! i = Some (p, q) -> client n (thread_at (p, q)) = Some t' -> goes qs i p s t'.
Proof.
  intros V Hi Hc. destruct q as [|m|m|m|m|m|m|m|m|m|m|m|m| | |pid| | | | | | | | | |]; try done.
  - injection Hc as <-. apply (goes_local s s l qs i p PIdle (PEnter n)); [done | done | reflexivity |]. apply local_stay; point_tac.
  - by destruct m.
  - injection Hc as <-. apply (goes_local s s l qs i p PGot PHold); [done | done | reflexivity |]. apply local_stay; point_tac.
  - injection Hc as <-. apply (goes_local s s l qs i p PHold PREnter); [done | done | reflexivity |]. apply local_stay; point_tac.
  - injection Hc as <-. apply (goes_local s s l qs i p PRGone PIdle); [done | done | reflexivity |]. apply local_stay; point_tac.
Qed.

Definition sys_inv (y : sys) : Prop := exists l qs, y_pool y = pool_at qs /\ inv (y_k y) l qs.

Lemma initial_inv y : initial y -> sys_inv y.
Proof.
  intros [T [pid Hl] N Ht]. exists (mkSleeplock false pid), ((fun t => (t_proc t, PIdle)) <$> y_pool y).
  assert (forall i p q, ((fun t => (t_proc t, PIdle)) <$> y_pool y) !! i = Some (p, q) ->
    q = PIdle /\ exists t, t ∈ y_pool y /\ t_proc t = p) as Hq.
  { intros i p q (t & [= -> ->] & Hi)%list_lookup_fmap_Some. split; [done|]. exists t. split; [|done].
    by eapply list_elem_of_lookup_2. }
  split.
  - unfold pool_at. rewrite <- list_fmap_compose. symmetry. rewrite <- (list_fmap_id (y_pool y)) at 2.
    apply list_fmap_ext. intros i t Hi. symmetry. apply (Ht t). by eapply list_elem_of_lookup_2.
  - split; [done | done | by rewrite <- list_fmap_compose | | | | |].
    + intros i p q (_ & t & I & <-)%Hq. by apply Ht.
    + intros i p q (-> & t & I & <-)%Hq. destruct (Ht t I) as (_ & _ & (pr & Hp & E)%fmap_Some). exists pr. done.
    + intros i j p q p' q' lk (-> & _)%Hq _ I. by apply elem_of_nil in I.
    + intros i j p q p' q' (-> & _)%Hq. done.
    + intros i p q pr (-> & _)%Hq. done.
Qed.

Lemma system_inv y : reachable y -> sys_inv y.
Proof.
  induction 1 as [y H | y y' _ (l & qs & Ep & V) Hs]; [by apply initial_inv|].
  destruct y as [s pool]. simpl in *. subst pool.
    assert (forall i t, pool_at qs !! i = Some t -> exists p q, qs !! i = Some (p, q) /\ t = thread_at (p, q)) as Hat.
    { intros i t Ht. unfold pool_at in Ht. apply list_lookup_fmap_Some in Ht as ([p q] & -> & Hi). eauto. }
    assert (forall i p s' t', goes qs i p s' t' -> sys_inv (mkSys s' (<[i := t']> (pool_at qs)))) as Hgo.
    { intros i p s' t' (l' & q' & -> & V'). exists l', (<[i := (p, q')]> qs). split; [|done].
      unfold pool_at. by rewrite list_fmap_insert. }
    inversion Hs as [i t s' t' Ht Ha | i n t t' Ht Hc | s' He]; subst; simpl in *.
    + destruct (Hat i t Ht) as (p & q & Hi & ->). eapply Hgo, go_inv; eauto.
    + destruct (Hat i t Ht) as (p & q & Hi & ->). eapply Hgo, client_inv; eauto.
    + exists l, qs. split; [done|]. by eapply inv_elsewhere.
Qed.

Lemma lock_not_ptable : LPtable <> L.
Proof. intros E. pose proof lock_other as H. rewrite <- E in H. by rewrite bool_decide_eq_true_2 in H. Qed.

(** The panics of [acquire], [release], [sleep] and [sched] are out of reach, and so is
    every fault. *)
Lemma never_crashed s l qs i p q :
  inv s l qs -> qs !! i = Some (p, q) -> crashed (mkSys s (pool_at qs)) (thread_at (p, q)) = false.
Proof.
  intros V Hi. destruct (iv_own _ _ _ V i p q Hi) as (pr & Hp & Ok & Lk). pose proof lock_not_ptable as N.
  assert (sl_at r (view (thread_at (p, q)) s) = Some l) as Hl by (rewrite sl_at_view; apply V).
  unfold crashed.
  destruct q as [|n|n|n|n|n|n|n|n|n|n|n|n| | |pid| | | | | | | | | |]; simpl;
    rewrite ?bool_decide_eq_true_2, ?bool_decide_eq_false_2 by set_solver; try done;
    try (by erewrite upd_proc_eq by exact Hp); try (by rewrite (set_sl_eq _ _ _ _ Hl)).
  - destruct n as [|n]; [done|]. destruct (test_points n) as (k & -> & _). by rewrite (get_sl_eq _ _ _ Hl).
  - rewrite (sched_eq _ p pr); [done.. | destruct Ok as [-> _]; done].
  - by rewrite (get_proc_eq p pr).
  - by rewrite (wakeup1_eq _ (view _ s) (iv_tab _ _ _ V)).
Qed.

(** The code of a thread in [releasesleep] that has freed the lock and is about to wake
    the lock's sleepers. *)
Definition about_to_wake (t : thread) : Prop :=
  t_phase t = Releasing /\ L ∈ t_held t /\
  exists k, t_code t = Run (wakeup1 (Some ch)) k \/ t_code t = Acquire LPtable (Run (wakeup1 (Some ch)) k).

Lemma pool_point qs i t : pool_at qs !! i = Some t -> exists p q, qs !! i = Some (p, q) /\ t = thread_at (p, q).
Proof. intros ([p q] & -> & Hi)%list_lookup_fmap_Some. eauto. Qed.

(** C40: sleep locks exclude.  Any number of processes, on any CPUs, call [acquiresleep]
    and [releasesleep] on one lock over and over, their operations interleaved in any
    order, with any number of sleeps in a call and with wakeups by others.  At no time
    do two of them have the lock (have returned from [acquiresleep] and not called
    [releasesleep]); while one has it, the lock says so with the pid of that process;
    and none of them ever panics or faults. *)
Theorem sleeplock_excludes y :
  reachable y ->
  (forall i j t t', y_pool y !! i = Some t -> y_pool y !! j = Some t' ->
     t_phase t = Holding -> t_phase t' = Holding -> i = j) /\
  (forall i t, y_pool y !! i = Some t -> t_phase t = Holding ->
     exists pr, k_ptable (y_k y) !! t_proc t = Some pr /\ sl_at r (y_k y) = Some (mkSleeplock true (p_pid pr))) /\
  (forall i t, y_pool y !! i = Some t -> crashed y t = false).
Proof.
  intros (l & qs & Ep & V)%system_inv. destruct y as [s pool]. simpl in *. subst pool. split_and!.
  - intros i j t t' (p & q & Hi & ->)%pool_point (p' & q' & Hj & ->)%pool_point Ht Ht'.
    destruct q, q'; try done. by eapply iv_owner.
  - intros i t (p & q & Hi & ->)%pool_point Ht. destruct (iv_own _ _ _ V i p q Hi) as (pr & Hp & _ & Lk).
    destruct q; try done. exists pr. split; [done|]. rewrite (iv_lock _ _ _ V). by f_equal.
  - intros i t (p & q & Hi & ->)%pool_point. by eapply never_crashed.
Qed.

(** C16: no wakeup is lost.  At every moment of such a run, if one of the processes
    sleeps it sleeps on the lock's channel, and either the lock is taken, so that a
    [releasesleep] is still to come, or another process is in [releasesleep], has the
    lock's spinlock, and has the [wakeup1] of that channel before it.  So when the lock
    is free and nobody is inside [releasesleep], nobody sleeps. *)
Theorem no_lost_wakeup y :
  reachable y -> forall i t pr,
  y_pool y !! i = Some t -> k_ptable (y_k y) !! t_proc t = Some pr -> p_state pr = SLEEPING ->
  p_chan pr = Some ch /\
  ((exists l, sl_at r (y_k y) = Some l /\ sl_locked l = true) \/
   (exists j t', y_pool y !! j = Some t' /\ about_to_wake t')).
Proof.
  intros (l & qs & Ep & V)%system_inv i t pr. destruct y as [s pool]. simpl in *. subst pool.
  intros (p & q & Hi & ->)%pool_point Hp Hs. destruct (iv_own _ _ _ V i p q Hi) as (pr' & Hp' & Ok & _).
  simpl in Hp. assert (pr' = pr) as -> by congruence.
  assert (p_chan pr = Some ch /\ sleeper q pr = true) as [Hc Sl].
  { destruct q; simpl in *; rewrite ?Hs in *; try done; intuition congruence. }
  split; [done|]. destruct (iv_sleep _ _ _ V i p q pr Hi Hp Sl) as [Hl | (j & p' & q' & Hj & Hw)].
  - left. exists l. split; [apply V | done].
  - right. exists j, (thread_at (p', q')). split; [unfold pool_at; by rewrite list_lookup_fmap, Hj|].
    destruct q'; try done; (split; [done|]); (split; [simpl; set_solver|]); eexists; [right | left]; reflexivity.
Qed.

(** ** Running a schedule *)

(** [inl i]: thread [i] makes an operation; [inr i]: it makes its next call or return. *)
Definition act (y : sys) (a : nat + nat) : option sys :=
  match a with
  | inl i => t ← y_pool y !! i; x ← advance y t; Some (mkSys x.1 (<[i := x.2]> (y_pool y)))
  | inr i => t ← y_pool y !! i; t' ← client 3 t; Some (mkSys (y_k y) (<[i := t']> (y_pool y)))
  end.

Fixpoint acts (y : sys) (l : list (nat + nat)) : option sys :=
  match l with [] => Some y | a :: l' => y' ← act y a; acts y' l' end.

Lemma acts_reachable l y y' : reachable y -> acts y l = Some y' -> reachable y'.
Proof.
  revert y. induction l as [|a l IH]; intros y Hy; simpl; [by intros [= <-]|].
  intros (y1 & Ha & Hl)%bind_Some. apply (IH y1); [|done]. eapply reach_more; [done|].
  destruct a as [i|i]; simpl in Ha; apply bind_Some in Ha as (t & Ht & Ha).
  - apply bind_Some in Ha as ([s' t'] & Ha & [= <-]). by eapply step_go.
  - apply bind_Some in Ha as (t' & Ha & [= <-]). by eapply step_client.
Qed.
End sleeplock.

(** Two processes and a buffer: the first takes the buffer's lock, the second falls
    asleep on it. *)
Definition two_state : kst :=
  set_k_ptable (boot_proc :: set_p_pid 2 boot_proc :: replicate 510 proc0) one_buf_state.
Definition two_users : sys :=
  mkSys two_state [mkThread 0 Idle [] false (Done tt); mkThread 1 Idle [] false (Done tt)].
Definition contended : list (nat + nat) :=
  [inr 0; inl 0; inl 0; inl 0; inl 0; inl 0; inl 0; inr 0; inr 1; inl 1; inl 1; inl 1; inl 1; inl 1; inl 1; inl 1; inl 1]%nat.

Lemma two_users_initial : initial (SlBuf 0) two_users.
Proof.
  split.
  - split; [done | done | apply boot_tables_wf].
  - by exists 0.
  - apply (bool_decide_unpack _). by vm_compute.
  - intros t Ht. assert (reachable_proc (k_ctable two_state) 0 /\ reachable_proc (k_ctable two_state) 1) as [R0 R1]
      by (split; (left; exists 0%nat; split; [done | simpl; lia])).
    apply elem_of_cons in Ht as [->|Ht]; [done|]. by apply list_elem_of_singleton in Ht as ->.
Qed.

(** The state a schedule of the two leads to. *)
Definition after (l : list (nat + nat)) : sys := default two_users (acts (SlBuf 0) two_users l).

Lemma after_reachable l : reachable (SlBuf 0) (after l).
Proof.
  unfold after. destruct (acts (SlBuf 0) two_users l) as [y|] eqn:E; simpl; [|by apply reach_initial, two_users_initial].
  eapply acts_reachable; [apply reach_initial, two_users_initial | exact E].
Qed.

Lemma sleeplock_excludes_witness :
  t_parked <$> y_pool (after contended) !! 1%nat = Some true /\
  exists pr, k_ptable (y_k (after contended)) !! 0%nat = Some pr /\
    sl_at (SlBuf 0) (y_k (after contended)) = Some (mkSleeplock true (p_pid pr)).
Proof.
  split; [vm_compute; reflexivity|].
  destruct (y_pool (after contended) !! 0%nat) as [t|] eqn:E; [|vm_compute in E; discriminate].
  assert (t_phase t = Holding /\ t_proc t = 0%nat) as [Hp Hn].
  { assert ((fun t => (t_phase t, t_proc t)) <$> y_pool (after contended) !! 0%nat = Some (Holding, 0%nat)) as H
      by (vm_compute; reflexivity). rewrite E in H. injection H as H1 H2. exact (conj H1 H2). }
  pose proof (proj1 (proj2 (sleeplock_excludes (SlBuf 0) (after contended) (after_reachable _))) 0%nat t E Hp) as H.
  rewrite Hn in H. exact H.
Defined.

(** The first then frees the lock: it is about to wake the second. *)
Definition freeing : list (nat + nat) := contended ++ [inr 0; inl 0; inl 0]%nat.

Lemma freeing_sleeper t :
  y_pool (after freeing) !! 1%nat = Some t ->
  exists pr, k_ptable (y_k (after freeing)) !! t_proc t = Some pr /\ p_state pr = SLEEPING.
Proof.
  intros E. assert ((t ← y_pool (after freeing) !! 1%nat; p_state <$> k_ptable (y_k (after freeing)) !! t_proc t) = Some SLEEPING) as H
    by (vm_compute; reflexivity).
  rewrite E in H. apply bind_Some in H as (t' & Et & H). injection Et as <-.
  apply fmap_Some in H as (pr & Hp & Es). exists pr. exact (conj Hp (eq_sym Es)).
Qed.

Lemma no_lost_wakeup_witness :
  sl_at (SlBuf 0) (y_k (after freeing)) = Some (mkSleeplock false 0) /\
  exists j t', y_pool (after freeing) !! j = Some t' /\ about_to_wake (SlBuf 0) t'.
Proof.
  assert (sl_at (SlBuf 0) (y_k (after freeing)) = Some (mkSleeplock false 0)) as Hl by (vm_compute; reflexivity).
  split; [exact Hl|].
  destruct (y_pool (after freeing) !! 1%nat) as [t|] eqn:E; [|vm_compute in E; discriminate].
  destruct (freeing_sleeper t E) as (pr & Ep & Es).
  destruct (no_lost_wakeup (SlBuf 0) (after freeing) (after_reachable _) 1%nat t pr E Ep Es) as [_ [(l & Hl' & Hk) | H]];
    [|exact H].
  rewrite Hl in Hl'. injection Hl' as <-. discriminate Hk.
Defined.
