(* ===== verification/Kalloc.v ===== *)
(** * The physical page allocator

    kalloc.c, with [ckill] of container.c, which it calls.  The free list is the
    linked list the code keeps inside the free pages; [is_freelist] relates it to
    the list of page addresses, and the theorems describe [kalloc] and [kfree] on
    that list, with the memory accounting of the current container. *)

From S2P Require Import Prelude Monad CString KState Sched.

Local Open Scope kernel_scope.

Definition ckill (c : nat) : K Z :=
  acquire LCtable ;;
  upd_cont c (set_c_state CSTOPPING) ;;
  release LCtable ;;
  ret 1.

Section kalloc.
Context `{L : Linker}.

Definition kfree (v : Z) : K unit :=
  u <- gets (fun s => k_userinited s) ;;
  c <- (if (u : bool) then (c <- mycont ;; ret (Some c)) else ret None) ;;
  if negb (v mod PGSIZE =? 0) || (v <? sym_end) || (PHYSTOP <=? V2P v) then panic "kfree" else
  upd_mem (fun m => KString.memset m v 1 PGSIZE) ;;
  l <- gets (fun s => k_uselock s) ;;
  when l (acquire LKmem) ;;
  fl <- gets (fun s => k_freelist s) ;;
  upd_mem (fun m => st32 m v fl) ;;
  modify (set_k_freelist v) ;;
  match c with
  | Some c =>
      co <- get_cont c ;;
      when (0 <? c_upg co) (upd_cont c (fun co => set_c_upg (c_upg co - 1) co))
  | None => ret tt
  end ;;
  when l (release LKmem).

Definition kalloc : K Z :=
  u <- gets (fun s => k_userinited s) ;;
  c <- (if (u : bool) then (c <- mycont ;; ret (Some c)) else ret None) ;;
  over <- match c with
          | Some c => co <- get_cont c ;;
                      ret (c_msz co <? u32 (c_upg co * PGSIZE + PGSIZE))
          | None => ret false
          end ;;
  if (over : bool) then
    c <- mycont ;;
    co <- get_cont c ;;
    cprintf "Killing container %d for trying to allocate %d * %d + %d memory."
      [c_cid co; c_upg co; PGSIZE; PGSIZE] ;;
    c <- mycont ;;
    ckill c ;;
    ret 0
  else
    l <- gets (fun s => k_uselock s) ;;
    when l (acquire LKmem) ;;
    r <- gets (fun s => k_freelist s) ;;
    when (negb (r =? 0))
      (next <- gets (fun s => ld32 (k_mem s) r) ;;
       modify (set_k_freelist next) ;;
       match c with
       | Some c => upd_cont c (fun co => set_c_upg (i32 (c_upg co + 1)) co)
       | None => ret tt
       end) ;;
    when l (release LKmem) ;;
    ret r.

(** [for(; p + PGSIZE <= vend; p += PGSIZE) kfree(p);] the bound is the number of
    pages below [vend] and one for the exit test. *)
Definition freerange (vstart vend : Z) : K unit :=
  loop (S (Z.to_nat ((vend - PGROUNDUP vstart) / PGSIZE))) (fun p =>
    if u32 (p + PGSIZE) <=? vend then kfree p ;; ret (inl (u32 (p + PGSIZE)))
    else ret (inr tt)) (PGROUNDUP vstart).

Definition kinit1 (vstart vend : Z) : K unit :=
  modify (set_k_uselock false) ;;
  freerange vstart vend.

Definition kinit2 (vstart vend : Z) : K unit :=
  freerange vstart vend ;;
  modify (set_k_uselock true).

(** ** The free list *)

Fixpoint is_freelist (m : mem) (head : Z) (pages : list Z) : Prop :=
  match pages with
  | [] => head = 0
  | p :: ps => head = p /\ p <> 0 /\ is_freelist m (ld32 m p) ps
  end.

(** A page [kfree] accepts. *)
Definition page_ok (p : Z) : Prop :=
  p mod PGSIZE = 0 /\ sym_end <= p /\ KERNBASE <= p < KERNBASE + PHYSTOP.

Record kmem_inv (s : kst) (pages : list Z) : Prop := {
  km_wf : mem_wf (k_mem s);
  km_list : is_freelist (k_mem s) (k_freelist s) pages;
  km_nodup : NoDup pages;
  km_pages : Forall page_ok pages
}.

(** Two memories agreeing on the pages of a free list have the same list. *)
Lemma is_freelist_ext m m' head pages :
  (forall p x, p ∈ pages -> p <= x < p + 4 -> m x = m' x) ->
  is_freelist m head pages -> is_freelist m' head pages.
Proof.
  revert head. induction pages as [|p ps IH]; intros head Hext; [done|].
  intros (-> & Hnz & Hl). split_and!; [done | done|].
  rewrite <- (ld32_ext m) by (intros; apply (Hext p); [left; done | done]).
  apply IH; [|done]. intros q x Hq. apply Hext. by right.
Qed.

Lemma is_freelist_range m head pages :
  Forall page_ok pages -> is_freelist m head pages -> 0 <= head < 4294967296.
Proof.
  destruct pages as [|p ps]; simpl; [intros _ ->; lia|].
  intros (_ & _ & Hp)%Forall_inv (-> & _). klia.
Qed.

(** The state after [kfree(v)] has put the page on the list. *)
Definition freed (v : Z) (s : kst) : kst :=
  set_k_freelist v
    (set_k_mem (st32 (KString.memset (k_mem s) v 1 PGSIZE) v (k_freelist s)) s).

(** Distinct pages do not overlap. *)
Lemma page_disjoint p q x :
  page_ok p -> page_ok q -> p <> q -> q <= x < q + PGSIZE -> x < p \/ p + PGSIZE <= x.
Proof. intros (Hp & _) (Hq & _) Hne Hx. unfold PGSIZE in *. zlia. Qed.

Lemma memset_page_frame m v x :
  x < v \/ v + PGSIZE <= x ->
  forall fl, st32 (KString.memset m v 1 PGSIZE) v fl x = m x.
Proof.
  intros Hx fl. rewrite st32_frame by klia. rewrite memset_spec by klia.
  destruct (in_range v PGSIZE x) eqn:E; [apply in_range_true in E; lia | done].
Qed.

Lemma memset_wf m d c n : mem_wf m -> 0 <= n -> mem_wf (KString.memset m d c n).
Proof.
  intros Hwf Hn x. rewrite memset_spec by done. destruct (in_range d n x); auto with cint.
Qed.

Lemma freed_inv v s pages :
  kmem_inv s pages -> page_ok v -> v ∉ pages -> kmem_inv (freed v s) (v :: pages).
Proof.
  intros [Hwf Hl Hnd Hpg] Hv Hnin. split; simpl.
  - apply st32_wf, memset_wf; [done | klia].
  - split_and!; [done | destruct Hv as (_ & _ & ?); klia |].
    rewrite ld32_st32, u32_small by (by eapply is_freelist_range).
    eapply is_freelist_ext; [|done]. intros p x Hp Hx. symmetry. apply memset_page_frame.
    eapply (page_disjoint v p); [done | | set_solver | klia].
    by eapply Forall_forall in Hpg.
  - by constructor.
  - by constructor.
Qed.

(** ** Accounting *)

(** The container [kalloc]/[kfree] charge: that of the current process, once
    [userinited] is set. *)
Definition cur_cont (s : kst) : option nat :=
  if k_userinited s then p ← k_cur s; pr ← k_ptable s !! p; p_cont pr else None.

Definition charge (f : cont -> cont) (s : kst) : kst :=
  match cur_cont s with
  | Some c => set_k_ctable (alter f c (k_ctable s)) s
  | None => s
  end.

(** After [userinited] is set, the allocator runs on behalf of a process. *)
Definition has_cont (s : kst) : Prop :=
  k_userinited s = true ->
  exists c co, cur_cont s = Some c /\ k_ctable s !! c = Some co.

Definition dec_upg (co : cont) : cont :=
  if 0 <? c_upg co then set_c_upg (c_upg co - 1) co else co.
Definition inc_upg (co : cont) : cont := set_c_upg (i32 (c_upg co + 1)) co.

(** [(c->upg * PGSIZE + PGSIZE) > c->msz] for the current container. *)
Definition over_limit (s : kst) : bool :=
  match cur_cont s ≫= (fun c => k_ctable s !! c) with
  | Some co => c_msz co <? u32 (c_upg co * PGSIZE + PGSIZE)
  | None => false
  end.

Lemma mycont_sel s :
  has_cont s ->
  (if k_userinited s then (c <- mycont ;; ret (Some c)) else ret None) s = Ret (cur_cont s) s.
Proof.
  unfold has_cont, cur_cont. destruct (k_userinited s); [|done].
  intros (c & co & Hc & _); [done|]. rewrite Hc.
  apply bind_Some in Hc as (p & Hp & Hc). apply bind_Some in Hc as (pr & Hpr & Hc).
  by rewrite (bind_Ret _ _ _ _ _ (mycont_eq _ _ _ _ Hp Hpr Hc)).
Qed.

Lemma cur_cont_lookup s c : has_cont s -> cur_cont s = Some c -> is_Some (k_ctable s !! c).
Proof.
  intros H Hc. destruct (k_userinited s) eqn:E.
  - destruct (H E) as (c' & co & Hc' & Hco). assert (c' = c) as -> by congruence. eauto.
  - unfold cur_cont in Hc. by rewrite E in Hc.
Qed.

(** A critical section under [if(kmem.use_lock)]. *)
Lemma when_acquire l lk s :
  lk ∉ k_held s ->
  when l (acquire lk) s = Ret tt (if l then set_k_held (lk :: k_held s) s else s).
Proof. intros H. destruct l; simpl; [by apply acquire_eq | done]. Qed.

Lemma when_release (l : bool) lk h s :
  k_held s = (if l then lk :: h else h) ->
  when l (release lk) s = Ret tt (set_k_held h s).
Proof.
  intros H. destruct l; simpl; [by apply release_eq|]. unfold ret. by rewrite <- H.
Qed.

Lemma alter_self {A} (f : A -> A) (l : list A) i :
  (forall x, l !! i = Some x -> f x = x) -> alter f i l = l.
Proof.
  intros H. apply list_eq. intros j. rewrite lookup_alter_case. case_decide; [|done].
  subst. destruct (l !! j) eqn:E; [simpl; f_equal; auto | done].
Qed.

Lemma V2P_page v : page_ok v -> V2P v = v - KERNBASE.
Proof. intros (_ & _ & H). unfold V2P. apply u32_small. klia. Qed.

Lemma kfree_guard v :
  page_ok v ->
  negb (v mod PGSIZE =? 0) || (v <? sym_end) || (PHYSTOP <=? V2P v) = false.
Proof.
  intros Hv. rewrite V2P_page by done. destruct Hv as (H1 & H2 & H3).
  rewrite H1. simpl. apply orb_false_iff. split; [by apply Z.ltb_ge | apply Z.leb_gt; lia].
Qed.

(** The last part of [kfree]: the page count of the charged container. *)
Lemma kfree_charge c s :
  is_Some (k_ctable s !! c) ->
  (co <- get_cont c ;;
   when (0 <? c_upg co) (upd_cont c (fun co => set_c_upg (c_upg co - 1) co))) s =
  Ret tt (set_k_ctable (alter dec_upg c (k_ctable s)) s).
Proof.
  intros [co Hco]. rewrite (bind_Ret _ _ _ _ _ (get_cont_eq _ _ _ Hco)).
  assert (forall f, f co = dec_upg co ->
    alter f c (k_ctable s) = alter dec_upg c (k_ctable s)) as Hext.
  { intros f Hf. apply list_eq. intros j. rewrite !lookup_alter_case. case_decide; [|done].
    subst. rewrite Hco. simpl. by rewrite Hf. }
  destruct (0 <? c_upg co) eqn:E; simpl.
  - rewrite (upd_cont_eq _ _ _ _ Hco). do 2 f_equal. apply Hext.
    unfold dec_upg. by rewrite E.
  - unfold ret. f_equal. rewrite alter_self; [done|].
    intros x Hx. assert (x = co) as -> by congruence. unfold dec_upg. by rewrite E.
Qed.

Lemma kfree_eq v s :
  page_ok v -> LKmem ∉ k_held s -> has_cont s ->
  kfree v s = Ret tt (charge dec_upg (freed v s)).
Proof.
  intros Hv Hl Hc. unfold kfree.
  rewrite bind_gets, (bind_Ret _ _ _ _ _ (mycont_sel s Hc)), kfree_guard by done.
  krun. erewrite (bind_Ret (when _ _)) by (by apply when_acquire).
  set (l := k_uselock _). krun.
  unfold charge. replace (cur_cont (freed v s)) with (cur_cont s) by done.
  destruct (cur_cont s) as [c|] eqn:Ec.
  - destruct (cur_cont_lookup s c Hc Ec) as [co Hco].
    erewrite (bind_Ret (bind (get_cont c) _)).
    2:{ apply kfree_charge. exists co. by destruct l. }
    rewrite (when_release _ _ (k_held s)) by (by destruct l). by destruct l.
  - krun. rewrite (when_release _ _ (k_held s)) by (by destruct l). by destruct l.
Qed.

Lemma kfree_panic v s :
  has_cont s -> v mod PGSIZE <> 0 \/ v < sym_end \/ PHYSTOP <= V2P v ->
  kfree v s = Panic "kfree" s.
Proof.
  intros Hc Hv. unfold kfree. rewrite bind_gets, (bind_Ret _ _ _ _ _ (mycont_sel s Hc)).
  assert (negb (v mod PGSIZE =? 0) || (v <? sym_end) || (PHYSTOP <=? V2P v) = true) as ->; [|done].
  rewrite !orb_true_iff, negb_true_iff, Z.eqb_neq, Z.ltb_lt, Z.leb_le. tauto.
Qed.

Lemma charge_kmem f s pages : kmem_inv s pages -> kmem_inv (charge f s) pages.
Proof. unfold charge. destruct (cur_cont s); [intros []; by split | done]. Qed.

Lemma charge_mem f s : k_mem (charge f s) = k_mem s.
Proof. unfold charge. by destruct (cur_cont s). Qed.
Lemma charge_freelist f s : k_freelist (charge f s) = k_freelist s.
Proof. unfold charge. by destruct (cur_cont s). Qed.

(** ** [kalloc] *)

(** The container is told to stop and the attempt is reported. *)
Definition limit_killed (c : nat) (co : cont) (s : kst) : kst :=
  set_k_ctable (alter (set_c_state CSTOPPING) c (k_ctable s))
    (set_k_klog (k_klog s ++
       [("Killing container %d for trying to allocate %d * %d + %d memory.",
         [c_cid co; c_upg co; PGSIZE; PGSIZE])]) s).

Lemma ckill_eq c co s :
  LCtable ∉ k_held s -> k_ctable s !! c = Some co ->
  ckill c s = Ret 1 (set_k_ctable (alter (set_c_state CSTOPPING) c (k_ctable s)) s).
Proof.
  intros Hl Hc. unfold ckill. rewrite (bind_Ret _ _ _ _ _ (acquire_eq _ _ Hl)).
  erewrite (bind_Ret (upd_cont _ _)) by (by eapply upd_cont_eq).
  by erewrite (bind_Ret (release _)) by (by apply release_eq).
Qed.

Lemma mycont_cur s c : k_userinited s = true -> cur_cont s = Some c -> mycont s = Ret c s.
Proof.
  unfold cur_cont. intros -> Hc. apply bind_Some in Hc as (p & Hp & Hc).
  apply bind_Some in Hc as (pr & Hpr & Hc). by eapply mycont_eq.
Qed.

Lemma kalloc_over s c co :
  has_cont s -> LCons ∉ k_held s -> LCtable ∉ k_held s ->
  cur_cont s = Some c -> k_ctable s !! c = Some co -> over_limit s = true ->
  kalloc s = Ret 0 (limit_killed c co s).
Proof.
  intros Hc Hl1 Hl2 Ec Hco Hov.
  assert (k_userinited s = true) as Hu.
  { unfold cur_cont in Ec. by destruct (k_userinited s). }
  unfold over_limit in Hov. rewrite Ec in Hov. simpl in Hov. rewrite Hco in Hov.
  unfold kalloc. rewrite bind_gets, (bind_Ret _ _ _ _ _ (mycont_sel s Hc)), Ec.
  rewrite (bind_Ret _ _ _ true s).
  2:{ rewrite (bind_Ret _ _ _ _ _ (get_cont_eq _ _ _ Hco)). by rewrite Hov. }
  rewrite (bind_Ret _ _ _ _ _ (mycont_cur s c Hu Ec)).
  rewrite (bind_Ret _ _ _ _ _ (get_cont_eq _ _ _ Hco)).
  rewrite (bind_Ret _ _ _ _ _ (cprintf_eq _ _ _ Hl1)).
  erewrite (bind_Ret mycont) by (by apply mycont_cur).
  by erewrite (bind_Ret (ckill c)) by (by eapply ckill_eq).
Qed.

Lemma kalloc_under s :
  has_cont s -> LKmem ∉ k_held s -> over_limit s = false ->
  kalloc s = if k_freelist s =? 0 then Ret 0 s
             else Ret (k_freelist s)
                      (charge inc_upg (set_k_freelist (ld32 (k_mem s) (k_freelist s)) s)).
Proof.
  intros Hc Hl Hov. unfold kalloc.
  rewrite bind_gets, (bind_Ret _ _ _ _ _ (mycont_sel s Hc)).
  rewrite (bind_Ret _ _ _ false s).
  2:{ unfold over_limit in Hov. destruct (cur_cont s) as [c|] eqn:Ec; [|done].
      destruct (cur_cont_lookup s c Hc Ec) as [co Hco]. simpl in Hov. rewrite Hco in Hov.
      rewrite (bind_Ret _ _ _ _ _ (get_cont_eq _ _ _ Hco)). by rewrite Hov. }
  krun. erewrite (bind_Ret (when _ _)) by (by apply when_acquire).
  set (l := k_uselock s). krun.
  replace (k_freelist (if l then _ else s)) with (k_freelist s) by (by destruct l).
  destruct (k_freelist s =? 0) eqn:E; simpl negb; unfold when at 1.
  - krun. erewrite (bind_Ret (when _ _)) by (apply (when_release _ _ (k_held s)); by destruct l).
    apply Z.eqb_eq in E. unfold ret. rewrite E. by destruct l.
  - unfold charge.
    change (cur_cont (set_k_freelist (ld32 (k_mem s) (k_freelist s)) s)) with (cur_cont s).
    destruct (cur_cont s) as [c|] eqn:Ec.
    + destruct (cur_cont_lookup s c Hc Ec) as [co Hco].
      erewrite (bind_Ret (bind (gets _) _)).
      2:{ krun. eapply (upd_cont_eq c _ co). by destruct l. }
      erewrite (bind_Ret (when _ _)) by (apply (when_release _ _ (k_held s)); by destruct l).
      by destruct l.
    + erewrite (bind_Ret (bind (gets _) _)) by (krun; reflexivity).
      erewrite (bind_Ret (when _ _)) by (apply (when_release _ _ (k_held s)); by destruct l).
      by destruct l.
Qed.

(** The locks [kalloc] and [kfree] may take are free. *)
Definition alloc_locks_free (s : kst) : Prop :=
  LKmem ∉ k_held s /\ LCons ∉ k_held s /\ LCtable ∉ k_held s.

Lemma over_limit_cont s :
  over_limit s = true -> exists c co, cur_cont s = Some c /\ k_ctable s !! c = Some co.
Proof.
  unfold over_limit. destruct (cur_cont s) as [c|]; simpl; [|done].
  destruct (k_ctable s !! c) as [co|] eqn:E; [eauto | done].
Qed.

(** What [kalloc] returns, on the abstract free list. *)
Definition kalloc_result (s : kst) (pages : list Z) (r : Z) (s' : kst) : Prop :=
  match over_limit s, pages with
  | true, _ => r = 0 /\ kmem_inv s' pages /\
      exists c co, cur_cont s = Some c /\ k_ctable s !! c = Some co /\ s' = limit_killed c co s
  | false, [] => r = 0 /\ s' = s
  | false, p :: ps => r = p /\ kmem_inv s' ps /\ k_mem s' = k_mem s /\
      s' = charge inc_upg (set_k_freelist (k_freelist s') s)
  end.

Lemma kalloc_spec s pages :
  kmem_inv s pages -> has_cont s -> alloc_locks_free s ->
  exists r s', kalloc s = Ret r s' /\ kalloc_result s pages r s'.
Proof.
  intros Hinv Hc (Hl1 & Hl2 & Hl3). unfold kalloc_result.
  destruct (over_limit s) eqn:Hov.
  - destruct (over_limit_cont s Hov) as (c & co & Ec & Hco).
    eexists _, _. split; [by eapply kalloc_over|].
    split; [done|]. split; [destruct Hinv; by split | eauto].
  - rewrite (kalloc_under s Hc Hl1 Hov). destruct Hinv as [Hwf Hl Hnd Hpg].
    destruct pages as [|p ps].
    + simpl in Hl. rewrite Hl. simpl. eauto.
    + destruct Hl as (Hfl & Hnz & Hl). rewrite Hfl, (proj2 (Z.eqb_neq p 0) Hnz).
      eexists _, _. split; [reflexivity|]. split; [done|].
      split; [apply charge_kmem; apply NoDup_cons in Hnd; apply Forall_cons in Hpg;
              split; simpl; tauto|].
      rewrite charge_mem, charge_freelist. done.
Qed.

(** C15: [kalloc] on a well-formed free list: if the current container would pass
    its memory limit it returns 0, prints a message and marks the container
    CSTOPPING, leaving the list alone; otherwise it returns 0 on an empty list
    and else the first page, which leaves the list, charging the container one
    page. It never panics, faults or blocks. *)
Theorem kalloc_correct s pages :
  kmem_inv s pages -> has_cont s -> alloc_locks_free s ->
  exists r s', kalloc s = Ret r s' /\ kalloc_result s pages r s'.
Proof. apply kalloc_spec. Qed.

(** [kfree] of a page outside the free list puts it at the front, keeps the
    list well formed, decrements the container's page count if positive and
    changes no byte outside the page; a misaligned address, one below the kernel's
    end or one above PHYSTOP panics. *)
Theorem kfree_correct s pages v :
  kmem_inv s pages -> has_cont s -> LKmem ∉ k_held s ->
  (page_ok v -> v ∉ pages ->
   exists s', kfree v s = Ret tt s' /\ kmem_inv s' (v :: pages) /\
     s' = charge dec_upg (freed v s) /\
     forall x, x < v \/ v + PGSIZE <= x -> k_mem s' x = k_mem s x) /\
  (v mod PGSIZE <> 0 \/ v < sym_end \/ PHYSTOP <= V2P v -> kfree v s = Panic "kfree" s).
Proof.
  intros Hinv Hc Hl. split; [|by apply kfree_panic].
  intros Hv Hnin. eexists. split; [by apply kfree_eq|].
  split; [by apply charge_kmem, freed_inv|]. split; [done|].
  intros x Hx. rewrite charge_mem. by apply memset_page_frame.
Qed.

(** ** Memory limits *)

(** No container uses more than its limit. *)
Definition within_limit (co : cont) : Prop :=
  0 <= c_upg co /\ c_upg co * PGSIZE <= c_msz co <= MAX_CONT_MEM.
Definition limits_ok (s : kst) : Prop := Forall within_limit (k_ctable s).

Lemma limits_charge f s :
  limits_ok s ->
  (forall c co, cur_cont s = Some c -> k_ctable s !! c = Some co ->
     within_limit co -> within_limit (f co)) ->
  limits_ok (charge f s).
Proof.
  unfold limits_ok, charge. intros H Hf. destruct (cur_cont s) as [c|] eqn:Ec; [|done].
  simpl. apply Forall_lookup_2. intros i x. rewrite lookup_alter_case.
  case_decide as Ei; [|by eapply Forall_lookup_1].
  subst i. intros (co & Hco & ->)%fmap_Some.
  eapply Hf; [done | done | by eapply Forall_lookup_1].
Qed.

Lemma inc_within s c co :
  cur_cont s = Some c -> k_ctable s !! c = Some co -> over_limit s = false ->
  within_limit co -> within_limit (inc_upg co).
Proof.
  intros Ec Hco Hov [H1 H2]. unfold over_limit in Hov. rewrite Ec in Hov. simpl in Hov.
  rewrite Hco in Hov. apply Z.ltb_ge in Hov. unfold MAX_CONT_MEM in *.
  rewrite u32_small in Hov by klia. unfold within_limit, inc_upg. simpl.
  rewrite i32_small by klia. unfold MAX_CONT_MEM. klia.
Qed.

(** C34: memory isolation between containers: if every container is within its
    limit, it still is after [kalloc] (whatever its outcome) and after [kfree]. *)
Theorem memory_limit_invariant s pages v :
  kmem_inv s pages -> has_cont s -> alloc_locks_free s -> limits_ok s ->
  page_ok v -> v ∉ pages ->
  (exists r s', kalloc s = Ret r s' /\ limits_ok s') /\
  (exists s', kfree v s = Ret tt s' /\ limits_ok s').
Proof.
  intros Hinv Hc Hl Hok Hv Hnin. split.
  - destruct (kalloc_spec s pages Hinv Hc Hl) as (r & s' & Hk & Hr).
    exists r, s'. split; [done|]. unfold kalloc_result in Hr.
    destruct (over_limit s) eqn:Hov.
    + destruct Hr as (_ & _ & c & co & Ec & Hco & ->). unfold limits_ok. simpl.
      apply Forall_alter; [done|]. intros x Hx Hw. destruct Hw. by split.
    + destruct pages as [|p ps]; [by destruct Hr as [_ ->]|].
      destruct Hr as (_ & _ & _ & ->). apply limits_charge; [done|].
      intros c co Ec Hco. by eapply inc_within.
  - eexists. split; [apply kfree_eq; [done | apply Hl | done]|].
    apply limits_charge; [done|]. intros c co _ _ [H1 H2].
    unfold dec_upg, within_limit. destruct (0 <? c_upg co) eqn:E; [|done].
    apply Z.ltb_lt in E. simpl. klia.
Qed.

(** ** Filling the list at boot *)

Lemma land_lnot_4095 x : Z.land x (Z.lnot 4095) = x - x mod 4096.
Proof.
  change 4095 with (Z.ones 12). rewrite <- Z.ldiff_land, Z.ldiff_ones_r by lia.
  rewrite Z.shiftl_mul_pow2, Z.shiftr_div_pow2 by lia. change (2 ^ 12) with 4096. zlia.
Qed.

Lemma PGROUNDUP_eq a :
  0 <= a <= 4294963200 -> PGROUNDUP a = (a + 4095) - (a + 4095) mod 4096.
Proof.
  intros H. unfold PGROUNDUP, PGSIZE. change (4096 - 1) with 4095.
  rewrite land_lnot_4095. replace (a + 4096 - 1) with (a + 4095) by lia.
  by rewrite u32_small by lia.
Qed.

(** [n] consecutive pages from [p]. *)
Fixpoint page_seq (p : Z) (n : nat) : list Z :=
  match n with O => [] | S k => p :: page_seq (p + PGSIZE) k end.

Lemma elem_of_page_seq q p n :
  q ∈ page_seq p n -> p <= q < p + Z.of_nat n * PGSIZE.
Proof.
  revert p. induction n as [|n IH]; intros p; simpl; [by intros ?%elem_of_nil|].
  intros [->|H]%elem_of_cons; [klia|]. apply IH in H. klia.
Qed.

Lemma charge_off f s : k_userinited s = false -> charge f s = s.
Proof. intros H. unfold charge, cur_cont. by rewrite H. Qed.

Lemma has_cont_off s : k_userinited s = false -> has_cont s.
Proof. unfold has_cont. congruence. Qed.

(** The part of the state [freerange] leaves alone before user processes exist. *)
Definition boot_frame (s s' : kst) : Prop :=
  k_userinited s' = k_userinited s /\ k_held s' = k_held s /\ k_uselock s' = k_uselock s.

Lemma freerange_loop n fuel p vend s pages :
  k_userinited s = false -> LKmem ∉ k_held s -> kmem_inv s pages ->
  p mod PGSIZE = 0 -> sym_end <= p -> KERNBASE <= p ->
  p + Z.of_nat n * PGSIZE <= vend -> vend < p + (Z.of_nat n + 1) * PGSIZE ->
  vend <= KERNBASE + PHYSTOP ->
  (forall q, q ∈ pages -> q < p \/ vend <= q) -> (n < fuel)%nat ->
  exists s', loop fuel (fun p =>
    if u32 (p + PGSIZE) <=? vend then kfree p ;; ret (inl (u32 (p + PGSIZE)))
    else ret (inr tt)) p s = Ret tt s' /\
    kmem_inv s' (rev (page_seq p n) ++ pages) /\ boot_frame s s'.
Proof.
  revert fuel p s pages. induction n as [|n IH];
    intros fuel p s pages Hu Hl Hinv Hal Hend Hk Hlo Hhi Hv Hout Hf;
    (destruct fuel as [|fuel]; [lia|]).
  - exists s. split; [|done]. apply loop_done.
    rewrite u32_small by klia. rewrite (proj2 (Z.leb_gt _ _)) by klia. done.
  - assert (page_ok p) as Hp by (split_and!; [done | done | klia | klia]).
    assert (p ∉ pages) as Hnin by (intros Hin; apply Hout in Hin; klia).
    rewrite (loop_next _ _ _ (p + PGSIZE) _ (freed p s)).
    2:{ rewrite u32_small by klia. rewrite (proj2 (Z.leb_le _ _)) by klia.
        rewrite (bind_Ret _ _ _ tt (freed p s)); [done|].
        rewrite kfree_eq by (done || by apply has_cont_off). by rewrite charge_off. }
    destruct (IH fuel (p + PGSIZE) (freed p s) (p :: pages)) as (s' & Hs' & Hi & Hfr); auto.
    + by apply freed_inv.
    + unfold PGSIZE in *. zlia.
    + klia.
    + klia.
    + klia.
    + klia.
    + intros q [->|Hq]%elem_of_cons; [klia|]. apply Hout in Hq. klia.
    + lia.
    + exists s'. split; [done|]. split; [|done]. simpl. by rewrite <- app_assoc.
Qed.

(** At boot, [freerange(vstart, vend)] terminates without panicking and puts
    exactly the whole pages between the two addresses on the free list, the last
    one first. *)
Theorem freerange_correct vstart vend s pages :
  k_userinited s = false -> LKmem ∉ k_held s -> kmem_inv s pages ->
  sym_end <= vstart -> KERNBASE <= vstart <= vend -> PGROUNDUP vstart <= vend ->
  vend <= KERNBASE + PHYSTOP ->
  (forall q, q ∈ pages -> q < vstart \/ vend <= q) ->
  exists s', freerange vstart vend s = Ret tt s' /\
    kmem_inv s' (rev (page_seq (PGROUNDUP vstart)
                        (Z.to_nat ((vend - PGROUNDUP vstart) / PGSIZE))) ++ pages).
Proof.
  intros Hu Hl Hinv Hend Hk Hle Hv Hout.
  pose proof (PGROUNDUP_eq vstart ltac:(klia)) as Hup.
  set (p := PGROUNDUP vstart) in *. set (n := Z.to_nat ((vend - p) / PGSIZE)).
  assert (Z.of_nat n = (vend - p) / PGSIZE) as Hn.
  { unfold n. rewrite Z2Nat.id; [done|]. apply Z.div_pos; klia. }
  destruct (freerange_loop n (S n) p vend s pages) as (s' & Hs' & Hi & _); auto.
  - rewrite Hup. unfold PGSIZE. zlia.
  - zlia.
  - zlia.
  - rewrite Hn. unfold PGSIZE. zlia.
  - rewrite Hn. unfold PGSIZE. zlia.
  - intros q Hq. apply Hout in Hq. zlia.
  - exists s'. split; [exact Hs' | done].
Qed.

End kalloc.

(** ** Example: a kernel ending at 4 MB with two free pages *)

Definition demo_linker : Linker := {|
  sym_end := KERNBASE + 4194304; sym_data := KERNBASE + 1048576 + 65536;
  sym_trapret := KERNBASE + 1049600; sym_forkret := KERNBASE + 1050624; initcode := [] |}.
Definition pgA : Z := KERNBASE + 4194304.
Definition pgB : Z := KERNBASE + 4198400.
Definition pgC : Z := KERNBASE + 4202496.
Definition demo_kst : kst :=
  set_k_freelist pgA (set_k_mem (st32 (fun _ => 0) pgA pgB) boot_state).

Lemma demo_page_ok p : p = pgA \/ p = pgB \/ p = pgC -> @page_ok demo_linker p.
Proof. intros [->|[->| ->]]; split_and!; vm_compute; congruence || done. Qed.

Lemma demo_kmem : @kmem_inv demo_linker demo_kst [pgA; pgB].
Proof.
  split.
  - apply st32_wf. intros a. simpl. lia.
  - vm_compute. repeat split; discriminate.
  - repeat constructor; set_solver.
  - repeat constructor; apply demo_page_ok; auto.
Qed.

Lemma demo_has_cont : has_cont demo_kst.
Proof. intros _. exists 0%nat, boot_cont. done. Qed.

Lemma demo_locks : alloc_locks_free demo_kst.
Proof. split_and!; apply not_elem_of_nil. Qed.

Lemma demo_notin : pgC ∉ [pgA; pgB].
Proof. intros H. vm_compute in H. repeat (inversion H; clear H; subst; rename H2 into H). Qed.

Lemma demo_limits : limits_ok demo_kst.
Proof. repeat constructor; vm_compute; discriminate. Qed.

Lemma kalloc_correct_witness :
  exists r s', @kalloc demo_kst = Ret r s' /\ @kalloc_result demo_linker demo_kst [pgA; pgB] r s'.
Proof. exact (@kalloc_correct demo_linker _ _ demo_kmem demo_has_cont demo_locks). Defined.

Lemma kfree_correct_witness :
  exists s', @kfree demo_linker pgC demo_kst = Ret tt s' /\
    @kmem_inv demo_linker s' [pgC; pgA; pgB].
Proof.
  destruct (proj1 (@kfree_correct demo_linker _ _ pgC demo_kmem demo_has_cont (proj1 demo_locks))
              (demo_page_ok pgC ltac:(auto)) demo_notin) as (s' & H1 & H2 & _).
  exists s'. split; [exact H1 | exact H2].
Defined.

Lemma memory_limit_invariant_witness :
  (exists r s', kalloc demo_kst = Ret r s' /\ limits_ok s') /\
  (exists s', @kfree demo_linker pgC demo_kst = Ret tt s' /\ limits_ok s').
Proof.
  exact (@memory_limit_invariant demo_linker _ _ pgC demo_kmem demo_has_cont demo_locks
           demo_limits (demo_page_ok pgC ltac:(auto)) demo_notin).
Defined.

(** Before user processes exist, with an empty list. *)
Definition demo_boot : kst :=
  set_k_userinited false (set_k_mem (fun _ => 0) boot_state).

Lemma freerange_correct_witness :
  exists s', @freerange demo_linker pgA pgC demo_boot = Ret tt s' /\
    @kmem_inv demo_linker s' [pgB; pgA].
Proof.
  apply (@freerange_correct demo_linker pgA pgC demo_boot []);
    [reflexivity | apply not_elem_of_nil | | vm_compute; congruence | vm_compute; split; congruence
    | vm_compute; congruence | vm_compute; congruence | intros q H; by apply elem_of_nil in H].
  split; [intros a; simpl; lia | reflexivity | constructor | constructor].
Defined.
