(* ===== verification/Bio.v ===== *)
(** * The buffer cache

    bio.c over the memory disk of memide.c.  The LRU list is the doubly linked
    ring the code keeps through [prev]/[next]; [lru_ring] relates it to the list of
    buffer indices, most recently used first.  [vblock] is the content of a block
    as the file system sees it (the cached copy if there is one, else the disk),
    and the lemmas describe [bread], [bwrite] and [brelse] on it. *)

From S2P Require Import Prelude Monad KState Sched.

Local Open Scope kernel_scope.

Definition B_VALID : Z := 2.
Definition B_DIRTY : Z := 4.

(** [&bcache.head]. *)
Definition HEAD : nat := NBUF.

Definition binit : K unit :=
  upd_buf HEAD (set_b_prev HEAD) ;;
  upd_buf HEAD (set_b_next HEAD) ;;
  for_each (seq 0 NBUF) (fun b =>
    h <- get_buf HEAD ;;
    upd_buf b (set_b_next (b_next h)) ;;
    upd_buf b (set_b_prev HEAD) ;;
    initsleeplock (SlBuf b) ;;
    h <- get_buf HEAD ;;
    upd_buf (b_next h) (set_b_prev b) ;;
    upd_buf HEAD (set_b_next b)).

(** [for(b = start; b != &bcache.head; b = step(b)) if(test(b)) { act; return b; }].
    A walk visits each of the [NBUF] buffers at most once. *)
Definition walk (step : buf -> nat) (test : buf -> bool) (act : nat -> K unit) (start : nat)
    : K (option nat) :=
  loop (S NBUF) (fun b =>
    if b ==? HEAD then ret (inr None) else
    bf <- get_buf b ;;
    if test bf then act b ;; ret (inr (Some b))
    else ret (inl (step bf))) start.

Definition bget (dev blockno : Z) : K nat :=
  acquire LBcache ;;
  h <- get_buf HEAD ;;
  r <- walk (fun bf => b_next bf)
    (fun bf => (b_dev bf =? dev) && (b_blockno bf =? blockno))
    (fun b =>
       upd_buf b (fun bf => set_b_refcnt (u32 (b_refcnt bf + 1)) bf) ;;
       release LBcache ;;
       acquiresleep (SlBuf b)) (b_next h) ;;
  match r with
  | Some b => ret b
  | None =>
      h <- get_buf HEAD ;;
      r <- walk (fun bf => b_prev bf)
        (fun bf => (b_refcnt bf =? 0) && (Z.land (b_flags bf) B_DIRTY =? 0))
        (fun b =>
           upd_buf b (set_b_dev dev) ;;
           upd_buf b (set_b_blockno blockno) ;;
           upd_buf b (set_b_flags 0) ;;
           upd_buf b (set_b_refcnt 1) ;;
           release LBcache ;;
           acquiresleep (SlBuf b)) (b_prev h) ;;
      match r with
      | Some b => ret b
      | None => panic "bget: no buffers"
      end
  end.

(** memide.c: [disksize] is the number of blocks of the image.  A write is also
    recorded in the history of the disk. *)
Definition iderw (b : nat) : K unit :=
  h <- holdingsleep (SlBuf b) ;;
  if negb h then panic "iderw: buf not locked" else
  bf <- get_buf b ;;
  if Z.land (b_flags bf) (Z.lor B_VALID B_DIRTY) =? B_VALID then panic "iderw: nothing to do" else
  if negb (b_dev bf =? 1) then panic "iderw: request not for disk 1" else
  disksize <- gets (fun s => zlen (k_disk s)) ;;
  if disksize <=? b_blockno bf then panic "iderw: block out of range" else
  let p := Z.to_nat (b_blockno bf) in
  if negb (Z.land (b_flags bf) B_DIRTY =? 0) then
    upd_buf b (fun bf => set_b_flags (Z.land (b_flags bf) (Z.lnot B_DIRTY)) bf) ;;
    modify (fun s => set_k_disk (<[p := b_data bf]> (k_disk s)) s) ;;
    modify (fun s => set_k_dtrace (k_dtrace s ++ [(b_blockno bf, b_data bf)]) s) ;;
    upd_buf b (fun bf => set_b_flags (Z.lor (b_flags bf) B_VALID) bf)
  else
    d <- gets (fun s => k_disk s) ;;
    data <- deref "memdisk" (d !! p) ;;
    upd_buf b (set_b_data data) ;;
    upd_buf b (fun bf => set_b_flags (Z.lor (b_flags bf) B_VALID) bf).

Definition bread (dev blockno : Z) : K nat :=
  b <- bget dev blockno ;;
  bf <- get_buf b ;;
  when (Z.land (b_flags bf) B_VALID =? 0) (iderw b) ;;
  ret b.

Definition bwrite (b : nat) : K unit :=
  h <- holdingsleep (SlBuf b) ;;
  if negb h then panic "bwrite" else
  upd_buf b (fun bf => set_b_flags (Z.lor (b_flags bf) B_DIRTY) bf) ;;
  iderw b.

Definition brelse (b : nat) : K unit :=
  h <- holdingsleep (SlBuf b) ;;
  if negb h then panic "brelse" else
  releasesleep (SlBuf b) ;;
  acquire LBcache ;;
  upd_buf b (fun bf => set_b_refcnt (u32 (b_refcnt bf - 1)) bf) ;;
  bf <- get_buf b ;;
  when (b_refcnt bf =? 0)
    (upd_buf (b_next bf) (set_b_prev (b_prev bf)) ;;
     bf <- get_buf b ;;
     upd_buf (b_prev bf) (set_b_next (b_next bf)) ;;
     h <- get_buf HEAD ;;
     upd_buf b (set_b_next (b_next h)) ;;
     upd_buf b (set_b_prev HEAD) ;;
     h <- get_buf HEAD ;;
     upd_buf (b_next h) (set_b_prev b) ;;
     upd_buf HEAD (set_b_next b)) ;;
  release LBcache.

(** ** The ring *)

(** [path nx x l y]: following [nx] from [x] visits [l] and then [y]. *)
Fixpoint path (nx : nat -> nat) (x : nat) (l : list nat) (y : nat) : Prop :=
  match l with
  | [] => nx x = y
  | z :: l' => nx x = z /\ path nx z l' y
  end.

Definition nxt (bufs : list buf) (i : nat) : nat := from_option (fun b => b_next b) 0%nat (bufs !! i).
Definition prv (bufs : list buf) (i : nat) : nat := from_option (fun b => b_prev b) 0%nat (bufs !! i).

(** The buffers form a ring through the head, in LRU order. *)
Record lru_ring (bufs : list buf) (lru : list nat) : Prop := {
  ring_len : length bufs = S NBUF;
  ring_perm : lru ≡ₚ seq 0 NBUF;
  ring_next : path (nxt bufs) HEAD lru HEAD;
  ring_prev : path (prv bufs) HEAD (reverse lru) HEAD
}.

Definition fupd (f : nat -> nat) (i v : nat) : nat -> nat :=
  fun x => if decide (x = i) then v else f x.

Lemma path_ext nx nx' x l y :
  (forall z, z ∈ x :: l -> nx' z = nx z) -> path nx x l y -> path nx' x l y.
Proof.
  revert x. induction l as [|z l IH]; intros x He; simpl.
  - intros <-. apply He. by left.
  - intros [<- Hp]. split; [apply He; by left|]. apply IH; [|done].
    intros w Hw. apply He. by right.
Qed.

Lemma path_app nx x l1 b l2 y :
  path nx x (l1 ++ b :: l2) y <-> path nx x l1 b /\ path nx b l2 y.
Proof.
  revert x. induction l1 as [|z l1 IH]; intros x; simpl; [done|]. rewrite IH. tauto.
Qed.

(** The element before [b]. *)
Definition lastd (x : nat) (l : list nat) : nat := default x (last l).

Lemma lastd_cons x z l : lastd x (z :: l) = lastd z l.
Proof. unfold lastd. destruct l; [done|]. simpl last. by destruct (last (n :: l)) eqn:E; [|apply last_None in E]. Qed.

Lemma lastd_elem x l : lastd x l ∈ x :: l.
Proof.
  revert x. induction l as [|z l IH]; intros x; [by left|].
  rewrite lastd_cons. right. apply IH.
Qed.

Lemma path_last nx x l y : path nx x l y -> nx (lastd x l) = y.
Proof.
  revert x. induction l as [|z l IH]; intros x; [done|]. intros [_ H].
  rewrite lastd_cons. by apply IH.
Qed.

(** Taking [b] out of a path: its predecessor is made to point past it. *)
Lemma path_unlink nx x l1 b l2 y :
  path nx x (l1 ++ b :: l2) y -> NoDup (x :: l1 ++ b :: l2) ->
  path (fupd nx (lastd x l1) (nx b)) x (l1 ++ l2) y.
Proof.
  revert x. induction l1 as [|z l1 IH]; intros x; simpl.
  - intros [Hx Hp] Hnd. unfold lastd. simpl. destruct l2 as [|w l2]; simpl in *.
    + unfold fupd. by rewrite decide_True.
    + destruct Hp as [Hb Hp]. split; [unfold fupd; by rewrite decide_True|].
      eapply path_ext; [|done]. intros v Hv. unfold fupd. rewrite decide_False; [done|].
      intros ->. apply NoDup_cons in Hnd as [Hn _]. apply Hn. by right.
  - intros [Hx Hp] Hnd. rewrite lastd_cons. split.
    + unfold fupd. rewrite decide_False; [done|]. intros ->.
      apply NoDup_cons in Hnd as [Hn _]. apply Hn.
      change (z :: l1 ++ b :: l2) with ((z :: l1) ++ b :: l2). apply elem_of_app. left.
      apply lastd_elem.
    + apply IH; [done|]. by apply NoDup_cons in Hnd as [_ ?].
Qed.

(** Putting [b] at the front, and (for the other direction) at the back. *)
Lemma path_push nx x l y b :
  path nx x l y -> b ∉ x :: l -> NoDup (x :: l) -> path (fupd (fupd nx b (nx x)) x b) x (b :: l) y.
Proof.
  intros Hp Hb Hnd. simpl. unfold fupd at 1. rewrite decide_True by done. split; [done|].
  assert (x <> b) as Hxb by (intros ->; apply Hb; by left).
  destruct l as [|z l]; simpl in *.
  - unfold fupd. rewrite decide_False by done. by rewrite decide_True.
  - destruct Hp as [<- Hp]. split.
    + unfold fupd. rewrite decide_False by done. by rewrite decide_True.
    + eapply path_ext; [|done]. intros w Hw. unfold fupd.
      apply NoDup_cons in Hnd as [Hn _].
      rewrite decide_False by (intros ->; by apply Hn).
      rewrite decide_False; [done|]. intros ->. apply Hb. by right.
Qed.

Lemma path_snoc nx x l y b v :
  path nx x l y -> b ∉ x :: l -> NoDup (x :: l) ->
  path (fupd (fupd nx b v) (lastd x l) b) x (l ++ [b]) v.
Proof.
  revert x. induction l as [|z l IH]; intros x; simpl.
  - intros _ Hb _. unfold lastd, fupd. simpl. rewrite decide_True by done.
    rewrite decide_False by set_solver. by rewrite decide_True.
  - intros [<- Hp] Hb Hnd. rewrite lastd_cons. split.
    + unfold fupd. rewrite decide_False, decide_False; [done | set_solver |].
      intros E. apply NoDup_cons in Hnd as [Hn _]. apply Hn. rewrite E at 1. apply lastd_elem.
    + apply IH; [done | set_solver | by apply NoDup_cons in Hnd as [_ ?]].
Qed.

(** The first element of a path. *)
Lemma path_first nx x l y : path nx x l y -> nx x = lastd y (reverse l).
Proof.
  intros Hp. unfold lastd. rewrite last_reverse. by destruct l as [|z l]; [|destruct Hp].
Qed.

Lemma nxt_alter_next bufs i v z :
  (i < length bufs)%nat -> nxt (alter (set_b_next v) i bufs) z = fupd (nxt bufs) i v z.
Proof.
  intros Hi. unfold nxt, fupd. rewrite lookup_alter_case.
  destruct (decide (i = z)) as [->|]; [|by rewrite decide_False].
  rewrite decide_True by done. by destruct (lookup_lt_is_Some_2 bufs z Hi) as [b ->].
Qed.

Lemma prv_alter_prev bufs i v z :
  (i < length bufs)%nat -> prv (alter (set_b_prev v) i bufs) z = fupd (prv bufs) i v z.
Proof.
  intros Hi. unfold prv, fupd. rewrite lookup_alter_case.
  destruct (decide (i = z)) as [->|]; [|by rewrite decide_False].
  rewrite decide_True by done. by destruct (lookup_lt_is_Some_2 bufs z Hi) as [b ->].
Qed.

Lemma nxt_alter_other f bufs i z :
  (forall b, b_next (f b) = b_next b) -> nxt (alter f i bufs) z = nxt bufs z.
Proof.
  intros Hf. unfold nxt. rewrite lookup_alter_case. case_decide; [|done]. subst.
  destruct (bufs !! z); simpl; auto.
Qed.

Lemma prv_alter_other f bufs i z :
  (forall b, b_prev (f b) = b_prev b) -> prv (alter f i bufs) z = prv bufs z.
Proof.
  intros Hf. unfold prv. rewrite lookup_alter_case. case_decide; [|done]. subst.
  destruct (bufs !! z); simpl; auto.
Qed.

(** An update that leaves the links alone leaves the ring alone. *)
Lemma ring_alter f i bufs lru :
  (forall b, b_next (f b) = b_next b) -> (forall b, b_prev (f b) = b_prev b) ->
  lru_ring bufs lru -> lru_ring (alter f i bufs) lru.
Proof.
  intros Hn Hp [H1 H2 H3 H4]. split; [by rewrite length_alter | done | |].
  - eapply path_ext; [|done]. intros z _. by apply nxt_alter_other.
  - eapply path_ext; [|done]. intros z _. by apply prv_alter_other.
Qed.

Lemma ring_head_notin bufs lru : lru_ring bufs lru -> HEAD ∉ lru.
Proof. intros [_ Hp _ _] Hin. rewrite Hp in Hin. apply elem_of_seq in Hin. unfold HEAD in Hin. lia. Qed.

Lemma ring_nodup bufs lru : lru_ring bufs lru -> NoDup (HEAD :: lru).
Proof.
  intros Hr. constructor; [by eapply ring_head_notin|]. destruct Hr as [_ Hp _ _].
  rewrite Hp. apply NoDup_seq.
Qed.

Lemma ring_lookup bufs lru i : lru_ring bufs lru -> i ∈ HEAD :: lru -> is_Some (bufs !! i).
Proof.
  intros [Hl Hp _ _] Hi. apply lookup_lt_is_Some_2. rewrite Hl.
  apply elem_of_cons in Hi as [->|Hi]; [unfold HEAD; lia|].
  rewrite Hp in Hi. apply elem_of_seq in Hi. lia.
Qed.

(** [brelse]'s pointer manipulation. *)
Definition relink (b : nat) (bufs : list buf) : list buf :=
  let b1 := alter (set_b_prev (prv bufs b)) (nxt bufs b) bufs in
  let b2 := alter (set_b_next (nxt b1 b)) (prv b1 b) b1 in
  let b3 := alter (set_b_next (nxt b2 HEAD)) b b2 in
  let b4 := alter (set_b_prev HEAD) b b3 in
  let b5 := alter (set_b_prev b) (nxt b4 HEAD) b4 in
  alter (set_b_next b) HEAD b5.

Section relink.
Context (bufs : list buf) (l1 l2 : list nat) (b : nat).
Hypothesis Hring : lru_ring bufs (l1 ++ b :: l2).

Lemma ring_neighbours :
  prv bufs b = lastd HEAD l1 /\ nxt bufs b = lastd HEAD (reverse l2).
Proof.
  destruct Hring as [_ _ Hn Hp]. rewrite reverse_app, reverse_cons, <- app_assoc in Hp.
  simpl in Hp. apply path_app in Hn as [_ Hn]. apply path_app in Hp as [_ Hp].
  apply path_first in Hn, Hp. by rewrite reverse_involutive in Hp.
Qed.

Lemma ring_b : b <> HEAD /\ b ∉ l1 /\ b ∉ l2 /\ (b < length bufs)%nat.
Proof.
  pose proof (ring_nodup _ _ Hring) as Hnd.
  apply NoDup_cons in Hnd as [Hh Hnd]. apply NoDup_app in Hnd as (_ & Hd & Hnd).
  apply NoDup_cons in Hnd as [Hb _]. split_and!.
  - intros ->. apply Hh. set_solver.
  - intros Hi. apply (Hd b Hi). by left.
  - done.
  - apply lookup_lt_is_Some. eapply ring_lookup; [done|]. set_solver.
Qed.

Lemma ring_rest_nodup : NoDup (HEAD :: l1 ++ l2) /\ NoDup (HEAD :: reverse (l1 ++ l2)).
Proof.
  pose proof (ring_nodup _ _ Hring) as Hnd.
  assert (NoDup (HEAD :: l1 ++ l2)) as H.
  { rewrite <- Permutation_middle, Permutation_swap in Hnd.
    by apply NoDup_cons in Hnd as [_ ?]. }
  split; [done|]. by rewrite reverse_Permutation.
Qed.

Lemma lastd_bound l x : x ∈ HEAD :: l -> (forall z, z ∈ l -> z ∈ l1 ++ b :: l2) ->
  (x < length bufs)%nat.
Proof.
  intros Hx Hl. apply lookup_lt_is_Some. eapply ring_lookup; [done|].
  apply elem_of_cons in Hx as [->|Hx]; [by left|]. right. auto.
Qed.

(** The head's new successor. *)
Definition first' : nat := fupd (nxt bufs) (lastd HEAD l1) (nxt bufs b) HEAD.

Lemma relink_eq :
  relink b bufs =
  alter (set_b_next b) HEAD (alter (set_b_prev b) first' (alter (set_b_prev HEAD) b
    (alter (set_b_next first') b (alter (set_b_next (nxt bufs b)) (lastd HEAD l1)
      (alter (set_b_prev (lastd HEAD l1)) (nxt bufs b) bufs))))).
Proof.
  destruct ring_neighbours as [Hp Hn]. destruct ring_b as (Hbh & Hb1 & Hb2 & Hlt).
  assert (nxt bufs b <> b) as Hnb.
  { rewrite Hn. intros E. pose proof (lastd_elem HEAD (reverse l2)) as He. rewrite E in He.
    set_solver. }
  unfold relink. cbv zeta. rewrite Hp.
  assert (forall z, nxt (alter (set_b_prev (lastd HEAD l1)) (nxt bufs b) bufs) z = nxt bufs z) as E1
    by (intros z; by apply nxt_alter_other).
  assert (prv (alter (set_b_prev (lastd HEAD l1)) (nxt bufs b) bufs) b = lastd HEAD l1) as E2.
  { rewrite prv_alter_prev.
    - unfold fupd. by rewrite decide_False.
    - rewrite Hn. apply (lastd_bound (reverse l2)); [apply lastd_elem | set_solver]. }
  rewrite E1, E2.
  assert (nxt (alter (set_b_next (nxt bufs b)) (lastd HEAD l1)
    (alter (set_b_prev (lastd HEAD l1)) (nxt bufs b) bufs)) HEAD = first') as E3.
  { rewrite nxt_alter_next.
    - unfold first', fupd. by rewrite E1.
    - rewrite length_alter. apply (lastd_bound l1); [apply lastd_elem | set_solver]. }
  rewrite E3. do 2 f_equal. rewrite nxt_alter_other by done.
  rewrite nxt_alter_next by (by rewrite !length_alter).
  unfold fupd. rewrite decide_False by done. by rewrite E3.
Qed.

Lemma first'_eq : first' = lastd HEAD (reverse (l1 ++ l2)).
Proof.
  unfold first'. apply path_first. apply path_unlink; [apply Hring | by eapply ring_nodup].
Qed.

Lemma ring_bounds :
  (nxt bufs b < length bufs)%nat /\ (lastd HEAD l1 < length bufs)%nat /\
  (first' < length bufs)%nat /\ (HEAD < length bufs)%nat.
Proof.
  destruct ring_neighbours as [_ Hn]. rewrite Hn, first'_eq. split_and!.
  - apply (lastd_bound (reverse l2)); [apply lastd_elem | set_solver].
  - apply (lastd_bound l1); [apply lastd_elem | set_solver].
  - apply (lastd_bound (reverse (l1 ++ l2))); [apply lastd_elem | set_solver].
  - apply (lastd_bound []); set_solver.
Qed.

(** A released buffer is the most recently used one. *)
Lemma relink_ring : lru_ring (relink b bufs) (b :: l1 ++ l2).
Proof.
  destruct ring_b as (Hbh & Hb1 & Hb2 & Hlt). destruct ring_rest_nodup as [Hnd1 Hnd2].
  destruct ring_bounds as (B1 & B2 & B3 & B4).
  assert (b ∉ HEAD :: l1 ++ l2) as Hnin by set_solver.
  destruct Hring as [Hl Hperm Hn Hp]. rewrite relink_eq. split.
  - by rewrite !length_alter.
  - by rewrite Permutation_middle.
  - eapply path_ext.
    2:{ apply (path_push (fupd (nxt bufs) (lastd HEAD l1) (nxt bufs b))); [|done|done].
        apply path_unlink; [done | by eapply ring_nodup]. }
    intros z _. rewrite nxt_alter_next by (rewrite !length_alter; done).
    unfold fupd at 1 2. case_decide; [done|].
    rewrite nxt_alter_other, nxt_alter_other by done.
    rewrite nxt_alter_next by (rewrite !length_alter; done).
    unfold fupd at 1 2. case_decide; [done|].
    rewrite nxt_alter_next by (rewrite !length_alter; done).
    unfold fupd. case_decide; [done|]. by rewrite nxt_alter_other.
  - rewrite reverse_cons. eapply path_ext.
    2:{ apply (path_snoc (fupd (prv bufs) (nxt bufs b) (lastd HEAD l1)) HEAD
                 (reverse (l1 ++ l2)) HEAD b HEAD); [|set_solver|done].
        destruct ring_neighbours as [Hpb Hnb]. rewrite <- Hpb, Hnb, reverse_app.
        apply path_unlink.
        - rewrite reverse_app, reverse_cons, <- app_assoc in Hp. exact Hp.
        - replace (reverse l2 ++ b :: reverse l1) with (reverse (l1 ++ b :: l2))
            by (by rewrite reverse_app, reverse_cons, <- app_assoc).
          rewrite reverse_Permutation. by eapply ring_nodup. }
    intros z _. rewrite prv_alter_other by done. rewrite prv_alter_prev by (rewrite !length_alter; done).
    rewrite <- first'_eq. unfold fupd at 1 2. case_decide; [done|].
    rewrite prv_alter_prev by (rewrite !length_alter; done).
    unfold fupd at 1 2. case_decide; [done|].
    rewrite prv_alter_other, prv_alter_other by done.
    by rewrite prv_alter_prev.
Qed.
End relink.

(** ** Searching the ring *)

Fixpoint first_buf (test : buf -> bool) (bufs : list buf) (l : list nat) : option nat :=
  match l with
  | [] => None
  | i :: l' => if from_option test false (bufs !! i) then Some i else first_buf test bufs l'
  end.

Lemma first_buf_Some test bufs l b :
  first_buf test bufs l = Some b -> b ∈ l /\ exists bf, bufs !! b = Some bf /\ test bf = true.
Proof.
  induction l as [|i l IH]; simpl; [done|].
  destruct (bufs !! i) as [bf|] eqn:E; simpl; [|set_solver].
  destruct (test bf) eqn:Et; [|set_solver].
  intros [= ->]. split; [by left | eauto].
Qed.

Lemma first_buf_None test bufs l :
  first_buf test bufs l = None ->
  forall i bf, i ∈ l -> bufs !! i = Some bf -> test bf = false.
Proof.
  induction l as [|j l IH]; simpl; [set_solver|]. intros H i bf Hi Hbf.
  destruct (from_option test false (bufs !! j)) eqn:E; [done|].
  apply elem_of_cons in Hi as [->|Hi]; [by rewrite Hbf in E | by eapply IH].
Qed.

Section walk.
Context (step : buf -> nat) (test : buf -> bool) (act : nat -> K unit) (s : kst).
Let nx (i : nat) : nat := from_option step 0%nat (k_bufs s !! i).
Let body (b : nat) : K (nat + option nat) :=
  if b ==? HEAD then ret (inr None) else
  bf <- get_buf b ;;
  if test bf then act b ;; ret (inr (Some b)) else ret (inl (step bf)).

Lemma walk_loop l x n :
  path nx x l HEAD -> HEAD ∉ l -> (forall i, i ∈ l -> is_Some (k_bufs s !! i)) ->
  (length l < n)%nat ->
  (forall b s', first_buf test (k_bufs s) l = Some b -> act b s = Ret tt s' ->
     loop n body (nx x) s = Ret (Some b) s') /\
  (first_buf test (k_bufs s) l = None -> loop n body (nx x) s = Ret None s).
Proof.
  revert x n. induction l as [|z l IH]; intros x n Hp Hh Hs Hn;
    (destruct n as [|n]; [simpl in Hn; lia|]); simpl in Hp.
  - split; [done|]. intros _. rewrite Hp. apply loop_done. unfold body.
    by rewrite bool_decide_eq_true_2.
  - destruct Hp as [-> Hp]. destruct (Hs z ltac:(by left)) as [bf Hbf].
    assert (body z s = (if test bf then act z ;; ret (inr (Some z)) else ret (inl (step bf))) s) as E.
    { unfold body. rewrite bool_decide_eq_false_2 by set_solver.
      by rewrite (bind_Ret _ _ _ _ _ (get_buf_eq _ _ _ Hbf)). }
    cbn [first_buf]. rewrite Hbf. cbn [from_option]. destruct (test bf) eqn:Et.
    + split; [|done]. intros b s' [= <-] Hact. apply loop_done. rewrite E. by rewrite (bind_Ret _ _ _ _ _ Hact).
    + assert (loop (S n) body z s = loop n body (nx z) s) as ->.
      { apply loop_next. rewrite E. unfold nx. by rewrite Hbf. }
      apply IH; [done | set_solver | set_solver | simpl in Hn; lia].
Qed.
End walk.

Section walks.
Context (s : kst) (lru : list nat).
Hypothesis Hring : lru_ring (k_bufs s) lru.

Lemma lru_length : length lru = NBUF.
Proof. by rewrite (ring_perm _ _ Hring), length_seq. Qed.

Lemma walk_next test act : 
  (forall b s', first_buf test (k_bufs s) lru = Some b -> act b s = Ret tt s' ->
     walk (fun bf => b_next bf) test act (nxt (k_bufs s) HEAD) s = Ret (Some b) s') /\
  (first_buf test (k_bufs s) lru = None ->
     walk (fun bf => b_next bf) test act (nxt (k_bufs s) HEAD) s = Ret None s).
Proof.
  apply (walk_loop (fun bf => b_next bf) test act s lru HEAD (S NBUF)).
  - apply Hring.
  - by eapply ring_head_notin.
  - intros i Hi. eapply ring_lookup; [done|]. by right.
  - rewrite lru_length. lia.
Qed.

Lemma walk_prev test act : 
  (forall b s', first_buf test (k_bufs s) (reverse lru) = Some b -> act b s = Ret tt s' ->
     walk (fun bf => b_prev bf) test act (prv (k_bufs s) HEAD) s = Ret (Some b) s') /\
  (first_buf test (k_bufs s) (reverse lru) = None ->
     walk (fun bf => b_prev bf) test act (prv (k_bufs s) HEAD) s = Ret None s).
Proof.
  apply (walk_loop (fun bf => b_prev bf) test act s (reverse lru) HEAD (S NBUF)).
  - apply Hring.
  - intros Hin. apply (ring_head_notin _ _ Hring). set_solver.
  - intros i Hi. eapply ring_lookup; [done|]. right. set_solver.
  - rewrite length_reverse, lru_length. lia.
Qed.
End walks.

(** ** [bget] *)

Definition is_block (dev blockno : Z) (bf : buf) : bool :=
  (b_dev bf =? dev) && (b_blockno bf =? blockno).
Definition is_free (bf : buf) : bool :=
  (b_refcnt bf =? 0) && (Z.land (b_flags bf) B_DIRTY =? 0).

Definition lock_by (pid : Z) : buf -> buf := set_b_lock (mkSleeplock true pid).
Definition recycle (dev blockno : Z) (bf : buf) : buf :=
  set_b_refcnt 1 (set_b_flags 0 (set_b_blockno blockno (set_b_dev dev bf))).

Lemma set_k_bufs_held h s : set_k_bufs (k_bufs s) (set_k_held h s) = set_k_held h s.
Proof. done. Qed.

(** What follows the search: [release(&bcache.lock); acquiresleep(&b->lock)]. *)
Lemma take_buf b f bf s :
  quiet s -> k_bufs s !! b = Some bf -> sl_locked (b_lock (f bf)) = false ->
  (release LBcache ;; acquiresleep (SlBuf b))
    (set_k_bufs (alter f b (k_bufs s)) (set_k_held [LBcache] s)) =
  Ret tt (set_k_bufs (alter (fun bf => lock_by (mypid s) (f bf)) b (k_bufs s)) s).
Proof.
  intros Hq Hb Hl. erewrite (bind_Ret (release _)) by (by apply (release_eq _ [])).
  erewrite (acquiresleep_free (SlBuf b) (b_lock (f bf))).
  - simpl. f_equal. unfold set_k_bufs. simpl. rewrite alter_alter.
    by rewrite (q_held s Hq).
  - eapply quiet_ext; [..|exact Hq]; try done. simpl. by rewrite (q_held s Hq).
  - simpl. by rewrite list_lookup_alter_eq, Hb.
  - done.
Qed.

Section bget.
Context (s : kst) (lru : list nat) (dev blockno : Z).
Hypothesis Hq : quiet s.
Hypothesis Hring : lru_ring (k_bufs s) lru.

Let s0 : kst := set_k_held [LBcache] s.

Lemma bget_start : acquire LBcache s = Ret tt s0.
Proof. rewrite acquire_eq by (rewrite (q_held s Hq); apply not_elem_of_nil). unfold s0. by rewrite (q_held s Hq). Qed.

Lemma bget_head : exists h, k_bufs s !! HEAD = Some h.
Proof. eapply ring_lookup; [done|]. by left. Qed.

Lemma bget_hit b bf :
  first_buf (is_block dev blockno) (k_bufs s) lru = Some b ->
  k_bufs s !! b = Some bf -> sl_locked (b_lock bf) = false ->
  bget dev blockno s = Ret b (set_k_bufs
    (alter (fun bf => lock_by (mypid s) (set_b_refcnt (u32 (b_refcnt bf + 1)) bf)) b (k_bufs s)) s).
Proof.
  intros Hf Hb Hl. unfold bget. rewrite (bind_Ret _ _ _ _ _ bget_start).
  destruct bget_head as [h Hh]. rewrite (bind_Ret _ _ _ _ _ (get_buf_eq HEAD h s0 Hh)).
  replace (b_next h) with (nxt (k_bufs s0) HEAD) by (unfold nxt; simpl; by rewrite Hh).
  erewrite (bind_Ret (walk _ _ _ _)).
  2:{ apply (proj1 (walk_next s0 lru Hring _ _)); [exact Hf|].
      erewrite (bind_Ret (upd_buf _ _)) by (by eapply upd_buf_eq).
      apply (take_buf b (fun bf => set_b_refcnt (u32 (b_refcnt bf + 1)) bf) bf s); done. }
  done.
Qed.

Lemma bget_miss b bf :
  first_buf (is_block dev blockno) (k_bufs s) lru = None ->
  first_buf is_free (k_bufs s) (reverse lru) = Some b ->
  k_bufs s !! b = Some bf -> sl_locked (b_lock bf) = false ->
  bget dev blockno s = Ret b (set_k_bufs
    (alter (fun bf => lock_by (mypid s) (recycle dev blockno bf)) b (k_bufs s)) s).
Proof.
  intros Hn Hf Hb Hl. unfold bget. rewrite (bind_Ret _ _ _ _ _ bget_start).
  destruct bget_head as [h Hh]. rewrite (bind_Ret _ _ _ _ _ (get_buf_eq HEAD h s0 Hh)).
  replace (b_next h) with (nxt (k_bufs s0) HEAD) by (unfold nxt; simpl; by rewrite Hh).
  erewrite (bind_Ret (walk _ _ _ _)) by (apply (proj2 (walk_next s0 lru Hring _ _)); exact Hn).
  cbv iota. rewrite (bind_Ret _ _ _ _ _ (get_buf_eq HEAD h s0 Hh)).
  replace (b_prev h) with (prv (k_bufs s0) HEAD) by (unfold prv; simpl; by rewrite Hh).
  erewrite (bind_Ret (walk _ _ _ _)).
  2:{ apply (proj1 (walk_prev s0 lru Hring _ _)); [exact Hf|].
      erewrite (bind_Ret (upd_buf _ _)) by (by eapply upd_buf_eq).
      do 3 (erewrite (bind_Ret (upd_buf _ _))
        by (eapply upd_buf_eq; simpl; rewrite list_lookup_alter_eq; simpl;
            rewrite ?list_lookup_alter_eq; simpl; rewrite ?list_lookup_alter_eq; simpl;
            rewrite Hb; reflexivity)).
      simpl. rewrite !alter_alter.
      apply (take_buf b (recycle dev blockno) bf s); done. }
  done.
Qed.

Lemma bget_full :
  first_buf (is_block dev blockno) (k_bufs s) lru = None ->
  first_buf is_free (k_bufs s) (reverse lru) = None ->
  bget dev blockno s = Panic "bget: no buffers" s0.
Proof.
  intros Hn Hf. unfold bget. rewrite (bind_Ret _ _ _ _ _ bget_start).
  destruct bget_head as [h Hh]. rewrite (bind_Ret _ _ _ _ _ (get_buf_eq HEAD h s0 Hh)).
  replace (b_next h) with (nxt (k_bufs s0) HEAD) by (unfold nxt; simpl; by rewrite Hh).
  erewrite (bind_Ret (walk _ _ _ _)) by (apply (proj2 (walk_next s0 lru Hring _ _)); exact Hn).
  cbv iota. rewrite (bind_Ret _ _ _ _ _ (get_buf_eq HEAD h s0 Hh)).
  replace (b_prev h) with (prv (k_bufs s0) HEAD) by (unfold prv; simpl; by rewrite Hh).
  by erewrite (bind_Ret (walk _ _ _ _)) by (apply (proj2 (walk_prev s0 lru Hring _ _)); exact Hf).
Qed.
End bget.

(** ** [iderw], [bwrite] and [brelse] on a locked buffer *)

Lemma quiet_bufs bufs s : quiet s -> quiet (set_k_bufs bufs s).
Proof. by apply quiet_ext. Qed.

Lemma holdingsleep_buf b bf s :
  quiet s -> k_bufs s !! b = Some bf -> holdingsleep (SlBuf b) s = Ret (sl_locked (b_lock bf)) s.
Proof. intros Hq Hb. apply holdingsleep_quiet; [done|]. simpl. by rewrite Hb. Qed.

Lemma iderw_read b bf d s :
  quiet s -> k_bufs s !! b = Some bf -> sl_locked (b_lock bf) = true ->
  b_flags bf = 0 -> b_dev bf = 1 -> 0 <= b_blockno bf ->
  k_disk s !! Z.to_nat (b_blockno bf) = Some d ->
  iderw b s = Ret tt (set_k_bufs (alter (fun bf => set_b_flags B_VALID (set_b_data d bf)) b (k_bufs s)) s).
Proof.
  intros Hq Hb Hl Hf Hd Hbn Hdisk. unfold iderw.
  rewrite (bind_Ret _ _ _ _ _ (holdingsleep_buf b bf s Hq Hb)), Hl. cbn [negb].
  rewrite (bind_Ret _ _ _ _ _ (get_buf_eq _ _ _ Hb)), Hf, Hd.
  change (Z.land 0 (Z.lor B_VALID B_DIRTY) =? B_VALID) with false.
  change (Z.land 0 B_DIRTY =? 0) with true. change (1 =? 1) with true. cbn [negb].
  rewrite bind_gets.
  pose proof (lookup_lt_Some _ _ _ Hdisk).
  rewrite (proj2 (Z.leb_gt _ _)) by (unfold zlen; lia).
  cbv zeta. krun. rewrite Hdisk. unfold deref. krun.
  erewrite (bind_Ret (upd_buf _ _)) by (by eapply upd_buf_eq).
  erewrite upd_buf_eq by (simpl; rewrite list_lookup_alter_eq, Hb; reflexivity).
  f_equal. unfold set_k_bufs. simpl. f_equal. rewrite alter_alter. apply list_alter_ext; [|done].
  intros x Hx. assert (x = bf) as -> by congruence. unfold set_b_flags, set_b_data. simpl. by rewrite Hf.
Qed.

(** The disk and its history after writing [data] to block [bn]. *)
Definition disk_write (bn : Z) (data : list Z) (s : kst) : kst :=
  set_k_dtrace (k_dtrace s ++ [(bn, data)]) (set_k_disk (<[Z.to_nat bn := data]> (k_disk s)) s).

Lemma iderw_write b bf s :
  quiet s -> k_bufs s !! b = Some bf -> sl_locked (b_lock bf) = true ->
  b_flags bf = 4 \/ b_flags bf = 6 -> b_dev bf = 1 -> 0 <= b_blockno bf < zlen (k_disk s) ->
  iderw b s = Ret tt (disk_write (b_blockno bf) (b_data bf)
    (set_k_bufs (alter (set_b_flags B_VALID) b (k_bufs s)) s)).
Proof.
  intros Hq Hb Hl Hf Hd Hbn. unfold iderw.
  rewrite (bind_Ret _ _ _ _ _ (holdingsleep_buf b bf s Hq Hb)), Hl. cbn [negb].
  rewrite (bind_Ret _ _ _ _ _ (get_buf_eq _ _ _ Hb)), Hd.
  assert ((Z.land (b_flags bf) (Z.lor B_VALID B_DIRTY) =? B_VALID) = false /\
          (Z.land (b_flags bf) B_DIRTY =? 0) = false) as [-> ->] by (by destruct Hf as [-> | ->]).
  cbn [Z.eqb Pos.eqb negb]. rewrite bind_gets, (proj2 (Z.leb_gt _ _)) by lia. cbv zeta.
  erewrite (bind_Ret (upd_buf _ _)) by (by eapply upd_buf_eq). krun.
  erewrite upd_buf_eq by (simpl; rewrite list_lookup_alter_eq, Hb; reflexivity).
  f_equal. unfold disk_write, set_k_bufs, set_k_dtrace, set_k_disk. simpl. f_equal.
  rewrite alter_alter. apply list_alter_ext; [|done].
  intros x Hx. assert (x = bf) as -> by congruence. unfold set_b_flags. simpl.
  by destruct Hf as [-> | ->].
Qed.

Lemma bwrite_eq b bf s :
  quiet s -> k_bufs s !! b = Some bf -> sl_locked (b_lock bf) = true ->
  b_flags bf = 0 \/ b_flags bf = 2 \/ b_flags bf = 6 -> b_dev bf = 1 ->
  0 <= b_blockno bf < zlen (k_disk s) ->
  bwrite b s = Ret tt (disk_write (b_blockno bf) (b_data bf)
    (set_k_bufs (alter (set_b_flags B_VALID) b (k_bufs s)) s)).
Proof.
  intros Hq Hb Hl Hf Hd Hbn. unfold bwrite.
  rewrite (bind_Ret _ _ _ _ _ (holdingsleep_buf b bf s Hq Hb)), Hl. cbn [negb].
  erewrite (bind_Ret (upd_buf _ _)) by (by eapply upd_buf_eq).
  erewrite iderw_write; [|by apply quiet_bufs | by simpl; rewrite list_lookup_alter_eq, Hb | done | |done|done].
  - simpl. unfold disk_write, set_k_bufs, set_k_dtrace, set_k_disk. simpl. do 2 f_equal.
    rewrite alter_alter. done.
  - simpl. unfold B_DIRTY. destruct Hf as [-> |[-> | ->]]; auto.
Qed.

(** [brelse] of a buffer nobody waits for. *)
Definition release_buf (bf : buf) : buf :=
  set_b_refcnt 0 (set_b_lock (mkSleeplock false 0) bf).

Lemma upd_buf_lt b f s :
  (b < length (k_bufs s))%nat -> upd_buf b f s = Ret tt (set_k_bufs (alter f b (k_bufs s)) s).
Proof. intros [bf Hb]%lookup_lt_is_Some_2. by eapply upd_buf_eq. Qed.

Lemma get_buf_lt b s :
  (b < length (k_bufs s))%nat -> exists bf, get_buf b s = Ret bf s /\
    b_next bf = nxt (k_bufs s) b /\ b_prev bf = prv (k_bufs s) b.
Proof.
  intros [bf Hb]%lookup_lt_is_Some_2. exists bf. unfold nxt, prv. rewrite Hb.
  split; [by apply get_buf_eq | done].
Qed.

(** Moving [b] to the front, in the code and on the list of buffers. *)
Lemma relink_run b l1 l2 s :
  lru_ring (k_bufs s) (l1 ++ b :: l2) ->
  (upd_buf (nxt (k_bufs s) b) (set_b_prev (prv (k_bufs s) b)) ;;
   bf <- get_buf b ;;
   upd_buf (b_prev bf) (set_b_next (b_next bf)) ;;
   h <- get_buf HEAD ;;
   upd_buf b (set_b_next (b_next h)) ;;
   upd_buf b (set_b_prev HEAD) ;;
   h <- get_buf HEAD ;;
   upd_buf (b_next h) (set_b_prev b) ;;
   upd_buf HEAD (set_b_next b)) s = Ret tt (set_k_bufs (relink b (k_bufs s)) s).
Proof.
  intros Hr. destruct (ring_bounds _ _ _ _ Hr) as (B1 & B2 & B3 & B4).
  destruct (ring_neighbours _ _ _ _ Hr) as [Hp Hn].
  destruct (ring_b _ _ _ _ Hr) as (Hbh%not_eq_sym & _ & _ & B5).
  pose proof (relink_eq _ _ _ _ Hr) as E. unfold relink in *. cbv zeta in *.
  set (x1 := alter (set_b_prev (prv (k_bufs s) b)) (nxt (k_bufs s) b) (k_bufs s)) in *.
  rewrite (bind_Ret _ _ _ _ _ (upd_buf_lt _ _ _ B1)).
  change (alter (set_b_prev (prv (k_bufs s) b)) (nxt (k_bufs s) b) (k_bufs s)) with x1.
  destruct (get_buf_lt b (set_k_bufs x1 s)) as (bf & G1 & N1 & P1);
    [subst x1; simpl; by rewrite length_alter|].
  rewrite (bind_Ret _ _ _ _ _ G1), N1, P1. cbn [k_bufs set_k_bufs].
  assert (prv x1 b = lastd HEAD l1) as Ep.
  { subst x1. rewrite prv_alter_prev by done. unfold fupd. rewrite Hp. by case_decide. }
  set (x2 := alter (set_b_next (nxt x1 b)) (prv x1 b) x1) in *.
  erewrite (bind_Ret (upd_buf _ _))
    by (apply upd_buf_lt; simpl; subst x1; rewrite length_alter, Ep; done).
  change (set_k_bufs (alter _ _ (k_bufs (set_k_bufs x1 s))) (set_k_bufs x1 s))
    with (set_k_bufs x2 s).
  assert (length x2 = length (k_bufs s)) as L2 by (subst x2 x1; by rewrite !length_alter).
  destruct (get_buf_lt HEAD (set_k_bufs x2 s)) as (h & G2 & N2 & _); [simpl; by rewrite L2|].
  rewrite (bind_Ret _ _ _ _ _ G2), N2. cbn [k_bufs set_k_bufs].
  erewrite (bind_Ret (upd_buf _ _)) by (apply upd_buf_lt; simpl; by rewrite L2).
  erewrite (bind_Ret (upd_buf _ _)) by (apply upd_buf_lt; simpl; by rewrite length_alter, L2).
  cbn [k_bufs set_k_bufs].
  set (x4 := alter (set_b_prev HEAD) b (alter (set_b_next (nxt x2 HEAD)) b x2)) in *.
  change (set_k_bufs (alter (set_b_prev HEAD) b _) _) with (set_k_bufs x4 s).
  assert (length x4 = length (k_bufs s)) as L4 by (subst x4; by rewrite !length_alter).
  assert (nxt x4 HEAD = first' (k_bufs s) l1 b) as F4.
  { subst x4. rewrite nxt_alter_other by done. rewrite nxt_alter_next by (by rewrite L2).
    unfold fupd. rewrite decide_False by done. subst x2. rewrite Ep.
    rewrite nxt_alter_next by (subst x1; rewrite length_alter; done).
    unfold first', fupd. subst x1. by rewrite !nxt_alter_other by done. }
  destruct (get_buf_lt HEAD (set_k_bufs x4 s)) as (h' & G3 & N3 & _); [simpl; by rewrite L4|].
  rewrite (bind_Ret _ _ _ _ _ G3), N3. cbn [k_bufs set_k_bufs].
  erewrite (bind_Ret (upd_buf _ _)).
  2:{ apply upd_buf_lt. simpl. by rewrite L4, F4. }
  by rewrite upd_buf_lt by (simpl; by rewrite length_alter, L4).
Qed.

Lemma brelse_eq b bf s lru :
  quiet s -> lru_ring (k_bufs s) lru -> b ∈ lru ->
  k_bufs s !! b = Some bf -> sl_locked (b_lock bf) = true -> b_refcnt bf = 1 ->
  brelse b s = Ret tt (set_k_bufs (relink b (alter release_buf b (k_bufs s))) s).
Proof.
  intros Hq Hring Hin Hb Hl Hr. unfold brelse.
  rewrite (bind_Ret _ _ _ _ _ (holdingsleep_buf b bf s Hq Hb)), Hl. cbn [negb].
  erewrite (bind_Ret (releasesleep _)).
  2:{ apply (releasesleep_quiet _ (b_lock bf)); [done|]. simpl. by rewrite Hb. }
  erewrite (bind_Ret (acquire _)) by (apply acquire_eq; simpl; rewrite (q_held s Hq); apply not_elem_of_nil).
  erewrite (bind_Ret (upd_buf _ _))
    by (eapply upd_buf_eq; simpl; rewrite list_lookup_alter_eq, Hb; reflexivity).
  cbn [put_sl k_bufs set_k_bufs k_held set_k_held]. rewrite alter_alter.
  rewrite (list_alter_ext _ release_buf (k_bufs s) (k_bufs s) b); [| |done].
  2:{ intros x Hx. assert (x = bf) as -> by congruence.
      unfold release_buf, set_b_refcnt, set_b_lock. simpl. by rewrite Hr. }
  set (bufs := alter release_buf b (k_bufs s)).
  assert (lru_ring bufs lru) as Hr' by (by apply ring_alter).
  assert (bufs !! b = Some (release_buf bf)) as Hb' by (subst bufs; by rewrite list_lookup_alter_eq, Hb).
  apply list_elem_of_split in Hin as (l1 & l2 & ->).
  change (set_k_bufs bufs _) with (set_k_held (LBcache :: k_held s) (set_k_bufs bufs s)).
  set (t := set_k_held _ (set_k_bufs bufs s)).
  erewrite (bind_Ret (get_buf b)) by (by apply (get_buf_eq b (release_buf bf) t)).
  change (b_refcnt (release_buf bf) =? 0) with true. unfold when.
  replace (b_next (release_buf bf)) with (nxt (k_bufs t) b) by (unfold nxt; simpl; by rewrite Hb').
  replace (b_prev (release_buf bf)) with (prv (k_bufs t) b) by (unfold prv; simpl; by rewrite Hb').
  rewrite (bind_Ret _ _ _ _ _ (relink_run b l1 l2 t Hr')).
  by rewrite (release_eq LBcache (k_held s)).
Qed.

(** ** The cache invariant *)

Definition block_ok (d : list Z) : Prop := zlen d = BSIZE /\ Forall (fun x => 0 <= x < 256) d.

(** One buffer, held or not by the running process.  An unused buffer belongs to
    no device; a clean one that is not held agrees with the disk. *)
Record buf_inv (disk : list (list Z)) (held : bool) (bf : buf) : Prop := {
  bi_flags : b_flags bf = 0 /\ b_dev bf = 0 /\ held = false \/
             (b_flags bf = 2 \/ b_flags bf = 6) /\ b_dev bf = 1 /\ 0 <= b_blockno bf < zlen disk;
  bi_data : block_ok (b_data bf);
  bi_lock : sl_locked (b_lock bf) = held;
  bi_ref : b_refcnt bf = b2z held;
  bi_clean : held = false -> b_flags bf = 2 -> disk !! Z.to_nat (b_blockno bf) = Some (b_data bf)
}.

(** [cache_inv s H]: the buffers of [H] are held by the running process, which is
    alone in the cache. *)
Record cache_inv (s : kst) (H : list nat) : Prop := {
  ci_ring : exists lru, lru_ring (k_bufs s) lru;
  ci_uniq i j x y : k_bufs s !! i = Some x -> k_bufs s !! j = Some y ->
    b_dev x = 1 -> b_dev y = 1 -> b_blockno x = b_blockno y -> i = j;
  ci_buf i bf : (i < NBUF)%nat -> k_bufs s !! i = Some bf ->
    buf_inv (k_disk s) (bool_decide (i ∈ H)) bf;
  ci_head bf : k_bufs s !! HEAD = Some bf -> b_dev bf = 0 /\ b_flags bf = 0;
  ci_held : NoDup H /\ forall i, i ∈ H -> (i < NBUF)%nat;
  ci_disk : Forall block_ok (k_disk s)
}.

(** A block as the file system sees it. *)
Definition vblock (s : kst) (x : Z) : option (list Z) :=
  match findi (is_block 1 x) (k_bufs s) with
  | Some i => (fun b => b_data b) <$> k_bufs s !! i
  | None => k_disk s !! Z.to_nat x
  end.

(** Buffer [b] holds block [x] with content [d]. *)
Definition holds (s : kst) (b : nat) (x : Z) (d : list Z) : Prop :=
  exists bf, k_bufs s !! b = Some bf /\ b_dev bf = 1 /\ b_blockno bf = x /\ b_data bf = d.

(** Block [x] has been changed in the cache and not yet written to disk. *)
Definition pinned (s : kst) (x : Z) : Prop :=
  exists i bf, k_bufs s !! i = Some bf /\ b_flags bf = 6 /\ b_blockno bf = x.

Lemma is_block_true dev x bf : is_block dev x bf = true <-> b_dev bf = dev /\ b_blockno bf = x.
Proof. unfold is_block. by rewrite andb_true_iff, !Z.eqb_eq. Qed.

Lemma cache_len s H : cache_inv s H -> length (k_bufs s) = S NBUF.
Proof. intros Hi. destruct (ci_ring _ _ Hi) as [lru Hr]. apply Hr. Qed.

(** The head is no block's buffer. *)
Lemma cache_lt s H i bf :
  cache_inv s H -> k_bufs s !! i = Some bf -> b_dev bf = 1 \/ b_flags bf = 6 -> (i < NBUF)%nat.
Proof.
  intros Hi Hb Hd. pose proof (lookup_lt_Some _ _ _ Hb) as Hl. rewrite (cache_len _ _ Hi) in Hl.
  destruct (decide (i = HEAD)) as [->|]; [|unfold HEAD in *; lia].
  destruct (ci_head _ _ Hi bf Hb) as [E1 E2]. destruct Hd; congruence.
Qed.

Lemma vblock_at s H i bf x :
  cache_inv s H -> k_bufs s !! i = Some bf -> is_block 1 x bf = true ->
  vblock s x = Some (b_data bf).
Proof.
  intros Hi Hb Hx. unfold vblock.
  destruct (findi (is_block 1 x) (k_bufs s)) as [j|] eqn:E.
  - apply findi_Some in E as (y & Hy & Ey & _). apply is_block_true in Hx, Ey.
    assert (j = i) as -> by (eapply (ci_uniq _ _ Hi); [done|done|naive_solver..]).
    by rewrite Hb.
  - by rewrite (proj1 (findi_None _ _) E i bf Hb) in Hx.
Qed.

Lemma vblock_none s x :
  (forall i bf, k_bufs s !! i = Some bf -> is_block 1 x bf = false) ->
  vblock s x = k_disk s !! Z.to_nat x.
Proof. intros H. unfold vblock. by rewrite (proj2 (findi_None _ _) H). Qed.

Lemma vblock_cases s x :
  (exists i bf, k_bufs s !! i = Some bf /\ is_block 1 x bf = true) \/
  (forall i bf, k_bufs s !! i = Some bf -> is_block 1 x bf = false).
Proof.
  destruct (findi (is_block 1 x) (k_bufs s)) as [i|] eqn:E.
  - apply findi_Some in E as (bf & Hb & Hx & _). eauto.
  - right. by apply findi_None.
Qed.

Lemma holds_vblock s H b x d : cache_inv s H -> holds s b x d -> vblock s x = Some d.
Proof.
  intros Hi (bf & Hb & Hd & Hx & <-). eapply vblock_at; [done|done|]. by apply is_block_true.
Qed.

Lemma vblock_block_ok s H x d : cache_inv s H -> vblock s x = Some d -> block_ok d.
Proof.
  intros Hi. destruct (vblock_cases s x) as [(i & bf & Hb & Hx)|Hn].
  - rewrite (vblock_at s H i bf x Hi Hb Hx). intros [= <-].
    apply is_block_true in Hx as [Hd _].
    eapply bi_data, (ci_buf _ _ Hi); [eapply cache_lt; eauto | done].
  - rewrite vblock_none by done. intros Hx. eapply Forall_lookup_1; [apply Hi|done].
Qed.

(** *** Links do not matter to the content *)

Definition core (bf : buf) : buf := set_b_prev 0 (set_b_next 0 bf).

Lemma relink_core b bufs i : core <$> relink b bufs !! i = core <$> bufs !! i.
Proof.
  unfold relink. cbv zeta. rewrite !lookup_alter_case.
  repeat case_decide; destruct (bufs !! i); done.
Qed.

Definition same_core (bufs bufs' : list buf) : Prop :=
  forall i, core <$> bufs' !! i = core <$> bufs !! i.

Lemma same_core_lookup bufs bufs' i bf' :
  same_core bufs bufs' -> bufs' !! i = Some bf' ->
  exists bf, bufs !! i = Some bf /\ core bf' = core bf.
Proof.
  intros Hc Hb. specialize (Hc i). rewrite Hb in Hc. simpl in Hc. symmetry in Hc.
  apply fmap_Some in Hc as (bf & Hb' & ->). eauto.
Qed.

Lemma buf_inv_core disk h bf bf' : core bf' = core bf -> buf_inv disk h bf -> buf_inv disk h bf'.
Proof.
  intros E [H1 H2 H3 H4 H5]. 
  pose proof (f_equal (fun b => b_dev b) E) as E1. pose proof (f_equal (fun b => b_blockno b) E) as E2.
  pose proof (f_equal (fun b => b_flags b) E) as E3. pose proof (f_equal (fun b => b_data b) E) as E4.
  pose proof (f_equal (fun b => b_lock b) E) as E5. pose proof (f_equal (fun b => b_refcnt b) E) as E6.
  simpl in *. split; rewrite ?E1, ?E2, ?E3, ?E4, ?E5, ?E6; done.
Qed.

Lemma is_block_core x bf bf' : core bf' = core bf -> is_block 1 x bf' = is_block 1 x bf.
Proof.
  intros E. pose proof (f_equal (is_block 1 x) E) as H. exact H.
Qed.

Section same_core.
Context (s : kst) (bufs' : list buf).
Hypothesis Hc : same_core (k_bufs s) bufs'.

Lemma cache_inv_core H :
  (exists lru, lru_ring bufs' lru) -> cache_inv s H -> cache_inv (set_k_bufs bufs' s) H.
Proof.
  intros Hr [C1 C2 C3 C4 C5 C6]. split; simpl; [done| | | |done|done].
  - intros i j x y Hx Hy.
    destruct (same_core_lookup _ _ _ _ Hc Hx) as (x0 & Hx0 & Ex).
    destruct (same_core_lookup _ _ _ _ Hc Hy) as (y0 & Hy0 & Ey).
    pose proof (f_equal (fun b => b_dev b) Ex). pose proof (f_equal (fun b => b_dev b) Ey).
    pose proof (f_equal (fun b => b_blockno b) Ex). pose proof (f_equal (fun b => b_blockno b) Ey).
    simpl in *. intros. eapply C2; [exact Hx0 | exact Hy0 | congruence..].
  - intros i bf Hi Hb. destruct (same_core_lookup _ _ _ _ Hc Hb) as (b0 & Hb0 & E).
    eapply buf_inv_core; eauto.
  - intros bf Hb. destruct (same_core_lookup _ _ _ _ Hc Hb) as (b0 & Hb0 & E).
    pose proof (f_equal (fun b => b_dev b) E). pose proof (f_equal (fun b => b_flags b) E).
    simpl in *. destruct (C4 b0 Hb0). split; congruence.
Qed.

Lemma holds_core b x d : holds (set_k_bufs bufs' s) b x d <-> holds s b x d.
Proof.
  unfold holds. simpl. pose proof (Hc b) as E.
  destruct (k_bufs s !! b) as [b0|], (bufs' !! b) as [b1|]; try done.
  injection E as E1 E2 E3 E4 E5 E6.
  split; intros (bf & [= <-] & ?); eexists; (split; [done|]); intuition congruence.
Qed.

Lemma pinned_core x : pinned (set_k_bufs bufs' s) x <-> pinned s x.
Proof.
  unfold pinned. simpl. split; intros (i & bf & Hb & H); pose proof (Hc i) as E; rewrite Hb in E.
  - destruct (k_bufs s !! i) as [b0|] eqn:E0; [|done]. injection E as E1 E2 E3 E4 E5 E6.
    exists i, b0. split; [done|]. intuition congruence.
  - destruct (bufs' !! i) as [b0|] eqn:E0; [|done]. injection E as E1 E2 E3 E4 E5 E6.
    exists i, b0. split; [done|]. intuition congruence.
Qed.

Lemma vblock_core H x :
  (exists lru, lru_ring bufs' lru) -> cache_inv s H ->
  vblock (set_k_bufs bufs' s) x = vblock s x.
Proof.
  intros Hr Hi. destruct (vblock_cases s x) as [(i & bf & Hb & Hx)|Hn].
  - pose proof (Hc i) as E. rewrite Hb in E.
    destruct (bufs' !! i) as [b0|] eqn:E0; [|done]. injection E as E1 E2 E3 E4 E5 E6.
    rewrite (vblock_at s H i bf x Hi Hb Hx).
    rewrite (vblock_at (set_k_bufs bufs' s) H i b0 x);
      [by f_equal | by apply cache_inv_core | done |].
    apply is_block_true. apply is_block_true in Hx. intuition congruence.
  - rewrite (vblock_none s x Hn), vblock_none; [done|]. simpl. intros i bf Hb.
    destruct (same_core_lookup _ _ _ _ Hc Hb) as (b0 & Hb0 & E).
    rewrite (is_block_core x b0 bf E). by eapply Hn.
Qed.
End same_core.

(** ** Changing one buffer *)

Section alter_buf.
Context (s : kst) (H : list nat) (b : nat) (bf : buf) (f : buf -> buf).
Hypothesis Hi : cache_inv s H.
Hypothesis Hb : k_bufs s !! b = Some bf.
Hypothesis Hlt : (b < NBUF)%nat.
Hypothesis Hlinks : forall x, b_next (f x) = b_next x /\ b_prev (f x) = b_prev x.

Let s' : kst := set_k_bufs (alter f b (k_bufs s)) s.

Lemma alter_at i y :
  k_bufs s' !! i = Some y -> (i = b /\ y = f bf) \/ (i <> b /\ k_bufs s !! i = Some y).
Proof.
  simpl. rewrite lookup_alter_case. case_decide.
  - subst. rewrite Hb. intros [= <-]. by left.
  - intros. right. split; [congruence | done].
Qed.

Lemma cache_inv_alter H' :
  buf_inv (k_disk s) (bool_decide (b ∈ H')) (f bf) ->
  (forall i, i <> b -> i ∈ H' <-> i ∈ H) ->
  NoDup H' ->
  (b_dev (f bf) = 1 -> forall i y, i <> b -> k_bufs s !! i = Some y ->
     b_dev y = 1 -> b_blockno y <> b_blockno (f bf)) ->
  cache_inv s' H'.
Proof.
  intros Hbf HH Hnd Hu. destruct Hi as [C1 C2 C3 C4 C5 C6]. split.
  - destruct C1 as [lru Hr]. exists lru. apply ring_alter; [apply Hlinks | apply Hlinks | done].
  - intros i j x y Hx Hy Dx Dy Exy.
    destruct (alter_at _ _ Hx) as [[-> ->]|[Ni Hx']], (alter_at _ _ Hy) as [[-> ->]|[Nj Hy']];
      [done | | |by eapply C2].
    + exfalso. eapply (Hu Dx j y); done.
    + exfalso. eapply (Hu Dy i x); [done..|]. congruence.
  - intros i y Hli Hy. destruct (alter_at _ _ Hy) as [[-> ->]|[Ni Hy']]; [done|].
    rewrite (bool_decide_ext _ (i ∈ H)) by auto. by apply C3.
  - intros y Hy. destruct (alter_at _ _ Hy) as [[E ->]|[Ni Hy']]; [|auto].
    unfold HEAD in E. lia.
  - split; [done|]. intros i Hin. destruct (decide (i = b)) as [->|]; [done|].
    apply C5. by apply HH.
  - done.
Qed.

(** The view of a block the buffer caches neither before nor after. *)
Lemma vblock_alter_ne x :
  is_block 1 x bf = false -> is_block 1 x (f bf) = false ->
  (exists H', cache_inv s' H') -> vblock s' x = vblock s x.
Proof.
  intros N1 N2 [H' Hi']. destruct (vblock_cases s x) as [(i & y & Hy & Hx)|Hn].
  - assert (i <> b) by (intros ->; congruence).
    rewrite (vblock_at s H i y x Hi Hy Hx). apply (vblock_at s' H' i y x Hi'); [|done].
    simpl. by rewrite list_lookup_alter_ne.
  - rewrite (vblock_none s x Hn), vblock_none; [done|]. intros i y Hy.
    destruct (alter_at _ _ Hy) as [[-> ->]|[Ni Hy']]; [done | by eapply Hn].
Qed.

Lemma holds_alter_ne i x d : i <> b -> holds s i x d -> holds s' i x d.
Proof. intros Hne (y & Hy & ?). exists y. simpl. by rewrite list_lookup_alter_ne. Qed.

Lemma pinned_alter x :
  pinned s' x <-> (b_flags (f bf) = 6 /\ b_blockno (f bf) = x) \/
                  (exists i y, i <> b /\ k_bufs s !! i = Some y /\ b_flags y = 6 /\ b_blockno y = x).
Proof.
  split.
  - intros (i & y & Hy & ? & ?). destruct (alter_at _ _ Hy) as [[-> ->]|[Ni Hy']]; [by left|].
    right. by exists i, y.
  - intros [[? ?]|(i & y & Ni & Hy & ? & ?)].
    + exists b, (f bf). split; [|done]. simpl. by rewrite list_lookup_alter_eq, Hb.
    + exists i, y. split; [|done]. simpl. by rewrite list_lookup_alter_ne.
Qed.

Lemma pinned_split x :
  pinned s x <-> (b_flags bf = 6 /\ b_blockno bf = x) \/
                 (exists i y, i <> b /\ k_bufs s !! i = Some y /\ b_flags y = 6 /\ b_blockno y = x).
Proof.
  split.
  - intros (i & y & Hy & ? & ?). destruct (decide (i = b)) as [->|Ni].
    + left. assert (y = bf) as -> by congruence. done.
    + right. by exists i, y.
  - intros [[? ?]|(i & y & Ni & Hy & ? & ?)]; [by exists b, bf | by exists i, y].
Qed.

(** An update that keeps block and content changes no view. *)
Lemma vblock_alter_same x :
  b_dev (f bf) = b_dev bf -> b_blockno (f bf) = b_blockno bf -> b_data (f bf) = b_data bf ->
  (exists H', cache_inv s' H') -> vblock s' x = vblock s x.
Proof.
  intros E1 E2 E3 [H' Hi']. destruct (is_block 1 x bf) eqn:E.
  - rewrite (vblock_at s H b bf x Hi Hb E).
    rewrite (vblock_at s' H' b (f bf) x Hi'); [by rewrite E3| |].
    + simpl. by rewrite list_lookup_alter_eq, Hb.
    + unfold is_block in *. by rewrite E1, E2.
  - apply vblock_alter_ne; [done | |eauto]. unfold is_block in *. by rewrite E1, E2.
Qed.
End alter_buf.

Lemma cache_inv_perm s H H' : H ≡ₚ H' -> cache_inv s H -> cache_inv s H'.
Proof.
  intros HP [C1 C2 C3 C4 C5 C6]. split; try done.
  - intros i bf Hi Hb. rewrite (bool_decide_ext _ (i ∈ H)) by (by rewrite HP). auto.
  - split; [rewrite <- HP; apply C5|]. intros i. rewrite <- HP. apply C5.
Qed.

(** What an operation of the cache leaves unchanged: everything but the buffers. *)
Definition only_bufs (s s' : kst) : Prop := s' = set_k_bufs (k_bufs s') s.

(** The views, the pinned blocks and the contents of the held buffers agree. *)
Record same_view (H : list nat) (s s' : kst) : Prop := {
  sv_vblock x : 0 <= x -> vblock s' x = vblock s x;
  sv_pinned x : pinned s' x <-> pinned s x;
  sv_holds i x d : i ∈ H -> holds s i x d -> holds s' i x d
}.

(** A buffer [bget] can recycle. *)
Definition has_room (s : kst) : Prop :=
  exists i bf, (i < NBUF)%nat /\ k_bufs s !! i = Some bf /\ is_free bf = true.

Definition is_cached (s : kst) (x : Z) : Prop :=
  exists i bf, k_bufs s !! i = Some bf /\ is_block 1 x bf = true.

Section bread.
Context (s : kst) (H : list nat) (x : Z).
Hypothesis Hq : quiet s.
Hypothesis Hi : cache_inv s H.
Hypothesis Hx : 0 <= x < zlen (k_disk s).
Hypothesis Hfree : forall i d, i ∈ H -> ~ holds s i x d.

Lemma bread_hit b bf :
  k_bufs s !! b = Some bf -> is_block 1 x bf = true ->
  exists s', bread 1 x s = Ret b s' /\ only_bufs s s' /\ cache_inv s' (b :: H) /\ b ∉ H /\
    same_view H s s' /\ exists d, vblock s x = Some d /\ holds s' b x d.
Proof.
  intros Hb Hbx. pose proof (proj1 (is_block_true _ _ _) Hbx) as [Hd Hn].
  assert (b < NBUF)%nat as Hlt by (eapply cache_lt; eauto).
  assert (b ∉ H) as HbH by (intros Hin; apply (Hfree b (b_data bf) Hin); by exists bf).
  pose proof (ci_buf _ _ Hi b bf Hlt Hb) as Bi.
  rewrite (bool_decide_eq_false_2 _ HbH) in Bi. destruct Bi as [B1 B2 B3 B4 B5].
  destruct (ci_ring _ _ Hi) as [lru Hr].
  set (f := fun bf => lock_by (mypid s) (set_b_refcnt (u32 (b_refcnt bf + 1)) bf)).
  assert (forall x, b_next (f x) = b_next x /\ b_prev (f x) = b_prev x) as Hlinks by done.
  assert (cache_inv (set_k_bufs (alter f b (k_bufs s)) s) (b :: H)) as Hi'.
  { apply (cache_inv_alter s H b bf f Hi Hb Hlt Hlinks).
    - rewrite bool_decide_eq_true_2 by set_solver.
      split; simpl; [destruct B1 as [(_ & E & _)|?]; [congruence | by right] | done | done | |done].
      unfold f. simpl. by rewrite B4.
    - set_solver.
    - constructor; [done | apply Hi].
    - intros _ i y Hne Hy Hdy E. apply Hne. eapply (ci_uniq _ _ Hi); eauto. }
  assert (bget 1 x s = Ret b (set_k_bufs (alter f b (k_bufs s)) s)) as Eg.
  { eapply (bget_hit s lru 1 x Hq Hr b bf); [|done|done].
    destruct (first_buf (is_block 1 x) (k_bufs s) lru) as [j|] eqn:E.
    - apply first_buf_Some in E as (_ & y & Hy & Ey). apply is_block_true in Ey as [? ?].
      f_equal. eapply (ci_uniq _ _ Hi); [exact Hy | exact Hb | congruence..].
    - rewrite (first_buf_None _ _ _ E b bf) in Hbx; [done | | done].
      rewrite (ring_perm _ _ Hr). apply elem_of_seq. lia. }
  exists (set_k_bufs (alter f b (k_bufs s)) s). split_and!; [ | done | done | done | | ].
  - unfold bread. rewrite (bind_Ret _ _ _ _ _ Eg).
    erewrite (bind_Ret (get_buf b)) by (apply get_buf_eq; simpl; rewrite list_lookup_alter_eq, Hb; done).
    assert ((Z.land (b_flags (f bf)) B_VALID =? 0) = false) as ->; [|done].
    simpl. destruct B1 as [(_ & E & _)|([-> | ->] & _)]; [congruence | done | done].
  - split.
    + intros z _. apply (vblock_alter_same s H b bf f Hi Hb Hlt); [done..|eauto].
    + intros z. rewrite (pinned_alter s b bf f Hb Hlt), (pinned_split s b bf Hb). done.
    + intros i z d Hin. apply holds_alter_ne. set_solver.
  - exists (b_data bf). split; [by eapply vblock_at|]. exists (f bf).
    simpl. by rewrite list_lookup_alter_eq, Hb.
Qed.

(** The buffer recycled for block [x], with the block's contents. *)
Definition filled (d : list Z) (bf : buf) : buf :=
  set_b_flags B_VALID (set_b_data d (lock_by (mypid s) (recycle 1 x bf))).

(** Recycling a free buffer changes no block anyone sees. *)
Lemma miss_same_view b bf d :
  (forall i bf, k_bufs s !! i = Some bf -> is_block 1 x bf = false) ->
  k_bufs s !! b = Some bf -> (b < NBUF)%nat -> is_free bf = true -> b ∉ H ->
  k_disk s !! Z.to_nat x = Some d ->
  cache_inv (set_k_bufs (alter (filled d) b (k_bufs s)) s) (b :: H) ->
  same_view H s (set_k_bufs (alter (filled d) b (k_bufs s)) s).
Proof.
  intros Hn Hb Hlt Hfr HbH Hd Hi'. set (f := filled d) in *.
  pose proof (ci_buf _ _ Hi b bf Hlt Hb) as [B1 B2 B3 B4 B5].
  rewrite (bool_decide_eq_false_2 _ HbH) in *.
  unfold is_free in Hfr. apply andb_true_iff in Hfr as [Fr%Z.eqb_eq Ff%Z.eqb_eq].
  assert (forall x, b_next (f x) = b_next x /\ b_prev (f x) = b_prev x) as Hlinks by done.
  split.
  - intros z Hz. destruct (decide (z = x)) as [->|Hzx].
    + rewrite (vblock_none s x Hn). rewrite Hd.
      apply (vblock_at _ (b :: H) b (f bf) x Hi'); [simpl; by rewrite list_lookup_alter_eq, Hb|].
      by apply is_block_true.
    + assert (is_block 1 z (f bf) = false) as Nz
        by (apply not_true_iff_false; rewrite is_block_true; simpl; naive_solver).
      destruct (is_block 1 z bf) eqn:Ez; [|apply (vblock_alter_ne s H b bf f Hi Hb Hlt); [done..|eauto]].
      rewrite (vblock_at s H b bf z Hi Hb Ez). apply is_block_true in Ez as [Dz Nz'].
      rewrite vblock_none.
      * simpl. rewrite <- Nz'. apply B5; [done|].
         destruct B1 as [(E & E' & _)|([E|E] & _)]; [congruence | done|].
         rewrite E in Ff. done.
      * intros j y Hy. destruct (alter_at s b bf f Hb Hlt j y Hy) as [[-> ->]|[Nj Hy']]; [done|].
         apply not_true_iff_false. rewrite is_block_true. intros [Dy Ny].
         apply Nj. eapply (ci_uniq _ _ Hi); [done | exact Hb | congruence..].
  - intros z. rewrite (pinned_alter s b bf f Hb Hlt), (pinned_split s b bf Hb). simpl.
    assert (b_flags bf <> 6) by (intros E; by rewrite E in Ff).
    split; intros [[? ?]|?]; (by right) || done.
  - intros i z e Hin'. apply holds_alter_ne. set_solver.
Qed.

Lemma bread_miss :
  ~ is_cached s x -> has_room s ->
  exists b s', bread 1 x s = Ret b s' /\ only_bufs s s' /\ cache_inv s' (b :: H) /\ b ∉ H /\
    same_view H s s' /\ exists d, vblock s x = Some d /\ holds s' b x d.
Proof.
  intros Hnc (i0 & y0 & Hlt0 & Hy0 & Hf0).
  assert (forall i bf, k_bufs s !! i = Some bf -> is_block 1 x bf = false) as Hn.
  { intros i bf Hbf. destruct (is_block 1 x bf) eqn:E; [|done]. destruct Hnc. by exists i, bf. }
  destruct (ci_ring _ _ Hi) as [lru Hr].
  destruct (first_buf is_free (k_bufs s) (reverse lru)) as [b|] eqn:Ef.
  2:{ rewrite (first_buf_None _ _ _ Ef i0 y0) in Hf0; [done | | done].
      rewrite elem_of_reverse, (ring_perm _ _ Hr). apply elem_of_seq. lia. }
  destruct (first_buf_Some _ _ _ _ Ef) as (Hin & bf & Hb & Hfr).
  assert (b < NBUF)%nat as Hlt
    by (rewrite elem_of_reverse, (ring_perm _ _ Hr) in Hin; apply elem_of_seq in Hin; lia).
  pose proof (ci_buf _ _ Hi b bf Hlt Hb) as [B1 B2 B3 B4 B5].
  pose proof Hfr as Hfr'. unfold is_free in Hfr. apply andb_true_iff in Hfr as [Fr%Z.eqb_eq Ff%Z.eqb_eq].
  assert (b ∉ H) as HbH.
  { intros Hin'. rewrite bool_decide_eq_true_2 in B4 by done. simpl in B4. congruence. }
  rewrite (bool_decide_eq_false_2 _ HbH) in *.
  destruct (lookup_lt_is_Some_2 (k_disk s) (Z.to_nat x)) as [d Hd]; [unfold zlen in *; lia|].
  set (f := filled d).
  assert (forall x, b_next (f x) = b_next x /\ b_prev (f x) = b_prev x) as Hlinks by done.
  assert (cache_inv (set_k_bufs (alter f b (k_bufs s)) s) (b :: H)) as Hi'.
  { apply (cache_inv_alter s H b bf f Hi Hb Hlt Hlinks).
    - rewrite bool_decide_eq_true_2 by set_solver. split; simpl; [by right; auto | |done|done|done].
      eapply Forall_lookup_1; [apply Hi | done].
    - set_solver.
    - constructor; [done | apply Hi].
    - intros _ i y Hne Hy Hdy E. specialize (Hn i y Hy). apply not_true_iff_false in Hn.
      apply Hn. by apply is_block_true. }
  assert (bget 1 x s = Ret b (set_k_bufs (alter (fun bf => lock_by (mypid s) (recycle 1 x bf)) b (k_bufs s)) s)) as Eg.
  { eapply (bget_miss s lru 1 x Hq Hr b bf); [|done|done|done].
    destruct (first_buf (is_block 1 x) (k_bufs s) lru) as [j|] eqn:E; [|done].
    apply first_buf_Some in E as (_ & y & Hy & Ey). by rewrite (Hn j y Hy) in Ey. }
  exists b, (set_k_bufs (alter f b (k_bufs s)) s). split_and!; [ | done | done | done | | ].
  - unfold bread. rewrite (bind_Ret _ _ _ _ _ Eg).
    erewrite (bind_Ret (get_buf b)) by (apply get_buf_eq; simpl; rewrite list_lookup_alter_eq, Hb; done).
    change (Z.land _ B_VALID =? 0) with true. unfold when.
    erewrite (bind_Ret (iderw b)).
    2:{ eapply iderw_read; [by apply quiet_bufs | simpl; rewrite list_lookup_alter_eq, Hb; done
          | done | done | done | simpl; lia | exact Hd]. }
    simpl. by rewrite alter_alter.
  - by apply (miss_same_view b bf d).
  - exists d. rewrite (vblock_none s x Hn). split; [done|]. exists (f bf).
    simpl. by rewrite list_lookup_alter_eq, Hb.
Qed.
End bread.

(** ** The operations on the views *)

Lemma bread_spec s H x :
  quiet s -> cache_inv s H -> 0 <= x < zlen (k_disk s) ->
  (forall i d, i ∈ H -> ~ holds s i x d) -> is_cached s x \/ has_room s ->
  exists b s', bread 1 x s = Ret b s' /\ only_bufs s s' /\ cache_inv s' (b :: H) /\ b ∉ H /\
    same_view H s s' /\ exists d, vblock s x = Some d /\ holds s' b x d.
Proof.
  intros Hq Hi Hx Hf Hroom. destruct (vblock_cases s x) as [(i & bf & Hb & Hbx)|Hn].
  - destruct (bread_hit s H x Hq Hi Hx Hf i bf Hb Hbx) as (s' & ?). by exists i, s'.
  - assert (~ is_cached s x) as Hnc.
    { intros (i & bf & Hb & Hbx). by rewrite (Hn i bf Hb) in Hbx. }
    destruct Hroom as [|Hroom]; [done|].
    apply (bread_miss s H x Hq Hi Hx Hf Hnc Hroom).
Qed.

Section held.
Context (s : kst) (H : list nat) (b : nat) (bf : buf).
Hypothesis Hq : quiet s.
Hypothesis Hi : cache_inv s (b :: H).
Hypothesis Hb : k_bufs s !! b = Some bf.

Lemma held_lt : (b < NBUF)%nat.
Proof. apply (ci_held _ _ Hi). by left. Qed.

Lemma held_inv : buf_inv (k_disk s) true bf.
Proof.
  pose proof (ci_buf _ _ Hi b bf held_lt Hb) as B.
  by rewrite bool_decide_eq_true_2 in B by (by left).
Qed.

Lemma held_facts : (b_flags bf = 2 \/ b_flags bf = 6) /\ b_dev bf = 1 /\
  0 <= b_blockno bf < zlen (k_disk s) /\ block_ok (b_data bf) /\
  sl_locked (b_lock bf) = true /\ b_refcnt bf = 1.
Proof. destruct held_inv as [[(_ & _ & ?)|B1] B2 B3 B4 B5]; [done|]. naive_solver. Qed.

Lemma held_notin : b ∉ H /\ NoDup H.
Proof. destruct (ci_held _ _ Hi) as [Hnd _]. by apply NoDup_cons in Hnd. Qed.

Lemma held_uniq : forall i y, i <> b -> k_bufs s !! i = Some y -> b_dev y = 1 ->
  b_blockno y <> b_blockno bf.
Proof.
  intros i y Hne Hy Hd E. apply Hne. destruct held_facts as (_ & D & _).
  by eapply (ci_uniq _ _ Hi).
Qed.

Lemma brelse_held :
  b_flags bf = 6 \/ k_disk s !! Z.to_nat (b_blockno bf) = Some (b_data bf) ->
  exists s', brelse b s = Ret tt s' /\ only_bufs s s' /\ cache_inv s' H /\ same_view H s s'.
Proof.
  intros Hrel. destruct held_facts as (F1 & F2 & F3 & F4 & F5 & F6).
  destruct held_notin as [Hn1 Hn2]. pose proof held_lt as Hlt.
  destruct (ci_ring _ _ Hi) as [lru Hr].
  assert (b ∈ lru) as Hin by (rewrite (ring_perm _ _ Hr); apply elem_of_seq; lia).
  assert (forall x, b_next (release_buf x) = b_next x /\ b_prev (release_buf x) = b_prev x) as Hlinks
    by done.
  set (s1 := set_k_bufs (alter release_buf b (k_bufs s)) s).
  assert (cache_inv s1 H) as Hi1.
  { apply (cache_inv_alter s (b :: H) b bf release_buf Hi Hb Hlt Hlinks).
    - rewrite bool_decide_eq_false_2 by done. split; [by right | done | done | done |].
      simpl. intros _ E. destruct Hrel as [Hd|Hd]; [congruence | done].
    - set_solver.
    - done.
    - intros _ i y. apply held_uniq. }
  assert (exists lru', lru_ring (relink b (k_bufs s1)) lru') as Hr'.
  { apply list_elem_of_split in Hin as (l1 & l2 & ->). exists (b :: l1 ++ l2).
    apply relink_ring. by apply ring_alter. }
  assert (same_core (k_bufs s1) (relink b (k_bufs s1))) as Hsc by (intros i; apply relink_core).
  exists (set_k_bufs (relink b (k_bufs s1)) s). split_and!.
  - by apply (brelse_eq b bf s lru).
  - done.
  - by apply (cache_inv_core s1 _ Hsc H).
  - split.
    + intros x _. change (set_k_bufs _ s) with (set_k_bufs (relink b (k_bufs s1)) s1).
      rewrite (vblock_core s1 _ Hsc H x) by done.
      apply (vblock_alter_same s (b :: H) b bf release_buf Hi Hb Hlt); [done..|by exists H].
    + intros x. change (set_k_bufs _ s) with (set_k_bufs (relink b (k_bufs s1)) s1).
      rewrite (pinned_core s1 _ Hsc). unfold s1.
      rewrite (pinned_alter s b bf release_buf Hb Hlt), (pinned_split s b bf Hb).
      done.
    + intros i x d Hih Hh. change (set_k_bufs _ s) with (set_k_bufs (relink b (k_bufs s1)) s1).
      apply (holds_core s1 _ Hsc). apply holds_alter_ne; [set_solver | done].
Qed.

(** Storing into [b->data]. *)
Lemma store_held d' :
  block_ok d' ->
  exists s', upd_buf b (set_b_data d') s = Ret tt s' /\ only_bufs s s' /\ cache_inv s' (b :: H) /\
    (forall x, 0 <= x -> vblock s' x = if x =? b_blockno bf then Some d' else vblock s x) /\
    (forall x, pinned s' x <-> pinned s x) /\
    (forall i x d, i ∈ H -> holds s i x d -> holds s' i x d) /\
    holds s' b (b_blockno bf) d' /\
    exists bf', k_bufs s' !! b = Some bf' /\ b_flags bf' = b_flags bf.
Proof.
  intros Hd'. destruct held_facts as (F1 & F2 & F3 & F4 & F5 & F6).
  destruct held_notin as [Hn1 Hn2]. pose proof held_lt as Hlt.
  assert (forall x, b_next (set_b_data d' x) = b_next x /\ b_prev (set_b_data d' x) = b_prev x) as Hlinks
    by done.
  set (s1 := set_k_bufs (alter (set_b_data d') b (k_bufs s)) s).
  assert (k_bufs s1 !! b = Some (set_b_data d' bf)) as Hb1 by (simpl; by rewrite list_lookup_alter_eq, Hb).
  assert (cache_inv s1 (b :: H)) as Hi1.
  { apply (cache_inv_alter s (b :: H) b bf _ Hi Hb Hlt Hlinks).
    - rewrite bool_decide_eq_true_2 by (by left). split; [by right; auto | done | done | done | done].
    - done.
    - by constructor.
    - intros _ i y. apply held_uniq. }
  exists s1. split_and!; [by eapply upd_buf_eq | done | done | | | | | ].
  - intros x Hx. destruct (Z.eqb_spec x (b_blockno bf)) as [->|Hne].
    + by apply (vblock_at s1 (b :: H) b _ _ Hi1 Hb1), is_block_true.
    + apply (vblock_alter_ne s (b :: H) b bf _ Hi Hb Hlt); [| |by exists (b :: H)];
        apply not_true_iff_false; rewrite is_block_true; simpl; naive_solver.
  - intros x. unfold s1. rewrite (pinned_alter s b bf _ Hb Hlt), (pinned_split s b bf Hb). done.
  - intros i x d Hih. apply holds_alter_ne. set_solver.
  - by exists (set_b_data d' bf).
  - by exists (set_b_data d' bf).
Qed.

(** [b->flags |= B_DIRTY] on a held buffer pins its block. *)
Lemma pin_held :
  exists s', upd_buf b (fun bf => set_b_flags (Z.lor (b_flags bf) B_DIRTY) bf) s = Ret tt s' /\
    only_bufs s s' /\ cache_inv s' (b :: H) /\
    (forall x, 0 <= x -> vblock s' x = vblock s x) /\
    (forall x, pinned s' x <-> pinned s x \/ x = b_blockno bf) /\
    (forall i x d, i ∈ b :: H -> holds s i x d -> holds s' i x d) /\
    exists bf', k_bufs s' !! b = Some bf' /\ b_flags bf' = 6.
Proof.
  destruct held_facts as (F1 & F2 & F3 & F4 & F5 & F6).
  destruct held_notin as [Hn1 Hn2]. pose proof held_lt as Hlt.
  set (f := fun bf => set_b_flags (Z.lor (b_flags bf) B_DIRTY) bf).
  assert (b_flags (f bf) = 6) as E6 by (simpl; by destruct F1 as [-> | ->]).
  assert (forall x, b_next (f x) = b_next x /\ b_prev (f x) = b_prev x) as Hlinks by done.
  set (s1 := set_k_bufs (alter f b (k_bufs s)) s).
  assert (k_bufs s1 !! b = Some (f bf)) as Hb1 by (simpl; by rewrite list_lookup_alter_eq, Hb).
  assert (cache_inv s1 (b :: H)) as Hi1.
  { apply (cache_inv_alter s (b :: H) b bf _ Hi Hb Hlt Hlinks).
    - rewrite bool_decide_eq_true_2 by (by left). split; [right; auto | done | done | done | done].
    - done.
    - by constructor.
    - intros _ i y. apply held_uniq. }
  exists s1. split_and!; [by eapply upd_buf_eq | done | done | | | | by exists (f bf)].
  - intros x Hx. apply (vblock_alter_same s (b :: H) b bf f Hi Hb Hlt); [done..|by exists (b :: H)].
  - intros x. unfold s1. rewrite (pinned_alter s b bf _ Hb Hlt), (pinned_split s b bf Hb), E6.
    change (b_blockno (f bf)) with (b_blockno bf). naive_solver.
  - intros i x d Hih (y & Hy & ?). destruct (decide (i = b)) as [->|Hne].
    + exists (f bf). assert (y = bf) as -> by congruence. done.
    + apply holds_alter_ne; [done | by exists y].
Qed.
(** [bwrite] makes the disk equal to the buffer and unpins the block. *)
Lemma bwrite_held :
  exists s', bwrite b s = Ret tt s' /\
    s' = set_k_bufs (k_bufs s') (disk_write (b_blockno bf) (b_data bf) s) /\
    cache_inv s' (b :: H) /\
    (forall x, 0 <= x -> vblock s' x = vblock s x) /\
    (forall x, pinned s' x <-> pinned s x /\ x <> b_blockno bf) /\
    (forall i x d, i ∈ b :: H -> holds s i x d -> holds s' i x d).
Proof.
  destruct held_facts as (F1 & F2 & F3 & F4 & F5 & F6).
  destruct held_notin as [Hn1 Hn2]. pose proof held_lt as Hlt.
  set (f := set_b_flags B_VALID).
  assert (forall x, b_next (f x) = b_next x /\ b_prev (f x) = b_prev x) as Hlinks by done.
  set (s1 := set_k_bufs (alter f b (k_bufs s)) s).
  assert (k_bufs s1 !! b = Some (f bf)) as Hb1 by (simpl; by rewrite list_lookup_alter_eq, Hb).
  assert (cache_inv s1 (b :: H)) as Hi1.
  { apply (cache_inv_alter s (b :: H) b bf _ Hi Hb Hlt Hlinks).
    - rewrite bool_decide_eq_true_2 by (by left). split; [right; auto | done | done | done | done].
    - done.
    - by constructor.
    - intros _ i y. apply held_uniq. }
  set (s2 := disk_write (b_blockno bf) (b_data bf) s1).
  assert (cache_inv s2 (b :: H)) as Hi2.
  { destruct Hi1 as [C1 C2 C3 C4 C5 C6]. split; [done | done | | done | done |].
    - intros i y Hli Hy. pose proof (C3 i y Hli Hy) as [B1 B2 B3 B4 B5].
      split; [unfold s2, disk_write; simpl; unfold zlen in *; by rewrite length_insert | done..|].
      intros E1 E2. unfold s2, disk_write. simpl.
      assert (i <> b) as Hne.
      { intros ->. rewrite bool_decide_eq_true_2 in E1 by (by left). done. }
      rewrite list_lookup_insert_ne; [by apply B5|].
      assert (b_blockno y <> b_blockno bf); [|destruct B1 as [(? & _)|(_ & _ & ?)]; [congruence | lia]].
      apply (held_uniq i); [done | |destruct B1 as [(? & _)|(_ & ? & _)]; [congruence | done]].
      simpl in Hy. by rewrite list_lookup_alter_ne in Hy.
    - unfold s2, disk_write. simpl. by apply Forall_insert. }
  exists s2. split_and!; [apply (bwrite_eq b bf s); auto | done | done | | | ].
  - intros x Hx. destruct (Z.eqb_spec x (b_blockno bf)) as [->|Hne].
    + rewrite (vblock_at s _ b bf _ Hi Hb) by (by apply is_block_true).
      by apply (vblock_at s2 _ b (f bf) _ Hi2 Hb1), is_block_true.
    + assert (vblock s2 x = vblock s1 x) as ->.
      { unfold vblock. simpl. destruct (findi _ _); [done|].
        rewrite list_lookup_insert_ne; [done|]. lia. }
      apply (vblock_alter_same s (b :: H) b bf f Hi Hb Hlt); [done..|by exists (b :: H)].
  - intros x. change (pinned s1 x <-> pinned s x /\ x <> b_blockno bf). unfold s1.
    rewrite (pinned_alter s b bf _ Hb Hlt), (pinned_split s b bf Hb). simpl.
    split; [intros [[? _]|(i & y & Ni & Hy & Ey & Ex)]; [done|] | naive_solver].
    split; [right; by exists i, y|]. rewrite <- Ex. apply (held_uniq i); [done..|].
    assert (i < NBUF)%nat by (apply (cache_lt _ _ i y Hi Hy); by right).
    destruct (ci_buf _ _ Hi i y ltac:(done) Hy) as [[(? & _)|(_ & ? & _)] _ _ _ _]; congruence.
  - intros i x d Hih (y & Hy & Hx). destruct (decide (i = b)) as [->|Hne].
    + exists (f bf). assert (y = bf) as -> by congruence. done.
    + exists y. split; [|done]. simpl. by rewrite list_lookup_alter_ne.
Qed.
End held.

(** *** The same, by block number *)

Lemma pinned_dev s H i y : cache_inv s H -> k_bufs s !! i = Some y -> b_flags y = 6 -> b_dev y = 1.
Proof.
  intros Hi Hy Fy. assert (i < NBUF)%nat as Hlt by (apply (cache_lt _ _ i y Hi Hy); by right).
  destruct (ci_buf _ _ Hi i y Hlt Hy) as [[(? & _)|(_ & ? & _)] _ _ _ _]; congruence.
Qed.

Lemma pinned_cached s H x : cache_inv s H -> pinned s x -> is_cached s x.
Proof.
  intros Hi (i & y & Hy & Fy & <-). exists i, y. split; [done|]. apply is_block_true.
  split; [by eapply pinned_dev | done].
Qed.

(** A block nobody holds is pinned or as on disk. *)
Lemma vblock_disk s H x d :
  cache_inv s H -> (forall i e, i ∈ H -> ~ holds s i x e) -> vblock s x = Some d ->
  pinned s x \/ k_disk s !! Z.to_nat x = Some d.
Proof.
  intros Hi Hn. destruct (vblock_cases s x) as [(i & bf & Hb & Hx)|Hc].
  - rewrite (vblock_at s H i bf x Hi Hb Hx). intros [= <-]. apply is_block_true in Hx as [Hd Hx].
    assert (i < NBUF)%nat as Hlt by (eapply cache_lt; eauto).
    assert (i ∉ H) as HiH by (intros Hin; apply (Hn i (b_data bf) Hin); by exists bf).
    pose proof (ci_buf _ _ Hi i bf Hlt Hb) as [B1 _ _ _ B5].
    rewrite (bool_decide_eq_false_2 _ HiH) in *.
    destruct B1 as [(_ & ? & _)|([E|E] & _)]; [congruence | |].
    + right. rewrite <- Hx. by apply B5.
    + left. by exists i, bf.
  - rewrite vblock_none by done. by right.
Qed.

Lemma brelse_spec s H b x d :
  quiet s -> cache_inv s (b :: H) -> holds s b x d ->
  pinned s x \/ k_disk s !! Z.to_nat x = Some d ->
  exists s', brelse b s = Ret tt s' /\ only_bufs s s' /\ cache_inv s' H /\ same_view H s s'.
Proof.
  intros Hq Hi (bf & Hb & Hd & <- & <-) Hr. apply (brelse_held s H b bf Hq Hi Hb).
  destruct Hr as [(i & y & Hy & Fy & Ey)|Hr]; [left | by right].
  assert (i = b) as -> by (eapply (ci_uniq _ _ Hi); [done | done | by eapply pinned_dev | done | done]).
  congruence.
Qed.

(** Overwriting a held buffer and writing it through. *)
Lemma store_write_spec s H b x d d' :
  quiet s -> cache_inv s (b :: H) -> holds s b x d -> block_ok d' ->
  exists s1 s2, upd_buf b (set_b_data d') s = Ret tt s1 /\ bwrite b s1 = Ret tt s2 /\
    s2 = set_k_bufs (k_bufs s2) (disk_write x d' s) /\ cache_inv s2 (b :: H) /\
    holds s2 b x d' /\
    (forall y, 0 <= y -> vblock s2 y = if y =? x then Some d' else vblock s y) /\
    (forall y, pinned s2 y <-> pinned s y /\ y <> x) /\
    (forall i y e, i ∈ H -> holds s i y e -> holds s2 i y e).
Proof.
  intros Hq Hi (bf & Hb & Hd & <- & <-) Hok.
  destruct (store_held s H b bf Hq Hi Hb d' Hok)
    as (s1 & E1 & O1 & I1 & V1 & P1 & H1 & (bf1 & Hb1 & Hd1 & Hx1 & <-) & _).
  assert (quiet s1) as Hq1 by (rewrite O1; by apply quiet_bufs).
  destruct (bwrite_held s1 H b bf1 Hq1 I1 Hb1) as (s2 & E2 & O2 & I2 & V2 & P2 & H2).
  rewrite Hx1 in *. exists s1, s2. split_and!; [done | done | | done | | | | ].
  - rewrite O2 at 1. unfold disk_write. rewrite O1. done.
  - apply H2; [by left|]. by exists bf1.
  - intros y Hy. by rewrite V2, V1.
  - intros y. by rewrite P2, P1.
  - intros i y e Hin Hh. apply H2; [by right | by apply H1].
Qed.

(** Fewer than [NBUF] buffers held or pinned leave one to recycle. *)
Lemma room_count s H P :
  cache_inv s H -> (forall x, pinned s x -> x ∈ P) -> (length H + length P < NBUF)%nat ->
  has_room s.
Proof.
  intros Hi HP Hlen.
  destruct (decide (Exists (fun i => from_option is_free false (k_bufs s !! i) = true)
              (seq 0 NBUF))) as [He|Hne].
  - apply Exists_exists in He as (i & Hin & Hf). apply elem_of_seq in Hin.
    destruct (k_bufs s !! i) as [bf|] eqn:E; [|done]. exists i, bf. split; [lia | done].
  - exfalso. rewrite <- Forall_Exists_neg, Forall_forall in Hne.
    set (L := filter (fun i => i ∉ H) (seq 0 NBUF)).
    assert (forall i, i ∈ L -> exists bf, k_bufs s !! i = Some bf /\ b_flags bf = 6) as HL.
    { intros i [HiH Hin]%list_elem_of_filter. specialize (Hne i Hin). apply elem_of_seq in Hin.
      destruct (lookup_lt_is_Some_2 (k_bufs s) i) as [bf Hb]; [rewrite (cache_len _ _ Hi); lia|].
      exists bf. split; [done|]. rewrite Hb in Hne. simpl in Hne.
      destruct (ci_buf _ _ Hi i bf ltac:(lia) Hb) as [B1 _ _ B4 _].
      rewrite (bool_decide_eq_false_2 _ HiH) in *.
      destruct B1 as [(E & _)|([E|E] & _)]; [| |done]; destruct Hne; unfold is_free; rewrite B4, E; done. }
    set (blk := fun i => from_option (fun bf => b_blockno bf) 0 (k_bufs s !! i)).
    assert (NoDup (blk <$> L)) as Hnd.
    { apply NoDup_fmap_2_strong; [|apply NoDup_filter, NoDup_seq].
      intros i j Hiin Hjin E. destruct (HL i Hiin) as (x & Hx & Fx). destruct (HL j Hjin) as (y & Hy & Fy).
      unfold blk in E. rewrite Hx, Hy in E. simpl in E.
      assert (forall k z, k_bufs s !! k = Some z -> b_flags z = 6 -> b_dev z = 1) as Hdev.
      { intros k z Hz Fz. assert (k < NBUF)%nat as Hk by (apply (cache_lt _ _ k z Hi Hz); by right).
        destruct (ci_buf _ _ Hi k z Hk Hz) as [[(? & _)|(_ & ? & _)] _ _ _ _]; congruence. }
      eapply (ci_uniq _ _ Hi); eauto. }
    assert (blk <$> L ⊆+ P) as Hsub.
    { apply NoDup_submseteq; [done|]. intros x Hx. apply HP.
      apply list_elem_of_fmap in Hx as (i & -> & Hin). destruct (HL i Hin) as (bf & Hb & Fb).
      exists i, bf. unfold blk. by rewrite Hb. }
    apply submseteq_length in Hsub. rewrite length_fmap in Hsub.
    assert (seq 0 NBUF ⊆+ L ++ H) as Hall.
    { apply NoDup_submseteq; [apply NoDup_seq|]. intros i Hin.
      destruct (decide (i ∈ H)); [set_solver|]. apply elem_of_app. left.
      by apply list_elem_of_filter. }
    apply submseteq_length in Hall. rewrite length_app, length_seq in Hall. lia.
Qed.

(** ** Initialisation *)

(** [bcache] as the zeroed data segment has it. *)
Definition buf0 : buf := mkBuf 0 0 0 (mkSleeplock false 0) 0 0 0 (replicate 512 0).
Definition bcache0 : list buf := replicate (S NBUF) buf0.

(** The ring [binit] builds: each buffer before the one initialised earlier. *)
Definition bcache_init : list buf :=
  ((fun i => set_b_next (match i with O => HEAD | S j => j end)
              (set_b_prev (if (i =? 29)%nat then HEAD else S i) buf0)) <$> seq 0 NBUF)
  ++ [set_b_next 29 (set_b_prev 0 buf0)].

Lemma binit_eq s : k_bufs s = bcache0 -> binit s = Ret tt (set_k_bufs bcache_init s).
Proof.
  intros E. assert (s = set_k_bufs bcache0 s) as -> by (by rewrite <- E).
  generalize s. clear. intros s. vm_compute. reflexivity.
Qed.

Lemma bcache_init_ring : lru_ring bcache_init (reverse (seq 0 NBUF)).
Proof.
  split; [done | by rewrite reverse_Permutation | |]; vm_compute; repeat split.
Qed.

Lemma bcache_init_at i bf :
  bcache_init !! i = Some bf -> exists n p, bf = set_b_next n (set_b_prev p buf0).
Proof.
  intros Hb. unfold bcache_init in Hb. apply lookup_app_Some in Hb as [Hb|[_ Hb]].
  - rewrite list_lookup_fmap in Hb. apply fmap_Some in Hb as (j & _ & ->). eauto.
  - destruct (i - _)%nat; simpl in Hb; [injection Hb as <-; eauto | done].
Qed.

Lemma block_ok_zero : block_ok (replicate 512 0).
Proof. split; [done|]. apply Forall_replicate. lia. Qed.

Lemma bcache_init_inv s : Forall block_ok (k_disk s) -> cache_inv (set_k_bufs bcache_init s) [].
Proof.
  intros Hd. split; simpl; [eexists; apply bcache_init_ring | | | | |done].
  - intros i j x y (n & p & ->)%bcache_init_at _ Hx. done.
  - intros i bf _ (n & p & ->)%bcache_init_at.
    split; simpl; [by left | apply block_ok_zero | done | done | done].
  - by intros bf [= <-].
  - split; [constructor | set_solver].
Qed.

(** ** Theorems *)

(** [binit] turns the zeroed cache into a well-formed ring of [NBUF] unused
    buffers, in which every block is seen as it is on the disk. *)
Theorem binit_correct s :
  k_bufs s = bcache0 -> Forall block_ok (k_disk s) ->
  exists s', binit s = Ret tt s' /\ only_bufs s s' /\ cache_inv s' [] /\
    lru_ring (k_bufs s') (reverse (seq 0 NBUF)) /\
    forall x, vblock s' x = k_disk s !! Z.to_nat x.
Proof.
  intros E Hd. exists (set_k_bufs bcache_init s). split_and!.
  - by apply binit_eq.
  - done.
  - by apply bcache_init_inv.
  - apply bcache_init_ring.
  - intros x. rewrite vblock_none; [done|]. by intros i bf (n & p & ->)%bcache_init_at.
Qed.

(** [bread] returns, locked, a buffer whose content is the block as last
    written (cached or on disk), without panicking or sleeping, provided fewer
    than [NBUF] buffers are held or pinned; it changes neither the disk nor what
    any block is seen as, nor which blocks are pinned. *)
Theorem bread_correct s H P x :
  quiet s -> cache_inv s H -> 0 <= x < zlen (k_disk s) ->
  (forall i d, i ∈ H -> ~ holds s i x d) ->
  (forall y, pinned s y -> y ∈ P) -> (length H + length P < NBUF)%nat ->
  exists b s' d, bread 1 x s = Ret b s' /\ only_bufs s s' /\ cache_inv s' (b :: H) /\
    vblock s x = Some d /\ holds s' b x d /\ same_view H s s'.
Proof.
  intros Hq Hi Hx Hf HP Hlen.
  destruct (bread_spec s H x Hq Hi Hx Hf) as (b & s' & E & Ho & Hi' & _ & Hv & d & Hd & Hh).
  { right. by eapply room_count. }
  by exists b, s', d.
Qed.

(** Replacement. When the block is not cached, [bget] recycles the least
    recently used buffer that is neither referenced nor dirty, and panics when
    there is none: a dirty buffer is never evicted. *)
Theorem bget_replacement s lru dev blockno :
  quiet s -> lru_ring (k_bufs s) lru ->
  (forall i bf, k_bufs s !! i = Some bf -> is_block dev blockno bf = false) ->
  (forall l1 b l2 bf, lru = l1 ++ b :: l2 -> k_bufs s !! b = Some bf -> is_free bf = true ->
     sl_locked (b_lock bf) = false ->
     (forall i y, i ∈ l2 -> k_bufs s !! i = Some y -> is_free y = false) ->
     bget dev blockno s = Ret b (set_k_bufs
       (alter (fun bf => lock_by (mypid s) (recycle dev blockno bf)) b (k_bufs s)) s)) /\
  ((forall i y, i ∈ lru -> k_bufs s !! i = Some y -> is_free y = false) ->
     exists s', bget dev blockno s = Panic "bget: no buffers" s').
Proof.
  intros Hq Hr Hn.
  assert (forall test l, (forall i y, i ∈ l -> k_bufs s !! i = Some y -> test y = false) ->
    first_buf test (k_bufs s) l = None) as Hnone.
  { intros test l Hl. destruct (first_buf test (k_bufs s) l) as [j|] eqn:E; [|done].
    apply first_buf_Some in E as (Hin & y & Hy & Ey). by rewrite (Hl j y Hin Hy) in Ey. }
  assert (first_buf (is_block dev blockno) (k_bufs s) lru = None) as Hmiss by (apply Hnone; eauto).
  split.
  - intros l1 b l2 bf -> Hb Hf Hl Hl2. apply (bget_miss s _ dev blockno Hq Hr b bf); [done| |done|done].
    rewrite reverse_app, reverse_cons, <- app_assoc. simpl.
    assert (forall i y, i ∈ reverse l2 -> k_bufs s !! i = Some y -> is_free y = false) as Hl2'
      by (intros i y Hi; apply Hl2; by rewrite elem_of_reverse in Hi).
    clear Hl2 Hr Hmiss. revert Hl2'. generalize (reverse l2). intros l Hl2'.
    induction l as [|i l IH]; simpl.
    + by rewrite Hb; simpl; rewrite Hf.
    + destruct (k_bufs s !! i) as [y|] eqn:Ey; simpl.
      * rewrite (Hl2' i y) by (done || by left). apply IH. intros; eapply Hl2'; [by right | done].
      * apply IH. intros; eapply Hl2'; [by right | done].
  - intros Hfull. eexists. eapply (bget_full s lru); [done | done | done |].
    apply Hnone. intros i y Hi. apply Hfull. by rewrite elem_of_reverse in Hi.
Qed.

(** [brelse] by the last user makes the buffer the most recently used one:
    it moves to the front of the LRU order, the others keep theirs, and no
    content changes. *)
Theorem brelse_lru s l1 b l2 bf :
  quiet s -> lru_ring (k_bufs s) (l1 ++ b :: l2) ->
  k_bufs s !! b = Some bf -> sl_locked (b_lock bf) = true -> b_refcnt bf = 1 ->
  exists s', brelse b s = Ret tt s' /\ only_bufs s s' /\
    lru_ring (k_bufs s') (b :: l1 ++ l2) /\
    (forall i, i <> b -> core <$> k_bufs s' !! i = core <$> k_bufs s !! i) /\
    core <$> k_bufs s' !! b = Some (core (release_buf bf)).
Proof.
  intros Hq Hr Hb Hl Hrc. eexists. split; [eapply brelse_eq; [done|done|set_solver|done..]|].
  split_and!; simpl.
  - done.
  - apply relink_ring. by apply ring_alter.
  - intros i Hne. rewrite relink_core. by rewrite list_lookup_alter_ne.
  - rewrite relink_core, list_lookup_alter_eq, Hb. done.
Qed.

(** [bwrite] of a held buffer writes exactly its block through to the disk:
    the block on disk becomes the buffer's content, one write is added to the
    disk's history, no view changes and the block is no longer pinned. *)
Theorem bwrite_correct s H b x d :
  quiet s -> cache_inv s (b :: H) -> holds s b x d ->
  exists s', bwrite b s = Ret tt s' /\ cache_inv s' (b :: H) /\ holds s' b x d /\
    k_disk s' = <[Z.to_nat x := d]> (k_disk s) /\
    k_dtrace s' = k_dtrace s ++ [(x, d)] /\
    (forall y, 0 <= y -> vblock s' y = vblock s y) /\
    (forall y, pinned s' y <-> pinned s y /\ y <> x).
Proof.
  intros Hq Hi Hh. destruct Hh as (bf & Hb & Hd & <- & <-).
  destruct (bwrite_held s H b bf Hq Hi Hb) as (s' & E & Es & Hi' & Hv & Hp & Hh).
  exists s'. split_and!; [done | done | | | | done | done].
  - apply Hh; [by left|]. by exists bf.
  - by rewrite Es.
  - by rewrite Es.
Qed.

(** ** Examples: an empty cache over a disk of eight blocks *)

Definition demo_disk : list (list Z) := (fun i => replicate 512 (Z.of_nat i)) <$> seq 0 8.
Definition demo_bio0 : kst := set_k_disk demo_disk (set_k_bufs bcache0 boot_state).
Definition demo_bio : kst := set_k_bufs bcache_init demo_bio0.

Lemma demo_disk_ok : Forall block_ok demo_disk.
Proof.
  apply Forall_fmap, Forall_forall. intros i Hi%elem_of_seq. split.
  - unfold zlen. by rewrite length_replicate.
  - apply Forall_replicate. lia.
Qed.

Lemma demo_quiet : quiet demo_bio.
Proof. apply (quiet_ext boot_state); try reflexivity. apply boot_quiet. Qed.

Lemma demo_no_pins x : ~ pinned demo_bio x.
Proof. intros (i & bf & (n & p & ->)%bcache_init_at & H & _). done. Qed.

Lemma binit_correct_witness :
  exists s', binit demo_bio0 = Ret tt s' /\ cache_inv s' [] /\ vblock s' 3 = Some (replicate 512 3).
Proof.
  destruct (binit_correct demo_bio0 eq_refl demo_disk_ok) as (s' & H1 & _ & H3 & _ & H5).
  exists s'. split; [exact H1|]. split; [exact H3|]. rewrite H5. reflexivity.
Defined.

Lemma bread_correct_witness :
  exists b s', bread 1 3 demo_bio = Ret b s' /\ holds s' b 3 (replicate 512 3).
Proof.
  destruct (bread_correct demo_bio [] [] 3 demo_quiet (bcache_init_inv demo_bio0 demo_disk_ok))
    as (b & s' & d & H1 & _ & _ & H4 & H5 & _).
  - vm_compute. split; congruence.
  - intros i d Hi. by apply not_elem_of_nil in Hi.
  - intros y Hy. by apply demo_no_pins in Hy.
  - vm_compute. lia.
  - exists b, s'. split; [exact H1|]. injection H4 as <-. exact H5.
Defined.

Lemma bget_replacement_witness :
  exists s', bget 1 3 demo_bio = Ret 0%nat s'.
Proof.
  eexists. eapply (proj1 (bget_replacement demo_bio (reverse (seq 0 NBUF)) 1 3 demo_quiet
                     bcache_init_ring ltac:(by intros i bf (n & p & ->)%bcache_init_at)))
    with (l1 := reverse (seq 1 29)) (l2 := []); try reflexivity.
  intros i y Hi. by apply not_elem_of_nil in Hi.
Defined.

(** The state after reading block 3: buffer 0 is held. *)
Definition demo_held : kst :=
  match bread 1 3 demo_bio with Ret _ s => s | _ => demo_bio end.

Lemma demo_held_facts :
  quiet demo_held /\ cache_inv demo_held [0%nat] /\ holds demo_held 0 3 (replicate 512 3) /\
  lru_ring (k_bufs demo_held) (reverse (seq 1 29) ++ [0%nat]).
Proof.
  destruct (bread_spec demo_bio [] 3 demo_quiet (bcache_init_inv demo_bio0 demo_disk_ok))
    as (b & s' & H1 & H2 & H3 & _ & _ & d & H4 & H5).
  - vm_compute. split; congruence.
  - intros i d Hi. by apply not_elem_of_nil in Hi.
  - right. apply (room_count demo_bio [] []); [by apply bcache_init_inv, demo_disk_ok | | vm_compute; lia].
    intros y Hy. by apply demo_no_pins in Hy.
  - assert (b = 0%nat /\ s' = demo_held) as [-> ->].
    { unfold demo_held. rewrite H1. split; [|done].
      assert (match bread 1 3 demo_bio with Ret b _ => b | _ => 1%nat end = 0%nat) as E by (by vm_compute).
      by rewrite H1 in E. }
    injection H4 as <-. split_and!; [|exact H3|exact H5|].
    + rewrite H2. apply quiet_bufs, demo_quiet.
    + split; [by vm_compute | | vm_compute; repeat split | vm_compute; repeat split].
      change (reverse (seq 1 29) ++ [0%nat]) with (reverse (seq 0 30)).
      by rewrite reverse_Permutation.
Qed.

Lemma brelse_lru_witness :
  exists s', brelse 0 demo_held = Ret tt s' /\ lru_ring (k_bufs s') (0%nat :: reverse (seq 1 29) ++ []).
Proof.
  destruct demo_held_facts as (Hq & _ & _ & Hr).
  destruct (lookup_lt_is_Some_2 (k_bufs demo_held) 0) as [bf Hb]; [vm_compute; lia|].
  assert (k_bufs demo_held !! 0%nat = Some bf) as Hb' by exact Hb.
  destruct (brelse_lru demo_held (reverse (seq 1 29)) 0 [] bf Hq Hr Hb) as (s' & H1 & _ & H3 & _).
  - vm_compute in Hb'. injection Hb' as <-. reflexivity.
  - vm_compute in Hb'. injection Hb' as <-. reflexivity.
  - exists s'. split; [exact H1 | exact H3].
Defined.

Lemma bwrite_correct_witness :
  exists s', bwrite 0 demo_held = Ret tt s' /\ k_dtrace s' = [(3, replicate 512 3)].
Proof.
  destruct demo_held_facts as (Hq & Hi & Hh & _).
  destruct (bwrite_correct demo_held [] 0 3 (replicate 512 3) Hq Hi Hh)
    as (s' & H1 & _ & _ & _ & H5 & _).
  exists s'. split; [exact H1|]. rewrite H5. vm_compute. reflexivity.
Defined.
