(* ===== verification/Ide.v ===== *)
(** * The IDE driver

    ide.c: the queue of disk requests, the command that starts the request at its head and
    the interrupt that completes it.  The disk itself is a parameter, a class of devices
    with the documented behaviour of the ATA command registers; the driver is shown to
    complete the requests in order, each with the effect the memory disk of memide.c has
    at once. *)

From S2P Require Import Prelude Monad KState Bio.

Local Open Scope kernel_scope.

Definition FSSIZE : Z := 100000.

(** ** The device *)

(** The command registers 0x1f2 .. 0x1f6 as the driver fills them. *)
Record ide_regs : Type := mkRegs {
  rg_count : Z;
  rg_lba0 : Z;
  rg_lba1 : Z;
  rg_lba2 : Z;
  rg_drive : Z
}.

(** The sector and the disk the registers select. *)
Definition rg_sector (r : ide_regs) : Z :=
  rg_lba0 r + 256 * rg_lba1 r + 65536 * rg_lba2 r + 16777216 * Z.land (rg_drive r) 15.
Definition rg_disk (r : ide_regs) : Z := Z.land (Z.shiftr (rg_drive r) 4) 1.

(** A disk controller: its commands, its data port and error bit, and the sectors it holds. *)
Class IdeDevice (D : Type) : Type := {
  dv_read : ide_regs -> D -> D;                   (* IDE_CMD_READ *)
  dv_write : ide_regs -> list Z -> D -> D;        (* IDE_CMD_WRITE and the data *)
  dv_data : D -> list Z;                          (* what insl(0x1f0) reads *)
  dv_error : D -> bool;                           (* IDE_DF or IDE_ERR *)
  dv_sector : D -> Z -> Z -> list Z               (* contents, by disk and sector *)
}.

(** What the driver relies on. *)
Class IdeLaws (D : Type) `{IdeDevice D} : Prop := {
  dl_read_data r d : dv_data (dv_read r d) = dv_sector d (rg_disk r) (rg_sector r);
  dl_read_keeps r d k n : dv_sector (dv_read r d) k n = dv_sector d k n;
  dl_read_good r d : dv_error (dv_read r d) = false;
  dl_write r data d k n :
    dv_sector (dv_write r data d) k n =
      if (k =? rg_disk r) && (n =? rg_sector r) then data else dv_sector d k n
}.

Section driver.
Context {D : Type} `{IdeDevice D}.

Record ide_st : Type := mkIde {
  id_queue : list nat;        (* idequeue, the active request first *)
  id_bufs : list buf;
  id_dev : D;
  id_havedisk1 : bool;
  id_woken : list nat         (* wakeup(b), in order *)
}.

Definition set_queue q s := mkIde q (id_bufs s) (id_dev s) (id_havedisk1 s) (id_woken s).
Definition set_bufs b s := mkIde (id_queue s) b (id_dev s) (id_havedisk1 s) (id_woken s).
Definition set_dev d s := mkIde (id_queue s) (id_bufs s) d (id_havedisk1 s) (id_woken s).
Definition set_woken w s := mkIde (id_queue s) (id_bufs s) (id_dev s) (id_havedisk1 s) w.

Definition ide_buf (b : nat) : M ide_st buf :=
  t <- gets id_bufs ;; deref "buf" (t !! b).

Definition dirty (bf : buf) : bool := negb (Z.land (b_flags bf) B_DIRTY =? 0).

(** The registers for block [bf], with one sector per block. *)
Definition regs_of (bf : buf) : ide_regs :=
  let sector := i32 (b_blockno bf * 1) in
  mkRegs 1 (Z.land sector 255) (Z.land (Z.shiftr sector 8) 255) (Z.land (Z.shiftr sector 16) 255)
    (Z.lor (Z.lor 224 (Z.shiftl (Z.land (b_dev bf) 1) 4)) (Z.land (Z.shiftr sector 24) 15)).

Definition idestart (b : nat) : M ide_st unit :=
  bf <- ide_buf b ;;
  if FSSIZE <=? b_blockno bf then panic "incorrect blockno" else
  if dirty bf then modify (fun s => set_dev (dv_write (regs_of bf) (b_data bf) (id_dev s)) s)
  else modify (fun s => set_dev (dv_read (regs_of bf) (id_dev s)) s).

Definition ideintr : M ide_st unit :=
  q <- gets id_queue ;;
  match q with
  | [] => ret tt
  | b :: q' =>
      modify (set_queue q') ;;
      bf <- ide_buf b ;;
      err <- gets (fun s => dv_error (id_dev s)) ;;
      data <- gets (fun s => dv_data (id_dev s)) ;;
      modify (fun s => set_bufs (alter (fun bf =>
        let bf := if negb (dirty bf) && negb err then set_b_data data bf else bf in
        let bf := set_b_flags (Z.lor (b_flags bf) B_VALID) bf in
        set_b_flags (Z.land (b_flags bf) (Z.lnot B_DIRTY)) bf) b (id_bufs s)) s) ;;
      modify (fun s => set_woken (id_woken s ++ [b]) s) ;;
      match q' with
      | [] => ret tt
      | b' :: _ => idestart b'
      end
  end.

(** [iderw] up to its wait. *)
Definition iderw_begin (b : nat) : M ide_st unit :=
  bf <- ide_buf b ;;
  if negb (sl_locked (b_lock bf)) then panic "iderw: buf not locked" else
  if Z.land (b_flags bf) (Z.lor B_VALID B_DIRTY) =? B_VALID then panic "iderw: nothing to do" else
  have <- gets id_havedisk1 ;;
  if negb (b_dev bf =? 0) && negb have then panic "iderw: ide disk 1 not present" else
  q <- gets id_queue ;;
  modify (set_queue (q ++ [b])) ;;
  match q with
  | [] => idestart b
  | _ :: _ => ret tt
  end.

(** The condition [iderw] waits for. *)
Definition iderw_done (bf : buf) : bool := Z.land (b_flags bf) (Z.lor B_VALID B_DIRTY) =? B_VALID.

(** What happens to the driver: a process calls [iderw], or the disk interrupts. *)
Inductive ide_event : Type := Request (b : nat) | Interrupt.
Definition ide_step (e : ide_event) : M ide_st unit :=
  match e with Request b => iderw_begin b | Interrupt => ideintr end.
End driver.
Arguments ide_st D : clear implicits.

(** ** The disk as memide.c has it *)

(** A request's effect: the block is written, or read. *)
Definition sectors : Type := Z -> Z -> list Z.
Definition put_sector (k n : Z) (data : list Z) (ds : sectors) : sectors :=
  fun k' n' => if (k' =? k) && (n' =? n) then data else ds k' n'.
Definition disk_of (bf : buf) : Z := Z.land (b_dev bf) 1.
Definition stored (bf : buf) (ds : sectors) : sectors :=
  if dirty bf then put_sector (disk_of bf) (b_blockno bf) (b_data bf) ds else ds.
Definition fetched (bf : buf) (ds : sectors) : buf :=
  let bf' := if dirty bf then set_b_flags (Z.land (b_flags bf) (Z.lnot B_DIRTY)) bf
             else set_b_data (ds (disk_of bf) (b_blockno bf)) bf in
  set_b_flags (Z.lor (b_flags bf') B_VALID) bf'.

(** The specification: pending requests, the buffers, the disk; an interrupt performs the
    oldest request. *)
Record disk_spec : Type := mkSpec { ds_pending : list nat; ds_bufs : list buf; ds_disk : sectors }.
Definition spec_step (e : ide_event) (d : disk_spec) : disk_spec :=
  match e with
  | Request b => mkSpec (ds_pending d ++ [b]) (ds_bufs d) (ds_disk d)
  | Interrupt =>
      match ds_pending d with
      | [] => d
      | b :: q =>
          match ds_bufs d !! b with
          | None => d
          | Some bf => mkSpec q (<[b := fetched bf (ds_disk d)]> (ds_bufs d)) (stored bf (ds_disk d))
          end
      end
  end.

(** ** Registers and flags *)

Lemma land_byte x : Z.land x 255 = x mod 256.
Proof. exact (Z.land_ones x 8 ltac:(lia)). Qed.

Lemma land_one x : Z.land x 1 = 0 \/ Z.land x 1 = 1.
Proof. change 1 with (Z.ones 1). rewrite Z.land_ones by lia. change (2 ^ 1) with 2. change (Z.ones 1) with 1. zlia. Qed.

(** The registers name the block's sector and disk. *)
Lemma regs_of_sector bf :
  0 <= b_blockno bf < FSSIZE ->
  rg_sector (regs_of bf) = b_blockno bf /\ rg_disk (regs_of bf) = disk_of bf.
Proof.
  intros Hb. unfold FSSIZE in Hb. unfold rg_sector, rg_disk, regs_of, disk_of. simpl.
  rewrite Z.mul_1_r, i32_small, !land_byte, !Z.shiftr_div_pow2 by lia.
  change (2 ^ 8) with 256. change (2 ^ 16) with 65536. change (2 ^ 24) with 16777216.
  rewrite (Z.div_small _ 16777216) by lia.
  destruct (land_one (b_dev bf)) as [E | E]; rewrite E; (split; [|reflexivity]);
    match goal with |- context [16777216 * ?x] => replace x with 0 by reflexivity end; zlia.
Qed.

Lemma flags_done f : Z.land (Z.lor f 2) (Z.lnot 4) = Z.lor (Z.land f (Z.lnot 4)) 2.
Proof. by rewrite Z.land_lor_distr_l. Qed.

Lemma flags_clean f : Z.land f 4 = 0 -> Z.land f (Z.lnot 4) = f.
Proof.
  intros H. rewrite <- Z.ldiff_land. apply Z.bits_inj'. intros n Hn. rewrite Z.ldiff_spec.
  apply (f_equal (fun x => Z.testbit x n)) in H. rewrite Z.land_spec, Z.bits_0 in H.
  destruct (Z.testbit f n), (Z.testbit 4 n); done.
Qed.

(** The interrupt's update of the buffer is the memory disk's. *)
Lemma intr_update bf ds data :
  (dirty bf = false -> data = ds (disk_of bf) (b_blockno bf)) ->
  (let bf := if negb (dirty bf) && negb false then set_b_data data bf else bf in
   let bf := set_b_flags (Z.lor (b_flags bf) B_VALID) bf in
   set_b_flags (Z.land (b_flags bf) (Z.lnot B_DIRTY)) bf) = fetched bf ds.
Proof.
  intros Hd. unfold fetched. destruct (dirty bf) eqn:E; simpl.
  - destruct bf. unfold set_b_flags. simpl. f_equal. apply flags_done.
  - rewrite Hd by done. destruct bf. unfold dirty, set_b_flags, set_b_data in *. simpl in *.
    apply negb_false_iff, Z.eqb_eq in E. f_equal.
    unfold B_VALID, B_DIRTY in *. by rewrite flags_done, (flags_clean _ E).
Qed.

Lemma fetched_done bf ds : iderw_done (fetched bf ds) = true.
Proof.
  unfold iderw_done. apply Z.eqb_eq. unfold fetched, B_VALID, B_DIRTY.
  assert (forall f, Z.land f 4 = 0 -> Z.land (Z.lor f 2) (Z.lor 2 4) = 2) as Hf.
  { intros f H. change (Z.lor 2 4) with (Z.lor 4 2). rewrite Z.land_lor_distr_l, Z.land_lor_distr_r, H.
    change (Z.land 2 (Z.lor 4 2)) with 2. apply Z.bits_inj'. intros n Hn.
    rewrite Z.lor_0_l, Z.lor_spec, Z.land_spec. by destruct (Z.testbit f n), (Z.testbit 2 n). }
  destruct (dirty bf) eqn:E; simpl; apply Hf.
  - unfold B_DIRTY. rewrite <- Z.land_assoc. change (Z.land (Z.lnot 4) 4) with 0. apply Z.land_0_r.
  - unfold dirty, B_DIRTY in E. by apply negb_false_iff, Z.eqb_eq in E.
Qed.

(** ** The refinement *)

Section refinement.
Context {D : Type} `{LD : IdeLaws D}.

(** A buffer that can be queued: locked, not yet synced, on a disk that is present. *)
Record req_ok (have : bool) (bf : buf) : Prop := {
  rq_block : 0 <= b_blockno bf < FSSIZE;
  rq_locked : sl_locked (b_lock bf) = true;
  rq_work : iderw_done bf = false;
  rq_disk : b_dev bf = 0 \/ have = true
}.

(** The command in progress: the disk after it, and the data it delivers. *)
Definition in_progress (s : ide_st D) (d : disk_spec) : Prop :=
  match ds_pending d with
  | [] => forall k n, dv_sector (id_dev s) k n = ds_disk d k n
  | b :: _ => forall bf, ds_bufs d !! b = Some bf ->
      (forall k n, dv_sector (id_dev s) k n = stored bf (ds_disk d) k n) /\
      (dirty bf = false -> dv_error (id_dev s) = false /\ dv_data (id_dev s) = ds_disk d (disk_of bf) (b_blockno bf))
  end.

Record related (s : ide_st D) (d : disk_spec) : Prop := {
  re_queue : id_queue s = ds_pending d;
  re_bufs : id_bufs s = ds_bufs d;
  re_nodup : NoDup (ds_pending d);
  re_reqs b : b ∈ ds_pending d -> exists bf, ds_bufs d !! b = Some bf /\ req_ok (id_havedisk1 s) bf;
  re_dev : in_progress s d
}.

(** An event the kernel can produce: a process queues a buffer it holds once. *)
Definition event_ok (have : bool) (e : ide_event) (d : disk_spec) : Prop :=
  match e with
  | Request b => b ∉ ds_pending d /\ exists bf, ds_bufs d !! b = Some bf /\ req_ok have bf
  | Interrupt => True
  end.

Lemma ide_buf_eq b bf (s : ide_st D) : id_bufs s !! b = Some bf -> ide_buf b s = Ret bf s.
Proof. intros E. unfold ide_buf. rewrite bind_gets, E. done. Qed.

(** Starting the request at the head of the queue. *)
Lemma idestart_eq b bf (s : ide_st D) (ds : sectors) :
  id_bufs s !! b = Some bf -> req_ok (id_havedisk1 s) bf ->
  (forall k n, dv_sector (id_dev s) k n = ds k n) ->
  exists dev, idestart b s = Ret tt (set_dev dev s) /\
    (forall k n, dv_sector dev k n = stored bf ds k n) /\
    (dirty bf = false -> dv_error dev = false /\ dv_data dev = ds (disk_of bf) (b_blockno bf)).
Proof.
  intros Hb [Hblk _ _ _] Hds. destruct (regs_of_sector bf Hblk) as [Hs Hk].
  unfold idestart. rewrite (bind_Ret _ _ _ _ _ (ide_buf_eq _ _ _ Hb)).
  destruct (Z.leb_spec FSSIZE (b_blockno bf)); [lia|]. unfold stored, put_sector.
  destruct (dirty bf); eexists; (split; [reflexivity|]); (split; [|try done]).
  - intros k n. rewrite dl_write, Hs, Hk. by destruct (_ && _).
  - intros k n. by rewrite dl_read_keeps.
  - intros _. rewrite dl_read_good, dl_read_data, Hs, Hk. done.
Qed.

Lemma ide_request_refines b s d :
  related s d -> event_ok (id_havedisk1 s) (Request b) d ->
  exists s', iderw_begin b s = Ret tt s' /\ related s' (spec_step (Request b) d) /\
    id_havedisk1 s' = id_havedisk1 s /\ id_woken s' = id_woken s.
Proof.
  intros [Rq Rb Rn Rr Rd] [Hnew (bf & Hbf & Hok)]. unfold iderw_begin.
  rewrite (bind_Ret _ _ _ _ _ (ide_buf_eq b bf s ltac:(by rewrite Rb))).
  rewrite (rq_locked _ _ Hok). cbn [negb]. fold (iderw_done bf). rewrite (rq_work _ _ Hok), bind_gets.
  replace (negb (b_dev bf =? 0) && negb (id_havedisk1 s)) with false
    by (destruct (rq_disk _ _ Hok) as [-> | ->]; [done | by rewrite andb_false_r]).
  rewrite bind_gets, bind_modify, Rq. set (s1 := set_queue (ds_pending d ++ [b]) s).
  assert (NoDup (ds_pending d ++ [b])) as Hnd
    by (apply NoDup_app; split; [done|]; split; [set_solver | apply NoDup_singleton]).
  assert (forall x, x ∈ ds_pending d ++ [b] -> exists bf, ds_bufs d !! x = Some bf /\ req_ok (id_havedisk1 s) bf) as Hreq.
  { intros x Hx. apply elem_of_app in Hx as [Hx|Hx]; [by apply Rr|].
    apply list_elem_of_singleton in Hx as ->. by exists bf. }
  unfold in_progress in Rd. destruct (ds_pending d) as [|h q] eqn:Ep.
  - destruct (idestart_eq b bf s1 (ds_disk d)) as (dev & Hst & Hsec & Hdat); [by simpl; rewrite Rb | done | done |].
    exists (set_dev dev s1). split; [done|]. split; [|done].
    split; simpl; rewrite ?Ep; try done.
    unfold in_progress. simpl. rewrite ?Ep. simpl. intros bf' Hbf'. assert (bf' = bf) as -> by congruence. done.
  - exists s1. split; [done|]. split; [|done]. split; simpl; rewrite ?Ep; done.
Qed.

Lemma ide_interrupt_refines s d :
  related s d ->
  exists s', ideintr s = Ret tt s' /\ related s' (spec_step Interrupt d) /\
    id_havedisk1 s' = id_havedisk1 s /\ id_woken s' = id_woken s ++ take 1 (ds_pending d).
Proof.
  intros [Rq Rb Rn Rr Rd]. unfold ideintr. rewrite bind_gets, Rq. unfold spec_step. unfold in_progress in Rd.
  destruct (ds_pending d) as [|b q] eqn:Ep.
  { exists s. split; [done|]. split; [|by rewrite app_nil_r].
    split; rewrite ?Ep; try done. unfold in_progress. by rewrite Ep. }
  destruct (Rr b ltac:(left)) as (bf & Hbf & Hok). rewrite Hbf.
  destruct (Rd bf Hbf) as [Hsec Hdat]. apply NoDup_cons in Rn as [Hb Hq].
  rewrite bind_modify. rewrite (bind_Ret _ _ _ _ _ (ide_buf_eq b bf (set_queue q s) ltac:(by simpl; rewrite Rb))).
  rewrite !bind_gets, !bind_modify. cbn [id_bufs set_queue set_bufs id_woken id_dev]. rewrite Rb.
  set (bufs := alter _ b (ds_bufs d)).
  assert (bufs = <[b := fetched bf (ds_disk d)]> (ds_bufs d)) as Ebufs.
  { unfold bufs. apply list_eq. intros j. rewrite lookup_alter_case. case_decide as E.
    - subst j. rewrite Hbf, list_lookup_insert_eq by (by eapply lookup_lt_Some). cbn [fmap option_fmap option_map]. f_equal.
      destruct (dirty bf) eqn:Ed.
      + rewrite <- (intr_update bf (ds_disk d) []) by congruence. by rewrite Ed.
      + destruct (Hdat eq_refl) as [He Hd]. rewrite He, Hd. rewrite <- (intr_update bf (ds_disk d) _ (fun _ => eq_refl)).
        by rewrite Ed.
    - by rewrite list_lookup_insert_ne. }
  set (s2 := set_woken _ _).
  assert (forall x, x ∈ q -> exists bf0, bufs !! x = Some bf0 /\ req_ok (id_havedisk1 s) bf0) as Hreq.
  { intros x Hx. rewrite Ebufs, list_lookup_insert_ne by (intros <-; done). apply Rr. by right. }
  destruct q as [|h q].
  - exists s2. split; [done|]. split; [|done]. rewrite <- Ebufs.
    split; [done | done | done | exact Hreq | exact Hsec].
  - destruct (Hreq h ltac:(left)) as (hf & Hhf & Hhok).
    destruct (idestart_eq h hf s2 (stored bf (ds_disk d)) Hhf Hhok Hsec) as (dev & Hst & Hsec' & Hdat').
    exists (set_dev dev s2). split; [exact Hst|]. split; [|done]. rewrite <- Ebufs.
    split; [done | done | done | exact Hreq |]. intros bf' Hbf'.
    assert (bf' = hf) as -> by (simpl in Hbf'; congruence). done.
Qed.

(** Events in sequence. *)
Definition ide_run (evs : list ide_event) : M (ide_st D) unit := for_each evs ide_step.
Fixpoint events_ok (have : bool) (evs : list ide_event) (d : disk_spec) : Prop :=
  match evs with
  | [] => True
  | e :: evs' => event_ok have e d /\ events_ok have evs' (spec_step e d)
  end.
Definition spec_run (evs : list ide_event) (d : disk_spec) : disk_spec := foldl (fun d e => spec_step e d) d evs.

Lemma ide_run_refines evs : forall s d,
  related s d -> events_ok (id_havedisk1 s) evs d ->
  exists s', ide_run evs s = Ret tt s' /\ related s' (spec_run evs d).
Proof.
  induction evs as [|e evs IH]; intros s d R Hok; [by exists s|]. destruct Hok as [He Hok].
  assert (exists s1, ide_step e s = Ret tt s1 /\ related s1 (spec_step e d) /\ id_havedisk1 s1 = id_havedisk1 s)
    as (s1 & Hs & R1 & Hh).
  { destruct e as [b|].
    - destruct (ide_request_refines b s d R He) as (s1 & A & B & C & _). eauto.
    - destruct (ide_interrupt_refines s d R) as (s1 & A & B & C & _). eauto. }
  destruct (IH s1 (spec_step e d) R1 ltac:(by rewrite Hh)) as (s' & Hr & R').
  exists s'. split; [|done]. unfold ide_run in *. simpl. by rewrite (bind_Ret _ _ _ _ _ Hs).
Qed.

(** The interrupts among the events. *)
Fixpoint interrupts (evs : list ide_event) : nat :=
  match evs with
  | [] => 0
  | Interrupt :: evs' => S (interrupts evs')
  | Request _ :: evs' => interrupts evs'
  end.

(** A buffer that has been synced stays so while nobody can queue it again. *)
Lemma spec_done_stays have evs b : forall d bf,
  ds_bufs d !! b = Some bf -> iderw_done bf = true -> b ∉ ds_pending d -> events_ok have evs d ->
  ds_bufs (spec_run evs d) !! b = Some bf.
Proof.
  induction evs as [|e evs IH]; intros d bf Hb Hd Hp Hok; [done|]. destruct Hok as [He Hok].
  apply IH with (bf := bf) in Hok; try done.
  - destruct e as [x|]; simpl; [done|]. destruct (ds_pending d) as [|y q] eqn:Ep; [done|].
    destruct (ds_bufs d !! y) as [yf|] eqn:Ey; [|done]. simpl.
    rewrite list_lookup_insert_ne; [done|]. intros <-. apply Hp. left.
  - destruct e as [x|]; simpl.
    + destruct He as [_ (xf & Hx & [_ _ Hw _])]. rewrite not_elem_of_app, list_elem_of_singleton.
      split; [done|]. intros <-. congruence.
    + destruct (ds_pending d) as [|y q] eqn:Ep; [by rewrite Ep|].
      destruct (ds_bufs d !! y); simpl; [|by rewrite Ep]. set_solver.
Qed.

(** In the specification a request is done after the interrupts of those before it. *)
Lemma spec_completes have evs b : forall d l1 l2,
  (forall x, x ∈ ds_pending d -> is_Some (ds_bufs d !! x)) -> NoDup (ds_pending d) ->
  ds_pending d = l1 ++ b :: l2 -> events_ok have evs d -> (length l1 < interrupts evs)%nat ->
  exists bf, ds_bufs (spec_run evs d) !! b = Some bf /\ iderw_done bf = true.
Proof.
  induction evs as [|e evs IH]; intros d l1 l2 Hex Hnd Hp Hok Hn; [simpl in Hn; lia|].
  destruct Hok as [He Hok]. destruct e as [x|].
  - destruct He as [Hx (xf & Hxf & _)].
    apply (IH (spec_step (Request x) d) l1 (l2 ++ [x])); try done.
    + simpl. intros y Hy. apply elem_of_app in Hy as [Hy|Hy]; [by apply Hex|].
      apply list_elem_of_singleton in Hy as ->. by rewrite Hxf.
    + simpl. apply NoDup_app. split; [done|]. split; [set_solver | apply NoDup_singleton].
    + simpl. rewrite Hp, <- app_assoc. done.
  - simpl in Hn.
    change (spec_run (Interrupt :: evs) d) with (spec_run evs (spec_step Interrupt d)).
    destruct l1 as [|y l1]; simpl in Hp.
    + destruct (Hex b ltac:(rewrite Hp; left)) as [bf Hbf].
      exists (fetched bf (ds_disk d)). split; [|apply fetched_done].
      apply spec_done_stays with have; try done; simpl in *; rewrite Hp, Hbf in *; simpl.
      * rewrite list_lookup_insert_eq; [done | by eapply lookup_lt_Some].
      * apply fetched_done.
      * by apply NoDup_cons in Hnd as [? _].
    + destruct (Hex y ltac:(rewrite Hp; left)) as [yf Hyf].
      apply (IH (spec_step Interrupt d) l1 l2); try done; simpl in *; rewrite Hp, Hyf in *; simpl; try done.
      * intros x Hx. destruct (decide (x = y)) as [->|Hne].
        -- rewrite list_lookup_insert_eq by (by eapply lookup_lt_Some). done.
        -- rewrite list_lookup_insert_ne by done. apply Hex. by right.
      * by apply NoDup_cons in Hnd as [_ ?].
      * lia.
Qed.

(** C24: the driver implements the memory disk, one request at a time.  Along any sequence
    of calls of [iderw] and interrupts, the driver never panics, its buffers are those of
    the specification in which an interrupt performs the oldest pending request at once,
    and when nothing is pending the disk's sectors are the specification's too. *)
Theorem ide_refines evs s d :
  related s d -> events_ok (id_havedisk1 s) evs d ->
  exists s', ide_run evs s = Ret tt s' /\
    id_queue s' = ds_pending (spec_run evs d) /\ id_bufs s' = ds_bufs (spec_run evs d) /\
    (ds_pending (spec_run evs d) = [] ->
     forall k n, dv_sector (id_dev s') k n = ds_disk (spec_run evs d) k n).
Proof.
  intros R Hok. destruct (ide_run_refines evs s d R Hok) as (s' & Hr & [Rq Rb _ _ Rd]).
  exists s'. split_and!; try done. intros E. unfold in_progress in Rd. by rewrite E in Rd.
Qed.

(** C38: every request completes.  A buffer with [l1] requests before it in the queue
    satisfies the condition [iderw] waits for after at most [length l1 + 1] interrupts,
    whatever is queued in between. *)
Theorem ide_completes evs s d b l1 l2 :
  related s d -> events_ok (id_havedisk1 s) evs d -> ds_pending d = l1 ++ b :: l2 ->
  (length l1 < interrupts evs)%nat ->
  exists s' bf, ide_run evs s = Ret tt s' /\ id_bufs s' !! b = Some bf /\ iderw_done bf = true.
Proof.
  intros R Hok Hp Hn. destruct (ide_run_refines evs s d R Hok) as (s' & Hr & R').
  destruct (spec_completes (id_havedisk1 s) evs b d l1 l2) as (bf & Hb & Hd); try done.
  - intros x Hx. destruct (re_reqs _ _ R x Hx) as (bf & -> & _). done.
  - apply R.
  - exists s', bf. rewrite (re_bufs _ _ R'). done.
Qed.
End refinement.

(** ** An example: a disk in memory behind the registers *)

Record ram_disk : Type := mkRam { rm_sectors : sectors; rm_port : list Z }.

#[export] Instance ram_device : IdeDevice ram_disk := {|
  dv_read r d := mkRam (rm_sectors d) (rm_sectors d (rg_disk r) (rg_sector r));
  dv_write r data d := mkRam (put_sector (rg_disk r) (rg_sector r) data (rm_sectors d)) (rm_port d);
  dv_data d := rm_port d;
  dv_error _ := false;
  dv_sector d := rm_sectors d
|}.

#[export] Instance ram_laws : IdeLaws ram_disk.
Proof. split; intros; reflexivity. Qed.

(** A block to write and then to read back into another buffer. *)
Definition wbuf : buf := mkBuf B_DIRTY 1 5 (mkSleeplock true 1) 1 0 0 [7; 7].
Definition rbuf : buf := mkBuf 0 1 5 (mkSleeplock true 2) 1 0 0 [0; 0].
Definition ram0 : ram_disk := mkRam (fun _ _ => [0; 0]) [].
Definition idle : ide_st ram_disk := mkIde [] [wbuf; rbuf] ram0 true [].
Definition idle_spec : disk_spec := mkSpec [] [wbuf; rbuf] (fun _ _ => [0; 0]).

Lemma wbuf_ok : req_ok true wbuf.
Proof. split; [done | done | done | by right]. Qed.
Lemma rbuf_ok : req_ok true rbuf.
Proof. split; [done | done | done | by right]. Qed.

Lemma idle_related : related idle idle_spec.
Proof.
  split; [done | done | apply NoDup_nil_2 | | done]. intros b Hb. by apply elem_of_nil in Hb.
Qed.

Definition write_read : list ide_event := [Request 0; Request 1; Interrupt; Interrupt].

Lemma write_read_ok : events_ok true write_read idle_spec.
Proof.
  repeat split.
  - apply not_elem_of_nil.
  - exists wbuf. split; [done | apply wbuf_ok].
  - simpl. set_solver.
  - exists rbuf. split; [done | apply rbuf_ok].
Qed.

Lemma ide_refines_witness :
  exists s', ide_run write_read idle = Ret tt s' /\
    (fun bf => b_data bf) <$> id_bufs s' = [[7; 7]; [7; 7]].
Proof.
  destruct (ide_refines write_read idle idle_spec idle_related write_read_ok) as (s' & Hr & _ & Hb & _).
  exists s'. split; [exact Hr|]. rewrite Hb. vm_compute. reflexivity.
Defined.

(** With both queued, two interrupts complete the second. *)
Definition both_queued : disk_spec := mkSpec [0%nat; 1%nat] [wbuf; rbuf] (fun _ _ => [0; 0]).
Definition both_state : ide_st ram_disk :=
  mkIde [0%nat; 1%nat] [wbuf; rbuf] (dv_write (regs_of wbuf) [7; 7] ram0) true [].

Lemma both_related : related both_state both_queued.
Proof.
  split; [done | done | | |].
  - apply NoDup_cons. split; [set_solver | apply NoDup_singleton].
  - intros b Hb. simpl in Hb. apply elem_of_cons in Hb as [->|Hb].
    + exists wbuf. split; [done | apply wbuf_ok].
    + apply list_elem_of_singleton in Hb as ->. exists rbuf. split; [done | apply rbuf_ok].
  - intros bf [= <-]. split; [|done]. intros k n. reflexivity.
Qed.

Lemma ide_completes_witness :
  exists s' bf, ide_run [Interrupt; Interrupt] both_state = Ret tt s' /\
    id_bufs s' !! 1%nat = Some bf /\ iderw_done bf = true.
Proof.
  apply (ide_completes [Interrupt; Interrupt] both_state both_queued 1%nat [0%nat] []);
    [exact both_related | done | done | simpl; lia].
Defined.
