(* ===== verification/Log.v ===== *)
(** * The write-ahead log

    log.c, with [readsb] of fs.c.  The theorems say what a transaction is: commit
    makes the blocks logged since the last commit durable, and whatever prefix of
    its disk writes a crash leaves, recovery restores either none or all of them. *)

From S2P Require Import Prelude Monad KState Sched Bio.

Local Open Scope kernel_scope.

(** The bytes of the superblock. *)
Definition sb_of_bytes (d : list Z) : superblock :=
  mkSuperblock (lld32 d 0) (lld32 d 4) (lld32 d 8) (lld32 d 12) (lld32 d 16) (lld32 d 20)
    (lld32 d 24).

Definition readsb (dev : Z) : K superblock :=
  bp <- bread dev 1 ;;
  bf <- get_buf bp ;;
  let sb := sb_of_bytes (b_data bf) in
  brelse bp ;;
  ret sb.

(** [log.lh.block[i]]; the array has [LOGSIZE] entries. *)
Definition get_lblock (i : nat) : K Z :=
  l <- gets (fun s => l_block (k_log s)) ;; deref "log.lh.block" (l !! i).
Definition set_lblock (i : nat) (v : Z) : K unit :=
  _ <- get_lblock i ;;
  upd_log (fun l => set_l_block (<[i := v]> (l_block l)) l).

Definition install_trans : K unit :=
  n <- gets (fun s => l_n (k_log s)) ;;
  for_each (seq 0 (Z.to_nat n)) (fun tail =>
    l <- gets (fun s => k_log s) ;;
    lbuf <- bread (u32 (l_dev l)) (u32 (l_start l + Z.of_nat tail + 1)) ;;
    x <- get_lblock tail ;;
    dbuf <- bread (u32 (l_dev l)) (u32 x) ;;
    lb <- get_buf lbuf ;;
    upd_buf dbuf (set_b_data (b_data lb)) ;;
    bwrite dbuf ;;
    brelse lbuf ;;
    brelse dbuf).

Definition read_head : K unit :=
  l <- gets (fun s => k_log s) ;;
  buf <- bread (u32 (l_dev l)) (u32 (l_start l)) ;;
  lh <- get_buf buf ;;
  upd_log (set_l_n (i32 (lld32 (b_data lh) 0))) ;;
  n <- gets (fun s => l_n (k_log s)) ;;
  for_each (seq 0 (Z.to_nat n)) (fun i =>
    set_lblock i (i32 (lld32 (b_data lh) (4 + 4 * Z.of_nat i)))) ;;
  brelse buf.

Definition write_head : K unit :=
  l <- gets (fun s => k_log s) ;;
  buf <- bread (u32 (l_dev l)) (u32 (l_start l)) ;;
  upd_buf buf (fun hb => set_b_data (lst32 (b_data hb) 0 (l_n l)) hb) ;;
  for_each (seq 0 (Z.to_nat (l_n l))) (fun i =>
    x <- get_lblock i ;;
    upd_buf buf (fun hb => set_b_data (lst32 (b_data hb) (4 + 4 * Z.of_nat i) x) hb)) ;;
  bwrite buf ;;
  brelse buf.

Definition recover_from_log : K unit :=
  read_head ;;
  install_trans ;;
  upd_log (set_l_n 0) ;;
  write_head.

(** [sizeof(struct logheader)] is 124, below [BSIZE]. *)
Definition initlog (dev : Z) : K unit :=
  if BSIZE <=? 4 + 4 * LOGSIZE then panic "initlog: too big logheader" else
  sb <- readsb (u32 dev) ;;
  upd_log (set_l_start (i32 (sb_logstart sb))) ;;
  upd_log (set_l_size (i32 (sb_nlog sb))) ;;
  upd_log (set_l_dev dev) ;;
  recover_from_log.

Definition begin_op : K unit :=
  acquire LLog ;;
  loop MAXWAIT (fun _ : unit =>
    l <- gets (fun s => k_log s) ;;
    if l_committing l then sleep ChLog LLog ;; ret (inl tt)
    else if LOGSIZE <? l_n l + (l_outstanding l + 1) * MAXOPBLOCKS then
      sleep ChLog LLog ;; ret (inl tt)
    else
      upd_log (set_l_outstanding (i32 (l_outstanding l + 1))) ;;
      release LLog ;;
      ret (inr tt)) tt.

Definition write_log : K unit :=
  n <- gets (fun s => l_n (k_log s)) ;;
  for_each (seq 0 (Z.to_nat n)) (fun tail =>
    l <- gets (fun s => k_log s) ;;
    to <- bread (u32 (l_dev l)) (u32 (l_start l + Z.of_nat tail + 1)) ;;
    x <- get_lblock tail ;;
    from <- bread (u32 (l_dev l)) (u32 x) ;;
    fb <- get_buf from ;;
    upd_buf to (set_b_data (b_data fb)) ;;
    bwrite to ;;
    brelse from ;;
    brelse to).

Definition commit : K unit :=
  n <- gets (fun s => l_n (k_log s)) ;;
  when (0 <? n)
    (write_log ;;
     write_head ;;
     install_trans ;;
     upd_log (set_l_n 0) ;;
     write_head).

Definition end_op : K unit :=
  acquire LLog ;;
  upd_log (fun l => set_l_outstanding (i32 (l_outstanding l - 1)) l) ;;
  l <- gets (fun s => k_log s) ;;
  if l_committing l then panic "log.committing" else
  do_commit <-
    (if l_outstanding l =? 0 then upd_log (set_l_committing true) ;; ret true
     else wakeup ChLog ;; ret false) ;;
  release LLog ;;
  when do_commit
    (commit ;;
     acquire LLog ;;
     upd_log (set_l_committing false) ;;
     wakeup ChLog ;;
     release LLog).

Definition log_write (b : nat) : K unit :=
  l <- gets (fun s => k_log s) ;;
  if (LOGSIZE <=? l_n l) || (l_size l - 1 <=? l_n l) then panic "too big a transaction" else
  if l_outstanding l <? 1 then panic "log_write outside of trans" else
  acquire LLog ;;
  bf <- get_buf b ;;
  l <- gets (fun s => k_log s) ;;
  r <- for_first (seq 0 (Z.to_nat (l_n l))) (fun i =>
    x <- get_lblock i ;;
    ret (if u32 x =? b_blockno bf then Some i else None)) ;;
  let i := match r with Some i => i | None => Z.to_nat (l_n l) end in
  set_lblock i (i32 (b_blockno bf)) ;;
  when (Z.of_nat i =? l_n l) (upd_log (set_l_n (l_n l + 1))) ;;
  upd_buf b (fun bf => set_b_flags (Z.lor (b_flags bf) B_DIRTY) bf) ;;
  release LLog.

(** ** Disks and their histories *)

Abbreviation disk := (list (list Z)).

Definition put_block (d : disk) (w : Z * list Z) : disk := <[Z.to_nat w.1 := w.2]> d.
(** The disk after a sequence of writes. *)
Definition replay (ws : list (Z * list Z)) (d : disk) : disk := foldl put_block d ws.

Definition dblock (d : disk) (x : Z) : option (list Z) := d !! Z.to_nat x.

Lemma replay_app ws1 ws2 d : replay (ws1 ++ ws2) d = replay ws2 (replay ws1 d).
Proof. apply foldl_app. Qed.

Lemma length_replay ws d : length (replay ws d) = length d.
Proof.
  revert d. induction ws as [|w ws IH]; intros d; simpl; [done|].
  rewrite IH. apply length_insert.
Qed.

(** A block none of the writes goes to. *)
Lemma replay_ne ws d x :
  0 <= x -> (forall w, w ∈ ws -> 0 <= w.1 /\ w.1 <> x) -> dblock (replay ws d) x = dblock d x.
Proof.
  intros Hx. revert d. induction ws as [|w ws IH]; intros d Hw; simpl; [done|].
  rewrite IH by set_solver. destruct (Hw w ltac:(by left)). unfold dblock, put_block.
  apply list_lookup_insert_ne. lia.
Qed.

(** A block written once. *)
Lemma replay_in ws d x b :
  0 <= x < zlen d -> (x, b) ∈ ws -> NoDup ws.*1 -> (forall w, w ∈ ws -> 0 <= w.1) ->
  dblock (replay ws d) x = Some b.
Proof.
  intros Hx. revert d Hx. induction ws as [|w ws IH]; intros d Hx Hin Hnd Hpos; [set_solver|].
  simpl in *. apply NoDup_cons in Hnd as [Hn Hnd].
  assert (zlen (put_block d w) = zlen d) as El
    by (unfold zlen, put_block; by rewrite length_insert).
  apply elem_of_cons in Hin as [<-|Hin].
  - rewrite replay_ne; [|lia|].
    + unfold dblock, put_block. simpl. apply list_lookup_insert_eq. unfold zlen in Hx. lia.
    + intros w Hw. split; [apply Hpos; by right|]. intros E. apply Hn. simpl.
      rewrite <- E. apply list_elem_of_fmap. eauto.
  - apply IH; [lia | done | done | set_solver].
Qed.

(** ** The header block *)

Fixpoint enc_blocks (d : list Z) (i : nat) (blocks : list Z) : list Z :=
  match blocks with
  | [] => d
  | x :: bs => enc_blocks (lst32 d (4 + 4 * Z.of_nat i) x) (S i) bs
  end.
(** The header [write_head] makes out of the old block. *)
Definition enc_head (d : list Z) (blocks : list Z) : list Z :=
  enc_blocks (lst32 d 0 (zlen blocks)) 0 blocks.

Definition dec_n (d : list Z) : Z := i32 (lld32 d 0).
Definition dec_block (d : list Z) (i : nat) : Z := i32 (lld32 d (4 + 4 * Z.of_nat i)).
(** The block numbers [read_head] reads. *)
Definition dec_head (d : list Z) : list Z := dec_block d <$> seq 0 (Z.to_nat (dec_n d)).

Lemma lput_ok d i v : block_ok d -> block_ok (lput d i v).
Proof.
  intros [H1 H2]. split; [unfold zlen in *; by rewrite length_lput|].
  apply Forall_insert; [done|]. auto with cint.
Qed.

Lemma lst32_ok d i v : block_ok d -> block_ok (lst32 d i v).
Proof. intros H. unfold lst32. auto using lput_ok. Qed.

Lemma enc_blocks_ok d i bs : block_ok d -> block_ok (enc_blocks d i bs).
Proof. revert d i. induction bs as [|x bs IH]; intros d i H; simpl; auto using lst32_ok. Qed.

Lemma enc_head_ok d bs : block_ok d -> block_ok (enc_head d bs).
Proof. intros H. apply enc_blocks_ok, lst32_ok, H. Qed.

Lemma enc_blocks_low d i bs j :
  0 <= j -> j < 4 + 4 * Z.of_nat i -> lget (enc_blocks d i bs) j = lget d j.
Proof.
  revert d i. induction bs as [|x bs IH]; intros d i Hj Hi; simpl; [done|].
  rewrite IH by lia. apply lget_lst32_ne; lia.
Qed.

Lemma enc_blocks_low32 d i bs j :
  0 <= j -> j + 4 <= 4 + 4 * Z.of_nat i -> lld32 (enc_blocks d i bs) j = lld32 d j.
Proof. intros. unfold lld32. rewrite !enc_blocks_low by lia. done. Qed.

Lemma enc_blocks_at d i bs k x :
  zlen d = BSIZE -> 4 + 4 * Z.of_nat i + 4 * zlen bs <= BSIZE -> bs !! k = Some x ->
  lld32 (enc_blocks d i bs) (4 + 4 * Z.of_nat (i + k)) = u32 x.
Proof.
  revert d i k. induction bs as [|y bs IH]; intros d i k Hd Hl Hk; [done|].
  unfold zlen in *. simpl length in Hl. simpl enc_blocks. destruct k as [|k]; simpl in Hk.
  - injection Hk as ->. rewrite enc_blocks_low32 by lia. rewrite Nat.add_0_r.
    apply lld32_lst32; [lia|]. unfold zlen. unfold BSIZE in *. lia.
  - replace (i + S k)%nat with (S i + k)%nat by lia. apply IH; [|lia|done].
    by rewrite length_lst32.
Qed.

(** Block numbers fit in a C [int]. *)
Definition blockno_ok (x : Z) : Prop := 0 <= x < 2147483648.

Lemma dec_enc_head d bs :
  zlen d = BSIZE -> zlen bs <= LOGSIZE -> Forall blockno_ok bs -> dec_head (enc_head d bs) = bs.
Proof.
  intros Hd Hl Hb.
  assert (dec_n (enc_head d bs) = zlen bs) as En.
  { unfold dec_n, enc_head. rewrite enc_blocks_low32 by lia.
    rewrite lld32_lst32 by (rewrite ?Hd; klia).
    unfold zlen, LOGSIZE, MAXOPBLOCKS in *. zlia. }
  unfold dec_head. rewrite En. unfold zlen at 1. rewrite Nat2Z.id.
  apply list_eq. intros k. rewrite list_lookup_fmap.
  destruct (bs !! k) as [x|] eqn:Ex.
  - pose proof (lookup_lt_Some _ _ _ Ex). rewrite lookup_seq_lt by lia. simpl. f_equal.
    unfold dec_block, enc_head.
    rewrite (enc_blocks_at _ 0 bs k x).
    + pose proof (Forall_lookup_1 _ _ _ _ Hb Ex) as Hx. unfold blockno_ok in Hx. zlia.
    + unfold zlen. by rewrite length_lst32.
    + unfold LOGSIZE, MAXOPBLOCKS, BSIZE in *. lia.
    + done.
  - apply lookup_ge_None in Ex. by rewrite lookup_seq_ge by lia.
Qed.

Lemma dec_head_length d : length (dec_head d) = Z.to_nat (dec_n d).
Proof. unfold dec_head. by rewrite length_fmap, length_seq. Qed.

(** ** Logged blocks on disk *)

(** The writes of [write_log]: block [j] of the transaction goes to slot [j]. *)
Fixpoint slot_writes (start : Z) (j : nat) (blocks : list Z) (v : Z -> list Z) : list (Z * list Z) :=
  match blocks with
  | [] => []
  | x :: bs => (start + Z.of_nat j + 1, v x) :: slot_writes start (S j) bs v
  end.

(** The writes of [install_trans]: slot [j] goes home. *)
Fixpoint home_writes (start : Z) (j : nat) (blocks : list Z) (v : Z -> list Z) : list (Z * list Z) :=
  match blocks with
  | [] => []
  | x :: bs => (x, v (start + Z.of_nat j + 1)) :: home_writes start (S j) bs v
  end.

(** The log area and the rest of the disk. *)
Record geom : Type := { g_start : Z; g_size : Z; g_total : Z }.

Definition geom_ok (g : geom) : Prop :=
  1 < g_start g /\ 1 < g_size g /\ g_start g + g_size g <= g_total g /\ g_total g < 2147483648.
Definition in_log (g : geom) (x : Z) : Prop := g_start g <= x < g_start g + g_size g.
Definition home (g : geom) (x : Z) : Prop := 0 <= x < g_total g /\ ~ in_log g x.

(** A set of blocks that can be logged. *)
Record txn_ok (g : geom) (txn : list Z) : Prop := {
  tx_nodup : NoDup txn;
  tx_home : Forall (home g) txn;
  tx_fits : zlen txn < g_size g;
  tx_head : zlen txn <= LOGSIZE
}.

(** ** Steps of the log on the disk *)

(** From [s] to [s'] exactly the writes [ws] reached the disk, and nothing but
    the cache changed besides. *)
Definition wrote (s s' : kst) (ws : list (Z * list Z)) : Prop :=
  s' = set_k_bufs (k_bufs s')
         (set_k_disk (replay ws (k_disk s)) (set_k_dtrace (k_dtrace s ++ ws) s)).

Lemma wrote_bufs s s' : only_bufs s s' -> wrote s s' [].
Proof. intros ->. unfold wrote. simpl. by rewrite app_nil_r. Qed.

Lemma wrote_refl s : wrote s s [].
Proof. unfold wrote. simpl. by rewrite app_nil_r. Qed.

Lemma wrote_trans s s1 s2 ws1 ws2 :
  wrote s s1 ws1 -> wrote s1 s2 ws2 -> wrote s s2 (ws1 ++ ws2).
Proof.
  unfold wrote. intros E1 E2. rewrite E2. rewrite E1. simpl.
  by rewrite replay_app, app_assoc.
Qed.

Section wrote.
Context (s s' : kst) (ws : list (Z * list Z)).
Hypothesis Hw : wrote s s' ws.

Lemma wrote_quiet : quiet s -> quiet s'.
Proof. rewrite Hw. by apply quiet_ext. Qed.
Lemma wrote_log : k_log s' = k_log s.
Proof. by rewrite Hw. Qed.
Lemma wrote_disk : k_disk s' = replay ws (k_disk s).
Proof. by rewrite Hw. Qed.
Lemma wrote_trace : k_dtrace s' = k_dtrace s ++ ws.
Proof. by rewrite Hw. Qed.
Lemma wrote_size : zlen (k_disk s') = zlen (k_disk s).
Proof. rewrite wrote_disk. unfold zlen. by rewrite length_replay. Qed.
End wrote.

Lemma only_bufs_trans s s1 s2 : only_bufs s s1 -> only_bufs s1 s2 -> only_bufs s s2.
Proof. unfold only_bufs. intros E1 E2. rewrite E2. rewrite E1. done. Qed.

Lemma only_bufs_quiet s s' : only_bufs s s' -> quiet s -> quiet s'.
Proof. intros -> Hq. by apply quiet_bufs. Qed.

Lemma same_view_trans H H' s s1 s2 :
  (forall i, i ∈ H -> i ∈ H') -> same_view H s s1 -> same_view H' s1 s2 -> same_view H s s2.
Proof.
  intros HH [V1 P1 D1] [V2 P2 D2]. split.
  - intros x Hx. by rewrite V2, V1.
  - intros x. by rewrite P2, P1.
  - intros i x d Hi Hh. apply D2; auto.
Qed.

Lemma holds_inj s b x1 d1 x2 d2 :
  holds s b x1 d1 -> holds s b x2 d2 -> x1 = x2 /\ d1 = d2.
Proof. intros (y & Hy & _ & <- & <-) (z & Hz & _ & <- & <-). assert (y = z) as -> by congruence. done. Qed.

Section copy.
Context (s : kst) (P : list Z) (x1 x2 : Z).
Hypothesis Hq : quiet s.
Hypothesis Hi : cache_inv s [].
Hypothesis Hx1 : 0 <= x1 < zlen (k_disk s).
Hypothesis Hx2 : 0 <= x2 < zlen (k_disk s).
Hypothesis Hne : x1 <> x2.
Hypothesis HP : forall x, pinned s x -> x ∈ P.
Hypothesis Hroom : (length P < NBUF)%nat.
Hypothesis Hroom2 : pinned s x2 \/ (S (length P) < NBUF)%nat.

Lemma two_reads :
  exists b1 s1 b2 s2 d1 d2, bread 1 x1 s = Ret b1 s1 /\ only_bufs s s1 /\
    bread 1 x2 s1 = Ret b2 s2 /\ only_bufs s s2 /\ cache_inv s2 [b2; b1] /\
    same_view [] s s2 /\ holds s2 b1 x1 d1 /\ holds s2 b2 x2 d2 /\
    vblock s x1 = Some d1 /\ vblock s x2 = Some d2.
Proof.
  destruct (bread_spec s [] x1 Hq Hi Hx1) as (b1 & s1 & E1 & O1 & I1 & _ & V1 & d1 & Vd1 & Hh1).
  { intros i d Hin. by apply not_elem_of_nil in Hin. }
  { right. by eapply room_count. }
  assert (forall x, pinned s1 x -> x ∈ P) as HP1 by (intros x; rewrite (sv_pinned _ _ _ V1); apply HP).
  destruct (bread_spec s1 [b1] x2) as (b2 & s2 & E2 & O2 & I2 & _ & V2 & d2 & Vd2 & Hh2).
  - by eapply only_bufs_quiet.
  - done.
  - by rewrite O1.
  - intros i d Hin Hh. apply list_elem_of_singleton in Hin as ->.
    destruct (holds_inj _ _ _ _ _ _ Hh1 Hh). congruence.
  - destruct Hroom2 as [Hp|Hl].
    + left. eapply pinned_cached; [done|]. by apply (sv_pinned _ _ _ V1).
    + right. eapply room_count; [done | done|]. simpl. lia.
  - exists b1, s1, b2, s2, d1, d2. split_and!; try done.
    + by eapply only_bufs_trans.
    + eapply same_view_trans; [|exact V1 | exact V2]. intros i Hin. by apply not_elem_of_nil in Hin.
    + apply (sv_holds _ _ _ V2); [by left | done].
    + rewrite <- (sv_vblock _ _ _ V1); [done | lia].
Qed.

(** The two reads, [memmove] from one buffer to the other, [bwrite], and the two
    releases.  [to_first]: the block read first is the one written. *)
Lemma copy_spec (to_first : bool) :
  exists b1 s1 b2 s2 fb s3 s4 s5 s6 d,
    let src := if to_first then b2 else b1 in
    let dst := if to_first then b1 else b2 in
    let xd := if to_first then x1 else x2 in
    bread 1 x1 s = Ret b1 s1 /\ only_bufs s s1 /\ bread 1 x2 s1 = Ret b2 s2 /\
    get_buf src s2 = Ret fb s2 /\ upd_buf dst (set_b_data (b_data fb)) s2 = Ret tt s3 /\
    bwrite dst s3 = Ret tt s4 /\ brelse src s4 = Ret tt s5 /\ brelse dst s5 = Ret tt s6 /\
    vblock s (if to_first then x2 else x1) = Some d /\
    wrote s s6 [(xd, d)] /\ cache_inv s6 [] /\
    (forall y, 0 <= y -> vblock s6 y = if y =? xd then Some d else vblock s y) /\
    (forall y, pinned s6 y <-> pinned s y /\ y <> xd).
Proof.
  destruct two_reads as (b1 & s1 & b2 & s2 & d1 & d2 & E1 & O1 & E2 & O2 & I2 & V2 & H1 & H2 & D1 & D2).
  assert (quiet s2) as Hq2 by (by eapply only_bufs_quiet).
  set (src := if to_first then b2 else b1). set (dst := if to_first then b1 else b2).
  set (xs := if to_first then x2 else x1). set (xd := if to_first then x1 else x2).
  set (d := if to_first then d2 else d1). set (dd := if to_first then d1 else d2).
  assert (cache_inv s2 [dst; src]) as I2'.
  { subst src dst. destruct to_first; [|done]. eapply cache_inv_perm; [|exact I2]. apply Permutation_swap. }
  assert (holds s2 src xs d /\ holds s2 dst xd dd /\ vblock s xs = Some d /\ xs <> xd /\
          0 <= xs < zlen (k_disk s) /\ 0 <= xd < zlen (k_disk s)) as (Hs & Hd & Ds & Hsd & Bs & Bd)
    by (subst src dst xs xd d dd; by destruct to_first).
  destruct Hs as (fb & Hfb & Ffb & Nfb & Dfb).
  assert (holds s2 src xs d) as Hs by (by exists fb).
  assert (block_ok d) as Hok by (eapply vblock_block_ok; [exact Hi | exact Ds]).
  destruct (store_write_spec s2 [src] dst xd dd d Hq2 I2' Hd Hok)
    as (s3 & s4 & E3 & E4 & O4 & I4 & H4 & V4 & P4 & K4).
  assert (quiet s4) as Hq4 by (rewrite O4; by apply (quiet_ext s2)).
  pose proof (K4 src xs d ltac:(by left) Hs) as Hs4.
  destruct (brelse_spec s4 [dst] src xs d) as (s5 & E5 & O5 & I5 & V5).
  { done. } { eapply cache_inv_perm; [apply Permutation_swap | exact I4]. } { done. }
  { destruct (vblock_disk s [] xs d Hi) as [Hp|Hp]; [|done| |].
    - intros i e Hin. by apply not_elem_of_nil in Hin.
    - left. apply P4. split; [by apply (sv_pinned _ _ _ V2) | done].
    - right. rewrite O4. simpl. rewrite list_lookup_insert_ne by lia. by rewrite O2. }
  assert (quiet s5) as Hq5 by (by eapply only_bufs_quiet).
  destruct (brelse_spec s5 [] dst xd d) as (s6 & E6 & O6 & I6 & V6).
  { done. } { done. } { apply (sv_holds _ _ _ V5); [by left | done]. }
  { right. rewrite O5, O4. simpl. apply list_lookup_insert_eq. rewrite O2. unfold zlen in *. simpl. lia. }
  exists b1, s1, b2, s2, fb, s3, s4, s5, s6, d. fold src dst xd xs.
  split_and!; [done | done | done | by apply get_buf_eq | by rewrite Dfb | done | done | done | done
    | | done | |].
  - apply (wrote_trans s s4 s6 [(xd, d)] []).
    + unfold wrote. rewrite O4 at 1. unfold disk_write. by rewrite O2.
    + apply wrote_bufs. by eapply only_bufs_trans.
  - intros y Hy. rewrite (sv_vblock _ _ _ V6), (sv_vblock _ _ _ V5), V4 by done.
    case_match; [done|]. by apply (sv_vblock _ _ _ V2).
  - intros y. by rewrite (sv_pinned _ _ _ V6), (sv_pinned _ _ _ V5), P4, (sv_pinned _ _ _ V2).
Qed.
End copy.

(** ** The loops of commit and recovery *)

(** The in-memory log describes transaction [txn]. *)
Record log_at (g : geom) (s : kst) (txn : list Z) : Prop := {
  la_dev : l_dev (k_log s) = 1;
  la_start : l_start (k_log s) = g_start g;
  la_size : l_size (k_log s) = g_size g;
  la_n : l_n (k_log s) = zlen txn;
  la_block k x : txn !! k = Some x -> l_block (k_log s) !! k = Some x;
  la_len : zlen (l_block (k_log s)) = LOGSIZE;
  la_total : zlen (k_disk s) = g_total g;
  la_geom : geom_ok g;
  la_txn : txn_ok g txn
}.

Lemma log_at_wrote g s s' ws txn : wrote s s' ws -> log_at g s txn -> log_at g s' txn.
Proof.
  intros Hw [H1 H2 H3 H4 H5 H6 H7 H8 H9]. pose proof (wrote_log s s' ws Hw) as El.
  split; rewrite ?El; try done. by rewrite (wrote_size s s' ws Hw).
Qed.

Definition vdata (s : kst) (x : Z) : list Z := default [] (vblock s x).

Section loops.
Context (g : geom).

(** The facts of slot [j] and its block. *)
Lemma txn_slot txn j x :
  geom_ok g -> txn_ok g txn -> txn !! j = Some x ->
  in_log g (g_start g + Z.of_nat j + 1) /\ home g x /\
  0 <= g_start g + Z.of_nat j + 1 < g_total g /\ 0 <= x < g_total g /\
  g_start g + Z.of_nat j + 1 <> x.
Proof.
  intros (G1 & G2 & G3 & G4) [T1 T2 T3 T4] Hx.
  pose proof (Forall_lookup_1 _ _ _ _ T2 Hx) as [Hr Hl].
  pose proof (lookup_lt_Some _ _ _ Hx). unfold zlen in *.
  assert (in_log g (g_start g + Z.of_nat j + 1)) as Hin by (unfold in_log; lia).
  split_and!; try done; try (unfold in_log in *; lia).
Qed.

Lemma get_lblock_eq s j x : l_block (k_log s) !! j = Some x -> get_lblock j s = Ret x s.
Proof. intros H. unfold get_lblock. krun. by rewrite H. Qed.

Lemma write_log_step s txn j x :
  quiet s -> cache_inv s [] -> log_at g s txn -> (forall y, pinned s y <-> y ∈ txn) ->
  (length txn < NBUF)%nat -> txn !! j = Some x ->
  exists s',
    (l <- gets (fun s => k_log s) ;;
     to <- bread (u32 (l_dev l)) (u32 (l_start l + Z.of_nat j + 1)) ;;
     x <- get_lblock j ;;
     from <- bread (u32 (l_dev l)) (u32 x) ;;
     fb <- get_buf from ;;
     upd_buf to (set_b_data (b_data fb)) ;;
     bwrite to ;; brelse from ;; brelse to) s = Ret tt s' /\
    wrote s s' [(g_start g + Z.of_nat j + 1, vdata s x)] /\ cache_inv s' [] /\
    (forall y, pinned s' y <-> y ∈ txn) /\
    (forall y, 0 <= y -> vblock s' y = if y =? g_start g + Z.of_nat j + 1 then vblock s x
                                       else vblock s y).
Proof.
  intros Hq Hi Hla Hp Hn Hx.
  destruct (txn_slot txn j x (la_geom _ _ _ Hla) (la_txn _ _ _ Hla) Hx) as (Hin & Hh & B1 & B2 & Hne).
  pose proof (la_total _ _ _ Hla) as Ht. destruct (la_geom _ _ _ Hla) as (_ & _ & _ & G4).
  destruct (copy_spec s txn (g_start g + Z.of_nat j + 1) x Hq Hi ltac:(lia) ltac:(lia) Hne
             ltac:(intros y; by apply Hp) Hn ltac:(left; apply Hp; by eapply list_elem_of_lookup_2) true)
    as (b1 & s1 & b2 & s2 & fb & s3 & s4 & s5 & s6 & d & E1 & O1 & E2 & E2' & E3 & E4 & E5 & E6 & Hd & Hw & Hi' & Hv & Hp').
  exists s6. split_and!.
  - krun. rewrite (la_dev _ _ _ Hla), (la_start _ _ _ Hla).
    rewrite (u32_small (g_start g + Z.of_nat j + 1)) by lia. change (u32 1) with 1.
    rewrite (bind_Ret _ _ _ _ _ E1).
    rewrite (bind_Ret _ _ _ _ _ (get_lblock_eq s1 j x ltac:(rewrite O1; exact (la_block _ _ _ Hla _ _ Hx)))).
    rewrite (u32_small x) by lia.
    rewrite (bind_Ret _ _ _ _ _ E2), (bind_Ret _ _ _ _ _ E2'), (bind_Ret _ _ _ _ _ E3).
    by rewrite (bind_Ret _ _ _ _ _ E4), (bind_Ret _ _ _ _ _ E5).
  - unfold vdata. by rewrite Hd.
  - done.
  - intros y. rewrite Hp', Hp. split; [tauto|]. intros Hy. split; [done|]. intros ->.
    destruct (la_txn _ _ _ Hla) as [_ T2 _ _]. apply Forall_forall with (x := g_start g + Z.of_nat j + 1) in T2; [|done].
    by destruct T2.
  - intros y Hy. rewrite Hv by done. by rewrite Hd.
Qed.

Lemma slot_writes_ext start j bs v v' :
  (forall x, x ∈ bs -> v x = v' x) -> slot_writes start j bs v = slot_writes start j bs v'.
Proof.
  revert j. induction bs as [|x bs IH]; intros j Hv; simpl; [done|].
  f_equal; [by rewrite Hv by (by left) | apply IH; set_solver].
Qed.

Lemma home_writes_ext start j bs v v' :
  (forall k, (j <= k < j + length bs)%nat -> v (start + Z.of_nat k + 1) = v' (start + Z.of_nat k + 1)) ->
  home_writes start j bs v = home_writes start j bs v'.
Proof.
  revert j. induction bs as [|x bs IH]; intros j Hv; simpl; [done|].
  f_equal; [rewrite Hv by (simpl; lia); done | apply IH; intros; apply Hv; simpl; lia].
Qed.

Lemma write_log_loop s txn j m :
  quiet s -> cache_inv s [] -> log_at g s txn -> (forall y, pinned s y <-> y ∈ txn) ->
  (length txn < NBUF)%nat -> (j + m = length txn)%nat ->
  exists s', for_each (seq j m) (fun tail =>
      l <- gets (fun s => k_log s) ;;
      to <- bread (u32 (l_dev l)) (u32 (l_start l + Z.of_nat tail + 1)) ;;
      x <- get_lblock tail ;;
      from <- bread (u32 (l_dev l)) (u32 x) ;;
      fb <- get_buf from ;;
      upd_buf to (set_b_data (b_data fb)) ;;
      bwrite to ;; brelse from ;; brelse to) s = Ret tt s' /\
    wrote s s' (slot_writes (g_start g) j (drop j txn) (vdata s)) /\ cache_inv s' [] /\
    (forall y, pinned s' y <-> y ∈ txn) /\
    (forall y, 0 <= y -> (forall k, (j <= k < length txn)%nat -> y <> g_start g + Z.of_nat k + 1) ->
       vblock s' y = vblock s y) /\
    (forall k x, (j <= k)%nat -> txn !! k = Some x -> vblock s' (g_start g + Z.of_nat k + 1) = vblock s x).
Proof.
  revert s j. induction m as [|m IH]; intros s j Hq Hi Hla Hp Hn Hj.
  - exists s. rewrite drop_ge by lia. split_and!; [done | apply wrote_refl | done | done | done |].
    intros k x Hk Hx. apply lookup_lt_Some in Hx. lia.
  - destruct (lookup_lt_is_Some_2 txn j) as [x Hx]; [lia|].
    destruct (write_log_step s txn j x Hq Hi Hla Hp Hn Hx) as (s1 & E1 & W1 & I1 & P1 & V1).
    destruct (IH s1 (S j)) as (s2 & E2 & W2 & I2 & P2 & V2 & K2);
      [by eapply wrote_quiet | done | by eapply log_at_wrote | done | done | lia |].
    assert (forall y, y ∈ txn -> vblock s1 y = vblock s y) as Hv1.
    { intros y Hy. destruct (la_txn _ _ _ Hla) as [_ T2 _ _]. rewrite Forall_forall in T2.
      destruct (T2 y Hy) as [Hb Hl].
      destruct (txn_slot txn j x (la_geom _ _ _ Hla) (la_txn _ _ _ Hla) Hx) as (Hin & _).
      rewrite V1, (proj2 (Z.eqb_neq _ _)); [done | by intros -> | lia]. }
    exists s2. cbn [seq for_each]. rewrite (bind_Ret _ _ _ _ _ E1). split_and!; [done | | done | done | |].
    + rewrite (drop_S _ _ _ Hx). simpl. apply (wrote_trans s s1 s2 [_]); [done|].
      rewrite (slot_writes_ext _ _ _ (vdata s) (vdata s1)); [done|]. intros y Hy. unfold vdata.
      rewrite Hv1; [done|]. by apply (subseteq_drop (S j) txn).
    + intros y Hy Hny. rewrite V2, V1, (proj2 (Z.eqb_neq _ _)); [done | apply Hny; lia | done | done |].
      intros k Hk. apply Hny. lia.
    + intros k y Hk Hy. destruct (la_geom _ _ _ Hla) as (G1 & _).
      destruct (decide (k = j)) as [->|Hkj].
      * assert (y = x) as -> by congruence. rewrite V2 by (intros; lia).
        rewrite V1, Z.eqb_refl by lia. done.
      * rewrite (K2 k y) by (done || lia). apply Hv1. by eapply list_elem_of_lookup_2.
Qed.

Lemma install_step s txn j x P :
  quiet s -> cache_inv s [] -> log_at g s txn -> (forall y, pinned s y -> y ∈ P) ->
  (length P < NBUF)%nat -> pinned s x \/ (S (length P) < NBUF)%nat -> txn !! j = Some x ->
  exists s',
    (l <- gets (fun s => k_log s) ;;
     lbuf <- bread (u32 (l_dev l)) (u32 (l_start l + Z.of_nat j + 1)) ;;
     x <- get_lblock j ;;
     dbuf <- bread (u32 (l_dev l)) (u32 x) ;;
     lb <- get_buf lbuf ;;
     upd_buf dbuf (set_b_data (b_data lb)) ;;
     bwrite dbuf ;; brelse lbuf ;; brelse dbuf) s = Ret tt s' /\
    wrote s s' [(x, vdata s (g_start g + Z.of_nat j + 1))] /\ cache_inv s' [] /\
    (forall y, pinned s' y <-> pinned s y /\ y <> x) /\
    (forall y, 0 <= y -> vblock s' y = if y =? x then vblock s (g_start g + Z.of_nat j + 1)
                                       else vblock s y).
Proof.
  intros Hq Hi Hla Hp Hn Hpx Hx.
  destruct (txn_slot txn j x (la_geom _ _ _ Hla) (la_txn _ _ _ Hla) Hx) as (Hin & Hh & B1 & B2 & Hne).
  pose proof (la_total _ _ _ Hla) as Ht. destruct (la_geom _ _ _ Hla) as (_ & _ & _ & G4).
  destruct (copy_spec s P (g_start g + Z.of_nat j + 1) x Hq Hi ltac:(lia) ltac:(lia) Hne Hp Hn Hpx false)
    as (b1 & s1 & b2 & s2 & fb & s3 & s4 & s5 & s6 & d & E1 & O1 & E2 & E2' & E3 & E4 & E5 & E6 & Hd & Hw & Hi' & Hv & Hp').
  exists s6. split_and!.
  - krun. rewrite (la_dev _ _ _ Hla), (la_start _ _ _ Hla).
    rewrite (u32_small (g_start g + Z.of_nat j + 1)) by lia. change (u32 1) with 1.
    rewrite (bind_Ret _ _ _ _ _ E1).
    rewrite (bind_Ret _ _ _ _ _ (get_lblock_eq s1 j x ltac:(rewrite O1; exact (la_block _ _ _ Hla _ _ Hx)))).
    rewrite (u32_small x) by lia.
    rewrite (bind_Ret _ _ _ _ _ E2), (bind_Ret _ _ _ _ _ E2'), (bind_Ret _ _ _ _ _ E3).
    by rewrite (bind_Ret _ _ _ _ _ E4), (bind_Ret _ _ _ _ _ E5).
  - unfold vdata. by rewrite Hd.
  - done.
  - done.
  - intros y Hy. rewrite Hv by done. by rewrite Hd.
Qed.

Lemma install_loop s txn j m P :
  quiet s -> cache_inv s [] -> log_at g s txn -> (forall y, pinned s y -> y ∈ P) ->
  (length P < NBUF)%nat -> (forall y, y ∈ drop j txn -> pinned s y) \/ (S (length P) < NBUF)%nat ->
  (j + m = length txn)%nat ->
  exists s', for_each (seq j m) (fun tail =>
      l <- gets (fun s => k_log s) ;;
      lbuf <- bread (u32 (l_dev l)) (u32 (l_start l + Z.of_nat tail + 1)) ;;
      x <- get_lblock tail ;;
      dbuf <- bread (u32 (l_dev l)) (u32 x) ;;
      lb <- get_buf lbuf ;;
      upd_buf dbuf (set_b_data (b_data lb)) ;;
      bwrite dbuf ;; brelse lbuf ;; brelse dbuf) s = Ret tt s' /\
    wrote s s' (home_writes (g_start g) j (drop j txn) (vdata s)) /\ cache_inv s' [] /\
    (forall y, pinned s' y <-> pinned s y /\ y ∉ drop j txn) /\
    (forall y, 0 <= y -> y ∉ drop j txn -> vblock s' y = vblock s y) /\
    (forall k x, (j <= k)%nat -> txn !! k = Some x -> vblock s' x = vblock s (g_start g + Z.of_nat k + 1)).
Proof.
  revert s j. induction m as [|m IH]; intros s j Hq Hi Hla Hp Hn Hpx Hj.
  - exists s. rewrite drop_ge by lia. split_and!; [done | apply wrote_refl | done | set_solver | done |].
    intros k x Hk Hx. apply lookup_lt_Some in Hx. lia.
  - destruct (lookup_lt_is_Some_2 txn j) as [x Hx]; [lia|].
    pose proof (tx_nodup _ _ (la_txn _ _ _ Hla)) as Hnd.
    pose proof (drop_S _ _ _ Hx) as Hdr.
    assert (x ∉ drop (S j) txn) as Hnx.
    { assert (NoDup (drop j txn)) as Hnd' by (eapply sublist_NoDup; [exact Hnd | apply sublist_drop]).
      rewrite Hdr in Hnd'. by apply NoDup_cons in Hnd' as [? _]. }
    assert (forall k, (k < length txn)%nat -> g_start g + Z.of_nat k + 1 <> x) as Hslot.
    { intros k Hk E. destruct (lookup_lt_is_Some_2 txn k Hk) as [y Hy].
      destruct (txn_slot txn k y (la_geom _ _ _ Hla) (la_txn _ _ _ Hla) Hy) as (Hin & _).
      destruct (txn_slot txn j x (la_geom _ _ _ Hla) (la_txn _ _ _ Hla) Hx) as (_ & (_ & Hh) & _).
      rewrite E in Hin. done. }
    destruct (install_step s txn j x P Hq Hi Hla Hp Hn) as (s1 & E1 & W1 & I1 & P1 & V1); [|done|].
    { destruct Hpx as [Hpx|?]; [left; apply Hpx; rewrite Hdr; by left | by right]. }
    destruct (IH s1 (S j)) as (s2 & E2 & W2 & I2 & P2 & V2 & K2);
      [by eapply wrote_quiet | done | by eapply log_at_wrote | | done | | lia |].
    { intros y. rewrite P1. intros [? _]. auto. }
    { destruct Hpx as [Hpx|?]; [left | by right]. intros y Hy. apply P1.
      split; [apply Hpx; rewrite Hdr; by right | by intros ->]. }
    assert (forall k, vdata s1 (g_start g + Z.of_nat k + 1) = vdata s (g_start g + Z.of_nat k + 1) \/
              (length txn <= k)%nat) as Hvd.
    { intros k. destruct (decide (k < length txn)%nat) as [Hk|]; [left | right; lia].
      destruct (la_geom _ _ _ Hla) as (G1 & _). unfold vdata. rewrite V1 by lia.
      by rewrite (proj2 (Z.eqb_neq _ _) (Hslot k Hk)). }
    exists s2. cbn [seq for_each]. rewrite (bind_Ret _ _ _ _ _ E1). split_and!; [done | | done | | |].
    + rewrite Hdr. simpl. apply (wrote_trans s s1 s2 [_]); [done|].
      rewrite (home_writes_ext _ _ _ (vdata s) (vdata s1)); [done|]. intros k Hk.
      rewrite length_drop in Hk. destruct (Hvd k) as [->|]; [done | lia].
    + intros y. rewrite P2, P1, Hdr, not_elem_of_cons. tauto.
    + intros y Hy. rewrite Hdr, not_elem_of_cons. intros [Hyx Hyd]. rewrite V2, V1 by done.
      by rewrite (proj2 (Z.eqb_neq _ _) Hyx).
    + intros k y Hk Hy. destruct (decide (k = j)) as [->|Hkj].
      * assert (y = x) as -> by congruence.
        destruct (txn_slot txn j x (la_geom _ _ _ Hla) (la_txn _ _ _ Hla) Hx) as (_ & _ & _ & B & _).
        rewrite V2 by (done || lia). rewrite V1 by lia. by rewrite Z.eqb_refl.
      * rewrite (K2 k y) by (done || lia). destruct (la_geom _ _ _ Hla) as (G1 & _).
        rewrite V1 by lia. rewrite (proj2 (Z.eqb_neq _ _)); [done|]. apply Hslot.
        by eapply lookup_lt_Some.
Qed.
End loops.

(** ** The header *)

Lemma cache_inv_ext s s' H :
  k_bufs s' = k_bufs s -> k_disk s' = k_disk s -> cache_inv s H -> cache_inv s' H.
Proof. intros E1 E2 [C1 C2 C3 C4 C5 C6]. split; rewrite ?E1, ?E2; done. Qed.

(** The stores into the header buffer add up to one. *)
Lemma head_loop b bs j s bf :
  k_bufs s !! b = Some bf ->
  (forall k x, bs !! k = Some x -> l_block (k_log s) !! (j + k)%nat = Some x) ->
  for_each (seq j (length bs)) (fun i =>
    x <- get_lblock i ;;
    upd_buf b (fun hb => set_b_data (lst32 (b_data hb) (4 + 4 * Z.of_nat i) x) hb)) s =
  Ret tt (set_k_bufs (alter (set_b_data (enc_blocks (b_data bf) j bs)) b (k_bufs s)) s).
Proof.
  revert j s bf. induction bs as [|x bs IH]; intros j s bf Hb Hl.
  - simpl. unfold ret. f_equal. unfold set_k_bufs. simpl.
    assert (alter (set_b_data (b_data bf)) b (k_bufs s) = k_bufs s) as ->; [|done].
    apply list_eq. intros i. rewrite lookup_alter_case. case_decide; [|done]. subst. by rewrite Hb.
  - cbn [length seq for_each].
    assert (l_block (k_log s) !! j = Some x) as Hj by (rewrite <- (Nat.add_0_r j); by apply Hl).
    rewrite (bind_Ret _ _ _ tt (set_k_bufs (alter (set_b_data (lst32 (b_data bf) (4 + 4 * Z.of_nat j) x)) b (k_bufs s)) s)).
    2:{ rewrite (bind_Ret _ _ _ _ _ (get_lblock_eq s j x Hj)).
        erewrite upd_buf_eq by done. do 2 f_equal. apply list_alter_ext; [|done].
        intros y Hy. assert (y = bf) as -> by congruence. done. }
    rewrite (IH _ _ (set_b_data (lst32 (b_data bf) (4 + 4 * Z.of_nat j) x) bf)).
    + simpl. unfold set_k_bufs. simpl. do 2 f_equal. rewrite alter_alter. done.
    + simpl. by rewrite list_lookup_alter_eq, Hb.
    + intros k y Hy. replace (S j + k)%nat with (j + S k)%nat by lia. by apply Hl.
Qed.

Lemma write_head_spec g s txn P :
  quiet s -> cache_inv s [] -> log_at g s txn -> (forall y, pinned s y -> y ∈ P) ->
  (length P < NBUF)%nat -> ~ pinned s (g_start g) ->
  exists s', write_head s = Ret tt s' /\
    wrote s s' [(g_start g, enc_head (vdata s (g_start g)) txn)] /\ cache_inv s' [] /\
    (forall y, pinned s' y <-> pinned s y) /\
    (forall y, 0 <= y -> vblock s' y =
       if y =? g_start g then Some (enc_head (vdata s (g_start g)) txn) else vblock s y).
Proof.
  intros Hq Hi Hla Hp Hn Hnp.
  destruct (la_geom _ _ _ Hla) as (G1 & G2 & G3 & G4). pose proof (la_total _ _ _ Hla) as Ht.
  destruct (bread_spec s [] (g_start g) Hq Hi) as (b & s1 & E1 & O1 & I1 & _ & V1 & d & Vd & Hh).
  { lia. } { intros i e Hin. by apply not_elem_of_nil in Hin. } { right. by eapply room_count. }
  assert (vdata s (g_start g) = d) as Hvd by (unfold vdata; by rewrite Vd). rewrite Hvd.
  assert (block_ok d) as Hok by (eapply vblock_block_ok; [exact Hi | exact Vd]).
  pose proof (only_bufs_quiet _ _ O1 Hq) as Hq1.
  destruct Hh as (bf & Hb & Fb & Nb & Db).
  destruct (store_write_spec s1 [] b (g_start g) d (enc_head d txn) Hq1 I1 ltac:(by exists bf)
              (enc_head_ok d txn Hok)) as (s2 & s3 & E2 & E3 & O3 & I3 & H3 & V3 & P3 & _).
  assert (quiet s3) as Hq3 by (rewrite O3; by apply (quiet_ext s1)).
  destruct (brelse_spec s3 [] b (g_start g) (enc_head d txn) Hq3 I3 H3) as (s4 & E4 & O4 & I4 & V4).
  { right. rewrite O3. simpl. apply list_lookup_insert_eq. rewrite O1. simpl. unfold zlen in Ht. lia. }
  exists s4. split_and!; [| | done | |].
  - unfold write_head. krun. rewrite (la_dev _ _ _ Hla), (la_start _ _ _ Hla), (u32_small (g_start g)) by lia.
    change (u32 1) with 1. rewrite (bind_Ret _ _ _ _ _ E1).
    erewrite (bind_Ret (upd_buf _ _)) by (by eapply upd_buf_eq).
    rewrite (la_n _ _ _ Hla).
    replace (Z.to_nat (zlen txn)) with (length txn) by (unfold zlen; lia).
    erewrite (bind_Ret (for_each _ _)).
    2:{ eapply (head_loop b txn 0); [simpl; rewrite list_lookup_alter_eq, Hb; reflexivity|].
        intros k x Hk. simpl. rewrite O1. exact (la_block _ _ _ Hla _ _ Hk). }
    cbn [k_bufs set_k_bufs b_data set_b_data]. rewrite alter_alter, Db.
    erewrite upd_buf_eq in E2 by done. injection E2 as E2.
    replace (set_k_bufs _ (set_k_bufs _ s1)) with s2.
    by rewrite (bind_Ret _ _ _ _ _ E3).
  - apply (wrote_trans s s3 s4 [_] []); [|by apply wrote_bufs].
    unfold wrote. rewrite O3 at 1. unfold disk_write. by rewrite O1.
  - intros y. rewrite (sv_pinned _ _ _ V4), P3, (sv_pinned _ _ _ V1). split; [tauto|].
    intros Hy. split; [done|]. by intros ->.
  - intros y Hy. rewrite (sv_vblock _ _ _ V4), V3 by done. case_match; [done|].
    by apply (sv_vblock _ _ _ V1).
Qed.

(** [read_head]'s loop fills the table. *)
Lemma lblock_loop f j m s :
  (j + m <= length (l_block (k_log s)))%nat ->
  exists bl, for_each (seq j m) (fun i => set_lblock i (f i)) s =
      Ret tt (set_k_log (set_l_block bl (k_log s)) s) /\
    length bl = length (l_block (k_log s)) /\
    (forall k, (j <= k < j + m)%nat -> bl !! k = Some (f k)) /\
    (forall k, (k < j)%nat -> bl !! k = l_block (k_log s) !! k).
Proof.
  revert j s. induction m as [|m IH]; intros j s Hl.
  - exists (l_block (k_log s)). split_and!; [done | done | intros; lia | done].
  - cbn [seq for_each]. destruct (lookup_lt_is_Some_2 (l_block (k_log s)) j) as [x Hx]; [lia|].
    erewrite (bind_Ret (set_lblock _ _)).
    2:{ unfold set_lblock. rewrite (bind_Ret _ _ _ _ _ (get_lblock_eq s j x Hx)). reflexivity. }
    destruct (IH (S j) (set_k_log (set_l_block (<[j:=f j]> (l_block (k_log s))) (k_log s)) s))
      as (bl & E & El & H1 & H2); [simpl; rewrite length_insert; lia|].
    exists bl. split_and!.
    + rewrite E. done.
    + rewrite El. simpl. by rewrite length_insert.
    + intros k Hk. destruct (decide (k = j)) as [->|]; [|apply H1; lia].
      rewrite H2 by lia. simpl. apply list_lookup_insert_eq. lia.
    + intros k Hk. rewrite H2 by lia. simpl. apply list_lookup_insert_ne. lia.
Qed.

(** A header recovery can use. *)
Record head_ok (g : geom) (hd : list Z) : Prop := {
  hd_n : 0 <= dec_n hd <= LOGSIZE;
  hd_txn : txn_ok g (dec_head hd)
}.

Lemma read_head_spec g s hd :
  quiet s -> cache_inv s [] -> geom_ok g -> zlen (k_disk s) = g_total g ->
  l_dev (k_log s) = 1 -> l_start (k_log s) = g_start g -> l_size (k_log s) = g_size g ->
  zlen (l_block (k_log s)) = LOGSIZE ->
  (forall y, ~ pinned s y) -> vblock s (g_start g) = Some hd -> head_ok g hd ->
  exists s' l', read_head s = Ret tt s' /\ s' = set_k_bufs (k_bufs s') (set_k_log l' s) /\
    cache_inv s' [] /\ log_at g s' (dec_head hd) /\
    l_outstanding l' = l_outstanding (k_log s) /\ l_committing l' = l_committing (k_log s) /\
    (forall y, ~ pinned s' y) /\ (forall y, 0 <= y -> vblock s' y = vblock s y).
Proof.
  intros Hq Hi Hg Ht Hdev Hst Hsz Hbl Hnp Hhd [Hn Htx]. destruct Hg as (G1 & G2 & G3 & G4).
  destruct (bread_spec s [] (g_start g) Hq Hi) as (b & s1 & E1 & O1 & I1 & _ & V1 & d & Vd & Hh).
  { lia. } { intros i e Hin. by apply not_elem_of_nil in Hin. }
  { right. apply (room_count s [] []); [done | by intros y ?%Hnp | simpl; unfold NBUF; lia]. }
  assert (d = hd) as -> by congruence.
  pose proof (only_bufs_quiet _ _ O1 Hq) as Hq1. destruct Hh as (bf & Hb & Fb & Nb & Db).
  set (s2 := set_k_log (set_l_n (dec_n hd) (k_log s1)) s1).
  destruct (lblock_loop (dec_block hd) 0 (Z.to_nat (dec_n hd)) s2) as (bl & E2 & El & B1 & _).
  { simpl. rewrite O1. simpl. unfold zlen, LOGSIZE, MAXOPBLOCKS in *. lia. }
  set (l' := set_l_block bl (k_log s2)). set (s3 := set_k_log l' s2).
  destruct (brelse_spec s3 [] b (g_start g) hd) as (s4 & E4 & O4 & I4 & V4).
  { by apply (quiet_ext s1). } { by apply (cache_inv_ext s1). } { by exists bf. }
  { destruct (vblock_disk s [] (g_start g) hd Hi) as [Hp|Hp]; [|done| |].
    - intros i e Hin. by apply not_elem_of_nil in Hin.
    - by apply Hnp in Hp.
    - right. simpl. by rewrite O1. }
  exists s4, l'. split_and!.
  - unfold read_head. krun. rewrite Hdev, Hst, (u32_small (g_start g)) by lia. change (u32 1) with 1.
    rewrite (bind_Ret _ _ _ _ _ E1), (bind_Ret _ _ _ _ _ (get_buf_eq _ _ _ Hb)), Db. krun.
    fold (dec_n hd). change (set_k_log (set_l_n (dec_n hd) (k_log s1)) s1) with s2.
    change (l_n (k_log s2)) with (dec_n hd).
    erewrite (bind_Ret (for_each _ _)) by exact E2. exact E4.
  - rewrite O4. subst s3 s2. by rewrite O1.
  - done.
  - assert (k_log s4 = l') as El4 by (by rewrite O4).
    assert (k_disk s4 = k_disk s) as Ed4 by (rewrite O4; simpl; by rewrite O1).
    split; rewrite ?El4, ?Ed4; try done.
    + subst l' s2. simpl. by rewrite O1.
    + subst l' s2. simpl. by rewrite O1.
    + subst l' s2. simpl. by rewrite O1.
    + subst l' s2. simpl. unfold zlen. rewrite dec_head_length. lia.
    + intros k x Hk. simpl. pose proof (lookup_lt_Some _ _ _ Hk) as Hlt.
      rewrite dec_head_length in Hlt. unfold dec_head in Hk.
      rewrite list_lookup_fmap, lookup_seq_lt in Hk by done. simpl in Hk. injection Hk as <-.
      apply B1. lia.
    + simpl. unfold zlen. rewrite El. subst s2. simpl. by rewrite O1.
  - subst l' s2. simpl. by rewrite O1.
  - subst l' s2. simpl. by rewrite O1.
  - intros y. rewrite (sv_pinned _ _ _ V4). change (pinned s3 y) with (pinned s1 y).
    rewrite (sv_pinned _ _ _ V1). apply Hnp.
  - intros y Hy. rewrite (sv_vblock _ _ _ V4) by done. change (vblock s3 y) with (vblock s1 y).
    by apply (sv_vblock _ _ _ V1).
Qed.

(** ** Commit *)

Lemma wrote_set_log l s s' ws : wrote s s' ws -> wrote (set_k_log l s) (set_k_log l s') ws.
Proof. unfold wrote. intros E. by rewrite E. Qed.

(** The disk writes of a commit, in order. *)
Definition commit_writes (g : geom) (txn : list Z) (v : Z -> list Z) (hd : list Z)
    : list (Z * list Z) :=
  slot_writes (g_start g) 0 txn v ++
  (g_start g, enc_head hd txn) ::
  ((fun x => (x, v x)) <$> txn) ++
  [(g_start g, enc_head (enc_head hd txn) [])].

(** A transaction that is complete in the cache and logged in memory. *)
Record committable (g : geom) (s : kst) (txn : list Z) : Prop := {
  cm_quiet : quiet s;
  cm_cache : cache_inv s [];
  cm_log : log_at g s txn;
  cm_pinned y : pinned s y <-> y ∈ txn;
  cm_room : (length txn < NBUF)%nat
}.

Lemma txn_not_start g txn y : txn_ok g txn -> geom_ok g -> y ∈ txn -> y <> g_start g.
Proof.
  intros [_ T2 _ _] (G1 & G2 & _) Hy ->. rewrite Forall_forall in T2.
  destruct (T2 _ Hy) as [_ Hl]. apply Hl. unfold in_log. lia.
Qed.

Lemma txn_nil_ok g : geom_ok g -> txn_ok g [].
Proof.
  intros (G1 & G2 & _). split; [constructor | constructor | unfold zlen; simpl; lia
    | unfold zlen, LOGSIZE, MAXOPBLOCKS; simpl; lia].
Qed.

Lemma log_at_nil g s txn :
  log_at g s txn -> log_at g (set_k_log (set_l_n 0 (k_log s)) s) [].
Proof.
  intros [H1 H2 H3 H4 H5 H6 H7 H8 H9]. split; try done; simpl. by apply txn_nil_ok.
Qed.

Lemma home_writes_map start j bs v w :
  (forall k x, bs !! k = Some x -> v (start + Z.of_nat (j + k) + 1) = w x) ->
  home_writes start j bs v = (fun x => (x, w x)) <$> bs.
Proof.
  revert j. induction bs as [|x bs IH]; intros j Hv; simpl; [done|]. f_equal.
  - f_equal. rewrite <- (Hv 0%nat x) by done. by rewrite Nat.add_0_r.
  - apply IH. intros k y Hk. rewrite <- (Hv (S k) y) by done. do 3 f_equal. lia.
Qed.

(** After the header has been cleared. *)
Lemma committable_empty g s s' ws :
  wrote s s' ws -> cache_inv s' [] -> quiet s -> log_at g s [] ->
  (forall y, pinned s' y <-> pinned s y) -> (forall y, ~ pinned s y) -> committable g s' [].
Proof.
  intros W Hi Hq Hla Hp Hn. split.
  - by eapply wrote_quiet.
  - done.
  - by eapply log_at_wrote.
  - intros y. rewrite Hp. split; [intros Hy; by apply Hn in Hy | intros Hy; by apply not_elem_of_nil in Hy].
  - simpl. unfold NBUF. lia.
Qed.

(** The phases of [commit] in sequence. *)
Lemma commit_run g s txn s1 s2 s3 s4 :
  log_at g s txn -> txn <> [] -> log_at g s2 txn ->
  for_each (seq 0 (length txn)) (fun tail =>
    l <- gets (fun s => k_log s) ;;
    to <- bread (u32 (l_dev l)) (u32 (l_start l + Z.of_nat tail + 1)) ;;
    x <- get_lblock tail ;;
    from <- bread (u32 (l_dev l)) (u32 x) ;;
    fb <- get_buf from ;;
    upd_buf to (set_b_data (b_data fb)) ;;
    bwrite to ;;
    brelse from ;;
    brelse to) s = Ret tt s1 ->
  write_head s1 = Ret tt s2 ->
  for_each (seq 0 (length txn)) (fun tail =>
    l <- gets (fun s => k_log s) ;;
    lbuf <- bread (u32 (l_dev l)) (u32 (l_start l + Z.of_nat tail + 1)) ;;
    x <- get_lblock tail ;;
    dbuf <- bread (u32 (l_dev l)) (u32 x) ;;
    lb <- get_buf lbuf ;;
    upd_buf dbuf (set_b_data (b_data lb)) ;;
    bwrite dbuf ;;
    brelse lbuf ;;
    brelse dbuf) s2 = Ret tt s3 ->
  write_head (set_k_log (set_l_n 0 (k_log s3)) s3) = Ret tt s4 ->
  commit s = Ret tt s4.
Proof.
  intros Hla Hne La2 E1 E2 E3 E4. unfold commit. krun. rewrite (la_n _ _ _ Hla).
  assert ((0 <? zlen txn) = true) as ->
    by (apply Z.ltb_lt; unfold zlen; destruct txn; [done | simpl; lia]).
  unfold when, write_log, install_trans.
  erewrite (bind_Ret (bind (gets _) _)).
  2:{ krun. rewrite (la_n _ _ _ Hla). unfold zlen. rewrite Nat2Z.id. exact E1. }
  rewrite (bind_Ret _ _ _ _ _ E2).
  erewrite (bind_Ret (bind (gets _) _)).
  2:{ krun. rewrite (la_n _ _ _ La2). unfold zlen. rewrite Nat2Z.id. exact E3. }
  krun. exact E4.
Qed.

Lemma commit_spec g s txn :
  committable g s txn -> txn <> [] ->
  exists s', commit s = Ret tt s' /\
    wrote (set_k_log (set_l_n 0 (k_log s)) s) s'
      (commit_writes g txn (vdata s) (vdata s (g_start g))) /\
    committable g s' [] /\
    (forall y, 0 <= y -> ~ in_log g y -> vblock s' y = vblock s y).
Proof.
  intros [Hq Hi Hla Hp Hn] Hne. pose proof (la_geom _ _ _ Hla) as Hg. pose proof (la_txn _ _ _ Hla) as Htx.
  pose proof Hg as (G1 & G2 & G3 & G4).
  assert (forall k, in_log g (g_start g + Z.of_nat k + 1) \/ ~ (k < length txn)%nat) as Hsl.
  { intros k. destruct (decide (k < length txn)%nat) as [Hk|]; [left | by right].
    destruct (lookup_lt_is_Some_2 txn k Hk) as [y Hy]. by destruct (txn_slot g txn k y Hg Htx Hy). }
  destruct (write_log_loop g s txn 0 (length txn) Hq Hi Hla Hp Hn eq_refl)
    as (s1 & E1 & W1 & I1 & P1 & V1 & K1). rewrite drop_0 in W1.
  pose proof (wrote_quiet _ _ _ W1 Hq) as Hq1. pose proof (log_at_wrote _ _ _ _ _ W1 Hla) as La1.
  destruct (write_head_spec g s1 txn txn Hq1 I1 La1 ltac:(intros y; by apply P1) Hn)
    as (s2 & E2 & W2 & I2 & P2 & V2).
  { rewrite P1. intros Hy. by eapply txn_not_start in Hy. }
  assert (vdata s1 (g_start g) = vdata s (g_start g)) as Evd
    by (unfold vdata; rewrite V1 by (intros; lia); done).
  rewrite Evd in *. set (H1 := enc_head (vdata s (g_start g)) txn) in *.
  pose proof (wrote_quiet _ _ _ W2 Hq1) as Hq2. pose proof (log_at_wrote _ _ _ _ _ W2 La1) as La2.
  destruct (install_loop g s2 txn 0 (length txn) txn Hq2 I2 La2) as (s3 & E3 & W3 & I3 & P3 & V3 & K3).
  { intros y. rewrite P2, P1. done. } { done. } { left. intros y. rewrite drop_0, P2, P1. done. } { done. }
  rewrite drop_0 in W3, P3, V3. pose proof (wrote_quiet _ _ _ W3 Hq2) as Hq3.
  pose proof (log_at_wrote _ _ _ _ _ W3 La2) as La3.
  set (s3' := set_k_log (set_l_n 0 (k_log s3)) s3).
  assert (forall y, ~ pinned s3' y) as Hnp.
  { intros y. change (pinned s3' y) with (pinned s3 y). rewrite P3, P2, P1. tauto. }
  assert (quiet s3') as Hq3' by (by apply (quiet_ext s3)).
  assert (log_at g s3' []) as La3' by (by eapply log_at_nil).
  destruct (write_head_spec g s3' [] []) as (s4 & E4 & W4 & I4 & P4 & V4).
  { done. } { by apply (cache_inv_ext s3). } { done. }
  { intros y Hy. by apply Hnp in Hy. } { simpl. unfold NBUF. lia. } { apply Hnp. }
  assert (vdata s3' (g_start g) = H1) as Ev3.
  { unfold vdata. change (vblock s3' (g_start g)) with (vblock s3 (g_start g)).
    rewrite V3, V2, Z.eqb_refl; [done | lia | lia |].
    intros Hy. by eapply txn_not_start in Hy. }
  rewrite Ev3 in *. pose proof (wrote_log _ _ _ W3) as L3. pose proof (wrote_log _ _ _ W2) as L2.
  pose proof (wrote_log _ _ _ W1) as L1.
  exists s4. split_and!.
  - exact (commit_run g s txn s1 s2 s3 s4 Hla Hne La2 E1 E2 E3 E4).
  - unfold commit_writes. pose proof (wrote_trans _ _ _ _ _ W1 W2) as W12.
    pose proof (wrote_trans _ _ _ _ _ W12 W3) as W13.
    apply (wrote_set_log (set_l_n 0 (k_log s3))) in W13. rewrite L3, L2, L1 in W13 at 1.
    fold s3' in W13. pose proof (wrote_trans _ _ _ _ _ W13 W4) as W.
    rewrite <- !app_assoc in W. simpl in W.
    rewrite (home_writes_map _ 0 txn (vdata s2) (vdata s)) in W; [exact W|].
    intros k x Hk. simpl. unfold vdata. rewrite V2 by lia.
    rewrite (proj2 (Z.eqb_neq _ _)) by lia. by rewrite (K1 k x) by (done || lia).
  - apply (committable_empty g s3' s4 _ W4 I4 Hq3' La3' P4 Hnp).
  - intros y Hy Hny. assert (y <> g_start g) as Hys by (intros ->; apply Hny; unfold in_log; lia).
    rewrite V4, (proj2 (Z.eqb_neq _ _) Hys) by done. change (vblock s3' y) with (vblock s3 y).
    assert (vblock s2 y = vblock s y) as V2y.
    { rewrite V2, (proj2 (Z.eqb_neq _ _) Hys) by done. apply V1; [done|]. intros k Hk ->.
      destruct (Hsl k); [done | lia]. }
    destruct (decide (y ∈ txn)) as [Hin|Hin]; [|by rewrite V3].
    apply list_elem_of_lookup in Hin as [k Hk]. rewrite (K3 k y) by (done || lia).
    rewrite V2 by lia. rewrite (proj2 (Z.eqb_neq _ _)) by lia. by rewrite (K1 k y) by (done || lia).
Qed.

(** ** Recovery *)

(** Recovery as a function on disks. *)
Definition ddata (d : disk) (x : Z) : list Z := default [] (dblock d x).
Definition recover_writes (g : geom) (d : disk) : list (Z * list Z) :=
  home_writes (g_start g) 0 (dec_head (ddata d (g_start g))) (ddata d) ++
  [(g_start g, enc_head (ddata d (g_start g)) [])].
Definition recover (g : geom) (d : disk) : disk := replay (recover_writes g d) d.

(** A kernel that has just booted on [d]: the cache is empty. *)
Record booted (g : geom) (s : kst) : Prop := {
  bt_quiet : quiet s;
  bt_cache : cache_inv s [];
  bt_view y : 0 <= y -> vblock s y = dblock (k_disk s) y;
  bt_pins y : ~ pinned s y;
  bt_geom : geom_ok g;
  bt_total : zlen (k_disk s) = g_total g;
  bt_sb d : dblock (k_disk s) 1 = Some d -> sb_logstart (sb_of_bytes d) = g_start g /\
                                            sb_nlog (sb_of_bytes d) = g_size g;
  bt_lblock : zlen (l_block (k_log s)) = LOGSIZE
}.

Lemma recover_spec g s :
  quiet s -> cache_inv s [] -> (forall y, 0 <= y -> vblock s y = dblock (k_disk s) y) ->
  (forall y, ~ pinned s y) -> geom_ok g -> zlen (k_disk s) = g_total g ->
  l_dev (k_log s) = 1 -> l_start (k_log s) = g_start g -> l_size (k_log s) = g_size g ->
  zlen (l_block (k_log s)) = LOGSIZE -> head_ok g (ddata (k_disk s) (g_start g)) ->
  exists s', recover_from_log s = Ret tt s' /\ committable g s' [] /\
    k_disk s' = recover g (k_disk s) /\ k_dtrace s' = k_dtrace s ++ recover_writes g (k_disk s) /\
    l_outstanding (k_log s') = l_outstanding (k_log s).
Proof.
  intros Hq Hi Hv Hnp Hg Ht L1 L2 L3 L4 Hhd. pose proof Hg as (G1 & G2 & G3 & G4).
  set (hd := ddata (k_disk s) (g_start g)) in *.
  assert (vblock s (g_start g) = Some hd) as Vhd.
  { rewrite Hv by lia. subst hd. unfold ddata, dblock.
    destruct (lookup_lt_is_Some_2 (k_disk s) (Z.to_nat (g_start g))) as [d ->]; [|done].
    unfold zlen in Ht. lia. }
  destruct (read_head_spec g s hd) as (s1 & l1 & E1 & O1 & I1 & La1 & Lo & _ & Np1 & V1); try done.
  assert (quiet s1) as Hq1 by (rewrite O1; by apply (quiet_ext s)).
  assert (forall y, 0 <= y -> vdata s1 y = ddata (k_disk s) y) as Hvd
    by (intros y Hy; unfold vdata, ddata; by rewrite V1, Hv).
  destruct (install_loop g s1 (dec_head hd) 0 (length (dec_head hd)) []) as (s2 & E2 & W2 & I2 & P2 & V2 & _).
  { done. } { done. } { done. } { by intros y Hy%Np1. } { simpl. unfold NBUF. lia. }
  { right. simpl. unfold NBUF. lia. } { done. }
  rewrite drop_0 in W2, V2. pose proof (wrote_quiet _ _ _ W2 Hq1) as Hq2.
  pose proof (log_at_wrote _ _ _ _ _ W2 La1) as La2.
  set (s2' := set_k_log (set_l_n 0 (k_log s2)) s2).
  assert (forall y, ~ pinned s2' y) as Np2.
  { intros y. change (pinned s2' y) with (pinned s2 y). rewrite P2. intros [Hy _]. by apply Np1 in Hy. }
  destruct (write_head_spec g s2' [] []) as (s3 & E3 & W3 & I3 & P3 & V3).
  { by apply (quiet_ext s2). } { by apply (cache_inv_ext s2). } { by eapply log_at_nil. }
  { intros y Hy. by apply Np2 in Hy. } { simpl. unfold NBUF. lia. } { apply Np2. }
  assert (vdata s2' (g_start g) = hd) as Ev2.
  { unfold vdata. change (vblock s2' (g_start g)) with (vblock s2 (g_start g)).
    rewrite V2, V1, Vhd; [done | lia | lia |]. intros Hy. eapply txn_not_start in Hy; [done | apply Hhd | done]. }
  rewrite Ev2 in *.
  assert (home_writes (g_start g) 0 (dec_head hd) (vdata s1) =
          home_writes (g_start g) 0 (dec_head hd) (ddata (k_disk s))) as Ew
    by (apply home_writes_ext; intros k _; apply Hvd; lia).
  rewrite Ew in W2.
  assert (k_disk s1 = k_disk s /\ k_dtrace s1 = k_dtrace s) as [D1 T1] by (by rewrite O1).
  exists s3. split_and!.
  - unfold recover_from_log, install_trans. rewrite (bind_Ret _ _ _ _ _ E1).
    erewrite (bind_Ret (bind (gets _) _)).
    2:{ krun. rewrite (la_n _ _ _ La1). unfold zlen. rewrite Nat2Z.id. exact E2. }
    krun. exact E3.
  - split; [| done | | |simpl; unfold NBUF; lia].
    + eapply (wrote_quiet s2'); [exact W3|]. by apply (quiet_ext s2).
    + eapply (log_at_wrote g s2'); [exact W3|]. by eapply log_at_nil.
    + intros y. rewrite P3. split; [intros Hy; by apply Np2 in Hy | intros Hy; by apply not_elem_of_nil in Hy].
  - rewrite (wrote_disk _ _ _ W3). simpl. rewrite (wrote_disk _ _ _ W2), D1.
    unfold recover, recover_writes. fold hd. by rewrite replay_app.
  - rewrite (wrote_trace _ _ _ W3). simpl. rewrite (wrote_trace _ _ _ W2), T1.
    unfold recover_writes. fold hd. by rewrite app_assoc.
  - rewrite (wrote_log _ _ _ W3). simpl. rewrite (wrote_log _ _ _ W2), O1. simpl. done.
Qed.

(** [initlog] runs recovery. *)
Lemma initlog_spec g s :
  booted g s -> head_ok g (ddata (k_disk s) (g_start g)) ->
  exists s', initlog 1 s = Ret tt s' /\ committable g s' [] /\
    k_disk s' = recover g (k_disk s) /\ k_dtrace s' = k_dtrace s ++ recover_writes g (k_disk s).
Proof.
  intros [Hq Hi Hv Hnp Hg Ht Hsb Hbl] Hhd. pose proof Hg as (G1 & G2 & G3 & G4).
  destruct (bread_spec s [] 1 Hq Hi) as (b & s1 & E1 & O1 & I1 & _ & V1 & d & Vd & Hh).
  { lia. } { intros i e Hin. by apply not_elem_of_nil in Hin. }
  { right. apply (room_count s [] []); [done | by intros y ?%Hnp | simpl; unfold NBUF; lia]. }
  rewrite Hv in Vd by lia. destruct (Hsb d Vd) as [Hs1 Hs2].
  pose proof (only_bufs_quiet _ _ O1 Hq) as Hq1. pose proof Hh as (bf & Hb & Fb & Nb & Db).
  destruct (brelse_spec s1 [] b 1 d Hq1 I1 Hh) as (s2 & E2 & O2 & I2 & V2).
  { right. rewrite O1. exact Vd. }
  set (l' := set_l_dev 1 (set_l_size (g_size g) (set_l_start (g_start g) (k_log s2)))).
  set (s3 := set_k_log l' s2).
  assert (k_disk s3 = k_disk s /\ k_dtrace s3 = k_dtrace s) as [D3 T3]
    by (subst s3; rewrite O2; simpl; by rewrite O1).
  destruct (recover_spec g s3) as (s4 & E4 & C4 & D4 & T4 & _); try done.
  - apply (quiet_ext s2); try done. by eapply only_bufs_quiet.
  - by apply (cache_inv_ext s2).
  - intros y Hy. rewrite D3. change (vblock s3 y) with (vblock s2 y).
    by rewrite (sv_vblock _ _ _ V2), (sv_vblock _ _ _ V1), Hv.
  - intros y. change (pinned s3 y) with (pinned s2 y).
    rewrite (sv_pinned _ _ _ V2), (sv_pinned _ _ _ V1). apply Hnp.
  - by rewrite D3.
  - simpl. rewrite O2. simpl. by rewrite O1.
  - by rewrite D3.
  - exists s4. rewrite D3, T3 in *. split_and!; [|done|done|done].
    unfold initlog. change (BSIZE <=? 4 + 4 * LOGSIZE) with false. cbv iota.
    erewrite (bind_Ret (readsb _)).
    2:{ unfold readsb. change (u32 1) with 1. rewrite (bind_Ret _ _ _ _ _ E1).
        rewrite (bind_Ret _ _ _ _ _ (get_buf_eq _ _ _ Hb)). cbv zeta.
        rewrite (bind_Ret _ _ _ _ _ E2). reflexivity. }
    krun. rewrite Db, Hs1, Hs2, !i32_small by lia. exact E4.
Qed.

(** *** Recovery on disks *)

Lemma home_writes_fst start j bs v : (home_writes start j bs v).*1 = bs.
Proof. revert j. induction bs as [|x bs IH]; intros j; simpl; [done|]. by rewrite IH. Qed.

Lemma home_writes_in start j bs v k x :
  bs !! k = Some x -> (x, v (start + Z.of_nat (j + k) + 1)) ∈ home_writes start j bs v.
Proof.
  revert j k. induction bs as [|y bs IH]; intros j k Hk; [done|]. simpl.
  destruct k as [|k]; simpl in Hk.
  - injection Hk as ->. rewrite Nat.add_0_r. by left.
  - right. replace (j + S k)%nat with (S j + k)%nat by lia. by apply IH.
Qed.

Section recover.
Context (g : geom) (d : disk).
Hypothesis Hg : geom_ok g.
Hypothesis Hlen : zlen d = g_total g.
Hypothesis Hhd : head_ok g (ddata d (g_start g)).

Let txn := dec_head (ddata d (g_start g)).

Lemma recover_fst w : w ∈ recover_writes g d -> w.1 ∈ txn \/ w.1 = g_start g.
Proof.
  unfold recover_writes. fold txn. intros [Hw|Hw]%elem_of_app.
  - left. rewrite <- (home_writes_fst (g_start g) 0 txn (ddata d)).
    apply list_elem_of_fmap. eauto.
  - right. by apply list_elem_of_singleton in Hw as ->.
Qed.

(** A logged block is recovered from its slot, the others stay. *)
Lemma recover_logged k x :
  txn !! k = Some x -> dblock (recover g d) x = dblock d (g_start g + Z.of_nat k + 1).
Proof.
  intros Hk. destruct (txn_slot g txn k x Hg (hd_txn _ _ Hhd) Hk) as (_ & [_ Hh] & B1 & B2 & _).
  unfold recover, recover_writes. fold txn. rewrite replay_app. rewrite replay_ne.
  - rewrite (replay_in _ _ x (ddata d (g_start g + Z.of_nat k + 1))).
    + unfold ddata, dblock.
      destruct (lookup_lt_is_Some_2 d (Z.to_nat (g_start g + Z.of_nat k + 1))) as [e ->]; [|done].
      unfold zlen in Hlen. lia.
    + lia.
    + apply (home_writes_in _ 0). done.
    + rewrite home_writes_fst. apply Hhd.
    + intros w Hw. assert (w.1 ∈ txn) as Hw1.
      { rewrite <- (home_writes_fst (g_start g) 0 txn (ddata d)). apply list_elem_of_fmap. eauto. }
      pose proof (tx_home _ _ (hd_txn _ _ Hhd)) as T2. rewrite Forall_forall in T2.
      destruct (T2 _ Hw1) as [? _]. lia.
  - lia.
  - intros w Hw. apply list_elem_of_singleton in Hw as ->. simpl.
    destruct Hg as (G1 & G2 & _). split; [lia|]. intros <-. apply Hh. unfold in_log. lia.
Qed.

Lemma recover_other x :
  0 <= x -> x ∉ txn -> x <> g_start g -> dblock (recover g d) x = dblock d x.
Proof.
  intros Hx Hn Hs. apply replay_ne; [done|]. intros w Hw. split.
  - destruct (recover_fst w Hw) as [Hw1| ->]; [|destruct Hg; lia].
    pose proof (tx_home _ _ (hd_txn _ _ Hhd)) as T2. rewrite Forall_forall in T2.
    destruct (T2 _ Hw1) as [? _]. lia.
  - intros E. destruct (recover_fst w Hw) as [Hw1|Hw1]; congruence.
Qed.
End recover.

(** ** Crashes *)

Lemma slot_writes_fst start j bs v :
  (slot_writes start j bs v).*1 = (fun k => start + Z.of_nat k + 1) <$> seq j (length bs).
Proof. revert j. induction bs as [|x bs IH]; intros j; simpl; [done|]. by rewrite IH. Qed.

Lemma slot_writes_in start j bs v k x :
  bs !! k = Some x -> (start + Z.of_nat (j + k) + 1, v x) ∈ slot_writes start j bs v.
Proof.
  revert j k. induction bs as [|y bs IH]; intros j k Hk; [done|]. simpl.
  destruct k as [|k]; simpl in Hk.
  - injection Hk as ->. rewrite Nat.add_0_r. by left.
  - right. replace (j + S k)%nat with (S j + k)%nat by lia. by apply IH.
Qed.

Lemma length_slot_writes start j bs v : length (slot_writes start j bs v) = length bs.
Proof. rewrite <- (length_fmap fst), slot_writes_fst, length_fmap, length_seq. done. Qed.

Lemma take_incl {A} k (l : list A) x : x ∈ take k l -> x ∈ l.
Proof. intros H. by apply (subseteq_take k l). Qed.

Lemma dec_enc_nil d : zlen d = BSIZE -> dec_head (enc_head d []) = [].
Proof. intros Hd. apply dec_enc_head; [done | unfold zlen, LOGSIZE, MAXOPBLOCKS; simpl; lia | constructor]. Qed.

Lemma enc_head_n d bs : zlen d = BSIZE -> zlen bs <= LOGSIZE -> dec_n (enc_head d bs) = zlen bs.
Proof.
  intros Hd Hl. unfold dec_n, enc_head. rewrite enc_blocks_low32 by lia.
  rewrite lld32_lst32 by (rewrite ?Hd; klia). unfold zlen, LOGSIZE, MAXOPBLOCKS in *. zlia.
Qed.

Lemma head_ok_enc g d bs : geom_ok g -> zlen d = BSIZE -> txn_ok g bs -> head_ok g (enc_head d bs).
Proof.
  intros Hg Hd Ht. assert (zlen bs <= LOGSIZE) as Hl by apply Ht.
  split; [rewrite enc_head_n by done; unfold zlen in *; lia|].
  rewrite dec_enc_head; [done | done | done |]. eapply Forall_impl; [apply (tx_home _ _ Ht)|].
  intros x [Hx _]. destruct Hg as (_ & _ & _ & ?). unfold blockno_ok. lia.
Qed.

Lemma vblock_some s H x : cache_inv s H -> 0 <= x < zlen (k_disk s) -> exists d, vblock s x = Some d.
Proof.
  intros Hi Hx. destruct (vblock_cases s x) as [(i & bf & Hb & Hbx)|Hn].
  - eexists. by eapply vblock_at.
  - rewrite vblock_none by done. apply lookup_lt_is_Some_2. unfold zlen in Hx. lia.
Qed.

Section crash.
Context (g : geom) (s : kst) (txn : list Z).
Hypothesis Hc : committable g s txn.
Hypothesis Hclean : dec_n (ddata (k_disk s) (g_start g)) = 0.

Let D0 := k_disk s.
Let hd := ddata D0 (g_start g).
Let A := slot_writes (g_start g) 0 txn (vdata s).
Let H1 := enc_head hd txn.
Let B := (fun x => (x, vdata s x)) <$> txn.
Let H2 := enc_head H1 [].
Let D1 := replay (A ++ [(g_start g, H1)]) D0.

Lemma crash_geom : 1 < g_start g /\ 1 < g_size g /\ g_start g + g_size g <= g_total g /\
  g_total g < 2147483648 /\ zlen D0 = g_total g.
Proof.
  destruct (la_geom _ _ _ (cm_log _ _ _ Hc)) as (? & ? & ? & ?).
  pose proof (la_total _ _ _ (cm_log _ _ _ Hc)). done.
Qed.

Lemma crash_unpinned x : 0 <= x < g_total g -> x ∉ txn -> vblock s x = dblock D0 x.
Proof.
  intros Hx Hn. destruct crash_geom as (_ & _ & _ & _ & Hl).
  destruct (vblock_some s [] x (cm_cache _ _ _ Hc) ltac:(fold D0; lia)) as [d Hd].
  destruct (vblock_disk s [] x d (cm_cache _ _ _ Hc)) as [Hp|Hp]; [|done| |].
  - intros i e Hin. by apply not_elem_of_nil in Hin.
  - by apply (cm_pinned _ _ _ Hc) in Hp.
  - unfold dblock, D0. congruence.
Qed.

Lemma crash_head_view : vdata s (g_start g) = hd /\ block_ok hd.
Proof.
  destruct crash_geom as (G1 & G2 & G3 & G4 & Hl).
  assert (vblock s (g_start g) = dblock D0 (g_start g)) as E.
  { apply crash_unpinned; [lia|]. intros Hy.
    eapply txn_not_start in Hy; [done | apply (cm_log _ _ _ Hc) | apply (cm_log _ _ _ Hc)]. }
  destruct (vblock_some s [] (g_start g) (cm_cache _ _ _ Hc) ltac:(fold D0; lia)) as [d Hd].
  unfold vdata, hd, ddata. rewrite <- E. split; [done|]. rewrite Hd. simpl.
  eapply vblock_block_ok; [apply (cm_cache _ _ _ Hc) | done].
Qed.

Lemma slot_fst w : w ∈ A -> exists k, (k < length txn)%nat /\ w.1 = g_start g + Z.of_nat k + 1.
Proof.
  intros Hw. assert (w.1 ∈ A.*1) as H by (apply list_elem_of_fmap; eauto).
  unfold A in H. rewrite slot_writes_fst in H.
  apply list_elem_of_fmap in H as (k & E & Hk). apply elem_of_seq in Hk. exists k. split; [lia | done].
Qed.

Lemma slot_in_log k : (k < length txn)%nat -> in_log g (g_start g + Z.of_nat k + 1).
Proof.
  intros Hk. pose proof (tx_fits _ _ (la_txn _ _ _ (cm_log _ _ _ Hc))). unfold in_log, zlen in *. lia.
Qed.

Lemma home_ne_log x y : home g x -> in_log g y -> y <> x.
Proof. intros [_ Hx] Hy ->. done. Qed.

Lemma txn_home x : x ∈ txn -> home g x.
Proof.
  intros Hx. pose proof (tx_home _ _ (la_txn _ _ _ (cm_log _ _ _ Hc))) as T2.
  rewrite Forall_forall in T2. auto.
Qed.

Lemma home_fst ws w : ws ⊆ B -> w ∈ ws -> home g w.1.
Proof.
  intros Hs Hw. apply Hs in Hw. apply list_elem_of_fmap in Hw as (x & -> & Hx). by apply txn_home.
Qed.

(** The disk once the header is written: the slots hold the transaction. *)
Lemma crash_D1 :
  zlen D1 = g_total g /\ dblock D1 (g_start g) = Some H1 /\
  (forall k x, txn !! k = Some x -> dblock D1 (g_start g + Z.of_nat k + 1) = vblock s x) /\
  (forall x, home g x -> dblock D1 x = dblock D0 x).
Proof.
  destruct crash_geom as (G1 & G2 & G3 & G4 & Hl).
  assert (zlen D1 = g_total g) as Hl1 by (unfold zlen, D1 in *; by rewrite length_replay).
  assert (zlen (replay A D0) = g_total g) as HlA by (unfold zlen in *; by rewrite length_replay).
  split_and!; [done | | |].
  - unfold D1. rewrite replay_app. simpl. unfold dblock, put_block. simpl.
    apply list_lookup_insert_eq. unfold zlen in HlA. lia.
  - intros k x Hk. pose proof (lookup_lt_Some _ _ _ Hk) as Hlt. pose proof (slot_in_log k Hlt) as Hin.
    destruct (txn_home x ltac:(by eapply list_elem_of_lookup_2)) as [Hr _].
    destruct (vblock_some s [] x (cm_cache _ _ _ Hc) ltac:(fold D0; lia)) as [e He].
    unfold D1. rewrite replay_app, replay_ne; [| lia |].
    + rewrite (replay_in A D0 _ (vdata s x)).
      * unfold vdata. by rewrite He.
      * unfold in_log in Hin. lia.
      * apply (slot_writes_in _ 0). done.
      * unfold A. rewrite slot_writes_fst. apply NoDup_fmap; [intros ?? ?; lia | apply NoDup_seq].
      * intros w Hw. destruct (slot_fst w Hw) as (i & _ & ->). lia.
    + intros w Hw. apply list_elem_of_singleton in Hw as ->. simpl. lia.
  - intros x Hx. apply replay_ne; [destruct Hx; lia|]. intros w [Hw|Hw]%elem_of_app.
    + destruct (slot_fst w Hw) as (i & Hi & E). rewrite E. split; [lia|].
      apply home_ne_log; [done | by apply slot_in_log].
    + apply list_elem_of_singleton in Hw as ->. simpl. split; [lia|].
      apply home_ne_log; [done|]. unfold in_log. lia.
Qed.

(** Crash before the header is written: nothing has happened. *)
Lemma crash_early k :
  (k <= length txn)%nat ->
  let D := replay (take k A) D0 in
  head_ok g (ddata D (g_start g)) /\ (forall x, home g x -> dblock (recover g D) x = dblock D0 x).
Proof.
  intros Hk D. destruct crash_geom as (G1 & G2 & G3 & G4 & Hl).
  assert (forall x, 0 <= x -> (home g x \/ x = g_start g) -> dblock D x = dblock D0 x) as HD.
  { intros x Hx Hc'. apply replay_ne; [done|]. intros w Hw%take_incl.
    destruct (slot_fst w Hw) as (i & Hi & E). rewrite E. split; [lia|].
    destruct Hc' as [Hc'| ->]; [apply home_ne_log; [done | by apply slot_in_log] | lia]. }
  assert (ddata D (g_start g) = hd) as Eh by (unfold ddata; rewrite HD by (auto || lia); done).
  assert (dec_head hd = []) as En.
  { unfold dec_head. fold D0 hd in Hclean. by rewrite Hclean. }
  assert (head_ok g (ddata D (g_start g))) as Hok.
  { rewrite Eh. split; [fold D0 hd in Hclean; rewrite Hclean; unfold LOGSIZE, MAXOPBLOCKS; lia|].
    rewrite En. apply txn_nil_ok. apply (cm_log _ _ _ Hc). }
  split; [done|]. intros x Hx. rewrite recover_other; [| apply (cm_log _ _ _ Hc) | done | | |].
  - apply HD; [destruct Hx; lia | by left].
  - destruct Hx; lia.
  - rewrite Eh, En. apply not_elem_of_nil.
  - intros ->. destruct Hx as [_ Hx]. apply Hx. unfold in_log. lia.
Qed.

(** Crash while the blocks go home: recovery sends them all home again. *)
Lemma crash_middle ws :
  ws ⊆ B ->
  let D := replay ws D1 in
  head_ok g (ddata D (g_start g)) /\ (forall x, home g x -> dblock (recover g D) x = vblock s x).
Proof.
  intros Hs D. destruct crash_geom as (G1 & G2 & G3 & G4 & Hl).
  destruct crash_D1 as (L1 & E1 & S1 & F1). destruct crash_head_view as [_ [Hbz _]].
  pose proof (la_geom _ _ _ (cm_log _ _ _ Hc)) as Hg. pose proof (la_txn _ _ _ (cm_log _ _ _ Hc)) as Ht.
  assert (forall x, 0 <= x -> in_log g x -> dblock D x = dblock D1 x) as HD.
  { intros x Hx Hin. apply replay_ne; [done|]. intros w Hw.
    pose proof (home_fst ws w Hs Hw) as Hh. split; [destruct Hh; lia|].
    intros E. rewrite E in Hh. by destruct Hh. }
  assert (ddata D (g_start g) = H1) as Eh.
  { unfold ddata. rewrite HD, E1; [done | lia | unfold in_log; lia]. }
  assert (head_ok g (ddata D (g_start g))) as Hok by (rewrite Eh; by apply head_ok_enc).
  assert (dec_head (ddata D (g_start g)) = txn) as En.
  { rewrite Eh. apply dec_enc_head; [done | apply Ht |].
    eapply Forall_impl; [apply Ht|]. intros x [Hx _]. unfold blockno_ok. lia. }
  assert (zlen D = g_total g) as LD by (unfold D, zlen in *; by rewrite length_replay).
  split; [done|]. intros x Hx. destruct (decide (x ∈ txn)) as [Hin|Hin].
  - apply list_elem_of_lookup in Hin as [k Hk].
    rewrite (recover_logged g D Hg LD Hok k x) by (by rewrite En).
    pose proof (lookup_lt_Some _ _ _ Hk) as Hlt. pose proof (slot_in_log k Hlt).
    rewrite HD by (done || lia). by apply S1.
  - rewrite recover_other; [|done|done|destruct Hx; lia|by rewrite En|].
    + rewrite crash_unpinned by (done || by destruct Hx). rewrite <- F1 by done.
      apply replay_ne; [destruct Hx; lia|]. intros w Hw.
      pose proof (home_fst ws w Hs Hw) as Hh. split; [destruct Hh; lia|]. intros <-.
      apply Hin. apply Hs in Hw. apply list_elem_of_fmap in Hw as (y & -> & Hy). done.
    + intros ->. destruct Hx as [_ Hx]. apply Hx. unfold in_log. lia.
Qed.

(** Crash after the log is erased. *)
Lemma crash_late :
  let D := replay (B ++ [(g_start g, H2)]) D1 in
  head_ok g (ddata D (g_start g)) /\ (forall x, home g x -> dblock (recover g D) x = vblock s x) /\
  (forall x, home g x -> dblock D x = vblock s x).
Proof.
  intros D. destruct crash_geom as (G1 & G2 & G3 & G4 & Hl).
  destruct crash_D1 as (L1 & E1 & S1 & F1). destruct crash_head_view as [_ Hbz].
  pose proof (la_geom _ _ _ (cm_log _ _ _ Hc)) as Hg. pose proof (la_txn _ _ _ (cm_log _ _ _ Hc)) as Ht.
  assert (zlen H1 = BSIZE) as HlH1 by (apply enc_head_ok, Hbz).
  assert (zlen (replay B D1) = g_total g) as LB by (unfold zlen in *; by rewrite length_replay).
  assert (zlen D = g_total g) as LD by (unfold D, zlen in *; by rewrite length_replay).
  assert (ddata D (g_start g) = H2) as Eh.
  { unfold ddata, D. rewrite replay_app. simpl. unfold dblock, put_block. simpl.
    rewrite list_lookup_insert_eq; [done|]. unfold zlen in LB. lia. }
  assert (head_ok g (ddata D (g_start g))) as Hok
    by (rewrite Eh; apply head_ok_enc; [done | done | by apply txn_nil_ok]).
  assert (forall x, home g x -> dblock D x = vblock s x) as HD.
  { intros x Hx. unfold D. rewrite replay_app, replay_ne; [|destruct Hx; lia|].
    - destruct (decide (x ∈ txn)) as [Hin|Hin].
      + destruct Hx as [Hr _].
        destruct (vblock_some s [] x (cm_cache _ _ _ Hc) ltac:(fold D0; lia)) as [e He].
        rewrite (replay_in B D1 x (vdata s x)).
        * unfold vdata. by rewrite He.
        * lia.
        * apply list_elem_of_fmap. eauto.
        * unfold B. rewrite <- list_fmap_compose. simpl. rewrite list_fmap_id. apply Ht.
        * intros w Hw. destruct (home_fst B w ltac:(done) Hw) as [? _]. lia.
      + rewrite crash_unpinned by (done || by destruct Hx). rewrite <- F1 by done.
        apply replay_ne; [destruct Hx; lia|]. intros w Hw.
        destruct (home_fst B w ltac:(done) Hw) as [? _]. split; [lia|]. intros <-.
        apply Hin. apply list_elem_of_fmap in Hw as (y & -> & Hy). done.
    - intros w Hw. apply list_elem_of_singleton in Hw as ->. simpl. split; [lia|].
      apply home_ne_log; [done|]. unfold in_log. lia. }
  split_and!; [done | | done]. intros x Hx.
  rewrite recover_other; [by apply HD | done | done | destruct Hx; lia | |].
  - rewrite Eh. unfold H2. rewrite dec_enc_nil by done. apply not_elem_of_nil.
  - intros ->. destruct Hx as [_ Hx]. apply Hx. unfold in_log. lia.
Qed.

(** Whatever prefix of the writes reached the disk. *)
Lemma crash_any k :
  let D := replay (take k (commit_writes g txn (vdata s) (vdata s (g_start g)))) D0 in
  head_ok g (ddata D (g_start g)) /\
  ((forall x, home g x -> dblock (recover g D) x = dblock D0 x) \/
   (forall x, home g x -> dblock (recover g D) x = vblock s x)).
Proof.
  destruct crash_head_view as [Eh _]. rewrite Eh. unfold commit_writes. fold A H1 H2 B.
  set (D := replay (take k _) D0). destruct (decide (k <= length txn)%nat) as [Hk|Hk].
  - assert (D = replay (take k A) D0) as ->.
    { unfold D. rewrite take_app_le; [done|]. unfold A. by rewrite length_slot_writes. }
    destruct (crash_early k Hk) as [? ?]. auto.
  - assert (D = replay (take (k - S (length txn)) (B ++ [(g_start g, H2)])) D1) as ->.
    { unfold D, D1. rewrite <- replay_app, <- app_assoc. simpl. f_equal.
      rewrite take_app_ge by (unfold A; rewrite length_slot_writes; lia). f_equal.
      unfold A. rewrite length_slot_writes.
      replace (k - length txn)%nat with (S (k - S (length txn))) by lia. done. }
    destruct (decide (k - S (length txn) <= length txn)%nat).
    + rewrite take_app_le by (unfold B; by rewrite length_fmap).
      destruct (crash_middle (take (k - S (length txn)) B)) as [? ?]; [|auto].
      intros w. apply take_incl.
    + rewrite take_ge.
      * destruct crash_late as (? & ? & _). auto.
      * unfold B. rewrite length_app, length_fmap. simpl. lia.
Qed.
End crash.

(** ** [log_write] *)

(** The transaction after logging block [x]: absorbed if already there. *)
Definition log_add (x : Z) (txn : list Z) : list Z :=
  if decide (x ∈ txn) then txn else txn ++ [x].

Lemma for_first_block x l j s :
  (forall k y, l !! k = Some y -> l_block (k_log s) !! (j + k)%nat = Some y) -> Forall blockno_ok l ->
  for_first (seq j (length l)) (fun i =>
    y <- get_lblock i ;; ret (if u32 y =? x then Some i else None)) s =
  Ret (Nat.add j <$> findi (fun y => y =? x) l) s.
Proof.
  revert j. induction l as [|y l IH]; intros j Hl Hb; [done|].
  apply Forall_cons in Hb as [Hy Hb]. cbn [length seq for_first findi].
  erewrite (bind_Ret (bind (get_lblock _) _)).
  2:{ rewrite (bind_Ret _ _ _ _ _ (get_lblock_eq s j y ltac:(rewrite <- (Nat.add_0_r j); by apply Hl))).
      reflexivity. }
  rewrite u32_small by (unfold blockno_ok in Hy; lia). destruct (y =? x).
  - simpl. unfold ret. by rewrite Nat.add_0_r.
  - rewrite IH; [|intros k z Hz; replace (S j + k)%nat with (j + S k)%nat by lia; by apply Hl | done].
    f_equal. destruct (findi _ l); simpl; [|done]. f_equal. lia.
Qed.

Lemma findi_txn x txn :
  match findi (fun y => y =? x) txn with
  | Some k => txn !! k = Some x
  | None => x ∉ txn
  end.
Proof.
  destruct (findi _ txn) as [k|] eqn:E.
  - apply findi_Some in E as (y & Hy & Ey & _). apply Z.eqb_eq in Ey. congruence.
  - intros [k Hk]%list_elem_of_lookup. pose proof (proj1 (findi_None _ _) E k x Hk) as H.
    cbv beta in H. by rewrite Z.eqb_refl in H.
Qed.

Lemma log_add_ok g x txn :
  txn_ok g txn -> home g x -> zlen txn < LOGSIZE -> zlen txn < g_size g - 1 -> txn_ok g (log_add x txn).
Proof.
  intros [T1 T2 T3 T4] Hx H1 H2. unfold log_add. case_decide as Hd; [done|]. unfold zlen in *.
  split; [|by apply Forall_app_2; [|constructor]|..]; unfold zlen; rewrite ?length_app; simpl; try lia.
  apply NoDup_app. split_and!; [done | set_solver | apply NoDup_singleton].
Qed.

Section log_write.
Context (g : geom) (s : kst) (H : list nat) (txn : list Z) (b : nat) (x : Z) (d : list Z).
Hypothesis Hq : quiet s.
Hypothesis Hi : cache_inv s (b :: H).
Hypothesis Hla : log_at g s txn.
Hypothesis Hh : holds s b x d.
Hypothesis Hx : home g x.
Hypothesis Hout : 1 <= l_outstanding (k_log s).

(** The in-memory log after [log_write]. *)
Definition logged : logst :=
  let i := default (length txn) (findi (fun y => y =? x) txn) in
  let l := set_l_block (<[i := x]> (l_block (k_log s))) (k_log s) in
  if (i =? length txn)%nat then set_l_n (zlen txn + 1) l else l.

Lemma blockno_txn : Forall blockno_ok txn /\ blockno_ok x.
Proof.
  destruct (la_geom _ _ _ Hla) as (_ & _ & _ & G4). split.
  - eapply Forall_impl; [apply (la_txn _ _ _ Hla)|]. intros y [Hy _]. unfold blockno_ok. lia.
  - destruct Hx as [Hx' _]. unfold blockno_ok. lia.
Qed.

Lemma log_write_eq :
  zlen txn < LOGSIZE -> zlen txn < g_size g - 1 ->
  log_write b s = Ret tt (set_k_bufs
    (alter (fun bf => set_b_flags (Z.lor (b_flags bf) B_DIRTY) bf) b (k_bufs s)) (set_k_log logged s)).
Proof.
  intros H1 H2. destruct blockno_txn as [Hb1 Hb2]. destruct Hh as (bf & Hb & _ & Nb & _).
  unfold log_write. krun. rewrite (la_n _ _ _ Hla), (la_size _ _ _ Hla).
  rewrite (proj2 (Z.leb_gt _ _)), (proj2 (Z.leb_gt _ _)), (proj2 (Z.ltb_ge _ _)) by lia.
  cbn [orb]. rewrite (bind_Ret _ _ _ _ _ (acquire_eq LLog s ltac:(rewrite (q_held _ Hq); apply not_elem_of_nil))).
  set (s1 := set_k_held _ s). rewrite (bind_Ret _ _ _ _ _ (get_buf_eq b bf s1 Hb)). krun.
  change (k_log s1) with (k_log s). rewrite (la_n _ _ _ Hla), Nb.
  replace (Z.to_nat (zlen txn)) with (length txn) by (unfold zlen; lia).
  erewrite (bind_Ret (for_first _ _)).
  2:{ apply (for_first_block x txn 0 s1); [|done]. apply (la_block _ _ _ Hla). }
  set (i := match Nat.add 0 <$> findi (fun y => y =? x) txn with Some i => i | None => length txn end).
  assert (i = default (length txn) (findi (fun y => y =? x) txn)) as Ei
    by (unfold i; by destruct (findi _ txn)).
  assert (i < length (l_block (k_log s)))%nat as Hlt.
  { pose proof (la_len _ _ _ Hla). rewrite Ei. pose proof (findi_txn x txn) as F.
    destruct (findi _ txn) as [k|]; simpl; unfold zlen in *; [apply lookup_lt_Some in F|]; lia. }
  destruct (lookup_lt_is_Some_2 _ _ Hlt) as [old Hold].
  erewrite (bind_Ret (set_lblock _ _)).
  2:{ unfold set_lblock. rewrite (bind_Ret _ _ _ _ _ (get_lblock_eq s1 i old Hold)). reflexivity. }
  rewrite i32_small by (unfold blockno_ok in Hb2; lia).
  replace (Z.of_nat i =? zlen txn) with (i =? length txn)%nat
    by (unfold zlen; destruct (Nat.eqb_spec i (length txn)), (Z.eqb_spec (Z.of_nat i) (Z.of_nat (length txn))); lia).
  destruct (i =? length txn)%nat eqn:Ei'; unfold when; krun.
  - erewrite (bind_Ret (upd_buf _ _)) by (by eapply upd_buf_eq).
    erewrite release_eq by reflexivity. unfold logged. cbv zeta. rewrite <- Ei, Ei'. done.
  - erewrite (bind_Ret (upd_buf _ _)) by (by eapply upd_buf_eq).
    erewrite release_eq by reflexivity. unfold logged. cbv zeta. rewrite <- Ei, Ei'. done.
Qed.

Lemma logged_at :
  zlen txn < LOGSIZE -> zlen txn < g_size g - 1 -> log_at g (set_k_log logged s) (log_add x txn).
Proof.
  intros H1 H2. pose proof (log_add_ok g x txn (la_txn _ _ _ Hla) Hx H1 H2) as Hok.
  destruct Hla as [A1 A2 A3 A4 A5 A6 A7 A8 A9]. pose proof (findi_txn x txn) as F.
  unfold logged, log_add in *. destruct (findi (fun y => y =? x) txn) as [k|]; simpl in *.
  - rewrite (proj2 (Nat.eqb_neq _ _)) by (apply lookup_lt_Some in F; lia).
    rewrite decide_True in * by (by eapply list_elem_of_lookup_2).
    split; try done; simpl.
    + intros j y Hy. destruct (decide (k = j)) as [->|].
      * rewrite list_lookup_insert_eq; [congruence|]. apply A5, lookup_lt_Some in F. lia.
      * rewrite list_lookup_insert_ne by done. by apply A5.
    + unfold zlen. by rewrite length_insert.
  - rewrite Nat.eqb_refl. rewrite decide_False in * by done.
    split; try done; simpl.
    + unfold zlen. rewrite length_app. simpl. lia.
    + intros j y Hy. apply lookup_app_Some in Hy as [Hy|[Hj Hy]].
      * rewrite list_lookup_insert_ne by (apply lookup_lt_Some in Hy; lia). by apply A5.
      * assert (j = length txn /\ y = x) as [-> ->].
        { destruct (j - length txn)%nat eqn:Ej; simpl in Hy; [|done]. split; [lia | congruence]. }
        apply list_lookup_insert_eq. unfold zlen in *. lia.
    + unfold zlen. by rewrite length_insert.
Qed.

Lemma log_write_spec :
  zlen txn < LOGSIZE -> zlen txn < g_size g - 1 ->
  exists s', log_write b s = Ret tt s' /\ s' = set_k_bufs (k_bufs s') (set_k_log logged s) /\
    cache_inv s' (b :: H) /\ log_at g s' (log_add x txn) /\
    (forall y, 0 <= y -> vblock s' y = vblock s y) /\
    (forall y, pinned s' y <-> pinned s y \/ y = x) /\
    (forall i y e, i ∈ b :: H -> holds s i y e -> holds s' i y e).
Proof.
  intros H1 H2. destruct Hh as (bf & Hb & Fb & Nb & Db).
  destruct (pin_held s H b bf Hi Hb) as (s1 & E1 & O1 & I1 & V1 & P1 & K1 & _).
  rewrite (upd_buf_eq _ _ _ _ Hb) in E1. injection E1 as E1. rewrite Nb in P1.
  exists (set_k_log logged s1). split_and!.
  - rewrite (log_write_eq H1 H2), <- E1. done.
  - exact (f_equal (set_k_log logged) O1).
  - by apply (cache_inv_ext s1).
  - destruct (logged_at H1 H2) as [A1 A2 A3 A4 A5 A6 A7 A8 A9]. split; try done.
    simpl. rewrite O1. done.
  - done.
  - done.
  - done.
Qed.

Lemma log_write_full :
  LOGSIZE <= zlen txn \/ g_size g - 1 <= zlen txn -> log_write b s = Panic "too big a transaction" s.
Proof.
  intros Hf. unfold log_write. krun. rewrite (la_n _ _ _ Hla), (la_size _ _ _ Hla).
  assert ((LOGSIZE <=? zlen txn) || (g_size g - 1 <=? zlen txn) = true) as ->; [|done].
  apply orb_true_iff. rewrite !Z.leb_le. done.
Qed.
End log_write.

(** ** [begin_op] and [end_op] *)

(** Only the counters of the log differ. *)
Lemma committable_counters g s txn o c :
  committable g s txn ->
  committable g (set_k_log (set_l_committing c (set_l_outstanding o (k_log s))) s) txn.
Proof.
  intros [Hq Hi [A1 A2 A3 A4 A5 A6 A7 A8 A9] Hp Hn]. split.
  - by apply (quiet_ext s).
  - by apply (cache_inv_ext s).
  - by split.
  - done.
  - done.
Qed.

Lemma end_op_first s :
  quiet s -> l_committing (k_log s) = false -> l_outstanding (k_log s) = 1 ->
  end_op s =
  (commit ;; acquire LLog ;; upd_log (set_l_committing false) ;; wakeup ChLog ;; release LLog)
    (set_k_log (set_l_committing true (set_l_outstanding 0 (k_log s))) s).
Proof.
  intros Hq Hc Ho. unfold end_op. pose proof (q_held _ Hq) as Hh.
  rewrite (bind_Ret _ _ _ _ _ (acquire_eq LLog s ltac:(rewrite Hh; apply not_elem_of_nil))).
  krun. cbn [k_log set_k_log set_k_held l_committing l_outstanding set_l_outstanding].
  rewrite Hc, Ho. change (i32 (1 - 1)) with 0. cbv iota. change (0 =? 0) with true. cbv iota.
  erewrite (bind_Ret (bind (upd_log _) _)) by reflexivity.
  erewrite (bind_Ret (release LLog)) by (apply (release_eq LLog []); simpl; by rewrite Hh).
  unfold when, set_k_held, set_k_log. simpl. by rewrite <- Hh.
Qed.

Lemma end_op_last g s txn :
  committable g s txn -> l_committing (k_log s) = false -> l_outstanding (k_log s) = 1 ->
  exists s', end_op s = Ret tt s' /\ committable g s' [] /\
    l_committing (k_log s') = false /\ l_outstanding (k_log s') = 0 /\
    k_dtrace s' = k_dtrace s ++
      (if decide (txn = []) then [] else commit_writes g txn (vdata s) (vdata s (g_start g))) /\
    k_disk s' = replay
      (if decide (txn = []) then [] else commit_writes g txn (vdata s) (vdata s (g_start g))) (k_disk s) /\
    (forall y, 0 <= y -> ~ in_log g y -> vblock s' y = vblock s y).
Proof.
  intros Hcm Hc Ho. rewrite (end_op_first s (cm_quiet _ _ _ Hcm) Hc Ho).
  set (s0 := set_k_log _ s).
  pose proof (committable_counters g s txn 0 true Hcm) as Hcm0. fold s0 in Hcm0.
  assert (exists s1, commit s0 = Ret tt s1 /\ committable g s1 [] /\
    l_outstanding (k_log s1) = 0 /\
    k_dtrace s1 = k_dtrace s ++ (if decide (txn = []) then [] else commit_writes g txn (vdata s) (vdata s (g_start g))) /\
    k_disk s1 = replay (if decide (txn = []) then [] else commit_writes g txn (vdata s) (vdata s (g_start g))) (k_disk s) /\
    (forall y, 0 <= y -> ~ in_log g y -> vblock s1 y = vblock s y)) as (s1 & E1 & C1 & O1 & T1 & D1 & V1).
  { case_decide as Ht.
    - subst txn. exists s0. split_and!; [|done|done|by rewrite app_nil_r|done|done].
      unfold commit. krun. rewrite (la_n _ _ _ (cm_log _ _ _ Hcm0)). done.
    - destruct (commit_spec g s0 txn Hcm0 Ht) as (s1 & E1 & W1 & C1 & V1).
      exists s1. split_and!; [done | done | | | |done].
      + by rewrite (wrote_log _ _ _ W1).
      + by rewrite (wrote_trace _ _ _ W1).
      + by rewrite (wrote_disk _ _ _ W1). }
  rewrite (bind_Ret _ _ _ _ _ E1). pose proof (cm_quiet _ _ _ C1) as Q1. pose proof (q_held _ Q1) as Hh.
  rewrite (bind_Ret _ _ _ _ _ (acquire_eq LLog s1 ltac:(rewrite Hh; apply not_elem_of_nil))).
  krun. change (set_k_log _ (set_k_held (LLog :: k_held s1) s1)) with
    (set_k_held (LLog :: k_held s1) (set_k_log (set_l_committing false (k_log s1)) s1)).
  erewrite (bind_Ret (wakeup _)).
  2:{ apply wakeup_quiet_held; [by apply (quiet_ext s1) | done | rewrite Hh; set_solver]. }
  rewrite (release_eq LLog (k_held s1)) by done.
  exists (set_k_log (set_l_committing false (k_log s1)) s1). split_and!; try done.
  pose proof (committable_counters g s1 [] (l_outstanding (k_log s1)) false C1) as C2. done.
Qed.

(** *** Recovering again from an interrupted recovery *)

Section recover_again.
Context (g : geom) (D : disk).
Hypothesis Hg : geom_ok g.
Hypothesis Hl : zlen D = g_total g.
Hypothesis Hok : head_ok g (ddata D (g_start g)).

Let hd := ddata D (g_start g).
Let W := home_writes (g_start g) 0 (dec_head hd) (ddata D).

Lemma again_frame ws x :
  ws ⊆ W -> 0 <= x -> x ∉ dec_head hd -> dblock (replay ws D) x = dblock D x.
Proof.
  intros Hs Hx Hn. apply replay_ne; [done|]. intros w Hw.
  assert (w.1 ∈ dec_head hd) as Hw1.
  { rewrite <- (home_writes_fst (g_start g) 0 (dec_head hd) (ddata D)).
    apply list_elem_of_fmap. exists w. split; [done | by apply Hs]. }
  pose proof (tx_home _ _ (hd_txn _ _ Hok)) as T2. rewrite Forall_forall in T2.
  destruct (T2 _ Hw1) as [? _]. split; [lia | by intros <-].
Qed.

Lemma home_not_start x : home g x -> 0 <= x /\ x <> g_start g.
Proof.
  intros [Hx Hn]. destruct Hg as (G1 & G2 & _). split; [lia|]. intros ->. apply Hn. unfold in_log. lia.
Qed.

Lemma again_partial ws :
  ws ⊆ W ->
  head_ok g (ddata (replay ws D) (g_start g)) /\
  forall x, home g x -> dblock (recover g (replay ws D)) x = dblock (recover g D) x.
Proof.
  intros Hs. set (D' := replay ws D). destruct Hg as (G1 & G2 & G3 & G4).
  assert (g_start g ∉ dec_head hd) as Hsn.
  { intros Hin. eapply txn_not_start in Hin; [done | apply Hok | done]. }
  assert (ddata D' (g_start g) = hd) as Eh
    by (unfold ddata, D'; by rewrite (again_frame _ _ Hs) by (done || lia)).
  assert (head_ok g (ddata D' (g_start g))) as Hok' by (by rewrite Eh).
  assert (zlen D' = g_total g) as Hl' by (unfold D', zlen in *; by rewrite length_replay).
  split; [done|]. intros x Hx. destruct (home_not_start x Hx) as [Hx0 Hxs].
  destruct (decide (x ∈ dec_head hd)) as [Hin|Hin].
  - apply list_elem_of_lookup in Hin as [i Hi].
    rewrite (recover_logged g D' Hg Hl' Hok' i x) by (by rewrite Eh).
    rewrite (recover_logged g D Hg Hl Hok i x) by done.
    destruct (txn_slot g _ i x Hg (hd_txn _ _ Hok) Hi) as (Hsl & _ & B & _).
    apply (again_frame _ _ Hs); [lia|]. intros Hin.
    pose proof (tx_home _ _ (hd_txn _ _ Hok)) as T2. rewrite Forall_forall in T2.
    by destruct (T2 _ Hin) as [_ ?].
  - rewrite !recover_other; try done; [by apply (again_frame _ _ Hs)|]. by rewrite Eh.
Qed.

Lemma again_full :
  zlen hd = BSIZE ->
  head_ok g (ddata (recover g D) (g_start g)) /\
  forall x, home g x -> dblock (recover g (recover g D)) x = dblock (recover g D) x.
Proof.
  intros Hhl. destruct Hg as (G1 & G2 & G3 & G4).
  assert (ddata (recover g D) (g_start g) = enc_head hd []) as Eh.
  { unfold recover, recover_writes. fold hd W. rewrite replay_app. simpl.
    unfold ddata, dblock, put_block. simpl. rewrite list_lookup_insert_eq; [done|].
    rewrite length_replay. unfold zlen in Hl. lia. }
  assert (head_ok g (ddata (recover g D) (g_start g))) as Hok'
    by (rewrite Eh; apply head_ok_enc; [done | done | by apply txn_nil_ok]).
  split; [done|]. intros x Hx. destruct (home_not_start x Hx). apply recover_other; try done.
  rewrite Eh, dec_enc_nil by done. apply not_elem_of_nil.
Qed.

Lemma again_any k :
  Forall block_ok D ->
  let D' := replay (take k (recover_writes g D)) D in
  head_ok g (ddata D' (g_start g)) /\
  forall x, home g x -> dblock (recover g D') x = dblock (recover g D) x.
Proof.
  intros Hbl. cbv zeta. destruct (decide (k <= length W)%nat) as [Hk|Hk].
  - assert (take k (recover_writes g D) = take k W) as -> by (by apply take_app_le).
    apply again_partial. intros w. apply take_incl.
  - assert (take k (recover_writes g D) = recover_writes g D) as ->
      by (apply take_ge; unfold recover_writes; fold hd W; rewrite length_app; simpl; lia).
    apply again_full.
    destruct Hg as (G1 & G2 & G3 & G4). unfold hd, ddata, dblock.
    destruct (lookup_lt_is_Some_2 D (Z.to_nat (g_start g))) as [e He]; [unfold zlen in Hl; lia|].
    rewrite He. by apply (Forall_lookup_1 _ _ _ _ Hbl He).
Qed.
End recover_again.

(** ** Theorems *)

(** Commit makes a transaction durable. After [commit] every block outside
    the log area is on disk as the file system saw it before, the views are
    unchanged, no block is pinned any more, and the log is empty. *)
Theorem commit_durable g s txn :
  committable g s txn ->
  exists s', commit s = Ret tt s' /\ committable g s' [] /\
    (forall x, home g x -> vblock s' x = vblock s x /\ dblock (k_disk s') x = vblock s x).
Proof.
  intros Hc. destruct (decide (txn = [])) as [->|Ht].
  - exists s. split_and!; [|done|].
    + unfold commit. krun. by rewrite (la_n _ _ _ (cm_log _ _ _ Hc)).
    + intros x [Hx Hl]. split; [done|]. symmetry. apply (crash_unpinned g s [] Hc); [done|].
      apply not_elem_of_nil.
  - destruct (commit_spec g s txn Hc Ht) as (s' & E & W & C' & V). exists s'. split_and!; [done | done|].
    intros x [Hx Hl]. rewrite V by (done || lia). split; [done|].
    rewrite <- (V x) by (done || lia). symmetry. apply (crash_unpinned g s' [] C'); [done|].
    apply not_elem_of_nil.
Qed.

(** C1: commit is atomic under crashes. If the machine stops after any number
    [k] of the disk writes of a commit and reboots on the resulting disk,
    [initlog] runs to completion and leaves every block outside the log area
    either as before the transaction or as after it - all of them the same way. *)
Theorem commit_crash_atomic g s txn s' k s2 :
  committable g s txn -> dec_n (ddata (k_disk s) (g_start g)) = 0 -> commit s = Ret tt s' ->
  booted g s2 ->
  k_disk s2 = replay (take k (drop (length (k_dtrace s)) (k_dtrace s'))) (k_disk s) ->
  exists s3, initlog 1 s2 = Ret tt s3 /\ committable g s3 [] /\
    ((forall x, home g x -> dblock (k_disk s3) x = dblock (k_disk s) x) \/
     (forall x, home g x -> dblock (k_disk s3) x = vblock s x)).
Proof.
  intros Hc Hcl E Hb Hd.
  set (ws := if decide (txn = []) then [] else commit_writes g txn (vdata s) (vdata s (g_start g))).
  assert (k_dtrace s' = k_dtrace s ++ ws) as Et.
  { unfold ws. case_decide as Ht.
    - subst txn. unfold commit in E. revert E. krun. rewrite (la_n _ _ _ (cm_log _ _ _ Hc)).
      simpl. unfold ret. intros [= <-]. by rewrite app_nil_r.
    - destruct (commit_spec g s txn Hc Ht) as (s1 & E1 & W & _).
      assert (s' = s1) as -> by congruence. by rewrite (wrote_trace _ _ _ W). }
  rewrite Et, drop_app_length in Hd.
  assert (head_ok g (ddata (k_disk s2) (g_start g)) /\
    ((forall x, home g x -> dblock (recover g (k_disk s2)) x = dblock (k_disk s) x) \/
     (forall x, home g x -> dblock (recover g (k_disk s2)) x = vblock s x))) as [Hok Hcase].
  { rewrite Hd. unfold ws. case_decide as Ht.
    - rewrite take_nil. destruct (crash_early g s txn Hc Hcl 0) as [H1 H2]; [lia|]. auto.
    - apply (crash_any g s txn Hc Hcl k). }
  destruct (initlog_spec g s2 Hb Hok) as (s3 & E3 & C3 & D3 & _).
  exists s3. rewrite D3. auto.
Qed.

(** C33: recovery itself may be interrupted. If the machine stops after any
    number [k] of recovery's own disk writes, recovering again from the resulting
    disk gives every block outside the log area the content the uninterrupted
    recovery would have given it. *)
Theorem recovery_crash_idempotent g s s' k s2 :
  booted g s -> head_ok g (ddata (k_disk s) (g_start g)) ->
  Forall block_ok (k_disk s) -> initlog 1 s = Ret tt s' -> booted g s2 ->
  k_disk s2 = replay (take k (drop (length (k_dtrace s)) (k_dtrace s'))) (k_disk s) ->
  exists s3, initlog 1 s2 = Ret tt s3 /\
    forall x, home g x -> dblock (k_disk s3) x = dblock (k_disk s') x.
Proof.
  intros Hb Hok Hbl E Hb2 Hd. destruct (initlog_spec g s Hb Hok) as (s1 & E1 & _ & D1 & T1).
  assert (s' = s1) as -> by congruence. rewrite T1, drop_app_length in Hd. rewrite D1.
  destruct (again_any g (k_disk s) (bt_geom _ _ Hb) (bt_total _ _ Hb) Hok k Hbl) as [Hok2 Hsame].
  rewrite <- Hd in *. destruct (initlog_spec g s2 Hb2 Hok2) as (s3 & E3 & _ & D3 & _).
  exists s3. rewrite D3. auto.
Qed.

Lemma brelse_pinned_committable g s b x d txn :
  quiet s -> cache_inv s [b] -> holds s b x d -> log_at g s txn ->
  (forall y, pinned s y <-> y ∈ txn) -> x ∈ txn -> (length txn < NBUF)%nat ->
  exists s', brelse b s = Ret tt s' /\ only_bufs s s' /\ committable g s' txn /\ same_view [] s s'.
Proof.
  intros Hq Hi Hh Hla Hp Hx Hn.
  destruct (brelse_spec s [] b x d Hq Hi Hh ltac:(left; by apply Hp)) as (s' & E & O & I' & V).
  exists s'. split_and!; try done. split; try done.
  - by eapply only_bufs_quiet.
  - eapply log_at_wrote; [by apply wrote_bufs | done].
  - intros y. by rewrite (sv_pinned _ _ _ V).
Qed.

(** The pattern log.c documents: read, modify, [log_write], release. *)
Lemma logged_update_spec g s txn x d' :
  committable g s txn -> 1 <= l_outstanding (k_log s) -> home g x -> block_ok d' ->
  (S (length txn) < NBUF)%nat -> zlen txn < g_size g - 1 ->
  exists s', (b <- bread 1 x ;; upd_buf b (set_b_data d') ;; log_write b ;; brelse b) s = Ret tt s' /\
    committable g s' (log_add x txn) /\
    k_disk s' = k_disk s /\ k_dtrace s' = k_dtrace s /\
    l_outstanding (k_log s') = l_outstanding (k_log s) /\
    l_committing (k_log s') = l_committing (k_log s) /\
    (forall y, 0 <= y -> vblock s' y = if y =? x then Some d' else vblock s y).
Proof.
  intros [Hq Hi Hla Hp Hn] Ho Hx Hd Hr Hs. pose proof Hx as [Hxr _].
  pose proof (la_total _ _ _ Hla) as Ht.
  destruct (bread_spec s [] x Hq Hi ltac:(lia)) as (b & s1 & E1 & O1 & I1 & _ & V1 & d & Vd & Hh1).
  { intros i e Hin. by apply not_elem_of_nil in Hin. }
  { right. apply (room_count s [] txn Hi); [intros y; by apply Hp | done]. }
  pose proof (only_bufs_quiet _ _ O1 Hq) as Q1. destruct Hh1 as (bf & Hb & Fb & Nb & Db).
  destruct (store_held s1 [] b bf Q1 I1 Hb d' Hd) as (s2 & E2 & O2 & I2 & V2 & P2 & _ & Hh2 & _).
  rewrite Nb in *. pose proof (only_bufs_trans _ _ _ O1 O2) as O12.
  pose proof (only_bufs_quiet _ _ O12 Hq) as Q2.
  assert (log_at g s2 txn) as La2 by (eapply log_at_wrote; [by apply wrote_bufs | done]).
  assert (1 <= l_outstanding (k_log s2)) as Ho2 by (by rewrite O12).
  destruct (log_write_spec g s2 [] txn b x d' Q2 I2 La2 Hh2 Hx Ho2)
    as (s3 & E3 & O3 & I3 & La3 & V3 & P3 & K3).
  { unfold zlen, LOGSIZE, MAXOPBLOCKS, NBUF in *. lia. } { done. }
  assert (quiet s3) as Q3 by (rewrite O3; by apply (quiet_ext s2)).
  assert (forall y, pinned s3 y <-> y ∈ log_add x txn) as P3'.
  { intros y. rewrite P3, P2, (sv_pinned _ _ _ V1), Hp. unfold log_add. case_decide; set_solver. }
  destruct (brelse_pinned_committable g s3 b x d' (log_add x txn) Q3 I3) as (s4 & E4 & O4 & C4 & V4).
  { apply K3; [by left | done]. } { done. } { done. }
  { unfold log_add. case_decide; set_solver. }
  { unfold log_add. case_decide; rewrite ?length_app; simpl; lia. }
  assert (k_log s4 = logged s2 txn x /\ k_disk s4 = k_disk s /\ k_dtrace s4 = k_dtrace s) as (L4 & D4 & T4).
  { rewrite O4. simpl. rewrite O3. simpl. by rewrite O12. }
  exists s4. split_and!; try done.
  - rewrite (bind_Ret _ _ _ _ _ E1), (bind_Ret _ _ _ _ _ E2), (bind_Ret _ _ _ _ _ E3). done.
  - rewrite L4. unfold logged. cbv zeta. rewrite O12. by destruct (_ =? _)%nat.
  - rewrite L4. unfold logged. cbv zeta. rewrite O12. by destruct (_ =? _)%nat.
  - intros y Hy. rewrite (sv_vblock _ _ _ V4), V3, V2 by done. case_match; [done|].
    by apply (sv_vblock _ _ _ V1).
Qed.

(** A logged update ([bread]; modify; [log_write]; [brelse]) inside a
    transaction changes exactly the view of its block and writes nothing to
    disk; the block joins the transaction, or is absorbed if it is already part of
    it, so that no block is logged twice. *)
Theorem logged_update g s txn x d' :
  committable g s txn -> 1 <= l_outstanding (k_log s) -> home g x -> block_ok d' ->
  (S (length txn) < NBUF)%nat -> zlen txn < g_size g - 1 ->
  exists s', (b <- bread 1 x ;; upd_buf b (set_b_data d') ;; log_write b ;; brelse b) s = Ret tt s' /\
    committable g s' (if decide (x ∈ txn) then txn else txn ++ [x]) /\
    k_disk s' = k_disk s /\ k_dtrace s' = k_dtrace s /\
    (forall y, 0 <= y -> vblock s' y = if y =? x then Some d' else vblock s y).
Proof.
  intros Hc Ho Hx Hd Hn Hs.
  destruct (logged_update_spec g s txn x d' Hc Ho Hx Hd Hn Hs) as (s' & E & C' & D & T & _ & _ & V).
  by exists s'.
Qed.

(** The last [end_op] of a group commits: it writes the whole transaction
    to disk in commit order and leaves an empty log with nothing outstanding. *)
Theorem end_op_commits g s txn :
  committable g s txn -> l_committing (k_log s) = false -> l_outstanding (k_log s) = 1 ->
  exists s', end_op s = Ret tt s' /\ committable g s' [] /\
    l_committing (k_log s') = false /\ l_outstanding (k_log s') = 0 /\
    (txn <> [] -> k_dtrace s' = k_dtrace s ++ commit_writes g txn (vdata s) (vdata s (g_start g))) /\
    (forall x, home g x -> dblock (k_disk s') x = vblock s x).
Proof.
  intros Hc Hcm Ho. destruct (end_op_last g s txn Hc Hcm Ho) as (s' & E & C' & H1 & H2 & T & _ & V).
  exists s'. split_and!; try done.
  - intros Ht. by rewrite decide_False in T.
  - intros x [Hx Hl]. rewrite <- V by (done || lia). symmetry.
    apply (crash_unpinned g s' [] C'); [done | apply not_elem_of_nil].
Qed.

(** What the scheduler gives back to a process waiting in [begin_op]. *)
Definition log_resumed (p : nat) (s : kst) : Prop :=
  k_cur s = Some p /\ k_held s = [LPtable] /\ is_Some (k_ptable s !! p).

(** Waiting for the log: asleep on it, because it is committing or short. *)
Definition log_waits (p : nat) (s : kst) : Prop :=
  k_held s = [LPtable] /\ (exists pr, k_ptable s !! p = Some (asleep ChLog pr)) /\
  (l_committing (k_log s) = true \/
   LOGSIZE < l_n (k_log s) + (l_outstanding (k_log s) + 1) * MAXOPBLOCKS).

(** [begin_op] reserves log space. Along every run it sleeps only while a
    commit is under way or the space is short, and returns after incrementing
    [outstanding] in a state [s0] with no commit under way, in which
    [MAXOPBLOCKS] for each outstanding call, this one included, still fit. *)
Theorem begin_op_reserves p s :
  k_cur s = Some p -> k_held s = [] -> is_Some (k_ptable s !! p) ->
  wpr (log_resumed p) (log_waits p) begin_op (fun _ s' => exists s0,
    l_committing (k_log s0) = false /\
    l_n (k_log s0) + (l_outstanding (k_log s0) + 1) * MAXOPBLOCKS <= LOGSIZE /\
    s' = set_k_held [] (set_k_log (set_l_outstanding (i32 (l_outstanding (k_log s0) + 1)) (k_log s0)) s0)) s.
Proof.
  intros Hcur Hheld Hp. unfold begin_op.
  apply wpr_bind. eapply wpr_Ret; [apply acquire_eq; rewrite Hheld; apply not_elem_of_nil|].
  apply (wpr_loop _ _ _ _ (fun _ s => k_cur s = Some p /\ k_held s = [LLog] /\ is_Some (k_ptable s !! p))).
  { simpl. by rewrite Hheld. }
  intros [] t (Tc & Th & [pr Tp]).
  apply wpr_bind. eapply wpr_Ret; [done|]. cbv beta.
  assert (forall t', log_resumed p t' -> k_held t' = [LPtable] /\ is_Some (k_ptable t' !! p) /\
    k_cur (wake_state p LLog t') = Some p /\ k_held (wake_state p LLog t') = [LLog] /\
    is_Some (k_ptable (wake_state p LLog t') !! p)) as Hback.
  { intros t' (Rc & Rh & [pr' Rp]). split_and!; try done. simpl. rewrite list_lookup_alter_eq, Rp. eauto. }
  assert (k_ptable (sleep_state p ChLog t) !! p = Some (asleep ChLog pr)) as Has
    by (simpl; by rewrite list_lookup_alter_eq, Tp).
  destruct (l_committing (k_log t)) eqn:Ec.
  { apply wpr_bind. eapply wpr_sleep; [done..| |exact Hback]. split_and!; [done | by exists pr | by left]. }
  destruct (LOGSIZE <? _) eqn:El.
  { apply Z.ltb_lt in El. apply wpr_bind. eapply wpr_sleep; [done..| |exact Hback].
    split_and!; [done | by exists pr | by right]. }
  apply Z.ltb_ge in El. eapply wpr_Ret.
  { krun. erewrite (bind_Ret (release _)) by (apply (release_eq LLog []); exact Th). reflexivity. }
  exists t. done.
Qed.

(** mkfs gives the log [LOGSIZE] blocks, one of which is the header, while
    [begin_op] hands out [LOGSIZE]: with [LOGSIZE - 1] blocks logged and one more
    reserved, [log_write] of a new block panics. *)
Lemma log_space_shortfall g s H txn b x d :
  quiet s -> cache_inv s (b :: H) -> log_at g s txn -> holds s b x d ->
  g_size g = LOGSIZE -> zlen txn = LOGSIZE - 1 ->
  log_write b s = Panic "too big a transaction" s.
Proof. intros Hq Hi Hla Hh Hg Hn. apply (log_write_full g s txn b Hla). right. lia. Qed.

(** ** Example: a disk of ten blocks whose log has four *)

Definition demo_geom : geom := {| g_start := 2; g_size := 4; g_total := 10 |}.
Definition demo_sb : list Z := lst32 (lst32 (replicate 512 0) 12 4) 16 2.
Definition demo_ldisk : disk := <[1%nat := demo_sb]> (replicate 10 (replicate 512 0)).
Definition demo_log0 : kst :=
  set_k_log (mkLog 2 4 1 false 1 0 (replicate 30 0))
    (set_k_disk demo_ldisk (set_k_bufs bcache_init boot_state)).
Definition demo_data : list Z := replicate 512 9.
Definition demo_update : K unit :=
  b <- bread 1 7 ;; upd_buf b (set_b_data demo_data) ;; log_write b ;; brelse b.
Definition final (m : K unit) (s : kst) : kst := match m s with Ret _ s' => s' | _ => s end.
(** Block 7 updated, and then committed. *)
Definition demo_log1 : kst := final demo_update demo_log0.
Definition demo_log2 : kst := final commit demo_log1.

Definition block_okb (d : list Z) : bool :=
  (zlen d =? BSIZE) && forallb (fun x => (0 <=? x) && (x <? 256)) d.

Lemma block_okb_disk (D : disk) : forallb block_okb D = true -> Forall block_ok D.
Proof.
  intros H. apply Forall_forall. intros d Hd%list_elem_of_In.
  rewrite forallb_forall in H. specialize (H d Hd). unfold block_okb in H.
  apply andb_true_iff in H as [H1%Z.eqb_eq H2]. split; [done|]. apply Forall_forall.
  intros x Hx%list_elem_of_In. rewrite forallb_forall in H2. specialize (H2 x Hx). lia.
Qed.

Lemma demo_geom_ok : geom_ok demo_geom.
Proof. unfold geom_ok. simpl. lia. Qed.

Lemma demo_boot_cache D : Forall block_ok D -> cache_inv (set_k_disk D demo_log0) [].
Proof.
  intros H. eapply (cache_inv_ext (set_k_bufs bcache_init (set_k_disk D boot_state))); try done.
  by apply bcache_init_inv.
Qed.

Lemma demo_boot_pins D x : ~ pinned (set_k_disk D demo_log0) x.
Proof. intros (i & bf & (n & p & ->)%bcache_init_at & H & _). done. Qed.

Lemma demo_committable0 : committable demo_geom demo_log0 [].
Proof.
  split.
  - apply (quiet_ext boot_state); try reflexivity. apply boot_quiet.
  - apply (demo_boot_cache demo_ldisk), block_okb_disk. by vm_compute.
  - split; try reflexivity; [done | apply demo_geom_ok | apply txn_nil_ok, demo_geom_ok].
  - intros y. split; [intros Hy; by apply (demo_boot_pins demo_ldisk) in Hy
      | intros Hy; by apply not_elem_of_nil in Hy].
  - simpl. unfold NBUF. lia.
Qed.

Lemma demo_home7 : home demo_geom 7.
Proof. unfold home, in_log. simpl. lia. Qed.

Lemma demo_data_ok : block_ok demo_data.
Proof. split; [done|]. apply Forall_replicate. lia. Qed.

Lemma demo_committable1 :
  committable demo_geom demo_log1 [7] /\ k_disk demo_log1 = demo_ldisk /\ k_dtrace demo_log1 = [] /\
  l_committing (k_log demo_log1) = false /\ l_outstanding (k_log demo_log1) = 1 /\
  vblock demo_log1 7 = Some demo_data.
Proof.
  destruct (logged_update_spec demo_geom demo_log0 [] 7 demo_data demo_committable0)
    as (s' & E & C & D & T & H1 & H2 & V).
  - done.
  - apply demo_home7.
  - apply demo_data_ok.
  - simpl. unfold NBUF. lia.
  - done.
  - assert (s' = demo_log1) as -> by (unfold demo_log1, final, demo_update; by rewrite E).
    split_and!; [exact C | exact D | exact T | exact H2 | exact H1 |]. rewrite V; done.
Qed.

Lemma commit_durable_witness :
  exists s', commit demo_log1 = Ret tt s' /\ dblock (k_disk s') 7 = Some demo_data.
Proof.
  destruct demo_committable1 as (C & _ & _ & _ & _ & V).
  destruct (commit_durable demo_geom demo_log1 [7] C) as (s' & E & _ & H).
  exists s'. split; [exact E|]. rewrite (proj2 (H 7 demo_home7)). exact V.
Defined.

(** The machine stops after two writes of the commit: the header is out, block 7
    is not home yet. *)
Definition demo_crash : kst :=
  set_k_disk (replay (take 2 (drop (length (k_dtrace demo_log1)) (k_dtrace demo_log2)))
    (k_disk demo_log1)) demo_log0.

Lemma demo_booted D :
  Forall block_ok D -> zlen D = 10 -> dblock D 1 = Some demo_sb ->
  booted demo_geom (set_k_disk D demo_log0).
Proof.
  intros Hok Hl Hsb. split.
  - apply (quiet_ext boot_state); try reflexivity. apply boot_quiet.
  - by apply demo_boot_cache.
  - intros y _. rewrite vblock_none; [done|]. by intros i bf (n & p & ->)%bcache_init_at.
  - apply demo_boot_pins.
  - apply demo_geom_ok.
  - exact Hl.
  - simpl. intros d Hd. assert (d = demo_sb) as -> by congruence. split; by vm_compute.
  - done.
Qed.

Lemma commit_crash_atomic_witness :
  exists s3, initlog 1 demo_crash = Ret tt s3 /\
    ((forall x, home demo_geom x -> dblock (k_disk s3) x = dblock (k_disk demo_log1) x) \/
     (forall x, home demo_geom x -> dblock (k_disk s3) x = vblock demo_log1 x)).
Proof.
  destruct demo_committable1 as (C & D & T & _).
  destruct (commit_crash_atomic demo_geom demo_log1 [7] demo_log2 2 demo_crash C)
    as (s3 & E & _ & H).
  - rewrite D. by vm_compute.
  - unfold demo_log2, final.
    destruct (commit_spec demo_geom demo_log1 [7] C ltac:(discriminate)) as (s' & E & _). by rewrite E.
  - apply demo_booted; [apply block_okb_disk | |]; by vm_compute.
  - reflexivity.
  - exists s3. split; [exact E | exact H].
Defined.

(** Recovery from that crash stops in turn after one write. *)
Definition demo_crash2 : kst :=
  set_k_disk (replay (take 1 (drop (length (k_dtrace demo_crash)) (k_dtrace (final (initlog 1) demo_crash))))
    (k_disk demo_crash)) demo_log0.

Lemma recovery_crash_idempotent_witness :
  exists s3, initlog 1 demo_crash2 = Ret tt s3 /\
    forall x, home demo_geom x -> dblock (k_disk s3) x = dblock (k_disk (final (initlog 1) demo_crash)) x.
Proof.
  assert (booted demo_geom demo_crash) as B1
    by (apply demo_booted; [apply block_okb_disk | |]; by vm_compute).
  assert (head_ok demo_geom (ddata (k_disk demo_crash) (g_start demo_geom))) as Hh.
  { assert (dec_head (ddata (k_disk demo_crash) (g_start demo_geom)) = [7]) as E by (by vm_compute).
    split; [vm_compute; split; congruence|]. rewrite E.
    split; [apply NoDup_singleton | constructor; [apply demo_home7 | constructor] | done | done]. }
  apply (recovery_crash_idempotent demo_geom demo_crash (final (initlog 1) demo_crash) 1 demo_crash2 B1 Hh).
  - apply block_okb_disk. by vm_compute.
  - unfold final. destruct (initlog_spec demo_geom demo_crash B1 Hh) as (s' & E & _). by rewrite E.
  - apply demo_booted; [apply block_okb_disk | |]; by vm_compute.
  - reflexivity.
Defined.

Lemma logged_update_witness :
  exists s', demo_update demo_log0 = Ret tt s' /\ committable demo_geom s' [7].
Proof.
  destruct (logged_update demo_geom demo_log0 [] 7 demo_data demo_committable0)
    as (s' & E & C & _);
    [done | apply demo_home7 | apply demo_data_ok | vm_compute; lia | done |].
  exists s'. split; [exact E | exact C].
Defined.

Lemma end_op_commits_witness :
  exists s', end_op demo_log1 = Ret tt s' /\ dblock (k_disk s') 7 = Some demo_data.
Proof.
  destruct demo_committable1 as (C & _ & _ & H1 & H2 & V).
  destruct (end_op_commits demo_geom demo_log1 [7] C H1 H2) as (s' & E & _ & _ & _ & _ & H).
  exists s'. split; [exact E|]. rewrite (H 7 demo_home7). exact V.
Defined.

Lemma begin_op_reserves_witness :
  wpr (log_resumed 0) (log_waits 0) begin_op (fun _ s' => exists s0,
    l_committing (k_log s0) = false /\
    l_n (k_log s0) + (l_outstanding (k_log s0) + 1) * MAXOPBLOCKS <= LOGSIZE /\
    s' = set_k_held [] (set_k_log (set_l_outstanding (i32 (l_outstanding (k_log s0) + 1)) (k_log s0)) s0))
    demo_log0.
Proof. apply (begin_op_reserves 0 demo_log0); [reflexivity | reflexivity | by eexists]. Defined.
