(* ===== verification/Fs.v ===== *)
(** * Blocks and inodes

    The lower layers of fs.c: the block allocator with the containers' disk
    accounting, the inode cache, and the content of inodes.  Directories and paths
    are in Path.v. *)

From S2P Require Import Prelude Monad KState Sched Kalloc Bio Log.

Local Open Scope kernel_scope.

(** The device switch: the functions registered for a major number (console.c
    registers the console's).  A read yields its result and the bytes stored at the
    destination. *)
Class Devsw : Type := {
  dev_read : Z -> option (nat -> Z -> K (Z * list Z));
  dev_write : Z -> option (nat -> list Z -> Z -> K Z)
}.

Definition BBLOCK (b : Z) (sb : superblock) : Z := u32 (b / BPB + sb_bmapstart sb).
Definition IBLOCK (i : Z) (sb : superblock) : Z := u32 (i / IPB + sb_inodestart sb).

(** [bp->data] and stores into it. *)
Definition bdata (b : nat) : K (list Z) := bf <- get_buf b ;; ret (b_data bf).
Definition upd_data (b : nat) (f : list Z -> list Z) : K unit :=
  upd_buf b (fun bf => set_b_data (f (b_data bf)) bf).

(** ** Blocks *)

Definition bzero (dev bno : Z) : K unit :=
  bp <- bread (u32 dev) (u32 bno) ;;
  upd_data bp (fun _ => replicate (Z.to_nat BSIZE) 0) ;;
  log_write bp ;;
  brelse bp.

Definition bitmask (bi : Z) : Z := Z.shiftl 1 (bi mod 8).

(** The inner loop of [balloc] over one bitmap block. *)
Definition balloc_scan (dev b size : Z) (bp : nat) (c : nat) : K (option Z) :=
  for_first (seq 0 (Z.to_nat (Z.min BPB (size - b)))) (fun bi =>
    let bi := Z.of_nat bi in
    let m := bitmask bi in
    d <- bdata bp ;;
    if Z.land (lget d (bi / 8)) m =? 0 then
      upd_data bp (fun d => lput d (bi / 8) (Z.lor (lget d (bi / 8)) m)) ;;
      log_write bp ;;
      brelse bp ;;
      bzero dev (b + bi) ;;
      upd_cont c (fun co => set_c_udsk (u32 (c_udsk co + BSIZE)) co) ;;
      ret (Some (b + bi))
    else ret None).

Definition balloc (dev : Z) : K Z :=
  c <- mycont ;;
  co <- get_cont c ;;
  if c_mdsk co <? u32 (c_udsk co + BSIZE) then
    c' <- mycont ;;
    co' <- get_cont c' ;;
    cprintf "Killing container %d for trying to allocate %d + %d disk space." 
      [c_cid co'; c_udsk co; BSIZE] ;;
    c' <- mycont ;;
    ckill c' ;;
    ret 0
  else
    sb <- gets (fun s => k_sb s) ;;
    r <- for_first (seq 0 (Z.to_nat ((sb_size sb + BPB - 1) / BPB))) (fun i =>
      let b := Z.of_nat i * BPB in
      bp <- bread dev (BBLOCK b sb) ;;
      r <- balloc_scan dev b (sb_size sb) bp c ;;
      match r with
      | Some a => ret (Some a)
      | None => brelse bp ;; ret None
      end) ;;
    match r with
    | Some a => ret a
    | None => panic "balloc: out of blocks"
    end.

Definition bfree (dev b : Z) : K unit :=
  c <- mycont ;;
  co <- get_cont c ;;
  when (BSIZE <? c_udsk co) (upd_cont c (fun co => set_c_udsk (c_udsk co - BSIZE) co)) ;;
  sb <- readsb (u32 dev) ;;
  modify (set_k_sb sb) ;;
  bp <- bread (u32 dev) (BBLOCK b sb) ;;
  let bi := b mod BPB in
  let m := bitmask bi in
  d <- bdata bp ;;
  if Z.land (lget d (bi / 8)) m =? 0 then panic "freeing free block" else
  upd_data bp (fun d => lput d (bi / 8) (Z.land (lget d (bi / 8)) (Z.lnot m))) ;;
  log_write bp ;;
  brelse bp.

(** ** Inodes *)

Definition iinit (dev : Z) : K unit :=
  for_each (seq 0 NINODE) (fun i => initsleeplock (SlInode i)) ;;
  sb <- readsb (u32 dev) ;;
  modify (set_k_sb sb) ;;
  cprintf "sb: size %d nblocks %d ninodes %d nlog %d logstart %d inodestart %d bmap start %d"
    [sb_size sb; sb_nblocks sb; sb_ninodes sb; sb_nlog sb; sb_logstart sb; sb_inodestart sb;
     sb_bmapstart sb].

(** The scan of [iget]: a hit is referenced and returned; otherwise the first empty
    slot is remembered. *)
Fixpoint iget_scan (slots : list nat) (dev inum : Z) (empty : option nat) : K (nat + option nat) :=
  match slots with
  | [] => ret (inr empty)
  | i :: slots' =>
      ip <- get_inode i ;;
      if (0 <? i_ref ip) && (i_dev ip =? dev) && (i_inum ip =? inum) then
        upd_inode i (fun ip => set_i_ref (i32 (i_ref ip + 1)) ip) ;;
        release LIcache ;;
        ret (inl i)
      else
        iget_scan slots' dev inum
          (if (empty ==? None) && (i_ref ip =? 0) then Some i else empty)
  end.

Definition iget (dev inum : Z) : K nat :=
  acquire LIcache ;;
  r <- iget_scan (seq 0 NINODE) dev inum None ;;
  match r with
  | inl i => ret i
  | inr None => panic "iget: no inodes"
  | inr (Some i) =>
      upd_inode i (set_i_dev dev) ;;
      upd_inode i (set_i_inum inum) ;;
      upd_inode i (set_i_ref 1) ;;
      upd_inode i (set_i_valid false) ;;
      release LIcache ;;
      ret i
  end.

(** [struct dinode], 64 bytes: four shorts, the size and the block addresses. *)
Definition dinode_off (inum : Z) : Z := (inum mod IPB) * 64.
Definition dip_type (d : list Z) (o : Z) : Z := i16 (lld16 d o).
Definition dip_addrs (d : list Z) (o : Z) : list Z :=
  (fun k => lld32 d (o + 12 + 4 * Z.of_nat k)) <$> seq 0 (S NDIRECT).

(** The stores of [memmove(dip->addrs, ip->addrs, sizeof(ip->addrs))]. *)
Fixpoint put_addrs (d : list Z) (o : Z) (l : list Z) : list Z :=
  match l with
  | [] => d
  | a :: l' => put_addrs (lst32 d o a) (o + 4) l'
  end.

Definition enc_dinode (ip : inode) (o : Z) (d : list Z) : list Z :=
  let d := lst16 d o (i_type ip) in
  let d := lst16 d (o + 2) (i_major ip) in
  let d := lst16 d (o + 4) (i_minor ip) in
  let d := lst16 d (o + 6) (i_nlink ip) in
  let d := lst32 d (o + 8) (i_size ip) in
  put_addrs d (o + 12) (i_addrs ip).

Definition dec_dinode (d : list Z) (o : Z) (ip : inode) : inode :=
  set_i_addrs (dip_addrs d o)
   (set_i_size (lld32 d (o + 8))
     (set_i_nlink (i16 (lld16 d (o + 6)))
       (set_i_minor (i16 (lld16 d (o + 4)))
         (set_i_major (i16 (lld16 d (o + 2)))
           (set_i_type (dip_type d o) ip))))).

(** [memset(dip, 0, sizeof( *dip))] *)
Definition zero_range (d : list Z) (o n : Z) : list Z :=
  imap (fun i x => if (o <=? Z.of_nat i) && (Z.of_nat i <? o + n) then 0 else x) d.

Definition ialloc (dev type : Z) : K nat :=
  sb <- gets (fun s => k_sb s) ;;
  r <- for_first (seq 1 (Z.to_nat (sb_ninodes sb - 1))) (fun k =>
    let inum := Z.of_nat k in
    let o := dinode_off inum in
    bp <- bread dev (IBLOCK inum sb) ;;
    d <- bdata bp ;;
    if dip_type d o =? 0 then
      upd_data bp (fun d => zero_range d o 64) ;;
      upd_data bp (fun d => lst16 d o type) ;;
      log_write bp ;;
      brelse bp ;;
      ip <- iget dev inum ;;
      ret (Some ip)
    else brelse bp ;; ret None) ;;
  match r with
  | Some ip => ret ip
  | None => panic "ialloc: no inodes"
  end.

Definition iupdate (i : nat) : K unit :=
  ip <- get_inode i ;;
  sb <- gets (fun s => k_sb s) ;;
  bp <- bread (i_dev ip) (IBLOCK (i_inum ip) sb) ;;
  ip <- get_inode i ;;
  upd_data bp (enc_dinode ip (dinode_off (i_inum ip))) ;;
  log_write bp ;;
  brelse bp.

Definition idup (i : nat) : K nat :=
  acquire LIcache ;;
  upd_inode i (fun ip => set_i_ref (i32 (i_ref ip + 1)) ip) ;;
  release LIcache ;;
  ret i.

Definition ilock (oi : option nat) : K unit :=
  match oi with
  | None => panic "ilock"
  | Some i =>
      ip <- get_inode i ;;
      if i_ref ip <? 1 then panic "ilock" else
      acquiresleep (SlInode i) ;;
      ip <- get_inode i ;;
      if negb (i_valid ip) then
        sb <- gets (fun s => k_sb s) ;;
        bp <- bread (i_dev ip) (IBLOCK (i_inum ip) sb) ;;
        d <- bdata bp ;;
        upd_inode i (dec_dinode d (dinode_off (i_inum ip))) ;;
        brelse bp ;;
        upd_inode i (set_i_valid true) ;;
        ip <- get_inode i ;;
        if i_type ip =? 0 then panic "ilock: no type" else ret tt
      else ret tt
  end.

Definition iunlock (oi : option nat) : K unit :=
  match oi with
  | None => panic "iunlock"
  | Some i =>
      h <- holdingsleep (SlInode i) ;;
      if negb h then panic "iunlock" else
      ip <- get_inode i ;;
      if i_ref ip <? 1 then panic "iunlock" else
      releasesleep (SlInode i)
  end.

(** ** Inode content *)

Definition get_addr (i : nat) (k : nat) : K Z :=
  ip <- get_inode i ;; deref "addrs" (i_addrs ip !! k).
Definition set_addr (i : nat) (k : nat) (a : Z) : K unit :=
  upd_inode i (fun ip => set_i_addrs (<[k := a]> (i_addrs ip)) ip).

(** [if((addr = ip->addrs[k]) == 0) ip->addrs[k] = addr = balloc(ip->dev);] *)
Definition addr_or_alloc (i : nat) (k : nat) : K Z :=
  addr <- get_addr i k ;;
  if addr =? 0 then
    ip <- get_inode i ;;
    a <- balloc (i_dev ip) ;;
    set_addr i k a ;;
    ret a
  else ret addr.

Definition bmap (i : nat) (bn : Z) : K Z :=
  if bn <? Z.of_nat NDIRECT then addr_or_alloc i (Z.to_nat bn)
  else
    let bn := bn - Z.of_nat NDIRECT in
    if bn <? NINDIRECT then
      addr <- addr_or_alloc i NDIRECT ;;
      ip <- get_inode i ;;
      bp <- bread (i_dev ip) addr ;;
      d <- bdata bp ;;
      let addr := lld32 d (4 * bn) in
      addr <- (if addr =? 0 then
        ip <- get_inode i ;;
        a <- balloc (i_dev ip) ;;
        upd_data bp (fun d => lst32 d (4 * bn) a) ;;
        log_write bp ;;
        ret a
      else ret addr) ;;
      brelse bp ;;
      ret addr
    else panic "bmap: out of range".

Definition itrunc (i : nat) : K unit :=
  for_each (seq 0 NDIRECT) (fun k =>
    a <- get_addr i k ;;
    when (negb (a =? 0))
      (ip <- get_inode i ;;
       bfree (i_dev ip) a ;;
       set_addr i k 0)) ;;
  a <- get_addr i NDIRECT ;;
  when (negb (a =? 0))
    (ip <- get_inode i ;;
     bp <- bread (i_dev ip) a ;;
     for_each (seq 0 (Z.to_nat NINDIRECT)) (fun j =>
       d <- bdata bp ;;
       let aj := lld32 d (4 * Z.of_nat j) in
       when (negb (aj =? 0)) (bfree (i_dev ip) aj)) ;;
     brelse bp ;;
     a <- get_addr i NDIRECT ;;
     bfree (i_dev ip) a ;;
     set_addr i NDIRECT 0) ;;
  upd_inode i (set_i_size 0) ;;
  iupdate i.

Definition iput (i : nat) : K unit :=
  acquiresleep (SlInode i) ;;
  ip <- get_inode i ;;
  when (i_valid ip && (i_nlink ip =? 0))
    (acquire LIcache ;;
     ip <- get_inode i ;;
     let r := i_ref ip in
     release LIcache ;;
     when (r =? 1)
       (itrunc i ;;
        upd_inode i (set_i_type 0) ;;
        iupdate i ;;
        upd_inode i (set_i_valid false))) ;;
  releasesleep (SlInode i) ;;
  acquire LIcache ;;
  upd_inode i (fun ip => set_i_ref (i32 (i_ref ip - 1)) ip) ;;
  release LIcache.

Definition iunlockput (i : nat) : K unit :=
  iunlock (Some i) ;;
  iput i.

(** [struct stat]. *)
Record stat : Type := mkStat {
  st_type : Z;
  st_dev : Z;
  st_ino : Z;
  st_nlink : Z;
  st_size : Z
}.

Definition stati (i : nat) : K stat :=
  ip <- get_inode i ;;
  ret (mkStat (i_type ip) (i32 (i_dev ip)) (i_inum ip) (i_nlink ip) (i_size ip)).

Section content.
Context `{DW : Devsw}.

(** [devsw[ip->major]], with the check on [major]. *)
Definition dev_of {A} (tab : Z -> option A) (ip : inode) : option A :=
  if (i_major ip <? 0) || (NDEV <=? i_major ip) then None else tab (i_major ip).

(** A transfer touches each of the file's blocks at most once; [MAXFILE] blocks
    and the exit test bound the loops. *)
Definition MAXCHUNKS : nat := 142.

(** [readi]: the number of bytes read, or -1, and the bytes stored at [dst]. *)
Definition readi (i : nat) (off n : Z) : K (Z * list Z) :=
  ip <- get_inode i ;;
  if i_type ip =? T_DEV then
    match dev_of dev_read ip with
    | None => ret (-1, [])
    | Some f => f i n
    end
  else
  if (i_size ip <? off) || (u32 (off + n) <? off) then ret (-1, []) else
  let n := if i_size ip <? u32 (off + n) then i_size ip - off else n in
  dst <- loop MAXCHUNKS (fun '(tot, off, dst) =>
    if tot <? n then
      a <- bmap i (off / BSIZE) ;;
      ip <- get_inode i ;;
      bp <- bread (i_dev ip) a ;;
      let m := Z.min (n - tot) (BSIZE - off mod BSIZE) in
      d <- bdata bp ;;
      brelse bp ;;
      ret (inl (tot + m, off + m, dst ++ take (Z.to_nat m) (drop (Z.to_nat (off mod BSIZE)) d)))
    else ret (inr dst)) (0, off, []) ;;
  ret (i32 n, dst).

(** [splice d o src]: the bytes [src] stored at offset [o] of [d]. *)
Definition splice (d : list Z) (o : Z) (src : list Z) : list Z :=
  take (Z.to_nat o) d ++ src ++ drop (Z.to_nat o + length src) d.

(** [writei]: [src] are the bytes at the source address. *)
Definition writei (i : nat) (src : list Z) (off n : Z) : K Z :=
  ip <- get_inode i ;;
  if i_type ip =? T_DEV then
    match dev_of dev_write ip with
    | None => ret (-1)
    | Some f => f i src n
    end
  else
  if (i_size ip <? off) || (u32 (off + n) <? off) then ret (-1) else
  if MAXFILE * BSIZE <? u32 (off + n) then ret (-1) else
  off <- loop MAXCHUNKS (fun '(tot, off) =>
    if tot <? n then
      a <- bmap i (off / BSIZE) ;;
      ip <- get_inode i ;;
      bp <- bread (i_dev ip) a ;;
      let m := Z.min (n - tot) (BSIZE - off mod BSIZE) in
      upd_data bp (fun d => splice d (off mod BSIZE) (take (Z.to_nat m) (drop (Z.to_nat tot) src))) ;;
      log_write bp ;;
      brelse bp ;;
      ret (inl (tot + m, off + m))
    else ret (inr off)) (0, off) ;;
  ip <- get_inode i ;;
  when ((0 <? n) && (i_size ip <? off))
    (upd_inode i (set_i_size off) ;;
     iupdate i) ;;
  ret (i32 n).
End content.

(** ** Steps inside a transaction *)

(** The state of a system call that is alone in the file system, inside a
    transaction that has logged [txn], holding the buffers [H]. *)
Record in_txn (g : geom) (s : kst) (H : list nat) (txn : list Z) : Prop := {
  it_quiet : quiet s;
  it_cache : cache_inv s H;
  it_log : log_at g s txn;
  it_pinned y : pinned s y <-> y ∈ txn;
  it_out : 1 <= l_outstanding (k_log s)
}.

(** Room for [n] more blocks in the log and [m] more buffers. *)
Definition log_room (g : geom) (txn : list Z) (n : Z) : Prop :=
  zlen txn + n < g_size g /\ zlen txn + n <= LOGSIZE.
Definition buf_room (H : list nat) (txn : list Z) (m : nat) : Prop :=
  (length H + length txn + m <= NBUF)%nat.

(** Only the cache and the log's list changed: no disk write, and nothing of the
    rest of the kernel. *)
Definition fs_frame (s s' : kst) : Prop :=
  s' = set_k_bufs (k_bufs s') (set_k_log (k_log s') s) /\
  l_outstanding (k_log s') = l_outstanding (k_log s) /\
  l_committing (k_log s') = l_committing (k_log s).

Lemma fs_frame_refl s : fs_frame s s.
Proof. done. Qed.

Lemma fs_frame_trans s s1 s2 : fs_frame s s1 -> fs_frame s1 s2 -> fs_frame s s2.
Proof.
  intros (E1 & O1 & C1) (E2 & O2 & C2). split; [|split; congruence].
  rewrite E2. rewrite E1. done.
Qed.

Lemma fs_frame_bufs s s' : only_bufs s s' -> fs_frame s s'.
Proof. intros ->. done. Qed.

Lemma fs_frame_disk s s' : fs_frame s s' -> k_disk s' = k_disk s /\ k_sb s' = k_sb s /\
  k_ctable s' = k_ctable s /\ k_ptable s' = k_ptable s /\ k_cur s' = k_cur s /\
  k_icache s' = k_icache s /\ k_held s' = k_held s.
Proof. intros (-> & _). done. Qed.

(** A held buffer whose content is safe: logged, or as on disk. *)
Definition safe (s : kst) (b : nat) (x : Z) (d : list Z) : Prop :=
  holds s b x d /\ (pinned s x \/ k_disk s !! Z.to_nat x = Some d).

Lemma bdata_eq s b x d : holds s b x d -> bdata b s = Ret d s.
Proof.
  intros (bf & Hb & _ & _ & <-). unfold bdata.
  by rewrite (bind_Ret _ _ _ _ _ (get_buf_eq _ _ _ Hb)).
Qed.

Lemma upd_data_eq s b x d f :
  holds s b x d -> upd_data b f s = upd_buf b (set_b_data (f d)) s.
Proof.
  intros (bf & Hb & _ & _ & <-). unfold upd_data. rewrite !(upd_buf_eq _ _ _ _ Hb).
  do 2 f_equal. apply list_alter_ext; [|done]. intros y Hy. assert (y = bf) as -> by congruence. done.
Qed.

Section steps.
Context (g : geom).

Lemma in_txn_bufs s s' H H' txn :
  in_txn g s H txn -> only_bufs s s' -> cache_inv s' H' -> (forall y, pinned s' y <-> pinned s y) ->
  in_txn g s' H' txn.
Proof.
  intros [A1 A2 A3 A4 A5] O I P. split.
  - by eapply only_bufs_quiet.
  - done.
  - eapply log_at_wrote; [by apply wrote_bufs | done].
  - intros y. by rewrite P.
  - by rewrite O.
Qed.

Lemma fs_bread s H txn x :
  in_txn g s H txn -> 0 <= x < g_total g -> (forall i d, i ∈ H -> ~ holds s i x d) ->
  buf_room H txn 1 ->
  exists b s' d, bread 1 x s = Ret b s' /\ only_bufs s s' /\ in_txn g s' (b :: H) txn /\ b ∉ H /\
    vblock s x = Some d /\ safe s' b x d /\ same_view H s s'.
Proof.
  intros Hin Hx Hf Hr. pose proof Hin as [A1 A2 A3 A4 A5].
  destruct (bread_spec s H x A1 A2) as (b & s' & E & O & I & Hb & V & d & Hd & Hh).
  - by rewrite (la_total _ _ _ A3).
  - done.
  - right. apply (room_count s H txn A2); [intros y; by apply A4 | unfold buf_room in Hr; lia].
  - exists b, s', d. split_and!; try done.
    + eapply in_txn_bufs; try done. apply V.
    + split; [done|]. destruct (vblock_disk s H x d A2 Hf Hd) as [Hp|Hp]; [left; by apply V | right; by rewrite O].
Qed.

Lemma fs_store s H txn b x d f :
  in_txn g s (b :: H) txn -> holds s b x d -> block_ok (f d) ->
  exists s', upd_data b f s = Ret tt s' /\ only_bufs s s' /\ in_txn g s' (b :: H) txn /\
    holds s' b x (f d) /\
    (forall y, 0 <= y -> vblock s' y = if y =? x then Some (f d) else vblock s y) /\
    (forall i y e, i ∈ H -> holds s i y e -> holds s' i y e).
Proof.
  intros Hin Hh Hok. pose proof Hin as [A1 A2 A3 A4 A5]. rewrite (upd_data_eq s b x d f Hh).
  destruct Hh as (bf & Hb & Fb & Nb & Db).
  destruct (store_held s H b bf A1 A2 Hb (f d) Hok) as (s' & E & O & I & V & P & K & Hh & _).
  rewrite Nb in *. exists s'. split_and!; try done. by eapply in_txn_bufs.
Qed.

Lemma fs_log_write s H txn b x d :
  in_txn g s (b :: H) txn -> holds s b x d -> home g x -> log_room g txn 1 ->
  exists s', log_write b s = Ret tt s' /\ fs_frame s s' /\ in_txn g s' (b :: H) (log_add x txn) /\
    safe s' b x d /\ (forall y, 0 <= y -> vblock s' y = vblock s y) /\
    (forall i y e, i ∈ H -> holds s i y e -> holds s' i y e).
Proof.
  intros Hin Hh Hx [R1 R2]. pose proof Hin as [A1 A2 A3 A4 A5].
  destruct (log_write_spec g s H txn b x d A1 A2 A3 Hh Hx A5) as (s' & E & O & I & L & V & P & K);
    [lia | lia |].
  assert (k_log s' = logged s txn x) as El by (by rewrite O).
  assert (l_outstanding (logged s txn x) = l_outstanding (k_log s) /\
          l_committing (logged s txn x) = l_committing (k_log s)) as [Eo Ec].
  { unfold logged. cbv zeta. by destruct (_ =? _)%nat. }
  exists s'. split_and!; try done.
  - split; [|rewrite El; done]. rewrite El. done.
  - split; try done; [rewrite O; by apply (quiet_ext s) | | by rewrite El, Eo].
    intros y. rewrite P, A4. unfold log_add. case_decide; set_solver.
  - split; [apply K; [by left | done]|]. left. apply P. by right.
  - intros i y e Hi. apply K. by right.
Qed.

Lemma fs_brelse s H txn b x d :
  in_txn g s (b :: H) txn -> safe s b x d ->
  exists s', brelse b s = Ret tt s' /\ only_bufs s s' /\ in_txn g s' H txn /\ same_view H s s'.
Proof.
  intros Hin [Hh Hs]. pose proof Hin as [A1 A2 A3 A4 A5].
  destruct (brelse_spec s H b x d A1 A2 Hh Hs) as (s' & E & O & I & V).
  exists s'. split_and!; try done. eapply in_txn_bufs; try done. apply V.
Qed.

(** A safe buffer stays safe while others are used. *)
Lemma safe_mono s s' b x d :
  safe s b x d -> holds s' b x d -> k_disk s' = k_disk s -> (pinned s x -> pinned s' x) ->
  safe s' b x d.
Proof. intros [_ Hs] Hh Ed Hp. split; [done|]. rewrite Ed. destruct Hs; auto. Qed.

(** Held buffers stay with their blocks. *)
Lemma held_holds s H i : cache_inv s H -> i ∈ H -> exists y e, holds s i y e.
Proof.
  intros Hi Hin. pose proof (proj2 (ci_held _ _ Hi) i Hin) as Hlt.
  destruct (lookup_lt_is_Some_2 (k_bufs s) i) as [bf Hb]; [rewrite (cache_len _ _ Hi); lia|].
  destruct (ci_buf _ _ Hi i bf Hlt Hb) as [[(_ & _ & E)|(_ & E & _)] _ _ _ _].
  - by rewrite bool_decide_eq_true_2 in E.
  - exists (b_blockno bf), (b_data bf), bf. done.
Qed.

Lemma not_held_mono s s' (H H' : list nat) x :
  cache_inv s H' -> (forall i, i ∈ H -> i ∈ H') ->
  (forall i y e, i ∈ H -> holds s i y e -> holds s' i y e) ->
  (forall i d, i ∈ H -> ~ holds s i x d) -> forall i d, i ∈ H -> ~ holds s' i x d.
Proof.
  intros Hi HH K Hf i d Hin Hh. destruct (held_holds s H' i Hi (HH i Hin)) as (y & e & He).
  destruct (holds_inj s' i y e x d (K i y e Hin He) Hh) as [-> _]. by apply (Hf i e Hin).
Qed.

(** Modify, log and release a held buffer. *)
Lemma fs_commit_buf s H txn b x d f :
  in_txn g s (b :: H) txn -> holds s b x d -> block_ok (f d) -> home g x -> log_room g txn 1 ->
  exists s1 s2 s3, upd_data b f s = Ret tt s1 /\ log_write b s1 = Ret tt s2 /\ brelse b s2 = Ret tt s3 /\
    fs_frame s s3 /\ in_txn g s3 H (log_add x txn) /\
    (forall y, 0 <= y -> vblock s3 y = if y =? x then Some (f d) else vblock s y) /\
    (forall i y e, i ∈ H -> holds s i y e -> holds s3 i y e).
Proof.
  intros Hin Hh Hok Hx Hr.
  destruct (fs_store s H txn b x d f Hin Hh Hok) as (s1 & E1 & O1 & I1 & H1 & V1 & K1).
  destruct (fs_log_write s1 H txn b x (f d) I1 H1 Hx Hr) as (s2 & E2 & F2 & I2 & S2 & V2 & K2).
  destruct (fs_brelse s2 H (log_add x txn) b x (f d) I2 S2) as (s3 & E3 & O3 & I3 & V3).
  exists s1, s2, s3. split_and!; try done.
  - eapply fs_frame_trans; [by apply fs_frame_bufs|]. eapply fs_frame_trans; [done|].
    by apply fs_frame_bufs.
  - intros y Hy. by rewrite (sv_vblock _ _ _ V3), V2, V1.
  - intros i y e Hi He. apply (sv_holds _ _ _ V3); auto.
Qed.
End steps.

Lemma buf_room_le H txn H' txn' m m' :
  buf_room H txn m -> (length H' + length txn' + m' <= length H + length txn + m)%nat ->
  buf_room H' txn' m'.
Proof. unfold buf_room. lia. Qed.

Lemma length_log_add x txn : (length txn <= length (log_add x txn) <= S (length txn))%nat.
Proof. unfold log_add. case_decide; rewrite ?length_app; simpl; lia. Qed.

Lemma log_room_add g x txn n : log_room g txn (n + 1) -> 0 <= n -> log_room g (log_add x txn) n.
Proof. unfold log_room, zlen. pose proof (length_log_add x txn). lia. Qed.

(** ** The bitmap *)

Definition bit_of (d : list Z) (bi : Z) : bool := Z.testbit (lget d (bi / 8)) (bi mod 8).

Lemma land_shiftl x k : 0 <= k -> (Z.land x (Z.shiftl 1 k) =? 0) = negb (Z.testbit x k).
Proof.
  intros Hk. destruct (Z.testbit x k) eqn:E; simpl.
  - apply Z.eqb_neq. intros H. assert (Z.testbit (Z.land x (Z.shiftl 1 k)) k = false) as H'
      by (rewrite H; apply Z.bits_0).
    rewrite Z.land_spec, E, Z.shiftl_spec, Z.sub_diag in H' by lia. done.
  - apply Z.eqb_eq. apply Z.bits_inj'. intros n Hn. rewrite Z.land_spec, Z.bits_0.
    destruct (decide (n = k)) as [->|Hne]; [by rewrite E|].
    rewrite Z.shiftl_spec by lia. destruct (decide (n < k)).
    + rewrite (Z.testbit_neg_r 1) by lia. apply andb_false_r.
    + rewrite (Z.bits_above_log2 1) by (change (Z.log2 1) with 0; lia). apply andb_false_r.
Qed.

Lemma free_test d bi : (Z.land (lget d (bi / 8)) (bitmask bi) =? 0) = negb (bit_of d bi).
Proof. unfold bitmask, bit_of. apply land_shiftl. zlia. Qed.

Lemma mask_bit bi n : 0 <= n -> Z.testbit (bitmask bi) n = (n =? bi mod 8).
Proof.
  intros Hn. unfold bitmask. rewrite Z.shiftl_spec by done.
  destruct (Z.eqb_spec n (bi mod 8)) as [->|Hne]; [by rewrite Z.sub_diag|].
  destruct (decide (n < bi mod 8)); [by rewrite Z.testbit_neg_r by lia|].
  rewrite (Z.bits_above_log2 1) by (change (Z.log2 1) with 0; lia). done.
Qed.

Definition mark (bi : Z) (d : list Z) : list Z := lput d (bi / 8) (Z.lor (lget d (bi / 8)) (bitmask bi)).
Definition unmark (bi : Z) (d : list Z) : list Z :=
  lput d (bi / 8) (Z.land (lget d (bi / 8)) (Z.lnot (bitmask bi))).

Lemma mark_ok bi d : block_ok d -> block_ok (mark bi d).
Proof. apply lput_ok. Qed.
Lemma unmark_ok bi d : block_ok d -> block_ok (unmark bi d).
Proof. apply lput_ok. Qed.

Lemma u8_testbit x n : 0 <= n < 8 -> Z.testbit (u8 x) n = Z.testbit x n.
Proof. intros Hn. unfold u8. change 256 with (2 ^ 8). apply Z.mod_pow2_bits_low. lia. Qed.

Lemma bit_lput d bi bj v :
  zlen d = BSIZE -> 0 <= bi < BPB -> 0 <= bj < BPB ->
  bit_of (lput d (bi / 8) v) bj =
  if bi / 8 =? bj / 8 then Z.testbit v (bj mod 8) else bit_of d bj.
Proof.
  intros Hd Hi Hj. unfold bit_of. unfold BPB, BSIZE in *.
  destruct (Z.eqb_spec (bi / 8) (bj / 8)) as [<-|Hne].
  - rewrite lget_lput by zlia. apply u8_testbit. zlia.
  - rewrite lget_lput_ne by zlia. done.
Qed.

Lemma bit_mark d bi bj :
  zlen d = BSIZE -> 0 <= bi < BPB -> 0 <= bj < BPB ->
  bit_of (mark bi d) bj = (bj =? bi) || bit_of d bj.
Proof.
  intros Hd Hi Hj. unfold mark. rewrite bit_lput by done.
  destruct (Z.eqb_spec (bi / 8) (bj / 8)) as [E|Hne].
  - rewrite Z.lor_spec, mask_bit by zlia. unfold bit_of. rewrite E, orb_comm. f_equal.
    destruct (Z.eqb_spec (bj mod 8) (bi mod 8)), (Z.eqb_spec bj bi); zlia.
  - rewrite (proj2 (Z.eqb_neq bj bi)) by (intros ->; done). done.
Qed.

Lemma bit_unmark d bi bj :
  zlen d = BSIZE -> 0 <= bi < BPB -> 0 <= bj < BPB ->
  bit_of (unmark bi d) bj = negb (bj =? bi) && bit_of d bj.
Proof.
  intros Hd Hi Hj. unfold unmark. rewrite bit_lput by done.
  destruct (Z.eqb_spec (bi / 8) (bj / 8)) as [E|Hne].
  - rewrite Z.land_spec, Z.lnot_spec, mask_bit by zlia. unfold bit_of. rewrite E, andb_comm. do 2 f_equal.
    destruct (Z.eqb_spec (bj mod 8) (bi mod 8)), (Z.eqb_spec bj bi); zlia.
  - rewrite (proj2 (Z.eqb_neq bj bi)) by (intros ->; done). done.
Qed.

(** Block [a] is marked in use, as the file system sees the bitmap. *)
Definition used (s : kst) (a : Z) : bool :=
  bit_of (vdata s (a / BPB + sb_bmapstart (k_sb s))) (a mod BPB).

(** The layout mkfs produces, as far as the allocator needs it: the bitmap and
    the free blocks are outside the log area, and the bitmap is marked in use. *)
Record fs_layout (g : geom) (s : kst) : Prop := {
  fl_size : 0 < sb_size (k_sb s) <= g_total g;
  fl_bmap a : 0 <= a < sb_size (k_sb s) -> home g (a / BPB + sb_bmapstart (k_sb s));
  fl_free a c : 0 <= a < sb_size (k_sb s) -> 0 <= c < sb_size (k_sb s) -> used s a = false ->
    home g a /\ a <> c / BPB + sb_bmapstart (k_sb s)
}.

Lemma BBLOCK_small g s a :
  geom_ok g -> fs_layout g s -> 0 <= a < sb_size (k_sb s) ->
  BBLOCK a (k_sb s) = a / BPB + sb_bmapstart (k_sb s).
Proof.
  intros (_ & _ & _ & G4) Hl Ha. unfold BBLOCK. apply u32_small.
  destruct (fl_bmap _ _ Hl a Ha) as [? _]. lia.
Qed.

Definition zeros : list Z := replicate (Z.to_nat BSIZE) 0.

Lemma zeros_ok : block_ok zeros.
Proof. apply block_ok_zero. Qed.

Section alloc.
Context (g : geom).

Lemma bzero_spec s H txn a :
  in_txn g s H txn -> home g a -> (forall i d, i ∈ H -> ~ holds s i a d) ->
  buf_room H txn 1 -> log_room g txn 1 ->
  exists s', bzero 1 a s = Ret tt s' /\ fs_frame s s' /\ in_txn g s' H (log_add a txn) /\
    (forall y, 0 <= y -> vblock s' y = if y =? a then Some zeros else vblock s y) /\
    (forall i y e, i ∈ H -> holds s i y e -> holds s' i y e).
Proof.
  intros Hin Ha Hf Hb Hl. pose proof Ha as [Har _].
  destruct (la_geom _ _ _ (it_log _ _ _ _ Hin)) as (_ & _ & _ & G4).
  destruct (fs_bread g s H txn a Hin Har Hf Hb) as (b & s1 & d & E1 & O1 & I1 & _ & _ & [H1 _] & V1).
  destruct (fs_commit_buf g s1 H txn b a d (fun _ => zeros) I1 H1 zeros_ok Ha Hl)
    as (s2 & s3 & s4 & E2 & E3 & E4 & F4 & I4 & V4 & K4).
  exists s4. split_and!; try done.
  - unfold bzero. change (u32 1) with 1. rewrite (u32_small a) by lia.
    by rewrite (bind_Ret _ _ _ _ _ E1), (bind_Ret _ _ _ _ _ E2), (bind_Ret _ _ _ _ _ E3).
  - eapply fs_frame_trans; [by apply fs_frame_bufs | done].
  - intros y Hy. rewrite V4 by done. case_match; [done|]. by apply (sv_vblock _ _ _ V1).
  - intros i y e Hi He. apply K4; [done|]. by apply (sv_holds _ _ _ V1).
Qed.

(** One more allocated block on the container's account. *)
Definition charge_block (co : cont) : cont := set_c_udsk (u32 (c_udsk co + BSIZE)) co.

Lemma tables_wf_alter ct pt c f :
  (forall co, c_mproc (f co) = c_mproc co /\ c_ptable (f co) = c_ptable co) ->
  tables_wf ct pt -> tables_wf (alter f c ct) pt.
Proof.
  intros Hf [W1 W2 W3]. split; [by rewrite length_alter | done |].
  intros i co Hco Hm. rewrite lookup_alter_case in Hco. case_decide; [|by apply W3].
  subst. apply fmap_Some in Hco as (co' & Hco' & ->). destruct (Hf co') as [E1 E2].
  rewrite E1 in *. rewrite E2. by apply W3.
Qed.

Lemma in_txn_cont s H txn c f :
  (forall co, c_mproc (f co) = c_mproc co /\ c_ptable (f co) = c_ptable co) ->
  in_txn g s H txn -> in_txn g (set_k_ctable (alter f c (k_ctable s)) s) H txn.
Proof.
  intros Hf [[Q1 Q2 Q3 Q4] A2 [L1 L2 L3 L4 L5 L6 L7 L8 L9] A4 A5]. split; try done.
  - split; try done. by apply tables_wf_alter.
  - by apply (cache_inv_ext s).
Qed.

Section scan.
Context (s : kst) (H : list nat) (txn : list Z) (b size : Z) (bp c : nat) (co : cont) (x : Z) (d : list Z).
Hypothesis Hin : in_txn g s (bp :: H) txn.
Hypothesis Hh : holds s bp x d.
Hypothesis Hd : block_ok d.
Hypothesis Hx : home g x.
Hypothesis Hc : k_ctable s !! c = Some co.

Lemma scan_body_used bi :
  bit_of d (Z.of_nat bi) = true ->
  (d <- bdata bp ;;
   if Z.land (lget d (Z.of_nat bi / 8)) (bitmask (Z.of_nat bi)) =? 0 then
     upd_data bp (mark (Z.of_nat bi)) ;; log_write bp ;; brelse bp ;;
     bzero 1 (b + Z.of_nat bi) ;;
     upd_cont c charge_block ;; ret (Some (b + Z.of_nat bi))
   else ret None) s = Ret None s.
Proof.
  intros Hb. rewrite (bind_Ret _ _ _ _ _ (bdata_eq s bp x d Hh)). by rewrite free_test, Hb.
Qed.

Lemma scan_none :
  (forall bi, 0 <= bi < Z.min BPB (size - b) -> bit_of d bi = true) ->
  balloc_scan 1 b size bp c s = Ret None s.
Proof.
  intros Hall. apply for_first_none. intros bi Hbi%elem_of_seq.
  apply scan_body_used. apply Hall. lia.
Qed.

(** The first clear bit is set, its block zeroed and charged. *)
Lemma scan_found bi :
  0 <= bi < Z.min BPB (size - b) -> bit_of d bi = false ->
  (forall bj, 0 <= bj < bi -> bit_of d bj = true) ->
  home g (b + bi) -> b + bi <> x -> (forall i e, i ∈ H -> ~ holds s i (b + bi) e) ->
  buf_room H txn 2 -> log_room g txn 2 ->
  exists s', balloc_scan 1 b size bp c s = Ret (Some (b + bi)) s' /\
    fs_frame (set_k_ctable (alter charge_block c (k_ctable s)) s) s' /\
    in_txn g s' H (log_add (b + bi) (log_add x txn)) /\
    (forall y, 0 <= y -> vblock s' y =
       if y =? b + bi then Some zeros else if y =? x then Some (mark bi d) else vblock s y) /\
    (forall i y e, i ∈ H -> holds s i y e -> holds s' i y e).
Proof.
  intros Hbi Hbit Hmin Ha Hax Hf Hbr Hlr.
  destruct (fs_commit_buf g s H txn bp x d (mark bi) Hin Hh (mark_ok bi d Hd) Hx)
    as (s1 & s2 & s3 & E1 & E2 & E3 & F3 & I3 & V3 & K3); [unfold log_room in *; lia|].
  destruct (bzero_spec s3 H (log_add x txn) (b + bi) I3 Ha) as (s4 & E4 & F4 & I4 & V4 & K4).
  { eapply (not_held_mono s s3 H (bp :: H)); [apply Hin | set_solver | done | done]. }
  { eapply buf_room_le; [exact Hbr|]. pose proof (length_log_add x txn). lia. }
  { by apply log_room_add; [|lia]. }
  assert (k_ctable s4 = k_ctable s) as Ec.
  { destruct (fs_frame_disk _ _ F3) as (_ & _ & E & _). destruct (fs_frame_disk _ _ F4) as (_ & _ & E' & _).
    congruence. }
  exists (set_k_ctable (alter charge_block c (k_ctable s4)) s4). split_and!.
  - unfold balloc_scan.
    replace (Z.to_nat (Z.min BPB (size - b)))
      with (Z.to_nat bi + S (Z.to_nat (Z.min BPB (size - b)) - S (Z.to_nat bi)))%nat by lia.
    rewrite seq_app. rewrite for_first_skip.
    2:{ intros k Hk%elem_of_seq. apply scan_body_used. apply Hmin. lia. }
    cbn [seq]. apply for_first_found. simpl Nat.add. cbv zeta. rewrite Z2Nat.id by lia.
    rewrite (bind_Ret _ _ _ _ _ (bdata_eq s bp x d Hh)), free_test, Hbit. cbn [negb].
    change (fun d0 => lput d0 (bi / 8) (Z.lor (lget d0 (bi / 8)) (bitmask bi))) with (mark bi).
    rewrite (bind_Ret _ _ _ _ _ E1), (bind_Ret _ _ _ _ _ E2), (bind_Ret _ _ _ _ _ E3).
    rewrite (bind_Ret _ _ _ _ _ E4).
    erewrite (bind_Ret (upd_cont _ _)) by (eapply upd_cont_eq; rewrite Ec; exact Hc).
    reflexivity.
  - destruct (fs_frame_trans _ _ _ F3 F4) as (E & O & C). split; [|done].
    rewrite Ec. exact (f_equal (set_k_ctable (alter charge_block c (k_ctable s))) E).
  - apply in_txn_cont; [done | exact I4].
  - intros y Hy. change (vblock _ y) with (vblock s4 y) at 1. by rewrite V4, V3.
  - intros i y e Hi He. apply K4; [done|]. by apply K3.
Qed.
End scan.

Lemma used_ext s s' a :
  fs_layout g s -> (forall y, 0 <= y -> vblock s' y = vblock s y) -> k_sb s' = k_sb s ->
  0 <= a < sb_size (k_sb s) -> used s' a = used s a.
Proof.
  intros Hl V E Ha. unfold used, vdata. rewrite E, V; [done|].
  destruct (fl_bmap _ _ Hl a Ha) as [? _]. lia.
Qed.

Lemma fs_layout_ext s s' :
  (forall y, 0 <= y -> vblock s' y = vblock s y) -> k_sb s' = k_sb s -> fs_layout g s -> fs_layout g s'.
Proof.
  intros V E Hl. split; rewrite ?E; [apply Hl | apply Hl |].
  intros a c Ha Hc Hu. apply (fl_free _ _ Hl); [done | done|]. by rewrite <- (used_ext s s').
Qed.

(** The bit of block [a] within its bitmap block. *)
Lemma used_bit s a i bi d :
  0 <= i -> 0 <= bi < BPB -> a = i * BPB + bi -> vblock s (i + sb_bmapstart (k_sb s)) = Some d ->
  used s a = bit_of d bi.
Proof.
  intros Hi Hbi -> Hd. unfold used.
  replace ((i * BPB + bi) / BPB) with i by (unfold BPB in *; zlia).
  replace ((i * BPB + bi) mod BPB) with bi by (unfold BPB in *; zlia).
  unfold vdata. by rewrite Hd.
Qed.

(** The view after allocating [a]. *)
Definition allocated (s s' : kst) (a : Z) : Prop :=
  forall y, 0 <= y -> vblock s' y =
    if y =? a then Some zeros
    else if y =? a / BPB + sb_bmapstart (k_sb s) then Some (mark (a mod BPB) (vdata s y))
    else vblock s y.

(** The block of the bitmap in which [balloc] finds a free bit. *)
Lemma balloc_hit s s1 H txn a c co bp d (j : nat) :
  in_txn g s H txn -> fs_layout g s -> k_ctable s !! c = Some co ->
  0 <= a < sb_size (k_sb s) -> used s a = false -> Z.of_nat j = a / BPB ->
  (forall a', Z.of_nat j * BPB <= a' < a -> used s a' = true) ->
  (forall i e, i ∈ H -> ~ holds s i a e) -> buf_room H txn 2 -> log_room g txn 2 ->
  let x := Z.of_nat j + sb_bmapstart (k_sb s) in
  only_bufs s s1 -> in_txn g s1 (bp :: H) txn -> vblock s x = Some d -> safe s1 bp x d ->
  same_view H s s1 -> home g x ->
  exists s2, balloc_scan 1 (Z.of_nat j * BPB) (sb_size (k_sb s)) bp c s1 = Ret (Some a) s2 /\
    fs_frame (set_k_ctable (alter charge_block c (k_ctable s)) s) s2 /\
    in_txn g s2 H (log_add a (log_add (a / BPB + sb_bmapstart (k_sb s)) txn)) /\
    allocated s s2 a /\ (forall i y e, i ∈ H -> holds s i y e -> holds s2 i y e).
Proof.
  intros Hin Hl Hc Ha Hu Ej Hmin Hnh Hbr Hlr x O1 I1 Vd S1 V1 Hx. set (b := Z.of_nat j * BPB).
  assert (0 <= b < sb_size (k_sb s)) as Hb by (unfold b, BPB in *; zlia).
  assert (b / BPB = Z.of_nat j) as Ebj by (unfold b, BPB; zlia).
  assert (block_ok d) as Hdok by (eapply vblock_block_ok; [apply Hin | exact Vd]).
  assert (forall bi, 0 <= bi < BPB -> used s (b + bi) = bit_of d bi) as Hbit.
  { intros bi Hbi. apply (used_bit s _ (Z.of_nat j)); [lia | done | done | done]. }
  assert (a = b + a mod BPB) as Eab by (unfold b; rewrite Ej; unfold BPB; zlia).
  assert (0 <= a mod BPB < BPB) as Hbi by (unfold BPB; zlia).
  destruct (fl_free _ _ Hl a b Ha Hb Hu) as [Hah Hax]. rewrite Ebj in Hax. fold x in Hax.
  destruct (scan_found s1 H txn b (sb_size (k_sb s)) bp c co x d I1 (proj1 S1) Hdok Hx
    ltac:(by rewrite O1) (a mod BPB)) as (s2 & E2 & F2 & I2 & V2 & K2).
  - rewrite Eab in Ha at 2. lia.
  - rewrite <- Hbit, <- Eab by done. done.
  - intros bj Hbj. rewrite <- Hbit by lia. apply Hmin. fold b. lia.
  - by rewrite <- Eab.
  - by rewrite <- Eab.
  - rewrite <- Eab. eapply (not_held_mono s s1 H H); [apply Hin | done | apply V1 | done].
  - done.
  - done.
  - rewrite <- Eab in *. replace x with (a / BPB + sb_bmapstart (k_sb s)) in I2 by (unfold x; lia).
    exists s2. split_and!; [exact E2 | | done | |].
    + destruct F2 as (F2 & F2'). split; [|rewrite O1 in F2'; exact F2'].
      rewrite F2. rewrite O1. done.
    + intros y Hy. rewrite V2, (sv_vblock _ _ _ V1) by done. rewrite <- Ej. fold x.
      case_match; [done|]. destruct (Z.eqb_spec y x) as [->|]; [|done].
      unfold vdata. by rewrite Vd.
    + intros i y e Hi He. apply K2; [done|]. by apply (sv_holds _ _ _ V1).
Qed.

Lemma balloc_loop s H txn a c co (j n : nat) :
  in_txn g s H txn -> fs_layout g s -> k_ctable s !! c = Some co ->
  0 <= a < sb_size (k_sb s) -> used s a = false ->
  (forall a', Z.of_nat j * BPB <= a' < a -> used s a' = true) ->
  Z.of_nat j <= a / BPB < Z.of_nat j + Z.of_nat n ->
  (forall i e x, i ∈ H -> (x = a \/ exists a', 0 <= a' < sb_size (k_sb s) /\ x = a' / BPB + sb_bmapstart (k_sb s)) ->
     ~ holds s i x e) ->
  buf_room H txn 2 -> log_room g txn 2 ->
  exists s', for_first (seq j n) (fun i =>
      let b := Z.of_nat i * BPB in
      bp <- bread 1 (BBLOCK b (k_sb s)) ;;
      r <- balloc_scan 1 b (sb_size (k_sb s)) bp c ;;
      match r with
      | Some a => ret (Some a)
      | None => brelse bp ;; ret None
      end) s = Ret (Some a) s' /\
    fs_frame (set_k_ctable (alter charge_block c (k_ctable s)) s) s' /\
    in_txn g s' H (log_add a (log_add (a / BPB + sb_bmapstart (k_sb s)) txn)) /\
    allocated s s' a /\ (forall i y e, i ∈ H -> holds s i y e -> holds s' i y e).
Proof.
  revert s j. induction n as [|n IH]; intros s j Hin Hl Hc Ha Hu Hmin Hj Hnh Hbr Hlr; [lia|].
  pose proof (la_geom _ _ _ (it_log _ _ _ _ Hin)) as Hg.
  cbn [seq]. set (b := Z.of_nat j * BPB).
  assert (0 <= b < sb_size (k_sb s)) as Hb by (unfold b, BPB in *; zlia).
  assert (b / BPB = Z.of_nat j) as Ebj by (unfold b, BPB; zlia).
  set (x := Z.of_nat j + sb_bmapstart (k_sb s)).
  assert (BBLOCK b (k_sb s) = x) as Ex by (by rewrite (BBLOCK_small g s b Hg Hl Hb), Ebj).
  assert (home g x) as Hx by (pose proof (fl_bmap _ _ Hl b Hb) as Hx; by rewrite Ebj in Hx).
  pose proof Hx as [Hxr _].
  destruct (fs_bread g s H txn x Hin Hxr) as (bp & s1 & d & E1 & O1 & I1 & Hbp & Vd & S1 & V1).
  { intros i e Hi. apply Hnh; [done|]. right. exists b. by rewrite Ebj. }
  { unfold buf_room in *. lia. }
  assert (block_ok d) as Hdok by (eapply vblock_block_ok; [apply Hin | exact Vd]).
  assert (forall bi, 0 <= bi < BPB -> used s (b + bi) = bit_of d bi) as Hbit.
  { intros bi Hbi. apply (used_bit s _ (Z.of_nat j)); [lia | done | done | done]. }
  destruct (decide (Z.of_nat j = a / BPB)) as [Ej|Ej].
  - clear IH. destruct (balloc_hit s s1 H txn a c co bp d j) as (s2 & E2 & R2); try done.
    { intros i e Hi. apply Hnh; [done | by left]. }
    exists s2. split; [|exact R2]. apply for_first_found. cbv zeta. fold b.
    rewrite Ex, (bind_Ret _ _ _ _ _ E1), (bind_Ret _ _ _ _ _ E2). done.
  - assert (b + BPB <= a) as Hab by (unfold b, BPB in *; zlia).
    assert (balloc_scan 1 b (sb_size (k_sb s)) bp c s1 = Ret None s1) as Esc.
    { apply (scan_none s1 b (sb_size (k_sb s)) bp c x d (proj1 S1)).
        intros bi Hbi. rewrite <- Hbit by lia. apply Hmin. fold b. lia. }
    destruct (fs_brelse g s1 H txn bp x d I1 S1) as (s2 & E2 & O2 & I2 & V2).
    erewrite for_first_next.
    2:{ cbv zeta. fold b. rewrite Ex, (bind_Ret _ _ _ _ _ E1), (bind_Ret _ _ _ _ _ Esc).
        rewrite (bind_Ret _ _ _ _ _ E2). reflexivity. }
    assert (only_bufs s s2) as O12 by (by eapply only_bufs_trans).
    assert (forall y, 0 <= y -> vblock s2 y = vblock s y) as V12
      by (intros y Hy; by rewrite (sv_vblock _ _ _ V2), (sv_vblock _ _ _ V1)).
    assert (forall i y e, i ∈ H -> holds s i y e -> holds s2 i y e) as K12
      by (intros i y e Hi He; apply (sv_holds _ _ _ V2); [done|]; by apply (sv_holds _ _ _ V1)).
    assert (k_sb s2 = k_sb s) as Esb by (by rewrite O12).
    destruct (IH s2 (S j)) as (s3 & E3 & F3 & I3 & A3 & K3); try done.
    + by eapply fs_layout_ext.
    + rewrite O12. done.
    + by rewrite Esb.
    + rewrite (used_ext s) by done. done.
    + intros a' Ha'. rewrite (used_ext s) by (done || unfold b, BPB in *; lia). apply Hmin. unfold BPB in *. lia.
    + lia.
    + intros i e y Hi Hy. rewrite Esb in Hy.
      eapply (not_held_mono s s2 H H y); [apply Hin | done | done | | done].
      intros i' e' Hi'. by apply Hnh.
    + rewrite Esb in *. exists s3. split_and!; [exact E3 | | done | |].
      * destruct F3 as (F3 & F3'). split; [|rewrite O12 in F3'; exact F3'].
        rewrite F3. rewrite O12. done.
      * intros y Hy. rewrite A3, Esb by done. unfold vdata. by rewrite V12.
      * intros i y e Hi He. apply K3; auto.
Qed.

(** The running process belongs to container [c]. *)
Definition runs_in (s : kst) (c : nat) (co : cont) : Prop :=
  exists p pr, k_cur s = Some p /\ k_ptable s !! p = Some pr /\ p_cont pr = Some c /\
    k_ctable s !! c = Some co.

Lemma mycont_runs s c co : runs_in s c co -> mycont s = Ret c s /\ get_cont c s = Ret co s.
Proof.
  intros (p & pr & H1 & H2 & H3 & H4). split; [by eapply mycont_eq | by apply get_cont_eq].
Qed.

(** The first free block. *)
Definition first_free (s : kst) (a : Z) : Prop :=
  0 <= a < sb_size (k_sb s) /\ used s a = false /\ forall a', 0 <= a' < a -> used s a' = true.

(** No held buffer is one the allocator needs. *)
Definition alloc_unheld (s : kst) (H : list nat) (a : Z) : Prop :=
  forall i e x, i ∈ H ->
    (x = a \/ exists a', 0 <= a' < sb_size (k_sb s) /\ x = a' / BPB + sb_bmapstart (k_sb s)) ->
    ~ holds s i x e.

Lemma balloc_spec s H txn c co a :
  in_txn g s H txn -> fs_layout g s -> runs_in s c co ->
  u32 (c_udsk co + BSIZE) <= c_mdsk co -> first_free s a -> alloc_unheld s H a ->
  buf_room H txn 2 -> log_room g txn 2 ->
  exists s', balloc 1 s = Ret a s' /\
    fs_frame (set_k_ctable (alter charge_block c (k_ctable s)) s) s' /\
    in_txn g s' H (log_add a (log_add (a / BPB + sb_bmapstart (k_sb s)) txn)) /\
    allocated s s' a /\ (forall i y e, i ∈ H -> holds s i y e -> holds s' i y e).
Proof.
  intros Hin Hl Hr Hlim (Ha & Hu & Hmin) Hnh Hbr Hlr. destruct (mycont_runs s c co Hr) as [Em Eg].
  destruct Hr as (p & pr & _ & _ & _ & Hc).
  destruct (balloc_loop s H txn a c co 0 (Z.to_nat ((sb_size (k_sb s) + BPB - 1) / BPB)))
    as (s' & E & F & I & A & K); try done.
  { unfold BPB in *. zlia. }
  exists s'. split_and!; try done. unfold balloc.
  rewrite (bind_Ret _ _ _ _ _ Em), (bind_Ret _ _ _ _ _ Eg), (proj2 (Z.ltb_ge _ _) Hlim).
  krun. by rewrite (bind_Ret _ _ _ _ _ E).
Qed.

(** At its disk limit the container is told to stop and gets block 0. *)
Lemma balloc_over s c co :
  runs_in s c co -> LCons ∉ k_held s -> LCtable ∉ k_held s -> c_mdsk co < u32 (c_udsk co + BSIZE) ->
  balloc 1 s = Ret 0 (set_k_ctable (alter (set_c_state CSTOPPING) c (k_ctable s))
    (set_k_klog (k_klog s ++
      [("Killing container %d for trying to allocate %d + %d disk space.",
        [c_cid co; c_udsk co; BSIZE])]) s)).
Proof.
  intros Hr Hl1 Hl2 Hlim. destruct (mycont_runs s c co Hr) as [Em Eg].
  destruct Hr as (p & pr & H1 & H2 & H3 & Hc). unfold balloc.
  rewrite (bind_Ret _ _ _ _ _ Em), (bind_Ret _ _ _ _ _ Eg), (proj2 (Z.ltb_lt _ _) Hlim).
  rewrite (bind_Ret _ _ _ _ _ Em), (bind_Ret _ _ _ _ _ Eg).
  rewrite (bind_Ret _ _ _ _ _ (cprintf_eq _ _ _ Hl1)).
  erewrite (bind_Ret mycont) by (by eapply mycont_eq).
  by erewrite (bind_Ret (ckill c)) by (by eapply ckill_eq).
Qed.

Lemma used_allocated s s' a a' :
  fs_layout g s -> k_sb s' = k_sb s -> allocated s s' a ->
  0 <= a < sb_size (k_sb s) -> used s a = false -> 0 <= a' < sb_size (k_sb s) ->
  zlen (vdata s (a / BPB + sb_bmapstart (k_sb s))) = BSIZE ->
  used s' a' = (a' =? a) || used s a'.
Proof.
  intros Hl Esb HA Ha Hu Ha' Hlen. unfold used at 1. rewrite Esb.
  destruct (fl_bmap _ _ Hl a' Ha') as [Hr _]. destruct (fl_free _ _ Hl a a' Ha Ha' Hu) as [_ Hne].
  unfold vdata at 1. rewrite HA by lia. rewrite (proj2 (Z.eqb_neq _ _)) by done.
  destruct (Z.eqb_spec (a' / BPB + sb_bmapstart (k_sb s)) (a / BPB + sb_bmapstart (k_sb s))) as [E|E].
  - simpl. rewrite E, bit_mark by (done || unfold BPB; zlia). unfold used. rewrite E. f_equal.
    destruct (Z.eqb_spec (a' mod BPB) (a mod BPB)), (Z.eqb_spec a' a); unfold BPB in *; zlia.
  - fold (vdata s (a' / BPB + sb_bmapstart (k_sb s))). fold (used s a').
    rewrite (proj2 (Z.eqb_neq a' a)) by (intros ->; done). done.
Qed.

Definition uncharge_block (co : cont) : cont :=
  if BSIZE <? c_udsk co then set_c_udsk (c_udsk co - BSIZE) co else co.

(** The superblock on disk is the one in memory. *)
Definition sb_current (s : kst) : Prop :=
  exists d, vblock s 1 = Some d /\ sb_of_bytes d = k_sb s.

Lemma readsb_spec s H txn d :
  in_txn g s H txn -> (forall i e, i ∈ H -> ~ holds s i 1 e) -> buf_room H txn 1 ->
  vblock s 1 = Some d ->
  exists s', readsb 1 s = Ret (sb_of_bytes d) s' /\ only_bufs s s' /\ in_txn g s' H txn /\ same_view H s s'.
Proof.
  intros Hin Hf Hr Hd. destruct (la_geom _ _ _ (it_log _ _ _ _ Hin)) as (G1 & G2 & G3 & G4).
  destruct (fs_bread g s H txn 1 Hin ltac:(lia) Hf Hr) as (b & s1 & d' & E1 & O1 & I1 & _ & Vd & S1 & V1).
  assert (d' = d) as -> by congruence. pose proof (proj1 S1) as (bf & Hb & _ & _ & Db).
  destruct (fs_brelse g s1 H txn b 1 d I1 S1) as (s2 & E2 & O2 & I2 & V2).
  exists s2. split_and!; [|by eapply only_bufs_trans | done | eapply same_view_trans; [|exact V1|exact V2]; done].
  unfold readsb. rewrite (bind_Ret _ _ _ _ _ E1), (bind_Ret _ _ _ _ _ (get_buf_eq _ _ _ Hb)), Db.
  cbv zeta. by rewrite (bind_Ret _ _ _ _ _ E2).
Qed.

Lemma alter_when (q : cont -> bool) f (c : nat) (ct : list cont) co :
  ct !! c = Some co ->
  (if q co then alter f c ct else ct) = alter (fun co => if q co then f co else co) c ct.
Proof.
  intros Hc. apply list_eq. intros j. rewrite lookup_alter_case.
  case_decide as E; [subst; rewrite Hc; simpl|].
  - destruct (q co); [by rewrite list_lookup_alter_eq, Hc | done].
  - destruct (q co); [by rewrite list_lookup_alter_ne | done].
Qed.

Lemma charge_frame s f c :
  (forall co, c_mproc (f co) = c_mproc co /\ c_ptable (f co) = c_ptable co) ->
  forall H txn, in_txn g s H txn -> fs_layout g s -> sb_current s ->
  let s1 := set_k_ctable (alter f c (k_ctable s)) s in
  in_txn g s1 H txn /\ fs_layout g s1 /\ sb_current s1.
Proof.
  intros Hf H txn Hin Hl Hsb. split_and!; [by apply in_txn_cont | by apply (fs_layout_ext s) | done].
Qed.

Lemma uncharge_eq s c co :
  runs_in s c co ->
  (c <- mycont ;; co <- get_cont c ;;
   when (BSIZE <? c_udsk co) (upd_cont c (fun co => set_c_udsk (c_udsk co - BSIZE) co))) s =
  Ret tt (set_k_ctable (alter uncharge_block c (k_ctable s)) s).
Proof.
  intros Hr. destruct (mycont_runs s c co Hr) as [Em Eg]. destruct Hr as (p & pr & _ & _ & _ & Hc).
  rewrite (bind_Ret _ _ _ _ _ Em), (bind_Ret _ _ _ _ _ Eg).
  unfold uncharge_block. rewrite <- (alter_when (fun co => BSIZE <? c_udsk co) _ c _ co Hc).
  destruct (BSIZE <? c_udsk co); [by eapply upd_cont_eq | done].
Qed.

(** [bfree] up to the test of the bit. *)
Lemma bfree_start s H txn c co a :
  in_txn g s H txn -> fs_layout g s -> sb_current s -> runs_in s c co ->
  0 <= a < sb_size (k_sb s) -> alloc_unheld s H 1 -> buf_room H txn 1 ->
  exists bp s1 d, let x := a / BPB + sb_bmapstart (k_sb s) in
    bfree 1 a s = (if bit_of d (a mod BPB) then
                     upd_data bp (unmark (a mod BPB)) ;; log_write bp ;; brelse bp
                   else panic "freeing free block") s1 /\
    only_bufs (set_k_ctable (alter uncharge_block c (k_ctable s)) s) s1 /\
    in_txn g s1 (bp :: H) txn /\ vblock s x = Some d /\ safe s1 bp x d /\ same_view H s s1.
Proof.
  intros Hin Hl Hsb Hr Ha Hnh Hbr. pose proof (la_geom _ _ _ (it_log _ _ _ _ Hin)) as Hg.
  set (s0 := set_k_ctable (alter uncharge_block c (k_ctable s)) s).
  destruct (charge_frame s uncharge_block c ltac:(intros co'; unfold uncharge_block; by case_match) H txn Hin Hl Hsb)
    as (I0 & L0 & (d1 & Hd1 & Esb)). fold s0 in I0, L0, Hd1, Esb.
  destruct (readsb_spec s0 H txn d1 I0) as (s1 & E1 & O1 & I1 & V1); [|done|done|].
  { intros i e Hi. apply Hnh; [done | by left]. }
  assert (k_sb s1 = k_sb s) as Esb1 by (by rewrite O1).
  set (x := a / BPB + sb_bmapstart (k_sb s)).
  destruct (fl_bmap _ _ Hl a Ha) as [Hxr _]. fold x in Hxr.
  destruct (fs_bread g s1 H txn x I1 Hxr) as (bp & s2 & d & E2 & O2 & I2 & _ & Vd & S2 & V2); [|done|].
  { eapply (not_held_mono s0 s1 H H); [apply I0 | done | apply V1 |].
    intros i e Hi. apply Hnh; [done|]. right. by exists a. }
  exists bp, s2, d. cbv zeta. fold x.
  assert (vblock s x = Some d) as Vd' by (rewrite <- Vd, (sv_vblock _ _ _ V1) by lia; done).
  split_and!; try done.
  - pose proof (uncharge_eq s c co Hr) as Eu. unfold bfree.
    destruct (mycont_runs s c co Hr) as [Em Eg].
    rewrite (bind_Ret _ _ _ _ _ Em), (bind_Ret _ _ _ _ _ Eg).
    rewrite (bind_Ret _ _ _ _ _ Em), (bind_Ret _ _ _ _ _ Eg) in Eu. rewrite (bind_Ret _ _ _ _ _ Eu).
    change (u32 1) with 1. fold s0. rewrite (bind_Ret _ _ _ _ _ E1). krun.
    assert (set_k_sb (sb_of_bytes d1) s1 = s1) as -> by (rewrite Esb; change (k_sb s0) with (k_sb s); by rewrite <- Esb1).
    rewrite Esb. change (k_sb s0) with (k_sb s). rewrite (BBLOCK_small g s a Hg Hl Ha).
    rewrite (bind_Ret _ _ _ _ _ E2). cbv zeta.
    rewrite (bind_Ret _ _ _ _ _ (bdata_eq s2 bp x d (proj1 S2))), free_test.
    by destruct (bit_of d (a mod BPB)).
  - by eapply only_bufs_trans.
  - eapply (same_view_trans H H s s0); [done | split; done |].
    eapply (same_view_trans H H); [done | exact V1 | exact V2].
Qed.

Lemma bfree_spec s H txn c co a :
  in_txn g s H txn -> fs_layout g s -> sb_current s -> runs_in s c co ->
  0 <= a < sb_size (k_sb s) -> used s a = true -> alloc_unheld s H 1 ->
  buf_room H txn 1 -> log_room g txn 1 ->
  exists s', bfree 1 a s = Ret tt s' /\
    fs_frame (set_k_ctable (alter uncharge_block c (k_ctable s)) s) s' /\
    in_txn g s' H (log_add (a / BPB + sb_bmapstart (k_sb s)) txn) /\
    (forall y, 0 <= y -> vblock s' y =
       if y =? a / BPB + sb_bmapstart (k_sb s) then Some (unmark (a mod BPB) (vdata s y)) else vblock s y) /\
    (forall i y e, i ∈ H -> holds s i y e -> holds s' i y e).
Proof.
  intros Hin Hl Hsb Hr Ha Hu Hnh Hbr Hlr.
  destruct (bfree_start s H txn c co a Hin Hl Hsb Hr Ha Hnh Hbr) as (bp & s1 & d & E1 & O1 & I1 & Vd & S1 & V1).
  assert (block_ok d) as Hd by (eapply vblock_block_ok; [apply Hin | exact Vd]).
  assert (bit_of d (a mod BPB) = true) as Hbit by (unfold used, vdata in Hu; by rewrite Vd in Hu).
  destruct (fs_commit_buf g s1 H txn bp _ d (unmark (a mod BPB)) I1 (proj1 S1) (unmark_ok _ d Hd)
    (fl_bmap _ _ Hl a Ha) Hlr) as (s2 & s3 & s4 & E2 & E3 & E4 & F4 & I4 & V4 & K4).
  exists s4. split_and!; try done.
  - rewrite E1, Hbit. by rewrite (bind_Ret _ _ _ _ _ E2), (bind_Ret _ _ _ _ _ E3).
  - eapply fs_frame_trans; [by apply fs_frame_bufs | done].
  - intros y Hy. rewrite V4 by done. destruct (Z.eqb_spec y (a / BPB + sb_bmapstart (k_sb s))) as [->|].
    + unfold vdata. by rewrite Vd.
    + by apply (sv_vblock _ _ _ V1).
  - intros i y e Hi He. apply K4; [done|]. by apply (sv_holds _ _ _ V1).
Qed.
End alloc.

(** ** The allocator's contract *)

Section contract.
Context (g : geom).

Lemma bitmap_len s H txn a :
  in_txn g s H txn -> fs_layout g s -> 0 <= a < sb_size (k_sb s) ->
  zlen (vdata s (a / BPB + sb_bmapstart (k_sb s))) = BSIZE.
Proof.
  intros Hin Hl Ha. destruct (fl_bmap _ _ Hl a Ha) as [Hr _].
  destruct (vblock_some s H (a / BPB + sb_bmapstart (k_sb s)) (it_cache _ _ _ _ Hin)) as [d Hd].
  - by rewrite (la_total _ _ _ (it_log _ _ _ _ Hin)).
  - unfold vdata. rewrite Hd. simpl. apply (vblock_block_ok s H _ d (it_cache _ _ _ _ Hin) Hd).
Qed.

(** The bits after clearing that of [a]. *)
Lemma used_freed s s' a a' :
  fs_layout g s -> k_sb s' = k_sb s -> 0 <= a < sb_size (k_sb s) -> 0 <= a' < sb_size (k_sb s) ->
  zlen (vdata s (a / BPB + sb_bmapstart (k_sb s))) = BSIZE ->
  (forall y, 0 <= y -> vblock s' y =
     if y =? a / BPB + sb_bmapstart (k_sb s) then Some (unmark (a mod BPB) (vdata s y)) else vblock s y) ->
  used s' a' = negb (a' =? a) && used s a'.
Proof.
  intros Hl Es Ha Ha' Hlen V. destruct (fl_bmap _ _ Hl a' Ha') as [Hr _].
  unfold used at 1, vdata at 1. rewrite Es, V by lia.
  destruct (Z.eqb_spec (a' / BPB + sb_bmapstart (k_sb s)) (a / BPB + sb_bmapstart (k_sb s))) as [E|E].
  - simpl. rewrite E, bit_unmark by (try done; unfold BPB; zlia). unfold used. rewrite E.
    destruct (Z.eqb_spec (a' mod BPB) (a mod BPB)), (Z.eqb_spec a' a); try done; unfold BPB in *; zlia.
  - fold (vdata s (a' / BPB + sb_bmapstart (k_sb s))). fold (used s a').
    destruct (Z.eqb_spec a' a) as [->|]; done.
Qed.

(** C35: below its disk limit a container gets the first free block: [balloc]
    returns it marked in use and zeroed, charged [BSIZE] to the container, every
    other block keeping its bit and (bitmap apart) its content; both changes are
    in the running transaction, nothing having reached the disk. *)
Theorem balloc_correct s H txn c co a :
  in_txn g s H txn -> fs_layout g s -> runs_in s c co ->
  u32 (c_udsk co + BSIZE) <= c_mdsk co -> first_free s a -> alloc_unheld s H a ->
  buf_room H txn 2 -> log_room g txn 2 ->
  let x := a / BPB + sb_bmapstart (k_sb s) in
  exists s', balloc 1 s = Ret a s' /\
    in_txn g s' H (log_add a (log_add x txn)) /\ k_disk s' = k_disk s /\
    vblock s' a = Some zeros /\
    (forall a', 0 <= a' < sb_size (k_sb s) -> used s' a' = (a' =? a) || used s a') /\
    (forall y, 0 <= y -> y <> a -> y <> x -> vblock s' y = vblock s y) /\
    k_ctable s' = alter charge_block c (k_ctable s).
Proof.
  intros Hin Hl Hr Hu Hf Hh Hb Hg x. pose proof Hf as (Ha & Hfree & _).
  destruct (balloc_spec g s H txn c co a Hin Hl Hr Hu Hf Hh Hb Hg) as (s' & E & F & I & A & K).
  pose proof (fs_frame_disk _ _ F) as (D & Sb & Ct & _).
  destruct (fl_free g s Hl a a Ha Ha Hfree) as [_ Hne].
  exists s'. split_and!; try done.
  - by rewrite (A a), Z.eqb_refl by lia.
  - intros a' Ha'. eapply (used_allocated g); try done.
    by apply (bitmap_len s H txn).
  - intros y Hy N1 N2. rewrite (A y Hy). repeat case_match; lia || done.
Qed.

(** At its disk limit a container gets no block: [balloc] returns 0, reports
    the container on the console and marks it CSTOPPING, whatever blocks are free. *)
Theorem balloc_limit s c co :
  runs_in s c co -> LCons ∉ k_held s -> LCtable ∉ k_held s -> c_mdsk co < u32 (c_udsk co + BSIZE) ->
  exists s', balloc 1 s = Ret 0 s' /\
    k_ctable s' = alter (set_c_state CSTOPPING) c (k_ctable s) /\
    k_bufs s' = k_bufs s /\ k_disk s' = k_disk s /\ k_log s' = k_log s /\ k_held s' = k_held s /\
    k_klog s' = k_klog s ++ [("Killing container %d for trying to allocate %d + %d disk space.",
      [c_cid co; c_udsk co; BSIZE])].
Proof. intros Hr H1 H2 Hl. rewrite (balloc_over s c co Hr H1 H2 Hl). by eexists. Qed.

(** [bfree] of a block in use clears its bit and no other, changes nothing
    but the bitmap (in the running transaction), and credits the container unless
    it is down to its last block; a free block is refused by a panic. *)
Theorem bfree_correct s H txn c co a :
  in_txn g s H txn -> fs_layout g s -> sb_current s -> runs_in s c co ->
  0 <= a < sb_size (k_sb s) -> alloc_unheld s H 1 -> buf_room H txn 1 -> log_room g txn 1 ->
  let x := a / BPB + sb_bmapstart (k_sb s) in
  if used s a then
    exists s', bfree 1 a s = Ret tt s' /\ in_txn g s' H (log_add x txn) /\ k_disk s' = k_disk s /\
      (forall a', 0 <= a' < sb_size (k_sb s) -> used s' a' = negb (a' =? a) && used s a') /\
      (forall y, 0 <= y -> y <> x -> vblock s' y = vblock s y) /\
      k_ctable s' = alter uncharge_block c (k_ctable s)
  else exists s', bfree 1 a s = Panic "freeing free block" s'.
Proof.
  intros Hin Hl Hsb Hr Ha Hnh Hbr Hlr x. destruct (used s a) eqn:Hu.
  - destruct (bfree_spec g s H txn c co a Hin Hl Hsb Hr Ha Hu Hnh Hbr Hlr) as (s' & E & F & I & V & K).
    pose proof (fs_frame_disk _ _ F) as (D & Sb & Ct & _). exists s'. split_and!; try done.
    + intros a' Ha'. apply used_freed; try done. by apply (bitmap_len s H txn).
    + intros y Hy N. rewrite V by done. case_match; lia || done.
  - destruct (bfree_start g s H txn c co a Hin Hl Hsb Hr Ha Hnh Hbr) as (bp & s1 & d & E1 & _ & _ & Vd & _).
    exists s1. rewrite E1. unfold used, vdata in Hu. rewrite Vd in Hu. simpl in Hu. by rewrite Hu.
Qed.

(** Freeing a container's only block leaves it charged for it: the test of
    [bfree] is [udsk > BSIZE]. *)
Lemma bfree_last_block s H txn c co a :
  in_txn g s H txn -> fs_layout g s -> sb_current s -> runs_in s c co ->
  0 <= a < sb_size (k_sb s) -> used s a = true -> alloc_unheld s H 1 ->
  buf_room H txn 1 -> log_room g txn 1 -> c_udsk co = BSIZE ->
  exists s' co', bfree 1 a s = Ret tt s' /\ k_ctable s' !! c = Some co' /\ c_udsk co' = BSIZE.
Proof.
  intros Hin Hl Hsb Hr Ha Hu Hnh Hbr Hlr Hc.
  destruct (bfree_spec g s H txn c co a Hin Hl Hsb Hr Ha Hu Hnh Hbr Hlr) as (s' & E & F & _).
  pose proof (fs_frame_disk _ _ F) as (_ & _ & Ct & _). destruct Hr as (p & pr & _ & _ & _ & Hco).
  exists s', co. split_and!; try done. rewrite Ct. simpl. rewrite list_lookup_alter_eq, Hco. simpl.
  unfold uncharge_block. by rewrite Hc.
Qed.
End contract.

(** ** Example: a file system of twenty blocks

    Block 1 is the superblock, 2 to 11 the log, 12 the inodes, 13 the bitmap;
    blocks 14 and 15 are in use, 16 to 19 free. *)

Definition dfs_geom : geom := {| g_start := 2; g_size := 10; g_total := 20 |}.
Definition dfs_sb : superblock := mkSuperblock 20 6 8 10 2 12 13.
Definition dfs_sbdata : list Z :=
  lst32 (lst32 (lst32 (lst32 (lst32 (lst32 (lst32 (replicate 512 0) 0 20) 4 6) 8 8) 12 10) 16 2) 20 12) 24 13.
Definition dfs_bitmap : list Z := 255 :: 255 :: replicate 510 0.
Definition dfs_disk : disk :=
  <[1%nat := dfs_sbdata]> (<[13%nat := dfs_bitmap]> (replicate 20 (replicate 512 0))).
Definition dfs : kst :=
  set_k_sb dfs_sb (set_k_log (mkLog 2 10 1 false 1 0 (replicate 30 0))
    (set_k_disk dfs_disk (set_k_bufs bcache_init boot_state))).

Lemma dfs_pins D x : ~ pinned (set_k_disk D dfs) x.
Proof. intros (i & bf & (n & p & ->)%bcache_init_at & H & _). done. Qed.

Lemma dfs_in_txn D : Forall block_ok D -> zlen D = 20 -> in_txn dfs_geom (set_k_disk D dfs) [] [].
Proof.
  intros HD Hn. assert (geom_ok dfs_geom) by (unfold geom_ok; simpl; lia). split.
  - apply (quiet_ext boot_state); try reflexivity. apply boot_quiet.
  - eapply (cache_inv_ext (set_k_bufs bcache_init (set_k_disk D boot_state))); try done.
    by apply bcache_init_inv.
  - split; try reflexivity; [done | exact Hn | done | by apply txn_nil_ok].
  - intros y. split; [intros Hy; by apply dfs_pins in Hy | intros Hy; by apply not_elem_of_nil in Hy].
  - done.
Qed.

Lemma dfs_vblock D x : 0 <= x -> vblock (set_k_disk D dfs) x = dblock D x.
Proof.
  intros Hx. rewrite vblock_none; [done|]. by intros i bf (n & p & ->)%bcache_init_at.
Qed.

Lemma dfs_disk_ok : Forall block_ok dfs_disk.
Proof. apply block_okb_disk. by vm_compute. Qed.

Lemma dfs_txn : in_txn dfs_geom dfs [] [].
Proof. apply (dfs_in_txn dfs_disk); [apply dfs_disk_ok | done]. Qed.

Lemma dfs_used a : 0 <= a < 20 -> used dfs a = (a <? 16).
Proof.
  intros Ha. assert (forall n : nat, (n < 20)%nat -> used dfs (Z.of_nat n) = (Z.of_nat n <? 16)) as Hall.
  { do 20 (intros [|n]; [intros _; by vm_compute | revert n]). lia. }
  rewrite <- (Z2Nat.id a) by lia. apply Hall. lia.
Qed.

Lemma dfs_layout : fs_layout dfs_geom dfs.
Proof.
  split; simpl.
  - lia.
  - intros a Ha. unfold home, in_log. simpl. unfold BPB. zlia.
  - intros a c Ha Hc. rewrite dfs_used by done. intros Hu%Z.ltb_ge. unfold home, in_log. simpl.
    unfold BPB. zlia.
Qed.

Lemma dfs_runs : runs_in dfs 0 boot_cont.
Proof. exists 0%nat, boot_proc. done. Qed.

Lemma unheld_nil s a : alloc_unheld s [] a.
Proof. intros i e x Hi. by apply not_elem_of_nil in Hi. Qed.

Lemma balloc_correct_witness : exists s', balloc 1 dfs = Ret 16 s' /\ used s' 16 = true.
Proof.
  destruct (balloc_correct dfs_geom dfs [] [] 0 boot_cont 16 dfs_txn dfs_layout dfs_runs)
    as (s' & E & _ & _ & _ & H & _).
  - by vm_compute.
  - split_and!; [done | done | by apply dfs_used |]. intros a' Ha'. rewrite dfs_used by lia. lia.
  - apply unheld_nil.
  - unfold buf_room. simpl. unfold NBUF. lia.
  - done.
  - exists s'. split; [exact E|]. by apply H.
Defined.

Definition dfs_full : kst := set_k_ctable (alter (set_c_udsk MAX_CONT_DSK) 0%nat (k_ctable dfs)) dfs.

Lemma balloc_limit_witness :
  exists s', balloc 1 dfs_full = Ret 0 s' /\
    (c_state <$> k_ctable s' !! 0%nat) = Some CSTOPPING.
Proof.
  destruct (balloc_limit dfs_full 0 (set_c_udsk MAX_CONT_DSK boot_cont)) as (s' & E & H & _).
  - exists 0%nat, boot_proc. done.
  - apply not_elem_of_nil.
  - apply not_elem_of_nil.
  - by vm_compute.
  - exists s'. split; [exact E|]. rewrite H. reflexivity.
Defined.

Lemma bfree_correct_witness :
  (exists s', bfree 1 15 dfs = Ret tt s' /\ used s' 15 = false /\ used s' 14 = true) /\
  exists s', bfree 1 16 dfs = Panic "freeing free block" s'.
Proof.
  assert (sb_current dfs) as Hsb.
  { exists dfs_sbdata. split; [apply (dfs_vblock dfs_disk); lia | by vm_compute]. }
  assert (buf_room [] [] 1) as Hb by (unfold buf_room, NBUF; simpl; lia).
  assert (log_room dfs_geom [] 1) as Hl by done.
  pose proof (fun a Ha => bfree_correct dfs_geom dfs [] [] 0 boot_cont a dfs_txn dfs_layout Hsb dfs_runs Ha
    (unheld_nil _ _) Hb Hl) as B.
  split.
  - pose proof (B 15 ltac:(simpl; lia)) as H. cbv zeta in H. rewrite dfs_used in H by lia. simpl in H.
    destruct H as (s' & E & _ & _ & H & _). exists s'. split; [exact E|].
    rewrite !H by (simpl; lia). rewrite !dfs_used by lia. done.
  - pose proof (B 16 ltac:(simpl; lia)) as H. cbv zeta in H. rewrite dfs_used in H by lia. exact H.
Defined.
