(* ===== verification/Inode.v ===== *)
(** * Inodes and their content

    The properties of the inode layer of Fs.v: the encoding of inodes on disk and
    its round trip through [iupdate] and [ilock], the reference counts of the inode
    cache, and [readi] and [writei] against the sequence of bytes an inode stands
    for. *)

From S2P Require Import Prelude Monad KState Sched Bio Log Fs.

Local Open Scope kernel_scope.

(** ** Inodes on disk *)

Record inode_ok (ip : inode) : Prop := {
  io_type : -32768 <= i_type ip < 32768;
  io_major : -32768 <= i_major ip < 32768;
  io_minor : -32768 <= i_minor ip < 32768;
  io_nlink : -32768 <= i_nlink ip < 32768;
  io_size : 0 <= i_size ip < 4294967296;
  io_addrs : length (i_addrs ip) = S NDIRECT /\ Forall (fun a => 0 <= a < 4294967296) (i_addrs ip)
}.

Lemma i16_u16 x : -32768 <= x < 32768 -> i16 (u16 x) = x.
Proof. zlia. Qed.

Lemma length_put_addrs d o l : length (put_addrs d o l) = length d.
Proof.
  revert d o. induction l as [|a l IH]; intros d o; simpl; [done|]. by rewrite IH, length_lst32.
Qed.

Lemma lget_put_addrs d o l j :
  0 <= o -> 0 <= j -> j < o \/ o + 4 * zlen l <= j -> lget (put_addrs d o l) j = lget d j.
Proof.
  unfold zlen. revert d o. induction l as [|a l IH]; intros d o Ho Hj Hr; simpl in *; [done|].
  rewrite IH by lia. apply lget_lst32_ne; lia.
Qed.

Lemma lld32_put_addrs d o l k a :
  0 <= o -> o + 4 * zlen l <= zlen d -> l !! k = Some a ->
  lld32 (put_addrs d o l) (o + 4 * Z.of_nat k) = u32 a.
Proof.
  unfold zlen. revert d o k. induction l as [|b l IH]; intros d o k Ho Hl Hk; [done|].
  simpl length in Hl. simpl put_addrs. destruct k as [|k]; simpl in Hk.
  - injection Hk as ->. unfold lld32 at 1.
    rewrite !lget_put_addrs by (unfold zlen; lia). replace (o + 4 * Z.of_nat 0) with o by lia.
    apply (lld32_lst32 d o a); unfold zlen; lia.
  - replace (o + 4 * Z.of_nat (S k)) with (o + 4 + 4 * Z.of_nat k) by lia.
    apply IH; [lia | rewrite length_lst32; lia | done].
Qed.

(** Bytes outside the 64 of the inode are untouched. *)
Lemma lget_enc_dinode ip o d j :
  inode_ok ip -> 0 <= o -> 0 <= j -> j < o \/ o + 64 <= j -> lget (enc_dinode ip o d) j = lget d j.
Proof.
  intros [_ _ _ _ _ [Hl _]] Ho Hj Hr. unfold enc_dinode. cbv zeta.
  rewrite lget_put_addrs by (unfold zlen, NDIRECT in *; lia).
  rewrite lget_lst32_ne by lia. rewrite !lget_lst16_ne by lia. done.
Qed.

Lemma length_enc_dinode ip o d : length (enc_dinode ip o d) = length d.
Proof. unfold enc_dinode. cbv zeta. by rewrite length_put_addrs, length_lst32, !length_lst16. Qed.

Lemma put_addrs_ok d o l : block_ok d -> block_ok (put_addrs d o l).
Proof. revert d o. induction l as [|a l IH]; intros d o H; simpl; auto using lst32_ok. Qed.

Lemma lst16_ok d i v : block_ok d -> block_ok (lst16 d i v).
Proof. intros H. unfold lst16. auto using lput_ok. Qed.

Lemma enc_dinode_ok ip o d : block_ok d -> block_ok (enc_dinode ip o d).
Proof. intros H. unfold enc_dinode. cbv zeta. auto 10 using put_addrs_ok, lst32_ok, lst16_ok. Qed.

Lemma lld16_put_addrs d o l j :
  0 <= o -> 0 <= j -> j + 2 <= o -> lld16 (put_addrs d o l) j = lld16 d j.
Proof. intros. unfold lld16. rewrite !lget_put_addrs by lia. done. Qed.

Lemma lld16_lst32_ne d o v j : 0 <= o -> 0 <= j -> j + 2 <= o -> lld16 (lst32 d o v) j = lld16 d j.
Proof. intros. unfold lld16. rewrite !lget_lst32_ne by lia. done. Qed.

Lemma lld16_lst16_ne d o v j :
  0 <= o -> 0 <= j -> j + 2 <= o \/ o + 2 <= j -> lld16 (lst16 d o v) j = lld16 d j.
Proof. intros. unfold lld16. rewrite !lget_lst16_ne by lia. done. Qed.

(** Reading back an encoded inode. *)
Lemma dec_enc_dinode ip o d ip' :
  inode_ok ip -> 0 <= o -> o + 64 <= zlen d ->
  dec_dinode (enc_dinode ip o d) o ip' =
  set_i_addrs (i_addrs ip) (set_i_size (i_size ip) (set_i_nlink (i_nlink ip)
    (set_i_minor (i_minor ip) (set_i_major (i_major ip) (set_i_type (i_type ip) ip'))))).
Proof.
  intros [T1 T2 T3 T4 T5 [T6 T7]] Ho Hl.
  assert (forall k a, i_addrs ip !! k = Some a ->
    lld32 (enc_dinode ip o d) (o + 12 + 4 * Z.of_nat k) = a) as Ha.
  { intros k a Hk. unfold enc_dinode. cbv zeta. rewrite (lld32_put_addrs _ _ _ k a); [|lia| |done].
    - apply u32_small. apply (Forall_lookup_1 _ _ _ _ T7 Hk).
    - unfold zlen in *. rewrite length_lst32, !length_lst16, T6. unfold NDIRECT. lia. }
  unfold dec_dinode. f_equal.
  - unfold dip_addrs. apply list_eq. intros k. rewrite list_lookup_fmap.
    destruct (i_addrs ip !! k) as [a|] eqn:Ek.
    + rewrite lookup_seq_lt by (apply lookup_lt_Some in Ek; lia). simpl. f_equal. by apply Ha.
    + rewrite lookup_seq_ge by (apply lookup_ge_None in Ek; lia). done.
  - unfold dip_type, enc_dinode. cbv zeta.
    assert (forall j, 0 <= j -> j + 2 <= o + 8 -> forall d', lld16 (put_addrs (lst32 d' (o + 8) (i_size ip)) (o + 12) (i_addrs ip)) j = lld16 d' j) as Hlow.
    { intros j Hj Hj' d'. rewrite lld16_put_addrs, lld16_lst32_ne by lia. done. }
    rewrite !Hlow by lia.
    assert (lld32 (put_addrs (lst32 (lst16 (lst16 (lst16 (lst16 d o (i_type ip)) (o + 2) (i_major ip)) (o + 4) (i_minor ip)) (o + 6) (i_nlink ip)) (o + 8) (i_size ip)) (o + 12) (i_addrs ip)) (o + 8) = i_size ip) as ->.
    { unfold lld32 at 1. rewrite !lget_put_addrs by lia.
      rewrite <- (u32_small (i_size ip)) at 5 by done. apply lld32_lst32; [lia|].
      unfold zlen in *. rewrite !length_lst16. lia. }
    rewrite (lld16_lst16_ne _ (o + 6) _ (o + 4)), (lld16_lst16_ne _ (o + 6) _ (o + 2)),
      (lld16_lst16_ne _ (o + 6) _ o), (lld16_lst16_ne _ (o + 4) _ (o + 2)),
      (lld16_lst16_ne _ (o + 4) _ o), (lld16_lst16_ne _ (o + 2) _ o) by lia.
    rewrite !lld16_lst16 by (unfold zlen in *; rewrite ?length_lst16; lia).
    by rewrite !i16_u16.
Qed.

(** Another inode of the same block reads the same. *)
Lemma dec_enc_other ip o o' d ip' :
  inode_ok ip -> 0 <= o -> 0 <= o' -> o' + 64 <= o \/ o + 64 <= o' ->
  dec_dinode (enc_dinode ip o d) o' ip' = dec_dinode d o' ip'.
Proof.
  intros Hok Ho Ho' Hr.
  assert (forall j, o' <= j < o' + 64 -> lget (enc_dinode ip o d) j = lget d j) as Hg
    by (intros j Hj; apply lget_enc_dinode; [done | lia..]).
  assert (forall j, o' <= j -> j + 2 <= o' + 64 -> lld16 (enc_dinode ip o d) j = lld16 d j) as H16
    by (intros j Hj1 Hj2; unfold lld16; rewrite !Hg by lia; done).
  assert (forall j, o' <= j -> j + 4 <= o' + 64 -> lld32 (enc_dinode ip o d) j = lld32 d j) as H32
    by (intros j Hj1 Hj2; unfold lld32; rewrite !Hg by lia; done).
  unfold dec_dinode, dip_type. rewrite !H16, H32 by lia. f_equal.
  unfold dip_addrs. apply list_fmap_ext. intros k x Hk.
  pose proof (lookup_lt_Some _ _ _ Hk) as Hlt. rewrite length_seq in Hlt.
  rewrite lookup_seq_lt in Hk by done. injection Hk as <-. apply H32; unfold NDIRECT in *; lia.
Qed.

Lemma dinode_off_range inum : 0 <= dinode_off inum /\ dinode_off inum + 64 <= BSIZE.
Proof. unfold dinode_off, IPB, BSIZE. zlia. Qed.

Lemma dinode_off_disjoint i j :
  i mod IPB <> j mod IPB -> dinode_off j + 64 <= dinode_off i \/ dinode_off i + 64 <= dinode_off j.
Proof. unfold dinode_off, IPB. intros H. zlia. Qed.

(** The field values of [ip] in the in-core inode [ip']. *)
Definition with_fields (ip ip' : inode) : inode :=
  set_i_addrs (i_addrs ip) (set_i_size (i_size ip) (set_i_nlink (i_nlink ip)
    (set_i_minor (i_minor ip) (set_i_major (i_major ip) (set_i_type (i_type ip) ip'))))).

Lemma get_inode_eq i ip s : k_icache s !! i = Some ip -> get_inode i s = Ret ip s.
Proof. intros E. unfold get_inode. krun. by rewrite E. Qed.

Lemma upd_inode_eq i ip f s :
  k_icache s !! i = Some ip -> upd_inode i f s = Ret tt (set_k_icache (alter f i (k_icache s)) s).
Proof. intros E. unfold upd_inode. by rewrite (bind_Ret _ _ _ _ _ (get_inode_eq _ _ _ E)). Qed.

Lemma alter_insert_at {A} (f : A -> A) (l : list A) i x :
  l !! i = Some x -> alter f i l = <[i := f x]> l.
Proof.
  intros H. apply list_eq. intros j. destruct (decide (i = j)) as [<-|N].
  - rewrite list_lookup_alter_eq, H, list_lookup_insert_eq by (by eapply lookup_lt_Some). done.
  - by rewrite list_lookup_alter_ne, list_lookup_insert_ne.
Qed.

(** The block and the content of an inode on disk. *)
Definition iblock (s : kst) (inum : Z) : Z := inum / IPB + sb_inodestart (k_sb s).
Definition dinode_at (s : kst) (inum : Z) (ip : inode) : inode :=
  dec_dinode (vdata s (iblock s inum)) (dinode_off inum) ip.

Lemma in_txn_icache g s H txn ic : in_txn g s H txn -> in_txn g (set_k_icache ic s) H txn.
Proof.
  intros [[Q1 Q2 Q3 Q4] A2 [L1 L2 L3 L4 L5 L6 L7 L8 L9] A4 A5]. split; try done.
  by apply (cache_inv_ext s).
Qed.

Section inode_io.
Context (g : geom).

Lemma IBLOCK_small s inum :
  geom_ok g -> 0 <= iblock s inum < g_total g -> IBLOCK inum (k_sb s) = iblock s inum.
Proof. intros (_ & _ & _ & G4) H. unfold IBLOCK. apply u32_small. unfold iblock in *. lia. Qed.

Lemma iupdate_spec s txn i ip :
  in_txn g s [] txn -> k_icache s !! i = Some ip -> i_dev ip = 1 -> home g (iblock s (i_inum ip)) ->
  buf_room [] txn 1 -> log_room g txn 1 ->
  let x := iblock s (i_inum ip) in
  exists s', iupdate i s = Ret tt s' /\ fs_frame s s' /\ in_txn g s' [] (log_add x txn) /\
    (forall y, 0 <= y -> vblock s' y =
       if y =? x then Some (enc_dinode ip (dinode_off (i_inum ip)) (vdata s x)) else vblock s y).
Proof.
  intros Hin Hip Hdev Hx Hb Hl x. pose proof Hx as [Hr _].
  pose proof (la_geom _ _ _ (it_log _ _ _ _ Hin)) as Hg.
  destruct (fs_bread g s [] txn x Hin Hr) as (b & s1 & d & E1 & O1 & I1 & _ & Vd & S1 & V1);
    [by intros ? ? ?%not_elem_of_nil | done |].
  assert (block_ok d) as Hd by (eapply vblock_block_ok; [apply Hin | exact Vd]).
  destruct (fs_commit_buf g s1 [] txn b x d (enc_dinode ip (dinode_off (i_inum ip))) I1 (proj1 S1)
    (enc_dinode_ok _ _ _ Hd) Hx Hl) as (s2 & s3 & s4 & E2 & E3 & E4 & F4 & I4 & V4 & _).
  exists s4. split_and!; [| by eapply fs_frame_trans; [apply fs_frame_bufs|] | done |].
  - unfold iupdate. rewrite (bind_Ret _ _ _ _ _ (get_inode_eq _ _ _ Hip)). krun.
    rewrite Hdev, (IBLOCK_small s _ Hg Hr). fold x. rewrite (bind_Ret _ _ _ _ _ E1).
    rewrite (bind_Ret _ _ _ _ _ (get_inode_eq i ip s1 ltac:(by rewrite O1))).
    by rewrite (bind_Ret _ _ _ _ _ E2), (bind_Ret _ _ _ _ _ E3).
  - intros y Hy. rewrite V4 by done. unfold vdata. rewrite Vd. simpl.
    case_match; [done | by apply V1].
Qed.

(** [ilock] of an unlocked entry not yet read from disk. *)
Lemma ilock_spec s txn i ip :
  in_txn g s [] txn -> k_icache s !! i = Some ip -> 1 <= i_ref ip -> sl_locked (i_lock ip) = false ->
  i_valid ip = false -> i_dev ip = 1 -> 0 <= iblock s (i_inum ip) < g_total g -> buf_room [] txn 1 ->
  let ip' := set_i_valid true (dinode_at s (i_inum ip) (set_i_lock (mkSleeplock true (mypid s)) ip)) in
  i_type ip' <> 0 ->
  exists s' bufs, ilock (Some i) s = Ret tt s' /\
    s' = set_k_bufs bufs (set_k_icache (<[i := ip']> (k_icache s)) s) /\
    in_txn g s' [] txn /\ (forall y, 0 <= y -> vblock s' y = vblock s y).
Proof.
  intros Hin Hip Href Hlk Hval Hdev Hx Hb ip' Ht.
  pose proof (la_geom _ _ _ (it_log _ _ _ _ Hin)) as Hg.
  set (lk := set_i_lock (mkSleeplock true (mypid s))).
  set (s0 := set_k_icache (alter lk i (k_icache s)) s).
  assert (in_txn g s0 [] txn) as Hin0 by (by apply in_txn_icache).
  assert (k_icache s0 !! i = Some (lk ip)) as Hip0 by (simpl; by rewrite list_lookup_alter_eq, Hip).
  destruct (fs_bread g s0 [] txn (iblock s (i_inum ip)) Hin0 Hx) as (b & s1 & d & E1 & O1 & I1 & _ & Vd & S1 & V1);
    [by intros ? ? ?%not_elem_of_nil | done |].
  change (vblock s (iblock s (i_inum ip)) = Some d) in Vd.
  set (dec := dec_dinode d (dinode_off (i_inum ip))).
  set (s1' := set_k_icache (alter dec i (k_icache s1)) s1).
  assert (k_icache s1 = k_icache s0) as Ei1 by (by rewrite O1).
  assert (k_icache s1' !! i = Some (dec (lk ip))) as Hip1
    by (simpl; by rewrite list_lookup_alter_eq, Ei1, Hip0).
  destruct (fs_brelse g s1' [] txn b (iblock s (i_inum ip)) d (in_txn_icache _ _ _ _ _ I1) S1)
    as (s2 & E2 & O2 & I2 & V2).
  assert (k_icache s2 = k_icache s1') as Ei2 by (by rewrite O2).
  assert (set_i_valid true (dec (lk ip)) = ip') as Eip
    by (unfold ip', dinode_at, vdata; by rewrite Vd).
  eexists _, (k_bufs s2). split_and!; [| | by apply in_txn_icache, I2 |].
  - unfold ilock. rewrite (bind_Ret _ _ _ _ _ (get_inode_eq _ _ _ Hip)), (proj2 (Z.ltb_ge _ _) Href).
    erewrite (bind_Ret (acquiresleep _))
      by (apply acquiresleep_free with (l := i_lock ip); [apply Hin | simpl; by rewrite Hip | done]).
    simpl. fold lk. fold s0. rewrite (bind_Ret _ _ _ _ _ (get_inode_eq _ _ _ Hip0)). simpl. rewrite Hval. simpl.
    krun. change (k_sb s0) with (k_sb s). rewrite Hdev, (IBLOCK_small s _ Hg Hx), (bind_Ret _ _ _ _ _ E1).
    rewrite (bind_Ret _ _ _ _ _ (bdata_eq _ _ _ _ (proj1 S1))).
    erewrite (bind_Ret (upd_inode _ _)) by (eapply upd_inode_eq; rewrite Ei1; exact Hip0).
    fold dec. fold s1'. rewrite (bind_Ret _ _ _ _ _ E2).
    erewrite (bind_Ret (upd_inode _ _)) by (eapply upd_inode_eq; rewrite Ei2; exact Hip1).
    erewrite (bind_Ret (get_inode _))
      by (apply get_inode_eq; simpl; rewrite list_lookup_alter_eq, Ei2, Hip1; reflexivity).
    cbv beta. rewrite Eip. apply Z.eqb_neq in Ht. rewrite Ht. reflexivity.
  - rewrite Ei2. simpl. rewrite Ei1. simpl.
    replace (alter (set_i_valid true) i (alter dec i (alter lk i (k_icache s))))
      with (<[i := ip']> (k_icache s)).
    + rewrite O2. unfold s1'. rewrite O1. done.
    + rewrite !list_alter_alter_eq, (alter_insert_at _ _ _ _ Hip). simpl. by rewrite Eip.
  - intros y Hy. etransitivity; [apply (sv_vblock _ _ _ V2 y Hy)|]. apply (sv_vblock _ _ _ V1 y Hy).
Qed.
End inode_io.

(** [iupdate] and [ilock] are inverse: after [iupdate] has written an in-core
    inode, [ilock] of an entry for the same inode number that has not been read yet
    loads exactly its type, device numbers, link count, size and block addresses;
    the other inodes, also those of the same block, read as before. *)
Theorem iupdate_ilock_roundtrip g s txn i ip :
  in_txn g s [] txn -> k_icache s !! i = Some ip -> inode_ok ip -> i_type ip <> 0 -> i_dev ip = 1 ->
  home g (iblock s (i_inum ip)) -> buf_room [] txn 2 -> log_room g txn 1 ->
  let txn' := log_add (iblock s (i_inum ip)) txn in
  exists s', iupdate i s = Ret tt s' /\ in_txn g s' [] txn' /\
    (forall m jp, 0 <= iblock s m -> iblock s m <> iblock s (i_inum ip) \/ m mod IPB <> i_inum ip mod IPB ->
       dinode_at s' m jp = dinode_at s m jp) /\
    (forall s2 j jp, in_txn g s2 [] txn' -> k_sb s2 = k_sb s' ->
       (forall y, 0 <= y -> vblock s2 y = vblock s' y) ->
       k_icache s2 !! j = Some jp -> i_inum jp = i_inum ip -> i_dev jp = 1 -> 1 <= i_ref jp ->
       sl_locked (i_lock jp) = false -> i_valid jp = false ->
       exists s3, ilock (Some j) s2 = Ret tt s3 /\
         k_icache s3 !! j =
           Some (set_i_valid true (with_fields ip (set_i_lock (mkSleeplock true (mypid s2)) jp)))).
Proof.
  intros Hin Hip Hok Ht Hdev Hx Hb Hl txn'. pose proof Hx as [Hr _].
  destruct (iupdate_spec g s txn i ip Hin Hip Hdev Hx) as (s' & E & F & I & V);
    [by eapply buf_room_le; [|reflexivity..]; unfold buf_room in *; lia | done |].
  pose proof (fs_frame_disk _ _ F) as (_ & Esb & _).
  assert (zlen (vdata s (iblock s (i_inum ip))) = BSIZE) as Hlen.
  { destruct (vblock_some s [] _ (it_cache _ _ _ _ Hin)
      ltac:(by rewrite (la_total _ _ _ (it_log _ _ _ _ Hin)))) as [d Hd].
    unfold vdata. rewrite Hd. apply (vblock_block_ok s [] _ d (it_cache _ _ _ _ Hin) Hd). }
  pose proof (dinode_off_range (i_inum ip)) as Ho.
  exists s'. split_and!; try done.
  - intros m jp Hm Hd. unfold dinode_at, vdata. unfold iblock at 1. rewrite Esb. fold (iblock s m).
    rewrite V by done. destruct (Z.eqb_spec (iblock s m) (iblock s (i_inum ip))) as [Em|]; [|done].
    destruct Hd as [|Hd]; [done|]. simpl. rewrite dec_enc_other; [by rewrite Em | done | lia | |].
    + apply dinode_off_range.
    + apply dinode_off_disjoint. congruence.
  - intros s2 j jp I2 Es2 V2 Hjp En Hjd Hjr Hjl Hjv.
    assert (dinode_at s2 (i_inum jp) (set_i_lock (mkSleeplock true (mypid s2)) jp) =
            with_fields ip (set_i_lock (mkSleeplock true (mypid s2)) jp)) as Ed.
    { unfold dinode_at, iblock, vdata. rewrite Es2, Esb, En. fold (iblock s (i_inum ip)).
      rewrite V2, V, Z.eqb_refl by lia. simpl. by rewrite dec_enc_dinode by (done || lia). }
    destruct (ilock_spec g s2 txn' j jp) as (s3 & bufs & E3 & -> & _ & _); try done.
    + unfold iblock. rewrite Es2, Esb, En. done.
    + pose proof (length_log_add (iblock s (i_inum ip)) txn). unfold buf_room, txn' in *. simpl in *. lia.
    + by rewrite Ed.
    + eexists. split; [exact E3|]. simpl. rewrite list_lookup_insert_eq by (by eapply lookup_lt_Some).
      by rewrite Ed.
Qed.

(** ** The inode cache *)

(** Entry [ip] is in use for inode [inum] of [dev]. *)
Definition is_inode (dev inum : Z) (ip : inode) : bool :=
  (0 <? i_ref ip) && (i_dev ip =? dev) && (i_inum ip =? inum).
Definition is_unused (ip : inode) : bool := i_ref ip =? 0.
Definition referenced (ip : inode) : inode := set_i_ref (i32 (i_ref ip + 1)) ip.
Definition fresh_inode (dev inum : Z) (ip : inode) : inode :=
  set_i_valid false (set_i_ref 1 (set_i_inum inum (set_i_dev dev ip))).

Section iget_proof.
Context (dev inum : Z) (s : kst) (h : list lockid).
Hypothesis Hh : k_held s = LIcache :: h.

Lemma iget_scan_eq (pre l : list inode) empty :
  k_icache s = pre ++ l ->
  iget_scan (seq (length pre) (length l)) dev inum empty s =
  match findi (is_inode dev inum) l with
  | Some k => Ret (inl (length pre + k)%nat)
      (set_k_held h (set_k_icache (alter referenced (length pre + k)%nat (k_icache s)) s))
  | None => Ret (inr (match empty with
                      | Some e => Some e
                      | None => Nat.add (length pre) <$> findi is_unused l
                      end)) s
  end.
Proof.
  revert pre empty. induction l as [|ip l IH]; intros pre empty El.
  { by destruct empty. }
  assert (k_icache s !! length pre = Some ip) as Hip by (rewrite El; by apply list_lookup_middle).
  cbn [length seq iget_scan findi]. rewrite (bind_Ret _ _ _ _ _ (get_inode_eq _ _ _ Hip)).
  unfold is_inode at 1. destruct (_ && _).
  - erewrite (bind_Ret (upd_inode _ _)) by (by eapply upd_inode_eq).
    erewrite (bind_Ret (release _)) by (apply (release_eq _ h); exact Hh).
    by rewrite Nat.add_0_r.
  - replace (S (length pre)) with (length (pre ++ [ip])) by (rewrite length_app; simpl; lia).
    rewrite IH by (by rewrite <- app_assoc). rewrite length_app. simpl.
    destruct (findi (is_inode dev inum) l) as [k|]; simpl.
    + replace (length pre + 1 + k)%nat with (length pre + S k)%nat by lia. done.
    + f_equal. f_equal. unfold is_unused at 2. destruct empty as [e|]; [done|]. simpl.
      destruct (i_ref ip =? 0); simpl; [f_equal; lia|].
      destruct (findi is_unused l) as [k|]; simpl; [f_equal; lia | done].
Qed.
End iget_proof.

Lemma iget_eq dev inum s :
  LIcache ∉ k_held s -> length (k_icache s) = NINODE ->
  iget dev inum s =
  match findi (is_inode dev inum) (k_icache s) with
  | Some i => Ret i (set_k_icache (alter referenced i (k_icache s)) s)
  | None =>
      match findi is_unused (k_icache s) with
      | Some i => Ret i (set_k_icache (alter (fresh_inode dev inum) i (k_icache s)) s)
      | None => Panic "iget: no inodes" (set_k_held (LIcache :: k_held s) s)
      end
  end.
Proof.
  intros Hh Hl. unfold iget. rewrite (bind_Ret _ _ _ _ _ (acquire_eq LIcache s Hh)).
  set (s1 := set_k_held (LIcache :: k_held s) s).
  pose proof (iget_scan_eq dev inum s1 (k_held s) eq_refl [] (k_icache s) None eq_refl) as E.
  rewrite Hl in E. change (length []) with 0%nat in E.
  destruct (findi (is_inode dev inum) (k_icache s)) as [i|].
  { by rewrite (bind_Ret _ _ _ _ _ E). }
  rewrite (bind_Ret _ _ _ _ _ E). destruct (findi is_unused (k_icache s)) as [i|] eqn:Eu; [|done].
  apply findi_Some in Eu as (ip & Hip & _). change (Nat.add 0 <$> Some i) with (Some i). cbv iota.
  repeat (erewrite (bind_Ret (upd_inode _ _));
    [|eapply upd_inode_eq; simpl; rewrite ?list_lookup_alter_eq, Hip; reflexivity]).
  erewrite (bind_Ret (release _)) by (by apply (release_eq _ (k_held s))).
  unfold ret. simpl. by rewrite !list_alter_alter_eq.
Qed.

(** Every (device, inode number) in use has one entry. *)
Record icache_inv (ic : list inode) : Prop := {
  ic_len : length ic = NINODE;
  ic_ref i ip : ic !! i = Some ip -> 0 <= i_ref ip;
  ic_unique i j ip jp : ic !! i = Some ip -> ic !! j = Some jp -> 0 < i_ref ip -> 0 < i_ref jp ->
    i_dev ip = i_dev jp -> i_inum ip = i_inum jp -> i = j
}.

Lemma is_inode_true dev inum ip :
  is_inode dev inum ip = true <-> 0 < i_ref ip /\ i_dev ip = dev /\ i_inum ip = inum.
Proof. unfold is_inode. rewrite !andb_true_iff, Z.ltb_lt, !Z.eqb_eq. tauto. Qed.

(** Changing the count of an entry in use, or dropping it to 0, keeps the
    invariant. *)
Lemma icache_inv_ref ic i ip f :
  icache_inv ic -> ic !! i = Some ip -> 0 < i_ref ip -> 0 <= i_ref (f ip) ->
  i_dev (f ip) = i_dev ip -> i_inum (f ip) = i_inum ip -> icache_inv (alter f i ic).
Proof.
  intros [Hl Hr Hu] Hi Hp Hf Ed En.
  assert (forall j jp, alter f i ic !! j = Some jp ->
    exists jp0, ic !! j = Some jp0 /\ 0 <= i_ref jp /\ (0 < i_ref jp -> 0 < i_ref jp0) /\
      i_dev jp = i_dev jp0 /\ i_inum jp = i_inum jp0) as Hall.
  { intros j jp. destruct (decide (i = j)) as [<-|N].
    - rewrite list_lookup_alter_eq, Hi. simpl. intros [= <-]. exists ip. done.
    - rewrite list_lookup_alter_ne by done. intros Hj. exists jp. split_and!; try done. by eapply Hr. }
  split.
  - by rewrite length_alter.
  - intros j jp Hj. by destruct (Hall j jp Hj) as (? & _ & ? & _).
  - intros j k jp kp Hj Hk Pj Pk Ed' En'.
    destruct (Hall j jp Hj) as (jp0 & Hj0 & _ & Pj0 & Dj & Nj).
    destruct (Hall k kp Hk) as (kp0 & Hk0 & _ & Pk0 & Dk & Nk).
    apply (Hu j k jp0 kp0); auto; congruence.
Qed.

Lemma icache_inv_fresh ic i ip dev inum :
  icache_inv ic -> ic !! i = Some ip -> (forall j jp, ic !! j = Some jp -> is_inode dev inum jp = false) ->
  icache_inv (alter (fresh_inode dev inum) i ic).
Proof.
  intros [Hl Hr Hu] Hi Hno.
  assert (forall j jp, ic !! j = Some jp -> 0 < i_ref jp -> i_dev jp = dev -> i_inum jp = inum -> False) as Hno'.
  { intros j jp Hj P D N. specialize (Hno j jp Hj). rewrite (proj2 (is_inode_true _ _ _)) in Hno; done. }
  split.
  - by rewrite length_alter.
  - intros j jp. destruct (decide (i = j)) as [<-|N].
    + rewrite list_lookup_alter_eq, Hi. by intros [= <-].
    + rewrite list_lookup_alter_ne by done. apply Hr.
  - intros j k jp kp.
    destruct (decide (i = j)) as [<-|Nj], (decide (i = k)) as [<-|Nk]; [done|..];
      rewrite ?list_lookup_alter_eq, ?list_lookup_alter_ne, ?Hi by done; simpl.
    + intros [= <-] Hk _ Pk Ed En. simpl in *. exfalso. by eapply Hno'.
    + intros Hj [= <-] Pj _ Ed En. simpl in *. exfalso. by eapply Hno'.
    + apply Hu.
Qed.

(** How many references the entry of an inode has. *)
Definition ref_count (s : kst) (dev inum : Z) : Z :=
  match findi (is_inode dev inum) (k_icache s) with
  | Some i => from_option i_ref 0 (k_icache s !! i)
  | None => 0
  end.

(** [iget] gives the one cache entry of an inode: an entry already in use for
    it gains a reference, otherwise the first unused entry is taken over with one
    reference and not yet valid; the other entries are unchanged and no inode ever
    has two entries.  With no unused entry left it panics. *)
Theorem iget_correct dev inum s :
  LIcache ∉ k_held s -> icache_inv (k_icache s) -> ref_count s dev inum < 2147483647 ->
  match findi (is_inode dev inum) (k_icache s), findi is_unused (k_icache s) with
  | None, None => exists s', iget dev inum s = Panic "iget: no inodes" s'
  | _, _ =>
      exists i ip ic, iget dev inum s = Ret i (set_k_icache ic s) /\ icache_inv ic /\
        ic !! i = Some ip /\ i_dev ip = dev /\ i_inum ip = inum /\
        i_ref ip = ref_count s dev inum + 1 /\
        (ref_count s dev inum = 0 -> i_valid ip = false) /\
        (forall j, j <> i -> ic !! j = k_icache s !! j)
  end.
Proof.
  intros Hh Hi Hn. rewrite (iget_eq dev inum s Hh (ic_len _ Hi)). unfold ref_count in *.
  destruct (findi (is_inode dev inum) (k_icache s)) as [i|] eqn:E.
  - apply findi_Some in E as (ip & Hip & (P & <- & <-)%is_inode_true & _). rewrite Hip in *. simpl in *.
    assert (exists ic, ic = alter referenced i (k_icache s) /\ icache_inv ic) as (ic & -> & Hic).
    { eexists. split; [done|]. eapply icache_inv_ref; [done | exact Hip | done | | done | done].
      unfold referenced. simpl. rewrite i32_small by lia. lia. }
    eexists i, (referenced ip), _. rewrite list_lookup_alter_eq, Hip. split_and!; try done.
    + unfold referenced. simpl. apply i32_small. lia.
    + lia.
    + intros j Hj. by apply list_lookup_alter_ne.
  - destruct (findi is_unused (k_icache s)) as [i|] eqn:E'; [|by eexists].
    apply findi_Some in E' as (ip & Hip & _).
    eexists i, (fresh_inode dev inum ip), _. rewrite list_lookup_alter_eq, Hip. split_and!; try done.
    + eapply icache_inv_fresh; [done | exact Hip|]. by apply findi_None.
    + intros j Hj. by apply list_lookup_alter_ne.
Qed.

(** Dropping a reference that is not the last one of an unlinked inode only
    decrements the entry's count (and leaves its sleep lock free): [iput] undoes
    [iget] and [idup]. *)
Theorem iput_correct i ip s :
  quiet s -> k_icache s !! i = Some ip -> sl_locked (i_lock ip) = false -> 0 < i_ref ip < 2147483648 ->
  i_valid ip = false \/ i_nlink ip <> 0 \/ i_ref ip <> 1 ->
  iput i s = Ret tt (set_k_icache
    (<[i := set_i_ref (i_ref ip - 1) (set_i_lock (mkSleeplock false 0) ip)]> (k_icache s)) s).
Proof.
  intros Hq Hip Hl Hr Hn. unfold iput.
  erewrite (bind_Ret (acquiresleep _))
    by (apply acquiresleep_free with (l := i_lock ip); [done | simpl; by rewrite Hip | done]).
  simpl. set (lk := set_i_lock (mkSleeplock true (mypid s))).
  set (s1 := set_k_icache (alter lk i (k_icache s)) s).
  assert (k_icache s1 !! i = Some (lk ip)) as Hip1 by (simpl; by rewrite list_lookup_alter_eq, Hip).
  assert (quiet s1) as Hq1 by (by apply (quiet_ext s)).
  rewrite (bind_Ret _ _ _ _ _ (get_inode_eq _ _ _ Hip1)). simpl.
  assert (LIcache ∉ k_held s1) as Hh1 by (rewrite (q_held _ Hq1); apply not_elem_of_nil).
  erewrite (bind_Ret (when _ _)).
  2:{ instantiate (1 := s1). instantiate (1 := tt). unfold when. destruct (_ && _) eqn:Ev; [|done].
      rewrite (bind_Ret _ _ _ _ _ (acquire_eq _ _ Hh1)).
      erewrite (bind_Ret (get_inode _)) by (apply get_inode_eq; exact Hip1).
      erewrite (bind_Ret (release _)) by (by apply (release_eq _ (k_held s1))).
      destruct (_ =? 1) eqn:Er; [|done]. simpl in Er. apply andb_true_iff in Ev as [Ev1 Ev2].
      exfalso. destruct Hn as [Hn|[Hn|Hn]]; [congruence | lia | lia]. }
  erewrite (bind_Ret (releasesleep _))
    by (apply releasesleep_quiet with (l := i_lock (lk ip)); [done | unfold sl_at; by rewrite Hip1]).
  unfold put_sl. set (s2 := set_k_icache _ s1).
  assert (LIcache ∉ k_held s2) as Hh2 by exact Hh1.
  rewrite (bind_Ret _ _ _ _ _ (acquire_eq _ _ Hh2)).
  erewrite (bind_Ret (upd_inode _ _))
    by (eapply upd_inode_eq; unfold s2; simpl; rewrite list_lookup_alter_eq; simpl in Hip1; rewrite Hip1; reflexivity).
  erewrite (release_eq _ (k_held s2)) by done. f_equal. unfold s2, s1. simpl.
  rewrite !list_alter_alter_eq, (alter_insert_at _ _ _ _ Hip). simpl.
  by rewrite i32_small by lia.
Qed.

(** ** The bytes of a file *)

(** The block that holds block [bn] of the file, 0 if there is none. *)
Definition baddr (s : kst) (ip : inode) (bn : Z) : Z :=
  if bn <? Z.of_nat NDIRECT then nth (Z.to_nat bn) (i_addrs ip) 0
  else lld32 (vdata s (nth NDIRECT (i_addrs ip) 0)) (4 * (bn - Z.of_nat NDIRECT)).

(** Byte [k] of the file, and [n] bytes from [off]. *)
Definition fbyte (s : kst) (ip : inode) (k : Z) : Z :=
  lget (vdata s (baddr s ip (k / BSIZE))) (k mod BSIZE).
Definition fslice (s : kst) (ip : inode) (off n : Z) : list Z :=
  (fun k => fbyte s ip (off + k)) <$> seqZ 0 n.

(** Blocks [0 .. nb) of the file are allocated, outside the log. *)
Record mapped (g : geom) (s : kst) (ip : inode) (nb : Z) : Prop := {
  mp_max : nb <= MAXFILE;
  mp_len : length (i_addrs ip) = S NDIRECT;
  mp_block bn : 0 <= bn < nb -> baddr s ip bn <> 0 /\ home g (baddr s ip bn);
  mp_ind : Z.of_nat NDIRECT < nb -> nth NDIRECT (i_addrs ip) 0 <> 0 /\
    0 <= nth NDIRECT (i_addrs ip) 0 < g_total g;
  mp_inj bn bm : 0 <= bn < nb -> 0 <= bm < nb -> baddr s ip bn = baddr s ip bm -> bn = bm;
  mp_noind bn : 0 <= bn < nb -> Z.of_nat NDIRECT < nb -> baddr s ip bn <> nth NDIRECT (i_addrs ip) 0
}.

Lemma addr_mapped i ip k s :
  k_icache s !! i = Some ip -> (k < length (i_addrs ip))%nat -> nth k (i_addrs ip) 0 <> 0 ->
  addr_or_alloc i k s = Ret (nth k (i_addrs ip) 0) s.
Proof.
  intros Hip Hk Hn. unfold addr_or_alloc, get_addr.
  erewrite (bind_Ret (bind _ _)).
  2:{ rewrite (bind_Ret _ _ _ _ _ (get_inode_eq _ _ _ Hip)). destruct (lookup_lt_is_Some_2 _ _ Hk) as [a Ha]. rewrite Ha, <- (nth_lookup_Some _ _ 0 a Ha). reflexivity. }
  apply Z.eqb_neq in Hn. by rewrite Hn.
Qed.

Section file_io.
Context `{DW : Devsw} (g : geom).

Lemma bmap_mapped s txn i ip nb bn :
  in_txn g s [] txn -> k_icache s !! i = Some ip -> i_dev ip = 1 -> mapped g s ip nb -> 0 <= bn < nb ->
  buf_room [] txn 1 ->
  exists s', bmap i bn s = Ret (baddr s ip bn) s' /\ only_bufs s s' /\ in_txn g s' [] txn /\
    same_view [] s s'.
Proof.
  intros Hin Hip Hdev Hm Hbn Hr. destruct (mp_block _ _ _ _ Hm bn Hbn) as [Hn _].
  unfold bmap. unfold baddr in *. destruct (Z.ltb_spec bn (Z.of_nat NDIRECT)) as [Hlt|Hge].
  - exists s. split_and!; [|done|done|by split].
    apply addr_mapped; [done | | done]. rewrite (mp_len _ _ _ _ Hm). unfold NDIRECT in *. lia.
  - pose proof (mp_max _ _ _ _ Hm) as Hmax.
    destruct (mp_ind _ _ _ _ Hm ltac:(lia)) as [Hind Hir]. set (a := nth NDIRECT (i_addrs ip) 0) in *.
    rewrite (proj2 (Z.ltb_lt _ _)) by (unfold MAXFILE, NINDIRECT, NDIRECT in *; lia).
    erewrite (bind_Ret (addr_or_alloc _ _))
      by (apply addr_mapped; [done | rewrite (mp_len _ _ _ _ Hm); lia | done]).
    fold a. rewrite (bind_Ret _ _ _ _ _ (get_inode_eq _ _ _ Hip)), Hdev.
    destruct (fs_bread g s [] txn a Hin Hir) as (b & s1 & d & E1 & O1 & I1 & _ & Vd & S1 & V1);
      [by intros ? ? ?%not_elem_of_nil | done |].
    rewrite (bind_Ret _ _ _ _ _ E1), (bind_Ret _ _ _ _ _ (bdata_eq _ _ _ _ (proj1 S1))).
    unfold vdata in Hn |- *. rewrite Vd in Hn |- *. simpl in Hn |- *. apply Z.eqb_neq in Hn.
    destruct (fs_brelse g s1 [] txn b a d I1 S1) as (s2 & E2 & O2 & I2 & V2).
    exists s2. rewrite Hn. krun. rewrite (bind_Ret _ _ _ _ _ E2).
    split_and!; [done | by eapply only_bufs_trans | done | by eapply same_view_trans].
Qed.

(** Number of blocks the range touches. *)
Definition chunks (off r : Z) : Z := if 0 <? r then (off + r - 1) / BSIZE - off / BSIZE + 1 else 0.

Lemma chunks_step off r :
  0 <= off -> 0 < r -> let m := Z.min r (BSIZE - off mod BSIZE) in
  0 < m <= r /\ chunks (off + m) (r - m) = chunks off r - 1 /\ 0 <= chunks (off + m) (r - m).
Proof.
  intros Ho Hr. cbv zeta. unfold chunks, BSIZE. set (m := Z.min _ _).
  assert (0 < m <= r) by (unfold m; pose proof (Z.mod_pos_bound off 512); lia). split; [done|]. rewrite (proj2 (Z.ltb_lt 0 r)) by lia.
  destruct (Z.ltb_spec 0 (r - m)); unfold m in *; Z.to_euclidean_division_equations; lia.
Qed.

Lemma chunks_nonneg off r : 0 <= off -> 0 <= chunks off r.
Proof. intros Ho. unfold chunks, BSIZE. destruct (Z.ltb_spec 0 r); zlia. Qed.

Lemma chunk_fits off r : 0 <= off mod BSIZE + Z.min r (BSIZE - off mod BSIZE) <= BSIZE \/ r < 0.
Proof. unfold BSIZE. pose proof (Z.mod_pos_bound off 512). lia. Qed.

Lemma block_index off nb : 0 <= off < nb * BSIZE -> 0 <= off / BSIZE < nb.
Proof. unfold BSIZE. intros H. zlia. Qed.

Lemma fslice_app s ip off n m :
  0 <= n -> 0 <= m -> fslice s ip off (n + m) = fslice s ip off n ++ fslice s ip (off + n) m.
Proof.
  intros Hn Hm. unfold fslice. rewrite seqZ_app, fmap_app by lia. f_equal.
  replace (seqZ (0 + n) m) with (Z.add n <$> seqZ 0 m) by (rewrite fmap_add_seqZ; f_equal; lia).
  rewrite <- list_fmap_compose.
  apply list_fmap_ext. intros ? k _. simpl. f_equal. lia.
Qed.

Lemma zlen_fslice s ip off n : 0 <= n -> zlen (fslice s ip off n) = n.
Proof. intros Hn. unfold zlen, fslice. rewrite length_fmap, length_seqZ. lia. Qed.

(** The part of a block a chunk covers. *)
Lemma fslice_block s ip off m d :
  0 <= off -> 0 <= m -> off mod BSIZE + m <= BSIZE -> vblock s (baddr s ip (off / BSIZE)) = Some d ->
  zlen d = BSIZE ->
  take (Z.to_nat m) (drop (Z.to_nat (off mod BSIZE)) d) = fslice s ip off m.
Proof.
  intros Ho Hm Hr Hd Hl. apply list_eq. intros k. unfold fslice. rewrite list_lookup_fmap.
  assert (0 <= off mod BSIZE) by (apply Z.mod_pos_bound; done).
  destruct (decide (Z.of_nat k < m)) as [Hk|Hk].
  - rewrite lookup_take_lt by lia. rewrite lookup_drop.
    rewrite (lookup_seqZ_lt 0 m k) by lia. simpl. rewrite Z.add_0_l. unfold fbyte.
    replace ((off + Z.of_nat k) / BSIZE) with (off / BSIZE) by (unfold BSIZE in *; zlia).
    unfold vdata. rewrite Hd. simpl.
    replace ((off + Z.of_nat k) mod BSIZE) with (off mod BSIZE + Z.of_nat k) by (unfold BSIZE in *; zlia).
    unfold lget. rewrite Z2Nat.inj_add, Nat2Z.id by lia.
    destruct (lookup_lt_is_Some_2 d (Z.to_nat (off mod BSIZE) + k)) as [x Hx];
      [unfold zlen in Hl; lia|]. rewrite Hx. done.
  - rewrite lookup_take_ge by lia. rewrite (lookup_seqZ_ge 0 m k) by lia. done.
Qed.
End file_io.

Section file_rw.
Context `{DW : Devsw} (g : geom).

Lemma baddr_ext s t ip nb bn :
  mapped g s ip nb -> 0 <= bn < nb -> (forall y, 0 <= y -> vblock t y = vblock s y) ->
  baddr t ip bn = baddr s ip bn.
Proof.
  intros Hm Hbn V. unfold baddr. destruct (Z.ltb_spec bn (Z.of_nat NDIRECT)); [done|].
  destruct (mp_ind _ _ _ _ Hm ltac:(lia)) as [_ Hr]. unfold vdata. by rewrite V by lia.
Qed.

(** Only the block addresses matter. *)
Lemma mapped_same s t ip ip' nb :
  i_addrs ip' = i_addrs ip -> (forall bn, 0 <= bn < nb -> baddr t ip' bn = baddr s ip bn) ->
  mapped g s ip nb -> mapped g t ip' nb.
Proof.
  intros Ea E [M1 M2 M3 M4 M5 M6]. split; rewrite ?Ea; try done.
  - intros bn Hbn. rewrite E by done. auto.
  - intros bn bm Hbn Hbm. rewrite !E by done. auto.
  - intros bn Hbn. rewrite E by done. auto.
Qed.

Lemma mapped_ext s t ip nb :
  (forall y, 0 <= y -> vblock t y = vblock s y) -> mapped g s ip nb -> mapped g t ip nb.
Proof. intros V Hm. eapply mapped_same; [done | | done]. intros bn Hbn. by eapply baddr_ext. Qed.

Lemma fbyte_ext s t ip nb k :
  mapped g s ip nb -> 0 <= k < nb * BSIZE -> (forall y, 0 <= y -> vblock t y = vblock s y) ->
  fbyte t ip k = fbyte s ip k.
Proof.
  intros Hm Hk V. pose proof (block_index k nb Hk) as Hb. unfold fbyte.
  rewrite (baddr_ext s t ip nb _ Hm Hb V). destruct (mp_block _ _ _ _ Hm _ Hb) as [_ [Hr _]].
  unfold vdata. by rewrite V by lia.
Qed.

Lemma fslice_ext s t ip nb off n :
  mapped g s ip nb -> 0 <= off -> off + n <= nb * BSIZE -> (forall y, 0 <= y -> vblock t y = vblock s y) ->
  fslice t ip off n = fslice s ip off n.
Proof.
  intros Hm Ho Hn V. unfold fslice. apply list_fmap_ext. intros j k Hk%lookup_seqZ.
  apply (fbyte_ext s t ip nb); [done | lia | done].
Qed.

(** One turn of a transfer finds the block that holds the next byte. *)
Lemma chunk_block s txn i ip nb off :
  in_txn g s [] txn -> k_icache s !! i = Some ip -> i_dev ip = 1 -> mapped g s ip nb ->
  0 <= off < nb * BSIZE -> buf_room [] txn 1 ->
  let x := baddr s ip (off / BSIZE) in
  exists b s1 s2 d, bmap i (off / BSIZE) s = Ret x s1 /\ get_inode i s1 = Ret ip s1 /\
    bread (i_dev ip) x s1 = Ret b s2 /\ only_bufs s s2 /\ in_txn g s2 [b] txn /\ same_view [] s s2 /\
    vblock s x = Some d /\ block_ok d /\ safe s2 b x d /\ home g x.
Proof.
  intros Hin Hip Hdev Hm Ho Hr x.
  assert (0 <= off / BSIZE < nb) as Hbn by (apply block_index; lia).
  destruct (mp_block _ _ _ _ Hm _ Hbn) as [_ Hx]. fold x in Hx.
  destruct (bmap_mapped g s txn i ip nb _ Hin Hip Hdev Hm Hbn Hr) as (s1 & E1 & O1 & I1 & V1).
  destruct (fs_bread g s1 [] txn x I1 (proj1 Hx)) as (b & s2 & d & E2 & O2 & I2 & _ & Vd & S2 & V2);
    [by intros ? ? ?%not_elem_of_nil | done |].
  rewrite (sv_vblock _ _ _ V1 x) in Vd by (destruct Hx; lia).
  exists b, s1, s2, d. rewrite Hdev.
  split_and!; [exact E1 | | exact E2 | | exact I2 | | exact Vd | | exact S2 | exact Hx].
  - apply get_inode_eq. by rewrite O1.
  - by eapply only_bufs_trans.
  - by eapply (same_view_trans [] []).
  - by eapply vblock_block_ok; [apply Hin|].
Qed.

Lemma readi_loop s txn i ip nb n :
  k_icache s !! i = Some ip -> i_dev ip = 1 -> mapped g s ip nb -> buf_room [] txn 1 ->
  forall fuel t tot off dst,
  only_bufs s t -> same_view [] s t -> in_txn g t [] txn ->
  0 <= tot <= n -> 0 <= off -> off + (n - tot) <= nb * BSIZE -> chunks off (n - tot) < Z.of_nat fuel ->
  exists t', loop fuel (fun '(tot, off, dst) =>
    if tot <? n then
      a <- bmap i (off / BSIZE) ;;
      ip <- get_inode i ;;
      bp <- bread (i_dev ip) a ;;
      let m := Z.min (n - tot) (BSIZE - off mod BSIZE) in
      d <- bdata bp ;;
      brelse bp ;;
      ret (inl (tot + m, off + m, dst ++ take (Z.to_nat m) (drop (Z.to_nat (off mod BSIZE)) d)))
    else ret (inr dst)) (tot, off, dst) t = Ret (dst ++ fslice s ip off (n - tot)) t' /\
    only_bufs s t' /\ same_view [] s t' /\ in_txn g t' [] txn.
Proof.
  intros Hip Hdev Hm Hr. induction fuel as [|fuel IH]; intros t tot off dst O V I Ht Ho Hn Hc.
  { pose proof (chunks_nonneg off (n - tot) Ho). lia. }
  destruct (Z.ltb_spec tot n) as [Hlt|Hge].
  2:{ exists t. split; [|done]. apply loop_done. rewrite (proj2 (Z.ltb_ge _ _) Hge).
      replace (n - tot) with 0 by lia. by rewrite app_nil_r. }
  assert (mapped g t ip nb) as Hmt by (eapply mapped_ext; [apply V | done]).
  assert (0 <= off / BSIZE < nb) as Hbn by (apply block_index; lia).
  pose proof (baddr_ext s t ip nb _ Hm Hbn (sv_vblock _ _ _ V)) as Ea.
  destruct (chunk_block t txn i ip nb off I ltac:(by rewrite O) Hdev Hmt ltac:(lia) Hr)
    as (b & t1 & t2 & d & E1 & E2 & E3 & O3 & I3 & V3 & Vd & Hd & S3 & Hx). rewrite Ea in *.
  destruct (fs_brelse g t2 [] txn b _ d I3 S3) as (t3 & E4 & O4 & I4 & V4).
  destruct (chunks_step off (n - tot) Ho ltac:(lia)) as (M1 & M2 & M3).
  set (m := Z.min (n - tot) (BSIZE - off mod BSIZE)) in *.
  replace (n - tot - m) with (n - (tot + m)) in M2, M3 by lia.
  destruct (IH t3 (tot + m) (off + m) (dst ++ fslice s ip off m)) as (t' & E & H').
  - eapply only_bufs_trans; [done|]. by eapply only_bufs_trans.
  - eapply (same_view_trans [] []); [done..|]. by eapply same_view_trans.
  - done.
  - lia.
  - lia.
  - lia.
  - lia.
  - exists t'. split; [|done].
    replace (fslice s ip off (n - tot)) with (fslice s ip off (m + (n - (tot + m)))) by (f_equal; lia).
    rewrite fslice_app, app_assoc by lia. rewrite <- E. apply loop_next.
    rewrite (proj2 (Z.ltb_lt _ _) Hlt), (bind_Ret _ _ _ _ _ E1), (bind_Ret _ _ _ _ _ E2), (bind_Ret _ _ _ _ _ E3).
    fold m. rewrite (bind_Ret _ _ _ _ _ (bdata_eq _ _ _ _ (proj1 S3))), (bind_Ret _ _ _ _ _ E4).
    pose proof (chunk_fits off (n - tot)) as Hf. fold m in Hf.
    rewrite (sv_vblock _ _ _ V _) in Vd by (destruct Hx; lia).
    rewrite (fslice_block s ip off m d); [done | done | lia | lia | done | apply Hd].
Qed.

(** [readi] of a plain file, off within the file. *)
Lemma readi_spec s txn i ip nb off n :
  in_txn g s [] txn -> k_icache s !! i = Some ip -> i_dev ip = 1 -> i_type ip <> T_DEV ->
  mapped g s ip nb -> i_size ip <= nb * BSIZE -> 0 <= off <= i_size ip -> 0 <= n ->
  off + n < 4294967296 -> buf_room [] txn 1 ->
  let m := Z.min n (i_size ip - off) in
  exists s', readi i off n s = Ret (m, fslice s ip off m) s' /\
    only_bufs s s' /\ same_view [] s s' /\ in_txn g s' [] txn.
Proof.
  intros Hin Hip Hdev Ht Hm Hsz Ho Hn Hw Hr m.
  pose proof (mp_max _ _ _ _ Hm) as Hmax.
  assert (0 <= m /\ off + m <= nb * BSIZE /\ nb * BSIZE <= 71680) as (Hm0 & Hmb & Hnb)
    by (unfold m, MAXFILE, NINDIRECT, NDIRECT, BSIZE in *; lia).
  destruct (readi_loop s txn i ip nb m Hip Hdev Hm Hr MAXCHUNKS s 0 off []) as (s' & E & H');
    [done | by split | done | lia | lia | lia | |].
  { unfold chunks, MAXCHUNKS, BSIZE in *. destruct (Z.ltb_spec 0 (m - 0)); [|lia].
    clear -Ho Hmb Hnb. zlia. }
  exists s'. split; [|done]. rewrite Z.sub_0_r in E. unfold readi.
  rewrite (bind_Ret _ _ _ _ _ (get_inode_eq _ _ _ Hip)), (proj2 (Z.eqb_neq _ _) Ht).
  rewrite !(u32_small (off + n)) by lia.
  rewrite (proj2 (Z.ltb_ge (i_size ip) off)), (proj2 (Z.ltb_ge (off + n) off)) by lia. cbn [orb].
  replace (if i_size ip <? off + n then i_size ip - off else n) with m
    by (unfold m; destruct (Z.ltb_spec (i_size ip) (off + n)); lia).
  cbv zeta. rewrite (bind_Ret _ _ _ _ _ E). unfold ret. rewrite i32_small by lia. done.
Qed.

(** ** Writing *)

Lemma length_splice d o src :
  0 <= o -> o + zlen src <= zlen d -> length (splice d o src) = length d.
Proof. unfold zlen, splice. intros Ho Hl. rewrite !length_app, length_take, length_drop. lia. Qed.

Lemma lget_splice d o src j :
  0 <= o -> o + zlen src <= zlen d -> 0 <= j ->
  lget (splice d o src) j = if (o <=? j) && (j <? o + zlen src) then lget src (j - o) else lget d j.
Proof.
  unfold zlen, splice, lget. intros Ho Hl Hj.
  destruct (Z.leb_spec o j), (Z.ltb_spec j (o + Z.of_nat (length src))); cbn [andb].
  - rewrite lookup_app_r, lookup_app_l by (rewrite length_take; lia). rewrite length_take. do 2 f_equal. lia.
  - rewrite lookup_app_r by (rewrite length_take; lia). rewrite lookup_app_r by (rewrite length_take; lia).
    rewrite lookup_drop, length_take. do 2 f_equal. lia.
  - rewrite lookup_app_l, lookup_take_lt by (rewrite ?length_take; lia). done.
  - lia.
Qed.

Lemma splice_ok d o src :
  block_ok d -> 0 <= o -> o + zlen src <= BSIZE -> Forall (fun x => 0 <= x < 256) src ->
  block_ok (splice d o src).
Proof.
  intros [Hl Hb] Ho Hs Hsrc. split.
  - unfold zlen in *. rewrite length_splice; unfold zlen; lia.
  - unfold splice. apply Forall_app. split; [by apply Forall_take|].
    apply Forall_app. split; [done | by apply Forall_drop].
Qed.

(** The bytes one chunk takes from the source. *)
Definition piece (src : list Z) (tot m : Z) : list Z := take (Z.to_nat m) (drop (Z.to_nat tot) src).

Lemma zlen_piece src tot m : 0 <= tot -> 0 <= m -> tot + m <= zlen src -> zlen (piece src tot m) = m.
Proof. unfold zlen, piece. intros. rewrite length_take, length_drop. lia. Qed.

Lemma lget_piece src tot m j :
  0 <= tot -> 0 <= j < m -> tot + m <= zlen src -> lget (piece src tot m) j = lget src (tot + j).
Proof.
  intros Ht Hj Hl. unfold lget, piece. rewrite lookup_take_lt, lookup_drop by lia. do 2 f_equal. lia.
Qed.

(** From [s] to [t], bytes [lo .. hi) of the file became those of [src]. *)
Record wrote_file (s t : kst) (ip : inode) (nb lo hi : Z) (src : list Z) : Prop := {
  wf_byte k : 0 <= k < nb * BSIZE ->
    fbyte t ip k = if (lo <=? k) && (k <? hi) then lget src (k - lo) else fbyte s ip k;
  wf_addr bn : 0 <= bn < nb -> baddr t ip bn = baddr s ip bn;
  wf_other y : 0 <= y -> (forall bn, 0 <= bn < nb -> y <> baddr s ip bn) -> vblock t y = vblock s y
}.

Lemma mapped_wrote s t ip nb lo hi src :
  mapped g s ip nb -> wrote_file s t ip nb lo hi src -> mapped g t ip nb.
Proof. intros Hm W. eapply mapped_same; [done | apply W | done]. Qed.

(** Replacing the content of one block of the file. *)
Lemma fbyte_store s t ip nb x d d' bn :
  mapped g s ip nb -> 0 <= bn < nb -> x = baddr s ip bn -> vblock s x = Some d ->
  (forall y, 0 <= y -> vblock t y = if y =? x then Some d' else vblock s y) ->
  (forall bm, 0 <= bm < nb -> baddr t ip bm = baddr s ip bm) /\
  (forall k, 0 <= k < nb * BSIZE ->
     fbyte t ip k = if k / BSIZE =? bn then lget d' (k mod BSIZE) else fbyte s ip k).
Proof.
  intros Hm Hbn -> Hd V.
  assert (forall bm, 0 <= bm < nb -> baddr t ip bm = baddr s ip bm) as Ea.
  { intros bm Hbm. unfold baddr at 1 2. destruct (Z.ltb_spec bm (Z.of_nat NDIRECT)); [done|].
    destruct (mp_ind _ _ _ _ Hm ltac:(lia)) as [_ Hr]. unfold vdata. rewrite V by lia.
    case_match eqn:E; [|done]. apply Z.eqb_eq in E. exfalso.
    by apply (mp_noind _ _ _ _ Hm bn Hbn ltac:(lia)). }
  split; [done|]. intros k Hk. pose proof (block_index k nb Hk) as Hkb. unfold fbyte.
  rewrite Ea by done. destruct (mp_block _ _ _ _ Hm _ Hkb) as [_ [Hr _]]. unfold vdata. rewrite V by lia.
  destruct (Z.eqb_spec (baddr s ip (k / BSIZE)) (baddr s ip bn)) as [E|E].
  - apply (mp_inj _ _ _ _ Hm _ _ Hkb Hbn) in E. by rewrite E, Z.eqb_refl.
  - destruct (Z.eqb_spec (k / BSIZE) bn) as [Ek|]; [|done]. by rewrite Ek in E.
Qed.

(** One more chunk written. *)
Lemma wrote_step s t t' ip nb lo off m src d :
  mapped g s ip nb -> wrote_file s t ip nb lo off src -> 0 <= lo <= off -> 0 < m ->
  off mod BSIZE + m <= BSIZE -> off + m <= nb * BSIZE -> off - lo + m <= zlen src -> zlen d = BSIZE ->
  let x := baddr s ip (off / BSIZE) in
  vblock t x = Some d ->
  (forall y, 0 <= y -> vblock t' y =
     if y =? x then Some (splice d (off mod BSIZE) (piece src (off - lo) m)) else vblock t y) ->
  wrote_file s t' ip nb lo (off + m) src.
Proof.
  intros Hm Hw Hlo Hm0 Hfit Hend Hsrc Hd x Hx V. pose proof Hw as [W1 W2 W3].
  pose proof (block_index off nb ltac:(lia)) as Hbn.
  assert (0 <= off mod BSIZE) as Hmod by (apply Z.mod_pos_bound; done).
  destruct (fbyte_store t t' ip nb x d _ (off / BSIZE) (mapped_wrote _ _ _ _ _ _ _ Hm Hw) Hbn
    ltac:(by rewrite W2) Hx V) as [Ea Eb]. split.
  - intros k Hk. rewrite Eb by done.
    assert (off = off / BSIZE * BSIZE + off mod BSIZE) as Eo by (unfold BSIZE; zlia).
    assert (k = k / BSIZE * BSIZE + k mod BSIZE /\ 0 <= k mod BSIZE < BSIZE) as [Ek Hkm] by (unfold BSIZE; zlia).
    assert (k < off \/ off + m <= k -> fbyte t ip k =
      if (lo <=? k) && (k <? off + m) then lget src (k - lo) else fbyte s ip k) as Hout.
    { intros Hk'. rewrite W1 by done.
      by replace (k <? off + m) with (k <? off) by (destruct (Z.ltb_spec k off), (Z.ltb_spec k (off + m)); lia). }
    destruct (Z.eqb_spec (k / BSIZE) (off / BSIZE)) as [E|E]; [|apply Hout; unfold BSIZE in *; lia].
    rewrite lget_splice by (rewrite ?zlen_piece; lia). rewrite zlen_piece by lia. rewrite E in Ek.
    assert (fbyte t ip k = lget d (k mod BSIZE)) as Efb
      by (unfold fbyte, vdata; rewrite E, W2 by done; fold x; by rewrite Hx).
    destruct ((off mod BSIZE <=? k mod BSIZE) && _) eqn:Ein; [|rewrite <- Efb; apply Hout; lia].
    rewrite lget_piece, (proj2 (Z.leb_le lo k)), (proj2 (Z.ltb_lt k (off + m))) by lia.
    cbn [andb]. f_equal. lia.
  - intros bm Hbm. by rewrite Ea, W2.
  - intros y Hy Hno. rewrite V by done. destruct (Z.eqb_spec y x) as [->|]; [|by apply W3].
    exfalso. by apply (Hno (off / BSIZE)).
Qed.

Lemma writei_loop s txn0 i ip nb lo n src :
  k_icache s !! i = Some ip -> i_dev ip = 1 -> mapped g s ip nb ->
  0 <= lo -> lo + n <= nb * BSIZE -> n <= zlen src -> Forall (fun x => 0 <= x < 256) src ->
  forall fuel t tot txn,
  fs_frame s t -> wrote_file s t ip nb lo (lo + tot) src -> in_txn g t [] txn -> txn0 ⊆ txn ->
  0 <= tot <= n -> log_room g txn (chunks (lo + tot) (n - tot)) ->
  chunks (lo + tot) (n - tot) < Z.of_nat fuel ->
  exists t' txn', loop fuel (fun '(tot, off) =>
    if tot <? n then
      a <- bmap i (off / BSIZE) ;;
      ip <- get_inode i ;;
      bp <- bread (i_dev ip) a ;;
      let m := Z.min (n - tot) (BSIZE - off mod BSIZE) in
      upd_data bp (fun d => splice d (off mod BSIZE) (take (Z.to_nat m) (drop (Z.to_nat tot) src))) ;;
      log_write bp ;;
      brelse bp ;;
      ret (inl (tot + m, off + m))
    else ret (inr off)) (tot, lo + tot) t = Ret (lo + n) t' /\
    fs_frame s t' /\ wrote_file s t' ip nb lo (lo + n) src /\ in_txn g t' [] txn' /\ txn0 ⊆ txn' /\
    zlen txn' <= zlen txn + chunks (lo + tot) (n - tot).
Proof.
  intros Hip Hdev Hm Hlo Hend Hsrc Hbytes.
  induction fuel as [|fuel IH]; intros t tot txn F W I Hsub Ht Hl Hc.
  { pose proof (chunks_nonneg (lo + tot) (n - tot) ltac:(lia)). lia. }
  destruct (Z.ltb_spec tot n) as [Hlt|Hge].
  2:{ exists t, txn. replace n with tot in * by lia.
      pose proof (chunks_nonneg (lo + tot) (tot - tot) ltac:(lia)). split_and!; try done; [|lia].
      apply loop_done. rewrite (proj2 (Z.ltb_ge _ _)) by lia. done. }
  set (off := lo + tot) in *.
  assert (0 <= off / BSIZE < nb) as Hbn by (apply block_index; lia).
  destruct (chunks_step off (n - tot) ltac:(lia) ltac:(lia)) as (M1 & M2 & M3).
  pose proof (fs_frame_disk _ _ F) as (_ & _ & _ & _ & _ & Eic & _).
  assert (log_room g txn 1) as Hl1 by (unfold log_room in *; lia).
  destruct (chunk_block t txn i ip nb off I ltac:(by rewrite Eic) Hdev (mapped_wrote _ _ _ _ _ _ _ Hm W) ltac:(lia))
    as (b & t1 & t2 & d & E1 & E2 & E3 & O3 & I3 & V3 & Vd & Hd & S3 & Hx).
  { unfold buf_room, log_room, NBUF, LOGSIZE, MAXOPBLOCKS, zlen in *. simpl. lia. }
  rewrite (wf_addr _ _ _ _ _ _ _ W _ Hbn) in *. set (x := baddr s ip (off / BSIZE)) in *.
  set (m := Z.min (n - tot) (BSIZE - off mod BSIZE)) in *.
  pose proof (chunk_fits off (n - tot)) as Hf. fold m in Hf.
  assert (0 <= off mod BSIZE) as Hmod by (apply Z.mod_pos_bound; done).
  destruct (fs_commit_buf g t2 [] txn b x d (fun d => splice d (off mod BSIZE) (piece src tot m)) I3 (proj1 S3))
    as (t3 & t4 & t5 & E4 & E5 & E6 & F6 & I6 & V6 & _).
  { apply splice_ok; [done | done | rewrite zlen_piece; lia | by apply Forall_take, Forall_drop]. }
  { done. }
  { done. }
  pose proof (length_log_add x txn) as Hla.
  replace (n - tot - m) with (n - (tot + m)) in M2, M3 by lia.
  replace (off + m) with (lo + (tot + m)) in M2, M3 by (unfold off; lia).
  destruct (IH t5 (tot + m) (log_add x txn)) as (t' & txn' & E & Fr & Wr & Ir & Sr & Lr).
  - eapply fs_frame_trans; [exact F|]. eapply fs_frame_trans; [by apply fs_frame_bufs | done].
  - replace (lo + (tot + m)) with (off + m) by (unfold off; lia).
    apply (wrote_step s t t5 ip nb lo off m src d); try done; try lia; [apply Hd|].
    intros y Hy. rewrite V6 by done. fold x. replace (off - lo) with tot by (unfold off; lia).
    case_match; [done | by apply V3].
  - done.
  - etransitivity; [exact Hsub|]. unfold log_add. case_decide; set_solver.
  - lia.
  - unfold log_room, zlen in *. rewrite M2. lia.
  - lia.
  - exists t', txn'. split_and!; try done; [|unfold zlen in *; lia].
    rewrite <- E. replace (lo + (tot + m)) with (off + m) by (unfold off; lia). apply loop_next.
    rewrite (proj2 (Z.ltb_lt _ _) Hlt), (bind_Ret _ _ _ _ _ E1), (bind_Ret _ _ _ _ _ E2), (bind_Ret _ _ _ _ _ E3).
    fold m. cbv zeta. fold (piece src tot m).
    by rewrite (bind_Ret _ _ _ _ _ E4), (bind_Ret _ _ _ _ _ E5), (bind_Ret _ _ _ _ _ E6).
Qed.

(** The inode's own block is not one of the file's. *)
Record apart (s : kst) (ip : inode) (nb : Z) : Prop := {
  ap_home : home g (iblock s (i_inum ip));
  ap_block bn : 0 <= bn < nb -> baddr s ip bn <> iblock s (i_inum ip);
  ap_ind : nth NDIRECT (i_addrs ip) 0 <> iblock s (i_inum ip)
}.

(** A change to a block that is not the file's leaves its bytes alone. *)
Lemma fbyte_apart s t ip nb z d k :
  mapped g s ip nb -> (forall bn, 0 <= bn < nb -> baddr s ip bn <> z) -> nth NDIRECT (i_addrs ip) 0 <> z ->
  (forall y, 0 <= y -> vblock t y = if y =? z then d else vblock s y) ->
  (forall bn, 0 <= bn < nb -> baddr t ip bn = baddr s ip bn) /\
  (0 <= k < nb * BSIZE -> fbyte t ip k = fbyte s ip k).
Proof.
  intros Hm Hz Hi V.
  assert (forall bm, 0 <= bm < nb -> baddr t ip bm = baddr s ip bm) as Ea.
  { intros bm Hbm. unfold baddr. destruct (Z.ltb_spec bm (Z.of_nat NDIRECT)); [done|].
    destruct (mp_ind _ _ _ _ Hm ltac:(lia)) as [_ Hr]. unfold vdata. rewrite V by lia.
    by rewrite (proj2 (Z.eqb_neq _ _) Hi). }
  split; [done|]. intros Hk. pose proof (block_index k nb Hk) as Hkb. unfold fbyte. rewrite Ea by done.
  destruct (mp_block _ _ _ _ Hm _ Hkb) as [_ [Hr _]]. unfold vdata. rewrite V by lia.
  by rewrite (proj2 (Z.eqb_neq _ _) (Hz _ Hkb)).
Qed.

(** The update of the size. *)
Lemma grow_spec s txn i ip nb z :
  in_txn g s [] txn -> k_icache s !! i = Some ip -> i_dev ip = 1 -> mapped g s ip nb -> apart s ip nb ->
  log_room g txn 1 ->
  let ip' := set_i_size z ip in
  exists s' txn', (upd_inode i (set_i_size z) ;; iupdate i) s = Ret tt s' /\ in_txn g s' [] txn' /\
    zlen txn' <= zlen txn + 1 /\ k_disk s' = k_disk s /\ k_icache s' = <[i := ip']> (k_icache s) /\
    (forall bn, 0 <= bn < nb -> baddr s' ip' bn = baddr s ip bn) /\
    (forall k, 0 <= k < nb * BSIZE -> fbyte s' ip' k = fbyte s ip k).
Proof.
  intros Hin Hip Hdev Hm [A1 A2 A3] Hl ip'.
  set (s1 := set_k_icache (alter (set_i_size z) i (k_icache s)) s).
  assert (k_icache s1 !! i = Some ip') as Hip1 by (simpl; by rewrite list_lookup_alter_eq, Hip).
  destruct (iupdate_spec g s1 txn i ip' (in_txn_icache _ _ _ _ _ Hin) Hip1 Hdev A1)
    as (s' & E & F & I & V).
  { unfold buf_room, log_room, NBUF, LOGSIZE, MAXOPBLOCKS, zlen in *. simpl. lia. }
  { done. }
  pose proof (fs_frame_disk _ _ F) as (Dd & _ & _ & _ & _ & Eic & _).
  pose proof (fun k => fbyte_apart s s' ip nb _ _ k Hm A2 A3 V) as Hf.
  eexists s', _. split_and!; [| exact I | | exact Dd | | apply (Hf 0) | intros k; apply (Hf k)].
  - by rewrite (bind_Ret _ _ _ _ _ (upd_inode_eq _ _ _ _ Hip)).
  - unfold zlen. pose proof (length_log_add (iblock s1 (i_inum ip')) txn). lia.
  - rewrite Eic. simpl. by apply alter_insert_at.
Qed.

Lemma writei_spec s txn i ip nb off n src :
  in_txn g s [] txn -> k_icache s !! i = Some ip -> i_dev ip = 1 -> i_type ip <> T_DEV ->
  mapped g s ip nb -> apart s ip nb -> 0 <= off <= i_size ip -> 0 <= n -> off + n <= nb * BSIZE ->
  zlen src = n -> Forall (fun x => 0 <= x < 256) src -> log_room g txn (chunks off n + 1) ->
  let ip' := set_i_size (Z.max (i_size ip) (off + n)) ip in
  exists s' txn', writei i src off n s = Ret n s' /\ in_txn g s' [] txn' /\
    zlen txn' <= zlen txn + chunks off n + 1 /\ k_disk s' = k_disk s /\
    k_icache s' = <[i := ip']> (k_icache s) /\
    (forall bn, 0 <= bn < nb -> baddr s' ip' bn = baddr s ip bn) /\
    (forall k, 0 <= k < nb * BSIZE -> fbyte s' ip' k =
       if (off <=? k) && (k <? off + n) then lget src (k - off) else fbyte s ip k).
Proof.
  intros Hin Hip Hdev Ht Hm Hap Ho Hn Hend Hsrc Hb Hl ip'.
  pose proof (mp_max _ _ _ _ Hm) as Hmax.
  assert (nb * BSIZE <= 71680) as Hnb by (unfold MAXFILE, NINDIRECT, NDIRECT, BSIZE in *; lia).
  pose proof (chunks_nonneg off n ltac:(lia)) as Hch.
  destruct (writei_loop s txn i ip nb off n src Hip Hdev Hm ltac:(lia) Hend ltac:(lia) Hb MAXCHUNKS s 0 txn)
    as (t & txn1 & E & F & W & I & _ & Hlen); try done.
  { split; [|done..]. intros k Hk. rewrite Z.add_0_r. destruct (Z.leb_spec off k), (Z.ltb_spec k off); done || lia. }
  { unfold log_room in *. rewrite Z.add_0_r, Z.sub_0_r. lia. }
  { rewrite Z.add_0_r, Z.sub_0_r. unfold chunks, MAXCHUNKS, BSIZE in *.
    destruct (Z.ltb_spec 0 n); [|lia]. clear -Ho Hend Hnb. zlia. }
  rewrite Z.add_0_r in E, Hlen. rewrite Z.sub_0_r in Hlen.
  pose proof (fs_frame_disk _ _ F) as (Dd & Sb & _ & _ & _ & Eic & _).
  assert (writei i src off n s =
    (when ((0 <? n) && (i_size ip <? off + n)) (upd_inode i (set_i_size (off + n)) ;; iupdate i) ;;
     ret (i32 n)) t) as ->.
  { unfold writei. rewrite (bind_Ret _ _ _ _ _ (get_inode_eq _ _ _ Hip)), (proj2 (Z.eqb_neq _ _) Ht).
    rewrite !(u32_small (off + n)) by lia.
    rewrite (proj2 (Z.ltb_ge (i_size ip) off)), (proj2 (Z.ltb_ge (off + n) off)) by lia. cbn [orb].
    rewrite (proj2 (Z.ltb_ge _ _)) by (unfold BSIZE in *; lia). rewrite (bind_Ret _ _ _ _ _ E).
    by rewrite (bind_Ret _ _ _ _ _ (get_inode_eq i ip t ltac:(by rewrite Eic))). }
  rewrite (i32_small n) by lia. destruct (_ && _) eqn:Eg.
  - apply andb_true_iff in Eg as [G1%Z.ltb_lt G2%Z.ltb_lt].
    destruct Hap as [P1 P2 P3].
    assert (iblock t (i_inum ip) = iblock s (i_inum ip)) as Eib by (unfold iblock; by rewrite Sb).
    destruct (grow_spec t txn1 i ip nb (off + n) I ltac:(by rewrite Eic) Hdev (mapped_wrote _ _ _ _ _ _ _ Hm W))
      as (s' & txn' & E' & I' & L' & D' & C' & A' & B').
    { split; rewrite Eib; [done | | done]. intros bn Hbn. rewrite (wf_addr _ _ _ _ _ _ _ W bn Hbn). auto. }
    { unfold log_room, zlen in *. lia. }
    exists s', txn'. unfold ip'. rewrite Z.max_r by lia. split_and!; [| done | lia | by rewrite D' | by rewrite C', Eic | |].
    + unfold when. by rewrite (bind_Ret _ _ _ _ _ E').
    + intros bn Hbn. rewrite A' by done. by apply W.
    + intros k Hk. rewrite B' by done. by apply W.
  - assert (off + n <= i_size ip) as Hle by (apply andb_false_iff in Eg as [G%Z.ltb_ge|G%Z.ltb_ge]; lia).
    exists t, txn1. assert (ip' = ip) as -> by (unfold ip'; rewrite Z.max_l by lia; by destruct ip).
    split_and!; [done | done | lia | done | | apply W | apply W].
    rewrite Eic. by rewrite list_insert_id.
Qed.

(** [readi] of a file returns the bytes of the file from [off]: [n] of them, or
    as many as remain before its end; reading changes no block.  An offset past the
    end, and a range that wraps around 2^32, are refused with -1. *)
Theorem readi_correct s txn i ip nb off n :
  in_txn g s [] txn -> k_icache s !! i = Some ip -> i_dev ip = 1 -> i_type ip <> T_DEV ->
  mapped g s ip nb -> 0 <= i_size ip <= nb * BSIZE -> 0 <= off < 4294967296 -> 0 <= n < 4294967296 ->
  buf_room [] txn 1 ->
  if (i_size ip <? off) || (4294967296 <=? off + n) then readi i off n s = Ret (-1, []) s
  else
    let m := Z.min n (i_size ip - off) in
    exists s', readi i off n s = Ret (m, fslice s ip off m) s' /\
      in_txn g s' [] txn /\ k_disk s' = k_disk s /\ k_icache s' = k_icache s /\
      (forall y, 0 <= y -> vblock s' y = vblock s y).
Proof.
  intros Hin Hip Hdev Ht Hm Hsz Ho Hn Hr. destruct (_ || _) eqn:E.
  - unfold readi. rewrite (bind_Ret _ _ _ _ _ (get_inode_eq _ _ _ Hip)), (proj2 (Z.eqb_neq _ _) Ht).
    replace ((i_size ip <? off) || (u32 (off + n) <? off)) with true; [done|]. symmetry.
    apply orb_true_iff in E as [->|E%Z.leb_le]; [done|]. apply orb_true_iff. right. apply Z.ltb_lt. zlia.
  - apply orb_false_iff in E as [E1%Z.ltb_ge E2%Z.leb_gt]. intros m.
    destruct (readi_spec s txn i ip nb off n) as (s' & E' & O & V & I); try done; try lia.
    exists s'. split_and!; [done | done | by rewrite O | by rewrite O | apply V].
Qed.

End file_rw.

(** ** Example: a file of 700 bytes in blocks 14 and 15 *)

#[local] Instance no_devices : Devsw := {| dev_read := fun _ => None; dev_write := fun _ => None |}.

Definition inode0 : inode := mkInode 0 0 0 (mkSleeplock false 0) false 0 0 0 0 0 (replicate 13 0).
Definition dfile : inode :=
  mkInode 1 1 1 (mkSleeplock false 0) true 2 0 0 1 700 (14 :: 15 :: replicate 11 0).
Definition dfile_disk : disk :=
  <[14%nat := replicate 512 7]> (<[15%nat := replicate 512 8]> dfs_disk).
Definition dfile_icache : list inode := dfile :: replicate 49 inode0.
Definition dfile_st : kst := set_k_icache dfile_icache (set_k_disk dfile_disk dfs).

Lemma dfile_txn : in_txn dfs_geom dfile_st [] [].
Proof. apply in_txn_icache, dfs_in_txn; [apply block_okb_disk|]; by vm_compute. Qed.

Lemma dfile_ok : inode_ok dfile.
Proof. split; simpl; try lia. split; [done|]. repeat constructor; lia. Qed.

Lemma dfile_home x : 12 <= x < 20 -> home dfs_geom x.
Proof. intros Hx. unfold home, in_log. simpl. lia. Qed.

Lemma dfile_baddr bn : 0 <= bn < 2 -> baddr dfile_st dfile bn = 14 + bn.
Proof. intros H. assert (bn = 0 \/ bn = 1) as [->| ->] by lia; done. Qed.

Lemma dfile_mapped : mapped dfs_geom dfile_st dfile 2.
Proof.
  split; try done.
  - intros bn Hbn. rewrite dfile_baddr by done. split; [lia|]. apply dfile_home. lia.
  - intros bn bm Hbn Hbm. rewrite !dfile_baddr by done. lia.
Qed.

Lemma dfile_apart : apart dfs_geom dfile_st dfile 2.
Proof.
  assert (iblock dfile_st (i_inum dfile) = 12) as E by done.
  split; rewrite E; [apply dfile_home; lia | | done].
  intros bn Hbn. rewrite dfile_baddr by done. lia.
Qed.

Lemma dfile_room n : (n <= 30)%nat -> buf_room [] [] n.
Proof. intros. unfold buf_room, NBUF. simpl. lia. Qed.

Lemma iupdate_ilock_roundtrip_witness :
  exists s', iupdate 0 dfile_st = Ret tt s' /\ in_txn dfs_geom s' [] [12] /\
    forall s2 jp, in_txn dfs_geom s2 [] [12] -> k_sb s2 = k_sb s' ->
      (forall y, 0 <= y -> vblock s2 y = vblock s' y) -> k_icache s2 !! 1%nat = Some jp ->
      jp = set_i_inum 1 (set_i_dev 1 (set_i_ref 1 inode0)) ->
      exists s3, ilock (Some 1%nat) s2 = Ret tt s3 /\
        (i_size <$> k_icache s3 !! 1%nat) = Some 700.
Proof.
  destruct (iupdate_ilock_roundtrip dfs_geom dfile_st [] 0 dfile dfile_txn) as (s' & E & I & _ & H).
  - done.
  - apply dfile_ok.
  - done.
  - done.
  - apply dfile_home. by vm_compute.
  - apply dfile_room. lia.
  - done.
  - exists s'. split_and!; [exact E | exact I |]. intros s2 jp I2 Es V Hj ->.
    destruct (H s2 1%nat _ I2 Es V Hj) as (s3 & E3 & H3); try done.
    exists s3. split; [exact E3|]. by rewrite H3.
Defined.

Lemma iget_correct_witness :
  exists i ip ic, iget 1 5 dfile_st = Ret i (set_k_icache ic dfile_st) /\ ic !! i = Some ip /\
    i_inum ip = 5 /\ i_ref ip = 1.
Proof.
  assert (icache_inv (k_icache dfile_st)) as Hi.
  { assert (forall i ip, dfile_icache !! i = Some ip -> i = 0%nat /\ ip = dfile \/ ip = inode0) as Hc.
    { intros [|i] ip; [intros [= <-]; by left|].
      change (dfile_icache !! S i) with (replicate 49 inode0 !! i).
      intros [-> _]%lookup_replicate. by right. }
    split; [done | |].
    - intros i ip [[_ ->]| ->]%Hc; done.
    - intros i j ip jp [[-> ->]| ->]%Hc [[-> ->]| ->]%Hc; done. }
  pose proof (iget_correct 1 5 dfile_st (not_elem_of_nil _) Hi eq_refl) as H.
  assert (findi (is_inode 1 5) (k_icache dfile_st) = None) as E1 by (by vm_compute).
  assert (findi is_unused (k_icache dfile_st) = Some 1%nat) as E2 by (by vm_compute).
  unfold ref_count in H. rewrite E1, E2 in H.
  destruct H as (i & ip & ic & E & _ & Hi' & _ & N & R & _). exists i, ip, ic. auto.
Defined.

Lemma iput_correct_witness :
  exists ic, iput 0 dfile_st = Ret tt (set_k_icache ic dfile_st) /\ (i_ref <$> ic !! 0%nat) = Some 0.
Proof.
  eexists. split.
  - apply (iput_correct 0 dfile dfile_st);
      [apply dfile_txn | reflexivity | reflexivity | simpl; lia | right; left; simpl; lia].
  - reflexivity.
Defined.

Lemma readi_correct_witness :
  exists s', readi 0 510 4 dfile_st = Ret (4, [7; 7; 8; 8]) s'.
Proof.
  assert (i_type dfile <> T_DEV) as Ht by done.
  assert (0 <= i_size dfile <= 2 * BSIZE) as Hz by done.
  destruct (readi_correct dfs_geom dfile_st [] 0 dfile 2 510 4 dfile_txn eq_refl eq_refl Ht dfile_mapped Hz
    ltac:(lia) ltac:(lia) (dfile_room 1 ltac:(lia))) as (s' & E & _).
  exists s'. rewrite E. f_equal.
Defined.
