(* ===== verification/Growth.v ===== *)
(** * Files that grow

    [writei] past the blocks a file has: [bmap] takes new blocks from [balloc], records
    them in the inode or in its indirect block (taking that too when the thirteenth block
    is needed), and the loop of [writei] fills them.  The round trip with [readi] is
    proved here for every write within the largest file size, as long as the disk and the
    container's disk limit have the blocks it needs. *)

From S2P Require Import Prelude Monad CString KState Sched Bio Log Fs Inode.

Local Open Scope kernel_scope.

(** A block that may belong to a file: in use, outside the log and the bitmap. *)
Definition data_block (g : geom) (s : kst) (x : Z) : Prop :=
  home g x /\ 0 < x < sb_size (k_sb s) /\ used s x = true /\
  forall a, 0 <= a < sb_size (k_sb s) -> x <> a / BPB + sb_bmapstart (k_sb s).

(** The container [c] may take [n] blocks, and there are [n] free ones; block 0, the
    boot block, is not. *)
Record supply (g : geom) (s : kst) (c : nat) (n : Z) : Prop := {
  su_layout : fs_layout g s;
  su_boot : used s 0 = true;
  su_limit : exists co, runs_in s c co /\ 0 <= c_udsk co /\ c_udsk co + n * BSIZE <= c_mdsk co /\ c_mdsk co < 4294967296;
  su_free : exists l, NoDup l /\ n <= zlen l /\ forall a, a ∈ l -> 0 <= a < sb_size (k_sb s) /\ used s a = false
}.

(** The blocks of the file are [0 .. nb), no more. *)
Record whole_file (g : geom) (s : kst) (ip : inode) (nb : Z) : Prop := {
  wh_mapped : mapped g s ip nb;
  wh_nonneg : 0 <= nb;
  wh_block bn : 0 <= bn < nb -> data_block g s (baddr s ip bn);
  wh_ind : Z.of_nat NDIRECT < nb -> data_block g s (nth NDIRECT (i_addrs ip) 0);
  wh_free k : nb <= Z.of_nat k -> (k <= NDIRECT)%nat -> nth k (i_addrs ip) 0 = 0;
  wh_end bn : Z.of_nat NDIRECT < nb -> nb <= bn < MAXFILE -> baddr s ip bn = 0
}.

(** ** Taking one block *)

Lemma length_filter_ne (l : list Z) a : NoDup l -> (length l <= S (length (filter (fun x => x <> a) l)))%nat.
Proof.
  induction 1 as [|x l Hx Hn IH]; simpl; [lia|]. rewrite filter_cons. case_decide as E; simpl; [lia|].
  subst x.
  assert (filter (fun x => x <> a) l = l) as ->; [|lia].
  clear IH Hn. induction l as [|y l IH]; [done|]. apply not_elem_of_cons in Hx as [H1 H2].
  rewrite filter_cons, decide_True by done. f_equal. by apply IH.
Qed.

(** The least free block. *)
Lemma first_free_exists s a : 0 <= a < sb_size (k_sb s) -> used s a = false -> exists a', first_free s a'.
Proof.
  intros Ha Hu.
  destruct (findi (fun x => negb (used s x)) (seqZ 0 (sb_size (k_sb s)))) as [i|] eqn:E.
  - apply findi_Some in E as (x & Hx & Px & Hmin). apply lookup_seqZ in Hx as [-> Hx]. apply negb_true_iff in Px.
    exists (0 + Z.of_nat i). split; [lia|]. split; [done|]. intros a' Ha'.
    specialize (Hmin (Z.to_nat a') a' ltac:(lia)). rewrite lookup_seqZ in Hmin. apply negb_false_iff, Hmin. lia.
  - exfalso. assert (negb (used s a) = false) as Hf; [|by rewrite Hu in Hf].
    apply (proj1 (findi_None _ _) E (Z.to_nat a)). apply lookup_seqZ. lia.
Qed.

(** [txn'] has at most [n] more blocks than [txn], among them [a]. *)
Definition logs (txn txn' : list Z) (n a : Z) : Prop := txn ⊆ txn' /\ zlen txn' <= zlen txn + n /\ a ∈ txn'.

Lemma logs_add a txn : logs txn (log_add a txn) 1 a.
Proof.
  unfold logs, zlen. pose proof (length_log_add a txn). unfold log_add in *. case_decide; split_and!; try set_solver; lia.
Qed.

Lemma logs_trans txn1 txn2 txn3 n m a b : logs txn1 txn2 n a -> logs txn2 txn3 m b -> logs txn1 txn3 (n + m) b.
Proof. intros (A1 & A2 & A3) (B1 & B2 & B3). split_and!; [set_solver | lia | done]. Qed.

(** A block that is logged already costs nothing. *)
Lemma logs_again a txn : a ∈ txn -> log_add a txn = txn.
Proof. intros H. unfold log_add. by rewrite decide_True. Qed.

Section growth.
Context `{DW : Devsw} (g : geom).

(** One block less. *)
Lemma supply_taken s s' c n a :
  supply g s c n -> 1 <= n -> fs_layout g s' -> k_sb s' = k_sb s ->
  (forall a', 0 <= a' < sb_size (k_sb s) -> used s' a' = (a' =? a) || used s a') ->
  k_cur s' = k_cur s -> k_ptable s' = k_ptable s -> k_ctable s' = alter charge_block c (k_ctable s) ->
  supply g s' c (n - 1).
Proof.
  intros [Hl Hb (co & Hr & Hq1 & Hq2 & Hq3) (l & Hn & Hlen & Hfree)] H1 Hl' Es Hused Eu Ep Ec. pose proof (fl_size _ _ Hl).
  split; [done | rewrite Hused by lia; rewrite Hb; apply orb_true_r | |].
  - exists (charge_block co). destruct Hr as (p & pr & Q1 & Q2 & Q3 & Q4). split.
    + exists p, pr. rewrite Eu, Ep, Ec. split_and!; try done. by rewrite list_lookup_alter_eq, Q4.
    + unfold charge_block. simpl. rewrite u32_small by (unfold BSIZE in *; lia). unfold BSIZE in *. lia.
  - exists (filter (fun x => x <> a) l). split; [by apply NoDup_filter|]. split.
    + pose proof (length_filter_ne l a Hn). unfold zlen in *. lia.
    + intros b [Nb Hb']%list_elem_of_filter. destruct (Hfree b Hb') as [Rb Ub]. rewrite Es. split; [done|].
      rewrite Hused by done. by rewrite (proj2 (Z.eqb_neq b a)).
Qed.

Lemma alloc_step s H txn c n :
  in_txn g s H txn -> supply g s c n -> 1 <= n ->
  (forall i x e, i ∈ H -> holds s i x e -> data_block g s x) -> buf_room H txn 2 -> log_room g txn 2 ->
  exists a s' txn', balloc 1 s = Ret a s' /\ in_txn g s' H txn' /\ logs txn txn' 2 a /\
    supply g s' c (n - 1) /\ data_block g s' a /\ used s a = false /\ vblock s' a = Some zeros /\
    (forall x, data_block g s x -> data_block g s' x /\ x <> a /\ vblock s' x = vblock s x) /\
    (forall i y e, i ∈ H -> holds s i y e -> holds s' i y e) /\
    k_disk s' = k_disk s /\ k_icache s' = k_icache s /\ k_sb s' = k_sb s.
Proof.
  intros Hin Su H1 Hheld Hbr Hlr. pose proof Su as [Hl Hb (co & Hr & Hq1 & Hq2 & Hq3) (l & Hn & Hlen & Hfree)].
  assert (exists a0, a0 ∈ l) as [a0 Ha0] by (destruct l as [|x l]; [unfold zlen in Hlen; simpl in Hlen; lia | exists x; left]).
  destruct (Hfree a0 Ha0) as [R0 U0]. destruct (first_free_exists s a0 R0 U0) as (a & Ff). pose proof Ff as (Ra & Ua & _).
  assert (a <> 0) as Hne by (intros ->; congruence).
  assert (forall x, data_block g s x -> x <> a /\ forall a', 0 <= a' < sb_size (k_sb s) -> x <> a' / BPB + sb_bmapstart (k_sb s)) as Hdb.
  { intros x (_ & _ & Ux & Nx). split; [intros ->; congruence | done]. }
  destruct (balloc_spec g s H txn c co a Hin Hl Hr) as (s' & E & F & I & A & K); try done.
  { rewrite u32_small by (unfold BSIZE in *; lia). unfold BSIZE in *. lia. }
  { intros i e x Hi Hx Hh. destruct (Hdb x (Hheld i x e Hi Hh)) as [N1 N2].
    destruct Hx as [->|(a' & Ra' & ->)]; [done | by eapply N2]. }
  pose proof (fs_frame_disk _ _ F) as (Ed & Es & Ec & Ep & Eu & Ei & _).
  change (k_sb (set_k_ctable _ s)) with (k_sb s) in Es.
  assert (forall a', 0 <= a' < sb_size (k_sb s) -> used s' a' = (a' =? a) || used s a') as Hused.
  { intros a' Ra'. apply (used_allocated g s s' a a' Hl Es A Ra Ua Ra'), (bitmap_len g s H txn a Hin Hl Ra). }
  destruct (fl_free _ _ Hl a a Ra Ra Ua) as [Ha _].
  assert (fs_layout g s') as Hl'.
  { split; rewrite ?Es; [apply Hl | apply Hl |]. intros b b' Rb Rb' Ub. rewrite Hused in Ub by done.
    apply orb_false_iff in Ub as [_ Ub]. by apply (fl_free _ _ Hl). }
  exists a, s', (log_add a (log_add (a / BPB + sb_bmapstart (k_sb s)) txn)).
  split; [done|]. split; [done|]. split.
  { eapply logs_trans with (n := 1) (m := 1); [apply logs_add | apply logs_add]. }
  split_and!; try done.
  - by apply (supply_taken s s' c n a).
  - unfold data_block. rewrite Es. split_and!; [done | lia | lia | |].
    + rewrite Hused by done. by rewrite Z.eqb_refl.
    + intros b Rb. by apply (fl_free _ _ Hl).
  - rewrite (A a) by lia. by rewrite Z.eqb_refl.
  - intros x Hx. destruct (Hdb x Hx) as [N1 N2]. destruct Hx as (X1 & X2 & X3 & X4). split_and!; [| done |].
    + unfold data_block. rewrite Es. split_and!; try done; [lia.. |]. rewrite Hused by lia. rewrite X3. apply orb_true_r.
    + rewrite (A x) by lia. rewrite (proj2 (Z.eqb_neq x a) N1), (proj2 (Z.eqb_neq _ _) (N2 a Ra)). done.
Qed.

(** ** What a file keeps *)

(** Every data block keeps its place and content. *)
Definition keeps (s s' : kst) : Prop :=
  forall x, data_block g s x -> data_block g s' x /\ vblock s' x = vblock s x.

(** The part of the file that was there is still there. *)
Record same_file (s s' : kst) (ip ip' : inode) (nb : Z) : Prop := {
  sf_addr bn : 0 <= bn < nb -> baddr s' ip' bn = baddr s ip bn;
  sf_byte k : 0 <= k < nb * BSIZE -> fbyte s' ip' k = fbyte s ip k
}.

Lemma same_file_trans s s1 s2 ip ip1 ip2 nb :
  same_file s s1 ip ip1 nb -> same_file s1 s2 ip1 ip2 nb -> same_file s s2 ip ip2 nb.
Proof. intros [A1 B1] [A2 B2]. split; intros; [rewrite A2, A1 | rewrite B2, B1]; done. Qed.

Lemma same_file_blocks s s' ip ip' nb :
  (forall bn, 0 <= bn < nb -> data_block g s (baddr s ip bn)) ->
  (forall x, data_block g s x -> (exists bn, 0 <= bn < nb /\ x = baddr s ip bn) -> vblock s' x = vblock s x) ->
  (forall bn, 0 <= bn < nb -> baddr s' ip' bn = baddr s ip bn) -> same_file s s' ip ip' nb.
Proof.
  intros Hb Hk Ha. split; [done|]. intros k Hr. pose proof (block_index k nb Hr) as Hi. unfold fbyte. rewrite Ha by done.
  unfold vdata. rewrite Hk; [done | by apply Hb | eauto].
Qed.

Lemma baddr_keeps s s' ip bn :
  keeps s s' -> (bn < Z.of_nat NDIRECT \/ data_block g s (nth NDIRECT (i_addrs ip) 0)) -> baddr s' ip bn = baddr s ip bn.
Proof.
  intros Hk Hd. unfold baddr. destruct (Z.ltb_spec bn (Z.of_nat NDIRECT)); [done|].
  destruct Hd as [?|Hd]; [lia|]. unfold vdata. by rewrite (proj2 (Hk _ Hd)).
Qed.

Lemma nth_insert (l : list Z) k j a d :
  (k < length l)%nat -> nth j (<[k := a]> l) d = if (j =? k)%nat then a else nth j l d.
Proof.
  intros Hk. destruct (Nat.eqb_spec j k) as [->|N].
  - apply nth_lookup_Some. by apply list_lookup_insert_eq.
  - rewrite !nth_lookup. by rewrite list_lookup_insert_ne.
Qed.

(** A direct block. *)
Lemma whole_direct s s' ip nb a :
  keeps s s' -> whole_file g s ip nb -> nb < Z.of_nat NDIRECT -> data_block g s' a -> used s a = false ->
  let ip' := set_i_addrs (<[Z.to_nat nb := a]> (i_addrs ip)) ip in
  whole_file g s' ip' (nb + 1) /\ same_file s s' ip ip' nb /\ baddr s' ip' nb = a.
Proof.
  intros Hk [Wm Wn Wb Wi Wf We] Hnb Ha Hu ip'. pose proof (mp_len _ _ _ _ Wm) as Hlen.
  assert (Z.to_nat nb < length (i_addrs ip))%nat as Hlt by (rewrite Hlen; unfold NDIRECT in *; lia).
  assert (forall bn, 0 <= bn < nb + 1 -> baddr s' ip' bn = if bn =? nb then a else baddr s ip bn) as Eb.
  { intros bn Hbn. unfold baddr, ip'. rewrite (proj2 (Z.ltb_lt bn _)) by lia. cbn [i_addrs set_i_addrs].
    rewrite nth_insert by done. destruct (Nat.eqb_spec (Z.to_nat bn) (Z.to_nat nb)), (Z.eqb_spec bn nb); try done; lia. }
  assert (forall bn, 0 <= bn < nb -> baddr s ip bn <> a) as Hne.
  { intros bn Hbn E. destruct (Wb bn Hbn) as (_ & _ & U & _). congruence. }
  assert (forall bn, 0 <= bn < nb -> baddr s' ip' bn = baddr s ip bn) as Ea
    by (intros bn Hbn; rewrite Eb by lia; by rewrite (proj2 (Z.eqb_neq bn nb)) by lia).
  split_and!.
  - split; [| lia | | | |].
    + split; [unfold MAXFILE, NDIRECT, NINDIRECT in *; lia | unfold ip'; simpl; by rewrite length_insert | | lia | | lia].
      * intros bn Hbn. rewrite Eb by done. destruct (bn =? nb) eqn:E; [destruct Ha as (? & ? & _); split; [lia | done]|].
        apply (mp_block _ _ _ _ Wm). lia.
      * intros bn bm Hbn Hbm. rewrite !Eb by done. destruct (Z.eqb_spec bn nb), (Z.eqb_spec bm nb); try lia.
        -- intros E. exfalso. by apply (Hne bm ltac:(lia)).
        -- intros E. exfalso. by apply (Hne bn ltac:(lia)).
        -- apply (mp_inj _ _ _ _ Wm); lia.
    + intros bn Hbn. rewrite Eb by done. destruct (bn =? nb) eqn:E; [done|]. apply Hk, Wb. lia.
    + lia.
    + intros k Hk1 Hk2. unfold ip'. cbn [i_addrs set_i_addrs]. rewrite nth_insert by done.
      rewrite (proj2 (Nat.eqb_neq _ _)) by lia. apply Wf; lia.
    + lia.
  - apply same_file_blocks; [done | | done]. intros x Hx _. by apply Hk.
  - rewrite Eb by lia. by rewrite Z.eqb_refl.
Qed.

(** ** Indirect blocks *)

(** The file has its indirect block, and entry [nb] is the next one in it. *)
Record pre_entry (s : kst) (ip : inode) (nb : Z) : Prop := {
  pe_mapped : mapped g s ip nb;
  pe_range : Z.of_nat NDIRECT <= nb < MAXFILE;
  pe_block bn : 0 <= bn < nb -> data_block g s (baddr s ip bn);
  pe_ptr : data_block g s (nth NDIRECT (i_addrs ip) 0);
  pe_noptr bn : 0 <= bn < nb -> baddr s ip bn <> nth NDIRECT (i_addrs ip) 0;
  pe_end bn : nb <= bn < MAXFILE -> baddr s ip bn = 0
}.

Lemma whole_pre_entry s ip nb : whole_file g s ip nb -> Z.of_nat NDIRECT < nb < MAXFILE -> pre_entry s ip nb.
Proof.
  intros [Wm Wn Wb Wi Wf We] Hr. split; [done | lia | done | apply Wi; lia | | intros bn Hbn; apply We; lia].
  intros bn Hbn. apply (mp_noind _ _ _ _ Wm); lia.
Qed.

Lemma mapped_keeps s s' ip nb :
  mapped g s ip nb -> (forall bn, 0 <= bn < nb -> baddr s' ip bn = baddr s ip bn) -> mapped g s' ip nb.
Proof. intros Hm E. by apply (mapped_same g s s' ip ip). Qed.

Lemma pre_entry_keeps s s' ip nb : keeps s s' -> pre_entry s ip nb -> pre_entry s' ip nb /\ same_file s s' ip ip nb.
Proof.
  intros Hk [P1 P2 P3 P4 P5 P6]. assert (forall bn, baddr s' ip bn = baddr s ip bn) as E by (intros; apply baddr_keeps; auto).
  split; [|apply same_file_blocks; [done | intros x Hx _; by apply Hk | intros; apply E]].
  split; [by eapply mapped_keeps | done | | by apply Hk | |].
  - intros bn Hbn. rewrite E. by apply Hk, P3.
  - intros bn Hbn. rewrite E. by apply P5.
  - intros bn Hbn. rewrite E. by apply P6.
Qed.

(** The bitmap does not depend on a data block. *)
Lemma data_block_store s s' p d :
  k_sb s' = k_sb s -> data_block g s p -> fs_layout g s ->
  (forall y, 0 <= y -> vblock s' y = if y =? p then d else vblock s y) ->
  (forall a, 0 <= a < sb_size (k_sb s) -> used s' a = used s a) /\ (forall x, data_block g s x -> data_block g s' x).
Proof.
  intros Es Hp Hl V.
  assert (forall a, 0 <= a < sb_size (k_sb s) -> used s' a = used s a) as Hu.
  { intros a Ha. unfold used, vdata. rewrite Es. destruct (fl_bmap _ _ Hl a Ha) as [Hr _]. rewrite V by lia.
    destruct Hp as (_ & _ & _ & Hn). rewrite (proj2 (Z.eqb_neq _ _)); [done|]. intros E. by apply (Hn a Ha). }
  split; [done|]. intros x (X1 & X2 & X3 & X4). unfold data_block. rewrite Es. split_and!; try done; [lia.. |].
  rewrite Hu by lia. done.
Qed.

(** The new entry. *)
Lemma entry_store s s' ip nb a d :
  pre_entry s ip nb -> fs_layout g s -> geom_ok g -> data_block g s a ->
  (forall bn, 0 <= bn < nb -> baddr s ip bn <> a) -> nth NDIRECT (i_addrs ip) 0 <> a ->
  vblock s (nth NDIRECT (i_addrs ip) 0) = Some d -> zlen d = BSIZE -> k_sb s' = k_sb s ->
  (forall y, 0 <= y -> vblock s' y = if y =? nth NDIRECT (i_addrs ip) 0
     then Some (lst32 d (4 * (nb - Z.of_nat NDIRECT)) a) else vblock s y) ->
  whole_file g s' ip (nb + 1) /\ same_file s s' ip ip nb /\ baddr s' ip nb = a.
Proof.
  intros [P1 P2 P3 P4 P5 P6] Hl Hg Ha Hna Hpa Hd Hlen Es V. set (p := nth NDIRECT (i_addrs ip) 0) in *.
  destruct (data_block_store s s' p _ Es P4 Hl V) as [Hu Hdb]. pose proof P4 as ([Hp _] & _).
  assert (forall bn, 0 <= bn < MAXFILE -> baddr s' ip bn = if bn =? nb then a else baddr s ip bn) as Eb.
  { intros bn Hbn. unfold baddr. fold p. destruct (Z.ltb_spec bn (Z.of_nat NDIRECT)).
    - by rewrite (proj2 (Z.eqb_neq bn nb)) by lia.
    - unfold vdata. rewrite V by lia. rewrite Z.eqb_refl, Hd. simpl.
      unfold MAXFILE, NDIRECT, NINDIRECT, BSIZE in *. destruct (Z.eqb_spec bn nb) as [->|N].
      + rewrite lld32_lst32 by lia. apply u32_small. destruct Ha as ([Hr _] & _). destruct Hg as (_ & _ & _ & G). lia.
      + apply lld32_lst32_ne; lia. }
  assert (forall bn, 0 <= bn < nb -> baddr s' ip bn = baddr s ip bn) as Ea
    by (intros bn Hbn; rewrite Eb by lia; by rewrite (proj2 (Z.eqb_neq bn nb)) by lia).
  split_and!; [|apply same_file_blocks; [done | | done] | rewrite Eb by lia; by rewrite Z.eqb_refl].
  - assert (forall bn, 0 <= bn < nb + 1 -> data_block g s' (baddr s' ip bn) /\ baddr s' ip bn <> p) as Hall.
    { intros bn Hbn. rewrite Eb by lia. destruct (Z.eqb_spec bn nb); [split; [by apply Hdb | congruence]|].
      split; [apply Hdb, P3; lia | apply P5; lia]. }
    split; [| lia | intros bn Hbn; by apply Hall | intros _; by apply Hdb | lia |].
    + split; [lia | apply P1 | | | |].
      * intros bn Hbn. destruct (Hall bn Hbn) as [(H1 & H2 & _) _]. split; [lia | done].
      * intros _. fold p. destruct P4 as (_ & ? & _). split; lia.
      * intros bn bm Hbn Hbm. rewrite !Eb by lia. destruct (Z.eqb_spec bn nb), (Z.eqb_spec bm nb); try lia.
        -- intros E. exfalso. by apply (Hna bm ltac:(lia)).
        -- intros E. exfalso. by apply (Hna bn ltac:(lia)).
        -- apply (mp_inj _ _ _ _ P1); lia.
      * intros bn Hbn _. by apply Hall.
    + intros bn _ Hbn. rewrite Eb by lia. rewrite (proj2 (Z.eqb_neq bn nb)) by lia. apply P6. lia.
  - intros x Hx (bn & Hbn & ->). destruct Hx as ([Hr _] & _). rewrite V by lia.
    by rewrite (proj2 (Z.eqb_neq _ _)) by (by apply P5).
Qed.

(** ** [bmap] of the next block *)

Lemma supply_same s s' c n :
  k_sb s' = k_sb s -> k_cur s' = k_cur s -> k_ptable s' = k_ptable s -> k_ctable s' = k_ctable s ->
  (forall a, 0 <= a < sb_size (k_sb s) -> used s' a = used s a) -> supply g s c n -> supply g s' c n.
Proof.
  intros E1 E2 E3 E4 Hu [Hl Hb (co & (p & pr & Q) & Hq) (l & Hn & Hlen & Hf)]. pose proof (fl_size _ _ Hl) as Hs.
  split.
  - split; rewrite E1; [done | apply Hl |]. intros a b Ha Hb' Ua. rewrite Hu in Ua by done. by apply (fl_free _ _ Hl).
  - rewrite Hu by lia. done.
  - exists co. split; [|done]. exists p, pr. by rewrite E2, E3, E4.
  - exists l. split_and!; try done. intros a Ha. destruct (Hf a Ha) as [Ra Ua]. rewrite E1, Hu by done. done.
Qed.

Lemma used_view s s' :
  fs_layout g s -> k_sb s' = k_sb s -> (forall y, 0 <= y -> vblock s' y = vblock s y) ->
  forall a, 0 <= a < sb_size (k_sb s) -> used s' a = used s a.
Proof. intros Hl Es V a Ha. by apply (used_ext g). Qed.

Lemma keeps_view s s' :
  fs_layout g s -> k_sb s' = k_sb s -> (forall y, 0 <= y -> vblock s' y = vblock s y) -> keeps s s'.
Proof.
  intros Hl Es V x (X1 & X2 & X3 & X4). split; [|apply V; lia]. unfold data_block. rewrite Es.
  split_and!; try done; [lia.. |]. by rewrite (used_view s s' Hl Es V) by lia.
Qed.

Lemma keeps_trans s1 s2 s3 : keeps s1 s2 -> keeps s2 s3 -> keeps s1 s3.
Proof. intros K1 K2 x Hx. destruct (K1 x Hx) as [H1 E1]. destruct (K2 x H1) as [H2 E2]. split; [done | congruence]. Qed.

(** What [bmap] of block [nb] leaves: the file is one block longer. *)
Record grew (s s' : kst) (i : nat) (ip ip' : inode) (nb : Z) (c : nat) (n : Z) (a : Z) : Prop := {
  gw_whole : whole_file g s' ip' (nb + 1);
  gw_same : same_file s s' ip ip' nb;
  gw_addr : baddr s' ip' nb = a;
  gw_supply : supply g s' c n;
  gw_blocks x : data_block g s x -> data_block g s' x /\ x <> a;
  gw_ptr x : data_block g s x -> nth NDIRECT (i_addrs ip) 0 <> x -> nth NDIRECT (i_addrs ip') 0 <> x;
  gw_inode : ip' = set_i_addrs (i_addrs ip') ip;
  gw_icache : k_icache s' = <[i := ip']> (k_icache s);
  gw_disk : k_disk s' = k_disk s;
  gw_sb : k_sb s' = k_sb s
}.

(** The second half of [bmap]: the entry in the indirect block. *)
Definition bmap_entry (i : nat) (addr bn : Z) : K Z :=
  ip <- get_inode i ;;
  bp <- bread (i_dev ip) addr ;;
  d <- bdata bp ;;
  let addr := lld32 d (4 * bn) in
  addr <- (if addr =? 0 then
    ip <- get_inode i ;;
    a <- balloc (i_dev ip) ;;
    upd_data bp (fun d => lst32 d (4 * bn) a) ;;
    log_write bp ;;
    ret a
  else ret addr) ;;
  brelse bp ;;
  ret addr.

Lemma bmap_split i bn s :
  Z.of_nat NDIRECT <= bn < MAXFILE ->
  bmap i bn s = (addr <- addr_or_alloc i NDIRECT ;; bmap_entry i addr (bn - Z.of_nat NDIRECT)) s.
Proof.
  intros Hr. unfold bmap. rewrite (proj2 (Z.ltb_ge bn _)) by lia.
  rewrite (proj2 (Z.ltb_lt _ NINDIRECT)) by (unfold MAXFILE, NINDIRECT, NDIRECT in *; lia). done.
Qed.

Lemma bmap_entry_code s s1 s2 s3 s4 s5 i ip p bn b d a :
  k_icache s !! i = Some ip -> k_icache s1 !! i = Some ip -> i_dev ip = 1 -> bread 1 p s = Ret b s1 ->
  holds s1 b p d -> lld32 d (4 * bn) = 0 -> balloc 1 s1 = Ret a s2 ->
  upd_data b (fun d => lst32 d (4 * bn) a) s2 = Ret tt s3 -> log_write b s3 = Ret tt s4 -> brelse b s4 = Ret tt s5 ->
  bmap_entry i p bn s = Ret a s5.
Proof.
  intros Hip Hip1 Hdev E1 Hh Ez E2 E3 E4 E5. unfold bmap_entry.
  rewrite (bind_Ret _ _ _ _ _ (get_inode_eq _ _ _ Hip)), Hdev, (bind_Ret _ _ _ _ _ E1).
  rewrite (bind_Ret _ _ _ _ _ (bdata_eq _ _ _ _ Hh)). cbv zeta. rewrite Ez. cbn [Z.eqb].
  erewrite (bind_Ret (bind _ _)) by (rewrite (bind_Ret _ _ _ _ _ (get_inode_eq _ _ _ Hip1)), Hdev,
    (bind_Ret _ _ _ _ _ E2), (bind_Ret _ _ _ _ _ E3), (bind_Ret _ _ _ _ _ E4); reflexivity).
  by rewrite (bind_Ret _ _ _ _ _ E5).
Qed.

Lemma pre_entry_zero s ip nb d :
  pre_entry s ip nb -> vblock s (nth NDIRECT (i_addrs ip) 0) = Some d -> lld32 d (4 * (nb - Z.of_nat NDIRECT)) = 0.
Proof.
  intros Pe Vd. pose proof (pe_range _ _ _ Pe) as Hr. pose proof (pe_end _ _ _ Pe nb ltac:(lia)) as Hz. unfold baddr in Hz.
  rewrite (proj2 (Z.ltb_ge nb _)) in Hz by lia. unfold vdata in Hz. by rewrite Vd in Hz.
Qed.

Lemma entry_spec s txn i ip nb c n :
  in_txn g s [] txn -> k_icache s !! i = Some ip -> i_dev ip = 1 -> pre_entry s ip nb ->
  supply g s c n -> 1 <= n -> log_room g txn 3 ->
  let p := nth NDIRECT (i_addrs ip) 0 in
  exists a s' txn', bmap_entry i p (nb - Z.of_nat NDIRECT) s = Ret a s' /\ in_txn g s' [] txn' /\
    logs txn txn' (if bool_decide (p ∈ txn) then 2 else 3) a /\ p ∈ txn' /\ grew s s' i ip ip nb c (n - 1) a.
Proof.
  intros Hin Hip Hdev Pe Su Hn Hlr p. pose proof (su_layout _ _ _ _ Su) as Hl.
  pose proof (la_geom _ _ _ (it_log _ _ _ _ Hin)) as Hg. pose proof (pe_ptr _ _ _ Pe) as Hp. fold p in Hp. pose proof Hp as ([Hpr _] & _).
  assert (buf_room [] txn 3) as Hb by (unfold buf_room, log_room, NBUF, LOGSIZE, MAXOPBLOCKS, zlen in *; simpl; lia).
  destruct (fs_bread g s [] txn p Hin Hpr) as (b & s1 & d & E1 & O1 & I1 & _ & Vd & S1 & V1);
    [by intros ? ? ?%not_elem_of_nil | by eapply buf_room_le; [exact Hb | simpl; lia] |].
  assert (k_sb s1 = k_sb s) as Es1 by (by rewrite O1).
  pose proof (keeps_view s s1 Hl Es1 (sv_vblock _ _ _ V1)) as K1.
  destruct (pre_entry_keeps s s1 ip nb K1 Pe) as [Pe1 Sf1].
  assert (supply g s1 c n) as Su1.
  { apply (supply_same s); try (by rewrite O1); [|done]. apply used_view; [done | done | apply V1]. }
  destruct (alloc_step s1 [b] txn c n I1 Su1 Hn) as (a & s2 & txn2 & E2 & I2 & L2 & Su2 & Ha & Ua & _ & K2 & H2 & Ed2 & Ei2 & Es2).
  { intros j x e ->%list_elem_of_singleton Hh. destruct (holds_inj _ _ _ _ _ _ Hh (proj1 S1)) as [-> _]. by apply K1. }
  { eapply buf_room_le; [exact Hb | simpl; lia]. }
  { unfold log_room in *. lia. }
  assert (keeps s1 s2) as K2' by (intros x Hx; destruct (K2 x Hx) as (? & _ & ?); done).
  destruct (pre_entry_keeps s1 s2 ip nb K2' Pe1) as [Pe2 Sf2].
  pose proof (H2 b p d ltac:(set_solver) (proj1 S1)) as Hh2.
  destruct (fs_commit_buf g s2 [] txn2 b p d (fun d => lst32 d (4 * (nb - Z.of_nat NDIRECT)) a) I2 Hh2)
    as (s3 & s4 & s5 & E3 & E4 & E5 & F5 & I5 & V5 & _).
  { apply lst32_ok. by eapply vblock_block_ok; [apply Hin | exact Vd]. }
  { apply Hp. }
  { destruct L2 as (_ & L2 & _). unfold log_room in *. lia. }
  pose proof (fs_frame_disk _ _ F5) as (Ed5 & Es5 & Ec5 & Ep5 & Eu5 & Ei5 & _).
  assert (vblock s2 p = Some d) as Vd2.
  { rewrite (proj2 (K2' p (proj1 (K1 p Hp)))), (sv_vblock _ _ _ V1) by lia. done. }
  assert (forall x, data_block g s x -> data_block g s2 x /\ x <> a) as Hd2.
  { intros x Hx. destruct (K2 x (proj1 (K1 x Hx))) as (? & ? & _). done. }
  destruct (data_block_store s2 s5 p _ Es5 (pe_ptr _ _ _ Pe2) (su_layout _ _ _ _ Su2) V5) as [Hu5 Hdb5].
  destruct (entry_store s2 s5 ip nb a d Pe2 (su_layout _ _ _ _ Su2) Hg Ha) as (W & Sf3 & Ea); try done.
  { intros bn Hbn. rewrite (sf_addr _ _ _ _ _ Sf2 bn Hbn), (sf_addr _ _ _ _ _ Sf1 bn Hbn).
    apply Hd2. by apply (pe_block _ _ _ Pe). }
  { fold p. by apply Hd2. }
  { by eapply vblock_block_ok; [apply Hin | exact Vd]. }
  exists a, s5, (log_add p txn2). split_and!; [| done | | apply logs_add |].
  - apply (bmap_entry_code s s1 s2 s3 s4 s5 i ip p _ b d a); try done; [by rewrite O1 | apply S1 | by eapply pre_entry_zero].
  - destruct L2 as (L1 & L2 & L3). destruct (bool_decide_reflect (p ∈ txn)) as [Hi|_].
    + rewrite logs_again by (by apply L1). done.
    + pose proof (logs_add p txn2) as (M1 & M2 & _). split_and!; [set_solver | lia | by apply M1].
  - split; try done.
    + eapply same_file_trans; [exact Sf1|]. by eapply same_file_trans.
    + apply (supply_same s2); done.
    + intros x Hx. destruct (Hd2 x Hx) as [? ?]. split; [by apply Hdb5 | done].
    + rewrite Ei5, Ei2, O1. simpl. by rewrite list_insert_id.
    + rewrite Ed5, Ed2. by rewrite O1.
    + by rewrite Es5, Es2.
Qed.

(** An empty slot of the inode. *)
Lemma addr_fresh s txn i ip k c n :
  in_txn g s [] txn -> k_icache s !! i = Some ip -> i_dev ip = 1 -> (k < length (i_addrs ip))%nat ->
  nth k (i_addrs ip) 0 = 0 -> supply g s c n -> 1 <= n -> log_room g txn 2 ->
  exists a s' txn', addr_or_alloc i k s = Ret a s' /\ in_txn g s' [] txn' /\ logs txn txn' 2 a /\
    supply g s' c (n - 1) /\ data_block g s' a /\ used s a = false /\ vblock s' a = Some zeros /\ keeps s s' /\
    (forall x, data_block g s x -> x <> a) /\ k_disk s' = k_disk s /\ k_sb s' = k_sb s /\
    k_icache s' = <[i := set_i_addrs (<[k := a]> (i_addrs ip)) ip]> (k_icache s).
Proof.
  intros Hin Hip Hdev Hk Hz Su Hn Hlr.
  assert (buf_room [] txn 2) as Hb by (unfold buf_room, log_room, NBUF, LOGSIZE, MAXOPBLOCKS, zlen in *; simpl; lia).
  destruct (alloc_step s [] txn c n Hin Su Hn) as (a & s1 & txn1 & E & I & L & S1 & Ha & Ua & Va & K & _ & Ed & Ei & Es); try done.
  { by intros ? ? ? ?%not_elem_of_nil. }
  assert (k_icache s1 !! i = Some ip) as Hip1 by (by rewrite Ei).
  exists a, (set_k_icache (alter (fun ip => set_i_addrs (<[k := a]> (i_addrs ip)) ip) i (k_icache s1)) s1), txn1.
  split_and!; try done.
  - unfold addr_or_alloc, get_addr. destruct (lookup_lt_is_Some_2 _ _ Hk) as [z Hz'].
    assert (z = 0) as -> by (rewrite <- Hz; symmetry; by apply nth_lookup_Some).
    erewrite (bind_Ret (bind _ _)) by (rewrite (bind_Ret _ _ _ _ _ (get_inode_eq _ _ _ Hip)), Hz'; reflexivity).
    cbn [Z.eqb]. rewrite (bind_Ret _ _ _ _ _ (get_inode_eq _ _ _ Hip)), Hdev, (bind_Ret _ _ _ _ _ E).
    unfold set_addr. by rewrite (bind_Ret _ _ _ _ _ (upd_inode_eq _ _ _ _ Hip1)).
  - by apply in_txn_icache.
  - by apply (supply_same s1).
  - intros x Hx. destruct (K x Hx) as (? & _ & ?). done.
  - intros x Hx. by destruct (K x Hx) as (_ & ? & _).
  - simpl. rewrite Ei. by rewrite (alter_insert_at _ _ _ ip).
Qed.

Lemma lld32_zeros k : lld32 zeros k = 0.
Proof.
  assert (forall j, lget zeros j = 0) as E.
  { intros j. unfold lget, zeros. destruct (replicate _ _ !! _) eqn:E; [|done]. by apply lookup_replicate in E as [-> _]. }
  unfold lld32. by rewrite !E.
Qed.

(** The indirect block, just taken. *)
Lemma fresh_pre_entry s s' ip p :
  keeps s s' -> whole_file g s ip (Z.of_nat NDIRECT) -> data_block g s' p -> used s p = false ->
  vblock s' p = Some zeros ->
  let ip' := set_i_addrs (<[NDIRECT := p]> (i_addrs ip)) ip in
  pre_entry s' ip' (Z.of_nat NDIRECT) /\ same_file s s' ip ip' (Z.of_nat NDIRECT) /\
  nth NDIRECT (i_addrs ip') 0 = p.
Proof.
  intros Hk [Wm Wn Wb Wi Wf We] Hp Up Vp ip'. pose proof (mp_len _ _ _ _ Wm) as Hlen.
  assert (NDIRECT < length (i_addrs ip))%nat as Hlt by (rewrite Hlen; lia).
  assert (nth NDIRECT (i_addrs ip') 0 = p) as Ep
    by (unfold ip'; cbn [i_addrs set_i_addrs]; rewrite nth_insert by done; by rewrite Nat.eqb_refl).
  assert (forall bn, 0 <= bn < Z.of_nat NDIRECT -> baddr s' ip' bn = baddr s ip bn) as Ea.
  { intros bn Hbn. unfold baddr, ip'. rewrite (proj2 (Z.ltb_lt bn _)) by lia. cbn [i_addrs set_i_addrs].
    rewrite nth_insert by done. by rewrite (proj2 (Nat.eqb_neq _ _)) by lia. }
  assert (forall bn, 0 <= bn < Z.of_nat NDIRECT -> data_block g s' (baddr s' ip' bn) /\ baddr s' ip' bn <> p) as Hb.
  { intros bn Hbn. rewrite Ea by done. split; [by apply Hk, Wb|]. intros E. destruct (Wb bn Hbn) as (_ & _ & U & _). congruence. }
  split_and!; [| apply same_file_blocks; [done | intros x Hx _; by apply Hk | done] | done].
  split; rewrite ?Ep; [| done | | done | |].
  - split; [apply Wm | unfold ip'; simpl; by rewrite length_insert | | lia | | lia].
    + intros bn Hbn. destruct (Hb bn Hbn) as [(? & ? & _) _]. split; [lia | done].
    + intros bn bm Hbn Hbm. rewrite !Ea by done. by apply (mp_inj _ _ _ _ Wm).
  - intros bn Hbn. by apply Hb.
  - intros bn Hbn. by apply Hb.
  - intros bn Hbn. unfold baddr. rewrite (proj2 (Z.ltb_ge bn _)), Ep by lia. unfold vdata. rewrite Vp. apply lld32_zeros.
Qed.

(** How many blocks the next block of the file costs. *)
Definition block_cost (nb : Z) : Z := if nb =? Z.of_nat NDIRECT then 2 else 1.

(** ... and how much of the log the indirect block still costs. *)
Definition ptr_cost (nb : Z) (ip : inode) (txn : list Z) : Z :=
  if nb <=? Z.of_nat NDIRECT then 2
  else if bool_decide (nth NDIRECT (i_addrs ip) 0 ∈ txn) then 0 else 1.

Lemma ptr_cost_nonneg nb ip txn : 0 <= ptr_cost nb ip txn.
Proof. unfold ptr_cost. repeat case_match; lia. Qed.

Lemma ptr_cost_mono nb ip txn txn' : txn ⊆ txn' -> ptr_cost nb ip txn' <= ptr_cost nb ip txn.
Proof. intros H. unfold ptr_cost. repeat case_match; try lia. rewrite bool_decide_eq_true in *. rewrite bool_decide_eq_false in *. set_solver. Qed.

Lemma bmap_grow s txn i ip nb c n :
  in_txn g s [] txn -> k_icache s !! i = Some ip -> i_dev ip = 1 -> whole_file g s ip nb -> nb < MAXFILE ->
  supply g s c n -> block_cost nb <= n -> log_room g txn (3 + ptr_cost nb ip txn) ->
  exists a s' txn' ip', bmap i nb s = Ret a s' /\ in_txn g s' [] txn' /\
    logs txn txn' (2 + ptr_cost nb ip txn - ptr_cost (nb + 1) ip' txn') a /\
    grew s s' i ip ip' nb c (n - block_cost nb) a.
Proof.
  intros Hin Hip Hdev W Hnb Su Hn Hlr. pose proof (wh_nonneg _ _ _ _ W) as H0. pose proof (mp_len _ _ _ _ (wh_mapped _ _ _ _ W)) as Hlen.
  pose proof (ptr_cost_nonneg nb ip txn) as Hpc.
  assert (log_room g txn 2 /\ log_room g txn 3) as [Hl2 Hl3] by (unfold log_room in *; lia). unfold block_cost in *.
  destruct (decide (nb < Z.of_nat NDIRECT)) as [Hd|Hd].
  - rewrite (proj2 (Z.eqb_neq nb _)) in * by lia.
    destruct (addr_fresh s txn i ip (Z.to_nat nb) c n) as (a & s' & txn' & E & I & L & S' & Ha & Ua & Va & K & Ne & Ed & Es & Ei); try done; try lia.
    { apply (wh_free _ _ _ _ W); lia. }
    destruct (whole_direct s s' ip nb a K W Hd Ha Ua) as (W' & Sf & Ea). set (ip' := set_i_addrs _ ip) in *.
    exists a, s', txn', ip'. split_and!; try done; [unfold bmap; by rewrite (proj2 (Z.ltb_lt nb _) Hd) | |].
    { unfold ptr_cost. rewrite !(proj2 (Z.leb_le _ _)) by lia. exact L. }
    split; try done; [intros x Hx; split; [by apply K | by apply Ne]|].
    intros x _. unfold ip'. cbn [i_addrs set_i_addrs]. rewrite nth_insert by lia. by rewrite (proj2 (Nat.eqb_neq _ _)) by lia.
  - rewrite bmap_split by lia. destruct (decide (nb = Z.of_nat NDIRECT)) as [->|Hne].
    + rewrite Z.eqb_refl in *.
      destruct (addr_fresh s txn i ip NDIRECT c n) as (p & s1 & txn1 & E & I & L & S1 & Hp & Up & Vp & K & Ne & Ed & Es & Ei); try done; try lia.
      { apply (wh_free _ _ _ _ W); lia. }
      destruct (fresh_pre_entry s s1 ip p K W Hp Up Vp) as (Pe & Sf & Ep). set (ip1 := set_i_addrs _ ip) in *.
      destruct (entry_spec s1 txn1 i ip1 (Z.of_nat NDIRECT) c (n - 1)) as (a & s' & txn' & E' & I' & L' & Lp & G); try done; try lia.
      { rewrite Ei. apply list_lookup_insert_eq. by eapply lookup_lt_Some. }
      { destruct L as (_ & L & _). unfold log_room, ptr_cost in *. rewrite Z.leb_refl in Hlr. lia. }
      rewrite Ep in E', L', Lp. rewrite bool_decide_eq_true_2 in L' by apply L.
      exists a, s', txn', ip1. rewrite (bind_Ret _ _ _ _ _ E). split_and!; [exact E' | done | |].
      { unfold ptr_cost. rewrite Z.leb_refl, (proj2 (Z.leb_gt _ _)), Ep, bool_decide_eq_true_2 by (done || lia).
        apply (logs_trans _ _ _ 2 2 _ _ L L'). }
      destruct G as [G1 G2 G3 G4 G5 G6 G7 G8 G9 G10]. split; try done.
      * by eapply same_file_trans.
      * by replace (n - 2) with (n - 1 - 1) by lia.
      * intros x Hx. apply G5, K, Hx.
      * intros x Hx _. rewrite Ep. intros ->. by apply (Ne x).
      * rewrite G8, Ei. by rewrite list_insert_insert_eq.
      * congruence.
      * congruence.
    + rewrite (proj2 (Z.eqb_neq nb _)) in * by lia.
      assert (pre_entry s ip nb) as Pe by (apply whole_pre_entry; [done | lia]).
      destruct (entry_spec s txn i ip nb c n) as (a & s' & txn' & E' & I' & L' & Lp & G); try done; try lia.
      exists a, s', txn', ip. split_and!; [| done | | done].
      2:{ unfold ptr_cost. rewrite !(proj2 (Z.leb_gt _ _)), (bool_decide_eq_true_2 _ Lp) by lia.
          destruct (bool_decide (nth NDIRECT (i_addrs ip) 0 ∈ txn)); exact L'. }
      erewrite (bind_Ret (addr_or_alloc _ _)); [exact E'|]. apply addr_mapped; [done | lia |].
      destruct (pe_ptr _ _ _ Pe) as (_ & ? & _). lia.
Qed.

(** ** The loop of [writei] *)

Lemma whole_keeps s s' ip nb : keeps s s' -> whole_file g s ip nb -> whole_file g s' ip nb /\ same_file s s' ip ip nb.
Proof.
  intros Hk [Wm Wn Wb Wi Wf We].
  assert (forall bn, 0 <= bn < nb -> baddr s' ip bn = baddr s ip bn) as E.
  { intros bn Hbn. apply baddr_keeps; [done|]. destruct (Z.ltb_spec bn (Z.of_nat NDIRECT)); [by left | right; apply Wi; lia]. }
  split; [|apply same_file_blocks; [done | intros x Hx _; by apply Hk | done]].
  split; [by eapply mapped_keeps | done | | | done |].
  - intros bn Hbn. rewrite E by done. by apply Hk, Wb.
  - intros Hn. by apply Hk, Wi.
  - intros bn Hn Hbn. rewrite (baddr_keeps s s') by (try done; right; by apply Wi). by apply We.
Qed.

(** Replacing the content of a block, of the file or not, that is not its indirect block. *)
Lemma whole_store s s' ip nb x d :
  whole_file g s ip nb -> fs_layout g s -> data_block g s x ->
  (Z.of_nat NDIRECT < nb -> nth NDIRECT (i_addrs ip) 0 <> x) -> k_sb s' = k_sb s ->
  (forall y, 0 <= y -> vblock s' y = if y =? x then d else vblock s y) -> whole_file g s' ip nb.
Proof.
  intros [Wm Wn Wb Wi Wf We] Hl Hx Hp Es V. destruct (data_block_store s s' x d Es Hx Hl V) as [_ Hdb].
  assert (forall bn, bn < Z.of_nat NDIRECT \/ Z.of_nat NDIRECT < nb -> baddr s' ip bn = baddr s ip bn) as E.
  { intros bn Hbn. unfold baddr. destruct (Z.ltb_spec bn (Z.of_nat NDIRECT)); [done|]. destruct Hbn as [?|Hn]; [lia|].
    destruct (Wi Hn) as (_ & ? & _). unfold vdata. rewrite V by lia. by rewrite (proj2 (Z.eqb_neq _ _) (Hp Hn)). }
  assert (forall bn, 0 <= bn < nb -> baddr s' ip bn = baddr s ip bn) as E' by (intros bn Hbn; apply E; lia).
  split; [by eapply mapped_keeps | done | | | done |].
  - intros bn Hbn. rewrite E' by done. by apply Hdb, Wb.
  - intros Hn. by apply Hdb, Wi.
  - intros bn Hn Hbn. rewrite E by (by right). by apply We.
Qed.

(** How many blocks it takes to make a file of [nb] blocks one of [e]. *)
Definition needs (nb e : Z) : Z :=
  Z.max 0 (e - nb) + (if (nb <=? Z.of_nat NDIRECT) && (Z.of_nat NDIRECT <? e) then 1 else 0).

Lemma needs_step nb e : nb < e -> needs nb e = block_cost nb + needs (nb + 1) e /\ 0 <= needs (nb + 1) e.
Proof.
  intros H. unfold needs, block_cost. destruct (Z.eqb_spec nb (Z.of_nat NDIRECT)), (Z.leb_spec nb (Z.of_nat NDIRECT)),
    (Z.ltb_spec (Z.of_nat NDIRECT) e), (Z.leb_spec (nb + 1) (Z.of_nat NDIRECT)); cbn [andb]; lia.
Qed.

Lemma needs_enough nb e : e <= nb -> needs nb e = 0.
Proof.
  intros H. unfold needs. destruct (Z.leb_spec nb (Z.of_nat NDIRECT)), (Z.ltb_spec (Z.of_nat NDIRECT) e); cbn [andb]; lia.
Qed.

Section writing.
Context (s : kst) (i : nat) (ip : inode) (nb lo n e : Z) (src : list Z) (c : nat) (spare : Z).

(** From [s] to [t] the bytes from [lo] to [off] were written; the inode is [ipt] now and
    its file has [nbt] blocks. *)
Record growing (t : kst) (ipt : inode) (nbt off : Z) : Prop := {
  gr_whole : whole_file g t ipt nbt;
  gr_count : nb <= nbt <= Z.max nb e;
  gr_end : off <= nbt * BSIZE;
  gr_byte k : 0 <= k < Z.max (nb * BSIZE) off ->
    fbyte t ipt k = if (lo <=? k) && (k <? off) then lget src (k - lo) else fbyte s ip k;
  gr_apart : apart g t ipt nbt;
  gr_home : data_block g t (iblock t (i_inum ipt));
  gr_supply : supply g t c (spare + needs nbt e);
  gr_inode : ipt = set_i_addrs (i_addrs ipt) ip;
  gr_icache : k_icache t = <[i := ipt]> (k_icache s);
  gr_disk : k_disk t = k_disk s;
  gr_sb : k_sb t = k_sb s
}.

(** Reads change nothing of it. *)
Lemma growing_view t t' ipt nbt off : growing t ipt nbt off -> only_bufs t t' -> same_view [] t t' -> growing t' ipt nbt off.
Proof.
  intros [G1 G2 G3 G4 [A1 A2 A3] G5 G6 G7 G8 G9 G10] O V.
  assert (k_sb t' = k_sb t) as Es by (by rewrite O).
  pose proof (su_layout _ _ _ _ G6) as Hl. pose proof (keeps_view t t' Hl Es (sv_vblock _ _ _ V)) as K.
  destruct (whole_keeps t t' ipt nbt K G1) as [W [Sa Sb]].
  assert (iblock t' (i_inum ipt) = iblock t (i_inum ipt)) as Ei by (unfold iblock; by rewrite Es).
  split; rewrite ?Ei; try done.
  - intros k Hk. rewrite Sb by (unfold BSIZE in *; lia). by apply G4.
  - split; rewrite ?Ei; try done. intros bn Hbn. rewrite Sa by done. by apply A2.
  - by apply K.
  - apply (supply_same t); try (by rewrite O); [|done]. apply used_view; [done | done | apply V].
  - by rewrite O.
  - by rewrite O.
  - by rewrite Es.
Qed.

(** [bmap] of the block that holds byte [off]: there already, or the next one. *)
Lemma bmap_next t ipt nbt off txn :
  growing t ipt nbt off -> in_txn g t [] txn -> (i < length (k_icache s))%nat -> i_dev ip = 1 -> 0 <= spare ->
  0 <= off < e * BSIZE -> e <= MAXFILE -> log_room g txn (3 + ptr_cost nbt ipt txn) ->
  exists a t1 txn1 ip1 nb1, bmap i (off / BSIZE) t = Ret a t1 /\ in_txn g t1 [] txn1 /\
    growing t1 ip1 nb1 off /\ off / BSIZE < nb1 /\ a = baddr t1 ip1 (off / BSIZE) /\
    zlen (log_add a txn1) + ptr_cost nb1 ip1 (log_add a txn1) <= zlen txn + 2 + ptr_cost nbt ipt txn /\
    zlen txn1 <= zlen txn + 2 + ptr_cost nbt ipt txn.
Proof.
  intros G Hin Hi Hdev Hsp Hoff He Hlr. pose proof G as [G1 G2 G3 G4 [A1 A2 A3] G5 G6 G7 G8 G9 G10].
  assert (k_icache t !! i = Some ipt) as Hipt by (rewrite G8; by apply list_lookup_insert_eq).
  assert (i_dev ipt = 1) as Hdt by (by rewrite G7).
  pose proof (wh_nonneg _ _ _ _ G1) as Hnn. pose proof (ptr_cost_nonneg nbt ipt txn) as Hp0.
  destruct (Z.ltb_spec off (nbt * BSIZE)) as [Hlt|Hge].
  - pose proof (block_index off nbt ltac:(lia)) as Hb. pose proof (wh_mapped _ _ _ _ G1) as Hm.
    destruct (bmap_mapped g t txn i ipt nbt _ Hin Hipt Hdt Hm Hb) as (t1 & E & O & I & V).
    { unfold buf_room, log_room, NBUF, LOGSIZE, MAXOPBLOCKS, zlen in *. simpl. lia. }
    assert (baddr t1 ipt (off / BSIZE) = baddr t ipt (off / BSIZE)) as Ea by (eapply (baddr_ext g); [done | done | apply V]).
    exists (baddr t ipt (off / BSIZE)), t1, txn, ipt, nbt.
    pose proof (logs_add (baddr t ipt (off / BSIZE)) txn) as (L1 & L2 & _). pose proof (ptr_cost_mono nbt ipt _ _ L1).
    split_and!; try done; try lia. by eapply growing_view.
  - assert (off = nbt * BSIZE) as -> by lia.
    assert (nbt * BSIZE / BSIZE = nbt) as -> by (unfold BSIZE; zlia).
    assert (nbt < e) as Hne by (unfold BSIZE in *; lia). destruct (needs_step nbt e Hne) as [En Hn0].
    destruct (bmap_grow t txn i ipt nbt c (spare + needs nbt e) Hin Hipt Hdt G1) as (a & t1 & txn1 & ip1 & E & I & (L1 & L2 & L3) & Gw);
      try done; try lia.
    exists a, t1, txn1, ip1, (nbt + 1). rewrite (logs_again _ _ L3).
    destruct Gw as [W1 [Sa Sb] W3 W4 W5 W6 W7 W8 W9 W10].
    assert (i_inum ip1 = i_inum ipt) as Eu by (by rewrite W7).
    assert (iblock t1 (i_inum ip1) = iblock t (i_inum ipt)) as Ei by (rewrite Eu; unfold iblock; by rewrite W10).
    pose proof (ptr_cost_nonneg (nbt + 1) ip1 txn1). split_and!; try done; try lia.
    split; rewrite ?Ei; try done; try (unfold BSIZE in *; lia).
    + intros k Hk. rewrite Sb by (unfold BSIZE in *; lia). apply G4. unfold BSIZE in *; lia.
    + split; rewrite ?Ei; [done | | by apply W6]. intros bn Hbn. destruct (decide (bn = nbt)) as [->|].
      * rewrite W3. apply not_eq_sym. by apply W5.
      * rewrite Sa by lia. apply A2. lia.
    + by apply W5.
    + by replace (spare + needs (nbt + 1) e) with (spare + needs nbt e - block_cost nbt) by lia.
    + rewrite W7, G7. done.
    + rewrite W8, G8. by rewrite list_insert_insert_eq.
    + congruence.
    + congruence.
Qed.

(** One chunk stored. *)
Lemma growing_store t t' ipt nbt off m d :
  growing t ipt nbt off -> 0 <= lo <= off -> 0 < m -> off mod BSIZE + m <= BSIZE -> off / BSIZE < nbt ->
  off - lo + m <= zlen src -> zlen d = BSIZE -> fs_frame t t' ->
  let x := baddr t ipt (off / BSIZE) in
  vblock t x = Some d ->
  (forall y, 0 <= y -> vblock t' y =
     if y =? x then Some (splice d (off mod BSIZE) (piece src (off - lo) m)) else vblock t y) ->
  growing t' ipt nbt (off + m).
Proof.
  intros G Hlo Hm Hfit Hbn Hsrc Hd F x Hx V. pose proof G as [G1 G2 G3 G4 [A1 A2 A3] G5 G6 G7 G8 G9 G10].
  pose proof (fs_frame_disk _ _ F) as (Ed & Es & Ec & Ep & Eu & Eic & _).
  assert (0 <= off / BSIZE < nbt) as Hb by (unfold BSIZE in *; split; [zlia | done]).
  assert (off + m <= nbt * BSIZE) as Hend by (unfold BSIZE in *; zlia).
  pose proof (wh_mapped _ _ _ _ G1) as Hmp. pose proof (wh_block _ _ _ _ G1 _ Hb) as Hdb. fold x in Hdb.
  pose proof (su_layout _ _ _ _ G6) as Hl. destruct (data_block_store t t' x _ Es Hdb Hl V) as [Hu Hdb'].
  destruct (wrote_step g t t t' ipt nbt off off m (drop (Z.to_nat (off - lo)) src) d Hmp) as [B1 B2 _]; try done; try lia.
  { split; [|done|done]. intros k _. destruct (Z.leb_spec off k), (Z.ltb_spec k off); done || lia. }
  { unfold zlen in *. rewrite length_drop. lia. }
  { intros y Hy. rewrite V by done. rewrite Z.sub_diag. done. }
  assert (iblock t' (i_inum ipt) = iblock t (i_inum ipt)) as Ei by (unfold iblock; by rewrite Es).
  split; rewrite ?Ei; try done.
  - refine (whole_store t t' ipt nbt x _ G1 Hl Hdb _ Es V).
    intros Hn E. by apply (mp_noind _ _ _ _ Hmp (off / BSIZE) Hb Hn).
  - intros k Hk. rewrite B1 by (unfold BSIZE in *; lia).
    destruct (Z.leb_spec off k), (Z.ltb_spec k (off + m)); cbn [andb].
    + rewrite (proj2 (Z.leb_le lo k)) by lia. cbn [andb]. unfold lget. rewrite lookup_drop. do 2 f_equal. lia.
    + rewrite G4 by lia. by rewrite (proj2 (Z.ltb_ge k off)) by lia.
    + rewrite G4 by lia. by rewrite (proj2 (Z.ltb_lt k off)) by lia.
    + lia.
  - split; rewrite ?Ei; try done. intros bn Hbn'. rewrite B2 by done. by apply A2.
  - by apply Hdb'.
  - by apply (supply_same t).
  - congruence.
  - congruence.
  - congruence.
Qed.

(** One turn of the loop. *)
Definition write_turn : Z * Z -> K (Z * Z + Z) := fun '(tot, off) =>
  if tot <? n then
    a <- bmap i (off / BSIZE) ;;
    ip <- get_inode i ;;
    bp <- bread (i_dev ip) a ;;
    let m := Z.min (n - tot) (BSIZE - off mod BSIZE) in
    upd_data bp (fun d => splice d (off mod BSIZE) (take (Z.to_nat m) (drop (Z.to_nat tot) src))) ;;
    log_write bp ;;
    brelse bp ;;
    ret (inl (tot + m, off + m))
  else ret (inr off).

Hypotheses (Hi : (i < length (k_icache s))%nat) (Hdev : i_dev ip = 1) (Hspare : 0 <= spare) (Hlo : 0 <= lo).
Hypotheses (He : lo + n <= e * BSIZE) (Hmax : e <= MAXFILE) (Hsrc : n <= zlen src).
Hypothesis Hbytes : Forall (fun x => 0 <= x < 256) src.

Lemma write_turn_spec t ipt nbt tot txn :
  let off := lo + tot in
  let m := Z.min (n - tot) (BSIZE - off mod BSIZE) in
  growing t ipt nbt off -> in_txn g t [] txn -> 0 <= tot < n -> log_room g txn (3 + ptr_cost nbt ipt txn) ->
  exists t' ip' nb' txn', write_turn (tot, off) t = Ret (inl (tot + m, off + m)) t' /\
    growing t' ip' nb' (off + m) /\ in_txn g t' [] txn' /\
    zlen txn' + ptr_cost nb' ip' txn' <= zlen txn + 2 + ptr_cost nbt ipt txn.
Proof.
  intros off m G I Ht Hl.
  destruct (bmap_next t ipt nbt off txn G I) as (a & t1 & txn1 & ip1 & nb1 & E1 & I1 & G1 & Hb1 & Ea & L1 & L2); try done; try lia.
  pose proof (gr_whole _ _ _ _ G1) as W1. pose proof (ptr_cost_nonneg nbt ipt txn) as Hp0.
  assert (0 <= off / BSIZE < nb1) as Hb by (split; [apply Z.div_pos; [lia | done] | done]).
  destruct (wh_block _ _ _ _ W1 _ Hb) as (Hx & _). rewrite <- Ea in Hx.
  assert (log_room g txn1 1) as Hl1 by (unfold log_room in *; lia).
  destruct (fs_bread g t1 [] txn1 a I1 (proj1 Hx)) as (b & t2 & d & E2 & O2 & I2 & _ & Vd & S2 & V2).
  { by intros ? ? ?%not_elem_of_nil. }
  { unfold buf_room, log_room, NBUF, LOGSIZE, MAXOPBLOCKS, zlen in *. simpl. lia. }
  pose proof (growing_view _ _ _ _ _ G1 O2 V2) as G2.
  assert (baddr t2 ip1 (off / BSIZE) = a) as Ea2
    by (rewrite Ea; eapply (baddr_ext g); [apply W1 | done | apply V2]).
  assert (block_ok d) as Hd by (by eapply vblock_block_ok; [apply I1|]).
  pose proof (chunk_fits off (n - tot)) as Hf. fold m in Hf.
  assert (0 <= off mod BSIZE < BSIZE) as Hmod by (apply Z.mod_pos_bound; done).
  destruct (fs_commit_buf g t2 [] txn1 b a d (fun d => splice d (off mod BSIZE) (piece src tot m)) I2 (proj1 S2))
    as (t3 & t4 & t5 & E4 & E5 & E6 & F6 & I6 & V6 & _); [| done | done |].
  { apply splice_ok; [done | lia | rewrite zlen_piece; lia | by apply Forall_take, Forall_drop]. }
  exists t5, ip1, nb1, (log_add a txn1). split_and!; [| | done | done].
  - unfold write_turn. rewrite (proj2 (Z.ltb_lt tot n)), (bind_Ret _ _ _ _ _ E1) by lia.
    rewrite (bind_Ret _ _ _ _ _ (get_inode_eq i ip1 t1 ltac:(rewrite (gr_icache _ _ _ _ G1); by apply list_lookup_insert_eq))).
    assert (i_dev ip1 = 1) as -> by (by rewrite (gr_inode _ _ _ _ G1)). rewrite (bind_Ret _ _ _ _ _ E2).
    fold m. cbv zeta. fold (piece src tot m).
    by rewrite (bind_Ret _ _ _ _ _ E4), (bind_Ret _ _ _ _ _ E5), (bind_Ret _ _ _ _ _ E6).
  - refine (growing_store t2 t5 ip1 nb1 off m d G2 ltac:(lia) ltac:(lia) ltac:(lia) ltac:(lia) ltac:(lia) (proj1 Hd) F6 _ _);
      rewrite Ea2; [rewrite (sv_vblock _ _ _ V2) by (destruct Hx; lia); done |].
    replace (off - lo) with tot by (unfold off; lia). done.
Qed.

Lemma write_turns fuel : forall t ipt nbt tot txn,
  growing t ipt nbt (lo + tot) -> in_txn g t [] txn -> 0 <= tot <= n ->
  log_room g txn (2 * chunks (lo + tot) (n - tot) + ptr_cost nbt ipt txn + 1) ->
  chunks (lo + tot) (n - tot) < Z.of_nat fuel ->
  exists t' ip' nb' txn', loop fuel write_turn (tot, lo + tot) t = Ret (lo + n) t' /\
    growing t' ip' nb' (lo + n) /\ in_txn g t' [] txn' /\
    zlen txn' <= zlen txn + 2 * chunks (lo + tot) (n - tot) + ptr_cost nbt ipt txn.
Proof.
  induction fuel as [|fuel IH]; intros t ipt nbt tot txn G I Ht Hl Hc;
    pose proof (chunks_nonneg (lo + tot) (n - tot) ltac:(lia)); [lia|].
  pose proof (ptr_cost_nonneg nbt ipt txn) as Hp0.
  destruct (decide (tot = n)) as [->|Hne].
  { exists t, ipt, nbt, txn. split_and!; try done; [|lia].
    apply loop_done. unfold write_turn. by rewrite Z.ltb_irrefl. }
  destruct (chunks_step (lo + tot) (n - tot) ltac:(lia) ltac:(lia)) as (M1 & M2 & M3).
  destruct (write_turn_spec t ipt nbt tot txn G I ltac:(lia)) as (t1 & ip1 & nb1 & txn1 & E1 & G1 & I1 & L1).
  { unfold log_room in *. lia. }
  set (m := Z.min (n - tot) (BSIZE - (lo + tot) mod BSIZE)) in *.
  replace (n - tot - m) with (n - (tot + m)) in M2, M3 by lia. rewrite <- Z.add_assoc in M2, M3, G1.
  destruct (IH t1 ip1 nb1 (tot + m) txn1 G1 I1) as (t' & ip' & nb' & txn' & E & G' & I' & L'); [lia | | lia |].
  { unfold log_room in *. lia. }
  exists t', ip', nb', txn'. split_and!; try done; [|lia].
  rewrite <- E, Z.add_assoc. by apply loop_next.
Qed.
End writing.

(** ** The size, and the whole of [writei] *)

(** The blocks a file of [z] bytes has. *)
Definition blocks (z : Z) : Z := (z + BSIZE - 1) / BSIZE.

Lemma whole_addrs s ip ip' nb : i_addrs ip' = i_addrs ip -> whole_file g s ip nb -> whole_file g s ip' nb.
Proof.
  intros E [Wm Wn Wb Wi Wf We].
  assert (forall bn, baddr s ip' bn = baddr s ip bn) as Eb by (intros bn; unfold baddr; by rewrite E).
  split; rewrite ?E; try done; [by eapply mapped_same; [| |exact Wm] | intros bn; rewrite Eb; apply Wb
    | intros bn; rewrite Eb; apply We].
Qed.

(** The update of the size. *)
Lemma size_spec s txn i ip nb z c n :
  in_txn g s [] txn -> k_icache s !! i = Some ip -> i_dev ip = 1 -> whole_file g s ip nb -> apart g s ip nb ->
  data_block g s (iblock s (i_inum ip)) -> supply g s c n -> log_room g txn 1 ->
  let ip' := set_i_size z ip in
  exists s' txn', (upd_inode i (set_i_size z) ;; iupdate i) s = Ret tt s' /\ in_txn g s' [] txn' /\
    zlen txn' <= zlen txn + 1 /\ k_disk s' = k_disk s /\ k_icache s' = <[i := ip']> (k_icache s) /\
    whole_file g s' ip' nb /\ supply g s' c n /\
    (forall k, 0 <= k < nb * BSIZE -> fbyte s' ip' k = fbyte s ip k).
Proof.
  intros Hin Hip Hdev W [A1 A2 A3] Hd Su Hl ip'. pose proof (wh_mapped _ _ _ _ W) as Hm.
  pose proof (su_layout _ _ _ _ Su) as Hlay.
  set (s1 := set_k_icache (alter (set_i_size z) i (k_icache s)) s).
  assert (k_icache s1 !! i = Some ip') as Hip1 by (simpl; by rewrite list_lookup_alter_eq, Hip).
  destruct (iupdate_spec g s1 txn i ip' (in_txn_icache _ _ _ _ _ Hin) Hip1 Hdev A1) as (s' & E & F & I & V).
  { unfold buf_room, log_room, NBUF, LOGSIZE, MAXOPBLOCKS, zlen in *. simpl. lia. }
  { done. }
  pose proof (fs_frame_disk _ _ F) as (Dd & Es & Ec & Ep & Eu & Eic & _).
  destruct (data_block_store s s' _ _ Es Hd Hlay V) as [Hu _].
  eexists s', _. split_and!; [| exact I | | exact Dd | | | |].
  - by rewrite (bind_Ret _ _ _ _ _ (upd_inode_eq _ _ _ _ Hip)).
  - unfold zlen. pose proof (length_log_add (iblock s1 (i_inum ip')) txn). lia.
  - rewrite Eic. simpl. by apply alter_insert_at.
  - apply (whole_addrs s' ip); [done|]. exact (whole_store s s' ip nb _ _ W Hlay Hd (fun _ => A3) Es V).
  - by apply (supply_same s).
  - intros k. apply (fbyte_apart g s s' ip nb _ _ k Hm A2 A3 V).
Qed.

Lemma growing_start s i ip nb off e src c n :
  k_icache s !! i = Some ip -> whole_file g s ip nb -> apart g s ip nb -> data_block g s (iblock s (i_inum ip)) ->
  off <= nb * BSIZE -> supply g s c (n + needs nb e) -> growing s i ip nb off e src c n s ip nb off.
Proof.
  intros Hip W A Hd Ho Su. split; try done.
  - lia.
  - intros k _. destruct (Z.leb_spec off k), (Z.ltb_spec k off); done || lia.
  - by rewrite list_insert_id.
Qed.

Lemma growing_done s i ip nb lo off src c n t ipt nbt :
  growing s i ip nb lo (blocks off) src c n t ipt nbt off -> 
  nbt = Z.max nb (blocks off) /\ supply g t c n.
Proof.
  intros [G1 G2 G3 _ _ _ Su _ _ _ _]. assert (blocks off <= nbt) as Hb by (unfold blocks, BSIZE in *; zlia).
  split; [lia|]. by rewrite needs_enough, Z.add_0_r in Su by done.
Qed.

(** [writei] around its loop. *)
Lemma writei_after_loop s t i ip ipt off n src :
  k_icache s !! i = Some ip -> i_type ip <> T_DEV -> 0 <= off <= i_size ip -> 0 <= n -> off + n <= MAXFILE * BSIZE ->
  loop MAXCHUNKS (write_turn i n src) (0, off) s = Ret (off + n) t -> k_icache t !! i = Some ipt ->
  writei i src off n s =
    (when ((0 <? n) && (i_size ipt <? off + n)) (upd_inode i (set_i_size (off + n)) ;; iupdate i) ;; ret n) t.
Proof.
  intros Hip Ht Ho Hn Hend E Hit. assert (off + n <= 71680) as Hw by (unfold MAXFILE, NINDIRECT, NDIRECT, BSIZE in *; lia).
  unfold writei. rewrite (bind_Ret _ _ _ _ _ (get_inode_eq _ _ _ Hip)), (proj2 (Z.eqb_neq _ _) Ht).
  rewrite !(u32_small (off + n)) by lia.
  rewrite (proj2 (Z.ltb_ge (i_size ip) off)), (proj2 (Z.ltb_ge (off + n) off)) by lia. cbn [orb].
  rewrite (proj2 (Z.ltb_ge _ _)) by (unfold BSIZE in *; lia). rewrite (bind_Ret _ _ _ _ _ E).
  rewrite (bind_Ret _ _ _ _ _ (get_inode_eq i ipt t Hit)). by rewrite (i32_small n) by lia.
Qed.

Lemma writei_grow_spec s txn i ip nb off n src c spare :
  in_txn g s [] txn -> k_icache s !! i = Some ip -> i_dev ip = 1 -> i_type ip <> T_DEV ->
  whole_file g s ip nb -> apart g s ip nb -> data_block g s (iblock s (i_inum ip)) ->
  i_size ip <= nb * BSIZE -> 0 <= off <= i_size ip -> 0 <= n -> off + n <= MAXFILE * BSIZE ->
  zlen src = n -> Forall (fun x => 0 <= x < 256) src ->
  0 <= spare -> supply g s c (spare + needs nb (blocks (off + n))) -> log_room g txn (2 * chunks off n + 3) ->
  let z := Z.max (i_size ip) (off + n) in
  let nb' := Z.max nb (blocks (off + n)) in
  exists s' txn' ip', writei i src off n s = Ret n s' /\ in_txn g s' [] txn' /\
    zlen txn' <= zlen txn + 2 * chunks off n + 3 /\ k_disk s' = k_disk s /\
    ip' = set_i_size z (set_i_addrs (i_addrs ip') ip) /\ k_icache s' = <[i := ip']> (k_icache s) /\
    whole_file g s' ip' nb' /\ supply g s' c spare /\
    (forall k, 0 <= k < z -> fbyte s' ip' k =
       if (off <=? k) && (k <? off + n) then lget src (k - off) else fbyte s ip k).
Proof.
  intros Hin Hip Hdev Ht W A Hd Hsz Ho Hn Hend Hsrc Hb Hsp Su Hl z nb'.
  pose proof (chunks_nonneg off n ltac:(lia)) as Hch. set (e := blocks (off + n)) in *.
  assert (off + n <= e * BSIZE /\ e <= MAXFILE /\ off + n <= 71680) as (He & Hmax & Hw)
    by (unfold e, blocks, MAXFILE, NINDIRECT, NDIRECT, BSIZE in *; zlia).
  pose proof (growing_start s i ip nb off e src c spare Hip W A Hd ltac:(lia) Su) as G0.
  assert (ptr_cost nb ip txn <= 2) as Hp by (unfold ptr_cost; repeat case_match; lia).
  destruct (write_turns s i ip nb off n e src c spare) with (fuel := MAXCHUNKS) (t := s) (ipt := ip) (nbt := nb) (tot := 0) (txn := txn)
    as (t & ipt & nbt & txn1 & E & G & I & L); rewrite ?Z.add_0_r, ?Z.sub_0_r; try done; try lia.
  { by eapply lookup_lt_Some. }
  { unfold log_room in *. lia. }
  { unfold chunks, MAXCHUNKS, BSIZE in *. destruct (Z.ltb_spec 0 n); [|lia]. clear -Ho Hw. zlia. }
  rewrite Z.add_0_r in E. rewrite Z.add_0_r, Z.sub_0_r in L. destruct (growing_done _ _ _ _ _ _ _ _ _ _ _ _ G) as [En Su'].
  pose proof G as [G1 G2 G3 G4 G5 G6 _ G8 G9 G10 G11].
  assert (k_icache t !! i = Some ipt) as Hit by (rewrite G9; apply list_lookup_insert_eq; by eapply lookup_lt_Some).
  assert (i_size ipt = i_size ip /\ i_dev ipt = i_dev ip) as [Ez Ev] by (by rewrite G8).
  rewrite (writei_after_loop s t i ip ipt off n src), Ez by (done || lia). destruct (_ && _) eqn:Eg.
  - apply andb_true_iff in Eg as [H1%Z.ltb_lt H2%Z.ltb_lt].
    destruct (size_spec t txn1 i ipt nbt (off + n) c spare I Hit ltac:(congruence) G1 G5 G6 Su')
      as (s' & txn' & E' & I' & L' & D' & C' & W' & S' & B').
    { unfold log_room in *. lia. }
    exists s', txn', (set_i_size (off + n) ipt). unfold z. rewrite Z.max_r by lia. unfold nb', e. rewrite <- En.
    split_and!; try done; try lia; [unfold when; by rewrite (bind_Ret _ _ _ _ _ E') | congruence | | |].
    + rewrite G8. by destruct ip.
    + rewrite C', G9. by rewrite list_insert_insert_eq.
    + intros k Hk. rewrite B' by (unfold BSIZE in *; lia). apply G4. lia.
  - assert (off + n <= i_size ip) as Hle by (apply andb_false_iff in Eg as [H%Z.ltb_ge|H%Z.ltb_ge]; lia).
    exists t, txn1, ipt. unfold z. rewrite Z.max_l by lia. unfold nb', e. rewrite <- En.
    split_and!; try done; try lia.
    intros k Hk. apply G4. unfold BSIZE in *; lia.
Qed.

(** C13: what [writei] stores is what [readi] returns, also where the file grows: after
    writing [n] bytes at [off] (anywhere up to the end of the file, and up to the largest
    file size), with the blocks the file lacks free on the disk and within the disk limit
    of the container, [writei] returns [n], the size is the maximum of the old size and
    [off+n], and reading any range of the file yields the new bytes inside [off, off+n)
    and the old ones elsewhere.  The file has exactly the blocks its end calls for: those
    it had, at their places, and new ones that no other file or table uses, recorded in
    the inode or in its indirect block.  All is in the running transaction, of at most two
    blocks per chunk and three more: the disk itself has not changed. *)
Theorem writei_readi s txn i ip nb off n src c spare :
  in_txn g s [] txn -> k_icache s !! i = Some ip -> i_dev ip = 1 -> i_type ip <> T_DEV ->
  whole_file g s ip nb -> apart g s ip nb -> data_block g s (iblock s (i_inum ip)) ->
  i_size ip <= nb * BSIZE -> 0 <= off <= i_size ip -> 0 <= n -> off + n <= MAXFILE * BSIZE ->
  zlen src = n -> Forall (fun x => 0 <= x < 256) src ->
  0 <= spare -> supply g s c (spare + needs nb (blocks (off + n))) -> log_room g txn (2 * chunks off n + 4) ->
  let z := Z.max (i_size ip) (off + n) in
  exists s' txn' ip', writei i src off n s = Ret n s' /\ in_txn g s' [] txn' /\
    zlen txn' <= zlen txn + 2 * chunks off n + 3 /\ k_disk s' = k_disk s /\
    ip' = set_i_size z (set_i_addrs (i_addrs ip') ip) /\ k_icache s' = <[i := ip']> (k_icache s) /\
    whole_file g s' ip' (Z.max nb (blocks (off + n))) /\ supply g s' c spare /\
    forall o m, 0 <= o -> 0 <= m -> o + m <= z ->
      exists s'', readi i o m s' = Ret (m, (fun k =>
        if (off <=? o + k) && (o + k <? off + n) then lget src (o + k - off) else fbyte s ip (o + k))
        <$> seqZ 0 m) s''.
Proof.
  intros Hin Hip Hdev Ht W A Hd Hsz Ho Hn Hend Hsrc Hb Hsp Su Hl z.
  pose proof (chunks_nonneg off n ltac:(lia)).
  destruct (writei_grow_spec s txn i ip nb off n src c spare) as (s' & txn' & ip' & E & I & L & D & Ei & C & W' & S' & B); try done.
  { unfold log_room in *. lia. }
  exists s', txn', ip'. split_and!; try done. intros o m Ho' Hm' Hom. fold z in Ei, B.
  assert (i_size ip' = z /\ i_dev ip' = 1 /\ i_type ip' = i_type ip) as (Es & Ev & Et) by (by rewrite Ei).
  assert (z <= Z.max nb (blocks (off + n)) * BSIZE /\ z <= 71680 \/ MAXFILE < nb) as [[Hz Hz']|?].
  { unfold z, blocks, MAXFILE, NINDIRECT, NDIRECT, BSIZE in *. zlia. }
  2:{ pose proof (mp_max _ _ _ _ (wh_mapped _ _ _ _ W)). lia. }
  destruct (readi_spec g s' txn' i ip' (Z.max nb (blocks (off + n))) o m I) as (s'' & E'' & _); rewrite ?Es, ?Et; try done; try lia.
  { rewrite C. apply list_lookup_insert_eq. by eapply lookup_lt_Some. }
  { apply W'. }
  { unfold buf_room, log_room, NBUF, LOGSIZE, MAXOPBLOCKS, zlen in *. simpl. lia. }
  exists s''. rewrite E'', Es, Z.min_l by lia. do 2 f_equal. unfold fslice. apply list_fmap_ext.
  intros j k Hk%lookup_seqZ. rewrite B by lia. done.
Qed.
End growth.

(** ** Example: the file of 700 bytes grows into block 16 *)

#[local] Instance no_devices : Devsw := {| dev_read := fun _ => None; dev_write := fun _ => None |}.

Lemma dfile_used a : 0 <= a < 20 -> used dfile_st a = (a <? 16).
Proof.
  intros Ha. assert (forall n : nat, (n < 20)%nat -> used dfile_st (Z.of_nat n) = (Z.of_nat n <? 16)) as Hall.
  { do 20 (intros [|n]; [intros _; by vm_compute | revert n]). lia. }
  rewrite <- (Z2Nat.id a) by lia. apply Hall. lia.
Qed.

Lemma dfile_layout : fs_layout dfs_geom dfile_st.
Proof.
  destruct dfs_layout as [L1 L2 L3]. split; [exact L1 | exact L2 |].
  intros a b Ha Hb. rewrite dfile_used by done. intros Hu. apply L3; [done | done |]. by rewrite dfs_used.
Qed.

Lemma dfile_data x : 12 <= x < 16 -> x <> 13 -> data_block dfs_geom dfile_st x.
Proof.
  intros Hx Hn. split_and!; [apply dfile_home; lia | simpl; lia | simpl; lia | rewrite dfile_used by lia; lia |].
  intros a Ha. replace (a / BPB) with 0 by (simpl in Ha; unfold BPB, BSIZE; zlia). simpl. lia.
Qed.

Lemma dfile_whole : whole_file dfs_geom dfile_st dfile 2.
Proof.
  split; try done.
  - apply dfile_mapped.
  - intros bn Hbn. rewrite dfile_baddr by done. apply dfile_data; lia.
  - intros k Hk _. do 2 (destruct k as [|k]; [lia|]).
    change (nth k (replicate 11 0) 0 = 0). rewrite nth_lookup. destruct (replicate 11 0 !! k) eqn:E; [|done].
    by apply lookup_replicate in E as [-> _].
Qed.

Lemma dfile_supply : supply dfs_geom dfile_st 0 4.
Proof.
  split; [apply dfile_layout | by rewrite dfile_used | |].
  - exists boot_cont. split; [exact dfs_runs | by vm_compute].
  - exists [16; 17; 18; 19]. split; [by apply (bool_decide_unpack _) |]. split; [done|].
    intros a Ha. assert (16 <= a < 20) as Hr by (repeat (apply elem_of_cons in Ha as [->|Ha]; [lia|]); by apply not_elem_of_nil in Ha).
    split; [simpl; lia|]. rewrite dfile_used by lia. apply Z.ltb_ge. lia.
Qed.

Lemma writei_readi_witness :
  exists s' ip', writei 0 (replicate 400 5) 700 400 dfile_st = Ret 400 s' /\ k_icache s' !! 0%nat = Some ip' /\
    i_size ip' = 1100 /\ whole_file dfs_geom s' ip' 3 /\
    exists s'', readi 0 698 400 s' = Ret (400, [8; 8] ++ replicate 398 5) s''.
Proof.
  assert (i_type dfile <> T_DEV) as Ht by done.
  assert (data_block dfs_geom dfile_st (iblock dfile_st (i_inum dfile))) as Hd
    by (change (iblock dfile_st (i_inum dfile)) with 12; apply dfile_data; lia).
  assert (log_room dfs_geom [] (2 * chunks 700 400 + 4)) as Hl by (by vm_compute).
  assert (off_ok : 700 + 400 <= MAXFILE * BSIZE) by (by vm_compute).
  assert (i_size dfile <= 2 * BSIZE) as Hz by (by vm_compute).
  assert (0 <= 700 <= i_size dfile) as Ho by (simpl; lia).
  destruct (writei_readi dfs_geom dfile_st [] 0 dfile 2 700 400 (replicate 400 5) 0 3 dfile_txn eq_refl eq_refl Ht
    dfile_whole dfile_apart Hd Hz Ho ltac:(lia) off_ok eq_refl) as (s' & txn' & ip' & E & _ & _ & _ & Ei & C & W & _ & H).
  - apply Forall_replicate. lia.
  - lia.
  - exact dfile_supply.
  - exact Hl.
  - exists s', ip'. split; [exact E|]. split; [rewrite C; reflexivity|]. split; [rewrite Ei; reflexivity|]. split; [exact W|].
    destruct (H 698 400) as (s'' & E''); [lia | lia | by vm_compute |]. exists s''. rewrite E''. f_equal.
Defined.

(** At the disk limit of the container [balloc] has no block to give: [bmap] takes its 0 for
    a block number, and the end of the write goes to block 0, the boot block. *)
Definition dfile_full : kst := set_k_ctable (alter (set_c_udsk MAX_CONT_DSK) 0%nat (k_ctable dfile_st)) dfile_st.

Lemma writei_at_limit :
  exists s', writei 0 (replicate 400 5) 700 400 dfile_full = Ret 400 s' /\
    take 77 (vdata s' 0) = replicate 76 5 ++ [0].
Proof. eexists. split; [vm_compute; reflexivity | vm_compute; reflexivity]. Qed.
