(* ===== verification/Path.v ===== *)
(** * Directories and paths

    The upper half of fs.c: directory entries, path elements and the walk from a
    path to an inode, inside the root directory of the caller's container.

    A file name argument is the object that holds it (its characters and what
    follows them); a path is the characters before its NUL. *)

From S2P Require Import Prelude Monad CString KState Sched Bio Log Fs Inode.

Local Open Scope kernel_scope.

Definition SLASH : Z := 47.

(** ** Directory entries *)

(** [struct dirent]: a 16-bit inode number and the name. *)
Definition DIRENT : Z := 16.
Definition de_inum (de : list Z) : Z := lld16 de 0.
Definition de_name (de : list Z) : list Z := drop 2 de.
Definition mk_dirent (inum : Z) (name : list Z) : list Z := lst16 ([0; 0] ++ name) 0 inum.

Definition namecmp (s t : list Z) : K Z := deref "namecmp" (Obj.strncmp s t DIRSIZ).

(** A directory of the largest size has [MAXFILE * BSIZE / 16] entries. *)
Definition MAXDIRENT : nat := 4481.

Section directories.
Context `{DW : Devsw}.

(** The body of [dirlookup]'s loop, at offset [off]. *)
Definition dirlookup_step (dp : nat) (name : list Z) (off : Z) : K (Z + option (nat * Z)) :=
  di <- get_inode dp ;;
  if off <? i_size di then
    ' (n, de) <- readi dp off DIRENT ;;
    if negb (n =? DIRENT) then panic "dirlookup read" else
    if de_inum de =? 0 then ret (inl (u32 (off + DIRENT))) else
    r <- namecmp name (de_name de) ;;
    if r =? 0 then
      di <- get_inode dp ;;
      ip <- iget (i_dev di) (de_inum de) ;;
      ret (inr (Some (ip, off)))
    else ret (inl (u32 (off + DIRENT)))
  else ret (inr None).

(** The entry's inode and its offset. *)
Definition dirlookup (dp : nat) (name : list Z) : K (option (nat * Z)) :=
  di <- get_inode dp ;;
  if negb (i_type di =? T_DIR) then panic "dirlookup not DIR" else
  loop MAXDIRENT (dirlookup_step dp name) 0.

(** The search of [dirlink] for an empty entry. *)
Definition dirlink_step (dp : nat) (off : Z) : K (Z + Z) :=
  di <- get_inode dp ;;
  if off <? i_size di then
    ' (n, de) <- readi dp off DIRENT ;;
    if negb (n =? DIRENT) then panic "dirlink read" else
    if de_inum de =? 0 then ret (inr off) else ret (inl (off + DIRENT))
  else ret (inr off).

Definition dirlink (dp : nat) (name : list Z) (inum : Z) : K Z :=
  r <- dirlookup dp name ;;
  match r with
  | Some (ip, _) => iput ip ;; ret (-1)
  | None =>
      off <- loop MAXDIRENT (dirlink_step dp) 0 ;;
      let de := mk_dirent inum (Obj.strncpy name DIRSIZ) in
      n <- writei dp de off DIRENT ;;
      if negb (n =? DIRENT) then panic "dirlink" else ret 0
  end.

(** ** Paths *)

Fixpoint skip_slashes (path : list Z) : list Z :=
  match path with
  | c :: path' => if c =? SLASH then skip_slashes path' else path
  | [] => []
  end.

(** The characters before the next slash, and the rest from there. *)
Fixpoint until_slash (path : list Z) : list Z * list Z :=
  match path with
  | [] => ([], [])
  | c :: path' =>
      if c =? SLASH then ([], path)
      else let '(e, r) := until_slash path' in (c :: e, r)
  end.

(** [skipelem]: the remaining path and the buffer [name] afterwards. *)
Definition skipelem (path name : list Z) : option (list Z * list Z) :=
  let path := skip_slashes path in
  if path ==? [] then None else
  let '(s, path) := until_slash path in
  let name :=
    if Nat.leb DIRSIZ (length s) then splice name 0 (take DIRSIZ s)
    else splice name 0 (s ++ [0]) in
  Some (skip_slashes path, name).

(** [namex]: the inode and the buffer [name] afterwards. *)
Definition namex (path : list Z) (parent : bool) (name : list Z) : K (option nat * list Z) :=
  iroot <- iget ROOTDEV ROOTINO ;;
  mp <- myproc ;;
  ip <- match mp with
        | None => ret iroot
        | Some p =>
            pr <- get_proc p ;;
            if hd 0 path =? SLASH then
              c <- deref "cont" (p_cont pr) ;;
              co <- get_cont c ;;
              rd <- deref "rootdir" (c_rootdir co) ;;
              idup rd
            else
              cwd <- deref "cwd" (p_cwd pr) ;;
              idup cwd
        end ;;
  loop (S (length path)) (fun '(ip, path, name) =>
    match skipelem path name with
    | None =>
        if parent then iput ip ;; ret (inr (None, name))
        else ret (inr (Some ip, name))
    | Some (path, name) =>
        ilock (Some ip) ;;
        ino <- get_inode ip ;;
        if negb (i_type ino =? T_DIR) then iunlockput ip ;; ret (inr (None, name)) else
        if parent && (path ==? []) then iunlock (Some ip) ;; ret (inr (Some ip, name)) else
        r <- dirlookup ip name ;;
        match r with
        | None => iunlockput ip ;; ret (inr (None, name))
        | Some (next, _) =>
            iunlockput ip ;;
            c <- mycont ;;
            co <- get_cont c ;;
            rd <- deref "rootdir" (c_rootdir co) ;;
            rdi <- get_inode rd ;;
            iri <- get_inode iroot ;;
            nxt <- get_inode next ;;
            let ip :=
              if (i_inum rdi =? i_inum iri) || negb (i_inum nxt =? i_inum iri) then next else ip in
            ret (inl (ip, path, name))
        end
    end) (ip, path, name).

Definition namei (path : list Z) : K (option nat) :=
  ' (ip, _) <- namex path false (replicate DIRSIZ 0) ;;
  ret ip.

Definition nameiparent (path name : list Z) : K (option nat * list Z) := namex path true name.

(** [strlen] of a name in a directory entry: a name of [DIRSIZ] characters has no
    NUL in the entry. *)
Definition de_strlen (name : list Z) : K Z :=
  if bool_decide (0 ∈ name) then ret (Obj.strlen name) else fault "strlen".

(** [dirsize]: [name] is the caller's string. *)
Definition dirsize (dp : nat) (name : list Z) : K Z :=
  r <- dirlookup dp (Obj.cstring name) ;;
  match r with
  | Some _ => ret (u32 (-1))
  | None =>
      ' (_, size) <- loop MAXDIRENT (fun '(off, size) =>
        di <- get_inode dp ;;
        if off <? i_size di then
          ' (n, de) <- readi dp off DIRENT ;;
          if negb (n =? DIRENT) then panic "dirsize read" else
          l <- de_strlen (de_name de) ;;
          if 512 <? zlen name + 1 + l + 1 then fault "dirsize: path" else
          let path := name ++ [SLASH] ++ Obj.chars (de_name de) in
          r <- namei path ;;
          size <- match r with
                  | None => ret size
                  | Some ip =>
                      ino <- get_inode ip ;;
                      di <- get_inode dp ;;
                      if negb (i_inum ino =? ROOTINO) && negb (i_inum ino =? i_inum di) then
                        ilock (Some ip) ;;
                        ino <- get_inode ip ;;
                        let size := u32 (size + i_size ino) in
                        iunlock (Some ip) ;;
                        ret size
                      else ret size
                  end ;;
          ret (inl (off + DIRENT, size))
        else ret (inr (off, size))) (0, 0) ;;
      ret size
  end.
End directories.

(** ** Path elements *)

(** The pieces between the slashes, and the non-empty ones. *)
Fixpoint split_slash (path : list Z) : list (list Z) :=
  match path with
  | [] => [[]]
  | c :: path' =>
      if c =? SLASH then [] :: split_slash path'
      else match split_slash path' with
           | e :: es => (c :: e) :: es
           | [] => [[c]]
           end
  end.
Definition elems (path : list Z) : list (list Z) := filter (fun e => e <> []) (split_slash path).

Lemma elems_skip path : elems (skip_slashes path) = elems path.
Proof.
  induction path as [|c path IH]; [done|]. simpl. destruct (c =? SLASH) eqn:E; [|done].
  rewrite IH. unfold elems. simpl. by rewrite E, filter_cons_False by (intros H; by apply H).
Qed.

Lemma skip_slashes_length path : (length (skip_slashes path) <= length path)%nat.
Proof. induction path as [|c path IH]; simpl; [lia|]. case_match; simpl; lia. Qed.

Lemma skip_slashes_hd path : hd 0 (skip_slashes path) <> SLASH.
Proof.
  induction path as [|c path IH]; simpl; [done|]. destruct (Z.eqb_spec c SLASH); [done|]. done.
Qed.

Lemma Forall_skip (P : Z -> Prop) path : Forall P path -> Forall P (skip_slashes path).
Proof. induction 1; simpl; [done|]. case_match; auto. Qed.

(** The first piece of a path, and the others. *)
Lemma until_slash_spec path e r :
  until_slash path = (e, r) ->
  path = e ++ r /\
  split_slash path = e :: match r with [] => [] | _ :: r' => split_slash r' end /\
  (r = [] \/ exists r', r = SLASH :: r').
Proof.
  revert e r. induction path as [|c path IH]; intros e r; simpl.
  { intros [= <- <-]. auto. }
  destruct (c =? SLASH) eqn:E.
  { apply Z.eqb_eq in E as ->. intros [= <- <-]. eauto. }
  destruct (until_slash path) as [e' r'] eqn:Eu. intros [= <- <-].
  destruct (IH _ _ eq_refl) as (H1 & H2 & H3). split_and!; [by rewrite H1 at 1 | by rewrite H2 | done].
Qed.

Lemma elems_until path e r :
  until_slash path = (e, r) -> e <> [] -> elems path = e :: elems r.
Proof.
  intros H He. destruct (until_slash_spec _ _ _ H) as (_ & Hs & Hr). unfold elems. rewrite Hs.
  rewrite filter_cons_True by done. f_equal. destruct Hr as [->|[r' ->]]; [done|].
  simpl split_slash. by rewrite filter_cons_False by (intros Hn; by apply Hn).
Qed.

Lemma elems_nil path : elems (skip_slashes path) = [] <-> skip_slashes path = [].
Proof.
  split; [|by intros ->]. intros He. pose proof (skip_slashes_hd path) as Hh.
  destruct (skip_slashes path) as [|c p] eqn:Ep; [done|]. exfalso.
  destruct (until_slash (c :: p)) as [e r] eqn:Eu. simpl in Hh.
  assert (e <> []) as Hne.
  { simpl in Eu. rewrite (proj2 (Z.eqb_neq _ _) Hh) in Eu. destruct (until_slash p). by injection Eu as <-. }
  by rewrite (elems_until _ _ _ Eu Hne) in He.
Qed.

(** The buffer after the element [e] was copied into it. *)
Lemma name_chars e name :
  length name = DIRSIZ -> Forall (fun c => c <> 0) e ->
  let name' := if Nat.leb DIRSIZ (length e) then splice name 0 (take DIRSIZ e) else splice name 0 (e ++ [0]) in
  length name' = DIRSIZ /\ Obj.chars name' = take DIRSIZ e.
Proof.
  intros Hn He. cbv zeta. destruct (Nat.leb_spec DIRSIZ (length e)) as [Hl|Hl].
  - assert (length (take DIRSIZ e) = DIRSIZ) as Ht by (rewrite length_take; lia).
    unfold splice. rewrite Ht. simpl take at 1. rewrite drop_ge by lia. rewrite app_nil_l, app_nil_r.
    split; [done|]. apply chars_all. by apply Forall_take.
  - unfold splice. rewrite length_app. simpl. split.
    + rewrite !length_app, length_drop. simpl. lia.
    + rewrite <- app_assoc. simpl. rewrite chars_app_nul by done. symmetry. apply take_ge. lia.
Qed.

(** [skipelem] takes a path apart element by element: it fails exactly when
    the path has no element left; otherwise it copies the next element, cut to
    [DIRSIZ] characters, into [name], and returns a shorter path with the elements
    that follow, which is empty exactly when the element was the last one. *)
Theorem skipelem_correct path name :
  length name = DIRSIZ -> Forall (fun c => c <> 0) path ->
  match elems path with
  | [] => skipelem path name = None
  | e :: es =>
      exists rest name', skipelem path name = Some (rest, name') /\
        elems rest = es /\ (rest = [] <-> es = []) /\ (length rest < length path)%nat /\
        Forall (fun c => c <> 0) rest /\ length name' = DIRSIZ /\ Obj.chars name' = take DIRSIZ e
  end.
Proof.
  intros Hn Hp. rewrite <- elems_skip. unfold skipelem.
  assert (Forall (fun c => c <> 0) (skip_slashes path)) as Hq by (by apply Forall_skip).
  pose proof (skip_slashes_length path) as Hl. pose proof (skip_slashes_hd path) as Hh.
  destruct (skip_slashes path) as [|c p] eqn:Es; [done|].
  rewrite bool_decide_eq_false_2 by done. destruct (until_slash (c :: p)) as [e r] eqn:Eu.
  destruct (until_slash_spec _ _ _ Eu) as (Hcat & _ & _).
  assert (e <> []) as Hne.
  { simpl in Eu, Hh. rewrite (proj2 (Z.eqb_neq _ _) Hh) in Eu. destruct (until_slash p). by injection Eu as <-. }
  rewrite (elems_until _ _ _ Eu Hne). rewrite Hcat in Hq. apply Forall_app in Hq as [He Hr].
  destruct (name_chars e name Hn He) as [N1 N2].
  eexists _, _. split; [reflexivity|]. rewrite elems_skip. split_and!; try done.
  - rewrite <- (elems_skip r). symmetry. apply elems_nil.
  - pose proof (skip_slashes_length r). rewrite Hcat, length_app in Hl.
    destruct e; [done|]. simpl in Hl. lia.
  - by apply Forall_skip.
Qed.

(** On [a//bb]. *)
Lemma skipelem_correct_witness :
  exists rest name', skipelem [97; 47; 47; 98; 98] (replicate 14 0) = Some (rest, name') /\
    elems rest = [[98; 98]] /\ Obj.chars name' = [97].
Proof.
  destruct (skipelem_correct [97; 47; 47; 98; 98] (replicate 14 0)) as (rest & name' & E & H1 & _ & _ & _ & _ & H2).
  - reflexivity.
  - repeat constructor; lia.
  - exists rest, name'. auto.
Defined.

(** ** Directories as lists of entries *)

(** The entries of a directory, in order. *)
Definition entries (s : kst) (di : inode) : list (list Z) :=
  (fun k => fslice s di (DIRENT * k) DIRENT) <$> seqZ 0 (i_size di / DIRENT).

(** The name a file name argument stands for. *)
Definition short (name : list Z) : list Z := take DIRSIZ (Obj.chars name).
Definition name_ok (name : list Z) : Prop := 0 ∈ name \/ (DIRSIZ <= length name)%nat.

(** Entry [de] is in use under the name. *)
Definition dhit (name : list Z) (de : list Z) : bool :=
  negb (de_inum de =? 0) && bool_decide (short name = short (de_name de)).

Lemma strncmp_defined p q n :
  0 ∈ p \/ (n <= length p)%nat -> (n <= length q)%nat -> exists r, Obj.strncmp p q n = Some r.
Proof.
  revert p q. induction n as [|n IH]; intros p q Hp Hq; simpl; [by eexists|].
  destruct p as [|a p]; [destruct Hp as [Hp|Hp]; [by apply not_elem_of_nil in Hp | simpl in Hp; lia]|].
  destruct q as [|b q]; [simpl in Hq; lia|].
  destruct (a =? 0) eqn:Ea; simpl; [by eexists|]. destruct (a =? b); [|by eexists].
  apply IH; [|simpl in Hq; lia]. destruct Hp as [Hp|Hp]; [|right; simpl in Hp; lia].
  left. apply elem_of_cons in Hp as [<-|]; [done | done].
Qed.

Lemma namecmp_eq name t s :
  name_ok name -> length t = DIRSIZ ->
  exists r, namecmp name t s = Ret r s /\ (r =? 0) = bool_decide (short name = short t).
Proof.
  intros Hn Ht. destruct (strncmp_defined name t DIRSIZ Hn ltac:(lia)) as [r Hr].
  exists r. unfold namecmp. rewrite Hr. split; [done|].
  pose proof (obj_strncmp_zero _ _ _ _ Hr) as H. unfold short.
  destruct (Z.eqb_spec r 0); case_bool_decide; tauto.
Qed.

Section directory_proofs.
Context `{DW : Devsw} (g : geom).

(** A directory that can be searched: nothing else has its inode, its size is a
    whole number of entries, and its blocks are allocated. *)
Record dir_ok (s : kst) (dp : nat) (di : inode) (nb : Z) : Prop := {
  do_inode : k_icache s !! dp = Some di;
  do_dev : i_dev di = 1;
  do_type : i_type di = T_DIR;
  do_size : 0 <= i_size di <= nb * BSIZE;
  do_whole : i_size di mod DIRENT = 0;
  do_mapped : mapped g s di nb
}.

Lemma dir_bound s dp di nb : dir_ok s dp di nb -> nb * BSIZE <= 71680.
Proof. intros D. pose proof (mp_max _ _ _ _ (do_mapped _ _ _ _ D)). klia. Qed.

Lemma dir_ext s t dp di nb :
  dir_ok s dp di nb -> k_icache t = k_icache s -> (forall y, 0 <= y -> vblock t y = vblock s y) ->
  dir_ok t dp di nb.
Proof.
  intros [D1 D2 D3 D4 D5 D6] E V. split; try done; [by rewrite E | by eapply mapped_ext].
Qed.

(** Reading entry [k]. *)
Lemma read_entry s txn dp di nb k :
  in_txn g s [] txn -> dir_ok s dp di nb -> buf_room [] txn 1 -> 0 <= k -> DIRENT * k < i_size di ->
  exists s', readi dp (DIRENT * k) DIRENT s = Ret (DIRENT, fslice s di (DIRENT * k) DIRENT) s' /\
    only_bufs s s' /\ same_view [] s s' /\ in_txn g s' [] txn.
Proof.
  intros Hin D Hr Hk Hlt. pose proof (dir_bound _ _ _ _ D) as Hb. destruct D as [D1 D2 D3 D4 D5 D6].
  assert (DIRENT * k + DIRENT <= i_size di) as Hfit by (unfold DIRENT in *; zlia).
  destruct (readi_spec g s txn dp di nb (DIRENT * k) DIRENT) as (s' & E & H); try done; try (unfold DIRENT in *; lia).
  - rewrite D3. done.
  - rewrite Z.min_l in E by lia. eauto.
Qed.

Section search.
Context (s : kst) (txn : list Z) (dp : nat) (di : inode) (nb : Z).
Hypothesis Hin : in_txn g s [] txn.
Hypothesis D : dir_ok s dp di nb.
Hypothesis Hr : buf_room [] txn 1.

(** The states a search goes through. *)
Definition searching (t : kst) : Prop := only_bufs s t /\ same_view [] s t /\ in_txn g t [] txn.

Lemma searching_start : searching s.
Proof. split_and!; [done | by split | done]. Qed.

Lemma entries_lookup k : (Z.of_nat k < i_size di / DIRENT) ->
  entries s di !! k = Some (fslice s di (DIRENT * Z.of_nat k) DIRENT).
Proof.
  intros Hk. unfold entries. rewrite list_lookup_fmap, lookup_seqZ_lt by lia. simpl. by rewrite Z.add_0_l.
Qed.

Lemma length_entries : length (entries s di) = Z.to_nat (i_size di / DIRENT).
Proof. unfold entries. by rewrite length_fmap, length_seqZ. Qed.

Lemma size_entries k : Z.of_nat k < i_size di / DIRENT <-> DIRENT * Z.of_nat k < i_size di.
Proof. pose proof (do_size _ _ _ _ D). pose proof (do_whole _ _ _ _ D). unfold DIRENT in *. zlia. Qed.

(** The read every step starts with. *)
Lemma search_read t k :
  searching t -> Z.of_nat k < i_size di / DIRENT ->
  exists t', readi dp (DIRENT * Z.of_nat k) DIRENT t =
      Ret (DIRENT, fslice s di (DIRENT * Z.of_nat k) DIRENT) t' /\ searching t' /\
    k_icache t !! dp = Some di /\ k_icache t' !! dp = Some di.
Proof.
  intros (O & V & I) Hk. pose proof (do_inode _ _ _ _ D) as Hi.
  destruct (read_entry t txn dp di nb (Z.of_nat k) I) as (t' & E & O' & V' & I').
  - eapply dir_ext; [done | by rewrite O | apply V].
  - done.
  - lia.
  - by apply size_entries.
  - exists t'. split_and!.
    + rewrite E. do 2 f_equal. apply (fslice_ext g s t di nb); [apply D | unfold DIRENT; lia | | apply V].
      pose proof (do_size _ _ _ _ D). pose proof (do_whole _ _ _ _ D).
      apply size_entries in Hk. unfold DIRENT in *. zlia.
    + split_and!; [by eapply only_bufs_trans | by eapply (same_view_trans [] []) | done].
    + by rewrite O.
    + rewrite O'. by rewrite O.
Qed.

Lemma de_name_length t k : length (de_name (fslice t di (DIRENT * k) DIRENT)) = DIRSIZ.
Proof.
  unfold de_name. rewrite length_drop. unfold fslice. rewrite length_fmap, length_seqZ. done.
Qed.

Lemma next_off k : Z.of_nat k < i_size di / DIRENT ->
  u32 (DIRENT * Z.of_nat k + DIRENT) = DIRENT * Z.of_nat (S k).
Proof.
  intros Hk%size_entries. pose proof (dir_bound _ _ _ _ D). pose proof (do_size _ _ _ _ D).
  rewrite u32_small; unfold DIRENT in *; lia.
Qed.

(** One step: a hit fetches the inode, anything else goes on. *)
Lemma dirlookup_step_eq name t k :
  name_ok name -> searching t -> Z.of_nat k < i_size di / DIRENT ->
  let de := fslice s di (DIRENT * Z.of_nat k) DIRENT in
  exists t', searching t' /\
    dirlookup_step dp name (DIRENT * Z.of_nat k) t =
    if dhit name de then
      (ip <- iget 1 (de_inum de) ;; ret (inr (Some (ip, DIRENT * Z.of_nat k)))) t'
    else Ret (inl (DIRENT * Z.of_nat (S k))) t'.
Proof.
  intros Hname Ht Hlt de. destruct (search_read t k Ht Hlt) as (t1 & E1 & Ht1 & Hi & Hi1). fold de in E1.
  destruct (namecmp_eq name (de_name de) t1 Hname (de_name_length s (Z.of_nat k))) as (r & Er & Hrz).
  exists t1. split; [done|]. unfold dirlookup_step.
  rewrite (bind_Ret _ _ _ _ _ (get_inode_eq _ _ _ Hi)).
  rewrite (proj2 (Z.ltb_lt _ _)) by (by apply size_entries). rewrite (bind_Ret _ _ _ _ _ E1).
  cbv beta iota. rewrite Z.eqb_refl. cbn [negb]. unfold dhit. rewrite next_off by done.
  destruct (de_inum de =? 0); [done|]. rewrite (bind_Ret _ _ _ _ _ Er), Hrz. cbn [negb andb].
  destruct (bool_decide _); [|done]. rewrite (bind_Ret _ _ _ _ _ (get_inode_eq _ _ _ Hi1)).
  by rewrite (do_dev _ _ _ _ D).
Qed.

(** The inode cache can take one more inode. *)
Definition iget_room : Prop :=
  length (k_icache s) = NINODE /\ exists u, findi is_unused (k_icache s) = Some u.

Lemma searching_iget t inum :
  searching t -> iget_room -> exists i ic, iget 1 inum t = Ret i (set_k_icache ic t) /\
    exists ip, ic !! i = Some ip /\ i_dev ip = 1 /\ i_inum ip = inum.
Proof.
  intros (O & _ & I) [Hl [u Hu]].
  assert (k_icache t = k_icache s) as Ei by (by rewrite O).
  assert (LIcache ∉ k_held t) as Hh by (rewrite (q_held _ (it_quiet _ _ _ _ I)); apply not_elem_of_nil).
  rewrite (iget_eq 1 inum t Hh) by (by rewrite Ei). rewrite Ei, Hu.
  destruct (findi (is_inode 1 inum) (k_icache s)) as [i|] eqn:Ef.
  - apply findi_Some in Ef as (ip & Hip & (_ & <- & <-)%is_inode_true & _).
    eexists _, _. split; [done|]. rewrite list_lookup_alter_eq, Hip. by eexists.
  - apply findi_Some in Hu as (ip & Hip & _).
    eexists _, _. split; [done|]. rewrite list_lookup_alter_eq, Hip. by eexists.
Qed.

Lemma dirlookup_loop name fuel t k :
  name_ok name -> iget_room -> Z.of_nat k <= i_size di / DIRENT ->
  i_size di / DIRENT - Z.of_nat k < Z.of_nat fuel -> searching t ->
  exists t', searching t' /\
    match findi (dhit name) (drop k (entries s di)) with
    | None => loop fuel (dirlookup_step dp name) (DIRENT * Z.of_nat k) t = Ret None t'
    | Some j => exists i ip ic, let off := DIRENT * Z.of_nat (k + j) in
        loop fuel (dirlookup_step dp name) (DIRENT * Z.of_nat k) t = Ret (Some (i, off)) (set_k_icache ic t') /\
        iget 1 (de_inum (fslice s di off DIRENT)) t' = Ret i (set_k_icache ic t') /\
        ic !! i = Some ip /\ i_dev ip = 1 /\ i_inum ip = de_inum (fslice s di off DIRENT)
    end.
Proof.
  intros Hname Hroom. revert t k. induction fuel as [|fuel IH]; intros t k Hk Hf Ht; [lia|].
  destruct (decide (Z.of_nat k = i_size di / DIRENT)) as [Ek|Ek].
  - exists t. split; [done|]. rewrite drop_ge by (rewrite length_entries; lia). simpl findi. cbv iota.
    apply loop_done. unfold dirlookup_step. destruct Ht as (O & _ & _).
    rewrite (bind_Ret _ _ _ _ _ (get_inode_eq dp di t ltac:(rewrite O; apply D))).
    rewrite (proj2 (Z.ltb_ge _ _)); [done|]. pose proof (size_entries k). lia.
  - assert (Z.of_nat k < i_size di / DIRENT) as Hlt by lia.
    destruct (dirlookup_step_eq name t k Hname Ht Hlt) as (t1 & Ht1 & E1).
    set (de := fslice s di (DIRENT * Z.of_nat k) DIRENT) in *.
    rewrite (drop_S _ de) by (by apply entries_lookup). cbn [findi].
    destruct (dhit name de).
    + destruct (searching_iget t1 (de_inum de) Ht1 Hroom) as (i & ic & Ei & ip & Hip).
      exists t1. split; [done|]. exists i, ip, ic. rewrite Nat.add_0_r. fold de. cbv zeta. split; [|done].
      apply loop_done. by rewrite E1, (bind_Ret _ _ _ _ _ Ei).
    + rewrite (loop_next _ _ _ _ _ _ E1). destruct (IH t1 (S k)) as (t' & Ht' & E'); [lia | lia | done |].
      exists t'. split; [done|]. destruct (findi (dhit name) (drop (S k) (entries s di))) as [j|]; simpl; [|done].
      by replace (k + S j)%nat with (S k + j)%nat by lia.
Qed.

Lemma entries_fuel k : i_size di / DIRENT - Z.of_nat k < Z.of_nat MAXDIRENT.
Proof.
  pose proof (dir_bound _ _ _ _ D). pose proof (do_size _ _ _ _ D). unfold MAXDIRENT, DIRENT. zlia.
Qed.

Lemma dirlookup_spec name :
  name_ok name -> iget_room ->
  exists t', searching t' /\
    match findi (dhit name) (entries s di) with
    | None => dirlookup dp name s = Ret None t'
    | Some j => exists i ip ic, let off := DIRENT * Z.of_nat j in
        dirlookup dp name s = Ret (Some (i, off)) (set_k_icache ic t') /\
        iget 1 (de_inum (fslice s di off DIRENT)) t' = Ret i (set_k_icache ic t') /\
        ic !! i = Some ip /\ i_dev ip = 1 /\ i_inum ip = de_inum (fslice s di off DIRENT)
    end.
Proof.
  intros Hname Hroom.
  destruct (dirlookup_loop name MAXDIRENT s 0 Hname Hroom) as (t' & Ht' & H).
  - pose proof (do_size _ _ _ _ D). unfold DIRENT. zlia.
  - apply entries_fuel.
  - apply searching_start.
  - exists t'. split; [done|]. unfold dirlookup.
    rewrite (bind_Ret _ _ _ _ _ (get_inode_eq _ _ _ (do_inode _ _ _ _ D))), (do_type _ _ _ _ D). cbn [negb Z.eqb].
    exact H.
Qed.

(** [iput] of what [iget] gave takes the reference back: the entries the inode may
    get are not locked, and their counts do not overflow. *)
Definition releasable (inum : Z) : Prop :=
  forall i ip, k_icache s !! i = Some ip -> is_inode 1 inum ip || is_unused ip = true ->
    sl_locked (i_lock ip) = false /\ i_ref ip < 2147483647.

Lemma iput_back t inum i ic f n ip :
  searching t -> releasable inum -> ic = alter f i (k_icache s) -> k_icache s !! i = Some ip ->
  is_inode 1 inum ip || is_unused ip = true -> i_ref ip = n - 1 -> i_ref (f ip) = n -> i_lock (f ip) = i_lock ip ->
  0 < n -> (i_valid (f ip) = false \/ n <> 1) ->
  exists ic', iput i (set_k_icache ic t) = Ret tt (set_k_icache ic' t) /\ i_ref <$> ic' = i_ref <$> k_icache s.
Proof.
  intros (O & V & I) Hrel -> Hip Hhit Er En El Hn Hv. destruct (Hrel i ip Hip Hhit) as [Hl Hm].
  assert (k_icache (set_k_icache (alter f i (k_icache s)) t) !! i = Some (f ip)) as Hf
    by (simpl; by rewrite list_lookup_alter_eq, Hip).
  eexists. split.
  - rewrite (iput_correct i (f ip)); [reflexivity | | exact Hf | by rewrite El | lia | rewrite En; tauto].
    eapply quiet_ext; [..| exact (it_quiet _ _ _ _ I)]; done.
  - apply list_eq. intros j. rewrite !list_lookup_fmap. simpl. destruct (decide (i = j)) as [<-|N].
    + rewrite list_lookup_insert_eq by (rewrite length_alter; by eapply lookup_lt_Some).
      rewrite Hip. simpl. f_equal. lia.
    + by rewrite list_lookup_insert_ne, list_lookup_alter_ne.
Qed.

Lemma iget_iput t inum i ic :
  searching t -> iget_room -> releasable inum -> iget 1 inum t = Ret i (set_k_icache ic t) ->
  exists ic', iput i (set_k_icache ic t) = Ret tt (set_k_icache ic' t) /\ i_ref <$> ic' = i_ref <$> k_icache s.
Proof.
  intros Ht [Hl [u Hu]] Hrel. pose proof Ht as (O & _ & I).
  assert (k_icache t = k_icache s) as Ei by (by rewrite O).
  assert (LIcache ∉ k_held t) as Hh by (rewrite (q_held _ (it_quiet _ _ _ _ I)); apply not_elem_of_nil).
  rewrite (iget_eq 1 inum t Hh) by (by rewrite Ei). rewrite Ei, Hu.
  destruct (findi (is_inode 1 inum) (k_icache s)) as [j|] eqn:Ef; intros [= <- E].
  - apply findi_Some in Ef as (ip & Hip & Hit & _). pose proof Hit as (P & _)%is_inode_true.
    destruct (Hrel j ip Hip ltac:(by rewrite Hit)) as [_ Hm].
    apply (iput_back t inum j ic referenced (i_ref ip + 1) ip); try done; try lia.
    + by rewrite Hit.
    + unfold referenced. simpl. apply i32_small. lia.
  - apply findi_Some in Hu as (ip & Hip & Hun & _). pose proof Hun as Hz%Z.eqb_eq.
    apply (iput_back t inum u ic (fresh_inode 1 inum) 1 ip); try done; try lia; [|by left].
    rewrite Hun. apply orb_true_r.
Qed.

Lemma searching_entries t : searching t -> entries t di = entries s di.
Proof.
  intros (_ & V & _). apply list_fmap_ext. intros k x Hx%lookup_seqZ.
  pose proof (do_size _ _ _ _ D). pose proof (do_whole _ _ _ _ D).
  apply (fslice_ext g s t di nb); [apply D | unfold DIRENT in *; lia | unfold DIRENT in *; zlia | apply V].
Qed.

(** A name that is there already: nothing is entered. *)
Lemma dirlink_refuses name inum j de :
  name_ok name -> iget_room -> findi (dhit name) (entries s di) = Some j -> entries s di !! j = Some de ->
  releasable (de_inum de) ->
  exists s', dirlink dp name inum s = Ret (-1) s' /\ in_txn g s' [] txn /\ k_disk s' = k_disk s /\
    entries s' di = entries s di /\ i_ref <$> k_icache s' = i_ref <$> k_icache s.
Proof.
  intros Hname Hroom Hj Hde Hrel. destruct (dirlookup_spec name Hname Hroom) as (t & Ht & E). rewrite Hj in E.
  destruct E as (i & ip & ic & E & Eg & _). pose proof (lookup_lt_Some _ _ _ Hde) as Hlt. rewrite length_entries in Hlt.
  rewrite entries_lookup in Hde by lia. injection Hde as Hde. cbv zeta in Eg. rewrite Hde in Eg.
  destruct (iget_iput t (de_inum de) i ic Ht Hroom Hrel Eg) as (ic' & Ep & Hc).
  exists (set_k_icache ic' t). unfold dirlink. rewrite (bind_Ret _ _ _ _ _ E), (bind_Ret _ _ _ _ _ Ep).
  split; [done|]. split; [by apply in_txn_icache, Ht|]. split; [destruct Ht as (O & _); by rewrite O|]. split; [|exact Hc].
  exact (searching_entries t Ht).
Qed.

(** The search for an empty entry. *)
Definition is_free_entry (de : list Z) : bool := de_inum de =? 0.
Definition free_slot (es : list (list Z)) : nat := default (length es) (findi is_free_entry es).

Lemma dirlink_loop fuel t k :
  Z.of_nat k <= i_size di / DIRENT -> i_size di / DIRENT - Z.of_nat k < Z.of_nat fuel -> searching t ->
  exists t', searching t' /\
    loop fuel (dirlink_step dp) (DIRENT * Z.of_nat k) t =
    Ret (DIRENT * Z.of_nat (k + free_slot (drop k (entries s di)))) t'.
Proof.
  revert t k. induction fuel as [|fuel IH]; intros t k Hk Hf Ht; [lia|].
  destruct (decide (Z.of_nat k = i_size di / DIRENT)) as [Ek|Ek].
  - exists t. split; [done|]. rewrite drop_ge by (rewrite length_entries; lia). rewrite Nat.add_0_r.
    apply loop_done. unfold dirlink_step. destruct Ht as (O & _ & _).
    rewrite (bind_Ret _ _ _ _ _ (get_inode_eq dp di t ltac:(rewrite O; apply D))).
    rewrite (proj2 (Z.ltb_ge _ _)); [done|]. pose proof (size_entries k). lia.
  - assert (Z.of_nat k < i_size di / DIRENT) as Hlt by lia.
    destruct (search_read t k Ht Hlt) as (t1 & E1 & Ht1 & Hi & Hi1).
    set (de := fslice s di (DIRENT * Z.of_nat k) DIRENT) in *.
    rewrite (drop_S _ de) by (by apply entries_lookup). unfold free_slot. cbn [findi length].
    assert (dirlink_step dp (DIRENT * Z.of_nat k) t =
      if is_free_entry de then Ret (inr (DIRENT * Z.of_nat k)) t1
      else Ret (inl (DIRENT * Z.of_nat (S k))) t1) as Es.
    { unfold dirlink_step. rewrite (bind_Ret _ _ _ _ _ (get_inode_eq _ _ _ Hi)).
      rewrite (proj2 (Z.ltb_lt _ _)) by (by apply size_entries). rewrite (bind_Ret _ _ _ _ _ E1).
      cbv beta iota. rewrite Z.eqb_refl. cbn [negb]. unfold is_free_entry. destruct (_ =? 0); [done|].
      unfold ret. do 2 f_equal. lia. }
    destruct (is_free_entry de).
    + exists t1. split; [done|]. rewrite Nat.add_0_r. by apply loop_done.
    + rewrite (loop_next _ _ _ _ _ _ Es). destruct (IH t1 (S k)) as (t' & Ht' & E'); [lia | lia | done |].
      exists t'. split; [done|]. rewrite E'. do 3 f_equal. unfold free_slot.
      destruct (findi _ _); simpl; lia.
Qed.

(** The directory with [de] stored in slot [j]. *)
Definition dir_put (j : nat) (de : list Z) (es : list (list Z)) : list (list Z) :=
  if decide (j < length es)%nat then <[j := de]> es else es ++ [de].

Lemma lget_list (d : list Z) n : zlen d = n -> (fun k => lget d k) <$> seqZ 0 n = d.
Proof.
  intros Hd. apply list_eq. intros k. rewrite list_lookup_fmap. unfold zlen in Hd.
  destruct (decide (Z.of_nat k < n)) as [Hk|Hk].
  - rewrite lookup_seqZ_lt by lia. simpl. unfold lget. rewrite Z.add_0_l, Nat2Z.id.
    destruct (lookup_lt_is_Some_2 d k ltac:(lia)) as [x Hx]. by rewrite Hx.
  - rewrite lookup_seqZ_ge by lia. symmetry. apply lookup_ge_None_2. lia.
Qed.

(** The entries after storing one. *)
Lemma entries_put s' di' j de :
  (j <= length (entries s di))%nat -> zlen de = DIRENT -> DIRENT * Z.of_nat j + DIRENT <= nb * BSIZE ->
  i_size di' = Z.max (i_size di) (DIRENT * Z.of_nat j + DIRENT) ->
  (forall k, 0 <= k < nb * BSIZE -> fbyte s' di' k =
     if (DIRENT * Z.of_nat j <=? k) && (k <? DIRENT * Z.of_nat j + DIRENT) then lget de (k - DIRENT * Z.of_nat j)
     else fbyte s di k) ->
  entries s' di' = dir_put j de (entries s di).
Proof.
  intros Hj Hde Hfit Hsz Hb. pose proof (do_size _ _ _ _ D) as Hs. pose proof (do_whole _ _ _ _ D) as Hw.
  rewrite length_entries in Hj.
  assert (i_size di' / DIRENT = Z.max (i_size di / DIRENT) (Z.of_nat j + 1)) as Hn
    by (rewrite Hsz; unfold DIRENT in *; zlia).
  assert (forall k : nat, Z.of_nat k < i_size di' / DIRENT ->
    fslice s' di' (DIRENT * Z.of_nat k) DIRENT =
    if decide (k = j) then de else fslice s di (DIRENT * Z.of_nat k) DIRENT) as Hk.
  { intros k Hk. assert (DIRENT * Z.of_nat k + DIRENT <= nb * BSIZE) as Hkb.
    { rewrite Hn in Hk. assert (DIRENT * (Z.of_nat k + 1) <= nb * BSIZE); [|lia].
      unfold DIRENT in *. zlia. }
    unfold fslice. case_decide as Ekj.
    - subst k. transitivity ((fun k => lget de k) <$> seqZ 0 DIRENT); [|by apply lget_list].
      apply list_fmap_ext. intros i x Hx%lookup_seqZ.
      rewrite Hb by (unfold DIRENT in *; lia).
      rewrite (proj2 (Z.leb_le _ _)), (proj2 (Z.ltb_lt _ _)) by lia. cbn [andb]. f_equal. lia.
    - apply list_fmap_ext. intros i x Hx%lookup_seqZ. rewrite Hb by (unfold DIRENT in *; lia).
      destruct (_ && _) eqn:E; [|done]. exfalso. apply andb_true_iff in E as [E1%Z.leb_le E2%Z.ltb_lt].
      unfold DIRENT in *. lia. }
  apply list_eq. intros k. unfold dir_put. rewrite length_entries.
  destruct (decide (Z.of_nat k < i_size di' / DIRENT)) as [Hlt|Hge].
  - unfold entries at 1. rewrite list_lookup_fmap, lookup_seqZ_lt by lia. simpl. rewrite Z.add_0_l, Hk by done.
    destruct (decide (k = j)) as [->|Ekj]; case_decide as Hjl.
    + by rewrite list_lookup_insert_eq by (by rewrite length_entries).
    + rewrite lookup_app_r by (rewrite length_entries; lia). rewrite length_entries.
      by replace (j - _)%nat with 0%nat by lia.
    + rewrite list_lookup_insert_ne by done. by rewrite entries_lookup by lia.
    + rewrite lookup_app_l by (rewrite length_entries; lia). by rewrite entries_lookup by lia.
  - unfold entries at 1. rewrite list_lookup_fmap, lookup_seqZ_ge by lia. symmetry. apply lookup_ge_None_2.
    case_decide; rewrite ?length_insert, ?length_app, length_entries; simpl; lia.
Qed.

Lemma free_slot_le (es : list (list Z)) : (free_slot es <= length es)%nat.
Proof.
  unfold free_slot. destruct (findi is_free_entry es) as [j|] eqn:E; simpl; [|lia].
  apply findi_Some in E as (x & Hx & _). apply lookup_lt_Some in Hx. lia.
Qed.

Definition new_entry (inum : Z) (name : list Z) : list Z := mk_dirent inum (Obj.strncpy name DIRSIZ).

Lemma length_strncpy name : length (Obj.strncpy name DIRSIZ) = DIRSIZ.
Proof. unfold Obj.strncpy. rewrite length_take, length_app, length_replicate. unfold DIRSIZ. lia. Qed.

Lemma zlen_new_entry inum name : zlen (new_entry inum name) = DIRENT.
Proof. unfold zlen, new_entry, mk_dirent. rewrite length_lst16, length_app, length_strncpy. done. Qed.

Lemma chars_bytes (P : Z -> Prop) l : Forall P l -> Forall P (Obj.chars l).
Proof. induction 1; simpl; [done|]. case_match; auto. Qed.

Lemma strncpy_bytes name :
  Forall (fun x => 0 <= x < 256) name -> Forall (fun x => 0 <= x < 256) (Obj.strncpy name DIRSIZ).
Proof.
  intros H. unfold Obj.strncpy. apply Forall_take, Forall_app. split; [by apply chars_bytes|].
  apply Forall_replicate. lia.
Qed.

Lemma lput_bytes l i v : Forall (fun x => 0 <= x < 256) l -> Forall (fun x => 0 <= x < 256) (lput l i v).
Proof. intros H. unfold lput. apply Forall_insert; [done|]. apply Z.mod_pos_bound. done. Qed.

Lemma new_entry_bytes inum name :
  Forall (fun x => 0 <= x < 256) name -> Forall (fun x => 0 <= x < 256) (new_entry inum name).
Proof.
  intros H. unfold new_entry, mk_dirent, lst16. do 2 apply lput_bytes.
  apply Forall_app. split; [repeat constructor; lia | by apply strncpy_bytes].
Qed.

Lemma dirlink_spec name inum :
  name_ok name -> iget_room -> Forall (fun x => 0 <= x < 256) name ->
  findi (dhit name) (entries s di) = None -> apart g s di nb ->
  let j := free_slot (entries s di) in
  let di' := set_i_size (Z.max (i_size di) (DIRENT * Z.of_nat j + DIRENT)) di in
  DIRENT * Z.of_nat j + DIRENT <= nb * BSIZE -> log_room g txn 2 ->
  exists s' txn', dirlink dp name inum s = Ret 0 s' /\ in_txn g s' [] txn' /\
    zlen txn' <= zlen txn + 2 /\ k_disk s' = k_disk s /\ k_icache s' = <[dp := di']> (k_icache s) /\
    dir_ok s' dp di' nb /\ entries s' di' = dir_put j (new_entry inum name) (entries s di).
Proof.
  intros Hname Hroom Hbytes Hno Hap j di' Hfit Hl.
  destruct (dirlookup_spec name Hname Hroom) as (t1 & Ht1 & E1). rewrite Hno in E1.
  pose proof (do_size _ _ _ _ D) as Hs. pose proof (do_whole _ _ _ _ D) as Hw.
  pose proof (free_slot_le (entries s di)) as Hj. fold j in Hj. rewrite length_entries in Hj.
  destruct (dirlink_loop MAXDIRENT t1 0) as (t2 & Ht2 & E2);
    [unfold DIRENT; zlia | apply entries_fuel | done |].
  rewrite drop_0, Nat.add_0_l in E2. fold j in E2. change (DIRENT * Z.of_nat 0) with 0 in E2.
  destruct Ht2 as (O & V & I). set (off := DIRENT * Z.of_nat j) in *.
  assert (off <= i_size di) as Ho by (unfold off, DIRENT in *; zlia).
  assert (chunks off DIRENT = 1) as Hc by (unfold chunks, off, DIRENT, BSIZE in *; simpl; zlia).
  assert (k_icache t2 !! dp = Some di) as Hi2 by (rewrite O; apply D).
  destruct (writei_spec g t2 txn dp di nb off DIRENT (new_entry inum name) I Hi2)
    as (s' & txn' & E & I' & L' & D' & C' & A' & B').
  { apply D. }
  { by rewrite (do_type _ _ _ _ D). }
  { eapply mapped_ext; [apply V | apply D]. }
  { destruct Hap as [P1 P2 P3]. assert (k_sb t2 = k_sb s) as Esb by (by rewrite O).
    unfold iblock in *. split; unfold iblock; rewrite ?Esb; try done. intros bn Hbn.
    rewrite (baddr_ext g s t2 di nb bn (do_mapped _ _ _ _ D) Hbn (sv_vblock _ _ _ V)). auto. }
  { unfold off, DIRENT in *. lia. }
  { done. }
  { done. }
  { apply zlen_new_entry. }
  { by apply new_entry_bytes. }
  { by rewrite Hc. }
  fold di' in C'. change (set_i_size _ di) with di' in A', B'.
  exists s', txn'. split_and!; [| done | lia | by rewrite D', O | by rewrite C', O | |].
  - unfold dirlink. rewrite (bind_Ret _ _ _ _ _ E1), (bind_Ret _ _ _ _ _ E2).
    fold (new_entry inum name). cbv zeta. rewrite (bind_Ret _ _ _ _ _ E). by rewrite Z.eqb_refl.
  - split; [| apply D | apply D | | |].
    + rewrite C'. apply list_lookup_insert_eq. by eapply lookup_lt_Some.
    + simpl. lia.
    + simpl. unfold off, DIRENT in *. zlia.
    + apply (mapped_same g t2 s' di di' nb); [done | exact A' |]. eapply mapped_ext; [apply V | apply D].
  - apply entries_put; [by rewrite length_entries | apply zlen_new_entry | done | done |].
    fold off. intros k Hk. rewrite B' by done. case_match; [done|].
    apply (fbyte_ext g s t2 di nb); [apply D | done | apply V].
Qed.
End search.

Lemma findi_ext {A} (P : A -> bool) (l1 l2 : list A) :
  length l1 = length l2 -> (forall i x y, l1 !! i = Some x -> l2 !! i = Some y -> P x = P y) ->
  findi P l1 = findi P l2.
Proof.
  revert l2. induction l1 as [|x l1 IH]; intros [|y l2] Hl H; try done. simpl.
  rewrite (H 0%nat x y eq_refl eq_refl). case_match; [done|]. f_equal. apply IH; [simpl in Hl; lia|].
  intros i. apply (H (S i)).
Qed.

Lemma findi_insert_same {A} (P : A -> bool) (l : list A) i x x' :
  l !! i = Some x -> P x' = P x -> findi P (<[i := x']> l) = findi P l.
Proof.
  intros Hx HP. apply findi_ext; [by rewrite length_insert|]. intros j y z.
  destruct (decide (i = j)) as [<-|N].
  - rewrite list_lookup_insert_eq by (by eapply lookup_lt_Some). congruence.
  - rewrite list_lookup_insert_ne by done. congruence.
Qed.

Lemma findi_snoc {A} (P : A -> bool) (l : list A) x :
  findi P (l ++ [x]) = match findi P l with
                       | Some i => Some i
                       | None => if P x then Some (length l) else None
                       end.
Proof.
  induction l as [|y l IH]; simpl; [by destruct (P x)|]. destruct (P y); [done|]. rewrite IH.
  destruct (findi P l); [done|]. by destruct (P x).
Qed.

Lemma findi_put_hit (P : list Z -> bool) es j de :
  findi P es = None -> P de = true -> (j <= length es)%nat -> findi P (dir_put j de es) = Some j.
Proof.
  intros Hn Hp Hj. unfold dir_put. case_decide as Hlt.
  - apply findi_Some. exists de. split_and!; [by apply list_lookup_insert_eq | done |].
    intros k y Hk Hy. rewrite list_lookup_insert_ne in Hy by lia. by eapply (proj1 (findi_None _ _) Hn).
  - rewrite findi_snoc, Hn, Hp. f_equal. lia.
Qed.

Lemma dir_put_lookup es j de : (j <= length es)%nat -> dir_put j de es !! j = Some de.
Proof.
  intros Hj. unfold dir_put. case_decide; [by apply list_lookup_insert_eq|].
  replace j with (length es) by lia. by apply list_lookup_middle.
Qed.

Lemma findi_put_miss (P : list Z -> bool) es j de :
  P de = false -> (forall e, es !! j = Some e -> P e = false) -> findi P (dir_put j de es) = findi P es.
Proof.
  intros Hp Hj. unfold dir_put. case_decide as Hlt.
  - destruct (lookup_lt_is_Some_2 es j Hlt) as [e He]. apply (findi_insert_same _ _ _ e); [done|].
    by rewrite Hp, Hj.
  - rewrite findi_snoc, Hp. by destruct (findi P es).
Qed.

Lemma new_entry_inum inum name : 0 < inum < 65536 -> de_inum (new_entry inum name) = inum.
Proof.
  intros H. unfold de_inum, new_entry, mk_dirent. rewrite lld16_lst16.
  - unfold u16. apply Z.mod_small. lia.
  - lia.
  - unfold zlen. rewrite length_app, length_strncpy. unfold DIRSIZ. simpl. lia.
Qed.

Lemma new_entry_name inum name : short (de_name (new_entry inum name)) = short name.
Proof.
  assert (de_name (new_entry inum name) = Obj.strncpy name DIRSIZ) as -> by done.
  unfold short, Obj.strncpy. pose proof (chars_no_nul name) as Hn. set (c := Obj.chars name) in *.
  destruct (decide (DIRSIZ <= length c)%nat).
  - rewrite (take_app_le c) by done. rewrite chars_all by (by apply Forall_take).
    rewrite take_take. f_equal.
  - rewrite take_app_ge by lia. rewrite (take_ge c) by lia.
    destruct (DIRSIZ - length c)%nat as [|m] eqn:Em; [lia|].
    rewrite take_replicate, Nat.min_l by lia. rewrite replicate_S.
    rewrite chars_app_nul by done. apply take_ge. lia.
Qed.

Lemma dhit_new inum name name' :
  0 < inum < 65536 -> dhit name' (new_entry inum name) = bool_decide (short name' = short name).
Proof.
  intros H. unfold dhit. rewrite new_entry_inum, new_entry_name by done.
  rewrite (proj2 (Z.eqb_neq inum 0)) by lia. done.
Qed.

Lemma free_slot_miss es e name :
  es !! free_slot es = Some e -> dhit name e = false.
Proof.
  unfold free_slot. destruct (findi is_free_entry es) as [j|] eqn:E; simpl.
  - apply findi_Some in E as (x & Hx & Hf & _). intros Hj. assert (x = e) as -> by congruence.
    unfold dhit. unfold is_free_entry in Hf. by rewrite Hf.
  - intros He. apply lookup_lt_Some in He. lia.
Qed.

End directory_proofs.

(** ** Example: the root directory of a small disk

    Inode 1 is a directory whose block 14 holds one entry, [a] for inode 5. *)

#[local] Existing Instance no_devices.

Definition ddir : inode :=
  mkInode 1 1 1 (mkSleeplock false 0) true T_DIR 0 0 1 16 (14 :: replicate 12 0).
Definition ddir_disk : disk :=
  <[14%nat := [5; 0; 97] ++ replicate 509 0]> dfs_disk.
Definition ddir_st : kst :=
  set_k_icache (ddir :: replicate 49 inode0) (set_k_disk ddir_disk dfs).
(** The names [a] and [bb]. *)
Definition name_a : list Z := Obj.cstring [97].
Definition name_bb : list Z := Obj.cstring [98; 98].

Lemma ddir_txn : in_txn dfs_geom ddir_st [] [].
Proof. apply in_txn_icache, dfs_in_txn; [apply block_okb_disk|]; by vm_compute. Qed.

Lemma ddir_mapped : mapped dfs_geom ddir_st ddir 1.
Proof.
  assert (forall bn, 0 <= bn < 1 -> baddr ddir_st ddir bn = 14) as E
    by (intros bn H; by replace bn with 0 by lia).
  split; try done.
  - intros bn Hbn. rewrite E by done. split; [lia | apply dfile_home; lia].
  - intros bn bm Hbn Hbm _. lia.
Qed.

Lemma ddir_ok : dir_ok dfs_geom ddir_st 0 ddir 1.
Proof. split; try done. apply ddir_mapped. Qed.

Lemma ddir_apart : apart dfs_geom ddir_st ddir 1.
Proof.
  assert (iblock ddir_st (i_inum ddir) = 12) as E by done.
  split; rewrite E; [apply dfile_home; lia | | done].
  intros bn Hbn. replace bn with 0 by lia. done.
Qed.

Lemma ddir_room : iget_room ddir_st.
Proof. split; [done|]. exists 1%nat. by vm_compute. Qed.

Lemma ddir_releasable : releasable ddir_st 5.
Proof. intros [|i] ip Hip Hd; [by injection Hip as <- | by apply lookup_replicate in Hip as [-> _]]. Qed.

