(* ===== verification/Vm.v ===== *)
(** * Page tables and user memory

    vm.c over the byte memory of KState.v.  A page table is the address of its
    directory page; the entries are words in memory, so that the functions read and
    write the very tables the MMU reads.  [mmu] is the hardware's own walk, by which
    the kernel also reaches user memory during a system call. *)

From S2P Require Import Prelude Monad CString KState Sched Kalloc Bio Log Fs.

Local Open Scope kernel_scope.

Definition NPDENTRIES : nat := 1024.
Definition PTE_P : Z := 1.
Definition PTE_W : Z := 2.
Definition PTE_U : Z := 4.
Definition PDX (va : Z) : Z := Z.land (Z.shiftr (u32 va) 22) 1023.
Definition PTX (va : Z) : Z := Z.land (Z.shiftr (u32 va) 12) 1023.
Definition PGADDR (d t o : Z) : Z := u32 (Z.lor (Z.lor (Z.shiftl d 22) (Z.shiftl t 12)) o).
Definition PTE_ADDR (pte : Z) : Z := Z.land pte (Z.lnot 4095).
Definition PTE_FLAGS (pte : Z) : Z := Z.land pte 4095.
Definition present (pte : Z) : bool := negb (Z.land pte PTE_P =? 0).

Definition load32 (a : Z) : K Z := gets (fun s => ld32 (k_mem s) a).
Definition store32 (a v : Z) : K unit := upd_mem (fun m => st32 m a v).

(** The bytes [l] stored at [a]. *)
Definition put_bytes (m : mem) (a : Z) (l : list Z) : mem :=
  fun x => if (a <=? x) && (x <? a + zlen l) then lget l (x - a) else m x.

(** ** The hardware's translation

    The walk of the two levels: the kernel address of the byte a virtual address
    denotes, and the flags of its entry. *)
Definition mmu (m : mem) (pgdir va : Z) : option (Z * Z) :=
  let pde := ld32 m (pgdir + 4 * PDX va) in
  if negb (present pde) then None else
  let pte := ld32 m (P2V (PTE_ADDR pde) + 4 * PTX va) in
  if negb (present pte) then None else
  Some (P2V (PTE_ADDR pte) + u32 va mod PGSIZE, PTE_FLAGS pte).

Section vm.
Context `{L : Linker}.

Definition walkpgdir (pgdir va : Z) (alloc : bool) : K Z :=
  let pde := pgdir + 4 * PDX va in
  e <- load32 pde ;;
  if present e then ret (P2V (PTE_ADDR e) + 4 * PTX va)
  else if negb alloc then ret 0
  else
    pgtab <- kalloc ;;
    if pgtab =? 0 then ret 0 else
    upd_mem (fun m => KString.memset m pgtab 0 PGSIZE) ;;
    store32 pde (Z.lor (Z.lor (Z.lor (V2P pgtab) PTE_P) PTE_W) PTE_U) ;;
    ret (pgtab + 4 * PTX va).

Definition mappages (pgdir va size pa perm : Z) : K Z :=
  let a := PGROUNDDOWN va in
  let last := PGROUNDDOWN (u32 (va + size - 1)) in
  loop (S (Z.to_nat (u32 (last - a) / PGSIZE))) (fun '(a, pa) =>
    pte <- walkpgdir pgdir a true ;;
    if pte =? 0 then ret (inr (-1)) else
    e <- load32 pte ;;
    if present e then panic "remap" else
    store32 pte (Z.lor (Z.lor pa perm) PTE_P) ;;
    if a =? last then ret (inr 0)
    else ret (inl (u32 (a + PGSIZE), u32 (pa + PGSIZE)))) (a, pa).

(** [deallocuvm]: the loop visits each page below [oldsz] at most once. *)
Definition deallocuvm (pgdir oldsz newsz : Z) : K Z :=
  if oldsz <=? newsz then ret oldsz else
  loop (S (S (Z.to_nat (oldsz / PGSIZE)))) (fun a =>
    if a <? oldsz then
      pte <- walkpgdir pgdir a false ;;
      if pte =? 0 then
        let a := u32 (PGADDR (PDX a + 1) 0 0 - PGSIZE) in
        ret (inl (u32 (a + PGSIZE)))
      else
        e <- load32 pte ;;
        when (present e)
          (let pa := PTE_ADDR e in
           if pa =? 0 then panic "kfree" else
           let v := P2V pa in
           kfree v ;;
           store32 pte 0) ;;
        ret (inl (u32 (a + PGSIZE)))
    else ret (inr newsz)) (PGROUNDUP newsz).

Definition freevm (pgdir : Z) : K unit :=
  if pgdir =? 0 then panic "freevm: no pgdir" else
  deallocuvm pgdir KERNBASE 0 ;;
  for_each (seq 0 NPDENTRIES) (fun i =>
    e <- load32 (pgdir + 4 * Z.of_nat i) ;;
    when (present e)
      (e <- load32 (pgdir + 4 * Z.of_nat i) ;;
       let v := P2V (PTE_ADDR e) in
       kfree v)) ;;
  kfree pgdir.

(** The rows of [kmap]: virtual address, first and last physical address,
    permissions. *)
Definition kmap : list (Z * Z * Z * Z) :=
  [ (KERNBASE, 0, EXTMEM, PTE_W);
    (KERNLINK, V2P KERNLINK, V2P sym_data, 0);
    (sym_data, V2P sym_data, PHYSTOP, PTE_W);
    (DEVSPACE, DEVSPACE, 0, PTE_W) ].

Definition setupkvm : K Z :=
  pgdir <- kalloc ;;
  if pgdir =? 0 then ret 0 else
  upd_mem (fun m => KString.memset m pgdir 0 PGSIZE) ;;
  if DEVSPACE <? P2V PHYSTOP then panic "PHYSTOP too high" else
  r <- for_first kmap (fun '(virt, phys_start, phys_end, perm) =>
    r <- mappages pgdir virt (u32 (phys_end - phys_start)) phys_start perm ;;
    if r <? 0 then freevm pgdir ;; ret (Some 0) else ret None) ;;
  match r with
  | Some z => ret z
  | None => ret pgdir
  end.

Definition switchkvm : K unit :=
  kp <- gets (fun s => k_kpgdir s) ;;
  modify (set_k_cr3 (V2P kp)).

Definition kvmalloc : K unit :=
  kp <- setupkvm ;;
  modify (set_k_kpgdir kp) ;;
  switchkvm.

(** [switchuvm]: the segment descriptor of the task state is not represented, the
    stack pointer in it and the page table register are. *)
Definition switchuvm (op : option nat) : K unit :=
  match op with
  | None => panic "switchuvm: no process"
  | Some p =>
      pr <- get_proc p ;;
      if p_kstack pr =? 0 then panic "switchuvm: no kstack" else
      if p_pgdir pr =? 0 then panic "switchuvm: no pgdir" else
      modify (set_k_esp0 (u32 (p_kstack pr + KSTACKSIZE))) ;;
      modify (set_k_cr3 (V2P (p_pgdir pr)))
  end.

Definition inituvm (pgdir : Z) (init : list Z) (sz : Z) : K unit :=
  if PGSIZE <=? sz then panic "inituvm: more than a page" else
  mem <- kalloc ;;
  upd_mem (fun m => KString.memset m mem 0 PGSIZE) ;;
  mappages pgdir 0 PGSIZE (V2P mem) (Z.lor PTE_W PTE_U) ;;
  upd_mem (fun m => put_bytes m mem (take (Z.to_nat sz) init)).

Definition loaduvm `{DW : Devsw} (pgdir addr : Z) (ip : nat) (offset sz : Z) : K Z :=
  if negb (addr mod PGSIZE =? 0) then panic "loaduvm: addr must be page aligned" else
  loop (S (S (Z.to_nat (sz / PGSIZE)))) (fun i =>
    if i <? sz then
      pte <- walkpgdir pgdir (u32 (addr + i)) false ;;
      if pte =? 0 then panic "loaduvm: address should exist" else
      e <- load32 pte ;;
      let pa := PTE_ADDR e in
      let n := if sz - i <? PGSIZE then sz - i else PGSIZE in
      ' (r, data) <- readi ip (u32 (offset + i)) n ;;
      upd_mem (fun m => put_bytes m (P2V pa) data) ;;
      if negb (u32 r =? n) then ret (inr (-1)) else ret (inl (u32 (i + PGSIZE)))
    else ret (inr 0)) 0.

Definition allocuvm (pgdir oldsz newsz : Z) : K Z :=
  if KERNBASE <=? newsz then ret 0 else
  if newsz <? oldsz then ret oldsz else
  loop (S (Z.to_nat ((newsz - oldsz) / PGSIZE + 1))) (fun a =>
    if a <? newsz then
      mem <- kalloc ;;
      if mem =? 0 then
        cprintf "allocuvm out of memory" [] ;;
        deallocuvm pgdir newsz oldsz ;;
        ret (inr 0)
      else
        upd_mem (fun m => KString.memset m mem 0 PGSIZE) ;;
        r <- mappages pgdir a PGSIZE (V2P mem) (Z.lor PTE_W PTE_U) ;;
        if r <? 0 then
          cprintf "allocuvm out of memory (2)" [] ;;
          deallocuvm pgdir newsz oldsz ;;
          kfree mem ;;
          ret (inr 0)
        else ret (inl (u32 (a + PGSIZE)))
    else ret (inr newsz)) (PGROUNDUP oldsz).

Definition clearpteu (pgdir uva : Z) : K unit :=
  pte <- walkpgdir pgdir uva false ;;
  if pte =? 0 then panic "clearpteu" else
  e <- load32 pte ;;
  store32 pte (Z.land e (Z.lnot PTE_U)).

Definition copyuvm (pgdir sz : Z) : K Z :=
  d <- setupkvm ;;
  if d =? 0 then ret 0 else
  let bad := freevm d ;; ret (inr 0) in
  loop (S (S (Z.to_nat (sz / PGSIZE)))) (fun i =>
    if i <? sz then
      pte <- walkpgdir pgdir i false ;;
      if pte =? 0 then panic "copyuvm: pte should exist" else
      e <- load32 pte ;;
      if negb (present e) then panic "copyuvm: page not present" else
      let pa := PTE_ADDR e in
      let flags := PTE_FLAGS e in
      mem <- kalloc ;;
      if mem =? 0 then bad else
      upd_mem (fun m => KString.memmove m mem (P2V pa) PGSIZE) ;;
      r <- mappages d i PGSIZE (V2P mem) flags ;;
      if r <? 0 then bad else ret (inl (u32 (i + PGSIZE)))
    else ret (inr d)) 0.

Definition uva2ka (pgdir uva : Z) : K Z :=
  pte <- walkpgdir pgdir uva false ;;
  if pte =? 0 then fault "uva2ka" else
  e <- load32 pte ;;
  if negb (present e) then ret 0 else
  if Z.land e PTE_U =? 0 then ret 0 else
  ret (P2V (PTE_ADDR e)).

(** [copyout]: [buf] are the bytes at the kernel address [p]. *)
Definition copyout (pgdir va : Z) (buf : list Z) : K Z :=
  loop (S (S (length buf))) (fun '(va, buf) =>
    let len := zlen buf in
    if 0 <? len then
      let va0 := PGROUNDDOWN va in
      pa0 <- uva2ka pgdir va0 ;;
      if pa0 =? 0 then ret (inr (-1)) else
      let n := Z.min (PGSIZE - (va - va0)) len in
      upd_mem (fun m => put_bytes m (pa0 + (va - va0)) (take (Z.to_nat n) buf)) ;;
      ret (inl (u32 (va0 + PGSIZE), drop (Z.to_nat n) buf))
    else ret (inr 0)) (va, buf).
End vm.

(** ** User memory as the kernel sees it

    A byte of the current process at a user address: through the page table the
    processor uses.  A missing page is a page fault in the kernel. *)
Definition uread (va : Z) : K Z :=
  p <- curproc ;;
  pr <- get_proc p ;;
  m <- gets (fun s => k_mem s) ;;
  match mmu m (p_pgdir pr) va with
  | Some (a, _) => ret (m a)
  | None => fault "page fault"
  end.

Fixpoint ureads (va : Z) (n : nat) : K (list Z) :=
  match n with
  | O => ret []
  | S n' => b <- uread va ;; l <- ureads (u32 (va + 1)) n' ;; ret (b :: l)
  end.

Definition uread32 (va : Z) : K Z :=
  l <- ureads va 4 ;; ret (lld32 l 0).

Definition uwrite (va v : Z) : K unit :=
  p <- curproc ;;
  pr <- get_proc p ;;
  m <- gets (fun s => k_mem s) ;;
  match mmu m (p_pgdir pr) va with
  | Some (a, _) => upd_mem (fun m => st8 m a v)
  | None => fault "page fault"
  end.

Fixpoint uwrites (va : Z) (l : list Z) : K unit :=
  match l with
  | [] => ret tt
  | v :: l' => uwrite va v ;; uwrites (u32 (va + 1)) l'
  end.
