(* ===== verification/Paging.v ===== *)
(** * Page tables

    What vm.c's [walkpgdir] and [mappages] do to the translation the processor computes
    from the page tables ([mmu] of Vm.v): mapping a page adds exactly that page. *)

From S2P Require Import Prelude Monad CString KState Sched Kalloc Bio Log Fs Vm.

Local Open Scope kernel_scope.

(** ** The fields of addresses and entries *)

Lemma land_ones_mod x n : 0 <= n -> Z.land x (2 ^ n - 1) = x mod 2 ^ n.
Proof. intros H. rewrite <- Z.land_ones by done. by rewrite Z.ones_equiv, Z.sub_1_r. Qed.

Lemma PDX_eq va : PDX va = u32 va / 4194304.
Proof.
  unfold PDX. rewrite (land_ones_mod _ 10), Z.shiftr_div_pow2 by lia.
  change (2 ^ 22) with 4194304. change (2 ^ 10) with 1024. zlia.
Qed.

Lemma PTX_eq va : PTX va = (u32 va / 4096) mod 1024.
Proof. unfold PTX. rewrite (land_ones_mod _ 10), Z.shiftr_div_pow2 by lia. done. Qed.

Lemma PTE_ADDR_eq e : PTE_ADDR e = e - e mod 4096.
Proof. apply land_lnot_4095. Qed.

Lemma PTE_FLAGS_eq e : PTE_FLAGS e = e mod 4096.
Proof. exact (land_ones_mod e 12 ltac:(lia)). Qed.

Lemma present_eq e : present e = (e mod 2 =? 1).
Proof.
  unfold present, PTE_P. change 1 with (2 ^ 1 - 1) at 1. rewrite land_ones_mod by lia. change (2 ^ 1) with 2.
  pose proof (Z.mod_pos_bound e 2 ltac:(lia)).
  destruct (Z.eqb_spec (e mod 2) 0), (Z.eqb_spec (e mod 2) 1); done || lia.
Qed.

(** Flags and an aligned address do not overlap. *)
Lemma lor_low pa f : pa mod 4096 = 0 -> 0 <= f < 4096 -> Z.lor pa f = pa + f.
Proof.
  intros Hp Hf. assert (Z.land pa f = 0) as E.
  { replace pa with (Z.shiftl (pa / 4096) 12) by (rewrite Z.shiftl_mul_pow2 by lia; zlia).
    apply Z.bits_inj'. intros n Hn. rewrite Z.land_spec, Z.bits_0. destruct (Z.lt_ge_cases n 12).
    - by rewrite Z.shiftl_spec_low.
    - rewrite (Z.bits_above_log2 f n); [by rewrite andb_false_r | lia |].
      destruct (decide (f = 0)) as [->|]; [simpl; lia|].
      assert (Z.log2 f < 12) by (apply Z.log2_lt_pow2; lia). lia. }
  by rewrite (Z.add_nocarry_lxor _ _ E), (Z.lxor_lor _ _ E).
Qed.

Lemma lor_lt a b : 0 <= a < 4096 -> 0 <= b < 4096 -> 0 <= Z.lor a b < 4096.
Proof.
  intros Ha Hb. assert (0 <= Z.lor a b) by (apply Z.lor_nonneg; lia). split; [done|].
  destruct (decide (Z.lor a b = 0)) as [->|]; [lia|].
  apply (Z.log2_lt_pow2 _ 12); [lia|]. rewrite Z.log2_lor by lia.
  destruct (decide (a = 0)) as [->|]; destruct (decide (b = 0)) as [->|]; simpl; try lia.
  - assert (Z.log2 b < 12) by (apply Z.log2_lt_pow2; lia). lia.
  - assert (Z.log2 a < 12) by (apply Z.log2_lt_pow2; lia). lia.
  - assert (Z.log2 b < 12) by (apply Z.log2_lt_pow2; lia).
    assert (Z.log2 a < 12) by (apply Z.log2_lt_pow2; lia). lia.
Qed.

(** The entry [mappages] writes. *)
Lemma pte_value pa perm :
  pa mod 4096 = 0 -> 0 <= pa < 4294967296 -> 0 <= perm < 4096 ->
  let e := Z.lor (Z.lor pa perm) PTE_P in
  PTE_ADDR e = pa /\ PTE_FLAGS e = Z.lor perm PTE_P /\ present e = true /\ 0 <= e < 4294967296.
Proof.
  intros Hp Hr Hf e.
  pose proof (lor_lt perm 1 Hf ltac:(lia)) as Hl.
  assert (e = pa + Z.lor perm PTE_P) as -> by (unfold e; rewrite <- Z.lor_assoc; by apply lor_low).
  assert (Z.lor perm PTE_P mod 2 = 1) as Hodd.
  { change 2 with (2 ^ 1). rewrite <- Z.land_ones by lia. change (Z.ones 1) with 1. unfold PTE_P.
    rewrite Z.land_lor_distr_l. change (Z.land 1 1) with 1. change 1 with (Z.ones 1) at 1.
    rewrite Z.land_ones by lia. change (2 ^ 1) with 2.
    pose proof (Z.mod_pos_bound perm 2 ltac:(lia)). assert (perm mod 2 = 0 \/ perm mod 2 = 1) as [-> | ->] by lia; done. }
  rewrite PTE_ADDR_eq, PTE_FLAGS_eq, present_eq, Z.eqb_eq. unfold PTE_P in *.
  generalize dependent (Z.lor perm 1). intros f Hl Hodd. zlia.
Qed.

Lemma P2V_page e : P2V (PTE_ADDR e) mod 4096 = 0 /\ 0 <= P2V (PTE_ADDR e) < 4294967296.
Proof. rewrite PTE_ADDR_eq. unfold P2V, KERNBASE. zlia. Qed.

(** ** Page tables in memory *)

(** The page-table page of directory entry [i]. *)
Definition pt_page (m : mem) (pd i : Z) : Z := P2V (PTE_ADDR (ld32 m (pd + 4 * i))).
Definition pde_present (m : mem) (pd i : Z) : Prop := present (ld32 m (pd + 4 * i)) = true.

(** The directory and its page-table pages are different pages. *)
Record pt_ok (m : mem) (pd : Z) : Prop := {
  pk_dir : pd mod 4096 = 0;
  pk_nonzero i : 0 <= i < 1024 -> pde_present m pd i -> pt_page m pd i <> 0;
  pk_table i : 0 <= i < 1024 -> pde_present m pd i -> pt_page m pd i <> pd;
  pk_inj i j : 0 <= i < 1024 -> 0 <= j < 1024 -> pde_present m pd i -> pde_present m pd j -> i <> j ->
    pt_page m pd i <> pt_page m pd j
}.

(** The translation reads two words. *)
Lemma mmu_eq m pd va :
  mmu m pd va =
    if present (ld32 m (pd + 4 * PDX va)) then
      let pte := ld32 m (pt_page m pd (PDX va) + 4 * PTX va) in
      if present pte then Some (P2V (PTE_ADDR pte) + u32 va mod PGSIZE, PTE_FLAGS pte) else None
    else None.
Proof. unfold mmu, pt_page. by destruct (present _); [destruct (present _)|]. Qed.

Lemma PDX_range va : 0 <= PDX va < 1024.
Proof. rewrite PDX_eq. zlia. Qed.
Lemma PTX_range va : 0 <= PTX va < 1024.
Proof. rewrite PTX_eq. zlia. Qed.

Lemma same_page va va' : 
  u32 va / 4096 = u32 va' / 4096 <-> PDX va = PDX va' /\ PTX va = PTX va'.
Proof. rewrite !PDX_eq, !PTX_eq. zlia. Qed.

(** Words of different pages. *)
Lemma page_apart p q i j :
  p mod 4096 = 0 -> q mod 4096 = 0 -> p <> q -> 0 <= i < 1024 -> 0 <= j < 1024 ->
  p + 4 * i + 4 <= q + 4 * j \/ q + 4 * j + 4 <= p + 4 * i.
Proof. intros. zlia. Qed.

(** Writing the entry of [va] when its page-table page is there. *)
Lemma map_in_table m pd va e :
  pt_ok m pd -> pde_present m pd (PDX va) -> 0 <= e < 4294967296 -> present e = true ->
  let m' := st32 m (pt_page m pd (PDX va) + 4 * PTX va) e in
  forall va', mmu m' pd va' =
    if u32 va' / 4096 =? u32 va / 4096 then Some (P2V (PTE_ADDR e) + u32 va' mod PGSIZE, PTE_FLAGS e)
    else mmu m pd va'.
Proof.
  intros [Hpd _ Htab Hinj] Hp He Hpe m' va'.
  pose proof (PDX_range va) as HD. pose proof (PTX_range va) as HT.
  pose proof (PDX_range va') as HD'. pose proof (PTX_range va') as HT'.
  set (t := pt_page m pd (PDX va)) in *.
  assert (t mod 4096 = 0) as Ht by apply P2V_page.
  assert (forall i, 0 <= i < 1024 -> ld32 m' (pd + 4 * i) = ld32 m (pd + 4 * i)) as Hdir.
  { intros i Hi. apply ld32_st32_ne.
    destruct (page_apart pd t i (PTX va) Hpd Ht ltac:(intros E; by apply (Htab (PDX va) HD Hp)) Hi HT); lia. }
  rewrite !mmu_eq. assert (pt_page m' pd (PDX va') = pt_page m pd (PDX va')) as Epg by (unfold pt_page; by rewrite Hdir).
  rewrite Epg, Hdir by done.
  destruct (Z.eqb_spec (u32 va' / 4096) (u32 va / 4096)) as [E|E].
  - apply same_page in E as [E1 E2]. rewrite E1, E2. unfold pde_present in Hp. rewrite Hp. fold t.
    unfold m'. rewrite ld32_st32, u32_small by lia. by rewrite Hpe.
  - rewrite same_page in E. destruct (present (ld32 m (pd + 4 * PDX va'))) eqn:Hp'; [|done].
    assert (ld32 m' (pt_page m pd (PDX va') + 4 * PTX va') = ld32 m (pt_page m pd (PDX va') + 4 * PTX va')) as ->; [|done].
    apply ld32_st32_ne. destruct (decide (PDX va' = PDX va)) as [Ed|Ed].
    + rewrite Ed in *. fold t. assert (PTX va' <> PTX va) by tauto. lia.
    + destruct (page_apart (pt_page m pd (PDX va')) t (PTX va') (PTX va)) as [?|?]; try done; [| |lia|lia].
      * apply P2V_page.
      * by apply Hinj.
Qed.

(** Giving directory entry [i] a cleared page-table page changes no translation. *)
Definition with_table (m : mem) (pd i pg : Z) : mem :=
  st32 (KString.memset m pg 0 PGSIZE) (pd + 4 * i)
    (Z.lor (Z.lor (Z.lor (V2P pg) PTE_P) PTE_W) PTE_U).

Section tables.
Context (m : mem) (pd i pg : Z).
Hypothesis Hok : pt_ok m pd.
Hypothesis Hi : 0 <= i < 1024.
Hypothesis Hnew : ~ pde_present m pd i.
Hypothesis Hpg : pg mod 4096 = 0 /\ KERNBASE <= pg < KERNBASE + PHYSTOP.
Hypothesis Hpd : pg <> pd.
Hypothesis Hsep : forall j, 0 <= j < 1024 -> pde_present m pd j -> pg <> pt_page m pd j.

Lemma table_entry :
  Z.lor (Z.lor (Z.lor (V2P pg) PTE_P) PTE_W) PTE_U = pg - KERNBASE + 7.
Proof.
  unfold PTE_P, PTE_W, PTE_U. rewrite <- !Z.lor_assoc. change (Z.lor 1 (Z.lor 2 4)) with 7.
  unfold V2P. rewrite u32_small by klia. apply lor_low; [|lia]. unfold KERNBASE in *. zlia.
Qed.

Lemma with_table_frame x :
  x < pg \/ pg + 4096 <= x -> x < pd + 4 * i \/ pd + 4 * i + 4 <= x -> with_table m pd i pg x = m x.
Proof.
  intros H1 H2. unfold with_table. rewrite st32_frame by lia. rewrite memset_spec by klia.
  destruct (in_range pg PGSIZE x) eqn:E; [apply in_range_true in E; klia | done].
Qed.

Lemma with_table_entry : ld32 (with_table m pd i pg) (pd + 4 * i) = pg - KERNBASE + 7.
Proof. unfold with_table. rewrite ld32_st32, table_entry. apply u32_small. klia. Qed.

Lemma with_table_page : pt_page (with_table m pd i pg) pd i = pg.
Proof.
  unfold pt_page. rewrite with_table_entry, PTE_ADDR_eq. unfold P2V, KERNBASE, PHYSTOP in *. zlia.
Qed.

Lemma with_table_present : pde_present (with_table m pd i pg) pd i.
Proof.
  unfold pde_present. rewrite with_table_entry, present_eq, Z.eqb_eq. unfold KERNBASE in *. zlia.
Qed.

Lemma with_table_dir j :
  0 <= j < 1024 -> j <> i -> ld32 (with_table m pd i pg) (pd + 4 * j) = ld32 m (pd + 4 * j).
Proof.
  intros Hj Hne. apply ld32_ext. intros x Hx. apply with_table_frame; [|lia].
  pose proof (pk_dir _ _ Hok). zlia.
Qed.

Lemma with_table_word t k :
  t mod 4096 = 0 -> t <> pg -> t <> pd -> 0 <= k < 1024 ->
  ld32 (with_table m pd i pg) (t + 4 * k) = ld32 m (t + 4 * k).
Proof.
  intros Ht H1 H2 Hk. pose proof (pk_dir _ _ Hok). apply ld32_ext. intros x Hx.
  apply with_table_frame; zlia.
Qed.

Lemma with_table_zero k : 0 <= k < 1024 -> ld32 (with_table m pd i pg) (pg + 4 * k) = 0.
Proof.
  intros Hk. pose proof (pk_dir _ _ Hok). unfold with_table. rewrite ld32_st32_ne by zlia.
  assert (forall x, pg <= x < pg + 4096 -> KString.memset m pg 0 PGSIZE x = 0) as Hz.
  { intros x Hx. rewrite memset_spec by klia.
    destruct (in_range pg PGSIZE x) eqn:E; [done|]. apply in_range_false in E. klia. }
  unfold ld32. rewrite !Hz by lia. done.
Qed.

Lemma with_table_pde j :
  0 <= j < 1024 -> pde_present (with_table m pd i pg) pd j ->
  (j = i /\ pt_page (with_table m pd i pg) pd j = pg) \/
  (j <> i /\ pde_present m pd j /\ pt_page (with_table m pd i pg) pd j = pt_page m pd j).
Proof.
  intros Hj Hp. destruct (decide (j = i)) as [->|Hne]; [left; split; [done | apply with_table_page]|].
  right. unfold pde_present, pt_page in *. rewrite (with_table_dir j Hj Hne) in *. done.
Qed.

Lemma with_table_ok : pt_ok (with_table m pd i pg) pd.
Proof.
  split; [apply Hok | | |].
  - intros j Hj Hp. destruct (with_table_pde j Hj Hp) as [[-> ->]|(Hne & Hp' & ->)]; [klia|].
    by apply (pk_nonzero _ _ Hok).
  - intros j Hj Hp. destruct (with_table_pde j Hj Hp) as [[-> ->]|(Hne & Hp' & ->)]; [done|].
    by apply (pk_table _ _ Hok).
  - intros j k Hj Hk Hpj Hpk Hne.
    destruct (with_table_pde j Hj Hpj) as [[-> ->]|(Hnj & Hpj' & ->)],
             (with_table_pde k Hk Hpk) as [[-> ->]|(Hnk & Hpk' & ->)]; [done | | |].
    + by apply Hsep.
    + apply not_eq_sym. by apply Hsep.
    + by apply (pk_inj _ _ Hok).
Qed.

Lemma with_table_mmu va : mmu (with_table m pd i pg) pd va = mmu m pd va.
Proof.
  pose proof (PDX_range va) as HD. pose proof (PTX_range va) as HT. rewrite !mmu_eq.
  destruct (decide (PDX va = i)) as [E|E].
  - rewrite E, with_table_page, with_table_present, with_table_zero by done.
    unfold pde_present in Hnew. by destruct (present (ld32 m (pd + 4 * i))).
  - unfold pt_page at 1. rewrite with_table_dir by done. fold (pt_page m pd (PDX va)).
    destruct (present (ld32 m (pd + 4 * PDX va))) eqn:Hp; [|done].
    rewrite with_table_word; [done | apply P2V_page | | | done].
    + apply not_eq_sym. by apply Hsep.
    + by apply (pk_table _ _ Hok).
Qed.

End tables.

(** ** [walkpgdir] and [mappages] *)

Section mapping.
Context `{L : Linker}.

(** A well-formed page table beside a well-formed free list: no page of the table is
    free. *)
Record vm_inv (s : kst) (pd : Z) (pages : list Z) : Prop := {
  vi_kmem : kmem_inv s pages;
  vi_pt : pt_ok (k_mem s) pd;
  vi_dir : pd ∉ pages;
  vi_tables i : 0 <= i < 1024 -> pde_present (k_mem s) pd i -> pt_page (k_mem s) pd i ∉ pages
}.

(** What the allocator needs of a state, and that it is kept. *)
Definition can_alloc (s : kst) : Prop := has_cont s /\ alloc_locks_free s.

Lemma alloc_frame f fl s : can_alloc s -> can_alloc (charge f (set_k_freelist fl s)).
Proof.
  intros [H1 H2]. unfold charge. change (cur_cont (set_k_freelist fl s)) with (cur_cont s).
  destruct (cur_cont s) as [c|] eqn:Ec; [|done]. split; [|done].
  intros Hu. destruct (H1 Hu) as (c' & co & Hc & Hco). assert (c' = c) as -> by congruence.
  exists c, (f co). split; [exact Ec|]. simpl. by rewrite list_lookup_alter_eq, Hco.
Qed.

Lemma killed_frame c co s :
  cur_cont s = Some c -> k_ctable s !! c = Some co -> can_alloc s -> can_alloc (limit_killed c co s).
Proof.
  intros Ec Hco [H1 H2]. split; [|done]. intros _. exists c, (set_c_state CSTOPPING co).
  split; [exact Ec|]. simpl. by rewrite list_lookup_alter_eq, Hco.
Qed.

Lemma killed_over c co s :
  cur_cont s = Some c -> k_ctable s !! c = Some co -> over_limit (limit_killed c co s) = over_limit s.
Proof.
  intros Ec Hco. unfold over_limit. change (cur_cont (limit_killed c co s)) with (cur_cont s).
  rewrite Ec. simpl. by rewrite list_lookup_alter_eq, Hco.
Qed.

(** Memory writes outside the pages of the free list. *)
Lemma kmem_write s pages m' :
  kmem_inv s pages -> mem_wf m' ->
  (forall p x, p ∈ pages -> p <= x < p + 4 -> k_mem s x = m' x) ->
  kmem_inv (set_k_mem m' s) pages.
Proof.
  intros [H1 H2 H3 H4] Hw Hx. split; [done | | done | done].
  by apply (is_freelist_ext (k_mem s)).
Qed.

Lemma aligned_page p pages s : kmem_inv s pages -> p ∈ pages -> p mod 4096 = 0.
Proof. intros [_ _ _ H] Hp. by apply (proj1 (Forall_forall _ _) H p Hp). Qed.

(** The page-table page [walkpgdir] makes. *)
Lemma table_made s pd i pg pages :
  vm_inv s pd (pg :: pages) -> 0 <= i < 1024 -> ~ pde_present (k_mem s) pd i ->
  forall s1, kmem_inv s1 pages -> k_mem s1 = k_mem s ->
  let m' := with_table (k_mem s) pd i pg in
  vm_inv (set_k_mem m' s1) pd pages /\ pde_present m' pd i /\ pt_page m' pd i = pg /\
  forall va, mmu m' pd va = mmu (k_mem s) pd va.
Proof.
  intros [[Hwf _ Hnd Hpgs] Hpt Hdir Htab] Hi Hnew s1 Hk Hm m'.
  apply Forall_cons in Hpgs as [(Hal & _ & Hr) Hpgs]. apply NoDup_cons in Hnd as [Hnin Hnd].
  assert (pg <> pd) as Hpd by set_solver.
  assert (forall j, 0 <= j < 1024 -> pde_present (k_mem s) pd j -> pg <> pt_page (k_mem s) pd j) as Hsep
    by (intros j Hj Hp E; apply (Htab j Hj Hp); rewrite <- E; left).
  assert (pg mod 4096 = 0 /\ KERNBASE <= pg < KERNBASE + PHYSTOP) as Hpg by done.
  split_and!; [|by apply with_table_present | by apply with_table_page | by apply with_table_mmu].
  split; [| by apply with_table_ok | set_solver |].
  - apply kmem_write; [done | apply st32_wf, memset_wf; [done | klia] |].
    intros p x Hp Hx. rewrite Hm. symmetry. pose proof (aligned_page _ _ _ Hk Hp).
    pose proof (pk_dir _ _ Hpt). assert (p <> pg) by set_solver. assert (p <> pd) by set_solver.
    apply with_table_frame; zlia.
  - intros j Hj Hp. change (pde_present m' pd j) in Hp. change (pt_page m' pd j ∉ pages). unfold m' in *.
    destruct (with_table_pde (k_mem s) pd i pg Hpt Hi Hpg Hpd j Hj Hp) as [[_ ->]|(_ & Hp' & ->)]; [done|].
    specialize (Htab j Hj Hp'). set_solver.
Qed.

(** [walkpgdir] with [alloc] set: the entry's address, with its table present and no
    translation changed, or 0 when the allocator has no page to give. *)
Lemma walkpgdir_alloc s pd va pages :
  vm_inv s pd pages -> can_alloc s ->
  exists r s' pages', walkpgdir pd va true s = Ret r s' /\ vm_inv s' pd pages' /\ can_alloc s' /\
    (forall va', mmu (k_mem s') pd va' = mmu (k_mem s) pd va') /\
    ((r = 0 /\ (pages' = [] \/ over_limit s' = true)) \/
     (r <> 0 /\ r = pt_page (k_mem s') pd (PDX va) + 4 * PTX va /\ pde_present (k_mem s') pd (PDX va))).
Proof.
  intros Hv Hc. pose proof (PDX_range va) as HD. pose proof (PTX_range va) as HT.
  unfold walkpgdir, load32. rewrite bind_gets.
  destruct (present (ld32 (k_mem s) (pd + 4 * PDX va))) eqn:Hp.
  - exists (pt_page (k_mem s) pd (PDX va) + 4 * PTX va), s, pages. split_and!; try done.
    right. split_and!; [|done | done].
    pose proof (pk_nonzero _ _ (vi_pt _ _ _ Hv) _ HD Hp).
    pose proof (P2V_page (ld32 (k_mem s) (pd + 4 * PDX va))) as [_ ?]. unfold pt_page in *. lia.
  - cbv beta iota delta [negb].
    destruct (kalloc_spec s pages (vi_kmem _ _ _ Hv) (proj1 Hc) (proj2 Hc)) as (r & s1 & Hk & Hr).
    unfold kalloc_result in Hr. destruct (over_limit s) eqn:Ho.
    + destruct Hr as (-> & Hi & c & co & Ec & Hco & ->). exists 0, (limit_killed c co s), pages.
      split; [by rewrite (bind_Ret _ _ _ _ _ Hk)|].
      split_and!; [destruct Hv; by split | by apply killed_frame | done |].
      left. split; [done|]. right. by rewrite killed_over.
    + destruct pages as [|p ps].
      { destruct Hr as [-> ->]. exists 0, s, []. split; [by rewrite (bind_Ret _ _ _ _ _ Hk)|]. split_and!; auto. }
      destruct Hr as (-> & Hi & Hm & Hs1).
      assert (can_alloc s1) as Hc1 by (rewrite Hs1; by apply alloc_frame).
      assert (p <> 0 /\ 0 < p) as [Hnz Hpos].
      { pose proof (Forall_inv (km_pages _ _ (vi_kmem _ _ _ Hv))) as (_ & _ & ?). klia. }
      destruct (table_made s pd (PDX va) p ps Hv HD) with (s1 := s1) as (H1 & H2 & H3 & H4);
        [unfold pde_present; by rewrite Hp | done | done |].
      exists (p + 4 * PTX va), (set_k_mem (with_table (k_mem s) pd (PDX va) p) s1), ps.
      split; [rewrite (bind_Ret _ _ _ _ _ Hk), (proj2 (Z.eqb_neq p 0) Hnz), <- Hm; reflexivity|].
      split_and!; [done | done | done |].
      right. split_and!; [lia | by rewrite <- H3 at 1 | done].
Qed.

(** The entry written keeps the table and the free list well formed. *)
Lemma table_write s pd va pages v :
  vm_inv s pd pages -> pde_present (k_mem s) pd (PDX va) ->
  vm_inv (set_k_mem (st32 (k_mem s) (pt_page (k_mem s) pd (PDX va) + 4 * PTX va) v) s) pd pages.
Proof.
  intros [Hk [Hpd Hnz Htab Hinj] Hdir Hfree] Hp.
  pose proof (PDX_range va) as HD. pose proof (PTX_range va) as HT.
  set (t := pt_page (k_mem s) pd (PDX va)) in *. set (m' := st32 _ _ _).
  assert (t mod 4096 = 0) as Ht by apply P2V_page.
  assert (forall i, 0 <= i < 1024 -> ld32 m' (pd + 4 * i) = ld32 (k_mem s) (pd + 4 * i)) as Hsame.
  { intros i Hi. apply ld32_st32_ne.
    destruct (page_apart pd t i (PTX va) Hpd Ht (not_eq_sym (Htab _ HD Hp)) Hi HT); lia. }
  assert (forall i, 0 <= i < 1024 -> pt_page m' pd i = pt_page (k_mem s) pd i) as Epg
    by (intros i Hi; unfold pt_page; by rewrite Hsame).
  assert (forall i, 0 <= i < 1024 -> pde_present m' pd i -> pde_present (k_mem s) pd i) as Epr
    by (intros i Hi; unfold pde_present; by rewrite Hsame).
  split; [| | done |].
  - apply kmem_write; [done | apply st32_wf, Hk|]. intros p x Hin Hx. symmetry. apply st32_frame.
    pose proof (aligned_page _ _ _ Hk Hin). assert (p <> t) by (intros ->; by apply (Hfree _ HD Hp)). zlia.
  - split; [done | | |]; intros; change (k_mem (set_k_mem m' s)) with m' in *;
      rewrite !Epg by done; eauto.
  - intros i Hi Hpi. change (k_mem (set_k_mem m' s)) with m' in *. rewrite Epg by done. eauto.
Qed.

(** The translation with [k] pages from virtual page [q] on mapped to the physical
    pages from [pa] on. *)
Definition map_view (m : mem) (pd q k pa perm va : Z) : option (Z * Z) :=
  let p := u32 va / PGSIZE in
  if (q <=? p) && (p <? q + k) then
    Some (P2V (pa + (p - q) * PGSIZE) + u32 va mod PGSIZE, Z.lor perm PTE_P)
  else mmu m pd va.

(** The body of [mappages]'s loop. *)
Definition map_step (pgdir perm last : Z) : Z * Z -> K (Z * Z + Z) := fun '(a, pa) =>
  pte <- walkpgdir pgdir a true ;;
  if pte =? 0 then ret (inr (-1)) else
  e <- load32 pte ;;
  if present e then panic "remap" else
  store32 pte (Z.lor (Z.lor pa perm) PTE_P) ;;
  if a =? last then ret (inr 0)
  else ret (inl (u32 (a + PGSIZE), u32 (pa + PGSIZE))).

Lemma map_step_spec s pd a pa perm last pages :
  vm_inv s pd pages -> can_alloc s -> 0 <= perm < 4096 ->
  pa mod 4096 = 0 -> 0 <= pa < 4294967296 -> mmu (k_mem s) pd a = None ->
  exists r s' pages', map_step pd perm last (a, pa) s = Ret r s' /\ vm_inv s' pd pages' /\ can_alloc s' /\
    ((r = inr (-1) /\ (pages' = [] \/ over_limit s' = true) /\
      forall va, mmu (k_mem s') pd va = mmu (k_mem s) pd va) \/
     (r = (if a =? last then inr 0 else inl (u32 (a + PGSIZE), u32 (pa + PGSIZE))) /\
      forall va, mmu (k_mem s') pd va = map_view (k_mem s) pd (u32 a / PGSIZE) 1 pa perm va)).
Proof.
  intros Hv Hc Hperm Hal Hpa Hun.
  destruct (walkpgdir_alloc s pd a pages Hv Hc) as (r & s1 & pg1 & Hw & Hv1 & Hc1 & Hm1 & Hr).
  unfold map_step. destruct Hr as [[-> Hwhy]|(Hnz & Er & Hp)].
  - exists (inr (-1)), s1, pg1. split; [by rewrite (bind_Ret _ _ _ _ _ Hw)|]. auto 6.
  - destruct (pte_value pa perm Hal Hpa Hperm) as (E1 & E2 & E3 & E4).
    set (e := Z.lor (Z.lor pa perm) PTE_P) in *.
    assert (present (ld32 (k_mem s1) r) = false) as Hab.
    { rewrite <- Hm1, mmu_eq, Hp in Hun. rewrite Er. cbv zeta in Hun. by destruct (present _). }
    eexists _, (set_k_mem (st32 (k_mem s1) r e) s1), pg1. split.
    { rewrite (bind_Ret _ _ _ _ _ Hw), (proj2 (Z.eqb_neq r 0) Hnz). unfold load32.
      rewrite bind_gets, Hab. unfold store32, upd_mem. rewrite bind_modify.
      instantiate (1 := if a =? last then inr 0 else _). by destruct (a =? last). }
    split_and!; [rewrite Er; by apply table_write | done |]. right. split; [done|].
    intros va. change (k_mem (set_k_mem (st32 (k_mem s1) r e) s1)) with (st32 (k_mem s1) r e).
    rewrite Er, (map_in_table _ _ a e (vi_pt _ _ _ Hv1) Hp E4 E3 va), E1, E2, Hm1.
    unfold map_view. change PGSIZE with 4096.
    destruct (Z.eqb_spec (u32 va / 4096) (u32 a / 4096)) as [E|E].
    + rewrite (proj2 (andb_true_iff _ _)) by (rewrite Z.leb_le, Z.ltb_lt; lia). do 4 f_equal. lia.
    + rewrite (proj2 (andb_false_iff _ _)) by (rewrite Z.leb_gt, Z.ltb_ge; lia). done.
Qed.

Lemma PGROUNDDOWN_eq a : PGROUNDDOWN a = a / PGSIZE * PGSIZE.
Proof. unfold PGROUNDDOWN. change (PGSIZE - 1) with 4095. rewrite land_lnot_4095. unfold PGSIZE. zlia. Qed.

(** Mapping one page and then [k] more is mapping [k + 1]. *)
Lemma map_view_step m m1 pd q k pa perm va :
  0 <= k ->
  mmu m1 pd va = map_view m pd q 1 pa perm va ->
  map_view m1 pd (q + 1) k (pa + PGSIZE) perm va = map_view m pd q (k + 1) pa perm va.
Proof.
  intros Hk H. unfold map_view in *. rewrite H. clear H. set (p := u32 va / PGSIZE).
  destruct (Z.leb_spec (q + 1) p), (Z.ltb_spec p (q + 1 + k)), (Z.leb_spec q p),
    (Z.ltb_spec p (q + 1)), (Z.ltb_spec p (q + (k + 1))); simpl; try lia; try done.
  do 4 f_equal. unfold PGSIZE. lia.
Qed.

Lemma map_view_0 m pd q pa perm va : map_view m pd q 0 pa perm va = mmu m pd va.
Proof.
  unfold map_view. destruct (Z.leb_spec q (u32 va / PGSIZE)), (Z.ltb_spec (u32 va / PGSIZE) (q + 0));
    done || lia.
Qed.

(** What [mappages] reaches: [k] of the [n] pages mapped, all of them exactly when it
    returns 0; it stops early only for want of a page. *)
Definition mapped (s : kst) (pd q n pa perm : Z) (r : Z) (s' : kst) (pages' : list Z) : Prop :=
  vm_inv s' pd pages' /\ can_alloc s' /\
  exists k, 0 <= k <= n /\ r = (if k =? n then 0 else -1) /\
    (k < n -> pages' = [] \/ over_limit s' = true) /\
    forall va, mmu (k_mem s') pd va = map_view (k_mem s) pd q k pa perm va.

Lemma map_loop n : forall s pd a pa perm pages,
  vm_inv s pd pages -> can_alloc s -> 0 <= perm < 4096 ->
  pa mod 4096 = 0 -> 0 <= pa -> pa + Z.of_nat n * PGSIZE < 4294967296 ->
  a mod 4096 = 0 -> 0 <= a -> a + Z.of_nat n * PGSIZE < 4294967296 ->
  (forall i, 0 <= i <= Z.of_nat n -> mmu (k_mem s) pd (a + i * PGSIZE) = None) ->
  exists r s' pages', loop (S n) (map_step pd perm (a + Z.of_nat n * PGSIZE)) (a, pa) s = Ret r s' /\
    mapped s pd (a / PGSIZE) (Z.of_nat n + 1) pa perm r s' pages'.
Proof.
  induction n as [|n IH]; intros s pd a pa perm pages Hv Hc Hperm Hal Hpa Hpa' Haa Ha Ha' Hun;
    (match goal with |- context [map_step pd perm ?l] =>
       destruct (map_step_spec s pd a pa perm l pages Hv Hc Hperm Hal)
         as (r & s1 & pg1 & Hs & Hv1 & Hc1 & [(-> & Hwhy & Hm)|[-> Hm]])
     end; [klia | rewrite <- (Hun 0) by lia; f_equal; lia | |]).
  1, 3: exists (-1), s1, pg1; split; [by apply loop_done|]; split_and!; [done | done |];
    exists 0; split_and!; [lia | lia | by rewrite (proj2 (Z.eqb_neq _ _)) by lia | intros _; exact Hwhy |];
    intros va; rewrite map_view_0; apply Hm.
  - rewrite (proj2 (Z.eqb_eq a _)) in Hs by klia.
    exists 0, s1, pg1. split; [by apply loop_done|]. split_and!; [done | done |].
    exists 1. split_and!; [lia | lia | done | lia |]. intros va. rewrite Hm, u32_small by klia. done.
  - rewrite (proj2 (Z.eqb_neq a _)), !u32_small in Hs by klia.
    rewrite (loop_next _ _ _ _ _ _ Hs).
    rewrite u32_small in Hm by klia.
    assert ((a + PGSIZE) / PGSIZE = a / PGSIZE + 1) as Eq by (unfold PGSIZE; zlia).
    destruct (IH s1 pd (a + PGSIZE) (pa + PGSIZE) perm pg1) as (r & s2 & pg2 & Hl & Hv2 & Hc2 & k & Hk & Er & Hwhy & Hm2);
      try done; try (unfold PGSIZE in *; zlia).
    + intros i Hi. rewrite Hm. unfold map_view.
      rewrite u32_small by klia. rewrite (proj2 (andb_false_iff _ _)).
      * rewrite <- (Hun (i + 1)) by lia. f_equal. klia.
      * right. apply Z.ltb_ge. unfold PGSIZE. zlia.
    + exists r, s2, pg2. split.
      { rewrite <- Hl. replace (a + Z.of_nat (S n) * PGSIZE) with (a + PGSIZE + Z.of_nat n * PGSIZE) by klia. done. }
      split_and!; [done | done |].
      exists (k + 1). split_and!; [lia | lia | | intros; apply Hwhy; lia |].
      * rewrite Er. destruct (Z.eqb_spec k (Z.of_nat n + 1)), (Z.eqb_spec (k + 1) (Z.of_nat (S n) + 1)); done || lia.
      * intros va. rewrite Hm2, Eq. apply map_view_step; [lia | apply Hm].
Qed.

(** C39: [mappages(pgdir, va, size, pa, perm)] on a well-formed page table, over pages
    not yet mapped: it terminates without panicking and keeps the table and the free list
    well formed. It returns 0 when every page from that of [va] to that of
    [va + size - 1] now translates to the corresponding physical page with [perm] and
    PTE_P; otherwise it returns -1, the free list is empty or the container is at its
    memory limit, and a proper prefix of the pages is mapped. Either way no other virtual
    address changes its translation. *)
Theorem mappages_correct s pd va size pa perm pages :
  vm_inv s pd pages -> can_alloc s -> 0 <= perm < 4096 ->
  0 <= va -> 0 < size -> va + size <= 4294967296 -> pa mod PGSIZE = 0 -> 0 <= pa ->
  let q := va / PGSIZE in
  let n := (va + size - 1) / PGSIZE - q + 1 in
  pa + (n - 1) * PGSIZE < 4294967296 ->
  (forall i, q <= i < q + n -> mmu (k_mem s) pd (i * PGSIZE) = None) ->
  exists r s' pages', mappages pd va size pa perm s = Ret r s' /\ mapped s pd q n pa perm r s' pages'.
Proof.
  intros Hv Hc Hperm Hva Hsz Hend Hal Hpa q n Hpan Hun.
  assert (PGROUNDDOWN va = q * PGSIZE) as Ea by (unfold q; apply PGROUNDDOWN_eq).
  assert (PGROUNDDOWN (u32 (va + size - 1)) = q * PGSIZE + (n - 1) * PGSIZE) as El
    by (rewrite u32_small, PGROUNDDOWN_eq by lia; unfold n; lia).
  assert (0 <= q /\ 0 < n /\ q * PGSIZE + (n - 1) * PGSIZE < 4294967296) as (Hq & Hn & Hlast)
    by (unfold n, q, PGSIZE; zlia).
  unfold mappages. rewrite Ea, El.
  replace (u32 (q * PGSIZE + (n - 1) * PGSIZE - q * PGSIZE) / PGSIZE) with (n - 1)
    by (rewrite u32_small by klia; unfold PGSIZE; zlia).
  destruct (map_loop (Z.to_nat (n - 1)) s pd (q * PGSIZE) pa perm pages) as (r & s' & pg' & Hl & Hm);
    try done; rewrite ?Z2Nat.id by lia; try (unfold PGSIZE in *; zlia).
  - intros i Hi. rewrite <- (Hun (q + i)) by lia. f_equal. klia.
  - rewrite Z2Nat.id in Hl, Hm by lia. rewrite Z.div_mul in Hm by klia.
    replace (n - 1 + 1) with n in Hm by lia. exists r, s', pg'. split; [exact Hl | exact Hm].
Qed.
End mapping.

(** ** Example: two pages mapped in an empty directory *)

Lemma demo_empty_dir i : 0 <= i < 1024 -> ~ pde_present (k_mem demo_kst) pgC i.
Proof.
  intros Hi. unfold pde_present, demo_kst. simpl k_mem. rewrite ld32_st32_ne; [done|].
  unfold pgA, pgC. klia.
Qed.

Lemma demo_vm : @vm_inv demo_linker demo_kst pgC [pgA; pgB].
Proof.
  split; [apply demo_kmem | | apply demo_notin |].
  - split; [done | | |]; intros; exfalso; eapply demo_empty_dir; eassumption.
  - intros i Hi Hp. exfalso. by eapply demo_empty_dir.
Qed.

Lemma demo_unmapped va : mmu (k_mem demo_kst) pgC va = None.
Proof.
  rewrite mmu_eq. destruct (present _) eqn:E; [|done].
  exfalso. by eapply (demo_empty_dir (PDX va)); [apply PDX_range|].
Qed.

Lemma mappages_correct_witness :
  exists r s' pages', @mappages pgC 4100 8000 (2 * PGSIZE) (Z.lor PTE_W PTE_U) demo_kst = Ret r s' /\
    @mapped demo_linker demo_kst pgC 1 2 (2 * PGSIZE) (Z.lor PTE_W PTE_U) r s' pages'.
Proof.
  apply (@mappages_correct demo_linker demo_kst pgC 4100 8000 (2 * PGSIZE) (Z.lor PTE_W PTE_U) [pgA; pgB]);
    [exact demo_vm | exact (conj demo_has_cont demo_locks) | vm_compute; split; congruence | lia | lia | lia
    | reflexivity | vm_compute; congruence | reflexivity | intros; apply demo_unmapped].
Defined.
