(* ===== verification/AddrSpace.v ===== *)
(** * Address spaces

    An address space as the rest of the kernel thinks of it, a finite map from virtual pages
    to physical pages, and that vm.c's page tables implement it: [walkpgdir], [mappages],
    [deallocuvm], [freevm] and [setupkvm] here, the calls of processes in Uvm.v.

    Physical pages have owners.  An address space owns its directory, its page-table pages
    and the pages mapped below [KERNBASE]; the allocator owns the free list; the pages in
    hand or of others are the list [rest].  An operation moves pages between these lists, so
    that nothing is lost or shared. *)

From S2P Require Import Prelude Monad CString KState Sched Kalloc Bio Log Fs Vm Paging.

Local Open Scope kernel_scope.

(** Evaluates the comparisons [lia] decides. *)
Ltac zbool :=
  repeat match goal with
  | |- context [?a <=? ?b] => first [rewrite (proj2 (Z.leb_le a b)) by lia | rewrite (proj2 (Z.leb_gt a b)) by lia]
  | |- context [?a <? ?b] => first [rewrite (proj2 (Z.ltb_lt a b)) by lia | rewrite (proj2 (Z.ltb_ge a b)) by lia]
  end; cbn [andb].

(** ** Memory outside a set of pages *)

Definition outside (l : list Z) (x : Z) : Prop := forall p, p ∈ l -> x < p \/ p + 4096 <= x.
Definition untouched (l : list Z) (m m' : mem) : Prop := forall x, outside l x -> m' x = m x.

Lemma untouched_refl l m : untouched l m m.
Proof. done. Qed.

Lemma untouched_trans l m1 m2 m3 : untouched l m1 m2 -> untouched l m2 m3 -> untouched l m1 m3.
Proof. intros H1 H2 x Hx. rewrite H2 by done. by apply H1. Qed.

Lemma untouched_mono l l' m m' : (forall p, p ∈ l -> p ∈ l') -> untouched l m m' -> untouched l' m m'.
Proof. intros Hl H x Hx. apply H. intros p Hp. by apply Hx, Hl. Qed.

Lemma untouched_st32 m a v p : p <= a -> a + 4 <= p + 4096 -> untouched [p] m (st32 m a v).
Proof. intros H1 H2 x Hx. apply st32_frame. destruct (Hx p ltac:(by left)); lia. Qed.

Lemma untouched_memset m p c : untouched [p] m (KString.memset m p c PGSIZE).
Proof.
  intros x Hx. rewrite memset_spec by klia. destruct (in_range p PGSIZE x) eqn:E; [|done].
  apply in_range_true in E. destruct (Hx p ltac:(by left)); klia.
Qed.

(** A page that is not among [l]. *)
Lemma outside_page l p x : Forall (fun q => q mod 4096 = 0) l -> p mod 4096 = 0 -> p ∉ l -> p <= x < p + 4096 -> outside l x.
Proof.
  intros Hl Hp Hn Hx q Hq. assert (q mod 4096 = 0) by (by apply (proj1 (Forall_forall _ _) Hl)).
  assert (q <> p) by (by intros ->). zlia.
Qed.

Lemma untouched_word l m m' p k :
  untouched l m m' -> Forall (fun q => q mod 4096 = 0) l -> p mod 4096 = 0 -> p ∉ l -> 0 <= k < 1024 ->
  ld32 m' (p + 4 * k) = ld32 m (p + 4 * k).
Proof. intros H Hl Hp Hn Hk. apply ld32_ext. intros x Hx. apply H. apply (outside_page l p); try done. lia. Qed.

(** ** The abstract address space *)

Record aspace : Type := mkAs {
  as_tab : gmap Z Z;        (* page-table page of a directory index *)
  as_map : gmap Z (Z * Z)   (* physical page, as a kernel address, and flags of a virtual page *)
}.

Definition UPAGES : Z := KERNBASE / PGSIZE.

(** What an entry says. *)
Definition pte_dec (e : Z) : option (Z * Z) := if present e then Some (P2V (PTE_ADDR e), PTE_FLAGS e) else None.

Record rep (m : mem) (pd : Z) (A : aspace) : Prop := {
  rp_dir : pd mod 4096 = 0;
  rp_tab i : 0 <= i < 1024 ->
    as_tab A !! i = if present (ld32 m (pd + 4 * i)) then Some (pt_page m pd i) else None;
  rp_pte i t k : as_tab A !! i = Some t -> 0 <= k < 1024 ->
    as_map A !! (1024 * i + k) = pte_dec (ld32 m (t + 4 * k));
  rp_tab_dom i t : as_tab A !! i = Some t -> 0 <= i < 1024;
  rp_map_dom q e : as_map A !! q = Some e -> is_Some (as_tab A !! (q / 1024))
}.

(** The abstract space is what the hardware sees. *)
Lemma rep_mmu m pd A va : rep m pd A ->
  mmu m pd va = (fun '(p, fl) => (p + u32 va mod PGSIZE, fl)) <$> as_map A !! (u32 va / 4096).
Proof.
  intros R. rewrite mmu_eq. pose proof (PDX_range va) as HD. pose proof (PTX_range va) as HT.
  assert (u32 va / 4096 = 1024 * PDX va + PTX va) as Eq by (rewrite PDX_eq, PTX_eq; zlia).
  pose proof (rp_tab _ _ _ R _ HD) as Et. destruct (present (ld32 m (pd + 4 * PDX va))).
  - rewrite Eq, (rp_pte _ _ _ R _ _ _ Et HT). unfold pte_dec. cbv zeta. by destruct (present _).
  - destruct (as_map A !! (u32 va / 4096)) as [e|] eqn:E; [|done].
    destruct (rp_map_dom _ _ _ R _ _ E) as [t Ht]. exfalso.
    replace (u32 va / 4096 / 1024) with (PDX va) in Ht by (rewrite Eq; zlia). congruence.
Qed.

(** ** Ownership *)

Definition tables (A : aspace) : list Z := (map_to_list (as_tab A)).*2.
Definition meta (pd : Z) (A : aspace) : list Z := pd :: tables A.
Definition umap (A : aspace) : gmap Z (Z * Z) := filter (fun e => e.1 < UPAGES) (as_map A).
Definition uframes (A : aspace) : list Z := (map_to_list (umap A)).*2.*1.
Definition owned (pd : Z) (A : aspace) : list Z := meta pd A ++ uframes A.

Definition add_table (i t : Z) (A : aspace) : aspace := mkAs (<[i := t]> (as_tab A)) (as_map A).
Definition add_page (q p fl : Z) (A : aspace) : aspace := mkAs (as_tab A) (<[q := (p, fl)]> (as_map A)).
Definition del_page (q : Z) (A : aspace) : aspace := mkAs (as_tab A) (delete q (as_map A)).

(** What mapping page [p] at [q] adds to the owned pages. *)
Definition uown (q p : Z) : list Z := if q <? UPAGES then [p] else [].

Lemma tables_add i t A : as_tab A !! i = None -> tables (add_table i t A) ≡ₚ t :: tables A.
Proof. intros H. unfold tables, add_table. cbn [as_tab]. by rewrite map_to_list_insert. Qed.

Lemma elem_of_tables A t : t ∈ tables A <-> exists i, as_tab A !! i = Some t.
Proof.
  unfold tables. rewrite list_elem_of_fmap. split.
  - intros ([i t'] & -> & H). exists i. by apply elem_of_map_to_list in H.
  - intros [i H]. exists (i, t). split; [done|]. by apply elem_of_map_to_list.
Qed.

Lemma elem_of_uframes A p : p ∈ uframes A <-> exists q fl, q < UPAGES /\ as_map A !! q = Some (p, fl).
Proof.
  unfold uframes. rewrite list_elem_of_fmap. split.
  - intros ([p' fl] & -> & H). apply list_elem_of_fmap in H as ([q e] & -> & H).
    apply elem_of_map_to_list, map_lookup_filter_Some in H as [H1 H2]. destruct e as [p fl']. eauto.
  - intros (q & fl & Hq & H). exists (p, fl). split; [done|]. apply list_elem_of_fmap. exists (q, (p, fl)).
    split; [done|]. by apply elem_of_map_to_list, map_lookup_filter_Some.
Qed.

Lemma uframes_add q p fl A : as_map A !! q = None -> uframes (add_page q p fl A) ≡ₚ uown q p ++ uframes A.
Proof.
  intros H. unfold uframes, umap, add_page, uown. cbn [as_map]. destruct (Z.ltb_spec q UPAGES).
  - rewrite map_filter_insert_True by done. rewrite map_to_list_insert; [done|].
    apply map_lookup_filter_None. by left.
  - rewrite map_filter_insert_False by (simpl; lia). by rewrite delete_id.
Qed.

Lemma uframes_del q p fl A : as_map A !! q = Some (p, fl) -> uframes A ≡ₚ uown q p ++ uframes (del_page q A).
Proof.
  intros H. unfold uframes, umap, del_page, uown. cbn [as_map]. rewrite map_filter_delete. destruct (Z.ltb_spec q UPAGES).
  - rewrite <- (map_to_list_delete _ q (p, fl)); [done|]. by apply map_lookup_filter_Some.
  - rewrite delete_id; [done|]. apply map_lookup_filter_None. right. intros x Hx. simpl. lia.
Qed.

(** ** Memory and the abstract space *)

Lemma rep_ext m m' pd A :
  rep m pd A -> (forall t k, t ∈ meta pd A -> 0 <= k < 1024 -> ld32 m' (t + 4 * k) = ld32 m (t + 4 * k)) -> rep m' pd A.
Proof.
  intros R H. split.
  - apply R.
  - intros i Hi. unfold pt_page. rewrite !(H pd) by (done || by left). by apply R.
  - intros i t k Ht Hk. rewrite H; [by apply R | | done]. right. apply elem_of_tables. eauto.
  - apply R.
  - apply R.
Qed.

(** Everything an address space needs of its pages. *)
Record sane (pd : Z) (A : aspace) : Prop := {
  sn_nodup : NoDup (owned pd A);
  sn_align : Forall (fun p => p mod 4096 = 0 /\ KERNBASE < p < KERNBASE + PHYSTOP) (owned pd A)
}.

Lemma sane_align pd A p : sane pd A -> p ∈ owned pd A -> p mod 4096 = 0 /\ KERNBASE < p < KERNBASE + PHYSTOP.
Proof. intros S Hp. by apply (proj1 (Forall_forall _ _) (sn_align _ _ S)). Qed.

Lemma table_owned pd A i t : as_tab A !! i = Some t -> t ∈ meta pd A /\ t ∈ owned pd A.
Proof.
  intros H. assert (t ∈ tables A) by (apply elem_of_tables; eauto).
  split; [by right|]. unfold owned, meta. apply elem_of_app. left. by right.
Qed.

Lemma frame_owned pd A q p fl : q < UPAGES -> as_map A !! q = Some (p, fl) -> p ∈ owned pd A.
Proof. intros Hq H. unfold owned. apply elem_of_app. right. apply elem_of_uframes. eauto. Qed.

Lemma sane_dir pd A i t : sane pd A -> as_tab A !! i = Some t -> t <> pd.
Proof.
  intros S H ->. pose proof (sn_nodup _ _ S) as Hn. unfold owned, meta in Hn. apply NoDup_app in Hn as (Hn & _).
  apply NoDup_cons in Hn as [Hn _]. apply Hn, elem_of_tables. eauto.
Qed.

Lemma NoDup_fmap_snd_inj {V} (M : gmap Z V) i j v : NoDup ((map_to_list M).*2) -> M !! i = Some v -> M !! j = Some v -> i = j.
Proof.
  intros Hn Hi Hj. apply elem_of_map_to_list, list_elem_of_lookup_1 in Hi as [a Ha], Hj as [b Hb].
  assert (a = b) as ->; [|congruence]. apply (NoDup_lookup _ _ _ v Hn); by rewrite list_lookup_fmap, ?Ha, ?Hb.
Qed.

Lemma sane_inj pd A i j t : sane pd A -> as_tab A !! i = Some t -> as_tab A !! j = Some t -> i = j.
Proof.
  intros S. pose proof (sn_nodup _ _ S) as Hn. unfold owned, meta in Hn. apply NoDup_app in Hn as (Hn & _).
  apply NoDup_cons in Hn as [_ Hn]. by apply NoDup_fmap_snd_inj.
Qed.

Lemma rep_pde m pd A i : rep m pd A -> 0 <= i < 1024 -> pde_present m pd i -> as_tab A !! i = Some (pt_page m pd i).
Proof. intros R Hi Hp. rewrite (rp_tab _ _ _ R _ Hi). unfold pde_present in Hp. by rewrite Hp. Qed.

Lemma rep_pt_ok m pd A : rep m pd A -> sane pd A -> pt_ok m pd.
Proof.
  intros R S. split; [apply R | | |].
  - intros i Hi Hp E. pose proof (rep_pde _ _ _ _ R Hi Hp) as Ht. rewrite E in Ht.
    destruct (sane_align _ _ 0 S (proj2 (table_owned pd _ _ _ Ht))). klia.
  - intros i Hi Hp. eapply sane_dir; [done|]. by apply rep_pde.
  - intros i j Hi Hj Hpi Hpj Hne E. apply Hne. apply (sane_inj pd A i j (pt_page m pd i)); [done|by apply rep_pde|].
    rewrite E. by apply rep_pde.
Qed.

(** Writing an entry of a page-table page. *)
Definition put_entry (q e : Z) (A : aspace) : aspace := mkAs (as_tab A) (partial_alter (fun _ => pte_dec e) q (as_map A)).

Lemma rep_write m pd A i t k e : rep m pd A -> sane pd A -> as_tab A !! i = Some t -> 0 <= k < 1024 -> 0 <= e < 4294967296 ->
  rep (st32 m (t + 4 * k) e) pd (put_entry (1024 * i + k) e A).
Proof.
  intros R S Ht Hk He. pose proof (rp_dir _ _ _ R) as Hpd. pose proof (rp_tab_dom _ _ _ R _ _ Ht) as Hi.
  destruct (sane_align _ _ t S (proj2 (table_owned pd _ _ _ Ht))) as [Hta _]. pose proof (sane_dir _ _ _ _ S Ht) as Hne.
  assert (forall j, 0 <= j < 1024 -> ld32 (st32 m (t + 4 * k) e) (pd + 4 * j) = ld32 m (pd + 4 * j)) as Hd.
  { intros j Hj. apply ld32_st32_ne. destruct (page_apart pd t j k); try done; lia. }
  split; cbn [as_tab as_map put_entry].
  - done.
  - intros j Hj. unfold pt_page. rewrite Hd by done. by apply R.
  - intros j u l Hu Hl. rewrite lookup_partial_alter.
    destruct (decide (1024 * i + k = 1024 * j + l)) as [E|E].
    + assert (i = j /\ k = l) as [<- <-] by lia. rewrite Ht in Hu. injection Hu as <-. by rewrite ld32_st32, u32_small.
    + rewrite (rp_pte _ _ _ R _ _ _ Hu Hl). f_equal. symmetry. apply ld32_st32_ne.
      destruct (decide (i = j)) as [<-|Hij]; [rewrite Ht in Hu; injection Hu as <-; lia|].
      destruct (sane_align _ _ u S (proj2 (table_owned pd _ _ _ Hu))) as [Hua _].
      destruct (page_apart u t l k); try done; [|lia|lia]. intros ->. apply Hij. by eapply sane_inj.
  - apply R.
  - intros q x Hq. destruct (decide (1024 * i + k = q)) as [<-|E].
    + replace ((1024 * i + k) / 1024) with i by zlia. eauto.
    + rewrite lookup_partial_alter_ne in Hq by done. by eapply R.
Qed.

Lemma rep_new_table m pd A i t : rep m pd A -> sane pd A -> as_tab A !! i = None -> 0 <= i < 1024 ->
  t mod 4096 = 0 -> KERNBASE <= t < KERNBASE + PHYSTOP -> t ∉ meta pd A -> rep (with_table m pd i t) pd (add_table i t A).
Proof.
  intros R S Hn Hi Ht Hr Hnew. pose proof (rep_pt_ok _ _ _ R S) as Hok.
  assert (t <> pd /\ t ∉ tables A) as [Hne Htab] by (unfold meta in Hnew; set_solver).
  pose proof (rp_tab _ _ _ R _ Hi) as Ep. rewrite Hn in Ep.
  split; cbn [as_tab as_map add_table].
  - apply R.
  - intros j Hj. destruct (decide (i = j)) as [<-|E].
    + rewrite lookup_insert_eq. assert (pde_present (with_table m pd i t) pd i) as Hp by (by apply with_table_present). unfold pde_present in Hp. rewrite Hp.
      by rewrite with_table_page.
    + rewrite lookup_insert_ne by done. unfold pt_page. rewrite with_table_dir by done. by apply R.
  - intros j u k Hu Hk. destruct (decide (i = j)) as [<-|E].
    + rewrite lookup_insert_eq in Hu. injection Hu as <-. rewrite with_table_zero by done.
      destruct (as_map A !! (1024 * i + k)) eqn:E; [|done]. destruct (rp_map_dom _ _ _ R _ _ E) as [u Hu].
      replace ((1024 * i + k) / 1024) with i in Hu by zlia. congruence.
    + rewrite lookup_insert_ne in Hu by done.
      destruct (sane_align _ _ _ S (proj2 (table_owned pd _ _ _ Hu))) as [Hua _]. pose proof (sane_dir _ _ _ _ S Hu).
      assert (u <> t) by (intros ->; apply Htab, elem_of_tables; eauto).
      rewrite with_table_word by done. by apply R.
  - intros j u Hu. destruct (decide (i = j)) as [<-|E]; [done|]. rewrite lookup_insert_ne in Hu by done. by eapply R.
  - intros q x Hq. destruct (rp_map_dom _ _ _ R _ _ Hq) as [u Hu]. destruct (decide (i = q / 1024)) as [<-|E].
    + rewrite lookup_insert_eq. eauto.
    + rewrite lookup_insert_ne by done. eauto.
Qed.

(** Pages of different owners. *)
Lemma NoDup_perm (l l' : list Z) : l ≡ₚ l' -> NoDup l' -> NoDup l.
Proof. by intros ->. Qed.

Lemma NoDup_held (p : Z) o f r : NoDup (o ++ f ++ p :: r) -> p ∉ o /\ p ∉ f.
Proof.
  intros (_ & H1 & (_ & H2 & _)%NoDup_app)%NoDup_app. split; intros Hp.
  - apply (H1 _ Hp). apply elem_of_app. right. left.
  - apply (H2 _ Hp). left.
Qed.

Lemma NoDup_sep (p : Z) o f r : NoDup (o ++ f ++ r) -> p ∈ f -> p ∉ o.
Proof. intros (_ & H1 & _)%NoDup_app Hp Ho. apply (H1 _ Ho). apply elem_of_app. by left. Qed.

Lemma NoDup_omap {X} (f : X -> option Z) l :
  NoDup l -> (forall x y z, x ∈ l -> y ∈ l -> f x = Some z -> f y = Some z -> x = y) -> NoDup (omap f l).
Proof.
  induction l as [|x l IH]; intros Hn Hi; [constructor|]. apply NoDup_cons in Hn as [Hx Hn]. cbn.
  assert (NoDup (omap f l)) as Hl by (apply IH; [done|]; intros; eapply Hi; try done; by right).
  destruct (f x) as [z|] eqn:E; [|done]. apply NoDup_cons. split; [|done]. intros (y & Hy & Ey)%list_elem_of_omap.
  apply Hx. rewrite (Hi x y z); [done | left | by right | done | done].
Qed.

Lemma omap_length {X Y} (f : X -> option Y) l : (length (omap f l) <= length l)%nat.
Proof. induction l as [|x l IH]; [done|]. cbn. destruct (f x); simpl; lia. Qed.

(** ** The kernel's pages *)

(** What kernel.ld makes of the kernel: linked from 1 MB above [KERNBASE] on, its data on a
    page boundary. *)
Class Linked `{L : Linker} : Prop := {
  lk_end : KERNBASE < sym_end;
  lk_data : sym_data mod 4096 = 0;
  lk_range : KERNLINK < sym_data < KERNBASE + PHYSTOP
}.

Section world.
Context `{LK : Linked}.

(** An address space beside the free list; the pages of [rest] have other owners. *)
Record space_inv (s : kst) (pd : Z) (A : aspace) (free rest : list Z) : Prop := {
  si_kmem : kmem_inv s free;
  si_rep : rep (k_mem s) pd A;
  si_ok : Forall page_ok (owned pd A);
  si_nodup : NoDup (owned pd A ++ free ++ rest)
}.

Lemma ok_range p : page_ok p -> p mod 4096 = 0 /\ KERNBASE < p < KERNBASE + PHYSTOP.
Proof. intros (H1 & H2 & H3). unfold PGSIZE in H1. pose proof lk_end. lia. Qed.

Lemma si_sane s pd A free rest : space_inv s pd A free rest -> sane pd A.
Proof.
  intros [_ _ H1 H2]. split; [by apply NoDup_app in H2 as (? & _)|].
  eapply Forall_impl; [exact H1|]. apply ok_range.
Qed.

Lemma free_aligned s pages : kmem_inv s pages -> Forall (fun q => q mod 4096 = 0) pages.
Proof. intros K. eapply Forall_impl; [apply K|]. intros p H. by apply ok_range. Qed.

Lemma meta_aligned s pd A free rest : space_inv s pd A free rest -> Forall (fun q => q mod 4096 = 0) (meta pd A).
Proof.
  intros V. apply Forall_forall. intros p Hp. destruct V as [_ _ H1 _]. apply ok_range, (proj1 (Forall_forall _ _) H1).
  unfold owned. apply elem_of_app. by left.
Qed.

(** A container but for the state and the page count. *)
Definition acct (co : cont) : cont := set_c_upg 0 (set_c_state CUNUSED co).

(** The allocator's bookkeeping may change, and memory; nothing else does. *)
Definition same_rest (s s' : kst) : Prop :=
  exists m fl ct lg, s' = set_k_mem m (set_k_freelist fl (set_k_ctable ct (set_k_klog lg s))) /\ acct <$> ct = acct <$> k_ctable s.

Lemma same_rest_refl s : same_rest s s.
Proof. exists (k_mem s), (k_freelist s), (k_ctable s), (k_klog s). by destruct s. Qed.

Lemma same_rest_trans s1 s2 s3 : same_rest s1 s2 -> same_rest s2 s3 -> same_rest s1 s3.
Proof. intros (m & fl & ct & lg & -> & E1) (m' & fl' & ct' & lg' & -> & E2). exists m', fl', ct', lg'. split; [done|]. by rewrite E2. Qed.

Lemma same_rest_mem m s : same_rest s (set_k_mem m s).
Proof. exists m, (k_freelist s), (k_ctable s), (k_klog s). by destruct s. Qed.

Lemma acct_alter f c (ct : list cont) : (forall co, acct (f co) = acct co) -> acct <$> alter f c ct = acct <$> ct.
Proof.
  intros H. apply list_eq. intros i. rewrite !list_lookup_fmap. destruct (decide (i = c)) as [->|Hn].
  - rewrite list_lookup_alter_eq. by destruct (ct !! c); simpl; rewrite ?H.
  - by rewrite list_lookup_alter_ne.
Qed.

Lemma same_rest_charge f fl s : (forall co, acct (f co) = acct co) -> same_rest s (charge f (set_k_freelist fl s)).
Proof.
  intros H. unfold charge. destruct (cur_cont _) as [c|].
  - exists (k_mem s), fl, (alter f c (k_ctable s)), (k_klog s). split; [by destruct s | by apply acct_alter].
  - exists (k_mem s), fl, (k_ctable s), (k_klog s). by destruct s.
Qed.

Lemma acct_inc co : acct (inc_upg co) = acct co.
Proof. done. Qed.
Lemma acct_dec co : acct (dec_upg co) = acct co.
Proof. unfold dec_upg. by case_match. Qed.

Lemma same_rest_killed c co s : same_rest s (limit_killed c co s).
Proof.
  exists (k_mem s), (k_freelist s), (alter (set_c_state CSTOPPING) c (k_ctable s)), (k_klog (limit_killed c co s)).
  split; [by destruct s | by apply acct_alter].
Qed.

(** Why there was no page. *)
Definition starved (s : kst) (free : list Z) : Prop := free = [] \/ over_limit s = true.

(** The limit as it stands after [k] more pages. *)
Definition over_after (s : kst) (k : nat) : bool :=
  match cur_cont s ≫= (fun c => k_ctable s !! c) with
  | Some co => c_msz co <? u32 (c_upg (Nat.iter k inc_upg co) * PGSIZE + PGSIZE)
  | None => false
  end.

(** Pages went from [free] to [free'] and were charged. *)
Definition used_by (s : kst) (free : list Z) (s' : kst) (free' : list Z) : Prop :=
  (length free' <= length free)%nat /\ forall k, over_after s' k = over_after s (length free - length free' + k).

(** Fewer than [n] pages can be had. *)
Definition short (s : kst) (free : list Z) (n : nat) : Prop := exists k, (k < n)%nat /\ (k = length free \/ over_after s k = true).

Lemma used_refl s s' free : (forall k, over_after s' k = over_after s k) -> used_by s free s' free.
Proof. intros H. split; [done|]. intros k. rewrite H. f_equal. lia. Qed.

Lemma used_trans s1 f1 s2 f2 s3 f3 : used_by s1 f1 s2 f2 -> used_by s2 f2 s3 f3 -> used_by s1 f1 s3 f3.
Proof. intros [L1 H1] [L2 H2]. split; [lia|]. intros k. rewrite H2, H1. f_equal. lia. Qed.

Lemma starved_short s free s' free' n : starved s' free' -> used_by s free s' free' -> (length free < n + length free')%nat -> short s free n.
Proof.
  intros St [Hl H] Hn. exists (length free - length free')%nat. split; [lia|]. destruct St as [->|Ho]; [left; simpl; lia|].
  right. rewrite <- Ho. change (over_limit s') with (over_after s' 0). rewrite H. f_equal. lia.
Qed.

Lemma short_used s free s' free' n n' : short s' free' n -> used_by s free s' free' -> (n + length free <= n' + length free')%nat -> short s free n'.
Proof.
  intros (k & Hk & Hs) [Hl H] Hn. exists (length free - length free' + k)%nat. split; [lia|]. destruct Hs as [->|Ho]; [left; lia|].
  right. by rewrite <- H.
Qed.

Lemma over_after_charge s fl k : over_after (charge inc_upg (set_k_freelist fl s)) k = over_after s (S k).
Proof.
  unfold charge, over_after. change (cur_cont (set_k_freelist fl s)) with (cur_cont s). destruct (cur_cont s) as [c|] eqn:Ec.
  - change (cur_cont (set_k_ctable _ _)) with (cur_cont s). rewrite Ec. cbn [mbind option_bind].
    change (k_ctable (set_k_ctable (alter inc_upg c (k_ctable (set_k_freelist fl s))) (set_k_freelist fl s))) with (alter inc_upg c (k_ctable s)).
    rewrite list_lookup_alter_eq. destruct (k_ctable s !! c) as [co|]; [|done]. cbn [fmap option_fmap option_map].
    by rewrite Nat.iter_succ_r.
  - change (cur_cont (set_k_freelist fl s)) with (cur_cont s). by rewrite Ec.
Qed.

Lemma over_after_killed c co s k : cur_cont s = Some c -> k_ctable s !! c = Some co -> over_after (limit_killed c co s) k = over_after s k.
Proof.
  intros Ec Hco. unfold over_after. change (cur_cont (limit_killed c co s)) with (cur_cont s). rewrite Ec. cbn [mbind option_bind].
  change (k_ctable (limit_killed c co s)) with (alter (set_c_state CSTOPPING) c (k_ctable s)). rewrite list_lookup_alter_eq, Hco.
  cbn [fmap option_fmap option_map].
  assert (forall co, c_upg (Nat.iter k inc_upg (set_c_state CSTOPPING co)) = c_upg (Nat.iter k inc_upg co)) as E.
  { clear. intros co. assert (Nat.iter k inc_upg (set_c_state CSTOPPING co) = set_c_state CSTOPPING (Nat.iter k inc_upg co)) as ->; [|done].
    induction k as [|k IH]; [done|]. cbn [Nat.iter nat_rect]. unfold Nat.iter in IH. by rewrite IH. }
  by rewrite E.
Qed.

Lemma can_alloc_mem m s : can_alloc s -> can_alloc (set_k_mem m s).
Proof. done. Qed.

Lemma kalloc_free s free : kmem_inv s free -> can_alloc s ->
  exists r s', kalloc s = Ret r s' /\ can_alloc s' /\ same_rest s s' /\ k_mem s' = k_mem s /\
    ((r = 0 /\ kmem_inv s' free /\ starved s' free /\ used_by s free s' free) \/
     (exists free', free = r :: free' /\ r <> 0 /\ page_ok r /\ kmem_inv s' free' /\ used_by s free s' free')).
Proof.
  intros K Hc. destruct (kalloc_spec s free K (proj1 Hc) (proj2 Hc)) as (r & s1 & Hk & Hr). exists r, s1. split; [done|].
  unfold kalloc_result in Hr. destruct (over_limit s) eqn:Ho.
  - destruct Hr as (-> & Hi & c & co & Ec & Hco & ->). split_and!; [by apply killed_frame | apply same_rest_killed | done |].
    left. split_and!; [done | done | right; by rewrite killed_over |]. apply used_refl. intros k. by apply over_after_killed.
  - destruct free as [|p ps].
    + destruct Hr as [-> ->]. split_and!; [done | apply same_rest_refl | done |]. left. split_and!; [done | done | by left | by apply used_refl].
    + destruct Hr as (-> & Hi & Hm & Hs1). pose proof (Forall_inv (km_pages _ _ K)) as Hp.
      split_and!; [rewrite Hs1; by apply alloc_frame | rewrite Hs1; apply same_rest_charge, acct_inc | done |].
      right. exists ps. split_and!; [done | pose proof (ok_range _ Hp); klia | done | done |].
      split; [simpl; lia|]. intros k. rewrite Hs1, over_after_charge. f_equal. simpl. lia.
Qed.

(** The invariant moves along with pages. *)
Lemma space_move s s' pd A free rest free' rest' :
  space_inv s pd A free rest -> kmem_inv s' free' -> k_mem s' = k_mem s -> free ++ rest ≡ₚ free' ++ rest' ->
  space_inv s' pd A free' rest'.
Proof. intros [_ R O N] K Em P. split; [done | by rewrite Em | done|]. by rewrite <- P. Qed.

Lemma kalloc_as s pd A free rest : space_inv s pd A free rest -> can_alloc s ->
  exists r s', kalloc s = Ret r s' /\ can_alloc s' /\ same_rest s s' /\ k_mem s' = k_mem s /\
    ((r = 0 /\ space_inv s' pd A free rest /\ starved s' free /\ used_by s free s' free) \/
     (exists free', free = r :: free' /\ r <> 0 /\ page_ok r /\ space_inv s' pd A free' (r :: rest) /\ used_by s free s' free')).
Proof.
  intros V Hc. destruct (kalloc_free s free (si_kmem _ _ _ _ _ V) Hc) as (r & s1 & Hk & Hc1 & Hs & Hm & Hr).
  exists r, s1. split_and!; [done | done | done | done |]. destruct Hr as [(-> & K & St & Us)|(free' & -> & Hz & Hp & K & Us)].
  - left. split_and!; [done | by eapply space_move | done | done].
  - right. exists free'. split_and!; [done | done | done | | done]. eapply space_move; [done | done | done |].
    cbn [app]. by rewrite Permutation_middle.
Qed.

(** [kfree] of a page in hand. *)
Lemma freed_untouched v s : untouched [v] (k_mem s) (k_mem (freed v s)).
Proof.
  eapply untouched_trans; [apply untouched_memset|]. unfold freed. cbn [k_mem set_k_mem set_k_freelist].
  apply untouched_st32; lia.
Qed.

Lemma kfree_free v s free : kmem_inv s free -> can_alloc s -> page_ok v -> v ∉ free ->
  exists s', kfree v s = Ret tt s' /\ can_alloc s' /\ same_rest s s' /\ untouched [v] (k_mem s) (k_mem s') /\ kmem_inv s' (v :: free).
Proof.
  intros K [H1 H2] Hv Hn. exists (charge dec_upg (freed v s)). split; [by apply kfree_eq; [|apply H2|]|]. split_and!.
  - apply (alloc_frame dec_upg v (set_k_mem _ s)). done.
  - eapply same_rest_trans; [apply same_rest_mem | apply same_rest_charge, acct_dec].
  - rewrite charge_mem. apply freed_untouched.
  - by apply charge_kmem, freed_inv.
Qed.

(** Writing to pages that are neither free nor of the page table. *)
Lemma space_write s pd A free rest l m' :
  space_inv s pd A free rest -> mem_wf m' -> untouched l (k_mem s) m' -> Forall (fun q => q mod 4096 = 0) l ->
  (forall p, p ∈ l -> p ∉ meta pd A /\ p ∉ free) -> space_inv (set_k_mem m' s) pd A free rest.
Proof.
  intros V Hw Hu Hl Hn. pose proof (meta_aligned _ _ _ _ _ V) as Hm. pose proof (free_aligned _ _ (si_kmem _ _ _ _ _ V)) as Hf.
  destruct V as [K R O N]. split; [|cbn [k_mem set_k_mem]|done|done].
  - apply kmem_write; [done | done |]. intros p x Hp Hx. symmetry. apply Hu. intros q Hq.
    assert (q <> p) by (intros ->; by apply (Hn _ Hq)).
    assert (q mod 4096 = 0) by (by apply (proj1 (Forall_forall _ _) Hl)).
    assert (p mod 4096 = 0) by (by apply (proj1 (Forall_forall _ _) Hf)). zlia.
  - eapply rep_ext; [done|]. intros t k Ht Hk. apply (untouched_word l); try done.
    + by apply (proj1 (Forall_forall _ _) Hm).
    + intros Hl'. by apply (proj1 (Hn _ Hl')).
Qed.

Lemma with_table_untouched l m pd i t : 0 <= i < 1024 -> pd ∈ l -> t ∈ l -> untouched l m (with_table m pd i t).
Proof.
  intros Hi H1 H2. unfold with_table. eapply untouched_trans.
  - eapply (untouched_mono [t]); [|apply untouched_memset]. by intros p ->%list_elem_of_singleton.
  - eapply (untouched_mono [pd]); [|apply (untouched_st32 _ _ _ pd); lia]. by intros p ->%list_elem_of_singleton.
Qed.

(** ** Walking *)

Definition vpn (va : Z) : Z := u32 va / 4096.

Lemma vpn_split va : vpn va = 1024 * PDX va + PTX va.
Proof. unfold vpn. rewrite PDX_eq, PTX_eq. zlia. Qed.

(** [walkpgdir] without [alloc] looks the table up. *)
Lemma walk_look s pd A va : rep (k_mem s) pd A ->
  walkpgdir pd va false s = Ret (match as_tab A !! PDX va with Some t => t + 4 * PTX va | None => 0 end) s.
Proof.
  intros R. unfold walkpgdir, load32. rewrite bind_gets. rewrite (rp_tab _ _ _ R _ (PDX_range va)).
  by destruct (present (ld32 (k_mem s) (pd + 4 * PDX va))).
Qed.

(** What making page-table pages leaves: the same mappings, more tables, fewer free pages. *)
Record grown (s : kst) (pd : Z) (A : aspace) (free : list Z) (s' : kst) (A' : aspace) (free' : list Z) : Prop := {
  gr_alloc : can_alloc s';
  gr_rest : same_rest s s';
  gr_tab : as_tab A ⊆ as_tab A';
  gr_pages : meta pd A' ++ free' ≡ₚ meta pd A ++ free;
  gr_used : used_by s free s' free';
  gr_free : forall p, p ∈ free' -> p ∈ free;
  gr_mem : untouched (meta pd A ++ free) (k_mem s) (k_mem s')
}.

Lemma grown_refl s pd A free : can_alloc s -> grown s pd A free s A free.
Proof. intros Hc. split; [done | apply same_rest_refl | done | done | by apply used_refl | done | apply untouched_refl]. Qed.

Lemma grown_trans s pd A free s1 A1 free1 s2 A2 free2 :
  grown s pd A free s1 A1 free1 -> grown s1 pd A1 free1 s2 A2 free2 -> grown s pd A free s2 A2 free2.
Proof.
  intros [_ R1 T1 P1 S1 F1 M1] [C2 R2 T2 P2 S2 F2 M2].
  split; [done | by eapply same_rest_trans | by etransitivity | by rewrite P2 | by eapply used_trans | auto |].
  eapply untouched_trans; [exact M1|]. eapply untouched_mono; [|exact M2]. intros p. by rewrite P1.
Qed.

Lemma owned_perm pd A : owned pd A = meta pd A ++ uframes A.
Proof. done. Qed.

(** A page in hand becomes a page-table page. *)
Lemma table_taken s pd A free r rest i : space_inv s pd A free (r :: rest) -> page_ok r -> as_tab A !! i = None -> 0 <= i < 1024 ->
  space_inv (set_k_mem (with_table (k_mem s) pd i r) s) pd (add_table i r A) free rest.
Proof.
  intros V Hpg Hn Hi. destruct (ok_range _ Hpg) as [Hal Hrg]. pose proof (si_sane _ _ _ _ _ V) as Sn.
  destruct V as [K R O N]. destruct (NoDup_held _ _ _ _ N) as [N1 N2].
  assert (r ∉ meta pd A) as N3 by (intros Hin; apply N1; rewrite owned_perm; apply elem_of_app; by left).
  assert (tables (add_table i r A) ≡ₚ r :: tables A) as Pt by (by apply tables_add). split.
  - apply kmem_write; [done | apply st32_wf, memset_wf; [apply K | klia] |]. intros p x Hin Hx. symmetry.
    pose proof (proj1 (Forall_forall _ _) (free_aligned _ _ K) p Hin) as Hpa. pose proof (rp_dir _ _ _ R).
    assert (p <> r) by (by intros ->). assert (p <> pd) by (intros ->; apply (NoDup_sep _ _ _ _ N Hin); left).
    apply with_table_frame; zlia.
  - cbn [k_mem set_k_mem]. apply rep_new_table; try done. lia.
  - rewrite owned_perm in *. unfold meta in *. rewrite Pt. cbn [app] in *. apply Forall_cons in O as [O1 O2].
    apply Forall_cons. split; [done|]. by apply Forall_cons.
  - rewrite owned_perm in *. unfold meta in *. rewrite Pt. change (uframes (add_table i r A)) with (uframes A).
    eapply NoDup_perm; [|exact N]. cbn [app]. solve_Permutation.
Qed.

Lemma walk_alloc s pd A free rest va : space_inv s pd A free rest -> can_alloc s ->
  exists r s' A' free', walkpgdir pd va true s = Ret r s' /\ space_inv s' pd A' free' rest /\ grown s pd A free s' A' free' /\
    as_map A' = as_map A /\ (length free <= S (length free'))%nat /\
    ((r = 0 /\ A' = A /\ starved s' free') \/ (exists t, as_tab A' !! PDX va = Some t /\ r = t + 4 * PTX va /\ r <> 0)).
Proof.
  intros V Hc. pose proof (PDX_range va) as HD. pose proof (PTX_range va) as HT.
  pose proof (si_rep _ _ _ _ _ V) as R. pose proof (si_sane _ _ _ _ _ V) as Sn.
  unfold walkpgdir, load32. rewrite bind_gets. pose proof (rp_tab _ _ _ R _ HD) as Et.
  destruct (present (ld32 (k_mem s) (pd + 4 * PDX va))) eqn:Hp.
  - exists (pt_page (k_mem s) pd (PDX va) + 4 * PTX va), s, A, free. split_and!; [done | done | by apply grown_refl | done | lia |].
    right. eexists. split_and!; [done | done |].
    pose proof (sane_align _ _ _ Sn (proj2 (table_owned pd _ _ _ Et))). klia.
  - cbv beta iota delta [negb]. destruct (kalloc_as s pd A free rest V Hc) as (r & s1 & Hk & Hc1 & Hs & Hm & Hr).
    rewrite (bind_Ret _ _ _ _ _ Hk). destruct Hr as [(-> & V1 & St & Us)|(free' & -> & Hz & Hpg & V1 & Us)].
    + exists 0, s1, A, free. split_and!; [done | done | | done | lia | by left].
      split; [done | done | done | done | done | done | rewrite Hm; apply untouched_refl].
    + rewrite (proj2 (Z.eqb_neq r 0) Hz). destruct (ok_range _ Hpg) as [Hal Hrg].
      exists (r + 4 * PTX va), (set_k_mem (with_table (k_mem s1) pd (PDX va) r) s1), (add_table (PDX va) r A), free'.
      split_and!; [reflexivity | by apply table_taken | | done | done | right; exists r; split_and!; [apply lookup_insert_eq | done | klia]].
      split; [done | eapply same_rest_trans; [done | apply same_rest_mem] | by apply insert_subseteq | | exact Us | by right |].
      * unfold meta. rewrite tables_add by done. cbn [app]. solve_Permutation.
      * cbn [k_mem set_k_mem]. rewrite <- Hm. apply with_table_untouched; [done | |]; apply elem_of_app; [left; left | right; left].
Qed.

(** ** Mapping *)

Lemma put_entry_map q pa perm A : pa mod 4096 = 0 -> 0 <= pa < 4294967296 -> 0 <= perm < 4096 ->
  put_entry q (Z.lor (Z.lor pa perm) PTE_P) A = add_page q (P2V pa) (Z.lor perm PTE_P) A.
Proof.
  intros H1 H2 H3. destruct (pte_value pa perm H1 H2 H3) as (E1 & E2 & E3 & _).
  unfold put_entry, add_page, pte_dec. by rewrite E1, E2, E3.
Qed.

(** An entry written for a page in hand. *)
Lemma page_taken s pd A free rest i t k pa perm : let q := 1024 * i + k in
  space_inv s pd A free (uown q (P2V pa) ++ rest) -> as_tab A !! i = Some t -> 0 <= k < 1024 -> as_map A !! q = None ->
  pa mod 4096 = 0 -> 0 <= pa < 4294967296 -> 0 <= perm < 4096 -> (q < UPAGES -> page_ok (P2V pa)) ->
  space_inv (set_k_mem (st32 (k_mem s) (t + 4 * k) (Z.lor (Z.lor pa perm) PTE_P)) s) pd (add_page q (P2V pa) (Z.lor perm PTE_P) A) free rest.
Proof.
  intros q V Ht Hk Hq H1 H2 H3 Hok. pose proof (si_sane _ _ _ _ _ V) as Sn. destruct (pte_value pa perm H1 H2 H3) as (_ & _ & _ & He).
  destruct (sane_align _ _ t Sn (proj2 (table_owned pd _ _ _ Ht))) as [Hta _]. destruct V as [K R O N].
  pose proof (uframes_add q (P2V pa) (Z.lor perm PTE_P) A Hq) as Pu. split.
  - apply kmem_write; [done | apply st32_wf, K |]. intros p x Hin Hx. symmetry. apply st32_frame.
    pose proof (proj1 (Forall_forall _ _) (free_aligned _ _ K) p Hin) as Hpa.
    assert (p <> t) by (intros ->; apply (NoDup_sep _ _ _ _ N Hin); apply (table_owned pd _ _ _ Ht)). zlia.
  - cbn [k_mem set_k_mem]. rewrite <- put_entry_map by done. by apply rep_write.
  - rewrite owned_perm in *. change (meta pd (add_page q (P2V pa) (Z.lor perm PTE_P) A)) with (meta pd A). rewrite Pu.
    apply Forall_app in O as [O1 O2]. apply Forall_app. split; [done|]. apply Forall_app. split; [|done].
    unfold uown. destruct (Z.ltb_spec q UPAGES); [|done]. apply Forall_singleton. auto.
  - rewrite owned_perm in *. change (meta pd (add_page q (P2V pa) (Z.lor perm PTE_P) A)) with (meta pd A). rewrite Pu.
    eapply NoDup_perm; [|exact N]. solve_Permutation.
Qed.

Lemma map_one s pd A free rest a pa perm last :
  space_inv s pd A free (uown (vpn a) (P2V pa) ++ rest) -> can_alloc s -> 0 <= perm < 4096 -> pa mod 4096 = 0 -> 0 <= pa < 4294967296 ->
  as_map A !! vpn a = None -> (vpn a < UPAGES -> page_ok (P2V pa)) ->
  exists r s' A' free', map_step pd perm last (a, pa) s = Ret r s' /\ grown s pd A free s' A' free' /\ (length free <= S (length free'))%nat /\
    ((r = inr (-1) /\ A' = A /\ space_inv s' pd A' free' (uown (vpn a) (P2V pa) ++ rest) /\ starved s' free') \/
     (r = (if a =? last then inr 0 else inl (u32 (a + PGSIZE), u32 (pa + PGSIZE))) /\
      as_map A' = <[vpn a := (P2V pa, Z.lor perm PTE_P)]> (as_map A) /\ space_inv s' pd A' free' rest)).
Proof.
  intros V Hc H3 H1 H2 Hq Hok. pose proof (PTX_range a) as HT. rewrite vpn_split in *.
  destruct (walk_alloc s pd A free _ a V Hc) as (r & s1 & A1 & free1 & Hw & V1 & G1 & Em & Hfew & Hr). unfold map_step.
  rewrite (bind_Ret _ _ _ _ _ Hw). destruct Hr as [(-> & -> & St)|(t & Ht & -> & Hnz)].
  - exists (inr (-1)), s1, A, free1. split_and!; [done | done | done | by left].
  - rewrite (proj2 (Z.eqb_neq _ 0) Hnz). unfold load32. rewrite bind_gets.
    assert (present (ld32 (k_mem s1) (t + 4 * PTX a)) = false) as ->.
    { pose proof (rp_pte _ _ _ (si_rep _ _ _ _ _ V1) _ _ _ Ht HT) as E. rewrite Em, Hq in E. unfold pte_dec in E. by destruct (present _). }
    unfold store32, upd_mem. rewrite bind_modify. rewrite <- Em in Hq.
    pose proof (page_taken _ _ _ _ _ _ _ _ _ perm V1 Ht HT Hq H1 H2 H3 Hok) as V2.
    eexists _, _, (add_page _ (P2V pa) (Z.lor perm PTE_P) A1), free1. split; [|split; [|split; [exact Hfew|right; split; [reflexivity|split; [|exact V2]]]]].
    + by destruct (a =? last).
    + eapply grown_trans; [exact G1|]. destruct G1 as [C1 _ _ _ _ _ _].
      split; [done | apply same_rest_mem | done | done | by apply used_refl | done |].
      cbn [k_mem set_k_mem]. eapply (untouched_mono [t]); [|apply untouched_st32; lia].
      intros p ->%list_elem_of_singleton. apply elem_of_app. left. apply (table_owned pd _ _ _ Ht).
    + unfold add_page. cbn [as_map]. by rewrite Em.
Qed.

Lemma mappages_loop pd va size pa perm : mappages pd va size pa perm =
  loop (S (Z.to_nat (u32 (PGROUNDDOWN (u32 (va + size - 1)) - PGROUNDDOWN va) / PGSIZE)))
    (map_step pd perm (PGROUNDDOWN (u32 (va + size - 1)))) (PGROUNDDOWN va, pa).
Proof. done. Qed.

Lemma P2V_V2P p : page_ok p -> P2V (V2P p) = p /\ V2P p mod 4096 = 0 /\ 0 < V2P p < 4294967296.
Proof. intros H. pose proof (ok_range _ H). unfold P2V, V2P, KERNBASE, PHYSTOP in *. zlia. Qed.

Lemma vpn_page q : 0 <= q < 1048576 -> vpn (4096 * q) = q.
Proof. intros H. unfold vpn. zlia. Qed.

(** One page of a process. *)
Lemma mappages_page s pd A free rest q p perm :
  space_inv s pd A free (p :: rest) -> can_alloc s -> page_ok p -> 0 <= perm < 4096 -> 0 <= q < UPAGES -> as_map A !! q = None ->
  exists r s' A' free', mappages pd (4096 * q) PGSIZE (V2P p) perm s = Ret r s' /\ grown s pd A free s' A' free' /\ (length free <= S (length free'))%nat /\
    ((r = -1 /\ A' = A /\ space_inv s' pd A' free' (p :: rest) /\ starved s' free') \/
     (r = 0 /\ as_map A' = <[q := (p, Z.lor perm PTE_P)]> (as_map A) /\ space_inv s' pd A' free' rest)).
Proof.
  intros V Hc Hp Hperm Hq Hn. destruct (P2V_V2P _ Hp) as (Ep & Hal & Hr). assert (UPAGES = 524288) as EU by done.
  rewrite mappages_loop. assert (PGROUNDDOWN (4096 * q) = 4096 * q) as -> by (rewrite PGROUNDDOWN_eq; unfold PGSIZE; zlia).
  assert (PGROUNDDOWN (u32 (4096 * q + PGSIZE - 1)) = 4096 * q) as ->.
  { rewrite u32_small, PGROUNDDOWN_eq by (unfold PGSIZE; lia). unfold PGSIZE. zlia. }
  rewrite Z.sub_diag. change (Z.to_nat (u32 0 / PGSIZE)) with 0%nat.
  pose proof (vpn_page q ltac:(lia)) as Eq.
  destruct (map_one s pd A free rest (4096 * q) (V2P p) perm (4096 * q)) as (r & s' & A' & free' & E & G & Hfew & H); try done;
    rewrite ?Eq, ?Ep; try done; [| lia |].
  { unfold uown. by rewrite (proj2 (Z.ltb_lt _ _)) by lia. }
  rewrite Eq, Ep in H. unfold uown in H. rewrite (proj2 (Z.ltb_lt q UPAGES)) in H by lia. rewrite Z.eqb_refl in H.
  destruct H as [(-> & E1 & V1 & St)|(-> & E1 & V1)]; eexists _, s', A', free'; (split; [by apply loop_done|]); auto 8.
Qed.

(** A range of kernel pages. *)
Fixpoint map_pages (n : nat) (q pa perm : Z) (M : gmap Z (Z * Z)) : gmap Z (Z * Z) :=
  match n with
  | O => M
  | S n => map_pages n (q + 1) (pa + 4096) perm (<[q := (P2V pa, Z.lor perm PTE_P)]> M)
  end.

Lemma map_pages_lookup n : forall q pa perm M j, map_pages n q pa perm M !! j =
  if (q <=? j) && (j <? q + Z.of_nat n) then Some (P2V (pa + 4096 * (j - q)), Z.lor perm PTE_P) else M !! j.
Proof.
  induction n as [|n IH]; intros q pa perm M j; cbn [map_pages].
  - by destruct (Z.leb_spec q j), (Z.ltb_spec j (q + Z.of_nat 0)); try lia.
  - rewrite IH. destruct (Z.leb_spec (q + 1) j), (Z.ltb_spec j (q + 1 + Z.of_nat n)), (Z.leb_spec q j),
      (Z.ltb_spec j (q + Z.of_nat (S n))); cbn [andb]; try lia.
    all: first [ by rewrite lookup_insert_ne by lia | do 3 f_equal; lia
               | assert (j = q) as -> by lia; rewrite lookup_insert_eq; do 3 f_equal; lia ].
Qed.

Lemma umap_insert q e A M : UPAGES <= q -> as_map A = <[q := e]> M -> umap A = filter (fun e => e.1 < UPAGES) M.
Proof.
  intros Hq E. unfold umap. rewrite E, map_filter_insert_False by (simpl; lia). apply map_eq. intros j.
  apply option_eq. intros x. rewrite !map_lookup_filter_Some. destruct (decide (q = j)) as [<-|Hne].
  - rewrite lookup_delete_eq. simpl. split; intros [H1 H2]; [done|lia].
  - by rewrite lookup_delete_ne.
Qed.

Lemma map_one_kernel s pd A free rest q pa perm last :
  space_inv s pd A free rest -> can_alloc s -> 0 <= perm < 4096 -> pa mod 4096 = 0 -> 0 <= pa < 4294967296 ->
  UPAGES <= q < 1048576 -> as_map A !! q = None ->
  exists r s' A' free', map_step pd perm last (4096 * q, pa) s = Ret r s' /\ grown s pd A free s' A' free' /\
    space_inv s' pd A' free' rest /\ umap A' = umap A /\
    ((r = inr (-1) /\ starved s' free') \/
     (r = (if 4096 * q =? last then inr 0 else inl (u32 (4096 * q + PGSIZE), u32 (pa + PGSIZE))) /\
      as_map A' = <[q := (P2V pa, Z.lor perm PTE_P)]> (as_map A))).
Proof.
  intros V Hc Hperm Hal Hpa Hq Hn. assert (UPAGES = 524288) as EU by done. pose proof (vpn_page q ltac:(lia)) as Eq.
  assert (uown q (P2V pa) = []) as Eu by (unfold uown; by rewrite (proj2 (Z.ltb_ge _ _)) by lia).
  destruct (map_one s pd A free rest (4096 * q) pa perm last) as (r & s1 & A1 & free1 & E & G1 & _ & H1); rewrite ?Eq, ?Eu; try done; [lia|].
  rewrite Eq, Eu in H1. exists r, s1, A1, free1. split; [done|]. split; [done|].
  destruct H1 as [(-> & E1 & V1 & St)|(-> & E1 & V1)]; (split; [done|split]);
    [by rewrite E1 | by left | eapply umap_insert; [|done]; lia | by right].
Qed.

Lemma map_kernel pd perm rest n : forall s A free q pa,
  space_inv s pd A free rest -> can_alloc s -> 0 <= perm < 4096 -> pa mod 4096 = 0 -> 0 <= pa -> pa + 4096 * Z.of_nat n < 4294967296 ->
  UPAGES <= q -> q + Z.of_nat n < 1048576 -> (forall j, q <= j <= q + Z.of_nat n -> as_map A !! j = None) ->
  exists r s' A' free', loop (S n) (map_step pd perm (4096 * (q + Z.of_nat n))) (4096 * q, pa) s = Ret r s' /\
    grown s pd A free s' A' free' /\ space_inv s' pd A' free' rest /\ umap A' = umap A /\
    ((r = -1 /\ starved s' free') \/ (r = 0 /\ as_map A' = map_pages (S n) q pa perm (as_map A))).
Proof.
  induction n as [|n IH]; intros s A free q pa V Hc Hperm Hal Hpa Hpa' Hq Hq' Hun; assert (UPAGES = 524288) as EU by done.
  - destruct (map_one_kernel s pd A free rest q pa perm (4096 * (q + Z.of_nat 0))) as (r & s1 & A1 & free1 & E & G1 & V1 & U1 & H1);
      try done; [lia | lia | apply Hun; lia |].
    rewrite (proj2 (Z.eqb_eq _ _)) in H1 by lia.
    destruct H1 as [(-> & St)|(-> & E1)]; eexists _, s1, A1, free1; (split; [by apply loop_done|]); auto 6.
  - destruct (map_one_kernel s pd A free rest q pa perm (4096 * (q + Z.of_nat (S n)))) as (r & s1 & A1 & free1 & E & G1 & V1 & U1 & H1);
      try done; [lia | lia | apply Hun; lia |].
    rewrite (proj2 (Z.eqb_neq _ _)) in H1 by lia.
    destruct H1 as [(-> & St)|(-> & E1)]; [eexists _, s1, A1, free1; (split; [by apply loop_done|]); by auto 6|].
    rewrite (loop_next _ _ _ _ _ _ E). clear E.
    rewrite !u32_small by (unfold PGSIZE; lia). replace (4096 * q + PGSIZE) with (4096 * (q + 1)) by (unfold PGSIZE; lia).
    destruct (IH s1 A1 free1 (q + 1) (pa + PGSIZE)) as (r & s2 & A2 & free2 & E & G2 & V2 & U2 & H2); try done; try (unfold PGSIZE; zlia).
    { apply G1. } { intros j Hj. rewrite E1, lookup_insert_ne by lia. apply Hun. lia. }
    exists r, s2, A2, free2. replace (q + Z.of_nat (S n)) with (q + 1 + Z.of_nat n) by lia. split; [done|].
    split_and!; [by eapply grown_trans | done | by rewrite U2 |]. destruct H2 as [?|[-> E2]]; [by left|].
    right. split; [done|]. rewrite E2, E1. done.
Qed.

(** ** Unmapping *)

(** A mapped page goes back to the allocator and its entry is cleared. *)
Lemma page_freed s s1 pd A free rest i t k p fl : let q := 1024 * i + k in
  space_inv s pd A free rest -> as_tab A !! i = Some t -> 0 <= k < 1024 -> as_map A !! q = Some (p, fl) -> q < UPAGES ->
  kmem_inv s1 (p :: free) -> untouched [p] (k_mem s) (k_mem s1) ->
  space_inv (set_k_mem (st32 (k_mem s1) (t + 4 * k) 0) s1) pd (del_page q A) (p :: free) rest.
Proof.
  intros q V Ht Hk Hq Hu K1 U1. pose proof (si_sane _ _ _ _ _ V) as Sn. destruct V as [K R O N].
  destruct (sane_align _ _ t Sn (proj2 (table_owned pd _ _ _ Ht))) as [Hta _].
  destruct (sane_align _ _ p Sn (frame_owned pd _ _ _ _ Hu Hq)) as [Hpa _].
  assert (p ∈ uframes A) as Hin by (apply elem_of_uframes; eauto).
  assert (forall x, x ∈ meta pd A -> x <> p) as Hm.
  { intros x Hx ->. rewrite owned_perm in N. apply NoDup_app in N as (N & _). apply NoDup_app in N as (_ & N & _). by apply (N p). }
  pose proof (uframes_del _ _ _ _ Hq) as Pu. unfold uown in Pu. rewrite (proj2 (Z.ltb_lt _ _) Hu) in Pu. split.
  - apply kmem_write; [done | apply st32_wf, K1 |]. intros y x Hy Hx. symmetry. apply st32_frame.
    pose proof (proj1 (Forall_forall _ _) (free_aligned _ _ K1) y Hy) as Hya.
    assert (y <> t); [|zlia]. intros ->. apply elem_of_cons in Hy as [Hy|Hy].
    + exact (Hm t (proj1 (table_owned pd _ _ _ Ht)) Hy).
    + apply (NoDup_sep _ _ _ _ N Hy), (table_owned pd _ _ _ Ht).
  - cbn [k_mem set_k_mem]. replace (del_page q A) with (put_entry q 0 A) by done. apply rep_write; try done.
    eapply rep_ext; [done|]. intros u l Hul Hl. apply (untouched_word [p]); try done.
    + by apply Forall_singleton.
    + apply (sane_align _ _ u Sn). rewrite owned_perm. apply elem_of_app. by left.
    + intros ->%list_elem_of_singleton. by apply (Hm p).
  - rewrite owned_perm in *. apply Forall_app in O as [O1 O2]. apply Forall_app. split; [done|]. rewrite Pu in O2.
    by apply Forall_app in O2 as [_ O2].
  - rewrite owned_perm in *. rewrite Pu in N. eapply NoDup_perm; [|exact N]. change (meta pd (del_page q A)) with (meta pd A). solve_Permutation.
Qed.

Definition drop_pages (lo hi : Z) (A : aspace) : aspace := mkAs (as_tab A) (filter (fun e => ~ lo <= e.1 < hi) (as_map A)).

(** What unmapping leaves: pages moved to the free list, and only they and the tables written. *)
Record shrunk (s : kst) (pd : Z) (A : aspace) (free : list Z) (s' : kst) (A' : aspace) (free' : list Z) : Prop := {
  sh_alloc : can_alloc s';
  sh_rest : same_rest s s';
  sh_tab : as_tab A' = as_tab A;
  sh_pages : uframes A' ++ free' ≡ₚ uframes A ++ free;
  sh_free : forall p, p ∈ free -> p ∈ free';
  sh_mem : untouched (meta pd A ++ free') (k_mem s) (k_mem s')
}.

Lemma shrunk_refl s pd A free : can_alloc s -> shrunk s pd A free s A free.
Proof. intros Hc. split; [done | apply same_rest_refl | done | done | done | apply untouched_refl]. Qed.

Lemma shrunk_trans s pd A free s1 A1 free1 s2 A2 free2 :
  shrunk s pd A free s1 A1 free1 -> shrunk s1 pd A1 free1 s2 A2 free2 -> shrunk s pd A free s2 A2 free2.
Proof.
  intros [_ R1 T1 P1 F1 M1] [C2 R2 T2 P2 F2 M2]. split; [done | by eapply same_rest_trans | congruence | by rewrite P2 | auto |].
  assert (meta pd A1 = meta pd A) as Em by (unfold meta, tables; by rewrite T1). rewrite Em in M2.
  eapply untouched_trans; [|exact M2]. eapply untouched_mono; [|exact M1]. intros p. rewrite !elem_of_app. intros [?|?]; auto.
Qed.

(** The body of the loop of [deallocuvm]. *)
Definition dealloc_step (pd oldsz newsz : Z) : Z -> K (Z + Z) := fun a =>
  if a <? oldsz then
    pte <- walkpgdir pd a false ;;
    if pte =? 0 then
      let a := u32 (PGADDR (PDX a + 1) 0 0 - PGSIZE) in
      ret (inl (u32 (a + PGSIZE)))
    else
      e <- load32 pte ;;
      when (present e)
        (let pa := PTE_ADDR e in
         if pa =? 0 then panic "kfree" else
         let v := P2V pa in
         kfree v ;;
         store32 pte 0) ;;
      ret (inl (u32 (a + PGSIZE)))
  else ret (inr newsz).

(** A present entry: the page is freed. *)
Lemma dealloc_page s pd A free rest t q p fl :
  space_inv s pd A free rest -> can_alloc s -> as_tab A !! (q / 1024) = Some t -> as_map A !! q = Some (p, fl) -> q < UPAGES ->
  exists s', (kfree p ;; store32 (t + 4 * (q mod 1024)) 0) s = Ret tt s' /\
    shrunk s pd A free s' (del_page q A) (p :: free) /\ space_inv s' pd (del_page q A) (p :: free) rest.
Proof.
  intros V Hc Ht Ep Hu. pose proof (frame_owned pd _ _ _ _ Hu Ep) as Hin.
  destruct (kfree_free p s free (si_kmem _ _ _ _ _ V) Hc) as (s1 & Hf & Hc1 & Hs1 & U1 & K1).
  { by apply (proj1 (Forall_forall _ _) (si_ok _ _ _ _ _ V)). }
  { intros Hfr. by apply (NoDup_sep _ _ _ _ (si_nodup _ _ _ _ _ V) Hfr). }
  pose proof (page_freed s s1 pd A free rest (q / 1024) t (q mod 1024) p fl) as V2. cbv zeta in V2.
  replace (1024 * (q / 1024) + q mod 1024) with q in V2 by zlia.
  eexists. split; [|split; [|apply V2; try done; zlia]].
  - erewrite (bind_Ret (kfree _)) by exact Hf. reflexivity.
  - split; [done | eapply same_rest_trans; [done | apply same_rest_mem] | done | | by right |].
    + pose proof (uframes_del _ _ _ _ Ep) as Pu. unfold uown in Pu. rewrite (proj2 (Z.ltb_lt _ _)) in Pu by lia. rewrite Pu. solve_Permutation.
    + eapply untouched_trans; [eapply (untouched_mono [p]); [|exact U1]|eapply (untouched_mono [t]); [|apply untouched_st32; zlia]];
        intros x ->%list_elem_of_singleton; apply elem_of_app; [right; left | left; apply (table_owned pd _ _ _ Ht)].
Qed.

(** One turn at virtual page [q]: its page-table page is missing, or the page is unmapped. *)
Lemma dealloc_turn s pd A free rest oldsz newsz q :
  space_inv s pd A free rest -> can_alloc s -> oldsz <= KERNBASE -> 0 <= q -> 4096 * q < oldsz ->
  exists s' A' free', shrunk s pd A free s' A' free' /\ space_inv s' pd A' free' rest /\
    ((as_tab A !! (q / 1024) = None /\ A' = A /\ dealloc_step pd oldsz newsz (4096 * q) s = Ret (inl (4096 * (1024 * (q / 1024 + 1)))) s') \/
     (A' = del_page q A /\ dealloc_step pd oldsz newsz (4096 * q) s = Ret (inl (4096 * (q + 1))) s')).
Proof.
  intros V Hc Hk H0 Hq. unfold KERNBASE in Hk. pose proof (si_rep _ _ _ _ _ V) as R. pose proof (si_sane _ _ _ _ _ V) as Sn.
  assert (PDX (4096 * q) = q / 1024 /\ PTX (4096 * q) = q mod 1024) as [ED ET] by (rewrite PDX_eq, PTX_eq; zlia).
  assert (UPAGES = 524288) as EU by done. unfold dealloc_step. rewrite (proj2 (Z.ltb_lt _ _) Hq).
  rewrite (bind_Ret _ _ _ _ _ (walk_look s pd A _ R)), ED, ET.
  assert (u32 (4096 * q + PGSIZE) = 4096 * (q + 1)) as En by (rewrite u32_small; unfold PGSIZE; lia).
  destruct (as_tab A !! (q / 1024)) as [t|] eqn:Ht.
  - pose proof (sane_align _ _ _ Sn (proj2 (table_owned pd _ _ _ Ht))) as Hta.
    rewrite (proj2 (Z.eqb_neq _ 0)) by (unfold KERNBASE in *; zlia). unfold load32. rewrite bind_gets.
    pose proof (rp_pte _ _ _ R _ _ (q mod 1024) Ht ltac:(zlia)) as Ep. replace (1024 * (q / 1024) + q mod 1024) with q in Ep by zlia.
    set (e := ld32 (k_mem s) (t + 4 * (q mod 1024))) in *. unfold pte_dec in Ep. destruct (present e) eqn:Hp; cbn [when].
    + assert (q < UPAGES) as Hu by lia. pose proof (sane_align _ _ _ Sn (frame_owned pd _ _ _ _ Hu Ep)) as Hpa.
      rewrite (proj2 (Z.eqb_neq _ 0)) by (intros E; rewrite E in Hpa; destruct Hpa as (_ & Hpa & _); by vm_compute in Hpa).
      cbv zeta. destruct (dealloc_page s pd A free rest t q _ _ V Hc Ht Ep Hu) as (s1 & E1 & S1 & V1).
      exists s1, (del_page q A), (P2V (PTE_ADDR e) :: free). split; [done|]. split; [done|]. right. split; [done|].
      rewrite (bind_Ret _ _ _ _ _ E1), En. done.
    + exists s, A, free. split; [by apply shrunk_refl|]. split; [done|]. right. split; [|by rewrite bind_ret, En].
      unfold del_page. rewrite delete_id by done. by destruct A.
  - exists s, A, free. split; [by apply shrunk_refl|]. split; [done|]. left. split_and!; [done | done |].
    change (0 =? 0) with true. cbv iota zeta. unfold ret. do 2 f_equal. unfold PGADDR. rewrite !Z.shiftl_mul_pow2, !Z.lor_0_r by lia.
    unfold PGSIZE. zlia.
Qed.

Lemma drop_none lo hi A : (forall j, lo <= j < hi -> as_map A !! j = None) -> drop_pages lo hi A = A.
Proof.
  intros H. unfold drop_pages. destruct A as [T M]. cbn [as_tab as_map] in *. f_equal. apply map_filter_id.
  intros j x Hj Hr. simpl in Hr. by rewrite H in Hj.
Qed.

Lemma drop_split lo mid hi A : lo <= mid <= hi -> drop_pages mid hi (drop_pages lo mid A) = drop_pages lo hi A.
Proof.
  intros H. unfold drop_pages. cbn [as_tab as_map]. f_equal. rewrite map_filter_filter. apply map_filter_ext.
  intros j x _. simpl. lia.
Qed.

Lemma drop_one q A : drop_pages q (q + 1) A = del_page q A.
Proof.
  unfold drop_pages, del_page. f_equal. apply map_eq. intros j. apply option_eq. intros x.
  rewrite map_lookup_filter_Some, lookup_delete_Some. simpl. split; intros [H1 H2]; split; try done; lia.
Qed.

Lemma drop_skip q q' hi A : q <= q' -> (forall j, q <= j < q' -> as_map A !! j = None) -> drop_pages q' hi A = drop_pages q hi A.
Proof.
  intros Hq H. unfold drop_pages. f_equal. apply map_filter_ext. intros j x Hj. simpl.
  destruct (decide (q <= j < q')) as [Hr|Hr]; [by rewrite H in Hj | lia].
Qed.

Lemma dealloc_loop pd oldsz newsz rest fuel : forall s A free q,
  space_inv s pd A free rest -> can_alloc s -> oldsz <= KERNBASE -> 0 <= q -> Z.max 0 ((oldsz + 4095) / 4096 - q) < Z.of_nat fuel ->
  exists s' A' free', loop fuel (dealloc_step pd oldsz newsz) (4096 * q) s = Ret newsz s' /\
    shrunk s pd A free s' A' free' /\ space_inv s' pd A' free' rest /\ A' = drop_pages q ((oldsz + 4095) / 4096) A.
Proof.
  induction fuel as [|fuel IH]; intros s A free q V Hc Hk H0 Hf; [|destruct (Z.lt_ge_cases (4096 * q) oldsz) as [Hq|Hq]].
  - lia.
  - assert (q < (oldsz + 4095) / 4096) by zlia. destruct (dealloc_turn s pd A free rest oldsz newsz q V Hc Hk H0 Hq) as (s1 & A1 & free1 & S1 & V1 & [(Ht & -> & E)|(-> & E)]);
      rewrite (loop_next _ _ _ _ _ _ E).
    + destruct (IH s1 A free1 (1024 * (q / 1024 + 1)) V1) as (s2 & A2 & free2 & E2 & S2 & V2 & ->); [apply S1 | done | zlia | zlia |].
      eexists s2, _, free2. split; [done|]. split; [by eapply shrunk_trans|]. split; [done|]. apply drop_skip; [zlia|].
      intros j Hj. destruct (as_map A !! j) eqn:Ej; [|done]. destruct (rp_map_dom _ _ _ (si_rep _ _ _ _ _ V1) _ _ Ej) as [t Htj].
      replace (j / 1024) with (q / 1024) in Htj by zlia. congruence.
    + destruct (IH s1 (del_page q A) free1 (q + 1) V1) as (s2 & A2 & free2 & E2 & S2 & V2 & ->); [apply S1 | done | lia | lia |].
      eexists s2, _, free2. split; [done|]. split; [by eapply shrunk_trans|]. split; [done|].
      rewrite <- drop_one. apply drop_split. zlia.
  - exists s, A, free. split; [apply loop_done; unfold dealloc_step; by rewrite (proj2 (Z.ltb_ge _ _) Hq)|].
    split; [by apply shrunk_refl|]. split; [done|]. symmetry. apply drop_none. intros j Hj. zlia.
Qed.

(** [deallocuvm] unmaps exactly the pages between the two sizes and gives them back. *)
Lemma deallocuvm_as s pd A free rest oldsz newsz :
  space_inv s pd A free rest -> can_alloc s -> 0 <= newsz < oldsz -> oldsz <= KERNBASE ->
  exists s' A' free', deallocuvm pd oldsz newsz s = Ret newsz s' /\ shrunk s pd A free s' A' free' /\ space_inv s' pd A' free' rest /\
    A' = drop_pages ((newsz + 4095) / 4096) ((oldsz + 4095) / 4096) A.
Proof.
  intros V Hc Hn Hk. unfold deallocuvm. rewrite (proj2 (Z.leb_gt _ _)) by lia. fold (dealloc_step pd oldsz newsz).
  unfold KERNBASE in Hk. assert (PGROUNDUP newsz = 4096 * ((newsz + 4095) / 4096)) as ->.
  { rewrite PGROUNDUP_eq by lia. unfold PGSIZE. zlia. }
  apply dealloc_loop; [done | done | done | zlia |]. unfold PGSIZE. zlia.
Qed.

(** ** [freevm] *)

Lemma rep_key m pd A q e : rep m pd A -> as_map A !! q = Some e -> 0 <= q < 1048576.
Proof. intros R H. destruct (rp_map_dom _ _ _ R _ _ H) as [t Ht]. apply (rp_tab_dom _ _ _ R) in Ht. zlia. Qed.

Lemma drop_user m pd A : rep m pd A -> uframes (drop_pages 0 UPAGES A) = [].
Proof.
  intros R. unfold uframes. assert (umap (drop_pages 0 UPAGES A) = ∅) as ->; [|by rewrite map_to_list_empty].
  unfold umap, drop_pages. cbn [as_map]. rewrite map_filter_filter. apply map_empty. intros j.
  apply map_lookup_filter_None. right. intros x Hj [H1 H2]. pose proof (rep_key _ _ _ _ _ R Hj). simpl in *. lia.
Qed.

(** The body of the loop of [freevm]. *)
Definition free_table (pd : Z) (i : nat) : K unit :=
  e <- load32 (pd + 4 * Z.of_nat i) ;;
  when (present e)
    (e <- load32 (pd + 4 * Z.of_nat i) ;;
     let v := P2V (PTE_ADDR e) in
     kfree v).

Lemma free_table_eq pd i s : free_table pd i s =
  if present (ld32 (k_mem s) (pd + 4 * Z.of_nat i)) then kfree (pt_page (k_mem s) pd (Z.of_nat i)) s else Ret tt s.
Proof. unfold free_table, load32. rewrite bind_gets. by destruct (present _). Qed.

Lemma free_tables pd ix : forall s free (T : gmap Z Z),
  pd mod 4096 = 0 -> kmem_inv s free -> can_alloc s ->
  (forall i, i ∈ ix -> T !! Z.of_nat i = if present (ld32 (k_mem s) (pd + 4 * Z.of_nat i)) then Some (pt_page (k_mem s) pd (Z.of_nat i)) else None) ->
  (forall i, i ∈ ix -> (i < 1024)%nat) ->
  let l := omap (fun i => T !! Z.of_nat i) ix in
  NoDup (l ++ free) -> Forall page_ok l -> pd ∉ l ->
  exists s', for_each ix (free_table pd) s = Ret tt s' /\ can_alloc s' /\ same_rest s s' /\ kmem_inv s' (rev l ++ free) /\
    untouched l (k_mem s) (k_mem s').
Proof.
  induction ix as [|i ix IH]; intros s free T Hpd K Hc HT Hr l Hn Ho Hd.
  { exists s. split_and!; [done | done | apply same_rest_refl | done | apply untouched_refl]. }
  pose proof (HT i ltac:(left)) as Hi.
  assert (l = match T !! Z.of_nat i with Some t => t :: omap (fun i => T !! Z.of_nat i) ix | None => omap (fun i => T !! Z.of_nat i) ix end)
    as El by done.
  clearbody l. subst l. cbn [for_each]. assert (forall f : unit -> M kst unit, bind (free_table pd i) f s = obind (free_table pd i s) f) as Eb by done.
  rewrite Eb. clear Eb. rewrite free_table_eq. destruct (present (ld32 (k_mem s) (pd + 4 * Z.of_nat i))) eqn:Hp; rewrite Hi in *; cycle 1.
  { destruct (IH s free T) as (s1 & E & H); try done; [intros; apply HT; by right | intros; apply Hr; by right |]. exists s1. by split. }
  set (t := pt_page (k_mem s) pd (Z.of_nat i)) in *. clearbody t.
  cbn [app] in Hn. apply NoDup_cons in Hn as [Hn1 Hn2]. apply Forall_cons in Ho as [Ho1 Ho2].
  apply not_elem_of_cons in Hd as [Hd1 Hd2]. rewrite elem_of_app in Hn1.
  destruct (kfree_free t s free K Hc Ho1) as (s1 & E1 & Hc1 & Hs1 & U1 & K1); [tauto|].
  destruct (IH s1 (t :: free) T) as (s2 & E2 & Hc2 & Hs2 & K2 & U2); try done.
  { intros j Hj. unfold pt_page. rewrite (untouched_word [t] (k_mem s)); [by apply HT; right | done | | done | | ].
    - apply Forall_singleton. by apply ok_range.
    - intros ->%list_elem_of_singleton. done.
    - pose proof (Hr j ltac:(by right)). lia. }
  { intros j Hj. apply Hr. by right. }
  { eapply NoDup_perm; [|apply NoDup_cons; split; [|exact Hn2]; rewrite elem_of_app; exact Hn1]. solve_Permutation. }
  exists s2. split.
  { rewrite E1. exact E2. }
  split_and!; [done | by eapply same_rest_trans | cbn [rev]; by rewrite <- app_assoc |].
  eapply untouched_trans; [eapply untouched_mono; [|exact U1]|eapply untouched_mono; [|exact U2]].
  - intros x ->%list_elem_of_singleton. left.
  - intros x Hx. by right.
Qed.

Lemma tables_listed m pd A : rep m pd A -> sane pd A -> omap (fun i => as_tab A !! Z.of_nat i) (seq 0 NPDENTRIES) ≡ₚ tables A.
Proof.
  intros R Sn. apply NoDup_Permutation.
  - apply NoDup_omap; [apply NoDup_seq|]. intros x y z _ _ Hx Hy. apply Nat2Z.inj. by eapply sane_inj.
  - pose proof (sn_nodup _ _ Sn) as Hn. rewrite owned_perm in Hn. unfold meta in Hn. apply NoDup_app in Hn as (Hn & _).
    by apply NoDup_cons in Hn as [_ Hn].
  - intros t. rewrite list_elem_of_omap, elem_of_tables. split; [intros (i & _ & Hi); eauto|].
    intros [i Hi]. pose proof (rp_tab_dom _ _ _ R _ _ Hi). exists (Z.to_nat i). rewrite Z2Nat.id by lia. split; [|done].
    apply elem_of_seq. unfold NPDENTRIES. lia.
Qed.

Lemma tables_few m pd A : rep m pd A -> sane pd A -> (length (tables A) <= 1024)%nat.
Proof.
  intros R Sn. rewrite <- (Permutation_length (tables_listed _ _ _ R Sn)). etransitivity; [apply omap_length|]. by rewrite length_seq.
Qed.

(** [freevm] gives every page of the address space back. *)
Lemma freevm_as s pd A free rest : space_inv s pd A free rest -> can_alloc s ->
  exists s' free', freevm pd s = Ret tt s' /\ can_alloc s' /\ same_rest s s' /\ kmem_inv s' free' /\
    free' ≡ₚ owned pd A ++ free /\ untouched free' (k_mem s) (k_mem s').
Proof.
  intros V Hc. pose proof (si_sane _ _ _ _ _ V) as Sn. unfold freevm.
  assert (pd ∈ owned pd A) as Hpd by (rewrite owned_perm; left).
  pose proof (sane_align _ _ _ Sn Hpd) as Hpa. rewrite (proj2 (Z.eqb_neq pd 0)) by klia.
  destruct (deallocuvm_as s pd A free rest KERNBASE 0 V Hc) as (s1 & A1 & free1 & E1 & S1 & V1 & EA); [klia | done |].
  rewrite (bind_Ret _ _ _ _ _ E1). change ((0 + 4095) / 4096) with 0 in EA. change ((KERNBASE + 4095) / 4096) with UPAGES in EA.
  pose proof (si_sane _ _ _ _ _ V1) as Sn1. pose proof (si_rep _ _ _ _ _ V1) as R1.
  assert (uframes A1 = []) as Eu by (rewrite EA; apply (drop_user _ _ _ (si_rep _ _ _ _ _ V))).
  pose proof (tables_listed _ _ _ R1 Sn1) as Pt. pose proof (si_nodup _ _ _ _ _ V1) as N. rewrite owned_perm, Eu, app_nil_r in N.
  pose proof (si_ok _ _ _ _ _ V1) as O. rewrite owned_perm, Eu, app_nil_r in O. unfold meta in N, O. apply Forall_cons in O as [O1 O2].
  cbn [app] in N. apply NoDup_cons in N as [N1 N2]. rewrite app_assoc in N2. apply NoDup_app in N2 as (N2 & _).
  destruct (free_tables pd (seq 0 NPDENTRIES) s1 free1 (as_tab A1) (proj1 Hpa) (si_kmem _ _ _ _ _ V1) (sh_alloc _ _ _ _ _ _ _ S1))
    as (s2 & E2 & Hc2 & Hs2 & K2 & U2).
  { intros i Hi%elem_of_seq. apply (rp_tab _ _ _ R1). unfold NPDENTRIES in Hi. lia. }
  { intros i Hi%elem_of_seq. unfold NPDENTRIES in Hi. lia. }
  { by rewrite Pt. } { by rewrite Pt. } { rewrite Pt. intros Hin. apply N1. apply elem_of_app. by left. }
  fold (free_table pd). rewrite (bind_Ret _ _ _ _ _ E2). set (l := omap _ _) in *. clearbody l.
  destruct (kfree_free pd s2 (rev l ++ free1) K2 Hc2 O1) as (s3 & E3 & Hc3 & Hs3 & U3 & K3).
  { rewrite <- Permutation_rev, Pt. intros Hin. apply N1. rewrite app_assoc. apply elem_of_app. by left. }
  exists s3, (pd :: rev l ++ free1). rewrite E3.
  assert (meta pd A = pd :: tables A1) as Em by (unfold meta, tables; by rewrite (sh_tab _ _ _ _ _ _ _ S1)).
  assert (pd :: rev l ++ free1 ≡ₚ meta pd A ++ free1) as Pm by (rewrite Em, <- Permutation_rev, Pt; done).
  split_and!; [done | done | | done | |].
  - eapply same_rest_trans; [apply S1|]. by eapply same_rest_trans.
  - rewrite Pm, owned_perm. pose proof (sh_pages _ _ _ _ _ _ _ S1) as P. rewrite Eu in P. cbn [app] in P. rewrite P. by rewrite app_assoc.
  - eapply untouched_trans; [eapply untouched_mono; [|apply S1]|eapply untouched_trans; [eapply untouched_mono; [|exact U2]|eapply untouched_mono; [|exact U3]]].
    + intros x. by rewrite Pm.
    + intros x Hx. rewrite Pm, Em. right. apply elem_of_app. left. by rewrite <- Pt.
    + intros x ->%list_elem_of_singleton. left.
Qed.

(** ** [setupkvm] *)

Lemma rep_empty m pd : pd mod 4096 = 0 -> rep (KString.memset m pd 0 PGSIZE) pd (mkAs ∅ ∅).
Proof.
  intros Hpd. split; cbn [as_tab as_map]; [done | | by intros | by intros | by intros].
  intros i Hi. rewrite lookup_empty.
  assert (forall x, pd <= x < pd + 4096 -> KString.memset m pd 0 PGSIZE x = 0) as Hz.
  { intros x Hx. rewrite memset_spec by klia. destruct (in_range pd PGSIZE x) eqn:E; [done|]. apply in_range_false in E. klia. }
  unfold ld32. rewrite !Hz by lia. done.
Qed.

(** A new directory. *)
Lemma new_dir s pd free rest : kmem_inv s free -> page_ok pd -> NoDup (pd :: free ++ rest) ->
  space_inv (set_k_mem (KString.memset (k_mem s) pd 0 PGSIZE) s) pd (mkAs ∅ ∅) free rest.
Proof.
  intros K Hp N. split.
  - apply kmem_write; [done | apply memset_wf; [apply K | klia] |]. intros q x Hq Hx. symmetry.
    apply (untouched_memset (k_mem s) pd 0). intros y ->%list_elem_of_singleton.
    pose proof (proj1 (Forall_forall _ _) (free_aligned _ _ K) q Hq). destruct (ok_range _ Hp).
    assert (q <> pd); [|zlia]. intros ->. apply NoDup_cons in N as [N _]. apply N. apply elem_of_app. by left.
  - apply rep_empty. by apply ok_range.
  - rewrite owned_perm. by apply Forall_singleton.
  - done.
Qed.

Definition krow_size (r : Z * Z * Z * Z) : Z := let '(_, ps, pe, _) := r in u32 (pe - ps).
Definition map_row (M : gmap Z (Z * Z)) (r : Z * Z * Z * Z) : gmap Z (Z * Z) :=
  let '(virt, ps, _, perm) := r in map_pages (Z.to_nat (krow_size r / 4096)) (virt / 4096) ps perm M.

(** A row of kernel pages that are not mapped yet. *)
Definition row_ok (M : gmap Z (Z * Z)) (r : Z * Z * Z * Z) : Prop :=
  let '(virt, ps, _, perm) := r in
  virt mod 4096 = 0 /\ krow_size r mod 4096 = 0 /\ 0 < krow_size r /\ KERNBASE <= virt /\ virt + krow_size r <= 4294967296 /\
  ps mod 4096 = 0 /\ 0 <= ps /\ ps + krow_size r <= 4294967296 /\ 0 <= perm < 4096 /\
  (forall j, virt / 4096 <= j < (virt + krow_size r) / 4096 -> M !! j = None).

Lemma map_row_as s pd A free rest virt ps pe perm : let r := (virt, ps, pe, perm) in
  space_inv s pd A free rest -> can_alloc s -> row_ok (as_map A) r ->
  exists z s' A' free', mappages pd virt (u32 (pe - ps)) ps perm s = Ret z s' /\ grown s pd A free s' A' free' /\
    space_inv s' pd A' free' rest /\ umap A' = umap A /\
    ((z = -1 /\ starved s' free') \/ (z = 0 /\ as_map A' = map_row (as_map A) r)).
Proof.
  intros r V Hc (H1 & H2 & H3 & H4 & H5 & H6 & H7 & H8 & H9 & H10). unfold map_row, r in *. cbn [krow_size] in *. clear r.
  set (sz := u32 (pe - ps)) in *. clearbody sz. unfold KERNBASE in H4. assert (UPAGES = 524288) as EU by done.
  set (n := Z.to_nat (sz / 4096 - 1)). set (q := virt / 4096) in *.
  assert (virt = 4096 * q) as Ev by (unfold q; zlia). assert (Z.of_nat n = sz / 4096 - 1) as En by (unfold n; zlia).
  rewrite mappages_loop. assert (PGROUNDDOWN virt = 4096 * q) as -> by (rewrite PGROUNDDOWN_eq; unfold PGSIZE; zlia).
  assert (PGROUNDDOWN (u32 (virt + sz - 1)) = 4096 * (q + Z.of_nat n)) as ->.
  { rewrite u32_small, PGROUNDDOWN_eq by lia. unfold PGSIZE. zlia. }
  replace (Z.to_nat (u32 (4096 * (q + Z.of_nat n) - 4096 * q) / PGSIZE)) with n by (unfold PGSIZE; zlia).
  destruct (map_kernel pd perm rest n s A free q ps) as (z & s1 & A1 & free1 & E & G & V1 & U & H); try done; try zlia.
  { intros j Hj. apply H10. zlia. }
  exists z, s1, A1, free1. split_and!; try done. destruct H as [[-> St]|[-> E1]]; [by left|]. right. split; [done|].
  rewrite E1. f_equal. unfold n. zlia.
Qed.

(** The loop over the rows: all are mapped, or the whole space is given back. *)
Definition map_rows (pd : Z) : Z * Z * Z * Z -> K (option Z) := fun '(virt, phys_start, phys_end, perm) =>
  r <- mappages pd virt (u32 (phys_end - phys_start)) phys_start perm ;;
  if r <? 0 then freevm pd ;; ret (Some 0) else ret None.

Fixpoint rows_ok (M : gmap Z (Z * Z)) (rows : list (Z * Z * Z * Z)) : Prop :=
  match rows with [] => True | r :: rows => row_ok M r /\ rows_ok (map_row M r) rows end.

Lemma setup_rows pd rest rows : forall s A free,
  space_inv s pd A free rest -> can_alloc s -> umap A = ∅ -> rows_ok (as_map A) rows ->
  exists r s' free', for_first rows (map_rows pd) s = Ret r s' /\ can_alloc s' /\ same_rest s s' /\ untouched (meta pd A ++ free) (k_mem s) (k_mem s') /\
    ((r = Some 0 /\ kmem_inv s' free' /\ free' ≡ₚ meta pd A ++ free /\ short s free (1026 - length (meta pd A))) \/
     (r = None /\ exists A', space_inv s' pd A' free' rest /\ meta pd A' ++ free' ≡ₚ meta pd A ++ free /\
        as_map A' = fold_left map_row rows (as_map A) /\ umap A' = ∅ /\ used_by s free s' free')).
Proof.
  induction rows as [|[[[virt ps] pe] perm] rows IH]; intros s A free V Hc Hu Hr.
  { exists None, s, free. split_and!; [done | done | apply same_rest_refl | apply untouched_refl |]. right. split; [done|]. exists A. split_and!; try done. by apply used_refl. }
  destruct Hr as [Hr1 Hr2]. destruct (map_row_as s pd A free rest virt ps pe perm V Hc Hr1) as (z & s1 & A1 & free1 & E & G & V1 & U & [[-> St]|[-> E1]]).
  - destruct (freevm_as s1 pd A1 free1 rest V1 (gr_alloc _ _ _ _ _ _ _ G)) as (s2 & free2 & E2 & Hc2 & Hs2 & K2 & P2 & U2).
    assert (free2 ≡ₚ meta pd A ++ free) as P.
    { rewrite P2, owned_perm. unfold uframes. rewrite U, Hu, map_to_list_empty. cbn [fmap list_fmap]. rewrite app_nil_r. apply G. }
    exists (Some 0), s2, free2. split.
    { apply for_first_found. unfold map_rows. rewrite (bind_Ret _ _ _ _ _ E). change (-1 <? 0) with true. cbv iota.
      by rewrite (bind_Ret _ _ _ _ _ E2). }
    split_and!; [done | eapply same_rest_trans; [apply G | done] | | left; split_and!; [done | done | done |]]; cycle 1.
    { eapply starved_short; [exact St | apply G |]. pose proof (tables_few _ _ _ (si_rep _ _ _ _ _ V1) (si_sane _ _ _ _ _ V1)).
      pose proof (Permutation_length (gr_pages _ _ _ _ _ _ _ G)) as Hl. unfold meta in *. rewrite !length_app in Hl. simpl in *. lia. }
    eapply untouched_trans; [apply G|]. eapply untouched_mono; [|exact U2]. intros p. by rewrite P.
  - rewrite <- E1 in Hr2. destruct (IH s1 A1 free1 V1 (gr_alloc _ _ _ _ _ _ _ G)) as (r & s2 & free2 & E2 & Hc2 & Hs2 & U2 & H2); [by rewrite U | done |].
    exists r, s2, free2. split.
    { erewrite for_first_next; [exact E2|]. unfold map_rows. by rewrite (bind_Ret _ _ _ _ _ E). }
    pose proof (gr_pages _ _ _ _ _ _ _ G) as P1. split_and!; [done | eapply same_rest_trans; [apply G | done] | |].
    + eapply untouched_trans; [apply G|]. eapply untouched_mono; [|exact U2]. intros p. by rewrite P1.
    + destruct H2 as [(-> & K2 & P2 & Sh)|(-> & A2 & V2 & P2 & E3 & U3 & Us)].
      { left. split_and!; [done | done | by rewrite P2 |]. eapply short_used; [exact Sh | apply G |].
        pose proof (Permutation_length P1) as Hl. rewrite !length_app in Hl.
        pose proof (tables_few _ _ _ (si_rep _ _ _ _ _ V1) (si_sane _ _ _ _ _ V1)). unfold meta in *. simpl in *. lia. }
      right. split; [done|]. exists A2. split_and!; [done | by rewrite P2 | | done | eapply used_trans; [apply G | done]]. rewrite E3, E1. done.
Qed.

(** The kernel's part of every address space. *)
Definition kernel_map : gmap Z (Z * Z) := fold_left map_row kmap ∅.

Lemma map_row_lookup M virt ps pe perm j : 0 <= krow_size (virt, ps, pe, perm) ->
  map_row M (virt, ps, pe, perm) !! j =
    if (virt / 4096 <=? j) && (j <? virt / 4096 + krow_size (virt, ps, pe, perm) / 4096)
    then Some (P2V (ps + 4096 * (j - virt / 4096)), Z.lor perm PTE_P) else M !! j.
Proof. intros H. unfold map_row. rewrite map_pages_lookup, Z2Nat.id; [done | zlia]. Qed.

Lemma kmap_sizes :
  krow_size (KERNBASE, 0, EXTMEM, PTE_W) = 1048576 /\
  krow_size (KERNLINK, V2P KERNLINK, V2P sym_data, 0) = sym_data - KERNLINK /\
  krow_size (sym_data, V2P sym_data, PHYSTOP, PTE_W) = KERNBASE + PHYSTOP - sym_data /\
  krow_size (DEVSPACE, DEVSPACE, 0, PTE_W) = 33554432.
Proof.
  pose proof lk_range. unfold krow_size, V2P, KERNLINK, KERNBASE, EXTMEM, PHYSTOP, DEVSPACE in *. split_and!; zlia.
Qed.

(** Four ranges one after the other. *)
Lemma kernel_map_cases j : kernel_map !! j =
  if (524288 <=? j) && (j <? 524544) then Some (4096 * j, 3) else
  if (524544 <=? j) && (j <? sym_data / 4096) then Some (4096 * j, 1) else
  if (sym_data / 4096 <=? j) && (j <? 581632) then Some (4096 * j, 3) else
  if (1040384 <=? j) && (j <? 1048576) then Some (P2V (4096 * j), 3) else None.
Proof.
  pose proof lk_range as Hr. pose proof lk_data as Hd. destruct kmap_sizes as (E1 & E2 & E3 & E4). unfold kernel_map, kmap in *.
  cbn [fold_left]. rewrite !map_row_lookup by (rewrite ?E1, ?E2, ?E3, ?E4; unfold KERNLINK in *; lia).
  rewrite E1, E2, E3, E4. clear E1 E2 E3 E4. rewrite lookup_empty. unfold KERNLINK, KERNBASE, EXTMEM, PHYSTOP, DEVSPACE, PTE_W, PTE_P in *.
  change (2147483648 / 4096) with 524288. change ((2147483648 + 1048576) / 4096) with 524544. change (4261412864 / 4096) with 1040384.
  change (Z.lor 2 1) with 3. change (Z.lor 0 1) with 1. unfold V2P, P2V, KERNBASE.
  set (d := sym_data / 4096) in *. assert (sym_data = 4096 * d) as Ed by (unfold d; zlia). clearbody d. rewrite Ed in *.
  replace (524544 + (4096 * d - (2147483648 + 1048576)) / 4096) with d by zlia.
  replace (d + (2147483648 + 234881024 - 4096 * d) / 4096) with 581632 by zlia.
  change (524288 + 1048576 / 4096) with 524544. change (1040384 + 33554432 / 4096) with 1048576.
  destruct (Z.lt_ge_cases j 524288); [by zbool|]. destruct (Z.lt_ge_cases j 524544); [zbool; do 2 f_equal; zlia|].
  destruct (Z.lt_ge_cases j d); [zbool; do 2 f_equal; zlia|]. destruct (Z.lt_ge_cases j 581632); [zbool; do 2 f_equal; zlia|].
  destruct (Z.lt_ge_cases j 1040384); [by zbool|]. destruct (Z.lt_ge_cases j 1048576); [zbool; do 2 f_equal; zlia | by zbool].
Qed.

Lemma kmap_rows_ok : rows_ok ∅ kmap.
Proof.
  pose proof lk_range as Hr. pose proof lk_data as Hd. destruct kmap_sizes as (E1 & E2 & E3 & E4). unfold kmap. cbn [rows_ok].
  assert (forall M virt ps pe perm, virt mod 4096 = 0 /\ krow_size (virt, ps, pe, perm) mod 4096 = 0 /\ 0 < krow_size (virt, ps, pe, perm) /\
    KERNBASE <= virt /\ virt + krow_size (virt, ps, pe, perm) <= 4294967296 /\
    ps mod 4096 = 0 /\ 0 <= ps /\ ps + krow_size (virt, ps, pe, perm) <= 4294967296 /\ 0 <= perm < 4096 ->
    (forall j, virt / 4096 <= j < (virt + krow_size (virt, ps, pe, perm)) / 4096 -> M !! j = None) ->
    row_ok M (virt, ps, pe, perm)) as Hrow by (intros; unfold row_ok; tauto).
  unfold KERNLINK, KERNBASE, EXTMEM, PHYSTOP, DEVSPACE, PTE_W in *.
  split; [|split; [|split; [|split; [|exact I]]]]; apply Hrow; rewrite ?E1, ?E2, ?E3, ?E4; clear Hrow;
    try (unfold KERNBASE, V2P, KERNBASE in *; zlia).
  all: intros j Hj; rewrite ?map_row_lookup by (rewrite ?E1, ?E2, ?E3, ?E4; lia); rewrite ?E1, ?E2, ?E3, ?E4, lookup_empty.
  all: repeat match goal with
    | |- context [?a <=? ?b] => destruct (Z.leb_spec a b)
    | |- context [?a <? ?b] => destruct (Z.ltb_spec a b)
    end; cbn [andb]; try done; exfalso; zlia.
Qed.

Lemma umap_kernel A : as_map A = kernel_map -> umap A = ∅.
Proof.
  intros E. unfold umap. rewrite E. apply map_empty. intros j. apply map_lookup_filter_None. right. intros x Hx Hj.
  rewrite kernel_map_cases in Hx. simpl in Hj. change UPAGES with 524288 in Hj. pose proof lk_range. pose proof lk_data.
  unfold KERNLINK, KERNBASE, EXTMEM in *. revert Hx. assert (524544 < sym_data / 4096) by zlia. by zbool.
Qed.

(** [setupkvm]: a new address space with exactly the kernel's mappings, or 0 with nothing lost. *)
Lemma setupkvm_as s free rest : kmem_inv s free -> NoDup (free ++ rest) -> can_alloc s ->
  exists r s' free', setupkvm s = Ret r s' /\ can_alloc s' /\ same_rest s s' /\ untouched free (k_mem s) (k_mem s') /\
    ((r = 0 /\ kmem_inv s' free' /\ free' ≡ₚ free /\ short s free 1026) \/
     (r <> 0 /\ exists A, space_inv s' r A free' rest /\ as_map A = kernel_map /\ meta r A ++ free' ≡ₚ free /\ used_by s free s' free')).
Proof.
  intros K N Hc. unfold setupkvm. destruct (kalloc_free s free K Hc) as (pd & s1 & Hk & Hc1 & Hs1 & Hm1 & Hr).
  rewrite (bind_Ret _ _ _ _ _ Hk). destruct Hr as [(-> & K1 & St & Us1)|(free1 & -> & Hz & Hp & K1 & Us1)].
  { exists 0, s1, free. split_and!; [done | done | done | rewrite Hm1; apply untouched_refl |].
    left. split_and!; [done | done | done |]. eapply starved_short; [done | done | lia]. }
  rewrite (proj2 (Z.eqb_neq pd 0) Hz). unfold upd_mem. rewrite bind_modify.
  change (DEVSPACE <? P2V PHYSTOP) with false. cbv iota. fold (map_rows pd).
  pose proof (new_dir s1 pd free1 rest K1 Hp N) as V1. set (s2 := set_k_mem _ s1) in *.
  destruct (setup_rows pd rest kmap s2 (mkAs ∅ ∅) free1 V1 Hc1) as (r & s3 & free3 & E3 & Hc3 & Hs3 & U3 & H3); [done | apply kmap_rows_ok |].
  rewrite (bind_Ret _ _ _ _ _ E3). change (meta pd (mkAs ∅ ∅) ++ free1) with (pd :: free1) in *.
  assert (untouched (pd :: free1) (k_mem s) (k_mem s3)) as U.
  { eapply untouched_trans; [|exact U3]. eapply (untouched_mono [pd]); [intros x ->%list_elem_of_singleton; left|].
    rewrite <- Hm1. apply untouched_memset. }
  assert (same_rest s s3) as Hs by (eapply same_rest_trans; [exact Hs1|]; eapply same_rest_trans; [apply same_rest_mem | exact Hs3]).
  destruct H3 as [(-> & K3 & P3 & Sh)|(-> & A & V3 & P3 & E & _ & Us3)].
  - exists 0, s3, free3. split_and!; [reflexivity | exact Hc3 | exact Hs | exact U |]. left. split_and!; [done | exact K3 | exact P3 |].
    eapply short_used; [exact Sh | exact Us1 |]. simpl. lia.
  - exists pd, s3, free3. split_and!; [reflexivity | exact Hc3 | exact Hs | exact U |]. right. split; [exact Hz|]. exists A.
    split_and!; [exact V3 | exact E | exact P3 | by eapply used_trans].
Qed.
End world.
