(* ===== verification/Uvm.v ===== *)
(** * User memory

    What the calls of vm.c do to the memory of a process, as an abstract address space
    (AddrSpace.v): [allocuvm] adds zeroed pages, [deallocuvm] and [freevm] give pages back,
    [copyuvm] makes a copy that shares nothing, and a call that runs out of memory leaves
    the mappings as they were. *)

From S2P Require Import Prelude Monad CString KState Sched Kalloc Bio Log Fs Vm Paging AddrSpace.

Local Open Scope kernel_scope.

Section uvm.
Context `{LK : Linked}.

(** ** Growing *)

(** The body of the loop of [allocuvm]. *)
Definition alloc_step (pgdir oldsz newsz : Z) : Z -> K (Z + Z) := fun a =>
  if a <? newsz then
    mem <- kalloc ;;
    if mem =? 0 then
      cprintf "allocuvm out of memory" [] ;;
      deallocuvm pgdir newsz oldsz ;;
      ret (inr 0)
    else
      upd_mem (fun m => KString.memset m mem 0 PGSIZE) ;;
      r <- mappages pgdir a PGSIZE (V2P mem) (Z.lor PTE_W PTE_U) ;;
      if r <? 0 then
        cprintf "allocuvm out of memory (2)" [] ;;
        deallocuvm pgdir newsz oldsz ;;
        kfree mem ;;
        ret (inr 0)
      else ret (inl (u32 (a + PGSIZE)))
  else ret (inr newsz).

(** The pages from [lo] to [hi] are new: zeroed, from the free list, for the user to write. *)
Record fresh (m' : mem) (free : list Z) (lo hi : Z) (A A' : aspace) : Prop := {
  fr_new j : lo <= j < hi -> exists p, as_map A' !! j = Some (p, 7) /\ p ∈ free /\ forall x, p <= x < p + 4096 -> m' x = 0;
  fr_old j : ~ lo <= j < hi -> as_map A' !! j = as_map A !! j
}.

(** A message on the console. *)
Lemma cprintf_as f args s pd A free rest : space_inv s pd A free rest -> can_alloc s ->
  exists s', cprintf f args s = Ret tt s' /\ space_inv s' pd A free rest /\ can_alloc s' /\ same_rest s s' /\ k_mem s' = k_mem s.
Proof.
  intros V Hc. eexists. split; [apply cprintf_eq, Hc|]. split_and!; [destruct V as [[] ]; by split | done | | done].
  exists (k_mem s), (k_freelist s), (k_ctable s), (k_klog s ++ [(f, args)]). by destruct s.
Qed.

(** [kfree] of a page in hand. *)
Lemma kfree_as s pd A free rest p : space_inv s pd A free (p :: rest) -> can_alloc s -> page_ok p ->
  exists s', kfree p s = Ret tt s' /\ can_alloc s' /\ same_rest s s' /\ untouched [p] (k_mem s) (k_mem s') /\ space_inv s' pd A (p :: free) rest.
Proof.
  intros V Hc Hp. pose proof (meta_aligned _ _ _ _ _ V) as Hm. destruct V as [K R O N]. destruct (NoDup_held _ _ _ _ N) as [N1 N2].
  destruct (kfree_free p s free K Hc Hp N2) as (s1 & E & Hc1 & Hs1 & U1 & K1). exists s1. split_and!; try done. split; [done | | done |].
  - eapply rep_ext; [exact R|]. intros t k Ht Hk. apply (untouched_word [p]); try done.
    + apply Forall_singleton. by apply ok_range.
    + by apply (proj1 (Forall_forall _ _) Hm).
    + intros ->%list_elem_of_singleton. apply N1. rewrite owned_perm. apply elem_of_app. by left.
  - eapply NoDup_perm; [|exact N]. solve_Permutation.
Qed.

(** The pages of a failed call are given back: everything from the old size on is unmapped. *)
Lemma failed_step s pd A free rest oldsz newsz f :
  space_inv s pd A free rest -> can_alloc s -> 0 <= oldsz < newsz -> newsz < KERNBASE ->
  exists s1 s' A' free', cprintf f [] s = Ret tt s1 /\ deallocuvm pd newsz oldsz s1 = Ret oldsz s' /\ shrunk s pd A free s' A' free' /\
    space_inv s' pd A' free' rest /\ A' = drop_pages ((oldsz + 4095) / 4096) ((newsz + 4095) / 4096) A.
Proof.
  intros V Hc Ho Hn. destruct (cprintf_as f [] s pd A free rest V Hc) as (s1 & E1 & V1 & Hc1 & Hs1 & Hm1).
  destruct (deallocuvm_as s1 pd A free rest newsz oldsz V1 Hc1) as (s2 & A2 & free2 & E2 & S2 & V2 & EA); [lia | lia |].
  exists s1, s2, A2, free2. split_and!; try done.
  destruct S2 as [? R2 T2 P2 F2 M2]. split; try done; [by eapply same_rest_trans | by rewrite <- Hm1].
Qed.

(** What a call on an address space leaves: the pages moved between it and the free list. *)
Record moved (s : kst) (pd : Z) (A : aspace) (free rest : list Z) (s' : kst) (A' : aspace) (free' : list Z) : Prop := {
  mv_inv : space_inv s' pd A' free' rest;
  mv_alloc : can_alloc s';
  mv_rest : same_rest s s';
  mv_pages : owned pd A' ++ free' ≡ₚ owned pd A ++ free
}.

Lemma shrunk_moved s pd A free rest s' A' free' :
  shrunk s pd A free s' A' free' -> space_inv s' pd A' free' rest -> moved s pd A free rest s' A' free'.
Proof.
  intros [C R T P F M] V. split; try done. rewrite !owned_perm. unfold meta, tables. rewrite T, <- !app_assoc. by rewrite P.
Qed.

(** What a failed page leaves. *)
Definition page_failed (s : kst) (pd : Z) (A : aspace) (free rest : list Z) (lo hi : Z) (s' : kst) (A' : aspace) (free' : list Z) : Prop :=
  moved s pd A free rest s' A' free' /\ as_map A' = as_map (drop_pages lo hi A) /\
  untouched (meta pd A' ++ free') (k_mem s) (k_mem s').

(** Nothing is left in frames that were not there before. *)
Lemma failed_pages s pd A free rest A' free' x :
  space_inv s pd A free rest -> owned pd A' ++ free' ≡ₚ owned pd A ++ free -> as_map A' ⊆ as_map A ->
  x ∈ meta pd A ++ free -> x ∈ meta pd A' ++ free'.
Proof.
  intros V P Hs Hx. pose proof (si_nodup _ _ _ _ _ V) as N. rewrite owned_perm, <- app_assoc in N.
  assert (x ∈ owned pd A' ++ free') as H.
  { rewrite P, owned_perm. rewrite !elem_of_app in *. tauto. }
  rewrite owned_perm, !elem_of_app in H. destruct H as [[H|H]|H]; [apply elem_of_app; by left | | apply elem_of_app; by right]. exfalso.
  apply elem_of_uframes in H as (q & fl & Hq & H). eapply lookup_weaken in H; [|done].
  assert (x ∈ uframes A) as Hu by (apply elem_of_uframes; eauto). apply NoDup_app in N as (_ & N1 & N2). apply NoDup_app in N2 as (_ & N2 & _).
  apply elem_of_app in Hx as [Hx|Hx]; [apply (N1 x Hx) | apply (N2 x Hu)]; apply elem_of_app; by left.
Qed.

Lemma drop_subseteq lo hi A : as_map (drop_pages lo hi A) ⊆ as_map A.
Proof. apply map_filter_subseteq. Qed.

Lemma held_outside s pd A free rest p : space_inv s pd A free (p :: rest) -> p ∉ meta pd A /\ p ∉ free.
Proof.
  intros V. destruct (NoDup_held _ _ _ _ (si_nodup _ _ _ _ _ V)) as [N1 N2]. split; [|done].
  intros Hin. apply N1. rewrite owned_perm. apply elem_of_app. by left.
Qed.

Lemma all_aligned s pd A free rest : space_inv s pd A free rest -> Forall (fun q => q mod 4096 = 0) (meta pd A ++ free).
Proof. intros V. apply Forall_app. split; [by eapply meta_aligned | eapply free_aligned, V]. Qed.

(** Bytes of a page in hand survive the making of page tables. *)
Lemma held_kept s pd A free rest s' p x : space_inv s pd A free (p :: rest) -> page_ok p ->
  untouched (meta pd A ++ free) (k_mem s) (k_mem s') -> p <= x < p + 4096 -> k_mem s' x = k_mem s x.
Proof.
  intros V Hp U Hx. apply U. destruct (held_outside _ _ _ _ _ _ V). apply (outside_page _ p); [by eapply all_aligned | by apply ok_range | | done].
  rewrite elem_of_app. tauto.
Qed.

(** Filling a page in hand. *)
Lemma fill_page s pd A free rest p m' : space_inv s pd A free (p :: rest) -> page_ok p -> mem_wf m' -> untouched [p] (k_mem s) m' ->
  space_inv (set_k_mem m' s) pd A free (p :: rest).
Proof.
  intros V Hp Hw U. destruct (held_outside _ _ _ _ _ _ V). eapply space_write; [done | done | exact U | |].
  - apply Forall_singleton. by apply ok_range.
  - by intros x ->%list_elem_of_singleton.
Qed.

Lemma memset_zero m p x : p <= x < p + 4096 -> KString.memset m p 0 PGSIZE x = 0.
Proof. intros H. rewrite memset_spec by klia. destruct (in_range p PGSIZE x) eqn:E; [done|]. apply in_range_false in E. klia. Qed.

(** ** A page of the free list, filled and mapped *)

Record mapped_page (s : kst) (pd : Z) (A : aspace) (free rest : list Z) (q p fl : Z) (fill : mem -> Z -> mem) (s' : kst) (A' : aspace) (free' : list Z) : Prop := {
  mp_moved : moved s pd A free rest s' A' free';
  mp_map : as_map A' = <[q := (p, fl)]> (as_map A);
  mp_page : p ∈ free /\ page_ok p /\ p ∉ meta pd A' ++ free';
  mp_fill x : p <= x < p + 4096 -> k_mem s' x = fill (k_mem s) p x;
  mp_mem : untouched (meta pd A ++ free) (k_mem s) (k_mem s');
  mp_in x : x ∈ meta pd A' ++ free' -> x ∈ meta pd A ++ free;
  mp_sub x : x ∈ free' -> x ∈ free;
  mp_used : used_by s free s' free';
  mp_few : (length free <= 2 + length free')%nat
}.

(** There was a page but none for its page table. *)
Record stranded (s : kst) (pd : Z) (A : aspace) (free rest : list Z) (p : Z) (s' : kst) (free' : list Z) : Prop := {
  sd_inv : space_inv s' pd A free' (p :: rest);
  sd_alloc : can_alloc s';
  sd_rest : same_rest s s';
  sd_pages : p :: free' ≡ₚ free;
  sd_ok : page_ok p;
  sd_mem : untouched (meta pd A ++ free) (k_mem s) (k_mem s')
}.

(** The page in hand goes back too. *)
Lemma alloc_unmapped s pd A free rest oldsz newsz p s3 free3 :
  space_inv s pd A free rest -> stranded s pd A free rest p s3 free3 -> 0 <= oldsz < newsz -> newsz < KERNBASE ->
  exists s', (cprintf "allocuvm out of memory (2)" [] ;; deallocuvm pd newsz oldsz ;; kfree p ;; ret (inr 0 : Z + Z)) s3 = Ret (inr 0) s' /\
    exists A' free', page_failed s pd A free rest ((oldsz + 4095) / 4096) ((newsz + 4095) / 4096) s' A' free'.
Proof.
  intros V [V3 Hc3 Hs3 P3 Hp U3] Ho Hn.
  destruct (failed_step s3 pd A free3 _ oldsz newsz "allocuvm out of memory (2)" V3 Hc3 Ho Hn) as (s4 & s5 & A5 & free5 & E4 & E5 & S5 & V5 & EA).
  destruct (kfree_as s5 pd A5 free5 rest p V5 (sh_alloc _ _ _ _ _ _ _ S5) Hp) as (s6 & E6 & Hc6 & Hs6 & U6 & V6).
  exists s6. split; [by rewrite (bind_Ret _ _ _ _ _ E4), (bind_Ret _ _ _ _ _ E5), (bind_Ret _ _ _ _ _ E6)|].
  exists A5, (p :: free5). destruct S5 as [_ R5 T5 P5 F5 M5]. assert (meta pd A5 = meta pd A) as Eme by (unfold meta, tables; by rewrite T5).
  assert (owned pd A5 ++ p :: free5 ≡ₚ owned pd A ++ free) as P.
  { rewrite !owned_perm, Eme. transitivity (p :: meta pd A ++ uframes A5 ++ free5); [solve_Permutation|]. rewrite P5, <- P3. solve_Permutation. }
  split; [split; try done | split; [by rewrite EA|]].
  - eapply same_rest_trans; [exact Hs3|]. by eapply same_rest_trans.
  - eapply untouched_trans; [|eapply untouched_trans].
    + eapply untouched_mono; [|exact U3]. intros x Hx. eapply failed_pages; [exact V | exact P | rewrite EA; apply drop_subseteq | exact Hx].
    + eapply untouched_mono; [|exact M5]. intros x. rewrite Eme, !elem_of_app, elem_of_cons. tauto.
    + eapply untouched_mono; [|exact U6]. intros x ->%list_elem_of_singleton. apply elem_of_app. right. left.
Qed.

Section fill.
Context (fill : mem -> Z -> mem).
Hypothesis fill_wf : forall m p, mem_wf m -> mem_wf (fill m p).
Hypothesis fill_page_only : forall m p, mem_wf m -> untouched [p] m (fill m p).

Lemma take_page s pd A free rest q perm :
  space_inv s pd A free rest -> can_alloc s -> 0 <= perm < 4096 -> 0 <= q < UPAGES -> as_map A !! q = None ->
  exists p s1, kalloc s = Ret p s1 /\
    ((p = 0 /\ space_inv s1 pd A free rest /\ can_alloc s1 /\ same_rest s s1 /\ k_mem s1 = k_mem s /\ short s free 1) \/
     (p <> 0 /\ exists r s3, mappages pd (4096 * q) PGSIZE (V2P p) perm (set_k_mem (fill (k_mem s1) p) s1) = Ret r s3 /\
       ((r = -1 /\ short s free 2 /\ exists free3, stranded s pd A free rest p s3 free3) \/
        (r = 0 /\ exists A3 free3, mapped_page s pd A free rest q p (Z.lor perm PTE_P) fill s3 A3 free3)))).
Proof.
  intros V Hc Hperm Hq Hun. destruct (kalloc_as s pd A free rest V Hc) as (p & s1 & Hk & Hc1 & Hs1 & Hm1 & Hr). exists p, s1. split; [done|].
  destruct Hr as [(-> & V1 & St & Us1)|(free1 & -> & Hz & Hp & V1 & Us1)].
  { left. split_and!; try done. eapply starved_short; [done | done | lia]. }
  right. split; [done|]. set (s2 := set_k_mem _ s1). assert (mem_wf (k_mem s1)) as Hw by apply V1.
  assert (space_inv s2 pd A free1 (p :: rest)) as V2 by (apply fill_page; auto).
  destruct (mappages_page s2 pd A free1 rest q p perm V2 Hc1 Hp Hperm Hq Hun) as (r & s3 & A3 & free3 & E3 & G3 & Hfew & H3). exists r, s3. split; [done|].
  assert (untouched (meta pd A ++ p :: free1) (k_mem s) (k_mem s2)) as U2.
  { eapply (untouched_mono [p]); [intros x ->%list_elem_of_singleton; apply elem_of_app; right; left|]. rewrite <- Hm1. by apply fill_page_only. }
  assert (untouched (meta pd A ++ p :: free1) (k_mem s) (k_mem s3)) as U3.
  { eapply untouched_trans; [exact U2|]. eapply untouched_mono; [|apply G3]. intros x. rewrite !elem_of_app, elem_of_cons. tauto. }
  assert (same_rest s s3) as Hs3 by (eapply same_rest_trans; [exact Hs1|]; eapply same_rest_trans; [apply same_rest_mem | apply G3]).
  assert (used_by s (p :: free1) s3 free3) as Us3 by (eapply used_trans; [exact Us1 | apply G3]).
  pose proof (gr_pages _ _ _ _ _ _ _ G3) as Pm. destruct H3 as [(-> & -> & V3 & St)|(-> & Em & V3)].
  - apply Permutation_app_inv_l in Pm. left. split; [done|]. split; [|exists free3; split; try done; [apply G3 | by rewrite Pm]].
    eapply starved_short; [exact St | exact Us3 |]. rewrite Pm. simpl. lia.
  - right. split; [done|]. exists A3, free3. assert (uframes A3 ≡ₚ p :: uframes A) as Pu.
    { change (uframes A3) with (uframes (mkAs (as_tab A) (as_map A3))). rewrite Em.
      change (uframes (add_page q p (Z.lor perm PTE_P) A) ≡ₚ p :: uframes A). rewrite uframes_add by done. unfold uown. by rewrite (proj2 (Z.ltb_lt _ _)) by lia. }
    split; try done; [split; try done; [apply G3|] | split_and!; [left | done |] | | | | simpl; lia].
    + rewrite !owned_perm, Pu. transitivity (p :: uframes A ++ meta pd A3 ++ free3); [solve_Permutation|]. rewrite Pm. solve_Permutation.
    + rewrite Pm. destruct (held_outside _ _ _ _ _ _ V2). rewrite elem_of_app. tauto.
    + intros x Hx. rewrite (held_kept s2 pd A free1 rest s3 p x V2 Hp (gr_mem _ _ _ _ _ _ _ G3) Hx). by rewrite <- Hm1.
    + intros x Hx. rewrite Pm in Hx. rewrite elem_of_app in *. rewrite elem_of_cons. tauto.
    + intros x Hx. right. by apply (gr_free _ _ _ _ _ _ _ G3).
Qed.
End fill.

Definition zero_page (m : mem) (p : Z) : mem := KString.memset m p 0 PGSIZE.

(** [allocuvm]: one page more, mapped and zeroed, or not enough memory. *)
Lemma alloc_page s pd A free rest oldsz newsz q :
  space_inv s pd A free rest -> can_alloc s -> 0 <= oldsz -> newsz < KERNBASE -> (oldsz + 4095) / 4096 <= q -> 4096 * q < newsz ->
  as_map A !! q = None ->
  exists r s' A' free', alloc_step pd oldsz newsz (4096 * q) s = Ret r s' /\
    ((r = inr 0 /\ page_failed s pd A free rest ((oldsz + 4095) / 4096) ((newsz + 4095) / 4096) s' A' free' /\ short s free 2) \/
     (r = inl (4096 * (q + 1)) /\ exists p, mapped_page s pd A free rest q p 7 zero_page s' A' free')).
Proof.
  intros V Hc Ho Hn Hlo Hq Hun. assert (UPAGES = 524288) as EU by done. assert (oldsz < newsz /\ 0 <= q) as [Hlt H0] by zlia.
  assert (newsz < 2147483648) as Hk by (unfold KERNBASE in Hn; lia).
  unfold alloc_step. rewrite (proj2 (Z.ltb_lt _ _) Hq).
  destruct (take_page zero_page) with (s := s) (pd := pd) (A := A) (free := free) (rest := rest) (q := q) (perm := Z.lor PTE_W PTE_U)
    as (p & s1 & E1 & H1); try done; [intros; apply memset_wf; [done | klia] | intros; apply untouched_memset | lia |].
  rewrite (bind_Ret _ _ _ _ _ E1). destruct H1 as [(-> & V1 & Hc1 & Hs1 & Hm1 & Sh)|(Hz & r & s3 & E3 & H3)].
  - change (0 =? 0) with true. cbv iota.
    destruct (failed_step s1 pd A free rest oldsz newsz "allocuvm out of memory" V1 Hc1 (conj Ho Hlt) Hn) as (s2 & s3 & A3 & free3 & E2 & E3 & S3 & V3 & EA).
    rewrite (bind_Ret _ _ _ _ _ E2), (bind_Ret _ _ _ _ _ E3). exists (inr 0), s3, A3, free3. split; [done|]. left. split; [done|].
    split; [|destruct Sh as (k & ? & ?); exists k; split; [lia | done]]. pose proof (shrunk_moved _ _ _ _ _ _ _ _ S3 V3) as [_ Hc3 Hs3 P3].
    destruct S3 as [_ _ T3 _ F3 M3]. assert (meta pd A3 = meta pd A) as Em by (unfold meta, tables; by rewrite T3).
    split; [|split; [by rewrite EA | by rewrite <- Hm1, Em]]. split; try done. by eapply same_rest_trans.
  - rewrite (proj2 (Z.eqb_neq p 0) Hz). unfold upd_mem. rewrite bind_modify. fold (zero_page (k_mem s1) p). rewrite (bind_Ret _ _ _ _ _ E3).
    destruct H3 as [(-> & Sh & free3 & D)|(-> & A3 & free3 & Mp)].
    + change (-1 <? 0) with true. cbv iota. destruct (alloc_unmapped s pd A free rest oldsz newsz p s3 free3 V D (conj Ho Hlt) Hn) as (s4 & E4 & A4 & free4 & F4).
      rewrite E4. exists (inr 0), s4, A4, free4. split; [done|]. by left.
    + change (0 <? 0) with false. cbv iota. exists (inl (4096 * (q + 1))), s3, A3, free3.
      split; [unfold ret; do 2 f_equal; rewrite u32_small; unfold PGSIZE; lia|]. right. split; [done|]. by exists p.
Qed.

Lemma space_moved_trans s pd A free rest s1 A1 free1 s2 A2 free2 :
  moved s pd A free rest s1 A1 free1 -> moved s1 pd A1 free1 rest s2 A2 free2 -> moved s pd A free rest s2 A2 free2.
Proof. intros [_ _ R1 P1] [V2 C2 R2 P2]. split; [done | done | by eapply same_rest_trans | by rewrite P2]. Qed.

Lemma drop_insert lo hi q e A A' : lo <= q < hi -> as_map A' = <[q := e]> (as_map A) -> as_map A !! q = None ->
  as_map (drop_pages lo hi A') = as_map (drop_pages lo hi A).
Proof.
  intros Hq E Hn. unfold drop_pages. cbn [as_map]. rewrite E, map_filter_insert_False by (simpl; lia). by rewrite delete_id.
Qed.

Lemma alloc_loop pd rest oldsz newsz n : let lo := (oldsz + 4095) / 4096 in let hi := (newsz + 4095) / 4096 in
  0 <= oldsz -> newsz < KERNBASE -> forall s A free q,
  space_inv s pd A free rest -> can_alloc s -> lo <= q -> q + Z.of_nat n = Z.max q hi -> (forall j, q <= j < hi -> as_map A !! j = None) ->
  exists r s' A' free', loop (S n) (alloc_step pd oldsz newsz) (4096 * q) s = Ret r s' /\
    ((r = newsz /\ moved s pd A free rest s' A' free' /\ fresh (k_mem s') free q hi A A' /\ untouched (meta pd A ++ free) (k_mem s) (k_mem s') /\
      used_by s free s' free' /\ (length free <= length free' + 2 * n)%nat) \/
     (r = 0 /\ page_failed s pd A free rest lo hi s' A' free' /\ short s free (2 * n))).
Proof.
  intros lo hi Ho Hn. induction n as [|n IH]; intros s A free q V Hc Hlo Hq Hun.
  - exists newsz, s, A, free. split.
    { apply loop_done. unfold alloc_step. rewrite (proj2 (Z.ltb_ge _ _)); [done|]. unfold hi in *. zlia. }
    left. split; [done|]. split; [by split; [| | apply same_rest_refl|]|]. split_and!; [split; [lia | done] | apply untouched_refl | by apply used_refl | lia].
  - assert (q < hi) as Hlt by lia. assert (4096 * q < newsz) as Hq4 by (unfold hi in *; zlia).
    destruct (alloc_page s pd A free rest oldsz newsz q V Hc Ho Hn Hlo Hq4 (Hun q ltac:(lia))) as (r & s1 & A1 & free1 & E & [(-> & F & Sh)|H]).
    { exists 0, s1, A1, free1. split; [by apply loop_done|]. right. split_and!; try done. destruct Sh as (k & Hk & Hs). exists k. split; [lia | done]. }
    destruct H as (-> & p & [M1 Em (Hp & Hok & Hpn) Hz U1 Hin Hsub Us Hfew]). rewrite (loop_next _ _ _ _ _ _ E).
    destruct (IH s1 A1 free1 (q + 1) (mv_inv _ _ _ _ _ _ _ _ M1) (mv_alloc _ _ _ _ _ _ _ _ M1)) as (r & s2 & A2 & free2 & E2 & H2); [lia | lia | |].
    { intros j Hj. rewrite Em, lookup_insert_ne by lia. apply Hun. lia. }
    exists r, s2, A2, free2. split; [done|]. destruct H2 as [(-> & M2 & F2 & U2 & Us2 & Hl2)|(-> & (M2 & Em2 & U2) & Sh)].
    + left. split; [done|]. split; [by eapply space_moved_trans|]. split_and!.
      * split.
        -- intros j Hj. destruct (decide (j = q)) as [->|Hne].
           ++ exists p. rewrite (fr_old _ _ _ _ _ _ F2) by lia. rewrite Em, lookup_insert_eq. split_and!; [done | done |].
              intros x Hx. rewrite U2; [rewrite Hz by done; by apply memset_zero|]. apply (outside_page _ p); [by eapply all_aligned, M1 | by apply ok_range | done | done].
           ++ destruct (fr_new _ _ _ _ _ _ F2 j ltac:(lia)) as (p' & E' & Hp' & Hz'). exists p'. split_and!; [done | | done].
              by apply Hsub.
        -- intros j Hj. rewrite (fr_old _ _ _ _ _ _ F2) by lia. by rewrite Em, lookup_insert_ne by lia.
      * eapply untouched_trans; [exact U1|]. eapply untouched_mono; [|exact U2]. done.
      * by eapply used_trans.
      * lia.
    + assert (as_map A2 = as_map (drop_pages lo hi A)) as Ea by (rewrite Em2; eapply drop_insert; [|done|apply Hun]; lia).
      pose proof (space_moved_trans _ _ _ _ _ _ _ _ _ _ _ M1 M2) as M. right. split; [done|].
      split; [split; [done|split; [done|]]|eapply short_used; [exact Sh | exact Us | lia]].
      eapply untouched_trans; [|exact U2]. eapply untouched_mono; [|exact U1]. intros x Hx.
      eapply failed_pages; [exact V | apply M | rewrite Ea; apply drop_subseteq | exact Hx].
Qed.

Lemma meta_perm pd A A' free free' : owned pd A' ++ free' ≡ₚ owned pd A ++ free -> as_map A' = as_map A ->
  meta pd A' ++ free' ≡ₚ meta pd A ++ free.
Proof.
  intros P E. rewrite !owned_perm in P. assert (uframes A' = uframes A) as Eu by (unfold uframes, umap; by rewrite E).
  rewrite Eu in P. apply (Permutation_app_inv_l (uframes A)). rewrite (Permutation_app_comm (meta pd A')), (Permutation_app_comm (meta pd A)) in P.
  by rewrite <- !app_assoc in P.
Qed.

(** [allocuvm] on an address space with no page mapped between the two sizes. It refuses a
    size that reaches the kernel and a smaller one, changing nothing.  Otherwise it returns the
    new size, and every page up to it is mapped, for the user to write, to its own page from
    the free list, filled with zeros; or it returns 0, the mappings are as they were, and two
    pages for each page wanted were not to be had within the free list and the container's
    limit.  In both cases no page is lost or shared between the address space, the free list
    and other owners, and memory outside the page tables and the free list is untouched. *)
Lemma allocuvm_as s pd A free rest oldsz newsz : let lo := (oldsz + 4095) / 4096 in let hi := (newsz + 4095) / 4096 in
  space_inv s pd A free rest -> can_alloc s -> 0 <= oldsz -> (forall j, lo <= j < hi -> as_map A !! j = None) ->
  exists r s' A' free', allocuvm pd oldsz newsz s = Ret r s' /\ moved s pd A free rest s' A' free' /\
    untouched (meta pd A ++ free) (k_mem s) (k_mem s') /\
    if KERNBASE <=? newsz then r = 0 /\ s' = s else if newsz <? oldsz then r = oldsz /\ s' = s else
    (r = newsz /\ fresh (k_mem s') free lo hi A A' /\ used_by s free s' free' /\ (length free <= length free' + 2 * Z.to_nat (hi - lo))%nat) \/
    (r = 0 /\ as_map A' = as_map A /\ short s free (2 * Z.to_nat (hi - lo))).
Proof.
  intros lo hi V Hc Ho Hun. unfold allocuvm. assert (moved s pd A free rest s A free) as M0 by (split; [done | done | apply same_rest_refl | done]).
  destruct (Z.leb_spec KERNBASE newsz) as [Hk|Hk]; [exists 0, s, A, free; by split_and!|].
  destruct (Z.ltb_spec newsz oldsz) as [Hn|Hn]; [exists oldsz, s, A, free; by split_and!|]. fold (alloc_step pd oldsz newsz).
  assert (PGROUNDUP oldsz = 4096 * lo) as -> by (unfold lo; rewrite PGROUNDUP_eq by klia; zlia).
  assert (0 <= hi - lo <= (newsz - oldsz) / PGSIZE + 1) as Hf by (unfold hi, lo, PGSIZE; zlia).
  assert (exists k, S (Z.to_nat ((newsz - oldsz) / PGSIZE + 1)) = (k + S (Z.to_nat (hi - lo)))%nat) as [k ->]
    by (exists (Z.to_nat ((newsz - oldsz) / PGSIZE + 1) - Z.to_nat (hi - lo))%nat; lia).
  destruct (alloc_loop pd rest oldsz newsz (Z.to_nat (hi - lo)) Ho Hk s A free lo V Hc) as (r & s' & A' & free' & E & H); [lia | lia | done |].
  exists r, s', A', free'. rewrite Nat.add_comm, (loop_more _ _ _ _ _ _ _ E). split; [done|].
  destruct H as [(-> & M & F & U & Us & Hl)|(-> & (M & Em & U) & Sh)]; [by auto 8|].
  fold lo hi in Em. rewrite drop_none in Em by done. split; [done|]. split; [|by auto].
  eapply untouched_mono; [|exact U]. intros p. by rewrite (meta_perm _ _ _ _ _ (mv_pages _ _ _ _ _ _ _ _ M) Em).
Qed.

(** ** Copying *)

(** The body of the loop of [copyuvm]. *)
Definition copy_step (pgdir d sz : Z) : Z -> K (Z + Z) := fun i =>
  let bad := freevm d ;; ret (inr 0) in
  if i <? sz then
    pte <- walkpgdir pgdir i false ;;
    if pte =? 0 then panic "copyuvm: pte should exist" else
    e <- load32 pte ;;
    if negb (present e) then panic "copyuvm: page not present" else
    let pa := PTE_ADDR e in
    let flags := PTE_FLAGS e in
    mem <- kalloc ;;
    if mem =? 0 then bad else
    upd_mem (fun m => KString.memmove m mem (P2V pa) PGSIZE) ;;
    r <- mappages d i PGSIZE (V2P mem) flags ;;
    if r <? 0 then bad else ret (inl (u32 (i + PGSIZE)))
  else ret (inr d).

Definition copy_of (src : Z) (m : mem) (p : Z) : mem := KString.memmove m p src PGSIZE.

Lemma copy_of_wf src m p : mem_wf m -> mem_wf (copy_of src m p).
Proof. intros H x. unfold copy_of. rewrite memmove_spec by (done || klia). by destruct (in_range _ _ _). Qed.

Lemma copy_of_page src m p : mem_wf m -> untouched [p] m (copy_of src m p).
Proof.
  intros H x Hx. unfold copy_of. rewrite memmove_spec by (done || klia). destruct (in_range p PGSIZE x) eqn:E; [|done].
  apply in_range_true in E. destruct (Hx p ltac:(by left)); klia.
Qed.

Lemma copy_of_byte src m p x : mem_wf m -> p <= x < p + 4096 -> copy_of src m p x = m (src + (x - p)).
Proof.
  intros H Hx. unfold copy_of. rewrite memmove_spec by (done || klia). by rewrite (proj2 (in_range_true p PGSIZE x)) by klia.
Qed.

(** A mapping of a page table is present. *)
Lemma rep_flags m pd A q p fl : rep m pd A -> as_map A !! q = Some (p, fl) ->
  exists t, as_tab A !! (q / 1024) = Some t /\ let e := ld32 m (t + 4 * (q mod 1024)) in
    present e = true /\ p = P2V (PTE_ADDR e) /\ fl = PTE_FLAGS e /\ Z.lor fl PTE_P = fl /\ 0 <= fl < 4096.
Proof.
  intros R H. destruct (rp_map_dom _ _ _ R _ _ H) as [t Ht]. exists t. split; [done|].
  pose proof (rp_pte _ _ _ R _ _ (q mod 1024) Ht ltac:(zlia)) as E. replace (1024 * (q / 1024) + q mod 1024) with q in E by zlia.
  rewrite H in E. unfold pte_dec in E. cbv zeta. destruct (present (ld32 m (t + 4 * (q mod 1024)))) eqn:Hp; [|done]. injection E as -> ->.
  split_and!; try done; rewrite PTE_FLAGS_eq; try zlia.
  set (e := ld32 m (t + 4 * (q mod 1024))) in *. rewrite present_eq, Z.eqb_eq in Hp.
  assert ((e mod 4096) mod 2 = 1) as Ho by zlia. rewrite Zmod_odd in Ho. destruct (Z.odd (e mod 4096)) eqn:Hodd; [|done].
  apply Z.bits_inj'. intros k Hk. rewrite Z.lor_spec. destruct (decide (k = 0)) as [->|].
  - by rewrite !Z.bit0_odd, Hodd.
  - unfold PTE_P. rewrite (Z.bits_above_log2 1 k) by (simpl; lia). by rewrite orb_false_r.
Qed.

(** The pages of one address space are not touched by work on another. *)
Lemma other_outside s d D free rest pd A p x : space_inv s d D free (owned pd A ++ rest) -> sane pd A -> p ∈ owned pd A ->
  p <= x < p + 4096 -> outside (owned d D ++ free) x.
Proof.
  intros V Sn Hp Hx. apply (outside_page _ p); [| by apply (sane_align _ _ _ Sn) | | done].
  - apply Forall_app. split; [|eapply free_aligned, V]. eapply Forall_impl; [apply V|]. intros q Hq. by apply ok_range.
  - pose proof (si_nodup _ _ _ _ _ V) as N. rewrite app_assoc in N. apply NoDup_app in N as (_ & N & _). intros Hin.
    apply (N p Hin). apply elem_of_app. by left.
Qed.

Lemma other_rep s d D free rest pd A m' : space_inv s d D free (owned pd A ++ rest) -> sane pd A -> rep (k_mem s) pd A ->
  untouched (owned d D ++ free) (k_mem s) m' -> rep m' pd A.
Proof.
  intros V Sn R U. eapply rep_ext; [done|]. intros t k Ht Hk. apply ld32_ext. intros x Hx. apply U.
  apply (other_outside s d D free rest pd A t); [done | done | | lia]. rewrite owned_perm. apply elem_of_app. by left.
Qed.

(** A copy that cannot be completed is given back, but for the page there was no table for. *)
Definition copy_failed (s : kst) (d : Z) (D : aspace) (free : list Z) (s' : kst) (lost free' : list Z) : Prop :=
  kmem_inv s' free' /\ can_alloc s' /\ same_rest s s' /\ (length lost <= 1)%nat /\ lost ++ free' ≡ₚ owned d D ++ free /\
  untouched (owned d D ++ free) (k_mem s) (k_mem s').

Lemma copy_page s pd A d D free rest sz q p0 fl :
  space_inv s d D free (owned pd A ++ rest) -> can_alloc s -> rep (k_mem s) pd A -> sane pd A ->
  as_map A !! q = Some (p0, fl) -> as_map D !! q = None -> 0 <= q < UPAGES -> 4096 * q < sz ->
  exists r s', copy_step pd d sz (4096 * q) s = Ret r s' /\
    ((r = inr 0 /\ short s free 2 /\ exists lost free', copy_failed s d D free s' lost free') \/
     (r = inl (4096 * (q + 1)) /\ exists p D' free', mapped_page s d D free (owned pd A ++ rest) q p fl (copy_of p0) s' D' free')).
Proof.
  intros V Hc R Sn Ha Hd Hq Hsz. assert (UPAGES = 524288) as EU by done. unfold copy_step. rewrite (proj2 (Z.ltb_lt _ _) Hsz).
  destruct (rep_flags _ _ _ _ _ _ R Ha) as (t & Ht & Hp & -> & -> & Hfl & Hfr).
  assert (PDX (4096 * q) = q / 1024 /\ PTX (4096 * q) = q mod 1024) as [ED ET] by (rewrite PDX_eq, PTX_eq; zlia).
  rewrite (bind_Ret _ _ _ _ _ (walk_look s pd A _ R)), ED, ET, Ht.
  pose proof (sane_align _ _ _ Sn (proj2 (table_owned pd _ _ _ Ht))) as Hta. rewrite (proj2 (Z.eqb_neq _ 0)) by (unfold KERNBASE in *; zlia).
  unfold load32. rewrite bind_gets. set (e := ld32 (k_mem s) (t + 4 * (q mod 1024))) in *. rewrite Hp. cbn [negb].
  destruct (take_page (copy_of (P2V (PTE_ADDR e)))) with (s := s) (pd := d) (A := D) (free := free) (rest := owned pd A ++ rest) (q := q) (perm := PTE_FLAGS e)
    as (p & s1 & E1 & H1); try done; [intros; by apply copy_of_wf | intros; by apply copy_of_page |].
  rewrite (bind_Ret _ _ _ _ _ E1). destruct H1 as [(-> & V1 & Hc1 & Hs1 & Hm1 & Sh)|(Hz & r & s3 & E3 & H3)].
  - change (0 =? 0) with true. cbv iota. destruct (freevm_as s1 d D free _ V1 Hc1) as (s2 & free2 & E2 & Hc2 & Hs2 & K2 & P2 & U2).
    rewrite (bind_Ret _ _ _ _ _ E2). exists (inr 0), s2. split; [done|]. left. split; [done|].
    split; [destruct Sh as (k & ? & ?); exists k; split; [lia | done]|]. exists [], free2. split_and!; try done; [by eapply same_rest_trans | simpl; lia |].
    rewrite <- Hm1. eapply untouched_mono; [|exact U2]. intros x. by rewrite P2.
  - rewrite (proj2 (Z.eqb_neq p 0) Hz). unfold upd_mem. rewrite bind_modify. fold (copy_of (P2V (PTE_ADDR e)) (k_mem s1) p). rewrite (bind_Ret _ _ _ _ _ E3).
    destruct H3 as [(-> & Sh & free3 & [V3 Hc3 Hs3 P3 Hok U3])|(-> & D3 & free3 & Mp)].
    + change (-1 <? 0) with true. cbv iota. destruct (freevm_as s3 d D free3 _ V3 Hc3) as (s4 & free4 & E4 & Hc4 & Hs4 & K4 & P4 & U4).
      rewrite (bind_Ret _ _ _ _ _ E4). exists (inr 0), s4. split; [done|]. left. split; [done|]. split; [done|].
      assert ([p] ++ free4 ≡ₚ owned d D ++ free) as P by (rewrite P4, <- P3; solve_Permutation).
      exists [p], free4. split_and!; try done; [by eapply same_rest_trans|].
      eapply untouched_trans; [eapply untouched_mono; [|exact U3]|eapply untouched_mono; [|exact U4]].
      * intros x. rewrite owned_perm, !elem_of_app. tauto.
      * intros x Hx. rewrite <- P. by right.
    + change (0 <? 0) with false. cbv iota. exists (inl (4096 * (q + 1))), s3.
      split; [unfold ret; do 2 f_equal; rewrite u32_small; unfold PGSIZE; lia|]. right. split; [done|]. rewrite Hfl in Mp. by exists p, D3, free3.
Qed.

(** The pages from [lo] to [hi] of [D'] are copies of those of [A]. *)
Record copied (m : mem) (lo hi : Z) (A D D' : aspace) : Prop := {
  cp_new j : lo <= j < hi -> exists p p' fl, as_map A !! j = Some (p, fl) /\ as_map D' !! j = Some (p', fl) /\
    forall k, 0 <= k < 4096 -> m (p' + k) = m (p + k);
  cp_old j : ~ lo <= j < hi -> as_map D' !! j = as_map D !! j
}.

Section copying.
Context (pd d sz : Z) (A : aspace) (rest : list Z).
Hypothesis Hsane : sane pd A.
Hypothesis Hsz : 0 <= sz <= KERNBASE.
Let hi : Z := (sz + 4095) / 4096.
Hypothesis Hmapped : forall j, 0 <= j < hi -> is_Some (as_map A !! j).

(** Taking a page and copying the rest is copying them all. *)
Lemma copied_step s D free q p0 fl p s1 D1 free1 s2 D2 :
  0 <= q < hi -> as_map A !! q = Some (p0, fl) -> space_inv s d D free (owned pd A ++ rest) ->
  mapped_page s d D free (owned pd A ++ rest) q p fl (copy_of p0) s1 D1 free1 ->
  copied (k_mem s2) (q + 1) hi A D1 D2 -> untouched (meta d D1 ++ free1) (k_mem s1) (k_mem s2) -> copied (k_mem s2) q hi A D D2.
Proof.
  intros Hq Ha V [M1 Em (Hp & Hok & Hpn) Hf U1 _ _ _ _] [C1 C2] U2. assert (UPAGES = 524288) as EU by done.
  assert (q < UPAGES) as Hu by (unfold hi, KERNBASE in *; zlia). split.
  - intros j Hj. destruct (decide (j = q)) as [->|Hne]; [|apply C1; lia]. exists p0, p, fl. split_and!; [done | rewrite C2, Em, lookup_insert_eq by lia; done |].
    intros k Hk. assert (k_mem s2 (p + k) = k_mem s1 (p + k)) as ->.
    { apply U2. apply (outside_page _ p); [by eapply all_aligned, M1 | by apply ok_range | done | lia]. }
    assert (k_mem s1 (p + k) = k_mem s (p0 + k)) as ->.
    { rewrite Hf by lia. rewrite copy_of_byte by (apply V || lia). f_equal. lia. }
    pose proof (frame_owned pd _ _ _ _ Hu Ha) as Hin.
    assert (k_mem s1 (p0 + k) = k_mem s (p0 + k)) as <-.
    { eapply (untouched_mono _ (owned d D ++ free)); [|exact U1|].
      - intros x. rewrite owned_perm, !elem_of_app. tauto.
      - eapply (other_outside _ _ _ _ _ pd A p0); [exact V | done | done | lia]. }
    symmetry. eapply (untouched_mono _ (owned d D1 ++ free1)); [|exact U2|].
    + intros x. rewrite owned_perm, !elem_of_app. tauto.
    + eapply (other_outside _ _ _ _ _ pd A p0); [apply M1 | done | done | lia].
  - intros j Hj. rewrite C2 by lia. by rewrite Em, lookup_insert_ne by lia.
Qed.

Lemma copy_loop n : forall s D free q,
  space_inv s d D free (owned pd A ++ rest) -> can_alloc s -> rep (k_mem s) pd A -> 0 <= q -> q + Z.of_nat n = Z.max q hi ->
  (forall j, q <= j < hi -> as_map D !! j = None) ->
  exists r s', loop (S n) (copy_step pd d sz) (4096 * q) s = Ret r s' /\
    ((r = 0 /\ short s free (2 * n) /\ exists lost free', copy_failed s d D free s' lost free') \/
     (r = d /\ exists D' free', moved s d D free (owned pd A ++ rest) s' D' free' /\ copied (k_mem s') q hi A D D' /\
        untouched (meta d D ++ free) (k_mem s) (k_mem s'))).
Proof.
  induction n as [|n IH]; intros s D free q V Hc R H0 Hq Hun.
  - exists d, s. split.
    { apply loop_done. unfold copy_step. rewrite (proj2 (Z.ltb_ge _ _)); [done|]. unfold hi in *. zlia. }
    right. split; [done|]. exists D, free. split; [by split; [| | apply same_rest_refl|]|]. split; [split; [lia | done] | apply untouched_refl].
  - assert (q < hi) as Hlt by lia. destruct (Hmapped q ltac:(lia)) as [[p0 fl] Ha].
    assert (0 <= q < UPAGES) as Hu by (change UPAGES with 524288; unfold hi, KERNBASE in *; zlia).
    destruct (copy_page s pd A d D free rest sz q p0 fl V Hc R Hsane Ha (Hun q ltac:(lia)) Hu) as (r & s1 & E & [(-> & Sh & lost & free' & F)|H]).
    { unfold hi in *. zlia. }
    { exists 0, s1. split; [by apply loop_done|]. left. split; [done|]. split; [|by exists lost, free'].
      destruct Sh as (k & ? & ?). exists k. split; [lia | done]. }
    destruct H as (-> & p & D1 & free1 & Mp). rewrite (loop_next _ _ _ _ _ _ E). pose proof Mp as [M1 Em (Hp & Hok & Hpn) Hf U1 Hin _ Us Hfew].
    assert (untouched (owned d D ++ free) (k_mem s) (k_mem s1)) as U1'.
    { eapply untouched_mono; [|exact U1]. intros x. rewrite owned_perm, !elem_of_app. tauto. }
    destruct (IH s1 D1 free1 (q + 1) (mv_inv _ _ _ _ _ _ _ _ M1) (mv_alloc _ _ _ _ _ _ _ _ M1)) as (r & s2 & E2 & H2);
      [by eapply other_rep | lia | lia | intros j Hj; rewrite Em, lookup_insert_ne by lia; apply Hun; lia |].
    exists r, s2. split; [done|]. destruct H2 as [(-> & Sh & lost & free' & K2 & Hc2 & Hs2 & Hl & P2 & U2)|(-> & D2 & free2 & M2 & C2 & U2)].
    + left. split; [done|]. split; [eapply short_used; [exact Sh | exact Us | lia]|]. exists lost, free'.
      pose proof (mv_pages _ _ _ _ _ _ _ _ M1) as P1. split_and!; try done; [eapply same_rest_trans; [apply M1 | done] | by rewrite P2 |].
      eapply untouched_trans; [exact U1'|]. eapply untouched_mono; [|exact U2]. intros x. by rewrite P1.
    + right. split; [done|]. exists D2, free2. split; [by eapply space_moved_trans|]. split; [by eapply copied_step|].
      eapply untouched_trans; [exact U1|]. eapply untouched_mono; [|exact U2]. done.
Qed.
End copying.

Lemma other_kept s pd A free rest m : space_inv s pd A free rest -> untouched free (k_mem s) m -> rep m pd A.
Proof.
  intros V U. pose proof (si_sane _ _ _ _ _ V) as Sn. destruct V as [K R O N]. eapply rep_ext; [exact R|]. intros t k Ht Hk.
  assert (t ∈ owned pd A) as Hto by (rewrite owned_perm; apply elem_of_app; by left).
  apply (untouched_word free); try assumption; [by eapply free_aligned | by apply (sane_align _ _ _ Sn) | intros Hf; by apply (NoDup_sep _ _ _ _ N Hf)].
Qed.

(** An address space stays as it is when pages of the free list go to a new owner [l]. *)
Lemma space_handed s pd A free rest s' free' l :
  space_inv s pd A free rest -> kmem_inv s' free' -> l ++ free' ≡ₚ free -> untouched free (k_mem s) (k_mem s') ->
  space_inv s' pd A free' (l ++ rest).
Proof.
  intros V K P U. split; [exact K | by eapply other_kept | apply V |].
  eapply NoDup_perm; [|exact (si_nodup _ _ _ _ _ V)]. rewrite <- P. solve_Permutation.
Qed.

Lemma meta_few s pd A free rest : space_inv s pd A free rest -> (length (meta pd A) <= 1025)%nat.
Proof. intros V. pose proof (tables_few _ _ _ (si_rep _ _ _ _ _ V) (si_sane _ _ _ _ _ V)). unfold meta. simpl. lia. Qed.

Lemma kernel_map_user j : j < UPAGES -> kernel_map !! j = None.
Proof.
  intros Hj. change UPAGES with 524288 in Hj. rewrite kernel_map_cases. pose proof lk_range. pose proof lk_data.
  unfold KERNLINK, KERNBASE, EXTMEM in *. assert (524544 < sym_data / 4096) by zlia. by zbool.
Qed.

Lemma user_frames_none d D : as_map D = kernel_map -> owned d D = meta d D.
Proof. intros E. rewrite owned_perm. unfold uframes. by rewrite (umap_kernel D E), map_to_list_empty, app_nil_r. Qed.

(** [copyuvm] of an address space whose first [sz] bytes are mapped. It returns a new page
    directory whose space has the kernel's mappings and, below [sz], pages of its own with the
    contents and flags of the old ones, and nothing else; the new pages come from the free
    list, and the two spaces, the free list and the other owners share no page.  Or it returns
    0, when the pages were not to be had; then all of them are back on the free list, except
    at most one.  In both cases the old address space and everything outside the free list
    is unchanged. *)
Lemma copyuvm_as s pd A free rest sz : let hi := (sz + 4095) / 4096 in
  space_inv s pd A free rest -> can_alloc s -> 0 <= sz <= KERNBASE -> (forall j, 0 <= j < hi -> is_Some (as_map A !! j)) ->
  exists r s' free', copyuvm pd sz s = Ret r s' /\ can_alloc s' /\ same_rest s s' /\ untouched free (k_mem s) (k_mem s') /\
    ((r = 0 /\ short s free (1026 + 2 * Z.to_nat hi) /\
      exists lost, (length lost <= 1)%nat /\ lost ++ free' ≡ₚ free /\ space_inv s' pd A free' (lost ++ rest)) \/
     (r <> 0 /\ exists D, owned r D ++ free' ≡ₚ free /\ space_inv s' r D free' (owned pd A ++ rest) /\
        space_inv s' pd A free' (owned r D ++ rest) /\ copied (k_mem s') 0 hi A (mkAs ∅ kernel_map) D)).
Proof.
  intros hi V Hc Hsz Hm. pose proof (si_sane _ _ _ _ _ V) as Sn. pose proof (si_nodup _ _ _ _ _ V) as N.
  unfold copyuvm. destruct (setupkvm_as s free (owned pd A ++ rest) (si_kmem _ _ _ _ _ V)) as (d & s1 & free1 & E1 & Hc1 & Hs1 & U1 & H1);
    [eapply NoDup_perm; [|exact N]; solve_Permutation | exact Hc |].
  rewrite (bind_Ret _ _ _ _ _ E1). destruct H1 as [(-> & K1 & P1 & Sh)|(Hd & D & V1 & Em & P1 & Us1)].
  { change (0 =? 0) with true. cbv iota. exists 0, s1, free1. split_and!; [reflexivity | exact Hc1 | exact Hs1 | exact U1 | left].
    split; [reflexivity|]. split; [destruct Sh as (k & ? & ?); exists k; split; [lia | assumption]|].
    exists []. split_and!; [simpl; lia | exact P1 |]. eapply space_handed; [exact V | exact K1 | exact P1 | exact U1]. }
  rewrite (proj2 (Z.eqb_neq d 0) Hd). fold (copy_step pd d sz). pose proof (user_frames_none d D Em) as Eo.
  pose proof (other_kept _ _ _ _ _ _ V U1) as R1.
  destruct (copy_loop pd d sz A rest Sn Hsz Hm (Z.to_nat hi) s1 D free1 0 V1 Hc1 R1) as (r & s2 & E2 & H2); [lia | unfold hi; zlia | |].
  { intros j Hj. rewrite Em. apply kernel_map_user. change UPAGES with 524288. unfold KERNBASE in *. zlia. }
  assert (S (S (Z.to_nat (sz / PGSIZE))) = S (Z.to_nat hi) + (S (Z.to_nat (sz / PGSIZE)) - Z.to_nat hi))%nat as -> by (unfold hi, PGSIZE; zlia).
  change (4096 * 0) with 0 in E2. rewrite (loop_more _ _ _ _ _ _ _ E2).
  assert (forall m, untouched (meta d D ++ free1) (k_mem s1) m -> untouched free (k_mem s) m) as Ut.
  { intros m U. eapply untouched_trans; [exact U1|]. eapply untouched_mono; [|exact U]. intros x. by rewrite P1. }
  destruct H2 as [(-> & Sh & lost & free2 & K2 & Hc2 & Hs2 & Hl & P2 & U2)|(-> & D2 & free2 & M & C & U2)].
  - rewrite Eo in P2, U2. rewrite P1 in P2. exists 0, s2, free2. split_and!; [reflexivity | exact Hc2 | by eapply same_rest_trans | by apply Ut | left].
    split; [reflexivity|]. split; [|exists lost; split_and!; [exact Hl | exact P2 | eapply space_handed; [exact V | exact K2 | exact P2 | by apply Ut]]].
    eapply short_used; [exact Sh | exact Us1|]. rewrite <- P1, app_length. pose proof (meta_few _ _ _ _ _ V1). lia.
  - destruct M as [V2 Hc2 Hs2 P2]. rewrite Eo, P1 in P2. exists d, s2, free2.
    split_and!; [reflexivity | exact Hc2 | by eapply same_rest_trans | by apply Ut | right]. split; [exact Hd|]. exists D2.
    split_and!; [exact P2 | exact V2 | eapply space_handed; [exact V | apply V2 | exact P2 | by apply Ut] |].
    destruct C as [Cn Co]. split; [exact Cn|]. intros j Hj. cbn [as_map]. rewrite <- Em. exact (Co j Hj).
Qed.
End uvm.
