(* ===== verification/Pipe.v ===== *)
(** * Pipes

    pipe.c: a ring of [PIPESIZE] bytes between two running counters, whose users
    sleep while it is full or empty.  ([pipealloc], which needs file structures, is
    in File.v.)  The buffers of the callers are lists of bytes. *)

From S2P Require Import Prelude Monad KState Sched Kalloc.

Local Open Scope kernel_scope.

Definition PIPESIZE : Z := 512.

(** [myproc()->killed] *)
Definition killed : K bool :=
  p <- curproc ;; pr <- get_proc p ;; ret (p_killed pr).

(** [p->data[p->nwrite++ % PIPESIZE] = c] and [p->data[p->nread++ % PIPESIZE]]. *)
Definition pipe_put (c : Z) (pi : pipe) : pipe :=
  set_pi_nwrite (u32 (pi_nwrite pi + 1)) (set_pi_data (lput (pi_data pi) (pi_nwrite pi mod PIPESIZE) c) pi).
Definition pipe_get (pi : pipe) : Z := lget (pi_data pi) (pi_nread pi mod PIPESIZE).
Definition pipe_next (pi : pipe) : pipe := set_pi_nread (u32 (pi_nread pi + 1)) pi.

(** The wait of [pipewrite] while the ring is full; [false] when it gives up.  [fuel]
    bounds how often it sleeps. *)
Definition pipe_wait_room (fuel : nat) (a : Z) : K bool :=
  loop fuel (fun _ : unit =>
    pi <- get_pipe a ;;
    if pi_nwrite pi =? u32 (pi_nread pi + PIPESIZE) then
      k <- (if negb (pi_readopen pi) then ret true else killed) ;;
      if (k : bool) then
        release (LPipe a) ;;
        ret (inr false)
      else
        wakeup (ChPipeRead a) ;;
        sleep (ChPipeWrite a) (LPipe a) ;;
        ret (inl tt)
    else ret (inr true)) tt.

Fixpoint pipewrite_loop (fuel : nat) (a : Z) (addr : list Z) : K bool :=
  match addr with
  | [] => ret true
  | c :: addr' =>
      ok <- pipe_wait_room fuel a ;;
      if (ok : bool) then
        upd_pipe a (pipe_put c) ;;
        pipewrite_loop fuel a addr'
      else ret false
  end.

(** [pipewrite]: [addr] are the [n] bytes to write. *)
Definition pipewrite_upto (fuel : nat) (a : Z) (addr : list Z) : K Z :=
  acquire (LPipe a) ;;
  ok <- pipewrite_loop fuel a addr ;;
  if (ok : bool) then
    wakeup (ChPipeRead a) ;;
    release (LPipe a) ;;
    ret (zlen addr)
  else ret (-1).

Definition pipewrite (a : Z) (addr : list Z) : K Z := pipewrite_upto MAXWAIT a addr.

(** The wait of [piperead] while the ring is empty. *)
Definition pipe_wait_data (fuel : nat) (a : Z) : K bool :=
  loop fuel (fun _ : unit =>
    pi <- get_pipe a ;;
    if (pi_nread pi =? pi_nwrite pi) && pi_writeopen pi then
      k <- killed ;;
      if (k : bool) then
        release (LPipe a) ;;
        ret (inr false)
      else
        sleep (ChPipeRead a) (LPipe a) ;;
        ret (inl tt)
    else ret (inr true)) tt.

(** The copy of at most [n] bytes. *)
Fixpoint piperead_loop (a : Z) (n : nat) : K (list Z) :=
  match n with
  | O => ret []
  | S n' =>
      pi <- get_pipe a ;;
      if pi_nread pi =? pi_nwrite pi then ret []
      else
        upd_pipe a pipe_next ;;
        l <- piperead_loop a n' ;;
        ret (pipe_get pi :: l)
  end.

(** [piperead]: the result and the bytes stored at [addr]. *)
Definition piperead_upto (fuel : nat) (a : Z) (n : Z) : K (Z * list Z) :=
  acquire (LPipe a) ;;
  ok <- pipe_wait_data fuel a ;;
  if (ok : bool) then
    l <- piperead_loop a (Z.to_nat n) ;;
    wakeup (ChPipeWrite a) ;;
    release (LPipe a) ;;
    ret (zlen l, l)
  else ret (-1, []).

Definition piperead (a : Z) (n : Z) : K (Z * list Z) := piperead_upto MAXWAIT a n.

(** [pipeclose]: freeing the page ends the pipe in it. *)
Definition pipeclose `{L : Linker} (a : Z) (writable : bool) : K unit :=
  acquire (LPipe a) ;;
  (if writable then
     upd_pipe a (set_pi_writeopen false) ;;
     wakeup (ChPipeRead a)
   else
     upd_pipe a (set_pi_readopen false) ;;
     wakeup (ChPipeWrite a)) ;;
  pi <- get_pipe a ;;
  if negb (pi_readopen pi) && negb (pi_writeopen pi) then
    release (LPipe a) ;;
    modify (fun s => set_k_pipes (delete a (k_pipes s)) s) ;;
    kfree a
  else release (LPipe a).

(** ** The ring is a bounded queue of bytes *)

Record pipe_ok (pi : pipe) : Prop := {
  po_len : zlen (pi_data pi) = PIPESIZE;
  po_nread : 0 <= pi_nread pi < 4294967296;
  po_nwrite : 0 <= pi_nwrite pi < 4294967296;
  po_size : u32 (pi_nwrite pi - pi_nread pi) <= PIPESIZE
}.

(** The bytes written and not yet read, oldest first. *)
Definition pipe_queue (pi : pipe) : list Z :=
  (fun i => lget (pi_data pi) ((pi_nread pi + Z.of_nat i) mod PIPESIZE)) <$>
    seq 0 (Z.to_nat (u32 (pi_nwrite pi - pi_nread pi))).

Lemma pipe_queue_length pi : length (pipe_queue pi) = Z.to_nat (u32 (pi_nwrite pi - pi_nread pi)).
Proof. unfold pipe_queue. by rewrite length_fmap, length_seq. Qed.

Lemma pipe_full pi :
  pipe_ok pi -> (pi_nwrite pi =? u32 (pi_nread pi + PIPESIZE)) = (zlen (pipe_queue pi) =? PIPESIZE).
Proof.
  intros [_ Hr Hw Hs]. unfold zlen. rewrite pipe_queue_length, Z2Nat.id by apply u32_range.
  unfold PIPESIZE in *. apply eq_iff_eq_true. rewrite !Z.eqb_eq. zlia.
Qed.

Lemma pipe_empty pi :
  pipe_ok pi -> (pi_nread pi =? pi_nwrite pi) = bool_decide (pipe_queue pi = []).
Proof.
  intros [_ Hr Hw Hs]. apply eq_iff_eq_true. rewrite Z.eqb_eq, bool_decide_eq_true.
  rewrite <- length_zero_iff_nil, pipe_queue_length. zlia.
Qed.

(** The ring's positions wrap together with the counters. *)
Lemma pipe_pos x i : (u32 (x + 1) + i) mod PIPESIZE = (x + (i + 1)) mod PIPESIZE.
Proof. unfold PIPESIZE. zlia. Qed.

Lemma pipe_put_queue c pi :
  pipe_ok pi -> zlen (pipe_queue pi) < PIPESIZE ->
  pipe_ok (pipe_put c pi) /\ pipe_queue (pipe_put c pi) = pipe_queue pi ++ [u8 c].
Proof.
  intros [Hl Hr Hw Hs] Hroom. unfold zlen in Hroom. rewrite pipe_queue_length in Hroom.
  set (k := u32 (pi_nwrite pi - pi_nread pi)) in *. pose proof (u32_range (pi_nwrite pi - pi_nread pi)) as Hk.
  fold k in Hk. assert (u32 (u32 (pi_nwrite pi + 1) - pi_nread pi) = k + 1) as Hn
    by (unfold k, PIPESIZE in *; zlia).
  split.
  - split; simpl; [unfold zlen; by rewrite length_lput | done | apply u32_range | lia].
  - unfold pipe_queue. simpl pi_nread. simpl pi_data. simpl pi_nwrite. rewrite Hn. fold k.
    replace (Z.to_nat (k + 1)) with (S (Z.to_nat k)) by lia. rewrite seq_S, fmap_app. f_equal.
    + apply list_fmap_ext. intros i x Hx. apply lookup_seq in Hx as [-> Hx].
      apply lget_lput_ne; unfold PIPESIZE; [zlia | zlia |].
      unfold k, PIPESIZE in *. zlia.
    + simpl. f_equal.
      replace ((pi_nread pi + Z.of_nat (Z.to_nat k)) mod PIPESIZE) with (pi_nwrite pi mod PIPESIZE)
        by (unfold k, PIPESIZE in *; zlia).
      apply lget_lput. rewrite Hl. unfold PIPESIZE. zlia.
Qed.

Lemma pipe_next_queue x q pi :
  pipe_ok pi -> pipe_queue pi = x :: q ->
  pipe_get pi = x /\ pipe_ok (pipe_next pi) /\ pipe_queue (pipe_next pi) = q.
Proof.
  intros [Hl Hr Hw Hs] Hq. pose proof (pipe_queue_length pi) as Hlen. rewrite Hq in Hlen. simpl in Hlen.
  pose proof (u32_range (pi_nwrite pi - pi_nread pi)) as Hk.
  assert (u32 (pi_nwrite pi - u32 (pi_nread pi + 1)) = u32 (pi_nwrite pi - pi_nread pi) - 1) as Hn
    by (unfold PIPESIZE in *; zlia).
  unfold pipe_queue in Hq. rewrite <- Hlen in Hq. simpl in Hq. injection Hq as Hx Hq.
  split; [unfold pipe_get; rewrite <- Hx; by rewrite Z.add_0_r|]. split.
  - split; simpl; [done | apply u32_range | done | lia].
  - unfold pipe_queue. simpl pi_nread. simpl pi_data. simpl pi_nwrite. rewrite Hn.
    replace (Z.to_nat (_ - 1)) with (length q) by lia. rewrite <- Hq at 2.
    rewrite <- fmap_S_seq, <- list_fmap_compose. apply list_fmap_ext. intros i j _. simpl.
    rewrite pipe_pos. do 2 f_equal. lia.
Qed.

(** ** The operations on the pipe's structure *)

Definition put_pipe (a : Z) (pi : pipe) (s : kst) : kst := set_k_pipes (<[a := pi]> (k_pipes s)) s.
Definition woken (ch : chan) (s : kst) : kst :=
  set_k_ptable (wake_table (k_ctable s) (Some ch) (k_ptable s)) s.

Lemma get_pipe_eq a pi s : k_pipes s !! a = Some pi -> get_pipe a s = Ret pi s.
Proof. intros H. unfold get_pipe, bind, gets. simpl. by rewrite H. Qed.

Lemma upd_pipe_eq a f pi s : k_pipes s !! a = Some pi -> upd_pipe a f s = Ret tt (put_pipe a (f pi) s).
Proof. intros H. unfold upd_pipe. by rewrite (bind_Ret _ _ _ _ _ (get_pipe_eq _ _ _ H)). Qed.

Lemma put_pipe_eq a pi s : k_pipes (put_pipe a pi s) !! a = Some pi.
Proof. apply lookup_insert_eq. Qed.

Lemma put_pipe_twice a pi pi' s : put_pipe a pi' (put_pipe a pi s) = put_pipe a pi' s.
Proof. unfold put_pipe, set_k_pipes. simpl. by rewrite insert_insert_eq. Qed.

Lemma piperead_loop_eq a n : forall pi s,
  k_pipes s !! a = Some pi -> pipe_ok pi ->
  exists pi', piperead_loop a n s = Ret (take n (pipe_queue pi)) (put_pipe a pi' s) /\ pipe_ok pi' /\
    pipe_queue pi' = drop n (pipe_queue pi) /\ pi_readopen pi' = pi_readopen pi /\ pi_writeopen pi' = pi_writeopen pi.
Proof.
  induction n as [|n IH]; intros pi s Hp Hok.
  - exists pi. split_and!; try done. unfold put_pipe. rewrite insert_id by done. by destruct s.
  - simpl piperead_loop. rewrite (bind_Ret _ _ _ _ _ (get_pipe_eq _ _ _ Hp)), (pipe_empty pi Hok).
    destruct (pipe_queue pi) as [|x q] eqn:Q; [rewrite bool_decide_eq_true_2 by done | rewrite bool_decide_eq_false_2 by done].
    + exists pi. split_and!; [|done..]. unfold ret, put_pipe. rewrite insert_id by done. by destruct s.
    + destruct (pipe_next_queue x q pi Hok Q) as (Hg & Hok' & Hq').
      rewrite (bind_Ret _ _ _ _ _ (upd_pipe_eq _ _ _ _ Hp)).
      destruct (IH (pipe_next pi) (put_pipe a (pipe_next pi) s)) as (pi' & H1 & H2 & H3 & H4 & H5);
        [apply put_pipe_eq | done |].
      exists pi'. rewrite (bind_Ret _ _ _ _ _ H1), put_pipe_twice, Hg, Hq', H3, Hq', H4, H5. done.
Qed.
