(* ===== verification/PipeUsers.v ===== *)
(** * A pipe between processes

    Any number of [pipewrite] and [piperead] calls on one pipe, each by some process, run
    on the kernel's CPU in stretches: a call runs until it returns or sleeps, other calls
    and the rest of the kernel run, a wakeup makes it RUNNABLE, and it goes on.  A call
    has the pipe's lock whenever it runs, so its stretches are not interleaved with
    another call's.  The theorem is that the pipe is a queue of at most [PIPESIZE] bytes
    between the writers and the readers, whatever waiting it takes. *)

From S2P Require Import Prelude Monad KState Sched Kalloc Pipe.

Local Open Scope kernel_scope.

Inductive call : Type := CWrite (addr : list Z) | CRead (n : Z).

(** A call that has not started, one that sleeps with the rest of its code, and one
    that has returned (for a read, with the bytes stored at [addr]). *)
Inductive status : Type :=
  | Ready
  | Parked (k : K (Z * list Z))
  | Returned (ret : Z) (got : list Z).

Record user : Type := mkUser { u_proc : nat; u_call : call; u_status : status }.
Record sys : Type := mkSys { y_k : kst; y_users : list user }.

(** Process [p] on the CPU. *)
Definition onto (p : nat) (h : list lockid) (s : kst) : kst := set_k_cur (Some p) (set_k_held h s).

Section pipe_users.
Context (fuel : nat) (a : Z).

Definition call_code (c : call) : K (Z * list Z) :=
  match c with
  | CWrite addr => r <- pipewrite_upto fuel a addr ;; ret (r, [])
  | CRead n => piperead_upto fuel a n
  end.

(** A stretch of a call: from its start, or, for a RUNNABLE process, from where it
    slept (the scheduler switches to it with the process-table lock held). *)
Definition stretch (u : user) (s : kst) : option (kst * status) :=
  o ← match u_status u with
      | Ready => Some (call_code (u_call u) (onto (u_proc u) [] s))
      | Parked k =>
          pr ← k_ptable s !! u_proc u;
          if p_state pr ==? RUNNABLE then
            Some (k (onto (u_proc u) [LPtable]
                       (set_k_ptable (alter (set_p_state RUNNING) (u_proc u) (k_ptable s)) s)))
          else None
      | Returned _ _ => None
      end;
  match o with
  | Ret x s' => Some (s', Returned x.1 x.2)
  | Switch s' k => Some (s', Parked k)
  | _ => None
  end.

(** The rest of the kernel: it may close an end of the pipe, kill processes, wake them,
    but it leaves the bytes alone. *)
Record elsewhere (users : list user) (s s' : kst) : Prop := {
  ew_pipe pi : k_pipes s !! a = Some pi -> exists pi', k_pipes s' !! a = Some pi' /\
    pi_data pi' = pi_data pi /\ pi_nread pi' = pi_nread pi /\ pi_nwrite pi' = pi_nwrite pi;
  ew_tab : tables_wf (k_ctable s') (k_ptable s')
}.

Inductive step (y : sys) : sys -> Prop :=
  | step_call p c :
      is_Some (k_ptable (y_k y) !! p) -> step y (mkSys (y_k y) (y_users y ++ [mkUser p c Ready]))
  | step_run i u s' st :
      y_users y !! i = Some u -> stretch u (y_k y) = Some (s', st) ->
      step y (mkSys s' (<[i := mkUser (u_proc u) (u_call u) st]> (y_users y)))
  | step_elsewhere s' :
      elsewhere (y_users y) (y_k y) s' -> step y (mkSys s' (y_users y)).

(** A new pipe. *)
Record initial (y : sys) : Prop := {
  in_pipe : exists pi, k_pipes (y_k y) !! a = Some pi /\ pipe_ok pi /\ pipe_queue pi = [];
  in_tab : tables_wf (k_ctable (y_k y)) (k_ptable (y_k y));
  in_users : y_users y = []
}.

Inductive reachable : sys -> Prop :=
  | reach_initial y : initial y -> reachable y
  | reach_more y y' : reachable y -> step y y' -> reachable y'.

(** ** One stretch *)

(** The CPU inside a pipe function. *)
Record inside (p : nat) (pr : proc) (pi : pipe) (s : kst) : Prop := {
  is_cur : k_cur s = Some p;
  is_held : k_held s = [LPipe a];
  is_proc : k_ptable s !! p = Some pr;
  is_tab : tables_wf (k_ctable s) (k_ptable s);
  is_pipe : k_pipes s !! a = Some pi;
  is_ok : pipe_ok pi
}.

Lemma user_killed_eq p pr pi s : inside p pr pi s -> killed s = Ret (p_killed pr) s.
Proof.
  intros I. unfold killed, curproc, myproc, bind, gets. simpl. rewrite (is_cur _ _ _ _ I). simpl.
  rewrite (get_proc_eq _ _ _ (is_proc _ _ _ _ I)). done.
Qed.

Lemma release_pipe p pr pi s : inside p pr pi s -> release (LPipe a) s = Ret tt (set_k_held [] s).
Proof. intros I. apply (release_eq (LPipe a) []), I. Qed.

(** [wakeup] with the pipe's lock held. *)
Lemma wakeup_inside ch p pr pi s : inside p pr pi s -> wakeup ch s = Ret tt (woken ch s).
Proof. intros I. apply wakeup_eq; [rewrite (is_held _ _ _ _ I); set_solver | apply I]. Qed.

Lemma inside_woken ch p pr pi s : inside p pr pi s -> exists pr', inside p pr' pi (woken ch s).
Proof.
  intros [I1 I2 I3 I4 I5 I6]. eexists. split; try done; [|by apply wake_table_wf].
  simpl. rewrite lookup_wake_table, I3. reflexivity.
Qed.

Lemma inside_put p pr pi pi' s : inside p pr pi s -> pipe_ok pi' -> inside p pr pi' (put_pipe a pi' s).
Proof. intros [I1 I2 I3 I4 I5 I6] H. split; try done. apply put_pipe_eq. Qed.

(** What a parked call does when it is switched to: the end of its [sleep], then [m]. *)
Definition parked_as {A} (p : nat) (k m : K A) : Prop :=
  forall t pr, k_held t = [LPtable] -> k_ptable t !! p = Some pr -> k t = m (wake_state p (LPipe a) t).

Lemma sleep_inside ch p pr pi s :
  inside p pr pi s -> exists k, sleep ch (LPipe a) s = Switch (sleep_state p ch s) k /\ parked_as p k (ret tt).
Proof.
  intros [I1 I2 I3 I4 I5 I6]. destruct (sleep_eq ch (LPipe a) s p pr) as (k & E & Hk); try done.
  exists k. split; [done|]. intros t pr' Ht Hp. by eapply Hk.
Qed.

Lemma parked_bind {A B} p (k : K A) (m : K A) (f : A -> K B) :
  parked_as p k m -> parked_as p (fun t => obind (k t) f) (bind m f).
Proof. intros H t pr Ht Hp. unfold bind. by rewrite (H t pr Ht Hp). Qed.

(** The bodies of the two waiting loops. *)
Definition room_body (_ : unit) : K (unit + bool) :=
  pi <- get_pipe a ;;
  if pi_nwrite pi =? u32 (pi_nread pi + PIPESIZE) then
    k <- (if negb (pi_readopen pi) then ret true else killed) ;;
    if (k : bool) then release (LPipe a) ;; ret (inr false)
    else wakeup (ChPipeRead a) ;; sleep (ChPipeWrite a) (LPipe a) ;; ret (inl tt)
  else ret (inr true).

Definition data_body (_ : unit) : K (unit + bool) :=
  pi <- get_pipe a ;;
  if (pi_nread pi =? pi_nwrite pi) && pi_writeopen pi then
    k <- killed ;;
    if (k : bool) then release (LPipe a) ;; ret (inr false)
    else sleep (ChPipeRead a) (LPipe a) ;; ret (inl tt)
  else ret (inr true).

Lemma room_loop n s : pipe_wait_room n a s = loop n room_body tt s.
Proof. reflexivity. Qed.

Lemma data_loop n s : pipe_wait_data n a s = loop n data_body tt s.
Proof. reflexivity. Qed.

(** A turn that sleeps. *)
Lemma loop_sleeps (body : unit -> K (unit + bool)) n p s s1 k :
  body tt s = Switch s1 k -> parked_as p k (ret (inl tt)) ->
  exists k', loop (S n) body tt s = Switch s1 k' /\ parked_as p k' (loop n body tt).
Proof.
  intros Eb Hk. cbn [loop]. unfold bind. rewrite Eb. simpl. eexists. split; [reflexivity|].
  intros t pr Ht Hp. by rewrite (Hk t pr Ht Hp).
Qed.

Lemma sleep_again ch p pr pi s :
  inside p pr pi s -> exists k, (sleep ch (LPipe a) ;; ret (@inl unit bool tt)) s = Switch (sleep_state p ch s) k /\
    parked_as p k (ret (inl tt)).
Proof.
  intros I. destruct (sleep_inside ch _ _ _ _ I) as (k & Es & Hk). unfold bind. rewrite Es. simpl.
  eexists. split; [reflexivity|]. intros t pr1 Ht Hp. by rewrite (Hk t pr1 Ht Hp).
Qed.

(** A full ring: [pipewrite] gives up or sleeps. *)
Lemma room_full n p pr pi s :
  inside p pr pi s -> zlen (pipe_queue pi) = PIPESIZE ->
  if negb (pi_readopen pi) || p_killed pr then pipe_wait_room (S n) a s = Ret false (set_k_held [] s)
  else exists k, pipe_wait_room (S n) a s = Switch (sleep_state p (ChPipeWrite a) (woken (ChPipeRead a) s)) k /\
         parked_as p k (pipe_wait_room n a).
Proof.
  intros I Hfull.
  assert ((if negb (pi_readopen pi) then ret true else killed) s = Ret (negb (pi_readopen pi) || p_killed pr) s) as Ek
    by (destruct (pi_readopen pi); [by apply (user_killed_eq p pr pi) | done]).
  assert (room_body tt s = (if negb (pi_readopen pi) || p_killed pr then release (LPipe a) ;; ret (inr false)
    else wakeup (ChPipeRead a) ;; sleep (ChPipeWrite a) (LPipe a) ;; ret (inl tt)) s) as Eb.
  { unfold room_body. rewrite (bind_Ret _ _ _ _ _ (get_pipe_eq _ _ _ (is_pipe _ _ _ _ I))).
    rewrite (pipe_full pi (is_ok _ _ _ _ I)), (proj2 (Z.eqb_eq _ _) Hfull). by rewrite (bind_Ret _ _ _ _ _ Ek). }
  rewrite room_loop. destruct (negb (pi_readopen pi) || p_killed pr).
  - apply loop_done. by rewrite Eb, (bind_Ret _ _ _ _ _ (release_pipe _ _ _ _ I)).
  - destruct (inside_woken (ChPipeRead a) _ _ _ _ I) as (pr' & I').
    destruct (sleep_again (ChPipeWrite a) _ _ _ _ I') as (k & Es & Hk).
    rewrite (bind_Ret _ _ _ _ _ (wakeup_inside _ _ _ _ _ I)), Es in Eb. by eapply loop_sleeps.
Qed.

Lemma room_free n p pr pi s :
  inside p pr pi s -> zlen (pipe_queue pi) < PIPESIZE -> pipe_wait_room (S n) a s = Ret true s.
Proof.
  intros I Hroom. rewrite room_loop. apply loop_done. unfold room_body.
  rewrite (bind_Ret _ _ _ _ _ (get_pipe_eq _ _ _ (is_pipe _ _ _ _ I))), (pipe_full pi (is_ok _ _ _ _ I)).
  by rewrite (proj2 (Z.eqb_neq _ _)) by lia.
Qed.

(** An empty ring that may still be written: [piperead] gives up or sleeps. *)
Lemma data_none n p pr pi s :
  inside p pr pi s -> pipe_queue pi = [] -> pi_writeopen pi = true ->
  if p_killed pr then pipe_wait_data (S n) a s = Ret false (set_k_held [] s)
  else exists k, pipe_wait_data (S n) a s = Switch (sleep_state p (ChPipeRead a) s) k /\
         parked_as p k (pipe_wait_data n a).
Proof.
  intros I He Hw.
  assert (data_body tt s = (if p_killed pr then release (LPipe a) ;; ret (inr false)
    else sleep (ChPipeRead a) (LPipe a) ;; ret (inl tt)) s) as Eb.
  { unfold data_body. rewrite (bind_Ret _ _ _ _ _ (get_pipe_eq _ _ _ (is_pipe _ _ _ _ I))).
    rewrite (pipe_empty pi (is_ok _ _ _ _ I)), bool_decide_eq_true_2, Hw by done. cbn [andb].
    by rewrite (bind_Ret _ _ _ _ _ (user_killed_eq _ _ _ _ I)). }
  rewrite data_loop. destruct (p_killed pr).
  - apply loop_done. by rewrite Eb, (bind_Ret _ _ _ _ _ (release_pipe _ _ _ _ I)).
  - destruct (sleep_again (ChPipeRead a) _ _ _ _ I) as (k & Es & Hk). rewrite Es in Eb. by eapply loop_sleeps.
Qed.

Lemma data_some n p pr pi s :
  inside p pr pi s -> pipe_queue pi <> [] \/ pi_writeopen pi = false -> pipe_wait_data (S n) a s = Ret true s.
Proof.
  intros I Hd. rewrite data_loop. apply loop_done. unfold data_body.
  rewrite (bind_Ret _ _ _ _ _ (get_pipe_eq _ _ _ (is_pipe _ _ _ _ I))), (pipe_empty pi (is_ok _ _ _ _ I)).
  destruct Hd as [Hd | ->]; [by rewrite bool_decide_eq_false_2 | by rewrite andb_false_r].
Qed.

(** [pipewrite] from the middle: the bytes [rest] to write, [n] sleeps left for the
    first of them, [total] the result. *)
Definition write_from (n : nat) (rest : list Z) : K bool :=
  match rest with
  | [] => ret true
  | c :: rest' =>
      ok <- pipe_wait_room n a ;;
      if (ok : bool) then upd_pipe a (pipe_put c) ;; pipewrite_loop fuel a rest' else ret false
  end.

Definition write_rest (n : nat) (rest : list Z) (total : Z) : K (Z * list Z) :=
  r <- (ok <- write_from n rest ;;
        if (ok : bool) then wakeup (ChPipeRead a) ;; release (LPipe a) ;; ret total else ret (-1)) ;;
  ret (r, []).

Lemma pipewrite_loop_from rest : pipewrite_loop fuel a rest = write_from fuel rest.
Proof. by destruct rest. Qed.

(** [piperead] with [n] sleeps left. *)
Definition read_rest (n : nat) (count : Z) : K (Z * list Z) :=
  ok <- pipe_wait_data n a ;;
  if (ok : bool) then
    l <- piperead_loop a (Z.to_nat count) ;;
    wakeup (ChPipeWrite a) ;;
    release (LPipe a) ;;
    ret (zlen l, l)
  else ret (-1, []).

(** The bytes of [rest] that fit. *)
Definition room (pi : pipe) : nat := Z.to_nat (PIPESIZE - zlen (pipe_queue pi)).

(** What a stretch of a write does: the bytes that fit are appended; if that is all the
    call returns, if not it gives up or waits with the others. *)
Definition wrote (p : nat) (pr : proc) (pi pi' : pipe) (rest : list Z) (total : Z) (s : kst) (o : outcome kst (Z * list Z)) : Prop :=
  pipe_ok pi' /\ pipe_queue pi' = pipe_queue pi ++ (u8 <$> take (room pi) rest) /\
  pi_readopen pi' = pi_readopen pi /\
  match drop (room pi) rest with
  | [] => o = Ret (total, []) (set_k_held [] (woken (ChPipeRead a) (put_pipe a pi' s)))
  | rest' =>
      if negb (pi_readopen pi) || p_killed pr then o = Ret (-1, []) (set_k_held [] (put_pipe a pi' s))
      else exists k n', o = Switch (sleep_state p (ChPipeWrite a) (woken (ChPipeRead a) (put_pipe a pi' s))) k /\
             parked_as p k (write_rest n' rest' total)
  end.

Lemma put_pipe_id pi s : k_pipes s !! a = Some pi -> put_pipe a pi s = s.
Proof. intros H. unfold put_pipe. rewrite insert_id by done. by destruct s. Qed.

Lemma room_zero pi : pipe_ok pi -> room pi = 0%nat -> zlen (pipe_queue pi) = PIPESIZE.
Proof.
  intros [_ _ _ Hs] Hr. unfold room in Hr. unfold zlen in *. rewrite pipe_queue_length in *.
  pose proof (u32_range (pi_nwrite pi - pi_nread pi)). lia.
Qed.

(** The first byte: its wait, then giving up or going on with the next. *)
Lemma write_rest_cons c rest total : exists (f1 : bool -> K bool) (f2 : bool -> K Z) (f3 : Z -> K (Z * list Z)),
  (forall n s, write_rest n (c :: rest) total s = obind (obind (obind (pipe_wait_room n a s) f1) f2) f3) /\
  (forall s, obind (obind (f1 false s) f2) f3 = Ret (-1, []) s) /\
  (forall pi s, k_pipes s !! a = Some pi ->
     obind (obind (f1 true s) f2) f3 = write_rest fuel rest total (put_pipe a (pipe_put c pi) s)).
Proof.
  eexists _, _, _. split; [intros; reflexivity|]. split; [done|].
  intros pi s Hp. cbv beta iota. rewrite (bind_Ret _ _ _ _ _ (upd_pipe_eq _ _ _ _ Hp)).
  by rewrite pipewrite_loop_from.
Qed.

Hypothesis fuel_pos : (0 < fuel)%nat.

Lemma write_stretch p pr rest : forall n total pi s,
  (0 < n)%nat -> inside p pr pi s -> exists pi', wrote p pr pi pi' rest total s (write_rest n rest total s).
Proof.
  induction rest as [|c rest IH]; intros n total pi s Hn I.
  - exists pi. unfold wrote. rewrite take_nil, drop_nil, app_nil_r. split_and!; [apply I | done | done |].
    rewrite (put_pipe_id _ _ (is_pipe _ _ _ _ I)). unfold write_rest, write_from, bind at 1 2. simpl.
    rewrite (bind_Ret _ _ _ _ _ (wakeup_inside _ _ _ _ _ I)).
    destruct (inside_woken (ChPipeRead a) _ _ _ _ I) as (pr' & I').
    by rewrite (bind_Ret _ _ _ _ _ (release_pipe _ _ _ _ I')).
  - destruct n as [|n]; [lia|]. destruct (room pi) as [|m] eqn:Em.
    + exists pi. unfold wrote. rewrite Em. simpl. rewrite app_nil_r, (put_pipe_id _ _ (is_pipe _ _ _ _ I)).
      split_and!; [apply I | done | done |].
      pose proof (room_full n p pr pi s I (room_zero pi (is_ok _ _ _ _ I) Em)) as H.
      destruct (write_rest_cons c rest total) as (f1 & f2 & f3 & Ew & Ef & _).
      destruct (negb (pi_readopen pi) || p_killed pr); [rewrite Ew, H; apply Ef|].
      destruct H as (k & H & Hk). exists (fun t => obind (obind (obind (k t) f1) f2) f3), n. rewrite Ew, H. split; [done|].
      intros t pr' Ht Hp. by rewrite (Hk t pr' Ht Hp), Ew.
    + assert (zlen (pipe_queue pi) < PIPESIZE) as Hroom by (unfold room in Em; lia).
      destruct (pipe_put_queue c pi (is_ok _ _ _ _ I) Hroom) as [Hok Hq].
      assert (room (pipe_put c pi) = m) as Em'.
      { unfold room, zlen in *. rewrite Hq, length_app. simpl. lia. }
      destruct (IH fuel total (pipe_put c pi) (put_pipe a (pipe_put c pi) s) fuel_pos (inside_put _ _ _ _ _ I Hok)) as (pi' & W1 & W2 & W3 & W4).
      exists pi'. unfold wrote. rewrite Em. simpl. rewrite Em', put_pipe_twice, Hq, <- app_assoc in *.
      change (pi_readopen (pipe_put c pi)) with (pi_readopen pi) in *.
      destruct (write_rest_cons c rest total) as (f1 & f2 & f3 & Ew & _ & Et).
      rewrite Ew, (room_free n _ _ _ _ I Hroom). simpl. by rewrite (Et _ _ (is_pipe _ _ _ _ I)).
Qed.

Lemma read_stretch n p pr pi count s :
  (0 < n)%nat -> inside p pr pi s ->
  (pipe_queue pi = [] /\ pi_writeopen pi = true /\
   if p_killed pr then read_rest n count s = Ret (-1, []) (set_k_held [] s)
   else exists k n', read_rest n count s = Switch (sleep_state p (ChPipeRead a) s) k /\ parked_as p k (read_rest n' count)) \/
  (exists pi', pipe_ok pi' /\ pipe_queue pi' = drop (Z.to_nat count) (pipe_queue pi) /\
    (pipe_queue pi <> [] \/ pi_writeopen pi = false) /\
    let l := take (Z.to_nat count) (pipe_queue pi) in
    read_rest n count s = Ret (zlen l, l) (set_k_held [] (woken (ChPipeWrite a) (put_pipe a pi' s)))).
Proof.
  intros Hn I. destruct n as [|n]; [lia|].
  assert (pipe_queue pi = [] /\ pi_writeopen pi = true \/ (pipe_queue pi <> [] \/ pi_writeopen pi = false)) as [[He Hw]|Hd].
  { destruct (pipe_queue pi), (pi_writeopen pi); auto. }
  - left. split_and!; try done. pose proof (data_none n p pr pi s I He Hw) as H.
    destruct (p_killed pr); [unfold read_rest; by rewrite (bind_Ret _ _ _ _ _ H)|]. destruct H as (k & H & Hk).
    eexists _, n. split; [unfold read_rest, bind at 1; rewrite H; reflexivity|].
    intros t pr' Ht Hp. cbv beta. by rewrite (Hk t pr' Ht Hp).
  - right. destruct (piperead_loop_eq a (Z.to_nat count) pi s (is_pipe _ _ _ _ I) (is_ok _ _ _ _ I)) as (pi' & E & Hok & Hq & _).
    exists pi'. split_and!; try done. cbv zeta. unfold read_rest.
    rewrite (bind_Ret _ _ _ _ _ (data_some n _ _ _ _ I Hd)), (bind_Ret _ _ _ _ _ E).
    pose proof (inside_put _ _ _ _ _ I Hok) as I2. rewrite (bind_Ret _ _ _ _ _ (wakeup_inside _ _ _ _ _ I2)).
    destruct (inside_woken (ChPipeWrite a) _ _ _ _ I2) as (pr' & I').
    by rewrite (bind_Ret _ _ _ _ _ (release_pipe _ _ _ _ I')).
Qed.

(** How a stretch ends. *)
Definition seg (o : outcome kst (Z * list Z)) : option (kst * status) :=
  match o with
  | Ret x s' => Some (s', Returned x.1 x.2)
  | Switch s' k => Some (s', Parked k)
  | _ => None
  end.

(** The state after a stretch, as far as the next one depends on it. *)
Record settled (pi : pipe) (s : kst) : Prop := {
  se_pipe : k_pipes s !! a = Some pi;
  se_ok : pipe_ok pi;
  se_tab : tables_wf (k_ctable s) (k_ptable s)
}.

Lemma tables_len ct pt pt' : tables_wf ct pt -> length pt' = length pt -> tables_wf ct pt'.
Proof. intros [W1 W2 W3] E. split; [done | by rewrite E | done]. Qed.

Lemma inside_settled p pr pi s : inside p pr pi s -> settled pi s.
Proof. intros [I1 I2 I3 I4 I5 I6]. by split. Qed.

Lemma settled_held pi h s : settled pi s -> settled pi (set_k_held h s).
Proof. by intros [H1 H2 H3]. Qed.
Lemma settled_woken pi ch s : settled pi s -> settled pi (woken ch s).
Proof. intros [H1 H2 H3]. split; try done. by apply wake_table_wf. Qed.
Lemma settled_put pi pi' s : settled pi s -> pipe_ok pi' -> settled pi' (put_pipe a pi' s).
Proof. intros [H1 H2 H3] H. split; try done. apply put_pipe_eq. Qed.
Lemma settled_sleep pi p ch s : settled pi s -> settled pi (sleep_state p ch s).
Proof. intros [H1 H2 H3]. split; try done. eapply tables_len; [done | apply length_alter]. Qed.
Local Hint Resolve inside_settled settled_held settled_woken settled_put settled_sleep : core.

Lemma room_full_queue pi pi' rest :
  pipe_ok pi -> pipe_queue pi' = pipe_queue pi ++ (u8 <$> take (room pi) rest) -> drop (room pi) rest <> [] ->
  zlen (pipe_queue pi') = PIPESIZE.
Proof.
  intros [_ _ _ Hs] Hq Hd. unfold zlen. rewrite Hq, length_app, length_fmap, length_take.
  assert (room pi < length rest)%nat by (destruct (decide (length rest <= room pi)%nat); [by rewrite drop_ge in Hd | lia]).
  unfold room, zlen in *. rewrite pipe_queue_length in *. pose proof (u32_range (pi_nwrite pi - pi_nread pi)). lia.
Qed.

Lemma write_seg n p pr pi rest total s s' st :
  rest = [] \/ (0 < n)%nat -> inside p pr pi s -> seg (write_rest n rest total s) = Some (s', st) ->
  exists pi' chunk rest', settled pi' s' /\ rest = chunk ++ rest' /\
    pipe_queue pi' = pipe_queue pi ++ (u8 <$> chunk) /\
    (rest' = [] /\ st = Returned total [] \/
     rest' <> [] /\ (pi_readopen pi = false \/ p_killed pr = true) /\ st = Returned (-1) [] \/
     rest' <> [] /\ zlen (pipe_queue pi') = PIPESIZE /\
       exists k n', st = Parked k /\ parked_as p k (write_rest n' rest' total)).
Proof.
  intros Hn I.
  assert (exists pi', wrote p pr pi pi' rest total s (write_rest n rest total s)) as (pi' & Hok & Hq & Ho & H).
  { destruct Hn as [-> | Hn]; [|by apply write_stretch].
    change (write_rest n [] total s) with (write_rest 1 [] total s). apply write_stretch; [lia | done]. }
  intros Hs. exists pi', (take (room pi) rest), (drop (room pi) rest).
  destruct (drop (room pi) rest) as [|c rest'] eqn:Ed.
  - rewrite H in Hs. injection Hs as <- <-. split; [eauto 6|].
    rewrite <- Ed, take_drop, Ed. auto.
  - rewrite <- Ed in *. assert (drop (room pi) rest <> []) as Hne by (by rewrite Ed).
    rewrite take_drop. destruct (negb (pi_readopen pi) || p_killed pr) eqn:Ek.
    + rewrite H in Hs. injection Hs as <- <-. split; [eauto 6|]. split; [done|]. split; [done|]. right. left.
      apply orb_true_iff in Ek as [Ek%negb_true_iff|Ek]; auto.
    + destruct H as (k & n' & H & Hk). rewrite H in Hs. injection Hs as <- <-. split; [eauto 7|]. split; [done|].
      split; [done|]. right. right. split; [done|]. split; [by eapply room_full_queue; [apply I | |]|]. eauto.
Qed.

Lemma read_seg n p pr pi count s s' st :
  (0 < n)%nat -> inside p pr pi s -> seg (read_rest n count s) = Some (s', st) ->
  exists pi' l, settled pi' s' /\ pipe_queue pi = l ++ pipe_queue pi' /\
    (l = [] /\ p_killed pr = true /\ st = Returned (-1) [] \/
     l = [] /\ pipe_queue pi' = [] /\ pi_writeopen pi' = true /\ (exists k n', st = Parked k /\ parked_as p k (read_rest n' count)) \/
     zlen l <= Z.max 0 count /\ (l = [] -> count <= 0 \/ pi_writeopen pi = false) /\ st = Returned (zlen l) l).
Proof.
  intros Hn I Hs. destruct (read_stretch n p pr pi count s Hn I) as [(He & Hw & H) | (pi' & Hok & Hq & Hd & H)].
  - exists pi, []. destruct (p_killed pr) eqn:Ek.
    + rewrite H in Hs. injection Hs as <- <-. split; [eauto|]. auto.
    + destruct H as (k & n' & H & Hk). rewrite H in Hs. injection Hs as <- <-. split; [eauto|]. split; [done|].
      right. left. eauto 7.
  - cbv zeta in H. rewrite H in Hs. injection Hs as <- <-.
    exists pi', (take (Z.to_nat count) (pipe_queue pi)). split; [eauto 6|]. split; [by rewrite Hq, take_drop|].
    right. right. split; [unfold zlen; rewrite length_take; lia|]. split; [|done].
    intros E. destruct Hd as [Hd|Hd]; [|by right]. left. destruct (pipe_queue pi); [done|].
    destruct (Z.to_nat count) eqn:Ec; [lia | done].
Qed.

(** ** What has gone through the pipe *)

(** The entries of user [i]. *)
Definition tagged {A} (i : nat) (l : list (nat * A)) : list A := snd <$> filter (fun x => x.1 = i) l.

(** What user [i] has put into the pipe: [w] are the bytes written so far, each with its
    writer. *)
Definition has_put (i : nat) (u : user) (w : list (nat * Z)) : Prop :=
  match u_call u, u_status u with
  | CWrite addr, Ready => tagged i w = []
  | CWrite addr, Parked _ => exists d rest, addr = d ++ rest /\ rest <> [] /\ tagged i w = u8 <$> d
  | CWrite addr, Returned r _ =>
      r = zlen addr /\ tagged i w = u8 <$> addr \/
      r = -1 /\ exists d rest, addr = d ++ rest /\ rest <> [] /\ tagged i w = u8 <$> d
  | CRead _, _ => tagged i w = []
  end.

(** What it has taken out: [rds] are the reads that have returned, in order. *)
Definition has_got (i : nat) (u : user) (rds : list (nat * list Z)) : Prop :=
  match u_call u, u_status u with
  | CRead n, Returned r l =>
      r = zlen l /\ zlen l <= Z.max 0 n /\ tagged i rds = [l] \/ r = -1 /\ l = [] /\ tagged i rds = []
  | _, _ => tagged i rds = []
  end.

(** The rest of a call that waits. *)
Definition waiting (i : nat) (u : user) (w : list (nat * Z)) : Prop :=
  match u_call u, u_status u with
  | CWrite addr, Parked k => exists n d rest, addr = d ++ rest /\ rest <> [] /\ tagged i w = u8 <$> d /\
      parked_as (u_proc u) k (write_rest n rest (zlen addr))
  | CRead n, Parked k => exists m, parked_as (u_proc u) k (read_rest m n)
  | _, _ => True
  end.

Record inv (y : sys) (w : list (nat * Z)) (rds : list (nat * list Z)) : Prop := {
  iv_pipe : exists pi, settled pi (y_k y) /\ w.*2 = concat rds.*2 ++ pipe_queue pi;
  iv_user i u : y_users y !! i = Some u ->
    has_put i u w /\ has_got i u rds /\ waiting i u w /\ (u_proc u < NCONT * NPROC)%nat;
  iv_new i : (length (y_users y) <= i)%nat -> tagged i w = [] /\ tagged i rds = []
}.

Lemma tagged_app {A} i (l1 l2 : list (nat * A)) : tagged i (l1 ++ l2) = tagged i l1 ++ tagged i l2.
Proof. unfold tagged. by rewrite filter_app, fmap_app. Qed.

Lemma tagged_same {A} i (l : list A) : tagged i (pair i <$> l) = l.
Proof.
  induction l as [|x l IH]; [done|]. unfold tagged in *. rewrite fmap_cons, filter_cons, decide_True by done.
  rewrite fmap_cons. by f_equal.
Qed.

Lemma tagged_other {A} i j (l : list A) : i <> j -> tagged j (pair i <$> l) = [].
Proof.
  intros N. induction l as [|x l IH]; [done|]. unfold tagged in *. rewrite fmap_cons, filter_cons, decide_False by done. done.
Qed.

Lemma snd_pair {A} (i : nat) (l : list A) : (pair i <$> l).*2 = l.
Proof. rewrite <- list_fmap_compose. apply list_fmap_id. Qed.

(** Entering a stretch. *)
Lemma proc_there s p : tables_wf (k_ctable s) (k_ptable s) -> (p < NCONT * NPROC)%nat -> exists pr, k_ptable s !! p = Some pr.
Proof. intros T Hp. apply lookup_lt_is_Some_2. by rewrite (wf_npt _ _ T). Qed.

Lemma enter_ready s p pr pi :
  settled pi s -> k_ptable s !! p = Some pr ->
  let s0 := set_k_held [LPipe a] (onto p [] s) in
  inside p pr pi s0 /\
  forall c, call_code c (onto p [] s) =
    match c with CWrite addr => write_rest fuel addr (zlen addr) s0 | CRead n => read_rest fuel n s0 end.
Proof.
  intros [S1 S2 S3] Hp s0. split; [by split|].
  assert (acquire (LPipe a) (onto p [] s) = Ret tt s0) as Ea by (apply acquire_eq, not_elem_of_nil).
  intros [addr|n]; unfold call_code, pipewrite_upto, piperead_upto.
  - unfold write_rest. rewrite <- pipewrite_loop_from. unfold bind at 1. by rewrite (bind_Ret _ _ _ _ _ Ea).
  - by rewrite (bind_Ret _ _ _ _ _ Ea).
Qed.

Lemma enter_parked s p pr pi (k m : K (Z * list Z)) :
  settled pi s -> k_ptable s !! p = Some pr -> parked_as p k m ->
  exists pr0 s0, inside p pr0 pi s0 /\ p_killed pr0 = p_killed pr /\
    k (onto p [LPtable] (set_k_ptable (alter (set_p_state RUNNING) p (k_ptable s)) s)) = m s0.
Proof.
  intros [S1 S2 S3] Hp Hk. set (t := onto p [LPtable] _).
  assert (k_ptable t !! p = Some (set_p_state RUNNING pr)) as Ht by (simpl; by rewrite list_lookup_alter_eq, Hp).
  exists (set_p_chan None (set_p_state RUNNING pr)), (wake_state p (LPipe a) t).
  split_and!; [|done | by eapply Hk]. split; try done.
  - simpl. rewrite list_lookup_alter_eq. simpl in Ht. by rewrite Ht.
  - simpl. eapply tables_len; [exact S3|]. by rewrite !length_alter.
Qed.

(** The stretch of a user is one of the two kinds above. *)
Lemma user_stretch i u w s pi :
  settled pi s -> waiting i u w -> has_put i u w -> (u_proc u < NCONT * NPROC)%nat ->
  forall s' st, stretch u s = Some (s', st) ->
  exists pr pr0 s0, k_ptable s !! u_proc u = Some pr /\ inside (u_proc u) pr0 pi s0 /\ p_killed pr0 = p_killed pr /\
    match u_call u with
    | CWrite addr => exists n d rest, addr = d ++ rest /\ tagged i w = u8 <$> d /\ (rest = [] \/ (0 < n)%nat) /\
        seg (write_rest n rest (zlen addr) s0) = Some (s', st)
    | CRead n => exists m, (0 < m)%nat /\ seg (read_rest m n s0) = Some (s', st)
    end.
Proof.
  intros Hset Hw Hput Hp s' st. destruct (proc_there s (u_proc u) (se_tab _ _ Hset) Hp) as [pr Hpr].
  unfold stretch. unfold waiting in Hw. unfold has_put in Hput. destruct u as [p c [|k|r l]]; simpl in *; [| |done].
  - destruct (enter_ready s p pr pi Hset Hpr) as [I E]. rewrite E. intros Hs.
    eexists pr, pr, _. split_and!; [done | exact I | done |]. destruct c as [addr|n].
    + exists fuel, [], addr. split_and!; [done | done | by right | exact Hs].
    + exists fuel. split; [done | exact Hs].
  - rewrite Hpr. simpl. destruct (p_state pr ==? RUNNABLE); [|done]. simpl. destruct c as [addr|n].
    + destruct Hw as (n & d & rest & -> & Hne & Ht & Hk).
      destruct (enter_parked s p pr pi k _ Hset Hpr Hk) as (pr0 & s0 & I & Ek & E). rewrite E. intros Hs.
      exists pr, pr0, s0. split_and!; try done. exists n, d, rest. split_and!; try done. right.
      destruct n; [|lia]. by destruct rest.
    + destruct Hw as (m & Hk).
      destruct (enter_parked s p pr pi k _ Hset Hpr Hk) as (pr0 & s0 & I & Ek & E). rewrite E. intros Hs.
      exists pr, pr0, s0. split_and!; try done. exists m. split; [destruct m; [done | lia] | done].
Qed.

(** One user moves on; the others' part of the history is unchanged. *)
Lemma inv_user y w rds i u s' st w' rds' pi' :
  inv y w rds -> y_users y !! i = Some u -> let u' := mkUser (u_proc u) (u_call u) st in
  settled pi' s' -> w'.*2 = concat rds'.*2 ++ pipe_queue pi' ->
  (forall j, j <> i -> tagged j w' = tagged j w /\ tagged j rds' = tagged j rds) ->
  has_put i u' w' -> has_got i u' rds' -> waiting i u' w' ->
  inv (mkSys s' (<[i := u']> (y_users y))) w' rds'.
Proof.
  intros V Hi u' Hset Hq Hoth H1 H2 H3. pose proof (lookup_lt_Some _ _ _ Hi) as Hlt.
  destruct (iv_user _ _ _ V i u Hi) as (_ & _ & _ & Hp). split; simpl.
  - eauto.
  - intros j v Hj. destruct (decide (j = i)) as [->|N].
    + rewrite list_lookup_insert_eq in Hj by done. by injection Hj as <-.
    + rewrite list_lookup_insert_ne in Hj by done. destruct (iv_user _ _ _ V j v Hj) as (P1 & P2 & P3 & P4).
      destruct (Hoth j N) as [E1 E2]. unfold has_put, has_got, waiting in *. rewrite E1, E2. done.
  - intros j Hj. rewrite length_insert in Hj. destruct (Hoth j ltac:(lia)) as [-> ->]. by apply (iv_new _ _ _ V).
Qed.

Lemma run_inv y w rds i u s' st :
  inv y w rds -> y_users y !! i = Some u -> stretch u (y_k y) = Some (s', st) ->
  exists w' rds', inv (mkSys s' (<[i := mkUser (u_proc u) (u_call u) st]> (y_users y))) w' rds'.
Proof.
  intros V Hi Hs. destruct (iv_pipe _ _ _ V) as (pi & Hset & Hq).
  destruct (iv_user _ _ _ V i u Hi) as (P1 & P2 & P3 & P4).
  destruct (user_stretch i u w (y_k y) pi Hset P3 P1 P4 s' st Hs) as (pr & pr0 & s0 & Hpr & I & Ek & H).
  destruct u as [p [addr|n] ust]; simpl in *.
  - destruct H as (m & d & rest & -> & Ht & Hm & Hseg).
    destruct (write_seg m p pr0 pi rest _ s0 s' st Hm I Hseg) as (pi' & chunk & rest' & Hset' & -> & Hq' & H).
    exists (w ++ (pair i <$> (u8 <$> chunk))), rds.
    assert (tagged i (w ++ (pair i <$> (u8 <$> chunk))) = u8 <$> (d ++ chunk)) as Ht'
      by (by rewrite tagged_app, tagged_same, Ht, fmap_app).
    assert (tagged i rds = []) as Hr by (unfold has_got in P2; simpl in P2; by destruct ust).
    apply (inv_user y w rds i (mkUser p _ ust) s' st _ _ pi'); try done.
    + rewrite fmap_app, snd_pair, Hq, Hq'. by rewrite app_assoc.
    + intros j N. by rewrite tagged_app, tagged_other, app_nil_r by done.
    + unfold has_put. simpl. rewrite Ht'. destruct H as [(-> & ->) | [(Hne & _ & ->) | (Hne & _ & k & n' & -> & _)]].
      * rewrite app_nil_r. by left.
      * right. split; [done|]. exists (d ++ chunk), rest'. by rewrite app_assoc.
      * exists (d ++ chunk), rest'. by rewrite app_assoc.
    + unfold waiting. simpl. rewrite Ht'. destruct H as [(-> & ->) | [(Hne & _ & ->) | (Hne & _ & k & n' & -> & Hk)]]; [done|done|].
      exists n', (d ++ chunk), rest'. by rewrite <- app_assoc.
  - destruct H as (m & Hm & Hseg).
    destruct (read_seg m p pr0 pi n s0 s' st Hm I Hseg) as (pi' & l & Hset' & Hl & H).
    assert (tagged i rds = []) as Hr.
    { unfold has_got in P2. simpl in P2. destruct ust; [done | done|]. done. }
    destruct H as [(-> & _ & ->) | [(-> & _ & _ & k & n' & -> & Hk) | (Hn & _ & ->)]].
    + exists w, rds. apply (inv_user y w rds i (mkUser p _ ust) s' _ _ _ pi'); try done; [by rewrite Hq, Hl | by right].
    + exists w, rds. apply (inv_user y w rds i (mkUser p _ ust) s' _ _ _ pi'); try done; [by rewrite Hq, Hl|]. by exists n'.
    + exists w, (rds ++ [(i, l)]). apply (inv_user y w rds i (mkUser p _ ust) s' _ _ _ pi'); try done.
      * rewrite fmap_app, concat_app, Hq, Hl. simpl. by rewrite app_nil_r, app_assoc.
      * intros j N. change [(i, l)] with (pair i <$> [l]). by rewrite tagged_app, tagged_other, app_nil_r by done.
      * left. simpl. change [(i, l)] with (pair i <$> [l]). by rewrite tagged_app, tagged_same, Hr.
Qed.

Lemma pipe_reachable_inv y : reachable y -> exists w rds, inv y w rds.
Proof.
  induction 1 as [y [(pi & Hp & Hok & Hq) T U] | y y' _ (w & rds & V) Hs].
  - exists [], []. split.
    + exists pi. split; [by split | by rewrite Hq].
    + intros i u Hi. by rewrite U in Hi.
    + done.
  - inversion Hs as [p c [pr Hp] | i u s' st Hi Hst | s' [W1 W2]]; subst; simpl in *.
    + exists w, rds. pose proof (iv_new _ _ _ V (length (y_users y)) ltac:(lia)) as [E1 E2].
      destruct (iv_pipe _ _ _ V) as (pi & Hset & Hq). split; simpl; [by exists pi | |].
      * intros i u [[_ Hi] | [-> <-]]%lookup_snoc_Some; [by apply V|].
        split_and!; [by destruct c | by destruct c | by destruct c |].
        apply lookup_lt_Some in Hp. by rewrite (wf_npt _ _ (se_tab _ _ Hset)) in Hp.
      * intros i Hi. rewrite length_app in Hi. apply V. lia.
    + by eapply run_inv.
    + exists w, rds. destruct (iv_pipe _ _ _ V) as (pi & Hset & Hq). destruct (W1 pi (se_pipe _ _ Hset)) as (pi' & Hp' & D1 & D2 & D3).
      split; simpl; [|apply V|apply V]. exists pi'.
      assert (pipe_queue pi' = pipe_queue pi) as Eq by (unfold pipe_queue; by rewrite D1, D2, D3).
      split; [|by rewrite Eq]. split; [done | | done].
      destruct (se_ok _ _ Hset) as [O1 O2 O3 O4]. split; rewrite ?D1, ?D2, ?D3; done.
Qed.

(** Why a stretch from [s] ends as it does: a write sleeps with the ring full and gives
    up only when no reader is left or its process is killed; a read sleeps with the ring
    empty and a writer left, gives up only when its process is killed, and returns 0
    bytes only at the end of the data (or if it asks for none). *)
Definition justified (u : user) (s s' : kst) (st : status) : Prop :=
  exists pi pi' pr, k_pipes s !! a = Some pi /\ k_pipes s' !! a = Some pi' /\ k_ptable s !! u_proc u = Some pr /\
  match u_call u, st with
  | CWrite _, Parked _ => zlen (pipe_queue pi') = PIPESIZE
  | CWrite _, Returned r _ => r = -1 -> pi_readopen pi = false \/ p_killed pr = true
  | CRead _, Parked _ => pipe_queue pi' = [] /\ pi_writeopen pi' = true
  | CRead n, Returned r _ => (r = -1 -> p_killed pr = true) /\ (r = 0 -> n <= 0 \/ pi_writeopen pi = false)
  | _, Ready => False
  end.

Lemma stretch_justified y w rds i u s' st :
  inv y w rds -> y_users y !! i = Some u -> stretch u (y_k y) = Some (s', st) -> justified u (y_k y) s' st.
Proof.
  intros V Hi Hs. destruct (iv_pipe _ _ _ V) as (pi & Hset & Hq).
  destruct (iv_user _ _ _ V i u Hi) as (P1 & P2 & P3 & P4).
  destruct (user_stretch i u w (y_k y) pi Hset P3 P1 P4 s' st Hs) as (pr & pr0 & s0 & Hpr & I & Ek & H).
  destruct u as [p [addr|n] ust]; simpl in *.
  - destruct H as (m & d & rest & -> & Ht & Hm & Hseg).
    destruct (write_seg m p pr0 pi rest _ s0 s' st Hm I Hseg) as (pi' & chunk & rest' & Hset' & -> & Hq' & H).
    exists pi, pi', pr. split_and!; [apply Hset | apply Hset' | done |]. simpl. rewrite <- Ek.
    destruct H as [(-> & ->) | [(Hne & Hc & ->) | (Hne & Hf & k & n' & -> & _)]]; [unfold zlen; lia | done | done].
  - destruct H as (m & Hm & Hseg).
    destruct (read_seg m p pr0 pi n s0 s' st Hm I Hseg) as (pi' & l & Hset' & Hl & H).
    exists pi, pi', pr. split_and!; [apply Hset | apply Hset' | done |]. simpl. rewrite <- Ek.
    destruct H as [(-> & Hk & ->) | [(-> & He & Hw & k & n' & -> & _) | (Hn & Hz & ->)]]; [done | done|].
    unfold zlen. split; [lia|]. intros E. apply Hz. destruct l; [done | simpl in E; lia].
Qed.

(** A call that starts returns or sleeps: it does not panic, fault or spin. *)
Lemma ready_stretch y w rds i u :
  inv y w rds -> y_users y !! i = Some u -> u_status u = Ready -> is_Some (stretch u (y_k y)).
Proof.
  intros V Hi Hr. destruct (iv_pipe _ _ _ V) as (pi & Hset & Hq).
  destruct (iv_user _ _ _ V i u Hi) as (_ & _ & _ & Hp). unfold stretch. rewrite Hr. simpl.
  destruct (proc_there _ _ (se_tab _ _ Hset) Hp) as [pr Hpr].
  destruct (enter_ready (y_k y) (u_proc u) pr pi Hset Hpr) as [I E]. rewrite E. destruct (u_call u) as [addr|n].
  - destruct (write_stretch (u_proc u) pr addr fuel (zlen addr) pi _ fuel_pos I) as (pi' & _ & _ & _ & H).
    destruct (drop (room pi) addr); [by rewrite H|]. destruct (_ || _); [by rewrite H|].
    destruct H as (k & n' & -> & _). done.
  - destruct (read_stretch fuel (u_proc u) pr pi n _ fuel_pos I) as [(_ & _ & H) | (pi' & _ & _ & _ & H)].
    + destruct (p_killed pr); [by rewrite H|]. destruct H as (k & n' & -> & _). done.
    + cbv zeta in H. by rewrite H.
Qed.

(** C18: a pipe is a queue of at most 512 bytes between any number of writers and
    readers, however they have to wait for each other.  At every moment of every run
    there is a sequence [w] of the bytes written so far, each tagged with its writer,
    and a sequence [rds] of the reads that have returned, such that [w] is what has been
    read followed by what is in the ring; the bytes of each [pipewrite] are a prefix of
    its data, all of it when it returns the count; each [piperead] that returns a count
    has got the bytes of one entry of [rds], no more than it asked for.  And the next
    stretch of any call ends for the right reason: a write sleeps only when the ring is
    full, a read only when it is empty, -1 is returned only to a killed process or to a
    writer without readers, 0 bytes are read only when no writer is left. *)
Theorem pipe_fifo y :
  reachable y ->
  (exists pi w rds, k_pipes (y_k y) !! a = Some pi /\ pipe_ok pi /\ zlen (pipe_queue pi) <= PIPESIZE /\
     w.*2 = concat rds.*2 ++ pipe_queue pi /\
     forall i u, y_users y !! i = Some u -> has_put i u w /\ has_got i u rds) /\
  (forall i u, y_users y !! i = Some u ->
     (u_status u = Ready -> is_Some (stretch u (y_k y))) /\
     forall s' st, stretch u (y_k y) = Some (s', st) -> justified u (y_k y) s' st).
Proof.
  intros (w & rds & V)%pipe_reachable_inv. split.
  - destruct (iv_pipe _ _ _ V) as (pi & [S1 S2 S3] & Hq). exists pi, w, rds. split_and!; try done.
    + unfold zlen. rewrite pipe_queue_length, Z2Nat.id by apply u32_range. apply S2.
    + intros i u Hi. destruct (iv_user _ _ _ V i u Hi) as (? & ? & _). done.
  - intros i u Hi. split; [by eapply ready_stretch | intros s' st Hs; by eapply stretch_justified].
Qed.
End pipe_users.

(** ** A run: a reader waits for a writer

    The counters are about to wrap.  User 0 reads first and sleeps; user 1 writes three
    bytes, which wakes it; it goes on and gets them. *)
Definition wrapping_pipe : pipe := mkPipe (replicate 512 0) 4294967295 4294967295 true true.
Definition pipe_state : kst := put_pipe 4096 wrapping_pipe boot_state.
Definition pipe_start : sys := mkSys pipe_state [].

Definition calling (p : nat) (c : call) (y : sys) : sys := mkSys (y_k y) (y_users y ++ [mkUser p c Ready]).
Definition running (i : nat) (y : sys) : sys :=
  match y_users y !! i with
  | Some u =>
      match stretch 3 4096 u (y_k y) with
      | Some (s', st) => mkSys s' (<[i := mkUser (u_proc u) (u_call u) st]> (y_users y))
      | None => y
      end
  | None => y
  end.

Lemma running_reachable i y : reachable 3 4096 y -> reachable 3 4096 (running i y).
Proof.
  intros Hy. unfold running. destruct (y_users y !! i) as [u|] eqn:Eu; [|done].
  destruct (stretch 3 4096 u (y_k y)) as [[s' st]|] eqn:Es; [|done]. eapply reach_more; [done|]. by apply step_run.
Qed.

Lemma pipe_start_reachable : reachable 3 4096 pipe_start.
Proof.
  apply reach_initial. split; [|exact boot_tables_wf | done].
  exists wrapping_pipe. split; [apply put_pipe_eq|]. split; [|by vm_compute]. split; vm_compute; done.
Qed.

Definition pipe_end : sys :=
  running 0 (running 1 (calling 0 (CWrite [7; 8; 9]) (running 0 (calling 1 (CRead 4) pipe_start)))).

Lemma pipe_end_reachable : reachable 3 4096 pipe_end.
Proof.
  apply running_reachable, running_reachable.
  eapply reach_more; [apply running_reachable; eapply reach_more; [exact pipe_start_reachable|]|]; apply step_call.
  - eexists. reflexivity.
  - apply lookup_lt_is_Some_2. vm_compute. lia.
Qed.

Lemma pipe_fifo_witness :
  (exists u, y_users pipe_end !! 0%nat = Some u /\ u_call u = CRead 4 /\ u_status u = Returned 3 [7; 8; 9]) /\
  exists pi (w : list (nat * Z)) (rds : list (nat * list Z)), k_pipes (y_k pipe_end) !! 4096 = Some pi /\ w.*2 = concat rds.*2 ++ pipe_queue pi /\
    tagged 0 rds = [[7; 8; 9]].
Proof.
  destruct (y_users pipe_end !! 0%nat) as [u|] eqn:Eu; [|vm_compute in Eu; discriminate].
  assert (u_call u = CRead 4 /\ u_status u = Returned 3 [7; 8; 9]) as [Ec Es].
  { assert ((fun u => (u_call u, u_status u)) <$> y_users pipe_end !! 0%nat = Some (CRead 4, Returned 3 [7; 8; 9])) as H
      by (vm_compute; reflexivity). rewrite Eu in H. injection H as H1 H2. exact (conj H1 H2). }
  split; [exists u; split; [reflexivity | exact (conj Ec Es)]|].
  destruct (pipe_fifo 3 4096 ltac:(lia) pipe_end pipe_end_reachable) as [(pi & w & rds & Hp & _ & _ & Hw & H) _].
  exists pi, w, rds. split; [exact Hp|]. split; [exact Hw|].
  destruct (H 0%nat u Eu) as [_ Hg]. unfold has_got in Hg. rewrite Ec, Es in Hg.
  destruct Hg as [(_ & _ & Ht) | (E & _)]; [exact Ht | discriminate E].
Defined.
