(* ===== verification/File.v ===== *)
(** * Files

    file.c, the table of open files, with [pipealloc] of pipe.c.  A read returns the
    bytes it stores at the caller's buffer, a write takes the bytes found there. *)

From S2P Require Import Prelude Monad KState Sched Kalloc Bio Log Fs Inode Pipe.

Local Open Scope kernel_scope.

Definition fileinit : K unit := initlock LFtable.

Definition filealloc : K (option nat) :=
  acquire LFtable ;;
  r <- for_first (seq 0 NFILE) (fun i =>
    f <- get_file i ;;
    if f_ref f =? 0 then
      upd_file i (set_f_ref 1) ;;
      release LFtable ;;
      ret (Some i)
    else ret None) ;;
  match r with
  | Some i => ret (Some i)
  | None => release LFtable ;; ret None
  end.

Definition filedup (i : nat) : K nat :=
  acquire LFtable ;;
  f <- get_file i ;;
  if f_ref f <? 1 then panic "filedup" else
  upd_file i (fun f => set_f_ref (i32 (f_ref f + 1)) f) ;;
  release LFtable ;;
  ret i.

Section files.
Context `{L : Linker} `{DW : Devsw}.

Definition fileclose (i : nat) : K unit :=
  acquire LFtable ;;
  f <- get_file i ;;
  if f_ref f <? 1 then panic "fileclose" else
  upd_file i (fun f => set_f_ref (f_ref f - 1) f) ;;
  f <- get_file i ;;
  if 0 <? f_ref f then release LFtable
  else
    ff <- get_file i ;;
    upd_file i (set_f_ref 0) ;;
    upd_file i (set_f_type FD_NONE) ;;
    release LFtable ;;
    match f_type ff with
    | FD_PIPE => pipeclose (f_pipe ff) (f_writable ff)
    | FD_INODE =>
        begin_op ;;
        ip <- deref "ff.ip" (f_ip ff) ;;
        iput ip ;;
        end_op
    | FD_NONE => ret tt
    end.

(** [filestat]: [None] is the result -1. *)
Definition filestat (i : nat) : K (option stat) :=
  f <- get_file i ;;
  if f_type f ==? FD_INODE then
    ilock (f_ip f) ;;
    ip <- deref "f->ip" (f_ip f) ;;
    st <- stati ip ;;
    iunlock (f_ip f) ;;
    ret (Some st)
  else ret None.

(** [fileread]: the result and the bytes stored at [addr]. *)
Definition fileread (i : nat) (n : Z) : K (Z * list Z) :=
  f <- get_file i ;;
  if negb (f_readable f) then ret (-1, []) else
  match f_type f with
  | FD_PIPE => piperead (f_pipe f) n
  | FD_INODE =>
      ilock (f_ip f) ;;
      ip <- deref "f->ip" (f_ip f) ;;
      f <- get_file i ;;
      ' (r, data) <- readi ip (f_off f) (u32 n) ;;
      when (0 <? r) (upd_file i (fun f => set_f_off (u32 (f_off f + r)) f)) ;;
      iunlock (f_ip f) ;;
      ret (r, data)
  | FD_NONE => panic "fileread"
  end.

(** The bytes one transaction of [filewrite] may write. *)
Definition MAXWRITE : Z := ((LOGSIZE - 1 - 1 - 2) / 2) * 512.

(** [filewrite]: [addr] are the [n] bytes to write. *)
Definition filewrite (fi : nat) (addr : list Z) (n : Z) : K Z :=
  f <- get_file fi ;;
  if negb (f_writable f) then ret (-1) else
  match f_type f with
  | FD_PIPE => pipewrite (f_pipe f) addr
  | FD_INODE =>
      i <- loop (S (S (Z.to_nat (n / MAXWRITE)))) (fun i =>
        if i <? n then
          let n1 := Z.min (n - i) MAXWRITE in
          begin_op ;;
          ilock (f_ip f) ;;
          ip <- deref "f->ip" (f_ip f) ;;
          f' <- get_file fi ;;
          r <- writei ip (take (Z.to_nat n1) (drop (Z.to_nat i) addr)) (f_off f') (u32 n1) ;;
          when (0 <? r) (upd_file fi (fun f => set_f_off (u32 (f_off f + r)) f)) ;;
          iunlock (f_ip f) ;;
          end_op ;;
          if r <? 0 then ret (inr i) else
          if negb (r =? n1) then panic "short filewrite" else
          ret (inl (i + r))
        else ret (inr i)) 0 ;;
      ret (if i =? n then n else -1)
  | FD_NONE => panic "filewrite"
  end.

(** [pipealloc]: the two files, or [None] for -1.  The data of a new pipe is not
    initialised; it is never read before being written. *)
Definition pipealloc : K (option (nat * nat)) :=
  let bad (p : Z) (f0 f1 : option nat) :=
    when (negb (p =? 0)) (kfree p) ;;
    match f0 with Some f => fileclose f | None => ret tt end ;;
    match f1 with Some f => fileclose f | None => ret tt end ;;
    ret None in
  f0 <- filealloc ;;
  match f0 with
  | None => bad 0 None None
  | Some i0 =>
      f1 <- filealloc ;;
      match f1 with
      | None => bad 0 f0 None
      | Some i1 =>
          p <- kalloc ;;
          if p =? 0 then bad 0 f0 f1 else
          modify (fun s => set_k_pipes (<[p := mkPipe (replicate 512 0) 0 0 true true]> (k_pipes s)) s) ;;
          upd_file i0 (set_f_type FD_PIPE) ;;
          upd_file i0 (set_f_readable true) ;;
          upd_file i0 (set_f_writable false) ;;
          upd_file i0 (set_f_pipe p) ;;
          upd_file i1 (set_f_type FD_PIPE) ;;
          upd_file i1 (set_f_readable false) ;;
          upd_file i1 (set_f_writable true) ;;
          upd_file i1 (set_f_pipe p) ;;
          ret (Some (i0, i1))
      end
  end.
End files.
