(* ===== verification/Proc.v ===== *)
(** * Processes

    proc.c: creation of processes in a container's row of the process table, fork,
    exit, wait and kill.  (The sleeping and waking half of proc.c is in Sched.v.)
    Trap frames and contexts are bytes of the kernel stack page, as in the code. *)

From S2P Require Import Prelude Monad CString KState Sched Kalloc Bio Log Fs Inode Vm Pipe File.

Local Open Scope kernel_scope.

(** [struct trapframe] (x86.h) and [struct context] (proc.h): field offsets. *)
Definition TF_SIZE : Z := 76.
Definition tf_edi : Z := 0.
Definition tf_esi : Z := 4.
Definition tf_ebp : Z := 8.
Definition tf_ebx : Z := 16.
Definition tf_edx : Z := 20.
Definition tf_ecx : Z := 24.
Definition tf_eax : Z := 28.
Definition tf_es : Z := 40.
Definition tf_ds : Z := 44.
Definition tf_trapno : Z := 48.
Definition tf_err : Z := 52.
Definition tf_eip : Z := 56.
Definition tf_cs : Z := 60.
Definition tf_eflags : Z := 64.
Definition tf_esp : Z := 68.
Definition tf_ss : Z := 72.
Definition CONTEXT_SIZE : Z := 20.
Definition ctx_ebp : Z := 12.
Definition ctx_eip : Z := 16.

Definition SEG_UCODE : Z := 3.
Definition SEG_UDATA : Z := 4.
Definition DPL_USER : Z := 3.
Definition FL_IF : Z := 512.

Definition store16 (a v : Z) : K unit := upd_mem (fun m => st8 (st8 m a v) (a + 1) (v / 256)).
Definition load16 (a : Z) : K Z := gets (fun s => k_mem s a + 256 * k_mem s (a + 1)).

(** The processes [ptable .. &ptable[nproc]) of a container. *)
Definition proc_row (co : cont) : K (list nat) :=
  base <- deref "cont->ptable" (c_ptable co) ;;
  ret (seq base (Z.to_nat (c_mproc co))).

Definition initcode_name : list Z := [105; 110; 105; 116; 99; 111; 100; 101; 0].

Section procs.
Context `{L : Linker} `{DW : Devsw}.

Definition allocproc (c : nat) : K (option nat) :=
  co <- get_cont c ;;
  if negb (c_state co ==? CRUNNABLE) && negb (c_state co ==? CRUNNING) then ret None else
  acquireptable ;;
  co <- get_cont c ;;
  row <- (if c_mproc co <=? 0 then ret [] else proc_row co) ;;
  r <- for_first row (fun p =>
    pr <- get_proc p ;;
    ret (if p_state pr ==? UNUSED then Some p else None)) ;;
  match r with
  | None => releaseptable ;; ret None
  | Some p =>
      upd_proc p (set_p_state EMBRYO) ;;
      pid <- gets (fun s => k_nextpid s) ;;
      modify (set_k_nextpid (i32 (pid + 1))) ;;
      upd_proc p (set_p_pid pid) ;;
      releaseptable ;;
      ks <- kalloc ;;
      upd_proc p (set_p_kstack ks) ;;
      if ks =? 0 then
        upd_proc p (set_p_state UNUSED) ;;
        ret None
      else
        let sp := ks + KSTACKSIZE - TF_SIZE in
        upd_proc p (set_p_tf sp) ;;
        let sp := sp - 4 in
        store32 sp sym_trapret ;;
        let sp := sp - CONTEXT_SIZE in
        upd_proc p (set_p_context sp) ;;
        upd_mem (fun m => KString.memset m sp 0 CONTEXT_SIZE) ;;
        store32 (sp + ctx_eip) sym_forkret ;;
        upd_proc p (set_p_ticks 0) ;;
        upd_proc p (set_p_cont (Some c)) ;;
        upd_cont c (fun co => set_c_uproc (i32 (c_uproc co + 1)) co) ;;
        ret (Some p)
  end.

Definition initprocess (c : nat) : K nat :=
  r <- allocproc c ;;
  match r with
  | None => panic "initprocess: failed to alloc initproc"
  | Some p =>
      pd <- setupkvm ;;
      upd_proc p (set_p_pgdir pd) ;;
      if pd =? 0 then panic "initprocess: out of memory?" else
      modify (set_k_initproc (Some p)) ;;
      inituvm pd initcode (zlen initcode) ;;
      pr <- get_proc p ;;
      let tf := p_tf pr in
      upd_mem (fun m => KString.memset m tf 0 TF_SIZE) ;;
      store16 (tf + tf_cs) (Z.lor (Z.shiftl SEG_UCODE 3) DPL_USER) ;;
      store16 (tf + tf_ds) (Z.lor (Z.shiftl SEG_UDATA 3) DPL_USER) ;;
      ds <- load16 (tf + tf_ds) ;;
      store16 (tf + tf_es) ds ;;
      ds <- load16 (tf + tf_ds) ;;
      store16 (tf + tf_ss) ds ;;
      store32 (tf + tf_eflags) FL_IF ;;
      store32 (tf + tf_esp) PGSIZE ;;
      store32 (tf + tf_eip) 0 ;;
      upd_proc p (set_p_sz PGSIZE) ;;
      upd_proc p (fun pr => set_p_name (Obj.safestrcpy (p_name pr) initcode_name) pr) ;;
      co <- get_cont c ;;
      rd <- deref "rootdir" (c_rootdir co) ;;
      cwd <- idup rd ;;
      upd_proc p (set_p_cwd (Some cwd)) ;;
      upd_proc p (set_p_cont (Some c)) ;;
      acquireptable ;;
      upd_proc p (set_p_state RUNNABLE) ;;
      releaseptable ;;
      ret p
  end.

Definition growproc (n : Z) : K Z :=
  p <- curproc ;;
  pr <- get_proc p ;;
  let sz := p_sz pr in
  r <- (if 0 <? n then
          sz <- allocuvm (p_pgdir pr) sz (u32 (sz + n)) ;;
          ret (if sz =? 0 then None else Some sz)
        else if n <? 0 then
          sz <- deallocuvm (p_pgdir pr) sz (u32 (sz + n)) ;;
          ret (if sz =? 0 then None else Some sz)
        else ret (Some sz)) ;;
  match r with
  | None => ret (-1)
  | Some sz =>
      upd_proc p (set_p_sz sz) ;;
      switchuvm (Some p) ;;
      ret 0
  end.

Definition fork (parentcont : option nat) : K Z :=
  cur <- curproc ;;
  pr <- get_proc cur ;;
  ini <- gets (fun s => k_initproc s) ;;
  ' (cwd, c, parent) <- match parentcont with
    | None =>
        c <- deref "cont" (p_cont pr) ;;
        ret (p_cwd pr, c, Some cur)
    | Some pc =>
        co <- get_cont pc ;;
        ret (c_rootdir co, pc, ini)
    end ;;
  r <- allocproc c ;;
  match r with
  | None => ret (-1)
  | Some np =>
      pr <- get_proc cur ;;
      pd <- copyuvm (p_pgdir pr) (p_sz pr) ;;
      upd_proc np (set_p_pgdir pd) ;;
      if pd =? 0 then
        npr <- get_proc np ;;
        kfree (p_kstack npr) ;;
        upd_proc np (set_p_kstack 0) ;;
        upd_proc np (set_p_state UNUSED) ;;
        ret (-1)
      else
        pr <- get_proc cur ;;
        upd_proc np (set_p_sz (p_sz pr)) ;;
        upd_proc np (set_p_parent parent) ;;
        npr <- get_proc np ;;
        upd_mem (fun m => put_bytes m (p_tf npr) (bytes_at m (p_tf pr) (Z.to_nat TF_SIZE))) ;;
        store32 (p_tf npr + tf_eax) 0 ;;
        for_each (seq 0 NOFILE) (fun i =>
          pr <- get_proc cur ;;
          match pr.(p_ofile) !! i with
          | Some (Some f) =>
              f' <- filedup f ;;
              upd_proc np (fun npr => set_p_ofile (<[i := Some f']> (p_ofile npr)) npr)
          | _ => ret tt
          end) ;;
        cwd <- deref "cwd" cwd ;;
        cwd' <- idup cwd ;;
        upd_proc np (set_p_cwd (Some cwd')) ;;
        pr <- get_proc cur ;;
        upd_proc np (fun npr => set_p_name (Obj.safestrcpy (p_name npr) (p_name pr)) npr) ;;
        npr <- get_proc np ;;
        let pid := p_pid npr in
        acquireptable ;;
        upd_proc np (set_p_state RUNNABLE) ;;
        releaseptable ;;
        ret pid
  end.

Definition exit : K unit :=
  cur <- curproc ;;
  ini <- gets (fun s => k_initproc s) ;;
  if ini ==? Some cur then panic "init exiting" else
  for_each (seq 0 NOFILE) (fun fd =>
    pr <- get_proc cur ;;
    match pr.(p_ofile) !! fd with
    | Some (Some f) =>
        fileclose f ;;
        upd_proc cur (fun pr => set_p_ofile (<[fd := None]> (p_ofile pr)) pr)
    | _ => ret tt
    end) ;;
  begin_op ;;
  pr <- get_proc cur ;;
  cwd <- deref "cwd" (p_cwd pr) ;;
  iput cwd ;;
  end_op ;;
  upd_proc cur (set_p_cwd None) ;;
  acquireptable ;;
  pr <- get_proc cur ;;
  c <- deref "cont" (p_cont pr) ;;
  co <- get_cont c ;;
  wakeup1 (ChProc <$> p_parent pr) ;;
  row <- proc_row co ;;
  for_each row (fun p =>
    q <- get_proc p ;;
    when (p_parent q ==? Some cur)
      (upd_proc p (set_p_parent ini) ;;
       q <- get_proc p ;;
       when (p_state q ==? ZOMBIE) (wakeup1 (ChProc <$> ini)))) ;;
  upd_cont c (fun co => set_c_uproc (i32 (c_uproc co - 1)) co) ;;
  upd_proc cur (set_p_state ZOMBIE) ;;
  sched ;;
  panic "zombie exit".

(** One scan of [wait]: the pid of a child reaped, or whether there are children. *)
Fixpoint wait_scan (row : list nat) (cur : nat) (havekids : bool) : K (Z + bool) :=
  match row with
  | [] => ret (inr havekids)
  | p :: row' =>
      q <- get_proc p ;;
      if negb (p_parent q ==? Some cur) then wait_scan row' cur havekids else
      if p_state q ==? ZOMBIE then
        let pid := p_pid q in
        kfree (p_kstack q) ;;
        upd_proc p (set_p_kstack 0) ;;
        freevm (p_pgdir q) ;;
        upd_proc p (set_p_pid 0) ;;
        upd_proc p (set_p_parent None) ;;
        upd_proc p (fun q => set_p_name (lput (p_name q) 0 0) q) ;;
        upd_proc p (set_p_killed false) ;;
        upd_proc p (set_p_state UNUSED) ;;
        releaseptable ;;
        ret (inl pid)
      else wait_scan row' cur true
  end.

Definition wait : K Z :=
  cur <- curproc ;;
  acquireptable ;;
  pr <- get_proc cur ;;
  c <- deref "cont" (p_cont pr) ;;
  co <- get_cont c ;;
  row <- proc_row co ;;
  loop MAXWAIT (fun _ : unit =>
    r <- wait_scan row cur false ;;
    match r with
    | inl pid => ret (inr pid)
    | inr havekids =>
        pr <- get_proc cur ;;
        if negb havekids || p_killed pr then
          releaseptable ;;
          ret (inr (-1))
        else
          sleep (ChProc cur) LPtable ;;
          ret (inl tt)
    end) tt.

Definition forkret : K unit :=
  releaseptable ;;
  first <- gets (fun s => k_first s) ;;
  when first
    (modify (set_k_first false) ;;
     iinit ROOTDEV ;;
     initlog ROOTDEV).

Definition kill (pid : Z) : K Z :=
  acquireptable ;;
  c <- mycont ;;
  co <- get_cont c ;;
  row <- proc_row co ;;
  r <- for_first row (fun p =>
    pr <- get_proc p ;;
    if p_pid pr =? pid then
      upd_proc p (set_p_killed true) ;;
      pr <- get_proc p ;;
      when (p_state pr ==? SLEEPING) (upd_proc p (set_p_state RUNNABLE)) ;;
      releaseptable ;;
      ret (Some 0)
    else ret None) ;;
  match r with
  | Some z => ret z
  | None => releaseptable ;; ret (-1)
  end.
End procs.
