(* ===== verification/Container.v ===== *)
(** * Containers

    container.c: the container table, the system calls that create, start, stop,
    pause, resume and list containers, and the scheduler that visits the containers
    in turn.  (The CPU identification, [wakeup1], [sched] and [ckill] are in
    Spinlock.v, Sched.v and Kalloc.v, below their users.)

    A [name] argument is the characters of the caller's string. *)

From S2P Require Import Prelude Monad CString KState Spinlock Sched Kalloc Bio Log Fs Inode Path Vm Pipe File Proc.

Local Open Scope kernel_scope.

Definition cinit : K unit := initlock LCtable ;; initlock LPtable.

(** "initcont" *)
Definition initcont_name : list Z := [105; 110; 105; 116; 99; 111; 110; 116; 0].

Definition alloccont : K (option nat) :=
  acquire LCtable ;;
  r <- for_first (seq 0 NCONT) (fun c =>
    co <- get_cont c ;;
    ret (if c_state co ==? CUNUSED then Some c else None)) ;;
  match r with
  | None => release LCtable ;; ret None
  | Some c =>
      upd_cont c (set_c_state CEMBRYO) ;;
      cid <- gets (fun s => k_nextcid s) ;;
      upd_cont c (set_c_cid cid) ;;
      modify (set_k_nextcid (i32 (cid + 1))) ;;
      release LCtable ;;
      ret (Some c)
  end.

(** [strncmp(name, c->name, strlen(name)) == 0] *)
Definition name_matches (name : list Z) (co : cont) : K bool :=
  r <- deref "strncmp" (Obj.strncmp (Obj.cstring name) (c_name co) (length name)) ;;
  ret (r =? 0).

Definition cid2cont (cid : Z) : K (option nat) :=
  for_first (seq 0 NCONT) (fun i =>
    co <- get_cont i ;;
    ret (if (c_cid co =? cid) && negb (c_state co ==? CUNUSED) then Some i else None)).

Definition name2cont (name : list Z) : K (option nat) :=
  for_first (seq 0 NCONT) (fun i =>
    co <- get_cont i ;;
    b <- name_matches name co ;;
    ret (if b && negb (c_state co ==? CUNUSED) then Some i else None)).

Definition cexit (c : nat) : K Z :=
  acquire LCtable ;;
  upd_cont c (fun co => set_c_name (lput (c_name co) 0 0) co) ;;
  upd_cont c (set_c_msz 0) ;;
  upd_cont c (set_c_mdsk 0) ;;
  upd_cont c (set_c_mproc 0) ;;
  upd_cont c (set_c_upg 0) ;;
  upd_cont c (set_c_udsk 0) ;;
  upd_cont c (set_c_rootdir None) ;;
  upd_cont c (set_c_nextproc 0) ;;
  upd_cont c (set_c_cid 0) ;;
  upd_cont c (set_c_state CUNUSED) ;;
  release LCtable ;;
  ret 1.

(** [myproc()->cont->cid != ROOTCONT] *)
Definition not_root : K bool :=
  c <- mycont ;;
  co <- get_cont c ;;
  ret (negb (c_cid co =? ROOTCONT)).

Definition cstop (name : list Z) : K Z :=
  nr <- not_root ;;
  if (nr : bool) then ret (-1) else
  r <- name2cont name ;;
  match r with
  | None => ret (-1)
  | Some c =>
      co <- get_cont c ;;
      if negb (c_state co ==? CRUNNABLE) && negb (c_state co ==? CPAUSED) then ret (-1) else
      ckill c
  end.

Definition cpause (name : list Z) : K Z :=
  nr <- not_root ;;
  if (nr : bool) then ret (-1) else
  r <- name2cont name ;;
  match r with
  | None => ret (-1)
  | Some c =>
      co <- get_cont c ;;
      if negb (c_state co ==? CRUNNABLE) then ret (-1) else
      acquire LCtable ;;
      upd_cont c (set_c_state CPAUSED) ;;
      release LCtable ;;
      ret 1
  end.

Definition cresume (name : list Z) : K Z :=
  nr <- not_root ;;
  if (nr : bool) then ret (-1) else
  r <- name2cont name ;;
  match r with
  | None => ret (-1)
  | Some c =>
      co <- get_cont c ;;
      if negb (c_state co ==? CPAUSED) then ret (-1) else
      acquire LCtable ;;
      upd_cont c (set_c_state CRUNNABLE) ;;
      release LCtable ;;
      ret 1
  end.

(** continfo.h, as far as [cinfo] fills it. *)
Record pinfo : Type := mkPinfo {
  pi_state : procstate;
  pi_pid : Z;
  pi_name : list Z;
  pi_ticks : Z
}.
Record continfo1 : Type := mkContinfo1 {
  ci_msz : Z;
  ci_mdsk : Z;
  ci_mproc : Z;
  ci_usz : Z;
  ci_udsk : Z;
  ci_cid : Z;
  ci_state : contstate;
  ci_name : list Z;
  ci_procs : list pinfo
}.

(** What [safestrcpy] leaves readable of a 16-byte name. *)
Definition copied_name (src : list Z) : list Z := take 15 (Obj.chars src).

(** The processes in use of a row, in order. *)
Fixpoint cinfo_procs (row : list nat) : K (list pinfo) :=
  match row with
  | [] => ret []
  | p :: row' =>
      pr <- get_proc p ;;
      if p_state pr ==? UNUSED then cinfo_procs row' else
      l <- cinfo_procs row' ;;
      ret (mkPinfo (p_state pr) (p_pid pr) (copied_name (p_name pr)) (p_ticks pr) :: l)
  end.

Fixpoint cinfo_conts (cs : list nat) : K (list continfo1) :=
  match cs with
  | [] => ret []
  | c :: cs' =>
      co <- get_cont c ;;
      me <- mycont ;;
      mo <- get_cont me ;;
      if (negb (c_cid mo =? ROOTCONT) && negb (c_cid mo =? c_cid co)) || (c_state co ==? CUNUSED)
      then cinfo_conts cs'
      else
        row <- proc_row co ;;
        procs <- cinfo_procs row ;;
        l <- cinfo_conts cs' ;;
        ret (mkContinfo1 (c_msz co) (c_mdsk co) (c_mproc co) (i32 (c_upg co * PGSIZE)) (c_udsk co)
               (c_cid co) (c_state co) (copied_name (c_name co)) procs :: l)
  end.

(** [cinfo]: the result, [ci->root] and the entries of [ci->conts] filled. *)
Definition cinfo : K (Z * bool * list continfo1) :=
  nr <- not_root ;;
  acquireptable ;;
  l <- cinfo_conts (seq 0 NCONT) ;;
  releaseptable ;;
  ret (1, negb nr, l).

Section containers.
Context `{L : Linker} `{DW : Devsw}.

Definition initcontainer : K nat :=
  r <- alloccont ;;
  match r with
  | None => panic "Can't alloc init container."
  | Some c =>
      rd <- namei [SLASH] ;;
      match rd with
      | None => panic "Can't set '/' as root container's rootdir"
      | Some rootdir =>
          acquire LCtable ;;
          upd_cont c (set_c_mproc (Z.of_nat NPROC)) ;;
          upd_cont c (set_c_msz MAX_CONT_MEM) ;;
          upd_cont c (set_c_mdsk MAX_CONT_DSK) ;;
          upd_cont c (set_c_state CRUNNABLE) ;;
          rd <- idup rootdir ;;
          upd_cont c (set_c_rootdir (Some rd)) ;;
          upd_cont c (fun co => set_c_name (Obj.safestrcpy (c_name co) initcont_name) co) ;;
          for_each (seq 0 NCONT) (fun i => upd_cont i (set_c_ptable (Some (i * NPROC)%nat))) ;;
          release LCtable ;;
          cprintf "Init container" [] ;;
          ret c
      end
  end.

Definition userinit : K unit :=
  cprintf "userinit" [] ;;
  root <- initcontainer ;;
  initprocess root ;;
  ret tt.

Definition ccreate (name : list Z) (mproc msz mdsk : Z) : K Z :=
  r <- name2cont name ;;
  match r with
  | Some _ => ret (-1)
  | None =>
      if (Z.of_nat NPROC <? mproc) || (MAX_CONT_MEM <? msz) || (MAX_CONT_DSK <? mdsk) then ret (-1) else
      nc <- alloccont ;;
      match nc with
      | None => ret (-1)
      | Some c =>
          rd <- namei name ;;
          match rd with
          | None => upd_cont c (set_c_state CUNUSED) ;; ret (-1)
          | Some rootdir =>
              acquire LCtable ;;
              upd_cont c (set_c_mproc mproc) ;;
              upd_cont c (set_c_msz msz) ;;
              upd_cont c (set_c_mdsk mdsk) ;;
              rd <- idup rootdir ;;
              upd_cont c (set_c_rootdir (Some rd)) ;;
              upd_cont c (set_c_name (Obj.strncpy (Obj.cstring name) 16)) ;;
              upd_cont c (set_c_state CREADY) ;;
              release LCtable ;;
              ret 1
          end
      end
  end.

Definition cstart (name : list Z) : K Z :=
  acquire LCtable ;;
  r <- for_first (seq 0 NCONT) (fun i =>
    co <- get_cont i ;;
    b <- name_matches name co ;;
    ret (if b && (c_state co ==? CREADY) then Some i else None)) ;;
  match r with
  | None => release LCtable ;; ret (-1)
  | Some nc =>
      co <- get_cont nc ;;
      let mdsk := c_mdsk co in
      rootdir <- deref "rootdir" (c_rootdir co) ;;
      release LCtable ;;
      udsk <- dirsize rootdir name ;;
      if (udsk <? 1) || (mdsk <? udsk) then ret (-1) else
      acquire LCtable ;;
      upd_cont nc (set_c_udsk udsk) ;;
      upd_cont nc (set_c_state CRUNNABLE) ;;
      release LCtable ;;
      co <- get_cont nc ;;
      ret (c_cid co)
  end.

Definition cfork (cid : Z) : K Z :=
  r <- cid2cont cid ;;
  match r with
  | None => ret (-1)
  | Some c => fork (Some c)
  end.

(** ** The scheduler

    [sched_pick c]: the part of the loop body of [scheduler] up to the switch; the
    process to run, if the container's turn yields one. *)
Definition sched_pick (c : nat) : K (option nat) :=
  co <- get_cont c ;;
  if negb (c_state co ==? CRUNNABLE) && negb (c_state co ==? CSTOPPING) then ret None else
  base <- deref "cont->ptable" (c_ptable co) ;;
  let p := Z.to_nat (Z.of_nat base + c_nextproc co) in
  upd_cont c (fun co => set_c_nextproc (i32 (c_nextproc co + 1)) co) ;;
  co <- get_cont c ;;
  when (c_nextproc co =? c_mproc co) (upd_cont c (set_c_nextproc 0)) ;;
  pr <- get_proc p ;;
  if negb (p_state pr ==? RUNNABLE) then ret None else
  co <- get_cont c ;;
  when (c_state co ==? CSTOPPING)
    (upd_proc p (set_p_killed true) ;;
     pr <- get_proc p ;;
     when (p_state pr ==? SLEEPING) (upd_proc p (set_p_state RUNNABLE))) ;;
  ret (Some p).

Definition sched_turn (c : nat) : K unit :=
  r <- sched_pick c ;;
  match r with
  | None => ret tt
  | Some p =>
      modify (set_k_cur (Some p)) ;;
      switchuvm (Some p) ;;
      upd_proc p (set_p_state RUNNING) ;;
      swtch_out ;;
      switchkvm ;;
      modify (set_k_cur None) ;;
      co <- get_cont c ;;
      when (c_uproc co =? 0) (cexit c ;; ret tt)
  end.

(** One round over the containers, and the endless loop cut after [n] rounds. *)
Definition sched_round : K unit :=
  acquireptable ;;
  for_each (seq 0 NCONT) sched_turn ;;
  releaseptable.

Definition scheduler (n : nat) : K unit :=
  modify (set_k_cur None) ;;
  for_each (seq 0 n) (fun _ => sched_round).

(** [contdump]: a [%s] argument is listed by its characters. *)
Definition state_name (st : procstate) : list Z :=
  match st with
  | UNUSED => [117; 110; 117; 115; 101; 100]
  | EMBRYO => [101; 109; 98; 114; 121; 111]
  | SLEEPING => [115; 108; 101; 101; 112; 32]
  | RUNNABLE => [114; 117; 110; 98; 108; 101]
  | RUNNING => [114; 117; 110; 32; 32; 32]
  | ZOMBIE => [122; 111; 109; 98; 105; 101]
  end.

(** The non-zero program counters at the start of the list. *)
Fixpoint nonzero_prefix (l : list Z) : list Z :=
  match l with
  | [] => []
  | x :: l' => if x =? 0 then [] else x :: nonzero_prefix l'
  end.

Definition contdump : K unit :=
  acquireptable ;;
  for_each (seq 0 NCONT) (fun i =>
    co <- get_cont i ;;
    if c_state co ==? CUNUSED then ret tt else
    cprintf "Container %d: %s" (c_cid co :: Obj.chars (c_name co)) ;;
    row <- (if c_mproc co <=? 0 then ret [] else proc_row co) ;;
    for_each row (fun p =>
      pr <- get_proc p ;;
      if p_state pr ==? UNUSED then ret tt else
      cprintf "%d %s %s" (p_pid pr :: state_name (p_state pr) ++ Obj.chars (p_name pr)) ;;
      when (p_state pr ==? SLEEPING)
        (m <- gets (fun s => k_mem s) ;;
         let ebp := ld32 m (p_context pr + ctx_ebp) in
         for_each (nonzero_prefix (SpinCpu.getcallerpcs m (u32 (ebp + 8)))) (fun pc =>
           cprintf " %p" [pc])) ;;
      cprintf "" [])) ;;
  releaseptable.
End containers.
