(* ===== verification/Isolation.v ===== *)
(** * What containers promise

    Theorems about container.c and [kill]: the scheduler runs only processes of
    containers that may run and visits the slots of a container in turn, the
    control calls are the root container's and follow the life cycle of a
    container, and [kill] and [cinfo] stay within the caller's container. *)

From S2P Require Import Prelude Monad CString KState Spinlock Sched Kalloc Bio Log Fs Inode Path Vm Pipe File Proc Container.

Local Open Scope kernel_scope.

(** ** The scheduler's choice *)

Definition schedulable (co : cont) : bool := (c_state co ==? CRUNNABLE) || (c_state co ==? CSTOPPING).

(** The slot after the one a turn looks at. *)
Definition next_slot (co : cont) : Z :=
  if c_nextproc co + 1 =? c_mproc co then 0 else c_nextproc co + 1.

(** The tables are laid out, and a container that may run points into its row. *)
Record sched_wf (s : kst) : Prop := {
  sw_tab : tables_wf (k_ctable s) (k_ptable s);
  sw_next c co : k_ctable s !! c = Some co -> schedulable co = true -> 0 <= c_nextproc co < c_mproc co
}.

(** The process slot a turn of container [c] looks at. *)
Definition turn_slot (c : nat) (co : cont) : nat := (c * NPROC + Z.to_nat (c_nextproc co))%nat.

(** The state after the scheduler has looked at the slot: a process of a stopping
    container about to run is killed. *)
Definition looked (c : nat) (co : cont) (s : kst) : kst :=
  set_k_ctable (alter (set_c_nextproc (next_slot co)) c (k_ctable s)) s.
Definition doomed (co : cont) (pr : proc) : proc :=
  if c_state co ==? CSTOPPING then set_p_killed true pr else pr.
Definition picked (c : nat) (co : cont) (s : kst) : kst :=
  set_k_ptable (alter (doomed co) (turn_slot c co) (k_ptable s)) (looked c co s).

Lemma turn_slot_lookup s c co :
  sched_wf s -> k_ctable s !! c = Some co -> schedulable co = true ->
  c_ptable co = Some (c * NPROC)%nat /\ in_cont co (turn_slot c co) /\
  exists pr, k_ptable s !! turn_slot c co = Some pr.
Proof.
  intros [Ht Hn] Hc Hs. pose proof (Hn c co Hc Hs) as Hr.
  destruct (wf_row _ _ Ht c co Hc ltac:(lia)) as [Hp Hm].
  assert (c < NCONT)%nat as Hlt by (rewrite <- (wf_nct _ _ Ht); by eapply lookup_lt_Some).
  split; [done|]. split.
  - exists (c * NPROC)%nat. unfold turn_slot. split; [done|]. lia.
  - apply lookup_lt_is_Some_2. rewrite (wf_npt _ _ Ht). unfold turn_slot. klia.
Qed.

Lemma sched_pick_idle s c co :
  k_ctable s !! c = Some co -> schedulable co = false -> sched_pick c s = Ret None s.
Proof.
  intros Hc Hs. unfold sched_pick. rewrite (bind_Ret _ _ _ _ _ (get_cont_eq _ _ _ Hc)).
  unfold schedulable in Hs. apply orb_false_iff in Hs as [-> ->]. done.
Qed.

Lemma alter_id {A} (f : A -> A) i (l : list A) : (forall x, l !! i = Some x -> f x = x) -> alter f i l = l.
Proof.
  intros H. apply list_eq. intros j. rewrite lookup_alter_case. case_decide; [|done]. subst.
  destruct (l !! j) eqn:E; simpl; [|done]. f_equal. by apply H.
Qed.

(** The two updates of [nextproc]. *)
Lemma next_slot_run {B} s c co (k : K B) :
  k_ctable s !! c = Some co -> 0 <= c_nextproc co < c_mproc co -> c_mproc co <= Z.of_nat NPROC ->
  (upd_cont c (fun co => set_c_nextproc (i32 (c_nextproc co + 1)) co) ;;
   co <- get_cont c ;;
   when (c_nextproc co =? c_mproc co) (upd_cont c (set_c_nextproc 0)) ;; k) s
  = k (looked c co s).
Proof.
  intros Hc Hr Hm. rewrite (bind_Ret _ _ _ _ _ (upd_cont_eq _ _ _ _ Hc)).
  set (s1 := set_k_ctable _ s).
  assert (k_ctable s1 !! c = Some (set_c_nextproc (c_nextproc co + 1) co)) as H1.
  { simpl. rewrite list_lookup_alter_eq, Hc. simpl. by rewrite i32_small by klia. }
  rewrite (bind_Ret _ _ _ _ _ (get_cont_eq _ _ _ H1)). simpl c_nextproc. simpl c_mproc.
  unfold looked, next_slot. destruct (c_nextproc co + 1 =? c_mproc co); unfold when.
  - rewrite (bind_Ret _ _ _ _ _ (upd_cont_eq _ _ _ _ H1)). f_equal. unfold s1, set_k_ctable; simpl.
    by rewrite alter_alter.
  - krun. f_equal. unfold s1, set_k_ctable. f_equal. apply list_eq. intros j.
    rewrite !lookup_alter_case. case_decide; [|done]. subst. rewrite Hc. simpl.
    by rewrite i32_small by klia.
Qed.

Lemma sched_pick_at s c co pr :
  tables_wf (k_ctable s) (k_ptable s) -> k_ctable s !! c = Some co -> schedulable co = true ->
  0 <= c_nextproc co < c_mproc co -> k_ptable s !! turn_slot c co = Some pr ->
  sched_pick c s =
    if p_state pr ==? RUNNABLE then Ret (Some (turn_slot c co)) (picked c co s)
    else Ret None (looked c co s).
Proof.
  intros Hwf Hc Hs Hr Hp. destruct (wf_row _ _ Hwf c co Hc ltac:(lia)) as [Hrow Hm].
  unfold sched_pick. rewrite (bind_Ret _ _ _ _ _ (get_cont_eq _ _ _ Hc)).
  replace (negb (c_state co ==? CRUNNABLE) && negb (c_state co ==? CSTOPPING)) with false
    by (unfold schedulable in Hs; by destruct (c_state co)).
  rewrite Hrow. unfold deref at 1. krun.
  replace (Z.to_nat (Z.of_nat (c * NPROC) + c_nextproc co)) with (turn_slot c co) by (unfold turn_slot; lia).
  rewrite (next_slot_run s c co _ Hc Hr Hm).
  rewrite (bind_Ret (get_proc _) _ _ pr (looked c co s)) by (by apply get_proc_eq).
  destruct (bool_decide_reflect (p_state pr = RUNNABLE)) as [Er|Er]; cbn [negb]; [|done].
  assert (k_ctable (looked c co s) !! c = Some (set_c_nextproc (next_slot co) co)) as Hl
    by (simpl; by rewrite list_lookup_alter_eq, Hc).
  rewrite (bind_Ret _ _ _ _ _ (get_cont_eq _ _ _ Hl)). simpl c_state.
  unfold picked, doomed. destruct (c_state co ==? CSTOPPING) eqn:Est; unfold when.
  - erewrite bind_Ret; [done|].
    rewrite (bind_Ret (upd_proc _ _) _ _ tt _ (upd_proc_eq _ _ _ (looked c co s) Hp)).
    erewrite bind_Ret.
    2:{ apply get_proc_eq. simpl. by rewrite list_lookup_alter_eq, Hp. }
    rewrite bool_decide_eq_false_2 by (change (p_state pr <> SLEEPING); by rewrite Er). reflexivity.
  - krun. unfold ret. f_equal. rewrite alter_id by done. by destruct s.
Qed.

Lemma sched_pick_eq s c co pr :
  sched_wf s -> k_ctable s !! c = Some co -> schedulable co = true ->
  k_ptable s !! turn_slot c co = Some pr ->
  sched_pick c s =
    if p_state pr ==? RUNNABLE then Ret (Some (turn_slot c co)) (picked c co s)
    else Ret None (looked c co s).
Proof. intros [Ht Hn] Hc Hs Hp. by apply sched_pick_at; [| | | apply (Hn c) |]. Qed.

(** ** A turn of the scheduler *)

(** The CPU in process [p]. *)
Definition on_cpu (p : nat) (pr : proc) (s : kst) : kst :=
  set_k_ptable (alter (set_p_state RUNNING) p (k_ptable s))
    (set_k_cr3 (V2P (p_pgdir pr)) (set_k_esp0 (u32 (p_kstack pr + KSTACKSIZE)) (set_k_cur (Some p) s))).

(** The container's entry after its last process is gone. *)
Definition ended (co : cont) : cont :=
  set_c_state CUNUSED (set_c_cid 0 (set_c_nextproc 0 (set_c_rootdir None (set_c_udsk 0 (set_c_upg 0
    (set_c_mproc 0 (set_c_mdsk 0 (set_c_msz 0 (set_c_name (lput (c_name co) 0 0) co))))))))).

(** Back in the scheduler. *)
Definition off_cpu (c : nat) (s : kst) : kst :=
  let s := set_k_cur None (set_k_cr3 (V2P (k_kpgdir s)) s) in
  set_k_ctable (alter (fun co => if c_uproc co =? 0 then ended co else co) c (k_ctable s)) s.

(** Consecutive updates of one container are one update. *)
Lemma upd_cont_fuse {B} c f g (k : unit -> K B) s :
  bind (upd_cont c f) (fun _ => bind (upd_cont c g) k) s = bind (upd_cont c (fun co => g (f co))) k s.
Proof.
  destruct (k_ctable s !! c) as [co|] eqn:E.
  - rewrite (bind_Ret _ _ _ _ _ (upd_cont_eq c f co s E)).
    rewrite (bind_Ret _ _ _ _ _ (upd_cont_eq c (fun co => g (f co)) co s E)).
    erewrite (bind_Ret (upd_cont c g)).
    2:{ apply (upd_cont_eq c g (f co)). simpl. by rewrite list_lookup_alter_eq, E. }
    unfold set_k_ctable. simpl. by rewrite alter_alter.
  - unfold upd_cont, get_cont, bind, gets. simpl. by rewrite E.
Qed.

(** Releases the lock taken last. *)
Ltac release_top :=
  match goal with
  | |- bind (release ?lk) _ ?s = _ =>
      let h := eval cbn in (k_held s) in
      match h with lk :: ?l => rewrite (bind_Ret (release lk) _ _ tt _ (release_eq lk l s eq_refl)) end
  end.

Lemma cexit_eq s c co :
  k_ctable s !! c = Some co -> LCtable ∉ k_held s ->
  cexit c s = Ret 1 (set_k_ctable (alter ended c (k_ctable s)) s).
Proof.
  intros Hc Hl. unfold cexit. rewrite (bind_Ret _ _ _ _ _ (acquire_eq _ _ Hl)).
  rewrite !upd_cont_fuse.
  rewrite (bind_Ret _ _ _ _ _ (upd_cont_eq c _ co (set_k_held (LCtable :: k_held s) s) Hc)).
  release_top. done.
Qed.

Lemma sched_turn_back s c co :
  k_ctable s !! c = Some co -> LCtable ∉ k_held s ->
  (switchkvm ;;
   modify (set_k_cur None) ;;
   co <- get_cont c ;;
   when (c_uproc co =? 0) (cexit c ;; ret tt)) s = Ret tt (off_cpu c s).
Proof.
  intros Hc Hl. set (s1 := set_k_cur None (set_k_cr3 (V2P (k_kpgdir s)) s)).
  rewrite (bind_Ret switchkvm _ _ tt (set_k_cr3 (V2P (k_kpgdir s)) s)) by reflexivity.
  rewrite bind_modify. fold s1.
  rewrite (bind_Ret (get_cont c) _ _ co s1) by (by apply get_cont_eq).
  unfold off_cpu, when. fold s1. destruct (c_uproc co =? 0) eqn:E.
  - rewrite (bind_Ret _ _ _ _ _ (cexit_eq s1 c co Hc Hl)). unfold ret. do 2 f_equal.
    apply list_eq. intros j. rewrite !lookup_alter_case. case_decide; [|done]. subst.
    simpl. rewrite Hc. simpl. by rewrite E.
  - unfold ret. f_equal. rewrite alter_id; [by destruct s1|]. simpl. intros x Hx.
    assert (x = co) as -> by congruence. by rewrite E.
Qed.

Lemma sched_turn_switch s c co pr :
  sched_wf s -> k_ctable s !! c = Some co -> schedulable co = true ->
  k_ptable s !! turn_slot c co = Some pr -> p_state pr = RUNNABLE ->
  p_kstack pr <> 0 -> p_pgdir pr <> 0 ->
  exists k, sched_turn c s = Switch (on_cpu (turn_slot c co) pr (picked c co s)) k /\
    forall s2 co2, k_ctable s2 !! c = Some co2 -> LCtable ∉ k_held s2 -> k s2 = Ret tt (off_cpu c s2).
Proof.
  intros Hwf Hc Hs Hp Hst Hk Hd. unfold sched_turn.
  rewrite (bind_Ret _ _ _ _ _ ltac:(rewrite (sched_pick_eq s c co pr Hwf Hc Hs Hp), Hst; reflexivity)).
  set (p := turn_slot c co) in *. set (s1 := picked c co s).
  assert (k_ptable s1 !! p = Some (doomed co pr)) as Hp1
    by (unfold s1, picked; simpl; fold p; by rewrite list_lookup_alter_eq, Hp).
  rewrite bind_modify. unfold switchuvm.
  erewrite bind_Ret.
  2:{ rewrite (bind_Ret (get_proc p) _ _ _ _ (get_proc_eq p (doomed co pr) (set_k_cur (Some p) s1) Hp1)).
      replace (p_kstack (doomed co pr)) with (p_kstack pr) by (unfold doomed; by destruct (_ ==? _)).
      replace (p_pgdir (doomed co pr)) with (p_pgdir pr) by (unfold doomed; by destruct (_ ==? _)).
      rewrite (proj2 (Z.eqb_neq _ 0) Hk), (proj2 (Z.eqb_neq _ 0) Hd). reflexivity. }
  erewrite (bind_Ret (upd_proc _ _)) by (apply (upd_proc_eq _ _ (doomed co pr)); exact Hp1).
  unfold bind at 1, swtch_out. simpl obind. eexists. split.
  - unfold on_cpu. reflexivity.
  - intros s2 co2 H2 Hl. exact (sched_turn_back s2 c co2 H2 Hl).
Qed.

(** C10: what one turn of the scheduler does for container [c], whatever its state.
    A container that is not runnable or stopping (in particular a paused one) is
    passed over and nothing changes.  Otherwise the turn looks at the slot [nextproc]
    of the container's own row and advances [nextproc] cyclically.  If the process
    there is not RUNNABLE, that is all.  If it is, the CPU switches to it, RUNNING,
    in its own address space and on its own kernel stack, and killed if the container
    is stopping; when it gives the CPU back, the kernel's page table is loaded, and a
    container without processes is freed. *)
Theorem scheduler_turn s c co :
  sched_wf s -> k_ctable s !! c = Some co ->
  if schedulable co then
    exists pr, in_cont co (turn_slot c co) /\ k_ptable s !! turn_slot c co = Some pr /\
      if p_state pr ==? RUNNABLE then
        p_kstack pr <> 0 -> p_pgdir pr <> 0 ->
        exists k, sched_turn c s = Switch (on_cpu (turn_slot c co) pr (picked c co s)) k /\
          forall s2 co2, k_ctable s2 !! c = Some co2 -> LCtable ∉ k_held s2 ->
            k s2 = Ret tt (off_cpu c s2)
      else sched_turn c s = Ret tt (looked c co s)
  else sched_turn c s = Ret tt s.
Proof.
  intros Hwf Hc. destruct (schedulable co) eqn:Hs.
  - destruct (turn_slot_lookup s c co Hwf Hc Hs) as (_ & Hin & pr & Hp). exists pr.
    split; [done|]. split; [done|].
    destruct (bool_decide_reflect (p_state pr = RUNNABLE)) as [E|E].
    + intros Hk Hd. exact (sched_turn_switch s c co pr Hwf Hc Hs Hp E Hk Hd).
    + unfold sched_turn. rewrite (bind_Ret _ _ _ None (looked c co s)); [reflexivity|].
      rewrite (sched_pick_eq s c co pr Hwf Hc Hs Hp), (bool_decide_eq_false_2 _ E). reflexivity.
  - unfold sched_turn. rewrite (bind_Ret _ _ _ _ _ (sched_pick_idle s c co Hc Hs)). reflexivity.
Qed.

(** Two containers with work: the root container runs its process 0 and has process 1
    runnable; container 2 has a limit of two processes, both runnable. *)
Definition duo_cont : cont :=
  mkCont 8192 4096 2 0 0 2 2 (Some 0%nat) CRUNNABLE ([98; 111; 120] ++ replicate 13 0) (Some 64%nat) 0.
Definition duo_proc (pid : Z) (c : nat) : proc :=
  set_p_kstack 8192 (set_p_pgdir 4096 (set_p_cont (Some c) (set_p_pid pid (set_p_state RUNNABLE proc0)))).
Definition duo_state : kst :=
  set_k_ctable (boot_cont :: duo_cont :: (cont0 <$> seq 2 6))
    (set_k_ptable (<[64%nat := duo_proc 3 1]> (<[65%nat := duo_proc 4 1]> (<[1%nat := duo_proc 2 0]> (k_ptable boot_state))))
      boot_state).

Lemma duo_tables_wf ct :
  length ct = NCONT ->
  (forall i c, ct !! i = Some c -> 0 < c_mproc c -> c_ptable c = Some (i * NPROC)%nat /\ c_mproc c <= Z.of_nat NPROC) ->
  tables_wf ct (k_ptable duo_state).
Proof. intros H1 H2. split; [done | reflexivity | done]. Qed.

(** Decides a statement about every entry of a concrete container table. *)
Ltac each_cont Hc i :=
  do 8 (destruct i as [|i]; [simpl in Hc; injection Hc as <-; simpl in *; first [lia | done]|]); done.

Lemma duo_sched_wf : sched_wf duo_state.
Proof.
  split.
  - apply duo_tables_wf; [done|]. intros i c Hc Hpos. each_cont Hc i.
  - intros i c Hc Hs. each_cont Hc i.
Qed.

Lemma scheduler_turn_witness :
  exists k, sched_turn 1 duo_state = Switch (on_cpu 64 (duo_proc 3 1) (picked 1 duo_cont duo_state)) k.
Proof.
  destruct (scheduler_turn duo_state 1 duo_cont duo_sched_wf eq_refl) as (pr & _ & Hp & H).
  assert (pr = duo_proc 3 1) as -> by (injection Hp as <-; reflexivity).
  destruct (H ltac:(done) ltac:(done)) as (k & Hk & _). exists k. exact Hk.
Defined.

(** ** Every runnable process gets its turn *)

Section round_robin.
Context (c p : nat) (m : Z).

(** The entry of container [c], as far as its turns depend on it. *)
Definition turn_entry (s : kst) : option (Z * Z * bool) :=
  (fun co => (c_nextproc co, c_mproc co, schedulable co)) <$> k_ctable s !! c.

(** What may happen between two turns of [c]: anything (other containers run, the
    processes of [c] do what they do) that keeps the tables laid out, does not touch
    [nextproc], which nobody but the scheduler does, leaves the container schedulable
    with its size, and leaves [p] RUNNABLE if it was. *)
Record between_turns (f : kst -> kst) : Prop := {
  bt_wf s : tables_wf (k_ctable s) (k_ptable s) -> tables_wf (k_ctable (f s)) (k_ptable (f s));
  bt_entry s : turn_entry (f s) = turn_entry s;
  bt_proc s : p_state <$> k_ptable s !! p = Some RUNNABLE -> p_state <$> k_ptable (f s) !! p = Some RUNNABLE
}.

(** The state in which [c] has its [i]-th turn, when [others i] happens after turn [i]. *)
Fixpoint turn_state (others : nat -> kst -> kst) (s : kst) (i : nat) : option kst :=
  match i with
  | O => Some s
  | S j =>
      t ← turn_state others s j;
      match sched_pick c t with Ret _ t' => Some (others j t') | _ => None end
  end.

(** The states before a turn: container [c] looks at slot [nxt] next. *)
Record at_turn (nxt : Z) (s : kst) : Prop := {
  at_wf : tables_wf (k_ctable s) (k_ptable s);
  at_entry : turn_entry s = Some (nxt, m, true);
  at_proc : p_state <$> k_ptable s !! p = Some RUNNABLE
}.

Lemma at_turn_pick nxt s :
  at_turn nxt s -> 0 <= nxt < m ->
  exists r s', sched_pick c s = Ret r s' /\ at_turn (if nxt + 1 =? m then 0 else nxt + 1) s' /\
    (Z.of_nat p = Z.of_nat (c * NPROC) + nxt -> r = Some p).
Proof.
  intros [Hwf He Hp] Hr. apply fmap_Some in He as (co & Hc & [= E1 E2 Hs]).
  pose proof (wf_row _ _ Hwf c co Hc ltac:(lia)) as [Hrow Hm].
  assert (c < NCONT)%nat as Hlt by (rewrite <- (wf_nct _ _ Hwf); by eapply lookup_lt_Some).
  destruct (lookup_lt_is_Some_2 (k_ptable s) (turn_slot c co)) as [pr Hpr];
    [rewrite (wf_npt _ _ Hwf); unfold turn_slot; klia|].
  pose proof (sched_pick_at s c co pr Hwf Hc (eq_sym Hs) ltac:(lia) Hpr) as E.
  assert (turn_entry (looked c co s) = Some (if nxt + 1 =? m then 0 else nxt + 1, m, true)) as He'.
  { unfold turn_entry. simpl. rewrite list_lookup_alter_eq, Hc. simpl. unfold next_slot. by rewrite <- E1, <- E2, Hs. }
  assert (tables_wf (k_ctable (looked c co s)) (k_ptable s)) as Hwf' by (by apply tables_wf_alter).
  assert (Z.of_nat p = Z.of_nat (c * NPROC) + nxt -> turn_slot c co = p) as Ht by (unfold turn_slot; lia).
  destruct (bool_decide_reflect (p_state pr = RUNNABLE)) as [R|R]; eexists _, _; (split; [exact E|]).
  - split; [|intros ->%Ht; done]. split; [| exact He' |].
    + destruct Hwf' as [W1 W2 W3]. split; [done | simpl; by rewrite length_alter | done].
    + simpl. rewrite lookup_alter_case. case_decide; [|done].
      destruct (k_ptable s !! p); simpl in *; [|done]. unfold doomed. by destruct (c_state co ==? CSTOPPING).
  - split; [by split|]. intros Ep%Ht. rewrite Ep in Hpr. rewrite Hpr in Hp. simpl in Hp. congruence.
Qed.

Lemma at_turn_others f nxt s : between_turns f -> at_turn nxt s -> at_turn nxt (f s).
Proof. intros [H1 H2 H3] [A1 A2 A3]. split; [by apply H1 | by rewrite H2 | by apply H3]. Qed.

Lemma turn_state_at others s nxt i :
  (forall j, between_turns (others j)) -> at_turn nxt s -> 0 <= nxt < m ->
  exists t, turn_state others s i = Some t /\ at_turn ((nxt + Z.of_nat i) mod m) t.
Proof.
  intros Ho Hs Hr. induction i as [|i IH].
  - exists s. rewrite Z.add_0_r, Z.mod_small by lia. done.
  - destruct IH as (t & E & A). pose proof (Z.mod_pos_bound (nxt + Z.of_nat i) m ltac:(lia)) as Hb.
    destruct (at_turn_pick _ t A Hb) as (r & t' & Ep & A' & _).
    exists (others i t'). simpl. rewrite E. simpl. rewrite Ep. split; [done|].
    apply at_turn_others; [apply Ho|].
    replace ((nxt + Z.of_nat (S i)) mod m) with (((nxt + Z.of_nat i) mod m + 1) mod m)
      by (rewrite Z.add_mod_idemp_l by lia; f_equal; lia).
    destruct (Z.eqb_spec ((nxt + Z.of_nat i) mod m + 1) m) as [Em|Em]; [rewrite Em, Z_mod_same_full in * | rewrite Z.mod_small by lia]; exact A'.
Qed.

(** C19: the scheduler is fair within a container.  Start from any state in which the
    container may run, [nextproc] is within its row and process [p] of the row is
    RUNNABLE.  Whatever happens between the container's turns, as long as it leaves
    [p] RUNNABLE and the container schedulable and as large, one of the next [mproc]
    turns picks [p]. *)
Theorem round_robin others s nxt :
  (forall j, between_turns (others j)) -> at_turn nxt s -> 0 <= nxt < m ->
  (c * NPROC <= p)%nat -> Z.of_nat p < Z.of_nat (c * NPROC) + m ->
  exists i t t', Z.of_nat i < m /\ turn_state others s i = Some t /\ sched_pick c t = Ret (Some p) t'.
Proof.
  intros Ho Hs Hr Hlo Hhi. set (slot := Z.of_nat p - Z.of_nat (c * NPROC)).
  pose proof (Z.mod_pos_bound (slot - nxt) m ltac:(lia)) as Hb.
  destruct (turn_state_at others s nxt (Z.to_nat ((slot - nxt) mod m)) Ho Hs Hr) as (t & E & A).
  rewrite Z2Nat.id, Z.add_mod_idemp_r in A by lia.
  replace (nxt + (slot - nxt)) with slot in A by lia. rewrite Z.mod_small in A by lia.
  destruct (at_turn_pick slot t A ltac:(lia)) as (r & t' & Ep & _ & Hp).
  rewrite (Hp ltac:(lia)) in Ep. exists (Z.to_nat ((slot - nxt) mod m)), t, t'. split; [lia | done].
Qed.
End round_robin.

(** The example's second container, its second slot next: its first process has to wait
    for the wrap of [nextproc].  Between the turns the other containers' clock ticks. *)
Definition duo_late : kst :=
  set_k_ctable (<[1%nat := set_c_nextproc 1 duo_cont]> (k_ctable duo_state)) duo_state.

Lemma duo_late_turn : at_turn 1 64 2 1 duo_late.
Proof.
  split; [|reflexivity|reflexivity].
  apply duo_tables_wf; [done|]. intros j c Hc Hpos. each_cont Hc j.
Qed.

Lemma round_robin_witness :
  exists i t t', Z.of_nat i < 2 /\ turn_state 1 (fun _ s => set_k_ticks (k_ticks s + 1) s) duo_late i = Some t /\
    sched_pick 1 t = Ret (Some 64%nat) t'.
Proof.
  apply (round_robin 1 64 2 _ duo_late 1); [| exact duo_late_turn | lia | simpl; lia | simpl; lia].
  intros j. by split.
Defined.

(** A stopping container's sleeping process: the scheduler passes over it, so the
    code that would wake it from its sleep is never reached. *)
Lemma stopping_sleeper_skipped s c co pr :
  sched_wf s -> k_ctable s !! c = Some co -> c_state co = CSTOPPING ->
  k_ptable s !! turn_slot c co = Some pr -> p_state pr = SLEEPING ->
  exists s', sched_turn c s = Ret tt s' /\ k_ptable s' = k_ptable s.
Proof.
  intros Hwf Hc Hst Hp Hsl. exists (looked c co s). split; [|done].
  assert (schedulable co = true) as Hs by (unfold schedulable; by rewrite Hst).
  unfold sched_turn. rewrite (bind_Ret _ _ _ None (looked c co s)); [reflexivity|].
  rewrite (sched_pick_eq s c co pr Hwf Hc Hs Hp), Hsl. reflexivity.
Qed.

(** A container created with a limit of 0 processes and started: its [nextproc] never
    meets the limit, and after 64 turns it runs the processes of the next container. *)
Definition zero_limit_state : kst :=
  set_k_ctable (boot_cont :: set_c_mproc 0 duo_cont :: (cont0 <$> seq 2 6))
    (set_k_ptable (<[128%nat := duo_proc 5 2]> (k_ptable boot_state)) boot_state).
Lemma zero_limit_escapes :
  exists s', (for_each (seq 0 64) (fun _ => sched_pick 1 ;; ret tt) ;; sched_pick 1) zero_limit_state
             = Ret (Some 128%nat) s'.
Proof. eexists. vm_compute. reflexivity. Qed.

(** ** Looking a container up by name *)

(** The container is in use and its name starts with the characters given. *)
Definition named (name : list Z) (co : cont) : bool :=
  bool_decide (name `prefix_of` Obj.chars (c_name co)) && negb (c_state co ==? CUNUSED).

(** Container names as the kernel keeps them: 16 bytes, and a query that fits them. *)
Record names_ok (name : list Z) (ct : list cont) : Prop := {
  no_query : Forall (fun x => 0 < x) name /\ (length name <= 15)%nat;
  no_table i co : ct !! i = Some co -> length (c_name co) = 16%nat /\ Forall (fun x => 0 <= x) (c_name co);
  no_len : length ct = NCONT
}.

(** A loop over a table that looks for an entry. *)
Lemma for_first_findi {S A B} (P : A -> bool) (g : nat -> B) (l : list A) base (body : nat -> M S (option B)) s :
  (forall i a, l !! i = Some a -> body (base + i)%nat s = Ret (if P a then Some (g (base + i)%nat) else None) s) ->
  for_first (seq base (length l)) body s = Ret ((fun i => g (base + i)%nat) <$> findi P l) s.
Proof.
  revert base. induction l as [|a l IH]; intros base H; [done|]. simpl seq. simpl findi.
  pose proof (H 0%nat a eq_refl) as H0. rewrite Nat.add_0_r in H0.
  destruct (P a).
  - rewrite (for_first_found base _ _ _ _ _ H0). simpl. by rewrite Nat.add_0_r.
  - rewrite (for_first_next base _ _ _ _ H0).
    rewrite IH.
    + f_equal. destruct (findi P l); simpl; [|done]. do 2 f_equal. lia.
    + intros i b Hi. specialize (H (Datatypes.S i) b Hi). rewrite Nat.add_succ_r in H. exact H.
Qed.

Lemma strncmp_total p q n :
  (n <= length p)%nat -> (n <= length q)%nat -> exists r, Obj.strncmp p q n = Some r.
Proof.
  revert p q. induction n as [|n IH]; intros [|a p] [|b q] Hp Hq; simpl in *; try lia; [eauto..|].
  destruct (negb (a =? 0) && (a =? b)); [apply IH; lia | eauto].
Qed.

Lemma name_matches_eq name ct i co s :
  names_ok name ct -> ct !! i = Some co ->
  name_matches name co s = Ret (bool_decide (name `prefix_of` Obj.chars (c_name co))) s.
Proof.
  intros [[Hq Hl] Ht _] Hi. destruct (Ht i co Hi) as [H16 _].
  destruct (strncmp_total (Obj.cstring name) (c_name co) (length name)) as [r Hr].
  { unfold Obj.cstring. rewrite length_app. lia. }
  { lia. }
  unfold name_matches. rewrite Hr. unfold deref. krun. unfold ret. f_equal.
  pose proof (strncmp_prefix name (c_name co) r ltac:(eapply Forall_impl; [exact Hq | simpl; lia]) Hr) as Hp.
  destruct (Z.eqb_spec r 0) as [E|E]; symmetry.
  - apply bool_decide_eq_true_2. tauto.
  - apply bool_decide_eq_false_2. tauto.
Qed.

Lemma name2cont_eq name s :
  names_ok name (k_ctable s) -> name2cont name s = Ret (findi (named name) (k_ctable s)) s.
Proof.
  intros Hn. unfold name2cont. rewrite <- (no_len _ _ Hn).
  rewrite (for_first_findi (named name) (fun i => i)).
  - f_equal. simpl. by destruct (findi _ _).
  - intros i co Hi. rewrite Nat.add_0_l.
    rewrite (bind_Ret _ _ _ _ _ (get_cont_eq _ _ _ Hi)).
    rewrite (bind_Ret _ _ _ _ _ (name_matches_eq _ _ _ _ _ Hn Hi)). reflexivity.
Qed.

(** ** The control calls *)

Inductive ctl : Type := Pause | Resume | Stop.
Definition run_ctl (op : ctl) : list Z -> K Z :=
  match op with Pause => cpause | Resume => cresume | Stop => cstop end.

(** The life cycle steps of the control calls. *)
Definition ctl_next (op : ctl) (st : contstate) : option contstate :=
  match op, st with
  | Pause, CRUNNABLE => Some CPAUSED
  | Resume, CPAUSED => Some CRUNNABLE
  | Stop, CRUNNABLE => Some CSTOPPING
  | Stop, CPAUSED => Some CSTOPPING
  | _, _ => None
  end.

(** What a control call is meant to do: only for the root container, only for a
    container in use, and only along a step of the life cycle. *)
Definition ctl_spec (op : ctl) (caller : cont) (name : list Z) (ct : list cont) : option (list cont) :=
  if c_cid caller =? ROOTCONT then
    c ← findi (named name) ct;
    co ← ct !! c;
    st ← ctl_next op (c_state co);
    Some (alter (set_c_state st) c ct)
  else None.

(** The calling process and its container. *)
Record caller (s : kst) (me : nat) (co : cont) : Prop := {
  cl_cur : exists p pr, k_cur s = Some p /\ k_ptable s !! p = Some pr /\ p_cont pr = Some me;
  cl_cont : k_ctable s !! me = Some co
}.

Lemma not_root_eq s me co :
  caller s me co -> not_root s = Ret (negb (c_cid co =? ROOTCONT)) s.
Proof.
  intros [(p & pr & H1 & H2 & H3) Hc]. unfold not_root.
  rewrite (bind_Ret _ _ _ _ _ (mycont_eq p pr me s H1 H2 H3)).
  rewrite (bind_Ret _ _ _ _ _ (get_cont_eq _ _ _ Hc)). reflexivity.
Qed.

(** The locked change of state all three end with. *)
Lemma locked_state_eq s c co st :
  k_ctable s !! c = Some co -> LCtable ∉ k_held s ->
  (acquire LCtable ;; upd_cont c (set_c_state st) ;; release LCtable ;; ret 1) s
  = Ret 1 (set_k_ctable (alter (set_c_state st) c (k_ctable s)) s).
Proof.
  intros Hc Hl. rewrite (bind_Ret _ _ _ _ _ (acquire_eq _ _ Hl)).
  rewrite (bind_Ret _ _ _ _ _ (upd_cont_eq c _ co (set_k_held (LCtable :: k_held s) s) Hc)).
  release_top. reflexivity.
Qed.

(** C32: the control calls refine [ctl_spec].  [cpause], [cresume] and [cstop] called
    from outside the root container, for a name no container in use starts with, or for
    a container in another state of its life cycle, return -1 and change nothing;
    otherwise they return 1 and move exactly that container to its next state. *)
Theorem control_refines op name s me co :
  caller s me co -> names_ok name (k_ctable s) -> LCtable ∉ k_held s ->
  run_ctl op name s =
    match ctl_spec op co name (k_ctable s) with
    | Some ct => Ret 1 (set_k_ctable ct s)
    | None => Ret (-1) s
    end.
Proof.
  intros Hme Hn Hl. unfold ctl_spec.
  assert (forall k, (nr <- not_root ;; if (nr : bool) then ret (-1) else k) s =
                    if c_cid co =? ROOTCONT then k s else Ret (-1) s) as Hroot.
  { intros k. rewrite (bind_Ret _ _ _ _ _ (not_root_eq s me co Hme)). by destruct (_ =? _). }
  destruct op; unfold run_ctl, cpause, cresume, cstop; rewrite Hroot; (destruct (_ =? _); [|reflexivity]);
    rewrite (bind_Ret _ _ _ _ _ (name2cont_eq name s Hn));
    (destruct (findi (named name) (k_ctable s)) as [c|] eqn:F; [|reflexivity]); simpl;
    destruct (proj1 (findi_Some _ _ _) F) as (cc & Hcc & _);
    rewrite (bind_Ret _ _ _ _ _ (get_cont_eq _ _ _ Hcc)), Hcc; simpl;
    destruct (c_state cc); simpl; try reflexivity; exact (locked_state_eq s c cc _ Hcc Hl).
Qed.

Lemma duo_caller : caller duo_state 0 boot_cont.
Proof. split; [|reflexivity]. exists 0%nat, boot_proc. done. Qed.

(** "box" *)
Definition box : list Z := [98; 111; 120].
Lemma duo_names : names_ok box (k_ctable duo_state).
Proof.
  split; [|intros i co Hc | reflexivity].
  - split; [by repeat constructor | simpl; lia].
  - assert (forall n, Forall (fun x => 0 <= x) (replicate n 0)) as Hz
      by (intros n; apply Forall_replicate; lia).
    do 8 (destruct i as [|i]; [simpl in Hc; injection Hc as <-; simpl c_name;
      split; [reflexivity | rewrite ?Forall_app; repeat first [split | apply Hz | constructor | lia]] |]); done.
Qed.

Lemma control_refines_witness :
  cpause box duo_state =
    Ret 1 (set_k_ctable (alter (set_c_state CPAUSED) 1%nat (k_ctable duo_state)) duo_state).
Proof.
  pose proof (control_refines Pause box duo_state 0 boot_cont duo_caller duo_names ltac:(apply not_elem_of_nil)) as H.
  exact H.
Defined.

(** ** [kill] *)

(** The processes of a container's row. *)
Definition row_procs (co : cont) (pt : list proc) : list proc :=
  match c_ptable co with
  | Some base => take (Z.to_nat (c_mproc co)) (drop base pt)
  | None => []
  end.

(** A killed process, woken if it was asleep. *)
Definition struck (pr : proc) : proc :=
  let pr := set_p_killed true pr in
  if p_state pr ==? SLEEPING then set_p_state RUNNABLE pr else pr.

(** The row is a slice of the process table. *)
Lemma row_lookup s me co i pr :
  tables_wf (k_ctable s) (k_ptable s) -> k_ctable s !! me = Some co -> 0 < c_mproc co ->
  row_procs co (k_ptable s) !! i = Some pr ->
  c_ptable co = Some (me * NPROC)%nat /\ k_ptable s !! (me * NPROC + i)%nat = Some pr /\
  in_cont co (me * NPROC + i).
Proof.
  intros Hwf Hc Hpos Hi. destruct (wf_row _ _ Hwf me co Hc Hpos) as [Hp Hm].
  unfold row_procs in Hi. rewrite Hp in Hi.
  assert (i < Z.to_nat (c_mproc co))%nat as Hlt.
  { apply lookup_lt_Some in Hi. rewrite length_take in Hi. lia. }
  rewrite lookup_take_lt, lookup_drop in Hi by lia.
  split; [done|]. split; [done|]. exists (me * NPROC)%nat. split; [done|]. lia.
Qed.

Lemma row_length s me co :
  tables_wf (k_ctable s) (k_ptable s) -> k_ctable s !! me = Some co -> 0 < c_mproc co ->
  length (row_procs co (k_ptable s)) = Z.to_nat (c_mproc co).
Proof.
  intros Hwf Hc Hpos. destruct (wf_row _ _ Hwf me co Hc Hpos) as [Hp Hm].
  assert (me < NCONT)%nat by (rewrite <- (wf_nct _ _ Hwf); by eapply lookup_lt_Some).
  unfold row_procs. rewrite Hp, length_take, length_drop, (wf_npt _ _ Hwf). klia.
Qed.

Lemma proc_row_eq s me co :
  tables_wf (k_ctable s) (k_ptable s) -> k_ctable s !! me = Some co -> 0 < c_mproc co ->
  proc_row co s = Ret (seq (me * NPROC) (length (row_procs co (k_ptable s)))) s.
Proof.
  intros Hwf Hc Hpos. destruct (wf_row _ _ Hwf me co Hc Hpos) as [Hp _].
  unfold proc_row. rewrite Hp. unfold deref. krun. by rewrite (row_length s me co).
Qed.

(** A loop over a table that acts on the entry found. *)
Lemma for_first_act {S A B} (P : A -> bool) (l : list A) base (body : nat -> M S (option B)) s :
  (forall i a, l !! i = Some a -> P a = false -> body (base + i)%nat s = Ret None s) ->
  match findi P l with
  | Some i => forall b s', body (base + i)%nat s = Ret (Some b) s' ->
      for_first (seq base (length l)) body s = Ret (Some b) s'
  | None => for_first (seq base (length l)) body s = Ret None s
  end.
Proof.
  revert base. induction l as [|a l IH]; intros base H; [done|]. simpl seq. simpl findi.
  destruct (P a) eqn:E.
  - intros b s' Hb. rewrite Nat.add_0_r in Hb. exact (for_first_found base _ _ _ _ _ Hb).
  - pose proof (H 0%nat a eq_refl E) as H0. rewrite Nat.add_0_r in H0.
    rewrite (for_first_next base _ _ _ _ H0).
    assert (forall i a, l !! i = Some a -> P a = false -> body (Datatypes.S base + i)%nat s = Ret None s) as H'.
    { intros i b Hi Hb. specialize (H (Datatypes.S i) b Hi Hb). by rewrite Nat.add_succ_r in H. }
    specialize (IH (Datatypes.S base) H'). destruct (findi P l); simpl; [|done].
    intros b s' Hb. apply IH. by rewrite Nat.add_succ_r in Hb.
Qed.

(** One process struck under the process-table lock. *)
Lemma strike_eq s h p pr :
  k_ptable s !! p = Some pr -> k_held s = LPtable :: h ->
  (upd_proc p (set_p_killed true) ;;
   pr <- get_proc p ;;
   when (p_state pr ==? SLEEPING) (upd_proc p (set_p_state RUNNABLE)) ;;
   releaseptable ;;
   ret (Some 0)) s
  = Ret (Some 0) (set_k_held h (set_k_ptable (alter struck p (k_ptable s)) s)).
Proof.
  intros Hp Hh. rewrite (bind_Ret _ _ _ _ _ (upd_proc_eq _ _ _ _ Hp)).
  set (s1 := set_k_ptable _ s).
  assert (k_ptable s1 !! p = Some (set_p_killed true pr)) as H1
    by (simpl; by rewrite list_lookup_alter_eq, Hp).
  rewrite (bind_Ret _ _ _ _ _ (get_proc_eq _ _ _ H1)).
  set (s2 := set_k_ptable (alter struck p (k_ptable s)) s).
  assert (when (p_state (set_p_killed true pr) ==? SLEEPING) (upd_proc p (set_p_state RUNNABLE)) s1 = Ret tt s2) as Hw.
  { unfold when, s2. destruct (bool_decide_reflect (p_state (set_p_killed true pr) = SLEEPING)) as [E|E].
    - rewrite (upd_proc_eq _ _ _ _ H1). f_equal. unfold s1, set_k_ptable. simpl. f_equal. rewrite alter_alter.
      apply list_eq. intros j. rewrite !lookup_alter_case. case_decide; [|done]. subst. rewrite Hp. simpl.
      unfold struck. by rewrite bool_decide_eq_true_2.
    - unfold ret, s1. f_equal. f_equal. apply list_eq. intros j. rewrite !lookup_alter_case.
      case_decide; [|done]. subst. rewrite Hp. simpl. unfold struck. by rewrite bool_decide_eq_false_2. }
  rewrite (bind_Ret _ _ _ _ _ Hw). unfold releaseptable.
  rewrite (bind_Ret _ _ _ _ _ (release_eq LPtable h s2 Hh)). reflexivity.
Qed.

Lemma kill_eq pid s me co :
  caller s me co -> tables_wf (k_ctable s) (k_ptable s) -> 0 < c_mproc co -> LPtable ∉ k_held s ->
  kill pid s =
    match findi (fun pr => p_pid pr =? pid) (row_procs co (k_ptable s)) with
    | Some i => Ret 0 (set_k_ptable (alter struck (me * NPROC + i)%nat (k_ptable s)) s)
    | None => Ret (-1) s
    end.
Proof.
  intros [(p & pr & H1 & H2 & H3) Hc] Hwf Hpos Hl. unfold kill, acquireptable.
  rewrite (bind_Ret _ _ _ _ _ (acquire_eq _ _ Hl)). set (s1 := set_k_held _ s).
  rewrite (bind_Ret _ _ _ _ _ (mycont_eq p pr me s1 H1 H2 H3)).
  rewrite (bind_Ret _ _ _ _ _ (get_cont_eq me co s1 Hc)).
  rewrite (bind_Ret _ _ _ _ _ (proc_row_eq s1 me co Hwf Hc Hpos)).
  pose proof (fun i a => row_lookup s1 me co i a Hwf Hc Hpos) as Hrow.
  match goal with |- bind (for_first _ ?b) _ _ = _ => set (body := b) end.
  pose proof (for_first_act (fun pr => p_pid pr =? pid) (row_procs co (k_ptable s1)) (me * NPROC) body s1) as Hf.
  change (k_ptable s1) with (k_ptable s) in *.
  destruct (findi _ (row_procs co (k_ptable s))) as [i|] eqn:F.
  - destruct (proj1 (findi_Some _ _ _) F) as (q & Hq & Hpid & _). destruct (Hrow i q Hq) as (_ & Hlk & _).
    erewrite bind_Ret; [|apply Hf].
    + reflexivity.
    + intros j a Hj Ha. unfold body. destruct (Hrow j a Hj) as (_ & Hja & _).
      rewrite (bind_Ret _ _ _ _ _ (get_proc_eq _ _ s1 Hja)), Ha. reflexivity.
    + unfold body. rewrite (bind_Ret _ _ _ _ _ (get_proc_eq _ _ s1 Hlk)), Hpid.
      exact (strike_eq s1 (k_held s) _ q Hlk eq_refl).
  - rewrite (bind_Ret _ _ _ None s1).
    + unfold releaseptable. release_top. reflexivity.
    + apply Hf. intros j a Hj Ha. unfold body. destruct (Hrow j a Hj) as (_ & Hja & _).
      rewrite (bind_Ret _ _ _ _ _ (get_proc_eq _ _ s1 Hja)), Ha. reflexivity.
Qed.

(** C31: [kill] reaches only the caller's container.  It returns 0 exactly when the
    container's row has a process with that pid, kills the first such one and wakes it
    if it sleeps; otherwise it returns -1.  No process outside the row changes. *)
Theorem kill_contained pid s me co :
  caller s me co -> tables_wf (k_ctable s) (k_ptable s) -> 0 < c_mproc co -> LPtable ∉ k_held s ->
  exists r pt, kill pid s = Ret r (set_k_ptable pt s) /\
    (forall p, ~ in_cont co p -> pt !! p = k_ptable s !! p) /\
    match findi (fun pr => p_pid pr =? pid) (row_procs co (k_ptable s)) with
    | Some i => r = 0 /\ pt = alter struck (me * NPROC + i)%nat (k_ptable s)
    | None => r = -1 /\ pt = k_ptable s
    end.
Proof.
  intros Hme Hwf Hpos Hl. rewrite (kill_eq pid s me co Hme Hwf Hpos Hl).
  destruct (findi _ _) as [i|] eqn:F.
  - exists 0, (alter struck (me * NPROC + i)%nat (k_ptable s)). split; [done|]. split; [|done].
    intros p Hp. rewrite list_lookup_alter_ne; [done|]. intros <-. apply Hp.
    destruct (proj1 (findi_Some _ _ _) F) as (q & Hq & _).
    by apply (row_lookup s me co i q Hwf (cl_cont _ _ _ Hme) Hpos Hq).
  - exists (-1), (k_ptable s). split; [by destruct s | done].
Qed.

Lemma kill_contained_witness :
  exists pt, kill 2 duo_state = Ret 0 (set_k_ptable pt duo_state) /\ pt !! 64%nat = k_ptable duo_state !! 64%nat.
Proof.
  destruct (kill_contained 2 duo_state 0 boot_cont duo_caller (sw_tab _ duo_sched_wf)) as (r & pt & Hk & Ho & Hr).
  - reflexivity.
  - apply not_elem_of_nil.
  - exists pt. destruct (findi _ _) as [i|] eqn:F; [|vm_compute in F; discriminate].
    destruct Hr as [-> _]. split; [exact Hk|]. apply Ho. intros (b & Hb & H1 & H2).
    injection Hb as <-. simpl in H2. lia.
Defined.

(** [kill(0)]: a slot that is not in use has pid 0, so it is found and marked killed, and
    [allocproc] hands the slot out with the mark still set. *)
Lemma kill_zero_dooms_next_process :
  exists s' s'' p,
    kill 0 (set_k_freelist pgA boot_state) = Ret 0 s' /\
    @allocproc demo_linker 0 s' = Ret (Some p) s'' /\
    (fun pr => (p_state pr, p_killed pr)) <$> k_ptable s'' !! p = Some (EMBRYO, true).
Proof.
  eexists _, _, 1%nat. split; [vm_compute; reflexivity|]. split; [vm_compute; reflexivity|].
  vm_compute. reflexivity.
Qed.

(** ** [cinfo] *)

(** The containers a caller is shown: all of them to the root container, to another one
    only those with its own id. *)
Definition visible (co : cont) (c : cont) : bool :=
  ((c_cid co =? ROOTCONT) || (c_cid co =? c_cid c)) && negb (c_state c ==? CUNUSED).
Definition in_use (pr : proc) : bool := negb (p_state pr ==? UNUSED).
Definition proc_info (pr : proc) : pinfo :=
  mkPinfo (p_state pr) (p_pid pr) (copied_name (p_name pr)) (p_ticks pr).
Definition cont_info (pt : list proc) (c : cont) : continfo1 :=
  mkContinfo1 (c_msz c) (c_mdsk c) (c_mproc c) (i32 (c_upg c * PGSIZE)) (c_udsk c) (c_cid c) (c_state c)
    (copied_name (c_name c)) (proc_info <$> filter (fun pr => in_use pr = true) (row_procs c pt)).

Lemma cinfo_procs_eq s base l :
  (forall i pr, l !! i = Some pr -> k_ptable s !! (base + i)%nat = Some pr) ->
  cinfo_procs (seq base (length l)) s = Ret (proc_info <$> filter (fun pr => in_use pr = true) l) s.
Proof.
  revert base. induction l as [|pr l IH]; intros base H; [done|]. simpl seq.
  cbn [cinfo_procs]. pose proof (H 0%nat pr eq_refl) as H0. rewrite Nat.add_0_r in H0.
  rewrite (bind_Ret _ _ _ _ _ (get_proc_eq _ _ _ H0)).
  assert (cinfo_procs (seq (S base) (length l)) s =
          Ret (proc_info <$> filter (fun pr => in_use pr = true) l) s) as IHl.
  { apply IH. intros i q Hi. specialize (H (S i) q Hi). by rewrite Nat.add_succ_r in H. }
  rewrite filter_cons. destruct (p_state pr ==? UNUSED) eqn:E.
  - rewrite decide_False by (unfold in_use; by rewrite E). exact IHl.
  - rewrite decide_True by (unfold in_use; by rewrite E). rewrite (bind_Ret _ _ _ _ _ IHl). reflexivity.
Qed.

(** Containers in use have a row. *)
Definition rows_ok (ct : list cont) : Prop :=
  forall i c, ct !! i = Some c -> c_state c <> CUNUSED -> 0 < c_mproc c.

Lemma cinfo_conts_eq s me co base l :
  caller s me co -> tables_wf (k_ctable s) (k_ptable s) -> rows_ok (k_ctable s) ->
  (forall i c, l !! i = Some c -> k_ctable s !! (base + i)%nat = Some c) ->
  cinfo_conts (seq base (length l)) s =
    Ret (cont_info (k_ptable s) <$> filter (fun c => visible co c = true) l) s.
Proof.
  intros Hme Hwf Hr. revert base. induction l as [|c l IH]; intros base H; [done|]. simpl seq.
  cbn [cinfo_conts]. pose proof (H 0%nat c eq_refl) as H0. rewrite Nat.add_0_r in H0.
  rewrite (bind_Ret _ _ _ _ _ (get_cont_eq _ _ _ H0)).
  destruct (cl_cur _ _ _ Hme) as (p & pr & H1 & H2 & H3).
  rewrite (bind_Ret _ _ _ _ _ (mycont_eq p pr me s H1 H2 H3)).
  rewrite (bind_Ret _ _ _ _ _ (get_cont_eq _ _ _ (cl_cont _ _ _ Hme))).
  assert (cinfo_conts (seq (S base) (length l)) s =
          Ret (cont_info (k_ptable s) <$> filter (fun c => visible co c = true) l) s) as IHl.
  { apply IH. intros i q Hi. specialize (H (S i) q Hi). by rewrite Nat.add_succ_r in H. }
  replace (_ || _) with (negb (visible co c))
    by (unfold visible; by destruct (_ =? ROOTCONT), (_ =? c_cid c), (_ ==? CUNUSED)).
  rewrite filter_cons. destruct (visible co c) eqn:E; cbn [negb].
  - rewrite decide_True by done.
    assert (0 < c_mproc c) as Hpos.
    { apply (Hr base c H0). intros Hu. unfold visible in E. rewrite Hu in E. by rewrite andb_false_r in E. }
    rewrite (bind_Ret _ _ _ _ _ (proc_row_eq s base c Hwf H0 Hpos)).
    rewrite (bind_Ret _ _ _ _ _ (cinfo_procs_eq s (base * NPROC) (row_procs c (k_ptable s))
      (fun i q Hi => proj1 (proj2 (row_lookup s base c i q Hwf H0 Hpos Hi))))).
    rewrite (bind_Ret _ _ _ _ _ IHl). reflexivity.
  - rewrite decide_False by done. exact IHl.
Qed.

(** [cinfo] shows the caller exactly the containers in use that it may see, in table
    order, each with the processes in use of its row: all of them to the root container,
    and to any other container only those that carry its own id.  It changes nothing. *)
Theorem cinfo_contained s me co :
  caller s me co -> tables_wf (k_ctable s) (k_ptable s) -> rows_ok (k_ctable s) -> LPtable ∉ k_held s ->
  cinfo s = Ret (1, c_cid co =? ROOTCONT,
                 cont_info (k_ptable s) <$> filter (fun c => visible co c = true) (k_ctable s)) s.
Proof.
  intros Hme Hwf Hr Hl. unfold cinfo. rewrite (bind_Ret _ _ _ _ _ (not_root_eq s me co Hme)).
  unfold acquireptable. rewrite (bind_Ret _ _ _ _ _ (acquire_eq _ _ Hl)).
  set (s1 := set_k_held (LPtable :: k_held s) s).
  assert (caller s1 me co) as Hme1 by (destruct Hme; by split).
  pose proof (cinfo_conts_eq s1 me co 0 (k_ctable s1) Hme1 Hwf Hr (fun i c H => H)) as Hc.
  change (k_ctable s1) with (k_ctable s) in Hc.
  rewrite (wf_nct _ _ Hwf) in Hc. rewrite (bind_Ret _ _ _ _ _ Hc).
  unfold releaseptable, s1. release_top. unfold ret. f_equal.
  by rewrite negb_involutive.
Qed.

(** The example's second container sees itself and not the root container. *)
Definition duo_inside : kst := set_k_cur (Some 64%nat) duo_state.
Lemma cinfo_contained_witness :
  cinfo duo_inside = Ret (1, false, [cont_info (k_ptable duo_state) duo_cont]) duo_inside.
Proof.
  refine (cinfo_contained duo_inside 1 duo_cont _ (sw_tab _ duo_sched_wf) _ _).
  - split; [|reflexivity]. exists 64%nat, (duo_proc 3 1). done.
  - intros i c Hc Hu. each_cont Hc i.
  - apply not_elem_of_nil.
Defined.
