(* ===== verification/ProcMem.v ===== *)
(** * The memory of processes

    [growproc] (proc.c) over the address spaces of AddrSpace.v and Uvm.v: what a process's
    memory is after it grew or shrank.  The process that runs, the image of its size, and what
    happens to pages nobody writes are shared with Fork.v and ExecMem.v. *)

From S2P Require Import Prelude Monad CString KState Sched Kalloc Bio Log Fs Inode Vm Paging AddrSpace Uvm File Proc Isolation.

Local Open Scope kernel_scope.

(** The pages of the first [sz] bytes. *)
Definition npages (sz : Z) : Z := (sz + 4095) / 4096.

(** The user half of the address space maps the first [sz] bytes and nothing else. *)
Definition image (A : aspace) (sz : Z) : Prop := forall j, 0 <= j < UPAGES -> is_Some (as_map A !! j) <-> j < npages sz.

(** The process [p] is the one running. *)
Definition runs (s : kst) (p : nat) (pr : proc) : Prop := k_cur s = Some p /\ k_ptable s !! p = Some pr.

Lemma runs_curproc s p pr : runs s p pr -> curproc s = Ret p s.
Proof. intros [H _]. unfold curproc, myproc, bind, gets. simpl. by rewrite H. Qed.

Section procmem.
Context `{LK : Linked}.

Lemma space_ext s pd A free rest s' :
  space_inv s pd A free rest -> k_mem s' = k_mem s -> k_freelist s' = k_freelist s -> space_inv s' pd A free rest.
Proof. intros [[K1 K2 K3 K4] R O N] Em Ef. split; [split | | |]; rewrite ?Em, ?Ef; done. Qed.

Lemma same_rest_runs s s' p pr : same_rest s s' -> runs s p pr -> runs s' p pr.
Proof. by intros (m & fl & ct & lg & -> & _). Qed.

Lemma same_rest_ptable s s' : same_rest s s' -> k_ptable s' = k_ptable s.
Proof. by intros (m & fl & ct & lg & -> & _). Qed.

(** Pages the user keeps are not written. *)
Lemma user_kept s pd A free rest m m' p k : space_inv s pd A free rest -> p ∈ uframes A ->
  untouched (meta pd A ++ free) m m' -> 0 <= k < 4096 -> m' (p + k) = m (p + k).
Proof.
  intros V Hp U Hk. pose proof (si_nodup _ _ _ _ _ V) as N. rewrite owned_perm, <- app_assoc in N.
  apply NoDup_app in N as (_ & N1 & (_ & N2 & _)%NoDup_app). apply U. apply (outside_page _ p); [|apply (sane_align _ _ _ (si_sane _ _ _ _ _ V))| |lia].
  - apply Forall_app. split; [by eapply meta_aligned | eapply free_aligned, V].
  - rewrite owned_perm. apply elem_of_app. by right.
  - intros [Hm|Hf]%elem_of_app; [apply (N1 _ Hm) | apply (N2 _ Hp)]; apply elem_of_app; by left.
Qed.

(** ** [growproc] *)

(** The pages [p] mapped at [j] before and after hold what they held. *)
Definition contents_kept (A A' : aspace) (m m' : mem) : Prop := forall j p fl fl', j < UPAGES ->
  as_map A !! j = Some (p, fl) -> as_map A' !! j = Some (p, fl') -> forall k, 0 <= k < 4096 -> m' (p + k) = m (p + k).

Lemma contents_refl A m : contents_kept A A m m.
Proof. by intros j p fl fl' _ _ _ k _. Qed.

(** The outcome [o] of [growproc n] in a process of size [sz], the new size or none: the address
    space it leaves. *)
Definition grow_result (s : kst) (sz n : Z) (A : aspace) (free : list Z) (o : option Z) (m' : mem) (A' : aspace) : Prop :=
  let new := sz + n in
  if n =? 0 then o = Some sz /\ A' = A else
  if n <? 0 then
    if new <? 0 then o = (if sz =? 0 then None else Some sz) /\ A' = A else
    o = (if new =? 0 then None else Some new) /\ A' = drop_pages (npages new) (npages sz) A
  else if KERNBASE <=? new then o = None /\ A' = A else
  (o = Some new /\ fresh m' free (npages sz) (npages new) A A') \/
  (o = None /\ as_map A' = as_map A /\ short s free (2 * Z.to_nat (npages new - npages sz))).

Lemma moved_refl s pd A free rest : space_inv s pd A free rest -> can_alloc s -> moved s pd A free rest s A free.
Proof. intros V Hc. split; [done | done | apply same_rest_refl | done]. Qed.

(** The part of [growproc] that changes the address space. *)
Lemma grow_mem s pd A free rest sz n :
  space_inv s pd A free rest -> can_alloc s -> image A sz -> 0 <= sz < KERNBASE -> -2147483648 <= n < 2147483648 ->
  exists o s' A' free', (if 0 <? n then
          sz <- allocuvm pd sz (u32 (sz + n)) ;;
          ret (if sz =? 0 then None else Some sz)
        else if n <? 0 then
          sz <- deallocuvm pd sz (u32 (sz + n)) ;;
          ret (if sz =? 0 then None else Some sz)
        else ret (Some sz)) s = Ret o s' /\ moved s pd A free rest s' A' free' /\
    contents_kept A A' (k_mem s) (k_mem s') /\ grow_result s sz n A free o (k_mem s') A'.
Proof.
  intros V Hc I Hsz Hn. unfold grow_result. pose proof (moved_refl _ _ _ _ _ V Hc) as M0. assert (UPAGES = 524288) as EU by done.
  unfold KERNBASE in Hsz. destruct (Z.ltb_spec 0 n) as [Hp|Hp].
  - rewrite (proj2 (Z.eqb_neq n 0)), (proj2 (Z.ltb_ge n 0)) by lia. rewrite (u32_small (sz + n)) by lia.
    destruct (Z.leb_spec KERNBASE (sz + n)) as [Hk|Hk].
    { exists None, s, A, free. split_and!; [|done|apply contents_refl|done|done]. rewrite (bind_Ret _ _ _ 0 s); [done|].
      unfold allocuvm. by rewrite (proj2 (Z.leb_le _ _) Hk). }
    destruct (allocuvm_as s pd A free rest sz (sz + n) V Hc) as (r & s' & A' & free' & E & M & U & H); [lia | |].
    { intros j Hj. fold (npages sz) (npages (sz + n)) in Hj. apply eq_None_not_Some. intros Hs. apply I in Hs; [lia|].
      unfold npages, KERNBASE in *. zlia. }
    rewrite (proj2 (Z.leb_gt _ _) Hk), (proj2 (Z.ltb_ge _ _)) in H by lia. rewrite (bind_Ret _ _ _ _ _ E).
    exists (if r =? 0 then None else Some r), s', A', free'. split_and!; [done | done | |].
    + intros j q fl fl' Hj Hq _ k. eapply user_kept; [done | apply elem_of_uframes; by eauto | done].
    + destruct H as [(-> & F & _)|[-> H]]; [|by right]. rewrite (proj2 (Z.eqb_neq _ 0)) by lia. by left.
  - destruct (Z.eqb_spec n 0) as [->|Hn0]; [exists (Some sz), s, A, free; split_and!; [done | done | apply contents_refl | done | done]|]. rewrite (proj2 (Z.ltb_lt n 0)) by lia.
    destruct (Z.ltb_spec (sz + n) 0) as [Hneg|Hpos].
    + exists (if sz =? 0 then None else Some sz), s, A, free. split_and!; [|done|apply contents_refl|done|done]. rewrite (bind_Ret _ _ _ sz s); [done|].
      unfold deallocuvm. rewrite (proj2 (Z.leb_le _ _)); [done|]. unfold u32. zlia.
    + rewrite u32_small by lia.
      destruct (deallocuvm_as s pd A free rest sz (sz + n) V Hc) as (s' & A' & free' & E & S1 & V1 & EA); [lia | unfold KERNBASE; lia |].
      rewrite (bind_Ret _ _ _ _ _ E). exists (if sz + n =? 0 then None else Some (sz + n)), s', A', free'.
      split_and!; [done | by apply shrunk_moved | | done | done].
      intros j q fl fl' Hj _ Hq k. eapply user_kept; [exact V1 | apply elem_of_uframes; by eauto |].
      rewrite EA. exact (sh_mem _ _ _ _ _ _ _ S1).
Qed.

(** The image is that of the size the process then has. *)
Lemma grow_image s sz n A free o m' A' : grow_result s sz n A free o m' A' -> image A sz -> 0 <= sz < KERNBASE -> sz + n <> 0 ->
  image A' (default sz o).
Proof.
  intros G I Hsz Hne. unfold grow_result in G. assert (UPAGES = 524288) as EU by done.
  destruct (Z.eqb_spec n 0) as [->|Hn]; [by destruct G as [-> ->]|]. destruct (Z.ltb_spec n 0) as [Hneg|Hpos].
  - destruct (Z.ltb_spec (sz + n) 0); [by destruct G as [-> ->]; destruct (sz =? 0)|].
    destruct G as [-> ->]. rewrite (proj2 (Z.eqb_neq _ 0) Hne). change (default sz _) with (sz + n). intros j Hj. cbn [drop_pages as_map].
    specialize (I j Hj). split.
    + intros [v [Hv Hd]%map_lookup_filter_Some]. destruct I as [I _]. specialize (I ltac:(by exists v)). cbn in Hd. lia.
    + intros Hl. destruct I as [_ I]. destruct I as [v Hv]; [unfold npages in *; zlia|]. exists v. apply map_lookup_filter_Some. split; [done|]. cbn. lia.
  - destruct (KERNBASE <=? sz + n); [by destruct G as [-> ->]|]. destruct G as [[-> F]|(-> & E & _)]; [|intros j Hj; change (default sz _) with sz; rewrite E; by apply I].
    change (default sz _) with (sz + n). intros j Hj. specialize (I j Hj). destruct (decide (npages sz <= j < npages (sz + n))) as [Hin|Hout].
    + destruct (fr_new _ _ _ _ _ _ F j Hin) as (q & -> & _). split; [lia | by eauto].
    + rewrite (fr_old _ _ _ _ _ _ F j Hout), I. unfold npages in *. split; zlia.
Qed.

(** What [growproc] does once it has the new size. *)
Lemma grow_finish s p pr sz : runs s p pr -> p_kstack pr <> 0 -> p_pgdir pr <> 0 -> exists s',
  (upd_proc p (set_p_sz sz) ;; switchuvm (Some p) ;; ret 0) s = Ret 0 s' /\
  k_ptable s' = alter (set_p_sz sz) p (k_ptable s) /\ k_mem s' = k_mem s /\ k_freelist s' = k_freelist s /\
  k_cur s' = k_cur s /\ k_ctable s' = k_ctable s /\ k_userinited s' = k_userinited s /\ k_held s' = k_held s.
Proof.
  intros [Hc Hp] Hk Hd. eexists. rewrite (bind_Ret _ _ _ _ _ (upd_proc_eq _ _ _ _ Hp)). unfold switchuvm.
  erewrite (bind_Ret (bind _ _)); [split; [reflexivity|]|].
  2:{ erewrite (bind_Ret (get_proc _)) by (apply get_proc_eq; cbn [k_ptable set_k_ptable]; rewrite list_lookup_alter_eq, Hp; reflexivity).
      cbn [set_p_sz p_kstack p_pgdir]. rewrite (proj2 (Z.eqb_neq _ 0) Hk), (proj2 (Z.eqb_neq _ 0) Hd). reflexivity. }
  done.
Qed.

Lemma can_alloc_ext s s' : can_alloc s -> cur_cont s' = cur_cont s -> length (k_ctable s') = length (k_ctable s) ->
  k_userinited s' = k_userinited s -> k_held s' = k_held s -> can_alloc s'.
Proof.
  intros [H1 H2] Ec Et Eu Eh. unfold can_alloc, has_cont, alloc_locks_free. rewrite Ec, Eu, Eh. split; [|done]. intros Hu.
  destruct (H1 Hu) as (c & co & E & Hco). apply lookup_lt_Some in Hco. rewrite <- Et in Hco. apply lookup_lt_is_Some in Hco as [co' Hco'].
  by exists c, co'.
Qed.

(** C11: [growproc n] in a process whose user memory is exactly its size.  It changes the size
    and the memory together: shrinking unmaps the pages above the new size and gives them
    back, growing maps zeroed pages; without memory or past the user half it returns -1 with
    size and mappings as they were.  The remaining pages keep their place and contents, no
    page is lost or gains a second owner, and the memory is again exactly the size.  The
    exceptions are requests below zero, which are ignored (and reported as done unless the
    size is 0), and a request for size 0, which unmaps everything and yet returns -1 with the
    size unchanged. *)
Theorem growproc_correct s p pr A free rest n : let sz := p_sz pr in let pd := p_pgdir pr in
  runs s p pr -> space_inv s pd A free rest -> can_alloc s -> image A sz -> p_kstack pr <> 0 -> 0 <= sz < KERNBASE ->
  -2147483648 <= n < 2147483648 ->
  exists (o : option Z) s' A' free', growproc n s = Ret (if o then 0 else -1) s' /\
    k_ptable s' = match o with Some z => alter (set_p_sz z) p (k_ptable s) | None => k_ptable s end /\
    grow_result s sz n A free o (k_mem s') A' /\ (sz + n <> 0 -> image A' (default sz o)) /\
    contents_kept A A' (k_mem s) (k_mem s') /\
    space_inv s' pd A' free' rest /\ owned pd A' ++ free' ≡ₚ owned pd A ++ free /\ can_alloc s'.
Proof.
  intros sz pd Hr V Hc I Hk Hsz Hn. destruct (grow_mem s pd A free rest sz n V Hc I Hsz Hn) as (o & s1 & A' & free' & E & [V1 Hc1 Hs P1] & Kp & G).
  pose proof (same_rest_runs _ _ _ _ Hs Hr) as Hr1. pose proof (same_rest_ptable _ _ Hs) as Ept.
  assert (growproc n s = match o with None => Ret (-1) s1 | Some sz => (upd_proc p (set_p_sz sz) ;; switchuvm (Some p) ;; ret 0) s1 end) as Eg.
  { unfold growproc. rewrite (bind_Ret _ _ _ _ _ (runs_curproc _ _ _ Hr)), (bind_Ret _ _ _ _ _ (get_proc_eq _ _ _ (proj2 Hr))).
    fold sz pd. cbv zeta. rewrite (bind_Ret _ _ _ _ _ E). by destruct o. }
  assert (pd <> 0) as Hd.
  { assert (pd ∈ owned pd A) as Hpd by (rewrite owned_perm; left). apply (sane_align _ _ _ (si_sane _ _ _ _ _ V)) in Hpd. klia. }
  exists o. rewrite Eg. destruct o as [z|].
  - destruct (grow_finish s1 p pr z Hr1 Hk Hd) as (s' & -> & Et & Em & Ef & Ec & Ect & Eu & Eh). exists s', A', free'. rewrite Em, Et, Ept.
    split_and!; [done | done | done | by eapply grow_image | done | by eapply space_ext | done |].
    eapply can_alloc_ext; [exact Hc1 | | by rewrite Ect | done | done]. unfold cur_cont. rewrite Eu, Ec, Et. destruct Hr1 as [-> Hp1]. simpl.
    by rewrite list_lookup_alter_eq, Hp1.
  - exists s1, A', free'. split_and!; try done. by eapply grow_image.
Qed.
End procmem.

(** ** Example: the first process, with an empty address space and two free pages *)

Lemma demo_linked : @Linked demo_linker.
Proof. split; vm_compute; [done | done | split; done]. Qed.

Definition pgD : Z := KERNBASE + 4206592.
Definition demo_parent : proc :=
  set_p_cwd (Some 0%nat) (set_p_ofile (Some 0%nat :: replicate 15 None) (set_p_tf (pgD + KSTACKSIZE - 76)
    (set_p_kstack pgD (set_p_pgdir pgC boot_proc)))).
Definition demo_files : kst :=
  set_k_icache [mkInode 1 1 1 (mkSleeplock false 0) false 0 0 0 0 0 []] (set_k_ftable [mkFile FD_NONE 1 true true 0 None 0]
    (set_k_ptable (demo_parent :: replicate 511 proc0) demo_kst)).
Definition demo_run : kst := set_k_mem (KString.memset (k_mem demo_files) pgC 0 PGSIZE) demo_files.

Lemma demo_pages_nodup : NoDup (pgC :: [pgA; pgB] ++ [pgD]).
Proof. apply (bool_decide_unpack _). vm_compute. exact I. Qed.

Lemma demo_space : @space_inv demo_linker demo_run pgC (mkAs ∅ ∅) [pgA; pgB] [pgD].
Proof.
  apply (@new_dir demo_linker demo_linked demo_files pgC [pgA; pgB] [pgD]); [|apply demo_page_ok; auto | exact demo_pages_nodup].
  by destruct demo_kmem.
Qed.

Lemma demo_can_alloc : can_alloc demo_run.
Proof. split; [intros _; exists 0%nat, boot_cont; done | exact demo_locks]. Qed.

Lemma demo_image : image (mkAs ∅ ∅) 0.
Proof. intros j Hj. cbn [as_map]. rewrite lookup_empty. split; [intros [? ?]; done | unfold npages; change ((0 + 4095) / 4096) with 0; lia]. Qed.

Lemma growproc_correct_witness : exists (o : option Z) s' A' free', @growproc demo_linker 4096 demo_run = Ret (if o then 0 else -1) s' /\
  @space_inv demo_linker s' pgC A' free' [pgD] /\ image A' (default 0 o) /\ owned pgC A' ++ free' ≡ₚ [pgC; pgA; pgB].
Proof.
  destruct (@growproc_correct demo_linker demo_linked demo_run 0%nat demo_parent (mkAs ∅ ∅) [pgA; pgB] [pgD] 4096)
    as (o & s' & A' & free' & E & _ & _ & I & _ & V & P & _);
    [split; reflexivity | exact demo_space | exact demo_can_alloc | exact demo_image | vm_compute; discriminate | vm_compute; split; [discriminate | reflexivity]
    | split; [vm_compute; discriminate | reflexivity] |].
  exists o, s', A', free'. split; [exact E|]. split; [exact V|]. split; [apply I; vm_compute; discriminate | exact P].
Defined.
