(* ===== verification/Fork.v ===== *)
(** * fork and wait

    [allocproc], [fork] and the reaping part of [wait] (proc.c) as transformations of the
    process table, the reference counts and the owners of the pages: what a child is made of,
    what a fork without memory leaves behind, and what [wait] gives back. *)

From S2P Require Import Prelude Monad CString KState Sched Kalloc Bio Log Fs Inode Vm Paging AddrSpace Uvm File Proc Isolation ProcMem.

Local Open Scope kernel_scope.

(** ** What a fork may change *)

Definition frame (s s' : kst) : Prop :=
  s' = set_k_mem (k_mem s') (set_k_freelist (k_freelist s') (set_k_ctable (k_ctable s') (set_k_klog (k_klog s')
        (set_k_ptable (k_ptable s') (set_k_nextpid (k_nextpid s') (set_k_ftable (k_ftable s') (set_k_icache (k_icache s') s))))))).

Lemma frame_refl s : frame s s.
Proof. by destruct s. Qed.

Lemma frame_trans s1 s2 s3 : frame s1 s2 -> frame s2 s3 -> frame s1 s3.
Proof. intros F1 F2. unfold frame in *. etransitivity; [exact F2|]. rewrite F1. reflexivity. Qed.

Lemma frame_fields s s' : frame s s' ->
  k_held s' = k_held s /\ k_cur s' = k_cur s /\ k_userinited s' = k_userinited s /\ k_initproc s' = k_initproc s.
Proof. intros ->. done. Qed.

Lemma same_frame s s' : same_rest s s' -> frame s s'.
Proof. by intros (m & fl & ct & lg & -> & _). Qed.

(** The first unused slot of the row of container [c]. *)
Definition slot (c : nat) (co : cont) (pt : list proc) : option nat :=
  if c_mproc co <=? 0 then None else (fun i => (c * NPROC + i)%nat) <$> findi (fun q => p_state q ==? UNUSED) (row_procs co pt).

Definition cont_open (co : cont) : bool := (c_state co ==? CRUNNABLE) || (c_state co ==? CRUNNING).

(** The slot as [allocproc] takes it, and as it leaves it without and with a stack. *)
Definition embryo (pid : Z) (q : proc) : proc := set_p_pid pid (set_p_state EMBRYO q).
Definition unslotted (q : proc) : proc := set_p_state UNUSED (set_p_kstack 0 q).
Definition stacked (c : nat) (ks : Z) (q : proc) : proc :=
  set_p_cont (Some c) (set_p_ticks 0 (set_p_context (ks + KSTACKSIZE - TF_SIZE - 4 - CONTEXT_SIZE)
    (set_p_tf (ks + KSTACKSIZE - TF_SIZE) (set_p_kstack ks q)))).
Definition more_procs (co : cont) : cont := set_c_uproc (i32 (c_uproc co + 1)) co.

(** The open files the child gets, and the reference counts then. *)
Fixpoint inherit (fs old : list (option nat)) : list (option nat) :=
  match fs, old with
  | Some f :: fs', _ :: old' => Some f :: inherit fs' old'
  | None :: fs', o :: old' => o :: inherit fs' old'
  | _, _ => old
  end.
Definition bump (f : file) : file := set_f_ref (i32 (f_ref f + 1)) f.
Definition dup_refs (fs : list (option nat)) (ft : list file) : list file :=
  foldl (fun ft o => match o with Some f => alter bump f ft | None => ft end) ft fs.

(** Every open file is in the table, with a count that can take the copies. *)
Definition files_ok (fs : list (option nat)) (ft : list file) : Prop :=
  forall f, Some f ∈ fs -> exists fl, ft !! f = Some fl /\ 1 <= f_ref fl /\ f_ref fl + Z.of_nat (length fs) < 2147483648.

Lemma inherit_all fs : inherit fs (replicate (length fs) None) = fs.
Proof. induction fs as [|[f|] fs IH]; simpl; by rewrite ?IH. Qed.

Lemma files_ok_tail o fs ft : files_ok (o :: fs) ft -> files_ok fs (match o with Some f => alter bump f ft | None => ft end).
Proof.
  intros H f Hf. destruct (H f ltac:(by right)) as (fl & Hl & H1 & H2). cbn [length] in H2. destruct o as [g|]; [|exists fl; split_and!; [done | done | lia]].
  destruct (decide (f = g)) as [->|Hn].
  - exists (bump fl). rewrite list_lookup_alter_eq, Hl. split; [done|]. unfold bump. cbn [f_ref set_f_ref]. rewrite i32_small by lia. lia.
  - exists fl. rewrite list_lookup_alter_ne by done. split_and!; [done | done | lia].
Qed.

Lemma filedup_eq f fl s : LFtable ∉ k_held s -> k_ftable s !! f = Some fl -> 1 <= f_ref fl ->
  filedup f s = Ret f (set_k_ftable (alter bump f (k_ftable s)) s).
Proof.
  intros Hl Hf Hr. unfold filedup. rewrite (bind_Ret _ _ _ _ _ (acquire_eq _ _ Hl)). set (s1 := set_k_held _ s).
  assert (get_file f s1 = Ret fl s1) as G by (unfold get_file, bind, gets; simpl; by rewrite Hf).
  rewrite (bind_Ret _ _ _ _ _ G), (proj2 (Z.ltb_ge _ _)) by lia. erewrite (bind_Ret (upd_file _ _)).
  2:{ unfold upd_file. by rewrite (bind_Ret _ _ _ _ _ G). }
  erewrite (bind_Ret (release _)) by (by apply release_eq). by destruct s.
Qed.

Lemma alter_insert_eq {X} (f : X -> X) i (l : list X) x : l !! i = Some x -> alter f i l = <[i := f x]> l.
Proof.
  intros H. apply list_eq. intros j. destruct (decide (j = i)) as [->|Hn].
  - rewrite list_lookup_alter_eq, H, list_lookup_insert_eq by (by eapply lookup_lt_Some). done.
  - by rewrite list_lookup_alter_ne, list_lookup_insert_ne.
Qed.

Section files.
Context (cur np : nat) (pr : proc).
Hypothesis Hne : cur <> np.

Definition dup_file (i : nat) : K unit :=
  pr <- get_proc cur ;;
  match pr.(p_ofile) !! i with
  | Some (Some f) =>
      f' <- filedup f ;;
      upd_proc np (fun npr => set_p_ofile (<[i := Some f']> (p_ofile npr)) npr)
  | _ => ret tt
  end.

Lemma dup_files l : forall s q dn old,
  drop (length dn) (p_ofile pr) = l -> k_ptable s !! cur = Some pr -> k_ptable s !! np = Some q -> p_ofile q = dn ++ old -> length old = length l ->
  LFtable ∉ k_held s -> files_ok l (k_ftable s) ->
  for_each (seq (length dn) (length l)) dup_file s =
    Ret tt (set_k_ftable (dup_refs l (k_ftable s)) (set_k_ptable (<[np := set_p_ofile (dn ++ inherit l old) q]> (k_ptable s)) s)).
Proof.
  induction l as [|o l IH]; intros s q dn old Hd Hc Hq Ho Hlen Hl Hf.
  - apply nil_length_inv in Hlen as ->. cbn [length seq for_each inherit dup_refs foldl]. rewrite <- Ho. rewrite list_insert_id by (rewrite Hq; by destruct q). by destruct s.
  - cbn [length seq for_each]. assert (p_ofile pr !! length dn = Some o) as Ho'.
    { rewrite <- (Nat.add_0_r (length dn)), <- lookup_drop, Hd. done. }
    assert (drop (S (length dn)) (p_ofile pr) = l) as Hd' by (by erewrite drop_S in Hd by exact Ho'; injection Hd).
    pose proof (files_ok_tail _ _ _ Hf) as Hf'. unfold dup_file at 1. rewrite (bind_Ret _ _ s tt (match o with
      | Some f => set_k_ftable (alter bump f (k_ftable s)) (set_k_ptable (<[np := set_p_ofile (<[length dn := Some f]> (p_ofile q)) q]> (k_ptable s)) s)
      | None => s end)).
    2:{ rewrite (bind_Ret _ _ _ _ _ (get_proc_eq _ _ _ Hc)), Ho'. destruct o as [f|]; [|done].
        destruct (Hf f ltac:(by left)) as (fl & Hfl & Hr & _). rewrite (bind_Ret _ _ _ _ _ (filedup_eq _ _ _ Hl Hfl Hr)).
        erewrite upd_proc_eq by exact Hq. cbn [k_ptable set_k_ftable]. by rewrite (alter_insert_eq _ _ _ _ Hq). }
    destruct old as [|o' old]; [done|]. injection Hlen as Hlen. destruct o as [f|]; cbn [inherit dup_refs foldl].
    + specialize (IH (set_k_ftable (alter bump f (k_ftable s)) (set_k_ptable (<[np := set_p_ofile (<[length dn := Some f]> (p_ofile q)) q]> (k_ptable s)) s))
        (set_p_ofile (<[length dn := Some f]> (p_ofile q)) q) (dn ++ [Some f]) old).
      rewrite length_app, Nat.add_1_r in IH. rewrite IH; [| done | | | | done | done | done].
      * cbn [k_ftable set_k_ftable set_k_ptable k_ptable]. rewrite list_insert_insert_eq, <- app_assoc. done.
      * cbn. by rewrite list_lookup_insert_ne.
      * cbn. rewrite list_lookup_insert_eq by (by eapply lookup_lt_Some). done.
      * cbn [p_ofile set_p_ofile]. rewrite Ho, <- app_assoc. by rewrite insert_app_r_alt, Nat.sub_diag by lia.
    + specialize (IH s q (dn ++ [o']) old). rewrite length_app, Nat.add_1_r in IH.
      rewrite IH; [by rewrite <- app_assoc | done | done | done | by rewrite <- app_assoc | done | done | done].
Qed.
End files.

Section fork.
Context `{LK : Linked}.

(** The stack [allocproc] prepares in the page [ks]. *)
Definition newproc_mem (ks : Z) (m : mem) : mem :=
  let tf := ks + KSTACKSIZE - TF_SIZE in
  st32 (KString.memset (st32 m (tf - 4) sym_trapret) (tf - 4 - CONTEXT_SIZE) 0 CONTEXT_SIZE) (tf - 4 - CONTEXT_SIZE + ctx_eip) sym_forkret.

(** [allocproc] after it has found the slot [p]. *)
Definition alloc_stack (c p : nat) : K (option nat) :=
  ks <- kalloc ;;
  upd_proc p (set_p_kstack ks) ;;
  if ks =? 0 then
    upd_proc p (set_p_state UNUSED) ;;
    ret None
  else
    let sp := ks + KSTACKSIZE - TF_SIZE in
    upd_proc p (set_p_tf sp) ;;
    let sp := sp - 4 in
    store32 sp sym_trapret ;;
    let sp := sp - CONTEXT_SIZE in
    upd_proc p (set_p_context sp) ;;
    upd_mem (fun m => KString.memset m sp 0 CONTEXT_SIZE) ;;
    store32 (sp + ctx_eip) sym_forkret ;;
    upd_proc p (set_p_ticks 0) ;;
    upd_proc p (set_p_cont (Some c)) ;;
    upd_cont c (fun co => set_c_uproc (i32 (c_uproc co + 1)) co) ;;
    ret (Some p).

Definition taken (p : nat) (s : kst) : kst :=
  set_k_nextpid (i32 (k_nextpid s + 1)) (set_k_ptable (alter (embryo (k_nextpid s)) p (k_ptable s)) s).

(** [allocproc] up to the allocation of the stack. *)
Lemma allocproc_slot c co s : tables_wf (k_ctable s) (k_ptable s) -> LPtable ∉ k_held s -> k_ctable s !! c = Some co ->
  allocproc c s = if negb (cont_open co) then Ret None s else
    match slot c co (k_ptable s) with Some p => alloc_stack c p (taken p s) | None => Ret None s end.
Proof.
  intros W Hl Hc. unfold allocproc. rewrite (bind_Ret _ _ _ _ _ (get_cont_eq _ _ _ Hc)). unfold cont_open. rewrite negb_orb.
  destruct (negb _ && negb _); [done|]. unfold acquireptable. rewrite (bind_Ret _ _ _ _ _ (acquire_eq _ _ Hl)).
  set (s1 := set_k_held _ s). rewrite (bind_Ret _ _ s1 _ _ (get_cont_eq _ _ s1 Hc)). unfold slot.
  destruct (Z.leb_spec (c_mproc co) 0) as [Hm|Hm].
  - krun. cbn [for_first]. krun. unfold releaseptable. erewrite (bind_Ret (release _)) by (by apply release_eq). by destruct s.
  - rewrite (bind_Ret _ _ s1 _ _ (proc_row_eq s1 c co W Hc Hm)).
    erewrite (bind_Ret (for_first _ _)).
    2:{ apply (for_first_findi (fun q => p_state q ==? UNUSED) (fun p => p)). intros i q Hi.
        destruct (row_lookup s1 c co i q W Hc Hm Hi) as (_ & Hp & _). by rewrite (bind_Ret _ _ _ _ _ (get_proc_eq _ _ _ Hp)); destruct (_ ==? _). }
    change (k_ptable s1) with (k_ptable s). destruct (findi _ _) as [i|] eqn:Ef; cbn [fmap option_fmap option_map].
    + apply findi_Some in Ef as (q & Hi & _). destruct (row_lookup s1 c co i q W Hc Hm Hi) as (_ & Hp & _).
      set (p := (c * NPROC + i)%nat) in *. rewrite (bind_Ret _ _ _ _ _ (upd_proc_eq _ _ _ _ Hp)), bind_gets, bind_modify.
      erewrite (bind_Ret (upd_proc _ _)) by (eapply upd_proc_eq; cbn [k_ptable set_k_ptable set_k_nextpid]; rewrite list_lookup_alter_eq, Hp; reflexivity).
      unfold releaseptable. erewrite (bind_Ret (release _)) by (by apply release_eq). fold (alloc_stack c p). f_equal.
      unfold taken. cbn [k_ptable set_k_ptable set_k_nextpid]. rewrite alter_alter. by destruct s.
    + unfold releaseptable. erewrite (bind_Ret (release _)) by (by apply release_eq). by destruct s.
Qed.

Lemma bind_upd_proc {B} p f (k : unit -> K B) s : (p < length (k_ptable s))%nat ->
  bind (upd_proc p f) k s = k tt (set_k_ptable (alter f p (k_ptable s)) s).
Proof. intros [q Hq]%lookup_lt_is_Some. by rewrite (bind_Ret _ _ _ _ _ (upd_proc_eq _ _ _ _ Hq)). Qed.

Lemma untouched_newproc ks m : untouched [ks] m (newproc_mem ks m).
Proof.
  unfold newproc_mem. unfold KSTACKSIZE, TF_SIZE, CONTEXT_SIZE, ctx_eip. cbv zeta.
  eapply untouched_trans; [|apply untouched_st32; lia]. eapply untouched_trans; [apply (untouched_st32 _ (ks + 4096 - 76 - 4)); lia|].
  intros x Hx. rewrite memset_spec by lia. rewrite (proj2 (in_range_false _ _ _)); [done|]. destruct (Hx ks ltac:(by left)); lia.
Qed.

Lemma newproc_wf ks m : mem_wf m -> mem_wf (newproc_mem ks m).
Proof. intros H. apply st32_wf, memset_wf; [by apply st32_wf | done]. Qed.

(** The page count and the limit decide what can be allocated. *)
Lemma over_after_ext s s' k : cur_cont s' = cur_cont s ->
  (forall c, (fun co => (c_upg co, c_msz co)) <$> k_ctable s' !! c = (fun co => (c_upg co, c_msz co)) <$> k_ctable s !! c) ->
  over_after s' k = over_after s k.
Proof.
  intros Ec Hc. unfold over_after. rewrite Ec. destruct (cur_cont s) as [c|]; [|done]. cbn [mbind option_bind]. specialize (Hc c).
  assert (forall co, c_upg (Nat.iter k inc_upg co) = Nat.iter k (fun x => i32 (x + 1)) (c_upg co)) as Hi.
  { intros co. induction k as [|k IH]; [done|]. simpl Nat.iter. unfold inc_upg at 1. cbn [c_upg set_c_upg]. by rewrite IH. }
  destruct (k_ctable s' !! c) as [co'|], (k_ctable s !! c) as [co|]; cbn in Hc; try done. injection Hc as E1 E2. by rewrite !Hi, E1, E2.
Qed.

(** Processes other than the running one do not matter to the allocator. *)
Lemma cur_cont_ext s s' cur pr : runs s cur pr -> k_cur s' = k_cur s -> k_userinited s' = k_userinited s ->
  k_ptable s' !! cur = Some pr -> cur_cont s' = cur_cont s.
Proof. intros [Hc Hp] Ec Eu Ep. unfold cur_cont. rewrite Eu, Ec, Hc. simpl. by rewrite Ep, Hp. Qed.

Lemma lookup_alter_other {X} (f : X -> X) i j (l : list X) : j <> i -> alter f i l !! j = l !! j.
Proof. intros. by apply list_lookup_alter_ne. Qed.

(** The state with the new process in its slot. *)
Definition with_stack (c p : nat) (ks : Z) (s : kst) : kst :=
  set_k_ctable (alter more_procs c (k_ctable s)) (set_k_mem (newproc_mem ks (k_mem s)) (set_k_ptable (alter (stacked c ks) p (k_ptable s)) s)).

Lemma alloc_stack_eq c co p s ks s1 : kalloc s = Ret ks s1 -> ks <> 0 -> (p < length (k_ptable s1))%nat -> k_ctable s1 !! c = Some co ->
  alloc_stack c p s = Ret (Some p) (with_stack c p ks s1).
Proof.
  intros Ek Hz Hlt Hco. unfold alloc_stack. rewrite (bind_Ret _ _ _ _ _ Ek). rewrite bind_upd_proc by done.
  rewrite (proj2 (Z.eqb_neq ks 0) Hz). cbv zeta. unfold store32.
  repeat first [rewrite bind_upd_proc by (cbn [k_ptable set_k_ptable set_k_mem]; rewrite ?length_alter; done) | rewrite bind_upd_mem].
  erewrite (bind_Ret (upd_cont _ _)) by (eapply upd_cont_eq; exact Hco). unfold ret, with_stack. do 2 f_equal.
  cbn [k_ptable set_k_ptable set_k_mem k_mem]. by rewrite !alter_alter.
Qed.

Lemma alloc_stack_as c co cur pr p s pd A free rest :
  space_inv s pd A free rest -> can_alloc s -> runs s cur pr -> cur <> p -> (p < length (k_ptable s))%nat -> k_ctable s !! c = Some co ->
  exists r s', alloc_stack c p s = Ret r s' /\ can_alloc s' /\ frame s s' /\ runs s' cur pr /\
    k_nextpid s' = k_nextpid s /\ k_ftable s' = k_ftable s /\ k_icache s' = k_icache s /\
    ((r = None /\ space_inv s' pd A free rest /\ k_mem s' = k_mem s /\ short s free 1 /\
      k_ptable s' = alter unslotted p (k_ptable s) /\ acct <$> k_ctable s' = acct <$> k_ctable s) \/
     (r = Some p /\ exists ks free', free = ks :: free' /\ page_ok ks /\ space_inv s' pd A free' (ks :: rest) /\
        k_mem s' = newproc_mem ks (k_mem s) /\ used_by s free s' free' /\
        k_ptable s' = alter (stacked c ks) p (k_ptable s) /\ acct <$> k_ctable s' = alter more_procs c (acct <$> k_ctable s))).
Proof.
  intros V Hc Hr Hne Hlt Hco. destruct (kalloc_as s pd A free rest V Hc) as (ks & s1 & Ek & Hc1 & Hs1 & Hm1 & H).
  pose proof (same_rest_ptable _ _ Hs1) as Ept. pose proof (same_rest_runs _ _ _ _ Hs1 Hr) as Hr1.
  destruct H as [(-> & V1 & St & Us)|(free' & -> & Hz & Hok & V1 & Us)].
  - unfold alloc_stack. rewrite (bind_Ret _ _ _ _ _ Ek), bind_upd_proc by (by rewrite Ept).
    change (0 =? 0) with true. cbv iota. rewrite bind_upd_proc by (cbn; rewrite length_alter; by rewrite Ept).
    set (s' := set_k_ptable _ _). assert (k_ptable s' = alter unslotted p (k_ptable s)) as Et.
    { unfold s'. cbn [k_ptable set_k_ptable]. by rewrite Ept, alter_alter. }
    assert (runs s' cur pr) as Hr' by (split; [apply Hr1 | rewrite Et, lookup_alter_other by done; apply Hr]).
    exists None, s'. split_and!; [done | | | done | by destruct Hs1 as (? & ? & ? & ? & -> & _) .. | left].
    + eapply (can_alloc_ext s1); [done | | done | done | done]. eapply cur_cont_ext; [exact Hr1 | done | done | apply Hr'].
    + eapply frame_trans; [by apply same_frame|]. by destruct s1.
    + split_and!; [done | by apply (space_ext s1) | done | eapply starved_short; [done | done | lia] | done |].
      destruct Hs1 as (? & ? & ? & ? & -> & ?). done.
  - destruct Hs1 as (m1 & fl & ct & lg & E1 & Ea). assert (is_Some (k_ctable s1 !! c)) as [co1 Hco1].
    { rewrite E1. apply lookup_lt_is_Some. cbn. apply lookup_lt_Some in Hco. rewrite <- (length_fmap acct), <- Ea, length_fmap in Hco. done. }
    rewrite (alloc_stack_eq c co1 p s ks s1 Ek Hz) by (by rewrite ?Ept). set (s' := with_stack c p ks s1).
    assert (runs s' cur pr) as Hr'.
    { split; [apply Hr1|]. unfold s', with_stack. cbn [k_ptable set_k_ctable set_k_mem set_k_ptable]. rewrite lookup_alter_other by done. apply Hr1. }
    assert (cur_cont s' = cur_cont s1) as Ecc by (eapply cur_cont_ext; [exact Hr1 | done | done | apply Hr']).
    exists (Some p), s'. split_and!; [done | | | done | by unfold s', with_stack; rewrite E1 .. | right].
    + eapply (can_alloc_ext s1); [done | done | apply length_alter | done | done].
    + eapply frame_trans; [apply same_frame; exists m1, fl, ct, lg; exact (conj E1 Ea)|]. by destruct s1.
    + split; [done|]. exists ks, free'. split_and!; [done | done | | by rewrite <- Hm1 | | by rewrite <- Ept |].
      * apply (space_ext (set_k_mem (newproc_mem ks (k_mem s1)) s1)); [|done|done]. eapply space_write; [exact V1 | apply newproc_wf, V1 | | |].
        -- apply untouched_newproc.
        -- apply Forall_singleton. by apply ok_range.
        -- intros q ->%list_elem_of_singleton. by eapply held_outside.
      * destruct Us as [Hl Us]. split; [done|]. intros k. rewrite <- Us. apply over_after_ext; [done|]. intros c'.
        change (k_ctable s') with (alter more_procs c (k_ctable s1)). destruct (decide (c' = c)) as [->|Hn].
        -- by rewrite list_lookup_alter_eq, Hco1.
        -- by rewrite lookup_alter_other.
      * change (k_ctable s') with (alter more_procs c (k_ctable s1)). rewrite (list_fmap_alter _ _ more_procs) by (by apply Forall_true).
        rewrite E1. cbn [k_ctable set_k_mem set_k_freelist set_k_ctable set_k_klog]. by rewrite Ea.
Qed.

(** ** [fork] with the memory copied *)

(** The child's trap frame: the parent's, with 0 to be returned. *)
Definition child_tf (tf tf' : Z) (m : mem) : mem := st32 (put_bytes m tf' (bytes_at m tf (Z.to_nat TF_SIZE))) (tf' + tf_eax) 0.

(** The child [q] with all that it takes from its parent. *)
Definition forked (pr : proc) (parent : option nat) (w : nat) (q : proc) : proc :=
  set_p_state RUNNABLE (set_p_name (Obj.safestrcpy (p_name q) (p_name pr)) (set_p_cwd (Some w)
    (set_p_ofile (inherit (p_ofile pr) (p_ofile q)) (set_p_parent parent (set_p_sz (p_sz pr) q))))).

Definition fork_rest (cur np : nat) (cwd parent : option nat) : K Z :=
  pr <- get_proc cur ;;
  upd_proc np (set_p_sz (p_sz pr)) ;;
  upd_proc np (set_p_parent parent) ;;
  npr <- get_proc np ;;
  upd_mem (fun m => put_bytes m (p_tf npr) (bytes_at m (p_tf pr) (Z.to_nat TF_SIZE))) ;;
  store32 (p_tf npr + tf_eax) 0 ;;
  for_each (seq 0 NOFILE) (dup_file cur np) ;;
  cwd <- deref "cwd" cwd ;;
  cwd' <- idup cwd ;;
  upd_proc np (set_p_cwd (Some cwd')) ;;
  pr <- get_proc cur ;;
  upd_proc np (fun npr => set_p_name (Obj.safestrcpy (p_name npr) (p_name pr)) npr) ;;
  npr <- get_proc np ;;
  let pid := p_pid npr in
  acquireptable ;;
  upd_proc np (set_p_state RUNNABLE) ;;
  releaseptable ;;
  ret pid.

Definition more_refs (ip : inode) : inode := set_i_ref (i32 (i_ref ip + 1)) ip.

(** The state with the child [np] ready to run. *)
Definition born (np : nat) (q pr : proc) (parent : option nat) (w : nat) (s : kst) : kst :=
  set_k_icache (alter more_refs w (k_icache s)) (set_k_ftable (dup_refs (p_ofile pr) (k_ftable s))
    (set_k_mem (child_tf (p_tf pr) (p_tf q) (k_mem s)) (set_k_ptable (<[np := forked pr parent w q]> (k_ptable s)) s))).

Lemma get_insert np q pt s : (np < length pt)%nat -> k_ptable s = <[np := q]> pt -> get_proc np s = Ret q s.
Proof. intros H E. apply get_proc_eq. by rewrite E, list_lookup_insert_eq. Qed.

Lemma upd_insert np f q pt s : (np < length pt)%nat -> k_ptable s = <[np := q]> pt ->
  upd_proc np f s = Ret tt (set_k_ptable (<[np := f q]> pt) s).
Proof.
  intros H E. erewrite upd_proc_eq by (rewrite E; by apply list_lookup_insert_eq). rewrite E.
  by rewrite (alter_insert_eq _ _ _ q), list_insert_insert_eq by (by apply list_lookup_insert_eq).
Qed.

Lemma idup_eq w ip s : LIcache ∉ k_held s -> k_icache s !! w = Some ip ->
  idup w s = Ret w (set_k_icache (alter more_refs w (k_icache s)) s).
Proof.
  intros Hl Hw. unfold idup. rewrite (bind_Ret _ _ _ _ _ (acquire_eq _ _ Hl)). erewrite (bind_Ret (upd_inode _ _)).
  2:{ unfold upd_inode. erewrite (bind_Ret (get_inode _)); [reflexivity|]. unfold get_inode, bind, gets. simpl. by rewrite Hw. }
  erewrite (bind_Ret (release _)) by (by apply release_eq). by destruct s.
Qed.

Lemma fork_rest_eq cur np pr q parent w ip s :
  cur <> np -> k_ptable s !! cur = Some pr -> k_ptable s !! np = Some q ->
  length (p_ofile pr) = NOFILE -> length (p_ofile q) = NOFILE -> files_ok (p_ofile pr) (k_ftable s) -> k_icache s !! w = Some ip ->
  LFtable ∉ k_held s -> LIcache ∉ k_held s -> LPtable ∉ k_held s ->
  fork_rest cur np (Some w) parent s = Ret (p_pid q) (born np q pr parent w s).
Proof.
  intros Hne Hc Hq L1 L2 Hf Hw Hl1 Hl2 Hl3. pose proof (lookup_lt_Some _ _ _ Hq) as Hlt. unfold fork_rest.
  rewrite (bind_Ret _ _ _ _ _ (get_proc_eq _ _ _ Hc)).
  rewrite (bind_Ret _ _ _ _ _ (upd_insert np _ q (k_ptable s) s Hlt ltac:(by rewrite list_insert_id))).
  erewrite (bind_Ret (upd_proc _ _)) by (by apply upd_insert with (pt := k_ptable s)).
  erewrite (bind_Ret (get_proc _)) by (by apply get_insert with (pt := k_ptable s)). unfold store32. rewrite !bind_upd_mem.
  cbn [p_tf set_p_sz set_p_parent]. set (s1 := set_k_mem _ _). set (q1 := set_p_parent _ _) in *.
  assert (k_ptable s1 !! np = Some q1) as Hq1 by (cbn; by apply list_lookup_insert_eq).
  pose proof (dup_files cur np pr Hne (p_ofile pr) s1 q1 [] (p_ofile q)) as D. cbn [length] in D. rewrite L1 in D.
  rewrite (bind_Ret _ _ _ _ _ (D eq_refl ltac:(cbn; by rewrite list_lookup_insert_ne) Hq1 eq_refl L2 Hl1 Hf)). clear D.
  cbn [k_ptable set_k_ptable s1 set_k_mem app]. rewrite list_insert_insert_eq. set (s2 := set_k_ftable _ _).
  unfold deref. krun. rewrite (bind_Ret _ _ s2 _ _ (idup_eq w ip s2 Hl2 Hw)).
  erewrite (bind_Ret (upd_proc _ _)) by (by apply upd_insert with (pt := k_ptable s)).
  erewrite (bind_Ret (get_proc cur)) by (apply get_proc_eq; cbn; by rewrite list_lookup_insert_ne).
  erewrite (bind_Ret (upd_proc _ _)) by (by apply upd_insert with (pt := k_ptable s)).
  erewrite (bind_Ret (get_proc _)) by (by apply get_insert with (pt := k_ptable s)). unfold acquireptable, releaseptable.
  erewrite (bind_Ret (acquire _)) by (by apply acquire_eq).
  erewrite (bind_Ret (upd_proc _ _)) by (by apply upd_insert with (pt := k_ptable s)).
  erewrite (bind_Ret (release _)) by (by apply release_eq). by destruct s.
Qed.

(** ** [fork] *)

(** The working directory, the container and the parent of the child. *)
Definition fork_target (s : kst) (cur : nat) (pr : proc) (pc : option nat) : option (option nat * nat * option nat) :=
  match pc with
  | None => (fun c => (p_cwd pr, c, Some cur)) <$> p_cont pr
  | Some c => (fun co => (c_rootdir co, c, k_initproc s)) <$> k_ctable s !! c
  end.

(** The process [cur] can call [fork]: it is running with its memory, stack and files in
    order, and the container [c] and the directory [w] of the child exist. *)
Record forkable (s : kst) (cur : nat) (pr : proc) (pc : option nat) (A : aspace) (free rest : list Z)
    (c : nat) (co : cont) (w : nat) (parent : option nat) : Prop := {
  fk_runs : runs s cur pr;
  fk_state : p_state pr <> UNUSED;
  fk_target : fork_target s cur pr pc = Some (Some w, c, parent);
  fk_cont : k_ctable s !! c = Some co;
  fk_wf : tables_wf (k_ctable s) (k_ptable s);
  fk_locks : LPtable ∉ k_held s /\ LFtable ∉ k_held s /\ LIcache ∉ k_held s;
  fk_alloc : can_alloc s;
  fk_space : space_inv s (p_pgdir pr) A free rest;
  fk_stack : p_kstack pr ∈ rest /\ p_kstack pr mod 4096 = 0 /\ p_tf pr = p_kstack pr + KSTACKSIZE - TF_SIZE;
  fk_image : image A (p_sz pr) /\ 0 <= p_sz pr <= KERNBASE;
  fk_files : files_ok (p_ofile pr) (k_ftable s);
  fk_ofiles p q : k_ptable s !! p = Some q -> length (p_ofile q) = NOFILE;
  fk_cwd : is_Some (k_icache s !! w)
}.

Lemma slot_unused c co s np : tables_wf (k_ctable s) (k_ptable s) -> k_ctable s !! c = Some co -> slot c co (k_ptable s) = Some np ->
  exists q, k_ptable s !! np = Some q /\ p_state q = UNUSED.
Proof.
  intros W Hc. unfold slot. destruct (Z.leb_spec (c_mproc co) 0) as [Hm|Hm]; [done|]. destruct (findi _ _) as [i|] eqn:Ef; [|done].
  intros [= <-]. apply findi_Some in Ef as (q & Hi & Hu & _). destruct (row_lookup s c co i q W Hc Hm Hi) as (_ & Hp & _).
  exists q. split; [done|]. by apply bool_decide_eq_true in Hu.
Qed.

(** What [allocproc] leaves of the new process. *)
Definition newproc (c : nat) (pid ks : Z) (q : proc) : proc := stacked c ks (embryo pid q).

Lemma allocproc_as s cur pr pc A free rest c co w parent : forkable s cur pr pc A free rest c co w parent ->
  exists r s', allocproc c s = Ret r s' /\ can_alloc s' /\ frame s s' /\ k_ftable s' = k_ftable s /\ k_icache s' = k_icache s /\
    if negb (cont_open co) then r = None /\ s' = s else
    match slot c co (k_ptable s) with
    | None => r = None /\ s' = s
    | Some np => exists q, cur <> np /\ k_ptable s !! np = Some q /\ runs s' cur pr /\ k_nextpid s' = i32 (k_nextpid s + 1) /\
      ((r = None /\ space_inv s' (p_pgdir pr) A free rest /\ k_mem s' = k_mem s /\ short s free 1 /\
        k_ptable s' = <[np := unslotted (embryo (k_nextpid s) q)]> (k_ptable s) /\ acct <$> k_ctable s' = acct <$> k_ctable s) \/
       (r = Some np /\ exists ks free', free = ks :: free' /\ page_ok ks /\ space_inv s' (p_pgdir pr) A free' (ks :: rest) /\
          untouched [ks] (k_mem s) (k_mem s') /\ used_by s free s' free' /\
          k_ptable s' = <[np := newproc c (k_nextpid s) ks q]> (k_ptable s) /\ acct <$> k_ctable s' = alter more_procs c (acct <$> k_ctable s)))
    end.
Proof.
  intros [Hr Hst _ Hco W [Hl _] Hc V _ _ _ _ _]. rewrite (allocproc_slot c co s W Hl Hco).
  destruct (negb (cont_open co)); [exists None, s; split_and!; try done; apply frame_refl|].
  destruct (slot c co (k_ptable s)) as [np|] eqn:Es; [|exists None, s; split_and!; try done; apply frame_refl].
  destruct (slot_unused c co s np W Hco Es) as (q & Hq & Hu). assert (cur <> np) as Hne by (intros ->; destruct Hr; congruence).
  assert (runs (taken np s) cur pr) as Hr1 by (split; [apply Hr | cbn; rewrite lookup_alter_other by done; apply Hr]).
  assert (cur_cont (taken np s) = cur_cont s) as Ecc by (eapply cur_cont_ext; [exact Hr | done | done | apply Hr1]).
  assert (forall k, over_after (taken np s) k = over_after s k) as Eov by (intros k; by apply over_after_ext).
  destruct (alloc_stack_as c co cur pr np (taken np s) (p_pgdir pr) A free rest) as (r & s' & E & Hc' & F & Hr' & En & Ef & Ei & H);
    [by apply (space_ext s) | by apply (can_alloc_ext s) | done | done | cbn; rewrite length_alter; by eapply lookup_lt_Some | done |].
  assert (forall f, alter f np (k_ptable (taken np s)) = <[np := f (embryo (k_nextpid s) q)]> (k_ptable s)) as Ea.
  { intros f. cbn. rewrite alter_alter. exact (alter_insert_eq (fun x => f (embryo (k_nextpid s) x)) np _ q Hq). }
  exists r, s'. split_and!; [done | done | eapply frame_trans; [|exact F]; by destruct s | done | done |]. exists q. split_and!; [done | done | done | done |].
  destruct H as [(-> & V' & Em & Sh & Ept & Eact)|(-> & ks & free' & -> & Hok & V' & Em & Us & Ept & Eact)].
  - left. split_and!; try done; [|by rewrite Ept, Ea]. destruct Sh as (k & ? & Sh). exists k. split; [done|]. by rewrite Eov in Sh.
  - right. split; [done|]. exists ks, free'. split_and!; try done; [rewrite Em; apply untouched_newproc | | by rewrite Ept, Ea].
    destruct Us as [Ul Us]. split; [done|]. intros k. by rewrite Us, Eov.
Qed.

(** What [fork] can come to. *)
Inductive fork_result (s : kst) (pr : proc) (A : aspace) (free rest : list Z) (c : nat) (co : cont) (w : nat) (parent : option nat) :
    Z -> kst -> Prop :=
  | fork_no_slot :
      cont_open co = false \/ slot c co (k_ptable s) = None ->
      fork_result s pr A free rest c co w parent (-1) s
  | fork_no_stack np q s' :
      cont_open co = true -> slot c co (k_ptable s) = Some np -> k_ptable s !! np = Some q -> short s free 1 ->
      k_ptable s' = <[np := unslotted (embryo (k_nextpid s) q)]> (k_ptable s) -> k_nextpid s' = i32 (k_nextpid s + 1) ->
      k_ftable s' = k_ftable s -> k_icache s' = k_icache s -> acct <$> k_ctable s' = acct <$> k_ctable s ->
      k_mem s' = k_mem s -> space_inv s' (p_pgdir pr) A free rest ->
      fork_result s pr A free rest c co w parent (-1) s'
  | fork_no_memory np q ks lost free' s' :
      cont_open co = true -> slot c co (k_ptable s) = Some np -> k_ptable s !! np = Some q -> short s free (1027 + 2 * Z.to_nat (npages (p_sz pr))) ->
      k_ptable s' = <[np := unslotted (set_p_pgdir 0 (newproc c (k_nextpid s) ks q))]> (k_ptable s) -> k_nextpid s' = i32 (k_nextpid s + 1) ->
      k_ftable s' = k_ftable s -> k_icache s' = k_icache s -> acct <$> k_ctable s' = alter more_procs c (acct <$> k_ctable s) ->
      untouched free (k_mem s) (k_mem s') -> (length lost <= 1)%nat -> lost ++ free' ≡ₚ free ->
      space_inv s' (p_pgdir pr) A free' (lost ++ rest) ->
      fork_result s pr A free rest c co w parent (-1) s'
  | fork_child np q ks d D free' s' :
      cont_open co = true -> slot c co (k_ptable s) = Some np -> k_ptable s !! np = Some q ->
      k_ptable s' = <[np := forked pr parent w (set_p_pgdir d (newproc c (k_nextpid s) ks q))]> (k_ptable s) -> k_nextpid s' = i32 (k_nextpid s + 1) ->
      k_ftable s' = dup_refs (p_ofile pr) (k_ftable s) -> k_icache s' = alter more_refs w (k_icache s) ->
      acct <$> k_ctable s' = alter more_procs c (acct <$> k_ctable s) ->
      untouched free (k_mem s) (k_mem s') ->
      (forall k, 0 <= k < TF_SIZE -> k_mem s' (ks + KSTACKSIZE - TF_SIZE + k) = if in_range tf_eax 4 k then 0 else k_mem s (p_tf pr + k)) ->
      copied (k_mem s') 0 (npages (p_sz pr)) A (mkAs ∅ kernel_map) D ->
      ks :: owned d D ++ free' ≡ₚ free ->
      space_inv s' d D free' (ks :: owned (p_pgdir pr) A ++ rest) -> space_inv s' (p_pgdir pr) A free' (ks :: owned d D ++ rest) ->
      fork_result s pr A free rest c co w parent (k_nextpid s) s'.

Lemma space_perm s pd A free rest rest' : space_inv s pd A free rest -> rest ≡ₚ rest' -> space_inv s pd A free rest'.
Proof. intros [K R O N] P. split; [done | done | done |]. by rewrite <- P. Qed.

Definition fork_undo (np : nat) : K Z :=
  npr <- get_proc np ;;
  kfree (p_kstack npr) ;;
  upd_proc np (set_p_kstack 0) ;;
  upd_proc np (set_p_state UNUSED) ;;
  ret (-1).

Lemma fork_undo_as cur pr np q s pd A free rest ks : runs s cur pr -> cur <> np -> k_ptable s !! np = Some q -> p_kstack q = ks -> page_ok ks ->
  space_inv s pd A free (ks :: rest) -> can_alloc s ->
  exists s', fork_undo np s = Ret (-1) s' /\ can_alloc s' /\ frame s s' /\ k_ptable s' = <[np := unslotted q]> (k_ptable s) /\
    k_nextpid s' = k_nextpid s /\ k_ftable s' = k_ftable s /\ k_icache s' = k_icache s /\ acct <$> k_ctable s' = acct <$> k_ctable s /\
    untouched [ks] (k_mem s) (k_mem s') /\ space_inv s' pd A (ks :: free) rest.
Proof.
  intros Hr Hne Hq Hk Hok V Hc. pose proof (lookup_lt_Some _ _ _ Hq) as Hlt. unfold fork_undo.
  rewrite (bind_Ret _ _ _ _ _ (get_proc_eq _ _ _ Hq)), Hk. destruct (kfree_as s pd A free rest ks V Hc Hok) as (s1 & E & Hc1 & Hs1 & U & V1).
  rewrite (bind_Ret _ _ _ _ _ E). pose proof (same_rest_ptable _ _ Hs1) as Ept. pose proof (same_rest_runs _ _ _ _ Hs1 Hr) as Hr1.
  rewrite !bind_upd_proc by (cbn; by rewrite ?length_alter, Ept). set (s' := set_k_ptable _ _).
  assert (k_ptable s' = <[np := unslotted q]> (k_ptable s)) as Et.
  { unfold s'. cbn [k_ptable set_k_ptable]. rewrite Ept, alter_alter. exact (alter_insert_eq unslotted np _ q Hq). }
  exists s'. split_and!; [done | | | done | by destruct Hs1 as (? & ? & ? & ? & -> & ?) .. | done | by apply (space_ext s1)].
  - eapply (can_alloc_ext s1); [done | | done | done | done]. eapply cur_cont_ext; [exact Hr1 | done | done |]. rewrite Et, list_lookup_insert_ne by done. apply Hr.
  - eapply frame_trans; [by apply same_frame|]. by destruct s1.
Qed.

Lemma lget_bytes m p n k : 0 <= k < Z.of_nat n -> lget (bytes_at m p n) k = m (p + k).
Proof.
  revert p k. induction n as [|n IH]; intros p k Hk; [lia|]. rewrite bytes_at_S. unfold lget.
  destruct (decide (k = 0)) as [->|Hn]; [by rewrite Z.add_0_r|]. replace (Z.to_nat k) with (S (Z.to_nat (k - 1))) by lia.
  change (lget (bytes_at m (p + 1) n) (k - 1) = m (p + k)). rewrite IH by lia. f_equal. lia.
Qed.

(** The frame copied to the top of the stack page [ks]. *)
Lemma child_tf_at tf ks m x : let tf' := ks + KSTACKSIZE - TF_SIZE in child_tf tf tf' m x =
  if in_range (tf' + tf_eax) 4 x then 0 else if in_range tf' TF_SIZE x then m (tf + (x - tf')) else m x.
Proof.
  intros tf'. unfold child_tf. destruct (in_range (tf' + tf_eax) 4 x) eqn:E1.
  - apply in_range_true in E1. unfold st32, st8, tf_eax in *. repeat match goal with |- context [x =? ?y] => destruct (Z.eqb_spec x y); [done|] end. lia.
  - apply in_range_false in E1. rewrite st32_frame by done. unfold put_bytes. unfold zlen. rewrite length_bytes_at.
    change ((tf' <=? x) && (x <? tf' + _)) with (in_range tf' TF_SIZE x). destruct (in_range tf' TF_SIZE x) eqn:E2; [|done].
    apply in_range_true in E2. apply lget_bytes. unfold TF_SIZE in *. lia.
Qed.

Lemma untouched_child_tf tf ks m : untouched [ks] m (child_tf tf (ks + KSTACKSIZE - TF_SIZE) m).
Proof.
  intros x Hx. rewrite child_tf_at. destruct (Hx ks ltac:(by left)); unfold KSTACKSIZE, TF_SIZE, tf_eax;
    rewrite (proj2 (in_range_false (ks + 4096 - 76 + 28) _ _)), (proj2 (in_range_false _ _ _)) by lia; done.
Qed.

Lemma child_tf_wf tf ks m : mem_wf m -> mem_wf (child_tf tf (ks + KSTACKSIZE - TF_SIZE) m).
Proof. intros H x. rewrite child_tf_at. case_match; [lia|]. case_match; apply H. Qed.

Lemma in_range_shift a c n k : in_range (a + c) n (a + k) = in_range c n k.
Proof.
  destruct (in_range c n k) eqn:E; [apply in_range_true in E; apply in_range_true | apply in_range_false in E; apply in_range_false]; lia.
Qed.

Lemma parent_stack s pd A free rest pks m' x : space_inv s pd A free rest -> pks ∈ rest -> pks mod 4096 = 0 ->
  untouched free (k_mem s) m' -> pks <= x < pks + 4096 -> m' x = k_mem s x.
Proof.
  intros V Hp Ha U Hx. apply U, (outside_page _ pks); [eapply free_aligned, V | done | | done]. intros Hf.
  pose proof (si_nodup _ _ _ _ _ V) as (_ & _ & (_ & N & _)%NoDup_app)%NoDup_app. by apply (N _ Hf).
Qed.

(** Writing to the new stack changes neither copy. *)
Lemma copied_kept m m' ks lo hi A D D' pd d s free rest : copied m lo hi A D D' -> untouched [ks] m m' -> page_ok ks -> hi <= UPAGES ->
  space_inv s pd A free (ks :: rest) -> forall s' rest', space_inv s' d D' free (ks :: rest') -> copied m' lo hi A D D'.
Proof.
  intros C U Hok Hhi V s' rest' V'. destruct C as [C1 C2]. split; [|done]. intros j Hj. destruct (C1 j Hj) as (p & p' & fl & H1 & H2 & H3).
  exists p, p', fl. split_and!; [done | done |]. intros k Hk.
  assert (forall pd A free rest s q fl, space_inv s pd A free (ks :: rest) -> as_map A !! j = Some (q, fl) -> m' (q + k) = m (q + k)) as Hkept.
  { clear - U Hok Hj Hhi Hk LK. intros pd A free rest s q fl V Hq. apply U. apply (outside_page _ q); [apply Forall_singleton; by apply ok_range | | | lia].
    - apply (sane_align _ _ _ (si_sane _ _ _ _ _ V)). rewrite owned_perm. apply elem_of_app. right. apply elem_of_uframes. exists j, fl. split; [lia | done].
    - intros ->%list_elem_of_singleton. destruct (NoDup_held _ _ _ _ (si_nodup _ _ _ _ _ V)) as [N _]. apply N. rewrite owned_perm.
      apply elem_of_app. right. apply elem_of_uframes. exists j, fl. split; [lia | done]. }
  rewrite (Hkept _ _ _ _ _ _ _ V' H2), (Hkept _ _ _ _ _ _ _ V H1). by apply H3.
Qed.

(** [fork] once it has a process. *)
Definition fork_copy (cur np : nat) (cwd parent : option nat) : K Z :=
  pr <- get_proc cur ;;
  pd <- copyuvm (p_pgdir pr) (p_sz pr) ;;
  upd_proc np (set_p_pgdir pd) ;;
  if pd =? 0 then fork_undo np else fork_rest cur np cwd parent.

Lemma fork_eq s cur pr pc cwd c parent : runs s cur pr -> fork_target s cur pr pc = Some (cwd, c, parent) ->
  fork pc s = (r <- allocproc c ;; match r with None => ret (-1) | Some np => fork_copy cur np cwd parent end) s.
Proof.
  intros Hr Ht. unfold fork. rewrite (bind_Ret _ _ _ _ _ (runs_curproc _ _ _ Hr)), (bind_Ret _ _ _ _ _ (get_proc_eq _ _ _ (proj2 Hr))), bind_gets.
  rewrite (bind_Ret _ _ s (cwd, c, parent) s); [reflexivity|]. unfold fork_target in Ht. destruct pc as [c'|].
  - destruct (k_ctable s !! c') as [co|] eqn:E; [|done]. rewrite (bind_Ret _ _ _ _ _ (get_cont_eq _ _ _ E)). by injection Ht as <- <- <-.
  - destruct (p_cont pr) as [c'|]; [|done]. by injection Ht as <- <- <-.
Qed.

Section copy.
Context (cur np : nat) (pr q : proc) (parent : option nat) (w : nat) (ks : Z) (A : aspace) (free rest : list Z).

(** The new process [np] beside its parent. *)
Record ready (s : kst) : Prop := {
  rd_runs : runs s cur pr;
  rd_ne : cur <> np;
  rd_np : k_ptable s !! np = Some q;
  rd_q : p_kstack q = ks /\ p_tf q = ks + KSTACKSIZE - TF_SIZE /\ page_ok ks;
  rd_space : space_inv s (p_pgdir pr) A free (ks :: rest);
  rd_alloc : can_alloc s;
  rd_locks : LPtable ∉ k_held s /\ LFtable ∉ k_held s /\ LIcache ∉ k_held s;
  rd_stack : p_kstack pr ∈ rest /\ p_kstack pr mod 4096 = 0 /\ p_tf pr = p_kstack pr + KSTACKSIZE - TF_SIZE;
  rd_image : image A (p_sz pr) /\ 0 <= p_sz pr <= KERNBASE;
  rd_files : files_ok (p_ofile pr) (k_ftable s) /\ length (p_ofile pr) = NOFILE /\ length (p_ofile q) = NOFILE;
  rd_cwd : is_Some (k_icache s !! w)
}.

(** No memory for the child. *)
Record not_copied (s s' : kst) : Prop := {
  nc_short : short s free (1026 + 2 * Z.to_nat (npages (p_sz pr)));
  nc_ptable : k_ptable s' = <[np := unslotted (set_p_pgdir 0 q)]> (k_ptable s);
  nc_refs : k_ftable s' = k_ftable s /\ k_icache s' = k_icache s;
  nc_conts : acct <$> k_ctable s' = acct <$> k_ctable s;
  nc_mem : untouched (ks :: free) (k_mem s) (k_mem s');
  nc_pages : exists lost free', (length lost <= 1)%nat /\ lost ++ free' ≡ₚ ks :: free /\ space_inv s' (p_pgdir pr) A free' (lost ++ rest)
}.

(** The child with its copy. *)
Record is_copied (s s' : kst) (d : Z) (D : aspace) (free' : list Z) : Prop := {
  ic_ptable : k_ptable s' = <[np := forked pr parent w (set_p_pgdir d q)]> (k_ptable s);
  ic_refs : k_ftable s' = dup_refs (p_ofile pr) (k_ftable s) /\ k_icache s' = alter more_refs w (k_icache s);
  ic_conts : acct <$> k_ctable s' = acct <$> k_ctable s;
  ic_mem : untouched (ks :: free) (k_mem s) (k_mem s');
  ic_tf k : 0 <= k < TF_SIZE -> k_mem s' (ks + KSTACKSIZE - TF_SIZE + k) = if in_range tf_eax 4 k then 0 else k_mem s (p_tf pr + k);
  ic_copy : copied (k_mem s') 0 (npages (p_sz pr)) A (mkAs ∅ kernel_map) D;
  ic_pages : ks :: owned d D ++ free' ≡ₚ ks :: free;
  ic_child : space_inv s' d D free' (ks :: owned (p_pgdir pr) A ++ rest);
  ic_parent : space_inv s' (p_pgdir pr) A free' (ks :: owned d D ++ rest)
}.

Lemma not_copied_as s s1 free1 lost : ready s -> can_alloc s1 -> same_rest s s1 -> untouched free (k_mem s) (k_mem s1) ->
  short s free (1026 + 2 * Z.to_nat (npages (p_sz pr))) -> (length lost <= 1)%nat -> lost ++ free1 ≡ₚ free ->
  space_inv s1 (p_pgdir pr) A free1 (lost ++ ks :: rest) ->
  exists s', fork_undo np (set_k_ptable (<[np := set_p_pgdir 0 q]> (k_ptable s)) s1) = Ret (-1) s' /\ can_alloc s' /\ frame s s' /\
    k_nextpid s' = k_nextpid s /\ not_copied s s'.
Proof.
  intros [Hr Hne Hq (Hk & _ & Hok) V Hc _ _ _ _ _] Hc1 Hs1 U1 Sh Hl P1 V1. set (s2 := set_k_ptable _ s1).
  pose proof (lookup_lt_Some _ _ _ Hq) as Hlt. pose proof (same_rest_runs _ _ _ _ Hs1 Hr) as Hr1.
  assert (runs s2 cur pr) as Hr2 by (split; [apply Hr1 | cbn; rewrite list_lookup_insert_ne by done; apply Hr]).
  destruct (fork_undo_as cur pr np (set_p_pgdir 0 q) s2 (p_pgdir pr) A free1 (lost ++ rest) ks Hr2 Hne)
    as (s' & E & Hc' & F & Ept & En & Ef & Ei & Ea & U & V'); [cbn; by apply list_lookup_insert_eq | done | done | | |].
  { apply (space_ext s1); [|done|done]. eapply space_perm; [exact V1|]. solve_Permutation. }
  { eapply (can_alloc_ext s1); [done | | done | done | done]. eapply cur_cont_ext; [exact Hr1 | done | done | apply Hr2]. }
  destruct Hs1 as (m1 & fl & ct & lg & Es1 & Eact). exists s'. split_and!; [done | done | | rewrite En; unfold s2; by rewrite Es1 |].
  - eapply frame_trans; [|exact F]. unfold s2. rewrite Es1. by destruct s.
  - split; [done | rewrite Ept; apply list_insert_insert_eq | | | |].
    + rewrite Ef, Ei. unfold s2. by rewrite Es1.
    + rewrite Ea. unfold s2. by rewrite Es1.
    + eapply untouched_trans; [eapply untouched_mono; [|exact U1]; by right|]. eapply untouched_mono; [|exact U].
      intros p ->%list_elem_of_singleton. by left.
    + exists lost, (ks :: free1). split_and!; [done | rewrite <- P1; solve_Permutation | done].
Qed.

Lemma is_copied_as s s1 d D free1 ip : ready s -> same_rest s s1 -> untouched free (k_mem s) (k_mem s1) -> k_icache s !! w = Some ip ->
  owned d D ++ free1 ≡ₚ free -> space_inv s1 d D free1 (owned (p_pgdir pr) A ++ ks :: rest) ->
  space_inv s1 (p_pgdir pr) A free1 (owned d D ++ ks :: rest) -> copied (k_mem s1) 0 (npages (p_sz pr)) A (mkAs ∅ kernel_map) D ->
  is_copied s (born np (set_p_pgdir d q) pr parent w (set_k_ptable (<[np := set_p_pgdir d q]> (k_ptable s)) s1)) d D free1.
Proof.
  intros [Hr Hne Hq (Hk & Htf & Hok) V Hc _ (St & Sa & Stf) (I & Hsz) _ _] Hs1 U1 Hip P1 V1 V2 C.
  assert (p_tf (set_p_pgdir d q) = ks + KSTACKSIZE - TF_SIZE) as Etf by done.
  set (s2 := set_k_ptable _ s1). set (s' := born _ _ _ _ _ _).
  assert (k_mem s' = child_tf (p_tf pr) (ks + KSTACKSIZE - TF_SIZE) (k_mem s1)) as Em by (unfold s', born; rewrite Etf; done).
  destruct Hs1 as (m1 & fl & ct & lg & Es1 & Eact).
  assert (forall pd A rest, space_inv s1 pd A free1 (ks :: rest) -> space_inv s' pd A free1 (ks :: rest)) as Hkeep.
  { intros pd' A' rest' V'. apply (space_ext (set_k_mem (k_mem s') s1)); [|done|done].
    eapply (space_write _ _ _ _ _ [ks]); [done | rewrite Em; apply child_tf_wf, V' | rewrite Em; apply untouched_child_tf | apply Forall_singleton; by apply ok_range |].
    intros p ->%list_elem_of_singleton. by eapply held_outside. }
  assert (space_inv s1 d D free1 (ks :: owned (p_pgdir pr) A ++ rest)) as V1' by (eapply space_perm; [exact V1|]; solve_Permutation).
  assert (space_inv s1 (p_pgdir pr) A free1 (ks :: owned d D ++ rest)) as V2' by (eapply space_perm; [exact V2|]; solve_Permutation).
  split.
  - unfold s', born. cbn [k_ptable set_k_icache set_k_ftable set_k_mem set_k_ptable s2]. apply list_insert_insert_eq.
  - unfold s', born, s2. by rewrite Es1.
  - unfold s', born, s2. by rewrite Es1.
  - eapply untouched_trans; [eapply untouched_mono; [|exact U1]; by right|]. rewrite Em. eapply untouched_mono; [|apply untouched_child_tf].
    intros p ->%list_elem_of_singleton. by left.
  - intros k Hkk. rewrite Em, child_tf_at, in_range_shift, <- (Z.add_0_r (ks + KSTACKSIZE - TF_SIZE)), <- Z.add_assoc, in_range_shift, Z.add_0_l.
    destruct (in_range tf_eax 4 k); [done|]. rewrite (proj2 (in_range_true _ _ _)) by lia. rewrite Z.add_0_r.
    replace (ks + KSTACKSIZE - TF_SIZE + k - _) with k by lia. eapply parent_stack; [exact V | by right | done | done |]. rewrite Stf. unfold KSTACKSIZE, TF_SIZE in *. lia.
  - eapply copied_kept; [exact C | rewrite Em; apply untouched_child_tf | done | | exact V2' | exact V1'].
    change UPAGES with 524288. unfold npages, KERNBASE in *. zlia.
  - by rewrite P1.
  - by apply Hkeep.
  - by apply Hkeep.
Qed.

Lemma fork_copy_as s : ready s -> exists r s', fork_copy cur np (Some w) parent s = Ret r s' /\ can_alloc s' /\ frame s s' /\
  k_nextpid s' = k_nextpid s /\ ((r = -1 /\ not_copied s s') \/ (r = p_pid q /\ exists d D free', is_copied s s' d D free')).
Proof.
  intros R. pose proof R as [Hr Hne Hq (Hk & Htf & Hok) V Hc (Hl1 & Hl2 & Hl3) St (I & Hsz) (Hf & L1 & L2) [ip Hip]].
  unfold fork_copy. rewrite (bind_Ret _ _ _ _ _ (get_proc_eq _ _ _ (proj2 Hr))).
  destruct (copyuvm_as s (p_pgdir pr) A free (ks :: rest) (p_sz pr) V Hc Hsz) as (d & s1 & free1 & E1 & Hc1 & Hs1 & U1 & H).
  { intros j Hj. apply I; [change UPAGES with 524288; unfold KERNBASE in *; zlia | unfold npages; lia]. }
  rewrite (bind_Ret _ _ _ _ _ E1). pose proof (same_rest_ptable _ _ Hs1) as Ept. pose proof (same_rest_runs _ _ _ _ Hs1 Hr) as Hr1.
  pose proof (lookup_lt_Some _ _ _ Hq) as Hlt. rewrite (bind_Ret _ _ s1 _ _ (upd_insert np (set_p_pgdir d) q (k_ptable s) s1 Hlt ltac:(by rewrite list_insert_id))).
  destruct H as [(-> & Sh & lost & Hl & P1 & V1)|(Hd & D & P1 & V1 & V2 & C)].
  - change (0 =? 0) with true. cbv iota. destruct (not_copied_as s s1 free1 lost R Hc1 Hs1 U1 Sh Hl P1 V1) as (s' & E & Hc' & F & En & N).
    exists (-1), s'. split_and!; [done | done | done | done |]. by left.
  - rewrite (proj2 (Z.eqb_neq d 0) Hd). pose proof (is_copied_as s s1 d D free1 ip R Hs1 U1 Hip P1 V1 V2 C) as IC.
    destruct Hs1 as (m1 & fl & ct & lg & Es1 & Eact). set (s2 := set_k_ptable _ s1) in *.
    rewrite (fork_rest_eq cur np pr (set_p_pgdir d q) parent w ip s2 Hne); try done;
      [| cbn; rewrite list_lookup_insert_ne by done; apply Hr | cbn; by apply list_lookup_insert_eq | unfold s2; by rewrite Es1 ..].
    exists (p_pid q), (born np (set_p_pgdir d q) pr parent w s2). split_and!; [done | | | unfold s2; by rewrite Es1 | right; by eauto].
    + eapply (can_alloc_ext s1); [done | | done | done | done]. eapply cur_cont_ext; [exact Hr1 | done | done |].
      rewrite (ic_ptable _ _ _ _ _ IC), list_lookup_insert_ne by done. apply Hr.
    + unfold born, s2. rewrite Es1. by destruct s.
Qed.
End copy.

Lemma newproc_ready s cur pr pc A ks free rest c co w parent np q s1 : forkable s cur pr pc A (ks :: free) rest c co w parent ->
  frame s s1 -> cur <> np -> k_ptable s !! np = Some q -> runs s1 cur pr -> page_ok ks -> space_inv s1 (p_pgdir pr) A free (ks :: rest) -> can_alloc s1 ->
  k_ftable s1 = k_ftable s -> k_icache s1 = k_icache s -> k_ptable s1 = <[np := newproc c (k_nextpid s) ks q]> (k_ptable s) ->
  ready cur np pr (newproc c (k_nextpid s) ks q) w ks A free rest s1.
Proof.
  intros [Hr _ _ _ _ Hl _ _ St I Hf Ho Hw] F Hne Hq Hr1 Hok V1 Hc1 Ef Ei Ept. destruct (frame_fields _ _ F) as (Eh & _).
  split; [done | done | | done | done | done | by rewrite Eh | done | done | | by rewrite Ei].
  - rewrite Ept. apply list_lookup_insert_eq. by eapply lookup_lt_Some.
  - split_and!; [by rewrite Ef | eapply Ho, Hr | exact (Ho np q Hq)].
Qed.

Lemma fork_as s cur pr pc A free rest c co w parent : forkable s cur pr pc A free rest c co w parent ->
  exists r s', fork pc s = Ret r s' /\ can_alloc s' /\ frame s s' /\ fork_result s pr A free rest c co w parent r s'.
Proof.
  intros K. rewrite (fork_eq _ _ _ _ _ _ _ (fk_runs _ _ _ _ _ _ _ _ _ _ _ K) (fk_target _ _ _ _ _ _ _ _ _ _ _ K)).
  destruct (allocproc_as _ _ _ _ _ _ _ _ _ _ _ K) as (r & s1 & E & Hc1 & F & Ef & Ei & H). rewrite (bind_Ret _ _ _ _ _ E).
  destruct (cont_open co) eqn:Eo; cbn [negb] in H; [|destruct H as [-> ->]; exists (-1), s; split_and!; [done..|]; by apply fork_no_slot; left].
  destruct (slot c co (k_ptable s)) as [np|] eqn:Es; [|destruct H as [-> ->]; exists (-1), s; split_and!; [done..|]; by apply fork_no_slot; right].
  destruct H as (q & Hne & Hq & Hr1 & En & [(-> & V1 & Em & Sh & Ept & Eact)|(-> & ks & free1 & -> & Hok & V1 & U1 & Us & Ept & Eact)]).
  { exists (-1), s1. split_and!; [done..|]. by eapply fork_no_stack. }
  pose proof (newproc_ready _ _ _ _ _ _ _ _ _ _ _ _ _ _ _ K F Hne Hq Hr1 Hok V1 Hc1 Ef Ei Ept) as R.
  destruct (fork_copy_as _ _ _ _ parent _ _ _ _ _ s1 R) as (r & s' & E' & Hc' & F' & En' & H). exists r, s'.
  pose proof (frame_trans _ _ _ F F') as F2. split_and!; [done..|].
  assert (untouched (ks :: free1) (k_mem s) (k_mem s1)) as U1'.
  { eapply untouched_mono; [|exact U1]. intros p ->%list_elem_of_singleton. by left. }
  destruct H as [(-> & N)|(-> & d & D & free' & C)].
  - destruct N as [Sh Np [Nf Ni] Nc Nm (lost & free' & Hl & P & V')]. eapply fork_no_memory; try done;
      [eapply short_used; [exact Sh | exact Us | cbn; lia] | | | by rewrite Nf | by rewrite Ni | by rewrite Nc | by eapply untouched_trans].
    + by rewrite Np, Ept, list_insert_insert_eq.
    + by rewrite En', En.
  - destruct C as [Cp [Cf Ci] Cc Cm Ct Cc' Cpg Ch Cpa]. change (p_pid (newproc c (k_nextpid s) ks q)) with (k_nextpid s).
    eapply fork_child; try done; [by rewrite Cp, Ept, list_insert_insert_eq | by rewrite En', En | by rewrite Cf, Ef | by rewrite Ci, Ei | by rewrite Cc |
      by eapply untouched_trans |]. intros k Hk. rewrite Ct by done. destruct (in_range tf_eax 4 k); [done|].
    pose proof (fk_stack _ _ _ _ _ _ _ _ _ _ _ K) as (St & Sa & Stf).
    eapply parent_stack; [apply K | exact St | exact Sa | exact U1' |]. rewrite Stf. unfold KSTACKSIZE, TF_SIZE in *. lia.
Qed.

(** C3: [fork], and [cfork] with another container. It always returns, and changes nothing but
    the process table, the reference counts, the containers' counts and the pages it takes.
    With a free slot and enough memory it makes a child: a copy of the parent with its own
    pages, contents and flags equal, its own stack with the parent's trap frame and 0 to
    return, the parent's files and directory with one more reference each; parent, child and
    free list share no page, and none is lost.  Otherwise it returns -1, in one of the three
    ways of [fork_result]. *)
Theorem fork_correct s cur pr pc A free rest c co w parent : forkable s cur pr pc A free rest c co w parent ->
  exists r s', fork pc s = Ret r s' /\ can_alloc s' /\ frame s s' /\ fork_result s pr A free rest c co w parent r s' /\
    (cont_open co = true -> is_Some (slot c co (k_ptable s)) -> ~ short s free (1027 + 2 * Z.to_nat (npages (p_sz pr))) -> r = k_nextpid s).
Proof.
  intros K. destruct (fork_as _ _ _ _ _ _ _ _ _ _ _ K) as (r & s' & E & Hc & F & R). exists r, s'. split_and!; [done..|].
  intros Ho [np Hs] Hn. destruct R as [[?|?]|? ? ? ? ? ? (k & ? & ?)|? ? ? ? ? ? ? ? ? Sh|]; [congruence | congruence | | by destruct (Hn Sh) | done].
  destruct Hn. exists k. split; [lia | done].
Qed.

(** C12: a [fork] that fails. The parent and every other process are as they were, with their
    files and directories; the slot it took is unused again; of the pages it took at most one
    is not back on the free list, and only pages of the free list were written.  The
    container's count of processes is either as before or, when it was the copy that failed,
    one too high. *)
Theorem fork_failure s cur pr pc A free rest c co w parent s' : forkable s cur pr pc A free rest c co w parent ->
  fork pc s = Ret (-1) s' -> 0 <= k_nextpid s ->
  k_ftable s' = k_ftable s /\ k_icache s' = k_icache s /\ length (k_ptable s') = length (k_ptable s) /\
  (forall p q, k_ptable s !! p = Some q -> if p_state q ==? UNUSED then p_state <$> k_ptable s' !! p = Some UNUSED else k_ptable s' !! p = Some q) /\
  (acct <$> k_ctable s' = acct <$> k_ctable s \/ acct <$> k_ctable s' = alter more_procs c (acct <$> k_ctable s)) /\
  untouched free (k_mem s) (k_mem s') /\
  exists lost free', (length lost <= 1)%nat /\ lost ++ free' ≡ₚ free /\ space_inv s' (p_pgdir pr) A free' (lost ++ rest).
Proof.
  intros K Ef Hn. destruct (fork_as _ _ _ _ _ _ _ _ _ _ _ K) as (r & s1 & E & Hc & F & R). rewrite Ef in E. injection E as <- <-.
  assert (forall np q0 x p q, slot c co (k_ptable s) = Some np -> k_ptable s !! np = Some q0 -> p_state x = UNUSED -> k_ptable s !! p = Some q ->
    if p_state q ==? UNUSED then p_state <$> <[np := x]> (k_ptable s) !! p = Some UNUSED else <[np := x]> (k_ptable s) !! p = Some q) as Hp.
  { intros np q0 x p q Es Hq Hx Hp. destruct (slot_unused c co s np (fk_wf _ _ _ _ _ _ _ _ _ _ _ K) (fk_cont _ _ _ _ _ _ _ _ _ _ _ K) Es) as (q' & Hq' & Hu).
    destruct (decide (p = np)) as [->|Hne].
    - assert (q = q') as -> by congruence. rewrite bool_decide_true by done. rewrite list_lookup_insert_eq by (by eapply lookup_lt_Some). by rewrite <- Hx.
    - rewrite list_lookup_insert_ne by done. rewrite Hp. case_bool_decide; [|done]. cbn. by f_equal. }
  inversion R as [Hs|np q s2 Ho Hs Hq Sh Ept En Eft Ei Ea Em V|np q ks lost free' s2 Ho Hs Hq Sh Ept En Eft Ei Ea U Hl P V|]; subst; try lia.
  - split_and!; [done | done | done | | by left | done | exists [], free; split_and!; [cbn; lia | done | apply K]].
    intros p q Hq. rewrite Hq. case_bool_decide; [cbn; by f_equal | done].
  - rewrite Ept, Em, length_insert. split_and!; [done | done | done | intros p q'; by apply (Hp np q) | by left | done | exists [], free; split_and!; [cbn; lia | done | done]].
  - rewrite Ept, length_insert. split_and!; [done | done | done | intros p q'; by apply (Hp np q) | by right | done | by exists lost, free'].
Qed.

(** ** [wait] *)

Definition child_of (cur : nat) (q : proc) : bool := p_parent q ==? Some cur.
Definition zombie_of (cur : nat) (q : proc) : bool := child_of cur q && (p_state q ==? ZOMBIE).

(** The slot of a child that was waited for. *)
Definition reaped (q : proc) : proc :=
  set_p_state UNUSED (set_p_killed false (set_p_name (lput (p_name q) 0 0) (set_p_parent None (set_p_pid 0 (set_p_kstack 0 q))))).

Definition reap (p : nat) : K (Z + bool) :=
  q <- get_proc p ;;
  kfree (p_kstack q) ;;
  upd_proc p (set_p_kstack 0) ;;
  freevm (p_pgdir q) ;;
  upd_proc p (set_p_pid 0) ;;
  upd_proc p (set_p_parent None) ;;
  upd_proc p (fun q => set_p_name (lput (p_name q) 0 0) q) ;;
  upd_proc p (set_p_killed false) ;;
  upd_proc p (set_p_state UNUSED) ;;
  releaseptable ;;
  ret (inl (p_pid q)).

Lemma wait_scan_eq cur l : forall base hk s, (forall i q, l !! i = Some q -> k_ptable s !! (base + i)%nat = Some q) ->
  wait_scan (seq base (length l)) cur hk s =
    match findi (zombie_of cur) l with Some i => reap (base + i) s | None => Ret (inr (hk || existsb (child_of cur) l)) s end.
Proof.
  induction l as [|q l IH]; intros base hk s H; [cbn; by rewrite orb_false_r|]. cbn [length seq wait_scan findi existsb].
  pose proof (H 0%nat q eq_refl) as H0. rewrite Nat.add_0_r in H0.
  assert (forall i q, l !! i = Some q -> k_ptable s !! (S base + i)%nat = Some q) as H'.
  { intros i q' Hi. specialize (H (S i) q' Hi). by rewrite Nat.add_succ_r in H. }
  rewrite (bind_Ret _ _ _ _ _ (get_proc_eq _ _ _ H0)). fold (child_of cur q). unfold zombie_of at 1. destruct (child_of cur q); cbn [negb andb orb].
  - destruct (p_state q ==? ZOMBIE).
    + rewrite Nat.add_0_r. unfold reap. by rewrite (bind_Ret _ _ _ _ _ (get_proc_eq _ _ _ H0)).
    + rewrite IH by done. destruct (findi _ l); cbn [fmap option_fmap option_map]; [by rewrite Nat.add_succ_r|]. by rewrite orb_true_r.
  - rewrite IH by done. destruct (findi _ l); cbn [fmap option_fmap option_map]; [by rewrite Nat.add_succ_r | done].
Qed.

Lemma reap_as cur pr p q s D free rest h : runs s cur pr -> cur <> p -> k_ptable s !! p = Some q -> k_held s = LPtable :: h ->
  space_inv s (p_pgdir q) D free (p_kstack q :: rest) -> page_ok (p_kstack q) -> can_alloc s ->
  exists s' free', reap p s = Ret (inl (p_pid q)) s' /\ frame (set_k_held h s) s' /\
    k_ptable s' = <[p := reaped q]> (k_ptable s) /\ k_nextpid s' = k_nextpid s /\ k_ftable s' = k_ftable s /\ k_icache s' = k_icache s /\
    acct <$> k_ctable s' = acct <$> k_ctable s /\ kmem_inv s' free' /\ free' ≡ₚ p_kstack q :: owned (p_pgdir q) D ++ free /\
    untouched free' (k_mem s) (k_mem s').
Proof.
  intros Hr Hne Hp Hh V Hok Hc. pose proof (lookup_lt_Some _ _ _ Hp) as Hlt. unfold reap. rewrite (bind_Ret _ _ _ _ _ (get_proc_eq _ _ _ Hp)).
  destruct (kfree_as s _ D free rest _ V Hc Hok) as (s1 & E1 & Hc1 & Hs1 & U1 & V1). rewrite (bind_Ret _ _ _ _ _ E1).
  pose proof (same_rest_ptable _ _ Hs1) as Ept. pose proof (same_rest_runs _ _ _ _ Hs1 Hr) as Hr1.
  rewrite (bind_Ret _ _ s1 _ _ (upd_insert p (set_p_kstack 0) q (k_ptable s) s1 Hlt ltac:(by rewrite list_insert_id))). set (s2 := set_k_ptable _ s1).
  assert (runs s2 cur pr) as Hr2 by (split; [apply Hr1 | cbn; rewrite list_lookup_insert_ne by done; apply Hr]).
  destruct (freevm_as s2 (p_pgdir q) D (p_kstack q :: free) rest) as (s3 & free' & E3 & Hc3 & Hs3 & K3 & P3 & U3).
  { by apply (space_ext s1). }
  { eapply (can_alloc_ext s1); [done | | done | done | done]. eapply cur_cont_ext; [exact Hr1 | done | done | apply Hr2]. }
  rewrite (bind_Ret _ _ _ _ _ E3). pose proof (same_rest_ptable _ _ Hs3) as Ept3.
  do 5 erewrite (bind_Ret (upd_proc _ _)) by (by apply upd_insert with (pt := k_ptable s)). unfold releaseptable.
  destruct Hs1 as (m1 & fl1 & ct1 & lg1 & Es1 & Ea1), Hs3 as (m3 & fl3 & ct3 & lg3 & Es3 & Ea3).
  erewrite (bind_Ret (release _)) by (apply release_eq; cbn; rewrite Es3; unfold s2; rewrite Es1; exact Hh).
  eexists _, free'. split; [reflexivity|]. cbn [k_ptable k_nextpid k_ftable k_icache k_ctable k_mem set_k_held set_k_ptable].
  assert (acct <$> k_ctable s3 = acct <$> k_ctable s) as Ea by (rewrite Es3; cbn; rewrite Ea3; unfold s2; rewrite Es1; exact Ea1).
  split_and!.
  - rewrite Es3. unfold s2. rewrite Es1. by destruct s.
  - done.
  - rewrite Es3. unfold s2. by rewrite Es1.
  - rewrite Es3. unfold s2. by rewrite Es1.
  - rewrite Es3. unfold s2. by rewrite Es1.
  - done.
  - by destruct K3.
  - rewrite P3. solve_Permutation.
  - eapply untouched_trans; [eapply untouched_mono; [|exact U1] | exact U3]. intros x ->%list_elem_of_singleton. rewrite P3.
    apply elem_of_app. right. by left.
Qed.

(** C17: [wait] with a child that has exited. It reaps the first one of its row: it returns
    that child's pid, the slot is unused again, and the child's stack, page tables and memory,
    all of them, are on the free list; nothing else is changed. *)
Theorem wait_reaps s cur pr c co i q D free rest : let p := (c * NPROC + i)%nat in
  runs s cur pr -> p_state pr <> ZOMBIE -> p_cont pr = Some c -> k_ctable s !! c = Some co -> 0 < c_mproc co ->
  tables_wf (k_ctable s) (k_ptable s) -> LPtable ∉ k_held s -> can_alloc s ->
  findi (zombie_of cur) (row_procs co (k_ptable s)) = Some i -> k_ptable s !! p = Some q ->
  space_inv s (p_pgdir q) D free (p_kstack q :: rest) -> page_ok (p_kstack q) ->
  exists s' free', wait s = Ret (p_pid q) s' /\ can_alloc s' /\ frame s s' /\
    k_ptable s' = <[p := reaped q]> (k_ptable s) /\ k_nextpid s' = k_nextpid s /\ k_ftable s' = k_ftable s /\ k_icache s' = k_icache s /\
    acct <$> k_ctable s' = acct <$> k_ctable s /\ kmem_inv s' free' /\ free' ≡ₚ p_kstack q :: owned (p_pgdir q) D ++ free /\
    untouched free' (k_mem s) (k_mem s').
Proof.
  intros p Hr Hz Hpc Hco Hm W Hl Hc Hf Hp V Hok. unfold wait. rewrite (bind_Ret _ _ _ _ _ (runs_curproc _ _ _ Hr)).
  unfold acquireptable. rewrite (bind_Ret _ _ _ _ _ (acquire_eq _ _ Hl)). set (s1 := set_k_held _ s).
  rewrite (bind_Ret _ _ s1 _ _ (get_proc_eq _ _ s1 (proj2 Hr))), Hpc. unfold deref. krun.
  rewrite (bind_Ret _ _ s1 _ _ (get_cont_eq _ _ s1 Hco)), (bind_Ret _ _ s1 _ _ (proc_row_eq s1 c co W Hco Hm)).
  assert (cur <> p) as Hne.
  { intros ->. apply findi_Some in Hf as (q' & Hi & Hq' & _). destruct (row_lookup s c co i q' W Hco Hm Hi) as (_ & Hp' & _).
    apply andb_true_iff in Hq' as [_ Hzz%bool_decide_eq_true]. destruct Hr as [_ Hr]. fold p in Hp'. congruence. }
  destruct (reap_as cur pr p q s1 D free rest (k_held s)) as (s' & free' & E & F & Ep & En & Ef & Ei & Ea & K & P & U); try done.
  { by apply (space_ext s). }
  { destruct Hc as [H1 (H2 & H3 & H4)]. split; [exact H1|]. split_and!; by apply not_elem_of_cons. }
  assert (frame s s') as F' by (eapply frame_trans; [|exact F]; by destruct s).
  exists s', free'. split_and!; try done.
  - change MAXWAIT with (S (MAXWAIT - 1)). apply loop_done. rewrite (bind_Ret _ _ s1 (inl (p_pid q)) s'); [reflexivity|].
    rewrite (wait_scan_eq cur _ _ _ s1); [change (k_ptable s1) with (k_ptable s); by rewrite Hf|]. intros j q' Hj. by destruct (row_lookup s1 c co j q' W Hco Hm Hj) as (_ & ? & _).
  - destruct (frame_fields _ _ F') as (Eh & Ecur & Eu & _).
    eapply (can_alloc_ext s); [done | | by rewrite <- (length_fmap acct), Ea, length_fmap | done | done].
    eapply cur_cont_ext; [exact Hr | done | done |]. rewrite Ep, list_lookup_insert_ne by done. apply Hr.
Qed.
End fork.

(** ** Example: a process with one page, and memory for a child *)

Definition pgs (i : nat) : Z := KERNBASE + 8388608 + 4096 * Z.of_nat i.
Fixpoint stock (n : nat) (s : kst) : kst := match n with O => s | S n => freed (pgs n) (stock n s) end.
Fixpoint stock_list (n : nat) : list Z := match n with O => [] | S n => pgs n :: stock_list n end.

Lemma elem_of_stock n p : p ∈ stock_list n -> exists i, (i < n)%nat /\ p = pgs i.
Proof.
  induction n as [|n IH]; [by intros ?%elem_of_nil|]. intros [->|(i & Hi & ->)%IH]%elem_of_cons; [by exists n; split; [lia|]|].
  exists i. split; [lia | done].
Qed.

Lemma stock_inv n s : @kmem_inv demo_linker s [] -> (n <= 1200)%nat -> @kmem_inv demo_linker (stock n s) (stock_list n).
Proof.
  intros K. induction n as [|n IH]; intros Hn; [done|]. cbn [stock stock_list]. apply freed_inv; [apply IH; lia | |].
  - unfold page_ok, pgs, PGSIZE, V2P, KERNBASE, PHYSTOP. cbn [sym_end demo_linker]. unfold KERNBASE. split_and!; zlia.
  - intros (i & Hi & E)%elem_of_stock. unfold pgs in E. lia.
Qed.

Lemma stock_rest n s : exists fl m, stock n s = set_k_freelist fl (set_k_mem m s).
Proof.
  induction n as [|n (fl & m & IH)]; [exists (k_freelist s), (k_mem s); by destruct s|]. cbn [stock]. rewrite IH. by eexists _, _.
Qed.

Definition rich_proc : proc := set_p_sz 4096 demo_parent.
Definition rich_base : kst :=
  set_k_ptable (rich_proc :: replicate 511 proc0) (set_k_freelist 0 (set_k_mem (fun _ => 0) demo_files)).
Definition rich_dir : kst := let s := stock 1100 rich_base in set_k_mem (KString.memset (k_mem s) pgC 0 PGSIZE) s.
Definition rich_table : kst := set_k_mem (with_table (k_mem rich_dir) pgC 0 pgA) rich_dir.
Definition rich : kst := set_k_mem (st32 (k_mem rich_table) (pgA + 4 * 0) (Z.lor (Z.lor (V2P pgB) 6) PTE_P)) rich_table.
Definition rich_as : aspace := add_page 0 pgB 7 (add_table 0 pgA (mkAs ∅ ∅)).

Lemma rich_space : @space_inv demo_linker rich pgC rich_as (stock_list 1100) [pgD].
Proof.
  pose proof (@new_dir demo_linker demo_linked (stock 1100 rich_base) pgC (stock_list 1100) [pgA; pgB; pgD]) as V.
  assert (@space_inv demo_linker rich_dir pgC (mkAs ∅ ∅) (stock_list 1100) [pgA; pgB; pgD]) as V0.
  { apply V; clear V.
    - apply stock_inv; [|lia]. split; [intros a; cbn; lia | done | constructor | constructor].
    - apply demo_page_ok. auto.
    - apply (bool_decide_unpack _). vm_compute. exact I. }
  clear V. pose proof (@table_taken demo_linker demo_linked _ _ _ _ _ _ 0 V0 (demo_page_ok pgA ltac:(auto)) (lookup_empty _) ltac:(lia)) as V1.
  apply (@page_taken demo_linker demo_linked rich_table pgC (add_table 0 pgA (mkAs ∅ ∅)) (stock_list 1100) [pgD] 0 pgA 0 (V2P pgB) 6);
    [exact V1 | apply lookup_insert_eq | lia | apply lookup_empty | reflexivity | split; [vm_compute; discriminate | reflexivity] | lia |].
  intros _. apply demo_page_ok. auto.
Qed.

(** All that [forkable] asks of a state besides the memory. *)
Lemma demo_forkable s pr A free : @space_inv demo_linker s (p_pgdir pr) A free [pgD] -> image A (p_sz pr) -> 0 <= p_sz pr <= KERNBASE ->
  (exists m fl sz, pr = set_p_sz sz demo_parent /\ s = set_k_freelist fl (set_k_mem m (set_k_ptable (pr :: replicate 511 proc0) demo_files))) ->
  @forkable demo_linker s 0 pr None A free [pgD] 0 boot_cont 0 (Some 0%nat).
Proof.
  intros V I Hsz (m & fl & sz & Epr & Es).
  split; [by rewrite Es, Epr | by rewrite Epr | by rewrite Epr | by rewrite Es | | by rewrite Es; split_and!; apply not_elem_of_nil | | done | | done | | | by rewrite Es; eexists].
  - rewrite Es. destruct boot_tables_wf as [W1 _ W3]. split; [exact W1 | reflexivity | exact W3].
  - rewrite Es. split; [intros _; exists 0%nat, boot_cont; by rewrite Epr | exact demo_locks].
  - rewrite Epr. split_and!; [left | reflexivity | reflexivity].
  - rewrite Es, Epr. intros f Hf. change (Some f ∈ Some 0%nat :: replicate 15 None) in Hf. apply elem_of_cons in Hf as [[= ->]|[? _]%elem_of_replicate]; [|done].
    eexists. split; [reflexivity|]. vm_compute. split; [discriminate | reflexivity].
  - rewrite Es, Epr. intros [|p] q Hq; [by injection Hq as <-|]. change (replicate 511 proc0 !! p = Some q) in Hq. by apply lookup_replicate in Hq as [-> _].
Qed.

Lemma rich_forkable : @forkable demo_linker rich 0 rich_proc None rich_as (stock_list 1100) [pgD] 0 boot_cont 0 (Some 0%nat).
Proof.
  apply demo_forkable; [exact rich_space | | vm_compute; split; discriminate |].
  - intros j Hj. change (npages (p_sz rich_proc)) with 1. unfold rich_as, add_page, add_table. cbn [as_map]. destruct (decide (j = 0)) as [->|Hn].
    + rewrite lookup_insert_eq. split; [lia | by eauto].
    + rewrite lookup_insert_ne, lookup_empty by done. split; [intros [? ?]; done | lia].
  - destruct (stock_rest 1100 rich_base) as (fl & m & E). exists (k_mem rich), fl, 4096. split; [reflexivity|].
    unfold rich, rich_table, rich_dir. rewrite E. reflexivity.
Qed.

Lemma rich_over : forall k, (k < 1100)%nat -> over_after rich k = false.
Proof.
  intros k Hk. destruct (stock_rest 1100 rich_base) as (fl & m & E).
  assert (over_after rich k = over_after demo_files k) as -> by (apply over_after_ext; unfold rich, rich_table, rich_dir; rewrite E; reflexivity).
  assert (forall k, (k < 2000)%nat -> c_upg (Nat.iter k inc_upg boot_cont) = Z.of_nat k) as Hi.
  { clear. induction k as [|k IH]; intros Hk; [done|]. simpl Nat.iter. unfold inc_upg at 1. cbn [c_upg set_c_upg]. rewrite IH, i32_small by lia. lia. }
  change (over_after demo_files k) with (MAX_CONT_MEM <? u32 (c_upg (Nat.iter k inc_upg boot_cont) * PGSIZE + PGSIZE)).
  rewrite Hi by lia. apply Z.ltb_ge. unfold u32, PGSIZE, MAX_CONT_MEM. zlia.
Qed.

(** The process forks, and the child has its page. *)
Lemma fork_correct_witness : exists s', @fork demo_linker None rich = Ret 2 s' /\
  @fork_result demo_linker rich rich_proc rich_as (stock_list 1100) [pgD] 0 boot_cont 0 (Some 0%nat) 2 s'.
Proof.
  destruct (@fork_correct demo_linker demo_linked rich 0 rich_proc None rich_as (stock_list 1100) [pgD] 0 boot_cont 0 (Some 0%nat) rich_forkable)
    as (r & s' & E & _ & _ & R & H).
  assert (k_nextpid rich = 2 /\ is_Some (slot 0 boot_cont (k_ptable rich))) as [En Hs].
  { destruct (stock_rest 1100 rich_base) as (fl & m & Eq). unfold rich, rich_table, rich_dir. rewrite Eq. split; [reflexivity|]. vm_compute. by eexists. }
  assert (r = 2) as ->; [|exists s'; split; [exact E | exact R]].
  rewrite <- En. apply H; [reflexivity | exact Hs |]. change (1027 + 2 * Z.to_nat (npages (p_sz rich_proc)))%nat with 1029%nat.
  intros (k & Hk & [Hl|Ho]); [|rewrite rich_over in Ho by lia; done]. subst k. vm_compute in Hk. lia.
Defined.

(** With two pages free it does not. *)
Lemma poor_forkable : @forkable demo_linker demo_run 0 demo_parent None (mkAs ∅ ∅) [pgA; pgB] [pgD] 0 boot_cont 0 (Some 0%nat).
Proof.
  apply demo_forkable; [exact demo_space | exact demo_image | vm_compute; split; discriminate |].
  exists (k_mem demo_run), pgA, 0. split; reflexivity.
Qed.

Lemma poor_fork : exists s', @fork demo_linker None demo_run = Ret (-1) s'.
Proof.
  destruct (@fork_as demo_linker demo_linked _ _ _ _ _ _ _ _ _ _ _ poor_forkable) as (r & s' & E & _ & _ & R). exists s'.
  destruct R as [?| | |np q ks d D free' s' _ _ _ _ _ _ _ _ _ _ C P V _]; [exact E | exact E | exact E |].
  apply Permutation_length in P. rewrite owned_perm in P. unfold meta in P. cbn in P. rewrite !length_app in P.
  assert (is_Some (@kernel_map demo_linker !! 524288)) as [e He].
  { rewrite (@kernel_map_cases demo_linker demo_linked). vm_compute. by eexists. }
  assert (as_map D !! 524288 = Some e) as HD.
  { rewrite (cp_old _ _ _ _ _ _ C); [exact He|]. vm_compute. intros [_ Hx]. discriminate. }
  destruct (rp_map_dom _ _ _ (si_rep _ _ _ _ _ V) _ _ HD) as [t Ht]. assert (t ∈ tables D) as Hin by (apply elem_of_tables; by eauto).
  exfalso. clear - P Hin. destruct (tables D); [by apply elem_of_nil in Hin | cbn in P; lia].
Qed.

(** The container then counts a process too many. *)
Lemma fork_leaves_count : exists s', @fork demo_linker None demo_run = Ret (-1) s' /\ (c_uproc <$> k_ctable s' !! 0%nat) = Some 2 /\
  forall p q, k_ptable demo_run !! p = Some q -> p_state q = UNUSED -> p_state <$> k_ptable s' !! p = Some UNUSED.
Proof.
  destruct poor_fork as [s' E]. exists s'. split; [exact E|].
  destruct (@fork_as demo_linker demo_linked _ _ _ _ _ _ _ _ _ _ _ poor_forkable) as (r & s1 & E1 & _ & _ & R). rewrite E in E1. injection E1 as <- <-.
  inversion R as [Hs|np q s2 Ho Hs Hq Sh Ept En Eft Ei Ea Em V|np q ks lost free' s2 Ho Hs Hq Sh Ept En Eft Ei Ea U Hl P V|]; subst.
  - exfalso. clear - Hs. vm_compute in Hs. by destruct Hs.
  - exfalso. destruct Sh as (k & Hk & Sh). assert (k = 0%nat) as -> by lia. clear - Sh. vm_compute in Sh. by destruct Sh.
  - split.
    + assert (acct <$> k_ctable s' !! 0%nat = Some (acct (more_procs boot_cont))) as H.
      { rewrite <- list_lookup_fmap, Ea, list_lookup_alter_eq, list_lookup_fmap. reflexivity. }
      clear - H. apply (f_equal (fmap c_uproc)) in H. by destruct (k_ctable s' !! 0%nat).
    + intros p q' Hp Hu. rewrite Ept. destruct (decide (p = np)) as [->|Hn].
      * rewrite list_lookup_insert_eq by (by eapply lookup_lt_Some). reflexivity.
      * rewrite list_lookup_insert_ne, Hp by done. exact (f_equal Some Hu).
Qed.

Lemma fork_failure_witness : exists s', @fork demo_linker None demo_run = Ret (-1) s' /\ k_ftable s' = k_ftable demo_run /\
  exists lost free', (length lost <= 1)%nat /\ lost ++ free' ≡ₚ [pgA; pgB] /\ @space_inv demo_linker s' pgC (mkAs ∅ ∅) free' (lost ++ [pgD]).
Proof.
  destruct poor_fork as [s' E]. exists s'.
  destruct (@fork_failure demo_linker demo_linked demo_run 0 demo_parent None (mkAs ∅ ∅) [pgA; pgB] [pgD] 0 boot_cont 0 (Some 0%nat) s')
    as (H1 & _ & _ & _ & _ & _ & H2); [exact poor_forkable | exact E | vm_compute; discriminate |].
  split; [exact E|]. split; [exact H1 | exact H2].
Defined.

(** A child that has exited. *)
Definition demo_zombie : proc := set_p_parent (Some 0%nat) (set_p_pid 5 (set_p_state ZOMBIE (set_p_kstack pgD (set_p_pgdir pgC proc0)))).
Definition demo_wait : kst := set_k_ptable (boot_proc :: demo_zombie :: replicate 510 proc0) demo_run.

Lemma wait_reaps_witness : exists s' free', @wait demo_linker demo_wait = Ret 5 s' /\ @kmem_inv demo_linker s' free' /\
  free' ≡ₚ [pgD; pgC; pgA; pgB].
Proof.
  destruct (@wait_reaps demo_linker demo_linked demo_wait 0 boot_proc 0 boot_cont 1 demo_zombie (mkAs ∅ ∅) [pgA; pgB] [])
    as (s' & free' & E & _ & _ & _ & _ & _ & _ & _ & K & P & _).
  - split; reflexivity.
  - vm_compute. discriminate.
  - reflexivity.
  - reflexivity.
  - reflexivity.
  - destruct boot_tables_wf as [W1 _ W3]. split; [exact W1 | reflexivity | exact W3].
  - apply not_elem_of_nil.
  - split; [intros _; exists 0%nat, boot_cont; done | exact demo_locks].
  - reflexivity.
  - reflexivity.
  - apply (space_ext demo_run); [exact demo_space | reflexivity | reflexivity].
  - split_and!; vm_compute; first [discriminate | reflexivity].
  - exists s', free'. split; [exact E|]. split; [exact K | exact P].
Defined.
