(* ===== verification/Syscall.v ===== *)
(** * System call arguments and process calls

    syscall.c up to the dispatcher, and sysproc.c.  Arguments are fetched from the
    user stack through the page table of the current process; an argument function
    that fails returns [None], the code's -1. *)

From S2P Require Import Prelude Monad CString KState Sched Kalloc Bio Log Fs Inode Vm Pipe File Proc.

Local Open Scope kernel_scope.

Definition fetchint (addr : Z) : K (option Z) :=
  p <- curproc ;;
  pr <- get_proc p ;;
  if (p_sz pr <=? addr) || (p_sz pr <? u32 (addr + 4)) then ret None else
  v <- uread32 addr ;;
  ret (Some (i32 v)).

(** The scan of [fetchstr] for the NUL: the characters before it, if it comes in
    the next [n] bytes. *)
Fixpoint fetchstr_scan (s : Z) (n : nat) : K (option (list Z)) :=
  match n with
  | O => ret None
  | S n' =>
      c <- uread s ;;
      if c =? 0 then ret (Some []) else
      r <- fetchstr_scan (u32 (s + 1)) n' ;;
      ret (cons c <$> r)
  end.

(** [fetchstr]: the address stored in [*pp] and the string found there. *)
Definition fetchstr (addr : Z) : K (option (Z * list Z)) :=
  p <- curproc ;;
  pr <- get_proc p ;;
  if p_sz pr <=? addr then ret None else
  r <- fetchstr_scan addr (Z.to_nat (p_sz pr - addr)) ;;
  ret (pair addr <$> r).

Definition argint (n : Z) : K (option Z) :=
  p <- curproc ;;
  pr <- get_proc p ;;
  esp <- load32 (p_tf pr + tf_esp) ;;
  fetchint (u32 (esp + 4 + 4 * n)).

Definition argptr (n size : Z) : K (option Z) :=
  p <- curproc ;;
  oi <- argint n ;;
  match oi with
  | None => ret None
  | Some i =>
      pr <- get_proc p ;;
      if (size <? 0) || (p_sz pr <=? u32 i) || (p_sz pr <? u32 (u32 i + size)) then ret None
      else ret (Some (u32 i))
  end.

Definition argstr (n : Z) : K (option (list Z)) :=
  oa <- argint n ;;
  match oa with
  | None => ret None
  | Some addr => r <- fetchstr (u32 addr) ;; ret (snd <$> r)
  end.

(** ** sysproc.c *)

Section sysproc.
Context `{L : Linker} `{DW : Devsw}.

Definition sys_fork : K Z := fork None.

Definition sys_exit : K Z := exit ;; ret 0.

Definition sys_wait : K Z := wait.

Definition sys_kill : K Z :=
  r <- argint 0 ;;
  match r with
  | None => ret (-1)
  | Some pid => kill pid
  end.

Definition sys_getpid : K Z :=
  p <- curproc ;; pr <- get_proc p ;; ret (p_pid pr).

Definition sys_sbrk : K Z :=
  r <- argint 0 ;;
  match r with
  | None => ret (-1)
  | Some n =>
      p <- curproc ;;
      pr <- get_proc p ;;
      let addr := i32 (p_sz pr) in
      g <- growproc n ;;
      if g <? 0 then ret (-1) else ret addr
  end.

Definition sys_sleep : K Z :=
  r <- argint 0 ;;
  match r with
  | None => ret (-1)
  | Some n =>
      acquire LTicks ;;
      ticks0 <- gets (fun s => k_ticks s) ;;
      loop MAXWAIT (fun _ : unit =>
        ticks <- gets (fun s => k_ticks s) ;;
        if u32 (ticks - ticks0) <? u32 n then
          k <- killed ;;
          if (k : bool) then
            release LTicks ;;
            ret (inr (-1))
          else
            sleep ChTicks LTicks ;;
            ret (inl tt)
        else
          release LTicks ;;
          ret (inr 0)) tt
  end.

Definition sys_uptime : K Z :=
  acquire LTicks ;;
  xticks <- gets (fun s => k_ticks s) ;;
  release LTicks ;;
  ret (i32 xticks).

Definition sys_getticks : K Z :=
  p <- curproc ;; pr <- get_proc p ;; ret (i32 (p_ticks pr)).
End sysproc.

(** ** Argument fetching is safe for any user stack *)

(** The current process, with all of its [sz] bytes mapped below the kernel. *)
Record user_ok (s : kst) (p : nat) (pr : proc) : Prop := {
  uo_cur : k_cur s = Some p;
  uo_proc : k_ptable s !! p = Some pr;
  uo_sz : 0 <= p_sz pr <= KERNBASE;
  uo_mapped va : 0 <= va < p_sz pr -> is_Some (mmu (k_mem s) (p_pgdir pr) va)
}.

(** The byte at a user address. *)
Definition ubyte (s : kst) (pr : proc) (va : Z) : Z :=
  match mmu (k_mem s) (p_pgdir pr) va with Some (a, _) => k_mem s a | None => 0 end.

Section fetch.
Context (s : kst) (p : nat) (pr : proc) (U : user_ok s p pr).

Lemma bind_curproc {B} (k : nat -> proc -> K B) :
  (p <- curproc ;; pr <- get_proc p ;; k p pr) s = k p pr s.
Proof.
  unfold curproc, myproc. rewrite (bind_Ret _ _ _ p s).
  - by rewrite (bind_Ret _ _ _ _ _ (get_proc_eq _ _ _ (uo_proc _ _ _ U))).
  - krun. by rewrite (uo_cur _ _ _ U).
Qed.

Lemma uread_eq va : 0 <= va < p_sz pr -> uread va s = Ret (ubyte s pr va) s.
Proof.
  intros H. unfold uread. rewrite (bind_curproc (fun _ pr => _)). krun.
  unfold ubyte. destruct (uo_mapped _ _ _ U va H) as [[a f] E]. by rewrite E.
Qed.

Lemma ureads_eq n : forall va, 0 <= va -> va + Z.of_nat n <= p_sz pr ->
  ureads va n s = Ret ((fun i => ubyte s pr (va + Z.of_nat i)) <$> seq 0 n) s.
Proof.
  pose proof (uo_sz _ _ _ U) as Hsz. unfold KERNBASE in Hsz.
  induction n as [|n IH]; intros va H0 H1; [done|]. cbn [ureads].
  rewrite (bind_Ret _ _ _ _ _ (uread_eq va ltac:(lia))).
  rewrite (bind_Ret _ _ _ ((fun i => ubyte s pr (va + 1 + Z.of_nat i)) <$> seq 0 n) s).
  2:{ destruct n; [done|]. rewrite (u32_small (va + 1)) by lia. apply IH; lia. }
  unfold ret. f_equal. simpl. f_equal; [f_equal; lia|].
  rewrite <- fmap_S_seq, <- list_fmap_compose. apply list_fmap_ext.
  intros i x _. simpl. f_equal. lia.
Qed.

Lemma fetchint_eq addr : 0 <= addr ->
  fetchint addr s =
    Ret (if addr + 4 <=? p_sz pr
         then Some (i32 (lld32 ((fun i => ubyte s pr (addr + Z.of_nat i)) <$> seq 0 4) 0)) else None) s.
Proof.
  intros H0. pose proof (uo_sz _ _ _ U) as Hsz. unfold KERNBASE in Hsz.
  unfold fetchint. rewrite (bind_curproc (fun _ pr => _)).
  destruct (Z.leb_spec (p_sz pr) addr) as [H|H]; cbn [orb].
  { destruct (Z.leb_spec (addr + 4) (p_sz pr)); [lia | done]. }
  rewrite u32_small by lia.
  destruct (Z.ltb_spec (p_sz pr) (addr + 4)), (Z.leb_spec (addr + 4) (p_sz pr)); try lia; [done|].
  unfold uread32. erewrite bind_Ret; [reflexivity|].
  rewrite (bind_Ret _ _ _ _ _ (ureads_eq 4 addr ltac:(lia) ltac:(lia))). reflexivity.
Qed.

(** The string at a user address, when it ends inside the process. *)
Record ustring (q : Z) (l : list Z) : Prop := {
  us_lo : 0 <= q;
  us_hi : q + zlen l < p_sz pr;
  us_bytes i c : l !! i = Some c -> c = ubyte s pr (q + Z.of_nat i) /\ c <> 0;
  us_nul : ubyte s pr (q + zlen l) = 0
}.

Lemma fetchstr_scan_eq n : forall q, 0 <= q -> q + Z.of_nat n <= p_sz pr ->
  exists r, fetchstr_scan q n s = Ret r s /\ forall l, r = Some l -> ustring q l.
Proof.
  pose proof (uo_sz _ _ _ U) as Hsz. unfold KERNBASE in Hsz.
  induction n as [|n IH]; intros q H0 H1; [by exists None|]. cbn [fetchstr_scan].
  rewrite (bind_Ret _ _ _ _ _ (uread_eq q ltac:(lia))).
  destruct (Z.eqb_spec (ubyte s pr q) 0) as [E|E].
  - exists (Some []). split; [done|]. intros l [= <-].
    split; [done | unfold zlen; simpl; lia | intros i c; by rewrite lookup_nil |].
    unfold zlen. simpl. by rewrite Z.add_0_r.
  - rewrite u32_small by lia. destruct (IH (q + 1) ltac:(lia) ltac:(lia)) as (r & Hr & Hl).
    exists (cons (ubyte s pr q) <$> r). rewrite (bind_Ret _ _ _ _ _ Hr). split; [done|].
    intros l Hl'. apply fmap_Some in Hl' as (l1 & -> & ->). destruct (Hl l1 eq_refl) as [A B C D].
    unfold zlen in *. split; unfold zlen; simpl length.
    + done.
    + lia.
    + intros [|i] c Hc; simpl in Hc.
      * injection Hc as <-. by rewrite Z.add_0_r.
      * destruct (C i c Hc) as [C1 C2]. split; [|done]. rewrite C1. f_equal. lia.
    + rewrite <- D. f_equal. lia.
Qed.

Lemma fetchstr_eq addr : 0 <= addr ->
  exists r, fetchstr addr s = Ret r s /\ forall q l, r = Some (q, l) -> q = addr /\ ustring addr l.
Proof.
  intros H0. unfold fetchstr. rewrite (bind_curproc (fun _ pr => _)).
  destruct (Z.leb_spec (p_sz pr) addr) as [H|H]; [by exists None|].
  destruct (fetchstr_scan_eq (Z.to_nat (p_sz pr - addr)) addr H0 ltac:(lia)) as (r & Hr & Hl).
  exists (pair addr <$> r). rewrite (bind_Ret _ _ _ _ _ Hr). split; [done|].
  intros q l Hq. apply fmap_Some in Hq as (l' & -> & [= -> ->]). split; [done | by apply Hl].
Qed.

(** The [n]-th word after the return address. *)
Definition arg_addr (n : Z) : Z := u32 (ld32 (k_mem s) (p_tf pr + tf_esp) + 4 + 4 * n).

Lemma argint_eq n : argint n s = fetchint (arg_addr n) s.
Proof. unfold argint. rewrite (bind_curproc (fun _ pr => _)). reflexivity. Qed.

Lemma argint_total n : exists r, argint n s = Ret r s.
Proof. rewrite argint_eq, fetchint_eq by apply u32_range. eauto. Qed.

Lemma argptr_eq n size : size < 2147483648 ->
  exists r, argptr n size s = Ret r s /\
    forall q, r = Some q -> 0 <= q /\ 0 <= size /\ q < p_sz pr /\ q + size <= p_sz pr.
Proof.
  intros Hs. pose proof (uo_sz _ _ _ U) as Hsz. unfold KERNBASE in Hsz.
  destruct (argint_total n) as [oi Hi]. unfold argptr, curproc, myproc.
  rewrite (bind_Ret _ _ _ p s) by (krun; by rewrite (uo_cur _ _ _ U)).
  rewrite (bind_Ret _ _ _ _ _ Hi). destruct oi as [i|]; [|by exists None].
  rewrite (bind_Ret _ _ _ _ _ (get_proc_eq _ _ _ (uo_proc _ _ _ U))).
  pose proof (u32_range i) as Hr.
  destruct (Z.ltb_spec size 0); [by exists None|]. destruct (Z.leb_spec (p_sz pr) (u32 i)); [by exists None|].
  rewrite u32_small by lia. cbn [orb].
  destruct (Z.ltb_spec (p_sz pr) (u32 i + size)); [by exists None|].
  exists (Some (u32 i)). split; [done|]. intros q [= <-]. lia.
Qed.

Lemma argstr_eq n :
  exists r, argstr n s = Ret r s /\ forall l, r = Some l -> exists q, ustring q l.
Proof.
  destruct (argint_total n) as [oi Hi]. unfold argstr. rewrite (bind_Ret _ _ _ _ _ Hi).
  destruct oi as [a|]; [|by exists None].
  destruct (fetchstr_eq (u32 a) ltac:(apply u32_range)) as (r & Hr & Hl).
  exists (snd <$> r). rewrite (bind_Ret _ _ _ _ _ Hr). split; [done|].
  intros l Hq. apply fmap_Some in Hq as ([q l'] & -> & ->). exists (u32 a). by apply (Hl q l').
Qed.
End fetch.

(** C14: system call arguments cannot reach outside the process.  Whatever the user stack
    pointer and the words on the stack are, the argument functions return, without a page
    fault and without changing anything.  A pointer they accept has all of its [size] bytes
    below the process's size; a string they accept lies in the process with its NUL. *)
Theorem syscall_args_safe s p pr n size :
  user_ok s p pr -> size < 2147483648 ->
  (exists r, argint n s = Ret r s) /\
  (exists r, argptr n size s = Ret r s /\
    forall q, r = Some q -> 0 <= q /\ 0 <= size /\ q < p_sz pr /\ q + size <= p_sz pr) /\
  (exists r, argstr n s = Ret r s /\ forall l, r = Some l -> exists q, ustring s pr q l).
Proof.
  intros U Hs. split; [by eapply argint_total|]. split; [by eapply argptr_eq | by eapply argstr_eq].
Qed.

(** A process with one page at address 0, whose stack pointer is near the top of the
    address space. *)
Definition wild_mem : mem :=
  st32 (st32 (st32 (fun _ => 0) 2147487744 8199) 2147491840 12295) (2147500032 + tf_esp) 4294967292.
Definition wild_proc : proc := set_p_tf 2147500032 (set_p_pgdir 2147487744 (set_p_sz 4096 boot_proc)).
Definition wild_state : kst :=
  set_k_mem wild_mem (set_k_ptable (wild_proc :: replicate 511 proc0) boot_state).

Lemma wild_ok : user_ok wild_state 0 wild_proc.
Proof.
  split; [reflexivity | reflexivity | done |]. intros va Hva. simpl in Hva. unfold mmu.
  assert (PDX va = 0) as -> by (unfold PDX; rewrite u32_small, Z.shiftr_div_pow2, Z.div_small by lia; done).
  assert (PTX va = 0) as -> by (unfold PTX; rewrite u32_small, Z.shiftr_div_pow2, Z.div_small by lia; done).
  do 2 match goal with
  | |- context [negb (present ?e)] =>
      let E := fresh in assert (negb (present e) = false) as E by (vm_compute; reflexivity); rewrite E
  end.
  eauto.
Qed.

Lemma syscall_args_safe_witness :
  (exists r, argstr 0 wild_state = Ret r wild_state) /\ argint 0 wild_state = Ret (Some 0) wild_state.
Proof.
  destruct (syscall_args_safe wild_state 0 wild_proc 0 16 wild_ok) as (_ & _ & r & Hr & _); [lia|].
  split; [by exists r | vm_compute; reflexivity].
Defined.
