(* ===== verification/Exec.v ===== *)
(** * Program loading

    exec.c: reading an ELF file into a new page table, building the argument
    vector on the new stack, and committing to the new image. *)

From S2P Require Import Prelude Monad CString KState Sched Kalloc Bio Log Fs Inode Path Vm Pipe File Proc.

Local Open Scope kernel_scope.

(** elf.h: sizes and fields of [struct elfhdr] and [struct proghdr]. *)
Definition ELF_MAGIC : Z := 1179403647.
Definition ELFHDR : Z := 52.
Definition elf_magic (h : list Z) : Z := lld32 h 0.
Definition elf_entry (h : list Z) : Z := lld32 h 24.
Definition elf_phoff (h : list Z) : Z := lld32 h 28.
Definition elf_phnum (h : list Z) : Z := lld16 h 44.
Definition PROGHDR : Z := 32.
Definition ELF_PROG_LOAD : Z := 1.
Definition ph_type (h : list Z) : Z := lld32 h 0.
Definition ph_off (h : list Z) : Z := lld32 h 4.
Definition ph_vaddr (h : list Z) : Z := lld32 h 8.
Definition ph_filesz (h : list Z) : Z := lld32 h 16.
Definition ph_memsz (h : list Z) : Z := lld32 h 20.

(** The bytes of a word, and of an array of words. *)
Definition le32 (v : Z) : list Z := [u8 v; u8 (v / 256); u8 (v / 65536); u8 (v / 16777216)].
Definition le32s (l : list Z) : list Z := mjoin (le32 <$> l).

(** What follows the last slash. *)
Fixpoint last_elem (last s : list Z) : list Z :=
  match s with
  | [] => last
  | c :: s' => last_elem (if c =? SLASH then s' else last) s'
  end.

Section exec.
Context `{L : Linker} `{DW : Devsw}.

(** The program headers: the size of the image, or [None] for [goto bad]. *)
Definition exec_load (pgdir : Z) (ip : nat) (elf : list Z) : K (option Z) :=
  r <- loop (S (Z.to_nat (elf_phnum elf))) (fun '(i, off, sz) =>
    if i <? elf_phnum elf then
      let next sz := ret (inl (i + 1, u32 (off + PROGHDR), sz)) in
      ' (n, ph) <- readi ip off PROGHDR ;;
      if negb (n =? PROGHDR) then ret (inr None) else
      if negb (ph_type ph =? ELF_PROG_LOAD) then next sz else
      if ph_memsz ph <? ph_filesz ph then ret (inr None) else
      if u32 (ph_vaddr ph + ph_memsz ph) <? ph_vaddr ph then ret (inr None) else
      sz <- allocuvm pgdir sz (u32 (ph_vaddr ph + ph_memsz ph)) ;;
      if sz =? 0 then ret (inr None) else
      if negb (ph_vaddr ph mod PGSIZE =? 0) then ret (inr None) else
      r <- loaduvm pgdir (ph_vaddr ph) ip (ph_off ph) (ph_filesz ph) ;;
      if r <? 0 then ret (inr None) else next sz
    else ret (inr (Some sz))) (0, elf_phoff elf, 0) ;;
  ret r.

(** The argument strings, pushed from the first on: the stack pointer and the
    addresses, or [None]. *)
Fixpoint push_args (pgdir sp argc : Z) (argv : list (list Z)) : K (option (Z * list Z)) :=
  match argv with
  | [] => ret (Some (sp, []))
  | a :: argv' =>
      if Z.of_nat MAXARG <=? argc then ret None else
      let sp := Z.land (u32 (sp - (zlen a + 1))) (Z.lnot 3) in
      r <- copyout pgdir sp (a ++ [0]) ;;
      if r <? 0 then ret None else
      r <- push_args pgdir sp (argc + 1) argv' ;;
      ret (match r with
           | Some (sp', l) => Some (sp', sp :: l)
           | None => None
           end)
  end.

(** The user stack of [exec]: the guard page, the argument strings and the block below them
    that [main] finds; [None] where the code goes to [bad]. *)
Definition exec_stack (pgdir sz : Z) (argv : list (list Z)) : K (option Z) :=
  clearpteu pgdir (u32 (sz - 2 * PGSIZE)) ;;
  r <- push_args pgdir sz 0 argv ;;
  match r with
  | None => ret None
  | Some (sp, addrs) =>
      let argc := zlen argv in
      let ustack := [4294967295; argc; u32 (sp - (argc + 1) * 4)] ++ addrs ++ [0] in
      let sp := u32 (sp - (3 + argc + 1) * 4) in
      r <- copyout pgdir sp (le32s ustack) ;;
      if r <? 0 then ret None else ret (Some sp)
  end.

(** [exec] from where it has released the inode: the stack and the change to the new image. *)
Definition exec_image (cur : nat) (pgdir sz : Z) (elf path : list Z) (argv : list (list Z)) : K Z :=
  let bad :=
    when (negb (pgdir =? 0)) (freevm pgdir) ;;
    ret (-1) in
  let sz := PGROUNDUP sz in
  sz <- allocuvm pgdir sz (u32 (sz + 2 * PGSIZE)) ;;
  if sz =? 0 then bad else
  osp <- exec_stack pgdir sz argv ;;
  match osp with
  | None => bad
  | Some sp =>
      upd_proc cur (fun pr => set_p_name (Obj.safestrcpy (p_name pr) (Obj.cstring (last_elem path path))) pr) ;;
      pr <- get_proc cur ;;
      let oldpgdir := p_pgdir pr in
      upd_proc cur (set_p_pgdir pgdir) ;;
      upd_proc cur (set_p_sz sz) ;;
      store32 (p_tf pr + tf_eip) (elf_entry elf) ;;
      store32 (p_tf pr + tf_esp) sp ;;
      switchuvm (Some cur) ;;
      freevm oldpgdir ;;
      ret 0
  end.

(** [exec] with the inode of the program locked. *)
Definition exec_open (cur ip : nat) (path : list Z) (argv : list (list Z)) : K Z :=
  let bad pgdir :=
    when (negb (pgdir =? 0)) (freevm pgdir) ;;
    iunlockput ip ;;
    end_op ;;
    ret (-1) in
  ' (n, elf) <- readi ip 0 ELFHDR ;;
  if negb (n =? ELFHDR) then bad 0 else
  if negb (elf_magic elf =? ELF_MAGIC) then bad 0 else
  pgdir <- setupkvm ;;
  if pgdir =? 0 then bad 0 else
  osz <- exec_load pgdir ip elf ;;
  match osz with
  | None => bad pgdir
  | Some sz =>
      iunlockput ip ;;
      end_op ;;
      exec_image cur pgdir sz elf path argv
  end.

(** [exec]: [argv] are the argument strings. *)
Definition exec (path : list Z) (argv : list (list Z)) : K Z :=
  cur <- curproc ;;
  begin_op ;;
  oip <- namei path ;;
  match oip with
  | None => end_op ;; ret (-1)
  | Some ip =>
      ilock (Some ip) ;;
      exec_open cur ip path argv
  end.
End exec.
