(* ===== verification/ExecMem.v ===== *)
(** * The memory of a new program

    [copyout] (vm.c) over the address spaces of AddrSpace.v, the arguments that [exec] (exec.c)
    leaves on the stack of the new program, and the exchange of the old memory of the
    process for the new one. *)

From S2P Require Import Prelude Monad CString KState Sched Kalloc Bio Log Fs Inode Path Vm Paging AddrSpace Uvm Pipe File Proc Isolation ProcMem Fork Exec.

Local Open Scope kernel_scope.

(** ** User memory *)

(** The byte at a user address, and whether the user may access it. *)
Definition ubyte (A : aspace) (m : mem) (x : Z) : option Z := (fun e => m (e.1 + x mod 4096)) <$> as_map A !! (x / 4096).
Definition user_page (A : aspace) (x : Z) : bool :=
  match as_map A !! (x / 4096) with Some (_, fl) => negb (Z.land fl PTE_U =? 0) | None => false end.

(** The bytes [l] at [va]. *)
Definition at_addr (va : Z) (l : list Z) (x : Z) : option Z := if va <=? x then l !! Z.to_nat (x - va) else None.

Lemma at_addr_Some va l x : is_Some (at_addr va l x) <-> va <= x < va + zlen l.
Proof.
  unfold at_addr, zlen. destruct (Z.leb_spec va x); [rewrite lookup_lt_is_Some; lia|]. split; [by intros [? ?] | lia].
Qed.

Lemma at_addr_None va l x : at_addr va l x = None <-> ~ va <= x < va + zlen l.
Proof. rewrite <- at_addr_Some. apply eq_None_not_Some. Qed.

Lemma at_addr_app va l1 l2 x : at_addr va (l1 ++ l2) x = at_addr va l1 x ∪ at_addr (va + zlen l1) l2 x.
Proof.
  unfold at_addr, zlen. destruct (Z.leb_spec va x), (Z.leb_spec (va + Z.of_nat (length l1)) x); try lia; rewrite ?lookup_app.
  - rewrite (lookup_ge_None_2 l1) by lia. simpl. rewrite option_union_left_id. f_equal. lia.
  - rewrite option_union_right_id. destruct (lookup_lt_is_Some_2 l1 (Z.to_nat (x - va))) as [b ->]; [lia | done].
  - done.
Qed.

(** User memory after [l] has been written at [va]. *)
Definition written (A : aspace) (va : Z) (l : list Z) (m m' : mem) : Prop :=
  forall x, 0 <= x < KERNBASE -> ubyte A m' x = at_addr va l x ∪ ubyte A m x.

Lemma written_nil A va m : written A va [] m m.
Proof. intros x _. unfold at_addr. destruct (va <=? x); by rewrite option_union_left_id. Qed.

Lemma written_app A va l1 l2 m m1 m2 :
  written A va l1 m m1 -> written A (va + zlen l1) l2 m1 m2 -> written A va (l1 ++ l2) m m2.
Proof.
  intros W1 W2 x Hx. rewrite (W2 x Hx), (W1 x Hx), at_addr_app. pose proof (at_addr_Some va l1 x) as H1.
  pose proof (at_addr_Some (va + zlen l1) l2 x) as H2.
  destruct (at_addr va l1 x) as [b|], (at_addr (va + zlen l1) l2 x) as [c|]; try (by destruct (ubyte A m x)).
  exfalso. destruct H1 as [H1 _], H2 as [H2 _]. specialize (H1 ltac:(eauto)). specialize (H2 ltac:(eauto)). lia.
Qed.

(** Two addresses with the same frame are in the same page. *)
Lemma frame_inj pd A i j p fl fl' : sane pd A -> i < UPAGES -> j < UPAGES ->
  as_map A !! i = Some (p, fl) -> as_map A !! j = Some (p, fl') -> i = j.
Proof.
  intros S Hi Hj Ei Ej. pose proof (sn_nodup _ _ S) as N. rewrite owned_perm in N. apply NoDup_app in N as (_ & _ & N).
  assert (forall k f, k < UPAGES -> as_map A !! k = Some (p, f) -> exists n, map_to_list (umap A) !! n = Some (k, (p, f))) as H.
  { intros k f Hk E. apply list_elem_of_lookup_1, elem_of_map_to_list, map_lookup_filter_Some. done. }
  destruct (H i fl Hi Ei) as [a Ha], (H j fl' Hj Ej) as [b Hb]. unfold uframes in N.
  assert (a = b) as ->; [|congruence]. apply (NoDup_lookup _ _ _ p N); by rewrite !list_lookup_fmap, ?Ha, ?Hb.
Qed.

(** One page's share of a write. *)
Lemma written_page pd A va p fl l m : sane pd A -> 0 <= va < KERNBASE -> as_map A !! (va / 4096) = Some (p, fl) ->
  va mod 4096 + zlen l <= 4096 ->
  written A va l m (put_bytes m (p + va mod 4096) l) /\ untouched [p] m (put_bytes m (p + va mod 4096) l).
Proof.
  intros Sn Hva E Hl. assert (va / 4096 < UPAGES) as Hq by (change UPAGES with 524288; unfold KERNBASE in *; zlia).
  pose proof (sane_align _ _ p Sn (frame_owned pd _ _ _ _ Hq E)) as [Hp _]. split.
  - intros x Hx. unfold ubyte. destruct (as_map A !! (x / 4096)) as [[p' fl']|] eqn:E'.
    + assert (x / 4096 < UPAGES) as Hq' by (change UPAGES with 524288; unfold KERNBASE in *; zlia).
      pose proof (sane_align _ _ p' Sn (frame_owned pd _ _ _ _ Hq' E')) as [Hp' _]. simpl. unfold put_bytes.
      destruct (decide (x / 4096 = va / 4096)) as [Ex|Ex].
      * rewrite Ex, E in E'. injection E' as -> ->. unfold at_addr, lget.
        assert (x - va = x mod 4096 - va mod 4096) as Ed by zlia.
        destruct (Z.leb_spec (p' + va mod 4096) (p' + x mod 4096)), (Z.leb_spec va x); try lia; cbn [andb]; [|done].
        destruct (Z.ltb_spec (p' + x mod 4096) (p' + va mod 4096 + zlen l)); unfold zlen in *.
        -- replace (p' + x mod 4096 - (p' + va mod 4096)) with (x - va) by lia.
           destruct (lookup_lt_is_Some_2 l (Z.to_nat (x - va))) as [b ->]; [lia | done].
        -- by rewrite lookup_ge_None_2 by lia.
      * assert (p' <> p) as Hne by (intros ->; apply Ex; by eapply (frame_inj pd A)).
        assert (at_addr va l x = None) as -> by (apply at_addr_None; zlia). rewrite option_union_left_id. simpl. do 2 f_equal.
        destruct (Z.leb_spec (p + va mod 4096) (p' + x mod 4096)), (Z.ltb_spec (p' + x mod 4096) (p + va mod 4096 + zlen l)); try done. zlia.
    + assert (at_addr va l x = None) as ->; [|done]. apply at_addr_None. intros Hin. assert (x / 4096 = va / 4096) as Ex by zlia. by rewrite Ex, E in E'.
  - intros x Ho. unfold put_bytes. destruct (Ho p ltac:(left)); destruct (Z.leb_spec (p + va mod 4096) x), (Z.ltb_spec x (p + va mod 4096 + zlen l)); try done; zlia.
Qed.

Section execmem.
Context `{LK : Linked}.

(** ** [copyout] *)

Lemma uva2ka_as s pd A x t : rep (k_mem s) pd A -> sane pd A -> 0 <= x < 4294967296 -> as_tab A !! (x / 4194304) = Some t ->
  uva2ka pd (PGROUNDDOWN x) s =
    Ret (match as_map A !! (x / 4096) with Some (p, fl) => if Z.land fl PTE_U =? 0 then 0 else p | None => 0 end) s.
Proof.
  intros R Sn Hx Ht. unfold uva2ka. rewrite (bind_Ret _ _ _ _ _ (walk_look s pd A _ R)).
  assert (u32 (PGROUNDDOWN x) = x / 4096 * 4096) as Eu by (rewrite PGROUNDDOWN_eq; unfold PGSIZE; apply u32_small; zlia).
  assert (PDX (PGROUNDDOWN x) = x / 4194304) as -> by (rewrite PDX_eq, Eu; zlia).
  assert (PTX (PGROUNDDOWN x) = x / 4096 mod 1024) as -> by (rewrite PTX_eq, Eu; zlia). rewrite Ht.
  pose proof (sane_align _ _ t Sn (proj2 (table_owned pd _ _ _ Ht))) as [_ Hr].
  rewrite (proj2 (Z.eqb_neq _ 0)) by (unfold KERNBASE in *; zlia). unfold load32. rewrite bind_gets.
  pose proof (rp_pte _ _ _ R _ _ (x / 4096 mod 1024) Ht ltac:(zlia)) as Ep.
  replace (1024 * (x / 4194304) + x / 4096 mod 1024) with (x / 4096) in Ep by zlia. rewrite Ep. unfold pte_dec.
  destruct (present _); [|done]. cbn [negb]. set (e := ld32 _ _).
  replace (Z.land (PTE_FLAGS e) PTE_U) with (Z.land e PTE_U).
  - by destruct (Z.land e PTE_U =? 0).
  - unfold PTE_FLAGS. rewrite <- Z.land_assoc. done.
Qed.

Definition copyout_step (pgdir : Z) : Z * list Z -> K (Z * list Z + Z) := fun '(va, buf) =>
    let len := zlen buf in
    if 0 <? len then
      let va0 := PGROUNDDOWN va in
      pa0 <- uva2ka pgdir va0 ;;
      if pa0 =? 0 then ret (inr (-1)) else
      let n := Z.min (PGSIZE - (va - va0)) len in
      upd_mem (fun m => put_bytes m (pa0 + (va - va0)) (take (Z.to_nat n) buf)) ;;
      ret (inl (u32 (va0 + PGSIZE), drop (Z.to_nat n) buf))
    else ret (inr 0).

Lemma copyout_loop pd va buf : copyout pd va buf = loop (S (S (length buf))) (copyout_step pd) (va, buf).
Proof. reflexivity. Qed.

Definition is_byte (b : Z) : Prop := 0 <= b < 256.

Lemma put_bytes_wf m a l : mem_wf m -> Forall is_byte l -> mem_wf (put_bytes m a l).
Proof.
  intros Hm Hl x. unfold put_bytes, lget. destruct (_ && _); [|apply Hm]. destruct (l !! _) as [b|] eqn:E; [|simpl; lia].
  by apply (Forall_lookup_1 _ _ _ _ Hl E).
Qed.

(** Writing into the user's pages keeps the address space. *)
Lemma space_user s pd A free rest m' : space_inv s pd A free rest -> mem_wf m' -> untouched (uframes A) (k_mem s) m' ->
  space_inv (set_k_mem m' s) pd A free rest.
Proof.
  intros V Hw U. pose proof (si_nodup _ _ _ _ _ V) as N. rewrite owned_perm, <- app_assoc in N. apply NoDup_app in N as (_ & N1 & (_ & N2 & _)%NoDup_app).
  eapply space_write; [done | done | done | |].
  - apply Forall_forall. intros p Hp. apply (sane_align _ _ _ (si_sane _ _ _ _ _ V)). rewrite owned_perm. apply elem_of_app. by right.
  - intros p Hp. split; intros H; [apply (N1 p H); apply elem_of_app; by left | apply (N2 p Hp); apply elem_of_app; by left].
Qed.

(** One turn: the page cannot be written, or its share of the bytes is. *)
Lemma copy_turn s pd A free rest va buf t : space_inv s pd A free rest -> 0 <= va < KERNBASE -> buf <> [] -> Forall is_byte buf ->
  as_tab A !! (va / 4194304) = Some t ->
  let n := Z.to_nat (Z.min (4096 - va mod 4096) (zlen buf)) in
  if user_page A va then exists m', copyout_step pd (va, buf) s = Ret (inl (va - va mod 4096 + 4096, drop n buf)) (set_k_mem m' s) /\
    space_inv (set_k_mem m' s) pd A free rest /\ untouched (uframes A) (k_mem s) m' /\ written A va (take n buf) (k_mem s) m'
  else copyout_step pd (va, buf) s = Ret (inr (-1)) s.
Proof.
  intros V Hva Hb Hl Ht n. pose proof (si_sane _ _ _ _ _ V) as Sn. unfold copyout_step. cbv zeta.
  assert (0 < zlen buf) as Hz by (unfold zlen; destruct buf; simpl; [done | lia]). rewrite (proj2 (Z.ltb_lt _ _) Hz).
  rewrite (bind_Ret _ _ _ _ _ (uva2ka_as s pd A va t (si_rep _ _ _ _ _ V) Sn ltac:(unfold KERNBASE in *; lia) Ht)).
  unfold user_page. destruct (as_map A !! (va / 4096)) as [[p fl]|] eqn:E; [|done].
  destruct (Z.land fl PTE_U =? 0); [done|]. cbn [negb].
  assert (va / 4096 < UPAGES) as Hq by (change UPAGES with 524288; unfold KERNBASE in *; zlia).
  pose proof (sane_align _ _ p Sn (frame_owned pd _ _ _ _ Hq E)) as [_ Hp]. rewrite (proj2 (Z.eqb_neq p 0)) by (unfold KERNBASE in *; lia).
  rewrite bind_upd_mem. replace (va - PGROUNDDOWN va) with (va mod 4096) by (rewrite PGROUNDDOWN_eq; unfold PGSIZE; zlia). fold n.
  replace (u32 (PGROUNDDOWN va + PGSIZE)) with (va - va mod 4096 + 4096) by (rewrite PGROUNDDOWN_eq; unfold PGSIZE, KERNBASE in *; zlia).
  change (Z.to_nat (Z.min (PGSIZE - va mod 4096) (zlen buf))) with n.
  destruct (written_page pd A va p fl (take n buf) (k_mem s) Sn Hva E) as [W U].
  { unfold zlen, n in *. rewrite length_take. zlia. }
  assert (untouched (uframes A) (k_mem s) (put_bytes (k_mem s) (p + va mod 4096) (take n buf))) as U'.
  { eapply untouched_mono; [|exact U]. intros q ->%list_elem_of_singleton. apply elem_of_uframes. eauto. }
  eexists. split; [reflexivity|]. split_and!; [|exact U'|exact W]. apply space_user; [done | | exact U'].
  apply put_bytes_wf; [apply V | by apply Forall_take].
Qed.

(** What [copyout] can do to an address space: write all of [buf], or stop at a page the user may
    not access. *)
Definition copy_result (A : aspace) (va : Z) (buf : list Z) (m m' : mem) (r : Z) : Prop :=
  (r = 0 /\ written A va buf m m' /\ forall x, va <= x < va + zlen buf -> user_page A x = true) \/
  (r = -1 /\ exists x, va <= x < va + zlen buf /\ user_page A x = false).

Definition tables_for (A : aspace) (lo hi : Z) : Prop := forall x, lo <= x < hi -> is_Some (as_tab A !! (x / 4194304)).

Lemma user_page_same A x y : x / 4096 = y / 4096 -> user_page A x = user_page A y.
Proof. unfold user_page. by intros ->. Qed.

Lemma copy_none pd A free rest n (va : Z) s : space_inv s pd A free rest ->
  exists (r : Z) m', loop (S n) (copyout_step pd) (va, @nil Z) s = Ret r (set_k_mem m' s) /\
    space_inv (set_k_mem m' s) pd A free rest /\ untouched (uframes A) (k_mem s) m' /\ copy_result A va [] (k_mem s) m' r.
Proof.
  intros V. assert (set_k_mem (k_mem s) s = s) as Es by (by destruct s). exists 0, (k_mem s). rewrite Es.
  split_and!; [by apply loop_done | done | apply untouched_refl |].
  left. split_and!; [done | apply written_nil | unfold zlen; simpl; lia].
Qed.

Lemma copyout_turns pd A free rest n : forall buf va s, (length buf <= n)%nat ->
  space_inv s pd A free rest -> 0 <= va -> va + zlen buf <= KERNBASE -> Forall is_byte buf -> tables_for A va (va + zlen buf) ->
  exists r m', loop (S n) (copyout_step pd) (va, buf) s = Ret r (set_k_mem m' s) /\
    space_inv (set_k_mem m' s) pd A free rest /\ untouched (uframes A) (k_mem s) m' /\ copy_result A va buf (k_mem s) m' r.
Proof.
  assert (forall s, set_k_mem (k_mem s) s = s) as Es by (by intros []).
  induction n as [|n IH]; intros l va s Hn V Hva Hk Hl Ht.
  { destruct l; [|simpl in Hn; lia]. by apply copy_none. }
  destruct (decide (l = [])) as [->|Hb]; [by apply copy_none|].
  assert (0 < zlen l) as Hz by (unfold zlen; destruct l; simpl; [done | lia]).
  destruct (Ht va ltac:(lia)) as [t Htt]. pose proof (copy_turn s pd A free rest va l t V ltac:(lia) Hb Hl Htt) as T.
  cbv zeta in T. set (k := Z.to_nat _) in T. destruct (user_page A va) eqn:Eu.
  2:{ exists (-1), (k_mem s). rewrite Es. split_and!; [by apply loop_done | done | apply untouched_refl |]. right. split; [done|]. exists va. split; [lia | done]. }
  destruct T as (m1 & E1 & V1 & U1 & W1).
  assert (Z.of_nat k = Z.min (4096 - va mod 4096) (zlen l)) as Ek by (unfold k; zlia).
  assert (zlen (take k l) = Z.of_nat k) as Etk by (unfold zlen in *; rewrite length_take; lia).
  assert (zlen (drop k l) = zlen l - Z.of_nat k) as Edk by (unfold zlen in *; rewrite length_drop; lia).
  destruct (decide (zlen (drop k l) = 0)) as [Hd|Hd].
  - assert (drop k l = []) as Ed by (apply length_zero_iff_nil; unfold zlen in Hd; lia).
    rewrite (loop_next _ _ _ _ _ _ E1), Ed. exists 0, m1. split_and!; [by destruct n; apply loop_done | done | done |].
    left. assert (take k l = l) as Etb by (apply take_ge; unfold zlen in *; lia). rewrite Etb in W1. split_and!; [done | done |].
    intros x Hx. rewrite <- Eu. apply user_page_same. zlia.
  - destruct (IH (drop k l) (va - va mod 4096 + 4096) (set_k_mem m1 s)) as (r & m2 & E2 & V2 & U2 & C2);
      [rewrite length_drop; unfold zlen in *; zlia | done | zlia | zlia | by apply Forall_drop | intros x Hx; apply Ht; zlia |].
    exists r, m2. rewrite (loop_next _ _ _ _ _ _ E1). split_and!; [exact E2 | exact V2 | by eapply untouched_trans |].
    destruct C2 as [(-> & W2 & H2)|(-> & x & Hx & H2)].
    + left. split_and!; [done | |].
      * rewrite <- (take_drop k l). eapply written_app; [exact W1|]. replace (va + zlen (take k l)) with (va - va mod 4096 + 4096) by zlia. exact W2.
      * intros x Hx. destruct (decide (x < va - va mod 4096 + 4096)) as [Hlt|Hge]; [rewrite <- Eu; apply user_page_same; zlia | apply H2; zlia].
    + right. split; [done|]. exists x. split; [zlia | done].
Qed.

(** [copyout] to user addresses that have page tables: all of the bytes arrive, and no others
    change, if the user may access all the pages; otherwise it returns -1, and has written only
    to pages of the user. *)
Lemma copyout_as s pd A free rest va buf :
  space_inv s pd A free rest -> 0 <= va -> va + zlen buf <= KERNBASE -> Forall is_byte buf -> tables_for A va (va + zlen buf) ->
  exists r m', copyout pd va buf s = Ret r (set_k_mem m' s) /\
    space_inv (set_k_mem m' s) pd A free rest /\ untouched (uframes A) (k_mem s) m' /\ copy_result A va buf (k_mem s) m' r.
Proof. intros V H1 H2 H3 H4. rewrite copyout_loop. by apply (copyout_turns pd A free rest (S (length buf))); [lia|..]. Qed.

(** Without a page table [copyout] reads through a null pointer. *)
Lemma copyout_no_table s pd A va buf : rep (k_mem s) pd A -> buf <> [] -> as_tab A !! PDX (PGROUNDDOWN va) = None ->
  copyout pd va buf s = Fault "uva2ka" s.
Proof.
  intros R Hb Ht. rewrite copyout_loop. cbn [loop]. unfold copyout_step at 1. destruct buf as [|b buf]; [done|]. cbv zeta.
  change (0 <? zlen (b :: buf)) with true. cbv iota. unfold uva2ka.
  unfold bind at 1 2 3. by rewrite (walk_look s pd A _ R), Ht.
Qed.

(** ** The arguments on the stack *)

(** The room an argument takes, and the addresses of the strings pushed from [sp] down. *)
Definition arg_slot (a : list Z) : Z := (zlen a + 4) / 4 * 4.
Definition arg_bytes (argv : list (list Z)) : Z := foldr (fun a n => arg_slot a + n) 0 argv.
Fixpoint arg_addrs (sp : Z) (argv : list (list Z)) : list Z :=
  match argv with [] => [] | a :: argv' => sp - arg_slot a :: arg_addrs (sp - arg_slot a) argv' end.

(** User memory has the bytes [l] at [p]. *)
Definition stored (A : aspace) (m : mem) (p : Z) (l : list Z) : Prop := 0 <= p /\ p + zlen l <= KERNBASE /\ forall x, p <= x < p + zlen l -> ubyte A m x = at_addr p l x.
Definition user_same (A : aspace) (lo hi : Z) (m m' : mem) : Prop := forall x, 0 <= x < KERNBASE -> ~ lo <= x < hi -> ubyte A m' x = ubyte A m x.

Lemma arg_slot_room a : zlen a + 1 <= arg_slot a <= zlen a + 4 /\ arg_slot a mod 4 = 0.
Proof. unfold arg_slot, zlen. zlia. Qed.

Lemma arg_bytes_nonneg argv : 0 <= arg_bytes argv.
Proof. induction argv as [|a argv IH]; simpl; [lia|]. pose proof (arg_slot_room a). unfold zlen in *. lia. Qed.

Lemma land_not3 x : Z.land x (Z.lnot 3) = x / 4 * 4.
Proof. rewrite <- Z.ldiff_land. change 3 with (Z.ones 2). rewrite Z.ldiff_ones_r, Z.shiftr_div_pow2, Z.shiftl_mul_pow2 by lia. done. Qed.

Lemma arg_sp sp a : sp mod 4 = 0 -> zlen a + 1 <= sp < 4294967296 -> Z.land (u32 (sp - (zlen a + 1))) (Z.lnot 3) = sp - arg_slot a.
Proof. intros H1 H2. rewrite land_not3, u32_small by (unfold zlen in *; lia). unfold arg_slot. zlia. Qed.

Lemma written_stored A va l m m' : 0 <= va -> va + zlen l <= KERNBASE -> written A va l m m' -> stored A m' va l.
Proof. intros H1 H2 W. split_and!; [done | done |]. intros x Hx. rewrite (W x) by lia. destruct (proj2 (at_addr_Some va l x) Hx) as [b ->]. by destruct (ubyte A m x). Qed.

Lemma written_same A va l m m' : written A va l m m' -> user_same A va (va + zlen l) m m'.
Proof. intros W x Hx Hn. rewrite (W x Hx), (proj2 (at_addr_None va l x)) by done. apply option_union_left_id. Qed.

Lemma user_same_trans A lo hi lo' hi' m m1 m2 : user_same A lo hi m m1 -> user_same A lo' hi' m1 m2 ->
  user_same A (Z.min lo lo') (Z.max hi hi') m m2.
Proof. intros S1 S2 x Hx Hn. rewrite S2, S1 by lia. done. Qed.

Lemma user_same_mono A lo hi lo' hi' m m' : user_same A lo hi m m' -> lo' <= lo -> hi <= hi' -> user_same A lo' hi' m m'.
Proof. intros H H1 H2 x Hx Hn. apply H; [done | lia]. Qed.

Lemma stored_same A lo hi m m' p l : user_same A lo hi m m' -> p + zlen l <= lo \/ hi <= p ->
  stored A m p l -> stored A m' p l.
Proof. intros Sm Hd (H1 & H2 & H). split_and!; [done | done |]. intros x Hx. rewrite Sm; [by apply H | lia | lia]. Qed.

(** A stack page below [top], above a page the user cannot access. *)
Record stack_at (A : aspace) (top : Z) : Prop := {
  st_top : top mod 4096 = 0 /\ 8192 <= top <= KERNBASE;
  st_page x : top - 4096 <= x < top -> user_page A x = true;
  st_guard x : top - 8192 <= x < top - 4096 -> user_page A x = false;
  st_tables : tables_for A 0 top
}.

(** A string or block pushed on the stack: it is written if it stays in the page. *)
Lemma push_as s pd A free rest top sp l : space_inv s pd A free rest -> stack_at A top -> Forall is_byte l -> 0 < zlen l ->
  0 <= sp -> top - 4100 < sp + zlen l <= top ->
  exists r m', copyout pd sp l s = Ret r (set_k_mem m' s) /\ space_inv (set_k_mem m' s) pd A free rest /\ untouched (uframes A) (k_mem s) m' /\
    if top - 4096 <=? sp then r = 0 /\ written A sp l (k_mem s) m' else r = -1.
Proof.
  intros V [[H1 H2] Hp Hg Ht] Hb Hz H0 He.
  destruct (copyout_as s pd A free rest sp l V H0 ltac:(lia) Hb) as (r & m' & E & V' & U & C); [intros x Hx; apply Ht; lia|].
  exists r, m'. split_and!; [done..|]. destruct (Z.leb_spec (top - 4096) sp) as [Hs|Hs]; destruct C as [(-> & W & H)|(-> & x & Hx & H)]; try done.
  - rewrite Hp in H by lia. done.
  - specialize (H (Z.max sp (top - 8192)) ltac:(lia)). rewrite Hg in H by lia. done.
Qed.

Definition args_fit (top sp argc : Z) (argv : list (list Z)) : bool := (argc + zlen argv <=? Z.of_nat MAXARG) && (top - 4096 <=? sp - arg_bytes argv).

Lemma push_args_as pd A free rest top argv : stack_at A top -> Forall (fun a => Forall is_byte a /\ zlen a < top - 4096) argv ->
  forall s sp argc, space_inv s pd A free rest -> top - 4096 <= sp <= top -> sp mod 4 = 0 -> argc <= Z.of_nat MAXARG ->
  exists m', push_args pd sp argc argv s =
      Ret (if args_fit top sp argc argv then Some (sp - arg_bytes argv, arg_addrs sp argv) else None) (set_k_mem m' s) /\
    space_inv (set_k_mem m' s) pd A free rest /\ untouched (uframes A) (k_mem s) m' /\
    (args_fit top sp argc argv = true -> user_same A (sp - arg_bytes argv) sp (k_mem s) m' /\
       Forall2 (fun p a => stored A m' p (a ++ [0])) (arg_addrs sp argv) argv).
Proof.
  intros St. destruct (st_top _ _ St) as [Ht1 Ht2]. assert (forall s, set_k_mem (k_mem s) s = s) as Es by (by intros []).
  induction argv as [|a argv IH]; intros Ha s sp argc V Hsp H4 Hargc.
  - exists (k_mem s). rewrite Es. unfold args_fit. simpl. unfold zlen. rewrite Z.add_0_r, Z.sub_0_r, (proj2 (Z.leb_le _ _) Hargc), (proj2 (Z.leb_le _ _) (proj1 Hsp)).
    split_and!; [done | done | apply untouched_refl |]. intros _. split; [by intros x _ _ | constructor].
  - apply Forall_cons in Ha as [[Hb Hl] Ha]. pose proof (arg_slot_room a) as [Hr1 Hr2]. pose proof (arg_bytes_nonneg argv) as Hnn.
    cbn [push_args arg_bytes arg_addrs foldr]. fold (arg_bytes argv). unfold args_fit. cbn [arg_bytes foldr]. fold (arg_bytes argv).
    assert (zlen (a :: argv) = 1 + zlen argv) as El by (unfold zlen; simpl; lia). rewrite El.
    destruct (Z.leb_spec (Z.of_nat MAXARG) argc) as [Hm|Hm].
    { exists (k_mem s). rewrite Es, (proj2 (Z.leb_gt (argc + _) _)) by (unfold zlen; lia). split_and!; [done | done | apply untouched_refl | done]. }
    cbv zeta. rewrite arg_sp by (unfold zlen, KERNBASE in *; lia). set (sp1 := sp - arg_slot a).
    assert (0 <= zlen a) as Hz by (unfold zlen; lia).
    assert (zlen (a ++ [0]) = zlen a + 1) as El1 by (unfold zlen; rewrite length_app; simpl; lia).
    destruct (push_as s pd A free rest top sp1 (a ++ [0]) V St) as (r & m1 & E1 & V1 & U1 & C1);
      [apply Forall_app; split; [done | constructor; [unfold is_byte; lia | constructor]] | unfold zlen in *; lia | unfold sp1, arg_slot; zlia | unfold sp1; lia |].
    rewrite (bind_Ret _ _ _ _ _ E1). destruct (Z.leb_spec (top - 4096) sp1) as [Hs|Hs].
    + destruct C1 as [-> W1]. cbn [Z.ltb Z.compare]. pose proof (written_same _ _ _ _ _ W1) as S1.
      destruct (IH Ha (set_k_mem m1 s) sp1 (argc + 1) V1) as (m2 & E2 & V2 & U2 & H2); [unfold sp1, zlen in *; lia | unfold sp1; zlia | lia |].
      rewrite (bind_Ret _ _ _ _ _ E2). unfold args_fit in *. replace (argc + (1 + zlen argv)) with (argc + 1 + zlen argv) by lia.
      replace (sp - (arg_slot a + arg_bytes argv)) with (sp1 - arg_bytes argv) by (unfold sp1; lia). exists m2.
      split_and!; [by destruct (_ && _) | exact V2 | by eapply untouched_trans |]. intros Hf. destruct (H2 Hf) as [S2 F2]. cbn [k_mem set_k_mem] in S2. split.
      * eapply user_same_mono; [exact (user_same_trans _ _ _ _ _ _ _ _ S1 S2) | lia | unfold sp1 in *; lia].
      * constructor; [|exact F2]. apply (stored_same A _ _ m1 m2 _ _ S2); [right; lia |].
        eapply written_stored; [| |exact W1]; unfold sp1 in *; lia.
    + rewrite C1. cbn [Z.ltb Z.compare]. exists m1. rewrite (proj2 (Z.leb_gt (top - 4096) (sp - _))), andb_false_r by (unfold sp1 in *; lia).
      split_and!; done.
Qed.

(** ** The guard page *)

Definition guard (q : Z) (A : aspace) : aspace :=
  mkAs (as_tab A) (alter (fun e => (e.1, Z.land e.2 (Z.lnot PTE_U))) q (as_map A)).

Lemma land_swap a b c : Z.land (Z.land a b) c = Z.land (Z.land a c) b.
Proof. by rewrite <- !Z.land_assoc, (Z.land_comm b c). Qed.

(** An entry without its user bit. *)
Lemma no_user e : 0 <= e < 4294967296 -> let e' := Z.land e (Z.lnot PTE_U) in
  0 <= e' < 4294967296 /\ present e' = present e /\ PTE_ADDR e' = PTE_ADDR e /\ PTE_FLAGS e' = Z.land (PTE_FLAGS e) (Z.lnot PTE_U).
Proof.
  intros He e'. split; [|split_and!].
  - assert (e' = e' mod 2 ^ 32) as -> by (rewrite <- Z.land_ones by lia; unfold e'; rewrite land_swap, (Z.land_ones e) by lia; f_equal; rewrite Z.mod_small by lia; done).
    apply Z.mod_pos_bound. lia.
  - unfold present, e'. by rewrite <- Z.land_assoc.
  - unfold PTE_ADDR, e'. by rewrite <- Z.land_assoc.
  - unfold PTE_FLAGS, e'. apply land_swap.
Qed.

Lemma owned_guard pd q A : owned pd (guard q A) ≡ₚ owned pd A.
Proof.
  rewrite !owned_perm. change (meta pd (guard q A)) with (meta pd A). apply Permutation_app_head.
  destruct (as_map A !! q) as [[p fl]|] eqn:E.
  - rewrite (uframes_del q p fl A E). change (guard q A) with (mkAs (as_tab A) (alter (fun e => (e.1, Z.land e.2 (Z.lnot PTE_U))) q (as_map A))).
    rewrite (uframes_del q p (Z.land fl (Z.lnot PTE_U)) (mkAs _ _)) by (cbn [as_map]; by rewrite lookup_alter_eq, E).
    unfold del_page. cbn [as_tab as_map]. by rewrite delete_alter_eq.
  - unfold guard. rewrite fin_maps.alter_id; [by destruct A|]. congruence.
Qed.

Lemma ubyte_guard q A m x : ubyte (guard q A) m x = ubyte A m x.
Proof.
  unfold ubyte, guard. cbn [as_map]. destruct (decide (q = x / 4096)) as [<-|Hn]; [|by rewrite lookup_alter_ne].
  rewrite lookup_alter_eq. by destruct (as_map A !! q).
Qed.

Lemma clearpteu_as s pd A free rest q p fl : space_inv s pd A free rest -> 0 <= q < UPAGES -> as_map A !! q = Some (p, fl) ->
  exists m', clearpteu pd (4096 * q) s = Ret tt (set_k_mem m' s) /\ space_inv (set_k_mem m' s) pd (guard q A) free rest /\
    untouched (meta pd A) (k_mem s) m'.
Proof.
  intros V Hq E. pose proof (si_sane _ _ _ _ _ V) as Sn. change UPAGES with 524288 in Hq.
  destruct (rep_flags _ _ _ _ _ _ (si_rep _ _ _ _ _ V) E) as (t & Ht & Hp & -> & -> & _).
  destruct (sane_align _ _ t Sn (proj2 (table_owned pd _ _ _ Ht))) as [Hta Hr]. unfold clearpteu.
  rewrite (bind_Ret _ _ _ _ _ (walk_look s pd A _ (si_rep _ _ _ _ _ V))).
  assert (PDX (4096 * q) = q / 1024) as -> by (rewrite PDX_eq; zlia). assert (PTX (4096 * q) = q mod 1024) as -> by (rewrite PTX_eq; zlia).
  rewrite Ht, (proj2 (Z.eqb_neq _ 0)) by (unfold KERNBASE in *; zlia). unfold load32. rewrite bind_gets.
  set (a := t + 4 * (q mod 1024)) in *. set (e := ld32 (k_mem s) a) in *.
  destruct (no_user e) as (H1 & H2 & H3 & H4); [apply ld32_range, V|]. cbv zeta in *. eexists. split; [reflexivity|].
  assert (untouched (meta pd A) (k_mem s) (st32 (k_mem s) a (Z.land e (Z.lnot PTE_U)))) as U.
  { eapply (untouched_mono [t]); [|apply untouched_st32; unfold a; zlia]. intros x ->%list_elem_of_singleton. apply (table_owned pd _ _ _ Ht). }
  split; [|exact U]. pose proof (si_nodup _ _ _ _ _ V) as N. destruct V as [K R O _]. split.
  - apply kmem_write; [done | apply st32_wf, K |]. intros x y Hin Hy. symmetry. apply st32_frame. unfold a.
    pose proof (proj1 (Forall_forall _ _) (free_aligned _ _ K) x Hin) as Hxa.
    assert (x <> t) by (intros ->; apply (NoDup_sep _ _ _ _ N Hin); apply (table_owned pd _ _ _ Ht)). zlia.
  - cbn [k_mem set_k_mem]. replace (guard q A) with (put_entry (1024 * (q / 1024) + q mod 1024) (Z.land e (Z.lnot PTE_U)) A); [apply rep_write; try done; zlia|].
    replace (1024 * (q / 1024) + q mod 1024) with q by zlia. unfold put_entry, guard, pte_dec. rewrite H2, Hp, H3, H4. f_equal.
    apply map_eq. intros j. destruct (decide (q = j)) as [<-|Hn]; [by rewrite lookup_partial_alter_eq, lookup_alter_eq, E|].
    by rewrite lookup_partial_alter_ne, lookup_alter_ne.
  - by rewrite owned_guard.
  - by rewrite owned_guard.
Qed.

(** The user's bytes stay when only page tables and free pages are written. *)
Lemma ubyte_kept s pd A free rest m m' x : space_inv s pd A free rest -> untouched (meta pd A ++ free) m m' -> 0 <= x < KERNBASE ->
  ubyte A m' x = ubyte A m x.
Proof.
  intros V U Hx. unfold ubyte. destruct (as_map A !! (x / 4096)) as [[p fl]|] eqn:E; [|done]. simpl. f_equal.
  eapply user_kept; [exact V | | exact U | zlia]. apply elem_of_uframes. exists (x / 4096), fl. split; [|done].
  change UPAGES with 524288. unfold KERNBASE in Hx. zlia.
Qed.

(** ** The stack of the new program *)

(** The room the arguments and the block of pointers take, and whether the stack page has it. *)
Definition args_room (argv : list (list Z)) : Z := arg_bytes argv + 4 * (zlen argv + 4).
Definition stack_fits (argv : list (list Z)) : bool := (zlen argv <=? Z.of_nat MAXARG) && (args_room argv <=? 4096).

(** What [main(argc, argv)] finds at its stack pointer: a return address it must not use, [argc],
    [argv], then the array [argv] points to, closed by a null pointer; the pointers are to
    the strings, each closed by a zero. *)
Definition main_frame (A : aspace) (m : mem) (sp : Z) (argv : list (list Z)) : Prop := exists addrs,
  stored A m sp (le32s ([4294967295; zlen argv; sp + 12] ++ addrs ++ [0])) /\ Forall2 (fun p a => stored A m p (a ++ [0])) addrs argv.

Lemma le32s_bytes l : Forall is_byte (le32s l) /\ zlen (le32s l) = 4 * zlen l.
Proof.
  unfold le32s. induction l as [|v l [IH1 IH2]]; [by split; [constructor|]|].
  change (mjoin (le32 <$> v :: l)) with (le32 v ++ mjoin (le32 <$> l)). split.
  - apply Forall_app. split; [|exact IH1]. repeat (constructor; [apply Z.mod_pos_bound; done|]). constructor.
  - unfold zlen in *. rewrite length_app. cbn [le32 length]. lia.
Qed.

Lemma arg_addrs_length argv : forall sp, length (arg_addrs sp argv) = length argv.
Proof. induction argv as [|a argv IH]; intros sp; simpl; [done | by rewrite IH]. Qed.

(** The addresses of the strings are above the block. *)
Lemma arg_addrs_above argv : forall sp p a, (p, a) ∈ zip (arg_addrs sp argv) argv -> sp - arg_bytes argv <= p /\ p + zlen (a ++ [0]) <= sp.
Proof.
  induction argv as [|a argv IH]; intros sp p b Hin; simpl in Hin; [by apply not_elem_of_nil in Hin|].
  pose proof (arg_slot_room a) as [Hr _]. pose proof (arg_bytes_nonneg argv) as Hnn. cbn [arg_bytes foldr]. fold (arg_bytes argv).
  apply elem_of_cons in Hin as [[= -> ->]|Hin].
  - unfold zlen in *. rewrite length_app. simpl. lia.
  - apply IH in Hin. unfold zlen in *. lia.
Qed.

Lemma stack_made m pd A top p : rep m pd A -> top mod 4096 = 0 -> 8192 <= top <= KERNBASE ->
  (forall j, 0 <= j < top / 4096 -> is_Some (as_map A !! j)) -> as_map A !! (top / 4096 - 1) = Some (p, 7) ->
  stack_at (guard (top / 4096 - 2) A) top.
Proof.
  intros R Ht Hk Hm Hs. split; [done | | |].
  - intros x Hx. unfold user_page, guard. cbn [as_map]. rewrite lookup_alter_ne by zlia. replace (x / 4096) with (top / 4096 - 1) by zlia. by rewrite Hs.
  - intros x Hx. unfold user_page, guard. cbn [as_map]. replace (x / 4096) with (top / 4096 - 2) by zlia. rewrite lookup_alter_eq.
    destruct (as_map A !! (top / 4096 - 2)) as [[p' fl]|]; [|done]. cbn [fmap option_fmap option_map fst snd]. rewrite <- Z.land_assoc.
    change (Z.land (Z.lnot PTE_U) PTE_U) with 0. by rewrite Z.land_0_r.
  - intros x Hx. destruct (Hm (x / 4096)) as [e He]; [zlia|]. apply (rp_map_dom _ _ _ R) in He as [t He]. cbn [guard as_tab].
    replace (x / 4096 / 1024) with (x / 4194304) in He by zlia. eauto.
Qed.

(** The block below the strings, pushed at [sp]. *)
Lemma push_block s pd A free rest top (argv : list (list Z)) : space_inv s pd A free rest -> stack_at A top ->
  zlen argv <= Z.of_nat MAXARG -> top - 4096 <= top - arg_bytes argv ->
  Forall2 (fun p a => stored A (k_mem s) p (a ++ [0])) (arg_addrs top argv) argv ->
  let sp := top - args_room argv in
  exists r m', copyout pd sp (le32s ([4294967295; zlen argv; sp + 12] ++ arg_addrs top argv ++ [0])) s = Ret r (set_k_mem m' s) /\
    space_inv (set_k_mem m' s) pd A free rest /\ untouched (uframes A) (k_mem s) m' /\
    if args_room argv <=? 4096 then r = 0 /\ main_frame A m' sp argv /\ user_same A sp (top - arg_bytes argv) (k_mem s) m' else r = -1.
Proof.
  intros V St Hc Hb F sp. destruct (st_top _ _ St) as [Ht1 Ht2]. set (l := le32s _). destruct (le32s_bytes ([4294967295; zlen argv; sp + 12] ++ arg_addrs top argv ++ [0])) as [Hl1 Hl2]. fold l in Hl1, Hl2.
  assert (zlen l = 4 * (zlen argv + 4)) as El.
  { rewrite Hl2. unfold zlen. rewrite !length_app, arg_addrs_length. simpl. lia. }
  assert (0 <= zlen argv) as Hz by (unfold zlen; lia). change (Z.of_nat MAXARG) with 32 in Hc.
  assert (sp + zlen l = top - arg_bytes argv) as Ee by (unfold sp, args_room; lia). pose proof (arg_bytes_nonneg argv) as Hnn.
  destruct (push_as s pd A free rest top sp l V St Hl1) as (r & m' & E & V' & U & C); [lia | lia | lia |].
  exists r, m'. split_and!; [done..|]. replace (args_room argv <=? 4096) with (top - 4096 <=? sp) by (unfold sp; destruct (Z.leb_spec (top - 4096) (top - args_room argv)), (Z.leb_spec (args_room argv) 4096); lia).
  destruct (Z.leb_spec (top - 4096) sp) as [Hs|Hs]; [|done]. destruct C as [-> W]. pose proof (written_same _ _ _ _ _ W) as Sm. rewrite Ee in Sm.
  split_and!; [done | | exact Sm]. exists (arg_addrs top argv). split; [apply (written_stored A sp l (k_mem s) m'); [lia | lia | exact W]|].
  apply Forall2_same_length_lookup in F as [Hlen F]. apply Forall2_same_length_lookup. split; [exact Hlen|]. intros i p a Hp Ha.
  assert ((p, a) ∈ zip (arg_addrs top argv) argv) as Hin by (apply list_elem_of_lookup; exists i; by rewrite lookup_zip_with, Hp, Ha).
  apply arg_addrs_above in Hin as [Hin1 Hin2]. eapply stored_same; [exact Sm | right; lia | by eapply F].
Qed.

(** [exec_stack] on an image of [top] bytes with two fresh pages at its end: it takes the user's
    access to the first from them and, if the arguments have room in the second, leaves there what
    [main] expects.  The bytes outside the stack page stay. *)
Lemma exec_stack_as s pd A free rest top p (argv : list (list Z)) : space_inv s pd A free rest -> top mod 4096 = 0 -> 8192 <= top <= KERNBASE ->
  (forall j, 0 <= j < top / 4096 -> is_Some (as_map A !! j)) -> as_map A !! (top / 4096 - 1) = Some (p, 7) ->
  Forall (fun a => Forall is_byte a /\ zlen a < top - 4096) argv ->
  let A' := guard (top / 4096 - 2) A in
  exists m', exec_stack pd top argv s = Ret (if stack_fits argv then Some (top - args_room argv) else None) (set_k_mem m' s) /\
    space_inv (set_k_mem m' s) pd A' free rest /\ untouched (owned pd A) (k_mem s) m' /\
    (stack_fits argv = true -> main_frame A' m' (top - args_room argv) argv /\ user_same A (top - 4096) top (k_mem s) m').
Proof.
  intros V Ht Hk Hm Hs Ha A'. set (q := top / 4096 - 2). destruct (Hm q ltac:(unfold q; zlia)) as [[pg fl] Hg].
  destruct (clearpteu_as s pd A free rest q pg fl V) as (m1 & E1 & V1 & U1); [change UPAGES with 524288; unfold q, KERNBASE in *; zlia | done |].
  assert (stack_at A' top) as St by (by eapply stack_made; [apply V|..]).
  unfold exec_stack. replace (u32 (top - 2 * PGSIZE)) with (4096 * q) by (unfold q, PGSIZE, KERNBASE in *; zlia).
  rewrite (bind_Ret _ _ _ _ _ E1).
  destruct (push_args_as pd A' free rest top argv St Ha (set_k_mem m1 s) top 0 V1) as (m2 & E2 & V2 & U2 & H2); [lia | zlia | by vm_compute |].
  rewrite (bind_Ret _ _ _ _ _ E2). unfold args_fit, stack_fits in *. rewrite Z.add_0_l in *. cbn [k_mem set_k_mem] in *.
  assert (untouched (owned pd A) (k_mem s) m2) as U.
  { eapply untouched_trans; eapply untouched_mono; [|exact U1| |exact U2].
    - intros x Hx. rewrite owned_perm. apply elem_of_app. by left.
    - intros x Hx. rewrite <- (owned_guard pd q A), owned_perm. apply elem_of_app. by right. }
  pose proof (arg_bytes_nonneg argv) as Hnn. assert (0 <= zlen argv) as Hz by (unfold zlen; lia).
  destruct (Z.leb_spec (zlen argv) (Z.of_nat MAXARG)) as [Hc|Hc]; cbn [andb] in *; [|exists m2; by split_and!].
  destruct (Z.leb_spec (top - 4096) (top - arg_bytes argv)) as [Hb|Hb].
  2:{ exists m2. rewrite (proj2 (Z.leb_gt (args_room argv) 4096)) by (unfold args_room; lia). by split_and!. }
  destruct (H2 eq_refl) as [S2 F2].
  destruct (push_block (set_k_mem m2 s) pd A' free rest top argv V2 St Hc Hb F2) as (r & m3 & E3 & V3 & U3 & C3). cbv zeta. cbn [k_mem set_k_mem] in *.
  replace (u32 (top - arg_bytes argv - (3 + zlen argv + 1) * 4)) with (top - args_room argv)
    by (change (Z.of_nat MAXARG) with 32 in Hc; unfold args_room, KERNBASE in *; rewrite u32_small; lia).
  replace (u32 (top - arg_bytes argv - (zlen argv + 1) * 4)) with (top - args_room argv + 12)
    by (change (Z.of_nat MAXARG) with 32 in Hc; unfold args_room, KERNBASE in *; rewrite u32_small; lia).
  rewrite (bind_Ret _ _ _ _ _ E3). exists m3.
  assert (untouched (owned pd A) (k_mem s) m3) as U'.
  { eapply untouched_trans; [exact U|]. eapply untouched_mono; [|exact U3]. intros x Hx. rewrite <- (owned_guard pd q A), owned_perm. apply elem_of_app. by right. }
  destruct (args_room argv <=? 4096) eqn:Er; [|rewrite C3; by split_and!]. destruct C3 as (-> & C1 & C2).
  split_and!; [done | done | done |]. intros _. split; [exact C1|].
  apply Z.leb_le in Er. intros x Hx Hn. rewrite <- (ubyte_guard q A m3 x). change (guard q A) with A'.
  rewrite C2 by (unfold args_room in *; lia). rewrite S2 by (unfold args_room in *; lia). change A' with (guard q A). rewrite ubyte_guard.
  eapply ubyte_kept; [exact V | | exact Hx]. eapply untouched_mono; [|exact U1]. intros y Hy. apply elem_of_app. by left.
Qed.

(** ** The exchange of images *)

(** Writes to pages that an address space does not own. *)
Lemma space_beside s pd A free rest s' free' rest' X : space_inv s pd A free rest -> kmem_inv s' free' ->
  untouched X (k_mem s) (k_mem s') -> Forall (fun p => p mod 4096 = 0) X -> (forall p, p ∈ X -> p ∉ owned pd A) -> free ++ rest ≡ₚ free' ++ rest' ->
  space_inv s' pd A free' rest'.
Proof.
  intros V K U Hx Hd P. pose proof (meta_aligned _ _ _ _ _ V) as Hm. destruct V as [_ R O N]. split; [done | | done | by rewrite <- P].
  eapply rep_ext; [exact R|]. intros t k Ht Hk. apply (untouched_word X); try done.
  - by apply (proj1 (Forall_forall _ _) Hm).
  - intros HX. apply (Hd _ HX). rewrite owned_perm. apply elem_of_app. by left.
Qed.

Lemma ubyte_beside pd A m m' x X : sane pd A -> untouched X m m' -> Forall (fun p => p mod 4096 = 0) X -> (forall p, p ∈ X -> p ∉ owned pd A) ->
  0 <= x < KERNBASE -> ubyte A m' x = ubyte A m x.
Proof.
  intros Sn U Hx Hd Hr. unfold ubyte. destruct (as_map A !! (x / 4096)) as [[p fl]|] eqn:E; [|done]. simpl. f_equal. apply U.
  assert (p ∈ owned pd A) as Hp by (eapply frame_owned; [|exact E]; change UPAGES with 524288; unfold KERNBASE in Hr; zlia).
  apply (outside_page _ p); [done | by apply (sane_align _ _ _ Sn) | | zlia]. intros HX. by apply (Hd _ HX).
Qed.

Lemma main_frame_ext A m m' sp argv : (forall x, 0 <= x < KERNBASE -> ubyte A m' x = ubyte A m x) -> main_frame A m sp argv -> main_frame A m' sp argv.
Proof.
  intros H (addrs & H1 & H2). assert (forall p l, stored A m p l -> stored A m' p l) as Hh.
  { intros p l (Ha & Hb & Hc). split_and!; [done | done |]. intros x Hx. rewrite H by lia. by apply Hc. }
  exists addrs. split; [by apply Hh|]. eapply Forall2_impl; [exact H2|]. intros p a. apply Hh.
Qed.

(** The process that runs the new image. *)
Definition execed (path : list Z) (pd sz : Z) (pr : proc) : proc :=
  set_p_sz sz (set_p_pgdir pd (set_p_name (Obj.safestrcpy (p_name pr) (Obj.cstring (last_elem path path))) pr)).

(** The state in which the kernel enters it, but for memory. *)
Definition exec_enter (cur : nat) (path : list Z) (pd sz : Z) (ks : Z) (s : kst) : kst :=
  set_k_cr3 (V2P pd) (set_k_esp0 (u32 (ks + KSTACKSIZE)) (set_k_ptable (alter (execed path pd sz) cur (k_ptable s)) s)).

(** The trap frame that returns to it. *)
Definition exec_tf (tf entry sp : Z) (m : mem) : mem := st32 (st32 m (tf + tf_eip) entry) (tf + tf_esp) sp.

Definition exec_commit (cur : nat) (pgdir sz sp : Z) (elf path : list Z) : K Z :=
  upd_proc cur (fun pr => set_p_name (Obj.safestrcpy (p_name pr) (Obj.cstring (last_elem path path))) pr) ;;
  pr <- get_proc cur ;;
  let oldpgdir := p_pgdir pr in
  upd_proc cur (set_p_pgdir pgdir) ;;
  upd_proc cur (set_p_sz sz) ;;
  store32 (p_tf pr + tf_eip) (elf_entry elf) ;;
  store32 (p_tf pr + tf_esp) sp ;;
  switchuvm (Some cur) ;;
  freevm oldpgdir ;;
  ret 0.

Lemma exec_commit_eq s cur pr pd sz sp elf path : k_ptable s !! cur = Some pr -> p_kstack pr <> 0 -> pd <> 0 ->
  exec_commit cur pd sz sp elf path s =
    (freevm (p_pgdir pr) ;; ret 0) (exec_enter cur path pd sz (p_kstack pr) (set_k_mem (exec_tf (p_tf pr) (elf_entry elf) sp (k_mem s)) s)).
Proof.
  intros Hp Hk Hd. pose proof (lookup_lt_Some _ _ _ Hp) as Hlt. unfold exec_commit, store32. rewrite bind_upd_proc by done.
  erewrite (bind_Ret (get_proc _)) by (apply get_proc_eq; cbn [k_ptable set_k_ptable]; rewrite list_lookup_alter_eq, Hp; reflexivity). cbv zeta.
  rewrite !bind_upd_proc by (cbn [k_ptable set_k_ptable]; rewrite !length_alter; done). rewrite !bind_upd_mem.
  unfold switchuvm. erewrite (bind_Ret (bind _ _)); [|erewrite (bind_Ret (get_proc _)) by (apply get_proc_eq; cbn [k_ptable set_k_ptable set_k_mem]; rewrite !list_lookup_alter_eq, Hp; reflexivity);
    cbn [set_p_sz set_p_pgdir set_p_name p_kstack p_pgdir fmap option_fmap option_map]; rewrite (proj2 (Z.eqb_neq _ 0) Hk), (proj2 (Z.eqb_neq _ 0) Hd); reflexivity].
  unfold exec_enter. cbn [k_ptable set_k_mem set_k_ptable]. rewrite !alter_alter. reflexivity.
Qed.

(** The process [cur] has the memory [A0]; [exec] has loaded [sz] bytes of the program into [A].  The
    pages of [rest] have other owners, the kernel stack of the process among them. *)
Record execable (s : kst) (cur : nat) (pr : proc) (A0 : aspace) (pd : Z) (A : aspace) (sz : Z) (free rest : list Z) : Prop := {
  xe_runs : runs s cur pr;
  xe_old : space_inv s (p_pgdir pr) A0 free (owned pd A ++ rest);
  xe_new : space_inv s pd A free (owned (p_pgdir pr) A0 ++ rest);
  xe_alloc : can_alloc s;
  xe_image : image A sz;
  xe_size : 0 <= sz < KERNBASE;
  xe_stack : p_kstack pr ∈ rest /\ page_ok (p_kstack pr) /\ p_tf pr = p_kstack pr + KSTACKSIZE - TF_SIZE
}.

Section images.
Variables (s : kst) (cur : nat) (pr : proc) (A0 : aspace) (pd : Z) (A : aspace) (sz : Z) (free rest : list Z).
Hypothesis X : execable s cur pr A0 pd A sz free rest.

(** A later state in which the new address space is [A1]. *)
Definition exec_moved (s1 : kst) (A1 : aspace) (free1 : list Z) : Prop :=
  moved s pd A free (owned (p_pgdir pr) A0 ++ rest) s1 A1 free1 /\ untouched (owned pd A ++ free) (k_mem s) (k_mem s1).

Lemma new_pages_aligned : Forall (fun p => p mod 4096 = 0) (owned pd A ++ free).
Proof.
  destruct X as [_ _ V _ _ _ _]. apply Forall_app. split; [|apply (free_aligned s), V].
  eapply Forall_impl; [apply V|]. intros p Hp. by apply ok_range.
Qed.

Lemma new_pages_apart p : p ∈ owned pd A ++ free -> p ∉ owned (p_pgdir pr) A0.
Proof.
  destruct X as [_ [_ _ _ N] _ _ _ _ _]. apply NoDup_app in N as (_ & N & _). intros Hp Ho. apply (N p Ho).
  apply elem_of_app in Hp as [Hp|Hp]; rewrite !elem_of_app; auto.
Qed.

(** [bad]: the new memory goes back to the free list, the old stays. *)
Lemma exec_bad_as s1 A1 free1 : exec_moved s1 A1 free1 ->
  exists s' free', (when (negb (pd =? 0)) (freevm pd) ;; ret (-1)) s1 = Ret (-1) s' /\ can_alloc s' /\ same_rest s s' /\
    space_inv s' (p_pgdir pr) A0 free' rest /\ free' ≡ₚ owned pd A ++ free /\
    forall x, 0 <= x < KERNBASE -> ubyte A0 (k_mem s') x = ubyte A0 (k_mem s) x.
Proof.
  intros [[V1 C1 R1 P1] U1]. destruct (freevm_as s1 pd A1 free1 _ V1 C1) as (s' & free' & E & C' & R' & K' & P' & U').
  assert (pd ∈ owned pd A1) as Hpd by (rewrite owned_perm; left). apply (sane_align _ _ _ (si_sane _ _ _ _ _ V1)) in Hpd.
  rewrite (proj2 (Z.eqb_neq pd 0)) by (unfold KERNBASE in *; lia). cbn [negb when].
  exists s', free'. rewrite P1 in P'. assert (untouched (owned pd A ++ free) (k_mem s) (k_mem s')) as U.
  { eapply untouched_trans; [exact U1|]. eapply untouched_mono; [|exact U']. intros p. by rewrite P'. }
  split_and!; [|done|by eapply same_rest_trans| |done|].
  - unfold when. by rewrite (bind_Ret _ _ _ _ _ E).
  - eapply space_beside; [apply X | done | exact U | apply new_pages_aligned | apply new_pages_apart |]. rewrite P'. solve_Permutation.
  - intros x Hx. eapply ubyte_beside; [eapply si_sane, (xe_old _ _ _ _ _ _ _ _ _ X) | exact U | apply new_pages_aligned | apply new_pages_apart | exact Hx].
Qed.

(** The kernel stack is a page apart. *)
Lemma kstack_apart s1 A1 free1 : exec_moved s1 A1 free1 -> p_kstack pr ∉ owned pd A1 /\ p_kstack pr ∉ free1 /\ p_kstack pr ∉ owned (p_pgdir pr) A0 /\ p_kstack pr ∉ owned pd A ++ free.
Proof.
  intros [[[_ _ _ N1] _ _ P1] _]. destruct X as [_ _ _ _ _ _ (Hk & _)].
  assert (NoDup (owned pd A1 ++ free1 ++ owned (p_pgdir pr) A0 ++ rest)) as N by exact N1.
  assert (p_kstack pr ∉ owned pd A1 ++ free1 ++ owned (p_pgdir pr) A0) as H.
  { rewrite !app_assoc in N. apply NoDup_app in N as (_ & N & _). intros Hin. rewrite app_assoc in Hin. by apply (N _ Hin). }
  rewrite !not_elem_of_app in H. destruct H as (H1 & H2 & H3). split_and!; [done..|]. rewrite <- P1, not_elem_of_app. done.
Qed.

Lemma exec_tf_page e sp m : untouched [p_kstack pr] m (exec_tf (p_tf pr) e sp m) /\ (mem_wf m -> mem_wf (exec_tf (p_tf pr) e sp m)).
Proof.
  destruct (xe_stack _ _ _ _ _ _ _ _ _ X) as (_ & _ & ->). unfold exec_tf, KSTACKSIZE, TF_SIZE, tf_eip, tf_esp. split.
  - eapply untouched_trans; apply untouched_st32; lia.
  - intros H. by apply st32_wf, st32_wf.
Qed.

(** The state at the entry of [freevm]. *)
Definition entered (e top sp : Z) (path : list Z) (s2 : kst) : kst :=
  exec_enter cur path pd top (p_kstack pr) (set_k_mem (exec_tf (p_tf pr) e sp (k_mem s2)) s2).

Lemma entered_old s2 A2 free2 e top sp path : exec_moved s2 A2 free2 ->
  space_inv (entered e top sp path s2) (p_pgdir pr) A0 free2 (owned pd A2 ++ rest) /\ can_alloc (entered e top sp path s2).
Proof.
  intros M. destruct (kstack_apart _ _ _ M) as (H1 & H2 & H3 & H4). destruct M as [[V2 C2 R2 P2] U2].
  destruct (exec_tf_page e sp (k_mem s2)) as [Ut Wt]. pose proof (si_kmem _ _ _ _ _ V2) as K2. split.
  - assert (kmem_inv (set_k_mem (exec_tf (p_tf pr) e sp (k_mem s2)) s2) free2) as K.
    { apply kmem_write; [done | apply Wt, K2 |]. intros p x Hp Hx. symmetry. apply Ut. intros q ->%list_elem_of_singleton.
      assert (p <> p_kstack pr) by congruence. pose proof (proj1 (Forall_forall _ _) (free_aligned _ _ K2) _ Hp) as Ha.
      destruct (ok_range _ (proj1 (proj2 (xe_stack _ _ _ _ _ _ _ _ _ X)))) as [Hb _]. cbv beta in Ha. zlia. }
    eapply (space_beside s _ A0 free _ _ _ _ (p_kstack pr :: owned pd A ++ free)); [apply X | | | | |].
    + destruct K as [K1 K3 K4 K5]. split; done.
    + eapply untouched_trans; eapply untouched_mono; [|exact U2| |exact Ut]; [by right | intros p ->%list_elem_of_singleton; left].
    + constructor; [by apply ok_range, X | apply new_pages_aligned].
    + intros p [->|Hp]%elem_of_cons; [done | by apply new_pages_apart].
    + transitivity ((owned pd A ++ free) ++ rest); [solve_Permutation|]. rewrite <- P2. solve_Permutation.
  - eapply can_alloc_ext; [exact C2 | | done | done | done]. unfold cur_cont. cbn [entered exec_enter k_cur k_userinited k_ptable set_k_cr3 set_k_esp0 set_k_ptable set_k_mem].
    destruct (same_rest_runs _ _ _ _ R2 (xe_runs _ _ _ _ _ _ _ _ _ X)) as [-> Hp]. simpl. by rewrite list_lookup_alter_eq, Hp.
Qed.

Lemma same_rest_enter path top ks s1 s2 : same_rest s1 s2 -> same_rest (exec_enter cur path pd top ks s1) (exec_enter cur path pd top ks s2).
Proof. intros (m & fl & ct & lg & -> & E). by exists m, fl, ct, lg. Qed.

Lemma exec_tf_kept F e sp m m' : untouched F (exec_tf (p_tf pr) e sp m) m' -> Forall (fun p => p mod 4096 = 0) F -> p_kstack pr ∉ F ->
  ld32 m' (p_tf pr + tf_eip) = u32 e /\ ld32 m' (p_tf pr + tf_esp) = u32 sp.
Proof.
  intros U Ha Hn. destruct (xe_stack _ _ _ _ _ _ _ _ _ X) as (_ & Hok & Etf). apply ok_range in Hok as [Hk _].
  replace (p_tf pr + tf_eip) with (p_kstack pr + 4 * 1019) by (rewrite Etf; unfold KSTACKSIZE, TF_SIZE, tf_eip; lia).
  replace (p_tf pr + tf_esp) with (p_kstack pr + 4 * 1022) by (rewrite Etf; unfold KSTACKSIZE, TF_SIZE, tf_esp; lia).
  rewrite !(untouched_word F _ _ _ _ U Ha Hk Hn) by lia. unfold exec_tf, tf_eip, tf_esp. rewrite Etf. unfold KSTACKSIZE, TF_SIZE. split.
  - rewrite ld32_st32_ne by lia. replace (p_kstack pr + 4 * 1019) with (p_kstack pr + 4096 - 76 + 56) by lia. apply ld32_st32.
  - replace (p_kstack pr + 4 * 1022) with (p_kstack pr + 4096 - 76 + 68) by lia. apply ld32_st32.
Qed.

(** The change to the new image: the old memory goes to the free list. *)
Lemma exec_commit_as s2 A2 free2 top sp elf path : exec_moved s2 A2 free2 -> 0 <= sp < KERNBASE ->
  exists s' free', exec_commit cur pd top sp elf path s2 = Ret 0 s' /\ can_alloc s' /\
    same_rest (exec_enter cur path pd top (p_kstack pr) s) s' /\
    space_inv s' pd A2 free' rest /\ owned pd A2 ++ free' ≡ₚ owned pd A ++ owned (p_pgdir pr) A0 ++ free /\
    ld32 (k_mem s') (p_tf pr + tf_eip) = u32 (elf_entry elf) /\ ld32 (k_mem s') (p_tf pr + tf_esp) = sp /\
    forall x, 0 <= x < KERNBASE -> ubyte A2 (k_mem s') x = ubyte A2 (k_mem s2) x.
Proof.
  intros M Hsp. destruct (kstack_apart _ _ _ M) as (H1 & H2 & H3 & H4). pose proof M as [[V2 C2 R2 P2] U2].
  destruct (entered_old s2 A2 free2 (elf_entry elf) top sp path M) as [V3 C3]. destruct (exec_tf_page (elf_entry elf) sp (k_mem s2)) as [Ut _].
  destruct (xe_stack _ _ _ _ _ _ _ _ _ X) as (_ & Hok & Etf). apply ok_range in Hok as [Hka Hkr].
  destruct (same_rest_runs _ _ _ _ R2 (xe_runs _ _ _ _ _ _ _ _ _ X)) as [_ Hpt].
  assert (pd ∈ owned pd A2) as Hpd by (rewrite owned_perm; left). apply (sane_align _ _ _ (si_sane _ _ _ _ _ V2)) in Hpd.
  rewrite (exec_commit_eq s2 cur pr) by (done || unfold KERNBASE in *; lia). fold (entered (elf_entry elf) top sp path s2).
  destruct (freevm_as _ _ _ _ _ V3 C3) as (s' & free' & E & C' & R' & K' & P' & U'). rewrite (bind_Ret _ _ _ _ _ E). exists s', free'.
  set (W := p_kstack pr :: owned (p_pgdir pr) A0 ++ free2).
  assert (untouched W (k_mem s2) (k_mem s')) as U.
  { eapply untouched_trans; eapply untouched_mono; [|exact Ut| |exact U']; [intros p ->%list_elem_of_singleton; left | intros p; rewrite P'; by right]. }
  assert (Forall (fun p => p mod 4096 = 0) W) as Wa.
  { constructor; [done|]. apply Forall_app. split; [|apply (free_aligned s2), V2]. eapply Forall_impl; [apply V3|]. intros p Hp. by apply ok_range. }
  assert (forall p, p ∈ W -> p ∉ owned pd A2) as Wd.
  { intros p [->|Hp]%elem_of_cons; [done|]. intros Ho. pose proof (si_nodup _ _ _ _ _ V2) as N. apply NoDup_app in N as (_ & N & _). apply (N p Ho).
    apply elem_of_app in Hp as [Hp|Hp]; rewrite !elem_of_app; auto. }
  destruct (exec_tf_kept free' (elf_entry elf) sp (k_mem s2) (k_mem s')) as [T1 T2];
    [exact U' | by apply (free_aligned s') | rewrite P', not_elem_of_app; done |].
  split_and!; [done | done | | | | done | by rewrite T2, u32_small by (unfold KERNBASE in *; lia) |].
  - eapply same_rest_trans; [|exact R']. apply same_rest_enter. eapply same_rest_trans; [exact R2 | apply same_rest_mem].
  - eapply (space_beside s2 _ _ _ _ _ _ _ W); [exact V2 | done | exact U | exact Wa | exact Wd |]. rewrite P'. solve_Permutation.
  - rewrite P'. transitivity (owned (p_pgdir pr) A0 ++ (owned pd A2 ++ free2)); [solve_Permutation|]. rewrite P2. solve_Permutation.
  - intros x Hx. eapply ubyte_beside; [by eapply si_sane | exact U | exact Wa | exact Wd | exact Hx].
Qed.

(** What [exec] leaves once the program is loaded: the new image with its stack, or the old one. *)
Definition exec_result (elf path : list Z) (argv : list (list Z)) (r : Z) (s' : kst) : Prop :=
  let top := 4096 * npages sz + 8192 in let sp := top - args_room argv in
  (r = 0 /\ top < KERNBASE /\ stack_fits argv = true /\ same_rest (exec_enter cur path pd top (p_kstack pr) s) s' /\
   exists A' free', space_inv s' pd A' free' rest /\ owned pd A' ++ free' ≡ₚ owned pd A ++ owned (p_pgdir pr) A0 ++ free /\
     image A' top /\ stack_at A' top /\ main_frame A' (k_mem s') sp argv /\
     (forall x, 0 <= x < 4096 * npages sz -> ubyte A' (k_mem s') x = ubyte A (k_mem s) x /\ user_page A' x = user_page A x) /\
     ld32 (k_mem s') (p_tf pr + tf_eip) = u32 (elf_entry elf) /\ ld32 (k_mem s') (p_tf pr + tf_esp) = sp) \/
  (r = -1 /\ (KERNBASE <= top \/ stack_fits argv = false \/ short s free 4) /\ same_rest s s' /\
   exists free', space_inv s' (p_pgdir pr) A0 free' rest /\ free' ≡ₚ owned pd A ++ free /\
     forall x, 0 <= x < KERNBASE -> ubyte A0 (k_mem s') x = ubyte A0 (k_mem s) x).

(** Two pages for the guard and the stack. *)
Lemma exec_pages : let top := 4096 * npages sz + 8192 in
  exists r s1 A1 free1, allocuvm pd (PGROUNDUP sz) (u32 (PGROUNDUP sz + 2 * PGSIZE)) s = Ret r s1 /\ exec_moved s1 A1 free1 /\
    ((r = 0 /\ (KERNBASE <= top \/ short s free 4)) \/
     (r = top /\ top < KERNBASE /\ image A1 top /\ (exists p, as_map A1 !! (top / 4096 - 1) = Some (p, 7)) /\
      forall x, 0 <= x < 4096 * npages sz -> ubyte A1 (k_mem s1) x = ubyte A (k_mem s) x /\ user_page A1 x = user_page A x)).
Proof.
  intros top. pose proof (xe_size _ _ _ _ _ _ _ _ _ X) as Hsz. pose proof (xe_new _ _ _ _ _ _ _ _ _ X) as V. pose proof (xe_image _ _ _ _ _ _ _ _ _ X) as I.
  assert (PGROUNDUP sz = 4096 * npages sz) as -> by (rewrite PGROUNDUP_eq by klia; unfold npages; zlia).
  assert (0 <= npages sz <= 524288) as Hn by (unfold npages, KERNBASE in *; zlia).
  rewrite u32_small by (unfold PGSIZE; lia). change (4096 * npages sz + 2 * PGSIZE) with top.
  assert ((4096 * npages sz + 4095) / 4096 = npages sz) as Elo by zlia. assert ((top + 4095) / 4096 = npages sz + 2) as Ehi by (unfold top; zlia).
  destruct (Z.leb_spec KERNBASE top) as [Hk|Hk].
  { exists 0, s, A, free. split_and!; [unfold allocuvm; by rewrite (proj2 (Z.leb_le _ _) Hk) | | by auto].
    split; [apply moved_refl; [done | apply X] | apply untouched_refl]. }
  assert (npages sz + 2 < UPAGES) as Hu by (change UPAGES with 524288; unfold top, KERNBASE in Hk; lia).
  destruct (allocuvm_as s pd A free _ (4096 * npages sz) top V (xe_alloc _ _ _ _ _ _ _ _ _ X)) as (r & s1 & A1 & free1 & E & M & U & H);
    [lia | intros j Hj; rewrite Elo, Ehi in Hj; apply eq_None_not_Some; intros Hs; apply I in Hs; lia |].
  rewrite (proj2 (Z.leb_gt _ _) Hk), (proj2 (Z.ltb_ge _ _)), Elo, Ehi in H by (unfold top; lia).
  exists r, s1, A1, free1. split_and!; [exact E | |].
  { split; [exact M|]. eapply untouched_mono; [|exact U]. intros p. rewrite owned_perm, !elem_of_app. tauto. }
  destruct H as [(-> & F & _)|(-> & _ & H)]; [right|left; replace (npages sz + 2 - npages sz) with 2 in H by lia; by auto].
  assert (npages top = npages sz + 2) as Et by exact Ehi. split_and!; [done | done | | |].
  - intros j Hj. rewrite Et. destruct (decide (npages sz <= j < npages sz + 2)) as [Hin|Hout].
    + destruct (fr_new _ _ _ _ _ _ F j Hin) as (q & -> & _). split; [lia | by eauto].
    + rewrite (fr_old _ _ _ _ _ _ F j Hout), (I j Hj). lia.
  - destruct (fr_new _ _ _ _ _ _ F (npages sz + 1)) as (q & Hq & _); [lia|]. exists q. by replace (top / 4096 - 1) with (npages sz + 1) by (unfold top; zlia).
  - intros x Hx. assert (as_map A1 !! (x / 4096) = as_map A !! (x / 4096)) as Ex by (apply F; zlia). unfold user_page. rewrite Ex. split; [|done].
    transitivity (ubyte A (k_mem s1) x); [unfold ubyte; by rewrite Ex|]. eapply ubyte_kept; [exact V | exact U | unfold top in Hk; lia].
Qed.

(** The new stack, in the two pages. *)
Lemma exec_stack_moved s1 A1 free1 argv p : let top := 4096 * npages sz + 8192 in let A2 := guard (top / 4096 - 2) A1 in
  exec_moved s1 A1 free1 -> top < KERNBASE -> image A1 top -> as_map A1 !! (top / 4096 - 1) = Some (p, 7) ->
  Forall (fun a => Forall is_byte a /\ zlen a < top - 4096) argv ->
  exists s2, exec_stack pd top argv s1 = Ret (if stack_fits argv then Some (top - args_room argv) else None) s2 /\
    exec_moved s2 A2 free1 /\ image A2 top /\ stack_at A2 top /\
    (stack_fits argv = true -> main_frame A2 (k_mem s2) (top - args_room argv) argv /\ user_same A1 (top - 4096) top (k_mem s1) (k_mem s2)).
Proof.
  intros top A2 [[V1 C1 R1 P1] U1] Hk I Hp Ha. assert (0 <= npages sz) as Hn by (pose proof (xe_size _ _ _ _ _ _ _ _ _ X); unfold npages; zlia).
  assert (npages top = top / 4096) as En by (unfold npages, top; zlia).
  assert (forall j, 0 <= j < top / 4096 -> is_Some (as_map A1 !! j)) as Hm.
  { intros j Hj. apply I; [change UPAGES with 524288; unfold KERNBASE in Hk; zlia | lia]. }
  destruct (exec_stack_as s1 pd A1 free1 _ top p argv V1) as (m2 & E2 & V2 & U2 & H2); [unfold top; zlia | unfold top in *; lia | done | done | done |].
  fold A2 in V2, H2. exists (set_k_mem m2 s1). split_and!; [exact E2 | | | |exact H2].
  - split; [split; [exact V2 | by apply can_alloc_mem | eapply same_rest_trans; [exact R1 | apply same_rest_mem] |]|].
    + unfold A2. rewrite owned_guard. exact P1.
    + eapply untouched_trans; [exact U1|]. eapply untouched_mono; [|exact U2]. intros q Hq. rewrite <- P1. apply elem_of_app. by left.
  - intros j Hj. rewrite <- (I j Hj). unfold A2, guard. cbn [as_map]. destruct (decide (top / 4096 - 2 = j)) as [<-|Hne]; [|by rewrite lookup_alter_ne].
    rewrite lookup_alter_eq. by rewrite fmap_is_Some.
  - eapply stack_made; [apply V1 | unfold top; zlia | unfold top in *; lia | done | done].
Qed.

Lemma user_page_guard q x : q <> x / 4096 -> forall A1, user_page (guard q A1) x = user_page A1 x.
Proof. intros Hq A1. unfold user_page, guard. cbn [as_map]. by rewrite lookup_alter_ne. Qed.

Lemma exec_image_as elf path argv : Forall (fun a => Forall is_byte a /\ zlen a < 4096 * npages sz + 4096) argv ->
  exists r s', exec_image cur pd sz elf path argv s = Ret r s' /\ can_alloc s' /\ exec_result elf path argv r s'.
Proof.
  intros Ha. pose proof (xe_size _ _ _ _ _ _ _ _ _ X) as Hsz. assert (0 <= npages sz) as Hn by (unfold npages; zlia).
  unfold exec_image, exec_result. cbv zeta. set (top := 4096 * npages sz + 8192).
  destruct exec_pages as (r & s1 & A1 & free1 & E1 & M1 & H1). fold top in H1. rewrite (bind_Ret _ _ _ _ _ E1).
  destruct H1 as [(-> & H1)|(-> & Hk & I1 & [p Hp] & Hb)].
  { destruct (exec_bad_as _ _ _ M1) as (s' & free' & E & C & R & V & P & B). exists (-1), s'. split_and!; [exact E | exact C | right].
    split_and!; [done | tauto | done | eauto]. }
  rewrite (proj2 (Z.eqb_neq top 0)) by (unfold top; lia).
  destruct (exec_stack_moved s1 A1 free1 argv p M1 Hk I1 Hp) as (s2 & E2 & M2 & I2 & St & H2); [eapply Forall_impl; [exact Ha|]; intros a [? ?]; split; [done | lia]|].
  fold top in E2, M2, I2, St, H2. rewrite (bind_Ret _ _ _ _ _ E2). destruct (stack_fits argv) eqn:Ef.
  - fold (exec_commit cur pd top (top - args_room argv) elf path). destruct (H2 eq_refl) as [F2 S2].
    assert (0 <= top - args_room argv < KERNBASE) as Hsp by (destruct F2 as (addrs & (Ha1 & Ha2 & _) & _); pose proof (arg_bytes_nonneg argv); unfold args_room, zlen in *; lia).
    destruct (exec_commit_as s2 _ free1 top (top - args_room argv) elf path M2 Hsp) as (s' & free' & E & C & R & V & P & T1 & T2 & B).
    exists 0, s'. split_and!; [exact E | exact C | left]. split_and!; [done | done | done | exact R |]. eexists _, free'.
    split_and!; [exact V | exact P | exact I2 | exact St | by eapply main_frame_ext | | exact T1 | exact T2].
    intros x Hx. destruct (Hb x Hx) as [Hb1 Hb2]. rewrite user_page_guard by (unfold top; zlia). split; [|exact Hb2].
    rewrite B by (unfold top in *; lia). rewrite ubyte_guard, S2 by (unfold top in *; lia). exact Hb1.
  - destruct (exec_bad_as _ _ _ M2) as (s' & free' & E & C & R & V & P & B). exists (-1), s'. split_and!; [exact E | exact C | right].
    split_and!; [done | tauto | done | eauto].
Qed.
End images.
End execmem.
