(* ===== verification/ExecLoad.v ===== *)
(** * Loading a program

    [loaduvm] (vm.c) and the loop over the program headers in [exec] (exec.c): the bytes of an
    ELF file in the address space of AddrSpace.v.  What the loader needs of the file system is
    the class [FileReads]; Inode.v discharges it for an open file inside a transaction. *)

From S2P Require Import Prelude Monad CString KState Sched Kalloc Bio Log Fs Inode Path Vm Paging AddrSpace Uvm Pipe File Proc Isolation ProcMem Fork Exec ExecMem.

Local Open Scope kernel_scope.

(** ** Files as the loader sees them *)

(** What a read of [n] bytes at [off] returns of a file with the bytes [data]. *)
Definition file_read (data : list Z) (off n : Z) : Z * list Z :=
  if (zlen data <? off) || (4294967296 <=? off + n) then (-1, [])
  else let m := Z.min n (zlen data - off) in (m, take (Z.to_nat m) (drop (Z.to_nat off) data)).

(** In the states [I] the inode [ip] is a file with the bytes [data], and reading it changes
    nothing but the buffer cache; the states are closed under what the allocator does. *)
Class FileReads `{DW : Devsw} (ip : nat) (data : list Z) (I : kst -> Prop) : Prop := {
  fr_readi s off n : I s -> 0 <= off < 4294967296 -> 0 <= n < 4294967296 ->
    exists b, readi ip off n s = Ret (file_read data off n) (set_k_bufs b s) /\ I (set_k_bufs b s);
  fr_rest s s' : I s -> same_rest s s' -> I s';
  fr_bytes : Forall is_byte data;
  fr_size : zlen data < 2147483648
}.

(** The state apart from memory, the allocator's bookkeeping and the buffer cache. *)
Definition load_rest (s s' : kst) : Prop := exists b, same_rest (set_k_bufs b s) s'.

Lemma load_rest_same s s' : same_rest s s' -> load_rest s s'.
Proof. intros H. exists (k_bufs s). by destruct s. Qed.

Lemma load_rest_bufs s b m : load_rest s (set_k_mem m (set_k_bufs b s)).
Proof. exists b. apply same_rest_mem. Qed.

Lemma load_rest_trans s1 s2 s3 : load_rest s1 s2 -> load_rest s2 s3 -> load_rest s1 s3.
Proof.
  intros (b & m & fl & ct & lg & -> & E1) (b' & m' & fl' & ct' & lg' & -> & E2). exists b', m', fl', ct', lg'. split; [done|].
  by rewrite E2.
Qed.

Lemma file_read_full data off n : 0 <= off -> 0 < n -> 0 <= n <= 4096 -> zlen data < 2147483648 ->
  let r := file_read data off n in
  zlen r.2 <= n /\ (u32 r.1 =? n) = (off + n <=? zlen data) /\
  (off + n <= zlen data -> r.2 = take (Z.to_nat n) (drop (Z.to_nat off) data)).
Proof.
  intros Ho Hn Hm Hs. unfold file_read. assert (0 <= zlen data) as H0 by (unfold zlen; lia).
  destruct (Z.ltb_spec (zlen data) off) as [H1|H1]; [|destruct (Z.leb_spec 4294967296 (off + n)) as [H2|H2]]; cbn [orb fst snd].
  1,2: change (u32 (-1)) with 4294967295; split_and!; [unfold zlen; simpl; lia | | lia];
    destruct (Z.eqb_spec 4294967295 n), (Z.leb_spec (off + n) (zlen data)); lia.
  set (m := Z.min n (zlen data - off)). assert (0 <= m < 4294967296) as Hm' by (unfold m; lia). rewrite u32_small by done. split_and!.
  - unfold zlen in *. rewrite length_take. lia.
  - destruct (Z.eqb_spec m n), (Z.leb_spec (off + n) (zlen data)); unfold m in *; lia.
  - intros Hf. f_equal. f_equal. unfold m. lia.
Qed.

Section load.
Context `{LK : Linked} `{DW : Devsw} {ip : nat} {data : list Z} {I : kst -> Prop} `{FR : !FileReads ip data I}.

(** ** [loaduvm] *)

Definition loaduvm_step (pgdir addr offset sz : Z) : Z -> K (Z + Z) := fun i =>
    if i <? sz then
      pte <- walkpgdir pgdir (u32 (addr + i)) false ;;
      if pte =? 0 then panic "loaduvm: address should exist" else
      e <- load32 pte ;;
      let pa := PTE_ADDR e in
      let n := if sz - i <? PGSIZE then sz - i else PGSIZE in
      ' (r, data) <- readi ip (u32 (offset + i)) n ;;
      upd_mem (fun m => put_bytes m (P2V pa) data) ;;
      if negb (u32 r =? n) then ret (inr (-1)) else ret (inl (u32 (i + PGSIZE)))
    else ret (inr 0).

Lemma loaduvm_loop pd addr offset sz : addr mod 4096 = 0 ->
  loaduvm pd addr ip offset sz = loop (S (S (Z.to_nat (sz / PGSIZE)))) (loaduvm_step pd addr offset sz) 0.
Proof. intros H. unfold loaduvm. change PGSIZE with 4096 at 1. by rewrite H. Qed.

Lemma walk_page s pd A va p fl : rep (k_mem s) pd A -> sane pd A -> 0 <= va < KERNBASE -> as_map A !! (va / 4096) = Some (p, fl) ->
  exists pte, walkpgdir pd va false s = Ret pte s /\ pte <> 0 /\ P2V (PTE_ADDR (ld32 (k_mem s) pte)) = p.
Proof.
  intros R Sn Hva E. destruct (rep_flags _ _ _ _ _ _ R E) as (t & Ht & _ & -> & _). rewrite (walk_look s pd A va R).
  assert (PDX va = va / 4096 / 1024) as -> by (rewrite PDX_eq, u32_small by (unfold KERNBASE in *; lia); zlia). rewrite Ht.
  assert (PTX va = va / 4096 mod 1024) as -> by (rewrite PTX_eq, u32_small by (unfold KERNBASE in *; lia); done).
  eexists. split_and!; [done | | done]. destruct (sane_align _ _ t Sn (proj2 (table_owned pd _ _ _ Ht))). unfold KERNBASE in *. zlia.
Qed.

(** One turn of the loop. *)
Lemma load_turn s pd A free rest addr offset sz i p fl : let n := Z.min (sz - i) 4096 in
  space_inv s pd A free rest -> I s -> addr mod 4096 = 0 -> 0 <= addr -> addr + sz <= KERNBASE -> 0 <= i < sz -> i mod 4096 = 0 -> 0 <= offset + i < 4294967296 ->
  as_map A !! ((addr + i) / 4096) = Some (p, fl) ->
  exists b m', loaduvm_step pd addr offset sz i s =
      Ret (if offset + i + n <=? zlen data then inl (i + 4096) else inr (-1)) (set_k_mem m' (set_k_bufs b s)) /\
    I (set_k_mem m' (set_k_bufs b s)) /\ space_inv (set_k_mem m' (set_k_bufs b s)) pd A free rest /\ untouched (uframes A) (k_mem s) m' /\
    (offset + i + n <= zlen data -> written A (addr + i) (take (Z.to_nat n) (drop (Z.to_nat (offset + i)) data)) (k_mem s) m').
Proof.
  intros n V Is Ha Ha0 Hk Hi Hi4 Ho E. pose proof (si_sane _ _ _ _ _ V) as Sn. unfold loaduvm_step. rewrite (proj2 (Z.ltb_lt _ _) (proj2 Hi)).
  rewrite !u32_small by (unfold KERNBASE, PGSIZE in *; zlia).
  destruct (walk_page s pd A (addr + i) p fl (si_rep _ _ _ _ _ V) Sn ltac:(lia) E) as (pte & Ew & Hz & Ep).
  rewrite (bind_Ret _ _ _ _ _ Ew), (proj2 (Z.eqb_neq _ 0) Hz). unfold load32. rewrite bind_gets. cbv zeta. rewrite Ep.
  replace (if sz - i <? PGSIZE then sz - i else PGSIZE) with n by (unfold n, PGSIZE; destruct (Z.ltb_spec (sz - i) 4096); lia).
  destruct (fr_readi s (offset + i) n Is Ho ltac:(unfold n; lia)) as (b & Er & Ib). rewrite (bind_Ret _ _ _ _ _ Er).
  destruct (file_read_full data (offset + i) n (proj1 Ho) ltac:(unfold n; lia) ltac:(unfold n; lia) fr_size) as (F1 & F2 & F3).
  assert (Forall is_byte (file_read data (offset + i) n).2) as Fb.
  { unfold file_read. destruct (_ || _); [constructor|]. apply Forall_take, Forall_drop, fr_bytes. }
  destruct (file_read data (offset + i) n) as [r dat]. cbn [fst snd] in *. rewrite bind_upd_mem, F2. cbn [k_mem set_k_bufs].
  assert ((addr + i) mod 4096 = 0) as Hp0 by zlia.
  destruct (written_page pd A (addr + i) p fl dat (k_mem s) Sn ltac:(lia) E) as [W U]; [unfold n in *; lia|]. rewrite Hp0, Z.add_0_r in W, U.
  assert (untouched (uframes A) (k_mem s) (put_bytes (k_mem s) p dat)) as U'.
  { eapply untouched_mono; [|exact U]. intros q ->%list_elem_of_singleton. apply elem_of_uframes. eexists _, fl. split; [|exact E].
    change UPAGES with 524288. unfold KERNBASE in *. zlia. }
  exists b, (put_bytes (k_mem s) p dat). split_and!; [by destruct (_ <=? _) | eapply fr_rest; [exact Ib | apply same_rest_mem] | | exact U' |].
  - apply (space_user (set_k_bufs b s)); [by eapply space_ext | apply put_bytes_wf; [apply V | exact Fb] | exact U'].
  - intros Hf. by rewrite <- F3.
Qed.

(** The bytes of a segment, and whether the file has them. *)
Definition segment (offset sz : Z) : list Z := take (Z.to_nat sz) (drop (Z.to_nat offset) data).
Definition in_file (offset sz : Z) : bool := (sz <=? 0) || (offset + sz <=? zlen data).

Lemma segment_split offset sz n : 0 <= offset -> 0 <= n <= sz ->
  segment offset sz = segment offset n ++ segment (offset + n) (sz - n).
Proof.
  intros H1 H2. unfold segment. rewrite (Z2Nat.inj_add offset) by lia. rewrite <- drop_drop, take_take_drop. f_equal. lia.
Qed.

Lemma segment_length offset sz : 0 <= offset -> 0 <= sz -> offset + sz <= zlen data -> zlen (segment offset sz) = sz.
Proof. intros H1 H2 H3. unfold segment, zlen in *. rewrite length_take, length_drop. lia. Qed.

Lemma load_loop pd A free rest addr offset sz : addr mod 4096 = 0 -> 0 <= addr -> addr + sz <= KERNBASE -> 0 <= offset < 4294967296 ->
  (forall j, addr / 4096 <= j < (addr + sz + 4095) / 4096 -> is_Some (as_map A !! j)) -> forall n s i,
  space_inv s pd A free rest -> I s -> 0 <= i -> i mod 4096 = 0 -> sz - i <= 4096 * Z.of_nat n -> (0 < i < sz -> offset + i <= zlen data) ->
  exists b m', loop (S n) (loaduvm_step pd addr offset sz) i s =
      Ret (if in_file (offset + i) (sz - i) then 0 else -1) (set_k_mem m' (set_k_bufs b s)) /\
    I (set_k_mem m' (set_k_bufs b s)) /\ space_inv (set_k_mem m' (set_k_bufs b s)) pd A free rest /\ untouched (uframes A) (k_mem s) m' /\
    (in_file (offset + i) (sz - i) = true -> written A (addr + i) (segment (offset + i) (sz - i)) (k_mem s) m').
Proof.
  intros Ha Ha0 Hk Ho Hm. pose proof fr_size as Hs. induction n as [|n IH]; intros s i V Is Hi Hi4 Hn Hoi.
  1,2: destruct (Z.leb_spec sz i) as [Hd|Hd]; [|try lia].
  1,2: exists (k_bufs s), (k_mem s); assert (set_k_mem (k_mem s) (set_k_bufs (k_bufs s) s) = s) as -> by (by destruct s);
    unfold in_file; rewrite (proj2 (Z.leb_le (sz - i) 0)) by lia; cbn [orb]; split_and!;
    [apply loop_done; unfold loaduvm_step; by rewrite (proj2 (Z.ltb_ge _ _)) by lia | done | done | apply untouched_refl |
     intros _; unfold segment; replace (Z.to_nat (sz - i)) with 0%nat by lia; apply written_nil].
  destruct (Hm ((addr + i) / 4096)) as [[p fl] Hp]; [zlia|].
  assert (0 <= offset + i < 4294967296) as Hoi' by (destruct (decide (0 < i)); [specialize (Hoi ltac:(lia)); lia | lia]).
  destruct (load_turn s pd A free rest addr offset sz i p fl V Is Ha Ha0 Hk ltac:(lia) Hi4 Hoi' Hp) as (b & m1 & E1 & I1 & V1 & U1 & W1).
  set (c := Z.min (sz - i) 4096) in *. destruct (Z.leb_spec (offset + i + c) (zlen data)) as [Hf|Hf].
  2:{ exists b, m1. unfold in_file. rewrite (proj2 (Z.leb_gt (sz - i) 0)), (proj2 (Z.leb_gt (offset + i + (sz - i)) _)) by (unfold c in *; lia).
      split_and!; [by apply loop_done | done | done | done | done]. }
  specialize (W1 Hf). rewrite (loop_next _ _ _ _ _ _ E1).
  destruct (IH (set_k_mem m1 (set_k_bufs b s)) (i + 4096) V1 I1) as (b2 & m2 & E2 & I2 & V2 & U2 & W2); [lia | zlia | lia | unfold c in *; lia |].
  assert (in_file (offset + (i + 4096)) (sz - (i + 4096)) = in_file (offset + i) (sz - i)) as Ef.
  { unfold in_file. rewrite (proj2 (Z.leb_gt (sz - i) 0)) by lia. cbn [orb]. unfold c in Hf.
    destruct (Z.leb_spec (sz - (i + 4096)) 0), (Z.leb_spec (offset + i + (sz - i)) (zlen data)), (Z.leb_spec (offset + (i + 4096) + (sz - (i + 4096))) (zlen data)); lia. }
  rewrite Ef in E2, W2. exists b2, m2. split_and!; [exact E2 | exact I2 | exact V2 | by eapply untouched_trans |]. intros Hin. specialize (W2 Hin). cbn [k_mem set_k_mem] in W2.
  assert (zlen (segment (offset + i) c) = c) as Ec by (apply segment_length; unfold c in *; lia).
  rewrite (segment_split (offset + i) (sz - i) c) by (unfold c; lia). eapply written_app; [exact W1|]. rewrite Ec.
  destruct (decide (sz - i <= 4096)) as [Hl|Hl].
  - replace (segment (offset + i + c) (sz - i - c)) with (@nil Z) by (unfold segment; by replace (Z.to_nat (sz - i - c)) with 0%nat by (unfold c; lia)).
    replace (segment (offset + (i + 4096)) (sz - (i + 4096))) with (@nil Z) in W2 by (unfold segment; by replace (Z.to_nat (sz - (i + 4096))) with 0%nat by lia).
    intros x Hx. rewrite (W2 x Hx). unfold at_addr. by destruct (addr + (i + 4096) <=? x), (addr + i + c <=? x).
  - replace c with 4096 by (unfold c; lia). replace (addr + i + 4096) with (addr + (i + 4096)) by lia.
    replace (offset + i + 4096) with (offset + (i + 4096)) by lia. by replace (sz - i - 4096) with (sz - (i + 4096)) by lia.
Qed.

(** [loaduvm] of a range that is mapped: it fills the range from the file and returns 0, or returns -1
    because the file ends before. *)
Lemma loaduvm_as s pd A free rest addr offset sz : space_inv s pd A free rest -> I s -> addr mod 4096 = 0 -> 0 <= addr -> 0 <= sz -> addr + sz <= KERNBASE ->
  0 <= offset < 4294967296 -> (forall j, addr / 4096 <= j < (addr + sz + 4095) / 4096 -> is_Some (as_map A !! j)) ->
  exists b m', loaduvm pd addr ip offset sz s = Ret (if in_file offset sz then 0 else -1) (set_k_mem m' (set_k_bufs b s)) /\
    I (set_k_mem m' (set_k_bufs b s)) /\ space_inv (set_k_mem m' (set_k_bufs b s)) pd A free rest /\ untouched (uframes A) (k_mem s) m' /\
    (in_file offset sz = true -> written A addr (segment offset sz) (k_mem s) m').
Proof.
  intros V Is Ha Ha0 Hsz Hk Ho Hm. rewrite loaduvm_loop by done.
  destruct (load_loop pd A free rest addr offset sz Ha Ha0 Hk Ho Hm (S (Z.to_nat (sz / PGSIZE))) s 0 V Is) as (b & m' & H); [lia | done | unfold PGSIZE; zlia | lia |].
  rewrite !Z.add_0_r, Z.sub_0_r in H. by exists b, m'.
Qed.

(** ** The program headers *)

Definition overlay (va : Z) (l : list Z) (f : Z -> Z) : Z -> Z := fun x => default (f x) (at_addr va l x).

(** One program header: the size and the bytes of the image after it, or none if it is bad. *)
Definition header (off sz : Z) (f : Z -> Z) : option (Z * (Z -> Z)) :=
  let '(r, ph) := file_read data off PROGHDR in
  let top := ph_vaddr ph + ph_memsz ph in
  if negb (r =? PROGHDR) then None else
  if negb (ph_type ph =? ELF_PROG_LOAD) then Some (sz, f) else
  if (ph_memsz ph <? ph_filesz ph) || (KERNBASE <=? top) || (Z.max sz top =? 0) || negb (ph_vaddr ph mod PGSIZE =? 0) || negb (in_file (ph_off ph) (ph_filesz ph))
  then None else Some (Z.max sz top, overlay (ph_vaddr ph) (segment (ph_off ph) (ph_filesz ph)) f).

(** The image of the [n] headers at [off]: its size and its bytes. *)
Fixpoint load_spec (n : nat) (off sz : Z) (f : Z -> Z) : option (Z * (Z -> Z)) :=
  match n with
  | O => Some (sz, f)
  | S n => match header off sz f with Some (sz', f') => load_spec n (u32 (off + PROGHDR)) sz' f' | None => None end
  end.

Definition exec_load_step (pgdir : Z) (elf : list Z) : Z * Z * Z -> K (Z * Z * Z + option Z) := fun '(i, off, sz) =>
    if i <? elf_phnum elf then
      let next sz := ret (inl (i + 1, u32 (off + PROGHDR), sz)) in
      ' (n, ph) <- readi ip off PROGHDR ;;
      if negb (n =? PROGHDR) then ret (inr None) else
      if negb (ph_type ph =? ELF_PROG_LOAD) then next sz else
      if ph_memsz ph <? ph_filesz ph then ret (inr None) else
      if u32 (ph_vaddr ph + ph_memsz ph) <? ph_vaddr ph then ret (inr None) else
      sz <- allocuvm pgdir sz (u32 (ph_vaddr ph + ph_memsz ph)) ;;
      if sz =? 0 then ret (inr None) else
      if negb (ph_vaddr ph mod PGSIZE =? 0) then ret (inr None) else
      r <- loaduvm pgdir (ph_vaddr ph) ip (ph_off ph) (ph_filesz ph) ;;
      if r <? 0 then ret (inr None) else next sz
    else ret (inr (Some sz)).

Lemma exec_load_loop pd elf : exec_load pd ip elf = (r <- loop (S (Z.to_nat (elf_phnum elf))) (exec_load_step pd elf) (0, elf_phoff elf, 0) ;; ret r).
Proof. reflexivity. Qed.

(** The address space on the way from the state [s0]. *)
Record loading (s0 : kst) (pd : Z) (A0 : aspace) (free0 rest : list Z) (s : kst) (A : aspace) (free : list Z) : Prop := {
  ld_inv : space_inv s pd A free rest;
  ld_alloc : can_alloc s;
  ld_file : I s;
  ld_rest : load_rest s0 s;
  ld_pages : owned pd A ++ free ≡ₚ owned pd A0 ++ free0;
  ld_mem : untouched (owned pd A0 ++ free0) (k_mem s0) (k_mem s)
}.

(** The first [sz] bytes are there, with the values of [f] and zeros up to the end of the page; few pages
    have been used for them. *)
Record loaded (s0 : kst) (free0 : list Z) (s : kst) (A : aspace) (free : list Z) (sz : Z) (f : Z -> Z) : Prop := {
  lo_size : 0 <= sz < KERNBASE;
  lo_image : image A sz;
  lo_bytes x : 0 <= x < 4096 * npages sz -> ubyte A (k_mem s) x = Some (f x) /\ user_page A x = true;
  lo_zero x : sz <= x -> f x = 0;
  lo_used : used_by s0 free0 s free;
  lo_few : (length free0 <= length free + 2 * Z.to_nat (npages sz))%nat
}.

Section headers.
Variables (s0 : kst) (pd : Z) (A0 : aspace) (free0 rest : list Z).

Lemma loading_written s A free b m' : loading s0 pd A0 free0 rest s A free -> I (set_k_mem m' (set_k_bufs b s)) ->
  space_inv (set_k_mem m' (set_k_bufs b s)) pd A free rest -> untouched (uframes A) (k_mem s) m' ->
  loading s0 pd A0 free0 rest (set_k_mem m' (set_k_bufs b s)) A free.
Proof.
  intros [V C F R P U] I' V' U'. split; [done | | done | eapply load_rest_trans; [exact R | apply load_rest_bufs] | done |].
  - by eapply can_alloc_ext.
  - eapply untouched_trans; [exact U|]. eapply untouched_mono; [|exact U']. intros p Hp. rewrite <- P, owned_perm, !elem_of_app. auto.
Qed.

Lemma loading_moved s A free s' A' free' : loading s0 pd A0 free0 rest s A free -> moved s pd A free rest s' A' free' ->
  untouched (meta pd A ++ free) (k_mem s) (k_mem s') -> loading s0 pd A0 free0 rest s' A' free'.
Proof.
  intros [V C F R P U] [V' C' R' P'] U'. split; [done | done | by eapply fr_rest | eapply load_rest_trans; [exact R | by apply load_rest_same] | by rewrite P' |].
  eapply untouched_trans; [exact U|]. eapply untouched_mono; [|exact U']. intros p. rewrite <- P, owned_perm, !elem_of_app. tauto.
Qed.

(** [allocuvm] for a segment that ends at [new]. *)
Lemma load_alloc s A free sz f new : loading s0 pd A0 free0 rest s A free -> loaded s0 free0 s A free sz f -> 0 <= new ->
  exists r s' A' free', allocuvm pd sz new s = Ret r s' /\ loading s0 pd A0 free0 rest s' A' free' /\
    if KERNBASE <=? new then r = 0 else
    (r = Z.max sz new /\ loaded s0 free0 s' A' free' (Z.max sz new) f) \/
    (r = 0 /\ short s0 free0 (2 * Z.to_nat (npages (Z.max sz new)))).
Proof.
  intros Lg Ld Hn. pose proof (lo_size _ _ _ _ _ _ _ Ld) as Hsz. destruct (Z.leb_spec KERNBASE new) as [Hk|Hk].
  { exists 0, s, A, free. split_and!; [unfold allocuvm; by rewrite (proj2 (Z.leb_le _ _) Hk) | done | done]. }
  destruct (Z.ltb_spec new sz) as [Hlt|Hge].
  { exists sz, s, A, free. split_and!; [unfold allocuvm; by rewrite (proj2 (Z.leb_gt _ _) Hk), (proj2 (Z.ltb_lt _ _) Hlt) | done | left].
    by rewrite Z.max_l by lia. }
  destruct (allocuvm_as s pd A free rest sz new (ld_inv _ _ _ _ _ _ _ _ Lg) (ld_alloc _ _ _ _ _ _ _ _ Lg)) as (r & s' & A' & free' & E & M & U & H); [lia | |].
  { intros j Hj. apply eq_None_not_Some. intros Hs. apply (lo_image _ _ _ _ _ _ _ Ld) in Hs; [unfold npages in Hs; lia|].
    change UPAGES with 524288. unfold KERNBASE in *. zlia. }
  exists r, s', A', free'. split_and!; [done | by eapply loading_moved |]. rewrite (proj2 (Z.leb_gt _ _) Hk), (proj2 (Z.ltb_ge _ _) Hge) in H.
  rewrite Z.max_r by lia. fold (npages sz) (npages new) in H. destruct Ld as [_ Im By Ze Us Fe].
  assert (0 <= npages sz <= npages new /\ npages new <= 524288) as Hp by (unfold npages, KERNBASE in *; zlia).
  destruct H as [(-> & F & Us' & Fe')|(-> & _ & Sh)]; [left|right; split; [done|]; eapply short_used; [exact Sh | exact Us | lia]]. split; [done|].
  split; [lia | | | intros x Hx; apply Ze; lia | by eapply used_trans | lia].
  - intros j Hj. destruct (decide (npages sz <= j < npages new)) as [Hin|Hout].
    + destruct (fr_new _ _ _ _ _ _ F j Hin) as (q & -> & _). split; [lia | by eauto].
    + rewrite (fr_old _ _ _ _ _ _ F j Hout), (Im j Hj). lia.
  - intros x Hx. destruct (decide (x < 4096 * npages sz)) as [Hold|Hnew].
    + assert (as_map A' !! (x / 4096) = as_map A !! (x / 4096)) as Ex by (apply F; zlia). unfold user_page. rewrite Ex. destruct (By x ltac:(lia)) as [B1 B2].
      split; [|exact B2]. rewrite <- B1. transitivity (ubyte A (k_mem s') x); [unfold ubyte; by rewrite Ex|].
      eapply ubyte_kept; [apply Lg | exact U | unfold KERNBASE; lia].
    + destruct (fr_new _ _ _ _ _ _ F (x / 4096) ltac:(zlia)) as (q & Eq & _ & Hz). unfold ubyte, user_page. rewrite Eq. split; [|done]. simpl.
      rewrite Hz by zlia. rewrite Ze; [done|]. unfold npages in *. zlia.
Qed.

(** A segment written into the image. *)
Lemma loaded_written s A free sz f va l s' : loaded s0 free0 s A free sz f -> written A va l (k_mem s) (k_mem s') -> 0 <= va -> va + zlen l <= sz ->
  cur_cont s' = cur_cont s -> k_ctable s' = k_ctable s -> loaded s0 free0 s' A free sz (overlay va l f).
Proof.
  intros [Hs Im By Ze [Us1 Us2] Fe] W Hva Hl Ec Et. assert (sz <= 4096 * npages sz <= KERNBASE) as Hn by (unfold npages, KERNBASE in *; zlia). split; [done | done | | | | done].
  - intros x Hx. destruct (By x Hx) as [B1 B2]. split; [|exact B2]. rewrite (W x) by lia. rewrite B1. unfold overlay. by destruct (at_addr va l x).
  - intros x Hx. unfold overlay. rewrite (proj2 (at_addr_None va l x)) by lia. by apply Ze.
  - split; [done|]. intros k. rewrite <- Us2. apply over_after_ext; [done|]. intros c. by rewrite Et.
Qed.

Lemma loading_bufs s A free b : loading s0 pd A0 free0 rest s A free -> I (set_k_bufs b s) -> loading s0 pd A0 free0 rest (set_k_bufs b s) A free.
Proof.
  intros Lg Ib. assert (set_k_mem (k_mem s) (set_k_bufs b s) = set_k_bufs b s) as E by (by destruct s). rewrite <- E.
  apply loading_written; [done | by rewrite E | rewrite E; eapply space_ext; [apply Lg | done | done] | apply untouched_refl].
Qed.

Lemma loaded_bufs s A free sz f b : loaded s0 free0 s A free sz f -> loaded s0 free0 (set_k_bufs b s) A free sz f.
Proof. intros [H1 H2 H3 H4 H5 H6]. by split. Qed.

Lemma lld32_bytes l i : Forall is_byte l -> 0 <= lld32 l i < 4294967296.
Proof.
  intros H. assert (forall k, 0 <= lget l k < 256) as Hb.
  { intros k. unfold lget. destruct (l !! Z.to_nat k) as [b|] eqn:E; [by apply (Forall_lookup_1 _ _ _ _ H E) | simpl; lia]. }
  unfold lld32. pose proof (Hb i). pose proof (Hb (i + 1)). pose proof (Hb (i + 2)). pose proof (Hb (i + 3)). lia.
Qed.

(** The segment of a header in the pages there are for it. *)
Lemma load_segment s A free sz f ph : loading s0 pd A0 free0 rest s A free -> loaded s0 free0 s A free sz f ->
  Forall is_byte ph -> ph_filesz ph <= ph_memsz ph -> ph_vaddr ph + ph_memsz ph <= sz -> ph_vaddr ph mod PGSIZE = 0 ->
  exists s', loaduvm pd (ph_vaddr ph) ip (ph_off ph) (ph_filesz ph) s = Ret (if in_file (ph_off ph) (ph_filesz ph) then 0 else -1) s' /\
    loading s0 pd A0 free0 rest s' A free /\
    (in_file (ph_off ph) (ph_filesz ph) = true -> loaded s0 free0 s' A free sz (overlay (ph_vaddr ph) (segment (ph_off ph) (ph_filesz ph)) f)).
Proof.
  intros Lg Ld Hb Hf Hsz Ha. pose proof (lld32_bytes ph 4 Hb) as Ho. pose proof (lld32_bytes ph 8 Hb) as Hv. pose proof (lld32_bytes ph 16 Hb) as Hfz.
  fold (ph_off ph) in Ho. fold (ph_vaddr ph) in Hv. fold (ph_filesz ph) in Hfz. pose proof (lo_size _ _ _ _ _ _ _ Ld) as Hk.
  destruct (loaduvm_as s pd A free rest (ph_vaddr ph) (ph_off ph) (ph_filesz ph)) as (b & m' & E & I' & V' & U' & W);
    [apply Lg | apply Lg | exact Ha | lia | lia | lia | exact Ho | |].
  { intros j Hj. apply (lo_image _ _ _ _ _ _ _ Ld); [change UPAGES with 524288; unfold KERNBASE in Hk; zlia | unfold npages; zlia]. }
  exists (set_k_mem m' (set_k_bufs b s)). split_and!; [exact E | by eapply loading_written |]. intros Hin. specialize (W Hin).
  eapply loaded_written; [exact Ld | exact W | lia | | done | done].
  unfold in_file in Hin. apply orb_true_iff in Hin as [Hin%Z.leb_le|Hin%Z.leb_le].
  - unfold segment. replace (Z.to_nat (ph_filesz ph)) with 0%nat by lia. unfold zlen. simpl. lia.
  - rewrite segment_length by lia. lia.
Qed.

(** One program header. *)
Lemma header_turn s A free i off sz f elf : loading s0 pd A0 free0 rest s A free -> loaded s0 free0 s A free sz f ->
  0 <= off < 4294967296 -> i < elf_phnum elf ->
  exists r s' A' free', exec_load_step pd elf (i, off, sz) s = Ret r s' /\ loading s0 pd A0 free0 rest s' A' free' /\
    match header off sz f with
    | Some (sz', f') => (r = inl (i + 1, u32 (off + PROGHDR), sz') /\ loaded s0 free0 s' A' free' sz' f') \/
                        (r = inr None /\ short s0 free0 (2 * Z.to_nat (npages sz')))
    | None => r = inr None
    end.
Proof.
  intros Lg Ld Ho Hi. unfold exec_load_step, header. rewrite (proj2 (Z.ltb_lt _ _) Hi). cbv zeta.
  destruct (fr_readi s off PROGHDR (ld_file _ _ _ _ _ _ _ _ Lg) Ho ltac:(unfold PROGHDR; lia)) as (b & E & Ib). rewrite (bind_Ret _ _ _ _ _ E).
  assert (Forall is_byte (file_read data off PROGHDR).2) as Hb.
  { unfold file_read. destruct (_ || _); [constructor|]. apply Forall_take, Forall_drop, fr_bytes. }
  destruct (file_read data off PROGHDR) as [n ph]. cbn [snd] in Hb. apply (loading_bufs _ _ _ b) in Lg; [|done]. apply (loaded_bufs _ _ _ _ _ b) in Ld.
  set (s1 := set_k_bufs b s) in *. destruct (negb (n =? PROGHDR)); [by exists (inr None), s1, A, free|].
  destruct (negb (ph_type ph =? ELF_PROG_LOAD)); [exists (inl (i + 1, u32 (off + PROGHDR), sz)), s1, A, free; by auto|].
  pose proof (lld32_bytes ph 8 Hb) as Hv. pose proof (lld32_bytes ph 20 Hb) as Hm. fold (ph_vaddr ph) in Hv. fold (ph_memsz ph) in Hm.
  destruct (Z.ltb_spec (ph_memsz ph) (ph_filesz ph)) as [Hf|Hf]; cbn [orb]; [by exists (inr None), s1, A, free|].
  set (top := ph_vaddr ph + ph_memsz ph) in *. destruct (Z.ltb_spec (u32 top) (ph_vaddr ph)) as [Hw|Hw].
  { rewrite (proj2 (Z.leb_le KERNBASE top)) by (unfold top, KERNBASE in *; zlia). by exists (inr None), s1, A, free. }
  rewrite u32_small in * by (unfold top in *; zlia).
  destruct (load_alloc s1 A free sz f top Lg Ld ltac:(unfold top; lia)) as (r & s2 & A2 & free2 & E2 & Lg2 & H2). rewrite (bind_Ret _ _ _ _ _ E2).
  destruct (Z.leb_spec KERNBASE top) as [Hk|Hk]; cbn [orb]; [subst r; by exists (inr None), s2, A2, free2|].
  destruct H2 as [[-> Ld2]|[-> Sh]].
  2:{ exists (inr None), s2, A2, free2. split_and!; [done | done |]. destruct (_ || _); [done | by right]. }
  destruct (Z.max sz top =? 0); cbn [orb]; [by exists (inr None), s2, A2, free2|].
  destruct (Z.eqb_spec (ph_vaddr ph mod PGSIZE) 0) as [Ha|Ha]; cbn [negb orb]; [|by exists (inr None), s2, A2, free2].
  destruct (load_segment s2 A2 free2 (Z.max sz top) f ph Lg2 Ld2 Hb Hf ltac:(unfold top; lia) Ha) as (s3 & E3 & Lg3 & Ld3). rewrite (bind_Ret _ _ _ _ _ E3).
  destruct (in_file (ph_off ph) (ph_filesz ph)); cbn [negb].
  - eexists _, s3, A2, free2. split_and!; [done | done | left]. by auto.
  - by exists (inr None), s3, A2, free2.
Qed.

Lemma header_grows off sz f sz' f' : header off sz f = Some (sz', f') -> sz <= sz'.
Proof.
  unfold header. destruct (file_read data off PROGHDR) as [r ph]. destruct (negb _); [done|]. destruct (negb _); [intros [= -> ->]; lia|].
  destruct (_ || _); [done|]. intros [= <- <-]. lia.
Qed.

Lemma load_spec_grows n : forall off sz f sz' f', load_spec n off sz f = Some (sz', f') -> sz <= sz'.
Proof.
  induction n as [|n IH]; intros off sz f sz' f'; simpl; [intros [= -> ->]; lia|]. destruct (header off sz f) as [[sz1 f1]|] eqn:E; [|done].
  intros H%IH. apply header_grows in E. lia.
Qed.

(** The outcome of the loop: the image the headers describe, or no memory for it, or a bad file. *)
Definition load_result (image : option (Z * (Z -> Z))) (o : option Z) (s' : kst) (A' : aspace) (free' : list Z) : Prop :=
  match image, o with
  | Some (sz, f), Some z => z = sz /\ loaded s0 free0 s' A' free' sz f
  | Some (sz, _), None => short s0 free0 (2 * Z.to_nat (npages sz))
  | None, o => o = None
  end.

Lemma headers_loop elf n : forall s A free i off sz f, loading s0 pd A0 free0 rest s A free -> loaded s0 free0 s A free sz f ->
  0 <= off < 4294967296 -> i + Z.of_nat n = elf_phnum elf ->
  exists o s' A' free', loop (S n) (exec_load_step pd elf) (i, off, sz) s = Ret o s' /\ loading s0 pd A0 free0 rest s' A' free' /\
    load_result (load_spec n off sz f) o s' A' free'.
Proof.
  induction n as [|n IH]; intros s A free i off sz f Lg Ld Ho Hi.
  - exists (Some sz), s, A, free. split_and!; [|done|done]. apply loop_done. unfold exec_load_step. by rewrite (proj2 (Z.ltb_ge _ _)) by lia.
  - destruct (header_turn s A free i off sz f elf Lg Ld Ho ltac:(lia)) as (r & s1 & A1 & free1 & E & Lg1 & H). cbn [load_spec].
    destruct (header off sz f) as [[sz1 f1]|].
    + destruct H as [[-> Ld1]|[-> Sh]].
      * rewrite (loop_next _ _ _ _ _ _ E). apply (IH s1 A1 free1); [done | done | apply u32_range | lia].
      * exists None, s1, A1, free1. split_and!; [by apply loop_done | done |]. unfold load_result.
        destruct (load_spec n _ sz1 f1) as [[sz2 f2]|] eqn:E2; [|done]. apply load_spec_grows in E2. destruct Sh as (k & Hk & Hs). exists k. split; [|done].
        unfold npages in *. zlia.
    + subst r. exists None, s1, A1, free1. split_and!; [by apply loop_done | done | done].
Qed.
End headers.

Lemma exec_load_as s pd A free rest elf : space_inv s pd A free rest -> can_alloc s -> I s -> image A 0 -> Forall is_byte elf ->
  exists o s' A' free', exec_load pd ip elf s = Ret o s' /\ loading s pd A free rest s' A' free' /\
    load_result s free (load_spec (Z.to_nat (elf_phnum elf)) (elf_phoff elf) 0 (fun _ => 0)) o s' A' free'.
Proof.
  intros V C F Im Hb. assert (forall k, 0 <= lget elf k) as Hg.
  { intros k. unfold lget. destruct (elf !! Z.to_nat k) as [b|] eqn:E; [by apply (Forall_lookup_1 _ _ _ _ Hb E) | simpl; lia]. }
  destruct (headers_loop s pd A free rest elf (Z.to_nat (elf_phnum elf)) s A free 0 (elf_phoff elf) 0 (fun _ => 0)) as (o & s' & A' & free' & E & Lg & H).
  - split; [done | done | done | apply load_rest_same, same_rest_refl | done | apply untouched_refl].
  - split; [unfold KERNBASE; lia | done | intros x Hx; change (npages 0) with 0 in Hx; lia | done | by apply used_refl | lia].
  - by apply lld32_bytes.
  - unfold elf_phnum, lld16. pose proof (Hg 44). pose proof (Hg (44 + 1)). lia.
  - exists o, s', A', free'. rewrite exec_load_loop, (bind_Ret _ _ _ _ _ E). done.
Qed.
End load.

(** ** Open files of the file system *)

Section files.
Context `{DW : Devsw} (g : geom) (txn : list Z) (i : nat) (ip : inode) (nb : Z) (data : list Z).

(** The inode is locked inside a transaction, its blocks are allocated, and its bytes are [data]. *)
Record file_open (s : kst) : Prop := {
  fo_txn : in_txn g s [] txn;
  fo_inode : k_icache s !! i = Some ip;
  fo_kind : i_dev ip = 1 /\ i_type ip <> T_DEV;
  fo_mapped : Inode.mapped g s ip nb;
  fo_size : 0 <= i_size ip <= nb * BSIZE;
  fo_room : buf_room [] txn 1;
  fo_data : fslice s ip 0 (i_size ip) = data
}.

Lemma fslice_part s off m : 0 <= off -> 0 <= m -> off + m <= i_size ip ->
  fslice s ip off m = take (Z.to_nat m) (drop (Z.to_nat off) (fslice s ip 0 (i_size ip))).
Proof.
  intros H1 H2 H3. assert (forall o n, length (fslice s ip o n) = Z.to_nat n) as Hl by (intros o n; unfold fslice; by rewrite length_fmap, length_seqZ).
  replace (i_size ip) with (off + (m + (i_size ip - off - m))) by lia. rewrite !fslice_app by lia. rewrite Z.add_0_l.
  rewrite drop_app_length' by (by rewrite Hl). by rewrite take_app_length' by (by rewrite Hl).
Qed.

Lemma tables_acct ct ct' pt : acct <$> ct' = acct <$> ct -> tables_wf ct pt -> tables_wf ct' pt.
Proof.
  intros E [W1 W2 W3]. split; [|done|].
  - by rewrite <- (length_fmap acct ct'), E, length_fmap.
  - intros j c Hc. assert ((acct <$> ct') !! j = (acct <$> ct) !! j) as Ej by (by rewrite E).
    rewrite !list_lookup_fmap, Hc in Ej. destruct (ct !! j) as [c0|] eqn:E0; [|done]. apply (inj Some) in Ej.
    assert (c_mproc c = c_mproc c0 /\ c_ptable c = c_ptable c0) as [-> ->]
      by (split; [exact (f_equal c_mproc Ej) | exact (f_equal c_ptable Ej)]).
    by apply (W3 j c0).
Qed.

Lemma in_txn_rest s s' : in_txn g s [] txn -> same_rest s s' -> in_txn g s' [] txn.
Proof.
  intros [[Q1 Q2 Q3 Q4] [C1 C2 C3 C4 C5 C6] [L1 L2 L3 L4 L5 L6 L7 L8 L9] P O] (m & fl & ct & lg & -> & Ea). split; [| | |done|done].
  - split; [done | done | by eapply tables_acct | done].
  - by split.
  - by split.
Qed.

#[export] Instance file_reads : Forall is_byte data -> zlen data = i_size ip -> i_size ip < 2147483648 -> FileReads i data file_open.
Proof.
  intros Hb Hz Hmax. split; [| | done | lia].
  - intros s off n [Hin Hip [Hdev Ht] Hm Hsz Hr Hd] Ho Hn. unfold file_read. rewrite Hz. destruct (_ || _) eqn:E.
    + exists (k_bufs s). assert (set_k_bufs (k_bufs s) s = s) as -> by (by destruct s). split; [|by split].
      unfold readi. rewrite (bind_Ret _ _ _ _ _ (get_inode_eq _ _ _ Hip)), (proj2 (Z.eqb_neq _ _) Ht).
      replace ((i_size ip <? off) || (u32 (off + n) <? off)) with true; [done|]. symmetry.
      apply orb_true_iff in E as [->|E%Z.leb_le]; [done|]. apply orb_true_iff. right. apply Z.ltb_lt. zlia.
    + apply orb_false_iff in E as [E1%Z.ltb_ge E2%Z.leb_gt].
      destruct (readi_spec g s txn i ip nb off n) as (s' & E' & O & V & I'); try done; try lia.
      unfold only_bufs in O. exists (k_bufs s'). rewrite <- O. cbv zeta. split.
      * rewrite E', fslice_part by lia. by rewrite Hd.
      * pose proof (sv_vblock _ _ _ V) as Vb. split; [done | by rewrite O | done | by eapply mapped_ext | done | done |].
        rewrite <- Hd. eapply fslice_ext; [exact Hm | lia | lia | exact Vb].
  - intros s s' [Hin Hip Hk Hm Hsz Hr Hd] Hs. pose proof (in_txn_rest _ _ Hin Hs) as Hin'. destruct Hs as (m & fl & ct & lg & -> & _).
    split; [done | done | done | | done | done | done]. destruct Hm. by split.
Qed.
End files.
