(* ===== verification/ExecSpec.v ===== *)
(** * [exec] from an open file

    [exec] (exec.c) from where it has locked the inode of the program: the header, the new address
    space, the segments, the end of the transaction, the stack and the exchange of images. *)

From S2P Require Import Prelude Monad CString KState Sched Kalloc Bio Log Fs Inode Path Vm Paging AddrSpace Uvm Pipe File Proc Isolation ProcMem Fork Exec ExecMem ExecLoad.

Local Open Scope kernel_scope.

(** ** The end of the file's part *)

(** The inode released and the operation ended, when no blocks wait to be committed or another operation is
    still running. *)
Definition closed (i : nat) (ip : inode) (s : kst) : kst :=
  set_k_log (set_l_outstanding (l_outstanding (k_log s) - 1) (k_log s))
    (set_k_icache (<[i := set_i_ref (i_ref ip - 1) (set_i_lock (mkSleeplock false 0) ip)]> (k_icache s)) s).

Lemma end_op_idle s : quiet s -> l_committing (k_log s) = false -> 1 <= l_outstanding (k_log s) < 2147483648 ->
  l_n (k_log s) = 0 \/ 1 < l_outstanding (k_log s) ->
  end_op s = Ret tt (set_k_log (set_l_outstanding (l_outstanding (k_log s) - 1) (k_log s)) s).
Proof.
  intros Q Hc Ho Hn. destruct (decide (l_outstanding (k_log s) = 1)) as [E1|E1].
  - rewrite (end_op_first s Q Hc E1). set (s1 := set_k_log _ s). assert (quiet s1) as Q1 by (by destruct Q).
    assert (commit s1 = Ret tt s1) as Ec.
    { unfold commit. krun. change (l_n (k_log s1)) with (l_n (k_log s)). by destruct Hn as [->|Hn]; [|lia]. }
    rewrite (bind_Ret _ _ _ _ _ Ec). pose proof (q_held _ Q1) as Hh.
    rewrite (bind_Ret _ _ _ _ _ (acquire_eq LLog s1 ltac:(rewrite Hh; apply not_elem_of_nil))). rewrite bind_upd_log.
    cbn [k_log set_k_held]. set (s2 := set_k_log _ (set_k_held _ s1)).
    assert (LPtable ∉ LLog :: k_held s1) as Hp by (rewrite Hh; by intros ?%list_elem_of_singleton).
    rewrite (bind_Ret _ _ _ _ _ (wakeup_quiet_held (set_k_log (set_l_committing false (k_log s1)) s1) ChLog _ ltac:(by destruct Q1) eq_refl Hp) : bind (wakeup ChLog) _ s2 = _).
    erewrite (release_eq LLog) by reflexivity. f_equal. destruct s as [held ? ? ? ? ? ? ? ? ? ? ? ? ? ? ? ? ? lg ? ? ? ? ? ? ? ?]. cbn in *.
    destruct lg. cbn in *. by subst.
  - unfold end_op. pose proof (q_held _ Q) as Hh. assert (LPtable ∉ LLog :: k_held s) as Hp by (rewrite Hh; by intros ?%list_elem_of_singleton).
    rewrite (bind_Ret _ _ _ _ _ (acquire_eq LLog s ltac:(rewrite Hh; apply not_elem_of_nil))). krun.
    cbn [k_log set_k_log set_k_held l_committing l_outstanding set_l_outstanding]. rewrite Hc, i32_small by lia. cbv iota.
    rewrite (proj2 (Z.eqb_neq _ 0)) by lia. set (s1 := set_k_log _ _).
    assert (wakeup ChLog s1 = Ret tt s1) as Ew.
    { apply (wakeup_quiet_held (set_k_log (set_l_outstanding (l_outstanding (k_log s) - 1) (k_log s)) s) ChLog (LLog :: k_held s)); [by destruct Q | done | done]. }
    erewrite (bind_Ret (bind (wakeup ChLog) _)) by (rewrite (bind_Ret _ _ _ _ _ Ew); reflexivity).
    erewrite (bind_Ret (release LLog)) by (by apply release_eq). by destruct s.
Qed.

Lemma iunlockput_eq i ip s : quiet s -> k_icache s !! i = Some ip -> sl_locked (i_lock ip) = true -> 0 < i_ref ip < 2147483648 ->
  i_nlink ip <> 0 \/ i_ref ip <> 1 ->
  iunlockput i s = Ret tt (set_k_icache (<[i := set_i_ref (i_ref ip - 1) (set_i_lock (mkSleeplock false 0) ip)]> (k_icache s)) s).
Proof.
  intros Q Hi Hl Hr Hn. assert (sl_at (SlInode i) s = Some (i_lock ip)) as Hs by (simpl; by rewrite Hi). unfold iunlockput, iunlock.
  erewrite (bind_Ret (bind (holdingsleep _) _)).
  2:{ rewrite (bind_Ret _ _ _ _ _ (holdingsleep_quiet _ _ _ Q Hs)), Hl. cbn [negb]. rewrite (bind_Ret _ _ _ _ _ (get_inode_eq _ _ _ Hi)).
      rewrite (proj2 (Z.ltb_ge _ _)) by lia. exact (releasesleep_quiet _ _ _ Q Hs). }
  set (s1 := put_sl (SlInode i) _ s). assert (k_icache s1 !! i = Some (set_i_lock (mkSleeplock false 0) ip)) as H1.
  { unfold s1. cbn [put_sl k_icache set_k_icache]. by rewrite list_lookup_alter_eq, Hi. }
  rewrite (iput_correct i (set_i_lock (mkSleeplock false 0) ip) s1); [|by apply quiet_put_sl | done | done | done | by right].
  unfold s1. cbn [put_sl k_icache set_k_icache i_ref set_i_lock].
  assert (forall x y, <[i := x]> (alter y i (k_icache s)) = <[i := x]> (k_icache s)) as ->; [|reflexivity].
  intros x y. apply list_eq. intros j. destruct (decide (i = j)) as [<-|Hj].
  - apply lookup_lt_Some in Hi. by rewrite !list_lookup_insert_eq by (rewrite ?length_alter; done).
  - by rewrite !list_lookup_insert_ne, list_lookup_alter_ne.
Qed.

(** What [exec] needs of the inode and the log to let go of the file. *)
Record releasable (txn : list Z) (ip : inode) (s : kst) : Prop := {
  rl_lock : sl_locked (i_lock ip) = true;
  rl_ref : 0 < i_ref ip < 2147483648;
  rl_link : i_nlink ip <> 0 \/ i_ref ip <> 1;
  rl_log : l_committing (k_log s) = false /\ l_outstanding (k_log s) < 2147483648;
  rl_idle : txn = [] \/ 1 < l_outstanding (k_log s)
}.

Lemma close_eq g txn i ip nb data s : file_open g txn i ip nb data s -> releasable txn ip s ->
  forall B (k : K B), (iunlockput i ;; end_op ;; k) s = k (closed i ip s).
Proof.
  intros [[Q _ La _ Ho] Hi _ _ _ _ _] [H1 H2 H3 [H4 H5] H6] B k. rewrite (bind_Ret _ _ _ _ _ (iunlockput_eq i ip s Q Hi H1 H2 H3)).
  set (s1 := set_k_icache _ s). rewrite (bind_Ret _ _ _ _ _ (end_op_idle s1 ltac:(by destruct Q) H4 ltac:(done) ltac:(destruct H6 as [->|H6]; [left; exact (la_n _ _ _ La) | by right]))).
  done.
Qed.

(** ** The program in a file *)

Definition elf_header (data : list Z) : list Z := take (Z.to_nat ELFHDR) data.

(** The image a file describes, its size and its bytes; none if it is not a program. *)
Definition program (data : list Z) : option (Z * (Z -> Z)) :=
  let elf := elf_header data in
  if (zlen data <? ELFHDR) || negb (elf_magic elf =? ELF_MAGIC) then None
  else load_spec (data := data) (Z.to_nat (elf_phnum elf)) (elf_phoff elf) 0 (fun _ => 0).

Section execspec.
Context `{LK : Linked} `{DW : Devsw}.

(** The process [cur] has the memory [A0]; the inode [i] is locked inside an operation and is the file [data]. *)
Record exec_start (s : kst) (cur : nat) (pr : proc) (A0 : aspace) (free rest : list Z)
    (g : geom) (txn : list Z) (i : nat) (ip : inode) (nb : Z) (data : list Z) : Prop := {
  es_runs : runs s cur pr;
  es_old : space_inv s (p_pgdir pr) A0 free rest;
  es_alloc : can_alloc s;
  es_stack : p_kstack pr ∈ rest /\ page_ok (p_kstack pr) /\ p_tf pr = p_kstack pr + KSTACKSIZE - TF_SIZE;
  es_file : file_open g txn i ip nb data s;
  es_bytes : Forall is_byte data;
  es_release : releasable txn ip s
}.

Section run.
Variables (s : kst) (cur : nat) (pr : proc) (A0 : aspace) (free rest : list Z) (g : geom) (txn : list Z) (i : nat) (ip : inode) (nb : Z) (data : list Z).
Hypothesis X : exec_start s cur pr A0 free rest g txn i ip nb data.

(** The process as it was. *)
Definition exec_unchanged (s' : kst) : Prop := load_rest (closed i ip s) s' /\
  exists free', space_inv s' (p_pgdir pr) A0 free' rest /\ free' ≡ₚ free /\
    forall x, 0 <= x < KERNBASE -> ubyte A0 (k_mem s') x = ubyte A0 (k_mem s) x.

(** The process with the image [f] of [sz] bytes, a stack above it, and the old memory given back. *)
Definition exec_replaced (path : list Z) (argv : list (list Z)) (sz : Z) (f : Z -> Z) (s' : kst) : Prop :=
  let top := 4096 * npages sz + 8192 in let sp := top - args_room argv in
  exists pd A' free', load_rest (exec_enter cur path pd top (p_kstack pr) (closed i ip s)) s' /\
    space_inv s' pd A' free' rest /\ owned pd A' ++ free' ≡ₚ owned (p_pgdir pr) A0 ++ free /\
    image A' top /\ stack_at A' top /\ main_frame A' (k_mem s') sp argv /\
    (forall x, 0 <= x < 4096 * npages sz -> ubyte A' (k_mem s') x = Some (f x) /\ user_page A' x = true) /\
    ld32 (k_mem s') (p_tf pr + tf_eip) = u32 (elf_entry (elf_header data)) /\ ld32 (k_mem s') (p_tf pr + tf_esp) = sp.

Definition exec_outcome (path : list Z) (argv : list (list Z)) (r : Z) (s' : kst) : Prop :=
  match program data with
  | None => r = -1 /\ exec_unchanged s'
  | Some (sz, f) =>
      (r = 0 /\ stack_fits argv = true /\ exec_replaced path argv sz f s') \/
      (r = -1 /\ exec_unchanged s' /\
       (KERNBASE <= 4096 * npages sz + 8192 \/ stack_fits argv = false \/ short s free (1030 + 2 * Z.to_nat (npages sz))))
  end.

Lemma data_size : zlen data = i_size ip /\ i_size ip < 2147483648.
Proof.
  destruct X as [_ _ _ _ [_ _ _ M Hs _ <-] _ _]. split; [unfold zlen, fslice; rewrite length_fmap, length_seqZ; lia|].
  pose proof (mp_max _ _ _ _ M). unfold MAXFILE, NINDIRECT, NDIRECT, BSIZE in *. lia.
Qed.

Lemma reads : FileReads i data (file_open g txn i ip nb data).
Proof. destruct data_size as [H1 H2]. apply file_reads; [apply X | done | done]. Qed.

Lemma load_rest_closed s1 s2 : load_rest s1 s2 -> load_rest (closed i ip s1) (closed i ip s2).
Proof. intros (b & m & fl & ct & lg & -> & E). by exists b, m, fl, ct, lg. Qed.

Lemma releasable_rest t : load_rest s t -> releasable txn ip t.
Proof. intros (b & m & fl & ct & lg & -> & E). destruct X as [_ _ _ _ _ _ [H1 H2 H3 H4 H5]]. by split. Qed.

(** A state on the way in which the new memory has taken [l] from the free list. *)
Record on_the_way (t : kst) (l free' : list Z) : Prop := {
  ow_rest : load_rest s t;
  ow_file : file_open g txn i ip nb data t;
  ow_alloc : can_alloc t;
  ow_kmem : kmem_inv t free';
  ow_pages : l ++ free' ≡ₚ free;
  ow_mem : untouched free (k_mem s) (k_mem t)
}.

Lemma old_space t l free' : on_the_way t l free' -> space_inv (closed i ip t) (p_pgdir pr) A0 free' (l ++ rest) /\
  forall x, 0 <= x < KERNBASE -> ubyte A0 (k_mem t) x = ubyte A0 (k_mem s) x.
Proof.
  intros [R F C K P U]. pose proof (es_old _ _ _ _ _ _ _ _ _ _ _ _ X) as V. split.
  - eapply space_ext; [eapply space_handed; [exact V | exact K | exact P | exact U] | done | done].
  - intros x Hx. eapply ubyte_beside; [by eapply si_sane | exact U | eapply free_aligned, V | | exact Hx].
    intros p Hp Ho. by apply (NoDup_sep _ _ _ _ (si_nodup _ _ _ _ _ V) Hp).
Qed.

(** Giving up. *)
Lemma exec_fails t free' : on_the_way t [] free' ->
  exists s', (iunlockput i ;; end_op ;; ret (-1)) t = Ret (-1) s' /\ can_alloc s' /\ exec_unchanged s'.
Proof.
  intros W. pose proof (old_space _ _ _ W) as [V B]. destruct W as [R F C K P U]. exists (closed i ip t).
  rewrite (close_eq _ _ _ _ _ _ _ F (releasable_rest _ R)). split_and!; [done | by eapply can_alloc_ext |].
  split; [by apply load_rest_closed|]. exists free'. split_and!; [exact V | exact P | exact B].
Qed.

(** The ELF header. *)
Lemma exec_header : exists b n elf, readi i 0 ELFHDR s = Ret (n, elf) (set_k_bufs b s) /\ on_the_way (set_k_bufs b s) [] free /\
  if zlen data <? ELFHDR then n <> ELFHDR else n = ELFHDR /\ elf = elf_header data.
Proof.
  destruct reads as [Hr _ _ _]. destruct (Hr s 0 ELFHDR (es_file _ _ _ _ _ _ _ _ _ _ _ _ X)) as (b & E & F); [lia | unfold ELFHDR; lia|].
  pose proof (es_old _ _ _ _ _ _ _ _ _ _ _ _ X) as V.
  exists b, (file_read data 0 ELFHDR).1, (file_read data 0 ELFHDR).2. rewrite <- surjective_pairing. split_and!; [exact E | |].
  - split; [exists b; apply same_rest_refl | done | eapply can_alloc_ext; [apply X | done..] | destruct V as [[K1 K2 K3 K4] _ _ _]; by split | done | apply untouched_refl].
  - unfold file_read. destruct data_size as [Hd1 Hd2]. assert (0 <= zlen data) as H0 by (unfold zlen; lia). rewrite (proj2 (Z.ltb_ge (zlen data) 0)) by lia.
    change (4294967296 <=? 0 + ELFHDR) with false. cbn [orb fst snd]. unfold elf_header. rewrite Z.sub_0_r, drop_0. unfold ELFHDR in *.
    destruct (Z.ltb_spec (zlen data) 52); [lia|]. by rewrite Z.min_l by lia.
Qed.

(** The new address space, with the kernel's mappings. *)
Lemma exec_space b : on_the_way (set_k_bufs b s) [] free -> exists r t free2, setupkvm (set_k_bufs b s) = Ret r t /\
  ((r = 0 /\ on_the_way t [] free2 /\ short s free 1026) \/
   (r <> 0 /\ exists A, space_inv t r A free2 (owned (p_pgdir pr) A0 ++ rest) /\ image A 0 /\ on_the_way t (owned r A) free2 /\
      used_by s free t free2 /\ (length free <= 1025 + length free2)%nat)).
Proof.
  intros [R F C K _ U]. pose proof (es_old _ _ _ _ _ _ _ _ _ _ _ _ X) as V.
  destruct (setupkvm_as (set_k_bufs b s) free (owned (p_pgdir pr) A0 ++ rest) K) as (r & t & free2 & E & C2 & R2 & U2 & H); [|done|].
  { eapply NoDup_perm; [|exact (si_nodup _ _ _ _ _ V)]. solve_Permutation. }
  assert (forall l, kmem_inv t free2 -> l ++ free2 ≡ₚ free -> on_the_way t l free2) as W.
  { intros l K2 P. split; [eapply load_rest_trans; [exact R | by apply load_rest_same] | destruct reads as [_ Hf _ _]; by eapply Hf | done | done | done |].
    eapply untouched_trans; [exact U | exact U2]. }
  exists r, t, free2. split; [exact E|]. destruct H as [(-> & K2 & P & Sh)|(Hz & A & V2 & Em & P & Us)]; [left|right].
  - split_and!; [done | by apply W | done].
  - split; [exact Hz|]. exists A. pose proof (user_frames_none r A Em) as Eo. split_and!; [exact V2 | | apply W; [apply V2 | by rewrite Eo] | done |].
    + intros j Hj. rewrite Em, kernel_map_user by lia. change (npages 0) with 0. split; [intros [? ?]; done | lia].
    + pose proof (meta_few _ _ _ _ _ V2). apply Permutation_length in P. rewrite length_app in P. lia.
Qed.

(** The segments. *)
Lemma exec_segments t pd A free2 : space_inv t pd A free2 (owned (p_pgdir pr) A0 ++ rest) -> image A 0 -> on_the_way t (owned pd A) free2 ->
  used_by s free t free2 -> (length free <= 1025 + length free2)%nat -> let elf := elf_header data in
  exists o t3 A3 free3, exec_load pd i elf t = Ret o t3 /\ space_inv t3 pd A3 free3 (owned (p_pgdir pr) A0 ++ rest) /\ on_the_way t3 (owned pd A3) free3 /\
    match load_spec (data := data) (Z.to_nat (elf_phnum elf)) (elf_phoff elf) 0 (fun _ => 0), o with
    | Some (sz, f), Some z => z = sz /\ 0 <= sz < KERNBASE /\ image A3 sz /\
        (forall x, 0 <= x < 4096 * npages sz -> ubyte A3 (k_mem t3) x = Some (f x) /\ user_page A3 x = true) /\
        used_by s free t3 free3 /\ (length free <= 1025 + 2 * Z.to_nat (npages sz) + length free3)%nat
    | Some (sz, _), None => short s free (1025 + 2 * Z.to_nat (npages sz))
    | None, o => o = None
    end.
Proof.
  intros V Im [R F C K P U] Us Hl elf. pose proof reads as FR.
  destruct (exec_load_as (FR := FR) t pd A free2 _ elf V C F Im) as (o & t3 & A3 & free3 & E & [V3 C3 F3 R3 P3 U3] & H); [apply Forall_take, X|].
  exists o, t3, A3, free3. split_and!; [exact E | exact V3 | |].
  - split; [by eapply load_rest_trans | done | done | apply V3 | by rewrite P3 |].
    eapply untouched_trans; [exact U|]. eapply untouched_mono; [|exact U3]. intros p. by rewrite P.
  - unfold load_result in H. destruct (load_spec _ _ _ _) as [[sz f]|]; [|done]. destruct o as [z|].
    + destruct H as [-> [L1 L2 L3 L4 L5 L6]]. split_and!; [done | lia | lia | done | done | by eapply used_trans | lia].
    + eapply short_used; [exact H | exact Us | lia].
Qed.

Lemma load_rest_enter path pd top ks s1 s2 : load_rest s1 s2 -> load_rest (exec_enter cur path pd top ks s1) (exec_enter cur path pd top ks s2).
Proof. intros (b & m & fl & ct & lg & -> & E). by exists b, m, fl, ct, lg. Qed.

(** A program that could not be loaded. *)
Lemma exec_unloaded t pd A free2 : pd <> 0 -> space_inv t pd A free2 (owned (p_pgdir pr) A0 ++ rest) -> on_the_way t (owned pd A) free2 ->
  exists s', (when (negb (pd =? 0)) (freevm pd) ;; iunlockput i ;; end_op ;; ret (-1)) t = Ret (-1) s' /\ can_alloc s' /\ exec_unchanged s'.
Proof.
  intros Hz V [R F C K P U]. rewrite (proj2 (Z.eqb_neq _ 0) Hz). cbn [negb when].
  destruct (freevm_as t pd A free2 _ V C) as (t' & free' & E & C' & R' & K' & P' & U'). rewrite (bind_Ret _ _ _ _ _ E).
  apply (exec_fails t' free'). split; [eapply load_rest_trans; [exact R | by apply load_rest_same] | destruct reads as [_ Hf _ _]; by eapply Hf | done | done | by rewrite P', P |].
  eapply untouched_trans; [exact U|]. eapply untouched_mono; [|exact U']. intros p. by rewrite P', P.
Qed.

(** A program that has been loaded. *)
Lemma exec_loaded t pd A free3 sz f path argv : space_inv t pd A free3 (owned (p_pgdir pr) A0 ++ rest) -> on_the_way t (owned pd A) free3 ->
  program data = Some (sz, f) -> 0 <= sz < KERNBASE -> image A sz ->
  (forall x, 0 <= x < 4096 * npages sz -> ubyte A (k_mem t) x = Some (f x) /\ user_page A x = true) ->
  used_by s free t free3 -> (length free <= 1025 + 2 * Z.to_nat (npages sz) + length free3)%nat ->
  Forall (fun a => Forall is_byte a /\ zlen a < 4096 * npages sz + 4096) argv ->
  exists r s', (iunlockput i ;; end_op ;; exec_image cur pd sz (elf_header data) path argv) t = Ret r s' /\ can_alloc s' /\ exec_outcome path argv r s'.
Proof.
  intros V W Ep Hsz Im By Us Hl Ha. pose proof (old_space _ _ _ W) as [V0 B0]. destruct W as [R F C K P U].
  rewrite (close_eq _ _ _ _ _ _ _ F (releasable_rest _ R)). pose proof (load_rest_closed _ _ R) as Rc.
  assert (execable (closed i ip t) cur pr A0 pd A sz free3 rest) as Xe.
  { split; [|exact V0 | by eapply space_ext | by eapply can_alloc_ext | exact Im | exact Hsz | apply X].
    destruct R as (b & m & fl & ct & lg & -> & _). exact (es_runs _ _ _ _ _ _ _ _ _ _ _ _ X). }
  destruct (exec_image_as _ _ _ _ _ _ _ _ _ Xe (elf_header data) path argv Ha) as (r & s' & E & C' & H). exists r, s'. split_and!; [exact E | exact C' |].
  unfold exec_outcome. rewrite Ep. destruct H as [(-> & Hk & Hf & R' & A' & free' & V' & P' & I' & St & Mf & B' & T1 & T2)|(-> & Hw & R' & free' & V' & P' & B')].
  - left. split_and!; [done | done |]. exists pd, A', free'. split_and!; [|exact V' | |exact I' | exact St | exact Mf | | exact T1 | exact T2].
    + eapply load_rest_trans; [apply load_rest_enter, Rc | by apply load_rest_same].
    + rewrite P'. rewrite <- P. solve_Permutation.
    + intros x Hx. destruct (B' x Hx) as [-> ->]. by apply By.
  - right. split_and!; [done | split; [eapply load_rest_trans; [exact Rc | by apply load_rest_same]|] |].
    + exists free'. split_and!; [exact V' | by rewrite P' | intros x Hx; rewrite B' by done; by apply B0].
    + destruct Hw as [Hw|[Hw|Hw]]; [by left | by right; left | right; right].
      eapply (short_used s free t free3 4); [exact Hw | exact Us | lia].
Qed.

Lemma exec_open_as path argv : (forall sz f, program data = Some (sz, f) -> Forall (fun a => Forall is_byte a /\ zlen a < 4096 * npages sz + 4096) argv) ->
  exists r s', exec_open cur i path argv s = Ret r s' /\ can_alloc s' /\ exec_outcome path argv r s'.
Proof.
  intros Ha. unfold exec_open. cbv zeta. destruct exec_header as (b & n & elf & E1 & W1 & H1). rewrite (bind_Ret _ _ _ _ _ E1).
  assert (forall t free', on_the_way t [] free' -> program data = None ->
    exists r s', (when (negb (0 =? 0)) (freevm 0) ;; iunlockput i ;; end_op ;; ret (-1)) t = Ret r s' /\ can_alloc s' /\ exec_outcome path argv r s') as Bad.
  { intros t free' W Ep. destruct (exec_fails _ _ W) as (s' & E & C & Uc). exists (-1), s'. unfold exec_outcome. by rewrite Ep. }
  assert (program data = if (zlen data <? ELFHDR) || negb (elf_magic (elf_header data) =? ELF_MAGIC) then None else
    load_spec (data := data) (Z.to_nat (elf_phnum (elf_header data))) (elf_phoff (elf_header data)) 0 (fun _ => 0)) as Ep by done.
  destruct (zlen data <? ELFHDR); [rewrite (proj2 (Z.eqb_neq _ _) H1); by eapply Bad|]. destruct H1 as [-> ->]. rewrite Z.eqb_refl. cbn [negb orb] in *.
  destruct (negb (elf_magic (elf_header data) =? ELF_MAGIC)); [by eapply Bad|].
  destruct (exec_space b W1) as (pd & t & free2 & E2 & H2). rewrite (bind_Ret _ _ _ _ _ E2). destruct H2 as [(-> & W2 & Sh)|(Hz & A & V2 & I2 & W2 & Us & Hl)].
  { destruct (exec_fails _ _ W2) as (s' & E & C & Uc). exists (-1), s'. split_and!; [exact E | done |]. unfold exec_outcome.
    destruct (program data) as [[sz f]|]; [right; split_and!; [done | done |] | done]. right. right. destruct Sh as (k & Hk & Hs). exists k. split; [lia | done]. }
  rewrite (proj2 (Z.eqb_neq _ 0) Hz). destruct (exec_segments t pd A free2 V2 I2 W2 Us Hl) as (o & t3 & A3 & free3 & E3 & V3 & W3 & H3).
  rewrite (bind_Ret _ _ _ _ _ E3). rewrite <- Ep in H3. destruct (program data) as [[sz f]|] eqn:Epd.
  - destruct o as [z|].
    + destruct H3 as (-> & Hsz & I3 & B3 & Us3 & Hl3). apply (exec_loaded t3 pd A3 free3 sz f); try done. by eapply Ha.
    + destruct (exec_unloaded t3 pd A3 free3 Hz V3 W3) as (s' & E & C & Uc). rewrite (proj2 (Z.eqb_neq _ 0) Hz) in E. exists (-1), s'. split_and!; [exact E | done |]. unfold exec_outcome. rewrite Epd.
      right. split_and!; [done | done |]. right. right. destruct H3 as (k & Hk & Hs). exists k. split; [lia | done].
  - subst o. destruct (exec_unloaded t3 pd A3 free3 Hz V3 W3) as (s' & E & C & Uc). rewrite (proj2 (Z.eqb_neq _ 0) Hz) in E. exists (-1), s'. unfold exec_outcome. rewrite Epd. by split_and!.
Qed.
End run.

(** C4: [exec] of an open file.  If the file is a program, its stack page has room for the arguments and
    there is memory, the process goes on with a new address space: the segments of the file at
    their addresses and zeros elsewhere, a page the user cannot touch, and a stack on which
    [main] finds exactly the arguments; its trap frame returns to the entry point with that
    stack, and all of its old memory is on the free list.  In all other cases [exec] returns -1,
    and the process, its memory and its registers are as before and no page is lost.  Either way
    the inode is released and the operation ended.  No argument may be longer than the new
    image and its stack together: there [sp] wraps around (see [copyout_no_table]). *)
Theorem exec_correct s cur pr A0 free rest g txn i ip nb data path argv :
  exec_start s cur pr A0 free rest g txn i ip nb data ->
  (forall sz f, program data = Some (sz, f) -> Forall (fun a => Forall is_byte a /\ zlen a < 4096 * npages sz + 4096) argv) ->
  exists r s', exec_open cur i path argv s = Ret r s' /\ can_alloc s' /\ exec_outcome s cur pr A0 free rest i ip data path argv r s'.
Proof. intros X. by eapply exec_open_as. Qed.
End execspec.

(** ** Example: the process of Fork.v runs a program of four bytes *)

#[local] Existing Instance no_devices.

Definition elf_data : list Z :=
  [127; 69; 76; 70] ++ replicate 24 0 ++ [52; 0; 0; 0] ++ replicate 12 0 ++ [1; 0] ++ replicate 6 0 ++
  [1; 0; 0; 0; 84; 0; 0; 0] ++ replicate 8 0 ++ [4; 0; 0; 0; 8; 0; 0; 0] ++ replicate 8 0 ++ [195; 1; 2; 3].
Definition elf_inode : inode := mkInode 1 1 1 (mkSleeplock true 1) true 2 0 0 1 88 (14 :: replicate 12 0).
Definition elf_disk : disk := <[14%nat := elf_data ++ replicate 424 0]> dfs_disk.
Definition elf_kst : kst :=
  set_k_icache (elf_inode :: replicate 49 inode0) (set_k_sb dfs_sb (set_k_log (k_log dfs) (set_k_disk elf_disk (set_k_bufs bcache_init rich)))).

Lemma elf_program : exists f, program elf_data = Some (8, f).
Proof. eexists. vm_compute. reflexivity. Qed.

Lemma elf_txn : in_txn dfs_geom elf_kst [] [].
Proof.
  destruct (dfs_in_txn elf_disk) as [_ C L P O]; [apply block_okb_disk; by vm_compute | by vm_compute |].
  destruct (stock_rest 1100 rich_base) as (fl & m & E). split; [| | | | done].
  - unfold elf_kst, rich, rich_table, rich_dir. rewrite E. split; [done | by eexists 0%nat, _ | |].
    + destruct boot_tables_wf as [W1 _ W3]. split; [exact W1 | reflexivity | exact W3].
    + intros [|p] q ch Hq; [by injection Hq as <-|]. change (replicate 511 proc0 !! p = Some q) in Hq. by apply lookup_replicate in Hq as [-> _].
  - by apply (cache_inv_ext (set_k_disk elf_disk dfs)).
  - destruct L. by split.
  - exact P.
Qed.

(** The same file on a kernel without processes' memory. *)
Definition elf_fs : kst := set_k_disk elf_disk dfs.

Lemma fslice_view s t ip off n : k_bufs s = k_bufs t -> k_disk s = k_disk t -> fslice s ip off n = fslice t ip off n.
Proof. intros E1 E2. unfold fslice, fbyte, baddr, vdata, vblock. by rewrite E1, E2. Qed.

Lemma elf_open : file_open dfs_geom [] 0 elf_inode 1 elf_data elf_kst.
Proof.
  assert (forall bn, 0 <= bn < 1 -> baddr elf_kst elf_inode bn = 14) as Hb by (intros bn Hbn; assert (bn = 0) as -> by lia; reflexivity).
  split; [exact elf_txn | reflexivity | by split | | cbn [i_size elf_inode]; unfold BSIZE; lia | apply dfile_room; lia | rewrite (fslice_view elf_kst elf_fs) by reflexivity; by vm_compute].
  split; [by vm_compute | reflexivity | | by intros | intros bn bm Hbn Hbm _; lia | by intros].
  intros bn Hbn. rewrite Hb by done. split; [lia|]. apply dfile_home. lia.
Qed.

Lemma elf_start : @exec_start demo_linker elf_kst 0 rich_proc rich_as (stock_list 1100) [pgD] dfs_geom [] 0 elf_inode 1 elf_data.
Proof.
  destruct (stock_rest 1100 rich_base) as (fl & m & E).
  split; [| | | | exact elf_open | | by split; [| | left | | left]].
  - split; [unfold elf_kst, rich, rich_table, rich_dir; by rewrite E | unfold elf_kst, rich, rich_table, rich_dir; by rewrite E].
  - eapply (@space_ext demo_linker); [exact rich_space | reflexivity | reflexivity].
  - unfold elf_kst, rich, rich_table, rich_dir. rewrite E. split; [intros _; by exists 0%nat, boot_cont | exact demo_locks].
  - split_and!; [left | vm_compute; split_and!; done | reflexivity].
  - apply (bool_decide_unpack _). by vm_compute.
Qed.

Lemma elf_args : Forall (fun a => Forall is_byte a /\ zlen a < 4096 * npages 8 + 4096) [[97]].
Proof. apply Forall_singleton. split; [apply Forall_singleton; unfold is_byte; lia | reflexivity]. Qed.

Lemma elf_room : ~ short elf_kst (stock_list 1100) (1030 + 2 * Z.to_nat (npages 8)).
Proof.
  change (1030 + 2 * Z.to_nat (npages 8))%nat with 1032%nat. intros (k & Hk & [Hl|Ho]).
  - assert (length (stock_list 1100) = 1100%nat) as E by (vm_compute; reflexivity). lia.
  - change (over_after elf_kst k) with (over_after rich k) in Ho. rewrite rich_over in Ho by lia. discriminate Ho.
Qed.

(** It runs, with one argument. *)
Lemma exec_correct_witness : exists f s', program elf_data = Some (8, f) /\ @exec_open demo_linker no_devices 0 0 [97] [[97]] elf_kst = Ret 0 s' /\
  @exec_replaced demo_linker elf_kst 0 rich_proc rich_as (stock_list 1100) [pgD] 0 elf_inode elf_data [97] [[97]] 8 f s'.
Proof.
  destruct elf_program as [f Ef].
  destruct (@exec_correct demo_linker demo_linked no_devices elf_kst 0 rich_proc rich_as (stock_list 1100) [pgD] dfs_geom [] 0 elf_inode 1 elf_data [97] [[97]] elf_start)
    as (r & s' & E & _ & H).
  { intros sz g Eg. rewrite Ef in Eg. injection Eg as <- _. exact elf_args. }
  exists f, s'. unfold exec_outcome in H. rewrite Ef in H. destruct H as [(Er & _ & H)|(_ & _ & [H|[H|H]])].
  - rewrite Er in E. exact (conj Ef (conj E H)).
  - exfalso. exact (proj1 (Z.lt_nge _ _) (eq_refl : 4096 * npages 8 + 8192 < KERNBASE) H).
  - exfalso. discriminate H.
  - exfalso. exact (elf_room H).
Defined.
