(* ===== verification/Sysfile.v ===== *)
(** * File system calls and the dispatcher

    sysfile.c, the container system calls in it, and [syscall] itself.  A pointer
    argument into user memory is read or written through the page table of the
    caller ([ureads], [uwrites]). *)

From S2P Require Import Prelude Monad CString KState Sched Kalloc Bio Log Fs Inode Path Vm Pipe File Proc Container Syscall Exec.

Local Open Scope kernel_scope.

Definition O_WRONLY : Z := 1.
Definition O_RDWR : Z := 2.
Definition O_CREATE : Z := 512.
Definition O_RDONLY : Z := 0.

(** ["."] and [".."] *)
Definition dot : list Z := Obj.cstring [46].
Definition dotdot : list Z := Obj.cstring [46; 46].
Definition name0 : list Z := replicate DIRSIZ 0.

(** [argfd]: the descriptor and its file. *)
Definition argfd (n : Z) : K (option (nat * nat)) :=
  r <- argint n ;;
  match r with
  | None => ret None
  | Some fd =>
      if (fd <? 0) || (Z.of_nat NOFILE <=? fd) then ret None else
      p <- curproc ;;
      pr <- get_proc p ;;
      ret (match p_ofile pr !! Z.to_nat fd with
           | Some (Some f) => Some (Z.to_nat fd, f)
           | _ => None
           end)
  end.

Definition fdalloc (f : nat) : K Z :=
  p <- curproc ;;
  r <- for_first (seq 0 NOFILE) (fun fd =>
    pr <- get_proc p ;;
    match p_ofile pr !! fd with
    | Some None =>
        upd_proc p (fun pr => set_p_ofile (<[fd := Some f]> (p_ofile pr)) pr) ;;
        ret (Some (Z.of_nat fd))
    | _ => ret None
    end) ;;
  ret (default (-1) r).

Section sysfile.
Context `{L : Linker} `{DW : Devsw}.

Definition sys_dup : K Z :=
  r <- argfd 0 ;;
  match r with
  | None => ret (-1)
  | Some (_, f) =>
      fd <- fdalloc f ;;
      if fd <? 0 then ret (-1) else
      filedup f ;;
      ret fd
  end.

(** The arguments of [sys_read] and [sys_write]: file, pointer and count. *)
Definition arg_rw : K (option (nat * Z * Z)) :=
  r <- argfd 0 ;;
  match r with
  | None => ret None
  | Some (_, f) =>
      on <- argint 2 ;;
      match on with
      | None => ret None
      | Some n =>
          op <- argptr 1 n ;;
          ret (match op with Some p => Some (f, p, n) | None => None end)
      end
  end.

Definition sys_read : K Z :=
  r <- arg_rw ;;
  match r with
  | None => ret (-1)
  | Some (f, p, n) =>
      ' (r, data) <- fileread f n ;;
      uwrites p data ;;
      ret r
  end.

Definition sys_write : K Z :=
  r <- arg_rw ;;
  match r with
  | None => ret (-1)
  | Some (f, p, n) =>
      data <- ureads p (Z.to_nat n) ;;
      filewrite f data n
  end.

Definition sys_close : K Z :=
  r <- argfd 0 ;;
  match r with
  | None => ret (-1)
  | Some (fd, f) =>
      p <- curproc ;;
      upd_proc p (fun pr => set_p_ofile (<[fd := None]> (p_ofile pr)) pr) ;;
      fileclose f ;;
      ret 0
  end.

(** [struct stat] in memory: 20 bytes, the two shorts followed by padding. *)
Definition STAT_SIZE : Z := 20.
Definition put_stat (a : Z) (st : stat) : K unit :=
  uwrites a (take 2 (le32 (st_type st))) ;;
  uwrites (u32 (a + 4)) (le32 (st_dev st)) ;;
  uwrites (u32 (a + 8)) (le32 (st_ino st)) ;;
  uwrites (u32 (a + 12)) (take 2 (le32 (st_nlink st))) ;;
  uwrites (u32 (a + 16)) (le32 (st_size st)).

Definition sys_fstat : K Z :=
  r <- argfd 0 ;;
  match r with
  | None => ret (-1)
  | Some (_, f) =>
      op <- argptr 1 STAT_SIZE ;;
      match op with
      | None => ret (-1)
      | Some a =>
          r <- filestat f ;;
          match r with
          | None => ret (-1)
          | Some st => put_stat a st ;; ret 0
          end
      end
  end.

Definition sys_link : K Z :=
  oold <- argstr 0 ;;
  match oold with None => ret (-1) | Some old =>
  onew <- argstr 1 ;;
  match onew with None => ret (-1) | Some new =>
  begin_op ;;
  oip <- namei old ;;
  match oip with
  | None => end_op ;; ret (-1)
  | Some ip =>
      ilock (Some ip) ;;
      ino <- get_inode ip ;;
      if i_type ino =? T_DIR then
        iunlockput ip ;;
        end_op ;;
        ret (-1)
      else
        upd_inode ip (fun ino => set_i_nlink (i16 (i_nlink ino + 1)) ino) ;;
        iupdate ip ;;
        iunlock (Some ip) ;;
        let bad :=
          ilock (Some ip) ;;
          upd_inode ip (fun ino => set_i_nlink (i16 (i_nlink ino - 1)) ino) ;;
          iupdate ip ;;
          iunlockput ip ;;
          end_op ;;
          ret (-1) in
        ' (odp, name) <- nameiparent new name0 ;;
        match odp with
        | None => bad
        | Some dp =>
            ilock (Some dp) ;;
            di <- get_inode dp ;;
            ino <- get_inode ip ;;
            ok <- (if negb (i_dev di =? i_dev ino) then ret false
                   else r <- dirlink dp name (i_inum ino) ;; ret (negb (r <? 0))) ;;
            if negb ok then
              iunlockput dp ;;
              bad
            else
              iunlockput dp ;;
              iput ip ;;
              end_op ;;
              ret 0
        end
  end end end.

(** The loop of [isdirempty] starts after the first two entries. *)
Definition isdirempty (dp : nat) : K bool :=
  loop MAXDIRENT (fun off =>
    di <- get_inode dp ;;
    if off <? i_size di then
      ' (n, de) <- readi dp off DIRENT ;;
      if negb (n =? DIRENT) then panic "isdirempty: readi" else
      if negb (de_inum de =? 0) then ret (inr false) else ret (inl (off + DIRENT))
    else ret (inr true)) (2 * DIRENT).

Definition sys_unlink : K Z :=
  opath <- argstr 0 ;;
  match opath with None => ret (-1) | Some path =>
  begin_op ;;
  ' (odp, name) <- nameiparent path name0 ;;
  match odp with
  | None => end_op ;; ret (-1)
  | Some dp =>
      ilock (Some dp) ;;
      let bad := iunlockput dp ;; end_op ;; ret (-1) in
      c1 <- namecmp name dot ;;
      c2 <- (if c1 =? 0 then ret 0 else namecmp name dotdot) ;;
      if c2 =? 0 then bad else
      r <- dirlookup dp name ;;
      match r with
      | None => bad
      | Some (ip, off) =>
          ilock (Some ip) ;;
          ino <- get_inode ip ;;
          if i_nlink ino <? 1 then panic "unlink: nlink < 1" else
          e <- (if i_type ino =? T_DIR then isdirempty ip else ret true) ;;
          if negb e then
            iunlockput ip ;;
            bad
          else
            n <- writei dp (replicate 16 0) off DIRENT ;;
            if negb (n =? DIRENT) then panic "unlink: writei" else
            ino <- get_inode ip ;;
            when (i_type ino =? T_DIR)
              (upd_inode dp (fun di => set_i_nlink (i16 (i_nlink di - 1)) di) ;;
               iupdate dp) ;;
            iunlockput dp ;;
            upd_inode ip (fun ino => set_i_nlink (i16 (i_nlink ino - 1)) ino) ;;
            iupdate ip ;;
            iunlockput ip ;;
            end_op ;;
            ret 0
      end
  end end.

Definition create (path : list Z) (type major minor : Z) : K (option nat) :=
  ' (odp, name) <- nameiparent path name0 ;;
  match odp with
  | None => ret None
  | Some dp =>
      ilock (Some dp) ;;
      r <- dirlookup dp name ;;
      match r with
      | Some (ip, _) =>
          iunlockput dp ;;
          ilock (Some ip) ;;
          ino <- get_inode ip ;;
          if (type =? T_FILE) && (i_type ino =? T_FILE) then ret (Some ip) else
          iunlockput ip ;;
          ret None
      | None =>
          di <- get_inode dp ;;
          ip <- ialloc (i_dev di) type ;;
          ilock (Some ip) ;;
          upd_inode ip (set_i_major major) ;;
          upd_inode ip (set_i_minor minor) ;;
          upd_inode ip (set_i_nlink 1) ;;
          iupdate ip ;;
          when (type =? T_DIR)
            (upd_inode dp (fun di => set_i_nlink (i16 (i_nlink di + 1)) di) ;;
             iupdate dp ;;
             ino <- get_inode ip ;;
             r1 <- dirlink ip dot (i_inum ino) ;;
             r2 <- (if r1 <? 0 then ret r1
                    else di <- get_inode dp ;; dirlink ip dotdot (i_inum di)) ;;
             if r2 <? 0 then panic "create dots" else ret tt) ;;
          ino <- get_inode ip ;;
          r <- dirlink dp name (i_inum ino) ;;
          if r <? 0 then panic "create: dirlink" else
          iunlockput dp ;;
          ret (Some ip)
      end
  end.

Definition sys_open : K Z :=
  opath <- argstr 0 ;;
  match opath with None => ret (-1) | Some path =>
  om <- argint 1 ;;
  match om with None => ret (-1) | Some omode =>
  begin_op ;;
  oip <- (if negb (Z.land omode O_CREATE =? 0) then create path T_FILE 0 0
          else
            oip <- namei path ;;
            match oip with
            | None => ret None
            | Some ip =>
                ilock (Some ip) ;;
                ino <- get_inode ip ;;
                if (i_type ino =? T_DIR) && negb (omode =? O_RDONLY) then
                  iunlockput ip ;;
                  ret None
                else ret (Some ip)
            end) ;;
  match oip with
  | None => end_op ;; ret (-1)
  | Some ip =>
      ofl <- filealloc ;;
      fd <- match ofl with None => ret (-1) | Some f => fdalloc f end ;;
      match ofl with
      | Some f =>
          if fd <? 0 then
            fileclose f ;;
            iunlockput ip ;;
            end_op ;;
            ret (-1)
          else
            iunlock (Some ip) ;;
            end_op ;;
            upd_file f (set_f_type FD_INODE) ;;
            upd_file f (set_f_ip (Some ip)) ;;
            upd_file f (set_f_off 0) ;;
            upd_file f (set_f_readable (Z.land omode O_WRONLY =? 0)) ;;
            upd_file f (set_f_writable
              (negb (Z.land omode O_WRONLY =? 0) || negb (Z.land omode O_RDWR =? 0))) ;;
            ret fd
      | None =>
          iunlockput ip ;;
          end_op ;;
          ret (-1)
      end
  end end end.

Definition sys_mkdir : K Z :=
  begin_op ;;
  opath <- argstr 0 ;;
  oip <- match opath with None => ret None | Some path => create path T_DIR 0 0 end ;;
  match oip with
  | None => end_op ;; ret (-1)
  | Some ip => iunlockput ip ;; end_op ;; ret 0
  end.

Definition sys_mknod : K Z :=
  begin_op ;;
  opath <- argstr 0 ;;
  oip <- match opath with None => ret None | Some path =>
    oma <- argint 1 ;;
    match oma with None => ret None | Some major =>
    omi <- argint 2 ;;
    match omi with None => ret None | Some minor => create path T_DEV (i16 major) (i16 minor)
    end end end ;;
  match oip with
  | None => end_op ;; ret (-1)
  | Some ip => iunlockput ip ;; end_op ;; ret 0
  end.

Definition sys_chdir : K Z :=
  cur <- curproc ;;
  begin_op ;;
  opath <- argstr 0 ;;
  oip <- match opath with None => ret None | Some path => namei path end ;;
  match oip with
  | None =>
      cprintf "cant pick up path" [] ;;
      end_op ;;
      ret (-1)
  | Some ip =>
      ilock (Some ip) ;;
      ino <- get_inode ip ;;
      if negb (i_type ino =? T_DIR) then
        iunlockput ip ;;
        end_op ;;
        ret (-1)
      else
        iunlock (Some ip) ;;
        pr <- get_proc cur ;;
        cwd <- deref "cwd" (p_cwd pr) ;;
        iput cwd ;;
        end_op ;;
        upd_proc cur (set_p_cwd (Some ip)) ;;
        ret 0
  end.

(** The argument vector of [sys_exec]: [None] if it is bad or too long. *)
Fixpoint exec_args (uargv : Z) (i : nat) (n : nat) : K (option (list (list Z))) :=
  match n with
  | O => ret None
  | S n' =>
      r <- fetchint (u32 (uargv + 4 * Z.of_nat i)) ;;
      match r with
      | None => ret None
      | Some uarg =>
          if uarg =? 0 then ret (Some []) else
          os <- fetchstr (u32 uarg) ;;
          match os with
          | None => ret None
          | Some (_, s) => l <- exec_args uargv (S i) n' ;; ret (cons s <$> l)
          end
      end
  end.

Definition sys_exec : K Z :=
  opath <- argstr 0 ;;
  match opath with None => ret (-1) | Some path =>
  ou <- argint 1 ;;
  match ou with None => ret (-1) | Some uargv =>
  r <- exec_args (u32 uargv) 0 MAXARG ;;
  match r with
  | None => ret (-1)
  | Some argv => exec path argv
  end end end.

Definition sys_pipe : K Z :=
  op <- argptr 0 8 ;;
  match op with
  | None => ret (-1)
  | Some fd =>
      r <- pipealloc ;;
      match r with
      | None => ret (-1)
      | Some (rf, wf) =>
          fd0 <- fdalloc rf ;;
          fd1 <- (if fd0 <? 0 then ret (-1) else fdalloc wf) ;;
          if fd1 <? 0 then
            when (0 <=? fd0)
              (p <- curproc ;;
               upd_proc p (fun pr => set_p_ofile (<[Z.to_nat fd0 := None]> (p_ofile pr)) pr)) ;;
            fileclose rf ;;
            fileclose wf ;;
            ret (-1)
          else
            uwrites fd (le32 fd0) ;;
            uwrites (u32 (fd + 4)) (le32 fd1) ;;
            ret 0
      end
  end.

(** ** Container calls *)

Definition sys_ccreate : K Z :=
  let fail := cprintf "sys_ccreate: Error getting pointers" [] ;; ret (-1) in
  on <- argstr 0 ;;
  match on with None => fail | Some name =>
  o1 <- argint 1 ;;
  match o1 with None => fail | Some mproc =>
  o2 <- argint 2 ;;
  match o2 with None => fail | Some msz =>
  o3 <- argint 3 ;;
  match o3 with None => fail | Some mdsk => ccreate name mproc (u32 msz) (u32 mdsk)
  end end end end.

Definition sys_cstart : K Z :=
  on <- argstr 0 ;;
  match on with
  | None => cprintf "sys_cstart: Error getting pointers" [] ;; ret (-1)
  | Some name => cstart name
  end.

Definition sys_cfork : K Z :=
  oc <- argint 0 ;;
  match oc with
  | None => cprintf "sys_ccfork: Error getting pointers" [] ;; ret (-1)
  | Some cid => cfork cid
  end.

(** The layout of continfo.h in user memory: [struct pinfo] has 28 bytes, [struct
    cinfo] 1836, [struct continfo] 14692. *)
Definition procstate_num (st : procstate) : Z :=
  match st with
  | UNUSED => 0 | EMBRYO => 1 | SLEEPING => 2 | RUNNABLE => 3 | RUNNING => 4 | ZOMBIE => 5
  end.
Definition contstate_num (st : contstate) : Z :=
  match st with
  | CUNUSED => 0 | CEMBRYO => 1 | CREADY => 2 | CRUNNABLE => 3 | CRUNNING => 4 | CPAUSED => 5
  | CSTOPPING => 6
  end.
Definition CONTINFO_SIZE : Z := 14692.

Fixpoint put_pinfos (a : Z) (l : list pinfo) : K unit :=
  match l with
  | [] => ret tt
  | p :: l' =>
      uwrites a (le32 (procstate_num (pi_state p)) ++ le32 (pi_pid p)) ;;
      uwrites (u32 (a + 8)) (pi_name p ++ [0]) ;;
      uwrites (u32 (a + 24)) (le32 (pi_ticks p)) ;;
      put_pinfos (u32 (a + 28)) l'
  end.

Fixpoint put_cinfos (a : Z) (l : list continfo1) : K unit :=
  match l with
  | [] => ret tt
  | c :: l' =>
      uwrites a (le32s [ci_msz c; ci_mdsk c; ci_mproc c; ci_usz c; ci_udsk c; ci_cid c;
                        contstate_num (ci_state c)]) ;;
      uwrites (u32 (a + 28)) (ci_name c ++ [0]) ;;
      put_pinfos (u32 (a + 44)) (ci_procs c) ;;
      put_cinfos (u32 (a + 1836)) l'
  end.

Definition sys_cinfo : K Z :=
  op <- argptr 0 CONTINFO_SIZE ;;
  match op with
  | None => ret (-1)
  | Some a =>
      ' (r, root, l) <- cinfo ;;
      uwrites (u32 (a + 14688)) (le32 (b2z root)) ;;
      put_cinfos a l ;;
      ret r
  end.

Definition sys_cpause : K Z :=
  on <- argstr 0 ;;
  match on with
  | None => cprintf "sys_cpause: Error getting pointers" [] ;; ret (-1)
  | Some name => cpause name
  end.

Definition sys_cresume : K Z :=
  on <- argstr 0 ;;
  match on with
  | None => cprintf "sys_cresume: Error getting pointers" [] ;; ret (-1)
  | Some name => cresume name
  end.

Definition sys_cstop : K Z :=
  on <- argstr 0 ;;
  match on with
  | None => cprintf "sys_cstop: Error getting pointers" [] ;; ret (-1)
  | Some name => cstop name
  end.

(** ** The dispatcher *)

(** The table [syscalls], from entry 1 on (syscall.h). *)
Definition syscalls : list (K Z) :=
  [ sys_fork; sys_exit; sys_wait; sys_pipe; sys_read; sys_kill; sys_exec; sys_fstat; sys_chdir;
    sys_dup; sys_getpid; sys_sbrk; sys_sleep; sys_uptime; sys_open; sys_write; sys_mknod;
    sys_unlink; sys_link; sys_mkdir; sys_close; sys_getticks; sys_ccreate; sys_cstop; sys_cstart;
    sys_cfork; sys_cinfo; sys_cpause; sys_cresume ].

Definition syscall : K unit :=
  cur <- curproc ;;
  pr <- get_proc cur ;;
  eax <- load32 (p_tf pr + tf_eax) ;;
  let num := i32 eax in
  match (if 0 <? num then syscalls !! Z.to_nat (num - 1) else None) with
  | Some f =>
      r <- f ;;
      pr <- get_proc cur ;;
      store32 (p_tf pr + tf_eax) (u32 r)
  | None =>
      cprintf "%d %s: unknown sys call %d" (p_pid pr :: Obj.chars (p_name pr) ++ [num]) ;;
      store32 (p_tf pr + tf_eax) (u32 (-1))
  end.
End sysfile.
