(* ===== verification/Console.v ===== *)
(** * The console

    console.c with its two devices, uart.c and the keyboard driver kbd.c/kbd.h:
    output to the serial line and the CGA screen, the line editor on the ring of
    input characters, the switch between the consoles of the containers, and the
    device functions [consoleread] and [consolewrite].

    What the hardware answers is an argument: the scan codes or serial bytes that
    are waiting when an interrupt handler runs. *)

From S2P Require Import Prelude Monad CString KState Spinlock Sched Kalloc Bio Log Fs Inode Path Vm Pipe File Proc Container.

Local Open Scope kernel_scope.

Definition BACKSPACE : Z := 256.
(** Control characters: [C('P')], [C('T')], [C('U')], [C('H')], [C('D')]. *)
Definition CTL_P : Z := 16.
Definition CTL_T : Z := 20.
Definition CTL_U : Z := 21.
Definition CTL_H : Z := 8.
Definition CTL_D : Z := 4.
Definition NEWLINE : Z := 10.
Definition IBUF : Z := Z.of_nat INPUT_BUF.

Definition get_cd : K consdev := gets (fun s => k_cons s).
Definition upd_cd (f : consdev -> consdev) : K unit := modify (fun s => set_k_cons (f (k_cons s)) s).
Definition upd_input (f : inputbuf -> inputbuf) : K unit :=
  upd_cd (fun cd => set_cd_input (f (cd_input cd)) cd).

Module Cons.

(** ** Output *)

(** [uartputc] waits a bounded time for the transmitter, and then sends. *)
Definition uartputc (c : Z) : K unit :=
  cd <- get_cd ;;
  when (cd_uart cd) (upd_cd (fun cd => set_cd_sent (cd_sent cd ++ [u8 c]) cd)).

(** [uartinit], with the value of the line status register. *)
Definition uartinit (status : Z) : K unit :=
  if status =? 255 then ret tt else
  upd_cd (set_cd_uart true) ;;
  for_each [120; 118; 54; 46; 46; 46; 10] uartputc.

(** The cell a character fills, and the screen after scrolling up one row. *)
Definition cell (c : Z) : Z := Z.lor (Z.land c 255) 1792.
Definition scroll (crt : list Z) (pos : Z) : list Z :=
  let moved := take (23 * 80) (drop 80 crt) ++ drop (23 * 80) crt in
  take (Z.to_nat pos) moved ++ replicate (Z.to_nat (24 * 80 - pos)) 0
    ++ drop (Z.to_nat (Z.max pos (24 * 80))) moved.

Definition cgaputc (c : Z) : K unit :=
  cd <- get_cd ;;
  let pos := cd_pos cd in
  let '(crt, pos) :=
    if c =? NEWLINE then (cd_crt cd, pos + (80 - pos mod 80))
    else if c =? BACKSPACE then (cd_crt cd, if 0 <? pos then pos - 1 else pos)
    else (<[Z.to_nat pos := cell c]> (cd_crt cd), pos + 1) in
  upd_cd (set_cd_crt crt) ;;
  if (pos <? 0) || (25 * 80 <? pos) then panic "pos under/overflow" else
  let '(crt, pos) := if 24 <=? pos / 80 then (scroll crt (pos - 80), pos - 80) else (crt, pos) in
  upd_cd (set_cd_pos (u16 pos)) ;;
  upd_cd (set_cd_crt (<[Z.to_nat pos := cell 32]> crt)).

(** [consputc]: after a panic the CPU spins. *)
Definition consputc (c : Z) : K unit :=
  cd <- get_cd ;;
  if cd_panicked cd then fault "frozen" else
  (if c =? BACKSPACE then uartputc 8 ;; uartputc 32 ;; uartputc 8 else uartputc c) ;;
  cgaputc c.

Definition digit (d : Z) : Z := if d <? 10 then 48 + d else 87 + d.

(** The digits of [x], last first: the loop [do .. while((x /= base) != 0)]. *)
Fixpoint digits_loop (fuel : nat) (x base : Z) : list Z :=
  match fuel with
  | O => []
  | S n => digit (x mod base) :: (if x / base =? 0 then [] else digits_loop n (x / base) base)
  end.

(** The characters [printint] prints. *)
Definition printint_chars (xx base : Z) (sign : bool) : list Z :=
  let neg := sign && (xx <? 0) in
  let x := if neg then u32 (- xx) else u32 xx in
  let buf := digits_loop 32 x base in
  rev (buf ++ if neg then [45] else []).

Definition printint (xx base : Z) (sign : bool) : K unit :=
  for_each (printint_chars xx base sign) consputc.

(** A variable argument: a word, or a pointer to a string. *)
Inductive parg : Type := PInt (v : Z) | PStr (s : option (list Z)).

(** "(null)" *)
Definition null_str : list Z := [40; 110; 117; 108; 108; 41].

(** The characters a format and its arguments stand for. *)
Fixpoint format (fmt : list Z) (args : list parg) : option (list Z) :=
  match fmt with
  | [] => Some []
  | c :: fmt' =>
      if negb (c =? 37) then cons c <$> format fmt' args
      else
        match fmt' with
        | [] => Some []
        | d :: rest =>
            if d =? 100 then
              match args with
              | PInt v :: args' => app (printint_chars (i32 v) 10 true) <$> format rest args'
              | _ => None
              end
            else if (d =? 120) || (d =? 112) then
              match args with
              | PInt v :: args' => app (printint_chars (i32 v) 16 false) <$> format rest args'
              | _ => None
              end
            else if d =? 115 then
              match args with
              | PStr s :: args' => app (default null_str s) <$> format rest args'
              | _ => None
              end
            else if d =? 37 then cons 37 <$> format rest args
            else (fun l => 37 :: d :: l) <$> format rest args
        end
  end.

(** [cprintf]; an argument of the wrong kind is undefined in C. *)
Definition cprintf (fmt : list Z) (args : list parg) : K unit :=
  locking <- gets (fun s => k_locking s) ;;
  when locking (acquire LCons) ;;
  l <- deref "cprintf" (format fmt args) ;;
  for_each l consputc ;;
  when locking (release LCons).

(** [panic] up to its final loop: [id] is the CPU's lapic id, [pcs] the caller pcs.
    Kernel code that calls [panic] ends in the outcome [Panic]. *)
Definition panic_report (id : Z) (msg : list Z) (pcs : list Z) : K unit :=
  modify (set_k_locking false) ;;
  cprintf [108; 97; 112; 105; 99; 105; 100; 32; 37; 100; 58; 32; 112; 97; 110; 105; 99; 58; 32] [PInt id] ;;
  cprintf msg [] ;;
  cprintf [10] [] ;;
  for_each pcs (fun pc => cprintf [32; 37; 112] [PInt pc]) ;;
  upd_cd (set_cd_panicked true).

(** ** Input *)

Fixpoint copy_buf (dst src : list Z) (i : Z) (len : nat) : list Z :=
  match len with
  | O => dst
  | S len' => copy_buf (lput dst i (lget src i)) src (i + 1) len'
  end.

Definition nextconsole : K unit :=
  cd <- get_cd ;;
  upd_cd (set_cd_buffers (<[Z.to_nat (cd_active cd) := cd_input cd]> (cd_buffers cd))) ;;
  upd_cd (set_cd_active ((cd_active cd + 1) mod Z.of_nat NCONT)) ;;
  cd <- get_cd ;;
  i <- deref "buffers" (cd_buffers cd !! Z.to_nat (cd_active cd)) ;;
  upd_cd (set_cd_input i).

(** Kill line: back to the last newline or to the start of the edited part. *)
Definition kill_line : K unit :=
  cd <- get_cd ;;
  let inp := cd_input cd in
  loop (S (Z.to_nat (u32 (in_e inp - in_w inp)))) (fun _ : unit =>
    cd <- get_cd ;;
    let inp := cd_input cd in
    if negb (in_e inp =? in_w inp) && negb (lget (in_buf inp) (u32 (in_e inp - 1) mod IBUF) =? NEWLINE) then
      upd_input (set_in_e (u32 (in_e inp - 1))) ;;
      consputc BACKSPACE ;;
      ret (inl tt)
    else ret (inr tt)) tt.

(** One character of [consoleintr]'s loop. *)
Definition console_char (c : Z) : K unit :=
  if c =? CTL_P then ret tt
  else if c =? CTL_T then nextconsole
  else if c =? CTL_U then kill_line
  else if (c =? CTL_H) || (c =? 127) then
    cd <- get_cd ;;
    let inp := cd_input cd in
    when (negb (in_e inp =? in_w inp))
      (upd_input (set_in_e (u32 (in_e inp - 1))) ;;
       consputc BACKSPACE)
  else
    cd <- get_cd ;;
    let inp := cd_input cd in
    when (negb (c =? 0) && (u32 (in_e inp - in_r inp) <? IBUF))
      (let c := if c =? 13 then NEWLINE else c in
       upd_input (fun inp => set_in_e (u32 (in_e inp + 1)) (set_in_buf (lput (in_buf inp) (in_e inp mod IBUF) c) inp)) ;;
       consputc c ;;
       cd <- get_cd ;;
       let inp := cd_input cd in
       when ((c =? NEWLINE) || (c =? CTL_D) || (in_e inp =? u32 (in_r inp + IBUF)))
         (upd_input (fun inp => set_in_w (in_e inp) inp) ;;
          wakeup ChInput)).

(** "\n\nActive console now: %d" *)
Definition active_fmt : list Z :=
  [10; 10; 65; 99; 116; 105; 118; 101; 32; 99; 111; 110; 115; 111; 108; 101; 32; 110; 111; 119; 58; 32; 37; 100].

(** [consoleintr]: [cs] is what [getc] returns before it returns -1. *)
Definition consoleintr (cs : list Z) : K unit :=
  acquire LCons ;;
  for_each cs console_char ;;
  release LCons ;;
  when (bool_decide (CTL_P ∈ cs)) contdump ;;
  when (bool_decide (CTL_T ∈ cs))
    (cd <- get_cd ;;
     cprintf active_fmt [PInt (cd_active cd)]).

(** [consoleread]: the result and the bytes stored at [dst]. *)
Definition consoleread (ip : nat) (n : Z) : K (Z * list Z) :=
  iunlock (Some ip) ;;
  let target := n in
  acquire LCons ;;
  r <- loop (S (Z.to_nat n)) (fun '(n, dst) =>
    if 0 <? n then
      ok <- loop MAXWAIT (fun _ : unit =>
        cd <- get_cd ;;
        ino <- get_inode ip ;;
        let inp := cd_input cd in
        if (in_r inp =? in_w inp) || negb (cd_active cd =? i_minor ino) then
          k <- killed ;;
          if (k : bool) then
            release LCons ;;
            ilock (Some ip) ;;
            ret (inr false)
          else
            sleep ChInput LCons ;;
            ret (inl tt)
        else ret (inr true)) tt ;;
      if negb ok then ret (inr None) else
      cd <- get_cd ;;
      let inp := cd_input cd in
      let c := i8 (lget (in_buf inp) (in_r inp mod IBUF)) in
      upd_input (set_in_r (u32 (in_r inp + 1))) ;;
      if c =? CTL_D then
        when (n <? u32 target) (upd_input (fun inp => set_in_r (u32 (in_r inp - 1)) inp)) ;;
        ret (inr (Some (n, dst)))
      else
        let dst := dst ++ [u8 c] in
        let n := n - 1 in
        if c =? NEWLINE then ret (inr (Some (n, dst))) else ret (inl (n, dst))
    else ret (inr (Some (n, dst)))) (n, []) ;;
  match r with
  | None => ret (-1, [])
  | Some (n, dst) =>
      release LCons ;;
      ilock (Some ip) ;;
      ret (i32 (target - n), dst)
  end.

Definition consolewrite (ip : nat) (buf : list Z) (n : Z) : K Z :=
  cd <- get_cd ;;
  ino <- get_inode ip ;;
  when (cd_active cd =? i_minor ino)
    (iunlock (Some ip) ;;
     acquire LCons ;;
     for_each (take (Z.to_nat n) buf) (fun c => consputc (Z.land c 255)) ;;
     release LCons ;;
     ilock (Some ip)) ;;
  ret n.

(** [consoleinit]: the device functions are those of [console_devsw]. *)
Definition consoleinit : K unit :=
  initlock LCons ;;
  modify (set_k_locking true).

(** ** The drivers' interrupts *)

(** [uartgetc] and [uartintr]: [rx] are the bytes the line has received. *)
Definition uartintr (rx : list Z) : K unit :=
  cd <- get_cd ;;
  consoleintr (if cd_uart cd then rx else []).

(** Keyboard modifiers and maps (kbd.h): the first rows, by scan code, and the keys
    of the upper half. *)
Definition SHIFT : Z := 1.
Definition CTL : Z := 2.
Definition ALT : Z := 4.
Definition CAPSLOCK : Z := 8.
Definition NUMLOCK : Z := 16.
Definition SCROLLLOCK : Z := 32.
Definition E0ESC : Z := 64.

Fixpoint assoc (k : Z) (l : list (Z * Z)) : Z :=
  match l with
  | [] => 0
  | (a, b) :: l' => if a =? k then b else assoc k l'
  end.

Definition shiftcode (d : Z) : Z :=
  assoc d [(29, CTL); (42, SHIFT); (54, SHIFT); (56, ALT); (157, CTL); (184, ALT)].
Definition togglecode (d : Z) : Z := assoc d [(58, CAPSLOCK); (69, NUMLOCK); (70, SCROLLLOCK)].

Definition normalmap_rows : list Z :=
  [
    0; 27; 49; 50; 51; 52; 53; 54; 55; 56; 57; 48; 45; 61; 8; 9;
    113; 119; 101; 114; 116; 121; 117; 105; 111; 112; 91; 93; 10; 0; 97; 115;
    100; 102; 103; 104; 106; 107; 108; 59; 39; 96; 0; 92; 122; 120; 99; 118;
    98; 110; 109; 44; 46; 47; 0; 42; 0; 32; 0; 0; 0; 0; 0; 0;
    0; 0; 0; 0; 0; 0; 0; 55; 56; 57; 45; 52; 53; 54; 43; 49;
    50; 51; 48; 46; 0; 0; 0; 0 ].
Definition keypad : list (Z * Z) :=
  [(156, 10); (181, 47); (200, 226); (208, 227); (201, 230); (209, 231);
   (203, 228); (205, 229); (151, 224); (207, 225); (210, 232); (211, 233)].
Definition shiftmap_rows : list Z :=
  [
    0; 27; 33; 64; 35; 36; 37; 94; 38; 42; 40; 41; 95; 43; 8; 9;
    81; 87; 69; 82; 84; 89; 85; 73; 79; 80; 123; 125; 10; 0; 65; 83;
    68; 70; 71; 72; 74; 75; 76; 58; 34; 126; 0; 124; 90; 88; 67; 86;
    66; 78; 77; 60; 62; 63; 0; 42; 0; 32; 0; 0; 0; 0; 0; 0;
    0; 0; 0; 0; 0; 0; 0; 55; 56; 57; 45; 52; 53; 54; 43; 49;
    50; 51; 48; 46; 0; 0; 0; 0 ].
Definition ctlmap_rows : list Z :=
  [
    0; 0; 0; 0; 0; 0; 0; 0; 0; 0; 0; 0; 0; 0; 0; 0;
    17; 23; 5; 18; 20; 25; 21; 9; 15; 16; 0; 0; 13; 0; 1; 19;
    4; 6; 7; 8; 10; 11; 12; 0; 0; 0; 0; 28; 26; 24; 3; 22;
    2; 14; 13; 0; 0; 239; 0; 0 ].
Definition ctl_keypad : list (Z * Z) :=
  [(156, 13); (181, 239); (200, 226); (208, 227); (201, 230); (209, 231);
   (203, 228); (205, 229); (151, 224); (207, 225); (210, 232); (211, 233)].
Definition keymap (rows : list Z) (upper : list (Z * Z)) (d : Z) : Z :=
  if d <? zlen rows then lget rows d else assoc d upper.
Definition normalmap : Z -> Z := keymap normalmap_rows keypad.
Definition shiftmap : Z -> Z := keymap shiftmap_rows keypad.
Definition ctlmap : Z -> Z := keymap ctlmap_rows ctl_keypad.
Definition charcode (sel : Z) : Z -> Z :=
  if sel =? 0 then normalmap else if sel =? 1 then shiftmap else ctlmap.

(** [kbdgetc] on the scan code [data]: the character and the new modifiers. *)
Definition kbdgetc (shift data : Z) : Z * Z :=
  if data =? 224 then (0, Z.lor shift E0ESC)
  else if negb (Z.land data 128 =? 0) then
    let data := if negb (Z.land shift E0ESC =? 0) then data else Z.land data 127 in
    (0, Z.land shift (Z.lnot (Z.lor (shiftcode data) E0ESC)))
  else
    let '(data, shift) :=
      if negb (Z.land shift E0ESC =? 0) then (Z.lor data 128, Z.land shift (Z.lnot E0ESC))
      else (data, shift) in
    let shift := Z.lor shift (shiftcode data) in
    let shift := Z.lxor shift (togglecode data) in
    let c := charcode (Z.land shift (Z.lor CTL SHIFT)) data in
    let c :=
      if negb (Z.land shift CAPSLOCK =? 0) then
        if (97 <=? c) && (c <=? 122) then c + (65 - 97)
        else if (65 <=? c) && (c <=? 90) then c + (97 - 65)
        else c
      else c in
    (c, shift).

Fixpoint kbd_chars (shift : Z) (scans : list Z) : list Z * Z :=
  match scans with
  | [] => ([], shift)
  | d :: scans' =>
      let '(c, shift) := kbdgetc shift d in
      let '(cs, shift) := kbd_chars shift scans' in
      (c :: cs, shift)
  end.

(** [kbdintr] with the modifiers held in [kbdgetc]'s static; the new modifiers. *)
Definition kbdintr (shift : Z) (scans : list Z) : K Z :=
  let '(cs, shift) := kbd_chars shift scans in
  consoleintr cs ;;
  ret shift.
End Cons.

(** Device 1 is the console. *)
#[export] Instance console_devsw : Devsw := {|
  dev_read major := if major =? 1 then Some Cons.consoleread else None;
  dev_write major := if major =? 1 then Some Cons.consolewrite else None
|}.
