(* ===== verification/Tty.v ===== *)
(** * The console as the user sees it

    console.c's input side refines a simple terminal: each of the [NCONT] consoles has the
    characters of complete lines, waiting to be read, and the line being edited.  The ring
    of [INPUT_BUF] characters, its three running indices and the copying of the ring when
    the consoles are switched are invisible. *)

From S2P Require Import Prelude Monad CString KState Spinlock Sched Kalloc Bio Log Fs Inode Path Vm Pipe File Proc Container Console.

Import Cons.
Local Open Scope kernel_scope.

(** ** The screen never overflows *)

(** The cursor is on one of the first 24 rows. *)
Record screen_ok (cd : consdev) : Prop := {
  sc_pos : 0 <= cd_pos cd < 1920;
  sc_crt : length (cd_crt cd) = 2000%nat;
  sc_live : cd_panicked cd = false
}.

(** What printing leaves alone. *)
Record same_input (cd cd' : consdev) : Prop := {
  si_input : cd_input cd' = cd_input cd;
  si_buffers : cd_buffers cd' = cd_buffers cd;
  si_active : cd_active cd' = cd_active cd
}.

Lemma same_input_refl cd : same_input cd cd.
Proof. done. Qed.

Lemma same_input_trans a b c : same_input a b -> same_input b c -> same_input a c.
Proof. intros [A B C] [A' B' C']. split; congruence. Qed.

(** An operation that only prints: it returns, and changes only the screen and the line. *)
Definition prints (m : K unit) : Prop :=
  forall s, screen_ok (k_cons s) ->
  exists cd, m s = Ret tt (set_k_cons cd s) /\ screen_ok cd /\ same_input (k_cons s) cd.

Lemma prints_ret : prints (ret tt).
Proof. intros s H. exists (k_cons s). split; [by destruct s | done]. Qed.

Lemma prints_bind m m' : prints m -> prints m' -> prints (m ;; m').
Proof.
  intros Hm Hm' s H. destruct (Hm s H) as (cd & E & H1 & S1).
  destruct (Hm' (set_k_cons cd s) H1) as (cd' & E' & H2 & S2).
  exists cd'. rewrite (bind_Ret _ _ _ _ _ E), E'. split; [done|]. split; [done|].
  by apply same_input_trans with cd.
Qed.

Lemma prints_when b m : prints m -> prints (when b m).
Proof. intros H. destruct b; [done | apply prints_ret]. Qed.

Lemma prints_for_each {A} (l : list A) f : (forall x, prints (f x)) -> prints (for_each l f).
Proof. intros H. induction l; [apply prints_ret | by apply prints_bind]. Qed.

Lemma prints_uartputc c : prints (uartputc c).
Proof.
  intros s H. unfold uartputc, get_cd, upd_cd. krun. unfold when. destruct (cd_uart (k_cons s)).
  - eexists. split; [reflexivity|]. destruct H. done.
  - by apply prints_ret.
Qed.

Lemma scroll_length crt pos : length crt = 2000%nat -> 0 <= pos <= 1920 -> length (scroll crt pos) = 2000%nat.
Proof.
  intros H Hp. unfold scroll.
  rewrite !length_app, !length_take, length_replicate, !length_drop, !length_app, !length_take, !length_drop.
  rewrite H. lia.
Qed.

(** The cursor and screen before scrolling. *)
Lemma cgaputc_pos c cd crt pos :
  screen_ok cd ->
  (if c =? NEWLINE then (cd_crt cd, cd_pos cd + (80 - cd_pos cd mod 80))
   else if c =? BACKSPACE then (cd_crt cd, if 0 <? cd_pos cd then cd_pos cd - 1 else cd_pos cd)
   else (<[Z.to_nat (cd_pos cd) := cell c]> (cd_crt cd), cd_pos cd + 1)) = (crt, pos) ->
  0 <= pos <= 1920 /\ length crt = 2000%nat.
Proof.
  intros [Hp Hl _]. destruct (c =? NEWLINE), (c =? BACKSPACE); intros [= <- <-];
    rewrite ?length_insert; (split; [|done]); try zlia; destruct (Z.ltb_spec 0 (cd_pos cd)); zlia.
Qed.

Lemma prints_cgaputc c : prints (cgaputc c).
Proof.
  intros s H. unfold cgaputc, get_cd, upd_cd. rewrite bind_gets.
  destruct (if c =? NEWLINE then _ else _) as [crt pos] eqn:E.
  destruct (cgaputc_pos c _ crt pos H E) as [Hp Hl]. rewrite bind_modify.
  replace ((pos <? 0) || (25 * 80 <? pos)) with false
    by (symmetry; apply orb_false_iff; rewrite !Z.ltb_ge; lia).
  assert (exists crt' pos', (if 24 <=? pos / 80 then (scroll crt (pos - 80), pos - 80) else (crt, pos)) = (crt', pos') /\
    0 <= pos' < 1920 /\ length crt' = 2000%nat) as (crt' & pos' & -> & Hp' & Hl').
  { destruct (Z.leb_spec 24 (pos / 80)); eexists _, _; (split; [reflexivity|]).
    - split; [zlia|]. apply scroll_length; [done|]. zlia.
    - split; [zlia | done]. }
  rewrite bind_modify. eexists. split; [reflexivity|]. split; [|done].
  split; simpl; [unfold u16; zlia | by rewrite length_insert | apply H].
Qed.

Lemma prints_consputc c : prints (consputc c).
Proof.
  intros s H. unfold consputc, get_cd. rewrite bind_gets, (sc_live _ H).
  apply (prints_bind (if c =? BACKSPACE then _ else _)); [|apply prints_cgaputc | done].
  destruct (c =? BACKSPACE); repeat apply prints_bind; apply prints_uartputc.
Qed.

(** [cprintf] when the console lock is free. *)
Lemma cons_cprintf_eq fmt args l s :
  screen_ok (k_cons s) -> LCons ∉ k_held s -> format fmt args = Some l ->
  exists cd, cprintf fmt args s = Ret tt (set_k_cons cd s) /\ screen_ok cd /\ same_input (k_cons s) cd.
Proof.
  intros H Hl Hf. pose proof (prints_for_each l consputc prints_consputc) as Hp.
  unfold cprintf. rewrite bind_gets, Hf. destruct (k_locking s); unfold when.
  - rewrite (bind_Ret _ _ _ _ _ (acquire_eq _ _ Hl)). unfold deref. rewrite bind_ret.
    destruct (Hp (set_k_held (LCons :: k_held s) s) H) as (cd & Hr & Hs & Hi). exists cd. split; [|done].
    rewrite (bind_Ret _ _ _ _ _ Hr). rewrite (release_eq LCons (k_held s)) by done. by destruct s.
  - rewrite bind_ret. unfold deref. rewrite bind_ret. destruct (Hp s H) as (cd & Hr & Hs & Hi).
    exists cd. split; [|done]. by rewrite (bind_Ret _ _ _ _ _ Hr).
Qed.

(** ** The ring of characters *)

Definition ring (buf : list Z) (from n : Z) : list Z :=
  (fun i => lget buf ((from + Z.of_nat i) mod IBUF)) <$> seq 0 (Z.to_nat n).

(** A terminal: complete lines, and the line being edited. *)
Record tty : Type := mkTty { t_done : list Z; t_edit : list Z }.

Lemma tty_eta t : t = mkTty (t_done t) (t_edit t).
Proof. by destruct t. Qed.

Definition tty_of (inp : inputbuf) : tty :=
  mkTty (ring (in_buf inp) (in_r inp) (u32 (in_w inp - in_r inp)))
        (ring (in_buf inp) (in_w inp) (u32 (in_e inp - in_w inp))).

Record input_ok (inp : inputbuf) : Prop := {
  io_len : length (in_buf inp) = INPUT_BUF;
  io_r : 0 <= in_r inp < 4294967296;
  io_w : 0 <= in_w inp < 4294967296;
  io_e : 0 <= in_e inp < 4294967296;
  io_room : u32 (in_w inp - in_r inp) + u32 (in_e inp - in_w inp) <= IBUF;
  io_edit : NEWLINE ∉ t_edit (tty_of inp)
}.

Definition tty_size (t : tty) : Z := zlen (t_done t) + zlen (t_edit t).

(** The characters a key press puts into the line: carriage return is newline. *)
Definition typed_char (c : Z) : Z := if c =? 13 then NEWLINE else c.

(** What a key press does to the terminal. *)
Definition tty_key (c : Z) (t : tty) : tty :=
  if c =? CTL_U then mkTty (t_done t) []
  else if (c =? CTL_H) || (c =? 127) then mkTty (t_done t) (take (length (t_edit t) - 1) (t_edit t))
  else if negb (c =? 0) && (tty_size t <? IBUF) then
    let c := typed_char c in
    let l := t_edit t ++ [c] in
    if (c =? NEWLINE) || (c =? CTL_D) || (tty_size t + 1 =? IBUF) then mkTty (t_done t ++ l) []
    else mkTty (t_done t) l
  else t.

Lemma IBUF_eq : IBUF = 128.
Proof. done. Qed.

Ltac ring_lia := rewrite ?IBUF_eq in *; zlia.

Lemma length_ring buf from n : length (ring buf from n) = Z.to_nat n.
Proof. unfold ring. by rewrite length_fmap, length_seq. Qed.

Lemma ring_put buf from n pos c :
  0 <= pos -> n <= (pos - from) mod IBUF ->
  ring (lput buf (pos mod IBUF) c) from n = ring buf from n.
Proof.
  intros Hp Hn. unfold ring. apply list_fmap_ext. intros i j Hj. apply lookup_seq in Hj as [-> Hj].
  apply lget_lput_ne; [ring_lia | ring_lia |]. ring_lia.
Qed.

Lemma ring_snoc buf from n : 0 <= n ->
  ring buf from (n + 1) = ring buf from n ++ [lget buf ((from + n) mod IBUF)].
Proof.
  intros Hn. unfold ring. replace (Z.to_nat (n + 1)) with (S (Z.to_nat n)) by lia.
  rewrite seq_S, fmap_app. simpl. by rewrite Z2Nat.id by lia.
Qed.

Lemma ring_app buf from from' n m : 0 <= n -> 0 <= m -> (from' - (from + n)) mod IBUF = 0 ->
  ring buf from (n + m) = ring buf from n ++ ring buf from' m.
Proof.
  intros Hn Hm Hf. unfold ring. rewrite Z2Nat.inj_add, seq_app, fmap_app by lia. f_equal.
  rewrite Nat.add_0_l, <- (Nat.add_0_r (Z.to_nat n)), <- fmap_add_seq, <- list_fmap_compose.
  apply list_fmap_ext. intros i j _. simpl. f_equal. ring_lia.
Qed.

Lemma ring_take buf from n m : 0 <= m <= n -> ring buf from m = take (Z.to_nat m) (ring buf from n).
Proof.
  intros H. unfold ring. rewrite <- fmap_take, take_seq. do 2 f_equal. lia.
Qed.

Lemma tty_size_eq inp : input_ok inp ->
  tty_size (tty_of inp) = u32 (in_w inp - in_r inp) + u32 (in_e inp - in_w inp).
Proof.
  intros H. unfold tty_size, zlen, tty_of. simpl. rewrite !length_ring.
  pose proof (u32_range (in_w inp - in_r inp)). pose proof (u32_range (in_e inp - in_w inp)). lia.
Qed.

Lemma input_room inp : input_ok inp ->
  (u32 (in_e inp - in_r inp) <? IBUF) = (tty_size (tty_of inp) <? IBUF).
Proof.
  intros H. rewrite (tty_size_eq inp H). destruct H as [_ Hr Hw He Hroom _].
  apply eq_iff_eq_true. rewrite !Z.ltb_lt. ring_lia.
Qed.

(** Typing a character: it is appended to the line. *)
Definition put_char (c : Z) (inp : inputbuf) : inputbuf :=
  set_in_e (u32 (in_e inp + 1)) (set_in_buf (lput (in_buf inp) (in_e inp mod IBUF) c) inp).
Definition commit_line (inp : inputbuf) : inputbuf := set_in_w (in_e inp) inp.
Definition rub_out (inp : inputbuf) : inputbuf := set_in_e (u32 (in_e inp - 1)) inp.

Lemma put_char_tty c inp :
  input_ok inp -> 0 <= c < 256 -> tty_size (tty_of inp) < IBUF ->
  tty_of (put_char c inp) = mkTty (t_done (tty_of inp)) (t_edit (tty_of inp) ++ [c]) /\
  u32 (in_e (put_char c inp) - in_w inp) = u32 (in_e inp - in_w inp) + 1.
Proof.
  intros H Hc Hs. rewrite (tty_size_eq inp H) in Hs. destruct H as [Hl Hr Hw He Hroom _].
  assert (u32 (u32 (in_e inp + 1) - in_w inp) = u32 (in_e inp - in_w inp) + 1) as E by ring_lia.
  split; [|exact E]. unfold tty_of, put_char. simpl. rewrite E. f_equal.
  - apply ring_put; [lia | ring_lia].
  - rewrite ring_snoc by apply u32_range. f_equal.
    + apply ring_put; [lia | ring_lia].
    + f_equal. replace ((in_w inp + _) mod IBUF) with (in_e inp mod IBUF) by ring_lia.
      rewrite lget_lput; [by apply u8_small|]. unfold zlen. rewrite Hl. change (Z.of_nat INPUT_BUF) with 128. ring_lia.
Qed.

Lemma put_char_ok c inp :
  input_ok inp -> 0 <= c < 256 -> c <> NEWLINE -> tty_size (tty_of inp) < IBUF -> input_ok (put_char c inp).
Proof.
  intros H Hc Hn Hs. destruct (put_char_tty c inp H Hc Hs) as [Ht He']. rewrite (tty_size_eq inp H) in Hs.
  destruct H as [Hl Hr Hw He Hroom Hed]. split; try done.
  - simpl. by rewrite length_lput.
  - simpl. apply u32_range.
  - change (in_w (put_char c inp)) with (in_w inp). rewrite He'. change (in_r (put_char c inp)) with (in_r inp). lia.
  - rewrite Ht. simpl. rewrite not_elem_of_app. split; [done|]. by rewrite list_elem_of_singleton.
Qed.

Lemma put_commit c inp :
  input_ok inp -> 0 <= c < 256 -> tty_size (tty_of inp) < IBUF ->
  input_ok (commit_line (put_char c inp)) /\
  tty_of (commit_line (put_char c inp)) = mkTty (t_done (tty_of inp) ++ t_edit (tty_of inp) ++ [c]) [].
Proof.
  intros H Hc Hs. destruct (put_char_tty c inp H Hc Hs) as [Ht He']. rewrite (tty_size_eq inp H) in Hs.
  destruct H as [Hl Hr Hw He Hroom Hed]. set (inp1 := put_char c inp) in *.
  pose proof (u32_range (in_w inp - in_r inp)). pose proof (u32_range (in_e inp - in_w inp)).
  assert (u32 (in_e inp1 - in_r inp) = u32 (in_w inp - in_r inp) + (u32 (in_e inp - in_w inp) + 1)) as E
    by (unfold inp1 in *; simpl in *; ring_lia).
  assert (u32 (in_e inp1 - in_e inp1) = 0) as E0 by (by rewrite Z.sub_diag).
  assert (tty_of (commit_line inp1) = mkTty (t_done (tty_of inp) ++ t_edit (tty_of inp) ++ [c]) []) as Hq.
  { change (tty_of (commit_line inp1)) with
      (mkTty (ring (in_buf inp1) (in_r inp) (u32 (in_e inp1 - in_r inp)))
             (ring (in_buf inp1) (in_e inp1) (u32 (in_e inp1 - in_e inp1)))).
    change (tty_of inp1) with
      (mkTty (ring (in_buf inp1) (in_r inp) (u32 (in_w inp - in_r inp)))
             (ring (in_buf inp1) (in_w inp) (u32 (in_e inp1 - in_w inp)))) in Ht.
    injection Ht as H1 H2. simpl t_done. simpl t_edit. rewrite <- H1, <- H2, E0, E.
    change (u32 (u32 (in_e inp + 1) - in_w inp)) with (u32 (in_e inp1 - in_w inp)). rewrite He'. f_equal.
    apply ring_app; [lia | lia |]. ring_lia. }
  split; [|done]. split; try done.
  - simpl. by rewrite length_lput.
  - simpl. apply u32_range.
  - simpl. apply u32_range.
  - change (u32 (in_e inp1 - in_r inp) + u32 (in_e inp1 - in_e inp1) <= IBUF). lia.
  - rewrite Hq. simpl. apply not_elem_of_nil.
Qed.

Lemma edit_empty inp : input_ok inp -> (in_e inp =? in_w inp) = bool_decide (t_edit (tty_of inp) = []).
Proof.
  intros H. apply eq_iff_eq_true. rewrite Z.eqb_eq, bool_decide_eq_true.
  rewrite <- length_zero_iff_nil. simpl. rewrite length_ring. destruct H. ring_lia.
Qed.

Lemma rub_out_tty inp :
  input_ok inp -> t_edit (tty_of inp) <> [] ->
  input_ok (rub_out inp) /\
  tty_of (rub_out inp) = mkTty (t_done (tty_of inp)) (take (length (t_edit (tty_of inp)) - 1) (t_edit (tty_of inp))).
Proof.
  intros H Hne. assert (in_e inp <> in_w inp) as Hew.
  { intros E. apply Hne. pose proof (edit_empty inp H) as Hx. rewrite E, Z.eqb_refl in Hx.
    symmetry in Hx. by apply bool_decide_eq_true in Hx. }
  destruct H as [Hl Hr Hw He Hroom Hed].
  pose proof (u32_range (in_e inp - in_w inp)).
  assert (u32 (u32 (in_e inp - 1) - in_w inp) = u32 (in_e inp - in_w inp) - 1 /\ 0 < u32 (in_e inp - in_w inp)) as [E E0]
    by ring_lia.
  assert (tty_of (rub_out inp) = mkTty (t_done (tty_of inp)) (take (length (t_edit (tty_of inp)) - 1) (t_edit (tty_of inp)))) as Ht.
  { unfold tty_of, rub_out. simpl. rewrite E, length_ring. f_equal.
    rewrite (ring_take _ _ (u32 (in_e inp - in_w inp))) by lia. f_equal. lia. }
  split; [|done]. split; try done.
  - simpl. apply u32_range.
  - simpl. rewrite E. lia.
  - rewrite Ht. simpl t_edit. intros Hin. apply Hed. simpl.
    apply list_elem_of_lookup in Hin as [i Hi]. apply lookup_take_Some in Hi as [Hi _].
    by apply list_elem_of_lookup_2 with i.
Qed.

(** ** All consoles *)

Record consoles_ok (cd : consdev) : Prop := {
  co_screen : screen_ok cd;
  co_active : 0 <= cd_active cd < Z.of_nat NCONT;
  co_count : length (cd_buffers cd) = NCONT;
  co_input : input_ok (cd_input cd);
  co_buffers : Forall input_ok (cd_buffers cd)
}.

(** The terminals: the active one is in [input], the others in [buffers]. *)
Definition ttys (cd : consdev) : list tty :=
  tty_of <$> <[Z.to_nat (cd_active cd) := cd_input cd]> (cd_buffers cd).

(** A key press: ^T moves to the next console, ^P is for the kernel, every other key
    goes to the active console. *)
Definition press (st : Z * list tty) (c : Z) : Z * list tty :=
  let '(a, ts) := st in
  if c =? CTL_P then st
  else if c =? CTL_T then ((a + 1) mod Z.of_nat NCONT, ts)
  else (a, alter (tty_key c) (Z.to_nat a) ts).

(** The key completes a line, so that readers are woken. *)
Definition completes (c : Z) (t : tty) : bool :=
  negb ((c =? CTL_P) || (c =? CTL_T) || (c =? CTL_U) || (c =? CTL_H) || (c =? 127) || (c =? 0)) &&
  (tty_size t <? IBUF) &&
  ((typed_char c =? NEWLINE) || (typed_char c =? CTL_D) || (tty_size t + 1 =? IBUF)).

Definition active_tty (st : Z * list tty) : tty := default (mkTty [] []) (snd st !! Z.to_nat (fst st)).

Definition view (cd : consdev) : Z * list tty := (cd_active cd, ttys cd).

Lemma active_lt cd : consoles_ok cd -> (Z.to_nat (cd_active cd) < length (cd_buffers cd))%nat.
Proof. intros H. rewrite (co_count _ H). pose proof (co_active _ H). lia. Qed.

Lemma active_view cd : consoles_ok cd -> active_tty (view cd) = tty_of (cd_input cd).
Proof.
  intros H. unfold active_tty, view, ttys. simpl.
  rewrite list_lookup_fmap, list_lookup_insert_eq by (by apply active_lt). done.
Qed.

(** A change of the active console's ring. *)
Lemma view_input cd cd' f :
  consoles_ok cd -> screen_ok cd' -> cd_buffers cd' = cd_buffers cd -> cd_active cd' = cd_active cd ->
  input_ok (cd_input cd') -> tty_of (cd_input cd') = f (tty_of (cd_input cd)) ->
  consoles_ok cd' /\ view cd' = (cd_active cd, alter f (Z.to_nat (cd_active cd)) (ttys cd)).
Proof.
  intros H Hs Hb Ha Hi Hf. split.
  - destruct H. split; [done | by rewrite Ha | by rewrite Hb | done | by rewrite Hb].
  - unfold view, ttys. rewrite Ha, Hb. f_equal. apply list_eq. intros j.
    rewrite lookup_alter_case, !list_lookup_fmap. pose proof (active_lt cd H) as Hlt.
    case_decide as E; [subst j|by rewrite !list_lookup_insert_ne].
    rewrite !list_lookup_insert_eq by done. simpl. by rewrite Hf.
Qed.

Lemma view_same cd cd' : consoles_ok cd -> screen_ok cd' -> same_input cd cd' ->
  consoles_ok cd' /\ view cd' = view cd.
Proof.
  intros H Hs [E1 E2 E3]. split.
  - destruct H. split; rewrite ?E1, ?E2, ?E3; done.
  - unfold view, ttys. by rewrite E1, E2, E3.
Qed.

Lemma nextconsole_eq s :
  consoles_ok (k_cons s) ->
  exists cd, nextconsole s = Ret tt (set_k_cons cd s) /\ consoles_ok cd /\
    view cd = ((cd_active (k_cons s) + 1) mod Z.of_nat NCONT, ttys (k_cons s)).
Proof.
  intros H. set (cd := k_cons s) in *. pose proof (active_lt cd H) as Hlt.
  set (a' := (cd_active cd + 1) mod Z.of_nat NCONT).
  assert (0 <= a' < Z.of_nat NCONT) as Ha' by (apply Z.mod_pos_bound; klia).
  set (bufs := <[Z.to_nat (cd_active cd) := cd_input cd]> (cd_buffers cd)).
  assert (Forall input_ok bufs) as Hb by (apply Forall_insert; apply H).
  destruct (lookup_lt_is_Some_2 bufs (Z.to_nat a')) as [i Hi].
  { unfold bufs. rewrite length_insert, (co_count _ H). lia. }
  eexists. split; [|split].
  - unfold nextconsole, get_cd, upd_cd. krun. simpl.
    change (k_cons s) with cd. fold a' bufs. rewrite Hi. reflexivity.
  - split; [by destruct (co_screen _ H) | exact Ha' | | exact (Forall_lookup_1 _ _ _ _ Hb Hi) | exact Hb].
    change (length bufs = NCONT). unfold bufs. rewrite length_insert. apply H.
  - unfold view, ttys. simpl. fold cd a' bufs. f_equal. by rewrite list_insert_id.
Qed.

(** The last character of the line. *)
Lemma last_edit inp : input_ok inp -> t_edit (tty_of inp) <> [] ->
  lget (in_buf inp) (u32 (in_e inp - 1) mod IBUF) ∈ t_edit (tty_of inp).
Proof.
  intros H Hne. pose proof (edit_empty inp H) as E. rewrite bool_decide_eq_false_2 in E by done.
  apply Z.eqb_neq in E. destruct H as [Hl Hr Hw He Hroom Hed]. simpl.
  assert (u32 (in_e inp - in_w inp) = u32 (in_e inp - in_w inp) - 1 + 1) as -> by lia.
  rewrite ring_snoc by ring_lia. apply elem_of_app. right. apply list_elem_of_singleton. f_equal. ring_lia.
Qed.

(** One character rubbed out, on the screen too. *)
Lemma rub_out_eq s :
  consoles_ok (k_cons s) -> t_edit (tty_of (cd_input (k_cons s))) <> [] ->
  exists s1 cd, upd_input (set_in_e (u32 (in_e (cd_input (k_cons s)) - 1))) s = Ret tt s1 /\
    consputc BACKSPACE s1 = Ret tt (set_k_cons cd s) /\
    consoles_ok cd /\ cd_active cd = cd_active (k_cons s) /\ cd_buffers cd = cd_buffers (k_cons s) /\
    input_ok (cd_input cd) /\ tty_of (cd_input cd) = tty_key CTL_H (tty_of (cd_input (k_cons s))).
Proof.
  intros H Hne. set (cd := k_cons s) in *.
  destruct (rub_out_tty (cd_input cd) (co_input _ H) Hne) as [Hi Ht].
  set (s1 := set_k_cons (set_cd_input (rub_out (cd_input cd)) cd) s).
  assert (screen_ok (k_cons s1)) as Hs1 by (destruct (co_screen _ H); done).
  destruct (prints_consputc BACKSPACE s1 Hs1) as (cd' & Hp & Hs' & [E1 E2 E3]).
  exists s1, cd'. split; [done|]. split; [exact Hp|].
  assert (input_ok (cd_input cd')) as Hi' by (by rewrite E1).
  assert (tty_of (cd_input cd') = tty_key CTL_H (tty_of (cd_input cd))) as Ht' by (rewrite E1; exact Ht).
  destruct (view_input cd cd' (tty_key CTL_H) H Hs' E2 E3 Hi' Ht') as [Hc _]. done.
Qed.

(** Kill line. *)
Definition kill_body : unit -> K (unit + unit) := fun _ =>
  cd <- get_cd ;;
  let inp := cd_input cd in
  if negb (in_e inp =? in_w inp) && negb (lget (in_buf inp) (u32 (in_e inp - 1) mod IBUF) =? NEWLINE) then
    upd_input (set_in_e (u32 (in_e inp - 1))) ;;
    consputc BACKSPACE ;;
    ret (inl tt)
  else ret (inr tt).

Lemma kill_line_loop n : forall s,
  consoles_ok (k_cons s) -> (length (t_edit (tty_of (cd_input (k_cons s)))) <= n)%nat ->
  exists cd, loop (S n) kill_body tt s = Ret tt (set_k_cons cd s) /\ consoles_ok cd /\
    cd_active cd = cd_active (k_cons s) /\ cd_buffers cd = cd_buffers (k_cons s) /\
    tty_of (cd_input cd) = mkTty (t_done (tty_of (cd_input (k_cons s)))) [].
Proof.
  induction n as [|n IH]; intros s H Hn; set (inp := cd_input (k_cons s)) in *;
    pose proof (edit_empty inp (co_input _ H)) as He;
    destruct (t_edit (tty_of inp)) as [|x l] eqn:Hed; try (simpl in Hn; lia).
  1,2: exists (k_cons s); (split; [|split_and!; try done; fold inp; by rewrite <- Hed]);
    apply loop_done; unfold kill_body, get_cd; krun; fold inp; rewrite He; unfold ret; f_equal; by destruct s.
  rewrite bool_decide_eq_false_2 in He by done.
  assert (t_edit (tty_of inp) <> []) as Hne by (by rewrite Hed).
  destruct (rub_out_eq s H Hne) as (s1 & cd & Hu & Hr & Hc & E1 & E2 & Hi & Ht).
  fold inp in Ht.
  assert (kill_body tt s = Ret (inl tt) (set_k_cons cd s)) as Hb.
  { unfold kill_body, get_cd. rewrite bind_gets. cbv zeta. fold inp. rewrite He.
    destruct (Z.eqb_spec (lget (in_buf inp) (u32 (in_e inp - 1) mod IBUF)) NEWLINE) as [E|E].
    - exfalso. apply (io_edit _ (co_input _ H)). rewrite <- E. apply last_edit; [apply H | done].
    - cbn [negb andb]. rewrite (bind_Ret _ _ _ _ _ Hu), (bind_Ret _ _ _ _ _ Hr). reflexivity. }
  destruct (IH (set_k_cons cd s)) as (cd' & Hl & Hc' & F1 & F2 & Ht').
  { done. }
  { change (k_cons (set_k_cons cd s)) with cd. rewrite Ht. change (t_edit (tty_key CTL_H (tty_of inp)))
      with (take (length (t_edit (tty_of inp)) - 1) (t_edit (tty_of inp))).
    rewrite length_take, Hed. simpl in *. lia. }
  exists cd'. rewrite (loop_next _ _ _ _ _ _ Hb), Hl.
  change (k_cons (set_k_cons cd s)) with cd in *.
  split_and!; [done | done | congruence | congruence |]. rewrite Ht', Ht. done.
Qed.

Lemma kill_line_eq s :
  consoles_ok (k_cons s) ->
  exists cd, kill_line s = Ret tt (set_k_cons cd s) /\ consoles_ok cd /\
    view cd = (cd_active (k_cons s), alter (tty_key CTL_U) (Z.to_nat (cd_active (k_cons s))) (ttys (k_cons s))).
Proof.
  intros H. unfold kill_line, get_cd. rewrite bind_gets. set (inp := cd_input (k_cons s)).
  destruct (kill_line_loop (Z.to_nat (u32 (in_e inp - in_w inp))) s H) as (cd & Hl & Hc & E1 & E2 & Ht).
  { fold inp. simpl. by rewrite length_ring. }
  exists cd. split; [exact Hl|].
  apply view_input; try done; [apply Hc | apply Hc].
Qed.

(** An ordinary key, with room in the ring. *)
Lemma put_char_eq {B} s c (k : K B) :
  consoles_ok (k_cons s) ->
  exists cd, (upd_input (fun inp => set_in_e (u32 (in_e inp + 1)) (set_in_buf (lput (in_buf inp) (in_e inp mod IBUF) c) inp)) ;;
              consputc c ;; k) s = k (set_k_cons cd s) /\
    screen_ok cd /\ cd_active cd = cd_active (k_cons s) /\ cd_buffers cd = cd_buffers (k_cons s) /\
    cd_input cd = put_char c (cd_input (k_cons s)).
Proof.
  intros H. set (cd := k_cons s) in *.
  set (s1 := set_k_cons (set_cd_input (put_char c (cd_input cd)) cd) s).
  assert (screen_ok (k_cons s1)) as Hs1 by (destruct (co_screen _ H); done).
  destruct (prints_consputc c s1 Hs1) as (cd' & Hp & Hs' & [E1 E2 E3]).
  exists cd'. split; [|done]. unfold upd_input, upd_cd. rewrite bind_modify. exact (bind_Ret _ _ _ _ _ Hp).
Qed.

(** The end of a line, in terms of the terminal. *)
Lemma full_eq inp c : input_ok inp -> 0 <= c < 256 -> tty_size (tty_of inp) < IBUF ->
  (in_e (put_char c inp) =? u32 (in_r (put_char c inp) + IBUF)) = (tty_size (tty_of inp) + 1 =? IBUF).
Proof.
  intros H Hc Hs. rewrite (tty_size_eq inp H) in *. destruct H as [_ Hr Hw He Hroom _].
  apply eq_iff_eq_true. rewrite !Z.eqb_eq. simpl. ring_lia.
Qed.

Definition kb_state (s : kst) : Prop := LPtable ∉ k_held s /\ tables_wf (k_ctable s) (k_ptable s).

Lemma type_char_eq s c :
  consoles_ok (k_cons s) -> kb_state s -> 0 <= c < 256 -> tty_size (tty_of (cd_input (k_cons s))) < IBUF ->
  let t := tty_of (cd_input (k_cons s)) in
  let ends := (c =? NEWLINE) || (c =? CTL_D) || (tty_size t + 1 =? IBUF) in
  exists cd, (upd_input (fun inp => set_in_e (u32 (in_e inp + 1)) (set_in_buf (lput (in_buf inp) (in_e inp mod IBUF) c) inp)) ;;
              consputc c ;;
              cd <- get_cd ;;
              let inp := cd_input cd in
              when ((c =? NEWLINE) || (c =? CTL_D) || (in_e inp =? u32 (in_r inp + IBUF)))
                (upd_input (fun inp => set_in_w (in_e inp) inp) ;; wakeup ChInput)) s
      = Ret tt (set_k_cons cd (if ends then woken ChInput s else s)) /\
    screen_ok cd /\ cd_active cd = cd_active (k_cons s) /\ cd_buffers cd = cd_buffers (k_cons s) /\
    input_ok (cd_input cd) /\
    tty_of (cd_input cd) = if ends then mkTty (t_done t ++ t_edit t ++ [c]) [] else mkTty (t_done t) (t_edit t ++ [c]).
Proof.
  intros H [Hpt Hwf] Hc Hs t ends. pose proof (co_input _ H) as Hin.
  match goal with |- exists cd, bind _ (fun _ => bind _ (fun _ => ?k)) s = _ /\ _ =>
    destruct (put_char_eq s c k H) as (cd & Hp & Hsc & E1 & E2 & E3) end.
  setoid_rewrite Hp. unfold get_cd. setoid_rewrite bind_gets. cbv zeta.
  change (k_cons (set_k_cons cd s)) with cd. rewrite E3, (full_eq _ _ Hin Hc Hs). fold t. fold ends.
  destruct ends eqn:Ee; unfold when.
  - destruct (put_commit c _ Hin Hc Hs) as [Hok Ht].
    exists (set_cd_input (commit_line (cd_input cd)) cd).
    unfold upd_input, upd_cd. rewrite bind_modify. split.
    + rewrite wakeup_eq by done. reflexivity.
    + split; [by destruct Hsc|]. simpl. rewrite E3. done.
  - exists cd. rewrite E3. destruct (put_char_tty c _ Hin Hc Hs) as [Ht _]. split; [done|].
    split_and!; try done. apply put_char_ok; try done. intros ->. done.
Qed.

(** One key. *)
Lemma console_char_eq s c :
  consoles_ok (k_cons s) -> kb_state s -> 0 <= c < 256 ->
  let w := completes c (active_tty (view (k_cons s))) in
  exists cd, console_char c s = Ret tt (set_k_cons cd (if w then woken ChInput s else s)) /\
    consoles_ok cd /\ view cd = press (view (k_cons s)) c.
Proof.
  intros H Hk Hc w. subst w. rewrite (active_view _ H). set (t := tty_of (cd_input (k_cons s))).
  unfold console_char, press, view at 2, completes.
  destruct (c =? CTL_P); cbn [orb negb andb].
  { exists (k_cons s). split; [unfold ret; f_equal; by destruct s | done]. }
  destruct (c =? CTL_T); cbn [orb negb andb]; [by apply nextconsole_eq|].
  destruct (Z.eqb_spec c CTL_U) as [->|NU]; cbn [orb negb andb]; [by apply kill_line_eq|].
  destruct ((c =? CTL_H) || (c =? 127)) eqn:EH; unfold get_cd; rewrite bind_gets; cbv zeta.
  - replace (_ && _ && _) with false
      by (destruct (c =? CTL_H); [done|]; destruct (c =? 127); [done | discriminate]).
    rewrite (edit_empty _ (co_input _ H)). fold t.
    assert (tty_key c t = mkTty (t_done t) (take (length (t_edit t) - 1) (t_edit t))) as Hkey
      by (unfold tty_key; rewrite (proj2 (Z.eqb_neq _ _) NU), EH; done).
    destruct (bool_decide_reflect (t_edit t = [])) as [E|E]; cbn [negb when].
    + exists (k_cons s). split; [unfold ret; f_equal; by destruct s|].
      apply view_input; try done; [apply H | apply H |]. fold t. rewrite Hkey, E. simpl. rewrite <- E. apply tty_eta.
    + destruct (rub_out_eq s H E) as (s1 & cd & Hu & Hr & Hcd & E1 & E2 & Hi & Ht).
      exists cd. split.
      * by rewrite (bind_Ret _ _ _ _ _ Hu).
      * apply view_input; try done; [apply Hcd|]. rewrite Ht. fold t. by rewrite Hkey.
  - destruct (Z.eqb_spec c 0) as [->|N0]; cbn [orb negb andb when].
    { exists (k_cons s). split; [unfold ret; f_equal; by destruct s|].
      apply view_input; try done; [apply H | apply H]. }
    rewrite (input_room _ (co_input _ H)). fold t. destruct (Z.ltb_spec (tty_size t) IBUF) as [Hroom|Hroom]; cbn [andb when].
    + assert (0 <= typed_char c < 256) as Hc' by (unfold typed_char; destruct (c =? 13); [done | lia]).
      destruct (type_char_eq s (typed_char c) H Hk Hc' Hroom) as (cd & Hr & Hs & E1 & E2 & Hi & Ht).
      exists cd. split; [exact Hr|].
      apply view_input; try done. rewrite Ht. fold t. unfold tty_key.
      rewrite (proj2 (Z.eqb_neq _ _) NU), EH, (proj2 (Z.eqb_neq _ _) N0), (proj2 (Z.ltb_lt _ _) Hroom). done.
    + exists (k_cons s). split; [unfold ret; f_equal; by destruct s|].
      apply view_input; try done; [apply H | apply H |]. fold t. unfold tty_key.
      rewrite (proj2 (Z.eqb_neq _ _) NU), EH, (proj2 (Z.eqb_neq _ _) N0), (proj2 (Z.ltb_ge _ _) Hroom). done.
Qed.

(** Some key of a sequence completes a line. *)
Fixpoint wakes (st : Z * list tty) (cs : list Z) : bool :=
  match cs with
  | [] => false
  | c :: cs' => completes c (active_tty st) || wakes (press st c) cs'
  end.

Lemma woken_woken ch s : woken ch (woken ch s) = woken ch s.
Proof.
  unfold woken. destruct s. unfold set_k_ptable. simpl. f_equal. apply list_eq. intros p.
  rewrite !lookup_wake_table. destruct (_ !! p) as [pr|]; simpl; [|done]. f_equal.
  case_decide; [apply wake_idemp | done].
Qed.

Definition woken_if (b : bool) (s : kst) : kst := if b then woken ChInput s else s.

Lemma woken_if_or a b cd s :
  woken_if b (set_k_cons cd (woken_if a s)) = set_k_cons cd (woken_if (a || b) s).
Proof.
  destruct a, b; simpl; try done. change (woken ChInput (set_k_cons cd (woken ChInput s)))
    with (set_k_cons cd (woken ChInput (woken ChInput s))). by rewrite woken_woken.
Qed.

Lemma kb_state_woken b s : kb_state s -> kb_state (woken_if b s).
Proof. intros [H1 H2]. destruct b; [|done]. split; [done|]. simpl. by apply wake_table_wf. Qed.

Lemma console_keys_eq cs : forall s,
  consoles_ok (k_cons s) -> kb_state s -> Forall (fun c => 0 <= c < 256) cs ->
  exists cd, for_each cs console_char s = Ret tt (set_k_cons cd (woken_if (wakes (view (k_cons s)) cs) s)) /\
    consoles_ok cd /\ view cd = foldl press (view (k_cons s)) cs.
Proof.
  induction cs as [|c cs IH]; intros s H Hk Hcs.
  { exists (k_cons s). split; [simpl; unfold ret; f_equal; by destruct s | done]. }
  apply Forall_cons in Hcs as [Hc Hcs]. destruct (console_char_eq s c H Hk Hc) as (cd & Hr & Hok & Hv).
  set (w := completes c (active_tty (view (k_cons s)))) in *.
  set (s1 := set_k_cons cd (woken_if w s)).
  destruct (IH s1 Hok (kb_state_woken w s Hk) Hcs) as (cd' & Hr' & Hok' & Hv').
  exists cd'. split; [|split; [done|]].
  - cbn [for_each wakes]. fold w. rewrite (bind_Ret _ _ _ _ _ Hr), <- Hv. etrans; [exact Hr'|]. f_equal.
    unfold s1. rewrite woken_if_or. reflexivity.
  - rewrite Hv'. unfold s1. simpl k_cons. rewrite Hv. reflexivity.
Qed.

(** C20: the console implements a row of terminals.  Given the characters an interrupt
    delivers (without ^P), [consoleintr] returns and every one of them has acted on the
    active console as [tty_key] says, ^T moving to the next one; lines typed on a console
    are still there after switching away and back.  Readers are woken if a line became
    complete; nothing overruns the ring or the screen. *)
Theorem console_refines s cs :
  consoles_ok (k_cons s) -> kb_state s -> LCons ∉ k_held s ->
  Forall (fun c => 0 <= c < 256) cs -> CTL_P ∉ cs ->
  exists s', consoleintr cs s = Ret tt s' /\ consoles_ok (k_cons s') /\
    view (k_cons s') = foldl press (view (k_cons s)) cs /\
    k_ptable s' = k_ptable (woken_if (wakes (view (k_cons s)) cs) s) /\ k_held s' = k_held s.
Proof.
  intros H Hk Hl Hcs HP. unfold consoleintr. rewrite (bind_Ret _ _ _ _ _ (acquire_eq _ _ Hl)).
  set (s1 := set_k_held (LCons :: k_held s) s).
  assert (kb_state s1) as Hk1 by (destruct Hk; split; [simpl; set_solver | done]).
  destruct (console_keys_eq cs s1 H Hk1 Hcs) as (cd & Hr & Hok & Hv).
  rewrite (bind_Ret _ _ _ _ _ Hr). set (w := wakes _ cs) in *.
  set (s2 := set_k_cons cd (woken_if w s1)).
  assert (k_held s2 = LCons :: k_held s) as Hh by (unfold s2, woken_if; by destruct w).
  rewrite (bind_Ret _ _ _ _ _ (release_eq LCons _ s2 Hh)), (bool_decide_eq_false_2 _ HP).
  set (s3 := set_k_held (k_held s) s2). unfold when at 1. rewrite bind_ret.
  assert (k_ptable s3 = k_ptable (woken_if w s)) as Hpt by (unfold s3, s2, woken_if; by destruct w).
  destruct (bool_decide (CTL_T ∈ cs)); unfold when.
  - unfold get_cd. rewrite bind_gets.
    destruct (cons_cprintf_eq active_fmt [PInt (cd_active (k_cons s3))] _ s3 (co_screen _ Hok) Hl eq_refl)
      as (cd' & Hr' & Hs' & Hi').
    destruct (view_same cd cd' Hok Hs' Hi') as [Hok' Hv'].
    eexists. split; [exact Hr'|]. split; [exact Hok'|]. split; [|by split].
    simpl k_cons. rewrite Hv'. exact Hv.
  - exists s3. done.
Qed.

Lemma boot_consoles_ok : consoles_ok (k_cons boot_state).
Proof.
  assert (input_ok (mkInput (replicate 128 0) 0 0 0)) as Hi
    by (split; [reflexivity | simpl; lia | simpl; lia | simpl; lia | done | apply not_elem_of_nil]).
  split.
  - split; [simpl; lia | reflexivity | reflexivity].
  - simpl. klia.
  - reflexivity.
  - exact Hi.
  - by apply Forall_replicate.
Qed.

(** "hx", backspace, "i", newline on console 1, ^T, then "a" on console 2. *)
Definition demo_keys : list Z := [104; 120; 8; 105; 13; 20; 97].
Lemma demo_keys_view :
  foldl press (view (k_cons boot_state)) demo_keys =
    (2, <[1%nat := mkTty [104; 105; 10] []]> (<[2%nat := mkTty [] [97]]> (replicate 8 (mkTty [] [])))).
Proof. vm_compute. reflexivity. Qed.

Lemma demo_keys_ok : Forall (fun c => 0 <= c < 256) demo_keys /\ CTL_P ∉ demo_keys.
Proof.
  split; [repeat constructor; lia|]. unfold demo_keys. rewrite !not_elem_of_cons.
  repeat split; try done. apply not_elem_of_nil.
Qed.

Lemma console_refines_witness :
  exists s', consoleintr demo_keys boot_state = Ret tt s' /\
    view (k_cons s') = (2, <[1%nat := mkTty [104; 105; 10] []]> (<[2%nat := mkTty [] [97]]> (replicate 8 (mkTty [] [])))).
Proof.
  destruct (console_refines boot_state demo_keys boot_consoles_ok
    (conj (not_elem_of_nil _) boot_tables_wf) (not_elem_of_nil _) (proj1 demo_keys_ok) (proj2 demo_keys_ok))
    as (s' & Hr & _ & Hv & _).
  exists s'. split; [exact Hr|]. rewrite Hv. exact demo_keys_view.
Defined.
