(* ===== verification/Trap.v ===== *)
(** * Traps and boot

    trap.c and main.c: the dispatch of system calls, interrupts and faults, the
    forced exit of a killed process and the clock tick's yield; and the order in
    which the boot processor brings the components up.

    What the hardware reports is an argument: the CPU's number, the fault address
    in [cr2], and the input the devices have waiting.  The interrupt descriptor
    table and the interrupt controllers' registers are not part of the state. *)

From S2P Require Import Prelude Monad CString KState Spinlock Sched Kalloc Bio Log Fs Inode Path Vm Pipe File Proc Container Syscall Exec Sysfile Console.

Local Open Scope kernel_scope.

(** traps.h *)
Definition T_SYSCALL : Z := 64.
Definition T_IRQ0 : Z := 32.
Definition IRQ_TIMER : Z := 0.
Definition IRQ_KBD : Z := 1.
Definition IRQ_COM1 : Z := 4.
Definition IRQ_IDE : Z := 14.
Definition IRQ_SPURIOUS : Z := 31.

(** What a trap finds: the CPU it runs on, [cr2], the keyboard's modifiers and
    waiting scan codes, the waiting serial bytes. *)
Record hw : Type := mkHw {
  hw_cpu : Z;
  hw_cr2 : Z;
  hw_shift : Z;
  hw_scans : list Z;
  hw_rx : list Z
}.

Section traps.
Context `{L : Linker}.

Definition tvinit : K unit := initlock LTicks.

(** The memory disk completes a request at once: its [ideintr] does nothing. *)
Definition ideintr : K unit := ret tt.

(** [myproc() && myproc()->killed && (tf->cs&3) == DPL_USER] *)
Definition killed_in_user (tf : Z) : K bool :=
  p <- myproc ;;
  match p with
  | None => ret false
  | Some p =>
      pr <- get_proc p ;;
      cs <- load16 (tf + tf_cs) ;;
      ret (p_killed pr && (Z.land cs 3 =? DPL_USER))
  end.

Definition trap_timer (h : hw) : K unit :=
  when (hw_cpu h =? 0)
    (acquire LTicks ;;
     modify (fun s => set_k_ticks (u32 (k_ticks s + 1)) s) ;;
     wakeup ChTicks ;;
     release LTicks) ;;
  p <- myproc ;;
  match p with
  | Some p => upd_proc p (fun pr => set_p_ticks (u32 (p_ticks pr + 1)) pr)
  | None => ret tt
  end.

(** The default case: kill the process, or panic in the kernel. *)
Definition trap_fault (h : hw) (tf trapno : Z) : K unit :=
  p <- myproc ;;
  cs <- load16 (tf + tf_cs) ;;
  eip <- load32 (tf + tf_eip) ;;
  match p with
  | Some p =>
      if Z.land cs 3 =? 0 then
        KState.cprintf "unexpected trap %d from cpu %d eip %x (cr2=0x%x)" [trapno; hw_cpu h; eip; hw_cr2 h] ;;
        panic "trap"
      else
        pr <- get_proc p ;;
        err <- load32 (tf + tf_err) ;;
        KState.cprintf "pid %d %s: trap %d err %d on cpu %d eip 0x%x addr 0x%x--kill proc"
          ([p_pid pr] ++ p_name pr ++ [trapno; err; hw_cpu h; eip; hw_cr2 h]) ;;
        upd_proc p (set_p_killed true)
  | None =>
      KState.cprintf "unexpected trap %d from cpu %d eip %x (cr2=0x%x)" [trapno; hw_cpu h; eip; hw_cr2 h] ;;
      panic "trap"
  end.

(** The [switch] of [trap]. *)
Definition trap_dispatch (h : hw) (tf trapno : Z) : K unit :=
  if trapno =? T_IRQ0 + IRQ_TIMER then trap_timer h
  else if trapno =? T_IRQ0 + IRQ_IDE then ideintr
  else if trapno =? T_IRQ0 + IRQ_IDE + 1 then ret tt
  else if trapno =? T_IRQ0 + IRQ_KBD then
    _ <- Cons.kbdintr (hw_shift h) (hw_scans h) ;; ret tt
  else if trapno =? T_IRQ0 + IRQ_COM1 then Cons.uartintr (hw_rx h)
  else if (trapno =? T_IRQ0 + 7) || (trapno =? T_IRQ0 + IRQ_SPURIOUS) then
    cs <- load16 (tf + tf_cs) ;;
    eip <- load32 (tf + tf_eip) ;;
    KState.cprintf "cpu%d: spurious interrupt at %x:%x" [hw_cpu h; cs; eip]
  else trap_fault h tf trapno.

Definition trap (h : hw) (tf : Z) : K unit :=
  trapno <- load32 (tf + tf_trapno) ;;
  if trapno =? T_SYSCALL then
    p <- curproc ;;
    k <- killed ;;
    when k exit ;;
    upd_proc p (set_p_tf tf) ;;
    syscall ;;
    k <- killed ;;
    when k exit
  else
    trap_dispatch h tf trapno ;;
    k <- killed_in_user tf ;;
    when k exit ;;
    p <- myproc ;;
    st <- match p with Some p => pr <- get_proc p ;; ret (p_state pr ==? RUNNING) | None => ret false end ;;
    when (st && (trapno =? T_IRQ0 + IRQ_TIMER)) yield ;;
    k <- killed_in_user tf ;;
    when k exit.

(** [main] up to the scheduler, on a machine with one processor, where
    [startothers] starts none; [status] is the serial line's status register. *)
Definition main (status : Z) : K unit :=
  kinit1 sym_end (P2V (4 * 1024 * 1024)) ;;
  kvmalloc ;;
  Cons.consoleinit ;;
  Cons.uartinit status ;;
  cinit ;;
  tvinit ;;
  binit ;;
  fileinit ;;
  kinit2 (P2V (4 * 1024 * 1024)) (P2V PHYSTOP) ;;
  userinit ;;
  modify (set_k_userinited true).

(** [mpmain]: announce the CPU and schedule for [n] rounds. *)
Definition mpmain (cpu : Z) (n : nat) : K unit :=
  KState.cprintf "cpu%d: starting %d" [cpu; cpu] ;;
  scheduler n.
End traps.
