(* ===== verification/Locks.v ===== *)
(** * The discipline of spinlocks

    A type system for the locks a kernel function holds.  [ty l m Q]: started with exactly
    the spinlocks [l] held, [m] never acquires a lock it holds, never releases one it does
    not hold, gives up the CPU only while it holds the process table's lock and no other,
    expects that lock alone when it is resumed, and returns [a] with exactly [Q a] held.
    Every function of the kernel that a trap can reach has a type; the last theorem is that
    of [trap] itself.  The types of the leaf functions are hints, and [lk] derives the type
    of a function from its text. *)

From S2P Require Import Prelude Monad CString KState Spinlock Sched Kalloc Bio Log Fs Inode Path Vm Pipe File Proc Container Syscall Exec Sysfile Console Trap.

Local Open Scope kernel_scope.

(** The panics of spinlock.c and the checks of [sched] on locks. *)
Definition lock_panics : list string :=
  ["acquire"; "release"; "sched ptable.lock"; "sched locks"; "sched interruptible"]%string.
Definition lock_panic (msg : string) : bool := existsb (String.eqb msg) lock_panics.

Fixpoint oty {A} (Q : A -> list lockid) (o : outcome kst A) : Prop :=
  match o with
  | Ret a s => k_held s = Q a
  | Panic msg _ => lock_panic msg = false
  | Fault _ _ => True
  | Switch s k => k_held s = [LPtable] /\ forall s', k_held s' = [LPtable] -> oty Q (k s')
  | OutOfFuel => True
  end.

Definition ty {A} (l : list lockid) (m : K A) (Q : A -> list lockid) : Prop :=
  forall s, k_held s = l -> oty Q (m s).

(** The function leaves the locks as it finds them. *)
Notation bal l m := (ty l m (fun _ => l)).

(** ** Rules *)

Lemma oty_bind {A B} (o : outcome kst A) (f : A -> K B) Q R :
  oty Q o -> (forall a, ty (Q a) (f a) R) -> oty R (obind o f).
Proof.
  intros Ho Hf. induction o as [a s|msg s|msg s|s k IH|]; simpl in *; try done; [by apply Hf|].
  destruct Ho as [H1 H2]. split; [done|]. intros s' Hs'. by apply IH, H2.
Qed.

Lemma ty_bind {A B} l (m : K A) (f : A -> K B) Q R :
  ty l m Q -> (forall a, ty (Q a) (f a) R) -> ty l (bind m f) R.
Proof. intros Hm Hf s Hs. by apply (oty_bind _ _ Q), Hf; apply Hm. Qed.

Lemma oty_mono {A} (o : outcome kst A) Q R : oty Q o -> (forall a, Q a = R a) -> oty R o.
Proof.
  intros Ho HQ. induction o as [a s|msg s|msg s|s k IH|]; simpl in *; try done; [by rewrite <- HQ|].
  destruct Ho as [H1 H2]. split; [done|]. intros s' Hs'. by apply IH, H2.
Qed.

Lemma ty_mono {A} l (m : K A) Q R : ty l m Q -> (forall a, Q a = R a) -> ty l m R.
Proof. intros H HQ s Hs. by apply (oty_mono _ Q), HQ; apply H. Qed.

Lemma ty_ret {A} l (a : A) (Q : A -> list lockid) : Q a = l -> ty l (ret a) Q.
Proof. intros H s Hs. simpl. congruence. Qed.

Lemma ty_ret_bal {A} l (a : A) : bal l (ret a).
Proof. by apply ty_ret. Qed.

Lemma ty_gets {A} l (f : kst -> A) : bal l (gets f).
Proof. by intros s Hs. Qed.

Lemma ty_modify l (f : kst -> kst) : (forall s, k_held (f s) = k_held s) -> bal l (modify f).
Proof. intros H s Hs. simpl. by rewrite H. Qed.

Lemma ty_panic {A} l msg (Q : A -> list lockid) : lock_panic msg = false -> ty l (panic msg) Q.
Proof. by intros H s Hs. Qed.

Lemma ty_fault {A} l msg (Q : A -> list lockid) : ty l (fault msg) Q.
Proof. by intros s Hs. Qed.

Lemma ty_deref {A} l msg (o : option A) : bal l (deref msg o).
Proof. destruct o; [by apply ty_ret | apply ty_fault]. Qed.

Lemma ty_when l b (m : K unit) : bal l m -> bal l (when b m).
Proof. intros H. destruct b; [done | by apply ty_ret]. Qed.

Lemma ty_for_each {A} l (xs : list A) (body : A -> K unit) : (forall x, bal l (body x)) -> bal l (for_each xs body).
Proof.
  intros H. induction xs as [|x xs IH]; [by apply ty_ret|]. simpl. by apply ty_bind with (fun _ => l).
Qed.

(** A loop whose exits may have other locks than its turns. *)
Lemma ty_for_first {A B} l (xs : list A) (body : A -> K (option B)) (Q : option B -> list lockid) :
  Q None = l -> (forall x, ty l (body x) Q) -> ty l (for_first xs body) Q.
Proof.
  intros HN H. induction xs as [|x xs IH]; [by apply ty_ret|]. simpl. apply (ty_bind _ _ _ Q); [done|].
  intros [b|]; [by apply ty_ret | by rewrite HN].
Qed.

Lemma ty_loop {A B} l fuel (body : A -> K (A + B)) (Q : B -> list lockid) :
  (forall a, ty l (body a) (fun r => match r with inl _ => l | inr b => Q b end)) -> forall a, ty l (loop fuel body a) Q.
Proof.
  intros H. induction fuel as [|n IH]; intros a; [by intros s Hs|]. simpl.
  eapply ty_bind; [apply H|]. intros [a'|b]; [apply IH | by apply ty_ret].
Qed.

Lemma ty_for_first_bal {A B} l (xs : list A) (body : A -> K (option B)) :
  (forall x, bal l (body x)) -> bal l (for_first xs body).
Proof. intros H. by apply (ty_for_first l xs body (fun _ => l)). Qed.

Lemma ty_loop_bal {A B} l fuel (body : A -> K (A + B)) : (forall a, bal l (body a)) -> forall a, bal l (loop fuel body a).
Proof.
  intros H. apply (ty_loop l fuel body (fun _ => l)). intros a. eapply ty_mono; [apply H|]. by intros [].
Qed.

Lemma ty_acquire l lk : lk ∉ l -> ty l (acquire lk) (fun _ => lk :: l).
Proof. intros H s Hs. unfold acquire, holding. rewrite bind_gets, Hs, bool_decide_eq_false_2 by done. simpl. by rewrite Hs. Qed.

Lemma ty_release l lk : ty (lk :: l) (release lk) (fun _ => l).
Proof.
  intros s Hs. unfold release, holding. rewrite bind_gets, Hs, bool_decide_eq_true_2 by (by left). simpl.
  by rewrite Hs, rm_head.
Qed.

(** ** Deriving a type from the text of a function *)

Create HintDb locks discriminated.
#[export] Hint Constants Opaque : locks.
#[export] Hint Resolve ty_gets ty_fault ty_deref ty_release : locks.
#[export] Hint Extern 1 (ty _ (modify _) _) => apply ty_modify; reflexivity : locks.
#[export] Hint Extern 1 (ty _ (panic _) _) => apply ty_panic; reflexivity : locks.
#[export] Hint Extern 1 (?x ∉ _) =>
  repeat (apply not_elem_of_cons; split; [discriminate|]); (apply not_elem_of_nil || assumption) : locks.
#[export] Hint Resolve ty_acquire : locks.

(** One step: a bind is derived from left to right, a branch in all its cases. *)
Ltac lk_step :=
  lazymatch goal with
  | |- forall _, _ => intros ?
  | |- ty _ (bind _ _) _ => eapply ty_bind
  | |- ty _ (ret _) _ => first [apply ty_ret_bal | apply ty_ret; reflexivity]
  | |- ty _ (when _ _) _ => apply ty_when
  | |- ty _ (for_each _ _) _ => apply ty_for_each
  | |- ty _ (for_first _ _) _ => first [apply ty_for_first_bal | apply ty_for_first; [reflexivity|]]
  | |- ty _ (loop _ _ _) _ => first [apply ty_loop_bal | apply ty_loop]
  | |- ty _ (let x := _ in _) _ => cbv zeta
  | |- ty _ (match ?x with _ => _ end) _ => destruct x
  | |- ty _ _ _ => solve [eauto with locks]
  end; cbv beta.
Ltac lk := repeat lk_step.

(** ** Accessors *)

Lemma ty_get_proc l p : bal l (get_proc p).
Proof. unfold get_proc. lk. Qed.
Lemma ty_get_cont l c : bal l (get_cont c).
Proof. unfold get_cont. lk. Qed.
Lemma ty_get_buf l b : bal l (get_buf b).
Proof. unfold get_buf. lk. Qed.
Lemma ty_get_inode l i : bal l (get_inode i).
Proof. unfold get_inode. lk. Qed.
Lemma ty_get_file l i : bal l (get_file i).
Proof. unfold get_file. lk. Qed.
Lemma ty_get_pipe l a : bal l (get_pipe a).
Proof. unfold get_pipe. lk. Qed.
#[export] Hint Resolve ty_get_proc ty_get_cont ty_get_buf ty_get_inode ty_get_file ty_get_pipe : locks.

Lemma ty_upd_proc l p f : bal l (upd_proc p f).
Proof. unfold upd_proc. lk. Qed.
Lemma ty_upd_cont l c f : bal l (upd_cont c f).
Proof. unfold upd_cont. lk. Qed.
Lemma ty_upd_buf l b f : bal l (upd_buf b f).
Proof. unfold upd_buf. lk. Qed.
Lemma ty_upd_inode l i f : bal l (upd_inode i f).
Proof. unfold upd_inode. lk. Qed.
Lemma ty_upd_file l i f : bal l (upd_file i f).
Proof. unfold upd_file. lk. Qed.
Lemma ty_upd_pipe l a f : bal l (upd_pipe a f).
Proof. unfold upd_pipe. lk. Qed.
Lemma ty_upd_log l f : bal l (upd_log f).
Proof. unfold upd_log. lk. Qed.
Lemma ty_upd_mem l f : bal l (upd_mem f).
Proof. unfold upd_mem. lk. Qed.
Lemma ty_myproc l : bal l myproc.
Proof. unfold myproc. lk. Qed.
#[export] Hint Resolve ty_upd_proc ty_upd_cont ty_upd_buf ty_upd_inode ty_upd_file ty_upd_pipe ty_upd_log ty_upd_mem ty_myproc : locks.

Lemma ty_curproc l : bal l curproc.
Proof. unfold curproc. lk. Qed.
#[export] Hint Resolve ty_curproc : locks.
Lemma ty_mycont l : bal l mycont.
Proof. unfold mycont. lk. Qed.
Lemma ty_killed l : bal l killed.
Proof. unfold killed. lk. Qed.
Lemma ty_load32 l a : bal l (load32 a).
Proof. unfold load32. lk. Qed.
Lemma ty_store32 l a v : bal l (store32 a v).
Proof. unfold store32. lk. Qed.
Lemma ty_load16 l a : bal l (load16 a).
Proof. unfold load16. lk. Qed.
Lemma ty_store16 l a v : bal l (store16 a v).
Proof. unfold store16. lk. Qed.
Lemma ty_get_sl l r : bal l (get_sl r).
Proof. unfold get_sl. lk. Qed.
Lemma ty_set_sl l r v : bal l (set_sl r v).
Proof. unfold set_sl. lk. Qed.
Lemma ty_bdata l b : bal l (bdata b).
Proof. unfold bdata. lk. Qed.
Lemma ty_upd_data l b f : bal l (upd_data b f).
Proof. unfold upd_data. lk. Qed.
#[export] Hint Resolve ty_mycont ty_killed ty_load32 ty_store32 ty_load16 ty_store16 ty_get_sl ty_set_sl ty_bdata ty_upd_data : locks.

Lemma ty_proc_row l co : bal l (proc_row co).
Proof. unfold proc_row. lk. Qed.
Lemma ty_get_lblock l i : bal l (get_lblock i).
Proof. unfold get_lblock. lk. Qed.
#[export] Hint Resolve ty_proc_row ty_get_lblock : locks.
Lemma ty_set_lblock l i v : bal l (set_lblock i v).
Proof. unfold set_lblock. lk. Qed.
#[export] Hint Resolve ty_set_lblock : locks.

(** ** Printing *)

Lemma ty_cprintf l fmt args : LCons ∉ l -> bal l (KState.cprintf fmt args).
Proof.
  intros H. unfold KState.cprintf. eapply ty_bind; [lk|]. intros locking. destruct locking; unfold when; lk.
Qed.
#[export] Hint Resolve ty_cprintf : locks.

(** ** Sleeping and waking *)

Lemma ty_wakeup1 l ch : bal l (wakeup1 ch).
Proof. unfold wakeup1. lk. Qed.
#[export] Hint Resolve ty_wakeup1 : locks.

Lemma ty_wakeup l ch : LPtable ∉ l -> bal l (wakeup ch).
Proof. intros H. rewrite wakeup_code. unfold acquireptable, releaseptable. lk. Qed.
#[export] Hint Resolve ty_wakeup : locks.

(** The switch: with the process table's lock alone. *)
Lemma ty_swtch : bal [LPtable] swtch_out.
Proof. intros s Hs. by split. Qed.

Lemma ty_sched : bal [LPtable] sched.
Proof.
  intros s Hs. unfold sched, holding, myproc. rewrite !bind_gets, Hs.
  rewrite bool_decide_eq_true_2 by (by left). cbn [length Nat.eqb negb]. rewrite bind_gets, Hs. cbn [length Nat.eqb negb].
  assert (bal [LPtable] (p <- deref "sched" (k_cur s) ;; pr <- get_proc p ;;
    if p_state pr ==? RUNNING then panic "sched running" else
    if [LPtable] ==? [] then panic "sched interruptible" else swtch_out)) as H.
  { change ([LPtable] ==? []) with false. cbv iota. eapply ty_bind; [lk|]. intros p. eapply ty_bind; [lk|]. intros pr.
    destruct (_ ==? _); [lk | apply ty_swtch]. }
  exact (H s Hs).
Qed.
#[export] Hint Resolve ty_swtch ty_sched : locks.

Lemma ty_yield : bal [] yield.
Proof. unfold yield, acquireptable, releaseptable. lk. Qed.

Lemma ty_release_inner k k' : k <> k' -> ty [k; k'] (release k') (fun _ => [k]).
Proof.
  intros H s Hs. unfold release, holding. rewrite bind_gets, Hs, bool_decide_eq_true_2 by (right; by left). simpl.
  rewrite Hs. simpl. rewrite decide_False, decide_True by done. done.
Qed.

(** [sleep] is called with one lock, and comes back with it. *)
Lemma ty_sleep ch k : bal [k] (sleep ch k).
Proof.
  rewrite sleep_code. unfold acquireptable, releaseptable. eapply ty_bind; [lk|]. intros [p|]; [|lk].
  destruct (k ==? LPtable) eqn:E; unfold when; cbn [negb].
  - apply bool_decide_eq_true in E as ->. lk.
  - apply bool_decide_eq_false in E. eapply ty_bind.
    + eapply ty_bind; [apply ty_acquire; apply not_elem_of_cons; split; [congruence | apply not_elem_of_nil]|].
      intros ?. apply ty_release_inner. congruence.
    + lk.
Qed.
#[export] Hint Resolve ty_yield ty_sleep : locks.

Lemma ty_acquiresleep r : bal [] (acquiresleep r).
Proof. rewrite acquiresleep_code. lk. Qed.
Lemma ty_releasesleep r : bal [] (releasesleep r).
Proof. rewrite releasesleep_code. destruct r; cbn [sl_lockid]; lk. Qed.
Lemma ty_holdingsleep r : bal [] (holdingsleep r).
Proof. unfold holdingsleep. lk. Qed.
#[export] Hint Resolve ty_acquiresleep ty_releasesleep ty_holdingsleep : locks.

(** ** Pages *)

(** The locks the page allocator may take. *)
Definition no_kmem (l : list lockid) : Prop := LKmem ∉ l /\ LCons ∉ l /\ LCtable ∉ l.
#[export] Hint Extern 1 (no_kmem _) => split_and!; auto with locks : locks.

Lemma ty_ckill l c : LCtable ∉ l -> bal l (ckill c).
Proof. intros H. unfold ckill. lk. Qed.
#[export] Hint Resolve ty_ckill : locks.

Lemma ty_kfree `{L : Linker} l v : no_kmem l -> bal l (kfree v).
Proof.
  intros (H1 & H2 & H3). unfold kfree. do 2 (eapply ty_bind; [lk|]; intros ?; cbv beta).
  destruct (_ || _); [lk|]. eapply ty_bind; [lk|]; intros ?; cbv beta. eapply ty_bind; [lk|]; intros lck; cbv beta.
  destruct lck; unfold when; lk.
Qed.

Lemma ty_kalloc `{L : Linker} l : no_kmem l -> bal l kalloc.
Proof.
  intros (H1 & H2 & H3). unfold kalloc. do 3 (eapply ty_bind; [lk|]; intros ?; cbv beta).
  case_match; [lk|]. eapply ty_bind; [lk|]; intros lck; cbv beta. destruct lck; unfold when at 1 3; lk.
Qed.
#[export] Hint Resolve ty_kfree ty_kalloc : locks.

Lemma ty_walkpgdir `{L : Linker} l pgdir va alloc : no_kmem l -> bal l (walkpgdir pgdir va alloc).
Proof. intros H. unfold walkpgdir. lk. Qed.
#[export] Hint Resolve ty_walkpgdir : locks.
Lemma ty_mappages `{L : Linker} l pgdir va size pa perm : no_kmem l -> bal l (mappages pgdir va size pa perm).
Proof. intros H. unfold mappages. lk. Qed.
Lemma ty_deallocuvm `{L : Linker} l pgdir oldsz newsz : no_kmem l -> bal l (deallocuvm pgdir oldsz newsz).
Proof. intros H. unfold deallocuvm. lk. Qed.
#[export] Hint Resolve ty_mappages ty_deallocuvm : locks.
Lemma ty_freevm `{L : Linker} l pgdir : no_kmem l -> bal l (freevm pgdir).
Proof. intros H. unfold freevm. lk. Qed.
#[export] Hint Resolve ty_freevm : locks.
Lemma ty_setupkvm `{L : Linker} l : no_kmem l -> bal l setupkvm.
Proof. intros H. unfold setupkvm. lk. Qed.
Lemma ty_switchuvm l op : bal l (switchuvm op).
Proof. unfold switchuvm. lk. Qed.
Lemma ty_switchkvm l : bal l switchkvm.
Proof. unfold switchkvm. lk. Qed.
Lemma ty_allocuvm `{L : Linker} l pgdir oldsz newsz : no_kmem l -> bal l (allocuvm pgdir oldsz newsz).
Proof. intros H. pose proof H as (_ & ? & _). unfold allocuvm. lk. Qed.
#[export] Hint Resolve ty_setupkvm ty_switchuvm ty_switchkvm ty_allocuvm : locks.
Lemma ty_inituvm `{L : Linker} l pgdir init sz : no_kmem l -> bal l (inituvm pgdir init sz).
Proof. intros H. unfold inituvm. lk. Qed.
Lemma ty_clearpteu `{L : Linker} l pgdir uva : no_kmem l -> bal l (clearpteu pgdir uva).
Proof. intros H. unfold clearpteu. lk. Qed.
Lemma ty_copyuvm `{L : Linker} l pgdir sz : no_kmem l -> bal l (copyuvm pgdir sz).
Proof. intros H. unfold copyuvm. lk. Qed.
Lemma ty_uva2ka `{L : Linker} l pgdir uva : no_kmem l -> bal l (uva2ka pgdir uva).
Proof. intros H. unfold uva2ka. lk. Qed.
#[export] Hint Resolve ty_inituvm ty_clearpteu ty_copyuvm ty_uva2ka : locks.
Lemma ty_copyout `{L : Linker} l pgdir va buf : no_kmem l -> bal l (copyout pgdir va buf).
Proof. intros H. unfold copyout. lk. Qed.
Lemma ty_uread l va : bal l (uread va).
Proof. unfold uread. lk. Qed.
Lemma ty_uwrite l va v : bal l (uwrite va v).
Proof. unfold uwrite. lk. Qed.
#[export] Hint Resolve ty_copyout ty_uread ty_uwrite : locks.
Lemma ty_ureads l n : forall va, bal l (ureads va n).
Proof. induction n; intros va; simpl; lk. Qed.
Lemma ty_uwrites l bs : forall va, bal l (uwrites va bs).
Proof. induction bs; intros va; simpl; lk. Qed.
#[export] Hint Resolve ty_ureads ty_uwrites : locks.

(** ** Buffers and the log *)

(** The walks of [bget] leave by releasing the lock of the cache. *)
Lemma ty_walk step test act start :
  (forall b, ty [LBcache] (act b) (fun _ => [])) ->
  ty [LBcache] (walk step test act start) (fun r => match r with Some _ => [] | None => [LBcache] end).
Proof. intros H. unfold walk. apply ty_loop. lk. Qed.

Lemma ty_bget dev blockno : bal [] (bget dev blockno).
Proof.
  unfold bget. do 2 (eapply ty_bind; [lk|]; intros ?; cbv beta). eapply ty_bind; [apply ty_walk; lk|]. intros [b|]; [lk|].
  eapply ty_bind; [lk|]; intros ?; cbv beta. eapply ty_bind; [apply ty_walk; lk|]. intros [b|]; lk.
Qed.
#[export] Hint Resolve ty_bget : locks.
Lemma ty_iderw b : bal [] (iderw b).
Proof. unfold iderw. lk. Qed.
#[export] Hint Resolve ty_iderw : locks.
Lemma ty_bread dev blockno : bal [] (bread dev blockno).
Proof. unfold bread. lk. Qed.
Lemma ty_bwrite b : bal [] (bwrite b).
Proof. unfold bwrite. lk. Qed.
Lemma ty_brelse b : bal [] (brelse b).
Proof. unfold brelse. lk. Qed.
#[export] Hint Resolve ty_bread ty_bwrite ty_brelse : locks.

Lemma ty_readsb dev : bal [] (readsb dev).
Proof. unfold readsb. lk. Qed.
Lemma ty_install_trans : bal [] install_trans.
Proof. unfold install_trans. lk. Qed.
Lemma ty_read_head : bal [] read_head.
Proof. unfold read_head. lk. Qed.
Lemma ty_write_head : bal [] write_head.
Proof. unfold write_head. lk. Qed.
Lemma ty_write_log : bal [] write_log.
Proof. unfold write_log. lk. Qed.
Lemma ty_begin_op : bal [] begin_op.
Proof. unfold begin_op. lk. Qed.
Lemma ty_log_write b : bal [] (log_write b).
Proof. unfold log_write. lk. Qed.
#[export] Hint Resolve ty_readsb ty_install_trans ty_read_head ty_write_head ty_write_log ty_begin_op ty_log_write : locks.
Lemma ty_commit : bal [] commit.
Proof. unfold commit. lk. Qed.
Lemma ty_initlog dev : bal [] (initlog dev).
Proof. unfold initlog, recover_from_log. lk. Qed.
#[export] Hint Resolve ty_commit ty_initlog : locks.
Lemma ty_end_op : bal [] end_op.
Proof. unfold end_op. lk. Qed.
#[export] Hint Resolve ty_end_op : locks.

(** ** The file system *)

(** Device functions are called without locks and leave none: what the inode layer needs of
    the device switch. *)
Class DevLocks `{DW : Devsw} : Prop := {
  dl_read major f i n : dev_read major = Some f -> bal [] (f i n);
  dl_write major f i buf n : dev_write major = Some f -> bal [] (f i buf n)
}.

Lemma ty_bzero dev bno : bal [] (bzero dev bno).
Proof. unfold bzero. lk. Qed.
#[export] Hint Resolve ty_bzero : locks.
Lemma ty_balloc dev : bal [] (Fs.balloc dev).
Proof. unfold Fs.balloc, balloc_scan. lk. Qed.
Lemma ty_bfree dev b : bal [] (bfree dev b).
Proof. unfold bfree. lk. Qed.
#[export] Hint Resolve ty_balloc ty_bfree : locks.

Lemma ty_iget_scan slots dev inum : forall empty,
  ty [LIcache] (iget_scan slots dev inum empty) (fun r => match r with inl _ => [] | inr _ => [LIcache] end).
Proof. induction slots; intros empty; simpl; lk. Qed.
Lemma ty_iget dev inum : bal [] (iget dev inum).
Proof. unfold iget. eapply ty_bind; [lk|]; intros ?; cbv beta. eapply ty_bind; [apply ty_iget_scan|]. intros [|[]]; lk. Qed.
#[export] Hint Resolve ty_iget : locks.
Lemma ty_ialloc dev type : bal [] (Fs.ialloc dev type).
Proof. unfold Fs.ialloc. lk. Qed.
Lemma ty_iupdate i : bal [] (iupdate i).
Proof. unfold iupdate. lk. Qed.
Lemma ty_idup l i : LIcache ∉ l -> bal l (idup i).
Proof. intros H. unfold idup. lk. Qed.
Lemma ty_ilock oi : bal [] (ilock oi).
Proof. unfold ilock. lk. Qed.
Lemma ty_iunlock oi : bal [] (iunlock oi).
Proof. unfold iunlock. lk. Qed.
#[export] Hint Resolve ty_ialloc ty_iupdate ty_idup ty_ilock ty_iunlock : locks.
Lemma ty_bmap i bn : bal [] (bmap i bn).
Proof. unfold bmap, addr_or_alloc, get_addr, set_addr. lk. Qed.
Lemma ty_itrunc i : bal [] (itrunc i).
Proof. unfold itrunc, get_addr, set_addr. lk. Qed.
#[export] Hint Resolve ty_bmap ty_itrunc : locks.
Lemma ty_iput i : bal [] (iput i).
Proof. unfold iput. lk. Qed.
#[export] Hint Resolve ty_iput : locks.
Lemma ty_iunlockput i : bal [] (iunlockput i).
Proof. unfold iunlockput. lk. Qed.
Lemma ty_stati l i : bal l (stati i).
Proof. unfold stati. lk. Qed.
#[export] Hint Resolve ty_iunlockput ty_stati : locks.

Section content_locks.
Context `{DLk : DevLocks}.

Lemma ty_dev_read ip f i n : dev_of dev_read ip = Some f -> bal [] (f i n).
Proof. unfold dev_of. case_match; [done|]. apply dl_read. Qed.
Lemma ty_dev_write ip f i buf n : dev_of dev_write ip = Some f -> bal [] (f i buf n).
Proof. unfold dev_of. case_match; [done|]. apply dl_write. Qed.

Lemma ty_readi i off n : bal [] (readi i off n).
Proof.
  unfold readi. eapply ty_bind; [lk|]; intros ip; cbv beta. destruct (_ =? _); [|lk].
  destruct (dev_of _ _) eqn:E; [by eapply ty_dev_read | lk].
Qed.
Lemma ty_writei i src off n : bal [] (writei i src off n).
Proof.
  unfold writei. eapply ty_bind; [lk|]; intros ip; cbv beta. destruct (_ =? _); [|lk].
  destruct (dev_of _ _) eqn:E; [by eapply ty_dev_write | lk].
Qed.
#[local] Hint Resolve ty_readi ty_writei : locks.

Lemma ty_namecmp l s t : bal l (namecmp s t).
Proof. unfold namecmp. lk. Qed.
#[local] Hint Resolve ty_namecmp : locks.
Lemma ty_dirlookup dp name : bal [] (dirlookup dp name).
Proof. unfold dirlookup, dirlookup_step. lk. Qed.
#[local] Hint Resolve ty_dirlookup : locks.
Lemma ty_dirlink dp name inum : bal [] (dirlink dp name inum).
Proof. unfold dirlink, dirlink_step. lk. Qed.
Lemma ty_namex path parent name : bal [] (namex path parent name).
Proof. unfold namex. lk. Qed.
#[local] Hint Resolve ty_dirlink ty_namex : locks.
Lemma ty_namei path : bal [] (namei path).
Proof. unfold namei. lk. Qed.
Lemma ty_nameiparent path name : bal [] (nameiparent path name).
Proof. unfold nameiparent. lk. Qed.
End content_locks.
#[export] Hint Resolve ty_readi ty_writei ty_namecmp ty_dirlookup ty_dirlink ty_namex ty_namei ty_nameiparent : locks.

(** ** Pipes and open files *)

Lemma ty_pipe_wait_room fuel a : ty [LPipe a] (pipe_wait_room fuel a) (fun ok => if ok then [LPipe a] else []).
Proof. unfold pipe_wait_room. apply ty_loop. lk. Qed.
Lemma ty_pipewrite_loop fuel a addr : ty [LPipe a] (pipewrite_loop fuel a addr) (fun ok => if ok then [LPipe a] else []).
Proof. induction addr; simpl; [lk|]. eapply ty_bind; [apply ty_pipe_wait_room|]. intros []; lk. Qed.
Lemma ty_pipewrite a addr : bal [] (pipewrite a addr).
Proof. unfold pipewrite, pipewrite_upto. eapply ty_bind; [lk|]; intros ?. eapply ty_bind; [apply ty_pipewrite_loop|]. intros []; lk. Qed.
Lemma ty_pipe_wait_data fuel a : ty [LPipe a] (pipe_wait_data fuel a) (fun ok => if ok then [LPipe a] else []).
Proof. unfold pipe_wait_data. apply ty_loop. lk. Qed.
Lemma ty_piperead_loop l a n : bal l (piperead_loop a n).
Proof. induction n; simpl; lk. Qed.
#[export] Hint Resolve ty_piperead_loop ty_pipewrite : locks.
Lemma ty_piperead a n : bal [] (piperead a n).
Proof. unfold piperead, piperead_upto. eapply ty_bind; [lk|]; intros ?. eapply ty_bind; [apply ty_pipe_wait_data|]. intros []; lk. Qed.
Lemma ty_pipeclose `{L : Linker} a w : bal [] (pipeclose a w).
Proof. unfold pipeclose. lk. Qed.
#[export] Hint Resolve ty_piperead ty_pipeclose : locks.

Lemma ty_filealloc : bal [] filealloc.
Proof.
  unfold filealloc. eapply ty_bind; [lk|]; intros ?.
  eapply (ty_bind _ _ _ (fun r => match r with Some _ => [] | None => [LFtable] end)); [|intros []; lk].
  apply ty_for_first; [done|]. lk.
Qed.
Lemma ty_filedup i : bal [] (filedup i).
Proof. unfold filedup. lk. Qed.
#[export] Hint Resolve ty_filealloc ty_filedup : locks.

Section file_locks.
Context `{L : Linker} `{DLk : DevLocks}.

Lemma ty_fileclose i : bal [] (fileclose i).
Proof. unfold fileclose. lk. Qed.
Lemma ty_filestat i : bal [] (filestat i).
Proof. unfold filestat. lk. Qed.
Lemma ty_fileread i n : bal [] (fileread i n).
Proof. unfold fileread. lk. Qed.
Lemma ty_filewrite fi addr n : bal [] (filewrite fi addr n).
Proof. unfold filewrite. lk. Qed.
#[local] Hint Resolve ty_fileclose : locks.
Lemma ty_pipealloc : bal [] pipealloc.
Proof. unfold pipealloc. lk. Qed.
End file_locks.
#[export] Hint Resolve ty_fileclose ty_filestat ty_fileread ty_filewrite ty_pipealloc : locks.

(** ** Processes and containers *)

Lemma ty_alloccont : bal [] alloccont.
Proof. unfold alloccont. lk. Qed.
Lemma ty_name_matches l name co : bal l (name_matches name co).
Proof. unfold name_matches. lk. Qed.
Lemma ty_cid2cont l cid : bal l (cid2cont cid).
Proof. unfold cid2cont. lk. Qed.
#[export] Hint Resolve ty_alloccont ty_name_matches ty_cid2cont : locks.
Lemma ty_name2cont l name : bal l (name2cont name).
Proof. unfold name2cont. lk. Qed.
Lemma ty_cexit c : bal [LPtable] (cexit c).
Proof. unfold cexit. lk. Qed.
Lemma ty_not_root l : bal l not_root.
Proof. unfold not_root. lk. Qed.
#[export] Hint Resolve ty_name2cont ty_cexit ty_not_root : locks.
Lemma ty_cstop name : bal [] (cstop name).
Proof. unfold cstop. lk. Qed.
Lemma ty_cpause name : bal [] (cpause name).
Proof. unfold cpause. lk. Qed.
Lemma ty_cresume name : bal [] (cresume name).
Proof. unfold cresume. lk. Qed.
Lemma ty_cinfo_procs l row : bal l (cinfo_procs row).
Proof. induction row; simpl; lk. Qed.
#[export] Hint Resolve ty_cstop ty_cpause ty_cresume ty_cinfo_procs : locks.
Lemma ty_cinfo_conts l cs : bal l (cinfo_conts cs).
Proof. induction cs; simpl; lk. Qed.
#[export] Hint Resolve ty_cinfo_conts : locks.
Lemma ty_cinfo : bal [] cinfo.
Proof. unfold cinfo, acquireptable, releaseptable. lk. Qed.
#[export] Hint Resolve ty_cinfo : locks.

Section proc_locks.
Context `{L : Linker} `{DLk : DevLocks}.

Lemma ty_allocproc c : bal [] (allocproc c).
Proof. unfold allocproc, acquireptable, releaseptable. lk. Qed.
#[local] Hint Resolve ty_allocproc : locks.
Lemma ty_initprocess c : bal [] (initprocess c).
Proof. unfold initprocess, acquireptable, releaseptable. lk. Qed.
Lemma ty_growproc n : bal [] (growproc n).
Proof. unfold growproc. lk. Qed.
Lemma ty_fork pc : bal [] (fork pc).
Proof. unfold fork, acquireptable, releaseptable. lk. Qed.
Lemma ty_exit : bal [] exit.
Proof. unfold exit, acquireptable. lk. Qed.
Lemma ty_wait_scan row cur : forall havekids,
  ty [LPtable] (wait_scan row cur havekids) (fun r => match r with inl _ => [] | inr _ => [LPtable] end).
Proof. unfold wait_scan, releaseptable. induction row; intros havekids; cbn; lk. Qed.
Lemma ty_wait : bal [] wait.
Proof.
  unfold wait, acquireptable, releaseptable. do 6 (eapply ty_bind; [lk|]; intros ?; cbv beta).
  apply ty_loop. intros ?. eapply ty_bind; [apply ty_wait_scan|]. intros []; lk.
Qed.
Lemma ty_iinit dev : bal [] (iinit dev).
Proof. unfold iinit, initsleeplock. lk. Qed.
#[local] Hint Resolve ty_iinit : locks.
(** A new process starts with the lock of the switch. *)
Lemma ty_forkret : ty [LPtable] forkret (fun _ => []).
Proof. unfold forkret, releaseptable. lk. Qed.
Lemma ty_kill pid : bal [] (kill pid).
Proof.
  unfold kill, acquireptable, releaseptable. do 4 (eapply ty_bind; [lk|]; intros ?; cbv beta).
  eapply (ty_bind _ _ _ (fun r => match r with Some _ => [] | None => [LPtable] end)); [|intros []; lk].
  apply ty_for_first; [done|]. lk.
Qed.
#[local] Hint Resolve ty_initprocess ty_fork : locks.

Lemma ty_initcontainer : bal [] initcontainer.
Proof. unfold initcontainer. lk. Qed.
#[local] Hint Resolve ty_initcontainer : locks.
Lemma ty_userinit : bal [] userinit.
Proof. unfold userinit. lk. Qed.
Lemma ty_ccreate name mproc msz mdsk : bal [] (ccreate name mproc msz mdsk).
Proof. unfold ccreate. lk. Qed.
Lemma ty_dirsize dp name : bal [] (dirsize dp name).
Proof. unfold dirsize, de_strlen. lk. Qed.
#[local] Hint Resolve ty_dirsize : locks.
Lemma ty_cstart name : bal [] (cstart name).
Proof. unfold cstart. lk. Qed.
Lemma ty_cfork cid : bal [] (cfork cid).
Proof. unfold cfork. lk. Qed.
Lemma ty_sched_pick l c : bal l (sched_pick c).
Proof. unfold sched_pick. lk. Qed.
#[local] Hint Resolve ty_sched_pick : locks.
Lemma ty_sched_round : bal [] sched_round.
Proof. unfold sched_round, sched_turn, acquireptable, releaseptable. lk. Qed.
Lemma ty_contdump : bal [] contdump.
Proof. unfold contdump, acquireptable, releaseptable. lk. Qed.
End proc_locks.
#[export] Hint Resolve ty_allocproc ty_initprocess ty_growproc ty_fork ty_exit ty_wait ty_kill ty_userinit ty_ccreate
  ty_cstart ty_cfork ty_sched_round ty_contdump : locks.

(** ** System calls *)

Lemma ty_uread32 l a : bal l (uread32 a).
Proof. unfold uread32. lk. Qed.
#[export] Hint Resolve ty_uread32 : locks.
Lemma ty_fetchint l addr : bal l (fetchint addr).
Proof. unfold fetchint. lk. Qed.
Lemma ty_fetchstr_scan l n : forall s, bal l (fetchstr_scan s n).
Proof. induction n; intros s; simpl; lk. Qed.
#[export] Hint Resolve ty_fetchint ty_fetchstr_scan : locks.
Lemma ty_fetchstr l addr : bal l (fetchstr addr).
Proof. unfold fetchstr. lk. Qed.
Lemma ty_argint l n : bal l (argint n).
Proof. unfold argint. lk. Qed.
#[export] Hint Resolve ty_fetchstr ty_argint : locks.
Lemma ty_argptr l n size : bal l (argptr n size).
Proof. unfold argptr. lk. Qed.
Lemma ty_argstr l n : bal l (argstr n).
Proof. unfold argstr. lk. Qed.
Lemma ty_argfd l n : bal l (argfd n).
Proof. unfold argfd. lk. Qed.
Lemma ty_fdalloc l f : bal l (fdalloc f).
Proof. unfold fdalloc. lk. Qed.
Lemma ty_put_stat l a st : bal l (put_stat a st).
Proof. unfold put_stat. lk. Qed.
Lemma ty_put_pinfos l ps : forall a, bal l (put_pinfos a ps).
Proof. induction ps; intros a'; simpl; lk. Qed.
Lemma ty_exec_args l n : forall uargv i, bal l (exec_args uargv i n).
Proof. induction n; intros uargv i; simpl; lk. Qed.
#[export] Hint Resolve ty_argptr ty_argstr ty_argfd ty_fdalloc ty_put_stat ty_put_pinfos ty_exec_args : locks.
Lemma ty_put_cinfos l cs : forall a, bal l (put_cinfos a cs).
Proof. induction cs; intros a'; simpl; lk. Qed.
Lemma ty_arg_rw l : bal l arg_rw.
Proof. unfold arg_rw. lk. Qed.
#[export] Hint Resolve ty_put_cinfos ty_arg_rw : locks.

Section syscall_locks.
Context `{L : Linker} `{DLk : DevLocks}.

Lemma ty_loaduvm pgdir addr i off sz : bal [] (loaduvm pgdir addr i off sz).
Proof. unfold loaduvm. lk. Qed.
#[local] Hint Resolve ty_loaduvm : locks.
Lemma ty_exec_load pgdir ip elf : bal [] (exec_load pgdir ip elf).
Proof. unfold exec_load. lk. Qed.
Lemma ty_push_args l pgdir argv : no_kmem l -> forall sp argc, bal l (push_args pgdir sp argc argv).
Proof. intros H. induction argv; intros sp argc; simpl; lk. Qed.
#[local] Hint Resolve ty_exec_load ty_push_args : locks.
Lemma ty_exec_stack pgdir sz argv : bal [] (exec_stack pgdir sz argv).
Proof. unfold exec_stack. lk. Qed.
#[local] Hint Resolve ty_exec_stack : locks.
Lemma ty_exec_image cur pgdir sz elf path argv : bal [] (exec_image cur pgdir sz elf path argv).
Proof. unfold exec_image. lk. Qed.
#[local] Hint Resolve ty_exec_image : locks.
Lemma ty_exec_open cur ip path argv : bal [] (exec_open cur ip path argv).
Proof. unfold exec_open. lk. Qed.
#[local] Hint Resolve ty_exec_open : locks.
Lemma ty_exec path argv : bal [] (exec path argv).
Proof. unfold exec. lk. Qed.
Lemma ty_isdirempty dp : bal [] (isdirempty dp).
Proof. unfold isdirempty. lk. Qed.
Lemma ty_create path type major minor : bal [] (create path type major minor).
Proof. unfold create. lk. Qed.
#[local] Hint Resolve ty_exec ty_isdirempty ty_create : locks.

Lemma ty_sys_sleep : bal [] sys_sleep.
Proof.
  unfold sys_sleep. eapply ty_bind; [lk|]. intros []; [|lk]. do 2 (eapply ty_bind; [lk|]; intros ?; cbv beta).
  apply ty_loop. lk.
Qed.
#[local] Hint Resolve ty_sys_sleep : locks.

(** Every entry of the table of system calls. *)
Lemma ty_syscalls : Forall (fun f => bal [] f) syscalls.
Proof.
  unfold syscalls, sys_fork, sys_exit, sys_wait, sys_pipe, sys_read, sys_kill, sys_exec, sys_fstat, sys_chdir, sys_dup,
    sys_getpid, sys_sbrk, sys_uptime, sys_open, sys_write, sys_mknod, sys_unlink, sys_link, sys_mkdir, sys_close,
    sys_getticks, sys_ccreate, sys_cstop, sys_cstart, sys_cfork, sys_cinfo, sys_cpause, sys_cresume.
  repeat apply Forall_cons_2; try apply Forall_nil_2; lk.
Qed.

Lemma ty_syscall : bal [] syscall.
Proof.
  unfold syscall. do 3 (eapply ty_bind; [lk|]; intros ?; cbv beta zeta).
  destruct (if 0 <? _ then _ else _) as [f|] eqn:E; [|lk]. eapply (ty_bind _ _ _ (fun _ => [])); [|lk].
  case_match; [|done]. exact (Forall_lookup_1 _ _ _ _ ty_syscalls E).
Qed.
End syscall_locks.

(** ** The console and traps *)

Lemma ty_get_cd l : bal l get_cd.
Proof. unfold get_cd. lk. Qed.
Lemma ty_upd_cd l f : bal l (upd_cd f).
Proof. unfold upd_cd. lk. Qed.
#[export] Hint Resolve ty_get_cd ty_upd_cd : locks.
Lemma ty_upd_input l f : bal l (upd_input f).
Proof. unfold upd_input. lk. Qed.
Lemma ty_uartputc l c : bal l (Cons.uartputc c).
Proof. unfold Cons.uartputc. lk. Qed.
Lemma ty_cgaputc l c : bal l (Cons.cgaputc c).
Proof. unfold Cons.cgaputc. lk. Qed.
#[export] Hint Resolve ty_upd_input ty_uartputc ty_cgaputc : locks.
Lemma ty_consputc l c : bal l (Cons.consputc c).
Proof. unfold Cons.consputc. lk. Qed.
#[export] Hint Resolve ty_consputc : locks.
Lemma ty_cons_cprintf l fmt args : LCons ∉ l -> bal l (Cons.cprintf fmt args).
Proof.
  intros H. unfold Cons.cprintf. eapply ty_bind; [lk|]. intros locking. destruct locking; unfold when; lk.
Qed.
Lemma ty_console_char c : bal [LCons] (Cons.console_char c).
Proof. unfold Cons.console_char, Cons.nextconsole, Cons.kill_line. lk. Qed.
#[export] Hint Resolve ty_cons_cprintf ty_console_char : locks.
Lemma ty_consoleintr `{L : Linker} cs : bal [] (Cons.consoleintr cs).
Proof. unfold Cons.consoleintr. lk. Qed.
#[export] Hint Resolve ty_consoleintr : locks.

(** [consoleread] leaves its loop without the lock when the process is killed. *)
Lemma ty_consoleread ip n : bal [] (Cons.consoleread ip n).
Proof.
  unfold Cons.consoleread. do 2 (eapply ty_bind; [lk|]; intros ?; cbv beta zeta).
  eapply (ty_bind _ _ _ (fun r => match r with Some _ => [LCons] | None => [] end)); [|intros [[]|]; lk].
  apply ty_loop. intros [m dst]. destruct (0 <? m); [|lk].
  eapply (ty_bind _ _ _ (fun ok : bool => if ok then [LCons] else [])); [apply ty_loop; lk|]. intros []; cbn [negb]; lk.
Qed.
Lemma ty_consolewrite ip buf n : bal [] (Cons.consolewrite ip buf n).
Proof. unfold Cons.consolewrite. lk. Qed.

(** The console keeps the promise of the device switch. *)
#[export] Instance console_locks : DevLocks (DW := console_devsw).
Proof.
  split; intros major f i; simpl; case_match; intros; simplify_eq; [apply ty_consoleread | apply ty_consolewrite].
Qed.

Section trap_locks.
Context `{L : Linker}.

Lemma ty_killed_in_user l tf : bal l (killed_in_user tf).
Proof. unfold killed_in_user. lk. Qed.
Lemma ty_trap_timer h : bal [] (trap_timer h).
Proof. unfold trap_timer. lk. Qed.
Lemma ty_trap_fault h tf trapno : bal [] (trap_fault h tf trapno).
Proof. unfold trap_fault. lk. Qed.
Lemma ty_console_syscall : bal [] syscall.
Proof. apply ty_syscall. Qed.
#[local] Hint Resolve ty_killed_in_user ty_trap_timer ty_trap_fault ty_console_syscall : locks.
Lemma ty_trap_dispatch h tf trapno : bal [] (trap_dispatch h tf trapno).
Proof. unfold trap_dispatch, ideintr, Cons.kbdintr, Cons.uartintr. lk. Qed.
#[local] Hint Resolve ty_trap_dispatch : locks.

(** C5: the discipline of spinlocks.  A trap of any kind - a system call, a device's
    interrupt, the clock, a fault - taken with no spinlock held never acquires a lock the CPU
    holds and never releases one it does not hold; it gives up the CPU only with the process
    table's lock held and no other, whatever the scheduler does before it comes back; and when
    it returns to the user every lock is released. *)
Theorem trap_lock_discipline h tf : ty [] (trap h tf) (fun _ => []).
Proof. unfold trap. lk. Qed.

(** The discipline of the scheduler, which holds the process table's lock over a round
    and hands it to the processes it runs; and of [forkret], where a new process starts with
    that lock and gives it back. *)
Theorem scheduler_lock_discipline n : ty [] (scheduler n) (fun _ => []) /\ ty [LPtable] forkret (fun _ => []).
Proof. split; [unfold scheduler; lk | apply ty_forkret]. Qed.
End trap_locks.
