(* ===== verification/X86.v ===== *)
(** * The processor

    The part of the x86 the kernel's assembly uses: the registers, the instructions of
    trapasm.S, swtch.S, vectors.S, usys.S and initcode.S, the delivery of interrupts through
    the descriptor tables and the return from them.

    Segments of the kernel and of processes start at 0, so an offset is a linear address.
    A push of a segment register writes the low half of its slot only. *)

From S2P Require Import Prelude Monad KState.

(** ** Registers and memory *)

Inductive reg : Type := EAX | ECX | EDX | EBX | ESP | EBP | ESI | EDI.
Inductive sreg : Type := CS | DS | ES | FS | GS | SS.

#[export] Instance reg_eq_dec : EqDecision reg.
Proof. solve_decision. Defined.
#[export] Instance sreg_eq_dec : EqDecision sreg.
Proof. solve_decision. Defined.

Record cpu : Type := mkCpu {
  c_r : reg -> Z;
  c_s : sreg -> Z;
  c_eip : Z;
  c_eflags : Z;
  c_mem : mem
}.

Definition upd {K} `{EqDecision K} (f : K -> Z) (k : K) (v : Z) : K -> Z := fun x => if decide (x = k) then v else f x.

Definition set_r (r : reg) (v : Z) (c : cpu) : cpu := mkCpu (upd (c_r c) r v) (c_s c) (c_eip c) (c_eflags c) (c_mem c).
Definition set_s (r : sreg) (v : Z) (c : cpu) : cpu := mkCpu (c_r c) (upd (c_s c) r v) (c_eip c) (c_eflags c) (c_mem c).
Definition set_eip (v : Z) (c : cpu) : cpu := mkCpu (c_r c) (c_s c) v (c_eflags c) (c_mem c).
Definition set_eflags (v : Z) (c : cpu) : cpu := mkCpu (c_r c) (c_s c) (c_eip c) v (c_mem c).
Definition set_mem (m : mem) (c : cpu) : cpu := mkCpu (c_r c) (c_s c) (c_eip c) (c_eflags c) m.

(** The privilege level the processor runs at. *)
Definition cpl (c : cpu) : Z := Z.land (c_s c CS) 3.

Definition ld16 (m : mem) (a : Z) : Z := m a + 256 * m (a + 1).
Definition st16 (m : mem) (a v : Z) : mem := st8 (st8 m a v) (a + 1) (v / 256).

Definition push32 (v : Z) (c : cpu) : cpu :=
  let sp := u32 (c_r c ESP - 4) in set_mem (st32 (c_mem c) sp v) (set_r ESP sp c).
Definition push16 (v : Z) (c : cpu) : cpu :=
  let sp := u32 (c_r c ESP - 4) in set_mem (st16 (c_mem c) sp v) (set_r ESP sp c).
Definition drop_slot (c : cpu) : cpu := set_r ESP (u32 (c_r c ESP + 4)) c.
Definition top32 (c : cpu) : Z := ld32 (c_mem c) (c_r c ESP).
Definition top16 (c : cpu) : Z := ld16 (c_mem c) (c_r c ESP).

(** ** Instructions *)

Inductive instr : Type :=
  | PushlR (r : reg) | PushlS (r : sreg) | PushlI (v : Z)
  | PoplR (r : reg) | PoplS (r : sreg)
  | Pushal | Popal
  | MovwAx (v : Z)                      (* movw $v, %ax *)
  | MovwS (r : sreg)                    (* movw %ax, %r *)
  | MovlI (v : Z) (r : reg)             (* movl $v, %r *)
  | MovlRR (a b : reg)                  (* movl %a, %b *)
  | MovlLoad (off : Z) (b r : reg)      (* movl off(%b), %r *)
  | MovlStore (r b : reg)               (* movl %r, (%b) *)
  | AddlI (v : Z) (r : reg)             (* addl $v, %r *)
  | Jmp (target : Z)
  | Call (target next : Z)              (* [next]: the address after the call *)
  | Retn
  | Iret.

(** The order in which [pushal] stores the registers; the value of [%esp] is the one before. *)
Definition pushal_regs : list reg := [EAX; ECX; EDX; EBX; ESP; EBP; ESI; EDI].

Definition pop_reg (r : reg) (c : cpu) : cpu := set_r r (top32 c) (drop_slot c).

Definition iret (c : cpu) : cpu :=
  let old := cpl c in
  let c := drop_slot (set_eip (top32 c) c) in
  let c := drop_slot (set_s CS (top16 c) c) in
  let c := drop_slot (set_eflags (top32 c) c) in
  if old <? cpl c then
    let esp := top32 c in
    let c := drop_slot c in
    set_r ESP esp (set_s SS (top16 c) c)
  else c.

Definition step (i : instr) (c : cpu) : cpu :=
  match i with
  | PushlR r => push32 (c_r c r) c
  | PushlS r => push16 (c_s c r) c
  | PushlI v => push32 v c
  | PoplR r => pop_reg r c
  | PoplS r => set_s r (top16 c) (drop_slot c)
  | Pushal => fold_left (fun c' r => push32 (c_r c r) c') pushal_regs c
  | Popal =>
      fold_left (fun c r => if decide (r = ESP) then drop_slot c else pop_reg r c) (rev pushal_regs) c
  | MovwAx v => set_r EAX (c_r c EAX / 65536 * 65536 + u16 v) c
  | MovwS r => set_s r (u16 (c_r c EAX)) c
  | MovlI v r => set_r r (u32 v) c
  | MovlRR a b => set_r b (c_r c a) c
  | MovlLoad off b r => set_r r (ld32 (c_mem c) (u32 (c_r c b + off))) c
  | MovlStore r b => set_mem (st32 (c_mem c) (c_r c b) (c_r c r)) c
  | AddlI v r => set_r r (u32 (c_r c r + v)) c
  | Jmp target => set_eip target c
  | Call target next => set_eip target (push32 next c)
  | Retn => drop_slot (set_eip (top32 c) c)
  | Iret => iret c
  end.

Definition run (code : list instr) (c : cpu) : cpu := fold_left (fun c i => step i c) code c.

(** ** Bit fields

    A structure of bit fields is a word; its first field has the lowest bits. *)
Fixpoint pack (fs : list (Z * Z)) : Z :=
  match fs with
  | [] => 0
  | (w, v) :: fs' => v mod 2 ^ w + 2 ^ w * pack fs'
  end.

(** The field of width [w] at bit [k]. *)
Definition field (d k w : Z) : Z := d / 2 ^ k mod 2 ^ w.

(** ** Interrupts *)

(** What the processor reads of a segment descriptor and of a gate. *)
Definition d_base (d : Z) : Z := field d 16 16 + 65536 * field d 32 8 + 16777216 * field d 56 8.
Definition d_limit (d : Z) : Z :=
  let l := field d 0 16 + 65536 * field d 48 4 in if field d 55 1 =? 1 then l * 4096 + 4095 else l.
Definition d_type (d : Z) : Z := field d 40 4.
Definition d_app (d : Z) : bool := field d 44 1 =? 1.
Definition d_dpl (d : Z) : Z := field d 45 2.
Definition d_present (d : Z) : bool := field d 47 1 =? 1.

Definition g_offset (d : Z) : Z := field d 0 16 + 65536 * field d 48 16.
Definition g_cs (d : Z) : Z := field d 16 16.

(** The fields of the task state segment the processor uses on a change of privilege. *)
Record taskstate : Type := mkTs { ts_esp0 : Z; ts_ss0 : Z; ts_iomb : Z }.

(** The tables the processor consults, with their limits, and the descriptor [ltr] loaded. *)
Record tables : Type := mkTables {
  t_gdt : list Z;
  t_gdt_lim : Z;
  t_idt : list Z;
  t_idt_lim : Z;
  t_ts : taskstate;
  t_tr : Z
}.

Definition table_at (t : list Z) (lim n : Z) : option Z := if 8 * n + 7 <=? lim then t !! Z.to_nat n else None.
Definition gate (t : tables) (n : Z) : option Z := table_at (t_idt t) (t_idt_lim t) n.
Definition segment (t : tables) (sel : Z) : option Z := table_at (t_gdt t) (t_gdt_lim t) (sel / 8).

Definition IF : Z := 512.
(** The flags a gate clears: [TF], [NT], [RF] and [VM], and [IF] for an interrupt gate. *)
Definition gate_flags (isintr : bool) (f : Z) : Z :=
  Z.land f (Z.lnot (256 + 16384 + 65536 + 131072 + if isintr then IF else 0)).

(** The delivery of vector [n] after the checks on its source: on a change of privilege the
    stack of the task state segment is used.  [None]: the processor faults in the delivery. *)
Definition deliver (t : tables) (n : Z) (err : option Z) (c : cpu) : option cpu :=
  match gate t n with
  | None => None
  | Some g =>
      if negb (d_present g) || d_app g || negb ((d_type g =? 14) || (d_type g =? 15)) then None else
      match segment t (g_cs g) with
      | None => None
      | Some d =>
          if negb (d_present d) || negb (d_app d) || (d_type d <? 8) || (cpl c <? d_dpl d) then None else
          let inner := d_dpl d <? cpl c in
          let c1 :=
            if inner then
              push32 (c_r c ESP) (push16 (c_s c SS)
                (set_r ESP (ts_esp0 (t_ts t)) (set_s SS (ts_ss0 (t_ts t)) c)))
            else c in
          let c2 := push32 (c_eip c) (push16 (c_s c CS) (push32 (c_eflags c) c1)) in
          let c3 := match err with Some e => push32 e c2 | None => c2 end in
          Some (set_eflags (gate_flags (d_type g =? 14) (c_eflags c))
            (set_eip (g_offset g) (set_s CS (g_cs g / 4 * 4 + d_dpl d) c3)))
      end
  end.

(** [int $n]: a gate of a more privileged level is a general protection fault. *)
Definition T_GPFLT : Z := 13.
Definition int_n (t : tables) (n : Z) (c : cpu) : option cpu :=
  match gate t n with
  | None => deliver t T_GPFLT (Some (8 * n + 2)) c
  | Some g => if d_dpl g <? cpl c then deliver t T_GPFLT (Some (8 * n + 2)) c else deliver t n None c
  end.

(** The exceptions with an error code. *)
Definition has_err (n : Z) : bool := bool_decide (n ∈ [8; 10; 11; 12; 13; 14; 17]).

(** An I/O instruction is allowed below [IOPL], or by the bitmap in the task state segment. *)
Definition IOPL (f : Z) : Z := f / 4096 mod 4.
Definition io_allowed (t : tables) (port : Z) (bit : Z -> bool) (c : cpu) : bool :=
  (cpl c <=? IOPL (c_eflags c)) ||
  match segment t (t_tr t) with
  | Some d => (ts_iomb (t_ts t) + port / 8 + 1 <=? d_limit d) && negb (bit port)
  | None => false
  end.

(** ** Lemmas *)

Lemma upd_eq {K} `{EqDecision K} (f : K -> Z) k v : upd f k v k = v.
Proof. unfold upd. by rewrite decide_True. Qed.
Lemma upd_ne {K} `{EqDecision K} (f : K -> Z) k v x : x <> k -> upd f k v x = f x.
Proof. intros H. unfold upd. by rewrite decide_False. Qed.

(** Reads of updated registers. *)
Ltac upds :=
  repeat match goal with
  | |- context [upd ?f ?k ?v ?k] => rewrite (upd_eq f k v)
  | |- context [upd ?f ?k ?v ?x] => rewrite (upd_ne f k v x) by discriminate
  end.

Lemma run_app a b c : run (a ++ b) c = run b (run a c).
Proof. apply fold_left_app. Qed.

(** The field at bit [k] of a list of fields. *)
Fixpoint field_at (fs : list (Z * Z)) (k : Z) : option (Z * Z) :=
  match fs with
  | [] => None
  | (w, v) :: fs' => if k =? 0 then Some (w, v) else if k <? w then None else field_at fs' (k - w)
  end.

(** A field of a packed word. *)
Lemma field_pack fs k w v :
  forallb (fun p => 0 <=? p.1) fs = true -> 0 <= k -> field_at fs k = Some (w, v) -> field (pack fs) k w = v mod 2 ^ w.
Proof.
  intros Hfs. revert k. induction fs as [|[w0 v0] fs IH]; intros k Hk E; simpl in *; [done|].
  apply andb_true_iff in Hfs as [Hw%Z.leb_le Hfs]. specialize (IH Hfs). unfold field in *.
  destruct (Z.eqb_spec k 0) as [->|]; [|destruct (Z.ltb_spec k w0); [done|]].
  - injection E as -> ->. change (2 ^ 0) with 1. rewrite Z.div_1_r, (Z.mul_comm (2 ^ w)), Z.mod_add by lia. apply Z.mod_mod. lia.
  - rewrite <- (IH (k - w0)) by (done || lia). replace (2 ^ k) with (2 ^ w0 * 2 ^ (k - w0)) by (rewrite <- Z.pow_add_r by lia; f_equal; lia).
    rewrite <- Z.div_div by lia. do 2 f_equal. rewrite (Z.mul_comm (2 ^ w0)), Z.div_add by lia.
    rewrite Z.div_small by (apply Z.mod_pos_bound; lia). lia.
Qed.

(** ** Pushing a sequence of slots *)

Inductive slot : Type := W32 (v : Z) | W16 (v : Z).
Definition push_slot (s : slot) (c : cpu) : cpu := match s with W32 v => push32 v c | W16 v => push16 v c end.
Definition push_slots (l : list slot) (c : cpu) : cpu := fold_left (fun c s => push_slot s c) l c.

(** What a load of a slot gives. *)
Definition slot_is (m : mem) (a : Z) (s : slot) : Prop :=
  match s with W32 v => ld32 m a = u32 v | W16 v => ld16 m a = u16 v end.

Lemma ld16_st16 m a v : ld16 (st16 m a v) a = u16 v.
Proof. unfold ld16, st16. rewrite st8_eq, st8_ne, st8_eq by lia. zlia. Qed.

Lemma slot_is_ext m m' a s : slot_is m a s -> (forall x, a <= x < a + 4 -> m' x = m x) -> slot_is m' a s.
Proof.
  intros Hs E. destruct s; simpl in *.
  - rewrite <- Hs. by apply ld32_ext.
  - unfold ld16 in *. by rewrite !E by lia.
Qed.

Lemma push_slot_spec s c : 4 <= c_r c ESP < 4294967296 ->
  c_r (push_slot s c) ESP = c_r c ESP - 4 /\ slot_is (c_mem (push_slot s c)) (c_r c ESP - 4) s /\
  (forall a, ~ (c_r c ESP - 4 <= a < c_r c ESP) -> c_mem (push_slot s c) a = c_mem c a).
Proof.
  intros He. destruct s; unfold push_slot, push32, push16; cbn [c_r c_mem set_mem set_r]; rewrite u32_small by lia;
    (split; [apply upd_eq|]; split).
  - apply ld32_st32.
  - intros a Ha. apply st32_frame. lia.
  - apply ld16_st16.
  - intros a Ha. unfold st16. by rewrite !st8_ne by lia.
Qed.

(** The slots are in memory below the old stack pointer, the first one highest, and nothing
    else changes. *)
Lemma push_slots_spec l : forall c, 4 * zlen l <= c_r c ESP < 4294967296 ->
  c_r (push_slots l c) ESP = c_r c ESP - 4 * zlen l /\
  (forall i s, l !! i = Some s -> slot_is (c_mem (push_slots l c)) (c_r c ESP - 4 * (Z.of_nat i + 1)) s) /\
  (forall a, ~ (c_r c ESP - 4 * zlen l <= a < c_r c ESP) -> c_mem (push_slots l c) a = c_mem c a).
Proof.
  induction l as [|s l IH]; intros c He; unfold zlen in *; cbn [length] in *.
  - split; [simpl; lia|]. split; [done|]. done.
  - destruct (push_slot_spec s c) as (E1 & E2 & E3); [lia|].
    destruct (IH (push_slot s c)) as (F1 & F2 & F3); [rewrite E1; lia|]. rewrite E1 in *.
    cbn [push_slots fold_left]. fold (push_slots l (push_slot s c)). split; [lia|]. split.
    + intros [|i] s' Hi; simpl in Hi.
      * simplify_eq. apply (slot_is_ext (c_mem (push_slot s' c))).
        -- by replace (c_r c ESP - 4 * (Z.of_nat 0 + 1)) with (c_r c ESP - 4) by lia.
        -- intros x Hx. apply F3. lia.
      * specialize (F2 i s' Hi). by replace (c_r c ESP - 4 * (Z.of_nat (S i) + 1)) with (c_r c ESP - 4 - 4 * (Z.of_nat i + 1)) by lia.
    + intros a Ha. rewrite F3, E3 by lia. done.
Qed.

(** Pushes change the stack pointer and memory alone. *)
Lemma push_slots_frame l : forall c,
  (forall r, r <> ESP -> c_r (push_slots l c) r = c_r c r) /\ c_s (push_slots l c) = c_s c /\
  c_eip (push_slots l c) = c_eip c /\ c_eflags (push_slots l c) = c_eflags c.
Proof.
  induction l as [|s l IH]; intros c; [done|]. cbn [push_slots fold_left]. fold (push_slots l (push_slot s c)).
  destruct (IH (push_slot s c)) as (F1 & F2 & F3 & F4). rewrite F2, F3, F4. split_and!; [|by destruct s..].
  intros r Hr. rewrite F1 by done. by destruct s; apply upd_ne.
Qed.

Lemma push_slots_app a b c : push_slots (a ++ b) c = push_slots b (push_slots a c).
Proof. apply fold_left_app. Qed.

(** The low half of a register after [movw]. *)
Lemma low_half x v : u16 (x / 65536 * 65536 + u16 v) = u16 v.
Proof. unfold u16. rewrite Z.add_comm, Z.mod_add by lia. by apply Z.mod_mod. Qed.

(** Two states with the same stack; pushes depend on nothing else. *)
Definition same_stack (c c' : cpu) : Prop := c_mem c = c_mem c' /\ c_r c ESP = c_r c' ESP.

#[export] Instance same_stack_equiv : Equivalence same_stack.
Proof. unfold same_stack. split; red; intuition congruence. Qed.

#[export] Instance push_slots_proper l : Proper (same_stack ==> same_stack) (push_slots l).
Proof.
  induction l as [|s l IH]; intros c c' Hc; [done|]. apply IH. destruct Hc as [Hm He].
  destruct s; split; unfold push_slot, push32, push16; cbn [c_mem c_r set_mem set_r]; by rewrite ?upd_eq, ?Hm, ?He.
Qed.

Lemma run_cons i code c : run (i :: code) c = run code (step i c).
Proof. done. Qed.
Lemma step_pushs r c : step (PushlS r) c = push_slots [W16 (c_s c r)] c.
Proof. done. Qed.
Lemma push_slots_s l c : c_s (push_slots l c) = c_s c.
Proof. apply push_slots_frame. Qed.

Lemma push_slots_r l c r : r <> ESP -> c_r (push_slots l c) r = c_r c r.
Proof. apply push_slots_frame. Qed.

(** The registers [pushal] stores, as slots. *)
Definition reg_slots (c : cpu) : list slot := map (fun r => W32 (c_r c r)) pushal_regs.

Lemma pushal_slots c : step Pushal c = push_slots (reg_slots c) c.
Proof.
  unfold step, reg_slots. generalize pushal_regs. intros l. generalize c at 2 4. induction l as [|r l IH]; intros c0; [done|].
  cbn [map fold_left]. rewrite IH. reflexivity.
Qed.

(** ** Pops and the return from a trap *)

(** The registers [popal] loads. *)
Lemma pops_spec l : forall c e, c_r c ESP = e -> 0 <= e -> e + 4 * zlen l < 4294967296 -> NoDup l ->
  let c' := fold_left (fun c r => if decide (r = ESP) then drop_slot c else pop_reg r c) l c in
  c_r c' ESP = e + 4 * zlen l /\
  (forall i r, l !! i = Some r -> r <> ESP -> c_r c' r = ld32 (c_mem c) (e + 4 * Z.of_nat i)) /\
  (forall r, r ∉ l -> r <> ESP -> c_r c' r = c_r c r) /\
  c_mem c' = c_mem c /\ c_s c' = c_s c.
Proof.
  unfold zlen. induction l as [|r l IH]; intros c e He H0 H1 Hn; cbn [length fold_left] in *; [split_and!; [lia | done..]|].
  apply NoDup_cons in Hn as [Hr Hn].
  set (c1 := if decide (r = ESP) then drop_slot c else pop_reg r c).
  assert (c_r c1 ESP = e + 4 /\ (r <> ESP -> c_r c1 r = ld32 (c_mem c) e) /\ (forall x, x <> r -> x <> ESP -> c_r c1 x = c_r c x) /\
    c_mem c1 = c_mem c /\ c_s c1 = c_s c) as (E1 & E2 & E3 & E4 & E5).
  { unfold c1, pop_reg, drop_slot, top32. rewrite He, u32_small by lia. destruct (decide (r = ESP)) as [->|Hne]; cbn [c_r c_mem c_s set_r].
    - split_and!; [apply upd_eq | done | intros; by apply upd_ne | done | done].
    - split_and!; [by rewrite upd_ne, upd_eq | intros; apply upd_eq | intros; by rewrite !upd_ne | done | done]. }
  destruct (IH c1 (e + 4)) as (I1 & I2 & I3 & I4 & I5); [done | lia | lia | done|].
  split_and!; [lia | | | congruence | congruence].
  - intros [|i] x Hx Hxe; simpl in Hx.
    + simplify_eq. rewrite I3, E2 by done. f_equal. lia.
    + rewrite (I2 i x Hx Hxe), E4. f_equal. lia.
  - intros x Hx Hxe. apply not_elem_of_cons in Hx as [Hx1 Hx2]. by rewrite I3, E3.
Qed.

Lemma drop_slot_eq c e : c_r c ESP = e -> 0 <= e -> e + 4 < 4294967296 -> drop_slot c = set_r ESP (e + 4) c.
Proof. intros He H0 H1. unfold drop_slot. by rewrite He, u32_small by lia. Qed.

Lemma pops_step r c e : c_r c ESP = e -> 0 <= e -> e + 4 < 4294967296 ->
  step (PoplS r) c = set_s r (ld16 (c_mem c) e) (set_r ESP (e + 4) c).
Proof. intros He H0 H1. unfold step, top16. by rewrite He, (drop_slot_eq c e). Qed.

Lemma iret_spec c e : c_r c ESP = e -> 0 <= e -> e + 20 < 4294967296 -> cpl c = 0 ->
  let m := c_mem c in
  let c' := iret c in
  (forall r, r <> ESP -> c_r c' r = c_r c r) /\ (forall r, r <> CS -> r <> SS -> c_s c' r = c_s c r) /\
  c_s c' CS = ld16 m (e + 4) /\ c_eip c' = ld32 m e /\ c_eflags c' = ld32 m (e + 8) /\ c_mem c' = m /\
  if 0 <? Z.land (ld16 m (e + 4)) 3 then c_r c' ESP = ld32 m (e + 12) /\ c_s c' SS = ld16 m (e + 16)
  else c_r c' ESP = e + 12 /\ c_s c' SS = c_s c SS.
Proof.
  intros He H0 H1 Hc m c'. unfold c', iret, top32, top16. rewrite Hc, He.
  rewrite (drop_slot_eq (set_eip _ c) e) by (done || lia). cbn [c_mem set_r set_eip c_r]. rewrite upd_eq.
  rewrite (drop_slot_eq (set_s CS _ _) (e + 4)) by (apply upd_eq || lia). cbn [c_mem set_r set_s set_eip c_r]. rewrite upd_eq.
  rewrite (drop_slot_eq (set_eflags _ _) (e + 4 + 4)) by (apply upd_eq || lia).
  unfold cpl. cbn [c_mem set_r set_s set_eip set_eflags c_r c_s c_eip c_eflags]. rewrite !upd_eq. fold m.
  replace (e + 4 + 4 + 4) with (e + 12) by lia. replace (e + 4 + 4) with (e + 8) by lia.
  destruct (0 <? _).
  - rewrite (drop_slot_eq _ (e + 12)) by (apply upd_eq || lia). cbn [c_mem set_r set_s set_eip set_eflags c_r c_s c_eip c_eflags].
    rewrite !upd_eq. replace (e + 12 + 4) with (e + 16) by lia.
    split_and!; try done; intros; by rewrite ?upd_ne.
  - cbn [c_mem set_r set_s set_eip set_eflags c_r c_s c_eip c_eflags]. rewrite !upd_eq.
    split_and!; try done; intros; by rewrite ?upd_ne.
Qed.
