(* ===== verification/Protect.v ===== *)
(** * Protection of the kernel from processes

    The segment descriptors, gates and task state of mmu.h; [seginit] and the segment half of
    [switchuvm] (vm.c), [tvinit] and [idtinit] (trap.c), [lgdt] and [lidt] (x86.h).

    The theorems are about what the processor reads in the tables the kernel builds: a
    process enters the kernel by the system call gate alone, on the kernel stack of the
    process, and does no I/O; every other vector is for the hardware. *)

From S2P Require Import Prelude Monad KState Proc Trap X86.

(** ** mmu.h *)

Definition SEG_KCODE : Z := 1.
Definition SEG_KDATA : Z := 2.
Definition SEG_TSS : Z := 5.
Definition NSEGS : Z := 6.

Definition STA_X : Z := 8.
Definition STA_W : Z := 2.
Definition STA_R : Z := 2.
Definition STS_T32A : Z := 9.
Definition STS_IG32 : Z := 14.
Definition STS_TG32 : Z := 15.

Record segdesc : Type := mkSegdesc {
  lim_15_0 : Z;
  base_15_0 : Z;
  base_23_16 : Z;
  sd_type : Z;
  sd_s : Z;
  sd_dpl : Z;
  sd_p : Z;
  lim_19_16 : Z;
  sd_avl : Z;
  sd_rsv1 : Z;
  sd_db : Z;
  sd_g : Z;
  base_31_24 : Z
}.

(** The bit fields of the structure, from the lowest bits on. *)
Definition enc_segdesc (d : segdesc) : Z :=
  pack [(16, lim_15_0 d); (16, base_15_0 d); (8, base_23_16 d); (4, sd_type d); (1, sd_s d); (2, sd_dpl d); (1, sd_p d);
        (4, lim_19_16 d); (1, sd_avl d); (1, sd_rsv1 d); (1, sd_db d); (1, sd_g d); (8, base_31_24 d)].

Definition SEG (type base lim dpl : Z) : segdesc :=
  mkSegdesc (Z.land (Z.shiftr lim 12) 65535) (Z.land (u32 base) 65535) (Z.land (Z.shiftr (u32 base) 16) 255)
    type 1 dpl 1 (Z.shiftr (u32 lim) 28) 0 0 1 1 (Z.shiftr (u32 base) 24).
Definition SEG16 (type base lim dpl : Z) : segdesc :=
  mkSegdesc (Z.land lim 65535) (Z.land (u32 base) 65535) (Z.land (Z.shiftr (u32 base) 16) 255)
    type 1 dpl 1 (Z.shiftr (u32 lim) 16) 0 0 1 0 (Z.shiftr (u32 base) 24).

Definition set_sd_s (s : Z) (d : segdesc) : segdesc :=
  mkSegdesc (lim_15_0 d) (base_15_0 d) (base_23_16 d) (sd_type d) s (sd_dpl d) (sd_p d) (lim_19_16 d) (sd_avl d) (sd_rsv1 d)
    (sd_db d) (sd_g d) (base_31_24 d).

Record gatedesc : Type := mkGatedesc {
  off_15_0 : Z;
  gd_cs : Z;
  gd_args : Z;
  gd_rsv1 : Z;
  gd_type : Z;
  gd_s : Z;
  gd_dpl : Z;
  gd_p : Z;
  off_31_16 : Z
}.

Definition enc_gatedesc (g : gatedesc) : Z :=
  pack [(16, off_15_0 g); (16, gd_cs g); (5, gd_args g); (3, gd_rsv1 g); (4, gd_type g); (1, gd_s g); (2, gd_dpl g);
        (1, gd_p g); (16, off_31_16 g)].

Definition SETGATE (istrap : bool) (sel off d : Z) : gatedesc :=
  mkGatedesc (Z.land (u32 off) 65535) sel 0 0 (if istrap then STS_TG32 else STS_IG32) 0 d 1 (Z.shiftr (u32 off) 16).

(** [struct taskstate]: its fields and their sizes. *)
Definition ts_fields : list (string * Z) :=
  [("link", 4); ("esp0", 4); ("ss0", 2); ("padding1", 2); ("esp1", 4); ("ss1", 2); ("padding2", 2);
   ("esp2", 4); ("ss2", 2); ("padding3", 2); ("cr3", 4); ("eip", 4); ("eflags", 4);
   ("eax", 4); ("ecx", 4); ("edx", 4); ("ebx", 4); ("esp", 4); ("ebp", 4); ("esi", 4); ("edi", 4);
   ("es", 2); ("padding4", 2); ("cs", 2); ("padding5", 2); ("ss", 2); ("padding6", 2); ("ds", 2); ("padding7", 2);
   ("fs", 2); ("padding8", 2); ("gs", 2); ("padding9", 2); ("ldt", 2); ("padding10", 2); ("t", 2); ("iomb", 2)]%string.

(** The offset of a field; the sizes leave no gaps. *)
Fixpoint offset_in (f : string) (l : list (string * Z)) : option Z :=
  match l with
  | [] => None
  | (g, n) :: l => if String.eqb f g then Some 0 else (fun x => n + x) <$> offset_in f l
  end.

(** [sizeof(struct taskstate)] *)
Definition TS_SIZE : Z := foldr (fun f n => snd f + n) 0 ts_fields.

(** The structure is the 32-bit task state of the processor, which looks for [esp0] and [ss0]
    at 4 and 8 and for the base of the I/O map at 102, in a segment of at least 104 bytes. *)
Lemma taskstate_layout : TS_SIZE = 104 /\ offset_in "esp0"%string ts_fields = Some 4 /\
  offset_in "ss0"%string ts_fields = Some 8 /\ offset_in "iomb"%string ts_fields = Some 102.
Proof. done. Qed.

(** ** x86.h *)

(** The pseudo-descriptor in memory, and what the processor makes of it: base and limit. *)
Definition pd_words (p size : Z) : list Z := [u16 (size - 1); u16 (u32 p); u16 (Z.shiftr (u32 p) 16)].
Definition pd_limit (pd : list Z) : Z := nth 0 pd 0.
Definition pd_base (pd : list Z) : Z := nth 1 pd 0 + 65536 * nth 2 pd 0.

(** A table register: the base and limit last loaded. *)
Definition lgdt (p size : Z) : Z * Z := (pd_base (pd_words p size), pd_limit (pd_words p size)).
Definition lidt (p size : Z) : Z * Z := (pd_base (pd_words p size), pd_limit (pd_words p size)).

(** ** The segments of a CPU *)

(** The descriptors and task state of [struct cpu], and the registers that refer to them. *)
Record cpuseg : Type := mkCpuseg {
  cs_gdt : list segdesc;
  cs_gdtr : Z * Z;
  cs_ts : taskstate;
  cs_tr : Z
}.

Definition seg0 : segdesc := mkSegdesc 0 0 0 0 0 0 0 0 0 0 0 0 0.
(** A CPU before [seginit]: [cpus] is zeroed. *)
Definition cpuseg0 : cpuseg := mkCpuseg (replicate (Z.to_nat NSEGS) seg0) (0, 0) (mkTs 0 0 0) 0.

Definition put_seg (n : Z) (d : segdesc) (c : cpuseg) : cpuseg :=
  mkCpuseg (<[Z.to_nat n := d]> (cs_gdt c)) (cs_gdtr c) (cs_ts c) (cs_tr c).

(** [seginit]: [gdt_addr] is the address of the CPU's table, of [NSEGS] entries of 8 bytes. *)
Definition seginit (gdt_addr : Z) (c : cpuseg) : cpuseg :=
  let c := put_seg SEG_KCODE (SEG (Z.lor STA_X STA_R) 0 4294967295 0) c in
  let c := put_seg SEG_KDATA (SEG STA_W 0 4294967295 0) c in
  let c := put_seg SEG_UCODE (SEG (Z.lor STA_X STA_R) 0 4294967295 DPL_USER) c in
  let c := put_seg SEG_UDATA (SEG STA_W 0 4294967295 DPL_USER) c in
  mkCpuseg (cs_gdt c) (lgdt gdt_addr (8 * NSEGS)) (cs_ts c) (cs_tr c).

(** The part of [switchuvm] on the task state; [ts_addr] is its address. *)
Definition switchuvm_seg (ts_addr kstack : Z) (c : cpuseg) : cpuseg :=
  let c := put_seg SEG_TSS (set_sd_s 0 (SEG16 STS_T32A ts_addr (TS_SIZE - 1) 0)) c in
  mkCpuseg (cs_gdt c) (cs_gdtr c)
    (mkTs (u32 (u32 kstack + KSTACKSIZE)) (u16 (Z.shiftl SEG_KDATA 3)) (u16 65535)) (u16 (Z.shiftl SEG_TSS 3)).

(** ** The gates *)

(** [tvinit]: [vectors] is the table of vectors.S. *)
Definition tvinit_idt (vectors : Z -> Z) : list gatedesc :=
  <[Z.to_nat T_SYSCALL := SETGATE true (Z.shiftl SEG_KCODE 3) (vectors T_SYSCALL) DPL_USER]>
    (map (fun i => SETGATE false (Z.shiftl SEG_KCODE 3) (vectors (Z.of_nat i)) 0) (seq 0 256)).

Definition idtinit (idt_addr : Z) : Z * Z := lidt idt_addr (8 * 256).

(** The tables as the processor finds them while the process with stack [kstack] runs. *)
Definition kernel_tables (vectors : Z -> Z) (gdt_addr idt_addr ts_addr kstack : Z) : tables :=
  let c := switchuvm_seg ts_addr kstack (seginit gdt_addr cpuseg0) in
  mkTables (map enc_segdesc (cs_gdt c)) (cs_gdtr c).2 (map enc_gatedesc (tvinit_idt vectors)) (idtinit idt_addr).2
    (cs_ts c) (cs_tr c).

(** ** What the processor reads *)

Lemma gate_fields istrap sel off d : 0 <= sel < 65536 -> 0 <= d < 4 ->
  let g := enc_gatedesc (SETGATE istrap sel off d) in
  g_offset g = u32 off /\ g_cs g = sel /\ d_type g = (if istrap then STS_TG32 else STS_IG32) /\ d_app g = false /\
  d_dpl g = d /\ d_present g = true.
Proof.
  intros Hs Hd g. unfold g_offset, g_cs, d_type, d_app, d_dpl, d_present, g, enc_gatedesc, SETGATE. cbn [off_15_0 gd_cs gd_args
    gd_rsv1 gd_type gd_s gd_dpl gd_p off_31_16].
  repeat (erewrite field_pack; [|reflexivity|lia|reflexivity]).
  change (2 ^ 16) with 65536. change (2 ^ 4) with 16. change (2 ^ 2) with 4. change (2 ^ 1) with 2.
  change 65535 with (Z.ones 16). rewrite Z.land_ones, Z.shiftr_div_pow2 by lia. change (2 ^ 16) with 65536.
  split_and!; [zlia | apply Z.mod_small; lia | by destruct istrap | done | apply Z.mod_small; lia | done].
Qed.

(** What the processor sees of a segment built by [SEG]. *)
Lemma seg_fields type base lim dpl : 0 <= type < 16 -> 0 <= base < 4294967296 -> 0 <= lim < 4294967296 -> 0 <= dpl < 4 ->
  let d := enc_segdesc (SEG type base lim dpl) in
  d_base d = base /\ d_limit d = lim / 4096 * 4096 + 4095 /\ d_type d = type /\ d_app d = true /\ d_dpl d = dpl /\
  d_present d = true.
Proof.
  intros Ht Hb Hl Hd d. unfold d_base, d_limit, d_type, d_app, d_dpl, d_present, d, enc_segdesc, SEG. cbn [lim_15_0 base_15_0
    base_23_16 sd_type sd_s sd_dpl sd_p lim_19_16 sd_avl sd_rsv1 sd_db sd_g base_31_24].
  repeat (erewrite field_pack; [|reflexivity|lia|reflexivity]).
  rewrite (u32_small base), (u32_small lim) by done.
  change 65535 with (Z.ones 16). change 255 with (Z.ones 8). rewrite !Z.land_ones, !Z.shiftr_div_pow2 by lia.
  change (2 ^ 16) with 65536. change (2 ^ 12) with 4096. change (2 ^ 28) with 268435456. change (2 ^ 24) with 16777216.
  change (2 ^ 8) with 256. change (2 ^ 4) with 16. change (2 ^ 2) with 4. change (2 ^ 1) with 2.
  split_and!; [zlia | | apply Z.mod_small; lia | done | apply Z.mod_small; lia | done].
  change (1 mod 2 =? 1) with true. cbv iota. zlia.
Qed.

(** The pseudo-descriptors give the processor the address and the last byte of a table. *)
Lemma lgdt_loads p size : 0 <= p < 4294967296 -> 0 < size <= 65536 -> lgdt p size = (p, size - 1).
Proof.
  intros Hp Hs. unfold lgdt, pd_base, pd_limit, pd_words. cbn [nth]. rewrite Z.shiftr_div_pow2 by lia. change (2 ^ 16) with 65536.
  f_equal; zlia.
Qed.

Section entering.
Context (vectors : Z -> Z) (gdt_addr idt_addr ts_addr kstack : Z).
Local Notation T := (kernel_tables vectors gdt_addr idt_addr ts_addr kstack).

Lemma gate_of n : 0 <= n < 256 ->
  gate T n = Some (enc_gatedesc (SETGATE (n =? T_SYSCALL) (Z.shiftl SEG_KCODE 3) (vectors n) (if n =? T_SYSCALL then DPL_USER else 0))).
Proof.
  intros Hn. unfold gate, table_at. change (t_idt_lim T) with 2047. destruct (Z.leb_spec (8 * n + 7) 2047); [|lia].
  unfold kernel_tables. cbn [t_idt]. rewrite list_lookup_fmap. unfold tvinit_idt.
  assert (map (fun i => SETGATE false (Z.shiftl SEG_KCODE 3) (vectors (Z.of_nat i)) 0) (seq 0 256) !! Z.to_nat n =
    Some (SETGATE false (Z.shiftl SEG_KCODE 3) (vectors n) 0)) as E.
  { rewrite list_lookup_fmap, lookup_seq_lt by lia. simpl. by rewrite Z2Nat.id by lia. }
  destruct (Z.eqb_spec n T_SYSCALL) as [->|Hne].
  - rewrite list_lookup_insert_eq; [done|]. by apply lookup_lt_Some in E.
  - rewrite list_lookup_insert_ne; [by rewrite E|]. unfold T_SYSCALL in *. lia.
Qed.

Lemma kcode_segment : segment T (Z.shiftl SEG_KCODE 3) = Some (enc_segdesc (SEG (Z.lor STA_X STA_R) 0 4294967295 0)).
Proof. done. Qed.

Lemma cpl_range c : 0 <= cpl c < 4.
Proof. unfold cpl. change 3 with (Z.ones 2). rewrite Z.land_ones by lia. apply Z.mod_pos_bound. done. Qed.

(** The top of the process's kernel stack. *)
Definition esp0 : Z := u32 (u32 kstack + KSTACKSIZE).

(** What the delivery of a vector amounts to with the kernel's tables. *)
Definition enter (n : Z) (err : option Z) (c : cpu) : cpu :=
  let c1 :=
    if 0 <? cpl c then push32 (c_r c ESP) (push16 (c_s c SS) (set_r ESP esp0 (set_s SS (Z.shiftl SEG_KDATA 3) c))) else c in
  let c2 := push32 (c_eip c) (push16 (c_s c CS) (push32 (c_eflags c) c1)) in
  let c3 := match err with Some e => push32 e c2 | None => c2 end in
  set_eflags (gate_flags (negb (n =? T_SYSCALL)) (c_eflags c)) (set_eip (u32 (vectors n)) (set_s CS (Z.shiftl SEG_KCODE 3) c3)).

Lemma deliver_enter n err c : 0 <= n < 256 -> deliver T n err c = Some (enter n err c).
Proof.
  intros Hn. unfold deliver. rewrite (gate_of n Hn).
  destruct (gate_fields (n =? T_SYSCALL) (Z.shiftl SEG_KCODE 3) (vectors n) (if n =? T_SYSCALL then DPL_USER else 0))
    as (E1 & E2 & E3 & E4 & E5 & E6); [done | by destruct (n =? T_SYSCALL)|].
  rewrite E1, E2, E3, E4, E6. rewrite kcode_segment.
  change (d_dpl (enc_segdesc (SEG (Z.lor STA_X STA_R) 0 4294967295 0))) with 0.
  change (d_present (enc_segdesc (SEG (Z.lor STA_X STA_R) 0 4294967295 0))) with true.
  change (d_app (enc_segdesc (SEG (Z.lor STA_X STA_R) 0 4294967295 0))) with true.
  change (d_type (enc_segdesc (SEG (Z.lor STA_X STA_R) 0 4294967295 0)) <? 8) with false.
  pose proof (cpl_range c). destruct (Z.ltb_spec (cpl c) 0); [lia|]. unfold enter.
  destruct (n =? T_SYSCALL); reflexivity.
Qed.

Lemma int_n_user n c : 0 <= n < 256 -> 0 < cpl c ->
  int_n T n c = Some (if n =? T_SYSCALL then enter n None c else enter T_GPFLT (Some (8 * n + 2)) c).
Proof.
  intros Hn Hc. unfold int_n. rewrite (gate_of n Hn). pose proof (cpl_range c).
  destruct (gate_fields (n =? T_SYSCALL) (Z.shiftl SEG_KCODE 3) (vectors n) (if n =? T_SYSCALL then DPL_USER else 0))
    as (_ & _ & _ & _ & E5 & _); [done | by destruct (n =? T_SYSCALL)|].
  rewrite E5. destruct (Z.eqb_spec n T_SYSCALL) as [->|]; unfold DPL_USER.
  - destruct (Z.ltb_spec 3 (cpl c)); [lia|]. by apply deliver_enter.
  - destruct (Z.ltb_spec 0 (cpl c)); [|lia]. by apply deliver_enter.
Qed.

(** The stack a delivery uses and the slots the processor pushes on it. *)
Definition hw_base (c : cpu) : cpu := if 0 <? cpl c then set_r ESP esp0 (set_s SS (Z.shiftl SEG_KDATA 3) c) else c.
Definition hw_slots (err : option Z) (c : cpu) : list slot :=
  (if 0 <? cpl c then [W16 (c_s c SS); W32 (c_r c ESP)] else []) ++ [W32 (c_eflags c); W16 (c_s c CS); W32 (c_eip c)] ++
  match err with Some e => [W32 e] | None => [] end.

Lemma enter_slots n err c :
  enter n err c = set_eflags (gate_flags (negb (n =? T_SYSCALL)) (c_eflags c))
    (set_eip (u32 (vectors n)) (set_s CS (Z.shiftl SEG_KCODE 3) (push_slots (hw_slots err c) (hw_base c)))).
Proof. unfold enter, hw_slots, hw_base. by destruct (0 <? cpl c), err. Qed.

Lemma tss_limit : exists d, segment T (t_tr T) = Some d /\ d_limit d = 103.
Proof.
  eexists. split; [reflexivity|]. unfold d_limit, enc_segdesc, set_sd_s, SEG16. cbn [lim_15_0 base_15_0 base_23_16 sd_type
    sd_s sd_dpl sd_p lim_19_16 sd_avl sd_rsv1 sd_db sd_g base_31_24].
  repeat (erewrite field_pack; [|reflexivity|lia|reflexivity]). done.
Qed.
End entering.

(** An entry of the kernel from user mode: at the vector's code, in the kernel's segments, on
    the kernel stack of the process and writing nothing else; interrupts stay enabled for a
    system call alone. *)
Record user_entry (vectors : Z -> Z) (kstack n : Z) (c c' : cpu) : Prop := {
  ue_eip : c_eip c' = u32 (vectors n);
  ue_cpl : cpl c' = 0;
  ue_cs : c_s c' CS = Z.shiftl SEG_KCODE 3;
  ue_ss : c_s c' SS = Z.shiftl SEG_KDATA 3;
  ue_esp : kstack <= c_r c' ESP < kstack + KSTACKSIZE;
  ue_mem : forall a, ~ (c_r c' ESP <= a < kstack + KSTACKSIZE) -> c_mem c' a = c_mem c a;
  ue_if : Z.testbit (c_eflags c') 9 = (n =? T_SYSCALL) && Z.testbit (c_eflags c) 9
}.

Lemma gate_flags_if b f : Z.testbit (gate_flags b f) 9 = negb b && Z.testbit f 9.
Proof.
  unfold gate_flags. rewrite Z.land_spec. rewrite Z.lnot_spec by lia. destruct (Z.testbit f 9), b; reflexivity.
Qed.

Lemma enter_user vectors kstack n err c : 0 <= kstack -> kstack + KSTACKSIZE < 4294967296 -> 0 < cpl c ->
  user_entry vectors kstack n c (enter vectors kstack n err c).
Proof.
  intros Hk1 Hk2 Hc. rewrite enter_slots. unfold KSTACKSIZE in *.
  assert (esp0 kstack = kstack + 4096) as E0 by (unfold esp0, KSTACKSIZE; rewrite (u32_small kstack), u32_small by lia; lia).
  assert (hw_base kstack c = set_r ESP (kstack + 4096) (set_s SS 16 c)) as EB
    by (unfold hw_base; rewrite E0; destruct (Z.ltb_spec 0 (cpl c)); [done | lia]).
  assert (c_r (hw_base kstack c) ESP = kstack + 4096) as E1 by (rewrite EB; apply upd_eq).
  assert (3 <= zlen (hw_slots err c) <= 6) as Hl
    by (unfold hw_slots, zlen; rewrite !length_app; destruct (0 <? cpl c), err; simpl; lia).
  destruct (push_slots_spec (hw_slots err c) (hw_base kstack c)) as (F1 & _ & F3); [lia|].
  destruct (push_slots_frame (hw_slots err c) (hw_base kstack c)) as (_ & G2 & _). rewrite E1 in F1, F3.
  split; cbn [c_eip c_s c_r c_mem c_eflags set_eflags set_eip set_s]; unfold KSTACKSIZE.
  - done.
  - done.
  - apply upd_eq.
  - rewrite upd_ne, G2, EB by done. apply upd_eq.
  - rewrite F1. lia.
  - intros a Ha. rewrite F1 in Ha. rewrite F3 by done. by rewrite EB.
  - rewrite gate_flags_if. by rewrite negb_involutive.
Qed.

(** C6: protection.  With the tables the kernel builds, a process that executes [int $n] enters
    the kernel at the system call vector if [n] is 64 and at the vector of general protection
    faults otherwise; interrupts and exceptions enter it at their own vector.  In every case
    the processor is then in kernel mode with the kernel's code and stack segments, has
    switched to the process's kernel stack and written nothing else, and takes further
    interrupts only during a system call.  A process can execute no I/O instruction. *)
Theorem user_protection vectors gdt_addr idt_addr ts_addr kstack c :
  0 <= kstack -> kstack + KSTACKSIZE < 4294967296 -> cpl c = DPL_USER -> IOPL (c_eflags c) = 0 ->
  let T := kernel_tables vectors gdt_addr idt_addr ts_addr kstack in
  (forall n, 0 <= n < 256 -> exists c', int_n T n c = Some c' /\
     user_entry vectors kstack (if n =? T_SYSCALL then T_SYSCALL else T_GPFLT) c c') /\
  (forall n err, 0 <= n < 256 -> exists c', deliver T n err c = Some c' /\ user_entry vectors kstack n c c') /\
  (forall port bit, 0 <= port < 65536 -> io_allowed T port bit c = false).
Proof.
  intros Hk1 Hk2 Hc Hio T. assert (0 < cpl c) as Hc' by (rewrite Hc; done). split_and!.
  - intros n Hn. unfold T. rewrite int_n_user by done. eexists. split; [done|].
    destruct (Z.eqb_spec n T_SYSCALL) as [->|]; by apply enter_user.
  - intros n err Hn. unfold T. rewrite deliver_enter by done. eexists. split; [done|]. by apply enter_user.
  - intros port bit Hp. unfold io_allowed. rewrite Hc, Hio. change (DPL_USER <=? 0) with false. cbn [orb].
    destruct (tss_limit vectors gdt_addr idt_addr ts_addr kstack) as (d & Ed & El). fold T in Ed. rewrite Ed, El.
    change (ts_iomb (t_ts T)) with 65535. apply andb_false_intro1, Z.leb_gt.
    pose proof (Z.div_pos port 8). lia.
Qed.

(** A process in user mode. *)
Definition demo_cpu : cpu :=
  mkCpu (fun r => match r with ESP => 12288 | _ => 1 end) (fun r => match r with CS => 27 | _ => 35 end) 64 IF (fun _ => 0).

Lemma user_protection_witness : exists c',
  int_n (kernel_tables (fun n => 2148532224 + 16 * n) 2148600000 2148610000 2148620000 2149580800) 3 demo_cpu = Some c' /\
  user_entry (fun n => 2148532224 + 16 * n) 2149580800 T_GPFLT demo_cpu c'.
Proof.
  destruct (user_protection (fun n => 2148532224 + 16 * n) 2148600000 2148610000 2148620000 2149580800 demo_cpu) as [H _];
    [lia | unfold KSTACKSIZE; lia | reflexivity | reflexivity | apply (H 3); lia].
Defined.
