(* ===== verification/Entry.v ===== *)
(** * Entering and leaving the kernel

    The assembly between user code, the C code of trap.c and the scheduler: vectors.S (as
    vectors.pl generates it), trapasm.S, swtch.S and usys.S, on the processor of X86.v with
    the tables of Protect.v.  A trap frame is what trap.c takes it for, a trap is transparent
    to the code it interrupts, a context switch resumes the context it saved, and a system
    call is a call of the kernel model that returns its result in a register. *)

From S2P Require Import Prelude Monad CString KState Sched Kalloc Vm Pipe Proc Container Syscall Sysfile Console Trap X86 Protect.

Local Open Scope kernel_scope.

(** ** The way back *)

(** The registers of [struct trapframe], by their offsets. *)
Definition frame_regs : list (reg * Z) :=
  [(EDI, tf_edi); (ESI, tf_esi); (EBP, tf_ebp); (EBX, tf_ebx); (EDX, tf_edx); (ECX, tf_ecx); (EAX, tf_eax)].
Definition frame_sregs : list (sreg * Z) := [(GS, 32); (FS, 36); (ES, tf_es); (DS, tf_ds); (CS, tf_cs)].

(** The end of trapasm.S. *)
Definition trapret : list instr := [ Popal; PoplS GS; PoplS FS; PoplS ES; PoplS DS; AddlI 8 ESP; Iret ].

(** What [trapret] makes of the frame at [tf]. *)
Record resumed (m : mem) (tf ss : Z) (c : cpu) : Prop := {
  rs_regs : Forall (fun '(r, o) => c_r c r = ld32 m (tf + o)) frame_regs;
  rs_sregs : Forall (fun '(r, o) => c_s c r = ld16 m (tf + o)) frame_sregs;
  rs_eip : c_eip c = ld32 m (tf + tf_eip);
  rs_eflags : c_eflags c = ld32 m (tf + tf_eflags);
  rs_mem : c_mem c = m;
  rs_stack :
    if 0 <? Z.land (ld16 m (tf + tf_cs)) 3
    then c_r c ESP = ld32 m (tf + tf_esp) /\ c_s c SS = ld16 m (tf + tf_ss)
    else c_r c ESP = tf + 68 /\ c_s c SS = ss
}.

(** The segment registers, and the number and error code left behind. *)
Lemma pop_segs code y tf : c_r y ESP = tf + 32 -> 0 <= tf -> tf + 76 < 4294967296 ->
  exists z, run (PoplS GS :: PoplS FS :: PoplS ES :: PoplS DS :: AddlI 8 ESP :: code) y = run code z /\ c_r z ESP = tf + 56 /\
    (forall r, r <> ESP -> c_r z r = c_r y r) /\ c_mem z = c_mem y /\
    c_s z = upd (upd (upd (upd (c_s y) GS (ld16 (c_mem y) (tf + 32))) FS (ld16 (c_mem y) (tf + 36))) ES
      (ld16 (c_mem y) (tf + 40))) DS (ld16 (c_mem y) (tf + 44)).
Proof.
  intros P1 H0 H1.
  rewrite run_cons, (pops_step GS y (tf + 32)) by lia. set (y1 := set_s GS _ _).
  rewrite run_cons, (pops_step FS y1 (tf + 36)) by (unfold y1; cbn [set_s set_r c_r]; rewrite ?upd_eq; lia). set (y2 := set_s FS _ _).
  rewrite run_cons, (pops_step ES y2 (tf + 40)) by (unfold y2; cbn [set_s set_r c_r]; rewrite ?upd_eq; lia). set (y3 := set_s ES _ _).
  rewrite run_cons, (pops_step DS y3 (tf + 44)) by (unfold y3; cbn [set_s set_r c_r]; rewrite ?upd_eq; lia). set (y4 := set_s DS _ _).
  rewrite run_cons. cbn [step]. eexists. split; [reflexivity|]. cbn [set_r c_r]. rewrite upd_eq. split_and!; [|intros r Hr|done..].
  - unfold y4. cbn [set_s set_r c_r]. rewrite upd_eq, u32_small by lia. lia.
  - unfold y4, y3, y2, y1. cbn [set_s set_r c_r]. by rewrite !upd_ne.
Qed.

Lemma trapret_resumes c tf : c_r c ESP = tf -> 0 <= tf -> tf + 76 < 4294967296 -> cpl c = 0 ->
  resumed (c_mem c) tf (c_s c SS) (run trapret c).
Proof.
  intros He H0 H1 Hc. unfold trapret. rewrite run_cons. cbn [step].
  destruct (pops_spec (rev pushal_regs) c tf) as (P1 & P2 & _ & P4 & P5); [done | done | unfold zlen; simpl; lia | |].
  { repeat constructor; set_solver. }
  set (y := fold_left _ _ c) in *. clearbody y. change (zlen (rev pushal_regs)) with 8 in P1. rewrite <- P4, <- P5.
  assert (cpl y = 0) as Hy by (unfold cpl; by rewrite P5). rewrite <- P4 in P2. clear P4 P5 Hc He c.
  destruct (pop_segs [Iret] y tf) as (z & -> & E5 & F5 & M5 & S5); [lia | done | done|].
  assert (cpl z = 0) as C5 by (unfold cpl; rewrite S5, !upd_ne by done; exact Hy).
  rewrite run_cons. cbn [step run fold_left].
  destruct (iret_spec z (tf + 56)) as (I1 & I2 & I3 & I4 & I5 & I6 & I7); [done | lia | lia | done|].
  rewrite M5 in *. replace (tf + 56 + 4) with (tf + tf_cs) in * by (unfold tf_cs; lia).
  replace (tf + 56 + 8) with (tf + tf_eflags) in I5 by (unfold tf_eflags; lia).
  replace (tf + 56 + 12) with (tf + tf_esp) in I7 by (unfold tf_esp; lia).
  replace (tf + 56 + 16) with (tf + tf_ss) in I7 by (unfold tf_ss; lia).
  split; [| | done | done | done |].
  - unfold frame_regs. repeat (apply Forall_cons_2; [|]); try apply Forall_nil_2; rewrite I1, F5 by done;
      [apply (P2 0%nat) | apply (P2 1%nat) | apply (P2 2%nat) | apply (P2 4%nat) | apply (P2 5%nat) | apply (P2 6%nat) | apply (P2 7%nat)]; done.
  - unfold frame_sregs. repeat (apply Forall_cons_2; [|]); try apply Forall_nil_2; [rewrite I2, S5 by done.. | done];
      by rewrite ?upd_ne, upd_eq by done.
  - destruct (0 <? _); [done|]. destruct I7 as [-> ->]. unfold tf_esp. rewrite S5, !upd_ne by done. done.
Qed.

(** A C function has returned to its caller: its return address is popped. *)
Record c_returned (c1 c2 : cpu) : Prop := {
  cr_eip : c_eip c2 = ld32 (c_mem c1) (c_r c1 ESP);
  cr_esp : c_r c2 ESP = c_r c1 ESP + 4;
  cr_s : c_s c2 = c_s c1
}.

(** ** swtch.S *)

Definition swtch : list instr :=
  [ MovlLoad 4 ESP EAX; MovlLoad 8 ESP EDX;
    PushlR EBP; PushlR EBX; PushlR ESI; PushlR EDI;
    MovlStore ESP EAX; MovlRR EDX ESP;
    PoplR EDI; PoplR ESI; PoplR EBX; PoplR EBP; Retn ].

(** ** The way in *)

Section asm.
(** Where the linker puts the code, and the address the call of [trap] returns to. *)
Context (vectors : Z -> Z) (alltraps_addr trap_addr trap_ret : Z).

(** ** vectors.pl *)

Definition pushes_zero (i : Z) : bool := negb ((i =? 8) || ((10 <=? i) && (i <=? 14)) || (i =? 17)).
Definition vector_code (i : Z) : list instr :=
  (if pushes_zero i then [PushlI 0] else []) ++ [PushlI i; Jmp alltraps_addr].

(** ** trapasm.S *)

Definition alltraps : list instr :=
  [ PushlS DS; PushlS ES; PushlS FS; PushlS GS; Pushal;
    MovwAx (Z.shiftl SEG_KDATA 3); MovwS DS; MovwS ES;
    PushlR ESP; Call trap_addr trap_ret ].
(** What follows the call. *)
Definition after_trap : list instr := AddlI 4 ESP :: trapret.

(** ** The trap frame *)

(** The frame at [tf] describes the interrupted state [c], vector [n] and error code [e]. *)
Record holds_frame (m : mem) (tf n e : Z) (c : cpu) : Prop := {
  hf_regs : Forall (fun '(r, o) => ld32 m (tf + o) = c_r c r) frame_regs;
  hf_sregs : Forall (fun '(r, o) => ld16 m (tf + o) = c_s c r) frame_sregs;
  hf_trapno : ld32 m (tf + tf_trapno) = u32 n;
  hf_err : ld32 m (tf + tf_err) = u32 e;
  hf_eip : ld32 m (tf + tf_eip) = c_eip c;
  hf_eflags : ld32 m (tf + tf_eflags) = c_eflags c;
  hf_user : 0 < cpl c -> ld32 m (tf + tf_esp) = c_r c ESP /\ ld16 m (tf + tf_ss) = c_s c SS
}.

(** Registers hold values of their width. *)
Record cpu_wf (c : cpu) : Prop := {
  cw_r : forall r, 0 <= c_r c r < 4294967296;
  cw_s : forall r, 0 <= c_s c r < 65536;
  cw_eip : 0 <= c_eip c < 4294967296;
  cw_eflags : 0 <= c_eflags c < 4294967296
}.

(** The processor pushes an error code exactly for the vectors whose code does not. *)
Lemma pushes_zero_err n : pushes_zero n = negb (has_err n).
Proof.
  unfold pushes_zero, has_err. f_equal. apply eq_true_iff_eq. rewrite bool_decide_eq_true.
  rewrite !elem_of_cons, elem_of_nil, !orb_true_iff, andb_true_iff, !Z.eqb_eq, !Z.leb_le. lia.
Qed.

(** An interrupt of kernel code continues on its stack; one of user code starts [kstack]'s. *)
Definition err_ok (n : Z) (err : option Z) : Prop := has_err n = bool_decide (is_Some err).
Definition frame_size (c : cpu) : Z := if 0 <? cpl c then 76 else 68.

Context (kstack : Z).
Local Notation base c := (c_r (hw_base kstack c) ESP).
Definition frame_at (c : cpu) : Z := base c - frame_size c.

(** From the delivery to the call of [trap]. *)
Definition trap_entry (n : Z) (err : option Z) (c : cpu) : cpu :=
  run (vector_code n ++ alltraps) (enter vectors kstack n err c).

(** The frame [alltraps] builds below a state. *)
Definition seg_slots (x : cpu) : list slot := [W16 (c_s x DS); W16 (c_s x ES); W16 (c_s x FS); W16 (c_s x GS)].
Definition saved (x : cpu) : cpu := let h := push_slots (seg_slots x) x in push_slots (reg_slots h) h.

Lemma save_run code x : run (PushlS DS :: PushlS ES :: PushlS FS :: PushlS GS :: Pushal :: code) x = run code (saved x).
Proof.
  rewrite run_cons, step_pushs, run_cons, step_pushs, run_cons, step_pushs, run_cons, step_pushs, run_cons, pushal_slots.
  rewrite !push_slots_s. rewrite <- !push_slots_app. unfold saved, seg_slots. cbn [app]. done.
Qed.

(** The kernel's data segments and the call. *)
Lemma call_run q :
  let c1 := run [MovwAx (Z.shiftl SEG_KDATA 3); MovwS DS; MovwS ES; PushlR ESP; Call trap_addr trap_ret] q in
  same_stack c1 (push_slots [W32 (c_r q ESP); W32 trap_ret] q) /\ c_eip c1 = trap_addr /\
  c_s c1 CS = c_s q CS /\ c_s c1 DS = 16 /\ c_s c1 ES = 16 /\ c_s c1 SS = c_s q SS.
Proof.
  intros c1. split; [by split|]. split; [done|]. unfold c1. change (Z.shiftl SEG_KDATA 3) with 16.
  cbn [run fold_left step set_s set_r set_eip push32 set_mem c_s c_r].
  split_and!; rewrite ?upd_eq, ?low_half; [by rewrite !upd_ne | | done | by rewrite !upd_ne].
  by rewrite upd_ne, upd_eq by done.
Qed.

(** [alltraps] on any state: the slots it pushes, and the call. *)
Lemma alltraps_run x :
  let c1 := run alltraps x in
  same_stack c1 (push_slots [W32 (c_r (saved x) ESP); W32 trap_ret] (saved x)) /\ c_eip c1 = trap_addr /\
  c_s c1 CS = c_s x CS /\ c_s c1 DS = 16 /\ c_s c1 ES = 16 /\ c_s c1 SS = c_s x SS.
Proof.
  unfold alltraps. rewrite save_run. assert (c_s (saved x) = c_s x) as E by (unfold saved; by rewrite !push_slots_s).
  rewrite <- E. apply call_run.
Qed.

(** The stub of a vector, after the delivery: the error code and the number. *)
Lemma vector_run n err c : err_ok n err ->
  let x := run (vector_code n) (enter vectors kstack n err c) in
  same_stack x (push_slots ((if 0 <? cpl c then [W16 (c_s c SS); W32 (c_r c ESP)] else []) ++
    [W32 (c_eflags c); W16 (c_s c CS); W32 (c_eip c); W32 (default 0 err); W32 n]) (hw_base kstack c)) /\
  (forall r, r <> ESP -> c_r x r = c_r c r) /\ c_s x = upd (c_s (hw_base kstack c)) CS 8.
Proof.
  intros He x. unfold err_ok in He. unfold x, vector_code. rewrite enter_slots, pushes_zero_err, He.
  assert (forall r, r <> ESP -> c_r (hw_base kstack c) r = c_r c r) as F3.
  { intros r Hr. unfold hw_base. destruct (0 <? cpl c); [by apply upd_ne | done]. }
  destruct (push_slots_frame (hw_slots err c) (hw_base kstack c)) as (F1 & F2 & _).
  set (z := set_eflags _ _). assert (same_stack z (push_slots (hw_slots err c) (hw_base kstack c))) as Hz by done.
  set (tail := (if negb (bool_decide (is_Some err)) then [W32 0] else []) ++ [W32 n]).
  assert (run ((if negb (bool_decide (is_Some err)) then [PushlI 0] else []) ++ [PushlI n; Jmp alltraps_addr]) z =
    set_eip alltraps_addr (push_slots tail z)) as ->.
  { unfold tail. clearbody z. by destruct (bool_decide _). }
  destruct (push_slots_frame tail z) as (G1 & G2 & _). split_and!.
  - transitivity (push_slots tail z); [done|]. rewrite Hz, <- push_slots_app.
    apply reflexive_eq. f_equal. unfold tail, hw_slots. destruct err; rewrite <- !app_assoc; done.
  - intros r Hr. cbn [set_eip c_r]. rewrite G1 by done. cbn [z set_eflags set_eip set_s c_r]. by rewrite F1, F3.
  - cbn [set_eip c_s]. rewrite G2. cbn [z set_eflags set_eip set_s c_s]. by rewrite F2.
Qed.

(** The slots of the frame, from the highest word down; [o] is the value of
    the stack pointer [pushal] stores. *)
Definition frame_slots (n e o : Z) (c : cpu) : list slot :=
  (if 0 <? cpl c then [W16 (c_s c SS); W32 (c_r c ESP)] else []) ++
  [W32 (c_eflags c); W16 (c_s c CS); W32 (c_eip c); W32 e; W32 n; W16 (c_s c DS); W16 (c_s c ES); W16 (c_s c FS); W16 (c_s c GS);
   W32 (c_r c EAX); W32 (c_r c ECX); W32 (c_r c EDX); W32 (c_r c EBX); W32 o; W32 (c_r c EBP); W32 (c_r c ESI); W32 (c_r c EDI)].

Lemma hw_base_s c r : r <> SS -> c_s (hw_base kstack c) r = c_s c r.
Proof. intros Hr. unfold hw_base. destruct (0 <? cpl c); [by apply upd_ne | done]. Qed.

Lemma saved_slots n err c x :
  let L1 := (if 0 <? cpl c then [W16 (c_s c SS); W32 (c_r c ESP)] else []) ++
    [W32 (c_eflags c); W16 (c_s c CS); W32 (c_eip c); W32 (default 0 err); W32 n] in
  same_stack x (push_slots L1 (hw_base kstack c)) -> (forall r, r <> ESP -> c_r x r = c_r c r) ->
  c_s x = upd (c_s (hw_base kstack c)) CS 8 ->
  exists o, same_stack (saved x) (push_slots (frame_slots n (default 0 err) o c) (hw_base kstack c)).
Proof.
  intros L1 Hx Hr Hs. set (h := push_slots (seg_slots x) x). exists (c_r h ESP).
  assert (reg_slots h = [W32 (c_r c EAX); W32 (c_r c ECX); W32 (c_r c EDX); W32 (c_r c EBX); W32 (c_r h ESP);
    W32 (c_r c EBP); W32 (c_r c ESI); W32 (c_r c EDI)]) as Er.
  { destruct (push_slots_frame (seg_slots x) x) as (F & _). fold h in F. unfold reg_slots, pushal_regs. cbn [map].
    rewrite (F EAX), (F ECX), (F EDX), (F EBX), (F EBP), (F ESI), (F EDI), !Hr by done. done. }
  assert (seg_slots x = [W16 (c_s c DS); W16 (c_s c ES); W16 (c_s c FS); W16 (c_s c GS)]) as Es.
  { unfold seg_slots. rewrite Hs. rewrite !upd_ne, !hw_base_s by done. done. }
  unfold saved. fold h. rewrite Er. unfold h at 2. rewrite Es.
  rewrite <- !push_slots_app, Hx, <- push_slots_app. apply reflexive_eq. f_equal.
  unfold L1, frame_slots. rewrite <- !app_assoc. done.
Qed.

(** The state in which [trap] is called: the frame in memory describes the interrupted state,
    its address is the argument, and nothing outside the frame and the call has changed. *)
Record trap_called (n e : Z) (c c1 : cpu) : Prop := {
  tc_eip : c_eip c1 = trap_addr;
  tc_esp : c_r c1 ESP = frame_at c - 8;
  tc_ret : ld32 (c_mem c1) (frame_at c - 8) = u32 trap_ret;
  tc_arg : ld32 (c_mem c1) (frame_at c - 4) = frame_at c;
  tc_frame : holds_frame (c_mem c1) (frame_at c) n e c;
  tc_cpl : cpl c1 = 0;
  tc_seg : c_s c1 DS = 16 /\ c_s c1 ES = 16 /\ c_s c1 SS = c_s (hw_base kstack c) SS;
  tc_mem : forall a, ~ (frame_at c - 8 <= a < base c) -> c_mem c1 a = c_mem c a
}.

(** The slot at offset [o] of the frame. *)
Lemma frame_slot n e o c m k v :
  (forall i s, frame_slots n e o c !! i = Some s -> slot_is m (base c - 4 * (Z.of_nat i + 1)) s) ->
  k mod 4 = 0 -> 0 <= k < frame_size c -> frame_slots n e o c !! Z.to_nat ((frame_size c - k) / 4 - 1) = Some v ->
  slot_is m (base c - frame_size c + k) v.
Proof.
  intros Hm Hk Hr E. assert (frame_size c mod 4 = 0) as Hf by (unfold frame_size; by destruct (0 <? cpl c)).
  apply Hm in E. rewrite Z2Nat.id in E by zlia.
  by replace (base c - frame_size c + k) with (base c - 4 * ((frame_size c - k) / 4 - 1 + 1)) by zlia.
Qed.

Lemma frame_slots_hold n e o c m : cpu_wf c ->
  (forall i s, frame_slots n e o c !! i = Some s -> slot_is m (base c - 4 * (Z.of_nat i + 1)) s) ->
  holds_frame m (frame_at c) n e c.
Proof.
  intros [Wr Ws We Wf] Hm. unfold frame_at.
  assert (forall k v, 0 <= k < frame_size c -> k mod 4 = 0 -> 0 <= v < 4294967296 ->
    frame_slots n e o c !! Z.to_nat ((frame_size c - k) / 4 - 1) = Some (W32 v) ->
    ld32 m (base c - frame_size c + k) = v) as K32.
  { intros k v Hk Hk4 Hv E. rewrite <- (u32_small v Hv). by apply (frame_slot n e o c m k (W32 v)). }
  assert (forall k v, 0 <= k < frame_size c -> k mod 4 = 0 -> 0 <= v < 65536 ->
    frame_slots n e o c !! Z.to_nat ((frame_size c - k) / 4 - 1) = Some (W16 v) ->
    ld16 m (base c - frame_size c + k) = v) as K16.
  { intros k v Hk Hk4 Hv E. rewrite <- (Z.mod_small v 65536 Hv). by apply (frame_slot n e o c m k (W16 v)). }
  pose proof (frame_slot n e o c m tf_trapno (W32 n) Hm eq_refl) as Kn.
  pose proof (frame_slot n e o c m tf_err (W32 e) Hm eq_refl) as Ke.
  clear Hm. unfold frame_size, frame_slots in *. destruct (Z.ltb_spec 0 (cpl c)) as [Hc|Hc]; cbn [app] in *.
  all: split; [repeat (apply Forall_cons_2; [apply K32; done|]); by apply Forall_nil_2
              |repeat (apply Forall_cons_2; [apply K16; done|]); by apply Forall_nil_2
              |by apply Kn|by apply Ke|by apply K32|by apply K32|].
  - intros _. split; [by apply K32 | by apply K16].
  - intros. lia.
Qed.

Lemma trap_entry_called n err c : err_ok n err -> cpu_wf c -> frame_size c + 8 <= base c < 4294967296 ->
  trap_called n (default 0 err) c (trap_entry n err c).
Proof.
  intros He Hw Hb. unfold trap_entry. rewrite run_app. destruct (vector_run n err c He) as (X1 & X2 & X3).
  set (x := run (vector_code n) _) in *. clearbody x.
  destruct (alltraps_run x) as (A1 & A2 & A3 & A4 & A5 & A6). destruct (saved_slots n err c x X1 X2 X3) as (o & Hs).
  set (F := frame_slots n (default 0 err) o c) in *. set (c1 := run alltraps x) in *. clearbody c1.
  assert (4 * zlen F = frame_size c) as HF by (unfold F, frame_slots, frame_size; destruct (0 <? cpl c); reflexivity).
  assert (c_r (saved x) ESP = frame_at c) as Etf.
  { destruct Hs as [_ ->]. destruct (push_slots_spec F (hw_base kstack c)) as (-> & _); [lia|]. unfold frame_at. lia. }
  rewrite Etf, Hs, <- push_slots_app in A1. destruct A1 as [Am Ae].
  assert (zlen (F ++ [W32 (frame_at c); W32 trap_ret]) = zlen F + 2) as HL by (unfold zlen; rewrite length_app; simpl; lia).
  destruct (push_slots_spec (F ++ [W32 (frame_at c); W32 trap_ret]) (hw_base kstack c)) as (P1 & P2 & P3); [lia|].
  rewrite <- Am in P2, P3. rewrite <- Ae in P1. rewrite HL in *. unfold frame_at in P1, P2.
  assert (0 <= frame_at c < 4294967296) as Hf by (unfold frame_at, frame_size in *; destruct (0 <? cpl c); lia).
  pose proof (P2 (length F) (W32 (frame_at c))) as Q1. rewrite lookup_app_r, Nat.sub_diag in Q1 by done. specialize (Q1 eq_refl).
  pose proof (P2 (S (length F)) (W32 trap_ret)) as Q2. rewrite lookup_app_r, Nat.sub_succ_l, Nat.sub_diag in Q2 by lia. specialize (Q2 eq_refl).
  unfold zlen in *. split.
  - done.
  - unfold frame_at. lia.
  - unfold frame_at. rewrite <- Q2. f_equal. lia.
  - rewrite <- (u32_small _ Hf) at 2. rewrite <- Q1. f_equal. unfold frame_at. lia.
  - apply (frame_slots_hold n (default 0 err) o c); [done|]. intros i s Hi. apply P2. by apply lookup_app_l_Some.
  - unfold cpl. rewrite A3, X3, upd_eq. done.
  - rewrite A4, A5, A6, X3, upd_ne by done. done.
  - intros a Ha. rewrite P3 by (unfold frame_at in Ha; lia). unfold hw_base. by destruct (0 <? cpl c).
Qed.

(** The top of the stack a trap is handled on. *)
Definition trap_stack (c : cpu) : Z := if 0 <? cpl c then esp0 kstack else c_r c ESP.

Lemma base_eq c : base c = trap_stack c.
Proof. unfold trap_stack, hw_base. destruct (0 <? cpl c); [apply upd_eq | done]. Qed.

Lemma after_trap_resumes n e c c1 c2 : trap_called n e c c1 -> c_returned c1 c2 ->
  frame_size c + 8 <= trap_stack c < 4294967288 ->
  resumed (c_mem c2) (frame_at c) (c_s (hw_base kstack c) SS) (run after_trap c2).
Proof.
  intros Hc [R1 R2 R3] Hb. unfold after_trap. rewrite run_cons. cbn [step]. rewrite R2, (tc_esp _ _ _ _ Hc).
  assert (0 <= frame_at c /\ frame_at c + 76 < 4294967296) as [Hf1 Hf2].
  { unfold frame_at, frame_size in *. rewrite base_eq. destruct (0 <? cpl c); lia. }
  rewrite u32_small by lia. replace (frame_at c - 8 + 4 + 4) with (frame_at c) by lia.
  destruct (tc_seg _ _ _ _ Hc) as (_ & _ & <-). rewrite <- R3.
  apply (trapret_resumes (set_r ESP (frame_at c) c2)); [apply upd_eq | done | done |].
  unfold cpl. cbn [set_r c_s]. rewrite R3. exact (tc_cpl _ _ _ _ Hc).
Qed.

(** The frame as it was, but for [eax]: the code resumes as it was, but for [eax]. *)
Lemma resumed_same m m' n e c c' : holds_frame m (frame_at c) n e c ->
  (forall a, frame_at c <= a < trap_stack c -> ~ (frame_at c + 28 <= a < frame_at c + 32) -> m' a = m a) ->
  resumed m' (frame_at c) (c_s (hw_base kstack c) SS) c' ->
  c_r c' EAX = ld32 m' (frame_at c + tf_eax) /\ (forall r, r <> EAX -> c_r c' r = c_r c r) /\ (forall r, c_s c' r = c_s c r) /\
  c_eip c' = c_eip c /\ c_eflags c' = c_eflags c.
Proof.
  intros [Hr Hs _ _ Hip Hfl Hu] Hm [Rr Rs Rip Rfl _ Rst]. set (tf := frame_at c) in *.
  assert (tf + frame_size c = trap_stack c) as Htop by (unfold tf, frame_at; rewrite base_eq; lia).
  assert (forall o, 0 <= o -> o + 4 <= frame_size c -> o + 4 <= 28 \/ 32 <= o -> ld32 m' (tf + o) = ld32 m (tf + o)) as E32.
  { intros o H0 H1 H2. apply ld32_ext. intros x Hx. apply Hm; lia. }
  assert (forall o, 32 <= o -> o + 2 <= frame_size c -> ld16 m' (tf + o) = ld16 m (tf + o)) as E16.
  { intros o H0 H1. unfold ld16. rewrite !Hm by lia. done. }
  assert (68 <= frame_size c) as Hsz by (unfold frame_size; destruct (0 <? cpl c); lia).
  unfold frame_regs, frame_sregs in *. rewrite !Forall_cons in *. destruct_and! Hr. destruct_and! Hs. destruct_and! Rr. destruct_and! Rs.
  unfold tf_edi, tf_esi, tf_ebp, tf_ebx, tf_edx, tf_ecx, tf_eax, tf_es, tf_ds, tf_cs, tf_eip, tf_eflags, tf_esp, tf_ss in *.
  rewrite !E32 in * by lia. rewrite !E16 in * by lia.
  assert (c_s c' CS = c_s c CS) as Ecs by congruence.
  assert ((ld16 m (tf + 60)) = c_s c CS) as Ecs' by done. rewrite Ecs' in Rst. fold (cpl c) in Rst.
  assert (c_r c' ESP = c_r c ESP /\ c_s c' SS = c_s c SS) as [Esp Ess].
  { destruct (Z.ltb_spec 0 (cpl c)) as [Hc|Hc].
    - destruct (Hu Hc) as [<- <-]. destruct Rst as [-> ->].
      assert (frame_size c = 76) as E76 by (unfold frame_size; by rewrite (proj2 (Z.ltb_lt 0 (cpl c)) Hc)).
      by rewrite E32, E16 by lia.
    - destruct Rst as [-> ->]. assert (0 <? cpl c = false) as Ef by (by apply Z.ltb_ge).
      unfold frame_size, trap_stack, hw_base in *. rewrite Ef in *. split; [lia | done]. }
  split_and!; [done | intros []; done || congruence | intros []; congruence | congruence | congruence].
Qed.

(** The return of a handler that stored its result in the frame. *)
Lemma result_resumes n e c c1 c2 m2 r : trap_called n e c c1 -> c_returned c1 c2 ->
  frame_size c + 8 <= trap_stack c < 4294967288 -> (forall a, frame_at c <= a < trap_stack c -> m2 a = c_mem c1 a) ->
  c_mem c2 = st32 m2 (frame_at c + tf_eax) r ->
  let c' := run after_trap c2 in
  c_r c' EAX = u32 r /\ (forall q, q <> EAX -> c_r c' q = c_r c q) /\ (forall q, c_s c' q = c_s c q) /\
  c_eip c' = c_eip c /\ c_eflags c' = c_eflags c.
Proof.
  intros Hcall Hret Hb Hm Hm2 c'. pose proof (after_trap_resumes _ _ _ _ _ Hcall Hret Hb) as Hres. fold c' in Hres.
  assert (forall a, frame_at c <= a < trap_stack c -> ~ (frame_at c + 28 <= a < frame_at c + 32) -> c_mem c2 a = c_mem c1 a) as Hag.
  { intros a Ha Hne. rewrite Hm2, st32_frame by (unfold tf_eax; lia). by apply Hm. }
  destruct (resumed_same _ _ _ _ _ _ (tc_frame _ _ _ _ Hcall) Hag Hres) as (E1 & E2).
  split; [|done]. rewrite E1, Hm2. apply ld32_st32.
Qed.

(** C7: a trap is transparent.  When an interrupt or exception is delivered - with its error
    code, if it has one - in user or kernel mode, [trap] is called with the address of a
    frame that holds the interrupted registers, the vector and the error code, and memory
    outside the stack below the interrupted one is as before.  When [trap] has returned and
    left the frame alone, the interrupted code continues with every register, segment
    register and flag as it was. *)
Theorem trap_transparent gdt_addr idt_addr ts_addr n err c :
  0 <= n < 256 -> err_ok n err -> cpu_wf c -> frame_size c + 8 <= trap_stack c < 4294967288 ->
  exists c0, deliver (kernel_tables vectors gdt_addr idt_addr ts_addr kstack) n err c = Some c0 /\
    let c1 := run (vector_code n ++ alltraps) c0 in
    trap_called n (default 0 err) c c1 /\
    forall c2, c_returned c1 c2 -> (forall a, frame_at c <= a < trap_stack c -> c_mem c2 a = c_mem c1 a) ->
      let c' := run after_trap c2 in
      (forall r, c_r c' r = c_r c r) /\ (forall r, c_s c' r = c_s c r) /\
      c_eip c' = c_eip c /\ c_eflags c' = c_eflags c /\ c_mem c' = c_mem c2.
Proof.
  intros Hn He Hw Hb. eexists. split; [by apply deliver_enter|].
  intros c1. assert (trap_called n (default 0 err) c c1) as Hc by (apply trap_entry_called; [done.. | rewrite base_eq; lia]).
  split; [done|]. intros c2 Hr Hm c'. pose proof (after_trap_resumes _ _ _ _ _ Hc Hr Hb) as Hres. fold c' in Hres.
  destruct (resumed_same _ _ _ _ _ _ (tc_frame _ _ _ _ Hc) (fun a Ha _ => Hm a Ha) Hres) as (E1 & E2 & E3 & E4 & E5).
  split_and!; [|done | done | done | exact (rs_mem _ _ _ _ Hres)].
  intros r. destruct (decide (r = EAX)) as [->|Hr']; [|by apply E2]. rewrite E1.
  pose proof (hf_regs _ _ _ _ _ (tc_frame _ _ _ _ Hc)) as HF. rewrite Forall_forall in HF.
  rewrite <- (HF (EAX, tf_eax)) by (by apply (list_elem_of_lookup_2 _ 6%nat)). apply ld32_ext. intros x Hx. apply Hm.
  unfold frame_at, tf_eax in *. rewrite base_eq in *. unfold frame_size in *. destruct (0 <? cpl c); lia.
Qed.

(** ** System calls *)

(** usys.S: the stub of a call loads its number and traps. *)
Definition usys_stub (num : Z) : list instr := [MovlI num EAX].

(** The numbers of syscall.h and the handlers they must select. *)
Definition usys_table `{L : Linker} : list (string * Z * K Z) :=
  [("fork"%string, 1, sys_fork); ("exit"%string, 2, sys_exit); ("wait"%string, 3, sys_wait); ("pipe"%string, 4, sys_pipe); ("read"%string, 5, sys_read);
   ("kill"%string, 6, sys_kill); ("exec"%string, 7, sys_exec); ("fstat"%string, 8, sys_fstat); ("chdir"%string, 9, sys_chdir); ("dup"%string, 10, sys_dup);
   ("getpid"%string, 11, sys_getpid); ("sbrk"%string, 12, sys_sbrk); ("sleep"%string, 13, sys_sleep); ("uptime"%string, 14, sys_uptime);
   ("open"%string, 15, sys_open); ("write"%string, 16, sys_write); ("mknod"%string, 17, sys_mknod); ("unlink"%string, 18, sys_unlink);
   ("link"%string, 19, sys_link); ("mkdir"%string, 20, sys_mkdir); ("close"%string, 21, sys_close); ("getticks"%string, 22, sys_getticks);
   ("ccreate"%string, 23, sys_ccreate); ("cstop"%string, 24, sys_cstop); ("cstart"%string, 25, sys_cstart); ("cfork"%string, 26, sys_cfork);
   ("cinfo"%string, 27, sys_cinfo); ("cpause"%string, 28, sys_cpause); ("cresume"%string, 29, sys_cresume)].

Section calls.
Context `{L : Linker}.

Lemma killed_eq s p pr : k_cur s = Some p -> k_ptable s !! p = Some pr -> killed s = Ret (p_killed pr) s.
Proof.
  intros H1 H2. unfold killed, curproc, myproc, bind, gets. simpl. rewrite H1. simpl. by rewrite (get_proc_eq _ _ _ H2).
Qed.

Lemma curproc_eq s p : k_cur s = Some p -> curproc s = Ret p s.
Proof. intros H. unfold curproc, myproc, bind, gets. simpl. by rewrite H. Qed.

(** The state in which a handler runs. *)
Definition in_handler (tf : Z) (p : nat) (s : kst) : kst := set_k_ptable (alter (set_p_tf tf) p (k_ptable s)) s.

Lemma syscall_eq s p pr num (f : K Z) r s2 pr2 :
  k_cur s = Some p -> k_ptable s !! p = Some pr -> ld32 (k_mem s) (p_tf pr + tf_eax) = num ->
  0 < num < 2147483648 -> syscalls !! Z.to_nat (num - 1) = Some f ->
  f s = Ret r s2 -> k_ptable s2 !! p = Some pr2 ->
  syscall s = Ret tt (set_k_mem (st32 (k_mem s2) (p_tf pr2 + tf_eax) (u32 r)) s2).
Proof.
  intros Hc Hp Hn Hr Hf Ef Hp2. unfold syscall. rewrite (bind_Ret _ _ _ _ _ (curproc_eq _ _ Hc)).
  rewrite (bind_Ret _ _ _ _ _ (get_proc_eq _ _ _ Hp)). unfold load32. rewrite bind_gets, Hn. cbv zeta.
  rewrite i32_small by lia. destruct (Z.ltb_spec 0 num); [|lia]. rewrite Hf.
  rewrite (bind_Ret _ _ _ _ _ Ef), (bind_Ret _ _ _ _ _ (get_proc_eq _ _ _ Hp2)). done.
Qed.

Lemma trap_syscall_eq h tf s p pr num (f : K Z) r s2 pr2 :
  k_cur s = Some p -> k_ptable s !! p = Some pr -> p_killed pr = false ->
  ld32 (k_mem s) (tf + tf_trapno) = T_SYSCALL -> ld32 (k_mem s) (tf + tf_eax) = num ->
  0 < num < 2147483648 -> syscalls !! Z.to_nat (num - 1) = Some f ->
  f (in_handler tf p s) = Ret r s2 ->
  k_cur s2 = Some p -> k_ptable s2 !! p = Some pr2 -> p_killed pr2 = false -> p_tf pr2 = tf ->
  trap h tf s = Ret tt (set_k_mem (st32 (k_mem s2) (tf + tf_eax) (u32 r)) s2).
Proof.
  intros Hc Hp Hk Hno Hn Hr Hf Ef Hc2 Hp2 Hk2 Htf. unfold trap, load32. rewrite bind_gets, Hno.
  change (T_SYSCALL =? T_SYSCALL) with true. cbv iota. rewrite (bind_Ret _ _ _ _ _ (curproc_eq _ _ Hc)).
  rewrite (bind_Ret _ _ _ _ _ (killed_eq _ _ _ Hc Hp)), Hk. unfold when at 1. rewrite bind_ret.
  rewrite (bind_Ret _ _ _ _ _ (upd_proc_eq _ _ _ _ Hp)). fold (in_handler tf p s).
  assert (k_ptable (in_handler tf p s) !! p = Some (set_p_tf tf pr)) as Hp1 by (simpl; by rewrite list_lookup_alter_eq, Hp).
  rewrite (bind_Ret _ _ _ _ _ (syscall_eq (in_handler tf p s) p (set_p_tf tf pr) num f r s2 pr2 Hc Hp1 Hn Hr Hf Ef Hp2)).
  rewrite Htf. set (s3 := set_k_mem _ s2). rewrite (bind_Ret _ _ _ _ _ (killed_eq s3 p pr2 Hc2 Hp2)), Hk2. done.
Qed.

(** The numbers the stubs load select the handlers of their names. *)
Lemma usys_numbers name num (f : K Z) : (name, num, f) ∈ usys_table ->
  0 < num < 2147483648 /\ syscalls !! Z.to_nat (num - 1) = Some f.
Proof.
  intros (i & Hi)%list_elem_of_lookup_1. do 29 (destruct i as [|i]; [cbn in Hi; simplify_eq; split; [lia | reflexivity]|]). done.
Qed.

(** C8: a system call, end to end.  A process that executes the stub of a system call reaches
    the handler of that call's name with its registers in the trap frame; when the handler
    returns [r], having left the frame and the process alive, the process continues after
    the trap with [r] in [%eax] and every other register, segment and flag as it was. *)
Theorem syscall_returns gdt_addr idt_addr ts_addr h u name num (f : K Z) s p pr :
  cpl u = DPL_USER -> cpu_wf u -> 84 <= esp0 kstack < 4294967288 ->
  k_mem s = c_mem u -> k_cur s = Some p -> k_ptable s !! p = Some pr -> p_killed pr = false ->
  (name, num, f) ∈ usys_table ->
  let tf := esp0 kstack - 76 in
  exists c0, int_n (kernel_tables vectors gdt_addr idt_addr ts_addr kstack) T_SYSCALL (run (usys_stub num) u) = Some c0 /\
    let c1 := run (vector_code T_SYSCALL ++ alltraps) c0 in
    let s1 := set_k_mem (c_mem c1) s in
    forall r s2 pr2, f (in_handler tf p s1) = Ret r s2 ->
      k_cur s2 = Some p -> k_ptable s2 !! p = Some pr2 -> p_killed pr2 = false -> p_tf pr2 = tf ->
      (forall a, tf <= a < esp0 kstack -> k_mem s2 a = c_mem c1 a) ->
      exists s', trap h tf s1 = Ret tt s' /\
        forall c2, c_returned c1 c2 -> c_mem c2 = k_mem s' ->
          let c' := run after_trap c2 in
          c_r c' EAX = u32 r /\ (forall q, q <> EAX -> c_r c' q = c_r u q) /\ (forall q, c_s c' q = c_s u q) /\
          c_eip c' = c_eip u /\ c_eflags c' = c_eflags u.
Proof.
  intros Hu Hw Hk Hm Hc Hp Hkl Ht tf. apply usys_numbers in Ht as [Hn Hf]. set (c := run (usys_stub num) u).
  assert (cpl c = DPL_USER) as Hcu by done. assert (0 <? cpl c = true) as Hlt by (by rewrite Hcu).
  assert (frame_size c = 76) as Hfs by (unfold frame_size; by rewrite Hlt).
  assert (trap_stack c = esp0 kstack) as Hts by (unfold trap_stack; by rewrite Hlt).
  assert (frame_at c = tf) as Hfa by (unfold frame_at; rewrite base_eq, Hts, Hfs; done).
  assert (cpu_wf c) as Hwc.
  { destruct Hw as [W1 W2 W3 W4]. split; [|done..]. intros q. unfold c. cbn. unfold upd. case_decide; [apply u32_range | apply W1]. }
  eexists. split; [apply int_n_user; [done | rewrite Hcu; done]|]. change (T_SYSCALL =? T_SYSCALL) with true. cbv iota.
  intros c1 s1. assert (trap_called T_SYSCALL 0 c c1) as Hcall by (apply (trap_entry_called T_SYSCALL None c); [done.. | rewrite base_eq; lia]).
  intros r s2 pr2 Ef Hc2 Hp2 Hk2 Htf Hmem. pose proof (tc_frame _ _ _ _ Hcall) as Hfr. rewrite Hfa in Hfr.
  assert (ld32 (c_mem c1) (tf + tf_eax) = num) as Hnum.
  { pose proof (hf_regs _ _ _ _ _ Hfr) as HF. rewrite Forall_forall in HF.
    rewrite (HF (EAX, tf_eax)) by (by apply (list_elem_of_lookup_2 _ 6%nat)). unfold c. cbn. rewrite upd_eq. apply u32_small. lia. }
  eexists. split; [eapply (trap_syscall_eq h tf s1 p pr num f r s2 pr2); try done; exact (hf_trapno _ _ _ _ _ Hfr)|].
  intros c2 Hret Hm2 c'.
  destruct (result_resumes _ _ c c1 c2 (k_mem s2) (u32 r) Hcall Hret) as (E1 & E2 & E3); [lia | by rewrite Hfa, Hts | by rewrite Hfa|].
  fold c' in E1, E2, E3. split_and!; [by rewrite E1, u32_idemp | | apply E3..].
  intros q Hq. rewrite E2 by done. unfold c. cbn. by apply upd_ne.
Qed.
End calls.
End asm.

(** ** Examples *)

Definition demo_kstack : Z := KERNBASE + 4206592.
Definition demo_vectors (n : Z) : Z := KERNBASE + 1060864 + 16 * n.

Lemma demo_cpu_wf : cpu_wf demo_cpu.
Proof. split; [intros []; simpl; lia | intros []; simpl; lia | simpl; lia | vm_compute; split; congruence]. Qed.

Lemma trap_transparent_witness : exists c0,
  deliver (kernel_tables demo_vectors 2148600000 2148610000 2148620000 demo_kstack) 33 None demo_cpu = Some c0 /\
  let c1 := run (vector_code 1 33 ++ alltraps 2 3) c0 in
  trap_called 2 3 demo_kstack 33 0 demo_cpu c1.
Proof.
  destruct (trap_transparent demo_vectors 1 2 3 demo_kstack 2148600000 2148610000 2148620000 33 None demo_cpu) as (c0 & E & H & _);
    [lia | reflexivity | exact demo_cpu_wf | vm_compute; split; congruence|].
  exists c0. split; [exact E | exact H].
Defined.

(** [getpid] by the first process. *)
Lemma syscall_returns_witness : exists c0,
  int_n (kernel_tables demo_vectors 2148600000 2148610000 2148620000 demo_kstack) T_SYSCALL (run (usys_stub 11) demo_cpu) = Some c0 /\
  let c1 := run (vector_code 1 T_SYSCALL ++ alltraps 2 3) c0 in
  let s1 := set_k_mem (c_mem c1) boot_state in
  exists s', trap (L := demo_linker) (mkHw 0 0 0 [] []) (esp0 demo_kstack - 76) s1 = Ret tt s' /\
    forall c2, c_returned c1 c2 -> c_mem c2 = k_mem s' -> c_r (run after_trap c2) EAX = 1.
Proof.
  destruct (syscall_returns (L := demo_linker) demo_vectors 1 2 3 demo_kstack 2148600000 2148610000 2148620000 (mkHw 0 0 0 [] [])
    demo_cpu "getpid" 11 sys_getpid boot_state 0%nat boot_proc) as (c0 & E & H);
    [reflexivity | exact demo_cpu_wf | vm_compute; split; congruence | reflexivity | reflexivity | reflexivity | reflexivity
    | apply (list_elem_of_lookup_2 _ 10%nat); reflexivity|].
  exists c0. split; [exact E|]. intros c1 s1.
  destruct (H 1 (in_handler (esp0 demo_kstack - 76) 0%nat s1) (set_p_tf (esp0 demo_kstack - 76) boot_proc)) as (s' & E' & H');
    [reflexivity | reflexivity | reflexivity | reflexivity | reflexivity | intros; reflexivity|].
  exists s'. split; [exact E'|]. intros c2 Hr Hm. exact (proj1 (H' c2 Hr Hm)).
Defined.
