(* ===== verification/Swtch.v ===== *)
(** * Context switches

    swtch.S on the processor of X86.v: what it saves and loads, that a saved context resumes
    where it was left, and how the context and stack [allocproc] (proc.c) lays out for a new
    process lead it through [forkret] and [trapret] into user mode. *)

From S2P Require Import Prelude Monad CString KState Sched Kalloc Vm Proc Container X86 Protect Entry Fork.

Local Open Scope kernel_scope.

(** ** What [swtch] does *)

(** [swtch(old, new)] has been called: [e] is the stack pointer, at the return address.  The
    context to load is neither on the stack below nor where the old one's address goes. *)
Record swtch_called (c : cpu) (e old new : Z) : Prop := {
  sc_esp : c_r c ESP = e;
  sc_room : 16 <= e /\ e + 12 < 4294967296;
  sc_old : ld32 (c_mem c) (e + 4) = old;
  sc_new : ld32 (c_mem c) (e + 8) = new;
  sc_new_range : 0 <= new /\ new + 20 < 4294967296;
  sc_old_stack : old + 4 <= e - 16 \/ e + 4 <= old;
  sc_new_stack : new + 20 <= e - 16 \/ e <= new;
  sc_new_old : new + 20 <= old \/ old + 4 <= new
}.

(** Memory after the save: the registers below the return address, and their address. *)
Definition swtch_mem (c : cpu) (e old : Z) : mem :=
  st32 (c_mem (push_slots [W32 (c_r c EBP); W32 (c_r c EBX); W32 (c_r c ESI); W32 (c_r c EDI)] c)) old (e - 16).

(** The context at [a] of memory [m], in the order of [struct context]. *)
Record context_is (m : mem) (a edi esi ebx ebp eip : Z) : Prop := {
  ci_edi : ld32 m a = edi;
  ci_esi : ld32 m (a + 4) = esi;
  ci_ebx : ld32 m (a + 8) = ebx;
  ci_ebp : ld32 m (a + 12) = ebp;
  ci_eip : ld32 m (a + 16) = eip
}.

Lemma step_pushr r c : step (PushlR r) c = push_slots [W32 (c_r c r)] c.
Proof. done. Qed.

Lemma popr_step r c e : c_r c ESP = e -> 0 <= e -> e + 4 < 4294967296 ->
  step (PoplR r) c = set_r r (ld32 (c_mem c) e) (set_r ESP (e + 4) c).
Proof. intros He H0 H1. unfold step, pop_reg, top32. by rewrite He, (drop_slot_eq c e). Qed.

(** The loading half: four pops and the return. *)
Lemma swtch_load c a : c_r c ESP = a -> 0 <= a -> a + 20 < 4294967296 ->
  let c' := run [PoplR EDI; PoplR ESI; PoplR EBX; PoplR EBP; Retn] c in
  c_mem c' = c_mem c /\ c_s c' = c_s c /\ c_r c' ESP = a + 20 /\
  context_is (c_mem c) a (c_r c' EDI) (c_r c' ESI) (c_r c' EBX) (c_r c' EBP) (c_eip c').
Proof.
  intros He H0 H1. rewrite run_cons, (popr_step EDI c a) by lia. set (y1 := set_r EDI _ _).
  rewrite run_cons, (popr_step ESI y1 (a + 4)) by (unfold y1; cbn [set_r c_r]; upds; lia). set (y2 := set_r ESI _ _).
  rewrite run_cons, (popr_step EBX y2 (a + 4 + 4)) by (unfold y2; cbn [set_r c_r]; upds; lia). set (y3 := set_r EBX _ _).
  rewrite run_cons, (popr_step EBP y3 (a + 4 + 4 + 4)) by (unfold y3; cbn [set_r c_r]; upds; lia). set (y4 := set_r EBP _ _).
  rewrite run_cons. cbn [step run fold_left]. unfold top32.
  assert (c_r y4 ESP = a + 4 + 4 + 4 + 4) as E4 by (unfold y4; cbn [set_r c_r]; by upds).
  rewrite (drop_slot_eq _ (a + 4 + 4 + 4 + 4)) by (done || lia). cbn [set_r set_eip c_mem c_r c_eip]. rewrite E4, upd_eq.
  unfold y4, y3, y2, y1. cbn [set_r c_r c_mem]. upds.
  split; [done|]. split; [done|]. split; [lia|]. split; f_equal; lia.
Qed.

(** The saving half. *)
Lemma swtch_save c e old new code : swtch_called c e old new ->
  exists c1, run (MovlLoad 4 ESP EAX :: MovlLoad 8 ESP EDX :: PushlR EBP :: PushlR EBX :: PushlR ESI :: PushlR EDI ::
      MovlStore ESP EAX :: MovlRR EDX ESP :: code) c = run code c1 /\
    c_r c1 ESP = new /\ c_mem c1 = swtch_mem c e old /\ c_s c1 = c_s c.
Proof.
  intros [He Hr Ho Hn Hnr _ _ _]. rewrite run_cons. cbn [step]. rewrite He, u32_small by lia. rewrite Ho.
  rewrite run_cons. cbn [step set_r c_r c_mem]. upds. rewrite He, u32_small, Hn by lia.
  set (x := set_r EDX new _). assert (same_stack x c) as Hx by (split; [done | unfold x; cbn [set_r c_r]; by upds]).
  rewrite run_cons, step_pushr, run_cons, step_pushr, run_cons, step_pushr, run_cons, step_pushr.
  rewrite !push_slots_r by done. rewrite <- !push_slots_app. cbn [app].
  assert (forall r, r <> ESP -> r <> EAX -> r <> EDX -> c_r x r = c_r c r) as Hxr by (intros; unfold x; cbn [set_r c_r]; by rewrite !upd_ne).
  rewrite !(Hxr _) by done. set (l := [W32 (c_r c EBP); _; _; _]).
  destruct (push_slots_proper l x c Hx) as [Zm Ze]. destruct (push_slots_spec l c) as (P1 & _); [unfold zlen; simpl; lia|].
  set (z := push_slots l x) in *. rewrite run_cons. cbn [step]. rewrite run_cons. cbn [step set_mem c_r].
  assert (c_r z EAX = old /\ c_r z EDX = new) as [-> ->].
  { unfold z. rewrite !push_slots_r by done. unfold x. cbn [set_r c_r]. by upds. }
  eexists. split; [reflexivity|]. cbn [set_r set_mem c_r c_mem c_s]. upds. split_and!; [done | |unfold z; by rewrite push_slots_s].
  unfold swtch_mem. fold l. rewrite Zm, Ze, P1. unfold zlen. cbn [length l]. do 2 f_equal. lia.
Qed.

(** Memory after the save: the context of the caller at [e - 16], its address in [old], and
    the rest as it was. *)
Lemma swtch_mem_spec c e old new : swtch_called c e old new -> (forall r, 0 <= c_r c r < 4294967296) ->
  let m := swtch_mem c e old in
  context_is m (e - 16) (c_r c EDI) (c_r c ESI) (c_r c EBX) (c_r c EBP) (ld32 (c_mem c) e) /\ ld32 m old = e - 16 /\
  (forall a, ~ (e - 16 <= a < e) -> ~ (old <= a < old + 4) -> m a = c_mem c a).
Proof.
  intros [He Hr _ _ _ Hos _ _] Hw m. unfold m, swtch_mem. set (l := [W32 (c_r c EBP); _; _; _]).
  destruct (push_slots_spec l c) as (_ & P2 & P3); [unfold zlen; simpl; lia|]. rewrite He in *.
  change (zlen l) with 4 in P3. set (m1 := c_mem (push_slots l c)) in *.
  assert (forall a, e - 16 <= a <= e -> ld32 (st32 m1 old (e - 16)) a = ld32 m1 a) as Q by (intros a Ha; apply ld32_st32_ne; lia).
  split_and!.
  - pose proof (P2 3%nat _ eq_refl) as S3. pose proof (P2 2%nat _ eq_refl) as S2. pose proof (P2 1%nat _ eq_refl) as S1.
    pose proof (P2 0%nat _ eq_refl) as S0. cbn [slot_is] in *. rewrite u32_small in S0, S1, S2, S3 by apply Hw.
    split; rewrite Q by lia; [rewrite <- S3 | rewrite <- S2 | rewrite <- S1 | rewrite <- S0 |]; try (f_equal; lia).
    replace (e - 16 + 16) with e by lia. apply ld32_ext. intros x Hx. apply P3. lia.
  - rewrite ld32_st32. apply u32_small. lia.
  - intros a Ha Hb. rewrite st32_frame by lia. apply P3. lia.
Qed.

(** The whole of [swtch]. *)
Lemma swtch_spec c e old new : swtch_called c e old new -> (forall r, 0 <= c_r c r < 4294967296) ->
  let c' := run swtch c in
  c_mem c' = swtch_mem c e old /\ c_s c' = c_s c /\ c_r c' ESP = new + 20 /\
  context_is (c_mem c) new (c_r c' EDI) (c_r c' ESI) (c_r c' EBX) (c_r c' EBP) (c_eip c').
Proof.
  intros Hc Hw. unfold swtch. destruct (swtch_save c e old new [PoplR EDI; PoplR ESI; PoplR EBX; PoplR EBP; Retn] Hc)
    as (c1 & -> & E1 & M1 & S1). pose proof (sc_new_range _ _ _ _ Hc) as [N1 N2].
  destruct (swtch_load c1 new E1 N1 N2) as (L1 & Ls & L2 & [L3 L4 L5 L6 L7]). split_and!; [congruence | congruence | done|].
  destruct (swtch_mem_spec c e old new Hc Hw) as (_ & _ & Hm). rewrite M1 in *.
  assert (forall k, 0 <= k -> k + 4 <= 20 -> ld32 (swtch_mem c e old) (new + k) = ld32 (c_mem c) (new + k)) as Q.
  { intros k Hk1 Hk2. pose proof (sc_new_stack _ _ _ _ Hc). pose proof (sc_new_old _ _ _ _ Hc).
    apply ld32_ext. intros x Hx. apply Hm; lia. }
  split; [rewrite <- L3; pose proof (Q 0) as Q0; rewrite Z.add_0_r in Q0 | rewrite <- L4 | rewrite <- L5 | rewrite <- L6 | rewrite <- L7];
    symmetry; auto with lia.
Qed.

(** C9: a context switch is transparent.  After a process has called [swtch], the word its first
    argument points to is the address of its context; and when any code later switches to
    that context, on a stack elsewhere and with the process's stack as it was left, the
    process continues as if its call had returned: at the return address, with the return
    address popped and the registers a C function preserves as they were. *)
Theorem swtch_resumes c e old new d e' old' :
  swtch_called c e old new -> (forall r, 0 <= c_r c r < 4294967296) ->
  let c1 := run swtch c in
  swtch_called d e' old' (ld32 (c_mem c1) old) -> (forall r, 0 <= c_r d r < 4294967296) ->
  (forall a, e - 16 <= a < e + 4 -> c_mem d a = c_mem c1 a) ->
  let d1 := run swtch d in
  c_eip d1 = ld32 (c_mem c) e /\ c_r d1 ESP = e + 4 /\
  c_r d1 EBX = c_r c EBX /\ c_r d1 ESI = c_r c ESI /\ c_r d1 EDI = c_r c EDI /\ c_r d1 EBP = c_r c EBP.
Proof.
  intros Hc Hw c1 Hd Hwd Hm d1. destruct (swtch_spec c e old new Hc Hw) as (M1 & _ & _). fold c1 in M1.
  destruct (swtch_mem_spec c e old new Hc Hw) as ([C1 C2 C3 C4 C5] & Ho & _). rewrite M1 in *. rewrite Ho in *.
  destruct (swtch_spec d e' old' _ Hd Hwd) as (_ & _ & D2 & [D3 D4 D5 D6 D7]). fold d1 in D2, D3, D4, D5, D6, D7.
  assert (forall k, 0 <= k -> k + 4 <= 20 -> ld32 (c_mem d) (e - 16 + k) = ld32 (swtch_mem c e old) (e - 16 + k)) as Q.
  { intros k Hk1 Hk2. apply ld32_ext. intros x Hx. apply Hm. lia. }
  pose proof (Q 0) as Q0. rewrite Z.add_0_r in Q0. rewrite Q in * by lia. rewrite Q0 in * by lia.
  split_and!; try congruence. lia.
Qed.

(** ** The first run of a process *)

Section newproc.
Context `{L : Linker}.

Lemma upd_proc_inv p f s u s' : upd_proc p f s = Ret u s' ->
  exists pr, k_ptable s !! p = Some pr /\ s' = set_k_ptable (alter f p (k_ptable s)) s.
Proof.
  unfold upd_proc. intros (pr & s1 & G & M)%bind_inv_Ret. unfold get_proc in G. apply bind_inv_Ret in G as (t & s2 & G1 & G2).
  unfold gets in G1. injection G1 as <- <-. destruct (k_ptable s !! p) as [pr'|] eqn:E; [|done]. injection G2 as <- <-.
  exists pr'. split; [done|]. unfold modify in M. congruence.
Qed.

(** Every success of [allocproc]: the new process has a stack page, the address of its trap
    frame at the top of it, and the prepared context below. *)
Lemma allocproc_stack c s p s' : allocproc c s = Ret (Some p) s' ->
  exists pr m, k_ptable s' !! p = Some pr /\ p_kstack pr <> 0 /\
    p_tf pr = p_kstack pr + KSTACKSIZE - TF_SIZE /\ p_context pr = p_tf pr - 4 - CONTEXT_SIZE /\
    k_mem s' = newproc_mem (p_kstack pr) m.
Proof.
  unfold allocproc. intros (co & s1 & _ & R)%bind_inv_Ret. destruct (_ && _); [done|].
  apply bind_inv_Ret in R as (? & s2 & _ & R). apply bind_inv_Ret in R as (co2 & s3 & _ & R).
  apply bind_inv_Ret in R as (row & s4 & _ & R). apply bind_inv_Ret in R as (r & s5 & _ & R).
  destruct r as [q|]; [|by apply bind_inv_Ret in R as (? & ? & _ & R)].
  do 5 (apply bind_inv_Ret in R as (? & ? & _ & R)). apply bind_inv_Ret in R as (ks & s6 & _ & R).
  apply bind_inv_Ret in R as (? & s7 & (pr & Hp & ->)%upd_proc_inv & R).
  destruct (Z.eqb_spec ks 0) as [|Hks]; [by apply bind_inv_Ret in R as (? & ? & _ & R)|]. cbv zeta in R.
  apply bind_inv_Ret in R as (? & ? & (? & ? & ->)%upd_proc_inv & R). unfold store32 at 1 in R. rewrite bind_upd_mem in R.
  apply bind_inv_Ret in R as (? & ? & (? & ? & ->)%upd_proc_inv & R). unfold store32 in R. rewrite !bind_upd_mem in R.
  apply bind_inv_Ret in R as (? & ? & (? & ? & ->)%upd_proc_inv & R).
  apply bind_inv_Ret in R as (? & ? & (? & ? & ->)%upd_proc_inv & R).
  unfold upd_cont in R. apply bind_inv_Ret in R as (? & ? & (co3 & s8 & G & M)%bind_inv_Ret & R).
  unfold get_cont in G. apply bind_inv_Ret in G as (t & s9 & G1 & G2). unfold gets in G1. injection G1 as <- <-.
  destruct (_ !! c) in G2; [|done]. injection G2 as _ <-. unfold modify in M. injection M as _ <-. injection R as -> <-.
  eexists _, (k_mem s6). cbn [k_ptable k_mem set_k_ptable set_k_mem set_k_ctable]. rewrite !list_lookup_alter_eq, Hp.
  cbn [fmap option_fmap option_map]. split; [reflexivity|].
  cbn [p_kstack p_tf p_context set_p_kstack set_p_tf set_p_context set_p_ticks set_p_cont]. split; [exact Hks|]. split; [reflexivity|].
  split; [reflexivity|]. unfold newproc_mem. reflexivity.
Qed.

Lemma newproc_words ks m : 
  let ctx := ks + KSTACKSIZE - TF_SIZE - 4 - CONTEXT_SIZE in
  ld32 (newproc_mem ks m) (ctx + ctx_eip) = u32 sym_forkret /\ ld32 (newproc_mem ks m) (ctx + CONTEXT_SIZE) = u32 sym_trapret.
Proof.
  intros ctx. unfold newproc_mem. cbv zeta. fold ctx. split; [apply ld32_st32|].
  rewrite ld32_st32_ne by (unfold CONTEXT_SIZE, ctx_eip; lia).
  rewrite (ld32_ext _ (st32 m (ks + KSTACKSIZE - TF_SIZE - 4) sym_trapret)).
  - replace (ctx + CONTEXT_SIZE) with (ks + KSTACKSIZE - TF_SIZE - 4) by (unfold ctx; lia). apply ld32_st32.
  - intros x Hx. rewrite memset_spec by done. rewrite (proj2 (in_range_false _ _ _)); [done|]. lia.
Qed.

(** C27: the first run of a process.  When [allocproc] has made a process and the scheduler, on
    another stack, switches to its context, the processor is at [forkret], which returns to
    [trapret]; and [trapret] then loads the registers from the trap frame of the process. *)
Theorem new_process_starts c s p s' : allocproc c s = Ret (Some p) s' ->
  exists pr, k_ptable s' !! p = Some pr /\
    forall d e old, swtch_called d e old (p_context pr) -> (forall r, 0 <= c_r d r < 4294967296) -> cpl d = 0 ->
      p_kstack pr + KSTACKSIZE < 4294967296 ->
      (forall a, p_context pr <= a < p_kstack pr + KSTACKSIZE ->
         c_mem d a = k_mem s' a /\ ~ (e - 16 <= a < e) /\ ~ (old <= a < old + 4)) ->
      let d1 := run swtch d in
      c_eip d1 = u32 sym_forkret /\
      forall d2, c_returned d1 d2 ->
        c_eip d2 = u32 sym_trapret /\ resumed (c_mem d2) (p_tf pr) (c_s d2 SS) (run trapret d2).
Proof.
  intros (pr & m & Hp & Hk & Ht & Hx & Hm)%allocproc_stack. exists pr. split; [done|].
  intros d e old Hd Hw Hc Htop Hag d1. destruct (newproc_words (p_kstack pr) m) as [W1 W2]. rewrite <- Hm, <- Ht, <- Hx in W1, W2.
  destruct (swtch_spec d e old _ Hd Hw) as (M1 & S1 & E1 & [_ _ _ _ D5]). fold d1 in M1, S1, E1, D5.
  destruct (swtch_mem_spec d e old _ Hd Hw) as (_ & _ & Hsm). rewrite <- M1 in Hsm.
  unfold TF_SIZE, KSTACKSIZE, CONTEXT_SIZE, ctx_eip in *.
  assert (forall k, 0 <= k -> k + 4 <= 24 -> ld32 (c_mem d1) (p_context pr + k) = ld32 (k_mem s') (p_context pr + k)) as Q.
  { intros k Hk1 Hk2. apply ld32_ext. intros x Hx1. destruct (Hag x) as (Q1 & Q2 & Q3); [lia|]. by rewrite Hsm. }
  assert (ld32 (c_mem d) (p_context pr + 16) = ld32 (k_mem s') (p_context pr + 16)) as Qd by (apply ld32_ext; intros x Hx1; apply Hag; lia).
  split; [congruence|]. intros d2 [R1 R2 R3]. rewrite E1 in R1, R2. rewrite Q in R1 by lia. split; [congruence|].
  apply trapret_resumes;
  [lia | | lia | unfold cpl; by rewrite R3, S1].
  pose proof (sc_new_range _ _ _ _ Hd). lia.
Qed.
End newproc.

(** ** Examples *)

(** Two stacks: one process calls [swtch] with its context saved at [demo_old]. *)
Definition demo_old : Z := KERNBASE + 5242880.
Definition demo_swtch (e old new : Z) (m : mem) : cpu :=
  mkCpu (fun r => match r with ESP => e | _ => 7 end) (fun _ => 8) 0 0 (st32 (st32 (st32 m e 99) (e + 4) old) (e + 8) new).
Definition demo_A : cpu := demo_swtch (KERNBASE + 6291456) demo_old (KERNBASE + 7340032) (fun _ => 0).
Definition demo_B : cpu :=
  demo_swtch (KERNBASE + 7344128) (demo_old + 4) (KERNBASE + 6291440) (c_mem (run swtch demo_A)).

Lemma demo_called e old new m : 16 <= e /\ e + 12 < 4294967296 -> 0 <= new /\ new + 20 < 4294967296 -> 0 <= old < 4294967296 ->
  old + 4 <= e - 16 \/ e + 4 <= old -> new + 20 <= e - 16 \/ e <= new -> new + 20 <= old \/ old + 4 <= new ->
  swtch_called (demo_swtch e old new m) e old new.
Proof.
  intros He Hn Ho H1 H2 H3. split; try done; unfold demo_swtch; cbn [c_mem].
  - rewrite ld32_st32_ne, ld32_st32 by lia. by apply u32_small.
  - rewrite ld32_st32. apply u32_small. lia.
Qed.

Lemma demo_regs e old new m r : 16 <= e -> e + 12 < 4294967296 -> 0 <= c_r (demo_swtch e old new m) r < 4294967296.
Proof. destruct r; simpl; lia. Qed.

Lemma swtch_resumes_witness : c_eip (run swtch demo_B) = 99 /\ c_r (run swtch demo_B) ESP = KERNBASE + 6291460.
Proof.
  destruct (swtch_resumes demo_A (KERNBASE + 6291456) demo_old (KERNBASE + 7340032) demo_B (KERNBASE + 7344128) (demo_old + 4))
    as (E1 & E2 & _).
  - apply demo_called; vm_compute; intuition congruence.
  - intros r. apply demo_regs; vm_compute; congruence.
  - replace (ld32 (c_mem (run swtch demo_A)) demo_old) with (KERNBASE + 6291440) by (vm_compute; reflexivity).
    apply demo_called; vm_compute; intuition congruence.
  - intros r. apply demo_regs; vm_compute; congruence.
  - intros a Ha. unfold demo_B, demo_swtch. cbn [c_mem]. unfold KERNBASE in *. rewrite !st32_frame by lia. reflexivity.
  - split; [rewrite E1; vm_compute; reflexivity | rewrite E2; vm_compute; reflexivity].
Defined.

(** A second process of the first container, and the scheduler about to switch to it. *)
Definition demo_new : kst := match allocproc (L := demo_linker) 0%nat demo_kst with Ret _ s' => s' | _ => demo_kst end.

Lemma demo_allocproc : allocproc (L := demo_linker) 0%nat demo_kst = Ret (Some 1%nat) demo_new.
Proof.
  assert (exists s', allocproc (L := demo_linker) 0%nat demo_kst = Ret (Some 1%nat) s') as (s' & E) by (eexists; vm_compute; reflexivity).
  unfold demo_new. by rewrite E.
Qed.

Lemma demo_new_proc : exists pr, k_ptable demo_new !! 1%nat = Some pr /\ p_kstack pr = pgA /\ p_context pr = pgA + 3996.
Proof. eexists. vm_compute. split_and!; reflexivity. Qed.

Lemma new_process_starts_witness :
  c_eip (run swtch (demo_swtch (KERNBASE + 6291456) demo_old (pgA + 3996) (k_mem demo_new))) = u32 (@sym_forkret demo_linker).
Proof.
  destruct (new_process_starts (L := demo_linker) 0%nat demo_kst 1%nat demo_new demo_allocproc) as (pr & Hp & H).
  destruct demo_new_proc as (pr' & Hp' & Hk & Hx). rewrite Hp in Hp'. injection Hp' as <-. rewrite Hk, Hx in H.
  set (d := demo_swtch _ _ _ _) in *. refine (proj1 (H d (KERNBASE + 6291456) demo_old _ _ _ _ _)).
  - apply demo_called; vm_compute; intuition congruence.
  - intros r. apply demo_regs; vm_compute; congruence.
  - reflexivity.
  - vm_compute. reflexivity.
  - unfold pgA, KSTACKSIZE, demo_old, d, demo_swtch, KERNBASE. intros a Ha. cbn [c_mem]. rewrite !st32_frame by lia. lia.
Defined.
