(* ===== verification/Mp.v ===== *)
(** * Processor discovery

    mp.c: the search for the BIOS's multiprocessor structures in low memory, their checks, and
    the walk over the configuration table that fills [cpus], [ncpu], [ioapicid] and [lapic].
    Memory is the kernel's map of physical memory; the structures of mp.h are read at their
    offsets. *)

From S2P Require Import Prelude Monad KState.

Local Open Scope kernel_scope.

(** param.h, mp.h *)
Definition NCPU : Z := 8.
Definition MP_SIZE : Z := 16.
Definition MPCONF_SIZE : Z := 44.
Definition MPPROC_SIZE : Z := 20.
Definition MPIOAPIC_SIZE : Z := 8.
Definition MPPROC : Z := 0.
Definition MPBUS : Z := 1.
Definition MPIOAPIC : Z := 2.
Definition MPIOINTR : Z := 3.
Definition MPLINTR : Z := 4.

(** The variables of mp.c, [lapic] of lapic.c, and the bytes sent to the IMCR's ports. *)
Record mpst : Type := mkMpst {
  mp_ncpu : Z;
  mp_apicid : list Z;  (* [cpus[i].apicid] *)
  mp_ioapicid : Z;
  mp_lapic : Z;
  mp_out : list (Z * Z)
}.
Definition set_mp_cpu (id : Z) (s : mpst) : mpst :=
  mkMpst (mp_ncpu s + 1) (<[Z.to_nat (mp_ncpu s) := id]> (mp_apicid s)) (mp_ioapicid s) (mp_lapic s) (mp_out s).
Definition set_mp_ioapicid (id : Z) (s : mpst) : mpst := mkMpst (mp_ncpu s) (mp_apicid s) id (mp_lapic s) (mp_out s).
Definition set_mp_lapic (a : Z) (s : mpst) : mpst := mkMpst (mp_ncpu s) (mp_apicid s) (mp_ioapicid s) a (mp_out s).
Definition add_mp_out (l : list (Z * Z)) (s : mpst) : mpst :=
  mkMpst (mp_ncpu s) (mp_apicid s) (mp_ioapicid s) (mp_lapic s) (mp_out s ++ l).

(** [sum]: an [int] sum of bytes, returned as a byte. *)
Definition sum (m : mem) (addr len : Z) : Z :=
  u8 (foldr (fun i n => m (addr + Z.of_nat i) + n) 0 (seq 0 (Z.to_nat len))).

(** [memcmp(p, sig, 4) == 0] *)
Definition sig_is (m : mem) (p : Z) (sig : list Z) : bool := bool_decide (map (fun i => m (p + Z.of_nat i)) (seq 0 (length sig)) = sig).
Definition MP_sig : list Z := [95; 77; 80; 95].
Definition PCMP_sig : list Z := [80; 67; 77; 80].

Definition mp_ok (m : mem) (p : Z) : bool := sig_is m p MP_sig && (sum m p MP_SIZE =? 0).

(** [mpsearch1]: the address found, or 0. *)
Definition mpsearch1 (m : mem) (a len : Z) : Z :=
  let addr := P2V a in
  default 0 (find (mp_ok m) (map (fun i => addr + MP_SIZE * Z.of_nat i) (seq 0 (Z.to_nat ((len + MP_SIZE - 1) / MP_SIZE))))).

Definition mpsearch (m : mem) : Z :=
  let bda := P2V 1024 in
  let p := Z.shiftl (Z.lor (Z.shiftl (m (bda + 15)) 8) (m (bda + 14))) 4 in
  if negb (p =? 0) then
    let mp := mpsearch1 m p 1024 in
    if negb (mp =? 0) then mp else mpsearch1 m 983040 65536
  else
    let p := Z.lor (Z.shiftl (m (bda + 20)) 8) (m (bda + 19)) * 1024 in
    let mp := mpsearch1 m (u32 (p - 1024)) 1024 in
    if negb (mp =? 0) then mp else mpsearch1 m 983040 65536.

(** Fields of the structures at an address. *)
Definition mp_physaddr (m : mem) (mp : Z) : Z := ld32 m (mp + 4).
Definition mp_imcrp (m : mem) (mp : Z) : Z := m (mp + 12).
Definition conf_length (m : mem) (conf : Z) : Z := m (conf + 4) + 256 * m (conf + 5).
Definition conf_version (m : mem) (conf : Z) : Z := m (conf + 6).
Definition conf_lapicaddr (m : mem) (conf : Z) : Z := ld32 m (conf + 36).

(** [mpconfig]: the floating pointer and the table. *)
Definition mpconfig (m : mem) : option (Z * Z) :=
  let mp := mpsearch m in
  if (mp =? 0) || (mp_physaddr m mp =? 0) then None else
  let conf := P2V (mp_physaddr m mp) in
  if negb (sig_is m conf PCMP_sig) then None else
  if negb (conf_version m conf =? 1) && negb (conf_version m conf =? 4) then None else
  if negb (sum m conf (conf_length m conf) =? 0) then None else
  Some (mp, conf).

(** One turn of the loop of [mpinit]: a [break] in the default case leaves the [switch], not
    the loop. *)
Definition mpinit_step (m : mem) (e : Z) (st : Z * bool) : M mpst (Z * bool + bool) :=
  let '(p, ismp) := st in
  if negb (p <? e) then ret (inr ismp) else
  if m p =? MPPROC then
    n <- gets mp_ncpu ;;
    when (n <? NCPU) (modify (set_mp_cpu (m (p + 1)))) ;;
    ret (inl (u32 (p + MPPROC_SIZE), ismp))
  else if m p =? MPIOAPIC then
    modify (set_mp_ioapicid (m (p + 1))) ;;
    ret (inl (u32 (p + MPIOAPIC_SIZE), ismp))
  else if (m p =? MPBUS) || (m p =? MPIOINTR) || (m p =? MPLINTR) then
    ret (inl (u32 (p + 8), ismp))
  else ret (inl (p, false)).

(** [mpinit]; [imcr] is what port 0x23 reads as.  An entry takes at least 8 bytes of the
    table's length, which bounds the loop. *)
Definition mpinit (fuel : nat) (m : mem) (imcr : Z) : M mpst unit :=
  match mpconfig m with
  | None => panic "Expect to run on an SMP"
  | Some (mp, conf) =>
      modify (set_mp_lapic (conf_lapicaddr m conf)) ;;
      ismp <- loop fuel (mpinit_step m (u32 (conf + conf_length m conf))) (u32 (conf + MPCONF_SIZE), true) ;;
      if negb ismp then panic "Didn't find a suitable machine" else
      when (negb (mp_imcrp m mp =? 0)) (modify (add_mp_out [(34, 112); (35, u8 (Z.lor imcr 1))]))
  end.

(** [cpus] is zeroed. *)
Definition mpst0 : mpst := mkMpst 0 (replicate (Z.to_nat NCPU) 0) 0 0 [].

(** ** The search *)

(** [mpsearch1] gives the first structure, on a 16-byte boundary of the range, with the
    signature and a correct checksum, and 0 if there is none. *)
Lemma mpsearch1_spec m a len : 0 <= a -> a + len < KERNBASE -> len mod 16 = 0 -> 0 <= len ->
  (exists k, 0 <= k < len / 16 /\ mpsearch1 m a len = KERNBASE + a + 16 * k /\ mp_ok m (KERNBASE + a + 16 * k) = true /\
     forall j, 0 <= j < k -> mp_ok m (KERNBASE + a + 16 * j) = false) \/
  (mpsearch1 m a len = 0 /\ forall k, 0 <= k < len / 16 -> mp_ok m (KERNBASE + a + 16 * k) = false).
Proof.
  intros Ha Hl Hm H0. unfold mpsearch1. replace (P2V a) with (KERNBASE + a) by (unfold P2V, KERNBASE in *; rewrite u32_small; lia).
  unfold MP_SIZE. replace ((len + 16 - 1) / 16) with (len / 16) by zlia.
  assert (len / 16 = Z.of_nat (Z.to_nat (len / 16))) as E by (rewrite Z2Nat.id; [done | zlia]). rewrite E.
  generalize (Z.to_nat (len / 16)). clear. intros n. rewrite Nat2Z.id.
  assert (forall b, (exists k, 0 <= k < Z.of_nat n /\
      default 0 (find (mp_ok m) (map (fun i => KERNBASE + a + 16 * Z.of_nat i) (seq b n))) =
        KERNBASE + a + 16 * (Z.of_nat b + k) /\ mp_ok m (KERNBASE + a + 16 * (Z.of_nat b + k)) = true /\
      forall j, 0 <= j < k -> mp_ok m (KERNBASE + a + 16 * (Z.of_nat b + j)) = false) \/
    (default 0 (find (mp_ok m) (map (fun i => KERNBASE + a + 16 * Z.of_nat i) (seq b n))) = 0 /\
      forall k, 0 <= k < Z.of_nat n -> mp_ok m (KERNBASE + a + 16 * (Z.of_nat b + k)) = false)) as G.
  { induction n as [|n IH]; intros b; [right; split; [done | lia]|]. cbn [seq map find].
    destruct (mp_ok m (KERNBASE + a + 16 * Z.of_nat b)) eqn:Eb.
    - left. exists 0. rewrite Z.add_0_r. split_and!; try done; lia.
    - destruct (IH (S b)) as [(k & Hk & E1 & E2 & E3)|[E1 E2]].
      + left. exists (k + 1). rewrite E1. replace (Z.of_nat (S b) + k) with (Z.of_nat b + (k + 1)) in * by lia.
        split_and!; try done; try lia. intros j Hj. destruct (decide (j = 0)) as [->|Hne]; [by rewrite Z.add_0_r|].
        specialize (E3 (j - 1) ltac:(lia)). by replace (Z.of_nat b + j) with (Z.of_nat (S b) + (j - 1)) by lia.
      + right. split; [done|]. intros k Hk. destruct (decide (k = 0)) as [->|Hne]; [by rewrite Z.add_0_r|].
        specialize (E2 (k - 1) ltac:(lia)). by replace (Z.of_nat b + k) with (Z.of_nat (S b) + (k - 1)) by lia. }
  exact (G 0%nat).
Qed.

(** ** The configuration table *)

(** The entries of the multiprocessor specification that mp.c knows. *)
Inductive mpentry : Type := EProc (apicid : Z) | EBus | EIoapic (apicno : Z) | EIointr | ELintr.
Definition esize (e : mpentry) : Z := match e with EProc _ => 20 | _ => 8 end.
Definition entry_at (m : mem) (p : Z) (e : mpentry) : Prop :=
  match e with
  | EProc id => m p = MPPROC /\ m (p + 1) = id
  | EBus => m p = MPBUS
  | EIoapic id => m p = MPIOAPIC /\ m (p + 1) = id
  | EIointr => m p = MPIOINTR
  | ELintr => m p = MPLINTR
  end.
Fixpoint entries_at (m : mem) (p : Z) (es : list mpentry) : Prop :=
  match es with
  | [] => True
  | e :: es' => entry_at m p e /\ entries_at m (p + esize e) es'
  end.
Definition size (es : list mpentry) : Z := foldr (fun e n => esize e + n) 0 es.

(** What the table describes: the processors, of which the first [NCPU] are used, and the last
    I/O APIC. *)
Definition add_entry (s : mpst) (e : mpentry) : mpst :=
  match e with
  | EProc id => if mp_ncpu s <? NCPU then set_mp_cpu id s else s
  | EIoapic id => set_mp_ioapicid id s
  | _ => s
  end.
Definition procs (es : list mpentry) : list Z := omap (fun e => match e with EProc id => Some id | _ => None end) es.
Definition ioapics (es : list mpentry) : list Z := omap (fun e => match e with EIoapic id => Some id | _ => None end) es.

Lemma size_nonneg es : 0 <= size es.
Proof. induction es as [|e es IH]; simpl; [lia|]. destruct e; simpl; lia. Qed.

(** One known entry. *)
Lemma mpinit_step_entry m lim p e ismp s : entry_at m p e -> p < lim -> 0 <= p -> p + esize e < 4294967296 ->
  mpinit_step m lim (p, ismp) s = Ret (inl (p + esize e, ismp)) (add_entry s e).
Proof.
  intros He Hp H0 H1. unfold mpinit_step. rewrite (proj2 (Z.ltb_lt p lim)) by done. cbn [negb].
  destruct e; simpl in He, H1; [destruct He as [-> <-] | rewrite He | destruct He as [-> <-] | rewrite He | rewrite He]; cbn.
  - unfold MPPROC_SIZE. rewrite u32_small by lia. by destruct (mp_ncpu s <? NCPU).
  - by rewrite u32_small by lia.
  - unfold MPIOAPIC_SIZE. by rewrite u32_small by lia.
  - by rewrite u32_small by lia.
  - by rewrite u32_small by lia.
Qed.

(** The walk over a table of known entries ends at its end. *)
Lemma mpinit_walk m lim es : forall fuel p ismp s, entries_at m p es -> p + size es = lim -> 0 <= p -> lim < 4294967296 ->
  (length es < fuel)%nat -> loop fuel (mpinit_step m lim) (p, ismp) s = Ret ismp (fold_left add_entry es s).
Proof.
  induction es as [|e es IH]; intros fuel p ismp s He Hs H0 H1 Hf; (destruct fuel as [|fuel]; [simpl in Hf; lia|]); cbn [loop].
  - unfold size in Hs. simpl in Hs. assert (mpinit_step m lim (p, ismp) s = Ret (inr ismp) s) as E.
    { unfold mpinit_step. by rewrite (proj2 (Z.ltb_ge p lim)) by lia. }
    rewrite (bind_Ret _ _ _ _ _ E). done.
  - destruct He as [He Hes]. cbn [size foldr] in Hs. fold (size es) in Hs. pose proof (size_nonneg es).
    assert (8 <= esize e) by (destruct e; simpl; lia).
    rewrite (bind_Ret _ _ _ _ _ (mpinit_step_entry m lim p e ismp s He ltac:(lia) H0 ltac:(lia))).
    apply IH; [done | lia | lia | done | simpl in Hf; lia].
Qed.

(** [cpus] holds the processors [l]. *)
Record has_cpus (s : mpst) (l : list Z) : Prop := {
  hc_len : (length l <= 8)%nat;
  hc_ncpu : mp_ncpu s = zlen l;
  hc_ids : mp_apicid s = l ++ replicate (8 - length l) 0
}.

Lemma has_cpus_add s l id : has_cpus s l -> has_cpus (add_entry s (EProc id)) (take 8 (l ++ [id])).
Proof.
  intros [Hl Hn Hi]. unfold zlen in Hn. cbn [add_entry]. unfold NCPU. destruct (Z.ltb_spec (mp_ncpu s) 8) as [Hlt|Hge].
  - rewrite take_ge by (rewrite length_app; simpl; lia). split; rewrite ?length_app; simpl; [lia | rewrite Hn; unfold zlen; rewrite length_app; simpl; lia|].
    rewrite Hn, Nat2Z.id, Hi. replace (8 - length l)%nat with (S (8 - (length l + 1)))%nat by lia. cbn [replicate].
    rewrite insert_app_r_alt, Nat.sub_diag by lia. cbn. by rewrite <- app_assoc.
  - rewrite take_app_le, take_ge by lia. by split.
Qed.

Lemma take_take_app (n : nat) (a b : list Z) : take n (take n a ++ b) = take n (a ++ b).
Proof.
  destruct (le_lt_dec (length a) n); [by rewrite (take_ge a) by lia|].
  rewrite !take_app_le by (rewrite ?length_take; lia). rewrite take_take. by rewrite Nat.min_id.
Qed.

(** What the entries leave in the variables. *)
Lemma add_entries es : forall s l, has_cpus s l -> exists s', fold_left add_entry es s = s' /\
  has_cpus s' (take 8 (l ++ procs es)) /\ mp_ioapicid s' = default (mp_ioapicid s) (last (ioapics es)) /\
  mp_lapic s' = mp_lapic s /\ mp_out s' = mp_out s.
Proof.
  induction es as [|e es IH]; intros s l Hl; cbn [fold_left].
  - exists s. rewrite app_nil_r, take_ge by apply Hl. done.
  - assert (has_cpus (add_entry s e) (take 8 (l ++ procs [e])) /\ mp_ioapicid (add_entry s e) = default (mp_ioapicid s) (last (ioapics [e])) /\
      mp_lapic (add_entry s e) = mp_lapic s /\ mp_out (add_entry s e) = mp_out s) as (A1 & A2 & A3 & A4).
    { destruct e as [id| |id| |]; cbn [add_entry]; [split; [exact (has_cpus_add s l id Hl) | by destruct (_ <? _)] | | | |];
        cbn [procs omap list_omap]; rewrite app_nil_r, take_ge by apply Hl; (split; [|done]); destruct Hl; by split. }
    destruct (IH _ _ A1) as (s' & -> & B1 & B2 & B3 & B4). exists s'. split_and!; try congruence.
    + rewrite take_take_app, <- app_assoc in B1. by destruct e.
    + rewrite B2, A2. destruct e as [|  |id| |]; try done. change (ioapics (EIoapic id :: es)) with (id :: ioapics es).
      rewrite last_cons. by destruct (last (ioapics es)).
Qed.

Lemma mpconfig_range m mp conf : mpconfig m = Some (mp, conf) -> 0 <= conf < 4294967296.
Proof.
  unfold mpconfig. destruct (_ || _); [done|]. do 3 (destruct (_ : bool); [done|]). intros [= <- <-]. unfold P2V. apply u32_range.
Qed.

Lemma mpst0_cpus : has_cpus mpst0 [].
Proof. by split; simpl; [lia | |]. Qed.

(** C29: processor discovery.  On a configuration table that passed the checks and is made of
    entries of the specification, [mpinit] ends with [cpus] holding the local APIC numbers
    of the processors listed, in order, at most [NCPU] of them; with the last I/O APIC of
    the table; and with the address of the local APIC from its header. *)
Theorem mpinit_correct m imcr mp conf es fuel :
  mpconfig m = Some (mp, conf) -> entries_at m (conf + MPCONF_SIZE) es ->
  MPCONF_SIZE + size es = conf_length m conf -> conf + conf_length m conf < 4294967296 -> (length es < fuel)%nat ->
  exists s', mpinit fuel m imcr mpst0 = Ret tt s' /\
    mp_ncpu s' = Z.min NCPU (zlen (procs es)) /\
    take (Z.to_nat (mp_ncpu s')) (mp_apicid s') = take 8 (procs es) /\
    mp_ioapicid s' = default 0 (last (ioapics es)) /\ mp_lapic s' = conf_lapicaddr m conf /\
    mp_out s' = if mp_imcrp m mp =? 0 then [] else [(34, 112); (35, u8 (Z.lor imcr 1))].
Proof.
  intros Hc He Hs Hl Hf. pose proof (mpconfig_range _ _ _ Hc) as Hr. pose proof (size_nonneg es). unfold MPCONF_SIZE in *.
  unfold mpinit. rewrite Hc, bind_modify. unfold MPCONF_SIZE. rewrite !u32_small by lia.
  rewrite (bind_Ret _ _ _ _ _ (mpinit_walk m (conf + conf_length m conf) es fuel (conf + 44) true _ He ltac:(lia) ltac:(lia) Hl Hf)). cbn [negb].
  destruct (add_entries es (set_mp_lapic (conf_lapicaddr m conf) mpst0) []) as (s1 & -> & [A1 A2 A3] & B2 & B3 & B4).
  { destruct mpst0_cpus. by split. }
  cbn [app] in *. unfold NCPU, zlen in *. rewrite length_take in *.
  exists (if mp_imcrp m mp =? 0 then s1 else add_mp_out [(34, 112); (35, u8 (Z.lor imcr 1))] s1).
  split; [by destruct (_ =? 0)|]. assert (Z.to_nat (mp_ncpu s1) = length (take 8 (procs es))) as Hn by (rewrite A2, Nat2Z.id, length_take; done).
  destruct (mp_imcrp m mp =? 0); cbn [mp_ncpu mp_apicid mp_ioapicid mp_lapic mp_out add_mp_out].
  all: rewrite Hn, A3, take_app_length; rewrite A2, B2, B3, B4; split_and!; done || lia.
Qed.

(** An entry of an unknown type is not passed over: the loop never ends, and the panic meant
    for it is never reached. *)
Theorem mpinit_unknown_entry m imcr mp conf es fuel s :
  mpconfig m = Some (mp, conf) -> entries_at m (conf + MPCONF_SIZE) es ->
  MPCONF_SIZE + size es < conf_length m conf -> conf + conf_length m conf < 4294967296 ->
  4 < m (conf + MPCONF_SIZE + size es) -> mpinit fuel m imcr s = OutOfFuel.
Proof.
  intros Hc He Hs Hl Hm. pose proof (mpconfig_range _ _ _ Hc) as Hr. pose proof (size_nonneg es) as Hz. unfold MPCONF_SIZE in *.
  unfold mpinit. rewrite Hc, bind_modify. unfold MPCONF_SIZE. rewrite !u32_small by lia.
  set (lim := conf + conf_length m conf) in *.
  assert (forall fuel p ismp s, m p > 4 -> p < lim -> loop fuel (mpinit_step m lim) (p, ismp) s = OutOfFuel) as Hstuck.
  { clear. intros fuel p ismp s Hm Hp. revert ismp. induction fuel as [|fuel IH]; intros ismp; [done|]. cbn [loop].
    assert (mpinit_step m lim (p, ismp) s = Ret (inl (p, false)) s) as E.
    { unfold mpinit_step. rewrite (proj2 (Z.ltb_lt p lim)) by done. cbn [negb]. unfold MPPROC, MPIOAPIC, MPBUS, MPIOINTR, MPLINTR.
      by rewrite !(proj2 (Z.eqb_neq (m p) _)) by lia. }
    rewrite (bind_Ret _ _ _ _ _ E). apply IH. }
  assert (forall es fuel p ismp s, entries_at m p es -> 0 <= p -> p + size es < lim -> 4 < m (p + size es) ->
    loop fuel (mpinit_step m lim) (p, ismp) s = OutOfFuel) as Hwalk.
  { clear -Hstuck Hl. induction es as [|e es IH]; intros fuel p ismp s He H0 Hp Hm.
    - cbn in *. rewrite Z.add_0_r in *. apply Hstuck; lia.
    - destruct fuel as [|fuel]; [done|]. cbn [loop]. destruct He as [He Hes]. cbn [size foldr] in *. fold (size es) in *.
      pose proof (size_nonneg es). assert (8 <= esize e) by (destruct e; simpl; lia).
      rewrite (bind_Ret _ _ _ _ _ (mpinit_step_entry m lim p e ismp s He ltac:(lia) H0 ltac:(lia))).
      apply IH; [done | lia | lia | by replace (p + esize e + size es) with (p + (esize e + size es)) by lia]. }
  unfold bind at 1. rewrite (Hwalk es); done || lia.
Qed.

(** ** Example: a table of one processor and one I/O APIC *)

Definition demo_fp : list Z := [95; 77; 80; 95; 0; 16; 15; 0; 1; 4; 129; 0; 0; 0; 0; 0].
Definition demo_conf : list Z :=
  [80; 67; 77; 80; 72; 0; 4; 150] ++ replicate 28 0 ++ [0; 0; 224; 254; 0; 0; 0; 0] ++ [0; 5] ++ replicate 18 0 ++ [2; 9; 0; 0; 0; 0; 0; 0].
Definition demo_mp : mem := fun a =>
  if (KERNBASE + 983040 <=? a) && (a <? KERNBASE + 983056) then lget demo_fp (a - (KERNBASE + 983040))
  else if (KERNBASE + 987136 <=? a) && (a <? KERNBASE + 987136 + 72) then lget demo_conf (a - (KERNBASE + 987136))
  else 0.

Lemma mpinit_correct_witness : exists s', mpinit 3 demo_mp 0 mpst0 = Ret tt s' /\ mp_ncpu s' = 1 /\ mp_ioapicid s' = 9.
Proof.
  destruct (mpinit_correct demo_mp 0 (KERNBASE + 983040) (KERNBASE + 987136) [EProc 5; EIoapic 9] 3) as (s' & E & H1 & _ & H2 & _).
  - vm_compute. reflexivity.
  - vm_compute. split_and!; reflexivity.
  - vm_compute. reflexivity.
  - vm_compute. reflexivity.
  - simpl. lia.
  - exists s'. split; [exact E|]. split; [exact H1 | exact H2].
Defined.
