(* ===== verification/Apic.v ===== *)
(** * Interrupt controllers

    lapic.c, ioapic.c and picirq.c: what the kernel writes to the registers of the local APIC,
    the I/O APIC and the legacy controllers, what the controllers then do with a device's
    line, and that [trap] runs the handler of the device.  Also [cmostime].

    Registers are functions of their index.  What the hardware answers when it is read - the
    version of the local APIC, its delivery status, the clock - is an argument. *)

From S2P Require Import Prelude Monad KState Proc Console Trap Mp.

Local Open Scope kernel_scope.

(** ** lapic.c *)

(** Register indices: the offsets divided by 4. *)
Definition ID : Z := 8.
Definition TPR : Z := 32.
Definition EOI : Z := 44.
Definition SVR : Z := 60.
Definition ESR : Z := 160.
Definition ICRLO : Z := 192.
Definition ICRHI : Z := 196.
Definition TIMER : Z := 200.
Definition PCINT : Z := 208.
Definition LINT0 : Z := 212.
Definition LINT1 : Z := 216.
Definition ERROR : Z := 220.
Definition TICR : Z := 224.
Definition TDCR : Z := 248.
Definition ENABLE : Z := 256.
Definition INIT : Z := 1280.
Definition STARTUP : Z := 1536.
Definition DELIVS : Z := 4096.
Definition ASSERT : Z := 16384.
Definition LEVEL : Z := 32768.
Definition BCAST : Z := 524288.
Definition X1 : Z := 11.
Definition PERIODIC : Z := 131072.
Definition MASKED : Z := 65536.
Definition IRQ_ERROR : Z := 19.

(** The controllers' registers: the local APIC's, in the order of writing and by index; the
    I/O APIC's selector and registers; the bytes written to ports. *)
Record ctl : Type := mkCtl {
  l_log : list (Z * Z);
  l_reg : Z -> Z;
  io_sel : Z;
  io_reg : Z -> Z;
  ports : list (Z * Z)
}.

Definition setz (f : Z -> Z) (i v : Z) : Z -> Z := fun x => if x =? i then v else f x.

Definition lapicw (index value : Z) (c : ctl) : ctl :=
  mkCtl (l_log c ++ [(index, u32 value)]) (setz (l_reg c) index (u32 value)) (io_sel c) (io_reg c) (ports c).

Definition outb (port data : Z) (c : ctl) : ctl :=
  mkCtl (l_log c) (l_reg c) (io_sel c) (io_reg c) (ports c ++ [(port, u8 data)]).

(** The poll of the delivery status; [icr i] is the register as the [i]-th poll reads it. *)
Fixpoint wait_delivered (fuel : nat) (icr : nat -> Z) (i : nat) : bool :=
  match fuel with
  | O => false
  | S n => if Z.land (icr i) DELIVS =? 0 then true else wait_delivered n icr (S i)
  end.

(** [lapicinit]: [lapic] is its address, [ver] the version register; [None] if the poll does
    not end within [fuel]. *)
Definition lapicinit (fuel : nat) (lapic ver : Z) (icr : nat -> Z) (c : ctl) : option ctl :=
  if lapic =? 0 then Some c else
  let c := lapicw SVR (Z.lor ENABLE (T_IRQ0 + IRQ_SPURIOUS)) c in
  let c := lapicw TDCR X1 c in
  let c := lapicw TIMER (Z.lor PERIODIC (T_IRQ0 + IRQ_TIMER)) c in
  let c := lapicw TICR 10000000 c in
  let c := lapicw LINT0 MASKED c in
  let c := lapicw LINT1 MASKED c in
  let c := if 4 <=? Z.land (Z.shiftr ver 16) 255 then lapicw PCINT MASKED c else c in
  let c := lapicw ERROR (T_IRQ0 + IRQ_ERROR) c in
  let c := lapicw ESR 0 (lapicw ESR 0 c) in
  let c := lapicw EOI 0 c in
  let c := lapicw ICRHI 0 c in
  let c := lapicw ICRLO (Z.lor (Z.lor BCAST INIT) LEVEL) c in
  if wait_delivered fuel icr 0 then Some (lapicw TPR 0 c) else None.

(** [lapicid]: [id] is the register [lapic[ID]]. *)
Definition lapicid (lapic id : Z) : Z := if lapic =? 0 then 0 else Z.shiftr id 24.

Definition lapiceoi (lapic : Z) (c : ctl) : ctl := if lapic =? 0 then c else lapicw EOI 0 c.

(** [lapicstartap]: the warm reset vector in memory, and the interrupts to the other CPU. *)
Definition CMOS_PORT : Z := 112.
Definition wrv : Z := P2V (Z.lor (Z.shiftl 64 4) 103).
Definition startap_mem (addr : Z) (m : mem) : mem :=
  let m := st8 (st8 m wrv 0) (wrv + 1) 0 in
  st8 (st8 m (wrv + 2) (Z.shiftr addr 4)) (wrv + 3) (Z.shiftr addr 4 / 256).
Definition lapicstartap (apicid addr : Z) (c : ctl) : ctl :=
  let c := outb (CMOS_PORT + 1) 10 (outb CMOS_PORT 15 c) in
  let c := lapicw ICRHI (Z.shiftl apicid 24) c in
  let c := lapicw ICRLO (Z.lor (Z.lor INIT LEVEL) ASSERT) c in
  let c := lapicw ICRLO (Z.lor INIT LEVEL) c in
  fold_left (fun c (_ : nat) => lapicw ICRLO (Z.lor STARTUP (Z.shiftr addr 12)) (lapicw ICRHI (Z.shiftl apicid 24) c)) (seq 0 2) c.

(** ** ioapic.c *)

Definition REG_ID : Z := 0.
Definition REG_VER : Z := 1.
Definition REG_TABLE : Z := 16.
Definition INT_DISABLED : Z := 65536.

Definition ioapicread (reg : Z) (c : ctl) : Z * ctl :=
  (io_reg c reg, mkCtl (l_log c) (l_reg c) reg (io_reg c) (ports c)).
Definition ioapicwrite (reg data : Z) (c : ctl) : ctl :=
  mkCtl (l_log c) (l_reg c) reg (setz (io_reg c) reg (u32 data)) (ports c).

(** The body of the loop of [ioapicinit]. *)
Definition disable_line (c : ctl) (i : Z) : ctl :=
  ioapicwrite (REG_TABLE + 2 * i + 1) 0 (ioapicwrite (REG_TABLE + 2 * i) (Z.lor INT_DISABLED (T_IRQ0 + i)) c).

(** [ioapicinit], and whether it warns that the number is not the one mp.c found. *)
Definition ioapicinit (ioapicid : Z) (c : ctl) : bool * ctl :=
  let '(v, c) := ioapicread REG_VER c in
  let maxintr := Z.land (Z.shiftr v 16) 255 in
  let '(i, c) := ioapicread REG_ID c in
  (negb (Z.shiftr i 24 =? ioapicid),
   fold_left disable_line (map Z.of_nat (seq 0 (Z.to_nat (maxintr + 1)))) c).

Definition ioapicenable (irq cpunum : Z) (c : ctl) : ctl :=
  ioapicwrite (REG_TABLE + 2 * irq + 1) (Z.shiftl cpunum 24) (ioapicwrite (REG_TABLE + 2 * irq) (T_IRQ0 + irq) c).

(** ** picirq.c *)

Definition IO_PIC1 : Z := 32.
Definition IO_PIC2 : Z := 160.
Definition picinit (c : ctl) : ctl := outb (IO_PIC2 + 1) 255 (outb (IO_PIC1 + 1) 255 c).

(** The order of [main]: [lapicinit], [picinit], [ioapicinit], and the lines enabled by
    [consoleinit], [uartinit] and [ideinit], on a machine with a serial port and a disk. *)
Definition boot_irqs (fuel : nat) (lapic ver : Z) (icr : nat -> Z) (ioapicid ncpu : Z) (c : ctl) : option ctl :=
  match lapicinit fuel lapic ver icr c with
  | None => None
  | Some c => Some (ioapicenable IRQ_IDE (ncpu - 1) (ioapicenable IRQ_COM1 0 (ioapicenable IRQ_KBD 0 (ioapicinit ioapicid (picinit c)).2)))
  end.

(** ** What the controllers do *)

(** The vector a local source raises, unless it is masked. *)
Definition local_vector (c : ctl) (reg : Z) : option Z :=
  if Z.testbit (l_reg c reg) 16 then None else Some (Z.land (l_reg c reg) 255).

(** The vector a line raises and the local APIC it is sent to. *)
Definition line_vector (c : ctl) (irq : Z) : option (Z * Z) :=
  let lo := io_reg c (REG_TABLE + 2 * irq) in
  if Z.testbit lo 16 then None else Some (Z.land lo 255, Z.shiftr (io_reg c (REG_TABLE + 2 * irq + 1)) 24).

(** The number of the last line of the I/O APIC. *)
Definition maxintr (c : ctl) : Z := Z.land (Z.shiftr (io_reg c REG_VER) 16) 255.

Lemma setz_eq f i v : setz f i v i = v.
Proof. unfold setz. by rewrite Z.eqb_refl. Qed.
Lemma setz_ne f i v x : x <> i -> setz f i v x = f x.
Proof. intros H. unfold setz. by rewrite (proj2 (Z.eqb_neq x i)). Qed.

Lemma bit16_small x : 0 <= x < 65536 -> Z.testbit x 16 = false.
Proof. intros H. rewrite Z.testbit_odd, Z.shiftr_div_pow2 by lia. change (2 ^ 16) with 65536. by rewrite Z.div_small. Qed.

(** An enabled line raises its vector at the CPU it is routed to; the other lines are as they
    were. *)
Lemma ioapicenable_line irq cpu c i : 0 <= irq < 200 -> 0 <= cpu < 256 ->
  line_vector (ioapicenable irq cpu c) i = if i =? irq then Some (T_IRQ0 + irq, cpu) else line_vector c i.
Proof.
  intros Hi Hc. unfold line_vector, ioapicenable, ioapicwrite, REG_TABLE, T_IRQ0. cbn [io_reg].
  destruct (Z.eqb_spec i irq) as [->|Hne]; [|by rewrite !setz_ne by lia].
  rewrite setz_eq, setz_ne, setz_eq by lia. rewrite (u32_small (32 + irq)), bit16_small by lia. rewrite Z.shiftl_mul_pow2 by lia.
  change 255 with (Z.ones 8). rewrite Z.land_ones, Z.shiftr_div_pow2 by lia. change (2 ^ 24) with 16777216. change (2 ^ 8) with 256.
  rewrite u32_small by lia. do 2 f_equal; zlia.
Qed.

Lemma disable_line_line c j i : 0 <= j < 256 -> line_vector (disable_line c j) i = if i =? j then None else line_vector c i.
Proof.
  intros Hj. unfold line_vector, disable_line, ioapicwrite, REG_TABLE, T_IRQ0, INT_DISABLED. cbn [io_reg].
  destruct (Z.eqb_spec i j) as [->|Hne]; [|by rewrite !setz_ne by lia].
  rewrite setz_ne, setz_eq by lia. rewrite u32_small.
  - by rewrite Z.lor_spec.
  - split; [apply Z.lor_nonneg; lia|]. apply Z.log2_lt_cancel. rewrite Z.log2_lor by lia.
    apply Z.max_lub_lt; [done|]. apply Z.log2_lt_pow2; [lia|]. simpl. lia.
Qed.

Lemma disable_lines l : forall c i, Forall (fun j => 0 <= j < 256) l ->
  line_vector (fold_left disable_line l c) i = if bool_decide (i ∈ l) then None else line_vector c i.
Proof.
  induction l as [|j l IH]; intros c i Hl; [done|]. apply Forall_cons in Hl as [Hj Hl]. cbn [fold_left]. rewrite IH by done.
  rewrite disable_line_line by done. destruct (bool_decide_reflect (i ∈ l)) as [Hi|Hi].
  - by rewrite bool_decide_eq_true_2 by (by right).
  - destruct (Z.eqb_spec i j) as [->|Hne]; [by rewrite bool_decide_eq_true_2 by left|].
    rewrite bool_decide_eq_false_2; [done|]. by intros [->|]%elem_of_cons.
Qed.

(** After [ioapicinit] every line is silent. *)
Lemma ioapicinit_lines ioapicid c i : 0 <= i <= maxintr c -> line_vector (ioapicinit ioapicid c).2 i = None.
Proof.
  intros Hi. unfold ioapicinit. cbn [ioapicread snd]. fold (maxintr c).
  assert (0 <= maxintr c < 256) as Hm.
  { unfold maxintr. change 255 with (Z.ones 8). rewrite Z.land_ones by lia. by apply Z.mod_pos_bound. }
  rewrite disable_lines.
  - rewrite bool_decide_eq_true_2; [done|]. apply list_elem_of_fmap. exists (Z.to_nat i). rewrite Z2Nat.id by lia.
    split; [done|]. apply elem_of_seq. lia.
  - apply Forall_fmap, Forall_forall. intros k Hk%elem_of_seq. simpl. lia.
Qed.

(** The interrupts of a booted machine: the clock, the keyboard, the serial line and the disk
    raise their vectors, at the CPUs the kernel chose; nothing else raises any. *)
Record routed (c : ctl) (ncpu last : Z) : Prop := {
  rt_timer : local_vector c TIMER = Some (T_IRQ0 + IRQ_TIMER) /\ Z.testbit (l_reg c TIMER) 17 = true;
  rt_lint : local_vector c LINT0 = None /\ local_vector c LINT1 = None;
  rt_spurious : Z.land (l_reg c SVR) 255 = T_IRQ0 + IRQ_SPURIOUS;
  rt_lines : forall i, 0 <= i <= last -> line_vector c i =
    if i =? IRQ_KBD then Some (T_IRQ0 + IRQ_KBD, 0) else if i =? IRQ_COM1 then Some (T_IRQ0 + IRQ_COM1, 0)
    else if i =? IRQ_IDE then Some (T_IRQ0 + IRQ_IDE, ncpu - 1) else None;
  rt_pics : (IO_PIC1 + 1, 255) ∈ ports c /\ (IO_PIC2 + 1, 255) ∈ ports c
}.

(** What [lapicinit] leaves in the registers that matter here. *)
Lemma lapicinit_regs fuel lapic ver icr c : lapic <> 0 -> wait_delivered fuel icr 0 = true ->
  exists c', lapicinit fuel lapic ver icr c = Some c' /\ io_reg c' = io_reg c /\ ports c' = ports c /\
    l_reg c' TIMER = Z.lor PERIODIC 32 /\ l_reg c' LINT0 = MASKED /\ l_reg c' LINT1 = MASKED /\ l_reg c' SVR = Z.lor ENABLE 63.
Proof.
  intros Hl Hw. unfold lapicinit. rewrite (proj2 (Z.eqb_neq lapic 0) Hl), Hw. eexists. split; [reflexivity|].
  destruct (4 <=? _); repeat split; reflexivity.
Qed.

Lemma ioapicinit_frame ioapicid c : l_reg (ioapicinit ioapicid c).2 = l_reg c /\ ports (ioapicinit ioapicid c).2 = ports c.
Proof.
  unfold ioapicinit. cbn [ioapicread snd]. generalize (map Z.of_nat (seq 0 (Z.to_nat (Z.land (Z.shiftr (io_reg c REG_VER) 16) 255 + 1)))).
  intros l. assert (forall l c, l_reg (fold_left disable_line l c) = l_reg c /\ ports (fold_left disable_line l c) = ports c) as F.
  { clear. induction l as [|j l IH]; intros c; [done|]. cbn [fold_left]. by destruct (IH (disable_line c j)) as [-> ->]. }
  exact (F l _).
Qed.

(** C30: interrupts reach their handlers.  After [main] has set the controllers up, the clock
    interrupts every CPU periodically and the keyboard, serial and disk lines interrupt the
    CPUs they were enabled for; every other line is disabled, the masks of the legacy
    controllers are written with all ones; and for the vector of each source [trap] calls that
    source's handler. *)
Theorem interrupts_routed fuel lapic ver icr ioapicid ncpu c h tf :
  lapic <> 0 -> wait_delivered fuel icr 0 = true -> 1 <= ncpu <= NCPU ->
  exists c', boot_irqs fuel lapic ver icr ioapicid ncpu c = Some c' /\ routed c' ncpu (maxintr c) /\
    trap_dispatch h tf (T_IRQ0 + IRQ_TIMER) = trap_timer h /\
    trap_dispatch h tf (T_IRQ0 + IRQ_KBD) = (_ <- Cons.kbdintr (hw_shift h) (hw_scans h) ;; ret tt) /\
    trap_dispatch h tf (T_IRQ0 + IRQ_COM1) = Cons.uartintr (hw_rx h) /\
    trap_dispatch h tf (T_IRQ0 + IRQ_IDE) = ideintr.
Proof.
  intros Hl Hw Hn. unfold NCPU in Hn. unfold boot_irqs.
  destruct (lapicinit_regs fuel lapic ver icr c Hl Hw) as (c1 & -> & R1 & R2 & R3 & R4 & R5 & R6).
  destruct (ioapicinit_frame ioapicid (picinit c1)) as [F1 F2]. set (c2 := (ioapicinit ioapicid (picinit c1)).2) in *.
  eexists. split; [reflexivity|]. split; [|done].
  assert (forall c irq cpu, l_reg (ioapicenable irq cpu c) = l_reg c /\ ports (ioapicenable irq cpu c) = ports c) as G by done.
  split.
  - unfold local_vector. cbn [l_reg ioapicenable ioapicwrite]. rewrite F1. cbn [l_reg picinit outb]. by rewrite R3.
  - unfold local_vector. cbn [l_reg ioapicenable ioapicwrite]. rewrite F1. cbn [l_reg picinit outb]. by rewrite R4, R5.
  - cbn [l_reg ioapicenable ioapicwrite]. rewrite F1. cbn [l_reg picinit outb]. by rewrite R6.
  - intros i Hi. rewrite !ioapicenable_line by (unfold IRQ_IDE, IRQ_COM1, IRQ_KBD; lia).
    unfold c2. rewrite ioapicinit_lines by (unfold maxintr in *; cbn [io_reg picinit outb]; by rewrite R1).
    unfold IRQ_IDE, IRQ_COM1, IRQ_KBD. by destruct (Z.eqb_spec i 14), (Z.eqb_spec i 4), (Z.eqb_spec i 1); try lia.
  - cbn [ports ioapicenable ioapicwrite]. rewrite F2. cbn [ports picinit outb]. rewrite R2, !elem_of_app.
    split; [left; right; by left | right; by left].
Qed.

Lemma interrupts_routed_witness : exists c',
  boot_irqs 2 4276092928 0 (fun i => match i with O => 4096 | _ => 0 end) 0 1 (mkCtl [] (fun _ => 0) 0 (fun r => if r =? 1 then 1507328 else 0) []) = Some c' /\
  line_vector c' 1 = Some (33, 0) /\ line_vector c' 5 = None.
Proof.
  destruct (interrupts_routed 2 4276092928 0 (fun i => match i with O => 4096 | _ => 0 end) 0 1
    (mkCtl [] (fun _ => 0) 0 (fun r => if r =? 1 then 1507328 else 0) []) (mkHw 0 0 0 [] []) 0) as (c' & E & [_ _ _ R _] & _);
    [lia | reflexivity | unfold NCPU; lia|].
  exists c'. split; [exact E|]. split; apply R; vm_compute; split; congruence.
Defined.

(** ** cmostime *)

(** date.h *)
Record rtcdate : Type := mkDate { second : Z; minute : Z; hour : Z; day : Z; month : Z; year : Z }.
#[export] Instance rtcdate_eq_dec : EqDecision rtcdate.
Proof. solve_decision. Defined.

(** The CMOS clock: what the [t]-th read gives for a register. *)
Section clock.
Context (clk : nat -> Z -> Z).

Definition cmos_read (reg : Z) : M nat Z := t <- gets (fun t => t) ;; modify S ;; ret (u8 (clk t reg)).

Definition fill_rtcdate : M nat rtcdate :=
  s <- cmos_read 0 ;; mi <- cmos_read 2 ;; h <- cmos_read 4 ;; d <- cmos_read 7 ;; mo <- cmos_read 8 ;; y <- cmos_read 9 ;;
  ret (mkDate s mi h d mo y).

(** The macro [CONV]. *)
Definition conv (x : Z) : Z := Z.shiftr x 4 * 10 + Z.land x 15.

Definition cmostime (fuel : nat) : M nat rtcdate :=
  sb <- cmos_read 11 ;;
  let bcd := Z.land sb 4 =? 0 in
  t1 <- loop fuel (fun _ : unit =>
    t1 <- fill_rtcdate ;;
    a <- cmos_read 10 ;;
    if negb (Z.land a 128 =? 0) then ret (inl tt) else
    t2 <- fill_rtcdate ;;
    if t1 ==? t2 then ret (inr t1) else ret (inl tt)) tt ;;
  let t1 := if bcd then mkDate (conv (second t1)) (conv (minute t1)) (conv (hour t1)) (conv (day t1)) (conv (month t1)) (conv (year t1))
            else t1 in
  ret (mkDate (second t1) (minute t1) (hour t1) (day t1) (month t1) (year t1 + 2000)).

(** Binary-coded decimal. *)
Definition bcd (x : Z) : Z := x / 10 * 16 + x mod 10.

Lemma conv_bcd x : 0 <= x < 100 -> conv (bcd x) = x.
Proof.
  intros Hx. unfold conv, bcd. change 15 with (Z.ones 4). rewrite Z.land_ones, Z.shiftr_div_pow2 by lia. change (2 ^ 4) with 16. zlia.
Qed.

(** The clock shows the date [d] in BCD. *)
Definition shows (d : rtcdate) : Prop :=
  forall t, u8 (clk t 0) = second d /\ u8 (clk t 2) = minute d /\ u8 (clk t 4) = hour d /\
    u8 (clk t 7) = day d /\ u8 (clk t 8) = month d /\ u8 (clk t 9) = year d.

Lemma fill_eq d t : shows d -> fill_rtcdate t = Ret d (6 + t)%nat.
Proof.
  intros Hd. unfold fill_rtcdate, cmos_read, bind. cbn [obind gets modify ret].
  destruct (Hd t) as (-> & _), (Hd (S t)) as (_ & -> & _), (Hd (S (S t))) as (_ & _ & -> & _), (Hd (S (S (S t)))) as (_ & _ & _ & -> & _),
    (Hd (S (S (S (S t))))) as (_ & _ & _ & _ & -> & _), (Hd (S (S (S (S (S t)))))) as (_ & _ & _ & _ & _ & ->). by destruct d.
Qed.

Definition date_map (f : Z -> Z) (d : rtcdate) : rtcdate :=
  mkDate (f (second d)) (f (minute d)) (f (hour d)) (f (day d)) (f (month d)) (f (year d)).
Definition two_digits (d : rtcdate) : Prop :=
  Forall (fun x => 0 <= x < 100) [second d; minute d; hour d; day d; month d; year d].

(** The date [cmostime] reads from a clock in BCD mode that shows [d], however long an update
    is in progress before. *)
Theorem cmostime_reads d t0 n fuel :
  shows (date_map bcd d) -> (forall t, Z.land (u8 (clk t 11)) 4 = 0) ->
  (forall t, (Z.land (u8 (clk t 10)) 128 =? 0) = Nat.leb (t0 + 7 * n + 7) t) -> (n < fuel)%nat -> two_digits d ->
  cmostime fuel t0 = Ret (mkDate (second d) (minute d) (hour d) (day d) (month d) (year d + 2000)) (t0 + 7 * n + 14)%nat.
Proof.
  intros Hd Hb Hu Hf H2. unfold cmostime.
  rewrite (bind_Ret (cmos_read 11) _ t0 (u8 (clk t0 11)) (S t0)) by done. rewrite Hb. cbv zeta.
  set (body := fun _ : unit => _). change (0 =? 0) with true. cbv iota.
  assert (forall n s fuel, (n < fuel)%nat -> (forall t, (Z.land (u8 (clk t 10)) 128 =? 0) = Nat.leb (s + 7 * n + 6) t) ->
    loop fuel body tt s = Ret (date_map bcd d) (s + 7 * n + 13)%nat) as G.
  { clear -Hd. induction n as [|n IH]; intros s fuel Hf Hu; (destruct fuel as [|fuel]; [lia|]); cbn [loop].
    - assert (body tt s = Ret (inr (date_map bcd d)) (s + 7 * 0 + 13)%nat) as E; [|by rewrite (bind_Ret _ _ _ _ _ E)].
      unfold body. rewrite (bind_Ret _ _ _ _ _ (fill_eq _ s Hd)).
      rewrite (bind_Ret (cmos_read 10) _ (6 + s)%nat (u8 (clk (6 + s)%nat 10)) (7 + s)%nat) by done.
      rewrite Hu, (proj2 (Nat.leb_le _ _)) by lia. cbn [negb]. rewrite (bind_Ret _ _ _ _ _ (fill_eq _ _ Hd)).
      rewrite bool_decide_eq_true_2 by done. unfold ret. f_equal. lia.
    - assert (body tt s = Ret (inl tt) (7 + s)%nat) as E.
      { unfold body. rewrite (bind_Ret _ _ _ _ _ (fill_eq _ s Hd)).
        rewrite (bind_Ret (cmos_read 10) _ (6 + s)%nat (u8 (clk (6 + s)%nat 10)) (7 + s)%nat) by done.
        by rewrite Hu, (proj2 (Nat.leb_gt _ _)) by lia. }
      rewrite (bind_Ret _ _ _ _ _ E). rewrite (IH (7 + s)%nat fuel) by (lia || (intros t; rewrite Hu; f_equal; lia)). f_equal. lia. }
  rewrite (bind_Ret _ _ _ _ _ (G n (S t0) fuel Hf ltac:(intros t; rewrite Hu; f_equal; lia))).
  unfold date_map. cbn [second minute hour day month year]. unfold two_digits in H2. rewrite !Forall_cons in H2.
  destruct H2 as (? & ? & ? & ? & ? & ? & _). rewrite !conv_bcd by done. unfold ret. f_equal. lia.
Qed.
End clock.
