(* ===== verification/Boot.v ===== *)
(** * The boot loader

    bootmain.c, which reads the kernel's ELF image from the disk into physical memory.

    The disk answers a command for the sector its registers name; [img] is the kernel file,
    which starts at sector 1. *)

From S2P Require Import Prelude Monad CString KState Vm Exec.

Definition SECTSIZE : Z := 512.

Section loader.
Context (disk : Z -> Z -> Z).  (* byte [j] of sector [n] *)

(** The sector the disk's registers name: 28 bits in 0x1F3 to 0x1F6. *)
Definition lba (f3 f4 f5 f6 : Z) : Z := f3 + 256 * f4 + 65536 * f5 + 16777216 * Z.land f6 15.

(** [readsect]: the bytes at [dst]. *)
Definition readsect (dst offset : Z) (m : mem) : mem :=
  let n := lba (u8 offset) (u8 (Z.shiftr offset 8)) (u8 (Z.shiftr offset 16)) (u8 (Z.lor (Z.shiftr offset 24) 224)) in
  fun a => if (dst <=? a) && (a <? dst + SECTSIZE) then disk n (a - dst) else m a.

(** The loop of [readseg]: [n] sectors. *)
Fixpoint readsects (n : nat) (pa offset : Z) (m : mem) : mem :=
  match n with
  | O => m
  | S n' => readsects n' (u32 (pa + SECTSIZE)) (u32 (offset + 1)) (readsect pa offset m)
  end.

(** The number of turns of [for(; pa < epa; pa += SECTSIZE)]. *)
Definition turns (pa epa : Z) : nat := Z.to_nat ((epa - pa + SECTSIZE - 1) / SECTSIZE).

Definition readseg (pa count offset : Z) (m : mem) : mem :=
  let epa := u32 (pa + count) in
  let pa := u32 (pa - offset mod SECTSIZE) in
  readsects (turns pa epa) pa (offset / SECTSIZE + 1) m.

(** The headers in memory (elf.h). *)
Definition ELFBUF : Z := 65536.
Definition e_phnum (m : mem) : Z := m (ELFBUF + 44) + 256 * m (ELFBUF + 45).
Definition e_phoff (m : mem) : Z := ld32 m (ELFBUF + 28).
Definition e_entry (m : mem) : Z := ld32 m (ELFBUF + 24).
Definition p_off (m : mem) (ph : Z) : Z := ld32 m (ph + 4).
Definition p_paddr (m : mem) (ph : Z) : Z := ld32 m (ph + 12).
Definition p_filesz (m : mem) (ph : Z) : Z := ld32 m (ph + 16).
Definition p_memsz (m : mem) (ph : Z) : Z := ld32 m (ph + 20).

(** The body of the loop of [bootmain]. *)
Definition load_segment (m : mem) (ph : Z) : mem :=
  let pa := p_paddr m ph in
  let m' := readseg pa (p_filesz m ph) (p_off m ph) m in
  if p_filesz m' ph <? p_memsz m' ph then
    KString.stosb m' (u32 (pa + p_filesz m' ph)) 0 (Z.to_nat (p_memsz m' ph - p_filesz m' ph))
  else m'.

(** [bootmain]: memory, and the entry point it calls unless the image is no ELF file. *)
Definition bootmain (m : mem) : mem * option Z :=
  let m := readseg ELFBUF 4096 0 m in
  if negb (ld32 m ELFBUF =? ELF_MAGIC) then (m, None) else
  let ph := u32 (ELFBUF + e_phoff m) in
  let m' := fold_left load_segment (map (fun i => ph + PROGHDR * Z.of_nat i) (seq 0 (Z.to_nat (e_phnum m)))) m in
  (m', Some (e_entry m')).

(** ** Reading *)

Lemma lba_eq offset : 0 <= offset < 268435456 ->
  lba (u8 offset) (u8 (Z.shiftr offset 8)) (u8 (Z.shiftr offset 16)) (u8 (Z.lor (Z.shiftr offset 24) 224)) = offset.
Proof.
  intros H. unfold lba. rewrite !Z.shiftr_div_pow2 by lia. change (2 ^ 8) with 256. change (2 ^ 16) with 65536. change (2 ^ 24) with 16777216.
  assert (Z.land (u8 (Z.lor (offset / 16777216) 224)) 15 = offset / 16777216) as ->.
  { assert (0 <= offset / 16777216 < 16) as Hx by zlia. generalize dependent (offset / 16777216). intros x Hx.
    assert (exists k, x = Z.of_nat k /\ (k < 16)%nat) as (k & -> & Hk) by (exists (Z.to_nat x); lia).
    do 16 (destruct k as [|k]; [done|]). lia. }
  zlia.
Qed.

Lemma readsect_eq dst offset m a : 0 <= offset < 268435456 ->
  readsect dst offset m a = if (dst <=? a) && (a <? dst + 512) then disk offset (a - dst) else m a.
Proof. intros H. unfold readsect, SECTSIZE. by rewrite lba_eq. Qed.

Lemma readsects_eq n : forall pa offset m a, 0 <= pa -> pa + 512 * Z.of_nat n < 4294967296 -> 0 <= offset ->
  offset + Z.of_nat n < 268435456 ->
  readsects n pa offset m a =
  if (pa <=? a) && (a <? pa + 512 * Z.of_nat n) then disk (offset + (a - pa) / 512) ((a - pa) mod 512) else m a.
Proof.
  induction n as [|n IH]; intros pa offset m a H0 H1 H2 H3; cbn [readsects].
  - by destruct (Z.leb_spec pa a), (Z.ltb_spec a (pa + 512 * Z.of_nat 0)); try lia.
  - unfold SECTSIZE. rewrite (u32_small (pa + 512)), (u32_small (offset + 1)) by lia. rewrite IH, readsect_eq by lia.
    destruct (Z.leb_spec (pa + 512) a), (Z.ltb_spec a (pa + 512 + 512 * Z.of_nat n)), (Z.leb_spec pa a),
      (Z.ltb_spec a (pa + 512)), (Z.ltb_spec a (pa + 512 * Z.of_nat (S n))); cbn [andb]; try lia; try done.
    + f_equal; zlia.
    + f_equal; zlia.
Qed.

(** The kernel file on the disk. *)
Context (img : Z -> Z).
Definition holds_image : Prop := forall k j, 0 <= k -> 0 <= j < 512 -> disk (1 + k) j = img (512 * k + j).
Hypothesis Himg : holds_image.

(** The bytes [readseg] writes: whole sectors around the ones asked for. *)
Definition seg_lo (pa off : Z) : Z := pa - off mod 512.
Definition seg_hi (pa count off : Z) : Z := seg_lo pa off + 512 * ((count + off mod 512 + 511) / 512).

Lemma readseg_eq pa count off m a : 0 <= count -> 0 <= off -> off + count < 1073741824 -> off mod 512 <= pa -> pa + count + 512 < 4294967296 ->
  readseg pa count off m a = if (seg_lo pa off <=? a) && (a <? seg_hi pa count off) then img (off + (a - pa)) else m a.
Proof.
  intros H0 H1 H2 H3 H4. unfold readseg, turns, SECTSIZE. assert (0 <= off mod 512 < 512) by zlia.
  rewrite !u32_small by lia. fold (seg_lo pa off).
  replace ((pa + count - seg_lo pa off + 512 - 1) / 512) with ((count + off mod 512 + 511) / 512) by (f_equal; unfold seg_lo; lia).
  rewrite readsects_eq by (unfold seg_lo; rewrite ?Z2Nat.id by zlia; zlia).
  rewrite Z2Nat.id by zlia. fold (seg_hi pa count off).
  destruct (Z.leb_spec (seg_lo pa off) a), (Z.ltb_spec a (seg_hi pa count off)); cbn [andb]; try done.
  replace (off / 512 + 1 + (a - seg_lo pa off) / 512) with (1 + (off / 512 + (a - seg_lo pa off) / 512)) by lia.
  unfold seg_lo in *. rewrite Himg by zlia. f_equal. zlia.
Qed.

(** ** Loading *)

(** A program header of the file. *)
Record seg : Type := mkSeg { g_ph : Z; g_off : Z; g_pa : Z; g_filesz : Z; g_memsz : Z }.
Definition seg_at (i : Z) : seg :=
  let ph := ld32 img 28 + PROGHDR * i in
  mkSeg (ELFBUF + ph) (ld32 img (ph + 4)) (ld32 img (ph + 12)) (ld32 img (ph + 16)) (ld32 img (ph + 20)).
Definition segs : list seg := map (fun i => seg_at (Z.of_nat i)) (seq 0 (Z.to_nat (img 44 + 256 * img 45))).

(** The bytes the loading of a segment writes. *)
Definition seg_end (g : seg) : Z := Z.max (g_pa g + g_memsz g) (seg_hi (g_pa g) (g_filesz g) (g_off g)).
Definition in_seg (g : seg) (a : Z) : Prop := seg_lo (g_pa g) (g_off g) <= a < seg_end g.

Record seg_ok (g : seg) : Prop := {
  go_range : 0 <= g_off g /\ 0 <= g_filesz g /\ 0 <= g_memsz g /\ g_off g + g_filesz g < 1073741824;
  go_pa : g_off g mod 512 <= g_pa g /\ g_pa g + g_filesz g + 512 < 4294967296 /\ g_pa g + g_memsz g < 4294967296;
  go_buf : seg_end g <= ELFBUF \/ ELFBUF + 4096 <= seg_lo (g_pa g) (g_off g)
}.

(** The segment is in memory: its bytes of the file, and zeros. *)
Definition loaded (m : mem) (g : seg) : Prop := forall k, 0 <= k < g_memsz g ->
  m (g_pa g + k) = if k <? g_filesz g then img (g_off g + k) else 0.

Definition buf_ok (m : mem) : Prop := forall k, 0 <= k < 4096 -> m (ELFBUF + k) = img k.

Lemma buf_ld32 m x : buf_ok m -> 0 <= x -> x + 4 <= 4096 -> ld32 m (ELFBUF + x) = ld32 img x.
Proof. intros Hb H0 H1. unfold ld32. rewrite <- !Z.add_assoc. by rewrite !Hb by lia. Qed.

(** A header that is in the buffer. *)
Definition ph_in (i : Z) : Prop := 0 <= i /\ 0 <= ld32 img 28 /\ ld32 img 28 + PROGHDR * i + PROGHDR <= 4096.

Lemma ph_fields m i : ph_in i -> buf_ok m ->
  let g := seg_at i in
  p_off m (g_ph g) = g_off g /\ p_paddr m (g_ph g) = g_pa g /\ p_filesz m (g_ph g) = g_filesz g /\ p_memsz m (g_ph g) = g_memsz g.
Proof.
  intros (H0 & H1 & H2) Hb. unfold p_off, p_paddr, p_filesz, p_memsz, seg_at, PROGHDR in *. cbn [g_ph g_off g_pa g_filesz g_memsz].
  rewrite <- !(Z.add_assoc ELFBUF). rewrite !buf_ld32 by (done || lia). done.
Qed.

Lemma load_segment_spec m i : let g := seg_at i in
  ph_in i -> seg_ok g -> g_filesz g <= g_memsz g -> buf_ok m ->
  let m' := load_segment m (g_ph g) in
  loaded m' g /\ buf_ok m' /\ (forall a, ~ in_seg g a -> m' a = m a).
Proof.
  intros g Hi [G1 G2 G3] Hfm Hb m'. destruct (ph_fields m i Hi Hb) as (E1 & E2 & E3 & _). fold g in E1, E2, E3.
  set (m1 := readseg (g_pa g) (g_filesz g) (g_off g) m).
  assert (m' = if p_filesz m1 (g_ph g) <? p_memsz m1 (g_ph g)
    then KString.stosb m1 (u32 (g_pa g + p_filesz m1 (g_ph g))) 0 (Z.to_nat (p_memsz m1 (g_ph g) - p_filesz m1 (g_ph g))) else m1) as Em0
    by (unfold m', load_segment; by rewrite E1, E2, E3).
  clearbody m'. clear E1 E2 E3.
  assert (forall a, m1 a =
    if (seg_lo (g_pa g) (g_off g) <=? a) && (a <? seg_hi (g_pa g) (g_filesz g) (g_off g)) then img (g_off g + (a - g_pa g)) else m a) as E
    by (intros a; apply readseg_eq; lia).
  clearbody m1. unfold seg_end in *. assert (0 <= g_pa g) by zlia.
  assert (seg_lo (g_pa g) (g_off g) <= g_pa g /\ g_pa g + g_filesz g <= seg_hi (g_pa g) (g_filesz g) (g_off g)) as [L1 L2].
  { unfold seg_hi, seg_lo. split; zlia. }
  assert (buf_ok m1) as Hb1.
  { intros k Hk. rewrite E. destruct (Z.leb_spec (seg_lo (g_pa g) (g_off g)) (ELFBUF + k)),
      (Z.ltb_spec (ELFBUF + k) (seg_hi (g_pa g) (g_filesz g) (g_off g))); cbn [andb]; try (by apply Hb). lia. }
  destruct (ph_fields m1 i Hi Hb1) as (_ & _ & E3 & E4). fold g in E3, E4. rewrite E3, E4 in Em0.
  assert (forall a, m' a = if (g_pa g + g_filesz g <=? a) && (a <? g_pa g + g_memsz g) then 0 else m1 a) as Em.
  { intros a. rewrite Em0. destruct (Z.ltb_spec (g_filesz g) (g_memsz g)) as [Hlt|Hge].
    - rewrite stosb_spec, u32_small, Z2Nat.id by lia. unfold in_range.
      by replace (g_pa g + g_filesz g + (g_memsz g - g_filesz g)) with (g_pa g + g_memsz g) by lia.
    - by destruct (Z.leb_spec (g_pa g + g_filesz g) a), (Z.ltb_spec a (g_pa g + g_memsz g)); try lia. }
  clear Em0. split_and!.
  - intros k Hk. rewrite Em, E. destruct (Z.ltb_spec k (g_filesz g)).
    + rewrite (proj2 (Z.leb_gt _ _)) by lia. cbn [andb]. rewrite (proj2 (Z.leb_le _ _)), (proj2 (Z.ltb_lt _ _)) by lia. cbn [andb]. f_equal. lia.
    + rewrite (proj2 (Z.leb_le _ _)), (proj2 (Z.ltb_lt _ _)) by lia. done.
  - intros k Hk. rewrite Em. destruct (Z.leb_spec (g_pa g + g_filesz g) (ELFBUF + k)), (Z.ltb_spec (ELFBUF + k) (g_pa g + g_memsz g));
      cbn [andb]; try (by apply Hb1). lia.
  - intros a Ha. unfold in_seg, seg_end in Ha. rewrite Em, E.
    destruct (Z.leb_spec (g_pa g + g_filesz g) a), (Z.ltb_spec a (g_pa g + g_memsz g)), (Z.leb_spec (seg_lo (g_pa g) (g_off g)) a),
      (Z.ltb_spec a (seg_hi (g_pa g) (g_filesz g) (g_off g))); cbn [andb]; try done; lia.
Qed.

(** Loading a later segment leaves the bytes of an earlier one. *)
Definition after (g g' : seg) : Prop := forall k, 0 <= k < g_memsz g -> ~ in_seg g' (g_pa g + k).

Definition phnum : Z := img 44 + 256 * img 45.

(** A kernel file the loader can load: the headers are in the first page, each segment fits in
    physical memory and stays clear of that page, and none runs over an earlier one. *)
Record image_ok : Prop := {
  io_elf : ld32 img 0 = ELF_MAGIC;
  io_phs : 0 <= phnum /\ 0 <= ld32 img 28 /\ ld32 img 28 + PROGHDR * phnum <= 4096;
  io_segs : Forall (fun g => seg_ok g /\ g_filesz g <= g_memsz g) segs;
  io_order : ForallOrdPairs after segs
}.

Lemma loaded_frame m m' g : loaded m g -> (forall k, 0 <= k < g_memsz g -> m' (g_pa g + k) = m (g_pa g + k)) -> loaded m' g.
Proof. intros Hl Hf k Hk. rewrite Hf by done. by apply Hl. Qed.

Lemma FOP_inv {A} (R : A -> A -> Prop) x l : ForallOrdPairs R (x :: l) -> Forall (R x) l /\ ForallOrdPairs R l.
Proof. by inversion 1. Qed.

Lemma load_all gs : forall m, Forall (fun g => exists i, g = seg_at i /\ ph_in i) gs ->
  Forall (fun g => seg_ok g /\ g_filesz g <= g_memsz g) gs -> ForallOrdPairs after gs -> buf_ok m ->
  let m' := fold_left load_segment (map g_ph gs) m in
  Forall (loaded m') gs /\ buf_ok m' /\ (forall a, Forall (fun g => ~ in_seg g a) gs -> m' a = m a).
Proof.
  induction gs as [|g gs IH]; intros m Hi Hok Ho Hb m'; [done|].
  apply Forall_cons in Hi as [(i & Eg & Hi) His], Hok as [[Hg Hfm] Hgs]. apply FOP_inv in Ho as [Hg' Ho']. subst g.
  pose proof (load_segment_spec m i Hi Hg Hfm Hb) as Hl. cbv zeta in Hl.
  assert (exists m1, m1 = load_segment m (g_ph (seg_at i))) as [m1 E1] by eauto. rewrite <- E1 in Hl. destruct Hl as (L & B & F).
  assert (m' = fold_left load_segment (map g_ph gs) m1) as Em by (unfold m'; cbn [map fold_left]; by rewrite <- E1). clearbody m'.
  destruct (IH m1 His Hgs Ho' B) as (L' & B' & F'). rewrite <- Em in L', B', F'. clear Em E1. split_and!; [|done|].
  - constructor; [|done]. eapply loaded_frame; [exact L|]. intros k Hk. apply F'.
    eapply Forall_impl; [exact Hg'|]. intros g' Ha. by apply Ha.
  - intros a Ha. apply Forall_cons in Ha as [Ha Has]. rewrite F' by done. by apply F.
Qed.

Lemma read_header m a : readseg ELFBUF 4096 0 m a = if (ELFBUF <=? a) && (a <? ELFBUF + 4096) then img (a - ELFBUF) else m a.
Proof. rewrite readseg_eq by (unfold ELFBUF; zlia). done. Qed.

Lemma header_in m : buf_ok (readseg ELFBUF 4096 0 m).
Proof.
  intros k Hk. rewrite read_header, (proj2 (Z.leb_le _ _)), (proj2 (Z.ltb_lt _ _)) by lia. cbn [andb]. f_equal. lia.
Qed.

Lemma segs_headers : image_ok -> Forall (fun g => exists i, g = seg_at i /\ ph_in i) segs.
Proof.
  intros [_ Hp _ _]. unfold segs. fold phnum. apply Forall_forall. intros g (i & -> & Hi)%list_elem_of_fmap. exists (Z.of_nat i).
  split; [done|]. apply elem_of_seq in Hi. unfold ph_in, PROGHDR in *. lia.
Qed.

(** C28: the boot loader loads the kernel. Whatever memory held, when the disk holds from sector 1
    on an ELF file whose headers are in its first page, [bootmain] calls the file's entry point
    with every segment in memory at its physical address, the file's bytes followed by zeros up to
    the segment's size; it writes nothing but the segments' sectors and the page it reads the
    header into. When the file is no ELF file it returns with only that page read. *)
Theorem bootmain_loads m :
  (image_ok -> exists m', bootmain m = (m', Some (ld32 img 24)) /\ Forall (loaded m') segs /\
    (forall a, ~ ELFBUF <= a < ELFBUF + 4096 -> Forall (fun g => ~ in_seg g a) segs -> m' a = m a)) /\
  (ld32 img 0 <> ELF_MAGIC -> exists m', bootmain m = (m', None) /\ forall a, ~ ELFBUF <= a < ELFBUF + 4096 -> m' a = m a).
Proof.
  assert (forall a, ~ ELFBUF <= a < ELFBUF + 4096 -> readseg ELFBUF 4096 0 m a = m a) as Hf.
  { intros a Ha. rewrite read_header. by destruct (Z.leb_spec ELFBUF a), (Z.ltb_spec a (ELFBUF + 4096)); try lia. }
  pose proof (header_in m) as Hb. unfold bootmain. set (m0 := readseg ELFBUF 4096 0 m) in *. clearbody m0.
  assert (ld32 m0 ELFBUF = ld32 img 0) as -> by (rewrite <- (Z.add_0_r ELFBUF); apply buf_ld32; [done|lia|lia]).
  assert (e_phnum m0 = phnum) as -> by (unfold e_phnum, phnum; by rewrite !Hb by lia).
  assert (e_phoff m0 = ld32 img 28) as -> by (apply buf_ld32; [done|lia|lia]).
  split; intros H1.
  - pose proof (segs_headers H1) as Hh. destruct H1 as [Hm Hp Hs Ho]. rewrite Hm, Z.eqb_refl. cbn [negb].
    destruct (load_all segs m0 Hh Hs Ho Hb) as (L & B & F).
    assert (map g_ph segs = map (fun i => u32 (ELFBUF + ld32 img 28) + PROGHDR * Z.of_nat i) (seq 0 (Z.to_nat phnum))) as <-.
    { unfold segs. fold phnum. rewrite map_map. apply map_ext. intros i. cbn [seg_at g_ph]. rewrite u32_small; unfold ELFBUF, PROGHDR in *; lia. }
    eexists. split; [f_equal; f_equal; apply buf_ld32; [done|lia|lia]|]. split; [done|].
    intros a Ha Hs'. rewrite F by done. by apply Hf.
  - rewrite (proj2 (Z.eqb_neq _ _)) by done. cbn [negb]. eauto.
Qed.
End loader.

(** A kernel file of two segments: text at 1 MB, and three bytes of data and two of bss a page on. *)
Definition demo_bytes : list (Z * Z) :=
  [(0, 127); (1, 69); (2, 76); (3, 70); (24, 12); (26, 16); (28, 52); (44, 2);
   (57, 16); (66, 16); (68, 2); (72, 2);
   (89, 32); (97, 16); (98, 16); (100, 3); (104, 5);
   (4096, 235); (4097, 254); (8192, 1); (8193, 2); (8194, 3)].
Definition demo_img (a : Z) : Z := match find (fun p => fst p =? a) demo_bytes with Some p => snd p | None => 0 end.
Definition demo_disk (n j : Z) : Z := demo_img (512 * (n - 1) + j).

Lemma bootmain_loads_witness : holds_image demo_disk demo_img /\ image_ok demo_img /\
  exists m', bootmain demo_disk (fun _ => 204) = (m', Some 1048588) /\
    map m' [1048576; 1048577; 1052672; 1052673; 1052674; 1052675; 1052676] = [235; 254; 1; 2; 3; 0; 0].
Proof.
  assert (holds_image demo_disk demo_img) as Hd.
  { intros k j _ _. unfold demo_disk. f_equal. lia. }
  assert (segs demo_img = [mkSeg 65588 4096 1048576 2 2; mkSeg 65620 8192 1052672 3 5]) as Es by (vm_compute; reflexivity).
  assert (image_ok demo_img) as Hi.
  { constructor.
    - vm_compute; reflexivity.
    - vm_compute. repeat split; discriminate.
    - rewrite Es. apply Forall_cons; split; [|apply Forall_cons; split; [|apply Forall_nil; exact I]].
      all: split; [constructor|cbn; lia]; unfold seg_end, seg_hi, seg_lo, ELFBUF; cbn [g_off g_pa g_filesz g_memsz]; zlia.
    - rewrite Es. apply FOP_cons; [|apply FOP_cons; [constructor|apply FOP_nil]].
      apply Forall_cons; split; [|apply Forall_nil; exact I]. intros k Hk. unfold in_seg, seg_lo, seg_end. cbn [g_off g_pa g_filesz g_memsz] in *. zlia. }
  destruct (bootmain_loads demo_disk demo_img Hd (fun _ => 204)) as [H1 _]. destruct (H1 Hi) as (m' & E & L & _).
  split; [exact Hd|split; [exact Hi|]]. exists m'. split; [rewrite E; vm_compute; reflexivity|].
  rewrite Es in L. apply Forall_cons in L as [L1 L2]. apply Forall_cons in L2 as [L2 _]. cbn [map].
  assert (m' 1048576 = 235) as -> by (apply (L1 0); cbn; lia). assert (m' 1048577 = 254) as -> by (apply (L1 1); cbn; lia).
  assert (m' 1052672 = 1) as -> by (apply (L2 0); cbn; lia). assert (m' 1052673 = 2) as -> by (apply (L2 1); cbn; lia).
  assert (m' 1052674 = 3) as -> by (apply (L2 2); cbn; lia). assert (m' 1052675 = 0) as -> by (apply (L2 3); cbn; lia).
  assert (m' 1052676 = 0) as -> by (apply (L2 4); cbn; lia). reflexivity.
Defined.
