(* ===== verification/Grep.v ===== *)
(** * grep

    grep.c: the regular expression matcher (characters, [.], [*], [^] and [$]) and the
    loop that cuts the input into lines in a 1024-byte buffer.  A C string is the list of
    its characters. *)

From S2P Require Import Prelude.

Definition DOT : Z := 46.
Definition STAR : Z := 42.
Definition CARET : Z := 94.
Definition DOLLAR : Z := 36.
Definition NL : Z := 10.

(** [matchstar(c, re, text)], with [mh] for [matchhere(re, .)]. *)
Fixpoint matchstar (c : Z) (mh : list Z -> bool) (text : list Z) : bool :=
  if mh text then true
  else
    match text with
    | [] => false
    | t :: text' => if (t =? c) || (c =? DOT) then matchstar c mh text' else false
    end.

Fixpoint matchhere (re text : list Z) {struct re} : bool :=
  match re with
  | [] => true
  | c :: re1 =>
      match re1 with
      | s :: re2 =>
          if s =? STAR then matchstar c (matchhere re2) text
          else
            match text with
            | t :: text' => if (c =? DOT) || (c =? t) then matchhere re1 text' else false
            | [] => false
            end
      | [] =>
          if c =? DOLLAR then match text with [] => true | _ :: _ => false end
          else
            match text with
            | t :: text' => if (c =? DOT) || (c =? t) then matchhere re1 text' else false
            | [] => false
            end
      end
  end.

(** The [do]-[while] of [match]: every suffix of the text, the empty one included. *)
Fixpoint match_anywhere (re text : list Z) : bool :=
  if matchhere re text then true
  else match text with [] => false | _ :: text' => match_anywhere re text' end.

Definition match_re (re text : list Z) : bool :=
  match re with
  | c :: re' => if c =? CARET then matchhere re' text else match_anywhere re text
  | [] => match_anywhere re text
  end.

(** [strchr(p, '\n')]: the characters before the newline and those after it; the search
    ends at a NUL. *)
Fixpoint cut_line (p : list Z) : option (list Z * list Z) :=
  match p with
  | [] => None
  | c :: p' =>
      if c =? 0 then None
      else if c =? NL then Some ([], p')
      else '(l, r) ← cut_line p'; Some (c :: l, r)
  end.

(** The inner loop: the lines of the buffer that match, and what follows the last newline. *)
Fixpoint grep_lines (fuel : nat) (pattern p : list Z) : list Z * list Z :=
  match fuel with
  | O => ([], p)
  | S fuel' =>
      match cut_line p with
      | None => ([], p)
      | Some (l, q) =>
          let '(out, rest) := grep_lines fuel' pattern q in
          ((if match_re pattern l then l ++ [NL] else []) ++ out, rest)
      end
  end.

(** [sizeof(buf)]. *)
Definition GBUF : nat := 1024.

(** One iteration of the outer loop: [m] bytes [kept] in the buffer, [got] read after
    them; the output, and the bytes kept.  Without a newline in the buffer nothing is kept. *)
Definition grep_step (pattern kept got : list Z) : list Z * list Z :=
  let data := kept ++ got in
  let '(out, rest) := grep_lines (length data) pattern data in
  (out, if (length rest =? length data)%nat then [] else rest).

(** [grep]: [read n] is what a read of at most [n] bytes returns. *)
Fixpoint grep {S} (read : nat -> S -> list Z * S) (fuel : nat) (pattern kept : list Z) (s : S) : option (list Z) :=
  match fuel with
  | O => None
  | Datatypes.S fuel' =>
      let '(got, s') := read (GBUF - length kept - 1)%nat s in
      match got with
      | [] => Some []
      | _ :: _ =>
          let '(out, kept') := grep_step pattern kept got in
          app out <$> grep read fuel' pattern kept' s'
      end
  end.

(** ** What a pattern means *)

(** The pattern character [c] accepts [x]. *)
Definition accepts (c x : Z) : Prop := c = DOT \/ c = x.

(** [re] matches some prefix of the text. *)
Inductive at_start : list Z -> list Z -> Prop :=
  | as_empty text : at_start [] text
  | as_end : at_start [DOLLAR] []
  | as_star c re rep text :
      Forall (accepts c) rep -> at_start re text -> at_start (c :: STAR :: re) (rep ++ text)
  | as_char c re x text :
      head re <> Some STAR -> ~ (c = DOLLAR /\ re = []) -> accepts c x -> at_start re text ->
      at_start (c :: re) (x :: text).

(** [re] matches somewhere in the text, or at its start after a [^]. *)
Definition denotes (re text : list Z) : Prop :=
  match re with
  | c :: re' => if c =? CARET then at_start re' text else exists pre post, text = pre ++ post /\ at_start re post
  | [] => True
  end.

Lemma accepts_bool c x : (c =? DOT) || (c =? x) = true <-> accepts c x.
Proof. unfold accepts. rewrite orb_true_iff, !Z.eqb_eq. done. Qed.

Lemma matchstar_spec c mh text :
  matchstar c mh text = true <-> exists rep rest, text = rep ++ rest /\ Forall (accepts c) rep /\ mh rest = true.
Proof.
  induction text as [|t text IH]; simpl.
  - destruct (mh []) eqn:E; (split; [|try done]); try done.
    { intros _. exists [], []. by repeat constructor. }
    intros (rep & rest & Ht & _ & Hm). symmetry in Ht. apply app_nil in Ht as [-> ->]. congruence.
  - destruct (mh (t :: text)) eqn:E.
    { split; [|done]. intros _. exists [], (t :: text). by repeat constructor. }
    transitivity (((t =? c) || (c =? DOT)) = true /\ matchstar c mh text = true).
    { destruct ((t =? c) || (c =? DOT)); intuition discriminate. }
    rewrite IH, orb_comm, (Z.eqb_sym t c), accepts_bool. split.
    + intros [Ha (rep & rest & -> & Hr & Hm)]. exists (t :: rep), rest.
      split; [done|]. split; [by constructor | done].
    + intros ([|y rep] & rest & Ht & Hr & Hm); simpl in Ht; [subst; congruence|].
      injection Ht as <- ->. apply Forall_cons in Hr as [Ha Hr]. split; [done|]. by exists rep, rest.
Qed.

(** The literal case of [matchhere]. *)
Lemma matchhere_char c re text :
  head re <> Some STAR -> ~ (c = DOLLAR /\ re = []) ->
  matchhere (c :: re) text = true <-> exists x t, text = x :: t /\ accepts c x /\ matchhere re t = true.
Proof.
  intros H1 H2.
  assert (matchhere (c :: re) text =
    match text with t :: text' => if (c =? DOT) || (c =? t) then matchhere re text' else false | [] => false end) as ->.
  { destruct re as [|s re]; simpl in *.
    - destruct (Z.eqb_spec c DOLLAR); [tauto | done].
    - destruct (Z.eqb_spec s STAR); [congruence | done]. }
  destruct text as [|t text].
  - split; [done | intros (x & t & [=] & _)].
  - destruct ((c =? DOT) || (c =? t)) eqn:E.
    + apply accepts_bool in E. split; [intros H; by exists t, text|].
      by intros (x & t' & [= <- <-] & _ & H).
    + split; [done|]. intros (x & t' & [= <- <-] & Ha & _). apply accepts_bool in Ha. congruence.
Qed.

Lemma matchhere_spec re : forall text, matchhere re text = true <-> at_start re text.
Proof.
  induction re as [re IH] using (induction_ltof1 _ (@length Z)). intros text.
  destruct re as [|c re]; [split; [constructor | done]|].
  destruct (decide (head re = Some STAR)) as [Hs|Hs].
  - destruct re as [|s re]; [done|]. simpl in Hs. injection Hs as ->.
    change (matchhere (c :: STAR :: re) text) with (matchstar c (matchhere re) text).
    rewrite matchstar_spec. assert (forall t, matchhere re t = true <-> at_start re t) as IH'
      by (apply IH; unfold ltof; simpl; lia).
    split.
    + intros (rep & rest & -> & Hr & Hm). constructor; [done | by apply IH'].
    + inversion 1; subst; [|simpl in *; congruence]. eexists _, _. split; [done|]. split; [done | by apply IH'].
  - destruct (decide (c = DOLLAR /\ re = [])) as [[-> ->]|Hd].
    + simpl. destruct text; split; try done; [constructor|]. inversion 1; subst. tauto.
    + rewrite (matchhere_char c re text Hs Hd).
      assert (forall t, matchhere re t = true <-> at_start re t) as IH' by (apply IH; unfold ltof; simpl; lia).
      split.
      * intros (x & t & -> & Ha & Hm). apply as_char; try done. by apply IH'.
      * inversion 1; subst; try (simpl in *; tauto). eexists _, _. split; [done|]. split; [done | by apply IH'].
Qed.

Lemma match_anywhere_spec re text :
  match_anywhere re text = true <-> exists pre post, text = pre ++ post /\ at_start re post.
Proof.
  induction text as [|t text IH]; simpl.
  - destruct (matchhere re []) eqn:E.
    + apply matchhere_spec in E. split; [|done]. by exists [], [].
    + split; [done|]. intros (pre & post & H & Hm). symmetry in H. apply app_nil in H as [-> ->].
      apply matchhere_spec in Hm. congruence.
  - destruct (matchhere re (t :: text)) eqn:E.
    + apply matchhere_spec in E. split; [|done]. by exists [], (t :: text).
    + rewrite IH. split.
      * intros (pre & post & -> & Hm). by exists (t :: pre), post.
      * intros ([|y pre] & post & H & Hm); simpl in H.
        -- subst. apply matchhere_spec in Hm. congruence.
        -- injection H as <- ->. by exists pre, post.
Qed.

(** C36: grep's matcher decides the meaning of patterns: the mutually recursive
    [matchhere]/[matchstar] search agrees, on every pattern and text, with the declarative
    definition in which [.] accepts any character, [c*] any run of accepted characters
    (not only the longest or shortest), [$] the end and [^] the start of the text. *)
Theorem match_correct re text : match_re re text = true <-> denotes re text.
Proof.
  destruct re as [|c re]; simpl.
  - unfold match_anywhere. destruct text; simpl; done.
  - destruct (c =? CARET); [apply matchhere_spec | apply match_anywhere_spec].
Qed.

(** ** Lines *)

(** A file with complete lines [ls]. *)
Definition with_newlines (ls : list (list Z)) : list Z := concat ((fun l => l ++ [NL]) <$> ls).

(** A piece of text inside a line: no newline and no NUL. *)
Definition is_line (l : list Z) : Prop := NL ∉ l /\ 0 ∉ l.

Lemma is_line_nil : is_line [].
Proof. split; apply not_elem_of_nil. Qed.

Lemma is_line_cons c l : is_line (c :: l) <-> (c =? NL) = false /\ (c =? 0) = false /\ is_line l.
Proof. unfold is_line. rewrite !not_elem_of_cons, !Z.eqb_neq. intuition congruence. Qed.

Lemma is_line_app a b : is_line (a ++ b) <-> is_line a /\ is_line b.
Proof. unfold is_line. rewrite !not_elem_of_app. tauto. Qed.

Lemma with_newlines_app a b : with_newlines (a ++ b) = with_newlines a ++ with_newlines b.
Proof. unfold with_newlines. by rewrite fmap_app, concat_app. Qed.

Lemma cut_line_none p : is_line p -> cut_line p = None.
Proof.
  induction p as [|c p IH]; simpl; [done|]. intros (E1 & E2 & Hp)%is_line_cons. by rewrite E1, E2, IH.
Qed.

Lemma cut_line_some l r : is_line l -> cut_line (l ++ NL :: r) = Some (l, r).
Proof.
  induction l as [|c l IH]; simpl; [done|]. intros (E1 & E2 & Hl)%is_line_cons. by rewrite E1, E2, IH.
Qed.

(** The lines that match, with their newlines. *)
Definition grep_ref (pattern : list Z) (ls : list (list Z)) : list Z :=
  with_newlines (filter (fun l => match_re pattern l = true) ls).

Lemma grep_ref_app pattern a b : grep_ref pattern (a ++ b) = grep_ref pattern a ++ grep_ref pattern b.
Proof. unfold grep_ref. by rewrite filter_app, with_newlines_app. Qed.

Lemma grep_lines_eq pattern ls r : forall fuel,
  Forall is_line ls -> is_line r -> (length ls <= fuel)%nat ->
  grep_lines fuel pattern (with_newlines ls ++ r) = (grep_ref pattern ls, r).
Proof.
  induction ls as [|l ls IH]; intros fuel Hls Hr Hf.
  - destruct fuel; simpl; [done|]. by rewrite cut_line_none.
  - apply Forall_cons in Hls as [Hl Hls]. destruct fuel as [|fuel]; simpl in Hf; [lia|].
    change (with_newlines (l :: ls)) with ((l ++ [NL]) ++ with_newlines ls).
    rewrite <- !app_assoc. simpl. rewrite cut_line_some by done.
    rewrite IH by (done || lia). unfold grep_ref. rewrite filter_cons.
    destruct (match_re pattern l); [rewrite decide_True by done | rewrite decide_False by done]; done.
Qed.

Lemma length_lines ls r : (length ls <= length (with_newlines ls ++ r))%nat.
Proof.
  induction ls as [|l ls IH]; simpl; [lia|].
  change (with_newlines (l :: ls)) with ((l ++ [NL]) ++ with_newlines ls).
  rewrite !length_app in *. simpl. lia.
Qed.

(** A prefix of a file ends inside one of its lines. *)
Lemma prefix_of_lines ls tail : Forall is_line ls -> is_line tail -> forall x y,
  x ++ y = with_newlines ls ++ tail ->
  exists ls1 ls2 r, ls = ls1 ++ ls2 /\ x = with_newlines ls1 ++ r /\ is_line r /\ r ++ y = with_newlines ls2 ++ tail.
Proof.
  intros Hls Ht. induction Hls as [|l ls Hl Hls IH]; intros x y E.
  - exists [], [], x. split_and!; try done. simpl in E. rewrite <- E in Ht. by apply is_line_app in Ht as [? _].
  - change (with_newlines (l :: ls)) with ((l ++ [NL]) ++ with_newlines ls) in E. rewrite <- app_assoc in E.
    destruct (app_eq_inv _ _ _ _ E) as [(k & -> & E') | (k & E1 & E2)].
    + destruct (IH k y (eq_sym E')) as (ls1 & ls2 & r & -> & -> & Hr & Er).
      exists (l :: ls1), ls2, r. split_and!; try done.
      change (with_newlines (l :: ls1)) with ((l ++ [NL]) ++ with_newlines ls1). by rewrite app_assoc.
    + destruct k as [|c k _] using rev_ind.
      * rewrite app_nil_r in E1. simpl in E2. subst x. exists [l], ls, []. split_and!; try done.
        -- unfold with_newlines. simpl. by rewrite !app_nil_r.
        -- apply is_line_nil.
      * rewrite app_assoc in E1. apply app_inj_tail in E1 as [E1 E3]. subst c.
        exists [], (l :: ls), x. split_and!; try done.
        -- rewrite E1 in Hl. by apply is_line_app in Hl as [? _].
        -- change (with_newlines (l :: ls)) with ((l ++ [NL]) ++ with_newlines ls).
           rewrite E2, E1. by rewrite <- !app_assoc.
Qed.

(** ** Reading a file *)

(** A read from a file returns as many bytes as asked for, if the file has them. *)
Definition read_file (n : nat) (data : list Z) : list Z * list Z := (take n data, drop n data).

(** Lines that fit the buffer. *)
Definition fits (l : list Z) : Prop := is_line l /\ (length l + 2 <= GBUF)%nat.

Lemma fits_lines ls : Forall fits ls -> Forall is_line ls.
Proof. intros H. eapply Forall_impl; [exact H | by intros ? []]. Qed.

(** The buffer after a read: whole lines, then the start of the next one. *)
Lemma grep_step_eq pattern kept got ls1 r :
  kept ++ got = with_newlines ls1 ++ r -> Forall is_line ls1 -> is_line r ->
  grep_step pattern kept got = (grep_ref pattern ls1, if bool_decide (ls1 = []) then [] else r).
Proof.
  intros E Hls Hr. unfold grep_step. rewrite E.
  rewrite (grep_lines_eq pattern ls1 r _ Hls Hr (length_lines ls1 r)). f_equal.
  destruct ls1 as [|l ls1]; simpl.
  - by rewrite Nat.eqb_refl.
  - change (with_newlines (l :: ls1)) with ((l ++ [NL]) ++ with_newlines ls1).
    rewrite !length_app. simpl. destruct (Nat.eqb_spec (length r) (length l + 1 + length (with_newlines ls1) + length r)); [lia | done].
Qed.

Lemma with_newlines_nil ls : is_line (with_newlines ls) -> ls = [].
Proof.
  destruct ls as [|l ls]; [done|]. intros [H _]. exfalso. apply H.
  change (with_newlines (l :: ls)) with ((l ++ [NL]) ++ with_newlines ls). set_solver.
Qed.

(** What is kept after a read, and what it leaves of the file. *)
Lemma grep_progress ls tail kept data :
  Forall fits ls -> is_line tail -> is_line kept -> (length kept + 2 <= GBUF)%nat ->
  kept ++ data = with_newlines ls ++ tail -> data <> [] ->
  exists ls1 ls2 tail' kept',
    let n := (GBUF - length kept - 1)%nat in
    ls = ls1 ++ ls2 /\ take n data <> [] /\
    (forall pattern, grep_step pattern kept (take n data) = (grep_ref pattern ls1, kept')) /\
    is_line tail' /\ is_line kept' /\ (length kept' + 2 <= GBUF)%nat /\
    kept' ++ drop n data = with_newlines ls2 ++ tail'.
Proof.
  intros Hls Ht Hk Hlen E Hd. set (n := (GBUF - length kept - 1)%nat).
  assert (n <> 0%nat) as Hn by (unfold n; lia).
  destruct (prefix_of_lines ls tail (fits_lines ls Hls) Ht (kept ++ take n data) (drop n data)) as
    (ls1 & ls2 & r & -> & Ex & Hr & Er); [by rewrite <- app_assoc, take_drop|].
  apply Forall_app in Hls as [H1 H2].
  pose proof (fun pattern => grep_step_eq pattern kept (take n data) ls1 r Ex (fits_lines _ H1) Hr) as Hstep.
  assert (take n data <> []) as Hgot by (destruct data; [done|]; destruct n; done).
  assert (length (kept ++ take n data) <= GBUF - 1)%nat as Hmax by (rewrite length_app, length_take; lia).
  destruct ls1 as [|l ls1]; [rewrite bool_decide_eq_true_2 in Hstep by done | rewrite bool_decide_eq_false_2 in Hstep by done].
  - simpl in Ex. exists [], ls2, (drop n data), [].
    assert (ls2 = []) as ->.
    { destruct ls2 as [|l ls2]; [done|]. exfalso. apply Forall_cons in H2 as [[_ Hl] _].
      change (with_newlines (l :: ls2)) with ((l ++ [NL]) ++ with_newlines ls2) in Er.
      destruct (decide (length data <= n)%nat) as [Hs|Hs].
      - rewrite drop_ge, app_nil_r in Er by done. apply (proj1 Hr). rewrite Er. set_solver.
      - assert (length r = GBUF - 1)%nat as Hlr by (rewrite <- Ex, length_app, length_take; lia).
        apply (proj1 Hr). apply (f_equal (take (length r))) in Er. rewrite take_app_length in Er.
        rewrite Er, Hlr, <- !app_assoc, take_app_ge by lia.
        apply elem_of_app. right. destruct (GBUF - 1 - length l)%nat eqn:Eg; [lia|]. simpl. left. }
    simpl in Er. assert (is_line (drop n data)) as Hdr
      by (rewrite <- Er in Ht; by apply is_line_app in Ht as [_ ?]).
    split_and!; try done; [apply is_line_nil | simpl; lia].
  - exists (l :: ls1), ls2, tail, r. split_and!; try done.
    apply (f_equal length) in Ex. rewrite Ex in Hmax.
    change (with_newlines (l :: ls1)) with ((l ++ [NL]) ++ with_newlines ls1) in Hmax.
    rewrite !length_app in Hmax. cbn [length] in Hmax. lia.
Qed.

Lemma grep_file_spec pattern fuel : forall ls tail kept data,
  Forall fits ls -> is_line tail -> is_line kept -> (length kept + 2 <= GBUF)%nat ->
  kept ++ data = with_newlines ls ++ tail -> (length data < fuel)%nat ->
  grep read_file fuel pattern kept data = Some (grep_ref pattern ls).
Proof.
  induction fuel as [|fuel IH]; intros ls tail kept data Hls Ht Hk Hlen E Hf; [lia|].
  cbn [grep]. unfold read_file at 1. destruct data as [|x data].
  { rewrite take_nil. rewrite app_nil_r in E. subst kept. apply is_line_app in Hk as [Hk _].
    by rewrite (with_newlines_nil ls Hk). }
  destruct (grep_progress ls tail kept (x :: data) Hls Ht Hk Hlen E) as
    (ls1 & ls2 & tail' & kept' & -> & Hgot & Hstep & Ht' & Hk' & Hlen' & E'); [done|].
  set (n := (GBUF - length kept - 1)%nat) in *.
  apply Forall_app in Hls as [H1 H2].
  destruct (take n (x :: data)) as [|y got] eqn:Hg; [done|].
  rewrite Hstep, (IH ls2 tail' kept' (drop n (x :: data)) H2 Ht' Hk' Hlen' E').
  - simpl. by rewrite grep_ref_app.
  - rewrite length_drop. assert (n <> 0%nat) by (unfold n; lia). simpl in *. lia.
Qed.

(** C37: [grep] on a regular file, whose reads return all the bytes asked for, prints
    exactly the matching lines.  For a file of text (no NUL byte) whose lines have at
    most 1022 characters, the loop ends, and its output is the lines the pattern
    matches, in order, wherever the 1023-byte reads cut a line.  Characters after the
    last newline are not a line to [grep]. *)
Theorem grep_file_correct pattern ls tail :
  Forall fits ls -> is_line tail ->
  let data := with_newlines ls ++ tail in
  grep read_file (S (length data)) pattern [] data = Some (grep_ref pattern ls).
Proof.
  intros Hls Ht data. apply grep_file_spec with tail; try done; [apply is_line_nil | unfold GBUF; simpl; lia | lia].
Qed.

(** "ab*c" in the lines "abbc", "x", "zacz". *)
Lemma grep_file_correct_witness :
  grep read_file 13 [97; 98; 42; 99] [] [97; 98; 98; 99; 10; 120; 10; 122; 97; 99; 122; 10]
  = Some [97; 98; 98; 99; 10; 122; 97; 99; 122; 10].
Proof.
  assert (Forall fits [[97; 98; 98; 99]; [120]; [122; 97; 99; 122]]) as Hf.
  { repeat constructor; rewrite ?not_elem_of_cons; repeat split; try apply not_elem_of_nil; unfold GBUF, NL; simpl; lia. }
  exact (grep_file_correct [97; 98; 42; 99] [[97; 98; 98; 99]; [120]; [122; 97; 99; 122]] [] Hf is_line_nil).
Defined.

(** A NUL hides the rest of the buffer from [strchr]: the lines after it are lost. *)
Lemma grep_nul_loses_lines :
  grep read_file 6 [97] [] [0; 10; 97; 10] = Some [] /\ match_re [97] [97] = true.
Proof. split; vm_compute; reflexivity. Qed.

(** From a pipe or a terminal a read may return less: then a line that arrives in two
    pieces is lost. *)
Definition read_pieces (n : nat) (pieces : list (list Z)) : list Z * list (list Z) :=
  match pieces with p :: ps => (take n p, ps) | [] => ([], []) end.
Lemma grep_short_read_loses_line :
  grep read_pieces 5 [97; 98; 99] [] [[97; 98]; [99; 10]] = Some [] /\
  match_re [97; 98; 99] [97; 98; 99] = true.
Proof. split; vm_compute; reflexivity. Qed.
