(* ===== verification/MkFs.v ===== *)
(** * mkfs.c

    The host program that writes the initial file system image.  The theorems compose it
    with the kernel: what mkfs writes is what the inode layer of the kernel reads.

    The image file is the list of its blocks; the calls on it succeed.  The host is
    little-endian or not: [xint] and [xshort] fix the bytes of a field, so a field is modelled
    by its value.  A failed [assert] and [exit(1)] are a [Panic]. *)

From S2P Require Import Prelude Monad CString KState Bio Log Fs Inode Path.

Local Open Scope kernel_scope.

Definition FSSIZE : Z := 100000.
Definition NINODES : Z := 200.
Definition nbitmap : Z := FSSIZE / (BSIZE * 8) + 1.
Definition ninodeblocks : Z := NINODES / IPB + 1.
Definition nlog : Z := LOGSIZE.
Definition nmeta : Z := 2 + nlog + ninodeblocks + nbitmap.
Definition nblocks : Z := FSSIZE - nmeta.

(** The number whose little-endian bytes are those [xshort] and [xint] store. *)
Definition xshort (x : Z) : Z := u8 x + 256 * u8 (x / 256).
Definition xint (x : Z) : Z :=
  u8 x + 256 * u8 (x / 256) + 65536 * u8 (x / 65536) + 16777216 * u8 (x / 16777216).

Definition mkfs_sb : superblock :=
  mkSuperblock (xint FSSIZE) (xint nblocks) (xint NINODES) (xint nlog) (xint 2) (xint (2 + nlog))
    (xint (2 + nlog + ninodeblocks)).

(** The bytes of [struct superblock]. *)
Definition sb_bytes (sb : superblock) (d : list Z) : list Z :=
  put_addrs d 0 [sb_size sb; sb_nblocks sb; sb_ninodes sb; sb_nlog sb; sb_logstart sb; sb_inodestart sb;
    sb_bmapstart sb].

(** The image file and the two counters. *)
Record mkst := mk_mkst { m_img : list (list Z); m_freeinode : Z; m_freeblock : Z }.
Local Notation F := (M mkst).

(** ** Sectors *)

(** [lseek(fsfd, sec * BSIZE, 0)]: the product is a [uint]. *)
Definition seek (sec : Z) : nat := Z.to_nat (u32 (sec * BSIZE) / BSIZE).

(** Writing beyond the end leaves a hole that reads as zeros. *)
Definition put_block (img : list (list Z)) (n : nat) (buf : list Z) : list (list Z) :=
  if (n <? length img)%nat then <[n := buf]> img
  else img ++ replicate (n - length img) zeros ++ [buf].

Definition wsect (sec : Z) (buf : list Z) : F unit :=
  modify (fun s => mk_mkst (put_block (m_img s) (seek sec) buf) (m_freeinode s) (m_freeblock s)).

Definition rsect (sec : Z) : F (list Z) :=
  img <- gets m_img ;;
  match img !! seek sec with
  | Some buf => ret buf
  | None => panic "read"
  end.

(** ** Inodes *)

(** [struct dinode] after [bzero]. *)
Definition din0 : inode := mkInode 0 0 0 (mkSleeplock false 0) false 0 0 0 0 0 (replicate 13 0).

Definition winode (inum : Z) (ip : inode) : F unit :=
  let bn := IBLOCK inum mkfs_sb in
  buf <- rsect bn ;;
  wsect bn (enc_dinode ip (dinode_off inum) buf).

Definition rinode (inum : Z) : F inode :=
  let bn := IBLOCK inum mkfs_sb in
  buf <- rsect bn ;;
  ret (dec_dinode buf (dinode_off inum) din0).

Definition ialloc (type : Z) : F Z :=
  inum <- gets m_freeinode ;;
  modify (fun s => mk_mkst (m_img s) (u32 (m_freeinode s + 1)) (m_freeblock s)) ;;
  winode inum (set_i_type (i16 (xshort type)) (set_i_nlink (i16 (xshort 1)) (set_i_size (xint 0) din0))) ;;
  ret inum.

(** ** Appending to a file *)

(** [freeblock++] *)
Definition take_block : F Z :=
  fb <- gets m_freeblock ;;
  modify (fun s => mk_mkst (m_img s) (m_freeinode s) (u32 (m_freeblock s + 1))) ;;
  ret fb.

Definition addr (din : inode) (k : nat) : Z := nth k (i_addrs din) 0.
Definition set_din_addr (k : nat) (a : Z) (din : inode) : inode := set_i_addrs (<[k := xint a]> (i_addrs din)) din.

(** The block of the file's block [fbn], allocated if there is none. *)
Definition block_of (fbn : Z) (din : inode) : F (Z * inode) :=
  if fbn <? Z.of_nat NDIRECT then
    din <- (if xint (addr din (Z.to_nat fbn)) =? 0 then
              fb <- take_block ;; ret (set_din_addr (Z.to_nat fbn) fb din)
            else ret din) ;;
    ret (xint (addr din (Z.to_nat fbn)), din)
  else
    din <- (if xint (addr din NDIRECT) =? 0 then
              fb <- take_block ;; ret (set_din_addr NDIRECT fb din)
            else ret din) ;;
    indirect <- rsect (xint (addr din NDIRECT)) ;;
    let o := 4 * (fbn - Z.of_nat NDIRECT) in
    indirect <- (if lld32 indirect o =? 0 then
                   fb <- take_block ;;
                   let indirect := lst32 indirect o (xint fb) in
                   wsect (xint (addr din NDIRECT)) indirect ;;
                   ret indirect
                 else ret indirect) ;;
    ret (xint (lld32 indirect o), din).

(** One turn of the loop of [iappend]: the bytes left, the offset and the inode. *)
Definition iappend_step (st : list Z * Z * inode) : F (list Z * Z * inode + Z * inode) :=
  let '(p, off, din) := st in
  if zlen p <=? 0 then ret (inr (off, din))
  else
    let fbn := off / BSIZE in
    if MAXFILE <=? fbn then panic "assert" else
    ' (x, din) <- block_of fbn din ;;
    let n1 := Z.min (zlen p) ((fbn + 1) * BSIZE - off) in
    buf <- rsect x ;;
    wsect x (splice buf (off - fbn * BSIZE) (take (Z.to_nat n1) p)) ;;
    ret (inl (drop (Z.to_nat n1) p, u32 (off + n1), din)).

Definition iappend (inum : Z) (p : list Z) : F unit :=
  din <- rinode inum ;;
  ' (off, din) <- loop (S (length p)) iappend_step (p, xint (i_size din), din) ;;
  winode inum (set_i_size (xint off) din).

(** ** The bitmap *)

Definition bitmap_of (used : Z) : list Z :=
  fold_left (fun buf i => lput buf (Z.of_nat i / 8) (Z.lor (lget buf (Z.of_nat i / 8)) (bitmask (Z.of_nat i))))
    (seq 0 (Z.to_nat used)) zeros.

Definition balloc (used : Z) : F unit :=
  if BSIZE * 8 <=? used then panic "assert" else wsect (sb_bmapstart mkfs_sb) (bitmap_of used).

(** ** [main] *)

(** A directory entry: [xshort] of the number, [strncpy] of the name into a zeroed entry. *)
Definition root_entry (inum : Z) (name : list Z) : list Z := mk_dirent (xshort inum) (Obj.strncpy name DIRSIZ).

(** [if(argv[i][0] == '_') ++argv[i];] *)
Definition skip_underscore (name : list Z) : list Z :=
  match name with 95 :: name' => name' | _ => name end.

(** A file named on the command line: its name and what successive reads of it return, or
    [None] if it cannot be opened. *)
Definition add_file (rootino : Z) (f : list Z * option (list (list Z))) : F unit :=
  let '(name, pieces) := f in
  if existsb (Z.eqb 47) name then panic "assert" else
  match pieces with
  | None => panic "open"
  | Some pieces =>
      inum <- ialloc T_FILE ;;
      iappend rootino (root_entry inum (skip_underscore name)) ;;
      for_each pieces (iappend inum)
  end.

(** "fix size of root inode dir" *)
Definition fix_root (rootino : Z) : F unit :=
  din <- rinode rootino ;;
  winode rootino (set_i_size (xint ((xint (i_size din) / BSIZE + 1) * BSIZE)) din).

(** [main], from the opening of the image on; the counters as main() sets them. *)
Definition mkfs_start : mkst := mk_mkst [] 1 nmeta.

Definition mkfs (files : list (list Z * option (list (list Z)))) : F unit :=
  for_each (seq 0 (Z.to_nat FSSIZE)) (fun i => wsect (Z.of_nat i) zeros) ;;
  wsect 1 (sb_bytes mkfs_sb zeros) ;;
  rootino <- ialloc T_DIR ;;
  if negb (rootino =? ROOTINO) then panic "assert" else
  iappend rootino (root_entry rootino [46]) ;;
  iappend rootino (root_entry rootino [46; 46]) ;;
  for_each files (add_file rootino) ;;
  fix_root rootino ;;
  fb <- gets m_freeblock ;;
  balloc fb.

(** ** Blocks of the image *)

Lemma xint_eq x : xint x = u32 x.
Proof. unfold xint. zlia. Qed.

Lemma xint_small x : 0 <= x < 4294967296 -> xint x = x.
Proof. intros. rewrite xint_eq. by apply u32_small. Qed.

Lemma xshort_small x : 0 <= x < 65536 -> xshort x = x.
Proof. unfold xshort. zlia. Qed.

Definition blk (img : list (list Z)) (x : Z) : list Z := default [] (img !! Z.to_nat x).

Record disk_ok (img : list (list Z)) : Prop := {
  do_len : zlen img = FSSIZE;
  do_blk : Forall block_ok img
}.

Lemma seek_small x : 0 <= x < FSSIZE -> seek x = Z.to_nat x.
Proof. intros H. unfold seek, BSIZE, FSSIZE in *. rewrite u32_small by lia. by rewrite Z.div_mul. Qed.

Lemma blk_Some img x : disk_ok img -> 0 <= x < FSSIZE -> img !! Z.to_nat x = Some (blk img x).
Proof.
  intros [H _] Hx. unfold blk. destruct (lookup_lt_is_Some_2 img (Z.to_nat x)) as [b Hb]; [unfold zlen in H; lia|].
  by rewrite Hb.
Qed.

Lemma blk_ok img x : disk_ok img -> 0 <= x < FSSIZE -> block_ok (blk img x).
Proof. intros H Hx. apply (Forall_lookup_1 _ _ _ _ (do_blk _ H) (blk_Some _ _ H Hx)). Qed.

Definition put (img : list (list Z)) (x : Z) (b : list Z) : list (list Z) := <[Z.to_nat x := b]> img.

Lemma blk_put img x b y : disk_ok img -> 0 <= x < FSSIZE -> 0 <= y ->
  blk (put img x b) y = if y =? x then b else blk img y.
Proof.
  intros [H _] Hx Hy. unfold blk, put. destruct (Z.eqb_spec y x) as [->|N].
  - rewrite list_lookup_insert_eq; [done|]. unfold zlen in H. lia.
  - rewrite list_lookup_insert_ne by lia. done.
Qed.

Lemma put_ok img x b : disk_ok img -> block_ok b -> disk_ok (put img x b).
Proof.
  intros [H1 H2] Hb. split; [unfold zlen, put in *; by rewrite length_insert | by apply Forall_insert].
Qed.

Lemma rsect_eq s x : disk_ok (m_img s) -> 0 <= x < FSSIZE -> rsect x s = Ret (blk (m_img s) x) s.
Proof. intros H Hx. unfold rsect. rewrite bind_gets, seek_small, (blk_Some _ _ H Hx) by done. done. Qed.

Lemma wsect_eq s x b : disk_ok (m_img s) -> 0 <= x < FSSIZE ->
  wsect x b s = Ret tt (mk_mkst (put (m_img s) x b) (m_freeinode s) (m_freeblock s)).
Proof.
  intros [H _] Hx. unfold wsect, modify, put_block. rewrite seek_small by done. unfold zlen in H.
  rewrite (proj2 (Nat.ltb_lt _ _)) by lia. done.
Qed.

(** ** Files *)

(** A file as mkfs knows it: its inode, whether it has an indirect block, its number of
    blocks, its bytes. *)
Record fent := mk_fent { e_din : inode; e_ind : bool; e_nb : Z; e_data : list Z }.

Definition ind (e : fent) : Z := addr (e_din e) NDIRECT.
Definition faddr (img : list (list Z)) (e : fent) (bn : Z) : Z :=
  if bn <? Z.of_nat NDIRECT then addr (e_din e) (Z.to_nat bn)
  else lld32 (blk img (ind e)) (4 * (bn - Z.of_nat NDIRECT)).

(** [x] is a block of the file. *)
Definition owns (img : list (list Z)) (e : fent) (x : Z) : Prop :=
  (exists bn, 0 <= bn < e_nb e /\ x = faddr img e bn) \/ (e_ind e = true /\ x = ind e).

Record file_ok (img : list (list Z)) (fb : Z) (e : fent) : Prop := {
  fo_len : length (i_addrs (e_din e)) = S NDIRECT;
  fo_range : Forall (fun a => 0 <= a < 4294967296) (i_addrs (e_din e));
  fo_nb : 0 <= e_nb e <= MAXFILE;
  fo_size : zlen (e_data e) <= e_nb e * BSIZE;
  fo_in bn : 0 <= bn < e_nb e -> nmeta <= faddr img e bn < fb;
  fo_out bn : e_nb e <= bn < Z.of_nat NDIRECT -> faddr img e bn = 0;
  fo_noind : e_ind e = false -> ind e = 0 /\ e_nb e <= Z.of_nat NDIRECT;
  fo_ind : e_ind e = true -> nmeta <= ind e < fb /\ Z.of_nat NDIRECT <= e_nb e /\
    forall bn, e_nb e <= bn < MAXFILE -> faddr img e bn = 0;
  fo_inj bn bm : 0 <= bn < e_nb e -> 0 <= bm < e_nb e -> faddr img e bn = faddr img e bm -> bn = bm;
  fo_apart bn : 0 <= bn < e_nb e -> e_ind e = true -> faddr img e bn <> ind e;
  fo_byte k : 0 <= k < e_nb e * BSIZE -> lget (blk img (faddr img e (k / BSIZE))) (k mod BSIZE) = lget (e_data e) k
}.

Lemma owns_range img fb e x : file_ok img fb e -> owns img e x -> nmeta <= x < fb.
Proof.
  intros H [(bn & Hbn & ->)|[Hi ->]]; [by apply (fo_in _ _ _ H) | by apply (fo_ind _ _ _ H)].
Qed.

(** The addresses depend on the indirect block only. *)
Lemma faddr_ext img img' e bn : (e_ind e = true -> blk img' (ind e) = blk img (ind e)) ->
  e_ind e = true \/ bn < Z.of_nat NDIRECT -> faddr img' e bn = faddr img e bn.
Proof. intros H Hb. unfold faddr. destruct (Z.ltb_spec bn (Z.of_nat NDIRECT)); [done|]. destruct Hb; [by rewrite H | lia]. Qed.

Lemma file_direct img fb e bn : file_ok img fb e -> bn < e_nb e -> e_ind e = true \/ bn < Z.of_nat NDIRECT.
Proof. intros H Hb. destruct (e_ind e) eqn:E; [by left|]. right. apply (fo_noind _ _ _ H) in E. lia. Qed.

(** A file none of whose blocks change stays as it is. *)
Lemma file_frame img img' fb fb' e :
  file_ok img fb e -> (forall x, owns img e x -> blk img' x = blk img x) -> fb <= fb' ->
  file_ok img' fb' e /\ (forall x, owns img' e x -> owns img e x).
Proof.
  intros H Hx Hfb.
  assert (forall bn, e_ind e = true \/ bn < Z.of_nat NDIRECT -> faddr img' e bn = faddr img e bn) as Ha.
  { intros bn. apply faddr_ext. intros Hi. apply Hx. by right. }
  assert (forall bn, bn < e_nb e -> faddr img' e bn = faddr img e bn) as Hb.
  { intros bn Hb. apply Ha. by eapply file_direct. }
  split.
  - destruct H as [H1 H2 H3 H4 H5 H6 H7 H8 H9 H10 H11]. split; try done.
    + intros bn Hbn. rewrite Hb by lia. specialize (H5 bn Hbn). lia.
    + intros bn Hbn. rewrite Ha by lia. by apply H6.
    + intros Hi. destruct (H8 Hi) as (R & N & Z0). split_and!; [lia | lia | done|].
      intros bn Hbn. rewrite Ha by (by left). by apply Z0.
    + intros bn bm Hbn Hbm. rewrite !Hb by lia. by apply H9.
    + intros bn Hbn Hi. rewrite Hb by lia. by apply H10.
    + intros k Hk. assert (0 <= k / BSIZE < e_nb e) by (unfold BSIZE in *; zlia).
      rewrite Hb by lia. rewrite Hx; [by apply H11|]. left. by exists (k / BSIZE).
  - intros x [(bn & Hbn & ->)|[Hi ->]]; [left; exists bn; split; [done | apply Hb; lia] | by right].
Qed.

(** ** All files *)

Definition cost (e : fent) : Z := e_nb e + if e_ind e then 1 else 0.
Definition total (l : list fent) : Z := foldr (fun e n => cost e + n) 0 l.

Lemma total_insert l i e e' : l !! i = Some e -> total (<[i := e']> l) = total l - cost e + cost e'.
Proof.
  revert i. induction l as [|a l IH]; intros [|i] H; simplify_eq/=; [lia|]. rewrite (IH i H). lia.
Qed.

(** The data blocks: each in use by at most one file, those from [fb] on all zeros. *)
Record data_ok (img : list (list Z)) (fb : Z) (l : list fent) : Prop := {
  da_disk : disk_ok img;
  da_fb : fb = nmeta + total l;
  da_max : nmeta <= fb <= FSSIZE;
  da_zero x : fb <= x < FSSIZE -> blk img x = zeros;
  da_file i e : l !! i = Some e -> file_ok img fb e;
  da_apart i j e e' x : l !! i = Some e -> l !! j = Some e' -> owns img e x -> owns img e' x -> i = j
}.

(** A change to one file that takes its new blocks from the free ones. *)
Lemma data_update img fb l i e img' fb' e' :
  data_ok img fb l -> l !! i = Some e ->
  file_ok img' fb' e' -> disk_ok img' ->
  (forall x, owns img' e' x -> owns img e x \/ fb <= x) ->
  (forall x, 0 <= x < fb -> ~ owns img e x -> blk img' x = blk img x) ->
  (forall x, fb' <= x < FSSIZE -> blk img' x = zeros) ->
  fb' = fb + (cost e' - cost e) -> fb <= fb' <= FSSIZE ->
  data_ok img' fb' (<[i := e']> l).
Proof.
  intros H Hi He' Hd Ho Hb Hz Hfb Hle. pose proof (da_max _ _ _ H) as Hmax.
  assert (0 <= nmeta) as Hn by done.
  assert (forall j f, j <> i -> l !! j = Some f ->
    file_ok img' fb' f /\ (forall x, owns img' f x -> owns img f x)) as Hj.
  { intros j f N Hf. apply file_frame with fb; [by apply (da_file _ _ _ H j) | | lia].
    intros x Hx. pose proof (owns_range _ _ _ _ (da_file _ _ _ H j f Hf) Hx). apply Hb; [lia|].
    intros Hx'. apply N. by eapply (da_apart _ _ _ H). }
  assert (forall j f x, j <> i -> l !! j = Some f -> owns img' f x -> owns img' e' x -> False) as Hij.
  { intros j f x N Hf Hx Hx'. destruct (Hj j f N Hf) as [_ Hback]. apply Hback in Hx.
    destruct (Ho x Hx') as [Hx''|Hge]; [apply N; by eapply (da_apart _ _ _ H)|].
    pose proof (owns_range _ _ _ _ (da_file _ _ _ H j f Hf) Hx). lia. }
  assert (i < length l)%nat as Hlt by (by eapply lookup_lt_Some).
  split; [done | rewrite (total_insert _ _ e) by done; rewrite Hfb, (da_fb _ _ _ H); lia | lia | done | |].
  - intros j f Hf. destruct (decide (i = j)) as [<-|N].
    + rewrite list_lookup_insert_eq in Hf by done. by simplify_eq.
    + rewrite list_lookup_insert_ne in Hf by done. by apply (Hj j).
  - intros j k f f' x Hf Hf' Hx Hx'.
    destruct (decide (i = j)) as [<-|Nj], (decide (i = k)) as [<-|Nk]; [done| | |];
      rewrite ?list_lookup_insert_eq in Hf by done; rewrite ?list_lookup_insert_eq in Hf' by done;
      rewrite ?list_lookup_insert_ne in Hf by done; rewrite ?list_lookup_insert_ne in Hf' by done; simplify_eq.
    + exfalso. by apply (Hij k f' x).
    + exfalso. by apply (Hij j f x).
    + eapply (da_apart _ _ _ H); [exact Hf | exact Hf' | by apply (Hj j) | by apply (Hj k)].
Qed.

(** ** Growing a file *)

Definition with_din (f : inode -> inode) (e : fent) : fent := mk_fent (f (e_din e)) (e_ind e) (e_nb e) (e_data e).
Definition grown (e : fent) : fent := mk_fent (e_din e) (e_ind e) (e_nb e + 1) (e_data e).
Definition indirected (e : fent) : fent := mk_fent (e_din e) true (e_nb e) (e_data e).

Lemma addr_set din k a j :
  (k < length (i_addrs din))%nat -> 0 <= a < 4294967296 ->
  addr (set_din_addr k a din) j = if decide (j = k) then a else addr din j.
Proof.
  intros Hk Ha. unfold addr, set_din_addr. simpl. rewrite xint_small by done. rewrite !nth_lookup.
  case_decide; subst; [by rewrite list_lookup_insert_eq | by rewrite list_lookup_insert_ne].
Qed.

Lemma lget_past (l : list Z) k : zlen l <= k -> lget l k = 0.
Proof. intros H. unfold lget, zlen in *. by rewrite lookup_ge_None_2 by lia. Qed.

Lemma lget_zeros k : lget zeros k = 0.
Proof. unfold lget, zeros. destruct (_ !! _) eqn:E; [|done]. by apply lookup_replicate in E as [-> _]. Qed.

Lemma set_addr_ok k a din : 0 <= a < 4294967296 -> length (i_addrs din) = S NDIRECT ->
  Forall (fun a => 0 <= a < 4294967296) (i_addrs din) ->
  length (i_addrs (set_din_addr k a din)) = S NDIRECT /\
  Forall (fun a => 0 <= a < 4294967296) (i_addrs (set_din_addr k a din)).
Proof.
  intros Ha H1 H2. unfold set_din_addr. simpl. rewrite length_insert, xint_small by done. split; [done|].
  by apply Forall_insert.
Qed.

(** Byte [k] of block [e_nb e], which is new and zero. *)
Lemma byte_new img e k x : blk img x = zeros -> zlen (e_data e) <= e_nb e * BSIZE ->
  k / BSIZE = e_nb e -> lget (blk img x) (k mod BSIZE) = lget (e_data e) k.
Proof. intros -> H Hk. rewrite lget_zeros, lget_past; [done|]. unfold BSIZE in *. zlia. Qed.

(** What a new block [fb] does to a file. *)
Record grows (img img' : list (list Z)) (fb : Z) (e e' : fent) : Prop := {
  gr_data : e_data e' = e_data e;
  gr_hi : e_ind e' = e_ind e;
  gr_nb : e_nb e' = e_nb e + 1;
  gr_max : e_nb e < MAXFILE /\ (e_ind e = false -> e_nb e < Z.of_nat NDIRECT);
  gr_len : length (i_addrs (e_din e')) = S NDIRECT;
  gr_range : Forall (fun a => 0 <= a < 4294967296) (i_addrs (e_din e'));
  gr_ind : ind e' = ind e;
  gr_addr bn : 0 <= bn < MAXFILE -> e_ind e = true \/ bn < Z.of_nat NDIRECT ->
    faddr img' e' bn = if decide (bn = e_nb e) then fb else faddr img e bn;
  gr_blk bn : 0 <= bn < e_nb e -> blk img' (faddr img e bn) = blk img (faddr img e bn);
  gr_new : blk img' fb = zeros
}.

Lemma grows_addr img img' fb e e' bn : file_ok img fb e -> grows img img' fb e e' -> 0 <= bn < e_nb e' ->
  faddr img' e' bn = if decide (bn = e_nb e) then fb else faddr img e bn.
Proof.
  intros He G Hbn. rewrite (gr_nb _ _ _ _ _ G) in Hbn. destruct (gr_max _ _ _ _ _ G) as [G1 G2].
  apply (gr_addr _ _ _ _ _ G); [lia|]. destruct (e_ind e) eqn:E; [by left|]. specialize (G2 eq_refl). right. lia.
Qed.

Lemma grow_ok img img' fb e e' : file_ok img fb e -> nmeta <= fb -> grows img img' fb e e' ->
  file_ok img' (fb + 1) e' /\ (forall x, owns img' e' x -> owns img e x \/ fb <= x).
Proof.
  intros He Hfb G. pose proof (fun bn => grows_addr _ _ _ _ _ bn He G) as Ha. pose proof (fo_nb _ _ _ He) as Hnb0.
  destruct G as [G1 G2 G3 [G4 G4'] G5 G6 G7 G8 G9 G10]. rewrite G3 in Ha.
  assert (forall bn, 0 <= bn < e_nb e -> faddr img e bn < fb) as Hlow by (intros bn Hbn; apply (fo_in _ _ _ He) in Hbn; lia).
  split; [split|]; rewrite ?G1, ?G2, ?G3, ?G7; try done; try lia.
  - pose proof (fo_size _ _ _ He). unfold BSIZE in *. lia.
  - intros bn Hbn. rewrite Ha by lia. case_decide; [lia|]. pose proof (fo_in _ _ _ He bn ltac:(lia)). lia.
  - intros bn Hbn. rewrite G8 by (unfold MAXFILE, NDIRECT in *; lia). rewrite decide_False by lia. apply (fo_out _ _ _ He). lia.
  - intros E. pose proof (fo_noind _ _ _ He E). specialize (G4' E). split; [apply H | lia].
  - intros E. destruct (fo_ind _ _ _ He E) as (R & N & Z0). split_and!; [lia | lia | lia |].
    intros bn Hbn. rewrite G8 by (lia || by left). rewrite decide_False by lia. apply Z0. lia.
  - intros bn bm Hbn Hbm. rewrite !Ha by lia. repeat case_decide; subst; try done; intros Heq.
    + specialize (Hlow bm ltac:(lia)). lia.
    + specialize (Hlow bn ltac:(lia)). lia.
    + apply (fo_inj _ _ _ He); [lia | lia | done].
  - intros bn Hbn E. rewrite Ha by lia. destruct (fo_ind _ _ _ He E) as ([? ?] & _).
    case_decide; [lia|]. apply (fo_apart _ _ _ He); [lia | done].
  - intros k Hk. assert (0 <= k / BSIZE < e_nb e + 1) by (unfold BSIZE in *; zlia). rewrite Ha by lia.
    case_decide; [apply byte_new; [done | apply He | done]|].
    rewrite G9 by lia. apply (fo_byte _ _ _ He). unfold BSIZE in *. zlia.
  - intros x [(bn & Hbn & ->)|[E ->]].
    + rewrite G3 in Hbn. rewrite Ha by lia. case_decide; [right; lia|]. left. left. exists bn. split; [lia | done].
    + left. right. by rewrite <- G2, G7.
Qed.

(** A direct block. *)
Lemma add_direct img fb l i e :
  data_ok img fb l -> l !! i = Some e -> e_nb e < Z.of_nat NDIRECT -> fb < FSSIZE ->
  data_ok img (fb + 1) (<[i := grown (with_din (set_din_addr (Z.to_nat (e_nb e)) fb) e)]> l).
Proof.
  intros H Hi Hnb Hfb. pose proof (da_file _ _ _ H i e Hi) as He. pose proof (da_max _ _ _ H) as Hmax.
  assert (0 <= nmeta) as Hn by done. assert (FSSIZE < 4294967296) as Hs by done. pose proof (fo_nb _ _ _ He) as Hnb0.
  pose proof (fo_len _ _ _ He) as Hlen. set (e' := grown _).
  assert (forall j, addr (e_din e') j = if decide (j = Z.to_nat (e_nb e)) then fb else addr (e_din e) j) as Ha.
  { intros j. apply addr_set; [rewrite Hlen; lia | lia]. }
  destruct (set_addr_ok (Z.to_nat (e_nb e)) fb (e_din e)) as [L1 L2]; [lia | done | apply He |].
  assert (ind e' = ind e) as Hind by (unfold ind; rewrite Ha; by rewrite decide_False by lia).
  destruct (grow_ok img img fb e e' He ltac:(lia)) as [He' Ho].
  { split; try done; [unfold MAXFILE, NDIRECT in *; lia | | apply (da_zero _ _ _ H); lia].
    intros bn Hbn _. unfold faddr. destruct (Z.ltb_spec bn (Z.of_nat NDIRECT)).
    - rewrite Ha. repeat case_decide; (done || lia).
    - rewrite decide_False by lia. by rewrite Hind. }
  eapply data_update; try done; [apply H | intros x Hx; apply (da_zero _ _ _ H); lia | unfold cost, e'; simpl; lia | lia].
Qed.

(** The indirect block, of zeros. *)
Lemma add_indirect img fb l i e :
  data_ok img fb l -> l !! i = Some e -> e_nb e = Z.of_nat NDIRECT -> e_ind e = false -> fb < FSSIZE ->
  data_ok img (fb + 1) (<[i := indirected (with_din (set_din_addr NDIRECT fb) e)]> l).
Proof.
  intros H Hi Hnb Hhi Hfb. pose proof (da_file _ _ _ H i e Hi) as He. pose proof (da_max _ _ _ H) as Hmax.
  assert (0 <= nmeta) as Hn by done. assert (FSSIZE < 4294967296) as Hs by done.
  pose proof (fo_len _ _ _ He) as Hlen. set (e' := indirected _).
  assert (forall j, addr (e_din e') j = if decide (j = NDIRECT) then fb else addr (e_din e) j) as Ha.
  { intros j. apply addr_set; [rewrite Hlen; lia | lia]. }
  destruct (set_addr_ok NDIRECT fb (e_din e)) as [L1 L2]; [lia | done | apply He |].
  assert (ind e' = fb) as Hind by (unfold ind; rewrite Ha; by rewrite decide_True).
  assert (forall bn, 0 <= bn < e_nb e -> faddr img e' bn = faddr img e bn) as Ho.
  { intros bn Hbn. unfold faddr. rewrite (proj2 (Z.ltb_lt _ _)) by lia. rewrite Ha, decide_False by lia. done. }
  assert (forall bn, Z.of_nat NDIRECT <= bn -> faddr img e' bn = 0) as Hz.
  { intros bn Hbn. unfold faddr. rewrite (proj2 (Z.ltb_ge _ _)), Hind, (da_zero _ _ _ H) by lia.
    unfold lld32. by rewrite !lget_zeros. }
  eapply data_update; try done; [ | apply H | | intros x Hx; apply (da_zero _ _ _ H); lia | unfold cost, e'; simpl; rewrite Hhi; lia | lia].
  - split; try done; try apply He.
    + intros bn Hbn. simpl in Hbn. rewrite Ho by lia. pose proof (fo_in _ _ _ He bn ltac:(lia)). lia.
    + intros bn Hbn. simpl in Hbn. lia.
    + intros _. rewrite Hind. split_and!; [lia | lia | simpl; lia |]. intros bn Hbn. simpl in Hbn. apply Hz. lia.
    + intros bn bm Hbn Hbm. simpl in Hbn, Hbm. rewrite !Ho by lia. by apply (fo_inj _ _ _ He).
    + intros bn Hbn _. simpl in Hbn. rewrite Ho, Hind by lia. pose proof (fo_in _ _ _ He bn ltac:(lia)). lia.
    + intros k Hk. simpl in Hk. rewrite Ho by (unfold BSIZE in *; zlia). by apply (fo_byte _ _ _ He).
  - intros x [(bn & Hbn & ->)|[_ ->]]; [|right; rewrite Hind; lia]. simpl in Hbn.
    left. left. exists bn. split; [lia | by apply Ho].
Qed.

(** A block named in the indirect block. *)
Lemma add_entry img fb l i e :
  data_ok img fb l -> l !! i = Some e -> e_ind e = true -> e_nb e < MAXFILE -> fb < FSSIZE ->
  let o := 4 * (e_nb e - Z.of_nat NDIRECT) in
  data_ok (put img (ind e) (lst32 (blk img (ind e)) o fb)) (fb + 1) (<[i := grown e]> l).
Proof.
  intros H Hi Hhi Hnb Hfb o. pose proof (da_file _ _ _ H i e Hi) as He. pose proof (da_max _ _ _ H) as Hmax.
  assert (0 <= nmeta) as Hn by done. assert (FSSIZE < 4294967296) as Hs by done. pose proof (da_disk _ _ _ H) as Hd.
  destruct (fo_ind _ _ _ He Hhi) as (Hir & Hge & _). set (img' := put _ _ _).
  assert (forall y, 0 <= y -> blk img' y = if y =? ind e then lst32 (blk img (ind e)) o fb else blk img y) as Hb
    by (intros y Hy; apply blk_put; [done | lia | done]).
  destruct (blk_ok img (ind e) Hd ltac:(lia)) as [Hbl _].
  assert (forall y, 0 <= y -> y <> ind e -> blk img' y = blk img y) as Hne
    by (intros y Hy N; rewrite Hb by done; by rewrite (proj2 (Z.eqb_neq _ _))).
  destruct (grow_ok img img' fb e (grown e) He ltac:(lia)) as [He' Ho].
  { split; try done; try apply He; [by split; [|congruence] | | |].
    - intros bn Hbn _. unfold faddr. destruct (Z.ltb_spec bn (Z.of_nat NDIRECT)); [rewrite decide_False by lia; done|].
      unfold ind. simpl. fold (ind e). rewrite Hb, Z.eqb_refl by lia. case_decide as E.
      + subst bn. rewrite lld32_lst32; [apply u32_small; lia | unfold o; lia | unfold o, BSIZE, MAXFILE, NDIRECT in *; lia].
      + apply lld32_lst32_ne; unfold o; lia.
    - intros bn Hbn. pose proof (fo_in _ _ _ He bn Hbn). apply Hne; [lia | by apply (fo_apart _ _ _ He)].
    - rewrite Hne by lia. apply (da_zero _ _ _ H). lia. }
  eapply data_update; try done; [apply put_ok; [done | apply lst32_ok, blk_ok; [done | lia]] | | | unfold cost; simpl; lia | lia].
  - intros x Hx Hno. apply Hne; [lia|]. intros ->. apply Hno. by right.
  - intros x Hx. rewrite Hne by lia. apply (da_zero _ _ _ H). lia.
Qed.

(** Bytes at the end of the data, within one block. *)
Definition appended (p : list Z) (e : fent) : fent := mk_fent (e_din e) (e_ind e) (e_nb e) (e_data e ++ p).

Lemma lget_app (l l' : list Z) k : 0 <= k -> lget (l ++ l') k = if k <? zlen l then lget l k else lget l' (k - zlen l).
Proof.
  intros Hk. unfold lget, zlen. destruct (Z.ltb_spec k (Z.of_nat (length l))).
  - by rewrite lookup_app_l by lia.
  - rewrite lookup_app_r by lia. do 2 f_equal. lia.
Qed.

Lemma splice_appended d data p off k :
  zlen d = BSIZE -> off = zlen data -> off mod BSIZE + zlen p <= BSIZE -> 0 <= k -> k / BSIZE = off / BSIZE ->
  lget d (k mod BSIZE) = lget data k ->
  lget (splice d (off mod BSIZE) p) (k mod BSIZE) = lget (data ++ p) k.
Proof.
  intros Hd Hoff Hp Hk Hb Hold. assert (0 <= off mod BSIZE < BSIZE) as Ho by (apply Z.mod_pos_bound; done).
  assert (0 <= k mod BSIZE < BSIZE) as Hm by (apply Z.mod_pos_bound; done).
  assert (k - off = k mod BSIZE - off mod BSIZE) as Hdiff by (unfold BSIZE in *; zlia).
  rewrite lget_splice, lget_app by lia. rewrite Hold, <- Hoff.
  destruct (Z.leb_spec (off mod BSIZE) (k mod BSIZE)), (Z.ltb_spec (k mod BSIZE) (off mod BSIZE + zlen p)), (Z.ltb_spec k off);
    simpl; try lia; [f_equal; lia |].
  rewrite (lget_past data), (lget_past p) by lia. done.
Qed.

Lemma add_bytes img fb l i e p :
  data_ok img fb l -> l !! i = Some e -> Forall (fun x => 0 <= x < 256) p ->
  let off := zlen (e_data e) in
  off / BSIZE < e_nb e -> off mod BSIZE + zlen p <= BSIZE ->
  let x := faddr img e (off / BSIZE) in
  data_ok (put img x (splice (blk img x) (off mod BSIZE) p)) fb (<[i := appended p e]> l).
Proof.
  intros H Hi Hp off Hbn Hfit x. pose proof (da_file _ _ _ H i e Hi) as He. pose proof (da_max _ _ _ H) as Hmax.
  assert (0 <= nmeta) as Hn by done. pose proof (da_disk _ _ _ H) as Hd.
  assert (0 <= off / BSIZE) as Hbn0 by (unfold off, zlen, BSIZE; zlia).
  assert (0 <= off mod BSIZE) as Hmod by (unfold BSIZE; zlia).
  pose proof (fo_in _ _ _ He (off / BSIZE) ltac:(lia)) as Hx. fold x in Hx. set (img' := put _ _ _).
  assert (forall y, 0 <= y -> blk img' y = if y =? x then splice (blk img x) (off mod BSIZE) p else blk img y) as Hb
    by (intros y Hy; apply blk_put; [done | lia | done]).
  destruct (blk_ok img x Hd ltac:(lia)) as [Hbl Hbytes].
  assert (forall y, 0 <= y -> y <> x -> blk img' y = blk img y) as Hne
    by (intros y Hy N; rewrite Hb by done; by rewrite (proj2 (Z.eqb_neq _ _))).
  assert (forall bn, e_ind e = true \/ bn < Z.of_nat NDIRECT -> faddr img' (appended p e) bn = faddr img e bn) as Ha.
  { intros bn. apply (faddr_ext img img' e). intros E. destruct (fo_ind _ _ _ He E) as ([? ?] & _).
    apply Hne; [lia|]. intros E'. by apply (fo_apart _ _ _ He (off / BSIZE) ltac:(lia) E). }
  assert (forall bn, bn < e_nb e -> faddr img' (appended p e) bn = faddr img e bn) as Ha'
    by (intros bn Hlt; apply Ha; by eapply file_direct).
  eapply data_update; try done.
  - destruct He as [H1 H2 H3 H4 H5 H6 H7 H8 H9 H10 H11]. split; try done.
    + simpl. unfold zlen. rewrite length_app, Nat2Z.inj_add. fold (zlen (e_data e)) (zlen p) off. unfold BSIZE in *. zlia.
    + intros bn Hlt. rewrite Ha' by (simpl in Hlt; lia). by apply H5.
    + intros bn Hlt. rewrite Ha by (simpl in Hlt; lia). by apply H6.
    + intros E. destruct (H8 E) as (A1 & A2 & A3). split; [exact A1 | split; [exact A2|]].
      intros bn Hlt. rewrite Ha by (by left). by apply A3.
    + intros bn bm Hlt Hlt'. simpl in Hlt, Hlt'. rewrite !Ha' by lia. by apply H9.
    + intros bn Hlt E. simpl in Hlt. rewrite Ha' by lia. by apply H10.
    + intros k Hk. simpl in Hk. assert (0 <= k / BSIZE < e_nb e) as Hkb by (unfold BSIZE in *; zlia). rewrite Ha' by lia.
      destruct (decide (k / BSIZE = off / BSIZE)) as [E|N].
      * rewrite E. fold x. rewrite Hb, Z.eqb_refl by lia. apply splice_appended; [done | done | done | lia | done |].
        unfold x. rewrite <- E. by apply H11.
      * pose proof (H5 _ Hkb). rewrite Hne by (lia || (intros E; apply N, (H9 (k / BSIZE) (off / BSIZE) Hkb ltac:(lia) E))). rewrite H11 by done.
        simpl. rewrite lget_app by lia. destruct (Z.ltb_spec k (zlen (e_data e))) as [|Hge]; [done|].
        rewrite !lget_past; [done | | done]. fold off in Hge |- *. unfold BSIZE in *. zlia.
  - apply put_ok; [done|]. apply splice_ok; [by split | lia | lia | done].
  - intros y [(bn & Hlt & ->)|[E ->]]; left; [left; exists bn; split; [done | apply Ha'; simpl in Hlt; lia] | by right].
  - intros y Hy Hno. apply Hne; [lia|]. intros ->. apply Hno. left. by exists (off / BSIZE).
  - intros y Hy. rewrite Hne by lia. apply (da_zero _ _ _ H). lia.
  - unfold cost. simpl. lia.
  - lia.
Qed.

(** ** [iappend] *)

Definition same_meta (img img' : list (list Z)) : Prop := forall x, 0 <= x < nmeta -> blk img' x = blk img x.
Lemma same_meta_trans i1 i2 i3 : same_meta i1 i2 -> same_meta i2 i3 -> same_meta i1 i3.
Proof. intros H1 H2 x Hx. rewrite H2 by done. by apply H1. Qed.

Lemma same_meta_put img x b : disk_ok img -> nmeta <= x < FSSIZE -> same_meta img (put img x b).
Proof.
  intros Hd Hx y Hy. assert (0 <= nmeta) by done. rewrite blk_put by (done || lia). by rewrite (proj2 (Z.eqb_neq _ _)) by lia.
Qed.

(** The blocks of a file of [n] bytes, and with its indirect block. *)
Definition nblk (c : list Z) : Z := (zlen c + BSIZE - 1) / BSIZE.
Definition blocks_for (nb : Z) : Z := nb + if Z.of_nat NDIRECT <? nb then 1 else 0.

Lemma blocks_for_mono n n' : n <= n' -> blocks_for n <= blocks_for n'.
Proof. intros H. unfold blocks_for. destruct (Z.ltb_spec (Z.of_nat NDIRECT) n), (Z.ltb_spec (Z.of_nat NDIRECT) n'); lia. Qed.

(** One file of the image grows: what every step keeps. *)
Record grew (s s' : mkst) (l : list fent) (i : nat) (e e' : fent) : Prop := {
  gw_data : data_ok (m_img s') (m_freeblock s') (<[i := e']> l);
  gw_meta : same_meta (m_img s) (m_img s');
  gw_inodes : m_freeinode s' = m_freeinode s;
  gw_din : e_din e' = set_i_addrs (i_addrs (e_din e')) (e_din e);
  gw_ind : e_ind e' = (Z.of_nat NDIRECT <? e_nb e')
}.

Lemma grew_trans s1 s2 s3 l i e1 e2 e3 :
  grew s1 s2 l i e1 e2 -> grew s2 s3 (<[i := e2]> l) i e2 e3 -> grew s1 s3 l i e1 e3.
Proof.
  intros [A1 A2 A3 A4 A5] [B1 B2 B3 B4 B5]. split; try done.
  - by rewrite list_insert_insert_eq in B1.
  - by eapply same_meta_trans.
  - congruence.
  - rewrite B4, A4. done.
Qed.

Lemma take_block_eq s : 0 <= m_freeblock s < FSSIZE ->
  take_block s = Ret (m_freeblock s) (mk_mkst (m_img s) (m_freeinode s) (m_freeblock s + 1)).
Proof. intros H. unfold take_block. rewrite bind_gets, bind_modify. unfold FSSIZE in H. by rewrite u32_small by lia. Qed.

Lemma addr_range img fb e k : file_ok img fb e -> 0 <= addr (e_din e) k < 4294967296.
Proof.
  intros H. unfold addr. rewrite nth_lookup. destruct (_ !! k) eqn:E; [|simpl; lia].
  by apply (Forall_lookup_1 _ _ _ _ (fo_range _ _ _ H) E).
Qed.

Lemma block_of_direct s l i e bn :
  data_ok (m_img s) (m_freeblock s) l -> l !! i = Some e -> e_ind e = (Z.of_nat NDIRECT <? e_nb e) ->
  0 <= bn <= e_nb e -> bn < Z.of_nat NDIRECT ->
  m_freeblock s + blocks_for (Z.max (e_nb e) (bn + 1)) - blocks_for (e_nb e) <= FSSIZE ->
  exists s' e', block_of bn (e_din e) s = Ret (faddr (m_img s') e' bn, e_din e') s' /\
    grew s s' l i e e' /\ e_data e' = e_data e /\ e_nb e' = Z.max (e_nb e) (bn + 1).
Proof.
  intros H Hi Hhi Hbn Hlt Hfit. pose proof (da_file _ _ _ H i e Hi) as He. pose proof (da_max _ _ _ H) as Hmax.
  assert (0 < nmeta) as Hn by done. pose proof (addr_range _ _ _ (Z.to_nat bn) He) as Hr.
  assert (forall img e, faddr img e bn = addr (e_din e) (Z.to_nat bn)) as Hfa
    by (intros; unfold faddr; by rewrite (proj2 (Z.ltb_lt _ _))).
  unfold block_of. rewrite (proj2 (Z.ltb_lt _ _) Hlt), xint_small by done.
  destruct (decide (bn < e_nb e)) as [Hold|Hnew].
  - pose proof (fo_in _ _ _ He bn ltac:(lia)) as Hin. rewrite Hfa in Hin. rewrite (proj2 (Z.eqb_neq _ _)) by lia.
    exists s, e. rewrite bind_ret, xint_small, Hfa by done. split; [done|].
    split; [|split; [done | lia]]. split; [by rewrite list_insert_id | done | done | by destruct (e_din e) | done].
  - assert (bn = e_nb e) as -> by lia. pose proof (fo_out _ _ _ He (e_nb e) ltac:(lia)) as Hz. rewrite Hfa in Hz.
    rewrite Hz. simpl (0 =? 0). rewrite Z.max_r in * by lia. unfold blocks_for in Hfit.
    rewrite !(proj2 (Z.ltb_ge _ _)) in Hfit by lia.
    pose proof (add_direct _ _ _ _ _ H Hi Hlt ltac:(lia)) as H'. set (e' := grown _) in H'.
    set (s' := mk_mkst (m_img s) (m_freeinode s) (m_freeblock s + 1)). exists s', e'.
    erewrite (bind_Ret (bind take_block _)) by (rewrite (bind_Ret _ _ _ _ _ (take_block_eq s ltac:(lia))); done).
    assert (i < length l)%nat as Hil by (by eapply lookup_lt_Some).
    pose proof (addr_range _ _ _ (Z.to_nat (e_nb e)) (da_file _ _ _ H' i e' ltac:(by apply list_lookup_insert_eq))) as Hr'.
    rewrite xint_small, Hfa by done. split; [done|]. split; [|done].
    split; try done. unfold e'. simpl. rewrite Hhi. rewrite !(proj2 (Z.ltb_ge _ _)) by lia. done.
Qed.

(** The first half of the other branch: the indirect block. *)
Lemma ensure_indirect s l i e :
  data_ok (m_img s) (m_freeblock s) l -> l !! i = Some e -> Z.of_nat NDIRECT <= e_nb e ->
  m_freeblock s + (if e_ind e then 0 else 1) <= FSSIZE ->
  exists e', (if xint (addr (e_din e) NDIRECT) =? 0 then
                fb <- take_block ;; ret (set_din_addr NDIRECT fb (e_din e))
              else ret (e_din e)) s =
    Ret (e_din e') (mk_mkst (m_img s) (m_freeinode s) (m_freeblock s + if e_ind e then 0 else 1)) /\
    data_ok (m_img s) (m_freeblock s + if e_ind e then 0 else 1) (<[i := e']> l) /\
    e_ind e' = true /\ e_nb e' = e_nb e /\ e_data e' = e_data e /\ e_din e' = set_i_addrs (i_addrs (e_din e')) (e_din e).
Proof.
  intros H Hi Hnb Hfit. pose proof (da_file _ _ _ H i e Hi) as He. pose proof (da_max _ _ _ H) as Hmax.
  assert (0 < nmeta) as Hn by done. rewrite xint_small by (eapply addr_range; done).
  change (addr (e_din e) NDIRECT) with (ind e). destruct (e_ind e) eqn:E.
  - destruct (fo_ind _ _ _ He E) as ([? ?] & _). rewrite (proj2 (Z.eqb_neq _ _)) by lia.
    exists e. rewrite Z.add_0_r, list_insert_id by done. split_and!; try done; by destruct s.
  - destruct (fo_noind _ _ _ He E) as [Hz Hle]. rewrite Hz. simpl (0 =? 0).
    pose proof (add_indirect _ _ _ _ _ H Hi ltac:(lia) E ltac:(lia)) as H'.
    exists (indirected (with_din (set_din_addr NDIRECT (m_freeblock s)) e)).
    rewrite (bind_Ret _ _ _ _ _ (take_block_eq s ltac:(lia))).
    split; [reflexivity | split; [exact H' | done]].
Qed.

(** The second half: the entry of the indirect block. *)
Lemma ensure_entry s l i e bn :
  data_ok (m_img s) (m_freeblock s) l -> l !! i = Some e -> e_ind e = true ->
  Z.of_nat NDIRECT <= bn <= e_nb e -> bn < MAXFILE ->
  m_freeblock s + (if bn <? e_nb e then 0 else 1) <= FSSIZE ->
  exists s', (indirect <- rsect (xint (addr (e_din e) NDIRECT)) ;;
     let o := 4 * (bn - Z.of_nat NDIRECT) in
     indirect <- (if lld32 indirect o =? 0 then
                    fb <- take_block ;;
                    let indirect := lst32 indirect o (xint fb) in
                    wsect (xint (addr (e_din e) NDIRECT)) indirect ;;
                    ret indirect
                  else ret indirect) ;;
     ret (xint (lld32 indirect o), e_din e)) s = Ret (faddr (m_img s') e bn, e_din e) s' /\
    let e' := if bn <? e_nb e then e else grown e in
    data_ok (m_img s') (m_freeblock s') (<[i := e']> l) /\ same_meta (m_img s) (m_img s') /\
    m_freeinode s' = m_freeinode s.
Proof.
  intros H Hi Hhi Hbn Hlt Hfit. pose proof (da_file _ _ _ H i e Hi) as He. pose proof (da_max _ _ _ H) as Hmax.
  assert (0 < nmeta) as Hn by done. assert (FSSIZE < 4294967296) as Hs by done. pose proof (da_disk _ _ _ H) as Hd.
  rewrite xint_small by (eapply addr_range; done). change (addr (e_din e) NDIRECT) with (ind e).
  destruct (fo_ind _ _ _ He Hhi) as (Hir & Hge & Hz).
  rewrite (bind_Ret _ _ _ _ _ (rsect_eq s (ind e) Hd ltac:(lia))). cbv zeta.
  assert (forall img, faddr img e bn = lld32 (blk img (ind e)) (4 * (bn - Z.of_nat NDIRECT))) as Hfa
    by (intros img; unfold faddr; by rewrite (proj2 (Z.ltb_ge _ _)) by lia).
  rewrite <- Hfa. destruct (Z.ltb_spec bn (e_nb e)) as [Hold|Hnew].
  - pose proof (fo_in _ _ _ He bn ltac:(lia)). rewrite (proj2 (Z.eqb_neq _ _)) by lia. exists s.
    rewrite bind_ret, <- Hfa, xint_small by lia. rewrite list_insert_id by done. split_and!; done.
  - assert (bn = e_nb e) as -> by lia. rewrite (Hz (e_nb e) ltac:(lia)). simpl (0 =? 0).
    pose proof (add_entry _ _ _ _ _ H Hi Hhi Hlt ltac:(lia)) as H'. cbv zeta in H'. set (d := lst32 _ _ _) in H'.
    set (s' := mk_mkst (put (m_img s) (ind e) d) (m_freeinode s) (m_freeblock s + 1)). exists s'.
    erewrite (bind_Ret (bind take_block _)).
    2:{ rewrite (bind_Ret _ _ _ _ _ (take_block_eq s ltac:(lia))). cbv zeta. rewrite xint_small by lia.
        rewrite (bind_Ret _ _ _ _ _ (wsect_eq (mk_mkst (m_img s) (m_freeinode s) (m_freeblock s + 1)) (ind e) d Hd ltac:(lia))). reflexivity. }
    split; [|split_and!; [exact H' | apply same_meta_put; [done | lia] | done]].
    rewrite Hfa. unfold s'. simpl m_img. rewrite blk_put, Z.eqb_refl by (done || lia). fold d.
    rewrite xint_small; [done|].
    assert (i < length l)%nat as Hil by (by eapply lookup_lt_Some).
    pose proof (fo_in _ _ _ (da_file _ _ _ H' i (grown e) ltac:(by apply list_lookup_insert_eq)) (e_nb e) ltac:(simpl; lia)) as Hin.
    unfold faddr in Hin. rewrite (proj2 (Z.ltb_ge _ _)) in Hin by lia. unfold ind in Hin. simpl in Hin. fold (ind e) in Hin.
    rewrite blk_put, Z.eqb_refl in Hin by (done || lia). lia.
Qed.

Lemma block_of_spec s l i e bn :
  data_ok (m_img s) (m_freeblock s) l -> l !! i = Some e -> e_ind e = (Z.of_nat NDIRECT <? e_nb e) ->
  0 <= bn <= e_nb e -> bn < MAXFILE ->
  m_freeblock s + blocks_for (Z.max (e_nb e) (bn + 1)) - blocks_for (e_nb e) <= FSSIZE ->
  exists s' e', block_of bn (e_din e) s = Ret (faddr (m_img s') e' bn, e_din e') s' /\
    grew s s' l i e e' /\ e_data e' = e_data e /\ e_nb e' = Z.max (e_nb e) (bn + 1).
Proof.
  intros H Hi Hhi Hbn Hlt Hfit. destruct (Z.ltb_spec bn (Z.of_nat NDIRECT)) as [Hd|Hd]; [by apply block_of_direct|].
  assert (i < length l)%nat as Hil by (by eapply lookup_lt_Some).
  unfold block_of. rewrite (proj2 (Z.ltb_ge _ _)) by lia. unfold blocks_for in Hfit.
  rewrite (proj2 (Z.ltb_lt (Z.of_nat NDIRECT) (Z.max _ _))), <- Hhi in Hfit by lia.
  destruct (ensure_indirect s l i e H Hi ltac:(lia)) as (e1 & E1 & H1 & I1 & N1 & D1 & F1); [destruct (e_ind e); lia|].
  rewrite (bind_Ret _ _ _ _ _ E1). set (s1 := mk_mkst _ _ _) in *.
  edestruct (ensure_entry s1 _ i e1 bn H1) as (s2 & E2 & H2 & M2 & Fi2); try done.
  { by apply list_lookup_insert_eq. }
  { lia. }
  { unfold s1. simpl. rewrite N1. destruct (Z.ltb_spec bn (e_nb e)), (e_ind e); lia. }
  rewrite list_insert_insert_eq in H2. exists s2, (if bn <? e_nb e1 then e1 else grown e1).
  split; [etrans; [exact E2 | destruct (bn <? e_nb e1); reflexivity]|].
  assert (e_nb (if bn <? e_nb e1 then e1 else grown e1) = Z.max (e_nb e) (bn + 1)) as Hnb.
  { rewrite N1. destruct (Z.ltb_spec bn (e_nb e)); simpl; rewrite ?N1; lia. }
  split; [split; try done|split; [|done]].
  - destruct (bn <? e_nb e1); exact F1.
  - rewrite Hnb, (proj2 (Z.ltb_lt (Z.of_nat NDIRECT) (Z.max _ _))) by lia. destruct (bn <? e_nb e1); exact I1.
  - destruct (bn <? e_nb e1); exact D1.
Qed.

Lemma nblk_range c : 0 <= zlen c <= nblk c * BSIZE /\ nblk c * BSIZE < zlen c + BSIZE.
Proof. unfold nblk, zlen, BSIZE. zlia. Qed.

Lemma zlen_app {A} (l l' : list A) : zlen (l ++ l') = zlen l + zlen l'.
Proof. unfold zlen. rewrite length_app. lia. Qed.

(** One turn: the first [n1] bytes of [p] are added. *)
Lemma iappend_step_spec s l i e p :
  data_ok (m_img s) (m_freeblock s) l -> l !! i = Some e -> e_ind e = (Z.of_nat NDIRECT <? e_nb e) ->
  e_nb e = nblk (e_data e) -> p <> [] -> Forall (fun x => 0 <= x < 256) p ->
  zlen (e_data e) < MAXFILE * BSIZE ->
  let off := zlen (e_data e) in
  let n1 := Z.min (zlen p) ((off / BSIZE + 1) * BSIZE - off) in
  let c := e_data e ++ take (Z.to_nat n1) p in
  m_freeblock s + blocks_for (nblk c) - blocks_for (e_nb e) <= FSSIZE ->
  exists s' e', iappend_step (p, off, e_din e) s = Ret (inl (drop (Z.to_nat n1) p, zlen c, e_din e')) s' /\
    grew s s' l i e e' /\ e_data e' = c /\ e_nb e' = nblk c.
Proof.
  intros H Hi Hhi Hnb Hp Hbytes Hmaxf off n1 c Hfit. assert (0 < zlen p) as Hp0 by (unfold zlen; destruct p; [done | simpl; lia]).
  assert (0 < nmeta) as Hn by done.
  pose proof (nblk_range (e_data e)) as Hr. fold off in Hr, Hmaxf. rewrite <- Hnb in Hr.
  assert (1 <= n1 <= zlen p) as Hn1 by (unfold n1, BSIZE in *; zlia).
  assert (zlen (take (Z.to_nat n1) p) = n1) as Hl1 by (unfold zlen in *; rewrite length_take; lia).
  assert (zlen c = off + n1) as Hc by (unfold c; rewrite zlen_app, Hl1; done).
  assert (nblk c = off / BSIZE + 1) as Hnc by (unfold nblk; rewrite Hc; unfold n1, BSIZE in *; zlia).
  assert (0 <= off / BSIZE <= e_nb e) as Hbn by (unfold BSIZE in *; zlia).
  assert (Z.max (e_nb e) (off / BSIZE + 1) = nblk c) as Hm by (rewrite Hnc; unfold BSIZE in *; zlia).
  assert (off / BSIZE < MAXFILE) as Hlt by (unfold MAXFILE, BSIZE in *; zlia).
  destruct (block_of_spec s l i e (off / BSIZE) H Hi Hhi Hbn Hlt) as (s1 & e1 & E1 & G1 & D1 & N1); [by rewrite Hm|].
  assert (i < length l)%nat as Hil by (by eapply lookup_lt_Some). pose proof (gw_data _ _ _ _ _ _ G1) as H1.
  assert ((<[i := e1]> l) !! i = Some e1) as Hi1 by (by apply list_lookup_insert_eq).
  pose proof (da_disk _ _ _ H1) as Hd1. pose proof (da_max _ _ _ H1) as Hmax1.
  pose proof (fo_in _ _ _ (da_file _ _ _ H1 i e1 Hi1) (off / BSIZE) ltac:(lia)) as Hx. set (x := faddr _ e1 _) in *.
  pose proof (add_bytes _ _ _ _ _ (take (Z.to_nat n1) p) H1 Hi1) as H2. rewrite D1 in H2. fold off x in H2.
  specialize (H2 ltac:(by apply Forall_take) ltac:(lia) ltac:(rewrite Hl1; unfold n1, BSIZE in *; zlia)). cbv zeta in H2.
  rewrite list_insert_insert_eq in H2.
  eexists (mk_mkst _ (m_freeinode s1) (m_freeblock s1)), (appended (take (Z.to_nat n1) p) e1). split.
  - unfold iappend_step. rewrite (proj2 (Z.leb_gt _ _) Hp0), (proj2 (Z.leb_gt _ _) Hlt), (bind_Ret _ _ _ _ _ E1). cbv zeta. fold n1 x.
    rewrite (bind_Ret _ _ _ _ _ (rsect_eq s1 x Hd1 ltac:(lia))), (bind_Ret _ _ _ _ _ (wsect_eq s1 x _ Hd1 ltac:(lia))).
    replace (off - off / BSIZE * BSIZE) with (off mod BSIZE) by (unfold BSIZE; zlia).
    rewrite u32_small, <- Hc by (unfold MAXFILE, BSIZE in *; zlia). reflexivity.
  - split; [|split; [simpl; by rewrite D1 | simpl; lia]]. split; try apply G1; [exact H2|].
    simpl. eapply same_meta_trans; [apply G1 | apply same_meta_put; [done | lia]].
Qed.

Lemma iappend_loop fuel : forall s l i e p,
  data_ok (m_img s) (m_freeblock s) l -> l !! i = Some e -> e_ind e = (Z.of_nat NDIRECT <? e_nb e) ->
  e_nb e = nblk (e_data e) -> Forall (fun x => 0 <= x < 256) p ->
  zlen (e_data e ++ p) <= MAXFILE * BSIZE -> (length p < fuel)%nat ->
  m_freeblock s + blocks_for (nblk (e_data e ++ p)) - blocks_for (e_nb e) <= FSSIZE ->
  exists s' e', loop fuel iappend_step (p, zlen (e_data e), e_din e) s = Ret (zlen (e_data e ++ p), e_din e') s' /\
    grew s s' l i e e' /\ e_data e' = e_data e ++ p /\ e_nb e' = nblk (e_data e ++ p).
Proof.
  induction fuel as [|fuel IH]; intros s l i e p H Hi Hhi Hnb Hb Hmax Hf Hfit; [lia|].
  destruct (decide (p = [])) as [->|Hp].
  - exists s, e. rewrite app_nil_r in *. split; [done|]. split; [|done].
    split; [by rewrite list_insert_id | done | done | by destruct (e_din e) | done].
  - assert (0 < zlen p) as Hp0 by (unfold zlen; destruct p; [done | simpl; lia]). rewrite zlen_app in Hmax.
    pose proof (iappend_step_spec s l i e p H Hi Hhi Hnb Hp Hb ltac:(lia)) as Hstep. cbv zeta in Hstep.
    set (n1 := Z.min _ _) in Hstep.
    assert (1 <= n1 <= zlen p) as Hn1 by (unfold n1, BSIZE, zlen in *; zlia).
    set (c := e_data e ++ _) in Hstep.
    assert (e_data e ++ p = c ++ drop (Z.to_nat n1) p) as Hsplit by (unfold c; by rewrite <- app_assoc, take_drop).
    assert (blocks_for (nblk c) <= blocks_for (nblk (e_data e ++ p))) as Hmono.
    { apply blocks_for_mono. rewrite Hsplit. unfold nblk. rewrite zlen_app. apply Z.div_le_mono; [done|].
      unfold zlen at 3. lia. }
    destruct Hstep as (s1 & e1 & E1 & G1 & D1 & N1); [lia|].
    assert (i < length l)%nat as Hil by (by eapply lookup_lt_Some). pose proof (gw_data _ _ _ _ _ _ G1) as H1.
    assert (m_freeblock s1 = m_freeblock s + blocks_for (nblk c) - blocks_for (e_nb e)) as Hfb.
    { rewrite (da_fb _ _ _ H1), (da_fb _ _ _ H), (total_insert _ _ _ _ Hi). unfold cost, blocks_for.
      rewrite (gw_ind _ _ _ _ _ _ G1), Hhi, N1. lia. }
    destruct (IH s1 _ i e1 (drop (Z.to_nat n1) p) H1) as (s2 & e2 & E2 & G2 & D2 & N2).
    + by apply list_lookup_insert_eq.
    + apply G1.
    + by rewrite N1, D1.
    + by apply Forall_drop.
    + rewrite D1, <- Hsplit, zlen_app. lia.
    + rewrite length_drop. unfold zlen in *. lia.
    + rewrite D1, <- Hsplit, N1. lia.
    + exists s2, e2. rewrite D1 in *. rewrite <- Hsplit in *. split_and!; [| by eapply grew_trans | done | done].
      cbn [loop]. by rewrite (bind_Ret _ _ _ _ _ E1).
Qed.

(** ** The whole image *)

Definition din_of (img : list (list Z)) (inum : Z) : inode :=
  dec_dinode (blk img (IBLOCK inum mkfs_sb)) (dinode_off inum) din0.

(** Inode numbers the inode blocks have room for, and the inode blocks. *)
Definition MAXINUM : Z := ninodeblocks * IPB.
Definition inode_block (x : Z) : Prop := 2 + nlog <= x < 2 + nlog + ninodeblocks.

Lemma IBLOCK_range inum : 0 <= inum < MAXINUM ->
  IBLOCK inum mkfs_sb = inum / IPB + (2 + nlog) /\ inode_block (IBLOCK inum mkfs_sb).
Proof.
  intros H. unfold IBLOCK, inode_block. change (sb_inodestart mkfs_sb) with (2 + nlog).
  change MAXINUM with 208 in H. change ninodeblocks with 26. change nlog with 30. unfold IPB. rewrite u32_small; zlia.
Qed.

Lemma inode_block_meta x : inode_block x -> 0 <= x < nmeta /\ x < FSSIZE.
Proof. unfold inode_block. change ninodeblocks with 26. change nlog with 30. change nmeta with 83. unfold FSSIZE. lia. Qed.

(** The fields an inode has on disk, and nothing else. *)
Definition on_disk (ip : inode) : Prop := inode_ok ip /\ with_fields ip din0 = ip.

Lemma winode_spec s inum ip :
  disk_ok (m_img s) -> 0 <= inum < MAXINUM -> on_disk ip ->
  exists img', winode inum ip s = Ret tt (mk_mkst img' (m_freeinode s) (m_freeblock s)) /\ disk_ok img' /\
    din_of img' inum = ip /\
    (forall j, 0 <= j < MAXINUM -> j <> inum -> din_of img' j = din_of (m_img s) j) /\
    (forall x, 0 <= x -> ~ inode_block x -> blk img' x = blk (m_img s) x).
Proof.
  intros Hd Hi [Hok Hw]. destruct (IBLOCK_range inum Hi) as [Hb Hib]. pose proof (inode_block_meta _ Hib) as Hr.
  set (b := IBLOCK inum mkfs_sb) in *. set (o := dinode_off inum). pose proof (dinode_off_range inum) as Ho. fold o in Ho.
  destruct (blk_ok (m_img s) b Hd ltac:(lia)) as [Hlen Hby].
  exists (put (m_img s) b (enc_dinode ip o (blk (m_img s) b))).
  assert (forall y, 0 <= y -> blk (put (m_img s) b (enc_dinode ip o (blk (m_img s) b))) y =
    if y =? b then enc_dinode ip o (blk (m_img s) b) else blk (m_img s) y) as Hblk
    by (intros y Hy; apply blk_put; [done | lia | done]).
  split_and!.
  - unfold winode. rewrite (bind_Ret _ _ _ _ _ (rsect_eq s b Hd ltac:(lia))). apply wsect_eq; [done | lia].
  - apply put_ok; [done|]. apply enc_dinode_ok. by split.
  - unfold din_of. fold b o. rewrite Hblk, Z.eqb_refl by lia. rewrite dec_enc_dinode by (done || lia). exact Hw.
  - intros j Hj N. unfold din_of. destruct (IBLOCK_range j Hj) as [Hjb Hjib]. pose proof (inode_block_meta _ Hjib).
    rewrite Hblk by lia. destruct (Z.eqb_spec (IBLOCK j mkfs_sb) b) as [E|]; [|done]. rewrite E.
    pose proof (dinode_off_range j). apply dec_enc_other; [done | lia | lia |]. apply dinode_off_disjoint.
    unfold IPB in *. rewrite Hjb, Hb in E. intros Em. apply N. zlia.
  - intros x Hx N. rewrite Hblk by done. rewrite (proj2 (Z.eqb_neq _ _)); [done|]. by intros ->.
Qed.

(** The files: type and bytes of inode 1, 2, ... *)
Local Notation files := (list (Z * list Z)).
Definition shown (e : fent) : Z * list Z := (i_type (e_din e), e_data e).

Record entry_ok (e : fent) : Prop := {
  eo_ind : e_ind e = (Z.of_nat NDIRECT <? e_nb e);
  eo_nb : e_nb e = nblk (e_data e);
  eo_size : i_size (e_din e) = zlen (e_data e);
  eo_nlink : i_nlink (e_din e) = 1;
  eo_disk : on_disk (e_din e)
}.

Record image (s : mkst) (l : list fent) : Prop := {
  im_data : data_ok (m_img s) (m_freeblock s) l;
  im_next : m_freeinode s = 1 + zlen l;
  im_max : m_freeinode s <= MAXINUM;
  im_din i e : l !! i = Some e -> din_of (m_img s) (1 + Z.of_nat i) = e_din e /\ entry_ok e;
  im_free inum : m_freeinode s <= inum < MAXINUM -> din_of (m_img s) inum = din0;
  im_sb : blk (m_img s) 1 = sb_bytes mkfs_sb zeros;
  im_zero x : 0 <= x < nmeta -> x <> 1 -> ~ inode_block x -> blk (m_img s) x = zeros
}.

Lemma data_frame img img' fb l :
  data_ok img fb l -> disk_ok img' -> (forall x, nmeta <= x < FSSIZE -> blk img' x = blk img x) -> data_ok img' fb l.
Proof.
  intros H Hd Hb. pose proof (da_max _ _ _ H).
  assert (forall i e, l !! i = Some e -> file_ok img' fb e /\ (forall x, owns img' e x -> owns img e x)) as Hf.
  { intros i e Hi. pose proof (da_file _ _ _ H i e Hi) as He. apply file_frame with fb; [done | | lia].
    intros x Hx. apply (owns_range _ _ _ _ He) in Hx. apply Hb. lia. }
  split; [done | apply H | done | intros x Hx; rewrite Hb by lia; by apply (da_zero _ _ _ H) | intros i e Hi; by apply (Hf i) |].
  intros i j e e' x Hi Hj Hx Hx'. eapply (da_apart _ _ _ H); [exact Hi | exact Hj | by apply (Hf i) | by apply (Hf j)].
Qed.

(** [winode] of inode [inum], the rest of the image unchanged. *)
Lemma winode_image s inum ip :
  disk_ok (m_img s) -> 0 <= inum < MAXINUM -> on_disk ip ->
  exists img', winode inum ip s = Ret tt (mk_mkst img' (m_freeinode s) (m_freeblock s)) /\
    (forall l, data_ok (m_img s) (m_freeblock s) l -> data_ok img' (m_freeblock s) l) /\
    din_of img' inum = ip /\
    (forall j, 0 <= j < MAXINUM -> j <> inum -> din_of img' j = din_of (m_img s) j) /\
    blk img' 1 = blk (m_img s) 1 /\
    (forall x, 0 <= x -> ~ inode_block x -> blk img' x = blk (m_img s) x).
Proof.
  intros Hd Hi Hok. destruct (winode_spec s inum ip Hd Hi Hok) as (img' & E & Hd' & H1 & H2 & H3).
  exists img'. split_and!; try done.
  - intros l H. apply (data_frame (m_img s)); [done | done |]. intros x Hx. apply H3; [assert (0 < nmeta) by done; lia|].
    intros Hx'%inode_block_meta. lia.
  - apply H3; [lia|]. unfold inode_block. change nlog with 30. lia.
Qed.

Definition new_file (type : Z) : fent := mk_fent (set_i_type type (set_i_nlink 1 (set_i_size 0 din0))) false 0 [].

Lemma nth_replicate0 n k : nth k (replicate n 0) 0 = 0.
Proof. rewrite nth_lookup. destruct (_ !! k) eqn:E; [|done]. by apply lookup_replicate in E as [-> _]. Qed.

Lemma new_file_ok img fb type : -32768 <= type < 32768 -> file_ok img fb (new_file type) /\ entry_ok (new_file type).
Proof.
  intros Ht. assert (Forall (fun a => 0 <= a < 4294967296) (replicate 13 0)) as Hr by (by apply Forall_replicate).
  split.
  - split; try done; try (simpl; lia).
    intros bn Hbn. simpl in Hbn. unfold faddr. rewrite (proj2 (Z.ltb_lt _ _)) by lia. apply nth_replicate0.
  - split; done.
Qed.

Lemma data_new img fb l e : data_ok img fb l -> file_ok img fb e -> e_nb e = 0 -> e_ind e = false -> data_ok img fb (l ++ [e]).
Proof.
  intros H He Hnb Hhi. assert (forall x, ~ owns img e x) as Hno.
  { intros x [(bn & Hbn & _)|[E _]]; [lia | congruence]. }
  assert (forall i f, (l ++ [e]) !! i = Some f -> l !! i = Some f \/ f = e) as Hl.
  { intros i f [Hi|[_ Hi]]%lookup_app_Some; [by left|]. right. by apply list_lookup_singleton_Some in Hi as [_ <-]. }
  split; try apply H.
  - rewrite (da_fb _ _ _ H). f_equal. clear -Hnb Hhi. induction l as [|a l IH]; simpl; [|by rewrite IH].
    unfold cost. by rewrite Hnb, Hhi.
  - intros i f [Hi| ->]%Hl; [by apply (da_file _ _ _ H i) | done].
  - intros i j f f' x Hi Hj Hx Hx'. destruct (Hl _ _ Hi) as [Hi'| ->]; [|by apply Hno in Hx].
    destruct (Hl _ _ Hj) as [Hj'| ->]; [|by apply Hno in Hx']. by eapply (da_apart _ _ _ H).
Qed.

Lemma ialloc_spec s l type :
  image s l -> m_freeinode s < MAXINUM -> 0 <= type < 32768 ->
  exists s', ialloc type s = Ret (m_freeinode s) s' /\ image s' (l ++ [new_file type]).
Proof.
  intros H Hmax Ht. pose proof (im_next _ _ H) as Hnext. assert (MAXINUM < 4294967296) as HM by done.
  assert (0 <= zlen l) as Hl0 by (unfold zlen; lia). unfold ialloc. rewrite bind_gets, bind_modify, u32_small by lia.
  destruct (new_file_ok (m_img s) (m_freeblock s) type ltac:(lia)) as [Hf He].
  replace (set_i_type (i16 (xshort type)) (set_i_nlink (i16 (xshort 1)) (set_i_size (xint 0) din0)))
    with (e_din (new_file type)) by (rewrite (xshort_small type) by lia; unfold new_file; simpl; do 2 f_equal; zlia).
  set (s0 := mk_mkst _ _ _).
  destruct (winode_image s0 (m_freeinode s) (e_din (new_file type)) (da_disk _ _ _ (im_data _ _ H)) ltac:(lia) (eo_disk _ He))
    as (img' & E & D & D1 & D2 & B1 & B2).
  exists (mk_mkst img' (m_freeinode s + 1) (m_freeblock s)). split; [by rewrite (bind_Ret _ _ _ _ _ E)|].
  split; simpl.
  - apply D. apply data_new; [apply H | done | done | done].
  - rewrite zlen_app. unfold zlen at 2. simpl. lia.
  - lia.
  - intros i e [Hi|[Hge Hi]]%lookup_app_Some.
    + pose proof (lookup_lt_Some _ _ _ Hi). rewrite D2 by (unfold zlen in *; lia). by apply (im_din _ _ H).
    + apply list_lookup_singleton_Some in Hi as [Hi <-]. replace (1 + Z.of_nat i) with (m_freeinode s) by (unfold zlen in *; lia). done.
  - intros inum Hn. rewrite D2 by lia. apply (im_free _ _ H). lia.
  - rewrite B1. apply H.
  - intros x Hx N1 N2. rewrite B2 by (done || lia). by apply (im_zero _ _ H).
Qed.

(** The size field is no part of the data. *)
Lemma file_resize img fb e z : file_ok img fb e -> file_ok img fb (with_din (set_i_size z) e).
Proof. intros [? ? ? ? ? ? ? ? ? ? ?]. by split. Qed.

Lemma data_resize img fb l i e z :
  data_ok img fb l -> l !! i = Some e -> data_ok img fb (<[i := with_din (set_i_size z) e]> l).
Proof.
  intros H Hi. eapply data_update; try done.
  - by apply file_resize, (da_file _ _ _ H i).
  - apply H.
  - intros x Hx. left. exact Hx.
  - apply (da_zero _ _ _ H).
  - unfold cost. simpl. lia.
  - pose proof (da_max _ _ _ H). lia.
Qed.

Lemma resized_ok e e1 z :
  entry_ok e -> e_din e1 = set_i_addrs (i_addrs (e_din e1)) (e_din e) -> length (i_addrs (e_din e1)) = S NDIRECT ->
  Forall (fun a => 0 <= a < 4294967296) (i_addrs (e_din e1)) ->
  e_ind e1 = (Z.of_nat NDIRECT <? e_nb e1) -> e_nb e1 = nblk (e_data e1) -> z = zlen (e_data e1) -> z < 4294967296 ->
  entry_ok (with_din (set_i_size z) e1).
Proof.
  intros [_ _ _ Hn [[T1 T2 T3 T4 T5 T6] Hw]] F L1 L2 Hi Hb -> Hz.
  split; simpl; [done | done | done | by rewrite F |]. rewrite F. split.
  - split; simpl; try done. unfold zlen. split; [lia | exact Hz].
  - unfold with_fields in Hw |- *. simpl. rewrite <- Hw. done.
Qed.

Lemma iappend_spec s l i e p :
  image s l -> l !! i = Some e -> Forall (fun x => 0 <= x < 256) p -> zlen (e_data e ++ p) <= MAXFILE * BSIZE ->
  m_freeblock s + blocks_for (nblk (e_data e ++ p)) - blocks_for (nblk (e_data e)) <= FSSIZE ->
  exists s' e', iappend (1 + Z.of_nat i) p s = Ret tt s' /\ image s' (<[i := e']> l) /\
    shown e' = (i_type (e_din e), e_data e ++ p).
Proof.
  intros H Hi Hb Hmax Hfit. destruct (im_din _ _ H i e Hi) as [Hdin He]. pose proof (im_data _ _ H) as Hd.
  pose proof (lookup_lt_Some _ _ _ Hi) as Hlt. pose proof (im_next _ _ H) as Hnext. pose proof (im_max _ _ H) as Hm.
  assert (0 <= 1 + Z.of_nat i < MAXINUM) as Hin by (unfold zlen in *; lia).
  destruct (IBLOCK_range _ Hin) as [_ Hib%inode_block_meta].
  assert (rinode (1 + Z.of_nat i) s = Ret (e_din e) s) as Hr.
  { unfold rinode. rewrite (bind_Ret _ _ _ _ _ (rsect_eq s (IBLOCK (1 + Z.of_nat i) mkfs_sb) (da_disk _ _ _ Hd) ltac:(lia))).
    by rewrite <- Hdin. }
  destruct (iappend_loop (S (length p)) s l i e p) as (s1 & e1 & E1 & G1 & D1 & N1); try done; try apply He; try lia.
  { by rewrite (eo_nb _ He). }
  pose proof (gw_data _ _ _ _ _ _ G1) as H1.
  assert ((<[i := e1]> l) !! i = Some e1) as Hi1 by (by apply list_lookup_insert_eq).
  assert (entry_ok (with_din (set_i_size (zlen (e_data e ++ p))) e1)) as He1.
  { pose proof (da_file _ _ _ H1 i e1 Hi1) as Hf1.
    apply (resized_ok e); [done | apply G1 | apply (fo_len _ _ _ Hf1) | apply (fo_range _ _ _ Hf1) | apply G1 |
      by rewrite N1, D1 | by rewrite D1 | unfold MAXFILE, BSIZE in *; lia]. }
  destruct (winode_image s1 (1 + Z.of_nat i) _ (da_disk _ _ _ H1) Hin (eo_disk _ He1)) as (img' & E & D & A1 & A2 & B1 & B2).
  exists (mk_mkst img' (m_freeinode s1) (m_freeblock s1)), (with_din (set_i_size (zlen (e_data e ++ p))) e1).
  assert (same_meta (m_img s) (m_img s1)) as Hsm by apply G1. assert (0 <= zlen (e_data e ++ p)) as Hz0 by (unfold zlen; lia).
  assert (forall j, 0 <= j < MAXINUM -> din_of (m_img s1) j = din_of (m_img s) j) as Hdj.
  { intros j Hj. unfold din_of. rewrite Hsm; [done|]. by apply inode_block_meta, IBLOCK_range. }
  split_and!; [ | split; simpl; rewrite ?(gw_inodes _ _ _ _ _ _ G1) | unfold shown; simpl; rewrite D1; by rewrite (gw_din _ _ _ _ _ _ G1)].
  - unfold iappend. rewrite (bind_Ret _ _ _ _ _ Hr), (eo_size _ He), xint_small by (unfold MAXFILE, BSIZE, zlen in *; rewrite length_app in *; lia).
    rewrite (bind_Ret _ _ _ _ _ E1), xint_small by (unfold MAXFILE, BSIZE in *; lia). exact E.
  - apply D. pose proof (data_resize _ _ _ _ _ (zlen (e_data e ++ p)) H1 Hi1) as HR. by rewrite list_insert_insert_eq in HR.
  - unfold zlen in *. by rewrite length_insert.
  - done.
  - intros j f Hj. destruct (decide (i = j)) as [<-|N].
    + rewrite list_lookup_insert_eq in Hj by done. injection Hj as <-. done.
    + rewrite list_lookup_insert_ne in Hj by done. pose proof (lookup_lt_Some _ _ _ Hj).
      rewrite A2, Hdj by (unfold zlen in *; lia). by apply (im_din _ _ H).
  - intros inum Hn. assert (0 <= zlen l) by (unfold zlen; lia). rewrite A2, Hdj by (unfold zlen in *; lia). by apply (im_free _ _ H).
  - rewrite B1, Hsm by done. apply H.
  - intros x Hx N2 N3. rewrite B2, Hsm by (done || lia). by apply (im_zero _ _ H).
Qed.

(** ** The files of the image *)

Definition image_of (s : mkst) (fs : files) : Prop := exists l, image s l /\ shown <$> l = fs.

Definition room (f : Z * list Z) : Z := blocks_for (nblk (snd f)).
Definition total_of (fs : files) : Z := foldr (fun f n => room f + n) 0 fs.

Lemma total_of_insert fs i f f' : fs !! i = Some f -> total_of (<[i := f']> fs) = total_of fs - room f + room f'.
Proof. revert i. induction fs as [|a fs IH]; intros [|i] H; simplify_eq/=; [lia|]. rewrite (IH i H). lia. Qed.

Lemma total_of_app fs fs' : total_of (fs ++ fs') = total_of fs + total_of fs'.
Proof. induction fs as [|a fs IH]; simpl; [lia|]. rewrite IH. lia. Qed.

Lemma room_app t c p : room (t, c) <= room (t, c ++ p).
Proof.
  unfold room. simpl. apply blocks_for_mono. unfold nblk. rewrite zlen_app. apply Z.div_le_mono; [done|].
  unfold zlen at 3. lia.
Qed.

Lemma entries_total l : (forall i e, l !! i = Some e -> entry_ok e) -> total l = total_of (shown <$> l).
Proof.
  induction l as [|e l IH]; intros He; [done|]. simpl. rewrite IH by (intros i; apply (He (S i))). f_equal.
  destruct (He 0%nat e eq_refl) as [E1 E2 _ _ _]. unfold cost, room, blocks_for. simpl. by rewrite E1, E2.
Qed.

Lemma image_total s l : image s l -> m_freeblock s = nmeta + total_of (shown <$> l).
Proof.
  intros H. rewrite (da_fb _ _ _ (im_data _ _ H)), entries_total; [done|]. intros i e Hi. by apply (im_din _ _ H i).
Qed.

Lemma iappend_files s fs i t c p :
  image_of s fs -> fs !! i = Some (t, c) -> Forall (fun x => 0 <= x < 256) p -> zlen (c ++ p) <= MAXFILE * BSIZE ->
  nmeta + total_of (<[i := (t, c ++ p)]> fs) <= FSSIZE ->
  exists s', iappend (1 + Z.of_nat i) p s = Ret tt s' /\ image_of s' (<[i := (t, c ++ p)]> fs).
Proof.
  intros (l & H & Hs) Hi Hb Hmax Hfit. rewrite (total_of_insert _ _ _ _ Hi) in Hfit.
  pose proof (image_total _ _ H) as Ht. rewrite Hs in Ht. rewrite <- Hs, list_lookup_fmap in Hi.
  destruct (l !! i) as [e|] eqn:Ei; [|done]. unfold shown in Hi. simpl in Hi. injection Hi as <- <-.
  destruct (iappend_spec s l i e p H Ei Hb Hmax) as (s' & e' & E & H' & Hsh).
  { unfold room in Hfit. simpl in Hfit. lia. }
  exists s'. split; [done|]. exists (<[i := e']> l). split; [done|]. by rewrite list_fmap_insert, Hsh, Hs.
Qed.

Lemma ialloc_files s fs t :
  image_of s fs -> 1 + zlen fs < MAXINUM -> 0 <= t < 32768 ->
  exists s', ialloc t s = Ret (1 + zlen fs) s' /\ image_of s' (fs ++ [(t, [])]).
Proof.
  intros (l & H & Hs) Hmax Ht. assert (zlen fs = zlen l) as El by (unfold zlen; by rewrite <- Hs, length_fmap).
  pose proof (im_next _ _ H) as Hn. rewrite El, <- Hn in *.
  destruct (ialloc_spec s l t H Hmax Ht) as (s' & E & H'). exists s'. split; [done|]. exists (l ++ [new_file t]).
  split; [done|]. rewrite fmap_app, Hs. done.
Qed.

(** The reads of a file, one after the other. *)
Lemma pieces_files pieces : forall s fs i t c,
  image_of s fs -> fs !! i = Some (t, c) -> Forall (Forall (fun x => 0 <= x < 256)) pieces ->
  zlen (c ++ concat pieces) <= MAXFILE * BSIZE -> nmeta + total_of (<[i := (t, c ++ concat pieces)]> fs) <= FSSIZE ->
  exists s', for_each pieces (iappend (1 + Z.of_nat i)) s = Ret tt s' /\ image_of s' (<[i := (t, c ++ concat pieces)]> fs).
Proof.
  induction pieces as [|p pieces IH]; intros s fs i t c H Hi Hb Hmax Hfit.
  - exists s. rewrite app_nil_r, list_insert_id by done. done.
  - apply Forall_cons in Hb as [Hp Hb]. simpl concat in *. rewrite app_assoc in *.
    assert (i < length fs)%nat as Hil by (by eapply lookup_lt_Some).
    pose proof (room_app t (c ++ p) (concat pieces)) as Hroom. rewrite (total_of_insert _ _ _ _ Hi) in Hfit.
    destruct (iappend_files s fs i t c p H Hi Hp) as (s1 & E1 & H1).
    { rewrite zlen_app in Hmax. unfold zlen at 2 in Hmax. lia. }
    { rewrite (total_of_insert _ _ _ _ Hi). lia. }
    destruct (IH s1 _ i t (c ++ p) H1) as (s2 & E2 & H2); [by apply list_lookup_insert_eq | done | done | |].
    { rewrite list_insert_insert_eq, (total_of_insert _ _ _ _ Hi). lia. }
    rewrite list_insert_insert_eq in H2. exists s2. split; [|done]. cbn [for_each]. by rewrite (bind_Ret _ _ _ _ _ E1).
Qed.

(** What one more file makes of the files: its entry in the root directory, and itself. *)
Definition put_file (fs : files) (f : list Z * list (list Z)) : files :=
  match fs with
  | [] => []
  | (t, d) :: rest =>
      (t, d ++ root_entry (1 + zlen fs) (skip_underscore (fst f))) :: rest ++ [(T_FILE, concat (snd f))]
  end.

Definition root_start : files := [(T_DIR, root_entry 1 [46] ++ root_entry 1 [46; 46])].
Definition files_of (args : list (list Z * list (list Z))) : files := fold_left put_file args root_start.

(** A name and the reads of its file, as the host gives them. *)
Definition arg_ok (f : list Z * list (list Z)) : Prop :=
  existsb (Z.eqb 47) (fst f) = false /\ Forall (fun x => 0 <= x < 256) (fst f) /\
  Forall (Forall (fun x => 0 <= x < 256)) (snd f).

(** The image has room. *)
Record fits (fs : files) : Prop := {
  ft_size : Forall (fun f => zlen (snd f) <= MAXFILE * BSIZE) fs;
  ft_total : nmeta + total_of fs < BSIZE * 8;
  ft_inodes : zlen fs < NINODES
}.

Lemma fits_before fs f : fs <> [] -> fits (put_file fs f) -> fits fs.
Proof.
  intros Hne [H1 H2 H3]. destruct fs as [|[t d] rest]; [done|]. unfold put_file in *. cbv zeta in *.
  apply Forall_cons in H1 as [H1 H1']. apply Forall_app in H1' as [H1' _]. set (p := root_entry _ _) in *.
  pose proof (room_app t d p) as Hr. simpl total_of in H2. rewrite total_of_app in H2. simpl in H2.
  pose proof (blocks_for_mono 0 (nblk (concat (snd f)))) as Hm. unfold room in H2 at 2. simpl in H2.
  assert (0 <= nblk (concat (snd f))) as H0 by (unfold nblk, zlen, BSIZE; zlia). specialize (Hm H0). change (blocks_for 0) with 0 in Hm.
  split; simpl.
  - constructor; [|done]. simpl in H1 |- *. rewrite zlen_app in H1. unfold zlen at 2 in H1. lia.
  - lia.
  - unfold zlen in *. simpl in *. rewrite length_app in H3. simpl in H3. lia.
Qed.
