(* ===== verification/MkFsSpec.v ===== *)
(** * The image mkfs writes, and the kernel that reads it

    mkfs.c from end to end, and its composition with the file system of the kernel: in a
    kernel whose disk is the image, the inode layer finds every file with its bytes, the
    allocator finds the layout it assumes, and the root directory has the names. *)

From S2P Require Import Prelude Monad CString KState Sched Bio Log Fs Inode Path MkFs.

Local Open Scope kernel_scope.

Lemma root_entry_bytes inum name : Forall (fun x => 0 <= x < 256) name -> Forall (fun x => 0 <= x < 256) (root_entry inum name).
Proof. apply new_entry_bytes. Qed.

Lemma skip_underscore_bytes name : Forall (fun x => 0 <= x < 256) name -> Forall (fun x => 0 <= x < 256) (skip_underscore name).
Proof.
  intros H. unfold skip_underscore. destruct name as [|c name]; [done|]. apply Forall_cons in H as [Hc H].
  repeat (case_match; try done; try (by constructor)).
Qed.

Lemma add_file_spec s fs f :
  image_of s fs -> fs <> [] -> arg_ok f -> fits (put_file fs f) ->
  exists s', add_file 1 (fst f, Some (snd f)) s = Ret tt s' /\ image_of s' (put_file fs f).
Proof.
  intros H Hne (Hslash & Hname & Hbytes) [F1 F2 F3]. destruct fs as [|[t d] rest]; [done|].
  unfold put_file in *. set (fs := (t, d) :: rest) in *. set (p := root_entry _ _) in *.
  apply Forall_cons in F1 as [F1 F1']. apply Forall_app in F1' as [_ F1']. apply Forall_cons in F1' as [F1' _].
  assert (zlen rest = zlen fs - 1) as Hz by (unfold fs, zlen; simpl; lia).
  assert (zlen fs < NINODES) as F3' by (unfold zlen in *; simpl in F3; rewrite length_app in F3; simpl in F3; unfold fs; simpl; lia).
  change (total_of _) with (room (t, d ++ p) + total_of (rest ++ [(T_FILE, concat (snd f))])) in F2.
  rewrite total_of_app in F2. simpl in F2.
  assert (BSIZE * 8 <= FSSIZE) as Hbs by done. assert (NINODES < MAXINUM - 1) as Hni by done.
  assert (0 <= blocks_for (nblk (concat (snd f)))) as Hr0.
  { change 0 with (blocks_for 0) at 1. apply blocks_for_mono. unfold nblk, zlen, BSIZE. zlia. }
  unfold room in F2 at 2. simpl in F2.
  destruct (ialloc_files s fs T_FILE H ltac:(lia) ltac:(done)) as (s1 & E1 & H1).
  destruct (iappend_files s1 (fs ++ [(T_FILE, [])]) 0 t d p H1 eq_refl) as (s2 & E2 & H2).
  { by apply root_entry_bytes, skip_underscore_bytes. }
  { done. }
  { simpl. rewrite total_of_app. simpl. unfold room at 2. change (blocks_for (nblk (snd (T_FILE, [])))) with 0. lia. }
  change (<[0%nat := _]> (fs ++ _)) with ((t, d ++ p) :: rest ++ [(T_FILE, [])]) in H2.
  destruct (pieces_files (snd f) s2 _ (length fs) T_FILE [] H2) as (s3 & E3 & H3); [| done | done | |].
  { unfold fs. simpl. rewrite lookup_app_r, Nat.sub_diag by lia. done. }
  { unfold fs. simpl. rewrite insert_app_r_alt, Nat.sub_diag by lia. simpl. rewrite total_of_app. simpl.
    unfold room at 2. simpl. lia. }
  exists s3. split.
  - unfold add_file. simpl fst. rewrite Hslash. rewrite (bind_Ret _ _ _ _ _ E1).
    change (1 + Z.of_nat 0) with 1 in E2. rewrite (bind_Ret _ _ _ _ _ E2). exact E3.
  - revert H3. unfold fs. simpl. rewrite insert_app_r_alt, Nat.sub_diag by lia. done.
Qed.

Lemma put_file_nonempty fs f : fs <> [] -> put_file fs f <> [].
Proof. by destruct fs as [|[] ?]. Qed.

Lemma fits_fold args : forall fs, fs <> [] -> fits (fold_left put_file args fs) -> fits fs.
Proof.
  induction args as [|f args IH]; intros fs Hne H; [done|]. simpl in H.
  apply IH in H; [by eapply fits_before | by apply put_file_nonempty].
Qed.

Lemma add_files_spec args : forall s fs,
  image_of s fs -> fs <> [] -> Forall arg_ok args -> fits (fold_left put_file args fs) ->
  exists s', for_each ((fun f => (fst f, Some (snd f))) <$> args) (add_file 1) s = Ret tt s' /\
    image_of s' (fold_left put_file args fs).
Proof.
  induction args as [|f args IH]; intros s fs H Hne Ha Hf; [by exists s|].
  apply Forall_cons in Ha as [Ha0 Ha]. simpl in Hf.
  pose proof (fits_fold _ _ (put_file_nonempty fs f Hne) Hf) as Hf0.
  destruct (add_file_spec s fs f H Hne Ha0 Hf0) as (s1 & E1 & H1).
  destruct (IH s1 _ H1 (put_file_nonempty fs f Hne) Ha Hf) as (s2 & E2 & H2). exists s2. split; [|done].
  simpl. by rewrite (bind_Ret _ _ _ _ _ E1).
Qed.

(** ** The empty image *)

Lemma zero_blocks n : forall k s, m_img s = replicate k zeros -> Z.of_nat (k + n) <= FSSIZE ->
  for_each (seq k n) (fun i => wsect (Z.of_nat i) zeros) s =
  Ret tt (mk_mkst (replicate (k + n) zeros) (m_freeinode s) (m_freeblock s)).
Proof.
  induction n as [|n IH]; intros k s Hs Hk.
  - rewrite Nat.add_0_r, <- Hs. by destruct s.
  - cbn [seq for_each]. rewrite (bind_Ret _ _ s tt (mk_mkst (replicate (S k) zeros) (m_freeinode s) (m_freeblock s))).
    + rewrite (IH (S k)); [|done | lia]. simpl. do 2 f_equal. by rewrite Nat.add_succ_r.
    + unfold wsect, modify. do 2 f_equal. unfold put_block. rewrite seek_small by lia. rewrite Nat2Z.id, Hs, length_replicate.
      rewrite Nat.ltb_irrefl, Nat.sub_diag. symmetry. apply replicate_S_end.
Qed.

Lemma din_zeros img inum : blk img (IBLOCK inum mkfs_sb) = zeros -> din_of img inum = din0.
Proof.
  intros H. unfold din_of. rewrite H. assert (dip_addrs zeros (dinode_off inum) = replicate 13 0) as Ha.
  { unfold dip_addrs. cbn [NDIRECT seq fmap list_fmap]. unfold lld32. by rewrite !lget_zeros. }
  unfold dec_dinode, dip_type, lld16, lld32. rewrite Ha, !lget_zeros. done.
Qed.

Lemma sb_bytes_ok : block_ok (sb_bytes mkfs_sb zeros).
Proof. apply put_addrs_ok, zeros_ok. Qed.

Lemma start_image s : m_img s = put (replicate (Z.to_nat FSSIZE) zeros) 1 (sb_bytes mkfs_sb zeros) ->
  m_freeinode s = 1 -> m_freeblock s = nmeta -> image_of s [].
Proof.
  intros Hi Hf Hb. exists []. split; [|done]. set (z := replicate (Z.to_nat FSSIZE) zeros) in *.
  assert (disk_ok z) as Hz.
  { split; [unfold zlen, z; rewrite length_replicate; apply Z2Nat.id; done | apply Forall_replicate, zeros_ok]. }
  assert (disk_ok (m_img s)) as Hd by (rewrite Hi; apply put_ok; [done | apply sb_bytes_ok]).
  assert (forall x, 0 <= x < FSSIZE -> x <> 1 -> blk (m_img s) x = zeros) as Hblk.
  { intros x Hx N. rewrite Hi, blk_put by (done || lia). rewrite (proj2 (Z.eqb_neq _ _)) by done.
    pose proof (blk_Some z x Hz Hx) as Hs. unfold z in Hs at 1. by apply lookup_replicate in Hs as [-> _]. }
  assert (1 < nmeta < FSSIZE) as Hn by done.
  split; rewrite ?Hf, ?Hb; try done.
  - split; try done. intros x Hx. apply Hblk; lia.
  - intros inum Hr. destruct (IBLOCK_range inum ltac:(lia)) as [_ Hib]. apply din_zeros, Hblk.
    + apply inode_block_meta in Hib. lia.
    + unfold inode_block in Hib. change nlog with 30 in Hib. lia.
  - rewrite Hi, blk_put by done. done.
  - intros x Hx N _. apply Hblk; [lia | done].
Qed.

(** ** The end of [main] *)

(** The size [main] gives the root directory. *)
Definition root_size (d : list Z) : Z := (zlen d / BSIZE + 1) * BSIZE.

(** What is on the image when mkfs ends. *)
Record written (img : list (list Z)) (l : list fent) : Prop := {
  wr_data : data_ok img (nmeta + total l) l;
  wr_entry i e : l !! i = Some e -> entry_ok e;
  wr_din i e : l !! i = Some e -> din_of img (1 + Z.of_nat i) =
    set_i_size (if decide (i = 0%nat) then root_size (e_data e) else zlen (e_data e)) (e_din e);
  wr_free inum : 1 + zlen l <= inum < MAXINUM -> din_of img inum = din0;
  wr_sb : blk img 1 = sb_bytes mkfs_sb zeros;
  wr_bitmap : blk img (sb_bmapstart mkfs_sb) = bitmap_of (nmeta + total l);
  wr_zero x : 0 <= x < nmeta -> x <> 1 -> ~ inode_block x -> x <> sb_bmapstart mkfs_sb -> blk img x = zeros
}.

Lemma bitmap_mark used : bitmap_of used = fold_left (fun b i => mark (Z.of_nat i) b) (seq 0 (Z.to_nat used)) zeros.
Proof. done. Qed.

Lemma marks_ok n : block_ok (fold_left (fun b i => mark (Z.of_nat i) b) (seq 0 n) zeros).
Proof.
  induction n as [|n IH]; [apply zeros_ok|]. rewrite seq_S, fold_left_app. simpl. by apply mark_ok.
Qed.

(** The bits of the first [used] blocks, and no others. *)
Lemma bitmap_bit used b : 0 <= used <= BPB -> 0 <= b < BPB -> bit_of (bitmap_of used) b = (b <? used).
Proof.
  intros Hu Hb. rewrite bitmap_mark. assert (Z.of_nat (Z.to_nat used) <= BPB) as Hn by lia.
  replace (b <? used) with (b <? Z.of_nat (Z.to_nat used)) by (f_equal; lia). clear Hu.
  induction (Z.to_nat used) as [|n IH].
  - simpl. unfold bit_of. rewrite lget_zeros, Z.bits_0. symmetry. apply Z.ltb_ge. lia.
  - rewrite seq_S, fold_left_app. simpl. destruct (marks_ok n) as [Hl _].
    rewrite bit_mark, IH by (done || lia). destruct (Z.eqb_spec b (Z.of_nat n)), (Z.ltb_spec b (Z.of_nat n)), (Z.ltb_spec b (Z.of_nat (S n))); try done; lia.
Qed.

Lemma fix_root_spec s l e :
  image s l -> l !! 0%nat = Some e -> zlen (e_data e) <= MAXFILE * BSIZE ->
  exists img', fix_root 1 s = Ret tt (mk_mkst img' (m_freeinode s) (m_freeblock s)) /\
    data_ok img' (m_freeblock s) l /\ din_of img' 1 = set_i_size (root_size (e_data e)) (e_din e) /\
    (forall j, 0 <= j < MAXINUM -> j <> 1 -> din_of img' j = din_of (m_img s) j) /\
    (forall x, 0 <= x -> ~ inode_block x -> blk img' x = blk (m_img s) x).
Proof.
  intros H He Hsz. destruct (im_din _ _ H 0%nat e He) as [Hdin Hok]. change (1 + Z.of_nat 0) with 1 in Hdin.
  pose proof (im_data _ _ H) as Hd. assert (0 <= 1 < MAXINUM) as Hin by done. destruct (IBLOCK_range 1 Hin) as [_ Hib%inode_block_meta].
  assert (rinode 1 s = Ret (e_din e) s) as Hr.
  { unfold rinode. rewrite (bind_Ret _ _ _ _ _ (rsect_eq s (IBLOCK 1 mkfs_sb) (da_disk _ _ _ Hd) ltac:(lia))). by rewrite <- Hdin. }
  assert (0 <= zlen (e_data e)) as Hz by (unfold zlen; lia).
  assert (0 <= root_size (e_data e) < 4294967296) as Hrs by (unfold root_size, MAXFILE, BSIZE in *; zlia).
  destruct (eo_disk _ Hok) as [[T1 T2 T3 T4 T5 T6] Hw].
  destruct (winode_image s 1 (set_i_size (root_size (e_data e)) (e_din e)) (da_disk _ _ _ Hd) Hin) as (img' & E & D & A1 & A2 & _ & B2).
  { split; [by split|]. unfold with_fields in Hw |- *. simpl. by rewrite <- Hw. }
  exists img'. split_and!; try done; [|by apply D]. unfold fix_root. rewrite (bind_Ret _ _ _ _ _ Hr), (eo_size _ Hok).
  rewrite (xint_small (zlen _)) by (unfold MAXFILE, BSIZE in *; lia). fold (root_size (e_data e)). rewrite xint_small by done. exact E.
Qed.

Lemma finish_spec s fs t d :
  image_of s fs -> fs !! 0%nat = Some (t, d) -> fits fs ->
  exists img l, (fix_root 1 ;; fb <- gets m_freeblock ;; balloc fb) s = Ret tt (mk_mkst img (m_freeinode s) (m_freeblock s)) /\
    written img l /\ shown <$> l = fs.
Proof.
  intros (l & H & Hs) H0 [F1 F2 F3]. pose proof (image_total _ _ H) as Ht. rewrite Hs in Ht.
  pose proof (Forall_lookup_1 _ _ _ _ F1 H0) as Hsz. simpl in Hsz. rewrite <- Hs, list_lookup_fmap in H0.
  destruct (l !! 0%nat) as [e|] eqn:He; [|done]. injection H0 as <- <-.
  destruct (fix_root_spec s l e H He Hsz) as (img & E & D & A1 & A2 & B).
  set (s1 := mk_mkst img _ _) in E. assert (m_freeblock s = nmeta + total l) as Hfb by apply (im_data _ _ H).
  assert (0 <= m_freeblock s) as Hfb0 by (pose proof (da_max _ _ _ D); assert (0 <= nmeta) by done; lia).
  set (bm := sb_bmapstart mkfs_sb). assert (0 <= bm < nmeta /\ bm < FSSIZE /\ bm <> 1 /\ ~ inode_block bm) as (Hbm & Hbm' & Hbm1 & Hbmi).
  { split_and!; try done. unfold inode_block. change bm with 58. change nlog with 30. change ninodeblocks with 26. lia. }
  pose proof (da_disk _ _ _ D) as Hdisk. exists (put img bm (bitmap_of (m_freeblock s))), l. split_and!; [| |done].
  { rewrite (bind_Ret _ _ _ _ _ E), bind_gets. unfold balloc. change (m_freeblock s1) with (m_freeblock s).
    rewrite (proj2 (Z.leb_gt _ _)) by lia. rewrite wsect_eq by (done || lia). done. }
  assert (forall x, 0 <= x -> x <> bm -> blk (put img bm (bitmap_of (m_freeblock s))) x = blk img x) as Hput.
  { intros x Hx N. rewrite blk_put by (done || lia). by rewrite (proj2 (Z.eqb_neq _ _)). }
  assert (forall j, 0 <= j < MAXINUM -> din_of (put img bm (bitmap_of (m_freeblock s))) j = din_of img j) as Hdin.
  { intros j Hj. destruct (IBLOCK_range j Hj) as [_ Hib]. unfold din_of. rewrite Hput; [done | apply inode_block_meta in Hib; lia |].
    intros E'. apply Hbmi. by rewrite <- E'. }
  pose proof (im_next _ _ H) as Hnx. pose proof (im_max _ _ H) as Hmx. assert (0 < zlen l) as Hl0 by (apply lookup_lt_Some in He; unfold zlen; lia).
  split.
  - rewrite <- Hfb. apply (data_frame img); [done | apply put_ok; [done | apply marks_ok] |].
    intros x Hx. apply Hput; lia.
  - intros i f Hi. by apply (im_din _ _ H i).
  - intros i f Hi. pose proof (lookup_lt_Some _ _ _ Hi). rewrite Hdin by (unfold zlen in *; lia). case_decide as Hi0.
    + subst i. rewrite He in Hi. injection Hi as <-. done.
    + rewrite A2 by (unfold zlen in *; lia). destruct (im_din _ _ H i f Hi) as [-> Hf]. rewrite <- (eo_size _ Hf). by destruct (e_din f).
  - intros inum Hi. rewrite Hdin, A2 by lia. apply (im_free _ _ H). lia.
  - rewrite Hput, B by (done || (unfold inode_block; change nlog with 30; lia)). apply H.
  - fold bm. rewrite blk_put, Z.eqb_refl by (done || lia). by rewrite Hfb.
  - intros x Hx N1 N2 N3. rewrite Hput, B by (done || lia). by apply (im_zero _ _ H).
Qed.

(** ** [main] from end to end *)

Definition root_entries (args : list (list Z * list (list Z))) : list (list Z) :=
  [root_entry 1 [46]; root_entry 1 [46; 46]] ++
  imap (fun k f => root_entry (2 + Z.of_nat k) (skip_underscore (fst f))) args.

(** The root directory and the files, as inodes 1, 2, ... *)
Definition disk_files (args : list (list Z * list (list Z))) : list (Z * list Z) :=
  (T_DIR, concat (root_entries args)) :: ((fun f => (T_FILE, concat (snd f))) <$> args).

Lemma files_of_eq args : files_of args = disk_files args.
Proof.
  unfold files_of. induction args as [|f args IH] using rev_ind; [done|].
  rewrite fold_left_app. simpl. rewrite IH. unfold disk_files, put_file, root_entries. cbv zeta.
  rewrite imap_app, fmap_app. simpl imap. simpl fmap. rewrite Nat.add_0_r. f_equal. f_equal.
  rewrite app_assoc, !concat_app. simpl concat. rewrite !app_nil_r.
  replace (1 + zlen _) with (2 + Z.of_nat (length args)) by (unfold zlen; simpl; rewrite length_fmap; lia).
  by rewrite <- !app_assoc.
Qed.

Lemma mkfs_start_spec :
  exists s s', for_each (seq 0 (Z.to_nat FSSIZE)) (fun i => wsect (Z.of_nat i) zeros) mkfs_start = Ret tt s /\
    wsect 1 (sb_bytes mkfs_sb zeros) s = Ret tt s' /\ image_of s' [].
Proof.
  assert (Z.of_nat (Z.to_nat FSSIZE) = FSSIZE) as Hn by (apply Z2Nat.id; unfold FSSIZE; lia).
  pose proof (start_image (mk_mkst (put (replicate (Z.to_nat FSSIZE) zeros) 1 (sb_bytes mkfs_sb zeros)) 1 nmeta)
    eq_refl eq_refl eq_refl) as Hs.
  generalize dependent (Z.to_nat FSSIZE). intros n Hn Hs.
  assert (disk_ok (replicate n zeros)) as Hz.
  { split; [unfold zlen; rewrite length_replicate; exact Hn | apply Forall_replicate, zeros_ok]. }
  eexists (mk_mkst (replicate n zeros) 1 nmeta), _. split_and!; [| |exact Hs].
  - apply (zero_blocks n 0 mkfs_start); [reflexivity | lia].
  - apply (wsect_eq (mk_mkst (replicate n zeros) 1 nmeta) 1 _ Hz). unfold FSSIZE. lia.
Qed.

Lemma root_dots s : image_of s [] -> exists s1 s2 s3,
  ialloc T_DIR s = Ret 1 s1 /\ iappend 1 (root_entry 1 [46]) s1 = Ret tt s2 /\
  iappend 1 (root_entry 1 [46; 46]) s2 = Ret tt s3 /\ image_of s3 root_start.
Proof.
  intros H. destruct (ialloc_files s [] T_DIR H eq_refl ltac:(done)) as (s1 & E1 & H1).
  destruct (iappend_files s1 [(T_DIR, [])] 0 T_DIR [] (root_entry 1 [46]) H1 eq_refl) as (s2 & E2 & H2);
    [apply root_entry_bytes; by repeat constructor | done | done |].
  destruct (iappend_files s2 _ 0 T_DIR (root_entry 1 [46]) (root_entry 1 [46; 46]) H2 eq_refl) as (s3 & E3 & H3);
    [apply root_entry_bytes; by repeat constructor | done | done |].
  by exists s1, s2, s3.
Qed.

(** With room for all of it, mkfs ends normally and the image has the root directory and
    the files. *)
Lemma mkfs_spec args :
  Forall arg_ok args -> fits (disk_files args) ->
  exists t l, mkfs ((fun f => (fst f, Some (snd f))) <$> args) mkfs_start = Ret tt t /\
    written (m_img t) l /\ shown <$> l = disk_files args.
Proof.
  intros Ha Hf. rewrite <- files_of_eq in *. destruct mkfs_start_spec as (s' & s0 & Ea & Eb & H0).
  destruct (root_dots s0 H0) as (s1 & s2 & s3 & E1 & E2 & E3 & H3).
  destruct (add_files_spec args s3 root_start H3 ltac:(done) Ha Hf) as (s4 & E4 & H4). fold (files_of args) in H4.
  pose proof (files_of_eq args) as Heq.
  destruct (finish_spec s4 (files_of args) T_DIR (concat (root_entries args)) H4) as (img & l & E5 & W & Hs); [by rewrite Heq | done |].
  exists (mk_mkst img (m_freeinode s4) (m_freeblock s4)), l. split_and!; [|exact W|exact Hs].
  unfold mkfs.
  rewrite (bind_Ret _ _ _ _ _ Ea), (bind_Ret _ _ _ _ _ Eb), (bind_Ret _ _ _ _ _ E1). cbn [negb Z.eqb ROOTINO Pos.eqb].
  rewrite (bind_Ret _ _ _ _ _ E2), (bind_Ret _ _ _ _ _ E3), (bind_Ret _ _ _ _ _ E4). exact E5.
Qed.

(** ** The kernel on the image *)

Definition mkfs_geom : geom := {| g_start := 2; g_size := nlog; g_total := FSSIZE |}.

(** A kernel that has read nothing yet but the superblock. *)
Record cold (s : kst) (img : list (list Z)) : Prop := {
  co_disk : k_disk s = img;
  co_bufs : Forall (fun b => b_dev b <> 1) (k_bufs s);
  co_sb : k_sb s = sb_of_bytes (blk img 1)
}.

Lemma sb_round_trip : sb_of_bytes (sb_bytes mkfs_sb zeros) = mkfs_sb.
Proof. by vm_compute. Qed.

Lemma cold_vdata s img x : cold s img -> vdata s x = blk img x.
Proof.
  intros [<- Hb _]. unfold vdata. rewrite vblock_none; [done|].
  intros i b Hi. unfold is_block. rewrite (proj2 (Z.eqb_neq _ _)); [done|]. by apply (Forall_lookup_1 _ _ _ _ Hb Hi).
Qed.

Section kernel_view.
Context (img : list (list Z)) (l : list fent) (s : kst).
Hypothesis W : written img l.
Hypothesis C : cold s img.

Lemma cold_sb : k_sb s = mkfs_sb.
Proof. rewrite (co_sb _ _ C), (wr_sb _ _ W). apply sb_round_trip. Qed.

Lemma nmeta_total : nmeta <= nmeta + total l <= FSSIZE.
Proof. apply (wr_data _ _ W). Qed.

Lemma view_used a : nmeta + total l < BSIZE * 8 -> 0 <= a < FSSIZE -> used s a = (a <? nmeta + total l).
Proof.
  intros Hmax Ha. unfold used. rewrite (cold_vdata _ _ _ C), cold_sb. assert (0 < nmeta) as Hn by done.
  pose proof nmeta_total. destruct (decide (a / BPB = 0)) as [E|N].
  - rewrite E, Z.add_0_l, (wr_bitmap _ _ W). assert (a mod BPB = a) as -> by (unfold BPB in *; zlia).
    apply bitmap_bit; unfold BPB, BSIZE in *; zlia.
  - assert (0 < a / BPB <= 24) as Hd by (unfold BPB, FSSIZE in *; zlia). change (sb_bmapstart mkfs_sb) with 58.
    rewrite (wr_zero _ _ W); [| change nmeta with 83; lia | lia | unfold inode_block; change nlog with 30; change ninodeblocks with 26; lia | change (sb_bmapstart mkfs_sb) with 58; lia].
    unfold bit_of. rewrite lget_zeros, Z.bits_0. symmetry. apply Z.ltb_ge. unfold BPB, BSIZE in *. zlia.
Qed.

(** The layout the allocator assumes ([fs_layout] of Fs.v). *)
Lemma view_layout : nmeta + total l < BSIZE * 8 -> fs_layout mkfs_geom s.
Proof.
  intros Hmax. pose proof nmeta_total. split; rewrite cold_sb; change (sb_size mkfs_sb) with FSSIZE.
  - done.
  - intros a Ha. change (sb_bmapstart mkfs_sb) with 58. unfold home, in_log, mkfs_geom. simpl. change nlog with 30.
    unfold FSSIZE, BPB in *. split; zlia.
  - intros a c Ha Hc. rewrite view_used by done. intros Hge%Z.ltb_ge. change (sb_bmapstart mkfs_sb) with 58.
    change nmeta with 83 in *. unfold home, in_log, mkfs_geom. simpl. change nlog with 30. unfold FSSIZE, BPB in *. split; [split; [lia | lia] | zlia].
Qed.

(** Inode [1 + i] as [ilock] loads it. *)
Definition kernel_inode (i : nat) : inode := dinode_at s (1 + Z.of_nat i) din0.

Lemma kernel_inode_eq i e : l !! i = Some e -> zlen l < NINODES -> kernel_inode i =
  set_i_size (if decide (i = 0%nat) then root_size (e_data e) else zlen (e_data e)) (e_din e).
Proof.
  intros Hi Hl. pose proof (lookup_lt_Some _ _ _ Hi). rewrite <- (wr_din _ _ W i e Hi). unfold kernel_inode, dinode_at, din_of, iblock.
  rewrite (cold_vdata _ _ _ C), cold_sb. assert (NINODES < MAXINUM) by done.
  destruct (IBLOCK_range (1 + Z.of_nat i)) as [-> _]; [unfold zlen in *; lia|]. done.
Qed.

Lemma view_addr i e bn : l !! i = Some e -> zlen l < NINODES -> baddr s (kernel_inode i) bn = faddr img e bn.
Proof.
  intros Hi Hl. rewrite (kernel_inode_eq i e Hi Hl). unfold baddr, faddr, ind, addr. simpl. by rewrite (cold_vdata _ _ _ C).
Qed.

Lemma view_mapped i e : l !! i = Some e -> zlen l < NINODES -> mapped mkfs_geom s (kernel_inode i) (nblk (e_data e)).
Proof.
  intros Hi Hl. pose proof (da_file _ _ _ (wr_data _ _ W) i e Hi) as He. pose proof (wr_entry _ _ W i e Hi) as Ho.
  rewrite <- (eo_nb _ Ho). pose proof nmeta_total as Ht. assert (32 <= nmeta) as Hn by done.
  assert (forall x, nmeta <= x < nmeta + total l -> x <> 0 /\ home mkfs_geom x) as Hhome.
  { intros x Hx. unfold home, in_log, mkfs_geom. simpl. change nlog with 30. lia. }
  assert (nth NDIRECT (i_addrs (kernel_inode i)) 0 = ind e) as Hind by (by rewrite (kernel_inode_eq i e Hi Hl)).
  assert (Z.of_nat NDIRECT < e_nb e -> e_ind e = true) as Hhi by (intros; rewrite (eo_ind _ Ho); by apply Z.ltb_lt).
  split.
  - apply He.
  - rewrite (kernel_inode_eq i e Hi Hl). apply He.
  - intros bn Hbn. rewrite (view_addr i e) by done. apply Hhome, (fo_in _ _ _ He), Hbn.
  - intros Hlt. rewrite Hind. destruct (fo_ind _ _ _ He (Hhi Hlt)) as (Hr & _). destruct (Hhome _ Hr) as [H1 [H2 _]]. by split.
  - intros bn bm Hbn Hbm. rewrite !(view_addr i e) by done. by apply (fo_inj _ _ _ He).
  - intros bn Hbn Hlt. rewrite Hind, (view_addr i e) by done. by apply (fo_apart _ _ _ He), Hhi.
Qed.

(** Every byte within the blocks of a file, zeros after its end. *)
Lemma view_byte i e k : l !! i = Some e -> zlen l < NINODES -> 0 <= k < nblk (e_data e) * BSIZE ->
  fbyte s (kernel_inode i) k = lget (e_data e) k.
Proof.
  intros Hi Hl Hk. pose proof (da_file _ _ _ (wr_data _ _ W) i e Hi) as He. unfold fbyte.
  rewrite (view_addr i e), (cold_vdata _ _ _ C) by done. apply (fo_byte _ _ _ He). by rewrite (eo_nb _ (wr_entry _ _ W i e Hi)).
Qed.

Lemma view_slice i e : l !! i = Some e -> zlen l < NINODES ->
  fslice s (kernel_inode i) 0 (zlen (e_data e)) = e_data e.
Proof.
  intros Hi Hl. pose proof (nblk_range (e_data e)) as Hr. apply list_eq. intros k. unfold fslice. rewrite list_lookup_fmap.
  destruct (decide (k < length (e_data e))%nat) as [Hk|Hk].
  - rewrite lookup_seqZ_lt by (unfold zlen; lia). simpl. rewrite (view_byte i e) by (done || (unfold zlen in *; lia)).
    destruct (lookup_lt_is_Some_2 _ _ Hk) as [b Hb]. rewrite Hb. unfold lget.
    replace (Z.to_nat _) with k by lia. by rewrite Hb.
  - rewrite lookup_seqZ_ge, lookup_ge_None_2 by (unfold zlen; lia). done.
Qed.
End kernel_view.

(** ** The root directory *)

Lemma length_root_entry inum name : length (root_entry inum name) = 16%nat.
Proof. pose proof (zlen_new_entry (xshort inum) name) as H. unfold zlen, DIRENT in H. unfold root_entry, new_entry in *. lia. Qed.

Lemma concat_slice (es : list (list Z)) : forall k e, Forall (fun e => length e = 16%nat) es -> es !! k = Some e ->
  forall j, 0 <= j < 16 -> lget (concat es) (16 * Z.of_nat k + j) = lget e j.
Proof.
  induction es as [|a es IH]; intros [|k] e H He j Hj; simplify_eq/=; apply Forall_cons in H as [Ha H].
  - rewrite lget_app by lia. rewrite (proj2 (Z.ltb_lt _ _)) by (unfold zlen; lia). done.
  - rewrite lget_app by lia. unfold zlen. rewrite Ha, (proj2 (Z.ltb_ge _ _)) by lia. rewrite <- (IH k e H He j Hj). f_equal. lia.
Qed.

Lemma zlen_concat16 (es : list (list Z)) : Forall (fun e => length e = 16%nat) es -> zlen (concat es) = 16 * zlen es.
Proof. induction 1 as [|a es Ha _ IH]; [done|]. simpl. rewrite zlen_app, IH. unfold zlen. simpl. lia. Qed.

Lemma lget_seqZ (d : list Z) o : zlen d = o -> (fun j => lget d j) <$> seqZ 0 o = d.
Proof.
  intros <-. apply list_eq. intros k. rewrite list_lookup_fmap. destruct (decide (k < length d)%nat) as [Hk|Hk].
  - rewrite lookup_seqZ_lt by (unfold zlen; lia). simpl. destruct (lookup_lt_is_Some_2 _ _ Hk) as [b Hb].
    unfold lget. rewrite Hb. replace (Z.to_nat _) with k by lia. by rewrite Hb.
  - by rewrite lookup_seqZ_ge, lookup_ge_None_2 by (unfold zlen; lia).
Qed.

Definition no_entry : list Z := replicate 16 0.

Section root_view.
Context (img : list (list Z)) (l : list fent) (s : kst) (e : fent) (es : list (list Z)).
Hypothesis W : written img l.
Hypothesis C : cold s img.
Hypothesis Hroot : l !! 0%nat = Some e.
Hypothesis Hes : e_data e = concat es.
Hypothesis H16 : Forall (fun e => length e = 16%nat) es.
Hypothesis Hl : zlen l < NINODES.

(** When the entries do not fill their last block, the kernel sees them and then entries
    that are free. *)
Lemma view_entries : zlen (e_data e) mod BSIZE <> 0 ->
  entries s (kernel_inode s 0) = es ++ replicate (Z.to_nat (nblk (e_data e) * 32 - zlen es)) no_entry.
Proof.
  intros Hmod. pose proof (nblk_range (e_data e)) as Hr.
  assert (zlen (e_data e) = 16 * zlen es) as Hz by (rewrite Hes; by apply zlen_concat16).
  assert (i_size (kernel_inode s 0) = nblk (e_data e) * BSIZE) as Hsize.
  { rewrite (kernel_inode_eq img l s W C 0 e Hroot Hl). simpl. unfold root_size, BSIZE in *. zlia. }
  assert (forall k, 0 <= k < nblk (e_data e) * 32 -> fslice s (kernel_inode s 0) (DIRENT * k) DIRENT =
    (fun j => lget (concat es) (16 * k + j)) <$> seqZ 0 16) as Hsl.
  { intros k Hk. unfold fslice. apply list_fmap_ext. intros j x Hx. apply lookup_seqZ in Hx as [-> Hj].
    rewrite (view_byte img l s W C 0 e) by (done || (unfold DIRENT, BSIZE in *; lia)). by rewrite Hes. }
  apply list_eq. intros k. unfold entries. rewrite list_lookup_fmap, Hsize.
  replace (nblk (e_data e) * BSIZE / DIRENT) with (nblk (e_data e) * 32) by (unfold BSIZE, DIRENT; zlia).
  assert (zlen es <= nblk (e_data e) * 32) as Hle by (unfold BSIZE in *; lia).
  destruct (decide (Z.of_nat k < nblk (e_data e) * 32)) as [Hk|Hk].
  - rewrite lookup_seqZ_lt by lia. simpl. rewrite Hsl by lia. rewrite Z.add_0_l.
    destruct (es !! k) as [f|] eqn:Ek.
    + rewrite lookup_app_l by (by eapply lookup_lt_Some). rewrite Ek. f_equal.
      rewrite <- (lget_seqZ f 16) by (unfold zlen; by rewrite (Forall_lookup_1 _ _ _ _ H16 Ek)).
      apply list_fmap_ext. intros j x Hx. apply lookup_seqZ in Hx as [-> Hj]. apply concat_slice; [done | done | lia].
    + apply lookup_ge_None in Ek. rewrite lookup_app_r, lookup_replicate_2 by (unfold zlen in *; lia). f_equal.
      apply list_eq. intros j. rewrite list_lookup_fmap. unfold no_entry. destruct (decide (j < 16)%nat) as [Hj|Hj].
      * rewrite lookup_seqZ_lt, lookup_replicate_2 by lia. simpl. f_equal. apply lget_past. rewrite zlen_concat16 by done. unfold zlen. lia.
      * rewrite lookup_seqZ_ge, lookup_ge_None_2 by (rewrite ?length_replicate; lia). done.
  - rewrite lookup_seqZ_ge by lia. symmetry. apply lookup_ge_None_2. rewrite length_app, length_replicate. unfold zlen in *. lia.
Qed.

(** When they do, [main] makes the directory one block longer than its blocks. *)
Lemma root_overhang : zlen (e_data e) mod BSIZE = 0 -> nblk (e_data e) < Z.of_nat NDIRECT ->
  i_size (kernel_inode s 0) = (nblk (e_data e) + 1) * BSIZE /\ baddr s (kernel_inode s 0) (nblk (e_data e)) = 0.
Proof.
  intros Hmod Hlt. pose proof (nblk_range (e_data e)) as Hr. split.
  - rewrite (kernel_inode_eq img l s W C 0 e Hroot Hl). simpl. unfold root_size, BSIZE in *. zlia.
  - rewrite (view_addr img l s W C 0 e) by done. pose proof (wr_entry _ _ W 0%nat e Hroot) as Ho.
    rewrite <- (eo_nb _ Ho). apply (fo_out _ _ _ (da_file _ _ _ (wr_data _ _ W) 0%nat e Hroot)). rewrite (eo_nb _ Ho). lia.
Qed.
End root_view.

(** ** The claim *)

(** What a kernel sees on its disk: the layout and the bitmap, an empty log, every file with
    its bytes, no block in two files, the rest of the inodes free. *)
Record kernel_view (s : kst) (fs : list (Z * list Z)) : Prop := {
  kv_layout : fs_layout mkfs_geom s;
  kv_used a : 0 <= a < FSSIZE -> used s a = (a <? nmeta + total_of fs);
  kv_log : vdata s (sb_logstart (k_sb s)) = zeros;
  kv_file i t c : fs !! i = Some (t, c) -> let ip := dinode_at s (1 + Z.of_nat i) din0 in
    i_type ip = t /\ i_nlink ip = 1 /\ mapped mkfs_geom s ip (nblk c) /\ fslice s ip 0 (zlen c) = c /\
    (i <> 0%nat -> i_size ip = zlen c);
  kv_apart i j t t' c c' bn bm : fs !! i = Some (t, c) -> fs !! j = Some (t', c') ->
    0 <= bn < nblk c -> 0 <= bm < nblk c' ->
    baddr s (dinode_at s (1 + Z.of_nat i) din0) bn = baddr s (dinode_at s (1 + Z.of_nat j) din0) bm -> i = j /\ bn = bm;
  kv_free inum : 1 + zlen fs <= inum < NINODES -> i_type (dinode_at s inum din0) = 0
}.

Lemma shown_lookup (l : list fent) (fs : list (Z * list Z)) (i : nat) t c : shown <$> l = fs -> fs !! i = Some (t, c) ->
  exists e, l !! i = Some e /\ i_type (e_din e) = t /\ e_data e = c.
Proof.
  intros <-. rewrite list_lookup_fmap. destruct (l !! i) as [e|]; [|done]. intros [= <- <-]. by exists e.
Qed.

Lemma written_view img l s fs :
  written img l -> shown <$> l = fs -> fits fs -> cold s img -> kernel_view s fs.
Proof.
  intros W Hs [F1 F2 F3] C. assert (zlen l = zlen fs) as Hz by (unfold zlen; by rewrite <- Hs, length_fmap).
  assert (total_of fs = total l) as Ht by (rewrite <- Hs; symmetry; apply entries_total, (wr_entry _ _ W)).
  pose proof (cold_sb img l s W C) as Hsb.
  split; rewrite ?Ht in *.
  - by eapply view_layout.
  - intros a Ha. by eapply view_used.
  - rewrite (cold_vdata _ _ _ C), Hsb. change (sb_logstart mkfs_sb) with 2. apply (wr_zero _ _ W); try done.
    unfold inode_block. change nlog with 30. lia.
  - intros i t c Hi ip. destruct (shown_lookup l fs i t c Hs Hi) as (e & He & <- & <-).
    pose proof (kernel_inode_eq img l s W C i e He ltac:(lia)) as Hip. change (ip = set_i_size (if decide (i = 0%nat) then root_size (e_data e) else zlen (e_data e)) (e_din e)) in Hip.
    split_and!; [by rewrite Hip | rewrite Hip; apply (wr_entry _ _ W i e He) | eapply view_mapped; (done || lia) | eapply view_slice; (done || lia) |].
    intros N. rewrite Hip, decide_False by done. done.
  - intros i j t t' c c' bn bm Hi Hj Hbn Hbm. destruct (shown_lookup l fs i t c Hs Hi) as (e & He & <- & <-).
    destruct (shown_lookup l fs j t' c' Hs Hj) as (f & Hf & <- & <-).
    fold (kernel_inode s i) (kernel_inode s j). rewrite (view_addr img l s W C i e), (view_addr img l s W C j f) by (done || lia).
    rewrite <- (eo_nb _ (wr_entry _ _ W i e He)) in Hbn. rewrite <- (eo_nb _ (wr_entry _ _ W j f Hf)) in Hbm. intros E.
    assert (i = j) as <-.
    { apply (da_apart _ _ _ (wr_data _ _ W) i j e f (faddr img e bn)); [done | done | left; by exists bn | left; by exists bm]. }
    split; [done|]. simplify_eq. by apply (fo_inj _ _ _ (da_file _ _ _ (wr_data _ _ W) i e He)).
  - intros inum Hi. assert (NINODES < MAXINUM) by done. assert (0 <= zlen fs) by (unfold zlen; lia).
    assert (dinode_at s inum din0 = din_of img inum) as ->.
    { unfold dinode_at, din_of, iblock. rewrite (cold_vdata _ _ _ C), Hsb. by destruct (IBLOCK_range inum ltac:(lia)) as [-> _]. }
    rewrite (wr_free _ _ W) by lia. done.
Qed.

(** The entries of the root directory of a kernel on the image. *)
Lemma written_entries img l s args :
  written img l -> shown <$> l = disk_files args -> fits (disk_files args) -> cold s img ->
  zlen (root_entries args) mod 32 <> 0 ->
  exists n, entries s (dinode_at s ROOTINO din0) = root_entries args ++ replicate n no_entry.
Proof.
  intros W Hs [_ _ F3] C Hmod. destruct (shown_lookup l _ 0%nat T_DIR (concat (root_entries args)) Hs eq_refl) as (e & He & _ & Hd).
  assert (zlen l = zlen (disk_files args)) as Hz by (unfold zlen; by rewrite <- Hs, length_fmap).
  assert (Forall (fun e => length e = 16%nat) (root_entries args)) as H16.
  { unfold root_entries. apply Forall_app. split; [repeat constructor; apply length_root_entry|].
    apply Forall_forall. intros x (k & f & -> & _)%elem_of_lookup_imap. apply length_root_entry. }
  eexists. eapply (view_entries img l s e); try done; [lia|]. rewrite Hd, zlen_concat16 by done. unfold BSIZE. zlia.
Qed.

(** C2: mkfs and the kernel agree.  On files that fit the image, however the reads of them
    are cut, mkfs ends normally; and any kernel that starts on the image finds the layout
    its allocator assumes, exactly the blocks handed out marked in use, an empty log, every
    file in its inode with exactly its bytes in blocks no other file has, and a root
    directory of the files' names and inode numbers, then free entries (unless the entries
    fill its blocks exactly, see [root_overhang]). *)
Theorem mkfs_correct args :
  Forall arg_ok args -> fits (disk_files args) ->
  exists t, mkfs ((fun f => (fst f, Some (snd f))) <$> args) mkfs_start = Ret tt t /\
    forall s, cold s (m_img t) -> kernel_view s (disk_files args) /\
      (zlen (root_entries args) mod 32 <> 0 -> exists n,
         entries s (dinode_at s ROOTINO din0) = root_entries args ++ replicate n no_entry).
Proof.
  intros Ha Hf. destruct (mkfs_spec args Ha Hf) as (t & l & E & W & Hs). exists t. split; [done|].
  intros s C. split; [by eapply written_view | by eapply written_entries].
Qed.

(** A file of two reads and one that is empty. *)
Definition demo_args : list (list Z * list (list Z)) := [([95; 99; 97; 116], [replicate 512 7; [1; 2; 3]]); ([114], [])].

Lemma mkfs_correct_witness :
  exists t, mkfs ((fun f => (fst f, Some (snd f))) <$> demo_args) mkfs_start = Ret tt t /\
    forall s, cold s (m_img t) -> kernel_view s (disk_files demo_args) /\
      (zlen (root_entries demo_args) mod 32 <> 0 -> exists n,
         entries s (dinode_at s ROOTINO din0) = root_entries demo_args ++ replicate n no_entry).
Proof.
  apply mkfs_correct.
  - repeat constructor; try (by apply Forall_replicate); simpl; lia.
  - split; [repeat constructor; by vm_compute | by vm_compute | by vm_compute].
Defined.

(** mkfs does not check the number of files: the inode after the last inode block is in the
    bitmap, which [balloc] overwrites at the end. *)
Lemma inode_past_blocks : IBLOCK MAXINUM mkfs_sb = sb_bmapstart mkfs_sb.
Proof. done. Qed.
