(* ===== verification/UserTests.v ===== *)
(** * The file system tests of usertests.c

    The tests of usertests.c that do not fork, as the system calls they make, and [run], which
    executes such a program on the kernel of this development: every call puts its arguments
    into the memory of the process and goes through [syscall] down to the disk.  The short
    tests ([quick_tests]), run one after the other on the image mkfs makes, pass. *)

From S2P Require Import Prelude Monad CString KState Sched Kalloc Bio Log Fs Inode Path Vm Pipe File Proc Container Syscall Exec Sysfile Console MkFs MkFsSpec.

Local Open Scope kernel_scope.

(** ** Programs *)

Inductive ucall :=
  | Open (path : list Z) (mode : Z)
  | Close (fd : Z)
  | Read (fd n : Z)
  | ReadAt (fd addr n : Z)  (* into memory the program does not look at *)
  | Write (fd : Z) (data : list Z) (n : Z)
  | Mkdir (path : list Z)
  | Chdir (path : list Z)
  | Unlink (path : list Z)
  | Link (old new : list Z)
  | Sbrk (n : Z)
  | Printf (fd : Z) (fmt : string).  (* the format but for its newline; the numbers printed are not kept *)

(** [Exit] is a call of [exit]; [Stuck] an exhausted loop bound. A call returns an integer
    and, for [Read], the bytes. *)
Inductive utest (A : Type) : Type :=
  | Finish (a : A)
  | Exit
  | Stuck
  | Do (c : ucall) (k : Z -> list Z -> utest A).
Arguments Finish {A} a.
Arguments Exit {A}.
Arguments Stuck {A}.
Arguments Do {A} c k.

Fixpoint ubind {A B} (t : utest A) (f : A -> utest B) : utest B :=
  match t with
  | Finish a => f a
  | Exit => Exit
  | Stuck => Stuck
  | Do c k => Do c (fun r b => ubind (k r b) f)
  end.

Declare Scope utest_scope.
Delimit Scope utest_scope with U.
Notation "x <- m ;; k" := (ubind m (fun x => k)) (at level 100, m at next level, right associativity) : utest_scope.
Notation "m ;; k" := (ubind m (fun _ => k)) (at level 100, k at level 200, right associativity) : utest_scope.

Fixpoint bytes_of (s : string) : list Z :=
  match s with
  | EmptyString => []
  | String.String c s => Z.of_nat (Ascii.nat_of_ascii c) :: bytes_of s
  end.
Notation "$ s" := (bytes_of s) (at level 5) : utest_scope.

Local Open Scope utest_scope.

Definition call (c : ucall) : utest Z := Do c (fun r _ => Finish r).
Definition say (fmt : string) : utest Z := call (Printf 1 fmt).
(** [if(b){ printf(stdout, fmt); exit(); }] *)
Definition fail_if (b : bool) (fmt : string) : utest unit := if b then (say fmt ;; Exit) else Finish tt.

(** [read(fd, buf, n)]: the result and the buffer then. *)
Definition read_into (buf : list Z) (fd n : Z) : utest (Z * list Z) := Do (Read fd n) (fun r b => Finish (r, b ++ drop (length b) buf)).

(** [char] is signed. *)
Definition char_at (buf : list Z) (i : Z) : Z := let c := lget buf i in if c <? 128 then c else c - 256.

Definition BUFSIZE : Z := 8192.

(** A loop of a known number of rounds, and one with a bound. *)
Fixpoint repeat_from {A} (n : nat) (i : Z) (body : Z -> A -> utest A) (a : A) : utest A :=
  match n with
  | O => Finish a
  | S n => a <- body i a ;; repeat_from n (i + 1) body a
  end.
Fixpoint forever {A B} (fuel : nat) (body : A -> utest (A + B)) (a : A) : utest B :=
  match fuel with
  | O => Stuck
  | S n => r <- body a ;; match r with inl a => forever n body a | inr b => Finish b end
  end.

(** ** The tests *)

Definition iputtest : utest unit :=
  say "iput test" ;;
  r <- call (Mkdir $"iputdir") ;;
  fail_if (r <? 0) "mkdir failed" ;;
  r <- call (Chdir $"iputdir") ;;
  fail_if (r <? 0) "chdir iputdir failed" ;;
  r <- call (Unlink $"../iputdir") ;;
  fail_if (r <? 0) "unlink ../iputdir failed" ;;
  r <- call (Chdir $"/") ;;
  fail_if (r <? 0) "chdir / failed" ;;
  say "iput test ok" ;;
  Finish tt.

Definition opentest : utest unit :=
  say "open test" ;;
  fd <- call (Open $"echo" 0) ;;
  fail_if (fd <? 0) "open echo failed!" ;;
  call (Close fd) ;;
  fd <- call (Open $"doesnotexist" 0) ;;
  fail_if (0 <=? fd) "open doesnotexist succeeded!" ;;
  say "open test ok" ;;
  Finish tt.

Definition writetest (buf : list Z) : utest (list Z) :=
  say "small file test" ;;
  fd <- call (Open $"small" (Z.lor O_CREATE O_RDWR)) ;;
  (if 0 <=? fd then say "creat small succeeded; ok" ;; Finish tt else fail_if true "error: creat small failed!") ;;
  repeat_from 100 0 (fun i _ =>
    r <- call (Write fd $"aaaaaaaaaa" 10) ;;
    fail_if (negb (r =? 10)) "error: write aa %d new file failed" ;;
    r <- call (Write fd $"bbbbbbbbbb" 10) ;;
    fail_if (negb (r =? 10)) "error: write bb %d new file failed") tt ;;
  say "writes ok" ;;
  call (Close fd) ;;
  fd <- call (Open $"small" O_RDONLY) ;;
  (if 0 <=? fd then say "open small succeeded ok" ;; Finish tt else fail_if true "error: open small failed!") ;;
  ib <- read_into buf fd 2000 ;;
  let (i, buf) := (ib : Z * list Z) in
  (if i =? 2000 then say "read succeeded ok" ;; Finish tt else fail_if true "read failed") ;;
  call (Close fd) ;;
  r <- call (Unlink $"small") ;;
  fail_if (r <? 0) "unlink small failed" ;;
  say "small file test ok" ;;
  Finish buf.

Definition writetest1 (buf : list Z) : utest (list Z) :=
  say "big files test" ;;
  fd <- call (Open $"big" (Z.lor O_CREATE O_RDWR)) ;;
  fail_if (fd <? 0) "error: creat big failed!" ;;
  buf <- repeat_from (Z.to_nat MAXFILE) 0 (fun i buf =>
    let buf := lst32 buf 0 i in
    r <- call (Write fd buf 512) ;;
    fail_if (negb (r =? 512)) "error: write big file failed" ;;
    Finish buf) buf ;;
  call (Close fd) ;;
  fd <- call (Open $"big" O_RDONLY) ;;
  fail_if (fd <? 0) "error: open big failed!" ;;
  buf <- forever (S (S (Z.to_nat MAXFILE))) (fun st : Z * list Z =>
    let (n, buf) := st in
    ib <- read_into buf fd 512 ;;
    let (i, buf) := (ib : Z * list Z) in
    if i =? 0 then
      fail_if (n =? MAXFILE - 1) "read only %d blocks from big" ;;
      Finish (inr buf)
    else
      fail_if (negb (i =? 512)) "read failed %d" ;;
      fail_if (negb (i32 (lld32 buf 0) =? n)) "read content of block %d is %d" ;;
      Finish (inl (n + 1, buf))) (0, buf) ;;
  call (Close fd) ;;
  r <- call (Unlink $"big") ;;
  fail_if (r <? 0) "unlink big failed" ;;
  say "big files ok" ;;
  Finish buf.

Definition createtest : utest unit :=
  say "many creates, followed by unlink test" ;;
  repeat_from 52 0 (fun i _ =>
    fd <- call (Open [97; 48 + i] (Z.lor O_CREATE O_RDWR)) ;;
    call (Close fd) ;;
    Finish tt) tt ;;
  repeat_from 52 0 (fun i _ =>
    call (Unlink [97; 48 + i]) ;;
    Finish tt) tt ;;
  say "many creates, followed by unlink; ok" ;;
  Finish tt.

Definition dirtest : utest unit :=
  say "mkdir test" ;;
  r <- call (Mkdir $"dir0") ;;
  fail_if (r <? 0) "mkdir failed" ;;
  r <- call (Chdir $"dir0") ;;
  fail_if (r <? 0) "chdir dir0 failed" ;;
  r <- call (Chdir $"..") ;;
  fail_if (r <? 0) "chdir .. failed" ;;
  r <- call (Unlink $"dir0") ;;
  fail_if (r <? 0) "unlink dir0 failed" ;;
  say "mkdir test ok" ;;
  Finish tt.

Definition unlinkread (buf : list Z) : utest (list Z) :=
  say "unlinkread test" ;;
  fd <- call (Open $"unlinkread" (Z.lor O_CREATE O_RDWR)) ;;
  fail_if (fd <? 0) "create unlinkread failed" ;;
  call (Write fd $"hello" 5) ;;
  call (Close fd) ;;
  fd <- call (Open $"unlinkread" O_RDWR) ;;
  fail_if (fd <? 0) "open unlinkread failed" ;;
  r <- call (Unlink $"unlinkread") ;;
  fail_if (negb (r =? 0)) "unlink unlinkread failed" ;;
  fd1 <- call (Open $"unlinkread" (Z.lor O_CREATE O_RDWR)) ;;
  call (Write fd1 $"yyy" 3) ;;
  call (Close fd1) ;;
  rb <- read_into buf fd BUFSIZE ;;
  let (r, buf) := (rb : Z * list Z) in
  fail_if (negb (r =? 5)) "unlinkread read failed" ;;
  fail_if (negb (char_at buf 0 =? 104)) "unlinkread wrong data" ;;
  r <- call (Write fd buf 10) ;;
  fail_if (negb (r =? 10)) "unlinkread write failed" ;;
  call (Close fd) ;;
  call (Unlink $"unlinkread") ;;
  say "unlinkread ok" ;;
  Finish buf.

Definition linktest (buf : list Z) : utest (list Z) :=
  say "linktest" ;;
  call (Unlink $"lf1") ;;
  call (Unlink $"lf2") ;;
  fd <- call (Open $"lf1" (Z.lor O_CREATE O_RDWR)) ;;
  fail_if (fd <? 0) "create lf1 failed" ;;
  r <- call (Write fd $"hello" 5) ;;
  fail_if (negb (r =? 5)) "write lf1 failed" ;;
  call (Close fd) ;;
  r <- call (Link $"lf1" $"lf2") ;;
  fail_if (r <? 0) "link lf1 lf2 failed" ;;
  call (Unlink $"lf1") ;;
  r <- call (Open $"lf1" 0) ;;
  fail_if (0 <=? r) "unlinked lf1 but it is still there!" ;;
  fd <- call (Open $"lf2" 0) ;;
  fail_if (fd <? 0) "open lf2 failed" ;;
  rb <- read_into buf fd BUFSIZE ;;
  let (r, buf) := (rb : Z * list Z) in
  fail_if (negb (r =? 5)) "read lf2 failed" ;;
  call (Close fd) ;;
  r <- call (Link $"lf2" $"lf2") ;;
  fail_if (0 <=? r) "link lf2 lf2 succeeded! oops" ;;
  call (Unlink $"lf2") ;;
  r <- call (Link $"lf2" $"lf1") ;;
  fail_if (0 <=? r) "link non-existant succeeded! oops" ;;
  r <- call (Link $"." $"lf1") ;;
  fail_if (0 <=? r) "link . lf1 succeeded! oops" ;;
  say "linktest ok" ;;
  Finish buf.

Definition bigdir_name (i : Z) : list Z := [120; 48 + i / 64; 48 + i mod 64].

Definition bigdir : utest unit :=
  say "bigdir test" ;;
  call (Unlink $"bd") ;;
  fd <- call (Open $"bd" O_CREATE) ;;
  fail_if (fd <? 0) "bigdir create failed" ;;
  call (Close fd) ;;
  repeat_from 500 0 (fun i _ =>
    r <- call (Link $"bd" (bigdir_name i)) ;;
    fail_if (negb (r =? 0)) "bigdir link failed") tt ;;
  call (Unlink $"bd") ;;
  repeat_from 500 0 (fun i _ =>
    r <- call (Unlink (bigdir_name i)) ;;
    fail_if (negb (r =? 0)) "bigdir unlink failed") tt ;;
  say "bigdir ok" ;;
  Finish tt.

(** The first half of subdir: directories in directories, and names that come and go. *)
Definition subdir_make (buf : list Z) : utest (list Z) :=
  say "subdir test" ;;
  call (Unlink $"ff") ;;
  r <- call (Mkdir $"dd") ;;
  fail_if (negb (r =? 0)) "subdir mkdir dd failed" ;;
  fd <- call (Open $"dd/ff" (Z.lor O_CREATE O_RDWR)) ;;
  fail_if (fd <? 0) "create dd/ff failed" ;;
  call (Write fd $"ff" 2) ;;
  call (Close fd) ;;
  r <- call (Unlink $"dd") ;;
  fail_if (0 <=? r) "unlink dd (non-empty dir) succeeded!" ;;
  r <- call (Mkdir $"/dd/dd") ;;
  fail_if (negb (r =? 0)) "subdir mkdir dd/dd failed" ;;
  fd <- call (Open $"dd/dd/ff" (Z.lor O_CREATE O_RDWR)) ;;
  fail_if (fd <? 0) "create dd/dd/ff failed" ;;
  call (Write fd $"FF" 2) ;;
  call (Close fd) ;;
  fd <- call (Open $"dd/dd/../ff" 0) ;;
  fail_if (fd <? 0) "open dd/dd/../ff failed" ;;
  rb <- read_into buf fd BUFSIZE ;;
  let (cc, buf) := (rb : Z * list Z) in
  fail_if (negb (cc =? 2) || negb (char_at buf 0 =? 102)) "dd/dd/../ff wrong content" ;;
  call (Close fd) ;;
  r <- call (Link $"dd/dd/ff" $"dd/dd/ffff") ;;
  fail_if (negb (r =? 0)) "link dd/dd/ff dd/dd/ffff failed" ;;
  r <- call (Unlink $"dd/dd/ff") ;;
  fail_if (negb (r =? 0)) "unlink dd/dd/ff failed" ;;
  r <- call (Open $"dd/dd/ff" O_RDONLY) ;;
  fail_if (0 <=? r) "open (unlinked) dd/dd/ff succeeded" ;;
  r <- call (Chdir $"dd") ;;
  fail_if (negb (r =? 0)) "chdir dd failed" ;;
  r <- call (Chdir $"dd/../../dd") ;;
  fail_if (negb (r =? 0)) "chdir dd/../../dd failed" ;;
  r <- call (Chdir $"dd/../../../dd") ;;
  fail_if (negb (r =? 0)) "chdir dd/../../dd failed" ;;
  r <- call (Chdir $"./..") ;;
  fail_if (negb (r =? 0)) "chdir ./.. failed" ;;
  fd <- call (Open $"dd/dd/ffff" 0) ;;
  fail_if (fd <? 0) "open dd/dd/ffff failed" ;;
  rb <- read_into buf fd BUFSIZE ;;
  let (r, buf) := (rb : Z * list Z) in
  fail_if (negb (r =? 2)) "read dd/dd/ffff wrong len" ;;
  call (Close fd) ;;
  Finish buf.

(** Calls that must not succeed. *)
Fixpoint refused (l : list (ucall * bool * string)) : utest unit :=
  match l with
  | [] => Finish tt
  | (c, zero, msg) :: l =>
      r <- call c ;;
      fail_if (if (zero : bool) then r =? 0 else 0 <=? r) msg ;;
      refused l
  end.

(** The second half: what must be refused, and the removal. *)
Definition subdir_refused : list (ucall * bool * string) :=
  [ (Open $"dd/dd/ff" O_RDONLY, false, "open (unlinked) dd/dd/ff succeeded!");
    (Open $"dd/ff/ff" (Z.lor O_CREATE O_RDWR), false, "create dd/ff/ff succeeded!");
    (Open $"dd/xx/ff" (Z.lor O_CREATE O_RDWR), false, "create dd/xx/ff succeeded!");
    (Open $"dd" O_CREATE, false, "create dd succeeded!");
    (Open $"dd" O_RDWR, false, "open dd rdwr succeeded!");
    (Open $"dd" O_WRONLY, false, "open dd wronly succeeded!");
    (Link $"dd/ff/ff" $"dd/dd/xx", true, "link dd/ff/ff dd/dd/xx succeeded!");
    (Link $"dd/xx/ff" $"dd/dd/xx", true, "link dd/xx/ff dd/dd/xx succeeded!");
    (Link $"dd/ff" $"dd/dd/ffff", true, "link dd/ff dd/dd/ffff succeeded!");
    (Mkdir $"dd/ff/ff", true, "mkdir dd/ff/ff succeeded!");
    (Mkdir $"dd/xx/ff", true, "mkdir dd/xx/ff succeeded!");
    (Mkdir $"dd/dd/ffff", true, "mkdir dd/dd/ffff succeeded!");
    (Unlink $"dd/xx/ff", true, "unlink dd/xx/ff succeeded!");
    (Unlink $"dd/ff/ff", true, "unlink dd/ff/ff succeeded!");
    (Chdir $"dd/ff", true, "chdir dd/ff succeeded!");
    (Chdir $"dd/xx", true, "chdir dd/xx succeeded!") ].

Definition subdir_remove : utest unit :=
  r <- call (Unlink $"dd/dd/ffff") ;;
  fail_if (negb (r =? 0)) "unlink dd/dd/ff failed" ;;
  r <- call (Unlink $"dd/ff") ;;
  fail_if (negb (r =? 0)) "unlink dd/ff failed" ;;
  r <- call (Unlink $"dd") ;;
  fail_if (r =? 0) "unlink non-empty dd succeeded!" ;;
  r <- call (Unlink $"dd/dd") ;;
  fail_if (r <? 0) "unlink dd/dd failed" ;;
  r <- call (Unlink $"dd") ;;
  fail_if (r <? 0) "unlink dd failed" ;;
  say "subdir ok" ;;
  Finish tt.

Definition subdir (buf : list Z) : utest (list Z) :=
  buf <- subdir_make buf ;;
  refused subdir_refused ;;
  subdir_remove ;;
  Finish buf.

(** [for(sz = 499; sz < 12*512; sz += 471)] *)
Definition bigwrite (buf : list Z) : utest unit :=
  say "bigwrite test" ;;
  call (Unlink $"bigwrite") ;;
  forever 14 (fun sz =>
    if sz <? 12 * 512 then
      fd <- call (Open $"bigwrite" (Z.lor O_CREATE O_RDWR)) ;;
      fail_if (fd <? 0) "cannot create bigwrite" ;;
      repeat_from 2 0 (fun _ _ =>
        cc <- call (Write fd buf sz) ;;
        fail_if (negb (cc =? sz)) "write(%d) ret %d") tt ;;
      call (Close fd) ;;
      call (Unlink $"bigwrite") ;;
      Finish (inl (sz + 471))
    else Finish (inr tt)) 499 ;;
  say "bigwrite ok" ;;
  Finish tt.

Definition bigfile (buf : list Z) : utest (list Z) :=
  say "bigfile test" ;;
  call (Unlink $"bigfile") ;;
  fd <- call (Open $"bigfile" (Z.lor O_CREATE O_RDWR)) ;;
  fail_if (fd <? 0) "cannot create bigfile" ;;
  buf <- repeat_from 20 0 (fun i buf =>
    let buf := replicate 600 (u8 i) ++ drop 600 buf in
    r <- call (Write fd buf 600) ;;
    fail_if (negb (r =? 600)) "write bigfile failed" ;;
    Finish buf) buf ;;
  call (Close fd) ;;
  fd <- call (Open $"bigfile" 0) ;;
  fail_if (fd <? 0) "cannot open bigfile" ;;
  tb <- forever 42 (fun st : Z * Z * list Z =>
    let '(i, total, buf) := st in
    rb <- read_into buf fd 300 ;;
    let (cc, buf) := (rb : Z * list Z) in
    fail_if (cc <? 0) "read bigfile failed" ;;
    if cc =? 0 then Finish (inr (total, buf)) else
    fail_if (negb (cc =? 300)) "short read bigfile" ;;
    fail_if (negb (char_at buf 0 =? i / 2) || negb (char_at buf 299 =? i / 2)) "read bigfile wrong data" ;;
    Finish (inl (i + 1, total + cc, buf))) (0, 0, buf) ;;
  let (total, buf) := (tb : Z * list Z) in
  call (Close fd) ;;
  fail_if (negb (total =? 20 * 600)) "read bigfile wrong total" ;;
  call (Unlink $"bigfile") ;;
  say "bigfile test ok" ;;
  Finish buf.

Definition fourteen : utest unit :=
  say "fourteen test" ;;
  r <- call (Mkdir $"12345678901234") ;;
  fail_if (negb (r =? 0)) "mkdir 12345678901234 failed" ;;
  r <- call (Mkdir $"12345678901234/123456789012345") ;;
  fail_if (negb (r =? 0)) "mkdir 12345678901234/123456789012345 failed" ;;
  fd <- call (Open $"123456789012345/123456789012345/123456789012345" O_CREATE) ;;
  fail_if (fd <? 0) "create 123456789012345/123456789012345/123456789012345 failed" ;;
  call (Close fd) ;;
  fd <- call (Open $"12345678901234/12345678901234/12345678901234" 0) ;;
  fail_if (fd <? 0) "open 12345678901234/12345678901234/12345678901234 failed" ;;
  call (Close fd) ;;
  r <- call (Mkdir $"12345678901234/12345678901234") ;;
  fail_if (r =? 0) "mkdir 12345678901234/12345678901234 succeeded!" ;;
  r <- call (Mkdir $"123456789012345/12345678901234") ;;
  fail_if (r =? 0) "mkdir 12345678901234/123456789012345 succeeded!" ;;
  say "fourteen ok" ;;
  Finish tt.

Definition rmdot : utest unit :=
  say "rmdot test" ;;
  r <- call (Mkdir $"dots") ;;
  fail_if (negb (r =? 0)) "mkdir dots failed" ;;
  r <- call (Chdir $"dots") ;;
  fail_if (negb (r =? 0)) "chdir dots failed" ;;
  r <- call (Unlink $".") ;;
  fail_if (r =? 0) "rm . worked!" ;;
  r <- call (Unlink $"..") ;;
  fail_if (r =? 0) "rm .. worked!" ;;
  r <- call (Chdir $"/") ;;
  fail_if (negb (r =? 0)) "chdir / failed" ;;
  r <- call (Unlink $"dots/.") ;;
  fail_if (r =? 0) "unlink dots/. worked!" ;;
  r <- call (Unlink $"dots/..") ;;
  fail_if (r =? 0) "unlink dots/.. worked!" ;;
  r <- call (Unlink $"dots") ;;
  fail_if (negb (r =? 0)) "unlink dots failed!" ;;
  say "rmdot ok" ;;
  Finish tt.

Definition dirfile : utest unit :=
  say "dir vs file" ;;
  fd <- call (Open $"dirfile" O_CREATE) ;;
  fail_if (fd <? 0) "create dirfile failed" ;;
  call (Close fd) ;;
  r <- call (Chdir $"dirfile") ;;
  fail_if (r =? 0) "chdir dirfile succeeded!" ;;
  fd <- call (Open $"dirfile/xx" 0) ;;
  fail_if (0 <=? fd) "create dirfile/xx succeeded!" ;;
  fd <- call (Open $"dirfile/xx" O_CREATE) ;;
  fail_if (0 <=? fd) "create dirfile/xx succeeded!" ;;
  r <- call (Mkdir $"dirfile/xx") ;;
  fail_if (r =? 0) "mkdir dirfile/xx succeeded!" ;;
  r <- call (Unlink $"dirfile/xx") ;;
  fail_if (r =? 0) "unlink dirfile/xx succeeded!" ;;
  r <- call (Link $"README" $"dirfile/xx") ;;
  fail_if (r =? 0) "link to dirfile/xx succeeded!" ;;
  r <- call (Unlink $"dirfile") ;;
  fail_if (negb (r =? 0)) "unlink dirfile failed!" ;;
  fd <- call (Open $"." O_RDWR) ;;
  fail_if (0 <=? fd) "open . for writing succeeded!" ;;
  fd <- call (Open $"." 0) ;;
  r <- call (Write fd $"x" 1) ;;
  fail_if (0 <? r) "write . succeeded!" ;;
  call (Close fd) ;;
  say "dir vs file OK" ;;
  Finish tt.

Definition iref : utest unit :=
  say "empty file name" ;;
  repeat_from 51 0 (fun _ _ =>
    r <- call (Mkdir $"irefd") ;;
    fail_if (negb (r =? 0)) "mkdir irefd failed" ;;
    r <- call (Chdir $"irefd") ;;
    fail_if (negb (r =? 0)) "chdir irefd failed" ;;
    call (Mkdir []) ;;
    call (Link $"README" []) ;;
    fd <- call (Open [] O_CREATE) ;;
    (if 0 <=? fd then call (Close fd) else Finish 0) ;;
    fd <- call (Open $"xx" O_CREATE) ;;
    (if 0 <=? fd then call (Close fd) else Finish 0) ;;
    call (Unlink $"xx") ;;
    Finish tt) tt ;;
  call (Chdir $"/") ;;
  say "empty file name OK" ;;
  Finish tt.

Definition argptest : utest unit :=
  fd <- call (Open $"init" O_RDONLY) ;;
  (if fd <? 0 then call (Printf 2 "open failed") ;; Exit else Finish tt) ;;
  brk <- call (Sbrk 0) ;;
  call (ReadAt fd (brk - 1) (-1)) ;;
  call (Close fd) ;;
  say "arg test passed" ;;
  Finish tt.

(** [main] up to the first test, and the tests above that are run here, in its order. *)
Definition main_start : utest unit :=
  say "usertests starting" ;;
  r <- call (Open $"usertests.ran" 0) ;;
  fail_if (0 <=? r) "already ran user tests -- rebuild fs.img" ;;
  fd <- call (Open $"usertests.ran" O_CREATE) ;;
  call (Close fd) ;;
  Finish tt.

(** The short ones of the tests above, in the order of [main]; [dirtest], which [main] does not call, comes last. *)
Definition quick_tests (buf : list Z) : utest (list Z) :=
  main_start ;;
  argptest ;;
  opentest ;;
  iputtest ;;
  rmdot ;;
  fourteen ;;
  buf <- subdir buf ;;
  buf <- linktest buf ;;
  buf <- unlinkread buf ;;
  dirfile ;;
  dirtest ;;
  Finish buf.

(** ** Running on the kernel

    The process has five pages of user memory, at [UP], with the arguments of a call on its
    stack at [SP], its two names and its buffer; [call_mem] is its memory at the trap. *)
Definition PD : Z := KERNBASE + 4194304.
Definition PT : Z := PD + 4096.
Definition STACK : Z := PT + 4096.
Definition UP : Z := KERNBASE + 5242880.
Definition TF : Z := STACK + KSTACKSIZE - TF_SIZE.
Definition SP : Z := 4096.
Definition NAME1 : Z := 4608.
Definition NAME2 : Z := 4864.
Definition BUF : Z := 8192.

Definition byte_of (w k : Z) : Z := u8 (Z.shiftr w (8 * k)).

(** The page directory, the page table, the trap frame with the stack pointer and the number
    of the call, and the user's memory. *)
Definition call_mem (num : Z) (args name1 name2 data : list Z) : mem := fun x =>
  if x <? PT then (if (PD <=? x) && (x <? PD + 4) then byte_of (V2P PT + 7) (x - PD) else 0)
  else if x <? STACK then (if x <? PT + 20 then byte_of (V2P (UP + 4096 * ((x - PT) / 4)) + 7) ((x - PT) mod 4) else 0)
  else if x <? UP then
    let o := x - TF in
    if (tf_eax <=? o) && (o <? tf_eax + 4) then byte_of num (o - tf_eax)
    else if (tf_esp <=? o) && (o <? tf_esp + 4) then byte_of SP (o - tf_esp) else 0
  else
    let o := x - UP in
    if o <? NAME1 then (if o <? SP + 4 then 0 else byte_of (lget args ((o - SP - 4) / 4)) (o mod 4))
    else if o <? NAME2 then lget name1 (o - NAME1)
    else if o <? BUF then lget name2 (o - NAME2)
    else lget data (o - BUF).

Section run.
Context `{L : Linker} `{DW : Devsw}.

(** A system call, by its number in syscall.h; the history of the disk is dropped. *)
Definition enter_kernel (num : Z) (args name1 name2 data : list Z) : K Z :=
  (upd_mem (fun _ => call_mem num args name1 name2 data) ;;
   modify (set_k_dtrace []) ;;
   syscall ;;
   r <- load32 (TF + tf_eax) ;;
   ret (i32 r))%K.

Definition do_call (c : ucall) : K (Z * list Z) :=
  let int (m : K Z) := (r <- m ;; ret (r, []))%K in
  match c with
  | Open path mode => int (enter_kernel 15 [NAME1; mode] path [] [])
  | Close fd => int (enter_kernel 21 [fd] [] [] [])
  | Read fd n => (r <- enter_kernel 5 [fd; BUF; n] [] [] [] ;; b <- ureads BUF (Z.to_nat r) ;; ret (r, b))%K
  | ReadAt fd addr n => int (enter_kernel 5 [fd; addr; n] [] [] [])
  | Write fd data n => int (enter_kernel 16 [fd; BUF; n] [] [] (take (Z.to_nat n) data))
  | Mkdir path => int (enter_kernel 20 [NAME1] path [] [])
  | Chdir path => int (enter_kernel 9 [NAME1] path [] [])
  | Unlink path => int (enter_kernel 18 [NAME1] path [] [])
  | Link old new => int (enter_kernel 19 [NAME1; NAME2] old new [])
  | Sbrk n => int (enter_kernel 12 [n] [] [] [])
  | Printf _ _ => ret (0, [])
  end.

Fixpoint run {A} (t : utest A) : K (option A) :=
  match t with
  | Finish a => ret (Some a)
  | Exit => ret None
  | Stuck => fault "loop"
  | Do c k => (rb <- do_call c ;; run (k (fst rb) (snd rb)))%K
  end.
End run.

(** ** The machine *)

(** The image of mkfs with three files, but for the writing of zeros it begins with. *)
Definition image_files : list (list Z * option (list (list Z))) :=
  [($"_echo", Some [[1; 2; 3]]); ($"_init", Some [[4; 5]]); ($"README", Some [[6; 7; 8; 9]])].

Definition fresh_kernel (disk : list (list Z)) : kst :=
  set_k_disk disk (set_k_icache (replicate NINODE din0)
    (set_k_bufs (replicate (S NBUF) (mkBuf 0 0 0 (mkSleeplock false 0) 0 0 0 (replicate 512 0)))
    (set_k_ftable (replicate NFILE (mkFile FD_NONE 0 false false 0 None 0))
    (set_k_ptable (set_p_sz 20480 (set_p_tf TF (set_p_kstack STACK (set_p_pgdir PD boot_proc))) :: replicate 511 proc0) boot_state)))).

(** [binit] of [main], [iinit] and [initlog] of the first process, which is in the root. *)
Definition boot : K unit :=
  (binit ;;
   iinit ROOTDEV ;;
   initlog ROOTDEV ;;
   rd <- iget ROOTDEV ROOTINO ;;
   idup rd ;;
   upd_proc 0 (set_p_cwd (Some rd)) ;;
   upd_cont 0 (set_c_rootdir (Some rd)))%K.

(** mkfs after the zeros and the superblock. *)
Definition mkfs_rest (files : list (list Z * option (list (list Z)))) : M mkst unit :=
  (rootino <- ialloc T_DIR ;;
   if negb (rootino =? ROOTINO) then panic "assert" else
   iappend rootino (root_entry rootino [46]) ;;
   iappend rootino (root_entry rootino [46; 46]) ;;
   for_each files (add_file rootino) ;;
   fix_root rootino ;;
   fb <- gets m_freeblock ;;
   balloc fb)%K.

Definition zero_image : mkst := mk_mkst (<[1%nat := sb_bytes mkfs_sb zeros]> (replicate (Z.to_nat FSSIZE) zeros)) 1 nmeta.

Lemma mkfs_zeros files : mkfs files mkfs_start = mkfs_rest files zero_image.
Proof.
  unfold mkfs, zero_image. assert (Z.of_nat (Z.to_nat FSSIZE) = FSSIZE) as Hn by (apply Z2Nat.id; unfold FSSIZE; lia).
  generalize dependent (Z.to_nat FSSIZE). intros n Hn.
  rewrite (bind_Ret _ _ mkfs_start _ _ (zero_blocks n 0 mkfs_start eq_refl ltac:(lia))). unfold wsect. rewrite bind_modify. unfold put_block.
  cbn [m_img m_freeinode m_freeblock Nat.add mkfs_start]. rewrite length_replicate. change (seek 1) with 1%nat.
  rewrite (proj2 (Nat.ltb_lt 1 n)) by (unfold FSSIZE in Hn; lia). reflexivity.
Qed.

Section pass.
Context `{L : Linker} `{DW : Devsw}.

(** Whether [t] comes to its end on the kernel started from the image. *)
Definition passes {A} (t : utest A) : bool :=
  match mkfs_rest image_files zero_image with
  | Ret _ img =>
      match (boot ;; run t)%K (fresh_kernel (m_img img)) with
      | Ret (Some _) _ => true
      | _ => false
      end
  | _ => false
  end.

Lemma passes_ends {A} (t : utest A) : passes t = true ->
  exists img s a, mkfs image_files mkfs_start = Ret tt img /\ (boot ;; run t)%K (fresh_kernel (m_img img)) = Ret (Some a) s.
Proof.
  unfold passes. rewrite mkfs_zeros. intros H.
  destruct (mkfs_rest image_files zero_image) as [[] img| | | |]; [|discriminate H..]. exists img.
  destruct ((boot ;; run t)%K (fresh_kernel (m_img img))) as [[a|] s| | | |]; [|discriminate H..]. exists s, a. split; reflexivity.
Qed.

Lemma quick_tests_pass : passes (quick_tests (replicate 8192 0)) = true.
Proof. vm_compute. reflexivity. Qed.

(** The tests of usertests.c that neither fork nor take long, evaluated: on the image mkfs
    writes for [image_files], the kernel runs them one after the other, every system call
    from the arguments in user memory through paths, inodes, log and buffers to the disk,
    without panic, fault or wait, and none of them finds a result it does not expect. *)
Theorem usertests_pass :
  exists img s buf, mkfs image_files mkfs_start = Ret tt img /\
    (boot ;; run (quick_tests (replicate 8192 0)))%K (fresh_kernel (m_img img)) = Ret (Some buf) s.
Proof. exact (passes_ends _ quick_tests_pass). Qed.
End pass.
