(* ===== verification/Umalloc.v ===== *)
(** * The user memory allocator

    umalloc.c: [malloc] and [free] over the bytes of a process, the free list being the
    ring of headers the code keeps inside the free blocks.  [sbrk] is the kernel's, with a
    limit on the process size. *)

From S2P Require Import Prelude Monad KState.

Local Open Scope kernel_scope.

(** The process: its memory, [freep], the end of its data and how far that can grow. *)
Record ust := mk_ust {
  u_mem : mem;
  u_freep : Z;
  u_brk : Z;
  u_lim : Z
}.

Definition set_u_mem m s := mk_ust m (u_freep s) (u_brk s) (u_lim s).
Definition set_u_freep p s := mk_ust (u_mem s) p (u_brk s) (u_lim s).
Definition set_u_brk b s := mk_ust (u_mem s) (u_freep s) b (u_lim s).

Definition U := M ust.

(** [sizeof(Header)]: a pointer and a size. *)
Definition HDR : Z := 8.

Definition h_ptr (a : Z) : U Z := gets (fun s => ld32 (u_mem s) a).
Definition h_size (a : Z) : U Z := gets (fun s => ld32 (u_mem s) (a + 4)).
Definition set_h_ptr (a v : Z) : U unit := modify (fun s => set_u_mem (st32 (u_mem s) a v) s).
Definition set_h_size (a v : Z) : U unit := modify (fun s => set_u_mem (st32 (u_mem s) (a + 4) v) s).

(** [sbrk(n)]: the old end of the data, or -1 ([sys_sbrk] and [growproc]); [u_lim] is how
    far [allocuvm] can go, and [deallocuvm] ignores a new size that is not smaller. *)
Definition sbrk (n : Z) : U Z :=
  s <- gets (fun s => s) ;;
  let sz := u_brk s in
  if 0 <? n then
    if sz + n <=? u_lim s then modify (set_u_brk (sz + n)) ;; ret sz else ret (-1)
  else if n <? 0 then
    let newsz := u32 (sz + n) in
    let sz' := if sz <=? newsz then sz else newsz in
    if sz' =? 0 then ret (-1) else modify (set_u_brk sz') ;; ret sz
  else ret sz.

Section umalloc.
(** The address of the static [base]. *)
Context (base : Z).

(** The search loop of [free]: [p] with [bp] between it and its successor, or the last
    block before the ring wraps. *)
Definition free_step (bp p : Z) : U (Z + Z) :=
  n <- h_ptr p ;;
  if (p <? bp) && (bp <? n) then ret (inr p)
  else if (n <=? p) && ((p <? bp) || (bp <? n)) then ret (inr p)
  else ret (inl n).

(** Joining the block to the one after it, or linking it. *)
Definition free_right (p bp : Z) : U unit :=
  bs <- h_size bp ;;
  pp <- h_ptr p ;;
  if u32 (bp + bs * HDR) =? pp then
    ns <- h_size pp ;;
    set_h_size bp (u32 (bs + ns)) ;;
    pp <- h_ptr p ;;
    nn <- h_ptr pp ;;
    set_h_ptr bp nn
  else set_h_ptr bp pp.

(** Joining it to the one before it, or linking that one to it. *)
Definition free_left (p bp : Z) : U unit :=
  ps <- h_size p ;;
  if u32 (p + ps * HDR) =? bp then
    bs <- h_size bp ;;
    set_h_size p (u32 (ps + bs)) ;;
    bn <- h_ptr bp ;;
    set_h_ptr p bn
  else set_h_ptr p bp.

Definition free (fuel : nat) (ap : Z) : U unit :=
  let bp := u32 (ap - HDR) in
  freep <- gets u_freep ;;
  p <- loop fuel (free_step bp) freep ;;
  free_right p bp ;;
  free_left p bp ;;
  modify (set_u_freep p).

Definition morecore (fuel : nat) (nu : Z) : U Z :=
  let nu := if nu <? 4096 then 4096 else nu in
  p <- sbrk (i32 (nu * HDR)) ;;
  if p =? -1 then ret 0 else
  set_h_size p nu ;;
  free fuel (u32 (p + HDR)) ;;
  gets u_freep.

(** One iteration of [malloc]'s loop on [prevp] and [p]. *)
Definition malloc_step (fuel : nat) (nunits : Z) : Z * Z -> U (Z * Z + Z) := fun '(prevp, p) =>
  size <- h_size p ;;
  if nunits <=? size then
    p <- (if size =? nunits then
            n <- h_ptr p ;;
            set_h_ptr prevp n ;;
            ret p
          else
            set_h_size p (size - nunits) ;;
            size <- h_size p ;;
            let p := u32 (p + size * HDR) in
            set_h_size p nunits ;;
            ret p) ;;
    modify (set_u_freep prevp) ;;
    ret (inr (u32 (p + HDR)))
  else
    freep <- gets u_freep ;;
    if p =? freep then
      p <- morecore fuel nunits ;;
      if p =? 0 then ret (inr 0)
      else
        n <- h_ptr p ;;
        ret (inl (p, n))
    else
      n <- h_ptr p ;;
      ret (inl (p, n)).

(** [nbytes] in units of headers, with one for the header itself. *)
Definition units_of (nbytes : Z) : Z := u32 (nbytes + HDR - 1) / HDR + 1.

Definition malloc (fuel : nat) (nbytes : Z) : U Z :=
  let nunits := units_of nbytes in
  freep <- gets u_freep ;;
  prevp <- (if freep =? 0 then
              set_h_ptr base base ;;
              modify (set_u_freep base) ;;
              set_h_size base 0 ;;
              ret base
            else ret freep) ;;
  p <- h_ptr prevp ;;
  loop fuel (malloc_step fuel nunits) (prevp, p).
End umalloc.

(** ** The ring of free blocks *)

(** A block: its header's address and its size in headers. *)
Notation block := (Z * Z)%type.

Definition hd_addr (l : list block) (e : Z) : Z := match l with [] => e | b :: _ => fst b end.

(** The headers of [l] in memory, each pointing to the next and the last to [e]. *)
Fixpoint seg (m : mem) (l : list block) (e : Z) : Prop :=
  match l with
  | [] => True
  | (a, n) :: l' => ld32 m a = hd_addr l' e /\ ld32 m (a + 4) = n /\ seg m l' e
  end.

(** Blocks between [lo] and [hi] in the order of their addresses, none touching the next
    one. *)
Fixpoint ascending (lo : Z) (l : list block) (hi : Z) : Prop :=
  match l with
  | [] => lo <= hi
  | (a, n) :: l' => lo < a /\ 1 <= n /\ ascending (a + 8 * n) l' hi
  end.

(** The end of the last block. *)
Fixpoint top (lo : Z) (l : list block) : Z :=
  match l with
  | [] => lo
  | (a, n) :: l' => top (a + 8 * n) l'
  end.

(** The bytes of the blocks. *)
Definition in_block (b : block) (x : Z) : Prop := fst b <= x < fst b + 8 * snd b.
Definition cover (l : list block) (x : Z) : Prop := Exists (fun b => in_block b x) l.
Definition units (l : list block) : Z := fold_right (fun b n => snd b + n) 0 l.

Lemma seg_app m l1 l2 e : seg m (l1 ++ l2) e <-> seg m l1 (hd_addr l2 e) /\ seg m l2 e.
Proof.
  induction l1 as [|[a n] l1 IH]; simpl; [tauto|]. rewrite IH.
  assert (hd_addr (l1 ++ l2) e = hd_addr l1 (hd_addr l2 e)) as -> by (by destruct l1). tauto.
Qed.

Lemma seg_frame m m' l e :
  (forall a n x, (a, n) ∈ l -> a <= x < a + 8 -> m x = m' x) -> seg m l e -> seg m' l e.
Proof.
  induction l as [|[a n] l IH]; simpl; [done|]. intros H (H1 & H2 & H3).
  assert (forall x, a <= x < a + 8 -> m x = m' x) as Hh by (intros x; apply (H a n); by left).
  rewrite <- (ld32_ext m m' a), <- (ld32_ext m m' (a + 4)) by (intros x Hx; apply Hh; lia).
  split_and!; [done | done |]. apply IH; [|done]. intros a' n' x Hin. apply (H a' n'). by right.
Qed.

Lemma ascending_app lo l1 l2 hi :
  ascending lo (l1 ++ l2) hi <-> ascending lo l1 (top lo l1) /\ ascending (top lo l1) l2 hi.
Proof.
  revert lo. induction l1 as [|[a n] l1 IH]; intros lo; simpl; [split; [split; [lia | done] | tauto]|].
  rewrite IH. tauto.
Qed.

Lemma top_app lo l1 l2 : top lo (l1 ++ l2) = top (top lo l1) l2.
Proof. revert lo. induction l1 as [|[a n] l1 IH]; intros lo; simpl; [done | apply IH]. Qed.

Lemma ascending_le lo l hi : ascending lo l hi -> lo <= hi.
Proof.
  revert lo. induction l as [|[a n] l IH]; intros lo; simpl; [done|].
  intros (H1 & H2 & H3). apply IH in H3. lia.
Qed.

Lemma ascending_in lo l hi a n :
  ascending lo l hi -> (a, n) ∈ l -> lo < a /\ 1 <= n /\ a + 8 * n <= hi.
Proof.
  revert lo. induction l as [|[a' n'] l IH]; intros lo; simpl; [by intros _ ?%elem_of_nil|].
  intros (H1 & H2 & H3) [[= -> ->]|Hin]%elem_of_cons; [apply ascending_le in H3; lia|].
  destruct (IH _ H3 Hin); lia.
Qed.

Lemma ascending_weaken lo lo' l hi hi' : lo' <= lo -> hi <= hi' -> ascending lo l hi -> ascending lo' l hi'.
Proof.
  revert lo lo'. induction l as [|[a n] l IH]; intros lo lo' Hlo Hhi; simpl; [lia|].
  intros (H1 & H2 & H3). split_and!; [lia | lia |]. by apply (IH (a + 8 * n)).
Qed.

Lemma cover_app l1 l2 x : cover (l1 ++ l2) x <-> cover l1 x \/ cover l2 x.
Proof. apply Exists_app. Qed.
Lemma cover_cons b l x : cover (b :: l) x <-> in_block b x \/ cover l x.
Proof. apply Exists_cons. Qed.
Lemma cover_nil x : cover [] x <-> False.
Proof. apply Exists_nil. Qed.
Lemma units_app l1 l2 : units (l1 ++ l2) = units l1 + units l2.
Proof. induction l1 as [|b l1 IH]; simpl; [done|]. rewrite IH. lia. Qed.

Lemma cover_range lo l hi x : ascending lo l hi -> cover l x -> lo < x < hi.
Proof.
  intros Ha ([a n] & Hin & Hx)%Exists_exists. pose proof (ascending_in _ _ _ _ _ Ha Hin).
  unfold in_block in Hx. simpl in Hx. lia.
Qed.

(** The blocks before and after an address outside all of them. *)
Lemma split_at_addr lo l hi b :
  ascending lo l hi -> ~ cover l b ->
  exists l1 l2, l = l1 ++ l2 /\ (forall a n, (a, n) ∈ l1 -> a + 8 * n <= b) /\ (forall a n, (a, n) ∈ l2 -> b < a).
Proof.
  revert lo. induction l as [|[a n] l IH]; intros lo Ha Hb.
  - exists [], []. split_and!; [done | by intros ? ? ?%elem_of_nil | by intros ? ? ?%elem_of_nil].
  - simpl in Ha. destruct Ha as (H1 & H2 & H3). rewrite cover_cons in Hb. unfold in_block in Hb. simpl in Hb.
    destruct (decide (b < a)) as [Hlt|Hge].
    + exists [], ((a, n) :: l). split_and!; [done | by intros ? ? ?%elem_of_nil|].
      intros a' n' [[= -> ->]|Hin]%elem_of_cons; [done|]. pose proof (ascending_in _ _ _ _ _ H3 Hin). lia.
    + destruct (IH _ H3) as (l1 & l2 & -> & Hl1 & Hl2); [tauto|].
      exists ((a, n) :: l1), l2. split_and!; [done | |done].
      intros a' n' [[= -> ->]|Hin]%elem_of_cons; [lia | by apply Hl1 in Hin].
Qed.

Section ring.
Context (base : Z).
Hypothesis Hbase : 0 < base.

Let root : block := (base, 0).

(** The free list is a ring through [base], in order and inside the data segment. *)
Record heap_ok (s : ust) (fl : list block) : Prop := {
  hk_ring : seg (u_mem s) (root :: fl) base;
  hk_asc : ascending (base + 7) fl (u_brk s);
  hk_freep : exists n, (u_freep s, n) ∈ root :: fl;
  hk_lim : base + 8 <= u_brk s <= u_lim s /\ u_lim s <= KERNBASE
}.

(** A node of the ring: its successor and its size. *)
Lemma node_at m l1 a n l2 e :
  seg m (l1 ++ (a, n) :: l2) e -> ld32 m a = hd_addr l2 e /\ ld32 m (a + 4) = n.
Proof. intros (_ & H1 & H2 & _)%seg_app. done. Qed.

(** *** The search of [free]

    [f1] and [f2] are the blocks before and after the block [bp]. *)
Section search.
Context (s : ust) (bp : Z) (f1 f2 : list block).
Hypothesis Hseg : seg (u_mem s) ((root :: f1) ++ f2) base.
Hypothesis Hasc : ascending (base + 7) (f1 ++ f2) (u_brk s).
Hypothesis Hbp : base < bp.
Hypothesis Hf1 : forall a n, (a, n) ∈ f1 -> a + 8 * n <= bp.
Hypothesis Hf2 : forall a n, (a, n) ∈ f2 -> bp < a.

(** The block before [bp]. *)
Definition pred_block (l : list block) : block := default root (last l).

Lemma search_eq p n :
  ld32 (u_mem s) p = n ->
  free_step bp p s =
    if (p <? bp) && (bp <? n) then Ret (inr p) s
    else if (n <=? p) && ((p <? bp) || (bp <? n)) then Ret (inr p) s else Ret (inl n) s.
Proof. intros <-. unfold free_step, h_ptr. rewrite bind_gets. by repeat case_match. Qed.

Lemma f1_range a n : (a, n) ∈ f1 -> base < a < bp.
Proof.
  intros Hin. pose proof (Hf1 _ _ Hin). apply ascending_app in Hasc as [H1 _].
  pose proof (ascending_in _ _ _ _ _ H1 Hin). lia.
Qed.

Lemma after_head : hd_addr f2 base = base \/ bp < hd_addr f2 base.
Proof. clear - Hf2. destruct f2 as [|[b k] l]; [by left | right]. apply (Hf2 b k). left. Qed.

Lemma before_range a n : (a, n) ∈ root :: f1 -> base <= a < bp.
Proof. intros [[= -> _]|Hin]%elem_of_cons; [lia|]. destruct (f1_range _ _ Hin). lia. Qed.

(** Successive blocks of the ring before it wraps. *)
Lemma before_next l0 a n a' n' l : root :: f1 = l0 ++ (a, n) :: (a', n') :: l -> a < a'.
Proof.
  intros Hl. destruct l0 as [|b0 l0].
  - unfold root in Hl. injection Hl as <- _ Hf. assert ((a', n') ∈ f1) as Hin by (rewrite Hf; left). destruct (f1_range _ _ Hin). lia.
  - injection Hl as _ Hl. pose proof Hasc as Ha. rewrite Hl, <- app_assoc in Ha. simpl in Ha.
    apply ascending_app in Ha as (_ & _ & Hn & Hlt & _). lia.
Qed.

Lemma search_before l : forall l0 a n fuel,
  root :: f1 = l0 ++ (a, n) :: l -> (length l < fuel)%nat ->
  loop fuel (free_step bp) a s = Ret (fst (default (a, n) (last l))) s.
Proof.
  induction l as [|[a' n'] l IH]; intros l0 a n fuel Hl Hf; (destruct fuel as [|fuel]; [lia|]);
    (assert ((a, n) ∈ root :: f1) as Hr%before_range by (rewrite Hl; set_solver));
    pose proof Hseg as Hs; rewrite Hl, <- app_assoc in Hs; simpl in Hs; apply node_at in Hs as [Hp _].
  - apply loop_done. rewrite (search_eq _ _ Hp). simpl. destruct after_head as [->|Hlt].
    + rewrite (proj2 (Z.ltb_ge bp base)), andb_false_r by lia.
      rewrite (proj2 (Z.leb_le base a)), (proj2 (Z.ltb_lt a bp)) by lia. done.
    + by rewrite (proj2 (Z.ltb_lt a bp)), (proj2 (Z.ltb_lt bp _) Hlt) by lia.
  - simpl in Hp. pose proof (before_next _ _ _ _ _ _ Hl) as Haa.
    assert ((a', n') ∈ root :: f1) as Hr'%before_range by (rewrite Hl; set_solver).
    rewrite (loop_next _ _ _ a' _ s).
    + rewrite (IH (l0 ++ [(a, n)]) a' n' fuel); [| by rewrite <- app_assoc | simpl in Hf; lia].
      rewrite last_cons. by destruct (last l).
    + rewrite (search_eq _ _ Hp). rewrite (proj2 (Z.ltb_ge bp a')), andb_false_r, (proj2 (Z.leb_gt a' a)) by lia. done.
Qed.

Lemma search_after l : forall l0 a n fuel,
  f2 = l0 ++ (a, n) :: l -> (length l + length f1 + 1 < fuel)%nat ->
  loop fuel (free_step bp) a s = Ret (fst (pred_block f1)) s.
Proof.
  induction l as [|[a' n'] l IH]; intros l0 a n fuel Hl Hf; (destruct fuel as [|fuel]; [lia|]);
    assert (bp < a) as Ha by (apply (Hf2 a n); rewrite Hl; set_solver);
    (assert (seg (u_mem s) (((root :: f1) ++ l0) ++ (a, n) :: _) base) as Hn
       by (pose proof Hseg as Hs; rewrite Hl, app_assoc in Hs; exact Hs)); apply node_at in Hn as [Hp _]; simpl in Hp.
  - rewrite (loop_next _ _ _ base _ s).
    + rewrite (search_before f1 [] base 0); [done | done | simpl in Hf; lia].
    + rewrite (search_eq _ _ Hp), (proj2 (Z.ltb_ge a bp)), (proj2 (Z.ltb_ge bp base)) by lia. simpl. by rewrite andb_false_r.
  - assert (a < a').
    { pose proof Hasc as Hs. rewrite Hl in Hs. apply ascending_app in Hs as (_ & (_ & _ & Hx & Hlt & _)%ascending_app). lia. }
    rewrite (loop_next _ _ _ a' _ s).
    + rewrite (IH (l0 ++ [(a, n)]) a' n' fuel); [done | by rewrite <- app_assoc | simpl in Hf; lia].
    + rewrite (search_eq _ _ Hp), (proj2 (Z.ltb_ge a bp)), (proj2 (Z.leb_gt a' a)) by lia. done.
Qed.

(** From any node the search ends at the block before [bp]. *)
Lemma search_found p n fuel :
  (p, n) ∈ root :: f1 ++ f2 -> (length f1 + length f2 + 1 < fuel)%nat ->
  loop fuel (free_step bp) p s = Ret (fst (pred_block f1)) s.
Proof.
  intros Hin Hf. assert ((p, n) ∈ (root :: f1) ++ f2) as [Hin1|Hin2]%elem_of_app by (by rewrite <- app_comm_cons).
  - apply list_elem_of_split in Hin1 as (l0 & l & Hl). pose proof (f_equal length Hl) as Hlen.
    rewrite length_app in Hlen. simpl in Hlen. rewrite (search_before l l0 p n) by (done || lia).
    do 2 f_equal. unfold pred_block.
    assert (last (root :: f1) = last (l0 ++ (p, n) :: l)) as E by (by rewrite Hl).
    rewrite last_app_cons, !last_cons in E. destruct (last l), (last f1); simpl in *; congruence.
  - apply list_elem_of_split in Hin2 as (l0 & l & Hl). pose proof (f_equal length Hl) as Hlen.
    rewrite length_app in Hlen. simpl in Hlen. apply (search_after l l0 p n); [done | lia].
Qed.
End search.

(** *** Joining blocks *)

(** Writes to the header at [w] leave all other bytes. *)
Definition same_but (w : Z) (m m' : mem) : Prop := forall x, x < w \/ w + 8 <= x -> m' x = m x.

Lemma same_but_trans w m1 m2 m3 : same_but w m1 m2 -> same_but w m2 m3 -> same_but w m1 m3.
Proof. intros H1 H2 x Hx. by rewrite H2, H1. Qed.

Lemma same_but_ptr w m v : same_but w m (st32 m w v).
Proof. intros x Hx. apply st32_frame. lia. Qed.
Lemma same_but_size w m v : same_but w m (st32 m (w + 4) v).
Proof. intros x Hx. apply st32_frame. lia. Qed.

(** Reading another header. *)
Lemma same_but_ld w m m' a : same_but w m m' -> a + 4 <= w \/ w + 8 <= a -> ld32 m' a = ld32 m a.
Proof. intros H Ha. apply ld32_ext. intros x Hx. apply H. lia. Qed.

Lemma same_but_seg w m m' l e :
  same_but w m m' -> (forall a n, (a, n) ∈ l -> a + 8 <= w \/ w + 8 <= a) -> seg m l e -> seg m' l e.
Proof. intros H Hl. apply seg_frame. intros a n x Hin Hx. symmetry. apply H. pose proof (Hl _ _ Hin). lia. Qed.

(** Both fields of a header. *)
Lemma ld32_ptr_size m a v n : ld32 (st32 (st32 m (a + 4) n) a v) (a + 4) = u32 n.
Proof. rewrite ld32_st32_ne by lia. apply ld32_st32. Qed.

Lemma free_right_eq s p bp bs f2 :
  ld32 (u_mem s) (bp + 4) = bs -> ld32 (u_mem s) p = hd_addr f2 base -> seg (u_mem s) f2 base ->
  base < bp -> 1 <= bs -> p + 8 <= bp -> ascending (bp + 8 * bs - 1) f2 (u_brk s) ->
  bp + 8 * bs <= u_brk s <= KERNBASE ->
  exists bs' f2' m1, free_right p bp s = Ret tt (set_u_mem m1 s) /\ same_but bp (u_mem s) m1 /\
    seg m1 ((bp, bs') :: f2') base /\ ascending (bp - 1) ((bp, bs') :: f2') (u_brk s) /\
    (forall x, cover ((bp, bs') :: f2') x <-> in_block (bp, bs) x \/ cover f2 x) /\
    bs' + units f2' = bs + units f2 /\ (length f2' <= length f2)%nat.
Proof.
  intros Hsz Hp Hseg Hb Hbs Hpb Hasc Hbrk. pose proof (ascending_le _ _ _ Hasc) as Hle.
  unfold free_right, h_size, h_ptr. rewrite !bind_gets, Hsz, Hp. unfold HDR, KERNBASE in *. rewrite u32_small by lia.
  destruct f2 as [|[a n] f2].
  - change (hd_addr [] base) with base. rewrite (proj2 (Z.eqb_neq _ base)) by lia.
    exists bs, [], (st32 (u_mem s) bp base). split_and!; [done | apply same_but_ptr | | | | done | done].
    + simpl. split_and!; [rewrite ld32_st32; apply u32_small; lia | by rewrite ld32_st32_ne by lia | done].
    + simpl. lia.
    + intros x. by rewrite cover_cons.
  - simpl in Hasc. destruct Hasc as (Hlo & Hn & Hasc). pose proof (ascending_le _ _ _ Hasc) as Hle2.
    destruct Hseg as (Hs1 & Hs2 & Hs3). change (hd_addr ((a, n) :: f2) base) with a in *.
    assert (forall m1, same_but bp (u_mem s) m1 -> seg m1 f2 base) as Hf2.
    { intros m1 H. apply (same_but_seg bp (u_mem s)); [done | | done]. intros b k Hin.
      pose proof (ascending_in _ _ _ _ _ Hasc Hin). lia. }
    destruct (Z.eqb_spec (bp + bs * 8) a) as [E|E].
    + cbv beta iota. rewrite bind_gets, Hs2. unfold set_h_size, set_h_ptr. rewrite bind_modify, !bind_gets. simpl u_mem.
      rewrite (ld32_st32_ne _ _ _ p), Hp, (ld32_st32_ne _ _ _ a), Hs1 by lia.
      assert (0 <= hd_addr f2 base < 4294967296) as Hh.
      { destruct f2 as [|[b k] f2]; simpl; [lia|]. simpl in Hasc. destruct Hasc as (? & ? & H).
        pose proof (ascending_le _ _ _ H). lia. }
      exists (bs + n), f2, (st32 (st32 (u_mem s) (bp + 4) (u32 (bs + n))) bp (hd_addr f2 base)).
      split_and!; [done | | | | | simpl; lia | simpl; lia].
      * eapply same_but_trans; [apply same_but_size | apply same_but_ptr].
      * split_and!; [rewrite ld32_st32; apply u32_small; lia | | ].
        -- rewrite ld32_ptr_size, !u32_small by (rewrite ?u32_small; lia). done.
        -- apply Hf2. eapply same_but_trans; [apply same_but_size | apply same_but_ptr].
      * split_and!; [lia | lia |]. by replace (bp + 8 * (bs + n)) with (a + 8 * n) by lia.
      * intros x. rewrite !cover_cons. unfold in_block. simpl. split; [intros [?|?]; [|tauto] | intros [?|[?|?]]; [| |tauto]]; lia.
    + exists bs, ((a, n) :: f2), (st32 (u_mem s) bp a). split_and!; [done | apply same_but_ptr | | | | done | done].
      * simpl. split_and!; [rewrite ld32_st32; apply u32_small; lia | by rewrite ld32_st32_ne by lia | ..].
        1, 2: by rewrite ld32_st32_ne by lia.
        apply Hf2, same_but_ptr.
      * split_and!; [lia | lia | split_and!; [lia | lia | done]].
      * intros x. by rewrite (cover_cons (bp, bs)).
Qed.

(** The first block of a segment of the ring and those after it, without their headers'
    neighbours. *)
Lemma ascending_apart lo l hi w :
  ascending lo l hi -> w + 8 <= lo + 1 -> forall a n, (a, n) ∈ l -> a + 8 <= w \/ w + 8 <= a.
Proof. intros Ha Hw a n Hin. pose proof (ascending_in _ _ _ _ _ Ha Hin). lia. Qed.

Lemma free_left_root s bp bs l :
  seg (u_mem s) ((bp, bs) :: l) base -> ld32 (u_mem s) (base + 4) = 0 -> base + 8 <= bp ->
  ascending (bp - 1) ((bp, bs) :: l) (u_brk s) -> u_brk s <= KERNBASE ->
  exists m2, free_left base bp s = Ret tt (set_u_mem m2 s) /\ same_but base (u_mem s) m2 /\
    seg m2 (root :: (bp, bs) :: l) base.
Proof.
  intros Hseg Hsz Hb Hasc Hbrk. exists (st32 (u_mem s) base bp).
  pose proof (ascending_le _ _ _ Hasc) as Hle. unfold KERNBASE in *.
  assert (same_but base (u_mem s) (st32 (u_mem s) base bp)) as Hsame by apply same_but_ptr.
  split_and!; [|done|].
  - unfold free_left, h_size, HDR. rewrite bind_gets, Hsz. rewrite u32_small by lia.
    by rewrite (proj2 (Z.eqb_neq _ bp)) by lia.
  - split_and!; [simpl; rewrite ld32_st32; apply u32_small; lia | by rewrite ld32_st32_ne by lia |].
    eapply same_but_seg; [done | | done]. apply (ascending_apart _ _ _ _ Hasc). lia.
Qed.

Lemma free_left_block s pre p ps bp bs l :
  seg (u_mem s) pre p -> ld32 (u_mem s) (p + 4) = ps -> seg (u_mem s) ((bp, bs) :: l) base ->
  (forall a n, (a, n) ∈ pre -> a + 8 <= p) -> base < p -> 1 <= ps -> p + 8 * ps <= bp ->
  ascending (bp - 1) ((bp, bs) :: l) (u_brk s) -> u_brk s <= KERNBASE ->
  exists l' m2, free_left p bp s = Ret tt (set_u_mem m2 s) /\ same_but p (u_mem s) m2 /\
    seg m2 (pre ++ l') base /\ hd_addr l' base = p /\ ascending (p - 1) l' (u_brk s) /\
    (forall x, cover l' x <-> in_block (p, ps) x \/ cover ((bp, bs) :: l) x) /\
    units l' = ps + units ((bp, bs) :: l) /\ (length l' <= S (S (length l)))%nat.
Proof.
  intros Hpre Hsz Hseg Hpa Hp0 Hps Hpb Hasc Hbrk. pose proof Hasc as (_ & Hbs & Hasc').
  pose proof (ascending_le _ _ _ Hasc') as Hle. pose proof Hseg as (Hs1 & Hs2 & Hs3).
  assert (0 <= hd_addr l base < 4294967296) as Hh.
  { unfold KERNBASE in *. destruct l as [|[a n] l]; simpl; [lia|]. destruct Hasc' as (? & ? & H).
    pose proof (ascending_le _ _ _ H). lia. }
  unfold free_left, h_size, h_ptr. rewrite bind_gets, Hsz. unfold HDR, KERNBASE in *. rewrite u32_small by lia.
  assert (forall m2, same_but p (u_mem s) m2 -> seg m2 pre p) as Hpre'.
  { intros m2 H. eapply same_but_seg; [exact H | | done]. intros a n Hin. left. by eapply Hpa. }
  destruct (Z.eqb_spec (p + ps * 8) bp) as [E|E].
  - set (m1 := st32 (u_mem s) (p + 4) (u32 (ps + bs))). set (m2 := st32 m1 p (hd_addr l base)).
    assert (same_but p (u_mem s) m2) as Hsame by (eapply same_but_trans; [apply same_but_size | apply same_but_ptr]).
    exists ((p, ps + bs) :: l), m2. split_and!; [|done | | done | | |simpl; lia | simpl; lia].
    + rewrite bind_gets, Hs2. unfold set_h_size, set_h_ptr. rewrite bind_modify, bind_gets. simpl u_mem.
      rewrite (ld32_st32_ne _ _ _ bp), Hs1 by lia. done.
    + apply seg_app. split; [by apply Hpre'|]. unfold m2, m1.
      split_and!; [rewrite ld32_st32; by apply u32_small | rewrite ld32_ptr_size, !u32_small by (rewrite ?u32_small; lia); done|].
      eapply same_but_seg; [exact Hsame | | done]. apply (ascending_apart _ _ _ _ Hasc'). lia.
    + split_and!; [lia | lia |]. by replace (p + 8 * (ps + bs)) with (bp + 8 * bs) by lia.
    + intros x. rewrite !cover_cons. unfold in_block. simpl. split; [intros [?|?]; [|tauto] | intros [?|[?|?]]; [| |tauto]]; lia.
  - set (m2 := st32 (u_mem s) p bp).
    assert (same_but p (u_mem s) m2) as Hsame by apply same_but_ptr.
    exists ((p, ps) :: (bp, bs) :: l), m2. split_and!; [done | done | | done | | | done | done].
    + apply seg_app. split; [by apply Hpre'|]. unfold m2.
      split_and!; [simpl; rewrite ld32_st32; apply u32_small; lia | by rewrite ld32_st32_ne by lia |].
      eapply same_but_seg; [exact Hsame | | done]. apply (ascending_apart _ _ _ _ Hasc). lia.
    + split; [lia | split; [lia|]]. eapply (ascending_weaken (bp - 1)); [lia | reflexivity | exact Hasc].
    + intros x. by rewrite (cover_cons (p, ps)).
Qed.

Lemma ascending_raise lo lo' l hi :
  ascending lo l hi -> (forall a n, (a, n) ∈ l -> lo' < a) -> lo' <= hi -> ascending lo' l hi.
Proof.
  destruct l as [|[a n] l]; simpl; [done|]. intros (_ & H2 & H3) Hlo _. split_and!; [apply (Hlo a n); left | done | done].
Qed.

(** *** What [free] does *)

(** The bytes the allocator may write: the free blocks and [base]. *)
Definition arena (fl : list block) (x : Z) : Prop := cover fl x \/ base <= x < base + 8.

(** From one heap to another: the free bytes change by [delta], and no byte changes outside
    the arena and [delta]. *)
Record frees (s : ust) (fl : list block) (b : block) (s' : ust) (fl' : list block) : Prop := {
  fr_ok : heap_ok s' fl';
  fr_cover x : cover fl' x <-> cover fl x \/ in_block b x;
  fr_units : units fl' = units fl + snd b;
  fr_len : (length fl' <= S (length fl))%nat;
  fr_same : u_brk s' = u_brk s /\ u_lim s' = u_lim s;
  fr_frame x : ~ arena fl x -> ~ in_block b x -> u_mem s' x = u_mem s x
}.

Section join.
Context (s : ust) (b n : Z).
Hypothesis Hsz : ld32 (u_mem s) (b + 4) = n.
Hypothesis Hn : 1 <= n.
Hypothesis Hb : base + 8 <= b.
Hypothesis Hend : b + 8 * n <= u_brk s.

(** Linking the block [b] after [p]. *)
Definition join_at (p : Z) : U unit := free_right p b ;; free_left p b ;; modify (set_u_freep p).

Lemma after_ascending f1 f2 :
  ascending (base + 7) (f1 ++ f2) (u_brk s) -> (forall a k, (a, k) ∈ f2 -> b + 8 * n <= a) ->
  ascending (b + 8 * n - 1) f2 (u_brk s).
Proof.
  intros [_ H]%ascending_app Hf2.
  apply (ascending_raise _ _ _ _ H); [intros a k Hin; pose proof (Hf2 _ _ Hin); lia | lia].
Qed.

(** The block before all others. *)
Lemma join_root f2 :
  heap_ok s f2 -> (forall a k, (a, k) ∈ f2 -> b + 8 * n <= a) ->
  exists s' fl', join_at base s = Ret tt s' /\ frees s f2 (b, n) s' fl'.
Proof.
  intros [Hring Hasc _ Hlim] Hf2. pose proof (after_ascending [] f2 Hasc Hf2) as Hasc2'.
  destruct Hring as (Hr1 & Hr2 & Hseg2). unfold join_at.
  destruct (free_right_eq s base b n f2) as (bs & f2' & m1 & Hrun & Hsame & Hseg & Hasc' & Hcov & Hu & Hlen); try done; try lia.
  destruct (free_left_root (set_u_mem m1 s) b bs f2') as (m2 & Hrun2 & Hsame2 & Hseg2'); try done; try (simpl; lia).
  { simpl. rewrite (same_but_ld b (u_mem s)); [done | done | lia]. }
  exists (set_u_freep base (set_u_mem m2 s)), ((b, bs) :: f2').
  rewrite (bind_Ret _ _ _ _ _ Hrun), (bind_Ret _ _ _ _ _ Hrun2). split; [done|]. split; [split| | | | |].
  - done.
  - eapply (ascending_weaken (b - 1)); [lia | reflexivity | done].
  - exists 0. left.
  - done.
  - intros x. rewrite Hcov. simpl. tauto.
  - simpl in *. lia.
  - simpl. lia.
  - done.
  - intros x Ha Hx. unfold arena, in_block in *. simpl in *. rewrite Hsame2, Hsame by lia. done.
Qed.

(** The block after [p]. *)
Lemma join_block f1 p ps f2 :
  heap_ok s ((f1 ++ [(p, ps)]) ++ f2) -> p + 8 * ps <= b -> (forall a k, (a, k) ∈ f2 -> b + 8 * n <= a) ->
  exists s' fl', join_at p s = Ret tt s' /\ frees s ((f1 ++ [(p, ps)]) ++ f2) (b, n) s' fl'.
Proof.
  intros [Hring Hasc _ Hlim] Hpb Hf2. pose proof (after_ascending _ f2 Hasc Hf2) as Hasc2'.
  pose proof (proj1 (ascending_app _ _ _ _) Hasc) as [Hasc1 _]. unfold join_at.
  rewrite app_comm_cons in Hring. apply seg_app in Hring as [Hseg1 Hseg2].
  rewrite app_comm_cons in Hseg1. apply seg_app in Hseg1 as [Hpre (Hr1 & Hr2 & _)].
  pose proof (proj1 (ascending_app _ _ _ _) Hasc1) as [Hasc0 (Hp & Hps & _)]. simpl in Hp.
  pose proof (ascending_le _ _ _ Hasc0) as Htop.
  assert (forall a k, (a, k) ∈ root :: f1 -> a + 8 <= p) as Hpa.
  { intros a k [[= -> _]|Hin]%elem_of_cons; [lia|]. pose proof (ascending_in _ _ _ _ _ Hasc0 Hin). lia. }
  destruct (free_right_eq s p b n f2) as (bs & f2' & m1 & Hrun & Hsame & Hseg & Hasc' & Hcov & Hu & Hlen); try done; try lia.
  destruct (free_left_block (set_u_mem m1 s) (root :: f1) p ps b bs f2') as
    (l' & m2 & Hrun2 & Hsame2 & Hseg2' & Hhd & Hascl & Hcov2 & Hu2 & Hlen2); try done; try (simpl; lia).
  { eapply same_but_seg; [exact Hsame | | exact Hpre]. intros a k Hin. pose proof (Hpa _ _ Hin). lia. }
  { simpl. rewrite (same_but_ld b (u_mem s)); [done | done | lia]. }
  exists (set_u_freep p (set_u_mem m2 s)), (f1 ++ l').
  rewrite (bind_Ret _ _ _ _ _ Hrun), (bind_Ret _ _ _ _ _ Hrun2). split; [done|]. split; [split| | | | |].
  - done.
  - apply ascending_app. split; [done|]. eapply (ascending_weaken (p - 1)); [lia | reflexivity | done].
  - destruct l' as [|[p' k'] l']; simpl in Hhd; [lia|]. subst p'. exists k'. simpl. set_solver.
  - done.
  - intros x. rewrite !cover_app, Hcov2, Hcov, cover_cons, cover_nil. tauto.
  - rewrite !units_app, Hu2. simpl in *. lia.
  - rewrite !length_app. simpl. lia.
  - done.
  - intros x Ha Hx. unfold arena in Ha. rewrite !cover_app, cover_cons in Ha. unfold in_block in *. simpl in *.
    rewrite Hsame2, Hsame; [done | lia |]. assert (~ (p <= x < p + 8 * ps)) by tauto. lia.
Qed.

(** The block in its place, [f1] before and [f2] after it. *)
Lemma free_join f1 f2 :
  heap_ok s (f1 ++ f2) -> (forall a k, (a, k) ∈ f1 -> a + 8 * k <= b) -> (forall a k, (a, k) ∈ f2 -> b + 8 * n <= a) ->
  exists s' fl', join_at (fst (pred_block f1)) s = Ret tt s' /\ frees s (f1 ++ f2) (b, n) s' fl'.
Proof.
  intros Hok Hf1 Hf2. destruct f1 as [|[p ps] f1 _] using rev_ind; [by apply join_root|].
  assert (pred_block (f1 ++ [(p, ps)]) = (p, ps)) as -> by (unfold pred_block; by rewrite last_snoc).
  apply join_block; [done | apply (Hf1 p ps); set_solver | done].
Qed.
End join.

Lemma free_spec s fl b n fuel :
  heap_ok s fl -> ld32 (u_mem s) (b + 4) = n -> 1 <= n -> base + 8 <= b -> b + 8 * n <= u_brk s ->
  (forall x, in_block (b, n) x -> ~ cover fl x) -> (length fl + 1 < fuel)%nat ->
  exists s' fl', free fuel (b + 8) s = Ret tt s' /\ frees s fl (b, n) s' fl'.
Proof.
  intros Hok Hsz Hn Hb Hend Hdis Hf. pose proof Hok as [Hring Hasc [k Hfp] Hlim].
  assert (~ cover fl b) as Hnb by (apply Hdis; unfold in_block; simpl; lia).
  destruct (split_at_addr _ _ _ b Hasc Hnb) as (f1 & f2 & -> & Hf1 & Hf2).
  assert (forall a k, (a, k) ∈ f2 -> b + 8 * n <= a) as Hf2'.
  { intros a k' Hin. pose proof (Hf2 _ _ Hin). destruct (decide (a < b + 8 * n)) as [Hlt|]; [|lia].
    pose proof (ascending_in _ _ _ a k' Hasc ltac:(set_solver)).
    destruct (Hdis a); [unfold in_block; simpl; lia|]. apply Exists_exists. exists (a, k').
    split; [set_solver | unfold in_block; simpl; lia]. }
  destruct (free_join s b n Hsz Hn Hb Hend f1 f2 Hok Hf1 Hf2') as (s' & fl' & Hrun & Hfr).
  exists s', fl'. split; [|done]. unfold free, KERNBASE in *. rewrite u32_small by (unfold HDR; lia).
  replace (b + 8 - HDR) with b by (unfold HDR; lia). rewrite bind_gets.
  rewrite length_app in Hf.
  rewrite (bind_Ret _ _ _ _ _ (search_found s b f1 f2 ltac:(by rewrite <- app_comm_cons) Hasc ltac:(lia) Hf1 Hf2
    (u_freep s) k fuel Hfp ltac:(lia))). exact Hrun.
Qed.

(** *** Taking a block *)

(** From one heap to another: the block [b] leaves the free blocks, with its size in its
    header. *)
Record takes (s : ust) (fl : list block) (b : block) (s' : ust) (fl' : list block) : Prop := {
  tk_ok : heap_ok s' fl';
  tk_cover x : cover fl x <-> cover fl' x \/ in_block b x;
  tk_apart x : in_block b x -> ~ cover fl' x;
  tk_units : units fl = units fl' + snd b;
  tk_size : ld32 (u_mem s') (fst b + 4) = snd b;
  tk_same : u_brk s' = u_brk s /\ u_lim s' = u_lim s;
  tk_frame x : ~ arena fl x -> u_mem s' x = u_mem s x
}.

(** Pointing the last block of a segment elsewhere. *)
Lemma seg_relink m f1 hi e e' :
  ascending (base + 7) f1 hi -> 0 <= e' < 4294967296 -> seg m (root :: f1) e ->
  seg (st32 m (fst (pred_block f1)) e') (root :: f1) e'.
Proof.
  intros Ha He Hs. destruct f1 as [|[q k] f1 _] using rev_ind.
  - destruct Hs as (_ & Hs & _). simpl. rewrite ld32_st32, u32_small, ld32_st32_ne by lia. done.
  - assert (pred_block (f1 ++ [(q, k)]) = (q, k)) as -> by (unfold pred_block; by rewrite last_snoc). simpl fst.
    apply ascending_app in Ha as (Ha & Hq & Hk & _). pose proof (ascending_le _ _ _ Ha) as Hle.
    rewrite app_comm_cons in Hs |- *. apply seg_app in Hs as [H1 (_ & H2 & _)]. apply seg_app. split.
    + eapply same_but_seg; [apply same_but_ptr | | exact H1].
      intros a n [[= -> _]|Hin]%elem_of_cons; [lia|]. pose proof (ascending_in _ _ _ _ _ Ha Hin). lia.
    + simpl. rewrite ld32_st32, u32_small, ld32_st32_ne by lia. done.
Qed.

Section take.
Context (s : ust) (f1 f2 : list block) (p n : Z).
Hypothesis Hok : heap_ok s (f1 ++ (p, n) :: f2).

Lemma take_facts :
  ld32 (u_mem s) p = hd_addr f2 base /\ ld32 (u_mem s) (p + 4) = n /\ 1 <= n /\ base + 8 <= p /\
  p + 8 * n <= u_brk s /\ ascending (base + 7) f1 (top (base + 7) f1) /\ top (base + 7) f1 < p /\
  ascending (p + 8 * n) f2 (u_brk s).
Proof.
  destruct Hok as [Hring Hasc _ _]. rewrite app_comm_cons in Hring. apply node_at in Hring as [H1 H2].
  apply ascending_app in Hasc as (Ha & Hp & Hn & Hb). pose proof (ascending_le _ _ _ Ha).
  pose proof (ascending_le _ _ _ Hb). split_and!; done || lia.
Qed.

(** The block before ends before [p]. *)
Lemma pred_before a k : (a, k) ∈ root :: f1 -> a + 8 <= p /\ a + 8 * k < p /\ base <= a.
Proof.
  destruct take_facts as (_ & _ & _ & Hb & _ & Ha & Ht & _).
  intros [[= -> ->]|Hin]%elem_of_cons; [lia|]. pose proof (ascending_in _ _ _ _ _ Ha Hin). lia.
Qed.

Lemma pred_in : (fst (pred_block f1), snd (pred_block f1)) ∈ root :: f1.
Proof.
  rewrite <- surjective_pairing. unfold pred_block. destruct (last f1) as [b|] eqn:E; simpl; [|left].
  right. apply last_Some_elem_of in E. done.
Qed.

(** The whole block. *)
Lemma take_whole :
  takes s (f1 ++ (p, n) :: f2) (p, n)
    (set_u_freep (fst (pred_block f1)) (set_u_mem (st32 (u_mem s) (fst (pred_block f1)) (hd_addr f2 base)) s))
    (f1 ++ f2).
Proof.
  destruct take_facts as (Hp & Hsz & Hn & Hb & Hend & Ha1 & Ht & Ha2). pose proof Hok as [Hring Hasc _ Hlim].
  set (q := fst (pred_block f1)). pose proof (pred_before _ _ pred_in) as (Hq & _ & Hqb). fold q in Hq, Hqb.
  assert (same_but q (u_mem s) (st32 (u_mem s) q (hd_addr f2 base))) as Hsame by apply same_but_ptr.
  assert (0 <= hd_addr f2 base < 4294967296) as Hh.
  { unfold KERNBASE in *. destruct f2 as [|[a k] f2']; simpl; [lia|]. destruct Ha2 as (? & ? & H).
    pose proof (ascending_le _ _ _ H). lia. }
  assert (ascending (base + 7) (f1 ++ f2) (u_brk s)) as Hasc'.
  { apply ascending_app. split; [done|]. eapply (ascending_weaken (p + 8 * n)); [lia | reflexivity | done]. }
  split; [split| | | | | |]; simpl.
  - rewrite app_comm_cons in Hring. apply seg_app in Hring as [H1 (_ & _ & H2)].
    change (seg (st32 (u_mem s) q (hd_addr f2 base)) ((root :: f1) ++ f2) base). apply seg_app. split.
    + by eapply seg_relink.
    + eapply same_but_seg; [exact Hsame | | exact H2]. intros a k Hin.
      pose proof (ascending_in _ _ _ _ _ Ha2 Hin). lia.
  - done.
  - exists (snd (pred_block f1)). pose proof pred_in as Hin. fold q in Hin. set_solver.
  - done.
  - intros x. rewrite !cover_app, cover_cons. tauto.
  - intros x Hx Hc. unfold in_block in Hx. simpl in Hx. apply cover_app in Hc as [Hc|Hc].
    + pose proof (cover_range _ _ _ _ Ha1 Hc). lia.
    + pose proof (cover_range _ _ _ _ Ha2 Hc). lia.
  - rewrite !units_app. simpl. lia.
  - rewrite ld32_st32_ne by lia. done.
  - done.
  - intros x Hx. apply Hsame. unfold arena in Hx. rewrite cover_app in Hx.
    pose proof pred_in as [E|Hin]%elem_of_cons.
    + injection E as E _. fold q in E. lia.
    + fold q in Hin. pose proof (ascending_in _ _ _ _ _ Ha1 Hin).
      assert (~ in_block (q, snd (pred_block f1)) x) as Hnx; [|unfold in_block in Hnx; simpl in Hnx; lia].
      intros Hx'. apply Hx. left. left. apply Exists_exists. eauto.
Qed.

(** The last [k] units of the block. *)
Definition part_mem (k : Z) : mem := st32 (st32 (u_mem s) (p + 4) (n - k)) (p + 8 * (n - k) + 4) k.

Lemma part_frame k x :
  1 <= k < n -> x < p \/ p + 8 * n <= x -> part_mem k x = u_mem s x.
Proof. intros Hk Hx. unfold part_mem. rewrite !st32_frame by lia. done. Qed.

Lemma take_part k :
  1 <= k < n ->
  takes s (f1 ++ (p, n) :: f2) (p + 8 * (n - k), k)
    (set_u_freep (fst (pred_block f1)) (set_u_mem (part_mem k) s)) (f1 ++ (p, n - k) :: f2).
Proof.
  intros Hk. destruct take_facts as (Hp & Hsz & Hn & Hb & Hend & Ha1 & Ht & Ha2). pose proof Hok as [Hring Hasc _ Hlim].
  unfold KERNBASE in *.
  assert (forall l e, (forall a j, (a, j) ∈ l -> a + 8 <= p \/ p + 8 * n <= a) -> seg (u_mem s) l e -> seg (part_mem k) l e) as Hfr.
  { intros l e Hl. apply seg_frame. intros a j x Hin Hx. symmetry. apply part_frame; [done|]. pose proof (Hl _ _ Hin). lia. }
  split; [split| | | | | |]; simpl.
  - rewrite app_comm_cons in Hring. apply seg_app in Hring as [H1 (_ & _ & H2)].
    change (seg (part_mem k) ((root :: f1) ++ (p, n - k) :: f2) base). apply seg_app. split; [|split_and!].
    + apply Hfr; [|exact H1]. intros a j Hin. left. apply (pred_before _ _ Hin).
    + unfold part_mem. rewrite !ld32_st32_ne by lia. exact Hp.
    + unfold part_mem. rewrite ld32_st32_ne, ld32_st32 by lia. apply u32_small. lia.
    + apply Hfr; [|exact H2]. intros a j Hin. pose proof (ascending_in _ _ _ _ _ Ha2 Hin). lia.
  - apply ascending_app. split; [done|]. split; [done | split; [lia|]].
    eapply (ascending_weaken (p + 8 * n)); [lia | reflexivity | done].
  - exists (snd (pred_block f1)). pose proof pred_in as Hin. set_solver.
  - done.
  - intros x. rewrite !cover_app, !cover_cons. unfold in_block. simpl. split.
    + intros [?|[?|?]]; [tauto | | tauto]. destruct (decide (x < p + 8 * (n - k))); [left; right; left; lia | right; lia].
    + intros [[?|[?|?]]|?]; try tauto; right; left; lia.
  - intros x Hx Hc. unfold in_block in Hx. simpl in Hx. apply cover_app in Hc as [Hc|[Hc|Hc]%cover_cons].
    + pose proof (cover_range _ _ _ _ Ha1 Hc). lia.
    + unfold in_block in Hc. simpl in Hc. lia.
    + pose proof (cover_range _ _ _ _ Ha2 Hc). lia.
  - rewrite !units_app. simpl. lia.
  - unfold part_mem. rewrite ld32_st32. apply u32_small. lia.
  - done.
  - intros x Hx. apply part_frame; [done|]. unfold arena in Hx. rewrite cover_app, cover_cons in Hx.
    unfold in_block in Hx. simpl in Hx. assert (~ (p <= x < p + 8 * n)) by tauto. lia.
Qed.
End take.

(** [malloc_step] on a block that fits. *)
Lemma step_fits s f1 p n f2 fuel k :
  heap_ok s (f1 ++ (p, n) :: f2) -> 1 <= k <= n ->
  exists b s' fl', malloc_step fuel k (fst (pred_block f1), p) s = Ret (inr (b + 8)) s' /\
    takes s (f1 ++ (p, n) :: f2) (b, k) s' fl' /\ base + 8 <= b /\ b + 8 * k <= u_brk s.
Proof.
  intros Hok Hk. pose proof (take_facts s f1 f2 p n Hok) as (Hp & Hsz & Hn & Hb & Hend & _).
  pose proof (pred_before s f1 f2 p n Hok _ _ (pred_in f1)) as (Hq & _).
  pose proof (hk_lim _ _ Hok) as Hlim. unfold KERNBASE in *.
  unfold malloc_step, h_size, h_ptr, set_h_size, set_h_ptr. rewrite bind_gets, Hsz, (proj2 (Z.leb_le k n)) by lia.
  destruct (Z.eqb_spec n k) as [->|Hne].
  - exists p. eexists _, _. split; [|split; [by apply take_whole | lia]].
    rewrite (bind_Ret _ _ _ p (set_u_mem (st32 (u_mem s) (fst (pred_block f1)) (hd_addr f2 base)) s)).
    + rewrite bind_modify, u32_small by (unfold HDR; lia). done.
    + by rewrite bind_gets, Hp.
  - exists (p + 8 * (n - k)). eexists _, _. split; [|split; [apply take_part; [done | lia] | lia]].
    rewrite (bind_Ret _ _ _ (p + 8 * (n - k)) (set_u_mem (part_mem s p n k) s)).
    + rewrite bind_modify, u32_small by (unfold HDR; lia). done.
    + rewrite bind_modify, bind_gets. simpl u_mem. rewrite ld32_st32, (u32_small (n - k)) by lia. unfold HDR.
      rewrite (u32_small (p + (n - k) * 8)), bind_modify by lia. unfold part_mem.
      by replace (p + (n - k) * 8) with (p + 8 * (n - k)) by lia.
Qed.

(** *** The walk of [malloc] *)

(** A block of [k] units has been taken. *)
Definition served (s : ust) (fl : list block) (k : Z) (o : outcome ust Z) : Prop :=
  exists b s' fl', o = Ret (b + 8) s' /\ takes s fl (b, k) s' fl' /\ base + 8 <= b /\ b + 8 * k <= u_brk s.

Lemma step_skip s q p n k fuel :
  ld32 (u_mem s) (p + 4) = n -> n < k -> p <> u_freep s ->
  malloc_step fuel k (q, p) s = Ret (inl (p, ld32 (u_mem s) p)) s.
Proof.
  intros Hsz Hn Hp. unfold malloc_step, h_size, h_ptr. rewrite bind_gets, Hsz, (proj2 (Z.leb_gt k n)) by lia.
  rewrite bind_gets, (proj2 (Z.eqb_neq p (u_freep s)) Hp). done.
Qed.

Lemma pred_of f1 l0 b : root :: f1 = l0 ++ [b] -> pred_block f1 = b.
Proof.
  intros H. unfold pred_block. apply (f_equal last) in H. rewrite last_snoc, last_cons in H.
  destruct (last f1); simpl; congruence.
Qed.

(** Over the blocks [l] after [q]: one of them is taken, or none fits. *)
Lemma walk s fl k fuel : heap_ok s fl -> 1 <= k -> forall l l0 q j rest f,
  root :: fl = (l0 ++ [(q, j)]) ++ l ++ rest -> (forall a n, (a, n) ∈ l -> a <> u_freep s) -> (length l <= f)%nat ->
  served s fl k (loop f (malloc_step fuel k) (q, hd_addr (l ++ rest) base) s) \/
  ((forall a n, (a, n) ∈ l -> n < k) /\
   loop f (malloc_step fuel k) (q, hd_addr (l ++ rest) base) s =
   loop (f - length l) (malloc_step fuel k) (fst (default (q, j) (last l)), hd_addr rest base) s).
Proof.
  intros Hok Hk. induction l as [|[p n] l IH]; intros l0 q j rest f Hl Hne Hf.
  - right. split; [by intros ? ? ?%elem_of_nil|]. by rewrite Nat.sub_0_r.
  - destruct f as [|f]; [simpl in Hf; lia|]. simpl hd_addr.
    assert (exists f1, root :: f1 = l0 ++ [(q, j)] /\ fl = f1 ++ (p, n) :: l ++ rest) as (f1 & Hf1 & ->).
    { destruct (l0 ++ [(q, j)]) as [|b f1] eqn:E; [by destruct l0|]. injection Hl as <- ->. by exists f1. }
    destruct (decide (k <= n)) as [Hfit|Hno].
    + left. destruct (step_fits s f1 p n (l ++ rest) fuel k Hok ltac:(lia)) as (b & s' & fl' & Hs & Ht & Hr).
      rewrite (pred_of _ _ _ Hf1) in Hs. exists b, s', fl'. split; [by apply loop_done | done].
    + pose proof (take_facts s f1 (l ++ rest) p n Hok) as (Hp & Hsz & _).
      assert (malloc_step fuel k (q, p) s = Ret (inl (p, hd_addr (l ++ rest) base)) s) as Hs.
      { rewrite <- Hp. eapply step_skip; [exact Hsz | lia | apply (Hne p n); left]. }
      rewrite (loop_next _ _ _ _ _ _ Hs).
      destruct (IH (l0 ++ [(q, j)]) p n rest f) as [Hserved|[Hall Heq]].
      * rewrite Hl, <- !app_assoc. done.
      * intros a m Hin. apply (Hne a m). by right.
      * simpl in Hf. lia.
      * by left.
      * right. split; [intros a m [[= -> ->]|Hin]%elem_of_cons; [lia | by eapply Hall]|].
        rewrite Heq, last_cons. simpl. by destruct (last l).
Qed.

(** Addresses occur once. *)
Lemma ascending_unique lo l1 a n l2 hi :
  ascending lo (l1 ++ (a, n) :: l2) hi -> forall b k, (b, k) ∈ l1 \/ (b, k) ∈ l2 -> b <> a.
Proof.
  intros (H1 & Ha & Hn & H2)%ascending_app b k [Hin|Hin].
  - pose proof (ascending_in _ _ _ _ _ H1 Hin). lia.
  - pose proof (ascending_in _ _ _ _ _ H2 Hin). lia.
Qed.

Lemma ring_unique fl hi l1 a n l2 :
  ascending (base + 7) fl hi -> root :: fl = l1 ++ (a, n) :: l2 -> forall b k, (b, k) ∈ l1 \/ (b, k) ∈ l2 -> b <> a.
Proof.
  intros Ha Hl b k Hin. destruct l1 as [|r l1].
  - unfold root in Hl. injection Hl as <- <- ->. destruct Hin as [?%elem_of_nil|Hin]; [done|].
    pose proof (ascending_in _ _ _ _ _ Ha Hin). lia.
  - injection Hl as <- ->. rewrite elem_of_cons in Hin. destruct Hin as [[[= -> ->]|Hin]|Hin].
    + apply ascending_app in Ha as (H1 & H2 & _). pose proof (ascending_le _ _ _ H1). lia.
    + eapply ascending_unique; [exact Ha | by left].
    + eapply ascending_unique; [exact Ha | by right].
Qed.

(** Once round the ring from [freep]: a block is taken, or none fits and the walk is back
    at [freep]. *)
Lemma once_round s fl k fuel f :
  heap_ok s fl -> 1 <= k -> (length fl + 1 < f)%nat ->
  let o := loop f (malloc_step fuel k) (u_freep s, ld32 (u_mem s) (u_freep s)) s in
  served s fl k o \/
  ((forall a n, (a, n) ∈ fl -> n < k) /\
   exists q f', (f <= f' + length fl)%nat /\ o = loop f' (malloc_step fuel k) (q, u_freep s) s).
Proof.
  intros Hok Hk Hf o. pose proof Hok as [Hring Hasc [j Hfp] Hlim]. unfold o. clear o.
  apply list_elem_of_split in Hfp as (N1 & A & HN). pose proof (f_equal length HN) as Hlen.
  rewrite length_app in Hlen. simpl in Hlen.
  pose proof (ring_unique _ _ _ _ _ _ Hasc HN) as Huniq.
  rewrite HN in Hring. pose proof (node_at _ _ _ _ _ _ Hring) as [Hnext _]. rewrite Hnext.
  destruct (walk s fl k fuel Hok Hk A N1 (u_freep s) j [] f) as [?|[HA Heq]];
    [by rewrite app_nil_r, <- app_assoc | intros a n Hin; apply (Huniq a n); by right | lia
    | rewrite app_nil_r in *; by left|].
  rewrite app_nil_r in Heq. rewrite Heq. clear Heq. simpl hd_addr.
  set (q := fst (default (u_freep s, j) (last A))). clearbody q.
  destruct N1 as [|r N1].
  - right. unfold root in HN. injection HN as Eb _ ->. split; [done|]. exists q, (f - length A)%nat.
    rewrite <- Eb. split; [simpl in Hlen; lia | done].
  - injection HN as <- HN. destruct (f - length A)%nat as [|f1] eqn:Ef; [simpl in Hlen; lia|].
    destruct Hring as (Hr1 & Hr2 & _).
    rewrite (loop_next _ _ _ (base, hd_addr (N1 ++ (u_freep s, j) :: A) base) _ s).
    2:{ rewrite <- Hr1. eapply step_skip; [exact Hr2 | lia | apply (Huniq base 0); left; left]. }
    destruct (walk s fl k fuel Hok Hk N1 [] base 0 ((u_freep s, j) :: A) f1) as [?|[HN1 Heq]];
      [by rewrite HN | intros a n Hin; apply (Huniq a n); left; by right | simpl in Hlen; lia | by left|].
    rewrite Heq. simpl hd_addr. destruct (decide (k <= j)) as [Hfit|Hno].
    + left. destruct (f1 - length N1)%nat as [|f2] eqn:Ef2; [simpl in Hlen; lia|].
      destruct (step_fits s N1 (u_freep s) j A fuel k) as (b & s' & fl' & Hs & Ht & Hr); [by rewrite <- HN | lia|].
      rewrite <- HN in Ht. exists b, s', fl'. split; [|done]. apply loop_done. exact Hs.
    + right. split.
      * rewrite HN. intros a n [Hin|[[= -> ->]|Hin]%elem_of_cons]%elem_of_app; [by eapply HN1 | lia | by eapply HA].
      * eexists _, (f1 - length N1)%nat. split; [simpl in Hlen; lia | reflexivity].
Qed.

(** *** More memory *)

(** Blocks that do not touch cover an interval only if one of them contains it. *)
Lemma interval_in_block lo l hi b n :
  ascending lo l hi -> 1 <= n -> (forall x, b <= x < b + 8 * n -> cover l x) ->
  exists a k, (a, k) ∈ l /\ n <= k.
Proof.
  intros Ha Hn Hc. pose proof (proj1 (Exists_exists _ _) (Hc b ltac:(lia))) as ([a k] & Hin & Hx).
  unfold in_block in Hx. simpl in Hx. exists a, k. split; [done|].
  destruct (decide (n <= k)) as [|Hlt]; [done|]. exfalso.
  pose proof (proj1 (Exists_exists _ _) (Hc (a + 8 * k) ltac:(lia))) as ([a' k'] & Hin' & Hx').
  unfold in_block in Hx'. simpl in Hx'. apply list_elem_of_split in Hin as (l1 & l2 & ->).
  apply elem_of_app in Hin' as [Hin'|[[= -> ->]|Hin']%elem_of_cons].
  - apply ascending_app in Ha as (H1 & H2 & _). pose proof (ascending_in _ _ _ _ _ H1 Hin'). lia.
  - lia.
  - apply ascending_app in Ha as (_ & _ & _ & H2). pose proof (ascending_in _ _ _ _ _ H2 Hin'). lia.
Qed.

(** The units [morecore] asks for. *)
Definition grow (k : Z) : Z := if k <? 4096 then 4096 else k.

Lemma grow_ge k : k <= grow k /\ 4096 <= grow k.
Proof. unfold grow. destruct (Z.ltb_spec k 4096); lia. Qed.

Lemma morecore_none s k fuel :
  1 <= k -> grow k * 8 < 2147483648 -> u_lim s < u_brk s + 8 * grow k -> morecore fuel k s = Ret 0 s.
Proof.
  intros Hk Hg Hlim. pose proof (grow_ge k). unfold morecore, sbrk. fold (grow k).
  unfold HDR. rewrite i32_small by lia.
  rewrite (bind_Ret _ _ _ (-1) s); [done|]. rewrite bind_gets. cbv zeta.
  rewrite (proj2 (Z.ltb_lt 0 _)), (proj2 (Z.leb_gt _ _)) by lia. done.
Qed.

Lemma morecore_some s fl k fuel :
  heap_ok s fl -> 1 <= k -> grow k * 8 < 2147483648 -> u_brk s + 8 * grow k <= u_lim s -> (length fl + 1 < fuel)%nat ->
  exists s' fl', morecore fuel k s = Ret (u_freep s') s' /\ heap_ok s' fl' /\
    (forall x, cover fl' x <-> cover fl x \/ in_block (u_brk s, grow k) x) /\
    units fl' = units fl + grow k /\ (length fl' <= S (length fl))%nat /\
    u_brk s' = u_brk s + 8 * grow k /\ u_lim s' = u_lim s /\
    (forall x, ~ arena fl x -> x < u_brk s -> u_mem s' x = u_mem s x).
Proof.
  intros [Hring Hasc Hfp Hlim] Hk Hg Hroom Hf. pose proof (grow_ge k) as Hgk. unfold KERNBASE in *.
  set (b := u_brk s) in *. set (n := grow k) in *.
  set (s1 := set_u_mem (st32 (u_mem s) (b + 4) n) (set_u_brk (b + 8 * n) s)).
  assert (heap_ok s1 fl) as Hok1.
  { split; [|by apply (ascending_weaken (base + 7) _ _ b); [lia | simpl; lia |]|done | simpl; unfold KERNBASE; lia].
    eapply same_but_seg; [apply same_but_size | | exact Hring].
    intros a j [[= -> _]|Hin]%elem_of_cons; [lia|]. pose proof (ascending_in _ _ _ _ _ Hasc Hin). lia. }
  destruct (free_spec s1 fl b n fuel Hok1) as (s' & fl' & Hrun & [F1 F2 F3 F4 F5 F6]); try done; try (simpl; lia).
  { simpl. rewrite ld32_st32. apply u32_small. lia. }
  { intros x Hx Hc. pose proof (cover_range _ _ _ _ Hasc Hc). unfold in_block in Hx. simpl in Hx. lia. }
  exists s', fl'. split_and!; [|done | done | done | done | by rewrite (proj1 F5) | by rewrite (proj2 F5) |].
  - unfold morecore, sbrk. fold (grow k). fold n. unfold HDR. rewrite i32_small by lia.
    rewrite (bind_Ret _ _ _ b (set_u_brk (b + 8 * n) s)).
    2:{ rewrite bind_gets. cbv zeta. fold b. rewrite (proj2 (Z.ltb_lt 0 _)), (proj2 (Z.leb_le _ _)) by lia.
        by replace (b + n * 8) with (b + 8 * n) by lia. }
    rewrite (proj2 (Z.eqb_neq b (-1))) by lia. unfold set_h_size. rewrite bind_modify. fold s1.
    rewrite u32_small by lia. by rewrite (bind_Ret _ _ _ _ _ Hrun).
  - intros x Hx Hlt. rewrite F6; [|done | unfold in_block; simpl; lia]. simpl. apply same_but_size. lia.
Qed.

(** The walk with its extension of the heap: a block taken from the free blocks or from the
    new ones, or no block and no room. *)
Definition extended (s : ust) (fl : list block) (k : Z) (o : outcome ust Z) : Prop :=
  (o = Ret 0 s /\ (forall a n, (a, n) ∈ fl -> n < k) /\ u_lim s < u_brk s + 8 * grow k) \/
  exists s1 fl1, heap_ok s1 fl1 /\ served s1 fl1 k o /\ u_brk s <= u_brk s1 /\
    (forall x, cover fl1 x <-> cover fl x \/ u_brk s <= x < u_brk s1) /\
    8 * units fl1 = 8 * units fl + (u_brk s1 - u_brk s) /\
    (forall x, ~ arena fl x -> x < u_brk s -> u_mem s1 x = u_mem s x).

Lemma walk_extends s fl k fuel :
  heap_ok s fl -> 1 <= k -> grow k * 8 < 2147483648 -> (2 * length fl + 4 < fuel)%nat ->
  extended s fl k (loop fuel (malloc_step fuel k) (u_freep s, ld32 (u_mem s) (u_freep s)) s).
Proof.
  intros Hok Hk Hg Hf. destruct (once_round s fl k fuel fuel Hok Hk ltac:(lia)) as [Hs|(Hno & q & f' & Hf' & ->)].
  - right. exists s, fl. split_and!; try done; [|lia]. intros x. split; [tauto | intros [?|?]; [done | lia]].
  - destruct f' as [|f']; [lia|]. pose proof (hk_freep _ _ Hok) as [j Hj].
    assert (exists n, ld32 (u_mem s) (u_freep s + 4) = n /\ n < k) as (n & Hsz & Hn).
    { pose proof (hk_ring _ _ Hok) as Hring. pose proof Hj as Hj'. apply list_elem_of_split in Hj' as (l1 & l2 & E).
      rewrite E in Hring. apply node_at in Hring as [_ Hsz]. exists j. split; [done|].
      apply elem_of_cons in Hj as [[= _ ->]|Hj]; [lia | by eapply Hno]. }
    assert (malloc_step fuel k (q, u_freep s) s =
      (p <- morecore fuel k ;; if p =? 0 then ret (inr 0) else n <- h_ptr p ;; ret (inl (p, n))) s) as Hstep.
    { unfold malloc_step, h_size. rewrite bind_gets, Hsz, (proj2 (Z.leb_gt k n)), bind_gets, Z.eqb_refl by lia. done. }
    destruct (decide (u_brk s + 8 * grow k <= u_lim s)) as [Hroom|Hfull].
    + destruct (morecore_some s fl k fuel Hok Hk Hg Hroom ltac:(lia)) as (s1 & fl1 & Hm & Hok1 & Hc & Hu & Hl & Hb & Hlim & Hfr).
      pose proof (grow_ge k) as Hgk.
      assert (u_freep s1 <> 0) as Hnz.
      { destruct (hk_freep _ _ Hok1) as [j1 [[= E _]|Hin]%elem_of_cons]; [lia|].
        pose proof (ascending_in _ _ _ _ _ (hk_asc _ _ Hok1) Hin). lia. }
      rewrite (loop_next _ _ _ (u_freep s1, ld32 (u_mem s1) (u_freep s1)) _ s1).
      2:{ rewrite Hstep, (bind_Ret _ _ _ _ _ Hm), (proj2 (Z.eqb_neq _ 0) Hnz). done. }
      right. exists s1, fl1.
      destruct (once_round s1 fl1 k fuel f' Hok1 Hk ltac:(lia)) as [Hs|(Hno1 & _)].
      * split_and!; try done; [lia | | lia]. intros x. rewrite Hc, Hb. unfold in_block. simpl. done.
      * exfalso. destruct (interval_in_block _ _ _ (u_brk s) (grow k) (hk_asc _ _ Hok1)) as (a & n1 & Hin & Hle); [lia | |].
        -- intros x Hx. apply Hc. right. unfold in_block. simpl. lia.
        -- pose proof (Hno1 _ _ Hin). lia.
    + left. split_and!; [|done | lia]. apply loop_done. rewrite Hstep.
      rewrite (bind_Ret _ _ _ _ _ (morecore_none s k fuel Hk Hg ltac:(lia))). done.
Qed.
End ring.

(** ** The allocator *)

Section allocator.
Context (base : Z).

(** Allocated blocks do not overlap. *)
Fixpoint separate (al : list block) : Prop :=
  match al with
  | [] => True
  | b :: al' => (forall x, in_block b x -> ~ cover al' x) /\ separate al'
  end.

(** A heap with free blocks [fl] and allocated blocks [al]. Before the first call there are
    none of either. *)
Record heap_inv (s : ust) (fl al : list block) : Prop := {
  hi_base : 0 < base;
  hi_free : heap_ok base s fl \/
    (u_freep s = 0 /\ fl = [] /\ al = [] /\ base + 8 <= u_brk s <= u_lim s /\ u_lim s <= KERNBASE);
  hi_alloc a n : (a, n) ∈ al -> 1 <= n /\ base + 8 <= a /\ a + 8 * n <= u_brk s /\ ld32 (u_mem s) (a + 4) = n;
  hi_sep : separate al;
  hi_apart x : cover al x -> ~ cover fl x
}.

(** No byte of an allocated block is in the arena. *)
Lemma alloc_arena s fl al x : heap_inv s fl al -> cover al x -> ~ arena base fl x /\ x < u_brk s.
Proof.
  intros [_ _ Hal _ Hap] Hx. pose proof (proj1 (Exists_exists _ _) Hx) as ([a n] & Hin & Hb).
  pose proof (Hal _ _ Hin). unfold in_block in Hb. simpl in Hb. unfold arena. split; [|lia].
  intros [?|?]; [by apply (Hap x) | lia].
Qed.

(** Headers of allocated blocks keep their sizes where their bytes are kept. *)
Lemma alloc_kept s s' al a n :
  (forall a n, (a, n) ∈ al -> 1 <= n) -> (forall x, cover al x -> u_mem s' x = u_mem s x) -> (a, n) ∈ al ->
  ld32 (u_mem s') (a + 4) = ld32 (u_mem s) (a + 4).
Proof.
  intros Hn Hk Hin. pose proof (Hn _ _ Hin). apply ld32_ext. intros x Hx. apply Hk.
  apply Exists_exists. exists (a, n). split; [done | unfold in_block; simpl; lia].
Qed.

Lemma units_of_bounds nbytes :
  0 <= nbytes < 2147483632 ->
  let k := units_of nbytes in 1 <= k /\ nbytes <= 8 * (k - 1) < nbytes + 8 /\ grow k * 8 < 2147483648.
Proof.
  intros H k. assert (k = (nbytes + 7) / 8 + 1) as E.
  { unfold k, units_of, HDR. rewrite u32_small by lia. do 2 f_equal. lia. }
  assert (1 <= k /\ nbytes <= 8 * (k - 1) < nbytes + 8) as Hk by (rewrite E; zlia).
  split_and!; try lia. unfold grow. destruct (Z.ltb_spec k 4096); lia.
Qed.

(** The first call makes the ring. *)
Lemma malloc_starts s fl al fuel nbytes :
  heap_inv s fl al ->
  exists s0, heap_ok base s0 fl /\ u_brk s0 = u_brk s /\ u_lim s0 = u_lim s /\
    (forall x, x < base \/ base + 8 <= x -> u_mem s0 x = u_mem s x) /\
    malloc base fuel nbytes s =
    loop fuel (malloc_step fuel (units_of nbytes)) (u_freep s0, ld32 (u_mem s0) (u_freep s0)) s0.
Proof.
  intros [Hbase [Hok|(Hfp & -> & _ & Hlim & Hk)] _ _ _].
  - exists s. split_and!; try done. unfold malloc, h_ptr. rewrite bind_gets.
    assert (u_freep s <> 0) as Hnz.
    { destruct (hk_freep _ _ _ Hok) as [j [[= E _]|Hin]%elem_of_cons]; [lia|].
      pose proof (ascending_in _ _ _ _ _ (hk_asc _ _ _ Hok) Hin). lia. }
    rewrite (proj2 (Z.eqb_neq _ 0) Hnz), bind_ret, bind_gets. done.
  - set (m := st32 (st32 (u_mem s) base base) (base + 4) 0). exists (set_u_freep base (set_u_mem m s)).
    unfold KERNBASE in *. split_and!; try done.
    + split; [|simpl; lia | exists 0; left | done]. simpl. unfold m.
      rewrite ld32_st32_ne, !ld32_st32, u32_small by lia. done.
    + intros x Hx. simpl. unfold m. rewrite !st32_frame by lia. done.
    + unfold malloc, set_h_ptr, set_h_size, h_ptr. rewrite bind_gets, Hfp, Z.eqb_refl. done.
Qed.

(** The bytes of allocated blocks and of nothing else. *)
Definition kept (s s' : ust) (al : list block) : Prop := forall x, cover al x -> u_mem s' x = u_mem s x.

Lemma malloc_spec s fl al nbytes fuel :
  heap_inv s fl al -> 0 <= nbytes < 2147483632 -> (2 * length fl + 4 < fuel)%nat ->
  let k := units_of nbytes in
  exists r s', malloc base fuel nbytes s = Ret r s' /\ kept s s' al /\
    ((r = 0 /\ heap_inv s' fl al /\ u_brk s' = u_brk s /\ (forall a n, (a, n) ∈ fl -> n < k) /\
      u_lim s < u_brk s + 8 * grow k) \/
     (exists b fl', r = b + 8 /\ nbytes <= 8 * (k - 1) /\ heap_inv s' fl' ((b, k) :: al) /\
      8 * (units fl' + k) = 8 * units fl + (u_brk s' - u_brk s))).
Proof.
  intros Hinv Hnb Hf k. destruct (units_of_bounds nbytes Hnb) as (Hk & Hpay & Hg). fold k in Hk, Hpay, Hg.
  pose proof (hi_base _ _ _ Hinv) as Hbase.
  destruct (malloc_starts s fl al fuel nbytes Hinv) as (s0 & Hok & Hb0 & Hl0 & Hm0 & ->). fold k.
  assert (kept s s0 al) as Hk0.
  { intros x Hx. apply Hm0. destruct (alloc_arena s fl al x Hinv Hx) as [Ha _]. unfold arena in Ha. lia. }
  pose proof Hinv as [_ _ Hal Hsep Hap].
  destruct (walk_extends base Hbase s0 fl k fuel Hok Hk Hg Hf) as [(-> & Hno & Hfull)|(s1 & fl1 & Hok1 & Hs & Hb & Hc & Hu & Hfr)].
  - exists 0, s0. split_and!; [done | done |]. left. rewrite <- Hb0, <- Hl0. split_and!; try done.
    split; [done | by left | | done | done].
    intros a n Hin. rewrite (alloc_kept s s0 al a n), Hb0; [by apply Hal | intros ? ? H%Hal; tauto | done | done].
  - destruct Hs as (b & s' & fl' & -> & [T1 T2 T3 T4 T5 T6 T7] & Hlo & Hhi). rewrite Hb0 in *.
    assert (forall x, cover al x -> ~ cover fl1 x /\ ~ arena base fl1 x) as Hap1.
    { intros x Hx. destruct (alloc_arena s fl al x Hinv Hx) as [Ha Hlt]. unfold arena in *.
      rewrite Hc. split; [intros [?|?]; [tauto | lia] | intros [[?|?]|?]; [tauto | lia | tauto]]. }
    assert (kept s s' al) as Hk'.
    { intros x Hx. rewrite T7 by (by apply Hap1). destruct (alloc_arena s fl al x Hinv Hx) as [Ha Hlt].
      rewrite Hfr by done. by apply Hk0. }
    exists (b + 8), s'. split_and!; [done | done |]. right. exists b, fl'. simpl in T4, T5. split_and!; [done | lia | | lia].
    split; [done | by left | | |].
    + intros a n [[= -> ->]|Hin]%elem_of_cons; [rewrite (proj1 T6); lia|].
      pose proof (Hal _ _ Hin) as Hb1. rewrite (alloc_kept s s' al a n); [|intros ? ? H%Hal; tauto | done | done]. rewrite (proj1 T6). lia.
    + split; [|done]. intros x Hx Hx'. apply (proj1 (Hap1 x Hx')). apply T2. by right.
    + intros x [Hx|Hx]%cover_cons Hc'; [by apply (T3 x)|]. apply (proj1 (Hap1 x Hx)). apply T2. by left.
Qed.

Lemma separate_remove al1 b al2 :
  separate (al1 ++ b :: al2) -> separate (al1 ++ al2) /\ forall x, in_block b x -> ~ cover (al1 ++ al2) x.
Proof.
  induction al1 as [|c al1 IH]; simpl; [tauto|]. intros [Hc Hs]. destruct (IH Hs) as [H1 H2].
  split; [split; [|done]|].
  - intros x Hx Hx'. apply (Hc x Hx). rewrite cover_app in *. rewrite cover_cons. tauto.
  - intros x Hx [Hx'|Hx']%cover_cons; [|by apply (H2 x)]. apply (Hc x Hx'). rewrite cover_app, cover_cons. tauto.
Qed.

Lemma heap_free_spec s fl al1 al2 b n fuel :
  heap_inv s fl (al1 ++ (b, n) :: al2) -> (length fl + 1 < fuel)%nat ->
  exists s' fl', free fuel (b + 8) s = Ret tt s' /\ kept s s' (al1 ++ al2) /\
    heap_inv s' fl' (al1 ++ al2) /\ units fl' = units fl + n /\ u_brk s' = u_brk s.
Proof.
  intros Hinv Hf. pose proof Hinv as [Hbase Hfree Hal Hsep Hap].
  destruct Hfree as [Hok|(_ & _ & E & _)]; [|by destruct al1].
  destruct (Hal b n ltac:(set_solver)) as (Hn & Hlo & Hhi & Hsz).
  destruct (separate_remove _ _ _ Hsep) as [Hsep' Hb].
  assert (forall x, cover (al1 ++ al2) x -> cover (al1 ++ (b, n) :: al2) x) as Hsub
    by (intros x; rewrite !cover_app, cover_cons; tauto).
  destruct (free_spec base Hbase s fl b n fuel Hok Hsz Hn Hlo Hhi) as (s' & fl' & Hrun & [F1 F2 F3 F4 F5 F6]); [|done|].
  { intros x Hx. apply Hap. rewrite cover_app, cover_cons. tauto. }
  assert (kept s s' (al1 ++ al2)) as Hk.
  { intros x Hx. apply F6; [apply (alloc_arena s fl _ x Hinv), Hsub, Hx|]. intros Hx'. by apply (Hb x). }
  exists s', fl'. split_and!; [done | done | | done | apply F5]. rewrite <- (proj1 F5) in Hhi.
  split; [done | by left | | done |].
  - intros a k Hin. assert ((a, k) ∈ al1 ++ (b, n) :: al2) as Hin' by set_solver.
    rewrite (alloc_kept s s' (al1 ++ al2) a k), (proj1 F5); [by apply Hal | | done | done].
    intros a' k' H. apply (Hal a' k'). set_solver.
  - intros x Hx [Hc|Hc]%F2; [by apply (Hap x); [apply Hsub|] | by apply (Hb x)].
Qed.

(** C23: the user allocator, with free blocks [fl] and allocated blocks [al], at least one,
    that do not overlap. [malloc(nbytes)], for a request below 2^31 - 16, terminates: it returns 0 only
    when no free block fits and the process cannot grow, and otherwise the address after
    the header of a block with room for the request that overlaps no other block; the free
    and allocated bytes together grow by exactly what [sbrk] gave. [free] of any allocated
    block terminates and gives exactly its bytes back. The bytes of all other allocated
    blocks stay as they are, and the free list stays in order with no two blocks
    touching. *)
Theorem umalloc_correct s fl al1 al2 b n nbytes fuel :
  heap_inv s fl (al1 ++ (b, n) :: al2) -> 0 <= nbytes < 2147483632 -> (2 * length fl + 4 < fuel)%nat ->
  let al := al1 ++ (b, n) :: al2 in
  let k := units_of nbytes in
  (exists r s', malloc base fuel nbytes s = Ret r s' /\ kept s s' al /\
    ((r = 0 /\ heap_inv s' fl al /\ u_brk s' = u_brk s /\ (forall a m, (a, m) ∈ fl -> m < k) /\
      u_lim s < u_brk s + 8 * grow k) \/
     (exists b' fl', r = b' + 8 /\ nbytes <= 8 * (k - 1) /\ heap_inv s' fl' ((b', k) :: al) /\
      8 * (units fl' + k) = 8 * units fl + (u_brk s' - u_brk s)))) /\
  (exists s' fl', free fuel (b + 8) s = Ret tt s' /\ kept s s' (al1 ++ al2) /\
    heap_inv s' fl' (al1 ++ al2) /\ units fl' = units fl + n /\ u_brk s' = u_brk s).
Proof.
  intros Hinv Hnb Hf al k. split; [by apply malloc_spec|]. apply heap_free_spec; [done | lia].
Qed.
End allocator.

(** ** Example: a process of 16 KB that may grow to 64 KB *)

Definition demo_ust : ust := mk_ust (fun _ => 0) 0 16384 65536.

Lemma demo_fresh : heap_inv 4096 demo_ust [] [].
Proof.
  split; [done | | by intros ? ? ?%elem_of_nil | done | by intros x ?%cover_nil].
  right. unfold KERNBASE. simpl. split_and!; done || lia.
Qed.

Lemma umalloc_correct_witness :
  exists s fl b n fuel, heap_inv 4096 s fl [(b, n)] /\
    (exists r s', malloc 4096 fuel 10 s = Ret r s' /\ kept s s' [(b, n)]) /\
    (exists s' fl', free fuel (b + 8) s = Ret tt s' /\ heap_inv 4096 s' fl' [] /\ units fl' = units fl + n).
Proof.
  destruct (malloc_spec 4096 demo_ust [] [] 100 100 demo_fresh ltac:(lia) ltac:(simpl; lia)) as
    (r & s & Hrun & _ & [(_ & _ & _ & _ & H)|(b & fl & Hr & _ & Hinv & Hu)]); [vm_compute in H; discriminate|].
  exists s, fl, b, (units_of 100), (2 * length fl + 5)%nat. split; [exact Hinv|].
  destruct (umalloc_correct 4096 s fl [] [] b (units_of 100) 10 (2 * length fl + 5) Hinv ltac:(lia) ltac:(lia))
    as [(r1 & s1 & H1 & H2 & _) (s2 & fl2 & H3 & _ & H4 & H5 & _)].
  split; [exists r1, s1 | exists s2, fl2]; auto.
Defined.

(** ** Sizes near the width of an integer

    The sum in [malloc] wraps: a request of 2^32 - 1 bytes is served with a header and no
    byte after it. *)
Lemma malloc_wraps : units_of 4294967295 = 1.
Proof. reflexivity. Qed.

(** A request of 2^31 bytes gives [sbrk] a negative argument, which changes nothing and is
    taken for success: [malloc] returns an address beyond the end of the process. *)
Lemma malloc_beyond_break :
  match malloc 4096 10 2147483648 demo_ust with
  | Ret r s => r <> 0 /\ u_brk s <= r
  | _ => False
  end.
Proof. vm_compute. split; discriminate. Qed.
