(* ===== verification/Printf.v ===== *)
(** * User-level printf

    printf.c: the characters [printf] writes, for a format, the words of its arguments and
    the strings they point to. *)

From S2P Require Import Prelude.

Definition PERCENT : Z := 37.

(** [digits] *)
Definition digit (i : Z) : Z := if i <? 10 then 48 + i else 55 + i.

(** The [do]-[while] of [printint]: digits of [x], the last one first. *)
Fixpoint digit_loop (fuel : nat) (x base : Z) : option (list Z) :=
  match fuel with
  | O => None
  | S fuel =>
      let c := digit (x mod base) in
      let x := x / base in
      if x =? 0 then Some [c] else cons c <$> digit_loop fuel x base
  end.

(** [sizeof(buf)] *)
Definition PBUF : nat := 16.

(** [printint]; [None] is a write past [buf]. *)
Definition printint (xx base : Z) (sgn : bool) : option (list Z) :=
  let neg := sgn && (xx <? 0) in
  let x := if neg then u32 (- xx) else u32 xx in
  match digit_loop PBUF x base with
  | None => None
  | Some buf =>
      let buf := if neg then buf ++ [45] else buf in
      if (PBUF <? length buf)%nat then None else Some (rev buf)
  end.

(** The loop of [printf] from a character of the format on; [state] says whether the last
    one was a [%]. [None] is a read past the arguments or a write past [printint]'s buffer.
    [str] gives the string at an address. *)
Fixpoint printf_loop (str : Z -> list Z) (state : bool) (fmt ap : list Z) : option (list Z) :=
  match fmt with
  | [] => Some []
  | c :: fmt =>
      if negb state then
        if c =? PERCENT then printf_loop str true fmt ap
        else cons c <$> printf_loop str false fmt ap
      else if c =? 100 then
        match ap with
        | [] => None
        | v :: ap => out ← printint (i32 v) 10 true; app out <$> printf_loop str false fmt ap
        end
      else if (c =? 120) || (c =? 112) then
        match ap with
        | [] => None
        | v :: ap => out ← printint (i32 v) 16 false; app out <$> printf_loop str false fmt ap
        end
      else if c =? 115 then
        match ap with
        | [] => None
        | v :: ap =>
            let s := if v =? 0 then [40; 110; 117; 108; 108; 41] else str v in
            app s <$> printf_loop str false fmt ap
        end
      else if c =? 99 then
        match ap with
        | [] => None
        | v :: ap => cons (u8 v) <$> printf_loop str false fmt ap
        end
      else if c =? PERCENT then cons c <$> printf_loop str false fmt ap
      else app [PERCENT; c] <$> printf_loop str false fmt ap
  end.

Definition printf (str : Z -> list Z) (fmt ap : list Z) : option (list Z) := printf_loop str false fmt ap.

(** ** Numbers *)

(** The value of a digit and of a list of digits, the last one first. *)
Definition digit_value (c : Z) : Z := if c <? 58 then c - 48 else c - 55.
Definition value (base : Z) (l : list Z) : Z := fold_right (fun c v => digit_value c + base * v) 0 l.

Lemma digit_value_eq i : 0 <= i < 16 -> digit_value (digit i) = i.
Proof.
  intros H. unfold digit_value, digit. destruct (Z.ltb_spec i 10).
  - rewrite (proj2 (Z.ltb_lt _ _)) by lia. lia.
  - rewrite (proj2 (Z.ltb_ge _ _)) by lia. lia.
Qed.

Lemma digit_loop_total k : forall fuel x base,
  2 <= base <= 16 -> 0 <= x < base ^ (Z.of_nat k + 1) -> (k < fuel)%nat ->
  exists l, digit_loop fuel x base = Some l /\ value base l = x /\ (length l <= S k)%nat /\
    Forall (fun c => 48 <= c < 71) l.
Proof.
  induction k as [|k IH]; intros fuel x base Hb Hx Hf; (destruct fuel as [|fuel]; [lia|]); cbn [digit_loop];
    pose proof (Z.mod_pos_bound x base ltac:(lia)) as Hm; pose proof (Z.div_mod x base ltac:(lia)) as Hd;
    (assert (48 <= digit (x mod base) < 71) as Hc by (unfold digit; destruct (Z.ltb_spec (x mod base) 10); lia));
    destruct (Z.eqb_spec (x / base) 0) as [E|E];
    try (eexists; split; [reflexivity|]; split_and!; [|simpl; lia | by constructor];
         simpl; rewrite digit_value_eq by lia; rewrite E in Hd; lia).
  - destruct E. apply Z.div_small. by rewrite Z.pow_1_r in Hx.
  - destruct (IH fuel (x / base) base Hb) as (l & -> & Hv & Hl & Hfa).
    { split; [apply Z.div_pos; lia|]. apply Z.div_lt_upper_bound; [lia|].
      replace (Z.of_nat (S k) + 1) with (Z.succ (Z.of_nat k + 1)) in Hx by lia.
      rewrite Z.pow_succ_r in Hx by lia. lia. }
    { lia. }
    eexists. split; [reflexivity|]. split_and!; [|simpl; lia | by constructor].
    simpl. rewrite digit_value_eq, Hv by lia. lia.
Qed.

(** What [printint] writes stands for the number: a sign and digits. *)
Definition signed_value (base : Z) (out : list Z) : Z :=
  match out with
  | c :: out' => if c =? 45 then - value base (rev out') else value base (rev out)
  | [] => 0
  end.

Lemma signed_value_digits base l :
  Forall (fun c => 48 <= c < 71) l -> signed_value base (rev l) = value base l.
Proof.
  intros Hf. unfold signed_value. destruct (rev l) as [|c l'] eqn:E.
  - apply (f_equal (@rev Z)) in E. rewrite rev_involutive in E. by subst.
  - assert (c ∈ l) as Hc by (apply list_elem_of_In, in_rev; rewrite E; left; done).
    rewrite Forall_forall in Hf. pose proof (Hf c Hc). rewrite (proj2 (Z.eqb_neq c 45)) by lia.
    by rewrite <- E, rev_involutive.
Qed.

(** [printint] of any [int], in decimal with a sign or in hexadecimal without: it ends, stays
    inside its buffer, and what it writes stands for the number, the smallest one
    included. *)
Theorem printint_total xx :
  -2147483648 <= xx < 2147483648 ->
  (exists out, printint xx 10 true = Some out /\ signed_value 10 out = xx) /\
  (exists out, printint xx 16 false = Some out /\ signed_value 16 out = u32 xx).
Proof.
  intros Hx. unfold printint. rewrite andb_true_l, andb_false_l. pose proof (u32_range xx) as Hu. split.
  - set (x := if xx <? 0 then _ else _).
    assert (x = Z.abs xx) as -> by (unfold x; destruct (Z.ltb_spec xx 0); rewrite u32_small by lia; lia).
    destruct (digit_loop_total 9 PBUF (Z.abs xx) 10) as (l & -> & Hv & Hl & Hf); [lia | simpl; lia | unfold PBUF; lia|].
    destruct (Z.ltb_spec xx 0).
    + rewrite length_app. simpl length. rewrite (proj2 (Nat.ltb_ge _ _)) by (unfold PBUF; lia).
      eexists. split; [reflexivity|]. rewrite rev_unit. simpl. rewrite rev_involutive. lia.
    + rewrite (proj2 (Nat.ltb_ge _ _)) by (unfold PBUF; lia).
      eexists. split; [reflexivity|]. rewrite signed_value_digits by done. lia.
  - destruct (digit_loop_total 7 PBUF (u32 xx) 16) as (l & -> & Hv & Hl & Hf); [lia | simpl; lia | unfold PBUF; lia|].
    rewrite (proj2 (Nat.ltb_ge _ _)) by (unfold PBUF; lia).
    eexists. split; [reflexivity|]. by rewrite signed_value_digits.
Qed.

(** ** Formats *)

(** The pieces of a format. *)
Inductive piece :=
  | Lit (c : Z)
  | Dec (v : Z)
  | Hex (v : Z)
  | Str (v : Z)
  | Chr (v : Z)
  | Pct.

Definition show_piece (p : piece) : list Z :=
  match p with
  | Lit c => [c]
  | Dec _ => [PERCENT; 100]
  | Hex _ => [PERCENT; 120]
  | Str _ => [PERCENT; 115]
  | Chr _ => [PERCENT; 99]
  | Pct => [PERCENT; PERCENT]
  end.

Definition piece_args (p : piece) : list Z :=
  match p with Dec v | Hex v | Str v | Chr v => [v] | _ => [] end.

(** What a piece prints. *)
Definition render (str : Z -> list Z) (p : piece) : list Z :=
  match p with
  | Lit c => [c]
  | Dec v => default [] (printint (i32 v) 10 true)
  | Hex v => default [] (printint (i32 v) 16 false)
  | Str v => if v =? 0 then [40; 110; 117; 108; 108; 41] else str v
  | Chr v => [u8 v]
  | Pct => [PERCENT]
  end.

Definition piece_ok (p : piece) : Prop := match p with Lit c => c <> PERCENT | _ => True end.

Lemma printint_some v : exists out1 out2, printint (i32 v) 10 true = Some out1 /\ printint (i32 v) 16 false = Some out2.
Proof.
  assert (-2147483648 <= i32 v < 2147483648) as H by zlia.
  destruct (printint_total (i32 v) H) as [(o1 & H1 & _) (o2 & H2 & _)]. eauto.
Qed.

(** [printf] prints the pieces of its format one after the other, each conversion with its
    own argument. *)
Theorem printf_correct str ps :
  Forall piece_ok ps -> printf str (ps ≫= show_piece) (ps ≫= piece_args) = Some (ps ≫= render str).
Proof.
  unfold printf. induction 1 as [|p ps Hp Hps IH]; [done|].
  change (mbind show_piece (p :: ps)) with (show_piece p ++ mbind show_piece ps).
  change (mbind piece_args (p :: ps)) with (piece_args p ++ mbind piece_args ps).
  change (mbind (render str) (p :: ps)) with (render str p ++ mbind (render str) ps).
  destruct p as [c|v|v|v|v|]; simpl.
  - rewrite (proj2 (Z.eqb_neq c PERCENT) Hp). by rewrite IH.
  - destruct (printint_some v) as (o1 & o2 & -> & _). simpl. by rewrite IH.
  - destruct (printint_some v) as (o1 & o2 & _ & ->). simpl. by rewrite IH.
  - by rewrite IH.
  - by rewrite IH.
  - by rewrite IH.
Qed.
