(* ===== verification/UserProgs.v ===== *)
(** * User programs

    cat.c, wc.c, echo.c, echoloop.c, kill.c, rm.c, mkdir.c, ln.c, ls.c, zombie.c, init.c and
    the container tool ctool.c, as the system calls they make.  A program is a tree of calls with what it does
    with each result; [interp] runs it against a system. *)

From S2P Require Import Prelude CString KState Sysfile Grep.

(** ** Programs *)

(** Arguments of [printf]. *)
Inductive parg := AInt (v : Z) | AStr (s : list Z) | ALit (s : string).

(** A slot of an argument vector: a string, NULL, or never written. *)
Inductive slot := Arg (s : list Z) | Null | Garbage.

Inductive call :=
  | COpen (path : list Z) (mode : Z)
  | CClose (fd : Z)
  | CRead (fd n : Z)
  | CWrite (fd : Z) (data : list Z) (n : Z)
  | CPrintf (fd : Z) (fmt : string) (args : list parg)
  | CFstat (fd : Z)
  | CStat (path : list Z)
  | CSleep (n : Z)
  | CDup (fd : Z)
  | CMkdir (path : list Z)
  | CUnlink (path : list Z)
  | CLink (old new : list Z)
  | CMknod (path : list Z) (major minor : Z)
  | CKill (pid : Z)
  | CFork
  | CWait
  | CExec (path : list Z) (argv : list slot)
  | CCcreate (name : list Z) (mproc msz mdsk : Z)
  | CCstart (name : list Z)
  | CCfork (cid : Z)
  | CCpause (name : list Z)
  | CCresume (name : list Z)
  | CCstop (name : list Z).

(** [struct pinfo] and [struct cinfo] of continfo.h as a program reads them; the names up to
    their NUL. *)
Record upinfo := mk_upinfo { up_state : Z; up_pid : Z; up_name : list Z; up_ticks : Z }.
Record ucinfo := mk_ucinfo {
  uc_msz : Z; uc_mdsk : Z; uc_mproc : Z; uc_usz : Z; uc_udsk : Z; uc_cid : Z; uc_state : Z;
  uc_name : list Z; uc_procs : list upinfo
}.

(** [Bad] is a use of NULL or of a value never written, an access out of bounds, a division
    by zero, or an exhausted loop bound.  A call returns an integer and, for [read], bytes,
    or for [fstat] and [stat] the fields type, ino and size; [Cinfo] is the call that fills
    a [struct continfo]. *)
Inductive prog :=
  | Done
  | Bad (why : string)
  | Call (c : call) (k : Z -> list Z -> prog)
  | Cinfo (k : Z -> list ucinfo -> prog).

Definition print (fd : Z) (fmt : string) (args : list parg) (k : prog) : prog :=
  Call (CPrintf fd fmt args) (fun _ _ => k).

(** A format that ends in a newline. *)
Definition ln (fmt : string) : string := fmt +:+ String.String (Ascii.ascii_of_nat 10) EmptyString.

Definition println (fd : Z) (fmt : string) (args : list parg) (k : prog) : prog := print fd (ln fmt) args k.

Fixpoint interp {S} (h : call -> S -> Z * list Z * S) (hi : S -> Z * list ucinfo * S) (p : prog) (s : S) : option S :=
  match p with
  | Done => Some s
  | Bad _ => None
  | Call c k => let '(r, b, s') := h c s in interp h hi (k r b) s'
  | Cinfo k => let '(r, l, s') := hi s in interp h hi (k r l) s'
  end.

(** ** cat.c *)

Fixpoint cat (fuel : nat) (fd : Z) (k : prog) : prog :=
  match fuel with
  | O => Bad "loop"
  | S fuel =>
      Call (CRead fd 512) (fun n buf =>
        if 0 <? n then
          Call (CWrite 1 buf n) (fun r _ =>
            if negb (r =? n) then println 1 "cat: write error" [] Done else cat fuel fd k)
        else if n <? 0 then println 1 "cat: read error" [] Done
        else k)
  end.

(** The loop of a [main] over files: open, [body], close. *)
Fixpoint each_file (fail : string) (body : Z -> list Z -> prog -> prog) (files : list (list Z)) : prog :=
  match files with
  | [] => Done
  | f :: files =>
      Call (COpen f 0) (fun fd _ =>
        if fd <? 0 then println 1 fail [AStr f] Done
        else body fd f (Call (CClose fd) (fun _ _ => each_file fail body files)))
  end.

Definition cat_main (fuel : nat) (argv : list (list Z)) : prog :=
  match argv with
  | _ :: (_ :: _) as files => each_file "cat: cannot open %s" (fun fd _ => cat fuel fd) (tail files)
  | _ => cat fuel 0 Done
  end.

(** ** wc.c *)

Record counts := mk_counts { n_l : Z; n_w : Z; n_c : Z; inword : bool }.

Definition wc_space (c : Z) : bool :=
  (c =? 32) || (c =? 13) || (c =? 9) || (c =? 10) || (c =? 11).

(** The body of the inner loop. *)
Definition wc_char (s : counts) (ch : Z) : counts :=
  let c := i32 (n_c s + 1) in
  let l := if ch =? 10 then i32 (n_l s + 1) else n_l s in
  if wc_space ch then mk_counts l (n_w s) c false
  else if negb (inword s) then mk_counts l (i32 (n_w s + 1)) c true
  else mk_counts l (n_w s) c true.

Fixpoint wc_loop (fuel : nat) (fd : Z) (name : list Z) (s : counts) (k : prog) : prog :=
  match fuel with
  | O => Bad "loop"
  | S fuel =>
      Call (CRead fd 512) (fun n buf =>
        if 0 <? n then wc_loop fuel fd name (fold_left wc_char buf s) k
        else if n <? 0 then println 1 "wc: read error" [] Done
        else println 1 "%d %d %d %s" [AInt (n_l s); AInt (n_w s); AInt (n_c s); AStr name] k)
  end.

Definition wc (fuel : nat) (fd : Z) (name : list Z) (k : prog) : prog :=
  wc_loop fuel fd name (mk_counts 0 0 0 false) k.

Definition wc_main (fuel : nat) (argv : list (list Z)) : prog :=
  match argv with
  | _ :: (_ :: _) as files => each_file "wc: cannot open %s" (fun fd name => wc fuel fd name) (tail files)
  | _ => wc fuel 0 [] Done
  end.

(** ** [main] of grep.c, with [grep] as its calls; Grep.v has its effect. *)

(** The inner loop: a write for each line that matches, then [k] on what is left. *)
Fixpoint grep_writes (fuel : nat) (pattern p : list Z) (k : list Z -> prog) : prog :=
  match fuel with
  | O => k p
  | S fuel =>
      match cut_line p with
      | None => k p
      | Some (l, q) =>
          if match_re pattern l then
            Call (CWrite 1 (l ++ [NL]) (zlen (l ++ [NL]))) (fun _ _ => grep_writes fuel pattern q k)
          else grep_writes fuel pattern q k
      end
  end.

Fixpoint grep_fd (fuel : nat) (pattern kept : list Z) (fd : Z) (k : prog) : prog :=
  match fuel with
  | O => Bad "loop"
  | S fuel =>
      Call (CRead fd (Z.of_nat (GBUF - length kept - 1))) (fun n buf =>
        if 0 <? n then
          let data := kept ++ buf in
          grep_writes (length data) pattern data (fun rest =>
            grep_fd fuel pattern (if (length rest =? length data)%nat then [] else rest) fd k)
        else k)
  end.

Definition grep_main (fuel : nat) (argv : list (list Z)) : prog :=
  match argv with
  | _ :: pattern :: (_ :: _) as files =>
      each_file "grep: cannot open %s" (fun fd _ => grep_fd fuel pattern [] fd) (drop 2 files)
  | [_; pattern] => grep_fd fuel pattern [] 0 Done
  | _ => println 2 "usage: grep pattern [file ...]" [] Done
  end.

(** ** The programs of one call for each argument *)

Fixpoint echo_args (argv : list (list Z)) (k : prog) : prog :=
  match argv with
  | [] => k
  | a :: argv' =>
      print 1 "%s%s" [AStr a; AStr (match argv' with [] => [10] | _ => [32] end)] (echo_args argv' k)
  end.
Definition echo_main (argv : list (list Z)) : prog := echo_args (tail argv) Done.

Fixpoint kill_args (argv : list (list Z)) : prog :=
  match argv with
  | [] => Done
  | a :: argv' => Call (CKill (ULib.atoi a)) (fun _ _ => kill_args argv')
  end.
Definition kill_main (argv : list (list Z)) : prog :=
  if (length argv <? 2)%nat then println 2 "usage: kill pid..." [] Done else kill_args (tail argv).

(** The loop of rm.c and mkdir.c, which stops at the first failure. *)
Fixpoint until_fails (what : list Z -> call) (fail : string) (argv : list (list Z)) : prog :=
  match argv with
  | [] => Done
  | a :: argv' =>
      Call (what a) (fun r _ =>
        if r <? 0 then println 2 fail [AStr a] Done else until_fails what fail argv')
  end.
Definition rm_main (argv : list (list Z)) : prog :=
  if (length argv <? 2)%nat then println 2 "Usage: rm files..." [] Done
  else until_fails CUnlink "rm: %s failed to delete" (tail argv).
Definition mkdir_main (argv : list (list Z)) : prog :=
  if (length argv <? 2)%nat then println 2 "Usage: mkdir files..." [] Done
  else until_fails CMkdir "mkdir: %s failed to create" (tail argv).

Definition ln_main (argv : list (list Z)) : prog :=
  match argv with
  | [_; old; new] =>
      Call (CLink old new) (fun r _ =>
        if r <? 0 then println 2 "link %s %s: failed" [AStr old; AStr new] Done else Done)
  | _ => println 2 "Usage: ln old new" [] Done
  end.

(** ** [fmtname] of ls.c *)

(** What follows the last slash. *)
Fixpoint basename (path : list Z) : list Z :=
  match path with
  | [] => []
  | c :: path' => if existsb (fun x => x =? 47) path' then basename path'
                  else if c =? 47 then path' else path
  end.

(** [buf] is static and its last byte never written, so the padded name is a string. *)
Definition fmtname (path : list Z) : list Z :=
  let p := basename path in
  if (DIRSIZ <=? length p)%nat then p else p ++ replicate (DIRSIZ - length p) 32.

(** [ls]: the stat of the file, or of each entry of the directory. *)
Definition ls_line (name st : list Z) (k : prog) : prog :=
  println 1 "%s %d %d %d" (AStr (fmtname name) :: (AInt <$> take 3 st)) k.

(** The entry as [struct dirent]: an inode number of two bytes and DIRSIZ of name. *)
Fixpoint ls_dir (fuel : nat) (fd : Z) (path : list Z) (k : prog) : prog :=
  match fuel with
  | O => Bad "loop"
  | S fuel =>
      Call (CRead fd 16) (fun n de =>
        if negb (n =? 16) then k
        else if lld16 de 0 =? 0 then ls_dir fuel fd path k
        else
          let buf := path ++ [47] ++ Obj.chars (take DIRSIZ (drop 2 de)) in
          Call (CStat buf) (fun r st =>
            if r <? 0 then println 1 "ls: cannot stat %s" [AStr buf] (ls_dir fuel fd path k)
            else ls_line buf st (ls_dir fuel fd path k)))
  end.

Definition ls (fuel : nat) (path : list Z) (k : prog) : prog :=
  Call (COpen path 0) (fun fd _ =>
    if fd <? 0 then println 2 "ls: cannot open %s" [AStr path] k
    else Call (CFstat fd) (fun r st =>
      let done := Call (CClose fd) (fun _ _ => k) in
      if r <? 0 then println 2 "ls: cannot stat %s" [AStr path] done
      else if hd 0 st =? 2 then ls_line path st done
      else if hd 0 st =? 1 then
        if (512 <? length path + 1 + DIRSIZ + 1)%nat then println 1 "ls: path too long" [] done
        else ls_dir fuel fd path done
      else done)).

Definition ls_main (fuel : nat) (argv : list (list Z)) : prog :=
  match argv with
  | _ :: (_ :: _) as files => foldr (ls fuel) Done (tail files)
  | _ => ls fuel [46] Done
  end.

(** ** echoloop.c and zombie.c *)

Fixpoint echoloop (n : nat) (ticks : Z) (args : list (list Z)) : prog :=
  match n with
  | O => Done
  | S n => echo_args args (Call (CSleep ticks) (fun _ _ => echoloop n ticks args))
  end.

Definition echoloop_main (argv : list (list Z)) : prog :=
  match argv with
  | _ :: ticks :: len :: args => echoloop (Z.to_nat (ULib.atoi len)) (ULib.atoi ticks) args
  | _ => println 1 "usage: echoloop sleep_ticks program_length arg1 [arg2 ...]" [] Done
  end.

Definition zombie_main : prog :=
  Call CFork (fun pid _ => if 0 <? pid then Call (CSleep 5) (fun _ _ => Done) else Done).

(** ** init.c *)

(** [create_vcs]: the nodes of the virtual consoles from number [i] on. *)
Fixpoint create_vcs (n : nat) (i : Z) (k : prog) : prog :=
  match n with
  | O => k
  | S n =>
      let dname := [118; 99; 48 + i] in
      Call (COpen dname O_RDWR) (fun fd _ =>
        if fd <? 0 then Call (CMknod dname 1 (i + 2)) (fun _ _ => create_vcs n (i + 1) k)
        else Call (CClose fd) (fun _ _ => create_vcs n (i + 1) k))
  end.

(** The inner loop: waiting for the shell [pid], reaping others. *)
Fixpoint reap (fuel : nat) (pid : Z) (k : prog) : prog :=
  match fuel with
  | O => Bad "loop"
  | S fuel =>
      Call CWait (fun wpid _ =>
        if (0 <=? wpid) && negb (wpid =? pid) then println 1 "zombie!" [] (reap fuel pid k) else k)
  end.

(** The endless loop, at most [fuel] shells. *)
Fixpoint init_loop (fuel : nat) : prog :=
  match fuel with
  | O => Bad "loop"
  | S n =>
      println 1 "init: starting sh" []
        (Call CFork (fun pid _ =>
          if pid <? 0 then println 1 "init: fork failed" [] Done
          else if pid =? 0 then
            Call (CExec [115; 104] [Arg [115; 104]; Null]) (fun _ _ => println 1 "init: exec sh failed" [] Done)
          else reap fuel pid (init_loop n)))
  end.

Definition console_name : list Z := [99; 111; 110; 115; 111; 108; 101].

Definition init_main (fuel : nat) : prog :=
  let rest := Call (CDup 0) (fun _ _ => Call (CDup 0) (fun _ _ => create_vcs NCONT 0 (init_loop fuel))) in
  Call (COpen console_name O_RDWR) (fun fd _ =>
    if fd <? 0 then
      Call (CMknod console_name 1 1) (fun _ _ => Call (COpen console_name O_RDWR) (fun _ _ => rest))
    else rest).

(** ** ctool.c *)

Definition usage (msg : string) : prog := println 1 "usage: ctool %s" [ALit msg] Done.

(** The copy loop of [cp]. *)
Fixpoint cp_loop (fuel : nat) (from to : Z) (k : Z -> prog) : prog :=
  match fuel with
  | O => Bad "loop"
  | S fuel =>
      Call (CRead from 1024) (fun count buffer =>
        if negb (count =? 0) then Call (CWrite to buffer count) (fun _ _ => cp_loop fuel from to k)
        else k 1)
  end.

Definition cp (fuel : nat) (dst file : list Z) (k : Z -> prog) : prog :=
  let path := dst ++ [47] ++ file in
  Call (COpen file O_RDONLY) (fun f0 _ =>
    if f0 =? -1 then k (-1)
    else Call (COpen path (Z.lor O_WRONLY O_CREATE)) (fun f1 _ =>
      if f1 =? -1 then
        println 1 "failed to create file |%s|" [AStr path] (Call (CClose f0) (fun _ _ => k (-1)))
      else cp_loop fuel f0 f1 k)).

(** The limits and the index of the last word that belongs to a flag. *)
Record limits := mk_limits { last_flag : Z; lim_p : Z; lim_m : Z; lim_d : Z }.

(** [atoi(argv[i])]; past the arguments is NULL. *)
Definition number_at (argv : list (list Z)) (i : nat) : option Z := ULib.atoi <$> argv !! i.

Definition is_flag (c : Z) (a : list Z) : bool := bool_decide (a = [45; c]).

(** The loop of [create] over the arguments. *)
Definition flag_step (argv : list (list Z)) (s : option limits) (i : nat) : option limits :=
  l ← s;
  a ← argv !! i;
  let j := Z.max (last_flag l) (Z.of_nat i + 1) in
  l ← (if is_flag 112 a then v ← number_at argv (S i); Some (mk_limits j v (lim_m l) (lim_d l)) else Some l);
  l ← (if is_flag 109 a then v ← number_at argv (S i); Some (mk_limits j (lim_p l) v (lim_d l)) else Some l);
  (if is_flag 100 a then v ← number_at argv (S i); Some (mk_limits j (lim_p l) (lim_m l) v) else Some l).

Definition parse_flags (argv : list (list Z)) : option limits :=
  fold_left (flag_step argv) (seq 0 (length argv))
    (Some (mk_limits 2 (Z.of_nat NPROC) MAX_CONT_MEM MAX_CONT_DSK)).

Fixpoint copy_all (fuel : nat) (dst : list Z) (files : list (list Z)) (k : prog) : prog :=
  match files with
  | [] => k
  | f :: files =>
      cp fuel dst f (fun r =>
        if negb (r =? 1) then
          println 1 "Failed to copy %s into folder %s. Continuing..." [AStr f; AStr dst] (copy_all fuel dst files k)
        else copy_all fuel dst files k)
  end.

Definition create (fuel : nat) (argv : list (list Z)) : prog :=
  if (length argv <? 4)%nat then
    usage "create <name> [-p <max_processes>] [-m <max_memory>] [-d <max_disk>] prog [prog2.. ]"
  else
    let name := default [] (argv !! 2%nat) in
    match parse_flags argv with
    | None => Bad "NULL"
    | Some l =>
        Call (CMkdir name) (fun r _ =>
          if negb (r =? 0) then println 1 "Error creating directory %s" [AStr name] Done
          else copy_all fuel name (drop (Z.to_nat (last_flag l + 1)) argv)
            (Call (CCcreate name (lim_p l) (lim_m l) (lim_d l)) (fun r _ =>
               if r =? 1 then println 1 "Created container %s" [AStr name] Done
               else println 1 "Failed to create container %s" [AStr name] Done)))
    end.

(** [start]: [args] has MAXARG slots, of which only the arguments are written. *)
Definition start (argv : list (list Z)) : prog :=
  if (length argv <? 5)%nat then usage "ctool start <name> <vc> prog arg1 [arg2 ...]"
  else
    let name := default [] (argv !! 2%nat) in
    let vcname := default [] (argv !! 3%nat) in
    let args := (Arg <$> drop 4 argv) ++ replicate (MAXARG - length (drop 4 argv)) Garbage in
    let prog0 := default [] (argv !! 4%nat) in
    Call (COpen vcname O_RDWR) (fun vc _ =>
      if vc =? -1 then println 1 "Couldn't open virtual console %s" [AStr vcname] Done
      else Call (CCstart name) (fun cid _ =>
        if cid <? 0 then println 1 "Failed to start container %s" [AStr name] Done
        else Call (CCfork cid) (fun pid _ =>
          if pid =? 0 then
            Call (CClose 0) (fun _ _ => Call (CClose 1) (fun _ _ => Call (CClose 2) (fun _ _ =>
            Call (CDup vc) (fun _ _ => Call (CDup vc) (fun _ _ => Call (CDup vc) (fun _ _ =>
            Call (CExec prog0 args) (fun _ _ =>
              println 1 "Failed to start process %s on container" [AStr prog0]
                (Call (CCstop name) (fun _ _ => Done)))))))))
          else println 1 "Starting container %s on vc %s" [AStr name; AStr vcname] Done))).

(** [pause], [resume] and [stop]; [argv[2]] may be NULL. *)
Definition control (what : list Z -> call) (use ok fail : string) (argv : list (list Z)) : prog :=
  if (length argv <? 2)%nat then usage use
  else
    match argv !! 2%nat with
    | None => Bad "NULL"
    | Some name =>
        Call (what name) (fun r _ =>
          if r =? 1 then println 1 ok [AStr name] Done else println 1 fail [] Done)
    end.

Definition pause := control CCpause "ctool pause <name>" "Paused %s" "ctool: pause failed".
Definition resume := control CCresume "ctool resume <name>" "Resumed %s" "ctool: resume failed".
Definition stop := control CCstop "ctool stop <name>" "Stopped %s" "ctool: stop failed".

Definition word_of (s : string) (a : list Z) : bool :=
  bool_decide (a = (fun c => Z.of_N (Ascii.N_of_ascii c)) <$> String.list_ascii_of_string s).

(** [main]; [info] stands for the command that prints the container table. *)
Definition ctool_main (fuel : nat) (info : prog) (argv : list (list Z)) : prog :=
  match argv !! 1%nat with
  | None => usage "<tool> <cmd> [<arg> ...]"
  | Some cmd =>
      if word_of "create" cmd then create fuel argv
      else if word_of "start" cmd then start argv
      else if word_of "info" cmd then info
      else if word_of "resume" cmd then resume argv
      else if word_of "stop" cmd then stop argv
      else if word_of "pause" cmd then pause argv
      else println 1 "ctool: command not found." [] Done
  end.

(** ** cat and wc on a stream

    A system whose descriptor [fd] yields the chunks [ins], of any sizes but none empty,
    and then the end of the file; [outs] is what was written to descriptor 1, and [msgs]
    what was printed. *)
Record stream := mk_stream { ins : list (list Z); outs : list Z; msgs : list (string * list parg) }.

Definition stream_call (c : call) (s : stream) : Z * list Z * stream :=
  match c with
  | CRead _ _ =>
      match ins s with
      | [] => (0, [], s)
      | b :: bs => (zlen b, b, mk_stream bs (outs s) (msgs s))
      end
  | CWrite _ data n => (n, [], mk_stream (ins s) (outs s ++ data) (msgs s))
  | CPrintf _ fmt args => (0, [], mk_stream (ins s) (outs s) (msgs s ++ [(fmt, args)]))
  | _ => (0, [], s)
  end.

Definition stream_info (s : stream) : Z * list ucinfo * stream := (-1, [], s).

Lemma chunk_pos (b : list Z) : b <> [] -> (0 <? zlen b) = true.
Proof. intros H. apply Z.ltb_lt. unfold zlen. destruct b; [done | simpl; lia]. Qed.

(** cat copies its input to its output, however the reads cut it. *)
Theorem cat_copies fd bs out m fuel :
  Forall (fun b => b <> []) bs -> (length bs < fuel)%nat ->
  interp stream_call stream_info (cat fuel fd Done) (mk_stream bs out m) = Some (mk_stream [] (out ++ concat bs) m).
Proof.
  revert out fuel. induction bs as [|b bs IH]; intros out fuel Hbs Hf; (destruct fuel as [|fuel]; [lia|]).
  - simpl. by rewrite app_nil_r.
  - apply Forall_cons in Hbs as [Hb Hbs]. simpl. rewrite chunk_pos by done. simpl. rewrite Z.eqb_refl. simpl.
    rewrite IH by (done || (simpl in Hf; lia)). by rewrite <- app_assoc.
Qed.

(** Lines, words and characters: a word starts at a character that is no space and has none
    before it. *)
Definition count_lines (l : list Z) : Z := zlen (filter (fun c => c = 10) l).
Fixpoint count_words (before : bool) (l : list Z) : Z :=
  match l with
  | [] => 0
  | c :: l' => (if negb (wc_space c) && negb before then 1 else 0) + count_words (negb (wc_space c)) l'
  end.

Lemma wc_char_fold l : forall s,
  0 <= n_l s -> 0 <= n_w s -> 0 <= n_c s ->
  n_l s + zlen l < 2147483648 -> n_w s + zlen l < 2147483648 -> n_c s + zlen l < 2147483648 ->
  exists w, fold_left wc_char l s =
    mk_counts (n_l s + count_lines l) (n_w s + count_words (inword s) l) (n_c s + zlen l) w.
Proof.
  induction l as [|c l IH]; intros s H1 H2 H3 H4 H5 H6.
  - exists (inword s). destruct s. unfold count_lines, zlen. simpl. by rewrite !Z.add_0_r.
  - assert (zlen (c :: l) = 1 + zlen l) as El by (unfold zlen; simpl; lia). rewrite El in *.
    pose proof (Zle_0_nat (length l)) as Hz. fold (zlen l) in Hz.
    assert (count_lines (c :: l) = (if c =? 10 then 1 else 0) + count_lines l) as Ecl.
    { unfold count_lines. destruct (Z.eqb_spec c 10) as [->|Hne]; [rewrite filter_cons_True by done; unfold zlen; simpl; lia|].
      by rewrite filter_cons_False. }
    cbn [fold_left count_words]. rewrite Ecl.
    destruct (IH (wc_char s c)) as [w Hw]; unfold wc_char; rewrite ?i32_small by lia;
      try (destruct (c =? 10), (wc_space c), (inword s); simpl; lia).
    exists w. unfold wc_char in Hw. rewrite !i32_small in Hw by lia. rewrite ?i32_small by lia. rewrite Hw. clear Hw.
    destruct (c =? 10), (wc_space c), (inword s); simpl; f_equal; lia.
Qed.

(** wc prints the numbers of lines, words and characters of its input, however the reads
    cut it. *)
Theorem wc_counts fd name bs m fuel :
  Forall (fun b => b <> []) bs -> (length bs < fuel)%nat -> zlen (concat bs) < 2147483648 ->
  let l := concat bs in
  interp stream_call stream_info (wc fuel fd name Done) (mk_stream bs [] m) =
  Some (mk_stream [] [] (m ++ [(ln "%d %d %d %s",
    [AInt (count_lines l); AInt (count_words false l); AInt (zlen l); AStr name])])).
Proof.
  intros Hbs Hf Hlen l.
  assert (forall bs s fuel, Forall (fun b => b <> []) bs -> (length bs < fuel)%nat ->
    interp stream_call stream_info (wc_loop fuel fd name s Done) (mk_stream bs [] m) =
    let s' := fold_left wc_char (concat bs) s in
    Some (mk_stream [] [] (m ++ [(ln "%d %d %d %s", [AInt (n_l s'); AInt (n_w s'); AInt (n_c s'); AStr name])]))) as Hloop.
  { clear. induction bs as [|b bs IH]; intros s fuel Hbs Hf; (destruct fuel as [|fuel]; [lia|]); [done|].
    apply Forall_cons in Hbs as [Hb Hbs]. simpl. rewrite chunk_pos by done. simpl.
    rewrite IH by (done || (simpl in Hf; lia)). by rewrite fold_left_app. }
  unfold wc. rewrite Hloop by done. fold l.
  destruct (wc_char_fold l (mk_counts 0 0 0 false)) as [w ->]; simpl; lia || done.
Qed.

(** ** grep

    A descriptor read by [read], and what was written to descriptor 1. *)
Definition read_call {S} (read : nat -> S -> list Z * S) (c : call) (s : S * list Z) : Z * list Z * (S * list Z) :=
  match c with
  | CRead _ n => let '(got, s') := read (Z.to_nat n) (fst s) in (zlen got, got, (s', snd s))
  | CWrite _ data n => (n, [], (fst s, snd s ++ data))
  | _ => (0, [], s)
  end.

Lemma grep_writes_eq {S} (read : nat -> S -> list Z * S) hi fuel : forall pattern p k s out,
  interp (read_call read) hi (grep_writes fuel pattern p k) (s, out) =
  let '(o, rest) := grep_lines fuel pattern p in interp (read_call read) hi (k rest) (s, out ++ o).
Proof.
  induction fuel as [|fuel IH]; intros pattern p k s out; simpl; [by rewrite app_nil_r|].
  destruct (cut_line p) as [[l q]|]; [|by rewrite app_nil_r]. destruct (match_re pattern l); simpl; rewrite IH;
    destruct (grep_lines fuel pattern q); [by rewrite <- !app_assoc | done].
Qed.

(** The calls of grep write what [Grep.grep] gives. *)
Theorem grep_fd_prints {S} (read : nat -> S -> list Z * S) hi fuel : forall pattern kept fd s out o,
  grep read fuel pattern kept s = Some o ->
  exists s', interp (read_call read) hi (grep_fd fuel pattern kept fd Done) (s, out) = Some (s', out ++ o).
Proof.
  induction fuel as [|fuel IH]; intros pattern kept fd s out o; simpl; [done|]. rewrite Nat2Z.id.
  destruct (read _ s) as [got s']. destruct got as [|c got]; [intros [= <-]; exists s'; simpl; by rewrite app_nil_r|].
  intros Hg. rewrite chunk_pos by done. cbv zeta. rewrite grep_writes_eq. unfold grep_step in Hg. cbv zeta in Hg.
  destruct (grep_lines _ _ _) as [o1 rest]. destruct (grep read fuel pattern _ s') as [o2|] eqn:E; [|done].
  injection Hg as <-. destruct (IH _ _ fd _ (out ++ o1) _ E) as [s2 E2]. exists s2. by rewrite E2, <- app_assoc.
Qed.

(** ** The arguments of [ctool create] *)

(** No word but a flag looks like one. *)
Definition plain (a : list Z) : Prop := is_flag 112 a = false /\ is_flag 109 a = false /\ is_flag 100 a = false.

(** A flag and its number. *)
Definition show_flag (f : Z * list Z) : list (list Z) := [[45; fst f]; snd f].
Definition flag_ok (f : Z * list Z) : Prop := (fst f = 112 \/ fst f = 109 \/ fst f = 100) /\ plain (snd f).

(** The number the last flag [c] gives. *)
Definition setting (c : Z) (flags : list (Z * list Z)) (v : Z) : Z :=
  fold_left (fun v f => if fst f =? c then ULib.atoi (snd f) else v) flags v.

Lemma flag_step_plain argv l i a :
  argv !! i = Some a -> plain a -> flag_step argv (Some l) i = Some l.
Proof. intros Ha (H1 & H2 & H3). unfold flag_step. simpl. rewrite Ha. simpl. by rewrite H1, H2, H3. Qed.

Lemma flag_step_flag argv l i c num :
  argv !! i = Some [45; c] -> argv !! S i = Some num -> c = 112 \/ c = 109 \/ c = 100 ->
  last_flag l <= Z.of_nat i + 1 ->
  flag_step argv (Some l) i =
  Some (mk_limits (Z.of_nat i + 1) (setting 112 [(c, num)] (lim_p l)) (setting 109 [(c, num)] (lim_m l))
    (setting 100 [(c, num)] (lim_d l))).
Proof.
  intros Ha Hn Hc Hl. unfold flag_step, number_at. simpl. rewrite Ha, Hn. simpl. rewrite Z.max_r by lia.
  destruct Hc as [->|[->| ->]]; done.
Qed.

Lemma fold_plain rest : forall pre argv l,
  argv = pre ++ rest -> Forall plain rest ->
  fold_left (flag_step argv) (seq (length pre) (length rest)) (Some l) = Some l.
Proof.
  induction rest as [|a rest IH]; intros pre argv l Hargv Hr; [done|]. apply Forall_cons in Hr as [Ha Hr].
  cbn [length seq fold_left]. rewrite (flag_step_plain _ _ _ a).
  - replace (S (length pre)) with (length (pre ++ [a])) by (rewrite length_app; simpl; lia).
    apply IH; [by rewrite Hargv, <- app_assoc | done].
  - rewrite Hargv, lookup_app_r, Nat.sub_diag by lia. done.
  - done.
Qed.

Lemma fold_flags flags : forall pre rest argv l,
  argv = pre ++ (flags ≫= show_flag) ++ rest -> Forall flag_ok flags -> last_flag l <= zlen pre ->
  fold_left (flag_step argv) (seq (length pre) (length (flags ≫= show_flag))) (Some l) =
  Some (mk_limits (match flags with [] => last_flag l | _ => zlen pre + 2 * zlen flags - 1 end)
    (setting 112 flags (lim_p l)) (setting 109 flags (lim_m l)) (setting 100 flags (lim_d l))).
Proof.
  induction flags as [|[c num] flags IH]; intros pre rest argv l Hargv Hf Hl; [by destruct l|].
  apply Forall_cons in Hf as [[Hc Hnum] Hf].
  change (mbind show_flag ((c, num) :: flags)) with ([45; c] :: num :: mbind show_flag flags) in *.
  cbn [length seq fold_left].
  assert (argv !! length pre = Some [45; c]) as H1 by (rewrite Hargv, lookup_app_r, Nat.sub_diag by lia; done).
  assert (argv !! S (length pre) = Some num) as H2.
  { rewrite Hargv, lookup_app_r by lia. by replace (S (length pre) - length pre)%nat with 1%nat by lia. }
  rewrite (flag_step_flag _ _ _ c num H1 H2 Hc) by (unfold zlen in Hl; lia).
  rewrite (flag_step_plain _ _ _ num H2 Hnum).
  replace (S (S (length pre))) with (length (pre ++ [[45; c]; num])) by (rewrite length_app; simpl; lia).
  rewrite (IH _ rest); [| by rewrite Hargv, <- app_assoc | done | unfold zlen; simpl; rewrite length_app; simpl; lia].
  f_equal. simpl. f_equal. unfold zlen. rewrite length_app. destruct flags; simpl; lia.
Qed.

Lemma flag_fold_head argv w0 w1 name rest l :
  argv = [w0; w1; name] ++ rest -> Forall plain [w0; w1; name] ->
  fold_left (flag_step argv) (seq 0 3) (Some l) = Some l.
Proof.
  intros -> H. apply Forall_cons in H as [H0 H]. apply Forall_cons in H as [H1 H]. apply Forall_cons in H as [H2 _].
  cbn [seq fold_left].
  by rewrite (flag_step_plain _ _ _ w0), (flag_step_plain _ _ _ w1), (flag_step_plain _ _ _ name).
Qed.

(** [ctool create name flags progs]: the directory is made, exactly the programs are copied
    into it, and the container is created with the limits of the flags, the last one of a
    kind deciding, and the defaults for the others. *)
Theorem create_parses fuel w0 w1 name flags progs :
  Forall plain ([w0; w1; name] ++ progs) -> Forall flag_ok flags -> flags <> [] \/ progs <> [] ->
  create fuel ([w0; w1; name] ++ (flags ≫= show_flag) ++ progs) =
  Call (CMkdir name) (fun r _ =>
    if negb (r =? 0) then println 1 "Error creating directory %s" [AStr name] Done
    else copy_all fuel name progs
      (Call (CCcreate name (setting 112 flags (Z.of_nat NPROC)) (setting 109 flags MAX_CONT_MEM)
               (setting 100 flags MAX_CONT_DSK)) (fun r _ =>
         if r =? 1 then println 1 "Created container %s" [AStr name] Done
         else println 1 "Failed to create container %s" [AStr name] Done))).
Proof.
  intros Hp Hf Hne. apply Forall_app in Hp as [Hp0 Hp]. set (argv := [w0; w1; name] ++ _).
  assert (length argv = 3 + length (flags ≫= show_flag) + length progs)%nat as Hlen
    by (unfold argv; rewrite !length_app; simpl; lia).
  assert (length (flags ≫= show_flag) = 2 * length flags)%nat as Hfl.
  { clear. induction flags as [|f flags IH]; [done|].
    change (mbind show_flag (f :: flags)) with (show_flag f ++ mbind show_flag flags). rewrite length_app, IH. simpl. lia. }
  assert (parse_flags argv = Some (mk_limits (2 + 2 * zlen flags) (setting 112 flags (Z.of_nat NPROC))
    (setting 109 flags MAX_CONT_MEM) (setting 100 flags MAX_CONT_DSK))) as Hparse.
  { unfold parse_flags. rewrite Hlen, !seq_app, !fold_left_app, !Nat.add_0_l.
    rewrite (flag_fold_head argv w0 w1 name _ _ eq_refl Hp0).
    change 3%nat with (length [w0; w1; name]) at 1.
    rewrite (fold_flags flags [w0; w1; name] progs) by (done || (unfold zlen; simpl; lia)).
    replace (3 + length (flags ≫= show_flag))%nat with (length ([w0; w1; name] ++ (flags ≫= show_flag)))
      by (by rewrite length_app).
    rewrite (fold_plain progs) by (done || (unfold argv; by rewrite <- app_assoc)).
    simpl. do 2 f_equal. unfold zlen. destruct flags; simpl; lia. }
  unfold create. rewrite Hparse.
  replace (length argv <? 4)%nat with false
    by (symmetry; apply Nat.ltb_ge; destruct Hne as [Hne|Hne]; [destruct flags | destruct progs]; simpl in *; (done || lia)).
  simpl last_flag. replace (Z.to_nat (2 + 2 * zlen flags + 1)) with (length ([w0; w1; name] ++ (flags ≫= show_flag)))
    by (rewrite length_app, Hfl; unfold zlen; simpl; lia).
  assert (drop (length ([w0; w1; name] ++ (flags ≫= show_flag))) argv = progs) as ->
    by (unfold argv; by rewrite app_assoc, drop_app_length).
  done.
Qed.

(** ** Faults of ctool.c *)

(** A system with NOFILE descriptors in which every file exists and is empty: the number of
    descriptors in use, and the formats printed. *)
Definition fd_call (c : call) (s : nat * list string) : Z * list Z * (nat * list string) :=
  let '(used, out) := s in
  match c with
  | COpen _ _ => if (used <? NOFILE)%nat then (Z.of_nat used, [], (S used, out)) else (-1, [], s)
  | CClose _ => (0, [], (pred used, out))
  | CPrintf _ fmt _ => (0, [], (used, out ++ [fmt]))
  | _ => (0, [], s)
  end.
Definition fd_info (s : nat * list string) : Z * list ucinfo * (nat * list string) := (-1, [], s).

(** [cp] closes neither file when it succeeds: six programs are copied, and no seventh. *)
Lemma cp_leaks :
  interp fd_call fd_info (copy_all 1 [99] (replicate 6 [112]) Done) (3%nat, []) = Some (15%nat, []) /\
  interp fd_call fd_info (copy_all 1 [99] (replicate 7 [112]) Done) (3%nat, []) =
    Some (15%nat, [ln "failed to create file |%s|"; ln "Failed to copy %s into folder %s. Continuing..."]).
Proof. by vm_compute. Qed.

(** A flag that is the last word makes [atoi] read NULL. *)
Lemma last_word_flag fuel : create fuel [[99]; [99]; [110]; [45; 112]] = Bad "NULL".
Proof. done. Qed.

(** [ctool pause] without a name passes the check of [argc]. *)
Lemma pause_unnamed : pause [[99]; [112]] = Bad "NULL".
Proof. done. Qed.


(** A system that records the vectors given to [exec], in the child of [cfork]. *)
Definition exec_call (c : call) (s : list (list slot)) : Z * list Z * list (list slot) :=
  match c with
  | COpen _ _ => (3, [], s)
  | CExec _ v => (-1, [], s ++ [v])
  | _ => (0, [], s)
  end.

(** The vector [start] gives to [exec] has no NULL: the slots after its arguments were never
    written. *)
Lemma start_unterminated name vc p :
  interp exec_call (fun s => (-1, [], s)) (start [[99]; [115]; name; vc; p]) [] =
  Some [Arg p :: replicate (MAXARG - 1) Garbage].
Proof. done. Qed.
