(* ===== verification/UserInfo.v ===== *)
(** * Programs that show the container table

    df.c, free.c, ps.c and the [info] command of ctool.c: what they print of the
    [struct continfo] the kernel fills, with the arithmetic of C on its fields. *)

From S2P Require Import Prelude CString KState UserProgs.

Definition CIUNUSED : Z := 0.
Definition PIUNUSED : Z := 0.

(** A tab, and the format of [info]'s table of limits. *)
Definition tab (fmt : string) : string := String.String (Ascii.ascii_of_nat 9) fmt.
Definition info_format : string :=
  ln (tab "Proc: " +:+ tab "%d" +:+ tab "%d") +:+ ln (tab "Mem: " +:+ tab "%dkb" +:+ tab "%dmb") +:+
  tab "Disk: " +:+ tab "%dkb" +:+ tab "%dmb".

(** A loop over [ci->conts] that skips the entries not in use. *)
Fixpoint each_cont (body : ucinfo -> prog -> prog) (l : list ucinfo) (k : prog) : prog :=
  match l with
  | [] => k
  | c :: l => if uc_state c =? CIUNUSED then each_cont body l k else body c (each_cont body l k)
  end.

(** ** df.c *)

Definition df_cont (c : ucinfo) (k : prog) : prog :=
  println 1 "Container %d: %s" [AInt (uc_cid c); AStr (uc_name c)]
    (println 1 (tab "Disk: %dkb/%dkb/%dkb (Used/ Available/ Max)")
       [AInt (uc_udsk c / 1024); AInt (u32 (uc_mdsk c / 1024 - uc_udsk c / 1024)); AInt (uc_mdsk c / 1024)] k).

Definition df_main : prog :=
  Cinfo (fun r l =>
    if negb (r =? 1) then println 1 "df: failed to get container info" [] Done
    else each_cont df_cont (take NCONT l) Done).

(** ** free.c *)

(** [usz] is an int, [msz] unsigned: the quotient of the one is converted for the difference. *)
Definition free_cont (c : ucinfo) (k : prog) : prog :=
  println 1 "Container %d: %s" [AInt (uc_cid c); AStr (uc_name c)]
    (println 1 (tab "Memory: %dkb/%dkb/%dmb (Used/ Available/ Max)")
       [AInt (Z.quot (uc_usz c) 1024); AInt (u32 (uc_msz c / 1024 - Z.quot (uc_usz c) 1024));
        AInt (uc_msz c / 1024 / 1024)] k).

Definition free_main : prog :=
  Cinfo (fun r l =>
    if negb (r =? 1) then println 1 "free: failed to get container info" [] Done
    else each_cont free_cont (take NCONT l) Done).

(** ** ps.c *)

Definition states : list string := ["unused"; "embryo"; "sleep "; "runble"; "run   "; "zombie"].
Definition state_name (s : Z) : string := if 0 <=? s then default "???" (states !! Z.to_nat s) else "???".

(** The loop over [c.procs] from [k] on, [n] more; [procs] has NPROC entries. *)
Fixpoint each_proc (body : upinfo -> prog -> prog) (n k : nat) (procs : list upinfo) (rest : prog) : prog :=
  match n with
  | O => rest
  | S n =>
      match procs !! k with
      | None => Bad "index"
      | Some p =>
          if up_state p =? PIUNUSED then each_proc body n (S k) procs rest
          else body p (each_proc body n (S k) procs rest)
      end
  end.

Definition ps_proc (p : upinfo) (k : prog) : prog :=
  println 1 (tab "%d %s %s") [AInt (up_pid p); ALit (state_name (up_state p)); AStr (up_name p)] k.

Definition ps_cont (c : ucinfo) (k : prog) : prog :=
  println 1 "Container %d (%s) processes:" [AInt (uc_cid c); AStr (uc_name c)]
    (each_proc ps_proc (Z.to_nat (uc_mproc c)) 0 (uc_procs c) (println 1 "" [] k)).

(** [main] fetches the table twice and shows the second. *)
Definition ps_main : prog :=
  Cinfo (fun r _ =>
    if negb (r =? 1) then println 1 "ps: failed to get container info" [] Done
    else Cinfo (fun r l =>
      if negb (r =? 1) then println 1 "info: failed to get container info" [] Done
      else each_cont ps_cont (take NCONT l) Done)).

(** ** [info] of ctool.c *)

Definition cstates : list string :=
  ["unused"; "embryo"; "ready "; "runnable"; "running"; "paused"; "stopping"].

(** The sum of the ticks of the processes in use, from [v] on, as an int. *)
Fixpoint ticks_from (n k : nat) (procs : list upinfo) (v : Z) : option Z :=
  match n with
  | O => Some v
  | S n =>
      match procs !! k with
      | None => None
      | Some p => ticks_from n (S k) procs (if up_state p =? PIUNUSED then v else i32 (v + up_ticks p))
      end
  end.
Definition cont_ticks (c : ucinfo) (v : Z) : option Z := ticks_from (Z.to_nat (uc_mproc c)) 0 (uc_procs c) v.

Definition used_procs (c : ucinfo) : Z :=
  zlen (filter (fun p => negb (up_state p =? PIUNUSED) = true) (take (Z.to_nat (uc_mproc c)) (uc_procs c))).

Fixpoint total_ticks (l : list ucinfo) (v : Z) : option Z :=
  match l with
  | [] => Some v
  | c :: l =>
      if uc_state c =? CIUNUSED then total_ticks l v
      else match cont_ticks c v with None => None | Some v => total_ticks l v end
  end.

(** Division of ints traps on zero and on the one overflow. *)
Definition idiv (a b : Z) : option Z :=
  if (b =? 0) || ((a =? -2147483648) && (b =? -1)) then None else Some (Z.quot a b).
Definition udiv (a b : Z) : option Z := if b =? 0 then None else Some (a / b).

(** [100*p.ticks/totalticks] is unsigned. *)
Definition info_proc (total : Z) (p : upinfo) (k : prog) : prog :=
  match udiv (u32 (100 * up_ticks p)) (u32 total) with
  | None => Bad "divide"
  | Some v =>
      println 1 (tab (tab "%d %s %s ") +:+ tab "(%d%% CPU time)")
        [AInt (up_pid p); ALit (state_name (up_state p)); AStr (up_name p); AInt v] k
  end.

Definition info_cont (total : Z) (c : ucinfo) (k : prog) : prog :=
  match cont_ticks c 0, cstates !! Z.to_nat (uc_state c) with
  | Some t, Some st =>
      println 1 "Container %d: %s (/%s) %s" [AInt (uc_cid c); AStr (uc_name c); AStr (uc_name c); ALit st]
        (match idiv (i32 (t * 100)) total with
         | None => Bad "divide"
         | Some v =>
             println 1 (tab "Executed %d%% (%d/%d) of the time") [AInt v; AInt t; AInt total]
               (println 1 (tab (tab "Used") +:+ tab "Available") []
               (println 1 info_format
                 [AInt (used_procs c); AInt (uc_mproc c); AInt (Z.quot (uc_usz c) 1024);
                  AInt (uc_msz c / 1024 / 1024); AInt (uc_udsk c / 1024); AInt (uc_mdsk c / 1024 / 1024)]
               (println 1 (tab "Processes:") []
               (each_proc (info_proc total) (Z.to_nat (uc_mproc c)) 0 (uc_procs c) (println 1 "" [] k)))))
         end)
  | _, _ => Bad "index"
  end.

(** [totalticks] is never initialised: [garbage] is what the stack slot holds. *)
Definition info (garbage : Z) : prog :=
  Cinfo (fun r l =>
    if negb (r =? 1) then println 1 "info: failed to get container info" [] Done
    else match total_ticks (take NCONT l) garbage with
         | None => Bad "index"
         | Some total => each_cont (info_cont total) (take NCONT l) Done
         end).

Definition ctool (fuel : nat) (garbage : Z) (argv : list (list Z)) : prog := ctool_main fuel (info garbage) argv.

(** ** What is shown *)

Definition used_cont (c : ucinfo) : bool := negb (uc_state c =? CIUNUSED).
Definition used_proc (p : upinfo) : bool := negb (up_state p =? PIUNUSED).
Definition live_conts (l : list ucinfo) : list ucinfo := filter (fun c => used_cont c = true) l.
Definition live_procs (c : ucinfo) : list upinfo :=
  filter (fun p => used_proc p = true) (take (Z.to_nat (uc_mproc c)) (uc_procs c)).

(** The limit of a container is within its array. *)
Definition cont_fits (c : ucinfo) : Prop := (Z.to_nat (uc_mproc c) <= length (uc_procs c))%nat.

Lemma each_cont_foldr body l k : each_cont body l k = foldr body k (live_conts l).
Proof.
  induction l as [|c l IH]; [done|]. simpl. unfold live_conts, used_cont in *. rewrite IH.
  destruct (uc_state c =? CIUNUSED) eqn:E.
  - by rewrite filter_cons_False by (by rewrite E).
  - by rewrite filter_cons_True by (by rewrite E).
Qed.

Lemma each_proc_foldr body procs rest n : forall k, (k + n <= length procs)%nat ->
  each_proc body n k procs rest = foldr body rest (filter (fun p => used_proc p = true) (take n (drop k procs))).
Proof.
  induction n as [|n IH]; intros k Hk; [done|]. simpl.
  destruct (lookup_lt_is_Some_2 procs k) as [p Hp]; [lia|]. rewrite Hp, (drop_S _ p) by done.
  rewrite firstn_cons, IH by lia. unfold used_proc.
  destruct (up_state p =? PIUNUSED) eqn:E.
  - by rewrite filter_cons_False by (by rewrite E).
  - by rewrite filter_cons_True by (by rewrite E).
Qed.

(** A system that holds the table [l] and collects what is printed. *)
Definition lines := list (string * list parg).
Definition show_call (c : call) (out : lines) : Z * list Z * lines :=
  match c with
  | CPrintf _ fmt args => (0, [], out ++ [(fmt, args)])
  | _ => (0, [], out)
  end.
Definition show_info (l : list ucinfo) (out : lines) : Z * list ucinfo * lines := (1, l, out).

(** A body that prints [f x] for each [x] prints them all, in order. *)
Lemma interp_foldr {A} (body : A -> prog -> prog) (f : A -> lines) hi xs rest : forall out,
  Forall (fun x => forall k out, interp show_call hi (body x k) out = interp show_call hi k (out ++ f x)) xs ->
  interp show_call hi (foldr body rest xs) out = interp show_call hi rest (out ++ concat (f <$> xs)).
Proof.
  induction xs as [|x xs IH]; intros out H; [by rewrite app_nil_r|].
  apply Forall_cons in H as [Hx H]. simpl. by rewrite Hx, IH, <- app_assoc.
Qed.

Definition ps_proc_line (p : upinfo) : string * list parg :=
  (ln (tab "%d %s %s"), [AInt (up_pid p); ALit (state_name (up_state p)); AStr (up_name p)]).
Definition ps_lines (c : ucinfo) : lines :=
  [(ln "Container %d (%s) processes:", [AInt (uc_cid c); AStr (uc_name c)])] ++
  (ps_proc_line <$> live_procs c) ++ [(ln "", [])].

Lemma concat_singles {A B} (f : A -> B) (l : list A) : concat ((fun x => [f x]) <$> l) = f <$> l.
Proof. induction l as [|x l IH]; [done|]. by rewrite !fmap_cons, <- IH. Qed.

(** ps shows each container in use with its processes in use, and nothing else. *)
Theorem ps_lists l out :
  length l = NCONT -> Forall cont_fits l ->
  interp show_call (show_info l) ps_main out = Some (out ++ concat (ps_lines <$> live_conts l)).
Proof.
  intros Hl Hfit.
  change (interp show_call (show_info l) (each_cont ps_cont (take NCONT l) Done) out = Some (out ++ concat (ps_lines <$> live_conts l))).
  rewrite take_ge by lia. rewrite each_cont_foldr, (interp_foldr ps_cont ps_lines); [done|].
  apply Forall_forall. intros c Hc k o. apply list_elem_of_filter in Hc as [_ Hc].
  rewrite Forall_forall in Hfit. specialize (Hfit c Hc).
  unfold ps_cont, println, print. simpl. rewrite each_proc_foldr by (unfold cont_fits in Hfit; lia).
  rewrite drop_0, (interp_foldr ps_proc (fun p => [ps_proc_line p])) by (by apply Forall_true).
  rewrite (concat_singles ps_proc_line). simpl. by rewrite <- !app_assoc.
Qed.

(** ** The ticks of [info] *)

Definition sum_ticks (l : list upinfo) : Z := foldr (fun p v => up_ticks p + v) 0 l.

Lemma sum_ticks_app l1 l2 : sum_ticks (l1 ++ l2) = sum_ticks l1 + sum_ticks l2.
Proof. induction l1 as [|p l1 IH]; [done|]. simpl. rewrite IH. lia. Qed.

Lemma i32_add_l a b : i32 (i32 a + b) = i32 (a + b).
Proof. zlia. Qed.

Lemma ticks_from_sum procs n : forall k v, (k + n <= length procs)%nat -> i32 v = v ->
  ticks_from n k procs v =
  Some (i32 (v + sum_ticks (filter (fun p => used_proc p = true) (take n (drop k procs))))).
Proof.
  induction n as [|n IH]; intros k v Hk Hv; [by simpl; rewrite Z.add_0_r, Hv|]. simpl.
  destruct (lookup_lt_is_Some_2 procs k) as [p Hp]; [lia|]. rewrite Hp, (drop_S _ p) by done.
  rewrite firstn_cons. unfold used_proc. destruct (up_state p =? PIUNUSED) eqn:E.
  - rewrite filter_cons_False by (by rewrite E). apply IH; [lia | done].
  - rewrite filter_cons_True by (by rewrite E). rewrite IH by (lia || apply (i32_small _ (i32_range _))).
    simpl. by rewrite i32_add_l, Z.add_assoc.
Qed.

(** The total that [info] divides by is the ticks of the processes shown plus whatever the
    uninitialised variable held. *)
Theorem total_ticks_sum l : forall garbage, i32 garbage = garbage -> Forall cont_fits l ->
  total_ticks l garbage = Some (i32 (garbage + sum_ticks (live_conts l ≫= live_procs))).
Proof.
  induction l as [|c l IH]; intros g Hg Hf; [by simpl; rewrite Z.add_0_r, Hg|].
  apply Forall_cons in Hf as [Hc Hf]. simpl. unfold live_conts, used_cont. destruct (uc_state c =? CIUNUSED) eqn:E.
  - rewrite filter_cons_False by (by rewrite E). by apply IH.
  - rewrite filter_cons_True by (by rewrite E). unfold cont_ticks. rewrite ticks_from_sum, drop_0 by done.
    fold (live_procs c). rewrite IH by (done || apply (i32_small _ (i32_range _))).
    rewrite bind_cons, sum_ticks_app, i32_add_l, Z.add_assoc. done.
Qed.

(** So with a variable that happened to hold 0, [info] on a system in which no process has
    yet had a tick divides by zero; with another value its percentages are of that value. *)
Definition idle_cont : ucinfo := mk_ucinfo 0 0 1 0 0 1 4 [99] [mk_upinfo 3 1 [112] 0].

Lemma info_divides_by_zero : interp show_call (show_info [idle_cont]) (info 0) [] = None.
Proof. by vm_compute. Qed.

Lemma info_depends_on_garbage :
  interp show_call (show_info [idle_cont]) (info 7) [] <> interp show_call (show_info [idle_cont]) (info 8) [].
Proof. by vm_compute. Qed.
