(* ===== verification/Shell.v ===== *)
(** * The shell

    sh.c: the parser, over the line's buffer and the heap of command nodes it builds, and
    [runcmd], as the program of system calls a parsed command makes.  The theorems are in
    ShellParse.v and ShellRun.v. *)

From S2P Require Import Prelude Monad KState Sysfile.

Local Open Scope kernel_scope.

(** ** Data *)

Definition MAXARGS : nat := 10.

(** A pointer to a command is an index into the heap; [None] is 0. *)
Definition ptr := option nat.

(** [struct cmd] and its variants.  A string is its position in the buffer; [argv] and
    [eargv] have MAXARGS slots. *)
Inductive node :=
  | EXEC (argv eargv : list (option nat))
  | REDIR (cmd : ptr) (file efile : nat) (mode fd : Z)
  | PIPE (left right : ptr)
  | LIST (left right : ptr)
  | BACK (cmd : ptr).

(** The buffer with the line, the parser's position [s] (the variable whose address the
    functions pass around), the heap, how many more nodes [malloc] can give, and what was
    printed on descriptor 2. *)
Record shst := mk_shst {
  sh_buf : list Z;
  sh_pos : nat;
  sh_heap : list node;
  sh_room : nat;
  sh_err : list (string * list Z)
}.

Definition set_sh_buf b s := mk_shst b (sh_pos s) (sh_heap s) (sh_room s) (sh_err s).
Definition set_sh_pos p s := mk_shst (sh_buf s) p (sh_heap s) (sh_room s) (sh_err s).
Definition set_sh_heap h r s := mk_shst (sh_buf s) (sh_pos s) h r (sh_err s).
Definition add_sh_err e s := mk_shst (sh_buf s) (sh_pos s) (sh_heap s) (sh_room s) (sh_err s ++ [e]).

Definition P := M shst.

(** [*s]; outside the buffer is a fault. *)
Definition char_at (s : nat) : P Z := c <- gets (fun st => sh_buf st !! s) ;; deref "buf" c.

(** ** Constructors *)

(** [malloc] and [memset]; writing through a failed [malloc] is a fault. *)
Definition new_node (n : node) : P ptr :=
  room <- gets sh_room ;;
  match room with
  | O => fault "malloc"
  | S room =>
      h <- gets sh_heap ;;
      modify (set_sh_heap (h ++ [n]) room) ;;
      ret (Some (length h))
  end.

Definition execcmd : P ptr := new_node (EXEC (replicate MAXARGS None) (replicate MAXARGS None)).
Definition redircmd (subcmd : ptr) (file efile : nat) (mode fd : Z) : P ptr :=
  new_node (REDIR subcmd file efile mode fd).
Definition pipecmd (left right : ptr) : P ptr := new_node (PIPE left right).
Definition listcmd (left right : ptr) : P ptr := new_node (LIST left right).
Definition backcmd (subcmd : ptr) : P ptr := new_node (BACK subcmd).

(** ** Tokens *)

Definition whitespace : list Z := [32; 9; 13; 10; 11].
Definition symbols : list Z := [60; 124; 62; 38; 59; 40; 41].

(** [strchr(s, c)] as a truth value. *)
Fixpoint strchr (s : list Z) (c : Z) : bool :=
  match s with
  | [] => false
  | x :: s' => if x =? c then true else strchr s' c
  end.

(** [while(s < es && p( *s)) s++], [n] being [es - s]. *)
Fixpoint scan (p : Z -> bool) (n s : nat) : P nat :=
  match n with
  | O => ret s
  | S n' =>
      c <- char_at s ;;
      if p c then scan p n' (S s) else ret s
  end.

Definition is_space (c : Z) : bool := strchr whitespace c.
Definition is_word (c : Z) : bool := negb (strchr whitespace c) && negb (strchr symbols c).

(** The token's value, its start and its end. *)
Definition gettoken (es : nat) : P (Z * nat * nat) :=
  s <- gets sh_pos ;;
  s <- scan is_space (es - s) s ;;
  let q := s in
  c <- char_at s ;;
  ' (tok, s) <-
    (if c =? 0 then ret (c, s)
     else if strchr [124; 40; 41; 59; 38; 60] c then ret (c, S s)
     else if c =? 62 then
       c' <- char_at (S s) ;;
       if c' =? 62 then ret (43, S (S s)) else ret (c, S s)
     else
       s <- scan is_word (es - s) s ;;
       ret (97, s)) ;;
  let eq := s in
  s <- scan is_space (es - s) s ;;
  modify (set_sh_pos s) ;;
  ret (tok, q, eq).

Definition peek (es : nat) (toks : list Z) : P bool :=
  s <- gets sh_pos ;;
  s <- scan is_space (es - s) s ;;
  modify (set_sh_pos s) ;;
  c <- char_at s ;;
  ret (negb (c =? 0) && strchr toks c).

(** ** The parser

    The loops consume at least one character in each iteration; the recursion takes
    [fuel]. *)

(** The bound on iterations. *)
Definition line_bound : P nat := b <- gets sh_buf ;; ret (S (length b)).

Definition parseredirs (cmd : ptr) (es : nat) : P ptr :=
  n <- line_bound ;;
  loop n (fun cmd =>
    more <- peek es [60; 62] ;;
    if (more : bool) then
      ' (tok, _, _) <- gettoken es ;;
      ' (t, q, eq) <- gettoken es ;;
      if negb (t =? 97) then panic "missing file for redirection" else
      cmd <- (if tok =? 60 then redircmd cmd q eq O_RDONLY 0
              else if tok =? 62 then redircmd cmd q eq (Z.lor O_WRONLY O_CREATE) 1
              else if tok =? 43 then redircmd cmd q eq (Z.lor O_WRONLY O_CREATE) 1
              else ret cmd) ;;
      ret (inl cmd)
    else ret (inr cmd)) cmd.

(** [cmd->argv[i] = q; cmd->eargv[i] = eq]; a slot past the arrays is a fault. *)
Definition set_arg (cmd : ptr) (i : nat) (q eq : option nat) : P unit :=
  h <- gets sh_heap ;;
  c <- deref "cmd" cmd ;;
  match h !! c with
  | Some (EXEC argv eargv) =>
      if (i <? length argv)%nat then
        r <- gets sh_room ;;
        modify (set_sh_heap (<[c := EXEC (<[i := q]> argv) (<[i := eq]> eargv)]> h) r)
      else fault "argv"
  | _ => fault "cmd"
  end.

(** The loop of [parseexec] over arguments. *)
Definition parseargs (cmd : ptr) (es : nat) (ret0 : ptr) : P (ptr * nat) :=
  n <- line_bound ;;
  loop n (fun '(r, argc) =>
    stop <- peek es [124; 41; 38; 59] ;;
    if (stop : bool) then ret (inr (r, argc)) else
    ' (tok, q, eq) <- gettoken es ;;
    if tok =? 0 then ret (inr (r, argc)) else
    if negb (tok =? 97) then panic "syntax" else
    set_arg cmd argc (Some q) (Some eq) ;;
    let argc := S argc in
    if (MAXARGS <=? argc)%nat then panic "too many args" else
    r <- parseredirs r es ;;
    ret (inl (r, argc))) (ret0, O).

(** The loop of [parseline] over [&]. *)
Definition parsebacks (es : nat) (cmd : ptr) : P ptr :=
  n <- line_bound ;;
  loop n (fun cmd =>
    more <- peek es [38] ;;
    if (more : bool) then
      gettoken es ;;
      cmd <- backcmd cmd ;;
      ret (inl cmd)
    else ret (inr cmd)) cmd.

Fixpoint parseline (fuel es : nat) : P ptr :=
  match fuel with
  | O => fun _ => OutOfFuel
  | S fuel =>
      cmd <- parsepipe fuel es ;;
      cmd <- parsebacks es cmd ;;
      more <- peek es [59] ;;
      if (more : bool) then
        gettoken es ;;
        right <- parseline fuel es ;;
        listcmd cmd right
      else ret cmd
  end
with parsepipe (fuel es : nat) : P ptr :=
  match fuel with
  | O => fun _ => OutOfFuel
  | S fuel =>
      cmd <- parseexec fuel es ;;
      more <- peek es [124] ;;
      if (more : bool) then
        gettoken es ;;
        right <- parsepipe fuel es ;;
        pipecmd cmd right
      else ret cmd
  end
with parseexec (fuel es : nat) : P ptr :=
  match fuel with
  | O => fun _ => OutOfFuel
  | S fuel =>
      block <- peek es [40] ;;
      if (block : bool) then parseblock fuel es
      else
        cmd <- execcmd ;;
        r <- parseredirs cmd es ;;
        ' (r, argc) <- parseargs cmd es r ;;
        set_arg cmd argc None None ;;
        ret r
  end
with parseblock (fuel es : nat) : P ptr :=
  match fuel with
  | O => fun _ => OutOfFuel
  | S fuel =>
      open <- peek es [40] ;;
      if negb open then panic "parseblock" else
      gettoken es ;;
      cmd <- parseline fuel es ;;
      close <- peek es [41] ;;
      if negb close then panic "syntax - missing )" else
      gettoken es ;;
      parseredirs cmd es
  end.

(** ** Terminating the strings *)

Definition put_nul (i : nat) : P unit :=
  b <- gets sh_buf ;;
  if (i <? length b)%nat then modify (set_sh_buf (<[i := 0]> b)) else fault "buf".

(** [for(i=0; ecmd->argv[i]; i++) *ecmd->eargv[i] = 0;] *)
Fixpoint nul_args (argv eargv : list (option nat)) : P unit :=
  match argv, eargv with
  | None :: _, _ => ret tt
  | Some _ :: argv', Some e :: eargv' => put_nul e ;; nul_args argv' eargv'
  | _, _ => fault "argv"
  end.

Fixpoint nulterminate (fuel : nat) (cmd : ptr) : P ptr :=
  match fuel with
  | O => fun _ => OutOfFuel
  | S fuel =>
      match cmd with
      | None => ret None
      | Some c =>
          h <- gets sh_heap ;;
          n <- deref "cmd" (h !! c) ;;
          match n with
          | EXEC argv eargv => nul_args argv eargv
          | REDIR sub _ efile _ _ => nulterminate fuel sub ;; put_nul efile
          | PIPE l r => nulterminate fuel l ;; nulterminate fuel r ;; ret tt
          | LIST l r => nulterminate fuel l ;; nulterminate fuel r ;; ret tt
          | BACK sub => nulterminate fuel sub ;; ret tt
          end ;;
          ret cmd
      end
  end.

Definition strlen (s : list Z) : option nat := findi (fun c => c =? 0) s.

(** The string at a position. *)
Definition cstr (buf : list Z) (i : nat) : list Z :=
  let s := drop i buf in take (default (length s) (strlen s)) s.

(** The fuel is that of the recursion over a line of [es] characters, and of the walk of
    the nodes. *)
Definition parsecmd : P ptr :=
  b <- gets sh_buf ;;
  es <- deref "strlen" (strlen b) ;;
  modify (set_sh_pos 0%nat) ;;
  cmd <- parseline (4 * es + 4) es ;;
  peek es [] ;;
  s <- gets sh_pos ;;
  if negb (s =? es)%nat then
    b <- gets sh_buf ;;
    modify (add_sh_err ("leftovers: %s", cstr b s)) ;;
    panic "syntax"
  else
    h <- gets sh_heap ;;
    nulterminate (S (length h)) cmd ;;
    ret cmd.

(** ** Running commands *)

(** The system calls a shell process makes, each with what it does with the result; [Read]
    is [read(0, &c, 1)], [Print] is [printf(2, ...)]. *)
Inductive prog :=
  | Exit
  | Stuck
  | Exec (argv : list (list Z)) (failed : prog)
  | Open (path : list Z) (mode : Z) (k : Z -> prog)
  | Close (fd : Z) (k : prog)
  | Dup (fd : Z) (k : prog)
  | Pipe (k : option (Z * Z) -> prog)
  | Fork (k : Z -> prog)
  | Wait (k : prog)
  | Chdir (path : list Z) (k : Z -> prog)
  | Read (k : option Z -> prog)
  | Print (fmt : string) (args : list (list Z)) (k : prog).

(** [panic] of sh.c, with the message's characters. *)
Definition sh_panic (s : string) : prog := Print s [] Exit.

Definition fork1 (k : Z -> prog) : prog :=
  Fork (fun pid => if pid =? -1 then sh_panic "fork" else k pid).

(** The argument vector [exec] reads: the strings before the first 0. *)
Fixpoint args (buf : list Z) (argv : list (option nat)) : list (list Z) :=
  match argv with
  | Some q :: argv' => cstr buf q :: args buf argv'
  | _ => []
  end.

(** [runcmd] never returns: after a nested call comes nothing. *)
Fixpoint runcmd (fuel : nat) (buf : list Z) (heap : list node) (cmd : ptr) : prog :=
  match fuel with
  | O => Stuck
  | S fuel =>
      let runcmd := runcmd fuel buf heap in
      match cmd with
      | None => Exit
      | Some c =>
          match heap !! c with
          | None => Stuck
          | Some (EXEC argv _) =>
              match args buf argv with
              | [] => Exit
              | path :: _ => Exec (args buf argv) (Print "exec %s failed" [path] Exit)
              end
          | Some (REDIR sub file _ mode fd) =>
              Close fd (Open (cstr buf file) mode (fun r =>
                if r <? 0 then Print "open %s failed" [cstr buf file] Exit
                else runcmd sub))
          | Some (LIST l r) =>
              fork1 (fun pid => if pid =? 0 then runcmd l else Wait (runcmd r))
          | Some (PIPE l r) =>
              Pipe (fun p =>
                match p with
                | None => sh_panic "pipe"
                | Some (p0, p1) =>
                    fork1 (fun pid =>
                      if pid =? 0 then Close 1 (Dup p1 (Close p0 (Close p1 (runcmd l))))
                      else fork1 (fun pid =>
                        if pid =? 0 then Close 0 (Dup p0 (Close p0 (Close p1 (runcmd r))))
                        else Close p0 (Close p1 (Wait (Wait Exit)))))
                end)
          | Some (BACK sub) =>
              fork1 (fun pid => if pid =? 0 then runcmd sub else Exit)
          end
      end
  end.

(** ** The command loop *)

(** [gets] of ulib.c: at most [max - 1] characters, a line end included. *)
Fixpoint gets_loop (n : nat) (acc : list Z) (k : list Z -> prog) : prog :=
  match n with
  | O => k acc
  | S n =>
      Read (fun c =>
        match c with
        | None => k acc
        | Some c =>
            if (c =? 10) || (c =? 13) then k (acc ++ [c]) else gets_loop n (acc ++ [c]) k
        end)
  end.

(** [sizeof(buf)] *)
Definition LINE : nat := 100.

(** [None] at the end of input, else the buffer. *)
Definition getcmd (nbuf : nat) (k : option (list Z) -> prog) : prog :=
  Print "$ " []
    (gets_loop (nbuf - 1) [] (fun line =>
       let buf := line ++ replicate (nbuf - length line) 0 in
       if lget buf 0 =? 0 then k None else k (Some buf))).

(** What the child does with a line; [room] as in [shst]. *)
Definition run_line (room : nat) (buf : list Z) : prog :=
  match parsecmd (mk_shst buf 0 [] room []) with
  | Ret cmd s => runcmd (S (length (sh_heap s))) (sh_buf s) (sh_heap s) cmd
  | Panic msg s =>
      fold_right (fun e p => Print (fst e) [snd e] p) (sh_panic msg) (sh_err s)
  | _ => Stuck
  end.

(** One command: the rest of the shell is [k]. *)
Definition do_line (room : nat) (buf : list Z) (k : prog) : prog :=
  if (lget buf 0 =? 99) && (lget buf 1 =? 100) && (lget buf 2 =? 32) then
    let n := default O (strlen buf) in
    let dir := cstr (<[(n - 1)%nat := 0]> buf) 3 in
    Chdir dir (fun r => if r <? 0 then Print "cannot cd %s" [dir] k else k)
  else fork1 (fun pid => if pid =? 0 then run_line room buf else Wait k).

(** The loop over input lines, at most [fuel] of them. *)
Fixpoint main_loop (fuel room : nat) : prog :=
  match fuel with
  | O => Stuck
  | S fuel =>
      getcmd LINE (fun b =>
        match b with
        | None => Exit
        | Some buf => do_line room buf (main_loop fuel room)
        end)
  end.

(** [main]: opens the console until three descriptors are open. *)
Fixpoint open_console (n : nat) (k : prog) : prog :=
  match n with
  | O => Stuck
  | S n =>
      Open [99; 111; 110; 115; 111; 108; 101] O_RDWR (fun fd =>
        if 0 <=? fd then (if 3 <=? fd then Close fd k else open_console n k) else k)
  end.

Definition main (fuel room : nat) : prog := open_console (S NOFILE) (main_loop fuel room).
