(* ===== verification/ShellSpec.v ===== *)
(** * The grammar of command lines

    The grammar sh.c parses, the tokens of a line, that [gettoken] and [peek] find them, and
    a parser of token lists that recognises exactly the lines of the grammar. *)

From S2P Require Import Prelude Monad KState Sysfile Shell.

Local Open Scope kernel_scope.

(** ** The grammar *)

(** A word is the range of its characters. *)
Notation word := (nat * nat)%type.

Inductive tok :=
  | Sym (c : Z)
  | Word (w : word).

(** A redirection: [<], [>] or [>>] (written ['+']) and a file. *)
Definition redir : Type := Z * word.

(** A line is a pipeline, a number of [&] and perhaps [;] and a line; a pipeline is a
    command and perhaps [|] and a pipeline; a command is a list of words with redirections
    before, between and after, or a line in parentheses with redirections after. *)
Inductive lin :=
  | Lin (p : pip) (backs : nat) (rest : option lin)
with pip :=
  | Pip (e : exe) (rest : option pip)
with exe :=
  | Simple (rs : list redir) (items : list (word * list redir))
  | Block (l : lin) (rs : list redir).

Definition show_redir (r : redir) : list tok := [Sym (fst r); Word (snd r)].
Definition show_redirs (rs : list redir) : list tok := rs ≫= show_redir.
Definition show_items (items : list (word * list redir)) : list tok :=
  items ≫= (fun '(w, rs) => Word w :: show_redirs rs).

Lemma show_items_cons w rs items :
  show_items ((w, rs) :: items) = Word w :: (show_redirs rs ++ show_items items).
Proof. done. Qed.

Fixpoint show_lin (l : lin) : list tok :=
  match l with
  | Lin p backs rest =>
      show_pip p ++ replicate backs (Sym 38) ++
      match rest with Some l' => Sym 59 :: show_lin l' | None => [] end
  end
with show_pip (p : pip) : list tok :=
  match p with
  | Pip e rest =>
      show_exe e ++ match rest with Some p' => Sym 124 :: show_pip p' | None => [] end
  end
with show_exe (e : exe) : list tok :=
  match e with
  | Simple rs items => show_redirs rs ++ show_items items
  | Block l rs => Sym 40 :: show_lin l ++ Sym 41 :: show_redirs rs
  end.

(** The signs of redirections, and the number of arguments [struct execcmd] has room for. *)
Definition redir_ok (r : redir) : Prop := fst r = 60 \/ fst r = 62 \/ fst r = 43.

Fixpoint lin_ok (l : lin) : Prop :=
  match l with
  | Lin p _ rest => pip_ok p /\ match rest with Some l' => lin_ok l' | None => True end
  end
with pip_ok (p : pip) : Prop :=
  match p with
  | Pip e rest => exe_ok e /\ match rest with Some p' => pip_ok p' | None => True end
  end
with exe_ok (e : exe) : Prop :=
  match e with
  | Simple rs items =>
      Forall redir_ok rs /\ Forall (fun it => Forall redir_ok (snd it)) items /\
      (length items < MAXARGS)%nat
  | Block l rs => lin_ok l /\ Forall redir_ok rs
  end.

(** The commands, over some type of words. *)
Inductive cmd (W : Type) :=
  | CExec (argv : list W)
  | CRedir (c : cmd W) (file : W) (mode fd : Z)
  | CPipe (l r : cmd W)
  | CList (l r : cmd W)
  | CBack (c : cmd W).
Arguments CExec {W} argv.
Arguments CRedir {W} c file mode fd.
Arguments CPipe {W} l r.
Arguments CList {W} l r.
Arguments CBack {W} c.

Fixpoint cmd_map {A B} (f : A -> B) (c : cmd A) : cmd B :=
  match c with
  | CExec argv => CExec (f <$> argv)
  | CRedir c file mode fd => CRedir (cmd_map f c) (f file) mode fd
  | CPipe l r => CPipe (cmd_map f l) (cmd_map f r)
  | CList l r => CList (cmd_map f l) (cmd_map f r)
  | CBack c => CBack (cmd_map f c)
  end.

Definition redir_mode (sign : Z) : Z := if sign =? 60 then O_RDONLY else Z.lor O_WRONLY O_CREATE.
Definition redir_fd (sign : Z) : Z := if sign =? 60 then 0 else 1.

(** The last redirection is the outermost. *)
Definition wrap (rs : list redir) (c : cmd word) : cmd word :=
  fold_left (fun c r => CRedir c (snd r) (redir_mode (fst r)) (redir_fd (fst r))) rs c.

Fixpoint lin_cmd (l : lin) : cmd word :=
  match l with
  | Lin p backs rest =>
      let c := Nat.iter backs CBack (pip_cmd p) in
      match rest with Some l' => CList c (lin_cmd l') | None => c end
  end
with pip_cmd (p : pip) : cmd word :=
  match p with
  | Pip e rest =>
      match rest with Some p' => CPipe (exe_cmd e) (pip_cmd p') | None => exe_cmd e end
  end
with exe_cmd (e : exe) : cmd word :=
  match e with
  | Simple rs items => wrap (rs ++ (items ≫= snd)) (CExec (fst <$> items))
  | Block l rs => wrap rs (lin_cmd l)
  end.

(** ** Tokens of a line *)

(** The length of the longest prefix satisfying [p]. *)
Fixpoint span (p : Z -> bool) (l : list Z) : nat :=
  match l with
  | [] => O
  | c :: l' => if p c then S (span p l') else O
  end.

Fixpoint lex (fuel i : nat) (l : list Z) : list tok :=
  match fuel with
  | O => []
  | S fuel =>
      match l with
      | [] => []
      | c :: l' =>
          if is_space c then lex fuel (S i) l'
          else if c =? 62 then
            match l' with
            | c' :: l'' => if c' =? 62 then Sym 43 :: lex fuel (S (S i)) l'' else Sym 62 :: lex fuel (S i) l'
            | [] => [Sym 62]
            end
          else if strchr symbols c then Sym c :: lex fuel (S i) l'
          else
            let n := span is_word l in
            Word (i, i + n)%nat :: lex fuel (i + n) (drop n l)
      end
  end.

Definition tokens (line : list Z) : list tok := lex (length line) 0 line.

(** ** The scanner finds the tokens *)

Lemma strchr_elem s c : strchr s c = true <-> c ∈ s.
Proof.
  induction s as [|x s IH]; simpl; [split; [done | by intros ?%elem_of_nil]|].
  rewrite elem_of_cons. destruct (Z.eqb_spec x c); [naive_solver|].
  rewrite IH. naive_solver.
Qed.

Lemma span_le p l : (span p l <= length l)%nat.
Proof. induction l as [|c l IH]; simpl; [lia|]. destruct (p c); lia. Qed.

Lemma span_head p l c l' : drop (span p l) l = c :: l' -> p c = false.
Proof.
  induction l as [|x l IH]; simpl; [done|]. destruct (p x) eqn:E; simpl; [apply IH|].
  by intros [= <- _].
Qed.

Lemma span_all p l i c : l !! i = Some c -> (i < span p l)%nat -> p c = true.
Proof.
  revert i. induction l as [|x l IH]; simpl; [lia|]. intros i. destruct (p x) eqn:E; [|lia].
  destruct i as [|i]; simpl; [by intros [= ->]|]. intros H Hi. apply (IH i); [done | lia].
Qed.

(** A character that starts a word. *)
Lemma word_start c : is_space c = false -> strchr symbols c = false -> is_word c = true.
Proof. unfold is_space, is_word. by intros -> ->. Qed.

Lemma sign_symbol c : (c =? 62) = true -> strchr symbols c = true.
Proof. by intros ->%Z.eqb_eq. Qed.

Lemma lex_fuel n : forall m i l, (length l <= n)%nat -> (length l <= m)%nat -> lex n i l = lex m i l.
Proof.
  induction n as [|n IH]; intros m i l Hn Hm; [destruct l, m; done || (simpl in *; lia)|].
  destruct m as [|m]; [destruct l; done || (simpl in *; lia)|].
  destruct l as [|c l]; [done|]. cbn [length lex] in *.
  destruct (is_space c) eqn:E1; [apply IH; lia|].
  destruct (c =? 62) eqn:E2.
  - destruct l as [|c' l]; [done|]. simpl in *. destruct (c' =? 62); f_equal; apply IH; simpl; lia.
  - destruct (strchr symbols c) eqn:E3; [f_equal; apply IH; lia|]. f_equal.
    assert (0 < span is_word (c :: l))%nat by (simpl; rewrite word_start by done; lia).
    apply IH; rewrite length_drop; cbn [length]; lia.
Qed.

(** [lex] with just enough fuel. *)
Definition lx (i : nat) (l : list Z) : list tok := lex (length l) i l.

Lemma lx_skip i l : lx i l = lx (i + span is_space l) (drop (span is_space l) l).
Proof.
  revert i. induction l as [|c l IH]; intros i; [by rewrite Nat.add_0_r|].
  simpl span. destruct (is_space c) eqn:E.
  - unfold lx at 1. cbn [length lex]. rewrite E. fold (lx (S i) l). rewrite IH. simpl. f_equal. lia.
  - by rewrite Nat.add_0_r.
Qed.

(** What the tokens of a line are made of: a word is a longest range of word characters. *)
Definition word_at (line : list Z) (w : word) : Prop :=
  (w.1 < w.2)%nat /\ (w.2 <= length line)%nat /\
  (forall i c, (w.1 <= i < w.2)%nat -> line !! i = Some c -> is_word c = true) /\
  (forall c, line !! w.2 = Some c -> is_word c = false).

Definition tok_ok (line : list Z) (t : tok) : Prop :=
  match t with
  | Sym c => c ∈ 43 :: symbols
  | Word w => word_at line w
  end.

Lemma word_found line i :
  (i <= length line)%nat -> (0 < span is_word (drop i line))%nat ->
  word_at line (i, i + span is_word (drop i line))%nat.
Proof.
  intros Hi Hs. pose proof (span_le is_word (drop i line)) as Hl. rewrite length_drop in Hl.
  split_and!; simpl; [lia | lia | |].
  - intros j c Hj Hc. apply (span_all is_word (drop i line) (j - i)); [|lia].
    rewrite lookup_drop. by replace (i + (j - i))%nat with j by lia.
  - intros c Hc. apply (span_head is_word (drop i line) c (drop (S (i + span is_word (drop i line))) line)).
    rewrite drop_drop. by apply drop_S.
Qed.

Lemma drop_tail (line : list Z) i c l : drop i line = c :: l -> drop (S i) line = l.
Proof. intros H. replace (S i) with (i + 1)%nat by lia. rewrite <- drop_drop. by rewrite H. Qed.

Lemma lex_ok n : forall line i,
  (i <= length line)%nat -> Forall (tok_ok line) (lex n i (drop i line)).
Proof.
  induction n as [|n IH]; intros line i Hi; [constructor|].
  destruct (drop i line) as [|c l] eqn:El; [constructor|].
  assert (i < length line)%nat as Hlt.
  { pose proof (length_drop line i) as H. rewrite El in H. simpl in H. lia. }
  pose proof (drop_tail _ _ _ _ El) as El1.
  cbn [lex]. destruct (is_space c) eqn:E1; [rewrite <- El1; apply IH; lia|].
  destruct (c =? 62) eqn:E2.
  - destruct l as [|c' l']; [repeat constructor; simpl; set_solver|].
    assert (S i < length line)%nat.
    { pose proof (length_drop line (S i)) as H. rewrite El1 in H. simpl in H. lia. }
    destruct (c' =? 62).
    + constructor; [simpl; set_solver|].
      rewrite <- (drop_tail _ _ _ _ El1). apply IH. lia.
    + constructor; [simpl; set_solver|]. rewrite <- El1. apply IH. lia.
  - destruct (strchr symbols c) eqn:E3.
    + constructor; [simpl; apply strchr_elem in E3; by right|]. rewrite <- El1. apply IH. lia.
    + rewrite <- El. pose proof (span_le is_word (drop i line)) as Hl. rewrite length_drop in Hl.
      constructor; [|rewrite drop_drop; apply IH; lia].
      apply word_found; [lia|]. rewrite El. simpl. rewrite word_start by done. lia.
Qed.

Lemma lex_length n : forall i l, (length (lex n i l) <= length l)%nat.
Proof.
  induction n as [|n IH]; intros i l; [simpl; lia|]. destruct l as [|c l]; [done|]. cbn [lex].
  destruct (is_space c) eqn:E1; [etrans; [apply IH | simpl; lia]|].
  destruct (c =? 62).
  - destruct l as [|c' l]; [done|]. destruct (c' =? 62); simpl; [pose proof (IH (S (S i)) l) | pose proof (IH (S i) (c' :: l))];
      simpl in *; lia.
  - destruct (strchr symbols c) eqn:E3; [simpl; pose proof (IH (S i) l); lia|].
    assert (0 < span is_word (c :: l))%nat by (cbn [span]; rewrite word_start by done; lia).
    cbv zeta. cbn [length]. etrans; [apply le_n_S, IH|]. rewrite length_drop. cbn [length]. lia.
Qed.

Section scanner.
Context (line tail : list Z).
Hypothesis Hnul : 0 ∉ line.
Let es := length line.
Let buf := line ++ 0 :: tail.
Let toks (i : nat) := lx i (drop i line).

(** The parser stands before the tokens [ts]. *)
Definition stands (st : shst) (ts : list tok) : Prop :=
  sh_buf st = buf /\ (sh_pos st <= es)%nat /\ toks (sh_pos st) = ts.

Lemma stands_ok st ts : stands st ts -> Forall (tok_ok line) ts.
Proof. intros (_ & H & <-). by apply lex_ok. Qed.

Lemma char_in st i c : sh_buf st = buf -> line !! i = Some c -> char_at i st = Ret c st.
Proof.
  intros Hb Hc. unfold char_at. rewrite bind_gets, Hb. unfold buf.
  by rewrite (lookup_app_l_Some _ _ _ _ Hc).
Qed.

Lemma char_end st : sh_buf st = buf -> char_at es st = Ret 0 st.
Proof.
  intros Hb. unfold char_at. rewrite bind_gets, Hb. unfold buf, es.
  by rewrite lookup_app_r, Nat.sub_diag by lia.
Qed.

Lemma scan_eq p st n : forall s, sh_buf st = buf -> (s + n = es)%nat ->
  scan p n s st = Ret (s + span p (drop s line))%nat st.
Proof.
  induction n as [|n IH]; intros s Hb Hs; simpl.
  - rewrite drop_ge by (fold es; lia). simpl. unfold ret. f_equal. lia.
  - destruct (lookup_lt_is_Some_2 line s) as [c Hc]; [fold es; lia|].
    rewrite (bind_Ret _ _ _ _ _ (char_in st s c Hb Hc)), (drop_S _ _ _ Hc). simpl.
    destruct (p c); [|unfold ret; f_equal; lia]. rewrite IH by (done || lia). f_equal. lia.
Qed.

Lemma scan_from p st s : sh_buf st = buf -> (s <= es)%nat ->
  scan p (es - s) s st = Ret (s + span p (drop s line))%nat st.
Proof. intros. apply scan_eq; [done | lia]. Qed.

(** Skipping blanks keeps the tokens and ends at a token or the end. *)
Lemma skip_blanks i :
  (i <= es)%nat ->
  let j := (i + span is_space (drop i line))%nat in
  (j <= es)%nat /\ toks j = toks i /\ (forall c l, drop j line = c :: l -> is_space c = false).
Proof.
  intros Hi j. pose proof (span_le is_space (drop i line)) as Hl. rewrite length_drop in Hl.
  fold es in Hl. split_and!; [lia | |].
  - unfold toks, j. rewrite (lx_skip i). by rewrite drop_drop.
  - intros c l. unfold j. rewrite <- drop_drop. apply span_head.
Qed.

(** A token at [q], which ends at [e]. *)
Lemma next_token q c l :
  (q <= es)%nat -> drop q line = c :: l -> is_space c = false ->
  toks q =
    if c =? 62 then
      match l with
      | c' :: _ => if c' =? 62 then Sym 43 :: toks (S (S q)) else Sym 62 :: toks (S q)
      | [] => Sym 62 :: toks (S q)
      end
    else if strchr symbols c then Sym c :: toks (S q)
    else let e := (q + span is_word (drop q line))%nat in Word (q, e) :: toks e.
Proof.
  intros Hq Hl Hs. pose proof (drop_tail _ _ _ _ Hl) as Hl1.
  unfold toks. rewrite Hl, Hl1. unfold lx at 1. cbn [length lex]. rewrite Hs.
  destruct (c =? 62) eqn:E2.
  - destruct l as [|c' l']; [done|]. rewrite (drop_tail _ _ _ _ Hl1). cbn [length].
    destruct (c' =? 62); [|done]. f_equal. apply lex_fuel; simpl; lia.
  - destruct (strchr symbols c) eqn:E3; [done|]. cbv zeta. f_equal. rewrite <- drop_drop, Hl.
    assert (0 < span is_word (c :: l))%nat by (cbn [span]; rewrite word_start by done; lia).
    apply lex_fuel; rewrite length_drop; cbn [length]; lia.
Qed.

Definition tok_val (t : tok) : Z := match t with Sym c => c | Word _ => 97 end.

Lemma stands_pos st j : sh_buf st = buf -> (j <= es)%nat -> stands (set_sh_pos j st) (toks j).
Proof. intros. by split_and!. Qed.

(** [peek] looks at the first character of the next token. *)
Lemma peek_eq st ts set :
  stands st ts -> Forall (fun c => c ∈ symbols) set ->
  exists j, peek es set st =
    Ret (match ts with Sym c :: _ => strchr set (if c =? 43 then 62 else c) | _ => false end)
      (set_sh_pos j st) /\ stands (set_sh_pos j st) ts.
Proof.
  intros (Hb & Hp & Ht) Hset. destruct (skip_blanks _ Hp) as (Hj & Htj & Hsp).
  set (j := (sh_pos st + _)%nat) in *. exists j.
  assert (stands (set_sh_pos j st) ts) as Hst by (rewrite <- Ht, <- Htj; by apply stands_pos).
  split; [|done]. unfold peek. rewrite bind_gets, (bind_Ret _ _ _ _ _ (scan_from _ _ _ Hb Hp)).
  rewrite bind_modify. fold j. rewrite <- Ht, <- Htj.
  destruct (drop j line) as [|c l] eqn:El.
  - assert (j = es) as Ej by (pose proof (length_drop line j) as H; rewrite El in H; simpl in H; fold es in H; lia).
    rewrite Ej, (bind_Ret _ _ _ _ _ (char_end (set_sh_pos es st) Hb)). unfold toks. rewrite <- Ej, El. done.
  - assert (line !! j = Some c) as Hc by (rewrite <- (Nat.add_0_r j), <- lookup_drop, El; done).
    rewrite (bind_Ret _ _ _ _ _ (char_in (set_sh_pos j st) _ _ Hb Hc)), (next_token j c l Hj El (Hsp _ _ eq_refl)).
    assert ((c =? 0) = false) as -> by (apply Z.eqb_neq; intros ->; apply Hnul; by apply list_elem_of_lookup_2 in Hc).
    unfold ret. f_equal. simpl negb. rewrite andb_true_l.
    destruct (c =? 62) eqn:E2; [apply Z.eqb_eq in E2 as ->; by destruct l as [|c' l]; [|destruct (c' =? 62)]|].
    destruct (strchr symbols c) eqn:E3; [|].
    + destruct (Z.eqb_spec c 43) as [->|]; done.
    + apply not_true_iff_false. rewrite strchr_elem. intros Hin.
      rewrite Forall_forall in Hset. apply Hset, strchr_elem in Hin. congruence.
Qed.

(** At the end of the line there is no token left. *)
Lemma peek_last st ts :
  stands st ts ->
  exists j, peek es [] st = Ret false (set_sh_pos j st) /\ (j <= es)%nat /\ (j = es <-> ts = []).
Proof.
  intros (Hb & Hp & Ht). destruct (skip_blanks _ Hp) as (Hj & Htj & Hsp).
  set (j := (sh_pos st + _)%nat) in *. exists j.
  unfold peek. rewrite bind_gets, (bind_Ret _ _ _ _ _ (scan_from _ _ _ Hb Hp)), bind_modify. fold j.
  rewrite <- Ht, <- Htj. destruct (drop j line) as [|c l] eqn:El.
  - assert (j = es) as Ej by (pose proof (length_drop line j) as H; rewrite El in H; simpl in H; fold es in H; lia).
    rewrite Ej, (bind_Ret _ _ _ _ _ (char_end (set_sh_pos es st) Hb)). split_and!; [done | done |].
    unfold toks. rewrite <- Ej, El. done.
  - assert (line !! j = Some c) as Hc by (rewrite <- (Nat.add_0_r j), <- lookup_drop, El; done).
    rewrite (bind_Ret _ _ _ _ _ (char_in (set_sh_pos j st) _ _ Hb Hc)), (next_token j c l Hj El (Hsp _ _ eq_refl)).
    split_and!; [by rewrite andb_false_r | done |]. apply lookup_lt_Some in Hc. fold es in Hc. split; [lia|].
    destruct (c =? 62); [by destruct l as [|c' l]; [|destruct (c' =? 62)]|]. by destruct (strchr symbols c).
Qed.

(** What a token is worth: its value, and the range of a word. *)
Definition token_is (ts : list tok) (t : Z) (q e : nat) (ts' : list tok) : Prop :=
  match ts with
  | [] => t = 0 /\ ts' = []
  | Sym c :: ts1 => t = c /\ ts' = ts1
  | Word w :: ts1 => t = 97 /\ w = (q, e) /\ ts' = ts1
  end.

(** The switch of [gettoken] at the character [c]. *)
Definition token_switch (c : Z) (s : nat) : P (Z * nat) :=
  if c =? 0 then ret (c, s)
  else if strchr [124; 40; 41; 59; 38; 60] c then ret (c, S s)
  else if c =? 62 then
    c' <- char_at (S s) ;;
    if c' =? 62 then ret (43, S (S s)) else ret (c, S s)
  else
    s <- scan is_word (es - s) s ;;
    ret (97, s).

Lemma char_of s c l : drop s line = c :: l -> line !! s = Some c /\ (s < es)%nat /\ c <> 0.
Proof.
  intros El. assert (line !! s = Some c) as Hc by (rewrite <- (Nat.add_0_r s), <- lookup_drop, El; done).
  split_and!; [done | by apply lookup_lt_Some in Hc |].
  intros ->. apply Hnul. by apply list_elem_of_lookup_2 in Hc.
Qed.

Lemma at_end s : (s <= es)%nat -> drop s line = [] -> s = es.
Proof. intros H El. pose proof (length_drop line s) as Hl. rewrite El in Hl. simpl in Hl. fold es in Hl. lia. Qed.

Lemma token_switch_eq st s c l :
  sh_buf st = buf -> drop s line = c :: l -> is_space c = false ->
  exists t e, token_switch c s st = Ret (t, e) st /\ (e <= es)%nat /\ token_is (toks s) t s e (toks e).
Proof.
  intros Hb El Hsp. destruct (char_of _ _ _ El) as (Hc & Hlt & Hnz). unfold token_switch.
  rewrite (next_token s c l) by (done || lia). rewrite (proj2 (Z.eqb_neq _ _) Hnz).
  destruct (strchr [124; 40; 41; 59; 38; 60] c) eqn:E1.
  { assert ((c =? 62) = false /\ strchr symbols c = true) as [-> ->].
    { apply strchr_elem in E1. set_unfold in E1. destruct_or!; subst; done. }
    exists c, (S s). by split_and!. }
  destruct (c =? 62) eqn:E2.
  - apply Z.eqb_eq in E2 as ->. destruct l as [|c' l'].
    + pose proof (at_end (S s) Hlt (drop_tail _ _ _ _ El)) as Es. rewrite Es.
      rewrite (bind_Ret _ _ _ _ _ (char_end st Hb)). exists 62, es. by split_and!.
    + destruct (char_of _ _ _ (drop_tail _ _ _ _ El)) as (Hc' & Hlt' & _).
      rewrite (bind_Ret _ _ _ _ _ (char_in st _ _ Hb Hc')).
      destruct (c' =? 62); [exists 43, (S (S s)) | exists 62, (S s)]; by split_and!.
  - assert (strchr symbols c = false) as ->.
    { apply not_true_iff_false. rewrite strchr_elem. intros Hin. apply not_true_iff_false in E1, E2.
      rewrite strchr_elem in E1. rewrite Z.eqb_eq in E2. unfold symbols in Hin. set_solver. }
    rewrite (bind_Ret _ _ _ _ _ (scan_from is_word st s Hb ltac:(lia))).
    pose proof (span_le is_word (drop s line)) as Hl. rewrite length_drop in Hl. fold es in Hl.
    eexists 97, _. split_and!; [reflexivity | lia | done].
Qed.

Lemma gettoken_eq st ts :
  stands st ts ->
  exists t q e j ts', gettoken es st = Ret (t, q, e) (set_sh_pos j st) /\
    stands (set_sh_pos j st) ts' /\ token_is ts t q e ts'.
Proof.
  intros (Hb & Hp & Ht). destruct (skip_blanks _ Hp) as (Hj & Htj & Hsp). rewrite <- Ht, <- Htj.
  unfold gettoken. rewrite bind_gets, (bind_Ret _ _ _ _ _ (scan_from _ _ _ Hb Hp)).
  set (s := (sh_pos st + _)%nat) in *. clearbody s. cbv zeta.
  assert (exists c t e, char_at s st = Ret c st /\ token_switch c s st = Ret (t, e) st /\
    (e <= es)%nat /\ token_is (toks s) t s e (toks e)) as (c & t & e & Hc & Hsw & He & Hv).
  { destruct (drop s line) as [|c l] eqn:El.
    - pose proof (at_end s Hj El) as ->. exists 0, 0, es. split_and!; [by apply char_end | done | done |].
      unfold toks. by rewrite El.
    - destruct (char_of _ _ _ El) as (Hc & _). exists c.
      destruct (token_switch_eq st s c l Hb El (Hsp _ _ eq_refl)) as (t & e & H).
      exists t, e. split; [by apply char_in | done]. }
  destruct (skip_blanks _ He) as (Hj' & Htj' & _).
  exists t, s, e, (e + span is_space (drop e line))%nat, (toks e). split_and!; [| |done].
  - rewrite (bind_Ret _ _ _ _ _ Hc). fold (token_switch c s). rewrite (bind_Ret _ _ _ _ _ Hsw).
    by rewrite (bind_Ret _ _ _ _ _ (scan_from _ _ _ Hb He)).
  - rewrite <- Htj'. by apply stands_pos.
Qed.
End scanner.

(** ** A parser of tokens

    The same recursive descent on a list of tokens, which returns what it has recognised
    and the tokens left; [None] where sh.c calls [panic]. *)

Definition is_sign (c : Z) : bool := strchr [60; 62; 43] c.
Definition is_stop (c : Z) : bool := strchr [124; 41; 38; 59] c.

Fixpoint predirs (ts : list tok) : option (list redir * list tok) :=
  match ts with
  | Sym c :: ts1 =>
      if is_sign c then
        match ts1 with
        | Word w :: ts2 => predirs ts2 ≫= fun '(rs, rest) => Some ((c, w) :: rs, rest)
        | _ => None
        end
      else Some ([], ts)
  | _ => Some ([], ts)
  end.

Fixpoint pargs (fuel k : nat) (ts : list tok) : option (list (word * list redir) * list tok) :=
  match fuel with
  | O => None
  | S fuel =>
      match ts with
      | [] => Some ([], [])
      | Sym c :: _ => if is_stop c then Some ([], ts) else None
      | Word w :: ts1 =>
          if (MAXARGS <=? S k)%nat then None else
          predirs ts1 ≫= fun '(rs, ts2) =>
          pargs fuel (S k) ts2 ≫= fun '(items, ts3) =>
          Some ((w, rs) :: items, ts3)
      end
  end.

Definition psimple (ts : list tok) : option (exe * list tok) :=
  predirs ts ≫= fun '(rs, ts1) =>
  pargs (S (length ts1)) 0 ts1 ≫= fun '(items, ts2) =>
  Some (Simple rs items, ts2).

Fixpoint pbacks (ts : list tok) : nat * list tok :=
  match ts with
  | Sym c :: ts1 => if c =? 38 then let '(n, r) := pbacks ts1 in (S n, r) else (O, ts)
  | _ => (O, ts)
  end.

(** The next token is the symbol [c]. *)
Definition next_sym (c : Z) (ts : list tok) : option (list tok) :=
  match ts with
  | Sym c' :: ts1 => if c' =? c then Some ts1 else None
  | _ => None
  end.

Fixpoint plin (fuel : nat) (ts : list tok) : option (lin * list tok) :=
  match fuel with
  | O => None
  | S fuel =>
      ppip fuel ts ≫= fun '(p, ts1) =>
      let '(n, ts2) := pbacks ts1 in
      match next_sym 59 ts2 with
      | Some ts3 => plin fuel ts3 ≫= fun '(l, ts4) => Some (Lin p n (Some l), ts4)
      | None => Some (Lin p n None, ts2)
      end
  end
with ppip (fuel : nat) (ts : list tok) : option (pip * list tok) :=
  match fuel with
  | O => None
  | S fuel =>
      pexe fuel ts ≫= fun '(e, ts1) =>
      match next_sym 124 ts1 with
      | Some ts2 => ppip fuel ts2 ≫= fun '(p, ts3) => Some (Pip e (Some p), ts3)
      | None => Some (Pip e None, ts1)
      end
  end
with pexe (fuel : nat) (ts : list tok) : option (exe * list tok) :=
  match fuel with
  | O => None
  | S fuel =>
      match next_sym 40 ts with
      | Some ts1 => pblk fuel ts1
      | None => psimple ts
      end
  end
with pblk (fuel : nat) (ts : list tok) : option (exe * list tok) :=
  match fuel with
  | O => None
  | S fuel =>
      plin fuel ts ≫= fun '(l, ts1) =>
      next_sym 41 ts1 ≫= fun ts2 =>
      predirs ts2 ≫= fun '(rs, ts3) =>
      Some (Block l rs, ts3)
  end.

(** *** It recognises only lines of the grammar *)

Lemma sign_ok c : is_sign c = true <-> c = 60 \/ c = 62 \/ c = 43.
Proof. unfold is_sign. rewrite strchr_elem. set_solver. Qed.

Lemma next_sym_Some c ts ts1 : next_sym c ts = Some ts1 -> ts = Sym c :: ts1.
Proof.
  destruct ts as [|[c'|w] ts]; simpl; try done. destruct (Z.eqb_spec c' c) as [->|]; [|done].
  by intros [= ->].
Qed.

Lemma predirs_sound n : forall ts rs rest,
  (length ts <= n)%nat -> predirs ts = Some (rs, rest) -> ts = show_redirs rs ++ rest /\ Forall redir_ok rs.
Proof.
  induction n as [|n IH]; intros ts rs rest Hn H.
  - destruct ts; [|simpl in Hn; lia]. injection H as <- <-. by split.
  - destruct ts as [|[c|w] ts1]; [by injection H as <- <- | | by injection H as <- <-].
    simpl in H. destruct (is_sign c) eqn:Ec; [|by injection H as <- <-].
    destruct ts1 as [|[c'|w] ts2]; [done | done|].
    destruct (predirs ts2) as [[rs' rest']|] eqn:E; [|done]. injection H as <- <-.
    destruct (IH ts2 rs' rest') as [-> Hok]; [simpl in Hn; lia | done|].
    split; [done|]. constructor; [by apply sign_ok | done].
Qed.

Lemma pargs_sound n : forall k ts items rest,
  pargs n k ts = Some (items, rest) ->
  ts = show_items items ++ rest /\ Forall (fun it => Forall redir_ok (snd it)) items /\
  (items = [] \/ k + length items < MAXARGS)%nat.
Proof.
  induction n as [|n IH]; intros k ts items rest H; [done|]. cbn [pargs] in H.
  destruct ts as [|[c|w] ts1]; [injection H as <- <-; auto | destruct (is_stop c); [injection H as <- <-; auto | done]|].
  destruct (MAXARGS <=? S k)%nat eqn:Ek; [done|]. apply Nat.leb_gt in Ek.
  destruct (predirs ts1) as [[rs ts2]|] eqn:E1; [|done]. simpl in H.
  destruct (pargs n (S k) ts2) as [[items' ts3]|] eqn:E2; [|done]. injection H as <- <-.
  apply (predirs_sound (length ts1)) in E1 as [-> Hrs]; [|done].
  apply IH in E2 as (-> & Hit & Hlen). split_and!; [rewrite show_items_cons; simpl; by rewrite <- app_assoc | by constructor |].
  right. simpl. destruct Hlen as [->|]; simpl; lia.
Qed.

Lemma psimple_sound ts e rest : psimple ts = Some (e, rest) -> ts = show_exe e ++ rest /\ exe_ok e.
Proof.
  unfold psimple. destruct (predirs ts) as [[rs ts1]|] eqn:E1; [|done]. cbn [mbind option_bind].
  destruct (pargs _ 0 ts1) as [[items ts2]|] eqn:E2; [|done]. simpl. intros [= <- <-].
  apply (predirs_sound (length ts)) in E1 as [-> Hrs]; [|done].
  apply pargs_sound in E2 as (-> & Hit & Hlen). simpl. rewrite app_assoc. split_and!; try done.
  unfold MAXARGS in *. destruct Hlen as [->|]; simpl; lia.
Qed.

Lemma pbacks_sound ts n rest :
  pbacks ts = (n, rest) -> ts = replicate n (Sym 38) ++ rest /\ next_sym 38 rest = None.
Proof.
  revert n. induction ts as [|[c|w] ts IH]; intros n; simpl; [by intros [= <- <-] | | by intros [= <- <-]].
  destruct (Z.eqb_spec c 38) as [->|Hne].
  - destruct (pbacks ts) as [n' r]. intros [= <- <-]. destruct (IH n' eq_refl) as [-> ?]. done.
  - intros [= <- <-]. split; [done|]. simpl. by rewrite (proj2 (Z.eqb_neq c 38) Hne).
Qed.

Lemma parse_sound n :
  (forall ts l rest, plin n ts = Some (l, rest) -> ts = show_lin l ++ rest /\ lin_ok l) /\
  (forall ts p rest, ppip n ts = Some (p, rest) -> ts = show_pip p ++ rest /\ pip_ok p) /\
  (forall ts e rest, pexe n ts = Some (e, rest) -> ts = show_exe e ++ rest /\ exe_ok e) /\
  (forall ts e rest, pblk n ts = Some (e, rest) -> Sym 40 :: ts = show_exe e ++ rest /\ exe_ok e).
Proof.
  induction n as [|n (IHl & IHp & IHe & IHb)]; [done|]. split_and!; intros ts x rest H; simpl in H.
  - destruct (ppip n ts) as [[p ts1]|] eqn:Ep; [|done]. simpl in H.
    apply IHp in Ep as [-> Hp]. destruct (pbacks ts1) as [k ts2] eqn:Eb.
    apply pbacks_sound in Eb as [-> _]. destruct (next_sym 59 ts2) as [ts3|] eqn:En.
    + apply next_sym_Some in En as ->. destruct (plin n ts3) as [[l ts4]|] eqn:El; [|done].
      injection H as <- <-. apply IHl in El as [-> Hl]. simpl. by rewrite <- !app_assoc.
    + injection H as <- <-. simpl. by rewrite app_nil_r, <- !app_assoc.
  - destruct (pexe n ts) as [[e ts1]|] eqn:Ee; [|done]. simpl in H. apply IHe in Ee as [-> He].
    destruct (next_sym 124 ts1) as [ts2|] eqn:En.
    + apply next_sym_Some in En as ->. destruct (ppip n ts2) as [[p ts3]|] eqn:Ep; [|done].
      injection H as <- <-. apply IHp in Ep as [-> Hp]. simpl. by rewrite <- !app_assoc.
    + injection H as <- <-. simpl. by rewrite app_nil_r.
  - destruct (next_sym 40 ts) as [ts1|] eqn:En; [|by apply psimple_sound].
    apply next_sym_Some in En as ->. by apply IHb.
  - destruct (plin n ts) as [[l ts1]|] eqn:El; [|done]. simpl in H. apply IHl in El as [-> Hl].
    destruct (next_sym 41 ts1) as [ts2|] eqn:En; [|done]. simpl in H. apply next_sym_Some in En as ->.
    destruct (predirs ts2) as [[rs ts3]|] eqn:Er; [|done]. injection H as <- <-.
    apply (predirs_sound (length ts2)) in Er as [-> Hrs]; [|done]. simpl. by rewrite <- !app_assoc.
Qed.

(** *** It recognises every line of the grammar *)

(** The tokens left are none or start with a symbol of [set]. *)
Definition follows (set : list Z) (ts : list tok) : Prop :=
  match ts with
  | [] => True
  | Sym c :: _ => c ∈ set
  | Word _ :: _ => False
  end.

Lemma follows_weaken set set' ts : set ⊆ set' -> follows set ts -> follows set' ts.
Proof. destruct ts as [|[c|w] ts]; simpl; set_solver. Qed.

Lemma next_sym_follows c set ts : follows set ts -> c ∉ set -> next_sym c ts = None.
Proof.
  destruct ts as [|[c'|w] ts]; simpl; [done | | done]. intros Hin Hn.
  by rewrite (proj2 (Z.eqb_neq c' c)) by (intros ->; auto).
Qed.

Lemma next_sym_eq c ts : next_sym c (Sym c :: ts) = Some ts.
Proof. simpl. by rewrite Z.eqb_refl. Qed.

Lemma predirs_stop ts : (forall c ts1, ts = Sym c :: ts1 -> is_sign c = false) -> predirs ts = Some ([], ts).
Proof. destruct ts as [|[c|w] ts]; simpl; [done | | done]. intros H. by rewrite (H c ts eq_refl). Qed.

Lemma predirs_complete rs rest :
  Forall redir_ok rs -> (forall c ts1, rest = Sym c :: ts1 -> is_sign c = false) ->
  predirs (show_redirs rs ++ rest) = Some (rs, rest).
Proof.
  intros Hrs Hrest. induction Hrs as [|[c w] rs Hc Hrs IH]; [by apply predirs_stop|].
  change (show_redirs ((c, w) :: rs) ++ rest) with (Sym c :: Word w :: (show_redirs rs ++ rest)).
  cbn [predirs]. rewrite (proj2 (sign_ok c)) by done. by rewrite IH.
Qed.

(** What follows a command. *)
Lemma stop_not_sign rest :
  follows [124; 41; 38; 59] rest -> forall c ts1, rest = Sym c :: ts1 -> is_sign c = false.
Proof.
  intros H c ts1 ->. simpl in H. apply not_true_iff_false. rewrite sign_ok. set_solver.
Qed.

Lemma items_not_sign items rest :
  follows [124; 41; 38; 59] rest ->
  forall c ts1, show_items items ++ rest = Sym c :: ts1 -> is_sign c = false.
Proof.
  intros H. destruct items as [|[w rs] items]; [apply (stop_not_sign rest H)|]. by intros c ts1 [=].
Qed.

Lemma pargs_complete items rest : forall n k,
  Forall (fun it => Forall redir_ok (snd it)) items -> (k + length items < MAXARGS)%nat ->
  follows [124; 41; 38; 59] rest -> (length items < n)%nat ->
  pargs n k (show_items items ++ rest) = Some (items, rest).
Proof.
  induction items as [|[w rs] items IH]; intros n k Hit Hk Hf Hn; (destruct n as [|n]; [lia|]).
  - simpl. destruct rest as [|[c|w] rest]; [done | | done]. simpl in Hf.
    assert (is_stop c = true) as -> by (by apply strchr_elem). done.
  - apply Forall_cons in Hit as [Hrs Hit].
    rewrite show_items_cons, <- app_comm_cons, <- app_assoc.
    cbn [pargs]. cbn [length] in *. rewrite (proj2 (Nat.leb_gt _ _)) by lia.
    rewrite predirs_complete by (done || by apply items_not_sign). cbn [mbind option_bind].
    by rewrite IH by (done || lia).
Qed.

Lemma show_items_length items : (length items <= length (show_items items))%nat.
Proof.
  induction items as [|[w rs] items IH]; [done|]. rewrite show_items_cons. cbn [length].
  rewrite length_app. lia.
Qed.

Lemma psimple_complete rs items rest :
  exe_ok (Simple rs items) -> follows [124; 41; 38; 59] rest ->
  psimple (show_exe (Simple rs items) ++ rest) = Some (Simple rs items, rest).
Proof.
  intros (Hrs & Hit & Hlen) Hf. unfold psimple. cbn [show_exe]. rewrite <- app_assoc.
  rewrite predirs_complete by (done || by apply items_not_sign). cbn [mbind option_bind].
  rewrite pargs_complete; [done | done | lia | done |].
  pose proof (show_items_length items). rewrite length_app. lia.
Qed.

Lemma pbacks_complete n rest :
  next_sym 38 rest = None -> pbacks (replicate n (Sym 38) ++ rest) = (n, rest).
Proof.
  intros H. induction n as [|n IH]; simpl; [|by rewrite IH].
  destruct rest as [|[c|w] rest]; [done | | done]. simpl in *. by destruct (c =? 38).
Qed.

(** A command in words does not start with a parenthesis. *)
Lemma simple_start rs items rest :
  exe_ok (Simple rs items) -> follows [124; 41; 38; 59] rest ->
  next_sym 40 (show_exe (Simple rs items) ++ rest) = None.
Proof.
  intros (Hrs & _) Hf. cbn [show_exe]. destruct rs as [|[c w] rs]; simpl.
  - destruct items as [|[w rs] items]; [|done]. by apply (next_sym_follows _ _ _ Hf); set_solver.
  - apply Forall_cons in Hrs as [Hc _]. unfold redir_ok in Hc. simpl in Hc.
    by rewrite (proj2 (Z.eqb_neq c 40)) by lia.
Qed.

Lemma parse_complete n :
  (forall l rest, (4 * length (show_lin l) + 4 <= n)%nat -> lin_ok l -> follows [41] rest ->
     plin n (show_lin l ++ rest) = Some (l, rest)) /\
  (forall p rest, (4 * length (show_pip p) + 3 <= n)%nat -> pip_ok p -> follows [41; 38; 59] rest ->
     ppip n (show_pip p ++ rest) = Some (p, rest)) /\
  (forall e rest, (4 * length (show_exe e) + 2 <= n)%nat -> exe_ok e -> follows [124; 41; 38; 59] rest ->
     pexe n (show_exe e ++ rest) = Some (e, rest)) /\
  (forall l rs rest, (4 * length (show_exe (Block l rs)) + 1 <= n)%nat -> exe_ok (Block l rs) ->
     follows [124; 41; 38; 59] rest ->
     pblk n (show_lin l ++ Sym 41 :: show_redirs rs ++ rest) = Some (Block l rs, rest)).
Proof.
  induction n as [|n (IHl & IHp & IHe & IHb)]; [split_and!; intros; lia|]. split_and!.
  - intros [p k [l|]] rest Hn [Hp Hl] Hf; cbn [show_lin plin] in *; rewrite <- !app_assoc;
      rewrite !length_app, ?length_replicate in Hn; cbn [length] in Hn.
    + rewrite IHp; [|lia | done | destruct k; simpl; set_solver]. cbn [mbind option_bind].
      rewrite pbacks_complete by done. simpl app. rewrite next_sym_eq.
      rewrite IHl; [done | lia | done | done].
    + rewrite IHp; [|lia | done | destruct k; simpl; [apply (follows_weaken [41]); [set_solver | done] | set_solver]].
      cbn [mbind option_bind]. rewrite app_nil_l, pbacks_complete by (by apply (next_sym_follows _ _ _ Hf); set_solver).
      by rewrite (next_sym_follows 59 _ _ Hf) by set_solver.
  - intros [e [p|]] rest Hn [He Hp] Hf; cbn [show_pip ppip] in *; rewrite <- !app_assoc;
      rewrite !length_app in Hn; cbn [length] in Hn.
    + rewrite IHe; [|lia | done | simpl; set_solver]. cbn [mbind option_bind]. simpl app. rewrite next_sym_eq.
      rewrite IHp; [done | lia | done | done].
    + rewrite IHe; [|lia | done | apply (follows_weaken [41; 38; 59]); [set_solver | done]].
      cbn [mbind option_bind]. rewrite app_nil_l. by rewrite (next_sym_follows 124 _ _ Hf) by set_solver.
  - intros [rs items|l rs] rest Hn He Hf; cbn [pexe].
    + rewrite simple_start by done. by apply psimple_complete.
    + cbn [show_exe]. rewrite <- app_comm_cons, <- app_assoc, next_sym_eq.
      apply (IHb l rs rest); [lia | done | done].
  - intros l rs rest Hn [Hl Hrs] Hf. cbn [show_exe pblk length] in *. rewrite length_app in Hn. cbn [length] in Hn.
    rewrite IHl; [|lia | done | simpl; set_solver]. cbn [mbind option_bind]. rewrite next_sym_eq.
    cbn [mbind option_bind]. by rewrite predirs_complete by (done || by apply stop_not_sign).
Qed.
