(* ===== verification/ShellParse.v ===== *)
(** * The shell's parser

    sh.c's parser, with its buffer and heap, implements the parser of tokens of
    ShellSpec.v: it accepts exactly the lines of the grammar and builds their commands. *)

From S2P Require Import Prelude Monad KState Sysfile Shell ShellSpec.

Local Open Scope kernel_scope.

(** ** Commands in the heap *)

(** Pointers go to older nodes. *)
Definition below (p : ptr) (i : nat) : Prop := match p with Some j => (j < i)%nat | None => False end.

(** The slots of a vector holding [l]. *)
Definition slots (l : list nat) : list (option nat) := (Some <$> l) ++ replicate (MAXARGS - length l) None.

Fixpoint repr (h : list node) (p : ptr) (c : cmd word) : Prop :=
  match c with
  | CExec ws => exists i, p = Some i /\ (length ws < MAXARGS)%nat /\
      h !! i = Some (EXEC (slots (fst <$> ws)) (slots (snd <$> ws)))
  | CRedir c w mode fd => exists i p', p = Some i /\ below p' i /\
      h !! i = Some (REDIR p' (fst w) (snd w) mode fd) /\ repr h p' c
  | CPipe l r => exists i pl pr, p = Some i /\ below pl i /\ below pr i /\
      h !! i = Some (PIPE pl pr) /\ repr h pl l /\ repr h pr r
  | CList l r => exists i pl pr, p = Some i /\ below pl i /\ below pr i /\
      h !! i = Some (LIST pl pr) /\ repr h pl l /\ repr h pr r
  | CBack c => exists i p', p = Some i /\ below p' i /\ h !! i = Some (BACK p') /\ repr h p' c
  end.

Lemma repr_below h p c : repr h p c -> below p (length h).
Proof.
  destruct c; simpl;
    [intros (i & -> & _ & H) | intros (i & p' & -> & _ & H & _) | intros (i & pl & pr & -> & _ & _ & H & _)
    | intros (i & pl & pr & -> & _ & _ & H & _) | intros (i & p' & -> & _ & H & _)];
    simpl; by eapply lookup_lt_Some.
Qed.

Lemma repr_ext h h' p c : h `prefix_of` h' -> repr h p c -> repr h' p c.
Proof.
  intros [k ->]. revert p.
  induction c as [ws|c IH w mode fd|l IHl r IHr|l IHl r IHr|c IH]; simpl; intros p.
  - intros (i & -> & Hl & H). exists i. eauto using lookup_app_l_Some.
  - intros (i & p' & -> & Hb & H & Hc). exists i, p'. split_and!; eauto using lookup_app_l_Some.
  - intros (i & pl & pr & -> & Hb & Hb' & H & Hl & Hr). exists i, pl, pr. split_and!; eauto using lookup_app_l_Some.
  - intros (i & pl & pr & -> & Hb & Hb' & H & Hl & Hr). exists i, pl, pr. split_and!; eauto using lookup_app_l_Some.
  - intros (i & p' & -> & Hb & H & Hc). exists i, p'. split_and!; eauto using lookup_app_l_Some.
Qed.

(** [r] is the pointer [base] under the redirections [l], the last one first. *)
Fixpoint chain (h : list node) (r base : ptr) (l : list redir) : Prop :=
  match l with
  | [] => r = base
  | x :: l' => exists i r', r = Some i /\ below r' i /\
      h !! i = Some (REDIR r' (fst (snd x)) (snd (snd x)) (redir_mode (fst x)) (redir_fd (fst x))) /\
      chain h r' base l'
  end.

Lemma chain_app h r r1 base l1 l2 : chain h r r1 l1 -> chain h r1 base l2 -> chain h r base (l1 ++ l2).
Proof.
  revert r. induction l1 as [|x l1 IH]; simpl; intros r; [by intros ->|].
  intros (i & r' & -> & Hb & Hn & Hc) H2. exists i, r'. split_and!; auto.
Qed.

Lemma chain_ext h h' r base l : h `prefix_of` h' -> chain h r base l -> chain h' r base l.
Proof.
  intros [k ->]. revert r. induction l as [|x l IH]; simpl; intros r; [done|].
  intros (i & r' & -> & Hb & Hn & Hc). exists i, r'. split_and!; eauto using lookup_app_l_Some.
Qed.

(** A chain runs over REDIR nodes only. *)
Lemma chain_insert h r base l c n argv eargv :
  h !! c = Some (EXEC argv eargv) -> chain h r base l -> chain (<[c := n]> h) r base l.
Proof.
  intros Hc. revert r. induction l as [|x l IH]; simpl; intros r; [done|].
  intros (i & r' & -> & Hb & Hn & Hch). exists i, r'. split_and!; [done | done | | auto].
  rewrite list_lookup_insert_ne; [done|]. intros ->. congruence.
Qed.

Lemma chain_repr h r base rs c : chain h r base (rev rs) -> repr h base c -> repr h r (wrap rs c).
Proof.
  revert r. induction rs as [|x rs IH] using rev_ind; intros r; [by intros ->|].
  rewrite rev_unit. simpl. intros (i & r' & -> & Hb & Hn & Hc) Hr. unfold wrap. rewrite fold_left_app. simpl.
  exists i, r'. split_and!; [done | done | done |]. by apply IH.
Qed.

Lemma chain_below h r base l n : below base n -> (n <= length h)%nat -> chain h r base l -> below r (length h).
Proof.
  destruct l as [|x l]; simpl.
  - intros Hb Hn ->. destruct base; simpl in *; [lia | done].
  - intros _ _ (i & r' & -> & _ & Hn & _). by eapply lookup_lt_Some.
Qed.

(** ** The parser *)

Section parser.
Context (line tail : list Z).
Hypothesis Hnul : 0 ∉ line.
Let es := length line.

(** [st'] comes after [st], with new nodes, at most [used] of them. *)
Definition grows (st st' : shst) (used : nat) : Prop :=
  sh_heap st `prefix_of` sh_heap st' /\ (sh_room st <= sh_room st' + used)%nat /\ sh_err st' = sh_err st.

Lemma grows_refl st j : grows st (set_sh_pos j st) 0.
Proof. split_and!; [done | simpl; lia | done]. Qed.

Lemma grows_trans st1 st2 st3 a b : grows st1 st2 a -> grows st2 st3 b -> grows st1 st3 (a + b).
Proof. intros (H1 & H2 & H3) (H4 & H5 & H6). split_and!; [by etrans | lia | congruence]. Qed.

Lemma grows_le st st' a b : (a <= b)%nat -> grows st st' a -> grows st st' b.
Proof. intros H (H1 & H2 & H3). split_and!; [done | lia | done]. Qed.

Lemma stands_same st st' ts :
  sh_buf st' = sh_buf st -> sh_pos st' = sh_pos st -> stands line tail st ts -> stands line tail st' ts.
Proof. unfold stands. by intros -> ->. Qed.

(** A node more. *)
Definition with_node (n : node) (st : shst) : shst :=
  set_sh_heap (sh_heap st ++ [n]) (sh_room st - 1) st.

Lemma new_node_eq n st :
  (0 < sh_room st)%nat -> new_node n st = Ret (Some (length (sh_heap st))) (with_node n st).
Proof.
  intros H. unfold new_node, with_node. rewrite bind_gets. destruct (sh_room st) as [|r] eqn:E; [lia|].
  rewrite bind_gets, bind_modify. simpl. by rewrite Nat.sub_0_r.
Qed.

Lemma with_node_grows n st : (0 < sh_room st)%nat -> grows st (with_node n st) 1.
Proof. intros. split_and!; [by exists [n] | simpl; lia | done]. Qed.

Lemma with_node_lookup n st : sh_heap (with_node n st) !! length (sh_heap st) = Some n.
Proof. simpl. by rewrite lookup_app_r, Nat.sub_diag by lia. Qed.

(** The tokens left are at most the characters left. *)
Lemma tokens_bound st ts : stands line tail st ts -> (length ts <= es)%nat.
Proof.
  intros (_ & _ & <-). etrans; [apply lex_length|]. rewrite length_drop. fold es. lia.
Qed.

Lemma line_bound_eq st ts : stands line tail st ts -> line_bound st = Ret (S (es + S (length tail))) st.
Proof. intros (Hb & _). unfold line_bound. rewrite bind_gets, Hb, length_app. done. Qed.

(** [peek] and [gettoken] on the tokens, moving the position only. *)
Definition moved (st st' : shst) : Prop := exists j, st' = set_sh_pos j st.

Lemma moved_trans st1 st2 st3 : moved st1 st2 -> moved st2 st3 -> moved st1 st3.
Proof. intros [j ->] [k ->]. by exists k. Qed.

Lemma moved_grows st st' : moved st st' -> grows st st' 0.
Proof. intros [j ->]. apply grows_refl. Qed.

Lemma moved_heap st st' : moved st st' -> sh_heap st' = sh_heap st /\ sh_room st' = sh_room st.
Proof. by intros [j ->]. Qed.

Lemma peek_run st ts set :
  stands line tail st ts -> Forall (fun c => c ∈ symbols) set ->
  exists st', peek es set st =
    Ret (match ts with Sym c :: _ => strchr set (if c =? 43 then 62 else c) | _ => false end) st' /\
    stands line tail st' ts /\ moved st st'.
Proof.
  intros Hst Hset. destruct (peek_eq line tail Hnul st ts set Hst Hset) as (j & H1 & H2).
  exists (set_sh_pos j st). split_and!; [done | done | by exists j].
Qed.

Lemma gettoken_run st ts :
  stands line tail st ts ->
  exists t q e st' ts', gettoken es st = Ret (t, q, e) st' /\ stands line tail st' ts' /\
    moved st st' /\ token_is ts t q e ts'.
Proof.
  intros Hst. destruct (gettoken_eq line tail Hnul st ts Hst) as (t & q & e & j & ts' & H1 & H2 & H3).
  exists t, q, e, (set_sh_pos j st), ts'. split_and!; [done | done | by exists j | done].
Qed.

(** A word's token is told from all others. *)
Lemma not_word st ts t q e ts' :
  stands line tail st ts -> token_is ts t q e ts' -> t = 97 -> exists w, ts = Word w :: ts' /\ w = (q, e).
Proof.
  intros Hst Ht ->. apply (stands_ok line tail) in Hst. destruct ts as [|[c|w] ts]; simpl in Ht.
  - by destruct Ht.
  - destruct Ht as [<- ->]. apply Forall_inv in Hst. simpl in Hst. unfold symbols in Hst. set_solver.
  - destruct Ht as (_ & -> & ->). eauto.
Qed.

(** *** Redirections *)

Definition redirs_body (cmd : ptr) : P (ptr + ptr) :=
  more <- peek es [60; 62] ;;
  if (more : bool) then
    ' (tok, _, _) <- gettoken es ;;
    ' (t, q, eq) <- gettoken es ;;
    if negb (t =? 97) then panic "missing file for redirection" else
    cmd <- (if tok =? 60 then redircmd cmd q eq O_RDONLY 0
            else if tok =? 62 then redircmd cmd q eq (Z.lor O_WRONLY O_CREATE) 1
            else if tok =? 43 then redircmd cmd q eq (Z.lor O_WRONLY O_CREATE) 1
            else ret cmd) ;;
    ret (inl cmd)
  else ret (inr cmd).

Lemma redir_node tok cmd q eq :
  is_sign tok = true ->
  (if tok =? 60 then redircmd cmd q eq O_RDONLY 0
   else if tok =? 62 then redircmd cmd q eq (Z.lor O_WRONLY O_CREATE) 1
   else if tok =? 43 then redircmd cmd q eq (Z.lor O_WRONLY O_CREATE) 1
   else ret cmd) = new_node (REDIR cmd q eq (redir_mode tok) (redir_fd tok)).
Proof. intros [->|[->| ->]]%sign_ok; done. Qed.

Lemma peek_sign c : strchr [60; 62] (if c =? 43 then 62 else c) = is_sign c.
Proof.
  destruct (Z.eqb_spec c 43) as [->|]; [done|]. apply eq_iff_eq_true.
  unfold is_sign. rewrite !strchr_elem. set_solver.
Qed.

Lemma redirs_stop st ts cmd :
  stands line tail st ts -> (forall c ts1, ts = Sym c :: ts1 -> is_sign c = false) ->
  exists st', redirs_body cmd st = Ret (inr cmd) st' /\ stands line tail st' ts /\ moved st st'.
Proof.
  intros Hst Hs. unfold redirs_body.
  destruct (peek_run st ts [60; 62] Hst) as (st1 & Hp & Hst1 & Hm); [repeat constructor; set_solver|].
  rewrite (bind_Ret _ _ _ _ _ Hp). exists st1. split; [|done].
  destruct ts as [|[c|w] ts]; [done | | done]. by rewrite peek_sign, (Hs c ts eq_refl).
Qed.

Lemma redirs_step st c ts1 cmd :
  stands line tail st (Sym c :: ts1) -> is_sign c = true -> (0 < sh_room st)%nat ->
  match ts1 with
  | Word w :: ts2 => exists st1, moved st st1 /\ stands line tail st1 ts2 /\
      redirs_body cmd st = Ret (inl (Some (length (sh_heap st))))
        (with_node (REDIR cmd (fst w) (snd w) (redir_mode c) (redir_fd c)) st1)
  | _ => exists msg st', redirs_body cmd st = Panic msg st'
  end.
Proof.
  intros Hst Hs Hr. unfold redirs_body.
  destruct (peek_run st _ [60; 62] Hst) as (st1 & Hp & Hst1 & Hm1); [repeat constructor; set_solver|].
  rewrite (bind_Ret _ _ _ _ _ Hp), peek_sign, Hs.
  destruct (gettoken_run st1 _ Hst1) as (t & q & e & st2 & ts' & Hg & Hst2 & Hm2 & -> & ->).
  rewrite (bind_Ret _ _ _ _ _ Hg).
  destruct (gettoken_run st2 _ Hst2) as (t' & q' & e' & st3 & ts' & Hg' & Hst3 & Hm3 & Ht).
  destruct (Z.eqb_spec t' 97) as [E|E].
  - destruct (not_word _ _ _ _ _ _ Hst2 Ht E) as (w & -> & ->).
    assert (moved st st3) as Hm by eauto using moved_trans.
    destruct (moved_heap _ _ Hm) as [Eh Er].
    exists st3. split_and!; [done | done |]. rewrite (bind_Ret _ _ _ _ _ Hg'), E. cbn [Z.eqb Pos.eqb negb].
    rewrite redir_node by done. rewrite (bind_Ret _ _ _ _ _ (new_node_eq _ st3 ltac:(lia))). by rewrite Eh.
  - assert (exists msg st', (' (t, q, eq) <- gettoken es ;;
      if negb (t =? 97) then panic "missing file for redirection" else
      cmd <- (if c =? 60 then redircmd cmd q eq O_RDONLY 0
              else if c =? 62 then redircmd cmd q eq (Z.lor O_WRONLY O_CREATE) 1
              else if c =? 43 then redircmd cmd q eq (Z.lor O_WRONLY O_CREATE) 1
              else ret cmd) ;;
      ret (@inl ptr ptr cmd)) st2 = Panic msg st') as H.
    { eexists _, _. rewrite (bind_Ret _ _ _ _ _ Hg'), (proj2 (Z.eqb_neq _ _) E). reflexivity. }
    destruct ts1 as [|[c'|w] ts2]; [exact H | exact H |]. by destruct Ht.
Qed.

Lemma redirs_loop k : forall ts n st cmd,
  (length ts <= k)%nat -> stands line tail st ts -> (length ts < n)%nat -> (length ts <= sh_room st)%nat ->
  below cmd (length (sh_heap st)) ->
  match predirs ts with
  | Some (rs, rest) => exists r st', loop n redirs_body cmd st = Ret r st' /\ stands line tail st' rest /\
      chain (sh_heap st') r cmd (rev rs) /\ grows st st' (length rs)
  | None => exists msg st', loop n redirs_body cmd st = Panic msg st'
  end.
Proof.
  induction k as [|k IH]; intros ts n st cmd Hk Hst Hn Hr Hb; (destruct n as [|n]; [lia|]).
  all: assert ((forall c ts1, ts = Sym c :: ts1 -> is_sign c = false) ->
    exists r st', loop (S n) redirs_body cmd st = Ret r st' /\ stands line tail st' ts /\
      chain (sh_heap st') r cmd (rev []) /\ grows st st' 0) as Hstop
    by (intros Hs; destruct (redirs_stop st ts cmd Hst Hs) as (st' & H1 & H2 & H3);
        exists cmd, st'; split_and!; [by apply loop_done | done | done | by apply moved_grows]).
  - destruct ts; [by apply Hstop | simpl in Hk; lia].
  - destruct ts as [|[c|w] ts1]; [by apply Hstop | | by apply Hstop].
    cbn [predirs]. destruct (is_sign c) eqn:Ec; [|apply Hstop; by intros c' ts' [= <- _]].
    cbn [length] in *. pose proof (redirs_step st c ts1 cmd Hst Ec ltac:(lia)) as Hstep.
    destruct ts1 as [|[c'|w] ts2];
      [destruct Hstep as (msg & st' & Hs); exists msg, st'; simpl; by rewrite (bind_Panic _ _ _ _ _ Hs) ..|].
    destruct Hstep as (st1 & Hm & Hst1 & Hs). destruct (moved_heap _ _ Hm) as [Eh Er]. cbn [length] in *.
    set (nd := REDIR _ _ _ _ _) in Hs. set (st2 := with_node nd st1) in *.
    assert (grows st st2 1) as Hg
      by (apply (grows_trans _ st1 _ 0 1); [by apply moved_grows | apply with_node_grows; lia]).
    rewrite (loop_next _ _ _ _ _ _ Hs).
    specialize (IH ts2 n st2 (Some (length (sh_heap st)))). destruct (predirs ts2) as [[rs rest]|].
    + destruct IH as (r & st' & Hl & Hst' & Hch & Hg'); [lia | by apply (stands_same st1) | lia
        | simpl; lia | simpl; rewrite Eh, length_app; simpl; lia |].
      exists r, st'. split_and!; [done | done | | exact (grows_trans _ _ _ 1 (length rs) Hg Hg')].
      cbn [rev]. eapply chain_app; [exact Hch|].
      apply (chain_ext (sh_heap st2)); [apply Hg'|].
      exists (length (sh_heap st)), cmd. split_and!; [done | done | rewrite <- Eh; by apply with_node_lookup | done].
    + apply IH; [lia | by apply (stands_same st1) | lia | simpl; lia | simpl; rewrite Eh, length_app; simpl; lia].
Qed.

Lemma parseredirs_run st ts cmd :
  stands line tail st ts -> (length ts <= sh_room st)%nat -> below cmd (length (sh_heap st)) ->
  match predirs ts with
  | Some (rs, rest) => exists r st', parseredirs cmd es st = Ret r st' /\ stands line tail st' rest /\
      chain (sh_heap st') r cmd (rev rs) /\ grows st st' (length rs)
  | None => exists msg st', parseredirs cmd es st = Panic msg st'
  end.
Proof.
  intros Hst Hr Hb. pose proof (tokens_bound st ts Hst) as Hn.
  pose proof (redirs_loop (length ts) ts (S (es + S (length tail))) st cmd) as H.
  unfold parseredirs. fold redirs_body. rewrite (bind_Ret _ _ _ _ _ (line_bound_eq _ _ Hst)).
  apply H; done || lia.
Qed.

(** *** Arguments *)

Lemma slots_insert l x : (length l < MAXARGS)%nat -> <[length l := Some x]> (slots l) = slots (l ++ [x]).
Proof.
  intros H. unfold slots. rewrite insert_app_r_alt by (rewrite length_fmap; lia).
  rewrite length_fmap, Nat.sub_diag, fmap_app, <- app_assoc, length_app. simpl.
  destruct (MAXARGS - length l)%nat eqn:E; [lia|]. simpl. do 3 f_equal. lia.
Qed.

Lemma slots_end l : (length l < MAXARGS)%nat -> <[length l := None]> (slots l) = slots l.
Proof.
  intros H. unfold slots. rewrite insert_app_r_alt by (rewrite length_fmap; lia).
  rewrite length_fmap, Nat.sub_diag. by destruct (MAXARGS - length l)%nat.
Qed.

Lemma slots_length l : (length l <= MAXARGS)%nat -> length (slots l) = MAXARGS.
Proof. intros H. unfold slots. rewrite length_app, length_fmap, length_replicate. lia. Qed.

(** The node of a command with arguments [ws]. *)
Definition exec_node (ws : list word) : node := EXEC (slots (fst <$> ws)) (slots (snd <$> ws)).
Definition put_exec (c : nat) (ws : list word) (st : shst) : shst :=
  set_sh_heap (<[c := exec_node ws]> (sh_heap st)) (sh_room st) st.

Lemma set_arg_eq c ws w st :
  (length ws < MAXARGS)%nat -> sh_heap st !! c = Some (exec_node ws) ->
  set_arg (Some c) (length ws) (Some (fst w)) (Some (snd w)) st = Ret tt (put_exec c (ws ++ [w]) st).
Proof.
  intros Hl Hc. unfold set_arg. rewrite bind_gets. simpl deref. rewrite bind_ret, Hc. unfold exec_node at 1.
  rewrite slots_length by (rewrite length_fmap; apply Nat.lt_le_incl, Hl). rewrite (proj2 (Nat.ltb_lt _ _) Hl), bind_gets.
  unfold put_exec, exec_node. rewrite !fmap_app. simpl.
  rewrite <- !slots_insert by (by rewrite length_fmap). by rewrite !length_fmap.
Qed.

Lemma set_arg_end c ws st :
  (length ws < MAXARGS)%nat -> sh_heap st !! c = Some (exec_node ws) ->
  set_arg (Some c) (length ws) None None st = Ret tt (put_exec c ws st).
Proof.
  intros Hl Hc. unfold set_arg. rewrite bind_gets. simpl deref. rewrite bind_ret, Hc. unfold exec_node at 1.
  rewrite slots_length by (rewrite length_fmap; apply Nat.lt_le_incl, Hl). rewrite (proj2 (Nat.ltb_lt _ _) Hl), bind_gets.
  unfold put_exec, exec_node.
  pose proof (slots_end (fst <$> ws)) as E1. pose proof (slots_end (snd <$> ws)) as E2.
  rewrite length_fmap in E1, E2. by rewrite E1, E2.
Qed.

Lemma put_exec_grows st0 st c ws u :
  (length (sh_heap st0) <= c)%nat -> grows st0 st u -> grows st0 (put_exec c ws st) u.
Proof.
  intros Hc ([k Hk] & H2 & H3). split_and!; [|done | done]. simpl. rewrite Hk.
  exists (<[(c - length (sh_heap st0))%nat := exec_node ws]> k). by apply insert_app_r_alt.
Qed.

Lemma put_exec_lookup st c ws ws' :
  sh_heap st !! c = Some (exec_node ws) -> sh_heap (put_exec c ws' st) !! c = Some (exec_node ws').
Proof. intros H. simpl. apply list_lookup_insert_eq. by eapply lookup_lt_Some. Qed.

Definition args_body (cmd : ptr) : ptr * nat -> P (ptr * nat + ptr * nat) := fun '(r, argc) =>
  stop <- peek es [124; 41; 38; 59] ;;
  if (stop : bool) then ret (inr (r, argc)) else
  ' (tok, q, eq) <- gettoken es ;;
  if tok =? 0 then ret (inr (r, argc)) else
  if negb (tok =? 97) then panic "syntax" else
  set_arg cmd argc (Some q) (Some eq) ;;
  let argc := S argc in
  if (MAXARGS <=? argc)%nat then panic "too many args" else
  r <- parseredirs r es ;;
  ret (inl (r, argc)).

Lemma peek_stop c : strchr [124; 41; 38; 59] (if c =? 43 then 62 else c) = is_stop c.
Proof. by destruct (Z.eqb_spec c 43) as [->|]. Qed.

(** What the arguments' loop keeps: the node at [c], the redirections around it. *)
Record args_inv (st0 : shst) (c : nat) (st : shst) (r : ptr) (ws : list word) (rs : list redir) (u : nat) : Prop := {
  ai_node : sh_heap st !! c = Some (exec_node ws);
  ai_len : (length ws < MAXARGS)%nat;
  ai_chain : chain (sh_heap st) r (Some c) (rev rs);
  ai_grows : grows st0 st u;
  ai_new : length (sh_heap st0) = c
}.

Lemma args_inv_moved st0 c st st' r ws rs u :
  moved st st' -> args_inv st0 c st r ws rs u -> args_inv st0 c st' r ws rs u.
Proof. intros [j ->] [H1 H2 H3 H4 H5]. by split. Qed.

(** The loop stops before the tokens [ts]. *)
Lemma args_stop st ts cmd r argc :
  stands line tail st ts -> follows [124; 41; 38; 59] ts ->
  exists st', args_body cmd (r, argc) st = Ret (inr (r, argc)) st' /\ stands line tail st' ts /\ moved st st'.
Proof.
  intros Hst Hf. unfold args_body.
  destruct (peek_run st ts [124; 41; 38; 59] Hst) as (st1 & Hp & Hst1 & Hm); [repeat constructor; set_solver|].
  rewrite (bind_Ret _ _ _ _ _ Hp). destruct ts as [|[c|w] ts]; [| |done].
  - destruct (gettoken_run st1 _ Hst1) as (t & q & e & st2 & ts' & Hg & Hst2 & Hm2 & -> & ->).
    rewrite (bind_Ret _ _ _ _ _ Hg). exists st2. split_and!; eauto using moved_trans.
  - assert (is_stop c = true) as Hs by (by apply strchr_elem). rewrite peek_stop, Hs. by exists st1.
Qed.

Lemma args_bad st c ts cmd r argc :
  stands line tail st (Sym c :: ts) -> is_stop c = false ->
  exists msg st', args_body cmd (r, argc) st = Panic msg st'.
Proof.
  intros Hst Hs. unfold args_body. pose proof (stands_ok line tail _ _ Hst) as Hok. apply Forall_inv in Hok.
  destruct (peek_run st _ [124; 41; 38; 59] Hst) as (st1 & Hp & Hst1 & Hm); [repeat constructor; set_solver|].
  rewrite (bind_Ret _ _ _ _ _ Hp), peek_stop, Hs.
  destruct (gettoken_run st1 _ Hst1) as (t & q & e & st2 & ts' & Hg & Hst2 & Hm2 & -> & ->).
  rewrite (bind_Ret _ _ _ _ _ Hg). simpl in Hok. unfold symbols in Hok.
  rewrite (proj2 (Z.eqb_neq c 0)), (proj2 (Z.eqb_neq c 97)) by set_solver. by eexists _, _.
Qed.

(** One argument and the redirections after it. *)
Lemma args_step st0 c st w ts r ws rs u :
  stands line tail st (Word w :: ts) -> args_inv st0 c st r ws rs u -> (length ts <= sh_room st)%nat ->
  match (if (MAXARGS <=? S (length ws))%nat then None else predirs ts) with
  | Some (rs', rest) => exists r' st', args_body (Some c) (r, length ws) st = Ret (inl (r', S (length ws))) st' /\
      stands line tail st' rest /\ args_inv st0 c st' r' (ws ++ [w]) (rs ++ rs') (u + length rs') /\
      grows (put_exec c (ws ++ [w]) st) st' (length rs')
  | None => exists msg st', args_body (Some c) (r, length ws) st = Panic msg st'
  end.
Proof.
  intros Hst Hinv Hr. unfold args_body.
  destruct (peek_run st _ [124; 41; 38; 59] Hst) as (st1 & Hp & Hst1 & Hm1); [repeat constructor; set_solver|].
  rewrite (bind_Ret _ _ _ _ _ Hp).
  destruct (gettoken_run st1 _ Hst1) as (t & q & e & st2 & ts' & Hg & Hst2 & Hm2 & -> & -> & ->).
  rewrite (bind_Ret _ _ _ _ _ Hg). cbn [Z.eqb Pos.eqb negb].
  assert (moved st st2) as Hm by eauto using moved_trans.
  destruct (args_inv_moved _ _ _ _ _ _ _ _ Hm Hinv) as [Hn Hl Hc Hgr Hnew].
  rewrite (bind_Ret _ _ _ _ _ (set_arg_eq c ws (q, e) st2 Hl Hn)). cbv zeta.
  destruct (MAXARGS <=? S (length ws))%nat eqn:El; [by eexists _, _|]. apply Nat.leb_gt in El.
  set (st3 := put_exec c (ws ++ [(q, e)]) st2).
  destruct (moved_heap _ _ Hm) as [Eh Er].
  pose proof (put_exec_grows st0 st2 c (ws ++ [(q, e)]) u ltac:(lia) Hgr) as Hgr3. fold st3 in Hgr3.
  assert (chain (sh_heap st3) r (Some c) (rev rs)) as Hc3 by (by eapply chain_insert).
  assert (below (Some c) (length (sh_heap st3))) as Hb3
    by (simpl; rewrite length_insert; by eapply lookup_lt_Some).
  assert (below r (length (sh_heap st3))) as Hb by (by eapply chain_below).
  pose proof (parseredirs_run st3 ts r) as H. destruct (predirs ts) as [[rs' rest]|].
  - destruct H as (r' & st4 & Hrun & Hst4 & Hch & Hg4); [by apply (stands_same st2) | simpl; lia | done|].
    exists r', st4. split_and!; [by rewrite (bind_Ret _ _ _ _ _ Hrun) | done | |].
    + split; [|rewrite length_app; simpl; lia| | |done].
      * eapply prefix_lookup_Some; [by eapply put_exec_lookup | apply Hg4].
      * rewrite rev_app_distr. eapply chain_app; [exact Hch|]. by eapply chain_ext; [apply Hg4|].
      * by eapply grows_trans.
    + destruct Hg4 as (G1 & G2 & G3). destruct Hm as [j ->]. by split_and!.
  - destruct H as (msg & st4 & Hrun); [by apply (stands_same st2) | simpl; lia | done|].
    exists msg, st4. by rewrite (bind_Panic _ _ _ _ _ Hrun).
Qed.

Lemma show_redirs_length rs : length (show_redirs rs) = (2 * length rs)%nat.
Proof.
  induction rs as [|r rs IH]; [done|].
  change (show_redirs (r :: rs)) with (show_redir r ++ show_redirs rs). rewrite length_app, IH. simpl. lia.
Qed.

Lemma args_loop st0 c m : forall n ts st r ws rs u,
  stands line tail st ts -> args_inv st0 c st r ws rs u ->
  (length ts < n)%nat -> (length ts < m)%nat -> (length ts <= sh_room st)%nat ->
  match pargs m (length ws) ts with
  | Some (items, rest) => exists r' st',
      loop n (args_body (Some c)) (r, length ws) st = Ret (r', (length ws + length items)%nat) st' /\
      stands line tail st' rest /\
      args_inv st0 c st' r' (ws ++ (fst <$> items)) (rs ++ (items ≫= snd)) (u + (length ts - length rest))
  | None => exists msg st', loop n (args_body (Some c)) (r, length ws) st = Panic msg st'
  end.
Proof.
  induction m as [|m IH]; intros n ts st r ws rs u Hst Hinv Hn Hm Hr; [lia|].
  destruct n as [|n]; [lia|]. cbn [pargs].
  assert (follows [124; 41; 38; 59] ts -> exists r' st',
      loop (S n) (args_body (Some c)) (r, length ws) st = Ret (r', (length ws + 0)%nat) st' /\
      stands line tail st' ts /\ args_inv st0 c st' r' (ws ++ []) (rs ++ []) (u + (length ts - length ts))) as Hstop.
  { intros Hf. destruct (args_stop st ts (Some c) r (length ws) Hst Hf) as (st' & H1 & H2 & H3).
    exists r, st'. rewrite Nat.sub_diag, !Nat.add_0_r, !app_nil_r.
    split_and!; [by apply loop_done | done | by eapply args_inv_moved]. }
  destruct ts as [|[b|w] ts]; [by apply Hstop | |].
  - destruct (is_stop b) eqn:Hb; [apply Hstop; by apply strchr_elem|].
    destruct (args_bad st b ts (Some c) r (length ws) Hst Hb) as (msg & st' & H).
    exists msg, st'. simpl loop. by rewrite (bind_Panic _ _ _ _ _ H).
  - cbn [length] in *. pose proof (args_step st0 c st w ts r ws rs u Hst Hinv ltac:(lia)) as Hs.
    destruct (MAXARGS <=? S (length ws))%nat;
      [destruct Hs as (msg & st' & H); exists msg, st'; simpl loop; by rewrite (bind_Panic _ _ _ _ _ H)|].
    destruct (predirs ts) as [[rs' rest]|] eqn:Epr; cbn [mbind option_bind];
      [|destruct Hs as (msg & st' & H); exists msg, st'; simpl loop; by rewrite (bind_Panic _ _ _ _ _ H)].
    destruct Hs as (r' & st' & Hb & Hst' & Hinv' & Hg'). rewrite (loop_next _ _ _ _ _ _ Hb).
    apply (predirs_sound (length ts)) in Epr as [-> _]; [|done].
    rewrite length_app, show_redirs_length in *. destruct Hg' as (_ & Hroom & _). simpl in Hroom.
    specialize (IH n rest st' r' (ws ++ [w]) (rs ++ rs') (u + length rs')%nat Hst' Hinv' ltac:(lia) ltac:(lia) ltac:(lia)).
    rewrite length_app in IH. simpl in IH. rewrite Nat.add_1_r in IH.
    destruct (pargs m (S (length ws)) rest) as [[items rest']|] eqn:Epa; [|exact IH].
    destruct IH as (r2 & st2 & Hl & Hst2 & Hinv2). exists r2, st2.
    apply pargs_sound in Epa as (Erest & _ & _). apply (f_equal length) in Erest. rewrite length_app in Erest.
    split_and!; [rewrite Hl; f_equal; f_equal; simpl; lia | done |].
    rewrite <- !app_assoc in Hinv2. destruct Hinv2 as [A1 A2 A3 A4 A5].
    split; [exact A1 | exact A2 | exact A3 | | done]. eapply grows_le; [|exact A4]. lia.
Qed.

(** *** Lines, pipelines and commands *)

(** [peek] for one symbol, and [gettoken] when it is there. *)
Lemma peek_sym st ts c :
  stands line tail st ts -> c ∈ [124; 38; 59; 40; 41] ->
  match next_sym c ts with
  | Some ts1 => exists st1 x st2, peek es [c] st = Ret true st1 /\ gettoken es st1 = Ret x st2 /\
      stands line tail st1 ts /\ stands line tail st2 ts1 /\ moved st st1 /\ moved st st2
  | None => exists st1, peek es [c] st = Ret false st1 /\ stands line tail st1 ts /\ moved st st1
  end.
Proof.
  intros Hst Hc. destruct (peek_run st ts [c] Hst) as (st1 & Hp & Hst1 & Hm).
  { constructor; [unfold symbols; set_solver | constructor]. }
  assert (match ts with Sym b :: _ => strchr [c] (if b =? 43 then 62 else b) | _ => false end =
    match next_sym c ts with Some _ => true | None => false end) as E.
  { destruct ts as [|[b|w] ts]; [done | | done]. simpl. rewrite (Z.eqb_sym b c).
    destruct (Z.eqb_spec b 43) as [->|]; [|by destruct (c =? b)].
    by rewrite (proj2 (Z.eqb_neq c 62)), (proj2 (Z.eqb_neq c 43)) by set_solver. }
  rewrite E in Hp. destruct (next_sym c ts) as [ts1|] eqn:En; [|by exists st1].
  apply next_sym_Some in En as ->.
  destruct (gettoken_run st1 _ Hst1) as (t & q & e & st2 & ts' & Hg & Hst2 & Hm2 & -> & ->).
  exists st1, (c, q, e), st2. split_and!; eauto using moved_trans.
Qed.

Definition backs_body (cmd : ptr) : P (ptr + ptr) :=
  more <- peek es [38] ;;
  if (more : bool) then
    gettoken es ;;
    cmd <- backcmd cmd ;;
    ret (inl cmd)
  else ret (inr cmd).

Lemma backs_loop ts : forall n st cmd c,
  stands line tail st ts -> (length ts < n)%nat -> (length ts <= sh_room st)%nat -> repr (sh_heap st) cmd c ->
  let '(k, rest) := pbacks ts in
  exists r st', loop n backs_body cmd st = Ret r st' /\ stands line tail st' rest /\
    repr (sh_heap st') r (Nat.iter k CBack c) /\ grows st st' k.
Proof.
  induction ts as [|t ts IH]; intros n st cmd c Hst Hn Hr Hc; (destruct n as [|n]; [lia|]);
    pose proof (peek_sym st _ 38 Hst ltac:(set_solver)) as Hp.
  { destruct Hp as (st1 & Hp & Hst1 & Hm). exists cmd, st1.
    split_and!; [apply loop_done; unfold backs_body; by rewrite (bind_Ret _ _ _ _ _ Hp) | done
      | by rewrite (proj1 (moved_heap _ _ Hm)) | by apply moved_grows]. }
  assert (next_sym 38 (t :: ts) = None -> exists r st', loop (S n) backs_body cmd st = Ret r st' /\
    stands line tail st' (t :: ts) /\ repr (sh_heap st') r c /\ grows st st' 0) as Hstop.
  { intros En. rewrite En in Hp. destruct Hp as (st1 & Hp & Hst1 & Hm). exists cmd, st1.
    split_and!; [apply loop_done; unfold backs_body; by rewrite (bind_Ret _ _ _ _ _ Hp) | done
      | by rewrite (proj1 (moved_heap _ _ Hm)) | by apply moved_grows]. }
  destruct t as [b|w]; [|by apply Hstop]. simpl pbacks. simpl next_sym in *.
  destruct (b =? 38); [|by apply Hstop]. cbn [length] in *.
  destruct Hp as (st1 & x & st2 & Hp & Hg & _ & Hst2 & _ & Hm). destruct (moved_heap _ _ Hm) as [Eh Er].
  set (st3 := with_node (BACK cmd) st2).
  assert (backs_body cmd st = Ret (inl (Some (length (sh_heap st2)))) st3) as Hb.
  { unfold backs_body. rewrite (bind_Ret _ _ _ _ _ Hp), (bind_Ret _ _ _ _ _ Hg).
    unfold backcmd. by rewrite (bind_Ret _ _ _ _ _ (new_node_eq _ st2 ltac:(lia))). }
  assert (grows st st3 1) as Hg3
    by (apply (grows_trans _ st2 _ 0 1); [by apply moved_grows | apply with_node_grows; lia]).
  rewrite (loop_next _ _ _ _ _ _ Hb).
  specialize (IH n st3 (Some (length (sh_heap st2))) (CBack c) (stands_same st2 st3 ts eq_refl eq_refl Hst2)
    ltac:(lia) ltac:(simpl; lia)).
  destruct (pbacks ts) as [k rest]. destruct IH as (r & st' & Hl & Hst' & Hrep & Hg').
  - exists (length (sh_heap st2)), cmd. split_and!; [done | rewrite Eh; by eapply repr_below | apply with_node_lookup|].
    eapply repr_ext; [apply Hg3 | done].
  - exists r, st'. split_and!; [done | done | | exact (grows_trans _ _ _ 1 k Hg3 Hg')].
    by rewrite Nat.iter_succ_r.
Qed.

Lemma parsebacks_run st ts cmd c :
  stands line tail st ts -> (length ts <= sh_room st)%nat -> repr (sh_heap st) cmd c ->
  let '(k, rest) := pbacks ts in
  exists r st', parsebacks es cmd st = Ret r st' /\ stands line tail st' rest /\
    repr (sh_heap st') r (Nat.iter k CBack c) /\ grows st st' k.
Proof.
  intros Hst Hr Hc. pose proof (tokens_bound st ts Hst) as Hn.
  unfold parsebacks. fold backs_body. rewrite (bind_Ret _ _ _ _ _ (line_bound_eq _ _ Hst)).
  apply backs_loop; done || lia.
Qed.

(** The parser's run on [n] tokens does as the parser of tokens: the command in the heap,
    at most two nodes for each token and one more, or a [panic]. *)
Definition refines {X} (st : shst) (n : nat) (o : outcome shst ptr) (res : option (X * list tok))
    (meaning : X -> cmd word) : Prop :=
  match res with
  | Some (x, rest) => exists p st', o = Ret p st' /\ stands line tail st' rest /\
      repr (sh_heap st') p (meaning x) /\ (length rest <= n)%nat /\ grows st st' (2 * (n - length rest) + 1)
  | None => exists msg st', o = Panic msg st'
  end.

(** A node over commands in the heap. *)
Lemma node_over st nd c :
  (0 < sh_room st)%nat ->
  (forall h, sh_heap st `prefix_of` h -> h !! length (sh_heap st) = Some nd ->
     repr h (Some (length (sh_heap st))) c) ->
  exists st', new_node nd st = Ret (Some (length (sh_heap st))) st' /\ grows st st' 1 /\
    repr (sh_heap st') (Some (length (sh_heap st))) c /\ sh_buf st' = sh_buf st /\ sh_pos st' = sh_pos st.
Proof.
  intros Hr Hc. exists (with_node nd st). split_and!; [by apply new_node_eq | by apply with_node_grows | | done | done].
  apply Hc; [by exists [nd] | apply with_node_lookup].
Qed.

Lemma parseargs_run st0 c st ts r rs u :
  stands line tail st ts -> args_inv st0 c st r [] rs u -> (length ts <= sh_room st)%nat ->
  match pargs (S (length ts)) 0 ts with
  | Some (items, rest) => exists r' st', parseargs (Some c) es r st = Ret (r', length items) st' /\
      stands line tail st' rest /\
      args_inv st0 c st' r' (fst <$> items) (rs ++ (items ≫= snd)) (u + (length ts - length rest))
  | None => exists msg st', parseargs (Some c) es r st = Panic msg st'
  end.
Proof.
  intros Hst Hinv Hr. pose proof (tokens_bound st ts Hst) as Hn.
  unfold parseargs. fold (args_body (Some c)). rewrite (bind_Ret _ _ _ _ _ (line_bound_eq _ _ Hst)).
  exact (args_loop st0 c (S (length ts)) (S (es + S (length tail))) ts st r [] rs u Hst Hinv
    ltac:(lia) ltac:(lia) Hr).
Qed.

Lemma exec_run st ts :
  stands line tail st ts -> (2 * length ts + 1 <= sh_room st)%nat ->
  refines st (length ts)
    ((cmd <- execcmd ;;
      r <- parseredirs cmd es ;;
      ' (r, argc) <- parseargs cmd es r ;;
      set_arg cmd argc None None ;;
      ret r) st) (psimple ts) exe_cmd.
Proof.
  intros Hst Hr. unfold execcmd. rewrite (bind_Ret _ _ _ _ _ (new_node_eq _ st ltac:(lia))).
  change (EXEC _ _) with (exec_node []). set (c := length (sh_heap st)). set (st1 := with_node _ st).
  assert (stands line tail st1 ts) as Hst1 by (by apply (stands_same st)).
  assert (grows st st1 1) as Hg1 by (apply with_node_grows; lia).
  assert (sh_heap st1 !! c = Some (exec_node [])) as Hc by apply with_node_lookup.
  pose proof (parseredirs_run st1 ts (Some c) Hst1 ltac:(simpl; lia)) as H. unfold psimple.
  assert (below (Some c) (length (sh_heap st1))) as Hb by (by eapply lookup_lt_Some).
  destruct (predirs ts) as [[rs ts1]|] eqn:Epr; cbn [mbind option_bind].
  2:{ destruct (H Hb) as (msg & st' & Hp). exists msg, st'. by rewrite (bind_Panic _ _ _ _ _ Hp). }
  destruct (H Hb) as (r & st2 & Hrun & Hst2 & Hch & Hg2). rewrite (bind_Ret _ _ _ _ _ Hrun).
  apply (predirs_sound (length ts)) in Epr as [Ets _]; [|done]. apply (f_equal length) in Ets.
  rewrite length_app, show_redirs_length in Ets. pose proof (tokens_bound _ _ Hst2) as Hbd.
  pose proof Hg2 as (Hpre & Hroom & _). simpl in Hroom.
  assert (args_inv st c st2 r [] rs (1 + length rs)) as Hinv.
  { split; [by eapply prefix_lookup_Some | unfold MAXARGS; simpl; lia | done | by eapply grows_trans | done]. }
  pose proof (parseargs_run st c st2 ts1 r rs _ Hst2 Hinv ltac:(lia)) as Ha.
  destruct (pargs (S (length ts1)) 0 ts1) as [[items rest]|] eqn:Epa; cbn [mbind option_bind].
  2:{ destruct Ha as (msg & st' & Hp). exists msg, st'. by rewrite (bind_Panic _ _ _ _ _ Hp). }
  destruct Ha as (r' & st3 & Hrun3 & Hst3 & [A1 A2 A3 A4 A5]). rewrite (bind_Ret _ _ _ _ _ Hrun3).
  apply pargs_sound in Epa as (Ets1 & _ & _). apply (f_equal length) in Ets1. rewrite length_app in Ets1.
  pose proof (set_arg_end c (fst <$> items) st3 A2 A1) as He. rewrite length_fmap in He.
  rewrite (bind_Ret _ _ _ _ _ He).
  exists r', (put_exec c (fst <$> items) st3). split_and!; [done | by apply (stands_same st3) | | lia |].
  - cbn [exe_cmd]. eapply chain_repr; [by eapply chain_insert|].
    exists c. split_and!; [done | done | by eapply put_exec_lookup].
  - eapply grows_le; [|apply put_exec_grows; [by rewrite <- A5 | exact A4]]. lia.
Qed.

Lemma refines_panic {X} st st0 n m (f : ptr -> P ptr) (res : option (X * list tok)) meaning :
  res = None -> (exists msg st', m st0 = Panic msg st') -> refines st n (bind m f st0) res meaning.
Proof. intros -> (msg & st' & H). exists msg, st'. by rewrite (bind_Panic _ _ _ _ _ H). Qed.

(** [left], a symbol, [right] and a node over both. *)
Lemma binary_node nd (con : cmd word -> cmd word -> cmd word) st st1 st2 st3
    (n n1 n2 : nat) p1 p2 c1 c2 rest :
  (forall h pl pr l r i, h !! i = Some (nd pl pr) -> below pl i -> below pr i -> repr h pl l -> repr h pr r ->
     repr h (Some i) (con l r)) ->
  (2 * n + 1 <= sh_room st)%nat -> (S n2 <= n1 <= n)%nat -> (length rest <= n2)%nat ->
  grows st st1 (2 * (n - n1) + 1) -> repr (sh_heap st1) p1 c1 -> moved st1 st2 ->
  grows st2 st3 (2 * (n2 - length rest) + 1) -> repr (sh_heap st3) p2 c2 -> stands line tail st3 rest ->
  exists p st', new_node (nd p1 p2) st3 = Ret p st' /\ stands line tail st' rest /\
    repr (sh_heap st') p (con c1 c2) /\ (length rest <= n)%nat /\ grows st st' (2 * (n - length rest) + 1).
Proof.
  intros Hcon Hr Hn Hrest Hg1 Hc1 Hm Hg3 Hc2 Hst3.
  pose proof (grows_trans _ _ _ _ _ (moved_grows _ _ Hm) Hg3) as Hg13.
  pose proof (grows_trans _ _ _ _ _ Hg1 Hg13) as Hg. pose proof Hg as (_ & Hroom & _).
  assert (repr (sh_heap st3) p1 c1) as Hc1' by (eapply repr_ext; [apply Hg13 | done]).
  destruct (node_over st3 (nd p1 p2) (con c1 c2)) as (st4 & Hnew & Hg4 & Hrep & Hbuf & Hpos); [lia | |].
  { intros h Hpre Hl. eapply Hcon; [exact Hl | by eapply repr_below | by eapply repr_below
      | by eapply repr_ext | by eapply repr_ext]. }
  eexists _, st4. split_and!; [exact Hnew | by apply (stands_same st3) | done | lia |].
  eapply grows_le; [|exact (grows_trans _ _ _ _ _ Hg Hg4)]. lia.
Qed.

(** A parsing function with fuel [n] refines its counterpart on every list of tokens for
    which the fuel is enough. *)
Definition refined {X} (k n : nat) (run : nat -> nat -> P ptr)
    (pure : nat -> list tok -> option (X * list tok)) (meaning : X -> cmd word) : Prop :=
  forall ts st, stands line tail st ts -> (4 * length ts + k <= n)%nat -> (2 * length ts + 1 <= sh_room st)%nat ->
    refines st (length ts) (run n es st) (pure n ts) meaning.

Lemma parsepipe_step n :
  refined 2 n parseexec pexe exe_cmd -> refined 3 n parsepipe ppip pip_cmd ->
  refined 3 (S n) parsepipe ppip pip_cmd.
Proof.
  intros IHe IHp ts st Hst Hn Hr. cbn [parsepipe ppip].
  specialize (IHe ts st Hst ltac:(lia) Hr). destruct (pexe n ts) as [[e ts1]|]; [|by apply refines_panic].
  destruct IHe as (p1 & st1 & Hrun & Hst1 & Hc1 & Hlen & Hg1). rewrite (bind_Ret _ _ _ _ _ Hrun).
  cbn [mbind option_bind]. pose proof (peek_sym st1 ts1 124 Hst1 ltac:(set_solver)) as Hp.
  destruct (next_sym 124 ts1) as [ts2|] eqn:En.
  - destruct Hp as (st1' & x & st2 & Hp & Hg & _ & Hst2 & _ & Hm). rewrite (bind_Ret _ _ _ _ _ Hp), (bind_Ret _ _ _ _ _ Hg).
    apply next_sym_Some in En as ->. cbn [length] in *. pose proof Hg1 as (_ & Hroom & _).
    destruct (moved_heap _ _ Hm) as [_ Er].
    specialize (IHp ts2 st2 Hst2 ltac:(lia) ltac:(lia)). destruct (ppip n ts2) as [[p rest]|]; [|by apply refines_panic].
    destruct IHp as (p2 & st3 & Hrun3 & Hst3 & Hc2 & Hlen3 & Hg3). rewrite (bind_Ret _ _ _ _ _ Hrun3).
    apply (binary_node PIPE CPipe st st1 st2 st3 _ (S (length ts2)) (length ts2)); try done; try lia.
    intros h pl pr l r i Hl Hbl Hbr Hrl Hrr. exists i, pl, pr. by split_and!.
  - destruct Hp as (st2 & Hp & Hst2 & Hm). rewrite (bind_Ret _ _ _ _ _ Hp).
    exists p1, st2. split_and!; [done | done | by rewrite (proj1 (moved_heap _ _ Hm)) | done |].
    eapply grows_le; [|exact (grows_trans _ _ _ _ _ Hg1 (moved_grows _ _ Hm))]. lia.
Qed.

Lemma parseline_step n :
  refined 3 n parsepipe ppip pip_cmd -> refined 4 n parseline plin lin_cmd ->
  refined 4 (S n) parseline plin lin_cmd.
Proof.
  intros IHp IHl ts st Hst Hn Hr. cbn [parseline plin].
  specialize (IHp ts st Hst ltac:(lia) Hr). destruct (ppip n ts) as [[p ts0]|]; [|by apply refines_panic].
  destruct IHp as (p0 & st0 & Hrun & Hst0 & Hc0 & Hlen0 & Hg0). rewrite (bind_Ret _ _ _ _ _ Hrun).
  cbn [mbind option_bind]. pose proof Hg0 as (_ & Hroom0 & _).
  pose proof (parsebacks_run st0 ts0 p0 _ Hst0 ltac:(lia) Hc0) as Hb.
  destruct (pbacks ts0) as [k ts1] eqn:Eb. destruct Hb as (p1 & st1 & Hrun1 & Hst1 & Hc1 & Hg1').
  rewrite (bind_Ret _ _ _ _ _ Hrun1). apply pbacks_sound in Eb as [Ets0 _].
  apply (f_equal length) in Ets0. rewrite length_app, length_replicate in Ets0.
  assert (grows st st1 (2 * (length ts - length ts1) + 1)) as Hg1
    by (eapply grows_le; [|exact (grows_trans _ _ _ _ _ Hg0 Hg1')]; lia).
  pose proof (peek_sym st1 ts1 59 Hst1 ltac:(set_solver)) as Hp.
  destruct (next_sym 59 ts1) as [ts2|] eqn:En.
  - destruct Hp as (st1' & x & st2 & Hp & Hg & _ & Hst2 & _ & Hm). rewrite (bind_Ret _ _ _ _ _ Hp), (bind_Ret _ _ _ _ _ Hg).
    apply next_sym_Some in En as ->. cbn [length] in *. pose proof Hg1 as (_ & Hroom & _).
    destruct (moved_heap _ _ Hm) as [_ Er].
    specialize (IHl ts2 st2 Hst2 ltac:(lia) ltac:(lia)). destruct (plin n ts2) as [[l rest]|]; [|by apply refines_panic].
    destruct IHl as (p2 & st3 & Hrun3 & Hst3 & Hc2 & Hlen3 & Hg3). rewrite (bind_Ret _ _ _ _ _ Hrun3).
    apply (binary_node LIST CList st st1 st2 st3 _ (S (length ts2)) (length ts2)); try done; try lia.
    intros h pl pr l' r i Hl Hbl Hbr Hrl Hrr. exists i, pl, pr. by split_and!.
  - destruct Hp as (st2 & Hp & Hst2 & Hm). rewrite (bind_Ret _ _ _ _ _ Hp).
    exists p1, st2. split_and!; [done | done | by rewrite (proj1 (moved_heap _ _ Hm)) | lia |].
    eapply grows_le; [|exact (grows_trans _ _ _ _ _ Hg1 (moved_grows _ _ Hm))]. lia.
Qed.

(** [parseblock] starts at the parenthesis [parseexec] has seen. *)
Lemma parseblock_step n ts st :
  refined 4 n parseline plin lin_cmd ->
  stands line tail st (Sym 40 :: ts) -> (4 * length ts + 4 <= n)%nat -> (2 * length ts + 3 <= sh_room st)%nat ->
  refines st (S (length ts)) (parseblock (S n) es st) (pblk (S n) ts) exe_cmd.
Proof.
  intros IHl Hst Hn Hr. cbn [parseblock pblk].
  pose proof (peek_sym st _ 40 Hst ltac:(set_solver)) as Hp. rewrite next_sym_eq in Hp.
  destruct Hp as (st0 & x & st1 & Hp & Hg & _ & Hst1 & _ & Hm).
  rewrite (bind_Ret _ _ _ _ _ Hp). cbn [negb]. rewrite (bind_Ret _ _ _ _ _ Hg).
  destruct (moved_heap _ _ Hm) as [_ Er].
  specialize (IHl ts st1 Hst1 ltac:(lia) ltac:(lia)). destruct (plin n ts) as [[l ts1]|]; [|by apply refines_panic].
  destruct IHl as (p & st2 & Hrun & Hst2 & Hc & Hlen & Hg2). rewrite (bind_Ret _ _ _ _ _ Hrun).
  cbn [mbind option_bind]. pose proof (peek_sym st2 ts1 41 Hst2 ltac:(set_solver)) as Hp'.
  destruct (next_sym 41 ts1) as [ts2|] eqn:En; cbn [mbind option_bind].
  2:{ destruct Hp' as (st3 & Hp' & _). rewrite (bind_Ret _ _ _ _ _ Hp'). by eexists _, _. }
  destruct Hp' as (st2' & y & st3 & Hp' & Hg' & _ & Hst3 & _ & Hm').
  rewrite (bind_Ret _ _ _ _ _ Hp'). cbn [negb]. rewrite (bind_Ret _ _ _ _ _ Hg').
  apply next_sym_Some in En as ->. cbn [length] in *. pose proof Hg2 as (_ & Hroom & _).
  destruct (moved_heap _ _ Hm') as [Eh' Er'].
  pose proof (parseredirs_run st3 ts2 p Hst3 ltac:(lia)) as Hrd. rewrite Eh' in Hrd.
  specialize (Hrd (repr_below _ _ _ Hc)).
  destruct (predirs ts2) as [[rs rest]|] eqn:Epr; [|exact Hrd]. cbn [mbind option_bind].
  apply (predirs_sound (length ts2)) in Epr as [Ets _]; [|done]. apply (f_equal length) in Ets.
  rewrite length_app, show_redirs_length in Ets.
  destruct Hrd as (r & st4 & Hrun4 & Hst4 & Hch & Hg4). exists r, st4.
  split_and!; [done | done | | lia |].
  - cbn [exe_cmd]. eapply chain_repr; [exact Hch|]. eapply repr_ext; [apply Hg4|]. by rewrite Eh'.
  - eapply grows_le; [|exact (grows_trans _ _ _ _ _ (grows_trans _ _ _ _ _ (moved_grows _ _ Hm) Hg2)
      (grows_trans _ _ _ _ _ (moved_grows _ _ Hm') Hg4))]. lia.
Qed.

Lemma refines_moved {X} st st1 n o (res : option (X * list tok)) meaning :
  moved st st1 -> refines st1 n o res meaning -> refines st n o res meaning.
Proof. intros [j ->]. unfold refines. by destruct res as [[x rest]|]. Qed.

Lemma parser_refines n :
  refined 4 n parseline plin lin_cmd /\ refined 3 n parsepipe ppip pip_cmd /\
  refined 2 n parseexec pexe exe_cmd.
Proof.
  induction n as [n IH] using lt_wf_ind.
  destruct n as [|n]; [split_and!; intros ts st Hst Hn; lia|].
  destruct (IH n ltac:(lia)) as (IHl & IHp & IHe).
  split_and!; [by apply parseline_step | by apply parsepipe_step |].
  intros ts st Hst Hn Hr. cbn [parseexec pexe].
  pose proof (peek_sym st ts 40 Hst ltac:(set_solver)) as Hp. destruct (next_sym 40 ts) as [ts1|] eqn:En.
  - destruct Hp as (st1 & x & st2 & Hp & _ & Hst1 & _ & Hm & _). rewrite (bind_Ret _ _ _ _ _ Hp).
    apply next_sym_Some in En as ->. cbn [length] in *. apply (refines_moved _ _ _ _ _ _ Hm).
    destruct (moved_heap _ _ Hm) as [_ Er]. destruct n as [|n]; [lia|].
    destruct (IH n ltac:(lia)) as (IHl' & _). apply parseblock_step; [done | done | lia | lia].
  - destruct Hp as (st1 & Hp & Hst1 & Hm). rewrite (bind_Ret _ _ _ _ _ Hp).
    apply (refines_moved _ _ _ _ _ _ Hm). destruct (moved_heap _ _ Hm) as [_ Er].
    apply exec_run; [done | lia].
Qed.
End parser.

(** ** Terminating the strings *)

Fixpoint cmd_words {W} (c : cmd W) : list W :=
  match c with
  | CExec ws => ws
  | CRedir c w _ _ => cmd_words c ++ [w]
  | CPipe l r => cmd_words l ++ cmd_words r
  | CList l r => cmd_words l ++ cmd_words r
  | CBack c => cmd_words c
  end.

(** The buffer with a 0 at each of the positions. *)
Definition nul_at (ends : list nat) (b : list Z) : list Z := fold_left (fun b e => <[e := 0]> b) ends b.

Lemma nul_at_length ends b : length (nul_at ends b) = length b.
Proof. revert b. induction ends as [|e ends IH]; intros b; simpl; [done|]. by rewrite IH, length_insert. Qed.

Lemma nul_at_lookup ends b x :
  nul_at ends b !! x = if decide (x ∈ ends) then (fun _ => 0) <$> b !! x else b !! x.
Proof.
  revert b. induction ends as [|e ends IH]; intros b; simpl; [done|]. rewrite IH.
  destruct (decide (x = e)) as [->|Hne].
  - rewrite (decide_True (P := e ∈ e :: ends)) by set_solver.
    destruct (decide (e < length b)%nat) as [Hlt|Hge].
    + rewrite list_lookup_insert_eq by done. destruct (lookup_lt_is_Some_2 b e Hlt) as [y ->]. by case_decide.
    + rewrite list_insert_ge, lookup_ge_None_2 by lia. by case_decide.
  - rewrite list_lookup_insert_ne by done. do 2 case_decide; set_solver.
Qed.

Lemma put_nul_eq e st :
  (e < length (sh_buf st))%nat -> put_nul e st = Ret tt (set_sh_buf (<[e := 0]> (sh_buf st)) st).
Proof. intros H. unfold put_nul. rewrite bind_gets, (proj2 (Nat.ltb_lt _ _) H). done. Qed.

Lemma nul_args_eq ws : forall n m st,
  (0 < n)%nat -> Forall (fun w : word => (snd w < length (sh_buf st))%nat) ws ->
  nul_args ((Some <$> (fst <$> ws)) ++ replicate n None) ((Some <$> (snd <$> ws)) ++ replicate m None) st =
  Ret tt (set_sh_buf (nul_at (snd <$> ws) (sh_buf st)) st).
Proof.
  induction ws as [|w ws IH]; intros n m st Hn Hw; simpl.
  - destruct n; [lia|]. by destruct st.
  - apply Forall_cons in Hw as [Hw Hws]. rewrite (bind_Ret _ _ _ _ _ (put_nul_eq _ _ Hw)). rewrite IH; [done | done|].
    simpl. by rewrite length_insert.
Qed.

(** What [nulterminate] does with a node. *)
Definition nul_node (fuel : nat) (n : node) : P unit :=
  match n with
  | EXEC argv eargv => nul_args argv eargv
  | REDIR sub _ efile _ _ => nulterminate fuel sub ;; put_nul efile
  | PIPE l r => nulterminate fuel l ;; nulterminate fuel r ;; ret tt
  | LIST l r => nulterminate fuel l ;; nulterminate fuel r ;; ret tt
  | BACK sub => nulterminate fuel sub ;; ret tt
  end.

Lemma nul_node_eq fuel i n st st' :
  sh_heap st !! i = Some n -> nul_node fuel n st = Ret tt st' -> nulterminate (S fuel) (Some i) st = Ret (Some i) st'.
Proof.
  intros Hi Hn. cbn [nulterminate]. rewrite bind_gets, Hi. simpl deref. rewrite bind_ret.
  fold (nul_node fuel n). by rewrite (bind_Ret _ _ _ _ _ Hn).
Qed.

Lemma nul_at_app a b buf : nul_at (a ++ b) buf = nul_at b (nul_at a buf).
Proof. apply fold_left_app. Qed.

Lemma below_le p i n : below p i -> (i <= n)%nat -> below p n.
Proof. destruct p; simpl; [lia | done]. Qed.

(** The state after the strings of [c] have been terminated. *)
Definition terminated (c : cmd word) (st : shst) : shst :=
  set_sh_buf (nul_at (snd <$> cmd_words c) (sh_buf st)) st.

Definition words_in (st : shst) (c : cmd word) : Prop :=
  Forall (fun w => (snd w < length (sh_buf st))%nat) (cmd_words c).

Lemma words_in_terminated st c c' : words_in st c -> words_in (terminated c' st) c.
Proof. unfold words_in, terminated. simpl. by rewrite nul_at_length. Qed.

Lemma nulterminate_eq c : forall fuel p st,
  repr (sh_heap st) p c -> below p fuel -> words_in st c ->
  nulterminate fuel p st = Ret p (terminated c st).
Proof.
  assert (forall i fuel q, below (Some i) (S fuel) -> below q i -> below q fuel) as Hlt
    by (intros i fuel q Hi Hq; eapply below_le; [exact Hq | simpl in Hi; lia]).
  induction c as [ws|c IH w mode fd|l IHl r IHr|l IHl r IHr|c IH]; intros fuel p st Hr Hb Hw;
    (destruct fuel as [|fuel]; [by destruct p; simpl in Hb; [lia|]|]); simpl in Hr.
  - destruct Hr as (i & -> & Hlen & Hi). pose proof (fun q => Hlt i fuel q Hb) as Hf.
    eapply nul_node_eq; [exact Hi|]. unfold slots. simpl.
    rewrite nul_args_eq; [done | rewrite length_fmap; lia | done].
  - destruct Hr as (i & p' & -> & Hb' & Hi & Hc). pose proof (fun q => Hlt i fuel q Hb) as Hf.
    eapply nul_node_eq; [exact Hi|].
    apply Forall_app in Hw as [Hw Hw']. apply Forall_inv in Hw'. simpl.
    rewrite (bind_Ret _ _ _ _ _ (IH fuel p' st Hc (Hf _ Hb') Hw)).
    rewrite put_nul_eq by (simpl; by rewrite nul_at_length).
    unfold terminated. simpl. by rewrite fmap_app, nul_at_app.
  - destruct Hr as (i & pl & pr & -> & Hbl & Hbr & Hi & Hl & Hr). pose proof (fun q => Hlt i fuel q Hb) as Hf.
    eapply nul_node_eq; [exact Hi|].
    apply Forall_app in Hw as [Hwl Hwr]. simpl.
    rewrite (bind_Ret _ _ _ _ _ (IHl fuel pl st Hl (Hf _ Hbl) Hwl)).
    rewrite (bind_Ret _ _ _ _ _ (IHr fuel pr (terminated l st) Hr (Hf _ Hbr)
      (words_in_terminated _ _ _ Hwr))).
    unfold terminated. simpl. by rewrite fmap_app, nul_at_app.
  - destruct Hr as (i & pl & pr & -> & Hbl & Hbr & Hi & Hl & Hr). pose proof (fun q => Hlt i fuel q Hb) as Hf.
    eapply nul_node_eq; [exact Hi|].
    apply Forall_app in Hw as [Hwl Hwr]. simpl.
    rewrite (bind_Ret _ _ _ _ _ (IHl fuel pl st Hl (Hf _ Hbl) Hwl)).
    rewrite (bind_Ret _ _ _ _ _ (IHr fuel pr (terminated l st) Hr (Hf _ Hbr)
      (words_in_terminated _ _ _ Hwr))).
    unfold terminated. simpl. by rewrite fmap_app, nul_at_app.
  - destruct Hr as (i & p' & -> & Hb' & Hi & Hc). pose proof (fun q => Hlt i fuel q Hb) as Hf.
    eapply nul_node_eq; [exact Hi|]. simpl.
    by rewrite (bind_Ret _ _ _ _ _ (IH fuel p' st Hc (Hf _ Hb') Hw)).
Qed.

(** ** The commands' strings *)

(** The characters of a word. *)
Definition slice (line : list Z) (w : word) : list Z := take (snd w - fst w) (drop (fst w) line).

(** A command with its strings in the buffer. *)
Fixpoint command_at (buf : list Z) (h : list node) (p : ptr) (c : cmd (list Z)) : Prop :=
  match c with
  | CExec argv => exists i av eav, p = Some i /\ h !! i = Some (EXEC av eav) /\ args buf av = argv
  | CRedir c file mode fd => exists i p' q e, p = Some i /\ below p' i /\
      h !! i = Some (REDIR p' q e mode fd) /\ cstr buf q = file /\ command_at buf h p' c
  | CPipe l r => exists i pl pr, p = Some i /\ below pl i /\ below pr i /\
      h !! i = Some (PIPE pl pr) /\ command_at buf h pl l /\ command_at buf h pr r
  | CList l r => exists i pl pr, p = Some i /\ below pl i /\ below pr i /\
      h !! i = Some (LIST pl pr) /\ command_at buf h pl l /\ command_at buf h pr r
  | CBack c => exists i p', p = Some i /\ below p' i /\ h !! i = Some (BACK p') /\ command_at buf h p' c
  end.

Lemma command_below buf h p c : command_at buf h p c -> below p (length h).
Proof.
  destruct c; simpl;
    [intros (i & av & eav & -> & H & _) | intros (i & p' & q & e & -> & _ & H & _)
    | intros (i & pl & pr & -> & _ & _ & H & _) | intros (i & pl & pr & -> & _ & _ & H & _)
    | intros (i & p' & -> & _ & H & _)];
    simpl; by eapply lookup_lt_Some.
Qed.

Lemma args_slots buf qs : args buf (slots qs) = cstr buf <$> qs.
Proof.
  unfold slots. generalize (MAXARGS - length qs)%nat. intros n.
  induction qs as [|q qs IH]; [by destruct n|].
  change (cstr buf q :: args buf ((Some <$> qs) ++ replicate n None) = cstr buf q :: (cstr buf <$> qs)).
  by rewrite IH.
Qed.

(** Terminating words, all of them longest ranges, leaves the characters of each. *)
Lemma cstr_word line tail ends w :
  0 ∉ line -> word_at line w -> snd w ∈ ends ->
  (forall e, e ∈ ends -> exists q, word_at line (q, e)) ->
  cstr (nul_at ends (line ++ 0 :: tail)) (fst w) = slice line w.
Proof.
  intros Hnul (Hlt & Hle & Hin & Hout) He Hends. set (b := nul_at ends _).
  assert (b !! snd w = Some 0) as H0.
  { unfold b. rewrite nul_at_lookup, decide_True by done.
    destruct (lookup_lt_is_Some_2 (line ++ 0 :: tail) (snd w)) as [y ->]; [rewrite length_app; simpl; lia | done]. }
  assert (forall x, (fst w <= x < snd w)%nat -> b !! x = line !! x) as Hsame.
  { intros x Hx. unfold b. rewrite nul_at_lookup, decide_False; [by rewrite lookup_app_l by lia|].
    intros Hx'. destruct (Hends x Hx') as (q & _ & _ & _ & Hq). simpl in Hq.
    destruct (lookup_lt_is_Some_2 line x ltac:(lia)) as [y Hy].
    pose proof (Hq y Hy). pose proof (Hin x y Hx Hy). congruence. }
  assert (strlen (drop (fst w) b) = Some (snd w - fst w)%nat) as Hs.
  { apply findi_Some. exists 0. split_and!; [rewrite lookup_drop; by replace (fst w + (snd w - fst w))%nat with (snd w) by lia | done |].
    intros j y Hj. rewrite lookup_drop, Hsame by lia. intros Hy. apply Z.eqb_neq. intros ->.
    apply Hnul. by apply list_elem_of_lookup_2 in Hy. }
  unfold cstr. rewrite Hs. simpl. unfold slice. apply list_eq. intros j.
  destruct (decide (j < snd w - fst w)%nat) as [Hj|Hj].
  - rewrite !lookup_take_lt, !lookup_drop by done. apply Hsame. lia.
  - by rewrite !lookup_take_ge by lia.
Qed.

Lemma repr_command line tail h c : forall p ends,
  0 ∉ line -> repr h p c ->
  (forall e, e ∈ ends -> exists q, word_at line (q, e)) ->
  Forall (fun w => word_at line w /\ snd w ∈ ends) (cmd_words c) ->
  command_at (nul_at ends (line ++ 0 :: tail)) h p (cmd_map (slice line) c).
Proof.
  induction c as [ws|c IH w mode fd|l IHl r IHr|l IHl r IHr|c IH]; intros p ends Hnul Hr Hends Hw; simpl in *.
  - destruct Hr as (i & -> & Hlen & Hi). eexists i, _, _. split_and!; [done | exact Hi|].
    rewrite args_slots, <- list_fmap_compose. apply list_fmap_ext. intros j w Hj. simpl.
    rewrite Forall_lookup in Hw. destruct (Hw j w Hj). by apply cstr_word.
  - destruct Hr as (i & p' & -> & Hb & Hi & Hc). apply Forall_app in Hw as [Hw Hw'].
    apply Forall_inv in Hw' as [Hw1 Hw2]. eexists i, p', _, _. split_and!; [done | done | exact Hi | by apply cstr_word | auto].
  - destruct Hr as (i & pl & pr & -> & Hbl & Hbr & Hi & Hl & Hr). apply Forall_app in Hw as [Hwl Hwr].
    exists i, pl, pr. split_and!; auto.
  - destruct Hr as (i & pl & pr & -> & Hbl & Hbr & Hi & Hl & Hr). apply Forall_app in Hw as [Hwl Hwr].
    exists i, pl, pr. split_and!; auto.
  - destruct Hr as (i & p' & -> & Hb & Hi & Hc). exists i, p'. split_and!; auto.
Qed.

Lemma wrap_words rs c : cmd_words (wrap rs c) = cmd_words c ++ (snd <$> rs).
Proof.
  induction rs as [|r rs IH] using rev_ind; [by rewrite app_nil_r|].
  unfold wrap. rewrite fold_left_app, fmap_app, app_assoc, <- IH. done.
Qed.

Lemma backs_words k (c : cmd word) : cmd_words (Nat.iter k CBack c) = cmd_words c.
Proof. by induction k. Qed.

Lemma redirs_words line rs : Forall (tok_ok line) (show_redirs rs) -> Forall (word_at line) (snd <$> rs).
Proof.
  induction rs as [|[c w] rs IH]; [constructor|].
  change (show_redirs ((c, w) :: rs)) with (Sym c :: Word w :: show_redirs rs).
  intros (_ & (Hw & H)%Forall_cons)%Forall_cons. constructor; [done | auto].
Qed.

Lemma items_words line items :
  Forall (tok_ok line) (show_items items) ->
  Forall (word_at line) (fst <$> items) /\ Forall (word_at line) (snd <$> (items ≫= snd)).
Proof.
  induction items as [|[w rs] items IH]; [done|]. rewrite show_items_cons.
  intros (Hw & (Hrs & H)%Forall_app)%Forall_cons. destruct (IH H) as [H1 H2].
  split; [by constructor|]. simpl. rewrite fmap_app. apply Forall_app. split; [by apply redirs_words | done].
Qed.

Lemma lin_words line (l : lin) : Forall (tok_ok line) (show_lin l) -> Forall (word_at line) (cmd_words (lin_cmd l))
with pip_words line (p : pip) : Forall (tok_ok line) (show_pip p) -> Forall (word_at line) (cmd_words (pip_cmd p))
with exe_words line (e : exe) : Forall (tok_ok line) (show_exe e) -> Forall (word_at line) (cmd_words (exe_cmd e)).
Proof.
  - destruct l as [p k rest]. cbn [show_lin lin_cmd]. rewrite !Forall_app. intros (Hp & _ & Hr).
    specialize (pip_words line p Hp). destruct rest as [l'|]; cbn [cmd_words]; rewrite ?Forall_app, backs_words; [|done].
    split; [done|]. apply Forall_cons in Hr as [_ Hr]. exact (lin_words line l' Hr).
  - destruct p as [e rest]. cbn [show_pip pip_cmd]. rewrite Forall_app. intros (He & Hr).
    specialize (exe_words line e He). destruct rest as [p'|]; cbn [cmd_words]; rewrite ?Forall_app; [|done].
    split; [done|]. apply Forall_cons in Hr as [_ Hr]. exact (pip_words line p' Hr).
  - destruct e as [rs items|l rs]; cbn [show_exe exe_cmd]; rewrite wrap_words; cbn [cmd_words].
    + rewrite Forall_app. intros (Hrs & Hit). apply items_words in Hit as [H1 H2].
      rewrite fmap_app, !Forall_app. split_and!; [done | by apply redirs_words | done].
    + intros (_ & (Hl & (_ & Hrs)%Forall_cons)%Forall_app)%Forall_cons. rewrite Forall_app.
      split; [exact (lin_words line l Hl) | by apply redirs_words].
Qed.

(** ** The whole parser *)

(** The line's tokens are those of a line of the grammar. *)
Definition grammatical (line : list Z) (l : lin) : Prop := lin_ok l /\ tokens line = show_lin l.

Lemma parse_ends line n :
  (4 * length line + 4 <= n)%nat ->
  match plin n (tokens line) with
  | Some (l, []) => grammatical line l
  | _ => forall l, ~ grammatical line l
  end.
Proof.
  intros Hn. pose proof (lex_length (length line) 0 line) as Hlen. fold (tokens line) in Hlen.
  assert (forall l, grammatical line l -> plin n (tokens line) = Some (l, [])) as Hc.
  { intros l [Hok Ht]. destruct (parse_complete n) as (H & _). rewrite Ht in *.
    rewrite <- (app_nil_r (show_lin l)). apply H; [lia | done | done]. }
  destruct (plin n (tokens line)) as [[l [|t rest]]|] eqn:E.
  - apply parse_sound in E as [Ht Hok]. by rewrite app_nil_r in Ht.
  - intros l' Hg. apply Hc in Hg. done.
  - intros l' Hg. apply Hc in Hg. done.
Qed.

Lemma strlen_line line tail : 0 ∉ line -> strlen (line ++ 0 :: tail) = Some (length line).
Proof.
  intros Hnul. apply findi_Some. exists 0.
  split_and!; [by rewrite lookup_app_r, Nat.sub_diag by lia | done |].
  intros j y Hj Hy. rewrite lookup_app_l in Hy by done. apply Z.eqb_neq. intros ->.
  apply Hnul. by apply list_elem_of_lookup_2 in Hy.
Qed.

(** The last step: terminating the strings of a parsed line. *)
Lemma terminate_line line tail l p st :
  0 ∉ line -> sh_buf st = line ++ 0 :: tail -> repr (sh_heap st) p (lin_cmd l) ->
  Forall (word_at line) (cmd_words (lin_cmd l)) ->
  exists st', nulterminate (S (length (sh_heap st))) p st = Ret p st' /\
    command_at (sh_buf st') (sh_heap st') p (cmd_map (slice line) (lin_cmd l)).
Proof.
  intros Hnul Hb Hrep Hw. exists (terminated (lin_cmd l) st). split.
  - apply nulterminate_eq; [done | eapply below_le; [by eapply repr_below | lia]|].
    eapply Forall_impl; [exact Hw|]. intros w (_ & Hle & _). rewrite Hb, length_app. simpl. lia.
  - simpl. rewrite Hb. rewrite Forall_forall in Hw. apply repr_command; [done | done | |].
    + intros e (w & -> & Hwin)%list_elem_of_fmap. exists (fst w). destruct w. by apply Hw.
    + apply Forall_forall. intros w Hwin. split; [by apply Hw | by apply list_elem_of_fmap_2].
Qed.

Lemma parsecmd_spec line tail room :
  0 ∉ line -> (2 * length line + 1 <= room)%nat ->
  let st := mk_shst (line ++ 0 :: tail) 0 [] room [] in
  (exists l p st', grammatical line l /\ parsecmd st = Ret p st' /\
     command_at (sh_buf st') (sh_heap st') p (cmd_map (slice line) (lin_cmd l))) \/
  ((forall l, ~ grammatical line l) /\ exists msg st', parsecmd st = Panic msg st').
Proof.
  intros Hnul Hroom st. set (n := (4 * length line + 4)%nat).
  pose proof (lex_length (length line) 0 line) as Hlen. fold (tokens line) in Hlen.
  assert (stands line tail st (tokens line)) as Hst by (split_and!; [done | simpl; lia | done]).
  pose proof (proj1 (parser_refines line tail Hnul n) (tokens line) st Hst ltac:(unfold n; lia) ltac:(simpl; lia)) as Hp.
  pose proof (parse_ends line n ltac:(lia)) as Hg.
  unfold parsecmd. rewrite bind_gets. change (sh_buf st) with (line ++ 0 :: tail).
  rewrite strlen_line by done. simpl deref. rewrite bind_ret, bind_modify.
  change (set_sh_pos 0 st) with st. fold n.
  destruct (plin n (tokens line)) as [[l rest]|].
  2:{ right. split; [done|]. destruct Hp as (msg & st' & Hp). exists msg, st'. by rewrite (bind_Panic _ _ _ _ _ Hp). }
  destruct Hp as (p & st1 & Hrun & Hst1 & Hrep & _ & Hgr). rewrite (bind_Ret _ _ _ _ _ Hrun).
  destruct (peek_last line tail st1 rest Hst1) as (j & Hpk & Hj & Hiff).
  rewrite (bind_Ret _ _ _ _ _ Hpk), bind_gets. change (sh_pos (set_sh_pos j st1)) with j.
  destruct rest as [|t rest].
  - left. rewrite (proj2 Hiff eq_refl), Nat.eqb_refl. cbn [negb]. rewrite bind_gets.
    pose proof (lin_words line l) as Hw. destruct Hg as [Hok Ht].
    rewrite <- Ht in Hw. specialize (Hw (stands_ok _ _ _ _ Hst)). destruct Hst1 as (Hb1 & _).
    destruct (terminate_line line tail l p (set_sh_pos (length line) st1) Hnul Hb1 Hrep Hw) as (st' & Hn & Hc).
    exists l, p, st'. split_and!; [done | | exact Hc]. by rewrite (bind_Ret _ _ _ _ _ Hn).
  - right. split; [done|]. rewrite (proj2 (Nat.eqb_neq _ _)) by (intros E; by apply Hiff in E).
    by eexists _, _.
Qed.

(** C25: sh.c's parser on any line without NUL characters, with memory for two nodes for each
    character and one more: it terminates without faulting, that is, without reading or
    writing outside the buffer, the nodes and the argument vectors. If the line's tokens
    form a line of the grammar it returns a command in the heap whose strings, terminated in
    the buffer, are those of the command the grammar gives; otherwise it ends in a syntax
    error. *)
Theorem parsecmd_correct line tail room :
  0 ∉ line -> (2 * length line + 1 <= room)%nat ->
  let st := mk_shst (line ++ 0 :: tail) 0 [] room [] in
  (exists l p st', grammatical line l /\ parsecmd st = Ret p st' /\
     command_at (sh_buf st') (sh_heap st') p (cmd_map (slice line) (lin_cmd l))) \/
  ((forall l, ~ grammatical line l) /\ exists msg st', parsecmd st = Panic msg st').
Proof. intros H1 H2. by apply parsecmd_spec. Qed.

(** A line has one derivation. *)
Lemma grammatical_unique line l l' : grammatical line l -> grammatical line l' -> l = l'.
Proof.
  intros [Hok Ht] [Hok' Ht']. set (n := (4 * length (tokens line) + 4)%nat).
  pose proof (proj1 (parse_complete n) l [] ltac:(unfold n; rewrite Ht; lia) Hok I) as H1.
  pose proof (proj1 (parse_complete n) l' [] ltac:(unfold n; rewrite Ht'; lia) Hok' I) as H2.
  rewrite app_nil_r, <- Ht in H1. rewrite app_nil_r, <- Ht' in H2. congruence.
Qed.

(** ** Example: [(ls -l | wc >n) &] *)

Definition demo_line : list Z :=
  [40; 108; 115; 32; 45; 108; 32; 124; 32; 119; 99; 32; 62; 110; 41; 32; 38; 10].
Definition demo_lin : lin :=
  Lin (Pip (Block (Lin (Pip (Simple [] [((1, 3), []); ((4, 6), [])])
    (Some (Pip (Simple [] [((9, 11), [(62%Z, (13, 14))])]) None))) 0 None) []) None)%nat 1 None.

Lemma demo_no_nul : 0 ∉ demo_line.
Proof. rewrite <- strchr_elem. done. Qed.

Lemma demo_grammatical : grammatical demo_line demo_lin.
Proof. split; [|reflexivity]. simpl. unfold redir_ok, MAXARGS. repeat constructor; simpl; auto; lia. Qed.

Lemma parsecmd_correct_witness :
  let st := mk_shst (demo_line ++ 0 :: [7]) 0 [] 100 [] in
  (exists l p st', grammatical demo_line l /\ parsecmd st = Ret p st' /\
     command_at (sh_buf st') (sh_heap st') p (cmd_map (slice demo_line) (lin_cmd l))) \/
  ((forall l, ~ grammatical demo_line l) /\ exists msg st', parsecmd st = Panic msg st').
Proof. apply (parsecmd_correct demo_line [7] 100 demo_no_nul). simpl. lia. Defined.
