(* ===== verification/ShellRun.v ===== *)
(** * Running a command line

    [runcmd] of sh.c as the system calls of a tree of processes, against the descriptors
    each program of the command should run with; and the composition with the parser. *)

From S2P Require Import Prelude Monad KState Sysfile Shell ShellSpec ShellParse.

(** ** Processes and descriptors *)

(** What a descriptor is open on. *)
Inductive file :=
  | FStd (n : nat)
  | FFile (path : list Z) (mode : Z)
  | FPipeR (n : nat)
  | FPipeW (n : nat).

Definition fdtable := list (option file).

(** The lowest free descriptor. *)
Definition lowest (fds : fdtable) : option nat :=
  findi (fun f => match f with None => true | Some _ => false end) fds.

(** What is seen of a tree of processes: the programs run, with their descriptors, and the
    messages. *)
Inductive event :=
  | Run (argv : list (list Z)) (fds : fdtable)
  | Message (fmt : string) (args : list (list Z))
  | Broken.

Section run.
(** Which files [open] can open, and which programs there are. *)
Context (opens : list Z -> Z -> bool) (runs : list Z -> bool).

(** A process and its children, with [n] pipes made before; [fork] succeeds, and the
    events of the child come first. *)
Fixpoint run (p : prog) (fds : fdtable) (n : nat) : list event * nat :=
  match p with
  | Exit => ([], n)
  | Stuck => ([Broken], n)
  | Exec argv failed =>
      if runs (default [] (head argv)) then ([Run argv fds], n) else run failed fds n
  | Open path mode k =>
      match lowest fds with
      | Some i =>
          if opens path mode then run (k (Z.of_nat i)) (<[i := Some (FFile path mode)]> fds) n
          else run (k (-1)) fds n
      | None => run (k (-1)) fds n
      end
  | Close fd k => run k (<[Z.to_nat fd := None]> fds) n
  | Dup fd k =>
      match fds !! Z.to_nat fd, lowest fds with
      | Some (Some f), Some i => run k (<[i := Some f]> fds) n
      | _, _ => run k fds n
      end
  | Pipe k =>
      match lowest fds with
      | Some i =>
          let fds1 := <[i := Some (FPipeR n)]> fds in
          match lowest fds1 with
          | Some j => run (k (Some (Z.of_nat i, Z.of_nat j))) (<[j := Some (FPipeW n)]> fds1) (S n)
          | None => run (k None) fds n
          end
      | None => run (k None) fds n
      end
  | Fork k =>
      let '(e1, n1) := run (k 0) fds n in
      let '(e2, n2) := run (k 1) fds n1 in
      (e1 ++ e2, n2)
  | Wait k => run k fds n
  | Chdir _ k => run (k 0) fds n
  | Read k => run (k None) fds n
  | Print fmt args k => let '(e, n1) := run k fds n in (Message fmt args :: e, n1)
  end.

(** ** What a command should do

    The programs of a command with standard input, output and error [fs]; no other
    descriptor is open in any of them. *)

Definition table (fs : list file) : fdtable := (Some <$> fs) ++ replicate (NOFILE - length fs) None.

Fixpoint wired (c : cmd (list Z)) (fs : list file) (n : nat) : list event * nat :=
  match c with
  | CExec [] => ([], n)
  | CExec (path :: args) =>
      if runs path then ([Run (path :: args) (table fs)], n)
      else ([Message "exec %s failed" [path]], n)
  | CRedir c file mode fd =>
      if opens file mode then wired c (<[Z.to_nat fd := FFile file mode]> fs) n
      else ([Message "open %s failed" [file]], n)
  | CPipe l r =>
      let '(e1, n1) := wired l (<[1%nat := FPipeW n]> fs) (S n) in
      let '(e2, n2) := wired r (<[0%nat := FPipeR n]> fs) n1 in
      (e1 ++ e2, n2)
  | CList l r =>
      let '(e1, n1) := wired l fs n in
      let '(e2, n2) := wired r fs n1 in
      (e1 ++ e2, n2)
  | CBack c => wired c fs n
  end.

(** Redirections concern the three standard descriptors. *)
Fixpoint fds_ok {W} (c : cmd W) : Prop :=
  match c with
  | CExec _ => True
  | CRedir c _ _ fd => 0 <= fd < 3 /\ fds_ok c
  | CPipe l r => fds_ok l /\ fds_ok r
  | CList l r => fds_ok l /\ fds_ok r
  | CBack c => fds_ok c
  end.

(** ** [runcmd] does it *)

(** A closed standard descriptor is the next one opened. *)
Lemma reopen fs fd f :
  length fs = 3%nat -> 0 <= fd < 3 ->
  lowest (<[Z.to_nat fd := None]> (table fs)) = Some (Z.to_nat fd) /\
  <[Z.to_nat fd := Some f]> (<[Z.to_nat fd := None]> (table fs)) = table (<[Z.to_nat fd := f]> fs).
Proof.
  intros Hl Hfd. destruct fs as [|a [|b [|d [|]]]]; try done.
  assert (fd = 0 \/ fd = 1 \/ fd = 2) as [->|[->| ->]] by lia; done.
Qed.

Lemma std_files (fs : list file) : length fs = 3%nat -> exists a b d, fs = [a; b; d].
Proof. destruct fs as [|a [|b [|d [|]]]]; try done. eauto. Qed.

Lemma runcmd_spec buf h c : forall fuel p fs n,
  command_at buf h p c -> fds_ok c -> below p fuel -> length fs = 3%nat ->
  run (runcmd fuel buf h p) (table fs) n = wired c fs n.
Proof.
  assert (forall i fuel q, below (Some i) (S fuel) -> below q i -> below q fuel) as Hlt
    by (intros i fuel q Hi Hq; eapply below_le; [exact Hq | simpl in Hi; lia]).
  induction c as [argv|c IH file mode fd|l IHl r IHr|l IHl r IHr|c IH]; intros fuel p fs n Hc Hok Hb Hfs;
    (destruct fuel as [|fuel]; [by destruct p; simpl in Hb; [lia|]|]); simpl in Hc, Hok.
  - destruct Hc as (i & av & eav & -> & Hi & <-). cbn [runcmd]. rewrite Hi.
    destruct (args buf av) as [|path rest]; [done|]. simpl. by destruct (runs path).
  - destruct Hc as (i & p' & q & e & -> & Hb' & Hi & <- & Hc). destruct Hok as [Hfd Hok].
    cbn [runcmd]. rewrite Hi. cbn [run wired].
    destruct (reopen fs fd (FFile (cstr buf q) mode) Hfs Hfd) as [-> ->].
    destruct (opens (cstr buf q) mode); [|done]. rewrite (proj2 (Z.ltb_ge _ _)) by lia.
    apply IH; [done | done | by eapply Hlt | by rewrite length_insert].
  - destruct Hc as (i & pl & pr & -> & Hbl & Hbr & Hi & Hl & Hr). destruct Hok as [Hokl Hokr].
    specialize (IHl fuel pl). specialize (IHr fuel pr).
    destruct (std_files fs Hfs) as (a & b & d & ->). cbn [runcmd]. rewrite Hi.
    transitivity (let '(e1, n1) := run (runcmd fuel buf h pl) (table [a; FPipeW n; d]) (S n) in
      let '(e2, n2) := let '(e2, n2) := run (runcmd fuel buf h pr) (table [FPipeR n; b; d]) n1 in (e2 ++ [], n2) in
      (e1 ++ e2, n2)); [reflexivity|].
    rewrite IHl by eauto. cbn [wired]. change (<[1%nat := FPipeW n]> [a; b; d]) with [a; FPipeW n; d].
    destruct (wired l [a; FPipeW n; d] (S n)) as [e1 n1]. rewrite IHr by eauto.
    change (<[0%nat := FPipeR n]> [a; b; d]) with [FPipeR n; b; d].
    destruct (wired r [FPipeR n; b; d] n1) as [e2 n2]. by rewrite app_nil_r.
  - destruct Hc as (i & pl & pr & -> & Hbl & Hbr & Hi & Hl & Hr). destruct Hok as [Hokl Hokr].
    cbn [runcmd]. rewrite Hi. cbn. rewrite (IHl fuel pl) by eauto. destruct (wired l fs n) as [e1 n1].
    rewrite (IHr fuel pr) by eauto. done.
  - destruct Hc as (i & p' & -> & Hb' & Hi & Hc). cbn [runcmd]. rewrite Hi. cbn.
    rewrite (IH fuel p') by eauto. destruct (wired c fs n) as [e1 n1]. by rewrite app_nil_r.
Qed.

(** ** A line from the buffer to the programs *)

Lemma fds_map {A B} (f : A -> B) c : fds_ok c -> fds_ok (cmd_map f c).
Proof. induction c; simpl; tauto. Qed.

Lemma fds_wrap rs c : fds_ok c -> fds_ok (wrap rs c).
Proof.
  revert c. induction rs as [|r rs IH]; intros c Hc; [done|]. apply (IH (CRedir c _ _ _)). split; [|done].
  unfold redir_fd. destruct (fst r =? 60); lia.
Qed.

Lemma fds_lin (l : lin) : fds_ok (lin_cmd l)
with fds_pip (p : pip) : fds_ok (pip_cmd p)
with fds_exe (e : exe) : fds_ok (exe_cmd e).
Proof.
  - destruct l as [p k rest]. cbn [lin_cmd]. pose proof (fds_pip p) as Hp.
    assert (fds_ok (Nat.iter k CBack (pip_cmd p))) by (by induction k).
    destruct rest as [l'|]; [split; [done | exact (fds_lin l')] | done].
  - destruct p as [e rest]. cbn [pip_cmd]. pose proof (fds_exe e) as He.
    destruct rest as [p'|]; [split; [done | exact (fds_pip p')] | done].
  - destruct e as [rs items|l rs]; cbn [exe_cmd]; apply fds_wrap; [done | exact (fds_lin l)].
Qed.

Definition is_message (e : event) : Prop := match e with Message _ _ => True | _ => False end.

Lemma run_messages errs msg fds n :
  exists es, run (fold_right (fun e p => Print (fst e) [snd e] p) (sh_panic msg) errs) fds n = (es, n) /\
    Forall is_message es.
Proof.
  induction errs as [|e errs (es & IH & Hes)]; simpl.
  - eexists. split; [reflexivity|]. by repeat constructor.
  - rewrite IH. eexists. split; [reflexivity|]. by constructor.
Qed.

(** C22: what the shell's child does with a line, from its characters to the programs it
    runs, with standard descriptors [fs] and nothing else open. A line of the grammar runs
    exactly the programs of its command, in order, each with its own arguments and with the
    three descriptors the redirections and pipes give it, no end of a pipe being left open
    besides; a program that does not exist or a file that cannot be opened is reported. Any
    other line runs nothing and is reported.  Every [fork] succeeds. *)
Theorem shell_line_correct line tail room fs n :
  0 ∉ line -> (2 * length line + 1 <= room)%nat -> length fs = 3%nat ->
  (forall l, grammatical line l ->
     run (run_line room (line ++ 0 :: tail)) (table fs) n =
     wired (cmd_map (slice line) (lin_cmd l)) fs n) /\
  ((forall l, ~ grammatical line l) ->
     exists es, run (run_line room (line ++ 0 :: tail)) (table fs) n = (es, n) /\ Forall is_message es).
Proof.
  intros Hnul Hroom Hfs. unfold run_line.
  destruct (parsecmd_spec line tail room Hnul Hroom) as [(l & p & st & Hg & -> & Hc)|(Hng & msg & st & ->)].
  - split; [|intros H; by destruct (H l)]. intros l' Hg'. rewrite (grammatical_unique line l' l Hg' Hg).
    apply runcmd_spec; [done | apply fds_map, fds_lin | | done].
    eapply below_le; [by eapply command_below | lia].
  - split; [intros l Hg; by destruct (Hng l)|]. intros _. apply run_messages.
Qed.
End run.

Lemma shell_line_correct_witness :
  run (fun _ _ => true) (fun _ => true) (run_line 100 (demo_line ++ 0 :: [7]))
    (table [FStd 0; FStd 1; FStd 2]) 0 =
  ([Run [[108; 115]; [45; 108]] (table [FStd 0; FPipeW 0; FStd 2]);
    Run [[119; 99]] (table [FPipeR 0; FFile [110] (Z.lor O_WRONLY O_CREATE); FStd 2])], 1%nat).
Proof.
  rewrite (proj1 (shell_line_correct (fun _ _ => true) (fun _ => true) demo_line [7] 100 [FStd 0; FStd 1; FStd 2] 0
    demo_no_nul ltac:(simpl; lia) eq_refl) demo_lin demo_grammatical). reflexivity.
Defined.

(** ** What the theorems do not promise *)

(** [>>] is a token of its own, but opens its file as [>] does: nothing appends. *)
Lemma append_is_overwrite : redir_mode 43 = redir_mode 62 /\ redir_fd 43 = redir_fd 62.
Proof. done. Qed.

(** [cd] chops the last character of its line, which is the newline only if the line has
    one: after [cd ab] at the end of the input the directory is [a]. *)
Lemma cd_chops_last_char k :
  do_line 0 ([99; 100; 32; 97; 98] ++ replicate 95 0) k =
  Chdir [97] (fun r => if r <? 0 then Print "cannot cd %s" [[97]] k else k).
Proof. reflexivity. Qed.
